(* ===== verification/_CoqProject ===== *)
-Q . S2P
Prelude.v
Bytes.v
DbStruct.v
KeyRec.v
AvlTree.v
KeyRecRepr.v
KeyRecOps.v
KeyPage.v
Prime.v
File.v
FileLaws.v
FdpMgr.v
DbFiles.v
RwLock.v
Disk.v
PageMgr.v
Cache.v
HashTable.v
Dll.v
CacheFacts.v
HashFacts.v
Store.v
Unwind.v
Rdb.v
RdbOpen.v
PageStore.v
RdbFiles.v
RdbInv.v
RdbMem.v
RdbSearch.v
RdbOps.v
RdbUnlink.v
RdbRefine.v
RdbSpec.v
Effects.v
Numbers.v
JsonStream.v
JsonUtf.v
JsonMisc.v
JsonReal.v
JsonValue.v
JsonLexer.v
JsonParser.v
JsonTokens.v
JsonRoundTrip.v
UriText.v
Uri.v
UriRoundTrip.v
Text.v
Timeutil.v
Scanner.v
Hval.v
Headers.v
HeadersSpec.v
HvalText.v
Nio.v
Body.v
Message.v
Transmit.v
TransmitFacts.v
Router.v
Reactor.v
ThreadPool.v
FileBody.v
Server.v
Config.v
Addr.v
NioNum.v
Sock.v
SockLife.v
SocketTransport.v
Cnxn.v
TlsTransport.v
Clap.v
FileSys.v
LogRec.v
Flogger.v
LogMgr.v
Ssl.v
RdbRebuild.v
