(* ===== verification/Prelude.v ===== *)
(** * Simple-N-Fast: a verification development

    Simple-N-Fast (C++) is a set of libraries and a few programs: [libcom]
    (files, configuration, command lines, threads), [liblog] (logging),
    [libjson] (a JSON parser and printer), [librdb] (an on-disk key/value
    database), [libnet] (addresses, sockets, TLS and a reactor), [libsslwrapper]
    (OpenSSL), [http] (messages, URIs and a server over [libnet]), [jdaemon] and
    a test framework.  This
    development models the parts that carry logic of their own and states what
    makes them correct.

    ** How the parts interact

    A database of [librdb] is a key file of key pages, a value file of value
    pages and small attribute and free-page files.  [Rdb] hashes a key to an
    entry of [HashTable], takes the entry's read-write lock, walks the key pages
    of the entry (read through [LRUCache] and [KeyFile]) and searches or changes
    the AVL tree that [KeyRecords] keeps inside a page.  [FreeDiskPageMgr] hands
    out pages of the two files; [UnwindStack] undoes disk writes after an error.
    All files are [snf::file] of [libcom].  [libjson] reads a text through a
    lexer over a [std::istream] and builds [value]s; utf.cpp and misc.cpp
    translate escapes both ways.  [http] is a server and the messages for it: a
    reactor ([libnet]) polls the sockets and calls the handlers of the server,
    which submit requests to a thread pool ([libcom]); a worker reads the message
    through [nio] and the scanner, parses its target with [uri] and its fields
    into typed values, finds a handler with the router, and sends the response
    with its body; errors become JSON bodies made with [libjson].  [nio] is the
    interface of sockets and of TLS connections, so that what is proved of messages
    holds over both.  [liblog] writes records to the console and to files of
    [libcom], is configured with [libjson], and can write records as JSON.

    ** Files and what they model

    A file has its definitions first and the theorems on them behind; where these
    are long they have files of their own.

    - [Prelude]: machine integers ([wrapS], [wrapU]: the value after the
      assignment to a [w]-bit integer), [outcome] (a value, undefined behaviour,
      an [abort()] of [ASSERT], or the end of the model's fuel), arrays indexed
      by C++ integers, [memcmp], [memcpy].  [Bytes]: little-endian integers.
      [Numbers]: numbers as text, bit fields.  [Effects]: exceptions and
      computations on a mutable object.
    - [DbStruct] (librdb/include/dbstruct.h): key records, key pages, value
      pages.
    - [KeyRec] (librdb/src/keyrec.cpp): every operation of [KeyRecords] on an
      explicit page; record accesses outside the page are [Undef].  [AvlTree] is
      the abstract tree with its in-order association list; [KeyRecRepr] relates
      a page to a tree (which record is which node, the others free);
      [KeyRecOps] shows that each operation computes on pages what the tree
      operation computes on trees; [KeyPage] turns this into the contract: a
      page is a finite map from keys to value offsets ([put_refines_insert],
      [remove_refines_delete], [get_refines_lookup], [put_full]), its tree stays
      balanced under insertion and a lookup in a page of the default size takes
      at most nine comparisons; removal can leave it unbalanced
      ([remove_unbalances]), and frees another record than [get] reports.
    - [Prime] (librdb/src/prime.cpp): the size of the hash table.
    - [File] (libcom/src/file.cpp, POSIX branch): every method of [snf::file],
      over a record of system calls.  [FileLaws]: the laws of the calls on a
      regular file - failures, interruptions, short reads and writes allowed -
      as the class [Regular]; what the methods then do; and [script_sys], a
      system with a script of faults on which the laws hold and all witnesses run.
    - [FdpMgr] (librdb/src/fdpmgr.cpp): the stack of free pages and its file.
      [fdp_run] is the life of a manager; in it no page is handed out twice
      ([pages_not_shared]), and the file keeps the stack ([stack_persists]) -
      except after the failures of [failed_update_desyncs].
    - [DbFiles] (librdb/src/dbfiles.cpp): the three database files, with the
      bytes of the structures: pages survive being written and read, a link
      update changes one field, [writeFlags] changes two, new pages come from
      the free-page manager and go back when the write fails.
    - [RwLock] (librdb/src/rwlock.cpp and the lock functions of hashtable.cpp):
      threads as the step relation [step]; mutual exclusion is an invariant of
      every interleaving, and a thread that waits stops the whole table.
    - [Disk]: bytes on a disk, and the class [Reliable]: what the calls on a
      regular file do on a disk without faults; [ram_sys] is a file system in
      memory, with a script of faults, on which it holds.  [Store]: on such a disk
      the pages of a file with its free-page manager are a finite map.
    - [PageMgr] (librdb/src/pagemgr.cpp), [Cache] (cache.cpp, on an explicit heap
      of nodes), [HashTable] (hashtable.cpp): every operation.  [Dll]: doubly
      linked segments of a heap.  [CacheFacts]: the list of the cache, what each
      operation does to it, and the invariant [cache_ok] that ties nodes, pages
      and the pool together; [HashFacts]: the hash function and the list of an
      entry.  Three defects are theorems: [touch] and [free] leave the tail and the
      count behind, [update] loses a list.
    - [Unwind] (unwind.cpp), [Rdb] (rdb.cpp): [get], [set] and [remove] with all
      their parts, on the state [db] of an open database; [RdbOpen]: the
      constructor, the setters, [open], [close] and the functions that rebuild the
      tables from the files; [RdbRebuild]: [rebuild] over the calls on names of
      files, and what becomes of the files when they cannot be moved aside.
    - The refinement of [Rdb].  [PageStore]: a key page that fits its bytes and
      holds a map, and what the operations of [KeyPage] make of it.  [RdbFiles]:
      the two files as two finite maps.  [RdbInv]: a bucket, the chain of its
      pages on the disk, of which a prefix is in memory; [RdbMem]: all buckets
      with the cache and the hash table ([mem_ok]) and what each change in memory
      does to them.  [RdbSearch]: the two loops of [processKeyPages];
      [RdbOps]: the visits that end them, and [addNewPage]; [RdbUnlink]:
      [remove_page].  [RdbRefine]: [represents], the database is a map of keys to
      values, and the three operations on it.  [RdbSpec]: the theorems for the
      callers, for single operations and for sequences ([run_refines_map]), and a
      database that [open] has made, for which the assumptions hold.
    - [JsonStream] (the [std::istream] the lexer reads), [JsonUtf]
      (libjson/src/utf.cpp), [JsonMisc] (libjson/src/misc.cpp): UTF-8 and UTF-16,
      [string_escape] and [string_unescape].  [JsonReal]: reals
      as binary64 data, [std::stold] (80-bit, then rounded to [double]) and
      [operator<<] with its six digits.  [JsonValue] (libjson/include/json.h,
      libjson/src/json.cpp): values, objects as ordered maps, printing.
      [JsonLexer], [JsonParser] (libjson/src/lexer.cpp, parser.cpp): tokens, the
      parser.  [JsonTokens], [JsonRoundTrip]: what the lexer does on printed
      text; parsing a printed value gives it back, parsing always ends.
    - [UriText], [Uri] (http/include/common/uri.h, http/src/common/uri.cpp):
      components and their encodings, paths as segments, parsing, printing and
      merging.  The facts: parsing ends, decoding inverts the RFC 3986
      encoding, the code's own encoding does not.  [UriRoundTrip]: a canonical
      URI survives printing and parsing; merging resolves dot segments in paths without encoded characters.
    - [Text] (trim of libcom/src/common.cpp, the exceptions), [Timeutil]
      (libcom/src/timeutil.cpp): dates with both their formats; a date survives
      printing and parsing.
    - [Scanner] (http/src/common/scanner.cpp, charset.h): its readers, on a text.
      [Hval] (hval.cpp, version.cpp): the values of fields; with [HvalText]: which
      values are read back as they were printed ([value_round]).
      [Headers] (headers.cpp): the list of fields; [HeadersSpec]:
      its names are distinct and its values typed ([headers_invariant],
      [getters_typed]), and it refines a finite map ([headers_refine_map]), as
      long as the [update] of a value object gets what fits the field.
    - [Nio] (libnet/include/nio.h, libnet/src/nio.cpp), over the class [Transport]
      of what sockets and TLS connections implement; [pipe] is a peer whose bytes
      are a list.  Integers, strings and lines on it; a buffered [nio] never reads.
      [NioNum]: the templates for integers, which arrive, and for real numbers, most
      of which do not.
    - [Body] (http/src/common/body.cpp): the sources of a body, with
      one proof for sockets and streams through the class [TextSource]: which
      bodies arrive ([sized_body_drains]) and which do not ([second_chunk_lost],
      [stream_body_reads_too_far]).  [FileBody]: bodies from files, and [read_file].
    - [Message] (method.cpp, status.cpp, message.cpp, request.cpp, response.cpp):
      messages, their validation, printing and reading.  [Transmit]
      (transmit.cpp): sending and receiving.  [TransmitFacts]: what
      one side sends the other receives ([request_received], [response_received]),
      apart from requests without a length and chunked bodies.
    - [Router] (http/src/server/router.cpp), over the class [Regex]: the tree of
      segments and its search.  Without parameters it is a finite
      map ([router_is_map]); with them values are recorded under the expression,
      and a search that goes back can leave defined behaviour.
    - [Reactor] (libnet/src/reactor.cpp), over the classes [Names] and [Handlers]:
      registration, the poll vector, the rounds; [step] is the reactor among other
      threads, and its mutex is part of the state.  Facts: the invariant of
      all interleavings, the calls of a round ([dispatch_calls]), and handlers that
      cannot be used.
    - [ThreadPool] (libcom/include/thrdpool.h): queue and workers as steps;
      tasks are started in order and once, no wake-up is lost, stopping ends.
    - [Config] (libcom/src/config.cpp): the reader of configuration files; what is
      written as entries is read back.
    - [Server] (http/src/server/handler.cpp, server.cpp): the handlers, as an
      instance of the reactor's class, on a heap of sockets and connections.
      Facts: from the bytes of a request to the bytes of its answer
      ([request_answered], which composes the theorems on messages, router and
      transmission, for connections that are kept and statuses below 400), and the states in which the server cannot go on.
    - [Addr] (libnet/src/ia.cpp, sa.cpp, addrinfo.cpp, host.cpp): addresses, a
      socket address as the bytes of its structure, the lookups with their tries,
      hosts.  An address survives its texts and its bytes; a lookup
      returns its first result as often as there are results.
    - [Sock] (libnet/src/sock.cpp, net.cpp), over the class [SockCalls]: every
      method of a socket on Unix.  On a connected stream, the class
      [Connected], [readn] and [writen] do what [pipe] does, until a wait is over;
      [connect]; the options.  [SockLife]: sockets among others, as steps: every
      owner has an open descriptor of its own, and an assignment loses one; the
      listening sockets of the server ([setup_socket]).
      [SocketTransport]: what two transports that behave as [pipe] make of a
      request, with the theorems of [TransmitFacts]; sockets are such transports
      ([request_over_sockets]).
    - [Cnxn] (libnet/src/cnxn.cpp, libsslwrapper/src/tls.cpp), over the class
      [SslCalls]: handshakes, transfers, the choice of a context; what
      they do when OpenSSL asks to be tried again, and what callers are not told;
      [TlsTransport]: TLS connections are transports too ([request_over_tls]).
    - [Ssl] (safestr.cpp, keymgr.cpp, the callback of ctx.cpp and the comparison of
      names of crt.cpp in libsslwrapper): secrets on a heap of blocks, the keys of
      session tickets, certificate names.  Secrets are erased, a key is
      found until the one after it is replaced, wildcards end in an exception.
    - [Clap] (libcom/include/clap.h, libcom/src/clap.cpp): command lines, with
      [std::stoll] and [std::stod]; the grammar [accepts] and the tree
      that [parse] marks, for commands with one option.
    - [FileSys] (libcom/src/filesystem.cpp, fattr.cpp, dir.cpp, basename of
      common.cpp), over the class [FsCalls]; what [mkdir] makes, on a tree of directories
      where a parent has to be there first ([DirTree]).
    - [LogRec] (liblog/include/logsev.h, logrec.h, logger.h and their sources):
      severities, records and their formats, the console; records as
      JSON are read back by [libjson].  [Flogger] (flogger.cpp): log files, their
      names, rotation and retention, on files of [File] and directories of
      [FileSys]; a logger that starts again goes on where it was
      ([restart_goes_on]), the size of a file, what a purge removes.  [LogMgr]
      (logmgr.cpp): the loggers under their numbers, and their configuration as
      JSON.

    ** Conventions

    A method becomes a function from the object's state (and, for files, the
    state of the system) to its result and the new state; loops and recursions
    that are not structural take fuel.  The theorems give the fuel: a page's
    number of records for [KeyRec] (its tree has no longer path), the length of
    the text for the parsers, the bytes plus the interruptions to come for
    reads, the number of keys plus three for the database (no page is without
    keys, so a search visits no more pages than there are keys), the lines of a
    header, the pieces of a body, and they state that the result is reached, not
    only that it is right.
    [OutOfFuel] and [Diverge] are never results of the code under those bounds;
    [Diverge] is also the result of a thread that locks a mutex it holds.
    A [char] is a signed 8-bit integer, as on x86-64; character classes are those
    of the "C" locale.  Integers whose overflow matters are wrapped or checked
    ([short], [char] in records; [long] and [int] in [Prime]; the offset of the
    next page in [FdpMgr]).

    Code outside the repository is a parameter: the system calls ([syscalls]),
    [inet_pton] ([inet] in [UriText]), the clock and the time zone ([clock] in
    [Timeutil]), the reads and writes of a connection ([Transport]), [std::regex]
    ([Regex] in [Router]), the handlers of users ([Handlers], [request_handler]),
    the TLS handshake and the set-up of sockets in [Server], the lookup of names
    ([NetCalls]), the calls on sockets ([SockCalls]), on an [SSL] object
    ([SslCalls]) and on the file system ([FsCalls]; with laws [DirTree], [NameSystem]), [std::sort], [strerror] and
    [vsnprintf] of the loggers, random bytes and what a certificate says ([Ssl]).
    Each hypothesis states documented behaviour and is met by a concrete instance
    in a witness.  In [FileSys] [std::regex] is a definition, for the expressions
    that the names of log files lead to: literal characters, the dot, counted
    digits and groups; another expression is outside of the model ([Ub]).

    ** Not modelled

    Logging by the modelled code (it does not change results), the Windows branches, out-of-memory
    failures of [new] and [malloc] outside the page pool, failures of the pthread
    calls.  The refinement of [Rdb] is for a disk without faults and as long as
    no page is evicted from the cache: after an eviction [LRUCache::update] and
    [touch] lose lists, as [CacheFacts] and [HashFacts] show, so that no such
    theorem holds there.  The calls run one after the other: an entry's lock keeps
    writers apart ([RwLock]), but [get] changes the list of its entry under the
    shared lock.  The console driver is left out.

    In [http]: a message with a body from a file ([FileBody] is a type of its
    own); copies of a headers object share their values in
    the code, here each list owns its values; a body that is read from a
    connection has the connection's state of the moment it was made, and is not
    changed by what is sent on the connection later; the destruction of handlers by
    the reactor, and so what else is deleted twice; the configuration of the
    server.  In the reactor the bytes that wake it have room without limit.

    In the libraries around them: the texts of exceptions and of help; the
    destructors of loggers; copies and sessions of TLS connections and the checks
    of peers, which hand their arguments to OpenSSL; the rest of [libsslwrapper]
    (contexts, private keys, certificates, revocation lists, digests and the
    loading of the OpenSSL libraries), where a method is one call and an exception
    when it fails; [i18n], [dll] and [plugin] of [libcom] (conversions and loading
    by the system); [jdaemon] (processes and services of the two systems); the test
    framework and the tests, which make no promise to other code. *)

From Stdlib Require Export Ascii.
From stdpp Require Export base option list list_numbers gmap strings.
From Stdlib Require Export ZArith Lia.

#[export] Set Warnings "-clear-no-such-hyp,-register-all".
#[global] Open Scope Z_scope.
Declare Scope snf_scope.
Delimit Scope snf_scope with snf.
#[global] Open Scope snf_scope.

(** ** Machine integers *)

(** [wrapS w z]: the value a [w]-bit signed integer holds after the
    assignment of [z]. *)
Definition wrapS (w z : Z) : Z := (z + 2 ^ (w - 1)) mod 2 ^ w - 2 ^ (w - 1).

(** [wrapU w z]: the same for an unsigned integer. *)
Definition wrapU (w z : Z) : Z := z mod 2 ^ w.

Abbreviation schar := (wrapS 8).
Abbreviation uchar := (wrapU 8).
Abbreviation short16 := (wrapS 16).
Abbreviation int32 := (wrapS 32).
Abbreviation int64 := (wrapS 64).
Abbreviation uint32 := (wrapU 32).
Abbreviation uint64 := (wrapU 64).

Lemma wrapS_id w z : 0 < w -> - 2 ^ (w - 1) <= z < 2 ^ (w - 1) -> wrapS w z = z.
Proof.
  intros Hw Hz. unfold wrapS.
  assert (2 ^ w = 2 * 2 ^ (w - 1)) as ->.
  { rewrite <- Z.pow_succ_r by lia. f_equal. lia. }
  rewrite Z.mod_small by lia. lia.
Qed.

Lemma wrapS_range w z : 0 < w -> - 2 ^ (w - 1) <= wrapS w z < 2 ^ (w - 1).
Proof.
  intros Hw. unfold wrapS.
  assert (2 ^ w = 2 * 2 ^ (w - 1)) as ->.
  { rewrite <- Z.pow_succ_r by lia. f_equal. lia. }
  pose proof (Z.pow_pos_nonneg 2 (w - 1) ltac:(lia) ltac:(lia)).
  pose proof (Z.mod_pos_bound (z + 2 ^ (w - 1)) (2 * 2 ^ (w - 1)) ltac:(lia)). lia.
Qed.

Lemma wrapU_id w z : 0 <= z < 2 ^ w -> wrapU w z = z.
Proof. intros. unfold wrapU. by apply Z.mod_small. Qed.

(** ** Results of C++ code

    [Val a]: the code returns [a].  [Undef]: the code's next step has
    undefined behaviour (an index outside an array, a null pointer, an
    access to freed memory).  [Abort]: an [ASSERT] of
    liblog/include/logmgr.h failed and the process calls [abort()].
    [OutOfFuel]: the model's recursion bound was too small; the
    termination theorems show that it never is. *)
Inductive outcome (A : Type) : Type :=
  | Val (a : A)
  | Undef
  | Abort
  | OutOfFuel.
Arguments Val {A} a.
Arguments Undef {A}.
Arguments Abort {A}.
Arguments OutOfFuel {A}.

Definition obind {A B} (m : outcome A) (k : A -> outcome B) : outcome B :=
  match m with
  | Val a => k a
  | Undef => Undef
  | Abort => Abort
  | OutOfFuel => OutOfFuel
  end.

Notation "'let*' x ':=' m 'in' k" := (obind m (fun x => k))
  (at level 10, x pattern, m at level 100, k at level 200)
  : snf_scope.

(** [ASSERT(b, ...)] *)
Definition ASSERT (b : bool) : outcome unit := if b then Val tt else Abort.

(** An access through a pointer or an index that may be invalid. *)
Definition deref {A} (o : option A) : outcome A :=
  match o with Some a => Val a | None => Undef end.

Lemma obind_Val {A B} (a : A) (k : A -> outcome B) : obind (Val a) k = k a.
Proof. reflexivity. Qed.

Lemma obind_inv {A B} (m : outcome A) (k : A -> outcome B) b :
  obind m k = Val b -> exists a, m = Val a /\ k a = Val b.
Proof. destruct m; simpl; try discriminate. eauto. Qed.

(** ** Arrays indexed by C++ integers *)

(** [zget l i] is [l[i]]; no value outside the array. *)
Definition zget {A} (l : list A) (i : Z) : option A :=
  if decide (0 <= i) then l !! Z.to_nat i else None.

(** [zset l i x] is the array after [l[i] = x]. *)
Definition zset {A} (l : list A) (i : Z) (x : A) : list A := <[Z.to_nat i := x]> l.

Definition zlen {A} (l : list A) : Z := Z.of_nat (length l).

#[global] Instance zlen_Permutation {A} : Proper ((≡ₚ) ==> (=)) (@zlen A).
Proof. intros l1 l2 Hl. unfold zlen. by rewrite (Permutation_length Hl). Qed.

Lemma zlen_nonneg {A} (l : list A) : 0 <= zlen l.
Proof. unfold zlen. lia. Qed.

Lemma zlen_app {A} (l1 l2 : list A) : zlen (l1 ++ l2) = zlen l1 + zlen l2.
Proof. unfold zlen. rewrite length_app. lia. Qed.

Lemma zlen_cons {A} (x : A) l : zlen (x :: l) = 1 + zlen l.
Proof. unfold zlen. simpl. lia. Qed.

Lemma zlen_pos {A} (l : list A) : l <> [] -> 0 < zlen l.
Proof. destruct l; [done|]. rewrite zlen_cons. pose proof (zlen_nonneg l). lia. Qed.

Lemma zget_Some {A} (l : list A) i x : zget l i = Some x -> 0 <= i < zlen l.
Proof.
  unfold zget, zlen. case_decide; [|done]. intros Hl.
  apply lookup_lt_Some in Hl. lia.
Qed.

Lemma zget_is_Some {A} (l : list A) i : 0 <= i < zlen l -> exists x, zget l i = Some x.
Proof.
  unfold zget, zlen. intros Hi. rewrite decide_True by lia.
  destruct (lookup_lt_is_Some_2 l (Z.to_nat i)) as [x Hx]; [lia|]. eauto.
Qed.

Lemma zlen_zset {A} (l : list A) i x : zlen (zset l i x) = zlen l.
Proof. unfold zlen, zset. by rewrite length_insert. Qed.

Lemma zget_zset_eq {A} (l : list A) i x : 0 <= i < zlen l -> zget (zset l i x) i = Some x.
Proof.
  unfold zget, zset, zlen. intros Hi. rewrite decide_True by lia.
  apply list_lookup_insert_eq. lia.
Qed.

Lemma zget_zset_ne {A} (l : list A) i j x : 0 <= i -> i <> j -> zget (zset l i x) j = zget l j.
Proof.
  unfold zget, zset. intros Hi Hij. case_decide; [|done].
  apply list_lookup_insert_ne. lia.
Qed.

Lemma zget_zset {A} (l : list A) i j x : 0 <= i < zlen l ->
  zget (zset l i x) j = if decide (i = j) then Some x else zget l j.
Proof.
  intros Hi. case_decide; subst; [by apply zget_zset_eq|apply zget_zset_ne; lia].
Qed.

(** [Forall2_impl] with the members at hand. *)
Lemma Forall2_impl_in {A B} (P Q : A -> B -> Prop) l k : Forall2 P l k ->
  (forall x y, x ∈ l -> y ∈ k -> P x y -> Q x y) -> Forall2 Q l k.
Proof. induction 1; intros Hpq; constructor; [apply Hpq; set_solver|apply IHForall2; set_solver]. Qed.

(** ** Characters and byte strings

    A [char] of the supported platforms (x86-64) is a signed 8-bit integer; a
    [std::string] or a [char] array is the list of its [char]s. *)
Abbreviation bytes := (list Z).

Definition chr (a : Ascii.ascii) : Z := schar (Z.of_N (Ascii.N_of_ascii a)).
Arguments chr a%_char.

(** Replaces every [chr] of a literal by its code. *)
Ltac simpl_chr :=
  repeat match goal with
  | |- context [chr ?a] => let v := eval vm_compute in (chr a) in change (chr a) with v
  | H : context [chr ?a] |- _ => let v := eval vm_compute in (chr a) in change (chr a) with v in H
  end.

(** The bytes of a literal. *)
Fixpoint bytes_of (s : string) : bytes :=
  match s with
  | EmptyString => []
  | String a s => chr a :: bytes_of s
  end.

Definition is_char (c : Z) : Prop := -128 <= c <= 127.

Lemma uchar_inj x y : is_char x -> is_char y -> uchar x = uchar y -> x = y.
Proof.
  unfold is_char, wrapU. intros Hx Hy E. change (2 ^ 8) with 256 in E.
  pose proof (Z.div_mod x 256 ltac:(lia)). pose proof (Z.div_mod y 256 ltac:(lia)).
  assert (-1 <= x / 256 <= 0) by (split; [apply Z.div_le_lower_bound|apply Z.lt_succ_r, Z.div_lt_upper_bound]; lia).
  assert (-1 <= y / 256 <= 0) by (split; [apply Z.div_le_lower_bound|apply Z.lt_succ_r, Z.div_lt_upper_bound]; lia).
  lia.
Qed.

(** [memcmp(a, b, n)]: the sign of the first difference of the bytes, taken
    unsigned; reading past either buffer is undefined. *)
Fixpoint memcmp (a b : bytes) (n : nat) : outcome Z :=
  match n with
  | O => Val 0
  | S n =>
      match a, b with
      | x :: a, y :: b =>
          if uchar x =? uchar y then memcmp a b n else Val (uchar x - uchar y)
      | _, _ => Undef
      end
  end.

(** [memcpy(dst, src, n)]: the new content of [dst]; a negative [n] is
    converted to a huge [size_t]. *)
Definition memcpy (dst src : bytes) (n : Z) : outcome bytes :=
  if decide (0 <= n <= zlen dst /\ n <= zlen src)
  then Val (take (Z.to_nat n) src ++ drop (Z.to_nat n) dst)
  else Undef.
