(* ===== verification/Bytes.v ===== *)
(** * Integers in memory and on disk

    The x86-64 representation: little-endian, two's complement. *)
From S2P Require Import Prelude.

(** The [n] bytes of [z]. *)
Fixpoint le (n : nat) (z : Z) : bytes :=
  match n with
  | O => []
  | S n => schar z :: le n (z / 256)
  end.

(** The unsigned integer of some bytes, and the signed one. *)
Fixpoint unle (b : bytes) : Z :=
  match b with
  | [] => 0
  | c :: b => uchar c + 256 * unle b
  end.
Definition sle (b : bytes) : Z := wrapS (8 * zlen b) (unle b).

Lemma length_le n z : length (le n z) = n.
Proof. revert z. induction n; intros; simpl; [done|by f_equal]. Qed.

Lemma zlen_le n z : zlen (le n z) = Z.of_nat n.
Proof. unfold zlen. by rewrite length_le. Qed.

Lemma uchar_schar z : uchar (schar z) = z mod 256.
Proof.
  unfold wrapU, wrapS. change (2 ^ 8) with 256. change (2 ^ (8 - 1)) with 128.
  rewrite Zminus_mod, Zmod_mod, <- Zminus_mod. f_equal. lia.
Qed.

Lemma unle_le n z : unle (le n z) = z mod 2 ^ (8 * Z.of_nat n).
Proof.
  revert z. induction n as [|n IH]; intros z.
  { simpl. by rewrite Z.mod_1_r. }
  cbn [le unle]. rewrite uchar_schar, IH.
  replace (8 * Z.of_nat (S n)) with (8 + 8 * Z.of_nat n) by lia.
  rewrite Z.pow_add_r by lia. change (2 ^ 8) with 256.
  rewrite Z.rem_mul_r; [done|lia|apply Z.pow_pos_nonneg; lia].
Qed.

Lemma wrapS_mod w z : 0 < w -> wrapS w (z mod 2 ^ w) = wrapS w z.
Proof. intros. unfold wrapS. by rewrite Zplus_mod_idemp_l. Qed.

Lemma sle_le n z : (0 < n)%nat -> - 2 ^ (8 * Z.of_nat n - 1) <= z < 2 ^ (8 * Z.of_nat n - 1) -> sle (le n z) = z.
Proof.
  intros Hn Hz. unfold sle. rewrite zlen_le, unle_le, wrapS_mod by lia. apply wrapS_id; lia.
Qed.

(** ** Lists of integers of [n] bytes each *)
Definition le_list (n : nat) (l : list Z) : bytes := l ≫= le n.

Lemma length_le_list n l : length (le_list n l) = (n * length l)%nat.
Proof. induction l as [|x l IH]; simpl; [lia|]. rewrite length_app, length_le, IH. lia. Qed.

Lemma le_list_app n l1 l2 : le_list n (l1 ++ l2) = le_list n l1 ++ le_list n l2.
Proof. apply bind_app. Qed.

Lemma le_list_snoc n l x : le_list n (l ++ [x]) = le_list n l ++ le n x.
Proof. rewrite le_list_app. simpl. by rewrite app_nil_r. Qed.

Create Rewrite HintDb bytes.
#[export] Hint Rewrite length_le zlen_le length_le_list @length_app @length_take @length_drop @length_replicate : bytes.
#[global] Arguments le : simpl never.
#[global] Arguments sle : simpl never.
