(* ===== verification/DbStruct.v ===== *)
(** * Records of librdb (librdb/include/dbstruct.h) *)
From S2P Require Import Prelude.

Definition KEY_PAGE_HDR_SIZE : Z := 64.
Definition MIN_KEY_PAGE_SIZE : Z := 1024.
Definition KEY_PAGE_SIZE : Z := 4096.
Definition MAX_KEY_LENGTH : Z := 48.
Definition MAX_VALUE_LENGTH : Z := 192.
Definition sizeof_key_rec_t : Z := 64.
Definition sizeof_value_page_t : Z := 256.

(** [key_rec_t].  [kr_key] is the whole 48-byte array, [kr_klen] the number of
    bytes of it that are the key. *)
Record key_rec := mkKeyRec {
  kr_flags : Z;   (* KEY_FREE | KEY_INUSE *)
  kr_height : Z;
  kr_left : Z;
  kr_right : Z;
  kr_klen : Z;
  kr_key : bytes;
  kr_voff : Z }.

Definition KEY_FREE : Z := 0.
Definition KEY_INUSE : Z := 1.

(** The record [InitKeyRecord] leaves behind. *)
Definition InitKeyRecord : key_rec :=
  {| kr_flags := 0; kr_height := 1; kr_left := -1; kr_right := -1; kr_klen := 0;
     kr_key := replicate (Z.to_nat MAX_KEY_LENGTH) 0; kr_voff := -1 |}.

Definition NUM_OF_KEYS_IN_PAGE (B : Z) : Z := (B - KEY_PAGE_HDR_SIZE) / sizeof_key_rec_t.

(** [key_page_t] without its unused fields. *)
Record key_page := mkKeyPage {
  kp_flags : Z;   (* 0 | KPAGE_DELETED *)
  kp_vcount : Z;
  kp_root : Z;
  kp_hash : Z;
  kp_poff : Z;
  kp_noff : Z;
  kp_keys : list key_rec }.

Definition KPAGE_DELETED : Z := 1.

(** A page of [kpsize] zero bytes holds zeroed records. *)
Definition zero_key_rec : key_rec :=
  {| kr_flags := 0; kr_height := 0; kr_left := 0; kr_right := 0; kr_klen := 0;
     kr_key := replicate (Z.to_nat MAX_KEY_LENGTH) 0; kr_voff := 0 |}.

Definition InitKeyPage (kpsize : Z) : key_page :=
  {| kp_flags := 0; kp_vcount := 0; kp_root := -1; kp_hash := 0; kp_poff := -1;
     kp_noff := -1;
     kp_keys := replicate (Z.to_nat (NUM_OF_KEYS_IN_PAGE kpsize)) zero_key_rec |}.

Definition IsKeyPageDeleted (kp : option key_page) : bool :=
  match kp with
  | Some kp => Z.land (kp_flags kp) KPAGE_DELETED =? KPAGE_DELETED
  | None => false
  end.

(** The part of [key_info_t] that describes the key (the fields [processKeyPages]
    fills in belong to the caller's state). *)
Record key_info := mkKeyInfo {
  ki_key : bytes;
  ki_klen : Z;
  ki_hash : Z;
  ki_voff : Z }.

(** [SetKeyInfo]: the key is copied and padded with zeroes to 48 bytes; copying
    more than 48 bytes overflows [ki_key]. *)
Definition SetKeyInfo (key : bytes) (klen hash : Z) : outcome key_info :=
  let* k := memcpy (replicate (Z.to_nat MAX_KEY_LENGTH) 0) key klen in
  Val {| ki_key := k; ki_klen := klen; ki_hash := hash; ki_voff := -1 |}.

(** [value_page_t] without its unused fields. *)
Record value_page := mkValuePage {
  vp_flags : Z;
  vp_klen : Z;
  vp_vlen : Z;
  vp_key : bytes;
  vp_value : bytes }.

Definition VPAGE_DELETED : Z := 1.

Definition IsValuePageDeleted (vp : option value_page) : bool :=
  match vp with
  | Some vp => Z.land (vp_flags vp) VPAGE_DELETED =? VPAGE_DELETED
  | None => false
  end.

Definition InitValuePage (key : bytes) (klen : Z) (value : bytes) (vlen : Z)
  : outcome value_page :=
  let* k := memcpy (replicate (Z.to_nat MAX_KEY_LENGTH) 0) key klen in
  let* v := memcpy (replicate (Z.to_nat MAX_VALUE_LENGTH) 0) value vlen in
  Val {| vp_flags := 0; vp_klen := klen; vp_vlen := vlen; vp_key := k; vp_value := v |}.

(** ** Field updates *)
Definition kp_at (kp : key_page) (n : Z) : outcome key_rec := deref (zget (kp_keys kp) n).

Definition kp_with_keys (kp : key_page) (ks : list key_rec) : key_page :=
  {| kp_flags := kp_flags kp; kp_vcount := kp_vcount kp; kp_root := kp_root kp;
     kp_hash := kp_hash kp; kp_poff := kp_poff kp; kp_noff := kp_noff kp;
     kp_keys := ks |}.

Definition kp_set (kp : key_page) (n : Z) (r : key_rec) : outcome key_page :=
  if decide (0 <= n < zlen (kp_keys kp))
  then Val (kp_with_keys kp (zset (kp_keys kp) n r)) else Undef.

Definition kp_with_vcount (kp : key_page) (v : Z) : key_page :=
  {| kp_flags := kp_flags kp; kp_vcount := short16 v; kp_root := kp_root kp;
     kp_hash := kp_hash kp; kp_poff := kp_poff kp; kp_noff := kp_noff kp;
     kp_keys := kp_keys kp |}.

Definition kp_with_root (kp : key_page) (r : Z) : key_page :=
  {| kp_flags := kp_flags kp; kp_vcount := kp_vcount kp; kp_root := r;
     kp_hash := kp_hash kp; kp_poff := kp_poff kp; kp_noff := kp_noff kp;
     kp_keys := kp_keys kp |}.

Definition kr_with_height (r : key_rec) (h : Z) : key_rec :=
  {| kr_flags := kr_flags r; kr_height := h; kr_left := kr_left r;
     kr_right := kr_right r; kr_klen := kr_klen r; kr_key := kr_key r; kr_voff := kr_voff r |}.
Definition kr_with_left (r : key_rec) (l : Z) : key_rec :=
  {| kr_flags := kr_flags r; kr_height := kr_height r; kr_left := l;
     kr_right := kr_right r; kr_klen := kr_klen r; kr_key := kr_key r; kr_voff := kr_voff r |}.
Definition kr_with_right (r : key_rec) (x : Z) : key_rec :=
  {| kr_flags := kr_flags r; kr_height := kr_height r; kr_left := kr_left r;
     kr_right := x; kr_klen := kr_klen r; kr_key := kr_key r; kr_voff := kr_voff r |}.
Definition kr_with_kv (r : key_rec) (klen : Z) (key : bytes) (voff : Z) : key_rec :=
  {| kr_flags := kr_flags r; kr_height := kr_height r; kr_left := kr_left r;
     kr_right := kr_right r; kr_klen := klen; kr_key := key; kr_voff := voff |}.
Definition kr_with_voff (r : key_rec) (voff : Z) : key_rec :=
  kr_with_kv r (kr_klen r) (kr_key r) voff.
