(* ===== verification/KeyRec.v ===== *)
(** * Key records of a key page: an AVL tree in an array
    (librdb/include/keyrec.h, librdb/src/keyrec.cpp) *)
From S2P Require Import Prelude DbStruct.

(** ** The code

    The page is passed explicitly; every access to [kp->kp_keys[n]] is checked,
    so that an access outside the page is [Undef].  [numOfKeys] is the length
    of [kp_keys]. *)
Module KeyRecords.

Definition LEFT_OF (kp : key_page) (n : Z) : outcome Z :=
  let* r := kp_at kp n in Val (kr_left r).
Definition RIGHT_OF (kp : key_page) (n : Z) : outcome Z :=
  let* r := kp_at kp n in Val (kr_right r).
Definition HEIGHT_OF (kp : key_page) (n : Z) : outcome Z :=
  let* r := kp_at kp n in Val (kr_height r).

Definition set_LEFT_OF (kp : key_page) (n l : Z) : outcome key_page :=
  let* r := kp_at kp n in kp_set kp n (kr_with_left r l).
Definition set_RIGHT_OF (kp : key_page) (n x : Z) : outcome key_page :=
  let* r := kp_at kp n in kp_set kp n (kr_with_right r x).
Definition set_HEIGHT_OF (kp : key_page) (n h : Z) : outcome key_page :=
  let* r := kp_at kp n in kp_set kp n (kr_with_height r h).

(** The loop of [getFree], from slot [i] on. *)
Fixpoint getFree_from (krec : list key_rec) (i : Z) : Z :=
  match krec with
  | [] => -1
  | r :: krec => if kr_flags r =? KEY_FREE then short16 i else getFree_from krec (i + 1)
  end.

Definition getFree (kp : key_page) : Z := getFree_from (kp_keys kp) 0.

Definition getKeyRecord (kp : key_page) (ki : key_info) : outcome (Z * key_page) :=
  let idx := getFree kp in
  if idx <? 0 then Val (idx, kp)
  else
    let* key := memcpy (kr_key InitKeyRecord) (ki_key ki) (ki_klen ki) in
    let* kp := kp_set kp idx
      {| kr_flags := KEY_INUSE; kr_height := kr_height InitKeyRecord;
         kr_left := kr_left InitKeyRecord; kr_right := kr_right InitKeyRecord;
         kr_klen := short16 (ki_klen ki); kr_key := key; kr_voff := ki_voff ki |} in
    Val (idx, kp_with_vcount kp (kp_vcount kp + 1)).

Definition freeKeyRecord (kp : key_page) (idx : Z) : outcome key_page :=
  let* _ := ASSERT (bool_decide (0 <= idx < zlen (kp_keys kp))) in
  let* kp := kp_set kp idx InitKeyRecord in
  Val (kp_with_vcount kp (kp_vcount kp - 1)).

(** [(N != -1) ? HEIGHT_OF(N) : 0] *)
Definition subHeight (kp : key_page) (n : Z) : outcome Z :=
  if negb (n =? -1) then HEIGHT_OF kp n else Val 0.

Definition balanceFactor (kp : key_page) (root : Z) : outcome Z :=
  if negb (root =? -1) then
    let* l := LEFT_OF kp root in
    let* lh := subHeight kp l in
    let* r := RIGHT_OF kp root in
    let* rh := subHeight kp r in
    Val (lh - rh)
  else Val 0.

Definition height (kp : key_page) (root : Z) : outcome (Z * key_page) :=
  if negb (root =? -1) then
    let* l := LEFT_OF kp root in
    let* lh := subHeight kp l in
    let* r := RIGHT_OF kp root in
    let* rh := subHeight kp r in
    let h := 1 + (if lh <? rh then rh else lh) in
    let* kp := set_HEIGHT_OF kp root (schar h) in
    Val (h, kp)
  else Val (0, kp).

Definition rotateLeft (kp : key_page) (root : Z) : outcome (Z * key_page) :=
  let* pivot := RIGHT_OF kp root in
  let* l := LEFT_OF kp pivot in
  let* kp := set_RIGHT_OF kp root l in
  let* kp := set_LEFT_OF kp pivot root in
  let* (_, kp) := height kp root in
  let* (_, kp) := height kp pivot in
  Val (pivot, kp).

Definition rotateRight (kp : key_page) (root : Z) : outcome (Z * key_page) :=
  let* pivot := LEFT_OF kp root in
  let* r := RIGHT_OF kp pivot in
  let* kp := set_LEFT_OF kp root r in
  let* kp := set_RIGHT_OF kp pivot root in
  let* (_, kp) := height kp root in
  let* (_, kp) := height kp pivot in
  Val (pivot, kp).

Definition rotateLeftRight (kp : key_page) (root : Z) : outcome (Z * key_page) :=
  let* l := LEFT_OF kp root in
  let* (l, kp) := rotateLeft kp l in
  let* kp := set_LEFT_OF kp root l in
  rotateRight kp root.

Definition rotateRightLeft (kp : key_page) (root : Z) : outcome (Z * key_page) :=
  let* r := RIGHT_OF kp root in
  let* (r, kp) := rotateRight kp r in
  let* kp := set_RIGHT_OF kp root r in
  rotateLeft kp root.

Definition balanceTree (kp : key_page) (root : Z) : outcome (Z * key_page) :=
  let* bf := balanceFactor kp root in
  if bf =? -2 then
    let* r := RIGHT_OF kp root in
    let* bf := balanceFactor kp r in
    if bf =? -1 then rotateLeft kp root
    else if bf =? 1 then rotateRightLeft kp root
    else Val (root, kp)
  else if bf =? 2 then
    let* l := LEFT_OF kp root in
    let* bf := balanceFactor kp l in
    if bf =? -1 then rotateLeftRight kp root
    else if bf =? 1 then rotateRight kp root
    else Val (root, kp)
  else Val (root, kp).

Definition keycmp (ki : key_info) (krec : key_rec) : outcome Z :=
  let cmp := ki_klen ki - kr_klen krec in
  if cmp =? 0 then memcmp (ki_key ki) (kr_key krec) (Z.to_nat (ki_klen ki))
  else Val cmp.

(** [short put(short root, const key_info_t *ki, short *idx)]: the new root,
    [*idx] and the page. *)
Fixpoint put_rec (fuel : nat) (kp : key_page) (root : Z) (ki : key_info) (idx : Z)
  : outcome (Z * Z * key_page) :=
  match fuel with
  | O => OutOfFuel
  | S fuel =>
      let* (root, idx, kp) :=
        (if root =? -1 then
           let* (root, kp) := getKeyRecord kp ki in
           Val (root, root, kp)
         else
           let* krec := kp_at kp root in
           let* cmp := keycmp ki krec in
           let* (idx, kp) :=
             (if cmp <? 0 then
                let* l := LEFT_OF kp root in
                let* (l, idx, kp) := put_rec fuel kp l ki idx in
                let* kp := set_LEFT_OF kp root l in
                Val (idx, kp)
              else if cmp =? 0 then
                let* kp := kp_set kp root (kr_with_voff krec (ki_voff ki)) in
                Val (root, kp)
              else
                let* r := RIGHT_OF kp root in
                let* (r, idx, kp) := put_rec fuel kp r ki idx in
                let* kp := set_RIGHT_OF kp root r in
                Val (idx, kp)) in
           let* (_, kp) := height kp root in
           Val (root, idx, kp)) in
      let* (root, kp) := balanceTree kp root in
      Val (root, idx, kp)
  end.

Fixpoint minKey (fuel : nat) (kp : key_page) (root : Z) : outcome Z :=
  match fuel with
  | O => OutOfFuel
  | S fuel =>
      if negb (root =? -1) then
        let* l := LEFT_OF kp root in
        if negb (l =? -1) then minKey fuel kp l else Val root
      else Val root
  end.

Fixpoint maxKey (fuel : nat) (kp : key_page) (root : Z) : outcome Z :=
  match fuel with
  | O => OutOfFuel
  | S fuel =>
      if negb (root =? -1) then
        let* r := RIGHT_OF kp root in
        if negb (r =? -1) then maxKey fuel kp r else Val root
      else Val root
  end.

Fixpoint removeMin (fuel : nat) (kp : key_page) (root idx : Z)
  : outcome (Z * Z * key_page) :=
  match fuel with
  | O => OutOfFuel
  | S fuel =>
      let* (root, idx, kp) :=
        (if negb (root =? -1) then
           let* l := LEFT_OF kp root in
           if l =? -1 then
             let idx := root in
             let* root := RIGHT_OF kp root in
             let* kp := freeKeyRecord kp idx in
             Val (root, idx, kp)
           else
             let* (l, idx, kp) := removeMin fuel kp l idx in
             let* kp := set_LEFT_OF kp root l in
             Val (root, idx, kp)
         else Val (root, idx, kp)) in
      let* (_, kp) := height kp root in
      let* (root, kp) := balanceTree kp root in
      Val (root, idx, kp)
  end.

Fixpoint removeMax (fuel : nat) (kp : key_page) (root idx : Z)
  : outcome (Z * Z * key_page) :=
  match fuel with
  | O => OutOfFuel
  | S fuel =>
      let* (root, idx, kp) :=
        (if negb (root =? -1) then
           let* r := RIGHT_OF kp root in
           if r =? -1 then
             let idx := root in
             let* root := LEFT_OF kp root in
             let* kp := freeKeyRecord kp idx in
             Val (root, idx, kp)
           else
             let* (r, idx, kp) := removeMax fuel kp r idx in
             let* kp := set_RIGHT_OF kp root r in
             Val (root, idx, kp)
         else Val (root, idx, kp)) in
      let* (_, kp) := height kp root in
      let* (root, kp) := balanceTree kp root in
      Val (root, idx, kp)
  end.

(** [short remove(short root, const key_info_t *ki, short *idx)] *)
Fixpoint remove_rec (fuel : nat) (kp : key_page) (root : Z) (ki : key_info) (idx : Z)
  : outcome (Z * Z * key_page) :=
  match fuel with
  | O => OutOfFuel
  | S fuel =>
      let* (root, idx, kp) :=
        (if negb (root =? -1) then
           let* krec := kp_at kp root in
           let* cmp := keycmp ki krec in
           let* (root, idx, kp) :=
             (if cmp <? 0 then
                let* l := LEFT_OF kp root in
                let* (l, idx, kp) := remove_rec fuel kp l ki idx in
                let* kp := set_LEFT_OF kp root l in
                Val (root, idx, kp)
              else if cmp =? 0 then
                let* l := LEFT_OF kp root in
                let* r := RIGHT_OF kp root in
                if l =? -1 then
                  let* kp := freeKeyRecord kp root in
                  Val (r, root, kp)
                else if r =? -1 then
                  let* kp := freeKeyRecord kp root in
                  Val (l, root, kp)
                else
                  let* maxInLeftSubTree := maxKey fuel kp l in
                  let* m := kp_at kp maxInLeftSubTree in
                  let* key := memcpy (kr_key krec) (kr_key m) (kr_klen m) in
                  let* kp := kp_set kp root (kr_with_kv krec (kr_klen m) key (kr_voff m)) in
                  let* (l, idx, kp) := removeMax fuel kp l idx in
                  let* kp := set_LEFT_OF kp root l in
                  Val (root, idx, kp)
              else
                let* r := RIGHT_OF kp root in
                let* (r, idx, kp) := remove_rec fuel kp r ki idx in
                let* kp := set_RIGHT_OF kp root r in
                Val (root, idx, kp)) in
           let* (_, kp) := height kp root in
           Val (root, idx, kp)
         else Val (root, idx, kp)) in
      let* (root, kp) := balanceTree kp root in
      Val (root, idx, kp)
  end.

Definition getFreeCount (kp : key_page) : Z :=
  foldl (fun count r => if kr_flags r =? KEY_FREE then count + 1 else count) 0 (kp_keys kp).

Fixpoint get_loop (fuel : nat) (kp : key_page) (root : Z) (ki : key_info) : outcome Z :=
  match fuel with
  | O => OutOfFuel
  | S fuel =>
      if negb (root =? -1) then
        let* krec := kp_at kp root in
        let* cmp := keycmp ki krec in
        if cmp <? 0 then let* l := LEFT_OF kp root in get_loop fuel kp l ki
        else if cmp =? 0 then Val root
        else let* r := RIGHT_OF kp root in get_loop fuel kp r ki
      else Val root
  end.

(** The tree has at most one node per slot, so its paths are no longer than
    the number of slots. *)
Definition page_fuel (kp : key_page) : nat := S (S (length (kp_keys kp))).

Definition get (kp : key_page) (ki : key_info) : outcome Z :=
  get_loop (page_fuel kp) kp (kp_root kp) ki.

Definition put (kp : key_page) (ki : key_info) : outcome (Z * key_page) :=
  let* (root, idx, kp) := put_rec (page_fuel kp) kp (kp_root kp) ki (-1) in
  Val (idx, kp_with_root kp root).

Definition remove (kp : key_page) (ki : key_info) : outcome (Z * key_page) :=
  let* (root, idx, kp) := remove_rec (page_fuel kp) kp (kp_root kp) ki (-1) in
  Val (idx, kp_with_root kp root).

End KeyRecords.
