(* ===== verification/AvlTree.v ===== *)
(** * The balanced tree the key records implement

    A functional tree with the rotations and the rebalancing rule of
    librdb/src/keyrec.cpp, and its specification: the list of its keys and
    values in order.  A node carries the index of the slot that stores it. *)
From stdpp Require Import sorting.
From S2P Require Import Prelude.

(** ** Keys: shorter keys first, then the order of [memcmp] *)
Fixpoint lexcmp (a b : bytes) : Z :=
  match a, b with
  | x :: a, y :: b => if uchar x =? uchar y then lexcmp a b else uchar x - uchar y
  | _, _ => 0
  end.

Definition kcmp (a b : bytes) : Z :=
  if zlen a - zlen b =? 0 then lexcmp a b else zlen a - zlen b.

Definition is_key (k : bytes) : Prop := Forall is_char k.

Inductive tree :=
  | Leaf
  | Node (l : tree) (i : Z) (k : bytes) (v : Z) (r : tree).

Fixpoint th (t : tree) : Z :=
  match t with Leaf => 0 | Node l _ _ _ r => 1 + Z.max (th l) (th r) end.

Fixpoint tsize (t : tree) : Z :=
  match t with Leaf => 0 | Node l _ _ _ r => 1 + tsize l + tsize r end.

Fixpoint indices (t : tree) : list Z :=
  match t with Leaf => [] | Node l i _ _ r => indices l ++ i :: indices r end.

(** Keys and values in order. *)
Fixpoint elems (t : tree) : list (bytes * Z) :=
  match t with Leaf => [] | Node l _ k v r => elems l ++ (k, v) :: elems r end.

Definition sub_th (t : tree) : Z := th t.

Definition bf (t : tree) : Z :=
  match t with Leaf => 0 | Node l _ _ _ r => th l - th r end.

Definition t_rotl (t : tree) : tree :=
  match t with
  | Node l i k v (Node rl j k' v' rr) => Node (Node l i k v rl) j k' v' rr
  | t => t
  end.

Definition t_rotr (t : tree) : tree :=
  match t with
  | Node (Node ll j k' v' lr) i k v r => Node ll j k' v' (Node lr i k v r)
  | t => t
  end.

Definition t_rotlr (t : tree) : tree :=
  match t with
  | Node l i k v r => t_rotr (Node (t_rotl l) i k v r)
  | Leaf => Leaf
  end.

Definition t_rotrl (t : tree) : tree :=
  match t with
  | Node l i k v r => t_rotl (Node l i k v (t_rotr r))
  | Leaf => Leaf
  end.

Definition t_left (t : tree) : tree := match t with Node l _ _ _ _ => l | Leaf => Leaf end.
Definition t_right (t : tree) : tree := match t with Node _ _ _ _ r => r | Leaf => Leaf end.

Definition t_balance (t : tree) : tree :=
  if bf t =? -2 then
    if bf (t_right t) =? -1 then t_rotl t
    else if bf (t_right t) =? 1 then t_rotrl t else t
  else if bf t =? 2 then
    if bf (t_left t) =? -1 then t_rotlr t
    else if bf (t_left t) =? 1 then t_rotr t else t
  else t.

(** Insertion; [slot] is the free slot, if any. *)
Fixpoint t_put (k : bytes) (v : Z) (slot : option Z) (t : tree) : tree :=
  match t with
  | Leaf => match slot with Some i => Node Leaf i k v Leaf | None => Leaf end
  | Node l i k' v' r =>
      t_balance
        (if kcmp k k' <? 0 then Node (t_put k v slot l) i k' v' r
         else if kcmp k k' =? 0 then Node l i k' v r
         else Node l i k' v' (t_put k v slot r))
  end.

(** The slot in which [k] ends up. *)
Fixpoint t_put_slot (k : bytes) (slot : option Z) (t : tree) : option Z :=
  match t with
  | Leaf => slot
  | Node l i k' _ r =>
      if kcmp k k' <? 0 then t_put_slot k slot l
      else if kcmp k k' =? 0 then Some i else t_put_slot k slot r
  end.

Fixpoint t_find (k : bytes) (t : tree) : option (Z * Z) :=
  match t with
  | Leaf => None
  | Node l i k' v r =>
      if kcmp k k' <? 0 then t_find k l
      else if kcmp k k' =? 0 then Some (i, v) else t_find k r
  end.

(** The greatest key: slot, key and value. *)
Fixpoint t_max (t : tree) : option (Z * bytes * Z) :=
  match t with
  | Leaf => None
  | Node _ i k v Leaf => Some (i, k, v)
  | Node _ _ _ _ r => t_max r
  end.

Fixpoint t_removeMax (t : tree) : tree :=
  match t with
  | Leaf => Leaf
  | Node l i k v Leaf => t_balance l
  | Node l i k v r => t_balance (Node l i k v (t_removeMax r))
  end.

(** Deletion: the tree and the slot that is freed. *)
Fixpoint t_remove (k : bytes) (t : tree) : tree :=
  match t with
  | Leaf => Leaf
  | Node l i k' v r =>
      t_balance
        (if kcmp k k' <? 0 then Node (t_remove k l) i k' v r
         else if kcmp k k' =? 0 then
           match l, r with
           | Leaf, _ => r
           | _, Leaf => l
           | _, _ =>
               match t_max l with
               | Some (_, km, vm) => Node (t_removeMax l) i km vm r
               | None => Leaf
               end
           end
         else Node l i k' v (t_remove k r))
  end.

Fixpoint t_remove_slot (k : bytes) (t : tree) : option Z :=
  match t with
  | Leaf => None
  | Node l i k' _ r =>
      if kcmp k k' <? 0 then t_remove_slot k l
      else if kcmp k k' =? 0 then
        match l, r with
        | Leaf, _ | _, Leaf => Some i
        | _, _ => (fun m => m.1.1) <$> t_max l
        end
      else t_remove_slot k r
  end.

(** ** Specification on ordered association lists *)
Definition klt (a b : bytes * Z) : Prop := kcmp a.1 b.1 < 0.

Fixpoint al_insert (k : bytes) (v : Z) (l : list (bytes * Z)) : list (bytes * Z) :=
  match l with
  | [] => [(k, v)]
  | (k', v') :: l =>
      if kcmp k k' <? 0 then (k, v) :: (k', v') :: l
      else if kcmp k k' =? 0 then (k', v) :: l
      else (k', v') :: al_insert k v l
  end.

Fixpoint al_remove (k : bytes) (l : list (bytes * Z)) : list (bytes * Z) :=
  match l with
  | [] => []
  | (k', v') :: l => if kcmp k k' =? 0 then l else (k', v') :: al_remove k l
  end.

Fixpoint al_find (k : bytes) (l : list (bytes * Z)) : option Z :=
  match l with
  | [] => None
  | (k', v') :: l => if kcmp k k' =? 0 then Some v' else al_find k l
  end.

(** The AVL balance condition. *)
Fixpoint balanced (t : tree) : Prop :=
  match t with
  | Leaf => True
  | Node l _ _ _ r => -1 <= th l - th r <= 1 /\ balanced l /\ balanced r
  end.

(** ** The order of keys *)
Lemma lexcmp_refl a : lexcmp a a = 0.
Proof. induction a as [|x a IH]; simpl; [done|]. by rewrite Z.eqb_refl. Qed.

Lemma lexcmp_antisym a b : lexcmp b a = - lexcmp a b.
Proof.
  revert b. induction a as [|x a IH]; intros [|y b]; simpl; try done.
  rewrite (Z.eqb_sym (uchar y)). destruct (Z.eqb_spec (uchar x) (uchar y)); [apply IH|lia].
Qed.

Lemma lexcmp_trans a b c : length a = length b -> length b = length c ->
  lexcmp a b < 0 -> lexcmp b c < 0 -> lexcmp a c < 0.
Proof.
  revert b c. induction a as [|x a IH]; intros [|y b] [|z c]; simpl; try done.
  intros Hl1 Hl2.
  destruct (Z.eqb_spec (uchar x) (uchar y)) as [E1|E1],
    (Z.eqb_spec (uchar y) (uchar z)) as [E2|E2],
    (Z.eqb_spec (uchar x) (uchar z)) as [E3|E3]; try lia.
  apply IH; lia.
Qed.

Lemma lexcmp_eq a b : length a = length b -> is_key a -> is_key b -> lexcmp a b = 0 -> a = b.
Proof.
  unfold is_key. revert b. induction a as [|x a IH]; intros [|y b]; simpl; try done.
  intros Hl Ha Hb. inversion_clear Ha; inversion_clear Hb.
  destruct (Z.eqb_spec (uchar x) (uchar y)) as [E|E]; [|lia].
  intros E'. f_equal; [by apply uchar_inj|apply IH; auto].
Qed.

Lemma kcmp_refl a : kcmp a a = 0.
Proof. unfold kcmp. rewrite Z.sub_diag. simpl. apply lexcmp_refl. Qed.

Lemma kcmp_antisym a b : kcmp b a = - kcmp a b.
Proof.
  unfold kcmp. pose proof (lexcmp_antisym a b).
  destruct (Z.eqb_spec (zlen b - zlen a) 0), (Z.eqb_spec (zlen a - zlen b) 0); lia.
Qed.

Lemma kcmp_eq a b : is_key a -> is_key b -> kcmp a b = 0 -> a = b.
Proof.
  unfold kcmp, zlen. destruct (Z.eqb_spec (Z.of_nat (length a) - Z.of_nat (length b)) 0); [|lia].
  intros. apply lexcmp_eq; auto. lia.
Qed.

Lemma kcmp_trans a b c : kcmp a b < 0 -> kcmp b c < 0 -> kcmp a c < 0.
Proof.
  unfold kcmp, zlen.
  destruct (Z.eqb_spec (Z.of_nat (length a) - Z.of_nat (length b)) 0),
    (Z.eqb_spec (Z.of_nat (length b) - Z.of_nat (length c)) 0),
    (Z.eqb_spec (Z.of_nat (length a) - Z.of_nat (length c)) 0); try lia.
  apply lexcmp_trans; lia.
Qed.

(** Comparison with a key equal to [b] is comparison with [b]. *)
Lemma lexcmp_eq_l a b c : length a = length b -> lexcmp a b = 0 -> lexcmp a c = lexcmp b c.
Proof.
  revert b c. induction a as [|x a IH]; intros [|y b] [|z c]; simpl; try done.
  intros Hl. destruct (Z.eqb_spec (uchar x) (uchar y)) as [->|]; [|lia].
  intros E. destruct (_ =? _); [by apply IH; [lia|]|done].
Qed.

Lemma kcmp_eq_l a b c : kcmp a b = 0 -> kcmp a c = kcmp b c.
Proof.
  unfold kcmp, zlen.
  destruct (Z.eqb_spec (Z.of_nat (length a) - Z.of_nat (length b)) 0); [|lia].
  intros E. rewrite (lexcmp_eq_l a b c) by (auto; lia).
  replace (Z.of_nat (length a)) with (Z.of_nat (length b)) by lia. done.
Qed.

Lemma kcmp_le_lt a b c : kcmp a b <= 0 -> kcmp b c < 0 -> kcmp a c < 0.
Proof.
  intros Hab Hbc. destruct (Z.eq_dec (kcmp a b) 0) as [E|E].
  - by rewrite (kcmp_eq_l a b c).
  - apply (kcmp_trans a b c); lia.
Qed.

Lemma klt_trans a b c : klt a b -> klt b c -> klt a c.
Proof. apply kcmp_trans. Qed.

(** ** Rotations and rebalancing keep the elements and the slots *)
Create Rewrite HintDb avl.

Lemma elems_rotl t : elems (t_rotl t) = elems t.
Proof.
  destruct t as [|l i k v [|rl j k' v' rr]]; simpl; try done.
  by rewrite <- app_assoc.
Qed.
Lemma elems_rotr t : elems (t_rotr t) = elems t.
Proof.
  destruct t as [|[|ll j k' v' lr] i k v r]; simpl; try done.
  by rewrite <- app_assoc.
Qed.
Lemma indices_rotl t : indices (t_rotl t) = indices t.
Proof.
  destruct t as [|l i k v [|rl j k' v' rr]]; simpl; try done.
  by rewrite <- app_assoc.
Qed.
Lemma indices_rotr t : indices (t_rotr t) = indices t.
Proof.
  destruct t as [|[|ll j k' v' lr] i k v r]; simpl; try done.
  by rewrite <- app_assoc.
Qed.
#[export] Hint Rewrite elems_rotl elems_rotr indices_rotl indices_rotr : avl.

Lemma elems_balance t : elems (t_balance t) = elems t.
Proof.
  unfold t_balance, t_rotlr, t_rotrl.
  destruct t; repeat case_match; autorewrite with avl; simpl; by autorewrite with avl.
Qed.
Lemma indices_balance t : indices (t_balance t) = indices t.
Proof.
  unfold t_balance, t_rotlr, t_rotrl.
  destruct t; repeat case_match; autorewrite with avl; simpl; by autorewrite with avl.
Qed.
#[export] Hint Rewrite elems_balance indices_balance : avl.

Lemma tsize_elems t : tsize t = zlen (elems t).
Proof.
  induction t as [|l IHl i k v r IHr]; simpl; [done|].
  unfold zlen in *. rewrite length_app. simpl. lia.
Qed.
Lemma tsize_indices t : tsize t = zlen (indices t).
Proof.
  induction t as [|l IHl i k v r IHr]; simpl; [done|].
  unfold zlen in *. rewrite length_app. simpl. lia.
Qed.

Lemma th_bounds t : 0 <= th t <= tsize t.
Proof. induction t; simpl; lia. Qed.

(** ** Insertion implements insertion into the ordered list *)
Lemma al_insert_app_lt k v k' v' l r : kcmp k k' < 0 ->
  al_insert k v (l ++ (k', v') :: r) = al_insert k v l ++ (k', v') :: r.
Proof.
  intros Hk. induction l as [|[k1 v1] l IH]; simpl.
  - destruct (Z.ltb_spec (kcmp k k') 0); [done|lia].
  - destruct (Z.ltb_spec (kcmp k k1) 0); [done|].
    destruct (Z.eqb_spec (kcmp k k1) 0); [done|]. simpl. by rewrite IH.
Qed.

Lemma al_insert_app_ge k v l r : Forall (fun e => 0 < kcmp k e.1) l ->
  al_insert k v (l ++ r) = l ++ al_insert k v r.
Proof.
  induction 1 as [|[k1 v1] l Hk1 Hl IH]; simpl in *; [done|].
  destruct (Z.ltb_spec (kcmp k k1) 0); [lia|].
  destruct (Z.eqb_spec (kcmp k k1) 0); [lia|]. by rewrite IH.
Qed.

Abbreviation ordered := (StronglySorted klt).

Lemma ordered_app_inv l r : ordered (l ++ r) ->
  ordered l /\ ordered r /\ forall x y, x ∈ l -> y ∈ r -> klt x y.
Proof.
  induction l as [|x l IH]; simpl; intros Hs.
  - repeat split; [constructor|done|]. intros x y Hx. by apply elem_of_nil in Hx.
  - inversion_clear Hs as [|? ? Hs' Hx]. destruct (IH Hs') as (Hl & Hr & Hlr).
    rewrite Forall_app in Hx. destruct Hx as [Hxl Hxr].
    repeat split; [by constructor|done|].
    intros a b [->|Ha]%elem_of_cons Hb; [|by apply Hlr].
    rewrite Forall_forall in Hxr. by apply Hxr.
Qed.

Lemma ordered_app l r : ordered l -> ordered r ->
  (forall x y, x ∈ l -> y ∈ r -> klt x y) -> ordered (l ++ r).
Proof.
  induction 1 as [|x l Hl IH Hx]; simpl; intros Hr Hlr; [done|].
  constructor.
  - apply IH; [done|]. intros a b Ha. apply Hlr. by apply list_elem_of_further.
  - apply Forall_app; split; [done|]. apply Forall_forall. intros y Hy.
    apply Hlr; [by apply list_elem_of_here|done].
Qed.

Lemma ordered_cons_inv x l : ordered (x :: l) -> ordered l /\ Forall (klt x) l.
Proof. by inversion_clear 1. Qed.

(** The elements before and after the root of an ordered tree. *)
Lemma ordered_node l k v r : ordered (elems l ++ (k, v) :: elems r) ->
  ordered (elems l) /\ ordered (elems r) /\
  Forall (fun e => kcmp e.1 k < 0) (elems l) /\ Forall (fun e => kcmp k e.1 < 0) (elems r).
Proof.
  intros Hs. apply ordered_app_inv in Hs as (Hl & Hr & Hlr).
  apply ordered_cons_inv in Hr as [Hr Hkr].
  repeat split; try done.
  apply Forall_forall. intros x Hx. apply (Hlr x (k, v)); [done|apply list_elem_of_here].
Qed.

Lemma Forall_gt_of_ge k k' (l : list (bytes * Z)) : kcmp k' k <= 0 ->
  Forall (fun e => kcmp e.1 k' < 0) l -> Forall (fun e => 0 < kcmp k e.1) l.
Proof.
  intros Hk Hl. apply (Forall_impl _ _ _ Hl). intros [k1 v1] H1; simpl in *.
  rewrite kcmp_antisym. pose proof (kcmp_antisym k1 k') as E1.
  pose proof (kcmp_antisym k k') as E2.
  enough (kcmp k1 k < 0) by lia.
  destruct (Z.eq_dec (kcmp k' k) 0) as [E|E].
  - pose proof (kcmp_eq_l k' k k1 E). pose proof (kcmp_antisym k k1). lia.
  - apply (kcmp_trans _ k'); lia.
Qed.

Lemma elems_put k v slot t :
  ordered (elems t) -> is_Some slot \/ is_Some (t_find k t) ->
  elems (t_put k v slot t) = al_insert k v (elems t).
Proof.
  induction t as [|l IHl i k' v' r IHr]; simpl; intros Hs Hslot.
  - destruct Hslot as [[s ->]|[? ?]]; done.
  - apply ordered_node in Hs as (Hl & Hr & Hlk & Hkr).
    autorewrite with avl. revert Hslot.
    destruct (Z.ltb_spec (kcmp k k') 0) as [Hlt|Hge]; intros Hslot; simpl.
    { rewrite al_insert_app_lt by done. by rewrite IHl. }
    rewrite al_insert_app_ge.
    2:{ apply (Forall_gt_of_ge k k'); [|done]. pose proof (kcmp_antisym k k'). lia. }
    revert Hslot. simpl. destruct (Z.ltb_spec (kcmp k k') 0); [lia|].
    destruct (Z.eqb_spec (kcmp k k') 0); intros Hslot; simpl; [done|]. by rewrite IHr.
Qed.

(** Without a free slot a new key changes nothing but the shape. *)
Lemma elems_put_None k v t : t_find k t = None -> elems (t_put k v None t) = elems t.
Proof.
  induction t as [|l IHl i k' v' r IHr]; simpl; intros Hf; [done|].
  autorewrite with avl. destruct (_ <? _); simpl; [by rewrite IHl|].
  destruct (_ =? _); [done|]. simpl. by rewrite IHr.
Qed.

Lemma indices_put k v slot t :
  indices (t_put k v slot t) ≡ₚ
  match t_find k t with Some _ => [] | None => option_list slot end ++ indices t.
Proof.
  induction t as [|l IHl i k' v' r IHr]; simpl; [by destruct slot|].
  autorewrite with avl. destruct (_ <? _); simpl; [by rewrite IHl, <- app_assoc|].
  destruct (_ =? _); simpl; [done|].
  by rewrite IHr, Permutation_middle, Permutation_app_swap_app.
Qed.

(** ** Search *)
Lemma al_find_app_lt k l r :
  Forall (fun e => kcmp k e.1 < 0) r -> al_find k (l ++ r) = al_find k l.
Proof.
  intros Hr. induction l as [|[k1 v1] l IH]; simpl; [|by rewrite IH].
  induction Hr as [|[k1 v1] r Hk1 Hr IH]; simpl in *; [done|].
  destruct (Z.eqb_spec (kcmp k k1) 0); [lia|done].
Qed.

Lemma al_find_app_gt k l r :
  Forall (fun e => 0 < kcmp k e.1) l -> al_find k (l ++ r) = al_find k r.
Proof.
  induction 1 as [|[k1 v1] l Hk1 Hl IH]; simpl in *; [done|].
  destruct (Z.eqb_spec (kcmp k k1) 0); [lia|done].
Qed.

Lemma Forall_lt_of_le k k' (l : list (bytes * Z)) : kcmp k k' <= 0 ->
  Forall (fun e => kcmp k' e.1 < 0) l -> Forall (fun e => kcmp k e.1 < 0) l.
Proof.
  intros Hk Hl. apply (Forall_impl _ _ _ Hl). intros [k1 v1] H1; simpl in *.
  by apply (kcmp_le_lt _ k').
Qed.

Lemma t_find_elems k t : ordered (elems t) -> snd <$> t_find k t = al_find k (elems t).
Proof.
  induction t as [|l IHl i k' v' r IHr]; simpl; intros Hs; [done|].
  apply ordered_node in Hs as (Hl & Hr & Hlk & Hkr).
  pose proof (kcmp_antisym k k').
  destruct (Z.ltb_spec (kcmp k k') 0).
  - rewrite al_find_app_lt; [by apply IHl|]. constructor; [done|].
    apply (Forall_lt_of_le k k'); [lia|done].
  - rewrite al_find_app_gt; [|apply (Forall_gt_of_ge k k'); [lia|done]].
    simpl. destruct (Z.eqb_spec (kcmp k k') 0); [done|by apply IHr].
Qed.

Lemma t_find_index k t i v : t_find k t = Some (i, v) -> i ∈ indices t.
Proof.
  induction t as [|l IHl j k' v' r IHr]; simpl; [done|].
  rewrite elem_of_app, elem_of_cons.
  destruct (_ <? _); [naive_solver|]. destruct (_ =? _); naive_solver.
Qed.

(** ** Deletion implements deletion from the ordered list *)
Lemma t_max_elems t i k v : t_max t = Some (i, k, v) ->
  elems t = elems (t_removeMax t) ++ [(k, v)].
Proof.
  induction t as [|l IHl j k' v' r IHr]; [done|].
  intros Hm. destruct r as [|rl j' k'' v'' rr].
  - simpl in *. autorewrite with avl. by simplify_eq.
  - change (t_max (Node rl j' k'' v'' rr) = Some (i, k, v)) in Hm.
    change (t_removeMax (Node l j k' v' (Node rl j' k'' v'' rr)))
      with (t_balance (Node l j k' v' (t_removeMax (Node rl j' k'' v'' rr)))).
    rewrite elems_balance.
    change (elems (Node l j k' v' (Node rl j' k'' v'' rr)))
      with (elems l ++ (k', v') :: elems (Node rl j' k'' v'' rr)).
    rewrite (IHr Hm). simpl. by rewrite <- app_assoc.
Qed.

Lemma t_max_indices t i k v : t_max t = Some (i, k, v) ->
  indices t = indices (t_removeMax t) ++ [i].
Proof.
  induction t as [|l IHl j k' v' r IHr]; [done|].
  intros Hm. destruct r as [|rl j' k'' v'' rr].
  - simpl in *. autorewrite with avl. by simplify_eq.
  - change (t_max (Node rl j' k'' v'' rr) = Some (i, k, v)) in Hm.
    change (t_removeMax (Node l j k' v' (Node rl j' k'' v'' rr)))
      with (t_balance (Node l j k' v' (t_removeMax (Node rl j' k'' v'' rr)))).
    rewrite indices_balance.
    change (indices (Node l j k' v' (Node rl j' k'' v'' rr)))
      with (indices l ++ j :: indices (Node rl j' k'' v'' rr)).
    rewrite (IHr Hm). simpl. by rewrite <- app_assoc.
Qed.

Lemma t_max_is_Some t : t <> Leaf -> exists i k v, t_max t = Some (i, k, v).
Proof.
  induction t as [|l IHl i k v r IHr]; intros Ht; [done|].
  destruct r; [simpl; eauto|]. by apply IHr.
Qed.

Lemma al_remove_app_ne k l r :
  Forall (fun e => kcmp k e.1 <> 0) l -> al_remove k (l ++ r) = l ++ al_remove k r.
Proof.
  induction 1 as [|[k1 v1] l Hk1 Hl IH]; simpl in *; [done|].
  destruct (Z.eqb_spec (kcmp k k1) 0); [lia|by rewrite IH].
Qed.

Lemma al_remove_ne k l : Forall (fun e => kcmp k e.1 <> 0) l -> al_remove k l = l.
Proof. intros H. rewrite <- (app_nil_r l) at 1. rewrite al_remove_app_ne by done. by rewrite app_nil_r. Qed.

Lemma al_remove_app_l k l r :
  Forall (fun e => kcmp k e.1 <> 0) r -> al_remove k (l ++ r) = al_remove k l ++ r.
Proof.
  intros Hr. induction l as [|[k1 v1] l IH]; simpl; [by apply al_remove_ne|].
  destruct (_ =? _); [done|]. simpl. by rewrite IH.
Qed.

Lemma elems_remove k t : ordered (elems t) -> elems (t_remove k t) = al_remove k (elems t).
Proof.
  induction t as [|l IHl i k' v' r IHr]; [done|]. simpl. intros Hs.
  apply ordered_node in Hs as (Hl & Hr & Hlk & Hkr).
  pose proof (kcmp_antisym k k'). autorewrite with avl.
  destruct (Z.ltb_spec (kcmp k k') 0); simpl.
  { rewrite IHl by done. symmetry. apply al_remove_app_l. constructor; [simpl; lia|].
    apply (Forall_impl (fun e => kcmp k e.1 < 0)); [|intros; simpl in *; lia].
    apply (Forall_lt_of_le k k'); [lia|done]. }
  rewrite al_remove_app_ne.
  2:{ apply (Forall_impl (fun e => 0 < kcmp k e.1)); [|intros; simpl in *; lia].
      apply (Forall_gt_of_ge k k'); [lia|done]. }
  simpl. destruct (Z.eqb_spec (kcmp k k') 0); simpl; [|by rewrite IHr].
  destruct l as [|ll li lk lv lr]; [done|].
  destruct r as [|rl ri rk rv rr]; [by rewrite app_nil_r|].
  destruct (t_max_is_Some (Node ll li lk lv lr)) as (im & km & vm & Hm); [done|].
  rewrite Hm. rewrite (t_max_elems _ _ _ _ Hm). cbn [elems]. by rewrite <- app_assoc.
Qed.

Lemma indices_remove k t :
  option_list (t_remove_slot k t) ++ indices (t_remove k t) ≡ₚ indices t.
Proof.
  induction t as [|l IHl i k' v' r IHr]; [done|]. simpl. autorewrite with avl.
  destruct (_ <? _); simpl; [by rewrite app_assoc, IHl|].
  destruct (_ =? _); simpl.
  - destruct l as [|ll li lk lv lr]; [done|].
    destruct r as [|rl ri rk rv rr]; [by rewrite Permutation_app_comm|].
    destruct (t_max_is_Some (Node ll li lk lv lr)) as (im & km & vm & Hm); [done|].
    rewrite Hm. rewrite (t_max_indices _ _ _ _ Hm). cbn [indices fmap option_fmap option_map fst].
    simpl. rewrite <- app_assoc. simpl. apply Permutation_middle.
  - rewrite Permutation_app_swap_app. f_equiv. by rewrite <- Permutation_middle, IHr.
Qed.

Lemma t_remove_slot_find k t : is_Some (t_remove_slot k t) <-> is_Some (t_find k t).
Proof.
  induction t as [|l IHl i k' v' r IHr]; simpl; [done|].
  destruct (_ <? _); [done|]. destruct (_ =? _); [|done].
  split; [intros _; eauto|intros _].
  destruct l as [|ll li lk lv lr]; [eauto|]. destruct r; [eauto|].
  destruct (t_max_is_Some (Node ll li lk lv lr)) as (im & km & vm & Hm); [done|].
  rewrite Hm. eauto.
Qed.

(** ** Ordered lists as finite maps *)
Lemma al_insert_keys (P : bytes -> Prop) k v l :
  P k -> Forall (fun e => P e.1) l -> Forall (fun e => P e.1) (al_insert k v l).
Proof.
  intros Hk. induction 1 as [|[k1 v1] l H1 Hl IH]; simpl; [by repeat constructor|].
  repeat case_match; repeat constructor; done.
Qed.

Lemma al_insert_ordered k v l : ordered l -> ordered (al_insert k v l).
Proof.
  induction l as [|[k1 v1] l IH]; simpl; intros Hs; [repeat constructor|].
  apply ordered_cons_inv in Hs as [Hl H1].
  destruct (Z.ltb_spec (kcmp k k1) 0).
  - repeat (constructor; try done). apply (Forall_impl (klt (k1, v1))); [done|].
    intros [k2 v2]. by apply klt_trans.
  - destruct (Z.eqb_spec (kcmp k k1) 0); [by constructor|].
    constructor; [by apply IH|].
    apply (al_insert_keys (fun x => kcmp k1 x < 0)); [|done].
    pose proof (kcmp_antisym k k1). lia.
Qed.

Lemma al_remove_Forall P k l : Forall P l -> Forall P (al_remove k l).
Proof.
  induction 1 as [|[k1 v1] l H1 Hl IH]; simpl; [done|].
  case_match; [done|by constructor].
Qed.

Lemma al_remove_ordered k l : ordered l -> ordered (al_remove k l).
Proof.
  induction l as [|[k1 v1] l IH]; simpl; intros Hs; [constructor|].
  apply ordered_cons_inv in Hs as [Hl H1].
  case_match; [done|]. constructor; [by apply IH|by apply al_remove_Forall].
Qed.

(** The map an ordered list of well-formed keys denotes. *)
Abbreviation al_map := (list_to_map (K:=bytes) (A:=Z) (M:=gmap bytes Z)).
Abbreviation keys_ok := (Forall (fun e : bytes * Z => is_key e.1)).

Lemma al_find_map k l : is_key k -> keys_ok l -> al_find k l = al_map l !! k.
Proof.
  intros Hk. induction 1 as [|[k1 v1] l H1 Hl IH]; simpl in *; [done|].
  destruct (Z.eqb_spec (kcmp k k1) 0) as [E|E].
  - apply kcmp_eq in E; [|done..]. subst. by rewrite lookup_insert_eq.
  - rewrite lookup_insert_ne; [done|]. intros ->. by rewrite kcmp_refl in E.
Qed.

Lemma al_insert_map k v l : is_key k -> keys_ok l ->
  al_map (al_insert k v l) = <[k := v]> (al_map l).
Proof.
  intros Hk. induction 1 as [|[k1 v1] l H1 Hl IH]; simpl in *; [done|].
  destruct (_ <? _); [done|].
  destruct (Z.eqb_spec (kcmp k k1) 0) as [E|E]; simpl.
  - apply kcmp_eq in E; [|done..]. subst. by rewrite insert_insert_eq.
  - rewrite IH, insert_insert_ne; [done|]. intros ->. by rewrite kcmp_refl in E.
Qed.

Lemma al_remove_map k l : is_key k -> keys_ok l -> ordered l ->
  al_map (al_remove k l) = delete k (al_map l).
Proof.
  intros Hk. induction 1 as [|[k1 v1] l H1 Hl IH]; simpl in *; intros Hs.
  { symmetry. apply delete_empty. }
  apply ordered_cons_inv in Hs as [Hs H1l].
  destruct (Z.eqb_spec (kcmp k k1) 0) as [E|E]; simpl.
  - apply kcmp_eq in E; [|done..]. subst. rewrite delete_insert_eq.
    symmetry. apply delete_id, not_elem_of_list_to_map_1.
    intros ([k2 v2] & -> & H2)%list_elem_of_fmap.
    rewrite Forall_forall in H1l. specialize (H1l _ H2). unfold klt in H1l. simpl in H1l.
    rewrite kcmp_refl in H1l. lia.
  - rewrite IH by done. rewrite delete_insert_ne; [done|].
    intros ->. by rewrite kcmp_refl in E.
Qed.

(** ** Insertion keeps the tree balanced *)
Lemma balance_left_heavy l i k v r :
  balanced l -> balanced r -> th l = th r + 2 -> bf l <> 0 ->
  balanced (t_balance (Node l i k v r)) /\ th (t_balance (Node l i k v r)) = th l.
Proof.
  intros Hl Hr Hh Hbf. unfold t_balance.
  assert (bf (Node l i k v r) = 2) as -> by (simpl; lia). simpl (2 =? -2). simpl (2 =? 2).
  cbn match. cbn [t_left]. destruct l as [|ll li lk lv lr]; [simpl in *; pose proof (th_bounds r); lia|].
  destruct Hl as (Hbl & Hll & Hlr). cbn [bf] in *. cbn [th] in Hh.
  destruct (Z.eqb_spec (th ll - th lr) (-1)); [|destruct (Z.eqb_spec (th ll - th lr) 1); [|lia]].
  - destruct lr as [|lrl lri lrk lrv lrr]; [simpl in *; pose proof (th_bounds ll); lia|].
    simpl in *. destruct_and!. repeat split; try done; lia.
  - simpl. repeat split; try done; lia.
Qed.

Lemma balance_right_heavy l i k v r :
  balanced l -> balanced r -> th r = th l + 2 -> bf r <> 0 ->
  balanced (t_balance (Node l i k v r)) /\ th (t_balance (Node l i k v r)) = th r.
Proof.
  intros Hl Hr Hh Hbf. unfold t_balance.
  assert (bf (Node l i k v r) = -2) as -> by (simpl; lia). simpl (-2 =? -2).
  cbn match. cbn [t_right]. destruct r as [|rl ri rk rv rr]; [simpl in *; pose proof (th_bounds l); lia|].
  destruct Hr as (Hbr & Hrl & Hrr). cbn [bf] in *. cbn [th] in Hh.
  destruct (Z.eqb_spec (th rl - th rr) (-1)); [|destruct (Z.eqb_spec (th rl - th rr) 1); [|lia]].
  - simpl. repeat split; try done; lia.
  - destruct rl as [|rll rli rlk rlv rlr]; [simpl in *; pose proof (th_bounds rr); lia|].
    simpl in *. destruct_and!. repeat split; try done; lia.
Qed.

Lemma balance_balanced t : balanced t -> t_balance t = t.
Proof.
  destruct t as [|l i k v r]; [done|]. intros (Hb & _ & _). unfold t_balance. cbn [bf].
  destruct (Z.eqb_spec (th l - th r) (-2)); [lia|].
  by destruct (Z.eqb_spec (th l - th r) 2); [lia|].
Qed.

(** The height grows by at most one, and then the new root leans. *)
Definition grown (t t' : tree) : Prop :=
  balanced t' /\ (th t' = th t \/ th t' = th t + 1 /\ (t = Leaf \/ bf t' <> 0)).

Lemma grown_left l l' i k v r :
  balanced (Node l i k v r) -> grown l l' ->
  grown (Node l i k v r) (t_balance (Node l' i k v r)).
Proof.
  intros (Hb & Hl & Hr) (Hl' & Hh). unfold grown.
  destruct (Z.eq_dec (th l') (th r + 2)) as [E|E].
  - destruct Hh as [Hh|[Hh Hleaf]]; [lia|].
    assert (bf l' <> 0).
    { destruct Hleaf as [->|?]; [simpl in *; pose proof (th_bounds r); lia|done]. }
    destruct (balance_left_heavy l' i k v r) as [? ->]; try done.
    split; [done|]. left. simpl. lia.
  - rewrite balance_balanced by (simpl; repeat split; try done; lia).
    split; [simpl; repeat split; try done; lia|]. simpl. lia.
Qed.

Lemma grown_right l i k v r r' :
  balanced (Node l i k v r) -> grown r r' ->
  grown (Node l i k v r) (t_balance (Node l i k v r')).
Proof.
  intros (Hb & Hl & Hr) (Hr' & Hh). unfold grown.
  destruct (Z.eq_dec (th r') (th l + 2)) as [E|E].
  - destruct Hh as [Hh|[Hh Hleaf]]; [lia|].
    assert (bf r' <> 0).
    { destruct Hleaf as [->|?]; [simpl in *; pose proof (th_bounds l); lia|done]. }
    destruct (balance_right_heavy l i k v r') as [? ->]; try done.
    split; [done|]. left. simpl. lia.
  - rewrite balance_balanced by (simpl; repeat split; try done; lia).
    split; [simpl; repeat split; try done; lia|]. simpl. lia.
Qed.

Lemma t_put_grown k v slot t : balanced t -> grown t (t_put k v slot t).
Proof.
  induction t as [|l IHl i k' v' r IHr]; intros Hb.
  - unfold grown. destruct slot; simpl; repeat split; auto; lia.
  - simpl. pose proof Hb as (Hlr & Hl & Hr).
    destruct (_ <? _); [by apply grown_left; [|apply IHl]|].
    destruct (_ =? _); [|by apply grown_right; [|apply IHr]].
    rewrite balance_balanced by done. split; [done|by left].
Qed.
