(* ===== verification/KeyRecRepr.v ===== *)
(** * The array of key records represents a tree

    The representation relation between a key page and a [tree], and one
    lemma per operation of librdb/src/keyrec.cpp: run on a page that represents
    [t], the operation does not fail and leaves a page that represents what
    the operation of AvlTree.v makes of [t]. *)
From S2P Require Import Prelude DbStruct KeyRec AvlTree.
Import KeyRecords.

(** ** Representation *)

(** The record stores key [k] (in the first [kr_klen] bytes) with offset [v]. *)
Definition rec_is (r : key_rec) (k : bytes) (v : Z) : Prop :=
  kr_flags r = KEY_INUSE /\ kr_klen r = zlen k /\ zlen (kr_key r) = MAX_KEY_LENGTH /\
  take (length k) (kr_key r) = k /\ kr_voff r = v.

Fixpoint repr (ks : list key_rec) (root : Z) (t : tree) : Prop :=
  match t with
  | Leaf => root = -1
  | Node l i k v r =>
      root = i /\ exists rec, zget ks i = Some rec /\ rec_is rec k v /\
        kr_height rec = th (Node l i k v r) /\
        repr ks (kr_left rec) l /\ repr ks (kr_right rec) r
  end.

(** A node whose [kr_height] may be out of date. *)
Definition unode (ks : list key_rec) (l : tree) (i : Z) (k : bytes) (v : Z) (r : tree) : Prop :=
  exists rec, zget ks i = Some rec /\ rec_is rec k v /\
    repr ks (kr_left rec) l /\ repr ks (kr_right rec) r.

(** [kp'] differs from [kp] in the records [js] and in the count of keys. *)
Definition frame (dv : Z) (js : list Z) (kp kp' : key_page) : Prop :=
  (kp_flags kp' = kp_flags kp /\ kp_root kp' = kp_root kp /\ kp_hash kp' = kp_hash kp /\
   kp_poff kp' = kp_poff kp /\ kp_noff kp' = kp_noff kp) /\
  kp_vcount kp' = kp_vcount kp + dv /\
  zlen (kp_keys kp') = zlen (kp_keys kp) /\
  forall j, j ∉ js -> zget (kp_keys kp') j = zget (kp_keys kp) j.

Create HintDb keyrec.

Lemma frame_refl js kp : frame 0 js kp kp.
Proof. repeat split; lia. Qed.

Lemma frame_trans d1 d2 js1 js2 js kp1 kp2 kp3 :
  frame d1 js1 kp1 kp2 -> frame d2 js2 kp2 kp3 -> js1 ⊆ js -> js2 ⊆ js ->
  frame (d1 + d2) js kp1 kp3.
Proof.
  intros ((?&?&?&?&?)&?&?&Hf1) ((?&?&?&?&?)&?&?&Hf2) Hs1 Hs2.
  split; [repeat split; congruence|]. split; [lia|]. split; [congruence|].
  intros j Hj. rewrite Hf2, Hf1 by set_solver. done.
Qed.

Lemma frame_weaken d js js' kp kp' : frame d js kp kp' -> js ⊆ js' -> frame d js' kp kp'.
Proof.
  intros Hf Hs. replace d with (d + 0) by lia. apply (frame_trans d 0 js js' js' kp kp' kp'); [done|apply frame_refl|done|done].
Qed.

(** Inclusion of lists of slots, and absence of a slot from a list. *)
Ltac slots :=
  let rec go := first [rewrite elem_of_app|rewrite elem_of_cons|rewrite elem_of_nil] in
  let z := fresh in intros z; clear; cbn [indices option_list app]; repeat go; tauto.

(** Two steps without a change of the count. *)
Lemma frame_step js1 js2 js kp1 kp2 kp3 d :
  frame d js1 kp1 kp2 -> frame 0 js2 kp2 kp3 -> js1 ⊆ js -> js2 ⊆ js -> frame d js kp1 kp3.
Proof. intros. replace d with (d + 0) by lia. by eapply frame_trans. Qed.

Lemma frame_zset kp i r : 0 <= i < zlen (kp_keys kp) ->
  frame 0 [i] kp (kp_with_keys kp (zset (kp_keys kp) i r)).
Proof.
  intros Hi. repeat split; simpl; [lia|apply zlen_zset|].
  intros j Hj. apply zget_zset_ne; [lia|set_solver].
Qed.

Lemma repr_ext ks ks' x t :
  (forall j, j ∈ indices t -> zget ks' j = zget ks j) -> repr ks x t -> repr ks' x t.
Proof.
  revert x. induction t as [|l IHl i k v r IHr]; simpl; intros x Hj Hr; [done|].
  destruct Hr as (-> & rec & Hrec & Hk & Hh & Hl & Hr).
  split; [done|]. exists rec. rewrite Hj by set_solver.
  split_and!; try done; [apply IHl|apply IHr]; try done; intros; apply Hj; set_solver.
Qed.

Lemma repr_frame d js kp kp' x t :
  frame d js kp kp' -> (forall j, j ∈ indices t -> j ∉ js) ->
  repr (kp_keys kp) x t -> repr (kp_keys kp') x t.
Proof. intros (_ & _ & _ & Hf) Hj. apply repr_ext. intros. by apply Hf, Hj. Qed.

Lemma repr_range ks x t : repr ks x t -> Forall (fun j => 0 <= j < zlen ks) (indices t).
Proof.
  revert x. induction t as [|l IHl i k v r IHr]; simpl; intros x Hr; [constructor|].
  destruct Hr as (-> & rec & Hrec & _ & _ & Hl & Hr).
  apply Forall_app; split; [by eapply IHl|]. constructor; [by eapply zget_Some|by eapply IHr].
Qed.

Lemma repr_root ks x t : repr ks x t ->
  (t = Leaf /\ x = -1) \/ (t <> Leaf /\ 0 <= x < zlen ks).
Proof.
  destruct t; simpl; [auto|]. intros (-> & rec & Hrec & _). right.
  split; [done|]. by eapply zget_Some.
Qed.

Lemma repr_inuse ks x t j : repr ks x t -> j ∈ indices t ->
  exists r, zget ks j = Some r /\ kr_flags r = KEY_INUSE.
Proof.
  revert x. induction t as [|l IHl i k v r IHr]; simpl; intros x Hr Hj; [by apply elem_of_nil in Hj|].
  destruct Hr as (-> & rec & Hrec & Hk & _ & Hl & Hr).
  apply elem_of_app in Hj as [Hj|[->|Hj]%elem_of_cons]; [by eapply IHl| |by eapply IHr].
  exists rec. split; [done|apply Hk].
Qed.

Lemma repr_unode ks x l i k v r : repr ks x (Node l i k v r) -> x = i /\ unode ks l i k v r.
Proof. simpl. intros (-> & rec & ? & ? & _ & ? & ?). split; [done|]. exists rec. auto. Qed.

(** ** Accesses *)
Lemma kp_at_Some kp i r : zget (kp_keys kp) i = Some r -> kp_at kp i = Val r.
Proof. unfold kp_at. by intros ->. Qed.

Lemma kp_set_Some kp i r r' : zget (kp_keys kp) i = Some r ->
  kp_set kp i r' = Val (kp_with_keys kp (zset (kp_keys kp) i r')).
Proof. intros H%zget_Some. unfold kp_set. by rewrite decide_True. Qed.

Lemma LEFT_OF_Some kp i r : zget (kp_keys kp) i = Some r -> LEFT_OF kp i = Val (kr_left r).
Proof. intros H. unfold LEFT_OF. by rewrite (kp_at_Some _ _ _ H). Qed.
Lemma RIGHT_OF_Some kp i r : zget (kp_keys kp) i = Some r -> RIGHT_OF kp i = Val (kr_right r).
Proof. intros H. unfold RIGHT_OF. by rewrite (kp_at_Some _ _ _ H). Qed.

Lemma set_LEFT_OF_Some kp i r x : zget (kp_keys kp) i = Some r ->
  set_LEFT_OF kp i x = Val (kp_with_keys kp (zset (kp_keys kp) i (kr_with_left r x))).
Proof. intros H. unfold set_LEFT_OF. rewrite (kp_at_Some _ _ _ H). by apply (kp_set_Some _ _ r). Qed.
Lemma set_RIGHT_OF_Some kp i r x : zget (kp_keys kp) i = Some r ->
  set_RIGHT_OF kp i x = Val (kp_with_keys kp (zset (kp_keys kp) i (kr_with_right r x))).
Proof. intros H. unfold set_RIGHT_OF. rewrite (kp_at_Some _ _ _ H). by apply (kp_set_Some _ _ r). Qed.
Lemma set_HEIGHT_OF_Some kp i r x : zget (kp_keys kp) i = Some r ->
  set_HEIGHT_OF kp i x = Val (kp_with_keys kp (zset (kp_keys kp) i (kr_with_height r x))).
Proof. intros H. unfold set_HEIGHT_OF. rewrite (kp_at_Some _ _ _ H). by apply (kp_set_Some _ _ r). Qed.

(** One step of a monadic computation whose access succeeds. *)
Ltac access :=
  match goal with
  | H : zget (kp_keys ?kp) ?i = Some ?r |- context [LEFT_OF ?kp ?i] =>
      rewrite (LEFT_OF_Some kp i r H)
  | H : zget (kp_keys ?kp) ?i = Some ?r |- context [RIGHT_OF ?kp ?i] =>
      rewrite (RIGHT_OF_Some kp i r H)
  | H : zget (kp_keys ?kp) ?i = Some ?r |- context [kp_at ?kp ?i] =>
      rewrite (kp_at_Some kp i r H)
  | H : zget (kp_keys ?kp) ?i = Some ?r |- context [set_LEFT_OF ?kp ?i ?x] =>
      rewrite (set_LEFT_OF_Some kp i r x H)
  | H : zget (kp_keys ?kp) ?i = Some ?r |- context [set_RIGHT_OF ?kp ?i ?x] =>
      rewrite (set_RIGHT_OF_Some kp i r x H)
  | H : zget (kp_keys ?kp) ?i = Some ?r |- context [set_HEIGHT_OF ?kp ?i ?x] =>
      rewrite (set_HEIGHT_OF_Some kp i r x H)
  end; cbn [obind].

Lemma subHeight_ok kp x t : repr (kp_keys kp) x t -> subHeight kp x = Val (th t).
Proof.
  intros H. pose proof (repr_root _ _ _ H) as Hx. unfold subHeight.
  destruct t as [|l i k v r]; simpl in H.
  - by subst.
  - destruct H as (-> & rec & Hrec & _ & Hh & _). destruct Hx as [[? ?]|[_ Hx]]; [done|].
    destruct (Z.eqb_spec i (-1)); [lia|]. simpl.
    unfold HEIGHT_OF. access. by rewrite Hh.
Qed.

Lemma balanceFactor_ok kp x t : repr (kp_keys kp) x t -> balanceFactor kp x = Val (bf t).
Proof.
  intros H. pose proof (repr_root _ _ _ H) as Hx. unfold balanceFactor.
  destruct t as [|l i k v r]; simpl in H; [by subst|].
  destruct H as (-> & rec & Hrec & _ & Hh & Hl & Hr). destruct Hx as [[? ?]|[_ Hx]]; [done|].
  destruct (Z.eqb_spec i (-1)); [lia|]. simpl. access.
  rewrite (subHeight_ok _ _ _ Hl). cbn [obind]. access.
  by rewrite (subHeight_ok _ _ _ Hr).
Qed.

(** [height] brings the height of a node up to date. *)
Lemma height_ok kp l i k v r :
  unode (kp_keys kp) l i k v r -> i ∉ indices l ++ indices r -> tsize (Node l i k v r) <= 127 ->
  exists kp', height kp i = Val (th (Node l i k v r), kp') /\
    repr (kp_keys kp') i (Node l i k v r) /\ frame 0 [i] kp kp'.
Proof.
  intros (rec & Hrec & Hk & Hl & Hr) Hi Hsz. pose proof (zget_Some _ _ _ Hrec) as Hri.
  unfold height. destruct (Z.eqb_spec i (-1)); [lia|]. simpl negb. cbn match.
  access. rewrite (subHeight_ok _ _ _ Hl). cbn [obind]. access.
  rewrite (subHeight_ok _ _ _ Hr). cbn [obind]. access.
  pose proof (th_bounds (Node l i k v r)) as Hth.
  assert ((if th l <? th r then th r else th l) = Z.max (th l) (th r)) as ->.
  { destruct (Z.ltb_spec (th l) (th r)); lia. }
  change (1 + Z.max (th l) (th r)) with (th (Node l i k v r)).
  rewrite wrapS_id by (try done; simpl (2 ^ (8 - 1)); lia).
  eexists. split; [reflexivity|]. split; [|by apply frame_zset].
  simpl kp_keys. split; [done|]. eexists. split; [by apply zget_zset_eq|].
  split; [exact Hk|]. split; [done|].
  split; eapply repr_ext; try eassumption; intros j Hj; apply zget_zset_ne; try lia; set_solver.
Qed.

(** Writing a field of the record at [i]. *)
Lemma kp_set_ok kp i r r' : zget (kp_keys kp) i = Some r ->
  exists kp', kp_set kp i r' = Val kp' /\ zget (kp_keys kp') i = Some r' /\ frame 0 [i] kp kp'.
Proof.
  intros H. pose proof (zget_Some _ _ _ H) as Hi. rewrite (kp_set_Some _ _ r) by done.
  eexists. split; [reflexivity|]. split; [by apply zget_zset_eq|by apply frame_zset].
Qed.

Lemma set_LEFT_OF_ok kp i r x : zget (kp_keys kp) i = Some r ->
  exists kp', set_LEFT_OF kp i x = Val kp' /\ zget (kp_keys kp') i = Some (kr_with_left r x) /\
    frame 0 [i] kp kp'.
Proof.
  intros H. unfold set_LEFT_OF. rewrite (kp_at_Some _ _ _ H). by apply (kp_set_ok _ _ r).
Qed.

Lemma set_RIGHT_OF_ok kp i r x : zget (kp_keys kp) i = Some r ->
  exists kp', set_RIGHT_OF kp i x = Val kp' /\ zget (kp_keys kp') i = Some (kr_with_right r x) /\
    frame 0 [i] kp kp'.
Proof.
  intros H. unfold set_RIGHT_OF. rewrite (kp_at_Some _ _ _ H). by apply (kp_set_ok _ _ r).
Qed.

Lemma frame_zget d js kp kp' i : frame d js kp kp' -> i ∉ js ->
  zget (kp_keys kp') i = zget (kp_keys kp) i.
Proof. intros (_ & _ & _ & Hf). apply Hf. Qed.

(** ** Rotations *)

(** Facts about the slots of a node and of its right (left) child. *)
Lemma NoDup_node_inv (l : tree) i k v r : NoDup (indices (Node l i k v r)) ->
  i ∉ indices l ++ indices r /\ NoDup (indices l) /\ NoDup (indices r) /\
  (forall j, j ∈ indices l -> j ∉ indices r).
Proof.
  simpl. rewrite NoDup_app, NoDup_cons. intros (Hl & Hlr & Hi & Hr).
  split_and!; try done; set_solver.
Qed.

Lemma unode_frame d js kp kp' l i k v r :
  frame d js kp kp' -> (forall j, j ∈ indices (Node l i k v r) -> j ∉ js) ->
  unode (kp_keys kp) l i k v r -> unode (kp_keys kp') l i k v r.
Proof.
  intros Hf Hj (rec & Hrec & Hk & Hl & Hr). simpl in Hj. exists rec.
  split_and!; [|done|..].
  - rewrite <- Hrec. destruct Hf as (_ & _ & _ & Hf). apply Hf, Hj. set_solver.
  - eapply repr_frame; [done| |done]. set_solver.
  - eapply repr_frame; [done| |done]. set_solver.
Qed.

Lemma rotateLeft_ok kp l i k v rl j k' v' rr :
  let t := Node l i k v (Node rl j k' v' rr) in
  unode (kp_keys kp) l i k v (Node rl j k' v' rr) -> NoDup (indices t) -> tsize t <= 127 ->
  exists kp', rotateLeft kp i = Val (j, kp') /\ repr (kp_keys kp') j (t_rotl t) /\
    frame 0 (indices t) kp kp'.
Proof.
  intros t (rec & Hrec & Hk & Hl & Hr) Hnd Hsz. subst t.
  apply NoDup_node_inv in Hnd as (Hi & _ & Hndr & Hlr).
  apply NoDup_node_inv in Hndr as (Hj & _ & _ & Hrlr). cbn [indices tsize] in *.
  destruct Hr as (Hrj & rec' & Hrec' & Hk' & _ & Hrl & Hrr).
  assert (i <> j) as Hij by set_solver.
  unfold rotateLeft. access. rewrite Hrj. access.
  destruct (set_RIGHT_OF_ok _ _ _ (kr_left rec') Hrec) as (kp1 & -> & Hi1 & Hf1). cbn [obind].
  rewrite <- (frame_zget _ _ _ _ _ Hf1) in Hrec' by set_solver.
  destruct (set_LEFT_OF_ok _ _ _ i Hrec') as (kp2 & -> & Hj2 & Hf2). cbn [obind].
  assert (frame 0 [i; j] kp kp2) as Hf by (eapply frame_step; [exact Hf1|exact Hf2|set_solver|set_solver]).
  assert (unode (kp_keys kp2) l i k v rl) as Hu.
  { eexists. split_and!; [rewrite (frame_zget _ _ _ _ _ Hf2) by set_solver; exact Hi1|exact Hk|..];
      (eapply repr_frame; [exact Hf| |done]; set_solver). }
  destruct (height_ok kp2 l i k v rl Hu) as (kp3 & -> & Hr3 & Hf3);
    [set_solver|simpl; pose proof (th_bounds rr); lia|]. cbn [obind].
  assert (unode (kp_keys kp3) (Node l i k v rl) j k' v' rr) as Hu3.
  { eexists. split_and!; [rewrite (frame_zget _ _ _ _ _ Hf3) by set_solver; exact Hj2|exact Hk'|..];
      [exact Hr3|eapply repr_frame; [exact Hf3|set_solver|]; eapply repr_frame; [exact Hf| |done]; set_solver]. }
  destruct (height_ok kp3 _ _ _ _ _ Hu3) as (kp4 & -> & Hr4 & Hf4);
    [cbn [indices]; set_solver|cbn [tsize]; lia|].
  cbn [obind]. exists kp4. split; [done|]. split; [exact Hr4|].
  eapply (frame_step [i; j]); [|exact Hf4|slots|slots].
  eapply frame_step; [exact Hf|exact Hf3|slots|slots].
Qed.

Lemma rotateRight_ok kp ll j k' v' lr i k v r :
  let t := Node (Node ll j k' v' lr) i k v r in
  unode (kp_keys kp) (Node ll j k' v' lr) i k v r -> NoDup (indices t) -> tsize t <= 127 ->
  exists kp', rotateRight kp i = Val (j, kp') /\ repr (kp_keys kp') j (t_rotr t) /\
    frame 0 (indices t) kp kp'.
Proof.
  intros t (rec & Hrec & Hk & Hl & Hr) Hnd Hsz. subst t.
  apply NoDup_node_inv in Hnd as (Hi & Hndl & _ & Hlr).
  apply NoDup_node_inv in Hndl as (Hj & _ & _ & Hllr). cbn [indices tsize] in *.
  destruct Hl as (Hlj & rec' & Hrec' & Hk' & _ & Hll & Hlr').
  assert (i <> j) as Hij by set_solver.
  unfold rotateRight. access. rewrite Hlj. access.
  destruct (set_LEFT_OF_ok _ _ _ (kr_right rec') Hrec) as (kp1 & -> & Hi1 & Hf1). cbn [obind].
  rewrite <- (frame_zget _ _ _ _ _ Hf1) in Hrec' by set_solver.
  destruct (set_RIGHT_OF_ok _ _ _ i Hrec') as (kp2 & -> & Hj2 & Hf2). cbn [obind].
  assert (frame 0 [i; j] kp kp2) as Hf by (eapply frame_step; [exact Hf1|exact Hf2|set_solver|set_solver]).
  assert (unode (kp_keys kp2) lr i k v r) as Hu.
  { eexists. split_and!; [rewrite (frame_zget _ _ _ _ _ Hf2) by set_solver; exact Hi1|exact Hk|..];
      (eapply repr_frame; [exact Hf| |done]; set_solver). }
  destruct (height_ok kp2 lr i k v r Hu) as (kp3 & -> & Hr3 & Hf3);
    [set_solver|simpl; pose proof (th_bounds ll); lia|]. cbn [obind].
  assert (unode (kp_keys kp3) ll j k' v' (Node lr i k v r)) as Hu3.
  { eexists. split_and!; [rewrite (frame_zget _ _ _ _ _ Hf3) by set_solver; exact Hj2|exact Hk'|..];
      [eapply repr_frame; [exact Hf3|set_solver|]; eapply repr_frame; [exact Hf| |done]; set_solver|exact Hr3]. }
  destruct (height_ok kp3 _ _ _ _ _ Hu3) as (kp4 & -> & Hr4 & Hf4);
    [cbn [indices]; set_solver|cbn [tsize]; lia|].
  cbn [obind]. exists kp4. split; [done|]. split; [exact Hr4|].
  eapply (frame_step [i; j]); [|exact Hf4|slots|slots].
  eapply frame_step; [exact Hf|exact Hf3|slots|slots].
Qed.

Lemma tsize_rotl t : tsize (t_rotl t) = tsize t.
Proof. by rewrite !tsize_indices, indices_rotl. Qed.
Lemma tsize_rotr t : tsize (t_rotr t) = tsize t.
Proof. by rewrite !tsize_indices, indices_rotr. Qed.

Lemma tsize_balance t : tsize (t_balance t) = tsize t.
Proof. by rewrite !tsize_indices, indices_balance. Qed.

(** A double rotation: a rotation of the child, then of the node. *)
Lemma rotateLeftRight_ok kp ll j k1 v1 lrl m k2 v2 lrr i k v r :
  let l := Node ll j k1 v1 (Node lrl m k2 v2 lrr) in
  let t := Node l i k v r in
  unode (kp_keys kp) l i k v r -> NoDup (indices t) -> tsize t <= 127 ->
  exists x kp', rotateLeftRight kp i = Val (x, kp') /\
    repr (kp_keys kp') x (t_rotlr t) /\ frame 0 (indices t) kp kp'.
Proof.
  intros l t Hu Hnd Hsz. pose proof Hu as (rec & Hrec & Hk & Hl & Hr).
  pose proof (NoDup_node_inv _ _ _ _ _ Hnd) as (Hi & Hndl & Hndr & Hlr).
  unfold rotateLeftRight. access. apply repr_unode in Hl as [-> Hul].
  destruct (rotateLeft_ok kp ll j k1 v1 lrl m k2 v2 lrr Hul) as (kp1 & -> & Hr1 & Hf1);
    [done|simpl in Hsz |- *; pose proof (th_bounds r); lia|]. cbn [obind].
  rewrite elem_of_app in Hi.
  assert (repr (kp_keys kp1) (kr_right rec) r) as Hr'
    by (eapply repr_frame; [exact Hf1| |done]; set_solver).
  assert (zget (kp_keys kp1) i = Some rec) as Hrec1
    by (rewrite (frame_zget _ _ _ _ _ Hf1); [done|set_solver]).
  destruct (set_LEFT_OF_ok _ _ _ m Hrec1) as (kp2 & -> & Hrec2 & Hf2). cbn [obind].
  assert (unode (kp_keys kp2) (t_rotl l) i k v r) as Hu2.
  { eexists. split_and!; [exact Hrec2|exact Hk|..];
      (eapply repr_frame; [exact Hf2| |first [exact Hr1|exact Hr']]);
      rewrite ?indices_rotl; set_solver. }
  simpl t_rotl in Hu2.
  destruct (rotateRight_ok kp2 _ _ _ _ _ _ _ _ _ Hu2) as (kp3 & -> & Hr3 & Hf3).
  { change (NoDup (indices (t_rotl l) ++ i :: indices r)). by rewrite indices_rotl. }
  { change (1 + tsize (t_rotl l) + tsize r <= 127). by rewrite tsize_rotl. }
  do 2 eexists. split; [reflexivity|]. split; [exact Hr3|].
  eapply (frame_step (i :: indices l)); unfold t, l; [|exact Hf3|slots|slots].
  eapply frame_step; [exact Hf1|exact Hf2|slots|slots].
Qed.

Lemma rotateRightLeft_ok kp l i k v rll m k2 v2 rlr j k1 v1 rr :
  let r := Node (Node rll m k2 v2 rlr) j k1 v1 rr in
  let t := Node l i k v r in
  unode (kp_keys kp) l i k v r -> NoDup (indices t) -> tsize t <= 127 ->
  exists x kp', rotateRightLeft kp i = Val (x, kp') /\
    repr (kp_keys kp') x (t_rotrl t) /\ frame 0 (indices t) kp kp'.
Proof.
  intros r t Hu Hnd Hsz. pose proof Hu as (rec & Hrec & Hk & Hl & Hr).
  pose proof (NoDup_node_inv _ _ _ _ _ Hnd) as (Hi & Hndl & Hndr & Hlr).
  unfold rotateRightLeft. access. apply repr_unode in Hr as [-> Hur].
  destruct (rotateRight_ok kp rll m k2 v2 rlr j k1 v1 rr Hur) as (kp1 & -> & Hr1 & Hf1);
    [done|simpl in Hsz |- *; pose proof (th_bounds l); lia|]. cbn [obind].
  rewrite elem_of_app in Hi.
  assert (repr (kp_keys kp1) (kr_left rec) l) as Hl'
    by (eapply repr_frame; [exact Hf1| |done]; set_solver).
  assert (zget (kp_keys kp1) i = Some rec) as Hrec1
    by (rewrite (frame_zget _ _ _ _ _ Hf1); [done|set_solver]).
  destruct (set_RIGHT_OF_ok _ _ _ m Hrec1) as (kp2 & -> & Hrec2 & Hf2). cbn [obind].
  assert (unode (kp_keys kp2) l i k v (t_rotr r)) as Hu2.
  { eexists. split_and!; [exact Hrec2|exact Hk|..];
      (eapply repr_frame; [exact Hf2| |first [exact Hr1|exact Hl']]);
      rewrite ?indices_rotr; set_solver. }
  simpl t_rotr in Hu2.
  destruct (rotateLeft_ok kp2 _ _ _ _ _ _ _ _ _ Hu2) as (kp3 & -> & Hr3 & Hf3).
  { change (NoDup (indices l ++ i :: indices (t_rotr r))). by rewrite indices_rotr. }
  { change (1 + tsize l + tsize (t_rotr r) <= 127). by rewrite tsize_rotr. }
  do 2 eexists. split; [reflexivity|]. split; [exact Hr3|].
  eapply (frame_step (i :: indices r)); unfold t, r; [|exact Hf3|slots|slots].
  eapply frame_step; [exact Hf1|exact Hf2|slots|slots].
Qed.

(** ** Rebalancing *)
Lemma balanceTree_ok kp x t :
  repr (kp_keys kp) x t -> NoDup (indices t) -> tsize t <= 127 ->
  exists x' kp', balanceTree kp x = Val (x', kp') /\
    repr (kp_keys kp') x' (t_balance t) /\ frame 0 (indices t) kp kp'.
Proof.
  intros H Hnd Hsz. unfold balanceTree. rewrite (balanceFactor_ok _ _ _ H). cbn [obind].
  assert (exists x' kp', Val (x, kp) = Val (x', kp') /\ repr (kp_keys kp') x' t /\
            frame 0 (indices t) kp kp') as Hid by (exists x, kp; auto using frame_refl).
  unfold t_balance.
  destruct t as [|l i k v r]; [exact Hid|].
  apply repr_unode in H as H'. destruct H' as [-> Hu].
  pose proof Hu as (rec & Hrec & Hk & Hl & Hr).
  destruct (Z.eqb_spec (bf (Node l i k v r)) (-2)); [|destruct (Z.eqb_spec (bf (Node l i k v r)) 2); [|exact Hid]].
  - access. rewrite (balanceFactor_ok _ _ _ Hr). cbn [obind t_right].
    destruct (Z.eqb_spec (bf r) (-1)); [|destruct (Z.eqb_spec (bf r) 1); [|exact Hid]].
    + destruct r as [|rl j k' v' rr]; [done|].
      destruct (rotateLeft_ok kp l i k v rl j k' v' rr) as (kp' & -> & ? & ?); [done..|]. by do 2 eexists.
    + destruct r as [|[|rll m k2 v2 rlr] j k' v' rr]; [done|simpl in *; pose proof (th_bounds rr); lia|].
      by apply rotateRightLeft_ok.
  - access. rewrite (balanceFactor_ok _ _ _ Hl). cbn [obind t_left].
    destruct (Z.eqb_spec (bf l) (-1)); [|destruct (Z.eqb_spec (bf l) 1); [|exact Hid]].
    + destruct l as [|ll j k' v' [|lrl m k2 v2 lrr]]; [done|simpl in *; pose proof (th_bounds ll); lia|].
      by apply rotateLeftRight_ok.
    + destruct l as [|ll j k' v' lr]; [done|].
      destruct (rotateRight_ok kp ll j k' v' lr i k v r) as (kp' & -> & ? & ?); [done..|]. by do 2 eexists.
Qed.

(** Height and balance together: what every operation does to a node after its
    subtrees changed. *)
Lemma height_balance_ok kp l i k v r :
  unode (kp_keys kp) l i k v r -> NoDup (indices (Node l i k v r)) -> tsize (Node l i k v r) <= 127 ->
  exists h kp1 x kp', height kp i = Val (h, kp1) /\ balanceTree kp1 i = Val (x, kp') /\
    repr (kp_keys kp') x (t_balance (Node l i k v r)) /\ frame 0 (indices (Node l i k v r)) kp kp'.
Proof.
  intros Hu Hnd Hsz. pose proof (NoDup_node_inv _ _ _ _ _ Hnd) as (Hi & _).
  destruct (height_ok _ _ _ _ _ _ Hu Hi Hsz) as (kp1 & -> & Hr1 & Hf1).
  destruct (balanceTree_ok _ _ _ Hr1 Hnd Hsz) as (x & kp2 & ? & ? & Hf2).
  do 4 eexists. split_and!; try done.
  eapply frame_step; [exact Hf1|exact Hf2|slots|slots].
Qed.
