(* ===== verification/KeyRecOps.v ===== *)
(** * Search, insertion and deletion in a key page

    The recursive operations of librdb/src/keyrec.cpp refine those of
    AvlTree.v. *)
From S2P Require Import Prelude DbStruct KeyRec AvlTree KeyRecRepr.
Import KeyRecords.

(** ** Keys *)

(** [ki] holds the key [k]. *)
Definition ki_is (ki : key_info) (k : bytes) : Prop :=
  ki_klen ki = zlen k /\ zlen k <= MAX_KEY_LENGTH /\ zlen (ki_key ki) = MAX_KEY_LENGTH /\
  take (length k) (ki_key ki) = k.

Lemma memcmp_take a b n : (n <= length a)%nat -> (n <= length b)%nat ->
  memcmp a b n = Val (lexcmp (take n a) (take n b)).
Proof.
  revert a b. induction n as [|n IH]; intros [|x a] [|y b]; simpl; try done; try lia.
  intros Ha Hb. destruct (_ =? _); [|done]. apply IH; lia.
Qed.

Lemma keycmp_ok ki k rec k' v' : ki_is ki k -> rec_is rec k' v' ->
  keycmp ki rec = Val (kcmp k k').
Proof.
  intros (Hkl & Hmax & Hlen & Hk) (_ & Hkl' & Hlen' & Hk' & _).
  unfold keycmp, kcmp, MAX_KEY_LENGTH, zlen in *. rewrite Hkl, Hkl'.
  destruct (Z.eqb_spec (Z.of_nat (length k) - Z.of_nat (length k')) 0); [|done].
  rewrite Nat2Z.id. rewrite memcmp_take by lia. rewrite Hk.
  replace (length k) with (length k') by lia. by rewrite Hk'.
Qed.

Lemma memcpy_take dst src (k : bytes) :
  take (length k) src = k -> zlen k <= zlen dst -> zlen k <= zlen src ->
  exists d, memcpy dst src (zlen k) = Val d /\ zlen d = zlen dst /\ take (length k) d = k.
Proof.
  intros Hk Hd Hs. unfold memcpy, zlen in *. rewrite decide_True by lia.
  rewrite Nat2Z.id, Hk. eexists. split; [reflexivity|]. split.
  - rewrite length_app, length_drop. lia.
  - by rewrite take_app_length.
Qed.

(** ** Free slots *)
Definition free_slot (kp : key_page) : option Z :=
  let i := getFree kp in if i <? 0 then None else Some i.

Lemma getFree_from_ok ks i : 0 <= i -> i + zlen ks <= 32767 ->
  (getFree_from ks i = -1 /\ Forall (fun r => kr_flags r <> KEY_FREE) ks) \/
  (exists n r, getFree_from ks i = i + Z.of_nat n /\ ks !! n = Some r /\ kr_flags r = KEY_FREE).
Proof.
  revert i. induction ks as [|r ks IH]; intros i Hi Hl; simpl; [left; auto|].
  unfold zlen in *. simpl in Hl.
  destruct (Z.eqb_spec (kr_flags r) KEY_FREE) as [E|E].
  - right. exists O, r. rewrite wrapS_id by (try done; simpl (2 ^ (16 - 1)); lia).
    split; [lia|done].
  - destruct (IH (i + 1)) as [[-> Hf]|(n & r' & -> & Hn & Hr)]; [lia..|left; auto|].
    right. exists (S n), r'. split; [lia|done].
Qed.

Lemma free_slot_Some kp i : zlen (kp_keys kp) <= 32767 -> free_slot kp = Some i ->
  getFree kp = i /\ 0 <= i /\ exists r, zget (kp_keys kp) i = Some r /\ kr_flags r = KEY_FREE.
Proof.
  unfold free_slot, getFree. intros Hl Hs.
  destruct (getFree_from_ok (kp_keys kp) 0) as [[E _]|(n & r & E & Hn & Hr)]; [lia|lia| |].
  - by rewrite E in Hs.
  - rewrite E in *. destruct (Z.ltb_spec (0 + Z.of_nat n) 0); [lia|]. simplify_eq.
    split_and!; [done|lia|]. exists r. split; [|done]. unfold zget.
    rewrite decide_True by lia. by replace (Z.to_nat (0 + Z.of_nat n)) with n by lia.
Qed.

Lemma free_slot_None kp : zlen (kp_keys kp) <= 32767 -> free_slot kp = None ->
  getFree kp = -1 /\ Forall (fun r => kr_flags r <> KEY_FREE) (kp_keys kp).
Proof.
  unfold free_slot, getFree. intros Hl Hs.
  destruct (getFree_from_ok (kp_keys kp) 0) as [[E ?]|(n & r & E & Hn & Hr)]; [lia|lia| |].
  - done.
  - rewrite E in *. by destruct (Z.ltb_spec (0 + Z.of_nat n) 0); [lia|].
Qed.

(** A used slot is not free. *)
Lemma free_slot_not_used kp x t i : zlen (kp_keys kp) <= 32767 ->
  repr (kp_keys kp) x t -> free_slot kp = Some i -> i ∉ indices t.
Proof.
  intros Hl Hr (_ & _ & r & Hi & Hf)%free_slot_Some Hin; [|done].
  destruct (repr_inuse _ _ _ _ Hr Hin) as (r' & Hi' & Hu). rewrite Hi in Hi'.
  simplify_eq. by rewrite Hf in Hu.
Qed.

Lemma getKeyRecord_ok kp ki k i :
  ki_is ki k -> zlen (kp_keys kp) <= 32767 -> 0 <= kp_vcount kp < 32767 ->
  free_slot kp = Some i ->
  exists kp', getKeyRecord kp ki = Val (i, kp') /\
    repr (kp_keys kp') i (Node Leaf i k (ki_voff ki) Leaf) /\ frame 1 [i] kp kp'.
Proof.
  intros (Hkl & Hmax & Hlen & Hk) Hl Hvc Hs.
  destruct (free_slot_Some _ _ Hl Hs) as (Hg & Hi & r & Hr & Hf).
  unfold getKeyRecord. rewrite Hg. destruct (Z.ltb_spec i 0); [lia|].
  unfold MAX_KEY_LENGTH in *. rewrite Hkl.
  destruct (memcpy_take (kr_key InitKeyRecord) (ki_key ki) k Hk) as (key & -> & Hkl' & Hk').
  { change (zlen (kr_key InitKeyRecord)) with 48. lia. } { lia. } cbn [obind].
  rewrite (wrapS_id 16) by (try done; unfold zlen in *; simpl (2 ^ (16 - 1)); lia).
  match goal with |- context [kp_set kp i ?x] =>
    destruct (kp_set_ok kp i r x Hr) as (kp1 & -> & Hr1 & Hf1) end. cbn [obind].
  eexists. split; [reflexivity|]. simpl kp_keys. split.
  - split; [done|]. eexists. split; [exact Hr1|]. by repeat split.
  - destruct Hf1 as (Hm & Hv & Hz & Hfr).
    split; [exact Hm|]. split; [|by split].
    simpl. rewrite wrapS_id; [lia|done|simpl (2 ^ (16 - 1)); lia].
Qed.

Lemma getKeyRecord_None kp ki : zlen (kp_keys kp) <= 32767 ->
  free_slot kp = None -> getKeyRecord kp ki = Val (-1, kp).
Proof. intros Hl Hs. unfold getKeyRecord. by destruct (free_slot_None _ Hl Hs) as [-> _]. Qed.

Lemma freeKeyRecord_ok kp i r : zget (kp_keys kp) i = Some r -> 0 < kp_vcount kp <= 32767 ->
  exists kp', freeKeyRecord kp i = Val kp' /\ zget (kp_keys kp') i = Some InitKeyRecord /\
    frame (-1) [i] kp kp'.
Proof.
  intros Hr Hvc. pose proof (zget_Some _ _ _ Hr) as Hi. unfold freeKeyRecord.
  rewrite bool_decide_true by done. cbn [ASSERT obind].
  destruct (kp_set_ok kp i r InitKeyRecord Hr) as (kp1 & -> & Hr1 & Hf1). cbn [obind].
  eexists. split; [reflexivity|]. split; [exact Hr1|].
  destruct Hf1 as (Hm & Hv & Hz & Hfr). split; [exact Hm|]. split; [|by split].
  simpl. rewrite wrapS_id; [lia|done|simpl (2 ^ (16 - 1)); lia].
Qed.

(** ** After an operation on a subtree

    The node gets the new subtree, its height is brought up to date and it is
    rebalanced. *)
Lemma rebuild_left kp kp1 l i k v r l' x dv js :
  unode (kp_keys kp) l i k v r -> frame dv js kp kp1 -> repr (kp_keys kp1) x l' ->
  i ∉ js -> (forall j, j ∈ indices r -> j ∉ js) ->
  NoDup (indices (Node l' i k v r)) -> tsize (Node l' i k v r) <= 127 ->
  exists kp2 h kp3 x' kp4, set_LEFT_OF kp1 i x = Val kp2 /\ height kp2 i = Val (h, kp3) /\
    balanceTree kp3 i = Val (x', kp4) /\ repr (kp_keys kp4) x' (t_balance (Node l' i k v r)) /\
    frame 0 (indices (Node l' i k v r)) kp1 kp4.
Proof.
  intros (rec & Hrec & Hk & Hl & Hr) Hf Hx Hi Hjs Hnd Hsz.
  pose proof (NoDup_node_inv _ _ _ _ _ Hnd) as (Hi' & _). rewrite elem_of_app in Hi'.
  rewrite <- (frame_zget _ _ _ _ _ Hf Hi) in Hrec.
  destruct (set_LEFT_OF_ok _ _ _ x Hrec) as (kp2 & -> & Hrec2 & Hf2).
  assert (unode (kp_keys kp2) l' i k v r) as Hu.
  { eexists. split_and!; [exact Hrec2|exact Hk|..].
    - eapply repr_frame; [exact Hf2| |exact Hx]. set_solver.
    - eapply repr_frame; [exact Hf2| |eapply repr_frame; [exact Hf|done|done]]. set_solver. }
  destruct (height_balance_ok _ _ _ _ _ _ Hu Hnd Hsz) as (h & kp3 & x' & kp4 & ? & ? & ? & Hf4).
  do 5 eexists. split_and!; try done.
  eapply frame_step; [exact Hf2|exact Hf4|slots|slots].
Qed.

Lemma rebuild_right kp kp1 l i k v r r' x dv js :
  unode (kp_keys kp) l i k v r -> frame dv js kp kp1 -> repr (kp_keys kp1) x r' ->
  i ∉ js -> (forall j, j ∈ indices l -> j ∉ js) ->
  NoDup (indices (Node l i k v r')) -> tsize (Node l i k v r') <= 127 ->
  exists kp2 h kp3 x' kp4, set_RIGHT_OF kp1 i x = Val kp2 /\ height kp2 i = Val (h, kp3) /\
    balanceTree kp3 i = Val (x', kp4) /\ repr (kp_keys kp4) x' (t_balance (Node l i k v r')) /\
    frame 0 (indices (Node l i k v r')) kp1 kp4.
Proof.
  intros (rec & Hrec & Hk & Hl & Hr) Hf Hx Hi Hjs Hnd Hsz.
  pose proof (NoDup_node_inv _ _ _ _ _ Hnd) as (Hi' & _). rewrite elem_of_app in Hi'.
  rewrite <- (frame_zget _ _ _ _ _ Hf Hi) in Hrec.
  destruct (set_RIGHT_OF_ok _ _ _ x Hrec) as (kp2 & -> & Hrec2 & Hf2).
  assert (unode (kp_keys kp2) l i k v r') as Hu.
  { eexists. split_and!; [exact Hrec2|exact Hk|..].
    - eapply repr_frame; [exact Hf2| |eapply repr_frame; [exact Hf|done|done]]. set_solver.
    - eapply repr_frame; [exact Hf2| |exact Hx]. set_solver. }
  destruct (height_balance_ok _ _ _ _ _ _ Hu Hnd Hsz) as (h & kp3 & x' & kp4 & ? & ? & ? & Hf4).
  do 5 eexists. split_and!; try done.
  eapply frame_step; [exact Hf2|exact Hf4|slots|slots].
Qed.

(** Slots are distinct indices of the page, so a tree is no larger than it. *)
Lemma NoDup_range_length (l : list Z) n :
  NoDup l -> Forall (fun j => 0 <= j < n) l -> 0 <= n -> zlen l <= n.
Proof.
  intros Hnd Hl Hn. unfold zlen.
  assert (l ⊆ seqZ 0 n) as Hs.
  { intros j Hj. rewrite Forall_forall in Hl. apply elem_of_seqZ. specialize (Hl j Hj). lia. }
  apply NoDup_submseteq, submseteq_length in Hs; [|done]. rewrite length_seqZ in Hs. lia.
Qed.

Lemma tsize_slots ks x t : repr ks x t -> NoDup (indices t) -> tsize t <= zlen ks.
Proof.
  intros Hr%repr_range Hnd. rewrite tsize_indices.
  apply NoDup_range_length; [done|done|unfold zlen; lia].
Qed.

Lemma unode_size kp l i k v r :
  unode (kp_keys kp) l i k v r -> NoDup (indices (Node l i k v r)) ->
  tsize (Node l i k v r) <= zlen (kp_keys kp).
Proof.
  intros (rec & Hrec & _ & Hl & Hr) Hnd. rewrite tsize_indices.
  apply NoDup_range_length; [done| |unfold zlen; lia]. apply Forall_app; split; [by eapply repr_range|].
  constructor; [by eapply zget_Some|by eapply repr_range].
Qed.

(** ** Insertion *)
Definition put_dv (k : bytes) (slot : option Z) (t : tree) : Z :=
  match t_find k t, slot with None, Some _ => 1 | _, _ => 0 end.

Lemma put_slots_ok kp k v root t :
  zlen (kp_keys kp) <= 127 -> repr (kp_keys kp) root t -> NoDup (indices t) ->
  let t' := t_put k v (free_slot kp) t in
  NoDup (indices t') /\ tsize t' <= 127.
Proof.
  intros Hlen Hr Hnd t'.
  assert (NoDup (indices t') /\ Forall (fun j => 0 <= j < zlen (kp_keys kp)) (indices t')) as [Hnd' Hrg].
  { unfold t'. rewrite indices_put. pose proof (repr_range _ _ _ Hr) as Hrange.
    destruct (t_find k t); [done|]. destruct (free_slot kp) as [s|] eqn:Hs; [|done].
    assert (s ∉ indices t) by (apply (free_slot_not_used kp root); [lia|done|done]).
    destruct (free_slot_Some kp s) as (_ & _ & rec & Hrec & _); [lia|done|].
    split; [by constructor|]. constructor; [by eapply zget_Some|done]. }
  split; [done|]. rewrite tsize_indices.
  pose proof (NoDup_range_length _ _ Hnd' Hrg). unfold zlen in *. lia.
Qed.

Section put.
Context (ki : key_info) (k : bytes) (Hki : ki_is ki k).

Lemma put_rec_ok fuel t kp root idx :
  zlen (kp_keys kp) <= 127 -> 0 <= kp_vcount kp <= 127 ->
  repr (kp_keys kp) root t -> NoDup (indices t) -> (Z.to_nat (th t) < fuel)%nat ->
  let slot := free_slot kp in
  exists root' kp', put_rec fuel kp root ki idx = Val (root', default (-1) (t_put_slot k slot t), kp') /\
    repr (kp_keys kp') root' (t_put k (ki_voff ki) slot t) /\
    frame (put_dv k slot t) (indices (t_put k (ki_voff ki) slot t)) kp kp'.
Proof.
  intros Hlen Hvc. revert fuel root idx. unfold put_dv.
  induction t as [|l IHl i k' v' r IHr]; intros [|fuel] root idx Hr Hnd Hfuel; try lia.
  - (* a new record *)
    simpl in Hr. subst root. cbn [put_rec]. simpl (-1 =? -1). cbn match.
    destruct (free_slot kp) as [s|] eqn:Hs.
    + destruct (getKeyRecord_ok kp ki k s Hki) as (kp' & -> & Hr' & Hf'); [lia|lia|done|].
      cbn [obind].
      destruct (balanceTree_ok kp' s (Node Leaf s k (ki_voff ki) Leaf) Hr')
        as (x & kp2 & -> & Hr2 & Hf2); [apply NoDup_singleton|simpl; lia|].
      do 2 eexists. split; [reflexivity|]. split; [exact Hr2|].
      cbn [t_put]. eapply frame_step; [exact Hf'|exact Hf2|slots|slots].
    + rewrite getKeyRecord_None by (done || lia). cbn [obind].
      do 2 eexists. split; [reflexivity|]. split; [done|apply frame_refl].
  - apply repr_unode in Hr as Hu. destruct Hu as [-> Hu].
    pose proof Hu as (rec & Hrec & Hk & Hl & Hr').
    pose proof (zget_Some _ _ _ Hrec) as Hi.
    pose proof (NoDup_node_inv _ _ _ _ _ Hnd) as (Hi' & Hndl & Hndr & Hlr).
    rewrite elem_of_app in Hi'. simpl in Hfuel. pose proof (th_bounds l). pose proof (th_bounds r).
    cbn [put_rec t_put t_put_slot t_find]. destruct (Z.eqb_spec i (-1)); [lia|].
    rewrite (kp_at_Some _ _ _ Hrec). cbn [obind].
    rewrite (keycmp_ok _ _ _ _ _ Hki Hk). cbn [obind].
    destruct (put_slots_ok kp k (ki_voff ki) i _ Hlen Hr Hnd) as [Hnd' Hsz'].
    cbn [t_put] in Hnd', Hsz'. rewrite indices_balance in *. rewrite tsize_balance in Hsz'.
    destruct (kcmp k k' <? 0).
    + rewrite (LEFT_OF_Some _ _ _ Hrec). cbn [obind].
      destruct (IHl fuel (kr_left rec) idx) as (x & kp1 & -> & Hx & Hf1); [done|done|lia|]. cbn [obind].
      apply NoDup_node_inv in Hnd' as Hn. destruct Hn as (Hin & _ & _ & Hdis).
      rewrite elem_of_app in Hin.
      destruct (rebuild_left _ _ _ _ _ _ _ _ _ _ _ Hu Hf1 Hx)
        as (kp2 & h & kp3 & x' & kp4 & -> & E2 & E3 & Hr4 & Hf4); [intros ?; apply Hin; auto|intros j ? ?; by eapply Hdis|done|done|].
      cbn [obind]. rewrite E2. cbn [obind]. rewrite E3. cbn [obind].
      do 2 eexists. split; [reflexivity|]. split; [exact Hr4|].
      eapply frame_step; [exact Hf1|exact Hf4|slots|slots].
    + destruct (kcmp k k' =? 0).
      * destruct (kp_set_ok kp i rec (kr_with_voff rec (ki_voff ki)) Hrec) as (kp1 & -> & Hrec1 & Hf1).
        cbn [obind].
        assert (unode (kp_keys kp1) l i k' (ki_voff ki) r) as Hu1.
        { eexists. split_and!; [exact Hrec1| |..];
            [|eapply repr_frame; [exact Hf1| |exact Hl]; set_solver
             |eapply repr_frame; [exact Hf1| |exact Hr']; set_solver].
          destruct Hk as (? & ? & ? & ? & ?). by repeat split. }
        destruct (height_balance_ok _ _ _ _ _ _ Hu1 Hnd' Hsz') as (h & kp2 & x' & kp3 & -> & E2 & Hr3 & Hf3).
        cbn [obind]. rewrite E2. cbn [obind].
        do 2 eexists. split; [reflexivity|]. split; [exact Hr3|].
        eapply frame_step; [exact Hf1|exact Hf3|slots|slots].
      * rewrite (RIGHT_OF_Some _ _ _ Hrec). cbn [obind].
        destruct (IHr fuel (kr_right rec) idx) as (x & kp1 & -> & Hx & Hf1); [done|done|lia|]. cbn [obind].
        apply NoDup_node_inv in Hnd' as Hn. destruct Hn as (Hin & _ & _ & Hdis).
        rewrite elem_of_app in Hin.
        destruct (rebuild_right _ _ _ _ _ _ _ _ _ _ _ Hu Hf1 Hx)
          as (kp2 & h & kp3 & x' & kp4 & -> & E2 & E3 & Hr4 & Hf4); [intros ?; apply Hin; auto|intros j ? ?; by eapply Hdis|done|done|].
        cbn [obind]. rewrite E2. cbn [obind]. rewrite E3. cbn [obind].
        do 2 eexists. split; [reflexivity|]. split; [exact Hr4|].
        eapply frame_step; [exact Hf1|exact Hf4|slots|slots].
Qed.
End put.

(** ** Deletion *)
Lemma height_balance_repr kp x t :
  repr (kp_keys kp) x t -> NoDup (indices t) -> tsize t <= 127 ->
  exists h kp1 x' kp', height kp x = Val (h, kp1) /\ balanceTree kp1 x = Val (x', kp') /\
    repr (kp_keys kp') x' (t_balance t) /\ frame 0 (indices t) kp kp'.
Proof.
  intros Hr Hnd Hsz. destruct t as [|l i k v r].
  - simpl in Hr. subst. do 4 eexists. split_and!; try reflexivity; apply frame_refl.
  - apply repr_unode in Hr as [-> Hu]. by apply height_balance_ok.
Qed.

Lemma maxKey_ok fuel t kp x :
  repr (kp_keys kp) x t -> t <> Leaf -> (Z.to_nat (th t) < fuel)%nat ->
  exists i k v rec, t_max t = Some (i, k, v) /\ maxKey fuel kp x = Val i /\
    zget (kp_keys kp) i = Some rec /\ rec_is rec k v.
Proof.
  revert fuel x. induction t as [|l _ i k v r IHr]; intros [|fuel] x Hr Ht Hfuel; try done; [lia|].
  destruct Hr as (-> & rec & Hrec & Hk & _ & _ & Hr). pose proof (zget_Some _ _ _ Hrec).
  cbn [maxKey]. destruct (Z.eqb_spec i (-1)); [lia|]. cbn [negb].
  rewrite (RIGHT_OF_Some _ _ _ Hrec). cbn [obind].
  destruct (repr_root _ _ _ Hr) as [[-> ->]|[Hne Hx]].
  - simpl. by exists i, k, v, rec.
  - destruct (Z.eqb_spec (kr_right rec) (-1)); [lia|]. cbn [negb].
    simpl in Hfuel. pose proof (th_bounds r). pose proof (th_bounds l).
    destruct (IHr fuel (kr_right rec)) as (i' & k' & v' & rec' & Hm & ? & ? & ?); [done|done|lia|].
    exists i', k', v', rec'. split_and!; try done. by destruct r.
Qed.

(** The slot a deletion frees has been reset, and it stays so while the nodes
    above it are rebuilt. *)
Definition freed (kp : key_page) (i : Z) : Prop := zget (kp_keys kp) i = Some InitKeyRecord.

Lemma freed_frame d js kp kp' i : frame d js kp kp' -> i ∉ js -> freed kp i -> freed kp' i.
Proof. unfold freed. intros Hf Hi. by rewrite (frame_zget _ _ _ _ _ Hf Hi). Qed.

(** The record of a node with at most one child is freed and replaced by the
    child. *)
Lemma free_node_ok kp i rec x t :
  zget (kp_keys kp) i = Some rec -> repr (kp_keys kp) x t -> i ∉ indices t ->
  NoDup (indices t) -> tsize t <= 127 -> 0 < kp_vcount kp <= 32767 ->
  exists kp1 h kp2 x' kp', freeKeyRecord kp i = Val kp1 /\ height kp1 x = Val (h, kp2) /\
    balanceTree kp2 x = Val (x', kp') /\ repr (kp_keys kp') x' (t_balance t) /\
    freed kp' i /\ frame (-1) (i :: indices t) kp kp'.
Proof.
  intros Hrec Hx Hi Hnd Hsz Hvc.
  destruct (freeKeyRecord_ok _ _ _ Hrec Hvc) as (kp1 & -> & Hi1 & Hf1).
  assert (repr (kp_keys kp1) x t) as Hx1 by (eapply repr_frame; [exact Hf1|set_solver|done]).
  destruct (height_balance_repr _ _ _ Hx1 Hnd Hsz) as (h & kp2 & x' & kp3 & E1 & E2 & Hr & Hf2).
  do 5 eexists. split_and!; [done|exact E1|exact E2|done|by eapply freed_frame|].
  eapply frame_step; [exact Hf1|exact Hf2|slots|slots].
Qed.

Lemma removeMax_ok fuel t kp root idx :
  zlen (kp_keys kp) <= 127 -> 0 < kp_vcount kp <= 127 -> t <> Leaf ->
  repr (kp_keys kp) root t -> NoDup (indices t) -> (Z.to_nat (th t) < fuel)%nat ->
  exists root' i k v kp', t_max t = Some (i, k, v) /\
    removeMax fuel kp root idx = Val (root', i, kp') /\
    repr (kp_keys kp') root' (t_removeMax t) /\ freed kp' i /\ frame (-1) (indices t) kp kp'.
Proof.
  intros Hlen Hvc. revert fuel root idx.
  induction t as [|l _ i k v r IHr]; intros [|fuel] root idx Ht Hr Hnd Hfuel; try done; [lia|].
  pose proof (tsize_slots _ _ _ Hr Hnd) as Hsz.
  apply repr_unode in Hr as Hu. destruct Hu as [-> Hu].
  pose proof Hu as (rec & Hrec & Hk & Hl & Hr'). pose proof (zget_Some _ _ _ Hrec).
  pose proof (NoDup_node_inv _ _ _ _ _ Hnd) as (Hi & Hndl & Hndr & Hlr). rewrite elem_of_app in Hi.
  cbn [removeMax]. destruct (Z.eqb_spec i (-1)); [lia|]. cbn [negb].
  rewrite (RIGHT_OF_Some _ _ _ Hrec). cbn [obind]. simpl in Hsz, Hfuel.
  pose proof (th_bounds l). pose proof (th_bounds r).
  destruct (repr_root _ _ _ Hr') as [[Er Ex]|[Hne Hx]].
  - rewrite Ex, Z.eqb_refl. rewrite (LEFT_OF_Some _ _ _ Hrec). cbn [obind].
    destruct (free_node_ok _ _ _ _ _ Hrec Hl) as (kp1 & h & kp2 & x' & kp3 & -> & E1 & E2 & Hr3 & Hfr & Hf3);
      [intros ?; apply Hi; auto|done|lia|lia|].
    cbn [obind]. rewrite E1. cbn [obind]. rewrite E2. cbn [obind]. subst r.
    do 5 eexists. split_and!; [reflexivity|reflexivity|done|done|].
    eapply frame_weaken; [exact Hf3|slots].
  - destruct (Z.eqb_spec (kr_right rec) (-1)); [lia|].
    destruct (IHr fuel (kr_right rec) idx) as (x & im & km & vm & kp1 & Hm & -> & Hx1 & Hfr & Hf1);
      [done|done|done|lia|]. cbn [obind].
    pose proof (t_max_indices _ _ _ _ Hm) as Him.
    assert (indices (Node l i k v r) = indices (Node l i k v (t_removeMax r)) ++ [im]) as Him'.
    { cbn [indices]. rewrite Him, <- app_assoc. done. }
    rewrite Him' in Hnd. apply NoDup_app in Hnd as (Hnd' & Hout & _).
    assert (tsize (t_removeMax r) <= tsize r) as Hszr.
    { rewrite !tsize_indices, Him. unfold zlen. rewrite length_app. lia. }
    destruct (rebuild_right _ _ _ _ _ _ _ _ _ _ _ Hu Hf1 Hx1)
      as (kp2 & h & kp3 & x' & kp4 & -> & E2 & E3 & Hr4 & Hf4);
      [intros ?; apply Hi; auto|intros j ? ?; by eapply Hlr|done|simpl; lia|].
    cbn [obind]. rewrite E2. cbn [obind]. rewrite E3. cbn [obind].
    exists x', im, km, vm, kp4. split_and!; [by destruct r|done|by destruct r| |].
    + eapply freed_frame; [exact Hf4| |done]. intros Him2. apply (Hout _ Him2), list_elem_of_here.
    + eapply frame_step; [exact Hf1|exact Hf4|slots|rewrite Him'; slots].
Qed.

(** The minimum is never removed by the code, but [removeMin] mirrors
    [removeMax]. *)
Lemma minKey_ok fuel t kp x :
  repr (kp_keys kp) x t -> t <> Leaf -> (Z.to_nat (th t) < fuel)%nat ->
  exists i rest, indices t = i :: rest /\ minKey fuel kp x = Val i.
Proof.
  revert fuel x. induction t as [|l IHl i k v r _]; intros [|fuel] x Hr Ht Hfuel; try done; [lia|].
  destruct Hr as (-> & rec & Hrec & Hk & _ & Hl & _). pose proof (zget_Some _ _ _ Hrec).
  cbn [minKey]. destruct (Z.eqb_spec i (-1)); [lia|]. cbn [negb].
  rewrite (LEFT_OF_Some _ _ _ Hrec). cbn [obind].
  destruct (repr_root _ _ _ Hl) as [[-> ->]|[Hne Hx]].
  - simpl. eauto.
  - destruct (Z.eqb_spec (kr_left rec) (-1)); [lia|]. cbn [negb].
    simpl in Hfuel. pose proof (th_bounds r). pose proof (th_bounds l).
    destruct (IHl fuel (kr_left rec)) as (j & rest & Hj & ->); [done|done|lia|].
    simpl. rewrite Hj. simpl. eauto.
Qed.

Definition remove_dv (k : bytes) (t : tree) : Z :=
  match t_find k t with Some _ => -1 | None => 0 end.

(** What a deletion leaves in a page. *)
Definition removed (k : bytes) (t : tree) (kp kp' : key_page) (root' : Z) : Prop :=
  repr (kp_keys kp') root' (t_remove k t) /\
  (forall s, t_remove_slot k t = Some s -> freed kp' s) /\
  frame (remove_dv k t) (indices t) kp kp'.

Lemma remove_slots_ok k t : NoDup (indices t) ->
  NoDup (indices (t_remove k t)) /\ tsize (t_remove k t) <= tsize t /\
  forall s, t_remove_slot k t = Some s -> s ∉ indices (t_remove k t).
Proof.
  intros Hnd. rewrite <- (indices_remove k) in Hnd. rewrite !tsize_indices.
  split; [by apply NoDup_app in Hnd as (_ & _ & ?)|]. split.
  - unfold zlen. rewrite <- (Permutation_length (indices_remove k t)), length_app. lia.
  - intros s Hs. rewrite Hs in Hnd. simpl in Hnd. by apply NoDup_cons in Hnd as [? _].
Qed.

Lemma remove_sub k t j : j ∈ indices (t_remove k t) -> j ∈ indices t.
Proof. intros Hj. rewrite <- (indices_remove k t), elem_of_app. auto. Qed.

Lemma unode_kv kp l i k v r rec d km vm :
  unode (kp_keys kp) l i k v r -> zget (kp_keys kp) i = Some rec ->
  i ∉ indices l -> i ∉ indices r ->
  zlen d = MAX_KEY_LENGTH -> take (length km) d = km ->
  exists kp', kp_set kp i (kr_with_kv rec (zlen km) d vm) = Val kp' /\
    unode (kp_keys kp') l i km vm r /\ frame 0 [i] kp kp'.
Proof.
  intros (rec' & Hrec' & Hk & Hl & Hr) Hrec Hil Hir Hd Hkm. rewrite Hrec in Hrec'. simplify_eq.
  destruct (kp_set_ok kp i rec' (kr_with_kv rec' (zlen km) d vm) Hrec) as (kp1 & -> & Hrec1 & Hf1).
  exists kp1. split; [done|]. split; [|done].
  eexists. split_and!; [exact Hrec1| | |].
  - destruct Hk as (? & _). by repeat split.
  - eapply repr_frame; [exact Hf1|set_solver|done].
  - eapply repr_frame; [exact Hf1|set_solver|done].
Qed.

(** A node with two children takes the greatest key of its left subtree. *)
Lemma remove_two_ok fuel kp l i k' v' r rec idx :
  zlen (kp_keys kp) <= 127 -> 0 < kp_vcount kp <= 127 -> l <> Leaf ->
  NoDup (indices (Node l i k' v' r)) -> (Z.to_nat (th l) < fuel)%nat ->
  unode (kp_keys kp) l i k' v' r -> zget (kp_keys kp) i = Some rec ->
  exists im km vm m rm d kp1 x kp2 kp3 h kp4 x' kp5,
    t_max l = Some (im, km, vm) /\ maxKey fuel kp (kr_left rec) = Val m /\ kp_at kp m = Val rm /\
    memcpy (kr_key rec) (kr_key rm) (kr_klen rm) = Val d /\
    kp_set kp i (kr_with_kv rec (kr_klen rm) d (kr_voff rm)) = Val kp1 /\
    removeMax fuel kp1 (kr_left rec) idx = Val (x, im, kp2) /\
    set_LEFT_OF kp2 i x = Val kp3 /\ height kp3 i = Val (h, kp4) /\
    balanceTree kp4 i = Val (x', kp5) /\
    repr (kp_keys kp5) x' (t_balance (Node (t_removeMax l) i km vm r)) /\ freed kp5 im /\
    frame (-1) (indices (Node l i k' v' r)) kp kp5.
Proof.
  intros Hlen Hvc Hl Hnd Hfuel Hu Hrec.
  pose proof Hu as (rec' & Hrec' & Hk & Hrl & Hrr). rewrite Hrec in Hrec'. simplify_eq.
  pose proof (NoDup_node_inv _ _ _ _ _ Hnd) as (Hi & Hndl & Hndr & Hlr). rewrite elem_of_app in Hi.
  destruct (maxKey_ok fuel l kp _ Hrl Hl Hfuel) as (im & km & vm & rm & Hm & Hmax & Hrm & Hkm).
  destruct Hk as (_ & _ & Hkl & _). destruct Hkm as (_ & Ekl & Hkl' & Htk & Ev).
  assert (zlen km <= MAX_KEY_LENGTH) as Hkml.
  { unfold zlen in *. rewrite <- Htk, length_take. lia. }
  destruct (memcpy_take (kr_key rec') (kr_key rm) km Htk) as (d & Ed & Hdl & Hdt); [lia..|].
  rewrite Hkl in Hdl.
  destruct (unode_kv kp l i k' v' r rec' d km vm Hu Hrec) as (kp1 & E1 & Hu1 & Hf1);
    [intros ?; apply Hi; auto..|done|done|].
  assert (repr (kp_keys kp1) (kr_left rec') l) as Hrl1
    by (eapply repr_frame; [exact Hf1|set_solver|done]).
  destruct (removeMax_ok fuel l kp1 (kr_left rec') idx) as (x & im' & km' & vm' & kp2 & Hm' & E2 & Hx & Hfr & Hf2);
    [destruct Hf1 as (_ & _ & -> & _); done|destruct Hf1 as (_ & -> & _); lia|done..|].
  rewrite Hm in Hm'. simplify_eq.
  assert (indices l = indices (t_removeMax l) ++ [im']) as Him by (eapply t_max_indices, Hm).
  assert (NoDup (indices (Node (t_removeMax l) i km' (kr_voff rm) r)) /\
          im' ∉ indices (Node (t_removeMax l) i km' (kr_voff rm) r)) as [Hnd' Hout].
  { cbn [indices] in *. rewrite Him, <- app_assoc in Hnd. simpl in Hnd.
    rewrite <- Permutation_middle in Hnd. by apply NoDup_cons in Hnd as [? ?]. }
  assert (tsize (Node l i k' v' r) <= 127) as Hsz.
  { pose proof (unode_size kp l i k' v' r Hu Hnd). lia. }
  destruct (rebuild_left _ _ _ _ _ _ _ _ _ _ _ Hu1 Hf2 Hx)
    as (kp3 & h & kp4 & x' & kp5 & E3 & E4 & E5 & Hr5 & Hf5);
    [intros ?; apply Hi; auto|intros j ? ?; by eapply Hlr|done| |].
  { simpl in Hsz |- *. pose proof (tsize_indices l) as El. rewrite Him in El.
    rewrite (tsize_indices (t_removeMax l)). unfold zlen in *. rewrite length_app in El. lia. }
  do 14 eexists. split_and!; [exact Hm|exact Hmax|by apply kp_at_Some|by rewrite Ekl|
    by rewrite Ekl|exact E2|exact E3|exact E4|exact E5|exact Hr5|by eapply freed_frame|].
  eapply (frame_step (i :: indices l)); [|exact Hf5|slots|cbn [indices]; rewrite Him; slots].
  eapply (frame_trans 0 (-1)); [exact Hf1|exact Hf2|slots|slots].
Qed.

Section remove.
Context (ki : key_info) (k : bytes) (Hki : ki_is ki k).

(** The last steps of a deletion in a subtree. *)
Lemma removed_left kp kp1 l i k' v' r x :
  kcmp k k' < 0 ->
  unode (kp_keys kp) l i k' v' r -> NoDup (indices (Node l i k' v' r)) ->
  tsize (Node l i k' v' r) <= 127 -> removed k l kp kp1 x ->
  exists kp2 h kp3 x' kp4, set_LEFT_OF kp1 i x = Val kp2 /\ height kp2 i = Val (h, kp3) /\
    balanceTree kp3 i = Val (x', kp4) /\ removed k (Node l i k' v' r) kp kp4 x'.
Proof.
  intros Hlt Hu Hnd Hsz (Hx & Hfr & Hf1).
  pose proof (NoDup_node_inv _ _ _ _ _ Hnd) as (Hi & Hndl & Hndr & Hlr). rewrite elem_of_app in Hi.
  pose proof (remove_slots_ok k _ Hnd) as (Hnd' & Hsz' & Hout).
  pose proof (remove_slots_ok k _ Hndl) as (_ & Hszl & _).
  unfold removed, remove_dv in *. cbn [t_remove t_remove_slot t_find] in *.
  destruct (Z.ltb_spec (kcmp k k') 0); [|lia]. rewrite indices_balance in *.
  destruct (rebuild_left _ _ _ _ _ _ _ _ _ _ _ Hu Hf1 Hx)
    as (kp2 & h & kp3 & x' & kp4 & E2 & E3 & E4 & Hr4 & Hf4);
    [intros ?; apply Hi; auto|intros j ? ?; by eapply Hlr|done|simpl in *; lia|].
  do 5 eexists. split_and!; try done.
  - intros s Hs. eapply freed_frame; [exact Hf4|by apply Hout|by apply Hfr].
  - eapply frame_step; [exact Hf1|exact Hf4|slots|].
    intros z. cbn [indices]. rewrite !elem_of_app, !elem_of_cons. pose proof (remove_sub k l z). tauto.
Qed.

Lemma removed_right kp kp1 l i k' v' r x :
  0 < kcmp k k' ->
  unode (kp_keys kp) l i k' v' r -> NoDup (indices (Node l i k' v' r)) ->
  tsize (Node l i k' v' r) <= 127 -> removed k r kp kp1 x ->
  exists kp2 h kp3 x' kp4, set_RIGHT_OF kp1 i x = Val kp2 /\ height kp2 i = Val (h, kp3) /\
    balanceTree kp3 i = Val (x', kp4) /\ removed k (Node l i k' v' r) kp kp4 x'.
Proof.
  intros Hgt Hu Hnd Hsz (Hx & Hfr & Hf1).
  pose proof (NoDup_node_inv _ _ _ _ _ Hnd) as (Hi & Hndl & Hndr & Hlr). rewrite elem_of_app in Hi.
  pose proof (remove_slots_ok k _ Hnd) as (Hnd' & Hsz' & Hout).
  pose proof (remove_slots_ok k _ Hndr) as (_ & Hszr & _).
  unfold removed, remove_dv in *. cbn [t_remove t_remove_slot t_find] in *.
  destruct (Z.ltb_spec (kcmp k k') 0); [lia|]. destruct (Z.eqb_spec (kcmp k k') 0); [lia|].
  rewrite indices_balance in *.
  destruct (rebuild_right _ _ _ _ _ _ _ _ _ _ _ Hu Hf1 Hx)
    as (kp2 & h & kp3 & x' & kp4 & E2 & E3 & E4 & Hr4 & Hf4);
    [intros ?; apply Hi; auto|intros j ? ?; by eapply Hlr|done|simpl in *; lia|].
  do 5 eexists. split_and!; try done.
  - intros s Hs. eapply freed_frame; [exact Hf4|by apply Hout|by apply Hfr].
  - eapply frame_step; [exact Hf1|exact Hf4|slots|].
    intros z. cbn [indices]. rewrite !elem_of_app, !elem_of_cons. pose proof (remove_sub k r z). tauto.
Qed.

(** Deleting the root of a subtree with at most one child. *)
Lemma removed_root kp i rec x k' v' l r t :
  kcmp k k' = 0 -> (l = Leaf /\ t = r \/ r = Leaf /\ l <> Leaf /\ t = l) ->
  zget (kp_keys kp) i = Some rec -> repr (kp_keys kp) x t ->
  NoDup (indices (Node l i k' v' r)) -> tsize (Node l i k' v' r) <= 127 ->
  0 < kp_vcount kp <= 127 ->
  exists kp1 h kp2 x' kp3, freeKeyRecord kp i = Val kp1 /\ height kp1 x = Val (h, kp2) /\
    balanceTree kp2 x = Val (x', kp3) /\ removed k (Node l i k' v' r) kp kp3 x' /\
    t_remove_slot k (Node l i k' v' r) = Some i.
Proof.
  intros Hk Ht Hrec Hx Hnd Hsz Hvc.
  pose proof (NoDup_node_inv _ _ _ _ _ Hnd) as (Hi & Hndl & Hndr & _). rewrite elem_of_app in Hi.
  pose proof (th_bounds l). pose proof (th_bounds r).
  destruct (free_node_ok kp i rec x t Hrec Hx) as (kp1 & h & kp2 & x' & kp3 & E1 & E2 & E3 & Hr & Hfr & Hf).
  { intros ?. apply Hi. destruct Ht as [(_ & ->)|(_ & _ & ->)]; auto. }
  { by destruct Ht as [(_ & ->)|(_ & _ & ->)]. }
  { simpl in Hsz. destruct Ht as [(_ & ->)|(_ & _ & ->)]; lia. } { lia. }
  exists kp1, h, kp2, x', kp3. do 3 (split; [done|]).
  unfold removed, remove_dv. cbn [t_remove t_remove_slot t_find].
  rewrite Hk. cbn [Z.ltb Z.compare Z.eqb].
  destruct Ht as [(-> & ->)|(-> & Hl & ->)].
  - split_and!; [done|by intros s [= <-]|by eapply frame_weaken; [exact Hf|slots]|done].
  - destruct l; [done|].
    split_and!; [done|by intros s [= <-]|by eapply frame_weaken; [exact Hf|slots]|done].
Qed.

Lemma remove_rec_ok fuel t kp root idx :
  zlen (kp_keys kp) <= 127 -> tsize t <= kp_vcount kp <= 127 ->
  repr (kp_keys kp) root t -> NoDup (indices t) -> (Z.to_nat (th t) < fuel)%nat ->
  exists root' kp', remove_rec fuel kp root ki idx = Val (root', default idx (t_remove_slot k t), kp') /\
    removed k t kp kp' root'.
Proof.
  intros Hlen. revert fuel root idx.
  induction t as [|l IHl i k' v' r IHr]; intros [|fuel] root idx Hvc Hr Hnd Hfuel; try lia.
  - simpl in Hr. subst root. cbn [remove_rec]. simpl. do 2 eexists. split; [reflexivity|].
    split; [done|]. split; [done|]. apply frame_refl.
  - apply repr_unode in Hr as Hu. destruct Hu as [-> Hu].
    pose proof Hu as (rec & Hrec & Hk & Hl & Hr'). pose proof (zget_Some _ _ _ Hrec) as Hi.
    pose proof (NoDup_node_inv _ _ _ _ _ Hnd) as (_ & Hndl & Hndr & _).
    pose proof (th_bounds l). pose proof (th_bounds r).
    assert (tsize (Node l i k' v' r) <= 127) as Hsz by lia. simpl in Hfuel. cbn [tsize] in Hvc.
    cbn [remove_rec]. destruct (Z.eqb_spec i (-1)); [lia|]. cbn [negb].
    rewrite (kp_at_Some _ _ _ Hrec). cbn [obind].
    rewrite (keycmp_ok _ _ _ _ _ Hki Hk). cbn [obind].
    destruct (Z.ltb_spec (kcmp k k') 0) as [Hlt|Hge]; [|destruct (Z.eqb_spec (kcmp k k') 0) as [E0|Hne]].
    + rewrite (LEFT_OF_Some _ _ _ Hrec). cbn [obind].
      destruct (IHl fuel (kr_left rec) idx) as (x & kp1 & -> & Hx); [lia|done|done|lia|]. cbn [obind].
      destruct (removed_left kp kp1 l i k' v' r x) as (kp2 & h & kp3 & x' & kp4 & -> & E3 & E4 & Hr4);
        [done..|]. cbn [obind]. rewrite E3. cbn [obind]. rewrite E4. cbn [obind t_remove_slot].
      destruct (Z.ltb_spec (kcmp k k') 0); [|lia]. by do 2 eexists.
    + rewrite (LEFT_OF_Some _ _ _ Hrec), (RIGHT_OF_Some _ _ _ Hrec). cbn [obind].
      destruct (repr_root _ _ _ Hl) as [[El ->]|[Hnl Hxl]];
        [|destruct (Z.eqb_spec (kr_left rec) (-1)); [lia|];
          destruct (repr_root _ _ _ Hr') as [[Er ->]|[Hnr Hxr]];
          [|destruct (Z.eqb_spec (kr_right rec) (-1)); [lia|]]].
      * rewrite Z.eqb_refl.
        destruct (removed_root kp i rec (kr_right rec) k' v' l r r)
          as (kp1 & h & kp2 & x' & kp3 & -> & E2 & E3 & Hr4 & ->); try done; [auto|lia|].
        cbn [obind]. rewrite E2. cbn [obind]. rewrite E3. cbn [obind]. by do 2 eexists.
      * rewrite Z.eqb_refl.
        destruct (removed_root kp i rec (kr_left rec) k' v' l r l)
          as (kp1 & h & kp2 & x' & kp3 & -> & E2 & E3 & Hr4 & ->); try done; [auto|lia|].
        cbn [obind]. rewrite E2. cbn [obind]. rewrite E3. cbn [obind]. by do 2 eexists.
      * destruct (remove_two_ok fuel kp l i k' v' r rec idx)
          as (im & km & vm & m & rm & d & kp1 & x & kp2 & kp3 & h & kp4 & x' & kp5 &
              Em & -> & E1 & E2 & E3 & E4 & E5 & E6 & E7 & Hr5 & Hfr & Hf); try done; [lia|lia|].
        cbn [obind]. rewrite E1. cbn [obind]. rewrite E2. cbn [obind]. rewrite E3. cbn [obind].
        rewrite E4. cbn [obind]. rewrite E5. cbn [obind]. rewrite E6. cbn [obind]. rewrite E7. cbn [obind].
        unfold removed, remove_dv. cbn [t_remove t_remove_slot t_find].
        rewrite E0. cbn [Z.ltb Z.compare Z.eqb].
        destruct l as [|ll li lk lv lr]; [done|]. destruct r as [|rl ri rk rv rr]; [done|].
        rewrite Em. do 2 eexists. split; [reflexivity|]. split_and!; [done| |done].
        by intros s [= <-].
    + rewrite (RIGHT_OF_Some _ _ _ Hrec). cbn [obind].
      destruct (IHr fuel (kr_right rec) idx) as (x & kp1 & -> & Hx); [lia|done|done|lia|]. cbn [obind].
      destruct (removed_right kp kp1 l i k' v' r x) as (kp2 & h & kp3 & x' & kp4 & -> & E3 & E4 & Hr4);
        [lia|done..|]. cbn [obind]. rewrite E3. cbn [obind]. rewrite E4. cbn [obind t_remove_slot].
      destruct (Z.ltb_spec (kcmp k k') 0); [lia|]. destruct (Z.eqb_spec (kcmp k k') 0); [lia|].
      by do 2 eexists.
Qed.

(** ** Search *)
Lemma get_loop_ok fuel t kp root :
  repr (kp_keys kp) root t -> (Z.to_nat (th t) < fuel)%nat ->
  get_loop fuel kp root ki = Val (default (-1) (fst <$> t_find k t)).
Proof.
  revert fuel root. induction t as [|l IHl i k' v' r IHr]; intros [|fuel] root Hr Hfuel; try lia.
  - simpl in Hr. subst root. done.
  - apply repr_unode in Hr as Hu. destruct Hu as [-> (rec & Hrec & Hk & Hl & Hr')].
    pose proof (zget_Some _ _ _ Hrec). simpl in Hfuel. pose proof (th_bounds l). pose proof (th_bounds r).
    cbn [get_loop t_find]. destruct (Z.eqb_spec i (-1)); [lia|]. cbn [negb].
    rewrite (kp_at_Some _ _ _ Hrec). cbn [obind].
    rewrite (keycmp_ok _ _ _ _ _ Hki Hk). cbn [obind].
    rewrite (LEFT_OF_Some _ _ _ Hrec), (RIGHT_OF_Some _ _ _ Hrec). cbn [obind].
    destruct (_ <? _); [apply IHl; [done|lia]|]. destruct (_ =? _); [done|apply IHr; [done|lia]].
Qed.

(** A key that is found is in its record. *)
Lemma t_find_record kp root t i v :
  repr (kp_keys kp) root t -> t_find k t = Some (i, v) ->
  exists rec, zget (kp_keys kp) i = Some rec /\ kr_voff rec = v.
Proof.
  revert root. induction t as [|l IHl j k' v' r IHr]; simpl; intros root Hr Hf; [done|].
  destruct Hr as (-> & rec & Hrec & Hk & _ & Hl & Hr).
  destruct (_ <? _); [by eapply IHl|]. destruct (_ =? _); [|by eapply IHr].
  simplify_eq. exists rec. split; [done|apply Hk].
Qed.
End remove.
