(* ===== verification/KeyPage.v ===== *)
(** * What a key page promises

    A key page implements a finite map from keys to value offsets
    (librdb/include/keyrec.h).  [holds kp m] is the contract: the page [kp]
    stores exactly the map [m]. *)
From S2P Require Import Prelude DbStruct KeyRec AvlTree KeyRecRepr KeyRecOps.
Import KeyRecords.

(** The invariant of a page that represents [t].  Pages of up to 127 records
    (8192 bytes) are covered; beyond that a degenerate tree could overflow
    [char kr_height]. *)
Record page_wf (kp : key_page) (t : tree) : Prop := {
  wf_repr : repr (kp_keys kp) (kp_root kp) t;
  wf_nodup : NoDup (indices t);
  wf_ordered : ordered (elems t);
  wf_keys : keys_ok (elems t);
  wf_slots : zlen (kp_keys kp) <= 127;
  wf_vcount : kp_vcount kp = tsize t;
  wf_free : forall j r, zget (kp_keys kp) j = Some r -> j ∉ indices t -> kr_flags r = KEY_FREE }.

Definition holds (kp : key_page) (m : gmap bytes Z) : Prop :=
  exists t, page_wf kp t /\ al_map (elems t) = m.

(** A key as [SetKeyInfo] prepares it. *)
Definition key_is (ki : key_info) (k : bytes) : Prop := ki_is ki k /\ is_key k.

(** The page has a free record. *)
Definition has_room (kp : key_page) : Prop := kp_vcount kp < zlen (kp_keys kp).

(** ** Consequences of the invariant *)
Section wf.
Context (kp : key_page) (t : tree) (Hwf : page_wf kp t).

Lemma wf_size_slots : tsize t <= zlen (kp_keys kp).
Proof. destruct Hwf. by eapply tsize_slots. Qed.

Lemma wf_fuel : (Z.to_nat (th t) < page_fuel kp)%nat.
Proof.
  pose proof wf_size_slots. pose proof (th_bounds t). unfold page_fuel, zlen in *. lia.
Qed.

Lemma wf_find k : is_key k -> snd <$> t_find k t = al_map (elems t) !! k.
Proof. intros Hk. destruct Hwf. rewrite t_find_elems by done. by apply al_find_map. Qed.

Lemma wf_find_None k : is_key k -> al_map (elems t) !! k = None -> t_find k t = None.
Proof. intros Hk Hm. rewrite <- wf_find in Hm by done. by destruct (t_find k t). Qed.

Lemma wf_find_Some k v : is_key k -> al_map (elems t) !! k = Some v -> exists i, t_find k t = Some (i, v).
Proof.
  intros Hk Hm. rewrite <- wf_find in Hm by done. destruct (t_find k t) as [[i v']|]; [|done].
  simpl in Hm. simplify_eq. eauto.
Qed.

(** There is a free slot exactly when the count says so. *)
Lemma wf_free_slot : has_room kp -> is_Some (free_slot kp).
Proof.
  intros Hroom. unfold has_room in Hroom. pose proof Hwf as [Hr Hnd _ _ Hl Hvc Hfree].
  destruct (free_slot kp) as [s|] eqn:Hs; [eauto|].
  apply free_slot_None in Hs as [_ Hall]; [|lia]. exfalso.
  assert (zlen (seqZ 0 (zlen (kp_keys kp))) <= zlen (indices t)) as Hle.
  { unfold zlen. apply inj_le. apply submseteq_length, NoDup_submseteq; [apply NoDup_seqZ|].
    intros j Hj. apply elem_of_seqZ in Hj. destruct (zget_is_Some (kp_keys kp) j) as [r Hr']; [unfold zlen in *; lia|].
    destruct (decide (j ∈ indices t)) as [?|Hni]; [done|]. exfalso.
    rewrite Forall_forall in Hall. apply (Hall r); [|by eapply Hfree].
    unfold zget in Hr'. case_decide; [|done]. by eapply list_elem_of_lookup_2. }
  rewrite <- tsize_indices in Hle. unfold zlen in *. rewrite length_seqZ in Hle. lia.
Qed.

Lemma wf_full : ~ has_room kp -> free_slot kp = None.
Proof.
  intros Hfull. unfold has_room in Hfull. pose proof Hwf as [Hr Hnd _ _ Hl Hvc Hfree].
  destruct (free_slot kp) as [s|] eqn:Hs; [|done]. exfalso. apply Hfull.
  pose proof (free_slot_not_used kp (kp_root kp) t s ltac:(lia) Hr Hs) as Hni.
  destruct (free_slot_Some kp s ltac:(lia) Hs) as (_ & _ & rec & Hrec & _).
  pose proof (NoDup_range_length (s :: indices t) (zlen (kp_keys kp))) as Hle.
  rewrite Hvc, tsize_indices. unfold zlen in *. simpl in Hle.
  enough (Z.of_nat (S (length (indices t))) <= Z.of_nat (length (kp_keys kp))) by lia.
  apply Hle; [by constructor| |lia]. constructor; [by eapply zget_Some|by eapply repr_range].
Qed.
End wf.

Lemma holds_vcount kp m : holds kp m -> kp_vcount kp = Z.of_nat (size m).
Proof.
  intros (t & [Hr Hnd Ho Hk Hl -> _] & <-). rewrite tsize_elems. unfold zlen. f_equal.
  rewrite map_size_list_to_map; [done|].
  clear -Ho. induction (elems t) as [|[k v] l IH]; simpl; [constructor|].
  apply ordered_cons_inv in Ho as [Ho Hkl]. constructor; [|by apply IH].
  intros ([k2 v2] & -> & H2)%list_elem_of_fmap.
  rewrite Forall_forall in Hkl. specialize (Hkl _ H2). unfold klt in Hkl. simpl in Hkl.
  rewrite kcmp_refl in Hkl. lia.
Qed.

(** ** The operations on a well-formed page *)
Lemma put_wf kp t ki k :
  page_wf kp t -> key_is ki k ->
  exists kp', put kp ki = Val (default (-1) (t_put_slot k (free_slot kp) t), kp') /\
    repr (kp_keys kp') (kp_root kp') (t_put k (ki_voff ki) (free_slot kp) t) /\
    (is_Some (free_slot kp) \/ is_Some (t_find k t) ->
     page_wf kp' (t_put k (ki_voff ki) (free_slot kp) t)) /\
    (free_slot kp = None -> t_find k t = None ->
     page_wf kp' (t_put k (ki_voff ki) None t)).
Proof.
  intros Hwf [Hki Hk]. pose proof Hwf as [Hr Hnd Ho Hks Hl Hvc Hfree].
  pose proof (wf_size_slots _ _ Hwf) as Hsz. pose proof (th_bounds t).
  destruct (put_rec_ok ki k Hki (page_fuel kp) t kp (kp_root kp) (-1) Hl ltac:(lia) Hr Hnd (wf_fuel _ _ Hwf))
    as (root' & kp1 & E & Hr1 & Hf1).
  unfold put. rewrite E. cbn [obind]. eexists. split; [reflexivity|].
  simpl kp_keys. simpl kp_root. split; [done|].
  destruct Hf1 as (Hm & Hv & Hz & Hfr).
  pose proof (put_slots_ok kp k (ki_voff ki) _ t Hl Hr Hnd) as [Hnd' _].
  assert (forall j r, zget (kp_keys kp1) j = Some r ->
    j ∉ indices (t_put k (ki_voff ki) (free_slot kp) t) -> kr_flags r = KEY_FREE) as Hfree'.
  { intros j r Hj Hni. rewrite Hfr in Hj by done. eapply Hfree; [done|].
    rewrite indices_put in Hni. set_solver. }
  split; [intros Hroom|intros Hs Hf].
  - constructor; try done; simpl.
    + rewrite elems_put by done. by apply al_insert_ordered.
    + rewrite elems_put by done. by apply (al_insert_keys is_key).
    + lia.
    + rewrite Hv, Hvc. unfold put_dv. rewrite !tsize_indices, indices_put. unfold zlen.
      rewrite length_app. destruct (t_find k t); simpl; [lia|].
      destruct Hroom as [[s ->]|[? ?]]; [simpl; lia|done].
  - rewrite Hs in *. constructor; try done; simpl.
    + by rewrite elems_put_None.
    + by rewrite elems_put_None.
    + lia.
    + rewrite Hv, Hvc. unfold put_dv. rewrite Hf.
      rewrite !tsize_elems, elems_put_None by done. lia.
Qed.

Lemma remove_wf kp t ki k :
  page_wf kp t -> key_is ki k ->
  exists kp', remove kp ki = Val (default (-1) (t_remove_slot k t), kp') /\
    page_wf kp' (t_remove k t).
Proof.
  intros Hwf [Hki Hk]. pose proof Hwf as [Hr Hnd Ho Hks Hl Hvc Hfree].
  pose proof (wf_size_slots _ _ Hwf) as Hsz. pose proof (th_bounds t).
  destruct (remove_rec_ok ki k Hki (page_fuel kp) t kp (kp_root kp) (-1) Hl ltac:(lia) Hr Hnd (wf_fuel _ _ Hwf))
    as (root' & kp1 & E & Hr1 & Hfreed & Hm & Hv & Hz & Hfr).
  unfold remove. rewrite E. cbn [obind]. eexists. split; [reflexivity|].
  pose proof (remove_slots_ok k t Hnd) as (Hnd' & Hsz' & Hout).
  constructor; try done; simpl.
  - rewrite elems_remove by done. by apply al_remove_ordered.
  - rewrite elems_remove by done. by apply al_remove_Forall.
  - lia.
  - rewrite Hv, Hvc. unfold remove_dv.
    pose proof (Permutation_length (indices_remove k t)) as Hp. rewrite length_app in Hp.
    rewrite !tsize_indices. unfold zlen in *.
    pose proof (t_remove_slot_find k t) as Hff.
    destruct (t_find k t), (t_remove_slot k t); simpl in *; try lia.
    + destruct Hff as [_ Hff]. by destruct Hff.
    + destruct Hff as [Hff _]. by destruct Hff.
  - intros j r Hj Hni. destruct (decide (j ∈ indices t)) as [Hin|Hin].
    + rewrite <- (indices_remove k t), elem_of_app in Hin. destruct Hin as [Hin|Hin]; [|done].
      destruct (t_remove_slot k t) as [s|] eqn:Es; simpl in Hin; [|by apply elem_of_nil in Hin].
      apply list_elem_of_singleton in Hin as ->. unfold freed in Hfreed.
      rewrite (Hfreed s eq_refl) in Hj. by simplify_eq.
    + rewrite Hfr in Hj by done. by eapply Hfree.
Qed.

Lemma get_wf kp t ki k :
  page_wf kp t -> key_is ki k -> get kp ki = Val (default (-1) (fst <$> t_find k t)).
Proof.
  intros Hwf [Hki Hk]. apply get_loop_ok; [done|apply Hwf|by apply wf_fuel].
Qed.

(** ** The contract *)

(** An initialized page is empty. *)
Lemma init_holds kpsize : KEY_PAGE_HDR_SIZE <= kpsize <= 8192 -> holds (InitKeyPage kpsize) ∅.
Proof.
  intros Hsz. exists Leaf. split; [|done].
  assert (0 <= NUM_OF_KEYS_IN_PAGE kpsize <= 127) as Hn.
  { unfold NUM_OF_KEYS_IN_PAGE, KEY_PAGE_HDR_SIZE, sizeof_key_rec_t in *.
    split; [apply Z.div_pos; lia|]. apply Z.lt_succ_r, Z.div_lt_upper_bound; lia. }
  constructor; simpl; try done; try constructor.
  - unfold zlen. rewrite length_replicate. lia.
  - intros j r Hj _. unfold zget in Hj. case_decide; [|done].
    apply lookup_replicate in Hj as [-> _]. done.
Qed.

(** The step form of insertion, for pages given by a run of the code. *)
Lemma holds_put kp m ki k idx kp' :
  holds kp m -> key_is ki k -> has_room kp \/ is_Some (m !! k) ->
  put kp ki = Val (idx, kp') -> holds kp' (<[k := ki_voff ki]> m).
Proof.
  intros (t & Hwf & <-) Hk Hroom Hput. pose proof Hk as [_ Hk'].
  destruct (put_wf kp t ki k Hwf Hk) as (kp1 & E & _ & Hput' & _).
  rewrite E in Hput. simplify_eq.
  assert (is_Some (free_slot kp) \/ is_Some (t_find k t)) as Hslot.
  { destruct Hroom as [Hroom|[v Hv]]; [left; by eapply wf_free_slot|].
    apply (wf_find_Some _ _ Hwf) in Hv as [i ->]; [|done]. eauto. }
  exists (t_put k (ki_voff ki) (free_slot kp) t). split; [by apply Hput'|].
  pose proof Hwf as [_ _ Ho Hks _ _ _]. rewrite elems_put by done. by apply al_insert_map.
Qed.

(** [put] fails exactly when the page is full and the key is new. *)
Lemma put_slot_nonneg kp t k :
  page_wf kp t -> is_Some (free_slot kp) \/ is_Some (t_find k t) ->
  0 <= default (-1) (t_put_slot k (free_slot kp) t).
Proof.
  intros [Hr _ _ _ Hl _ _]. apply repr_range in Hr. revert Hr.
  induction t as [|l IHl i k' v r IHr]; simpl; intros Hr Hs.
  - destruct Hs as [[s Hs]|[? ?]]; [|done]. rewrite Hs. simpl.
    apply free_slot_Some in Hs as (_ & ? & _); lia.
  - apply Forall_app in Hr as [Hr1 Hr2]. inversion_clear Hr2.
    destruct (_ <? _); [by apply IHl|]. destruct (_ =? _); [simpl; lia|by apply IHr].
Qed.

(** C25. [KeyRecords::put] implements map insertion: on a page that stores the
    map [m], and that has a free record or already holds the key, it succeeds,
    returns a record index and leaves a page that stores [m] with the key bound
    to the new value offset. *)
Theorem put_refines_insert kp m ki k :
  holds kp m -> key_is ki k -> has_room kp \/ is_Some (m !! k) ->
  exists idx kp', put kp ki = Val (idx, kp') /\ 0 <= idx /\
    holds kp' (<[k := ki_voff ki]> m).
Proof.
  intros (t & Hwf & Hm) Hk Hroom. pose proof Hk as [_ Hk'].
  destruct (put_wf kp t ki k Hwf Hk) as (kp' & E & _).
  do 2 eexists. split; [exact E|]. split.
  - apply put_slot_nonneg; [done|]. destruct Hroom as [Hroom|[v Hv]]; [left; by eapply wf_free_slot|].
    subst m. apply (wf_find_Some _ _ Hwf) in Hv as [i ->]; [|done]. eauto.
  - eapply holds_put; [by exists t|done|done|done].
Qed.

(** On a full page [put] of a new key returns -1 and the page still stores
    the same map. *)
Theorem put_full kp m ki k :
  holds kp m -> key_is ki k -> ~ has_room kp -> m !! k = None ->
  exists kp', put kp ki = Val (-1, kp') /\ holds kp' m.
Proof.
  intros (t & Hwf & <-) Hk Hfull Hnew. pose proof Hk as [_ Hk'].
  apply (wf_find_None _ _ Hwf) in Hnew; [|done].
  pose proof (wf_full _ _ Hwf Hfull) as Hs.
  destruct (put_wf kp t ki k Hwf Hk) as (kp' & E & _ & _ & Hput). rewrite Hs in *.
  exists kp'. split.
  - rewrite E. do 2 f_equal. clear -Hnew. induction t as [|l IHl i k' v r IHr]; simpl in *; [done|].
    destruct (_ <? _); [auto|]. destruct (_ =? _); [done|auto].
  - eexists. split; [by apply Hput|]. by rewrite elems_put_None.
Qed.

(** [KeyRecords::get] implements map lookup: it returns -1 for an absent
    key, and otherwise the index of a record whose value offset is the one the
    map gives. *)
Theorem get_refines_lookup kp m ki k :
  holds kp m -> key_is ki k ->
  match m !! k with
  | None => get kp ki = Val (-1)
  | Some v => exists idx r, get kp ki = Val idx /\ zget (kp_keys kp) idx = Some r /\ kr_voff r = v
  end.
Proof.
  intros (t & Hwf & <-) Hk. pose proof Hk as [_ Hk'].
  rewrite (get_wf kp t ki k Hwf Hk). rewrite <- (wf_find _ _ Hwf) by done.
  destruct (t_find k t) as [[i v]|] eqn:Hf; simpl; [|done].
  destruct (t_find_record k kp (kp_root kp) t i v) as (r & Hr & Hv); [apply Hwf|done|].
  by exists i, r.
Qed.

(** C26. [KeyRecords::remove] implements map deletion, and reports a record
    index exactly when the key was present. *)
Theorem remove_refines_delete kp m ki k :
  holds kp m -> key_is ki k ->
  exists idx kp', remove kp ki = Val (idx, kp') /\ holds kp' (delete k m) /\
    (0 <= idx <-> is_Some (m !! k)).
Proof.
  intros (t & Hwf & <-) Hk. pose proof Hk as [_ Hk'].
  destruct (remove_wf kp t ki k Hwf Hk) as (kp' & E & Hwf').
  pose proof Hwf as [Hr _ Ho Hks _ _ _].
  do 2 eexists. split; [exact E|]. split.
  - exists (t_remove k t). split; [done|]. rewrite elems_remove by done. by apply al_remove_map.
  - rewrite <- (wf_find _ _ Hwf), fmap_is_Some by done. rewrite <- t_remove_slot_find.
    destruct (t_remove_slot k t) as [s|] eqn:Es; simpl.
    + split; [eauto|intros _]. apply repr_range in Hr. rewrite Forall_forall in Hr.
      apply Hr. rewrite <- (indices_remove k t), Es. simpl. apply list_elem_of_here.
    + split; [lia|by intros [? ?]].
Qed.

(** ** The record a deletion frees *)
(** The subtree at the record [get] finds. *)
Lemma t_find_node ks x t k i v :
  repr ks x t -> NoDup (indices t) -> t_find k t = Some (i, v) ->
  exists l r k', repr ks i (Node l i k' v r) /\ i ∉ indices l /\
    (l <> Leaf -> r <> Leaf -> t_remove_slot k t = ((fun m => m.1.1) <$> t_max l)).
Proof.
  revert x. induction t as [|l IHl j k' v' r IHr]; intros x Hr Hnd Hf; [done|].
  pose proof (NoDup_node_inv _ _ _ _ _ Hnd) as (Hi & Hndl & Hndr & _). rewrite elem_of_app in Hi.
  apply repr_unode in Hr as Hu. destruct Hu as [-> (rec & _ & _ & Hl & Hr')].
  cbn [t_find t_remove_slot] in *. destruct (_ <? _); [by eapply IHl|].
  destruct (_ =? _); [|by eapply IHr]. simplify_eq.
  exists l, r, k'. split_and!; [done|tauto|]. by destruct l, r.
Qed.

(** When the record that holds the key has two subtrees, [remove] frees a
    different record than the one [get] returns for the key: the key found in
    record [i] is reported as removed from record [j <> i].  [Rdb::remove]
    (librdb/src/rdb.cpp) asserts that the two are equal. *)
Theorem remove_frees_other_record kp m ki k i r :
  holds kp m -> key_is ki k -> get kp ki = Val i -> zget (kp_keys kp) i = Some r ->
  kr_left r <> -1 -> kr_right r <> -1 ->
  exists j kp', remove kp ki = Val (j, kp') /\ j <> i.
Proof.
  intros (t & Hwf & <-) Hk Hget Hrec Hl Hr.
  rewrite (get_wf kp t ki k Hwf Hk) in Hget. pose proof (zget_Some _ _ _ Hrec) as Hi.
  destruct (t_find k t) as [[i' v]|] eqn:Hf; injection Hget as Hget; simpl in Hget; [|lia]. subst i'.
  destruct (remove_wf kp t ki k Hwf Hk) as (kp' & E & _). do 2 eexists. split; [exact E|].
  destruct Hwf as [Hrepr Hnd _ _ _ _ _].
  destruct (t_find_node _ _ _ _ _ _ Hrepr Hnd Hf) as (lt & rt & k' & Hn & Hil & Hs).
  destruct Hn as (_ & rec & Hrec' & _ & _ & Hlt & Hrt). rewrite Hrec in Hrec'. simplify_eq.
  assert (lt <> Leaf) as Hnl by (intros ->; done). assert (rt <> Leaf) as Hnr by (intros ->; done).
  rewrite Hs by done. destruct (t_max_is_Some lt Hnl) as (im & km & vm & Hm). rewrite Hm. simpl.
  intros ->. apply Hil. rewrite (t_max_indices _ _ _ _ Hm), elem_of_app. right. apply list_elem_of_here.
Qed.

(** ** Balance *)
Definition balanced_page (kp : key_page) : Prop := exists t, page_wf kp t /\ balanced t.

(** C27. Insertion keeps the tree of a page balanced (heights of siblings differ
    by at most one). *)
Theorem put_keeps_balance kp ki k :
  balanced_page kp -> key_is ki k ->
  exists idx kp', put kp ki = Val (idx, kp') /\ balanced_page kp'.
Proof.
  intros (t & Hwf & Hb) Hk.
  destruct (put_wf kp t ki k Hwf Hk) as (kp' & E & _ & H1 & H2).
  do 2 eexists. split; [exact E|]. exists (t_put k (ki_voff ki) (free_slot kp) t).
  split; [|by apply t_put_grown].
  destruct (free_slot kp) eqn:Es; [apply H1; eauto|].
  destruct (t_find k t) eqn:Ef; [apply H1; eauto|by apply H2].
Qed.

(** The least number of nodes of a balanced tree of height [h]. *)
Fixpoint avl_min (h : nat) : Z :=
  match h with
  | O => 0
  | S O => 1
  | S (S h'' as h') => 1 + avl_min h' + avl_min h''
  end.

Lemma avl_min_step h : avl_min (S (S h)) = 1 + avl_min (S h) + avl_min h.
Proof. reflexivity. Qed.

Lemma avl_min_mono_S h : 0 <= avl_min h <= avl_min (S h).
Proof.
  induction h as [|h IH]; [simpl; lia|]. rewrite avl_min_step. lia.
Qed.

Lemma avl_min_mono h h' : (h <= h')%nat -> avl_min h <= avl_min h'.
Proof. induction 1 as [|h' _ IH]; [lia|]. pose proof (avl_min_mono_S h'). lia. Qed.

Lemma balanced_size t : balanced t -> avl_min (Z.to_nat (th t)) <= tsize t.
Proof.
  induction t as [|l IHl i k v r IHr]; [simpl; lia|]. intros (Hb & Hl & Hr).
  specialize (IHl Hl). specialize (IHr Hr). cbn [th tsize].
  pose proof (th_bounds l). pose proof (th_bounds r).
  destruct (Z.to_nat (1 + th l `max` th r)) as [|[|h]] eqn:E; [lia|simpl; lia|].
  rewrite avl_min_step.
  assert (avl_min h <= avl_min (S h)) by apply avl_min_mono_S.
  pose proof (avl_min_mono h (Z.to_nat (th l))). pose proof (avl_min_mono h (Z.to_nat (th r))).
  destruct (Z.max_spec (th l) (th r)) as [[? Em]|[? Em]]; rewrite Em in E.
  - assert (Z.to_nat (th r) = S h) as Er by lia. rewrite Er in IHr. lia.
  - assert (Z.to_nat (th l) = S h) as El by lia. rewrite El in IHl. lia.
Qed.

(** In a page of the default size (4096 bytes, 63 records) whose tree is
    balanced, a search compares the key with at most 8 records: nine steps of
    the loop of [get] are enough. *)
Theorem get_search_depth kp ki k :
  balanced_page kp -> key_is ki k -> zlen (kp_keys kp) <= NUM_OF_KEYS_IN_PAGE KEY_PAGE_SIZE ->
  get_loop 9 kp (kp_root kp) ki = get kp ki.
Proof.
  intros (t & Hwf & Hb) Hk Hlen. rewrite (get_wf kp t ki k Hwf Hk).
  pose proof (wf_size_slots _ _ Hwf) as Hsz. apply balanced_size in Hb.
  change (NUM_OF_KEYS_IN_PAGE KEY_PAGE_SIZE) with 63 in Hlen. pose proof (th_bounds t).
  apply (get_loop_ok ki k (proj1 Hk)); [apply Hwf|].
  destruct (decide (Z.to_nat (th t) < 9)%nat) as [?|Hge]; [done|].
  pose proof (avl_min_mono 9 (Z.to_nat (th t)) ltac:(lia)) as Hm.
  change (avl_min 9) with 88 in Hm. lia.
Qed.

(** ** Free records *)
Lemma getFreeCount_foldl ks n :
  foldl (fun count r => if kr_flags r =? KEY_FREE then count + 1 else count) n ks =
  n + zlen (filter (fun r => kr_flags r = KEY_FREE) ks).
Proof.
  revert n. induction ks as [|r ks IH]; intros n; simpl; [unfold zlen; simpl; lia|].
  rewrite IH, filter_cons. destruct (Z.eqb_spec (kr_flags r) KEY_FREE).
  - rewrite decide_True by done. rewrite zlen_cons. lia.
  - by rewrite decide_False.
Qed.

Lemma repr_used_count ks (P : Z -> Prop) `{!forall j, Decision (P j)} :
  (forall j r, zget ks j = Some r -> (kr_flags r = KEY_FREE <-> P j)) ->
  zlen (filter (fun r => kr_flags r = KEY_FREE) ks) = zlen (filter P (seqZ 0 (zlen ks))).
Proof.
  induction ks as [|r ks IH] using rev_ind; intros HP; [done|].
  assert (seqZ 0 (zlen (ks ++ [r])) = seqZ 0 (zlen ks) ++ [zlen ks]) as ->.
  { unfold zlen. rewrite length_app. simpl length. rewrite Nat.add_1_r. apply seqZ_S. }
  rewrite !filter_app, !zlen_app. f_equal.
  - apply IH. intros j r' Hj. apply HP. unfold zget in *. case_decide; [|done].
    by apply lookup_app_l_Some.
  - assert (zget (ks ++ [r]) (zlen ks) = Some r) as Hlast.
    { unfold zget, zlen. rewrite decide_True by lia. rewrite Nat2Z.id.
      by rewrite lookup_app_r, Nat.sub_diag by lia. }
    specialize (HP _ _ Hlast). rewrite !filter_cons, !filter_nil.
    destruct (decide (kr_flags r = KEY_FREE)), (decide (P (zlen ks))); tauto.
Qed.

Lemma filter_not_in_length (l js : list Z) : NoDup l -> NoDup js -> js ⊆ l ->
  zlen (filter (fun j => j ∉ js) l) = zlen l - zlen js.
Proof.
  intros Hl Hjs Hsub.
  assert (l ≡ₚ js ++ filter (fun j => j ∉ js) l) as Hp.
  { apply NoDup_Permutation; [done| |].
    - apply NoDup_app. split_and!; [done| |by apply NoDup_filter].
      intros j Hj [Hn _]%list_elem_of_filter. done.
    - intros j. rewrite elem_of_app, list_elem_of_filter.
      destruct (decide (j ∈ js)); [|tauto]. pose proof (Hsub j). tauto. }
  pose proof (zlen_Permutation _ _ Hp) as E. rewrite zlen_app in E. lia.
Qed.

(** [getFreeCount] is the number of records minus the number of keys the
    page counts. *)
Theorem getFreeCount_vcount kp m :
  holds kp m -> getFreeCount kp = zlen (kp_keys kp) - kp_vcount kp.
Proof.
  intros (t & [Hr Hnd _ _ Hl Hvc Hfree] & _). unfold getFreeCount. rewrite getFreeCount_foldl.
  rewrite (repr_used_count _ (fun j => j ∉ indices t)).
  - rewrite filter_not_in_length; [|apply NoDup_seqZ|done|].
    + rewrite Hvc, tsize_indices. unfold zlen at 1. rewrite length_seqZ. unfold zlen. lia.
    + intros j Hj. apply elem_of_seqZ. apply repr_range in Hr. rewrite Forall_forall in Hr.
      specialize (Hr j Hj). lia.
  - intros j r Hj. split; [|by eapply Hfree]. intros Hf Hin.
    destruct (repr_inuse _ _ _ _ Hr Hin) as (r' & Hj' & Hu). rewrite Hj in Hj'. simplify_eq.
    by rewrite Hf in Hu.
Qed.

(** ** Deletion and balance

    [balanceTree] (librdb/src/keyrec.cpp) rotates only when the heavy child
    leans to one side; a child of balance factor 0, which arises only in
    deletions, is left alone.  The comment above [balanceFactor] bounds the
    factor by [-2, 2]. *)
Definition key_info_of (k : bytes) (voff : Z) : key_info :=
  {| ki_key := k ++ replicate (Z.to_nat MAX_KEY_LENGTH - length k) 0; ki_klen := zlen k;
     ki_hash := 0; ki_voff := voff |}.

Fixpoint put_all (kp : key_page) (l : list (bytes * Z)) : outcome key_page :=
  match l with
  | [] => Val kp
  | (k, v) :: l => let* (_, kp) := put kp (key_info_of k v) in put_all kp l
  end.

Fixpoint remove_all (kp : key_page) (l : list bytes) : outcome key_page :=
  match l with
  | [] => Val kp
  | k :: l => let* (_, kp) := remove kp (key_info_of k (-1)) in remove_all kp l
  end.

(** Removals unbalance the tree beyond the documented factor: after fifteen
    insertions into an empty page and seven removals the root has balance
    factor 3. *)
Theorem remove_unbalances :
  (let* kp := put_all (InitKeyPage MIN_KEY_PAGE_SIZE)
     ((fun c => ([c], c)) <$> [8; 4; 12; 2; 6; 10; 14; 1; 3; 5; 7; 9; 11; 13; 15]) in
   let* kp := remove_all kp ((fun c => [c]) <$> [9; 10; 11; 12; 13; 14; 15]) in
   balanceFactor kp (kp_root kp)) = Val 3.
Proof. vm_compute. reflexivity. Qed.

(** ** Instances *)
Lemma bytes_of_is_key s : is_key (bytes_of s).
Proof.
  induction s as [|a s IH]; simpl; constructor; [|done].
  pose proof (wrapS_range 8 (Z.of_N (Ascii.N_of_ascii a))). unfold is_char, chr. simpl in *. lia.
Qed.

Lemma key_info_of_is k voff : is_key k -> zlen k <= MAX_KEY_LENGTH -> key_is (key_info_of k voff) k.
Proof.
  unfold zlen, MAX_KEY_LENGTH. intros Hk Hl. split; [|done]. unfold ki_is, key_info_of. simpl.
  split_and!; [done|done| |by rewrite take_app_length].
  unfold zlen, MAX_KEY_LENGTH in *. rewrite length_app, length_replicate. lia.
Qed.

Lemma put_length kp m ki k idx kp' :
  holds kp m -> key_is ki k -> put kp ki = Val (idx, kp') -> zlen (kp_keys kp') = zlen (kp_keys kp).
Proof.
  intros (t & Hwf & _) [Hki Hk] Hput. pose proof Hwf as [Hr Hnd _ _ Hl Hvc _].
  pose proof (wf_size_slots _ _ Hwf) as Hsz. rewrite tsize_indices in *.
  pose proof (zlen_nonneg (indices t)).
  destruct (put_rec_ok ki k Hki (page_fuel kp) t kp (kp_root kp) (-1) Hl ltac:(lia) Hr Hnd (wf_fuel _ _ Hwf))
    as (root' & kp1 & E & _ & _ & _ & Hz & _).
  unfold put in Hput. rewrite E in Hput. simpl in Hput. by simplify_eq.
Qed.

Definition insert_all (m : gmap bytes Z) (l : list (bytes * Z)) : gmap bytes Z :=
  foldl (fun m kv => <[kv.1 := kv.2]> m) m l.

Lemma put_all_holds kp m l kp' :
  holds kp m -> kp_vcount kp + zlen l <= zlen (kp_keys kp) ->
  Forall (fun kv => is_key kv.1 /\ zlen kv.1 <= MAX_KEY_LENGTH) l ->
  put_all kp l = Val kp' -> holds kp' (insert_all m l).
Proof.
  revert kp m. induction l as [|[k v] l IH]; intros kp m Hm Hroom Hl Hput; simpl in *.
  { by simplify_eq. }
  apply obind_inv in Hput as ([idx kp1] & E & Hput). inversion_clear Hl as [|? ? [Hk Hkl] Hl'].
  rewrite zlen_cons in Hroom. pose proof (zlen_nonneg l).
  pose proof (key_info_of_is k v Hk Hkl) as Hki.
  assert (holds kp1 (<[k := v]> m)) as Hm1.
  { eapply (holds_put kp m (key_info_of k v)); try done. left. unfold has_room. lia. }
  eapply IH; try done.
  rewrite (put_length _ _ _ _ _ _ Hm Hki E).
  rewrite (holds_vcount _ _ Hm1). rewrite (holds_vcount _ _ Hm) in Hroom.
  destruct (m !! k) eqn:Ek.
  - rewrite map_size_insert_Some by eauto. lia.
  - rewrite map_size_insert_None by done. lia.
Qed.

Definition sample_keys : list (bytes * Z) :=
  [(bytes_of "m", 256); (bytes_of "c", 512); (bytes_of "t", 768)].

Definition sample_page : key_page :=
  match put_all (InitKeyPage MIN_KEY_PAGE_SIZE) sample_keys with Val kp => kp | _ => InitKeyPage 0 end.

Lemma sample_page_holds : holds sample_page (insert_all ∅ sample_keys).
Proof.
  apply (put_all_holds (InitKeyPage MIN_KEY_PAGE_SIZE)).
  - by apply init_holds.
  - done.
  - repeat (apply Forall_cons; split; [split; [apply bytes_of_is_key|vm_compute; discriminate]|]).
    apply Forall_nil_2.
  - vm_compute. reflexivity.
Qed.

Definition ki_sample (s : string) : key_info := key_info_of (bytes_of s) 1024.

Lemma ki_sample_is s : zlen (bytes_of s) <= MAX_KEY_LENGTH -> key_is (ki_sample s) (bytes_of s).
Proof. intros. apply key_info_of_is; [apply bytes_of_is_key|done]. Qed.

Lemma put_refines_insert_witness :
  exists idx kp', put sample_page (ki_sample "x") = Val (idx, kp') /\ 0 <= idx /\
    holds kp' (<[bytes_of "x" := 1024]> (insert_all ∅ sample_keys)).
Proof.
  apply (put_refines_insert sample_page _ (ki_sample "x") (bytes_of "x")).
  - apply sample_page_holds.
  - by apply ki_sample_is.
  - left. reflexivity.
Defined.

Lemma put_full_witness :
  exists kp', put (InitKeyPage KEY_PAGE_HDR_SIZE) (ki_sample "x") = Val (-1, kp') /\ holds kp' ∅.
Proof.
  apply (put_full (InitKeyPage KEY_PAGE_HDR_SIZE) ∅ (ki_sample "x") (bytes_of "x")).
  - by apply init_holds.
  - by apply ki_sample_is.
  - by vm_compute.
  - reflexivity.
Defined.

Lemma get_refines_lookup_witness :
  exists idx r, get sample_page (ki_sample "c") = Val idx /\ zget (kp_keys sample_page) idx = Some r /\
    kr_voff r = 512.
Proof.
  apply (get_refines_lookup sample_page _ (ki_sample "c") (bytes_of "c") sample_page_holds).
  by apply ki_sample_is.
Defined.

Lemma remove_refines_delete_witness :
  exists idx kp', remove sample_page (ki_sample "c") = Val (idx, kp') /\
    holds kp' (delete (bytes_of "c") (insert_all ∅ sample_keys)) /\
    (0 <= idx <-> is_Some (insert_all ∅ sample_keys !! bytes_of "c")).
Proof.
  apply remove_refines_delete; [apply sample_page_holds|by apply ki_sample_is].
Defined.

Lemma remove_frees_other_record_witness :
  exists j kp', remove sample_page (ki_sample "m") = Val (j, kp') /\ j <> 0.
Proof.
  eapply (remove_frees_other_record sample_page _ (ki_sample "m") (bytes_of "m") 0).
  - apply sample_page_holds.
  - by apply ki_sample_is.
  - vm_compute. reflexivity.
  - vm_compute. reflexivity.
  - done.
  - done.
Defined.

Lemma init_balanced_page kpsize :
  KEY_PAGE_HDR_SIZE <= kpsize <= 8192 -> balanced_page (InitKeyPage kpsize).
Proof.
  intros Hsz. exists Leaf. split; [|done].
  destruct (init_holds kpsize Hsz) as (t & Hwf & Hm).
  assert (t = Leaf) as ->; [|done].
  destruct Hwf as [Hr _ _ _ _ _ _]. destruct t as [|l i k v r]; [done|].
  apply repr_range in Hr as Hi. destruct Hr as [Hr _]. simpl in Hr, Hi. subst i.
  apply Forall_app in Hi as [_ Hi]. inversion Hi. lia.
Qed.

Lemma put_keeps_balance_witness :
  exists idx kp', put (InitKeyPage KEY_PAGE_SIZE) (ki_sample "x") = Val (idx, kp') /\ balanced_page kp'.
Proof.
  apply (put_keeps_balance _ _ (bytes_of "x")); [by apply init_balanced_page|by apply ki_sample_is].
Defined.

Lemma get_search_depth_witness :
  get_loop 9 (InitKeyPage KEY_PAGE_SIZE) (kp_root (InitKeyPage KEY_PAGE_SIZE)) (ki_sample "x") = get (InitKeyPage KEY_PAGE_SIZE) (ki_sample "x").
Proof.
  apply (get_search_depth _ _ (bytes_of "x")); [by apply init_balanced_page|by apply ki_sample_is|].
  vm_compute. discriminate.
Defined.

Lemma getFreeCount_vcount_witness : getFreeCount sample_page = 15 - 3.
Proof. apply (getFreeCount_vcount sample_page _ sample_page_holds). Defined.
