(* ===== verification/Prime.v ===== *)
(** * librdb: the size of the hash table (librdb/src/prime.cpp) *)
From Stdlib Require Import Znumtheory.
From S2P Require Import Prelude.

(** ** The code

    [long] is a 64-bit integer and [int] a 32-bit one: a result outside its type
    is undefined behaviour. *)
Definition chk_long (z : Z) : outcome Z := if decide (- 2 ^ 63 <= z < 2 ^ 63) then Val z else Undef.
Definition chk_int (z : Z) : outcome Z := if decide (- 2 ^ 31 <= z < 2 ^ 31) then Val z else Undef.

Fixpoint FloorSqrt_loop (fuel : nat) (number lo hi res : Z) : outcome Z :=
  match fuel with
  | O => OutOfFuel
  | S fuel =>
      if lo <=? hi then
        let* sum := chk_long (lo + hi) in
        let mid := sum / 2 in
        let* sq := chk_long (mid * mid) in
        if sq <? number then FloorSqrt_loop fuel number (mid + 1) hi mid
        else if sq =? number then Val mid
        else FloorSqrt_loop fuel number lo (mid - 1) res
      else Val res
  end.

(** Every round halves the interval, so 65 rounds are enough for a [long]. *)
Definition FloorSqrt (number : Z) : outcome Z := FloorSqrt_loop 65 number 1 number 0.

Fixpoint IsPrime_loop (fuel : nat) (number sq i ni : Z) : outcome bool :=
  match fuel with
  | O => OutOfFuel
  | S fuel =>
      if i <=? sq then
        if Z.rem number i =? 0 then Val false
        else IsPrime_loop fuel number sq (i + ni) (6 - ni)
      else Val true
  end.

Definition IsPrime (number : Z) : outcome bool :=
  if (number =? 1) || (number =? 2) || (number =? 3) then Val true
  else if Z.rem number 2 =? 0 then Val false
  else if Z.rem number 3 =? 0 then Val false
  else
    let* sq := FloorSqrt number in
    IsPrime_loop (S (Z.to_nat sq)) number sq 5 2.

(** The second loop of [NextPrime]. *)
Fixpoint NextPrime_loop (fuel : nat) (next ni : Z) : outcome Z :=
  match fuel with
  | O => OutOfFuel
  | S fuel =>
      let* p := IsPrime next in
      if p then Val next
      else
        let* next := chk_int (next + ni) in
        NextPrime_loop fuel next (6 - ni)
  end.

(** The first loop: [while (next < n) { i++; next = (6 * i) - 1; }]. *)
Fixpoint NextPrime_start (fuel : nat) (n i next : Z) : outcome Z :=
  match fuel with
  | O => OutOfFuel
  | S fuel =>
      if next <? n then
        let* next := chk_int (6 * (i + 1) - 1) in NextPrime_start fuel n (i + 1) next
      else Val next
  end.

Definition NextPrime (fuel : nat) (n : Z) : outcome Z :=
  let* p := IsPrime n in
  if p then Val n
  else
    let i := Z.quot n 6 + 1 in
    let* next := chk_int (6 * i - 1) in
    let* next := NextPrime_start fuel n i next in
    NextPrime_loop fuel next 2.

(** ** The square root *)
Lemma chk_long_ok z : - 2 ^ 63 <= z < 2 ^ 63 -> chk_long z = Val z.
Proof. intros. unfold chk_long. by rewrite decide_True. Qed.

Lemma chk_int_ok z : - 2 ^ 31 <= z < 2 ^ 31 -> chk_int z = Val z.
Proof. intros. unfold chk_int. by rewrite decide_True. Qed.

Lemma FloorSqrt_loop_S fuel number lo hi res : FloorSqrt_loop (S fuel) number lo hi res =
  if lo <=? hi then
    let* sum := chk_long (lo + hi) in
    let mid := sum / 2 in
    let* sq := chk_long (mid * mid) in
    if sq <? number then FloorSqrt_loop fuel number (mid + 1) hi mid
    else if sq =? number then Val mid
    else FloorSqrt_loop fuel number lo (mid - 1) res
  else Val res.
Proof. reflexivity. Qed.

Lemma FloorSqrt_loop_ok fuel number lo hi :
  0 <= number < 2 ^ 32 -> 1 <= lo -> hi <= number -> lo <= hi + 1 ->
  (lo - 1) * (lo - 1) <= number -> number < (hi + 1) * (hi + 1) ->
  hi - lo + 1 < 2 ^ Z.of_nat fuel ->
  FloorSqrt_loop (S fuel) number lo hi (lo - 1) = Val (Z.sqrt number).
Proof.
  intros Hn. revert lo hi. induction fuel as [|fuel IH]; intros lo hi Hlo Hhi Hlh H1 H2 Hf;
    rewrite FloorSqrt_loop_S; destruct (Z.leb_spec lo hi) as [Hle|Hgt].
  - change (2 ^ Z.of_nat 0) with 1 in Hf. lia.
  - f_equal. symmetry. apply Z.sqrt_unique. nia.
  - rewrite Nat2Z.inj_succ, Z.pow_succ_r in Hf by lia.
    rewrite chk_long_ok by lia. cbn [obind]. pose proof (Z.div_mod (lo + hi) 2 ltac:(lia)) as Hd.
    pose proof (Z.mod_pos_bound (lo + hi) 2 ltac:(lia)). set (mid := (lo + hi) / 2) in *.
    rewrite chk_long_ok by nia. cbn [obind].
    destruct (Z.ltb_spec (mid * mid) number); [|destruct (Z.eqb_spec (mid * mid) number)].
    + replace (FloorSqrt_loop (S fuel) number (mid + 1) hi mid)
        with (FloorSqrt_loop (S fuel) number (mid + 1) hi (mid + 1 - 1)) by (f_equal; lia).
      apply IH; try lia; nia.
    + f_equal. symmetry. apply Z.sqrt_unique. nia.
    + apply IH; try lia; nia.
  - f_equal. symmetry. apply Z.sqrt_unique. nia.
Qed.

Lemma FloorSqrt_ok number : 0 <= number < 2 ^ 32 -> FloorSqrt number = Val (Z.sqrt number).
Proof.
  intros Hn. unfold FloorSqrt. apply (FloorSqrt_loop_ok 64 number 1 number); try lia; try nia.
Qed.

(** ** Trial division *)

(** The candidates of the loop: the numbers [6k - 1] and [6k + 1] from 5 on. *)
Definition candidate (i : Z) : Prop := 5 <= i /\ (i mod 6 = 5 \/ i mod 6 = 1).

(** The state of the loop at the candidate [i]. *)
Definition at_candidate (i ni : Z) : Prop := 5 <= i /\ ((i mod 6 = 5 /\ ni = 2) \/ (i mod 6 = 1 /\ ni = 4)).

Lemma at_candidate_next i ni : at_candidate i ni -> at_candidate (i + ni) (6 - ni) /\
  forall j, candidate j -> j < i + ni -> j <= i.
Proof.
  unfold at_candidate, candidate. intros [Hi [[Hm ->]|[Hm ->]]]; (split; [split; [lia|]|intros j [Hj Hjm] Hlt]);
    pose proof (Z.div_mod i 6 ltac:(lia)).
  - right. split; [|done]. symmetry. apply (Z.mod_unique _ _ (i / 6 + 1)); lia.
  - pose proof (Z.div_mod j 6 ltac:(lia)). lia.
  - left. split; [|done]. symmetry. apply (Z.mod_unique _ _ (i / 6)); lia.
  - pose proof (Z.div_mod j 6 ltac:(lia)). lia.
Qed.

Lemma IsPrime_loop_ok fuel number sq i ni :
  0 < number -> at_candidate i ni -> (Z.to_nat (sq + 1 - i) < fuel)%nat ->
  exists b, IsPrime_loop fuel number sq i ni = Val b /\
    (b = true <-> forall j, candidate j -> i <= j <= sq -> ~ (j | number)).
Proof.
  intros Hn. revert i ni. induction fuel as [|fuel IH]; intros i ni Hc Hf; [lia|]. cbn [IsPrime_loop].
  pose proof Hc as [Hi Hcase]. destruct (Z.leb_spec i sq) as [Hle|Hgt].
  - rewrite Z.rem_mod_nonneg by lia. destruct (Z.eqb_spec (number mod i) 0) as [Hz|Hnz].
    + exists false. split; [done|]. split; [done|]. intros Hall. exfalso. apply (Hall i); [|lia|].
      * split; [done|]. lia.
      * by apply Z.mod_divide; [lia|].
    + destruct (at_candidate_next i ni Hc) as [Hc' Hgap].
      destruct (IH (i + ni) (6 - ni) Hc') as (b & -> & Hb); [lia|]. exists b. split; [done|]. rewrite Hb.
      split; intros Hall j Hj Hr; [|apply Hall; [done|lia]].
      destruct (Z.lt_ge_cases j (i + ni)) as [Hlt|]; [|by apply Hall; [|lia]].
      assert (j = i) as -> by (specialize (Hgap j Hj Hlt); lia).
      intros Hd. by apply Z.mod_divide in Hd; [|lia].
  - exists true. split; [done|]. split; [|done]. intros _ j _ ?. lia.
Qed.

(** A number that is not prime has a divisor up to its square root. *)
Lemma small_divisor n : 1 < n -> ~ prime n -> exists d, 1 < d <= Z.sqrt n /\ (d | n).
Proof.
  intros Hn Hp. destruct (not_prime_divide n Hn Hp) as (d & Hd & [q Hq]).
  pose proof (Z.sqrt_spec n ltac:(lia)) as [Hs1 Hs2]. pose proof (Z.sqrt_nonneg n).
  assert (1 < q < n) as Hqr by nia.
  destruct (Z.le_gt_cases d (Z.sqrt n)); [exists d; split; [lia|by exists q]|].
  exists q. split; [nia|]. exists d. lia.
Qed.

Lemma not_divided_mod6 n d : ~ (2 | n) -> ~ (3 | n) -> 1 < d -> (d | n) -> candidate d.
Proof.
  intros H2 H3 Hd Hdn.
  assert (~ (2 | d)) as N2 by (intros ?; apply H2; by etransitivity).
  assert (~ (3 | d)) as N3 by (intros ?; apply H3; by etransitivity).
  pose proof (Z.div_mod d 6 ltac:(lia)) as E. pose proof (Z.mod_pos_bound d 6 ltac:(lia)).
  assert (d mod 6 <> 0) by (intros E0; apply N2; exists (3 * (d / 6)); lia).
  assert (d mod 6 <> 2) by (intros E0; apply N2; exists (3 * (d / 6) + 1); lia).
  assert (d mod 6 <> 3) by (intros E0; apply N3; exists (2 * (d / 6) + 1); lia).
  assert (d mod 6 <> 4) by (intros E0; apply N2; exists (3 * (d / 6) + 2); lia).
  split; [|lia]. assert (d <> 2) by (intros ->; done). assert (d <> 3) by (intros ->; done). lia.
Qed.

(** The number 1 counts as a prime. *)
Definition prime1 (n : Z) : Prop := n = 1 \/ prime n.

Lemma IsPrime_spec n : 0 < n < 2 ^ 32 -> exists b, IsPrime n = Val b /\ (b = true <-> prime1 n).
Proof.
  intros Hn. unfold IsPrime.
  destruct (Z.eqb_spec n 1) as [->|]; [exists true; split; [done|]; split; [by left|done]|].
  destruct (Z.eqb_spec n 2) as [->|]; [exists true; split; [done|]; split; [right; apply prime_2|done]|].
  destruct (Z.eqb_spec n 3) as [->|]; [exists true; split; [done|]; split; [right; apply prime_3|done]|].
  cbn [orb]. rewrite !Z.rem_mod_nonneg by lia.
  assert (forall d, 1 < d -> d < n -> (d | n) -> ~ prime1 n) as Hcomp.
  { intros d Hd Hdn Hdiv [?|Hp]; [lia|]. destruct (prime_divisors n Hp d Hdiv) as [?|[?|[?|?]]]; lia. }
  destruct (Z.eqb_spec (n mod 2) 0) as [H2|H2].
  { exists false. split; [done|]. split; [done|]. intros Hp. exfalso. apply (Hcomp 2); try lia; [|done].
    by apply Z.mod_divide. }
  destruct (Z.eqb_spec (n mod 3) 0) as [H3|H3].
  { exists false. split; [done|]. split; [done|]. intros Hp. exfalso. apply (Hcomp 3); try lia; [|done].
    by apply Z.mod_divide. }
  rewrite Z.mod_divide in H2, H3 by lia. rewrite FloorSqrt_ok by lia. cbn [obind].
  pose proof (Z.sqrt_nonneg n). assert (5 <= n) as Hn5 by (destruct (Z.eq_dec n 4) as [->|]; [exfalso; apply H2; by exists 2|lia]).
  pose proof (Z.sqrt_lt_lin n ltac:(lia)) as Hlt.
  destruct (IsPrime_loop_ok (S (Z.to_nat (Z.sqrt n))) n (Z.sqrt n) 5 2) as (b & -> & Hb); [lia|split; [lia|by left]|lia|].
  exists b. split; [done|]. rewrite Hb. split.
  - intros Hall. right. destruct (prime_dec n) as [?|Hnp]; [done|].
    destruct (small_divisor n ltac:(lia) Hnp) as (d & Hd & Hdn). exfalso.
    pose proof (not_divided_mod6 n d H2 H3 ltac:(lia) Hdn) as Hcd. pose proof Hcd as [? _].
    by apply (Hall d Hcd); [lia|].
  - intros Hp j [Hj _] Hr Hdiv. by apply (Hcomp j); try lia.
Qed.

(** ** The next prime *)
Lemma prime_candidate p : prime p -> 5 <= p -> candidate p.
Proof.
  intros Hp H5. apply (not_divided_mod6 p p); [..|lia|done].
  - intros H2. destruct (prime_divisors p Hp 2 H2) as [?|[?|[?|?]]]; lia.
  - intros H3. destruct (prime_divisors p Hp 3 H3) as [?|[?|[?|?]]]; lia.
Qed.

Lemma not_prime_4 : ~ prime 4.
Proof. intros Hp. destruct (prime_divisors 4 Hp 2) as [?|[?|[?|?]]]; [by exists 2|lia..]. Qed.

Lemma NextPrime_loop_ok fuel next ni q :
  at_candidate next ni -> prime q -> next <= q < 2 ^ 31 -> (Z.to_nat (q - next) < fuel)%nat ->
  exists p, NextPrime_loop fuel next ni = Val p /\ prime p /\ next <= p <= q /\
    forall j, prime j -> next <= j < p -> False.
Proof.
  intros Hc Hq. revert next ni Hc. induction fuel as [|fuel IH]; intros next ni Hc Hr Hf; [lia|].
  cbn [NextPrime_loop]. pose proof Hc as [H5 Hcase].
  destruct (IsPrime_spec next ltac:(lia)) as (b & -> & Hb). cbn [obind].
  destruct b.
  - exists next. destruct (proj1 Hb eq_refl) as [?|Hp]; [lia|]. split_and!; try done; lia.
  - assert (~ prime next) as Hnp by (intros ?; destruct Hb as [_ Hb]; discriminate Hb; by right).
    assert (next <> q) by (intros ->; done). destruct (at_candidate_next next ni Hc) as [Hc' Hgap].
    assert (forall j, prime j -> next <= j -> next + ni <= j) as Hjump.
    { intros j Hj Hle. destruct (Z.lt_ge_cases j (next + ni)) as [Hlt|]; [|done].
      specialize (Hgap j (prime_candidate j Hj ltac:(lia)) Hlt). assert (j = next) by lia. by subst. }
    pose proof (Hjump q Hq ltac:(lia)). rewrite chk_int_ok by lia. cbn [obind].
    destruct (IH (next + ni) (6 - ni) Hc') as (p & -> & Hp & Hpr & Hno); [lia|lia|].
    exists p. split_and!; [done|done|lia|lia|]. intros j Hj Hjr. apply (Hno j Hj).
    pose proof (Hjump j Hj ltac:(lia)). lia.
Qed.

(** [NextPrime n] terminates with a prime number (or 1) that is at least
    [n], and the least one, except that [n + 1] is skipped when [n] is a
    multiple of 6 - provided that some prime it can reach fits in an [int]. *)
Theorem NextPrime_least n q :
  0 < n -> prime q -> n <= q < 2 ^ 31 -> ~ (n mod 6 = 0 /\ q = n + 1) ->
  exists p fuel0, (forall fuel, (fuel0 <= fuel)%nat -> NextPrime fuel n = Val p) /\
    prime1 p /\ n <= p <= q /\
    forall j, prime1 j -> n <= j < p -> n mod 6 = 0 /\ j = n + 1.
Proof.
  intros Hn Hq Hr Hex. unfold NextPrime.
  destruct (IsPrime_spec n ltac:(lia)) as (b & -> & Hb). cbn [obind]. destruct b.
  { exists n, O. split_and!; [done|by apply Hb|lia|lia|lia]. }
  assert (~ prime1 n) as Hnp by (intros Hp; destruct Hb as [_ Hb]; discriminate (Hb Hp)).
  assert (n <> 1 /\ n <> 2 /\ n <> 3) as (? & ? & ?).
  { split_and!; intros ->; apply Hnp; [by left|right; apply prime_2|right; apply prime_3]. }
  rewrite Z.quot_div_nonneg by lia. pose proof (Z.div_mod n 6 ltac:(lia)) as Hd.
  pose proof (Z.mod_pos_bound n 6 ltac:(lia)) as Hm. set (next := 6 * (n / 6 + 1) - 1).
  assert (forall j, prime j -> n <= j -> ~ (n mod 6 = 0 /\ j = n + 1) -> next <= j) as Hbelow.
  { intros j Hj Hle Hjex. assert (j <> 4) by (intros ->; by apply not_prime_4).
    destruct (prime_candidate j Hj ltac:(lia)) as [_ Hjm].
    pose proof (Z.div_mod j 6 ltac:(lia)) as Hjd. destruct (Z.lt_ge_cases j next) as [Hlt|]; [|done].
    exfalso. unfold next in Hlt. assert (j / 6 = n / 6) as E by lia.
    assert (j <> n) by (intros ->; apply Hnp; by right). apply Hjex. lia. }
  pose proof (Hbelow q Hq ltac:(lia) Hex) as Hnq.
  destruct (NextPrime_loop_ok (S (Z.to_nat (q - next))) next 2 q) as (p & Hp & Hpp & Hpr & Hno); [|done|lia|lia|].
  { unfold next. split; [lia|]. left. split; [|done]. symmetry. apply (Z.mod_unique _ _ (n / 6)); lia. }
  exists p, (S (Z.to_nat (q - next))). split_and!.
  - intros fuel Hfuel. rewrite chk_int_ok by (unfold next in *; lia). cbn [obind]. fold next.
    destruct fuel as [|fuel]; [lia|]. cbn [NextPrime_start].
    destruct (Z.ltb_spec next n); [unfold next in *; lia|]. cbn [obind].
    destruct (NextPrime_loop_ok (S fuel) next 2 q) as (p' & E & Hpp' & Hpr' & Hno'); [|done|lia|lia|].
    { unfold next. split; [lia|]. left. split; [|done]. symmetry. apply (Z.mod_unique _ _ (n / 6)); lia. }
    rewrite E. f_equal. destruct (Z.lt_trichotomy p p') as [Hlt|[->|Hlt]]; [|done|].
    + exfalso. apply (Hno' p Hpp). lia.
    + exfalso. apply (Hno p' Hpp'). lia.
  - by right.
  - unfold next in *. lia.
  - lia.
  - intros j [->|Hj] Hjr; [lia|]. destruct (decide (n mod 6 = 0 /\ j = n + 1)) as [?|Hj2]; [done|].
    exfalso. apply (Hno j Hj). split; [|lia]. apply Hbelow; [done|lia|done].
Qed.

(** [NextPrime] does not always give the next prime: for 36 it gives 41,
    although 37 is a prime. *)
Theorem NextPrime_skips : NextPrime 10 36 = Val 41 /\ prime 37.
Proof.
  split; [vm_compute; reflexivity|]. destruct (prime_dec 37) as [?|Hn]; [done|]. exfalso.
  destruct (IsPrime_spec 37 ltac:(lia)) as (b & E & Hb). vm_compute in E. injection E as <-.
  by destruct (proj1 Hb eq_refl) as [?|?].
Qed.

Lemma prime_by_test n : 1 < n < 2 ^ 32 -> IsPrime n = Val true -> prime n.
Proof.
  intros Hn E. destruct (IsPrime_spec n ltac:(lia)) as (b & E' & Hb). rewrite E in E'. injection E' as <-.
  destruct (proj1 Hb eq_refl) as [?|?]; [lia|done].
Qed.

Lemma NextPrime_least_witness : exists p fuel0,
  (forall fuel, (fuel0 <= fuel)%nat -> NextPrime fuel 500000 = Val p) /\
  prime1 p /\ 500000 <= p <= 500009 /\
  forall j, prime1 j -> 500000 <= j < p -> 500000 mod 6 = 0 /\ j = 500000 + 1.
Proof.
  apply (NextPrime_least 500000 500009); try lia.
  apply prime_by_test; [lia|]. vm_compute. reflexivity.
Defined.
