(* ===== verification/File.v ===== *)
(** * libcom: files (libcom/include/file.h, libcom/src/file.cpp)

    The POSIX branch of [snf::file].  The operating system is a parameter: a
    type of states and the system calls the code makes.  [Regular] states what
    POSIX documents of a regular file, with short reads and writes and failures
    allowed. *)
From S2P Require Import Prelude.

(** ** Error codes (libcom/include/error.h) *)
Definition E_ok : Z := 0.
Definition E_invalid_arg : Z := -1.
Definition E_invalid_state : Z := -2.
Definition E_not_found : Z := -3.
Definition E_open_failed : Z := -4.
Definition E_close_failed : Z := -5.
Definition E_read_failed : Z := -6.
Definition E_write_failed : Z := -7.
Definition E_seek_failed : Z := -8.
Definition E_sync_failed : Z := -9.
Definition E_stat_failed : Z := -10.
Definition E_trunc_failed : Z := -11.
Definition E_lock_failed : Z := -12.
Definition E_unlock_failed : Z := -13.
Definition E_try_again : Z := -14.
Definition E_eof_detected : Z := -21.
Definition E_no_memory : Z := -22.
Definition E_insufficient_buffer : Z := -24.

(** ** The operating system *)
Inductive whence := SEEK_SET | SEEK_CUR | SEEK_END.
Inductive lock_kind := F_RDLCK | F_WRLCK | F_UNLCK.
Inductive lock_cmd := F_SETLK | F_SETLKW.

(** The access mode and the flags of [open(2)]. *)
Inductive access := O_RDONLY | O_WRONLY | O_RDWR | O_APPEND_RDWR.
Record oflags := { oa : access; O_CREAT : bool; O_EXCL : bool; O_TRUNC : bool; O_SYNC : bool }.

Record syscalls (OS : Type) := {
  sys_umask : Z -> OS -> Z * OS;
  sys_open : bytes -> oflags -> Z -> OS -> Z * OS;
  sys_read : Z -> Z -> OS -> Z * bytes * OS;     (* result and the bytes stored *)
  sys_write : Z -> bytes -> OS -> Z * OS;
  sys_lseek : Z -> Z -> whence -> OS -> Z * OS;
  sys_fsync : Z -> OS -> Z * OS;
  sys_fstat : Z -> OS -> Z * Z * OS;             (* result and st_size *)
  sys_ftruncate : Z -> Z -> OS -> Z * OS;
  sys_fcntl : Z -> lock_cmd -> lock_kind -> Z -> Z -> OS -> Z * OS;
  sys_close : Z -> OS -> Z * OS;
  sys_errno : OS -> Z;
  EINTR : Z; EACCES : Z; EAGAIN : Z }.
Arguments sys_umask {OS}. Arguments sys_open {OS}. Arguments sys_read {OS}. Arguments sys_write {OS}.
Arguments sys_lseek {OS}. Arguments sys_fsync {OS}. Arguments sys_fstat {OS}. Arguments sys_ftruncate {OS}.
Arguments sys_fcntl {OS}. Arguments sys_close {OS}. Arguments sys_errno {OS}.
Arguments EINTR {OS}. Arguments EACCES {OS}. Arguments EAGAIN {OS}.

(** ** The code *)
Definition INVALID_HANDLE_VALUE : Z := -1.

Record file := mkFile { fname : bytes; fmask : Z; fd : Z }.

Record open_flags := {
  o_read : bool; o_write : bool; o_append : bool; o_create : bool; o_truncate : bool;
  o_excl : bool; o_sync : bool }.

(** [file(fname, mask)] *)
Definition file_init (n : bytes) (m : Z) : file := {| fname := n; fmask := m; fd := INVALID_HANDLE_VALUE |}.

Inductive lock_type := shared | exclusive.

Module File.
Section file.
Context {OS : Type} (sys : syscalls OS).

(** Every method returns its code, the value of [*oserr], its other results and
    the state of the system. *)
Definition open (f : file) (flags : open_flags) (mode : Z) (os : OS) : Z * Z * file * OS :=
  let a := if o_append flags then O_APPEND_RDWR
           else if o_read flags && o_write flags then O_RDWR
           else if o_write flags then O_WRONLY else O_RDONLY in
  let fl := {| oa := a; O_CREAT := o_create flags; O_EXCL := o_excl flags;
               O_TRUNC := o_truncate flags; O_SYNC := o_sync flags |} in
  let '(omask, os) := sys_umask sys (fmask f) os in
  let '(fd, os) := sys_open sys (fname f) fl mode os in
  let f := {| fname := fname f; fmask := fmask f; fd := fd |} in
  let r := if fd =? INVALID_HANDLE_VALUE then (E_open_failed, sys_errno sys os) else (E_ok, 0) in
  let '(_, os) := sys_umask sys omask os in
  (r, f, os).

(** The loop of [read]: the bytes read so far are [buf]. *)
Fixpoint read_loop (fuel : nat) (d : Z) (toRead : Z) (buf : bytes) (os : OS)
  : outcome (Z * Z * bytes * OS) :=
  match fuel with
  | O => OutOfFuel
  | S fuel =>
      let '(n, data, os) := sys_read sys d toRead os in
      if n <? 0 then
        if negb (EINTR sys =? sys_errno sys os) then Val (E_read_failed, sys_errno sys os, buf, os)
        else if 0 <? toRead then read_loop fuel d toRead buf os else Val (E_ok, 0, buf, os)
      else if n =? 0 then Val (E_ok, 0, buf, os)
      else
        let buf := buf ++ data in
        let toRead := toRead - n in
        if 0 <? toRead then read_loop fuel d toRead buf os else Val (E_ok, 0, buf, os)
  end.

(** [read(buf, toRead, &bRead, &oserr)]; [bRead] is the length of the result. *)
Definition read (fuel : nat) (f : file) (toRead : Z) (os : OS) : outcome (Z * Z * bytes * OS) :=
  if fd f =? INVALID_HANDLE_VALUE then Val (E_invalid_state, 0, [], os)
  else if toRead <=? 0 then Val (E_invalid_arg, 0, [], os)
  else read_loop fuel (fd f) toRead [] os.

(** [write(buf, toWrite, &bWritten, &oserr)] of a buffer of [toWrite] bytes. *)
Definition write (f : file) (buf : bytes) (os : OS) : Z * Z * Z * OS :=
  if fd f =? INVALID_HANDLE_VALUE then (E_invalid_state, 0, 0, os)
  else if zlen buf <=? 0 then (E_invalid_arg, 0, 0, os)
  else
    let '(nbytes, os) := sys_write sys (fd f) buf os in
    if nbytes <? 0 then (E_write_failed, sys_errno sys os, 0, os)
    else (E_ok, 0, nbytes, os).

(** [seek(whence, offset, &newOffset, &oserr)] *)
Definition seek_whence (f : file) (w : whence) (offset : Z) (os : OS) : Z * Z * Z * OS :=
  if fd f =? INVALID_HANDLE_VALUE then (E_invalid_state, 0, -1, os)
  else if offset <? 0 then (E_invalid_arg, 0, -1, os)
  else
    let '(newOff, os) := sys_lseek sys (fd f) offset w os in
    if newOff =? -1 then (E_seek_failed, sys_errno sys os, -1, os)
    else (E_ok, 0, newOff, os).

Definition seek (f : file) (offset : Z) (os : OS) : Z * Z * OS :=
  let '(retval, oserr, newOffset, os) := seek_whence f SEEK_SET offset os in
  if retval =? E_ok then
    if negb (offset =? newOffset) then (E_seek_failed, oserr, os) else (E_ok, oserr, os)
  else (retval, oserr, os).

(** The two methods that seek first. *)
Definition read_at (fuel : nat) (f : file) (offset toRead : Z) (os : OS) : outcome (Z * Z * bytes * OS) :=
  let '(retval, oserr, os) := seek f offset os in
  if retval =? E_ok then read fuel f toRead os else Val (retval, oserr, [], os).

Definition write_at (f : file) (offset : Z) (buf : bytes) (os : OS) : Z * Z * Z * OS :=
  let '(retval, oserr, os) := seek f offset os in
  if retval =? E_ok then write f buf os else (retval, oserr, 0, os).

Definition sync (f : file) (os : OS) : Z * Z * OS :=
  if fd f =? INVALID_HANDLE_VALUE then (E_invalid_state, 0, os)
  else
    let '(r, os) := sys_fsync sys (fd f) os in
    if r <? 0 then (E_sync_failed, sys_errno sys os, os) else (E_ok, 0, os).

Definition size (f : file) (os : OS) : Z * Z * OS :=
  if fd f =? INVALID_HANDLE_VALUE then (E_invalid_state, 0, os)
  else
    let '(r, st_size, os) := sys_fstat sys (fd f) os in
    if r <? 0 then (E_stat_failed, sys_errno sys os, os) else (st_size, 0, os).

Definition truncate (f : file) (fsize : Z) (os : OS) : Z * Z * OS :=
  if fd f =? INVALID_HANDLE_VALUE then (E_invalid_state, 0, os)
  else
    let '(retval, oserr, os) := seek f fsize os in
    if retval =? E_ok then
      let '(r, os) := sys_ftruncate sys (fd f) fsize os in
      if r <? 0 then (E_trunc_failed, sys_errno sys os, os) else (r, oserr, os)
    else (retval, oserr, os).

(** The guards the three lock functions share. *)
Definition lock_args (f : file) (start len : Z) : option Z :=
  if fd f =? INVALID_HANDLE_VALUE then Some E_invalid_state
  else if start <? 0 then Some E_invalid_arg
  else if len <? 0 then Some E_invalid_arg
  else None.

Definition kind_of (t : lock_type) : lock_kind := match t with shared => F_RDLCK | exclusive => F_WRLCK end.

Fixpoint lock_loop (fuel : nat) (d : Z) (k : lock_kind) (start len : Z) (os : OS) : outcome (Z * Z * OS) :=
  match fuel with
  | O => OutOfFuel
  | S fuel =>
      let '(r, os) := sys_fcntl sys d F_SETLKW k start len os in
      if r <? 0 then
        if EINTR sys =? sys_errno sys os then lock_loop fuel d k start len os
        else Val (E_lock_failed, sys_errno sys os, os)
      else Val (E_ok, 0, os)
  end.

Definition lock (fuel : nat) (f : file) (t : lock_type) (start len : Z) (os : OS) : outcome (Z * Z * OS) :=
  match lock_args f start len with
  | Some e => Val (e, 0, os)
  | None => lock_loop fuel (fd f) (kind_of t) start len os
  end.

Fixpoint trylock_loop (fuel : nat) (d : Z) (k : lock_kind) (start len : Z) (os : OS) : outcome (Z * Z * OS) :=
  match fuel with
  | O => OutOfFuel
  | S fuel =>
      let '(r, os) := sys_fcntl sys d F_SETLK k start len os in
      if r <? 0 then
        let error := sys_errno sys os in
        if EINTR sys =? error then trylock_loop fuel d k start len os
        else if (EACCES sys =? error) || (EAGAIN sys =? error) then Val (E_try_again, error, os)
        else Val (E_lock_failed, error, os)
      else Val (E_ok, 0, os)
  end.

Definition trylock (fuel : nat) (f : file) (t : lock_type) (start len : Z) (os : OS) : outcome (Z * Z * OS) :=
  match lock_args f start len with
  | Some e => Val (e, 0, os)
  | None => trylock_loop fuel (fd f) (kind_of t) start len os
  end.

Definition unlock (f : file) (start len : Z) (os : OS) : Z * Z * OS :=
  match lock_args f start len with
  | Some e => (e, 0, os)
  | None =>
      let '(r, os) := sys_fcntl sys (fd f) F_SETLK F_UNLCK start len os in
      if r <? 0 then (E_unlock_failed, sys_errno sys os, os) else (E_ok, 0, os)
  end.

Definition close (f : file) (os : OS) : Z * Z * file * OS :=
  if negb (fd f =? INVALID_HANDLE_VALUE) then
    let '(r, os) := sys_close sys (fd f) os in
    if r <? 0 then (E_close_failed, sys_errno sys os, f, os)
    else (E_ok, 0, {| fname := fname f; fmask := fmask f; fd := INVALID_HANDLE_VALUE |}, os)
  else (E_ok, 0, f, os).
End file.
End File.
