(* ===== verification/FileLaws.v ===== *)
(** * libcom: files on a POSIX system

    What POSIX documents of the system calls on a descriptor of a regular file,
    with failures, interruptions, short reads and short writes allowed; what the
    methods of [snf::file] then return and do to the file; and a system with a
    script of faults, on which the laws hold. *)
From S2P Require Import Prelude File.

(** The file after [b] is written at [pos]: the gap before [pos] is zero. *)
Definition splice (data : bytes) (pos : nat) (b : bytes) : bytes :=
  match b with
  | [] => data
  | _ => take pos data ++ replicate (pos - length data) 0 ++ b ++ drop (pos + length b) data
  end.

(** ** The laws of a descriptor *)
Class Regular {OS : Type} (sys : syscalls OS) (d : Z) := {
  f_data : OS -> bytes;    (* the bytes of the file *)
  f_pos : OS -> nat;       (* the offset of the descriptor *)
  f_intr : OS -> nat;      (* a bound of the interruptions still to come *)
  read_law n os : 0 < n ->
    let '(r, b, os') := sys_read sys d n os in
    f_data os' = f_data os /\ (f_intr os' <= f_intr os)%nat /\
    ((r < 0 /\ (sys_errno sys os' = EINTR sys -> f_pos os' = f_pos os /\ (f_intr os' < f_intr os)%nat)) \/
     (r = zlen b /\ r <= n /\ b = take (Z.to_nat r) (drop (f_pos os) (f_data os)) /\
      (r = 0 -> drop (f_pos os) (f_data os) = []) /\ f_pos os' = (f_pos os + Z.to_nat r)%nat));
  write_law b os : b <> [] ->
    let '(r, os') := sys_write sys d b os in
    (f_intr os' <= f_intr os)%nat /\
    ((r < 0 /\ f_data os' = f_data os /\ f_pos os' = f_pos os) \/
     (0 <= r <= zlen b /\ f_data os' = splice (f_data os) (f_pos os) (take (Z.to_nat r) b) /\
      f_pos os' = (f_pos os + Z.to_nat r)%nat));
  lseek_law off os : 0 <= off ->
    let '(r, os') := sys_lseek sys d off SEEK_SET os in
    f_data os' = f_data os /\ (f_intr os' <= f_intr os)%nat /\
    ((r = -1 /\ f_pos os' = f_pos os) \/ (r = off /\ f_pos os' = Z.to_nat off));
  ftruncate_law n os : 0 <= n ->
    let '(r, os') := sys_ftruncate sys d n os in
    f_pos os' = f_pos os /\ (f_intr os' <= f_intr os)%nat /\
    ((r < 0 /\ f_data os' = f_data os) \/ (r = 0 /\ f_data os' = resize (Z.to_nat n) 0 (f_data os)));
  fstat_law os :
    let '(r, st_size, os') := sys_fstat sys d os in
    f_data os' = f_data os /\ f_pos os' = f_pos os /\ (f_intr os' <= f_intr os)%nat /\
    (r < 0 \/ st_size = zlen (f_data os)) }.

(** ** The methods *)
Section methods.
Context {OS : Type} (sys : syscalls OS) (f : file) `{!Regular sys (fd f)}.
Hypothesis Hopen : fd f <> INVALID_HANDLE_VALUE.

Lemma fd_open : (fd f =? INVALID_HANDLE_VALUE) = false.
Proof. by apply Z.eqb_neq. Qed.

Lemma seek_spec off os : 0 <= off ->
  exists r e os', File.seek sys f off os = (r, e, os') /\ f_data os' = f_data os /\
    (f_intr os' <= f_intr os)%nat /\
    (r = E_seek_failed /\ f_pos os' = f_pos os \/ r = E_ok /\ f_pos os' = Z.to_nat off).
Proof.
  intros Ho. unfold File.seek, File.seek_whence. rewrite fd_open.
  rewrite (proj2 (Z.ltb_ge off 0)) by lia.
  pose proof (lseek_law off os Ho) as H. destruct (sys_lseek _ _ _ _ _) as [r os'].
  destruct H as (Hd & Hi & [[-> Hp]|[-> Hp]]).
  - simpl. eexists _, _, _. split; [done|]. auto.
  - rewrite (proj2 (Z.eqb_neq off (-1))) by lia. simpl. rewrite Z.eqb_refl. simpl.
    eexists _, _, _. split; [done|]. auto.
Qed.

Lemma take_drop_app (l : bytes) p r n :
  (r <= n)%nat -> (r <= length (drop p l))%nat ->
  take r (drop p l) ++ take (n - r) (drop (p + r) l) = take n (drop p l).
Proof.
  intros Hr Hl. rewrite <- drop_drop. revert Hl. generalize (drop p l) as m. intros m Hl.
  rewrite <- (take_drop r m) at 3. rewrite take_app, length_take, take_take.
  f_equal; [f_equal; lia|]. do 2 f_equal. lia.
Qed.

(** The reading loop assembles short reads and restarts interrupted ones. *)
Lemma read_loop_spec fuel n buf os : 0 < n -> (f_intr os + Z.to_nat n < fuel)%nat ->
  exists r e buf' os', File.read_loop sys fuel (fd f) n buf os = Val (r, e, buf', os') /\
    f_data os' = f_data os /\ (f_intr os' <= f_intr os)%nat /\
    (r = E_read_failed \/
     r = E_ok /\ buf' = buf ++ take (Z.to_nat n) (drop (f_pos os) (f_data os)) /\
     f_pos os' = (f_pos os + (length buf' - length buf))%nat).
Proof.
  revert n buf os. induction fuel as [|fuel IH]; intros n buf os Hn Hf; [lia|]. cbn [File.read_loop].
  pose proof (read_law n os Hn) as H. destruct (sys_read _ _ _ _) as [[r b] os1].
  destruct H as (Hd & Hi & [[Hr He]|(Hr & Hrn & Hb & H0 & Hp)]).
  - rewrite (proj2 (Z.ltb_lt r 0)) by lia.
    destruct (Z.eqb_spec (EINTR sys) (sys_errno sys os1)) as [E|E]; simpl.
    + rewrite (proj2 (Z.ltb_lt 0 n)) by lia. destruct (He (eq_sym E)) as [Hp Hlt].
      destruct (IH n buf os1 Hn ltac:(lia)) as (r' & e' & b' & os2 & Hrun & Hd2 & Hi2 & Hres).
      exists r', e', b', os2. rewrite Hd, Hp in *. split; [done|]. split; [done|]. split; [lia|]. done.
    + eexists _, _, _, _. split; [done|]. auto.
  - pose proof (zlen_nonneg b). rewrite (proj2 (Z.ltb_ge r 0)) by lia.
    destruct (Z.eqb_spec r 0) as [->|Hr0].
    + eexists _, _, _, _. split; [done|]. split; [done|]. split; [done|]. right. split; [done|].
      rewrite H0, take_nil, app_nil_r by done. split; [done|]. lia.
    + assert (length b = Z.to_nat r) as Hlb by (unfold zlen in Hr; lia).
      assert ((Z.to_nat r <= length (drop (f_pos os) (f_data os)))%nat) as Hle.
      { apply (f_equal length) in Hb. rewrite length_take in Hb. lia. }
      destruct (Z.ltb_spec 0 (n - r)).
      * destruct (IH (n - r) (buf ++ b) os1 ltac:(lia) ltac:(lia)) as (r' & e' & b' & os2 & Hrun & Hd2 & Hi2 & Hres).
        exists r', e', b', os2. split; [done|]. split; [congruence|]. split; [lia|].
        destruct Hres as [?|(Hok & Hb' & Hp')]; [by left|]. right. split; [done|].
        assert (b' = buf ++ take (Z.to_nat n) (drop (f_pos os) (f_data os))) as Hbb.
        { rewrite Hb', <- app_assoc. f_equal. rewrite Hd, Hp, Hb at 1.
          rewrite <- (take_drop_app _ _ (Z.to_nat r) (Z.to_nat n)) by lia. do 2 f_equal. lia. }
        split; [done|]. rewrite Hp', Hp. rewrite Hb'. repeat rewrite length_app. rewrite Hlb. lia.
      * assert (r = n) as -> by lia. eexists _, _, _, _. split; [done|]. split; [done|]. split; [done|].
        right. split; [done|]. split; [by rewrite Hb at 1|]. rewrite Hp, length_app, Hlb. lia.
Qed.

Lemma read_spec fuel n os : 0 < n -> (f_intr os + Z.to_nat n < fuel)%nat ->
  exists r e b os', File.read sys fuel f n os = Val (r, e, b, os') /\
    f_data os' = f_data os /\ (f_intr os' <= f_intr os)%nat /\
    (r = E_read_failed \/
     r = E_ok /\ b = take (Z.to_nat n) (drop (f_pos os) (f_data os)) /\ f_pos os' = (f_pos os + length b)%nat).
Proof.
  intros Hn Hf. unfold File.read. rewrite fd_open, (proj2 (Z.leb_gt n 0)) by lia.
  destruct (read_loop_spec fuel n [] os Hn Hf) as (r & e & b & os' & H & Hd & Hi & Hres).
  exists r, e, b, os'. simpl in *. rewrite Nat.sub_0_r in Hres. auto.
Qed.

Lemma write_spec b os : b <> [] ->
  exists r e n os', File.write sys f b os = (r, e, n, os') /\ (f_intr os' <= f_intr os)%nat /\
    (r = E_write_failed /\ n = 0 /\ f_data os' = f_data os /\ f_pos os' = f_pos os \/
     r = E_ok /\ 0 <= n <= zlen b /\ f_data os' = splice (f_data os) (f_pos os) (take (Z.to_nat n) b) /\
     f_pos os' = (f_pos os + Z.to_nat n)%nat).
Proof.
  intros Hb. unfold File.write. rewrite fd_open.
  assert (0 < zlen b) by (by apply zlen_pos).
  rewrite (proj2 (Z.leb_gt (zlen b) 0)) by lia.
  pose proof (write_law b os Hb) as H1. destruct (sys_write _ _ _ _) as [r os'].
  destruct H1 as (Hi & [(Hr & Hd & Hp)|(Hr & Hd & Hp)]).
  - rewrite (proj2 (Z.ltb_lt r 0)) by lia. eexists _, _, _, _. split; [done|]. auto 10.
  - rewrite (proj2 (Z.ltb_ge r 0)) by lia. eexists _, _, _, _. split; [done|]. auto 10.
Qed.

Lemma truncate_spec n os : 0 <= n ->
  exists r e os', File.truncate sys f n os = (r, e, os') /\ (f_intr os' <= f_intr os)%nat /\
    (r < 0 /\ f_data os' = f_data os \/
     r = E_ok /\ f_data os' = resize (Z.to_nat n) 0 (f_data os) /\ f_pos os' = Z.to_nat n).
Proof.
  intros Hn. unfold File.truncate. rewrite fd_open.
  destruct (seek_spec n os Hn) as (r & e & os1 & -> & Hd & Hi & [[-> Hp]|[-> Hp]]); simpl.
  - eexists _, _, _. split; [done|]. split; [done|]. by left.
  - pose proof (ftruncate_law n os1 Hn) as H. destruct (sys_ftruncate _ _ _ _) as [r os2].
    destruct H as (Hp2 & Hi2 & [[Hr Hd2]|[-> Hd2]]).
    + rewrite (proj2 (Z.ltb_lt r 0)) by lia. eexists _, _, _. split; [done|].
      split; [lia|]. left. split; [done|congruence].
    + simpl. eexists _, _, _. split; [done|]. split; [lia|]. right. rewrite Hd2, Hd, Hp2, Hp. auto.
Qed.
Lemma read_at_code fuel off n os : 0 <= off -> 0 < n -> (f_intr os + Z.to_nat n < fuel)%nat ->
  exists r e b os', File.read_at sys fuel f off n os = Val (r, e, b, os') /\ f_data os' = f_data os /\
    ((r = E_seek_failed \/ r = E_read_failed) \/
     r = E_ok /\ b = take (Z.to_nat n) (drop (Z.to_nat off) (f_data os))).
Proof.
  intros Hoff Hn Hfuel. unfold File.read_at.
  destruct (seek_spec off os Hoff) as (r & e & os1 & -> & Hd & Hi & [[-> Hp]|[-> Hp]]); simpl.
  { eexists _, _, _, _. split; [done|]. auto. }
  destruct (read_spec fuel n os1 Hn ltac:(lia)) as (r & e' & b & os2 & -> & Hd2 & Hi2 & Hres).
  eexists _, _, _, _. split; [done|]. split; [congruence|].
  destruct Hres as [->|(-> & -> & _)]; [auto|]. rewrite Hd, Hp. auto.
Qed.
End methods.

Lemma splice_length data pos b :
  b <> [] -> length (splice data pos b) = Nat.max (length data) (pos + length b).
Proof.
  intros. destruct b as [|x b]; [done|]. unfold splice.
  repeat rewrite length_app. rewrite length_take, length_replicate, length_drop. simpl. lia.
Qed.

(** What was written is what is read at the same place. *)
Lemma splice_read data pos b : take (length b) (drop pos (splice data pos b)) = b.
Proof.
  destruct b as [|x b]; [by rewrite take_0|]. unfold splice.
  rewrite app_assoc, drop_app_length', take_app_length' by
    (rewrite ?length_app, ?length_take, ?length_replicate; lia). done.
Qed.

(** A place the write does not reach keeps its bytes. *)
Lemma splice_other data pos b p n :
  (p + n <= pos)%nat -> (p + n <= length data)%nat ->
  take n (drop p (splice data pos b)) = take n (drop p data).
Proof.
  intros H1 H2. destruct b as [|x b]; [done|]. unfold splice.
  rewrite drop_app_le by (rewrite length_take; lia).
  rewrite take_app_le by (rewrite length_drop, length_take; lia).
  rewrite skipn_firstn_comm, take_take. f_equal. lia.
Qed.

Lemma splice_other_after data pos b p n :
  (pos + length b <= p)%nat ->
  (pos <= length data)%nat ->
  take n (drop p (splice data pos b)) = take n (drop p data).
Proof.
  intros H1 H2. destruct b as [|x b]; [done|]. unfold splice. rewrite app_assoc.
  rewrite drop_app_ge by (rewrite length_app, length_take, length_replicate; simpl in *; lia).
  rewrite length_app, length_take, length_replicate.
  rewrite drop_app_ge by (simpl in *; lia). rewrite drop_drop.
  do 2 f_equal. simpl in *. lia.
Qed.

(** An append. *)
Lemma splice_end data b : splice data (length data) b = data ++ b.
Proof.
  destruct b as [|x b]; [by rewrite app_nil_r|]. unfold splice.
  rewrite take_ge, Nat.sub_diag, drop_ge by lia. by rewrite app_nil_r.
Qed.

(** ** Bytes at an offset *)
Definition bytes_at (data : bytes) (off : Z) (b : bytes) : Prop := take (length b) (drop (Z.to_nat off) data) = b.

Lemma bytes_at_splice data off b : bytes_at (splice data (Z.to_nat off) b) off b.
Proof. unfold bytes_at. apply splice_read. Qed.

Lemma bytes_at_len data off b : bytes_at data off b -> b <> [] -> (Z.to_nat off + length b <= length data)%nat.
Proof.
  intros H Hb. apply (f_equal length) in H. rewrite length_take, length_drop in H.
  assert (0 < length b)%nat by (destruct b; [done|simpl; lia]). lia.
Qed.

(** A write of [c] at [o] does not reach [b] at [off]. *)
Lemma bytes_at_other data off b o c : bytes_at data off b -> b <> [] -> 0 <= off -> 0 <= o ->
  (off + zlen b <= o \/ (o + zlen c <= off)) -> bytes_at (splice data (Z.to_nat o) c) off b.
Proof.
  intros H Hb Ho1 Ho2 Hd. pose proof (bytes_at_len _ _ _ H Hb) as Hl. unfold bytes_at in *. unfold zlen in Hd.
  rewrite <- H at 2. destruct Hd as [Hd|Hd].
  - apply splice_other; lia.
  - destruct c as [|x c]; [done|]. apply splice_other_after; lia.
Qed.

(** A field is overwritten. *)
Lemma bytes_at_field data off a x y c : 0 <= off -> bytes_at data off (a ++ x ++ c) -> length y = length x -> y <> [] ->
  bytes_at (splice data (Z.to_nat (off + zlen a)) y) off (a ++ y ++ c).
Proof.
  intros Ho H Hl Hy.
  assert (Z.to_nat (off + zlen a) = (Z.to_nat off + length a)%nat) as -> by (unfold zlen; lia).
  assert (0 < length y)%nat by (destruct y; [done|simpl; lia]).
  assert (a ++ x ++ c <> []) as Hne by (destruct a, x; simpl in *; done || lia).
  pose proof (bytes_at_len _ _ _ H Hne) as Hlen. unfold bytes_at in *.
  assert (length (take (Z.to_nat off) data) = Z.to_nat off) as Hpre by (rewrite length_take; lia).
  assert (data = take (Z.to_nat off) data ++ (a ++ x ++ c) ++ drop (length (a ++ x ++ c)) (drop (Z.to_nat off) data)) as ->.
  { rewrite <- H at 1. by rewrite !take_drop. }
  revert Hpre. generalize (drop (length (a ++ x ++ c)) (drop (Z.to_nat off) data)) as post.
  generalize (take (Z.to_nat off) data) as pre. intros pre post Hpre.
  destruct y as [|y0 y]; [done|]. unfold splice.
  assert (Z.to_nat off + length a - length (pre ++ (a ++ x ++ c) ++ post) = 0)%nat as -> by (repeat rewrite length_app; lia).
  assert (take (Z.to_nat off + length a) (pre ++ (a ++ x ++ c) ++ post) = pre ++ a) as ->.
  { rewrite <- !app_assoc, (app_assoc pre a). apply take_app_length'. rewrite length_app. lia. }
  assert (drop (Z.to_nat off + length a + length (y0 :: y)) (pre ++ (a ++ x ++ c) ++ post) = c ++ post) as ->.
  { rewrite <- !app_assoc, (app_assoc pre a), (app_assoc (pre ++ a) x). apply drop_app_length'.
    rewrite !length_app. lia. }
  simpl replicate. rewrite app_nil_l, <- app_assoc, drop_app_length' by done.
  replace (a ++ (y0 :: y) ++ c ++ post) with ((a ++ (y0 :: y) ++ c) ++ post) by (by rewrite <- !app_assoc).
  by apply take_app_length'.
Qed.

(** ** A system with a script of faults

    One descriptor, one file.  Every call takes the head of the script: [Fine],
    [Failing] with the given errno, or [Short], which moves at most the given
    number of bytes (at least one).  After the script, calls succeed. *)
Inductive fault := Fine | Failing (e : Z) | Short (n : nat).

Record script := { s_data : bytes; s_pos : nat; s_mask : Z; s_errno : Z; s_next : list fault }.

Definition s_tick (s : script) : fault * script :=
  match s_next s with
  | [] => (Fine, s)
  | a :: l => (a, {| s_data := s_data s; s_pos := s_pos s; s_mask := s_mask s; s_errno := s_errno s; s_next := l |})
  end.
Definition s_fail (e : Z) (s : script) : script :=
  {| s_data := s_data s; s_pos := s_pos s; s_mask := s_mask s; s_errno := e; s_next := s_next s |}.
Definition s_put (data : bytes) (pos : nat) (s : script) : script :=
  {| s_data := data; s_pos := pos; s_mask := s_mask s; s_errno := s_errno s; s_next := s_next s |}.
Definition s_move (a : fault) (b : bytes) : bytes := match a with Short n => take (S n) b | _ => b end.

(** A call that fails or goes on. *)
Definition s_call {A} (bad : A) (s : script) (k : fault -> script -> A * script) : A * script :=
  let '(a, s) := s_tick s in
  match a with Failing e => (bad, s_fail e s) | _ => k a s end.

Definition script_sys : syscalls script := {|
  sys_umask m s := (s_mask s, {| s_data := s_data s; s_pos := s_pos s; s_mask := m; s_errno := s_errno s; s_next := s_next s |});
  sys_open _ fl _ s := s_call (-1) s (fun _ s => (3, s_put (if O_TRUNC fl then [] else s_data s) 0 s));
  sys_read _ n s := s_call (-1, []) s (fun a s =>
    let b := s_move a (take (Z.to_nat n) (drop (s_pos s) (s_data s))) in
    (zlen b, b, s_put (s_data s) (s_pos s + length b) s));
  sys_write _ b s := s_call (-1) s (fun a s =>
    let b := s_move a b in
    (zlen b, s_put (splice (s_data s) (s_pos s) b) (s_pos s + length b) s));
  sys_lseek _ off w s := s_call (-1) s (fun _ s =>
    let n := match w with SEEK_SET => off | SEEK_CUR => Z.of_nat (s_pos s) + off | SEEK_END => zlen (s_data s) + off end in
    (n, s_put (s_data s) (Z.to_nat n) s));
  sys_fsync _ s := s_call (-1) s (fun _ s => (0, s));
  sys_fstat _ s := s_call (-1, 0) s (fun _ s => (0, zlen (s_data s), s));
  sys_ftruncate _ n s := s_call (-1) s (fun _ s => (0, s_put (resize (Z.to_nat n) 0 (s_data s)) (s_pos s) s));
  sys_fcntl _ _ _ _ _ s := s_call (-1) s (fun _ s => (0, s));
  sys_close _ s := s_call (-1) s (fun _ s => (0, s));
  sys_errno := s_errno;
  EINTR := 4; EACCES := 13; EAGAIN := 11 |}.

Definition script_init (data : bytes) (l : list fault) : script :=
  {| s_data := data; s_pos := 0; s_mask := 18; s_errno := 0; s_next := l |}.
Definition script_intr (s : script) : nat := length (s_next s).

Lemma s_move_prefix a (b : bytes) : exists n, s_move a b = take n b /\ (b = [] \/ (0 < n)%nat).
Proof.
  destruct a as [|e|n].
  - exists (S (length b)). simpl s_move. split; [by rewrite take_ge by lia|lia].
  - exists (S (length b)). simpl s_move. split; [by rewrite take_ge by lia|lia].
  - exists (S n). split; [done|lia].
Qed.

Lemma s_tick_spec s a s' : s_tick s = (a, s') ->
  s_data s' = s_data s /\ s_pos s' = s_pos s /\ s_mask s' = s_mask s /\
  (script_intr s' <= script_intr s)%nat /\
  (forall e, a = Failing e -> (script_intr s' < script_intr s)%nat).
Proof.
  unfold s_tick, script_intr. destruct s as [d p m e [|x l]]; simpl; intros [= <- <-]; simpl.
  - repeat split; [lia|done].
  - repeat split; [lia|]. intros. lia.
Qed.

Lemma take_own_length {A} n (l : list A) : take (length (take n l)) l = take n l.
Proof.
  rewrite length_take. destruct (Nat.min_spec n (length l)) as [[? ->]|[? ->]]; [done|].
  by repeat rewrite take_ge by lia.
Qed.

#[export] Program Instance script_regular d : Regular script_sys d :=
  {| f_data := s_data; f_pos := s_pos; f_intr := script_intr |}.
Next Obligation.
  intros d n os Hn. simpl. unfold s_call. destruct (s_tick os) as [a s] eqn:E.
  destruct (s_tick_spec _ _ _ E) as (Hd & Hp & _ & Hi & Hlt).
  assert (forall a0 s0, s0 = s ->
    let b := s_move a0 (take (Z.to_nat n) (drop (s_pos s0) (s_data s0))) in
    zlen b = zlen b /\ zlen b <= n /\ b = take (Z.to_nat (zlen b)) (drop (s_pos os) (s_data os)) /\
    (zlen b = 0 -> drop (s_pos os) (s_data os) = []) /\ (s_pos s0 + length b = s_pos os + Z.to_nat (zlen b))%nat) as Hok.
  { intros a0 s0 -> b. subst b. rewrite Hd, Hp.
    destruct (s_move_prefix a0 (take (Z.to_nat n) (drop (s_pos os) (s_data os)))) as (m & -> & Hm).
    unfold zlen. rewrite Nat2Z.id. rewrite take_take.
    split; [done|]. split; [rewrite length_take; lia|].
    split; [by rewrite take_own_length|].
    split; [|lia].
    intros H0. destruct Hm as [H1|Hm].
    - apply (f_equal length) in H1. rewrite length_take in H1. apply length_zero_iff_nil. simpl in H1. lia.
    - rewrite length_take in H0. apply length_zero_iff_nil. lia. }
  destruct a as [|e|k]; simpl.
  - split; [done|]. split; [done|]. right. apply (Hok Fine s eq_refl).
  - split; [done|]. split; [done|]. left. split; [lia|]. intros. split; [done|]. by apply (Hlt e).
  - split; [done|]. split; [done|]. right. apply (Hok (Short k) s eq_refl).
Qed.
Next Obligation.
  intros d b os Hb. simpl. unfold s_call. destruct (s_tick os) as [a s] eqn:E.
  destruct (s_tick_spec _ _ _ E) as (Hd & Hp & _ & Hi & Hlt).
  assert (forall a0, let b' := s_move a0 b in
    0 <= zlen b' <= zlen b /\ splice (s_data s) (s_pos s) b' = splice (s_data os) (s_pos os) (take (Z.to_nat (zlen b')) b) /\
    (s_pos s + length b' = s_pos os + Z.to_nat (zlen b'))%nat) as Hok.
  { intros a0 b'. destruct (s_move_prefix a0 b) as (m & Hm & _). unfold zlen. rewrite Nat2Z.id, Hd, Hp.
    subst b'. rewrite Hm, take_own_length. rewrite length_take. split; [lia|done]. }
  destruct a as [|e|k]; simpl.
  - split; [done|]. right. apply (Hok Fine).
  - split; [done|]. left. done.
  - split; [done|]. right. apply (Hok (Short k)).
Qed.
Next Obligation.
  intros d off os Ho. simpl. unfold s_call. destruct (s_tick os) as [a s] eqn:E.
  destruct (s_tick_spec _ _ _ E) as (Hd & Hp & _ & Hi & Hlt).
  destruct a as [|e|k]; simpl; (split; [done|]); (split; [done|]); auto.
Qed.
Next Obligation.
  intros d n os Hn. simpl. unfold s_call. destruct (s_tick os) as [a s] eqn:E.
  destruct (s_tick_spec _ _ _ E) as (Hd & Hp & _ & Hi & Hlt).
  destruct a as [|e|k]; simpl; (split; [done|]); (split; [done|]); rewrite ?Hd;
    solve [by left|by right].
Qed.
Next Obligation.
  intros d os. simpl. unfold s_call. destruct (s_tick os) as [a s] eqn:E.
  destruct (s_tick_spec _ _ _ E) as (Hd & Hp & _ & Hi & Hlt).
  destruct a as [|e|k]; simpl; (split; [done|]); (split; [done|]); (split; [done|]); try (by left); right; congruence.
Qed.

(** ** What the methods promise *)

(** Reading [n] bytes at [off] never changes the file and always returns
    (given fuel for the bytes and the interruptions): it fails to seek or to
    read, or it returns exactly the [n] bytes at [off], fewer only at the end of
    the file, however the system splits or interrupts the calls. *)
Theorem read_at_reads {OS} (sys : syscalls OS) f `{!Regular sys (fd f)} fuel off n os
  (Hopen : fd f <> INVALID_HANDLE_VALUE) (Hoff : 0 <= off) (Hn : 0 < n)
  (Hfuel : (f_intr os + Z.to_nat n < fuel)%nat) :
  exists r e b os', File.read_at sys fuel f off n os = Val (r, e, b, os') /\ f_data os' = f_data os /\
    ((r = E_seek_failed \/ r = E_read_failed) \/
     r = E_ok /\ b = take (Z.to_nat n) (drop (Z.to_nat off) (f_data os))).
Proof. by apply read_at_code. Qed.

Definition demo_file : file := {| fname := bytes_of "f"; fmask := 18; fd := 3 |}.
Definition demo_script : script := script_init (bytes_of "abcdefgh") [Fine; Short 1; Failing 4; Short 0].

Lemma read_at_reads_witness :
  fd demo_file <> INVALID_HANDLE_VALUE /\ 0 <= 2 /\ 0 < 5 /\ (f_intr (sys:=script_sys) (d:=3) demo_script + 5 < 20)%nat /\
  exists r e b os', File.read_at script_sys 20 demo_file 2 5 demo_script = Val (r, e, b, os') /\
    f_data (sys:=script_sys) (d:=3) os' = f_data (sys:=script_sys) (d:=3) demo_script /\
    ((r = E_seek_failed \/ r = E_read_failed) \/
     r = E_ok /\ b = take (Z.to_nat 5) (drop (Z.to_nat 2) (f_data (sys:=script_sys) (d:=3) demo_script))).
Proof.
  split; [done|]. split; [lia|]. split; [lia|]. split; [vm_compute; lia|].
  apply (read_at_reads script_sys demo_file 20 2 5 demo_script); [done|lia|lia|vm_compute; lia].
Defined.

(** The script of the witness is not a failing one. *)
Example read_at_short_reads :
  option_map (fun '(r, _, b, _) => (r, b))
    (match File.read_at script_sys 20 demo_file 2 5 demo_script with Val x => Some x | _ => None end)
  = Some (E_ok, bytes_of "cdefg").
Proof. reflexivity. Qed.

(** A write at [off] that reports all of [b] written makes the bytes at
    [off] be [b]: reading them back returns [b] or an error, and every range
    that the write does not touch keeps its bytes. *)
Theorem write_then_read {OS} (sys : syscalls OS) f `{!Regular sys (fd f)} fuel off b os e os1
  (Hopen : fd f <> INVALID_HANDLE_VALUE) (Hoff : 0 <= off) (Hb : b <> [])
  (Hw : File.write_at sys f off b os = (E_ok, e, zlen b, os1))
  (Hfuel : (f_intr os1 + length b < fuel)%nat) :
  (exists r e' b' os2, File.read_at sys fuel f off (zlen b) os1 = Val (r, e', b', os2) /\
     (r = E_ok -> b' = b)) /\
  (forall p n, (p + n <= Z.to_nat off)%nat -> (p + n <= length (f_data os))%nat ->
     take n (drop p (f_data os1)) = take n (drop p (f_data os))).
Proof.
  assert (f_data os1 = splice (f_data os) (Z.to_nat off) b) as Hd1.
  { revert Hw. unfold File.write_at.
    destruct (seek_spec sys f Hopen off os Hoff) as (r & ? & os0 & -> & Hd & Hi & [[-> Hp]|[-> Hp]]); simpl; [done|].
    destruct (write_spec sys f Hopen b os0 Hb) as (r & ? & m & os2 & -> & Hi2 & [(-> & _)|(-> & Hm & Hd2 & Hp2)]); [done|].
    intros [= _ -> ->]. rewrite Hd2, Hd, Hp. unfold zlen. by rewrite Nat2Z.id, take_ge by lia. }
  split.
  - destruct (read_at_code sys f Hopen fuel off (zlen b) os1 Hoff) as (r & e' & b' & os2 & -> & _ & Hres).
    { destruct b; [done|rewrite zlen_cons; pose proof (zlen_nonneg b); lia]. }
    { unfold zlen. by rewrite Nat2Z.id. }
    eexists _, _, _, _. split; [done|]. intros ->. destruct Hres as [[|]|[_ ->]]; [done|done|].
    unfold zlen. rewrite Nat2Z.id, Hd1. apply splice_read.
  - intros p n H1 H2. rewrite Hd1. by apply splice_other.
Qed.

Definition demo_written : script :=
  match File.write_at script_sys demo_file 2 (bytes_of "XY") demo_script with (_, _, _, os) => os end.

Lemma write_then_read_witness :
  File.write_at script_sys demo_file 2 (bytes_of "XY") demo_script = (E_ok, 0, zlen (bytes_of "XY"), demo_written) /\
  ((exists r e' b' os2, File.read_at script_sys 20 demo_file 2 (zlen (bytes_of "XY")) demo_written = Val (r, e', b', os2) /\
     (r = E_ok -> b' = bytes_of "XY")) /\
   (forall p n, (p + n <= Z.to_nat 2)%nat -> (p + n <= length (f_data (sys:=script_sys) (d:=3) demo_script))%nat ->
     take n (drop p (f_data (sys:=script_sys) (d:=3) demo_written)) = take n (drop p (f_data (sys:=script_sys) (d:=3) demo_script)))).
Proof.
  split; [vm_compute; reflexivity|].
  apply (write_then_read script_sys demo_file 20 2 (bytes_of "XY") demo_script 0 demo_written);
    [done|lia|done|vm_compute; reflexivity|vm_compute; lia].
Defined.

(** On a file that is not open every operation returns [E_invalid_state]
    (closing it is harmless) and no system call is made. *)
Theorem closed_file {OS} (sys : syscalls OS) f os (Hc : fd f = INVALID_HANDLE_VALUE) :
  (forall fuel n, File.read sys fuel f n os = Val (E_invalid_state, 0, [], os)) /\
  (forall fuel off n, File.read_at sys fuel f off n os = Val (E_invalid_state, 0, [], os)) /\
  (forall b, File.write sys f b os = (E_invalid_state, 0, 0, os)) /\
  (forall off b, File.write_at sys f off b os = (E_invalid_state, 0, 0, os)) /\
  (forall w off, File.seek_whence sys f w off os = (E_invalid_state, 0, -1, os)) /\
  (forall off, File.seek sys f off os = (E_invalid_state, 0, os)) /\
  File.sync sys f os = (E_invalid_state, 0, os) /\
  File.size sys f os = (E_invalid_state, 0, os) /\
  (forall n, File.truncate sys f n os = (E_invalid_state, 0, os)) /\
  (forall fuel t a n, File.lock sys fuel f t a n os = Val (E_invalid_state, 0, os)) /\
  (forall fuel t a n, File.trylock sys fuel f t a n os = Val (E_invalid_state, 0, os)) /\
  (forall a n, File.unlock sys f a n os = (E_invalid_state, 0, os)) /\
  File.close sys f os = (E_ok, 0, f, os).
Proof.
  unfold File.read_at, File.write_at, File.seek, File.truncate, File.lock, File.trylock, File.unlock, File.lock_args,
    File.read, File.write, File.seek_whence, File.sync, File.size, File.close. rewrite Hc.
  repeat split.
Qed.

Lemma closed_file_witness :
  fd (file_init (bytes_of "f") 18) = INVALID_HANDLE_VALUE /\
  File.sync script_sys (file_init (bytes_of "f") 18) demo_script = (E_invalid_state, 0, demo_script).
Proof.
  split; [reflexivity|].
  apply (closed_file script_sys (file_init (bytes_of "f") 18) demo_script). reflexivity.
Defined.

(** Opening a file applies the file's umask to the creation and leaves the
    process with the umask it had, whether or not the open succeeds. *)
Theorem open_restores_umask {OS} (sys : syscalls OS) (mask : OS -> Z) f fl mode os
  (Humask : forall m os, (sys_umask sys m os).1 = mask os /\ mask (sys_umask sys m os).2 = m)
  (Hopen : forall n a m os, mask (sys_open sys n a m os).2 = mask os) :
  let '(r, e, f', os') := File.open sys f fl mode os in
  mask os' = mask os /\ fmask f' = fmask f /\ fname f' = fname f /\
  (r = E_ok <-> fd f' <> INVALID_HANDLE_VALUE) /\
  exists os1 a, mask os1 = fmask f /\ (sys_open sys (fname f) a mode os1).1 = fd f'.
Proof.
  unfold File.open. destruct (sys_umask sys (fmask f) os) as [om os1] eqn:E1.
  pose proof (Humask (fmask f) os) as [Ho1 Ho2]. rewrite E1 in Ho1, Ho2. simpl in *. subst om.
  match goal with |- context [sys_open sys ?n ?a ?m ?o] => set (fl' := a); destruct (sys_open sys n fl' m o) as [d os2] eqn:E2 end.
  pose proof (Hopen (fname f) fl' mode os1) as Hm. rewrite E2 in Hm. simpl in Hm.
  destruct (sys_umask sys (mask os) os2) as [om os3] eqn:E3.
  pose proof (Humask (mask os) os2) as [_ H3]. rewrite E3 in H3. simpl in H3.
  destruct (Z.eqb_spec d INVALID_HANDLE_VALUE) as [->|Hd]; simpl;
    (split; [done|]); (split; [done|]); (split; [done|]); (split; [by split|]); exists os1, fl'; by rewrite E2.
Qed.

Definition open_create : open_flags :=
  {| o_read := true; o_write := true; o_append := false; o_create := true; o_truncate := false; o_excl := false; o_sync := false |}.

Lemma open_restores_umask_witness :
  (forall m os, (sys_umask script_sys m os).1 = s_mask os /\ s_mask (sys_umask script_sys m os).2 = m) /\
  let '(r, e, f', os') := File.open script_sys (file_init (bytes_of "f") 63) open_create 384 demo_script in
  s_mask os' = s_mask demo_script /\ fmask f' = 63 /\ fname f' = bytes_of "f" /\
  (r = E_ok <-> fd f' <> INVALID_HANDLE_VALUE) /\
  exists os1 a, s_mask os1 = 63 /\ (sys_open script_sys (bytes_of "f") a 384 os1).1 = fd f'.
Proof.
  split; [done|].
  apply (open_restores_umask script_sys s_mask (file_init (bytes_of "f") 63) open_create 384 demo_script); [done|].
  intros n a m os. simpl. unfold s_call, s_tick. by destruct (s_next os) as [|[] ?].
Defined.

(** With finitely many interruptions [trylock] returns: [E_ok] when the
    lock is granted, [E_try_again] exactly when the refusal says that another
    process holds it (EACCES or EAGAIN), and [E_lock_failed] otherwise; it never
    waits ([F_SETLKW] is not used). *)
Theorem trylock_returns {OS} (sys : syscalls OS) (intr : OS -> nat) f fuel t start len os
  (Hopen : fd f <> INVALID_HANDLE_VALUE) (Hs : 0 <= start) (Hl : 0 <= len)
  (Hfcntl : forall k os, let '(r, os') := sys_fcntl sys (fd f) F_SETLK k start len os in
    r < 0 -> sys_errno sys os' = EINTR sys -> (intr os' < intr os)%nat)
  (Hfuel : (intr os < fuel)%nat) :
  exists r os0 os', File.trylock sys fuel f t start len os = Val (r, (if r =? E_ok then 0 else sys_errno sys os'), os') /\
    sys_fcntl sys (fd f) F_SETLK (File.kind_of t) start len os0 =
      ((sys_fcntl sys (fd f) F_SETLK (File.kind_of t) start len os0).1, os') /\
    (r = E_ok <-> 0 <= (sys_fcntl sys (fd f) F_SETLK (File.kind_of t) start len os0).1) /\
    (r = E_try_again <-> (sys_fcntl sys (fd f) F_SETLK (File.kind_of t) start len os0).1 < 0 /\
       (sys_errno sys os' = EACCES sys \/ sys_errno sys os' = EAGAIN sys)) /\
    (r = E_ok \/ r = E_try_again \/ r = E_lock_failed).
Proof.
  unfold File.trylock, File.lock_args.
  rewrite (proj2 (Z.eqb_neq _ _) Hopen), (proj2 (Z.ltb_ge start 0)), (proj2 (Z.ltb_ge len 0)) by lia.
  revert os Hfuel. induction fuel as [|fuel IH]; intros os Hf; [lia|]. cbn [File.trylock_loop].
  pose proof (Hfcntl (File.kind_of t) os) as H. destruct (sys_fcntl _ _ _ _ _ _ _) as [r os'] eqn:E.
  destruct (Z.ltb_spec r 0) as [Hr|Hr]; [|exists E_ok, os, os'; rewrite E; simpl; naive_solver lia].
  destruct (Z.eqb_spec (EINTR sys) (sys_errno sys os')) as [Ei|Ei]; [apply IH; specialize (H Hr (eq_sym Ei)); lia|].
  destruct (Z.eqb_spec (EACCES sys) (sys_errno sys os')) as [Ea|Ea]; simpl.
  { exists E_try_again, os, os'. rewrite E. simpl. naive_solver lia. }
  destruct (Z.eqb_spec (EAGAIN sys) (sys_errno sys os')) as [Ea'|Ea']; simpl.
  { exists E_try_again, os, os'. rewrite E. simpl. naive_solver lia. }
  exists E_lock_failed, os, os'. rewrite E. simpl. naive_solver lia.
Qed.

Lemma trylock_returns_witness :
  exists r os0 os', File.trylock script_sys 9 demo_file shared 0 8 (script_init [] [Failing 4; Failing 11]) =
      Val (r, (if r =? E_ok then 0 else s_errno os'), os') /\
    sys_fcntl script_sys 3 F_SETLK F_RDLCK 0 8 os0 = ((sys_fcntl script_sys 3 F_SETLK F_RDLCK 0 8 os0).1, os') /\
    (r = E_ok <-> 0 <= (sys_fcntl script_sys 3 F_SETLK F_RDLCK 0 8 os0).1) /\
    (r = E_try_again <-> (sys_fcntl script_sys 3 F_SETLK F_RDLCK 0 8 os0).1 < 0 /\ (s_errno os' = 13 \/ s_errno os' = 11)) /\
    (r = E_ok \/ r = E_try_again \/ r = E_lock_failed).
Proof.
  apply (trylock_returns script_sys script_intr demo_file 9 shared 0 8); [done|lia|lia| |vm_compute; lia].
  intros k os. simpl. unfold s_call, s_tick, script_intr. destruct os as [d p m e [|[] l]]; simpl; lia.
Defined.

Example trylock_busy :
  File.trylock script_sys 9 demo_file shared 0 8 (script_init [] [Failing 4; Failing 11]) =
  Val (E_try_again, 11, s_fail 11 (s_fail 4 (script_init [] []))).
Proof. reflexivity. Qed.
