(* ===== verification/FdpMgr.v ===== *)
(** * librdb: free disk pages (librdb/include/fdpmgr.h, librdb/src/fdpmgr.cpp)

    [FreeDiskPageMgr]: a stack of offsets of free pages, persisted as eight
    bytes each in a file when there is one.  The head of the list is the top of
    the stack. *)
From S2P Require Import Prelude Bytes File FileLaws.

Record fdpmgr := {
  pageSize : Z;
  nextFreeOffset : list Z;
  fdp_file : option file;
  fsize : Z }.

(** [FreeDiskPageMgr(pageSize, file)] *)
Definition fdp_new (ps : Z) (f : option file) : fdpmgr :=
  {| pageSize := ps; nextFreeOffset := []; fdp_file := f; fsize := 0 |}.

Module FdpMgr.
Definition with_stack (m : fdpmgr) (s : list Z) : fdpmgr :=
  {| pageSize := pageSize m; nextFreeOffset := s; fdp_file := fdp_file m; fsize := fsize m |}.
Definition with_fsize (m : fdpmgr) (n : Z) : fdpmgr :=
  {| pageSize := pageSize m; nextFreeOffset := nextFreeOffset m; fdp_file := fdp_file m; fsize := n |}.

Section fdpmgr.
Context {OS : Type} (sys : syscalls OS).

Definition addOffsetToFile (m : fdpmgr) (offset : Z) (os : OS) : Z * fdpmgr * OS :=
  match fdp_file m with
  | None => (E_ok, m, os)
  | Some file =>
      let '(retval, _, bWritten, os) := File.write sys file (le 8 offset) os in
      if negb (retval =? E_ok) then (retval, m, os)
      else if negb (bWritten =? 8) then (E_write_failed, m, os)
      else (retval, with_fsize m (fsize m + 8), os)
  end.

Definition removeOffsetFromFile (m : fdpmgr) (os : OS) : Z * fdpmgr * OS :=
  match fdp_file m with
  | None => (0, m, os)
  | Some file =>
      let m1 := with_fsize m (fsize m - 8) in
      let '(retval, _, os) := File.truncate sys file (fsize m1) os in
      if negb (retval =? E_ok) then (retval, with_fsize m1 (fsize m1 + 8), os) else (retval, m1, os)
  end.

(** The loop of [init], with the value [retval] has when it ends. *)
Fixpoint init_loop (fuel rfuel : nat) (file : file) (m : fdpmgr) (os : OS) : outcome (Z * fdpmgr * OS) :=
  match fuel with
  | O => OutOfFuel
  | S fuel =>
      let* (retval, _, buf, os) := File.read sys rfuel file 8 os in
      if negb (retval =? E_ok) then Val (retval, m, os)
      else if zlen buf =? 0 then Val (E_eof_detected, m, os)
      else if negb (zlen buf =? 8) then Val (E_write_failed, m, os)
      else
        let m := with_fsize m (fsize m + zlen buf) in
        init_loop fuel rfuel file (with_stack m (sle buf :: nextFreeOffset m)) os
  end.

Definition init (fuel rfuel : nat) (m : fdpmgr) (os : OS) : outcome (Z * fdpmgr * OS) :=
  match fdp_file m with
  | None => Val (E_ok, m, os)
  | Some file =>
      let '(retval, _, os) := File.seek sys file 0 os in
      if negb (retval =? E_ok) then Val (retval, m, os)
      else
        let* (retval, m, os) := init_loop fuel rfuel file m os in
        Val (if negb (retval =? E_eof_detected) then E_ok else retval, m, os)
  end.

Definition get (m : fdpmgr) (os : OS) : outcome (Z * fdpmgr * OS) :=
  match nextFreeOffset m with
  | [] => Abort
  | next :: rest =>
      let m := with_stack m rest in
      let '(retval, m, os) := removeOffsetFromFile m os in
      if negb (retval =? E_ok) then Val (retval, with_stack m (next :: nextFreeOffset m), os)
      else
        match nextFreeOffset m with
        | [] =>
            if decide (next + pageSize m < 2 ^ 63) then
              let m := with_stack m [next + pageSize m] in
              let '(retval, m, os) := addOffsetToFile m (next + pageSize m) os in
              if negb (retval =? E_ok) then Val (retval, with_stack m [next], os)
              else Val (next, m, os)
            else Undef
        | _ => Val (next, m, os)
        end
  end.

Definition free (m : fdpmgr) (offset : Z) (os : OS) : outcome (Z * fdpmgr * OS) :=
  let* _ := ASSERT (0 <=? offset) in
  let* _ := if decide (pageSize m = 0) then Undef else ASSERT (Z.rem offset (pageSize m) =? 0) in
  let old := nextFreeOffset m in
  let m := with_stack m (offset :: old) in
  let '(retval, m, os) := addOffsetToFile m offset os in
  if negb (retval =? E_ok) then Val (retval, with_stack m old, os) else Val (retval, m, os).

Definition reset (m : fdpmgr) (os : OS) : Z * fdpmgr * OS :=
  match fdp_file m with
  | Some file =>
      let '(retval, _, os) := File.truncate sys file 0 os in
      if negb (retval =? E_ok) then (retval, m, os)
      else (E_ok, with_stack (with_fsize m 0) [], os)
  | None => (E_ok, with_stack m [], os)
  end.

Definition size (m : fdpmgr) : Z := zlen (nextFreeOffset m).
End fdpmgr.
End FdpMgr.

(** ** The pages handed out *)
Section safety.
Context {OS : Type} (sys : syscalls OS) {Regs : forall d, Regular sys d}.

Lemma truncate_code f n os : exists r e os', File.truncate sys f n os = (r, e, os') /\ (r = E_ok \/ r < 0).
Proof.
  destruct (decide (fd f = INVALID_HANDLE_VALUE)) as [Hc|Hc].
  { unfold File.truncate. rewrite Hc. eexists _, _, _. split; [done|]. by right. }
  destruct (decide (0 <= n)) as [Hn|Hn].
  { destruct (truncate_spec sys f Hc n os Hn) as (r & e & os' & -> & _ & H).
    eexists _, _, _. split; [done|]. naive_solver. }
  unfold File.truncate, File.seek, File.seek_whence. rewrite (proj2 (Z.eqb_neq _ _) Hc), (proj2 (Z.ltb_lt n 0)) by lia.
  eexists _, _, _. split; [done|]. by right.
Qed.

Lemma write_code f b os : exists r e n os', File.write sys f b os = (r, e, n, os') /\ (r = E_ok \/ r < 0).
Proof.
  unfold File.write. repeat case_match; eexists _, _, _, _; (split; [done|]); first [by left|by right].
Qed.

(** Neither file operation touches the stack, and a code that is not [E_ok] is
    negative. *)
Lemma removeOffset_spec m os : exists r m' os', FdpMgr.removeOffsetFromFile sys m os = (r, m', os') /\
  nextFreeOffset m' = nextFreeOffset m /\ pageSize m' = pageSize m /\ fdp_file m' = fdp_file m /\ (r = E_ok \/ r < 0).
Proof.
  unfold FdpMgr.removeOffsetFromFile. destruct (fdp_file m) eqn:Hf.
  - destruct (truncate_code f (fsize (FdpMgr.with_fsize m (fsize m - 8))) os) as (r & e & os' & -> & Hr).
    destruct (Z.eqb_spec r E_ok); simpl; eexists _, _, _; (split; [done|]); simpl; auto.
  - eexists _, _, _. split; [done|]. auto.
Qed.

Lemma addOffset_spec m x os : exists r m' os', FdpMgr.addOffsetToFile sys m x os = (r, m', os') /\
  nextFreeOffset m' = nextFreeOffset m /\ pageSize m' = pageSize m /\ fdp_file m' = fdp_file m /\ (r = E_ok \/ r < 0).
Proof.
  unfold FdpMgr.addOffsetToFile. destruct (fdp_file m) eqn:Hf.
  - destruct (write_code f (le 8 x) os) as (r & e & n & os' & -> & Hr).
    destruct (Z.eqb_spec r E_ok); simpl; [destruct (Z.eqb_spec n 8); simpl|];
      eexists _, _, _; (split; [done|]); simpl; auto. by repeat (split; [done|]); right.
  - eexists _, _, _. split; [done|]. auto.
Qed.

(** The stack is some released pages above the first page never used; the pages
    in use are below that page and not on the stack. *)
Record pages_ok (used : gset Z) (m : fdpmgr) (released : list Z) (frontier : Z) : Prop := {
  po_size : 0 < pageSize m;
  po_stack : nextFreeOffset m = released ++ [frontier];
  po_nodup : NoDup released;
  po_frontier : 0 <= frontier /\ (pageSize m | frontier);
  po_released x : x ∈ released -> 0 <= x < frontier /\ (pageSize m | x) /\ x ∉ used;
  po_used x : x ∈ used -> 0 <= x < frontier /\ (pageSize m | x) }.

Lemma pages_ok_eq used m m' rel fr :
  nextFreeOffset m' = nextFreeOffset m -> pageSize m' = pageSize m -> pages_ok used m rel fr -> pages_ok used m' rel fr.
Proof. intros H1 H2 []. split; rewrite ?H1, ?H2; auto. Qed.

(** [get] fails, or hands out a page that nobody has; the next page may lie
    beyond the largest offset. *)
Lemma fdp_get_ok used m rel fr os : pages_ok used m rel fr ->
  (FdpMgr.get sys m os = Undef /\ rel = [] /\ 2 ^ 63 <= fr + pageSize m) \/
  exists r m' os', FdpMgr.get sys m os = Val (r, m', os') /\
    ((r < 0 /\ pages_ok used m' rel fr) \/
     (0 <= r /\ Z.divide (pageSize m) r /\ (r ∉ used) /\
      (pages_ok ({[r]} ∪ used) m' (tail rel) (if rel is [] then fr + pageSize m else fr)))).
Proof.
  intros Hok. unfold FdpMgr.get. rewrite (po_stack _ _ _ _ Hok).
  destruct rel as [|next rest]; simpl.
  - destruct (removeOffset_spec (FdpMgr.with_stack m []) os) as (r & m1 & os1 & -> & Hs & Hp & Hf & Hr). simpl in *.
    destruct (Z.eqb_spec r E_ok) as [_|Hne]; simpl.
    2: { right. eexists _, _, _. split; [done|]. left. split; [destruct Hr; lia|].
         eapply pages_ok_eq; [| |exact Hok]; simpl; [|done]. by rewrite Hs, (po_stack _ _ _ _ Hok). }
    rewrite Hs, Hp. destruct (decide (fr + pageSize m < 2 ^ 63)) as [Hov|Hov]; [|left; repeat split; lia].
    match goal with |- context [FdpMgr.addOffsetToFile sys ?m' ?x ?o] =>
      destruct (addOffset_spec m' x o) as (r2 & m2 & os2 & -> & Hs2 & Hp2 & Hf2 & Hr2) end. simpl in *.
    destruct (Z.eqb_spec r2 E_ok) as [_|Hne]; simpl.
    2: { right. eexists _, _, _. split; [done|]. left. split; [destruct Hr2; lia|].
         eapply pages_ok_eq; [| |exact Hok]; simpl; [by rewrite (po_stack _ _ _ _ Hok)|congruence]. }
    destruct Hok as [Hps Hst Hnd [Hfr Hdiv] Hrel Hus].
    right. eexists _, _, _. split; [done|]. right. split; [done|]. split; [done|].
    split; [intros Hin; apply Hus in Hin; lia|].
    split; rewrite ?Hp2, ?Hp; simpl; [done|congruence|constructor| |set_solver|].
    + split; [lia|]. apply Z.divide_add_r; [done|apply Z.divide_refl].
    + intros x [->%elem_of_singleton|Hx]%elem_of_union; [split; [lia|done]|].
      destruct (Hus x Hx). split; [lia|done].
  - destruct (removeOffset_spec (FdpMgr.with_stack m (rest ++ [fr])) os) as (r & m1 & os1 & -> & Hs & Hp & Hf & Hr). simpl in *.
    destruct (Z.eqb_spec r E_ok) as [_|Hne]; simpl.
    2: { right. eexists _, _, _. split; [done|]. left. split; [destruct Hr; lia|].
         eapply pages_ok_eq; [| |exact Hok]; simpl; [|done]. by rewrite Hs, (po_stack _ _ _ _ Hok). }
    destruct Hok as [Hps Hst Hnd [Hfr Hdiv] Hrel Hus]. apply NoDup_cons in Hnd as [Hni Hnd].
    destruct (Hrel next ltac:(set_solver)) as (Hb & Hd & Hu).
    assert (pages_ok ({[next]} ∪ used) m1 rest fr) as Hfin.
    { split; rewrite ?Hp; auto; [set_solver|].
      intros x [->%elem_of_singleton|Hx]%elem_of_union; [done|]. by apply Hus. }
    destruct (nextFreeOffset m1) eqn:E; [by destruct rest|].
    right. eexists _, _, _. split; [done|]. right. repeat (split; [done || lia|]). done.
Qed.

Lemma fdp_free_ok used m rel fr p os : pages_ok used m rel fr -> p ∈ used ->
  exists r m' os', FdpMgr.free sys m p os = Val (r, m', os') /\
    ((r < 0 /\ pages_ok used m' rel fr) \/ (r = E_ok /\ pages_ok (used ∖ {[p]}) m' (p :: rel) fr)).
Proof.
  intros Hok Hp. unfold FdpMgr.free. destruct (po_used _ _ _ _ Hok p Hp) as [Hb Hd].
  pose proof (po_size _ _ _ _ Hok).
  rewrite (proj2 (Z.leb_le 0 p)) by lia. simpl. rewrite decide_False by lia.
  rewrite (proj2 (Z.rem_divide p (pageSize m) ltac:(lia)) Hd). simpl.
  destruct (addOffset_spec (FdpMgr.with_stack m (p :: nextFreeOffset m)) p os) as (r & m1 & os1 & -> & Hs & Hps & Hf & Hr). simpl in *.
  destruct (Z.eqb_spec r E_ok) as [->|Hne]; simpl; eexists _, _, _; (split; [done|]).
  - right. split; [done|]. destruct Hok as [Hps' Hst Hnd Hfr Hrel Hus].
    split; rewrite ?Hps; auto.
    + rewrite Hs, Hst. done.
    + constructor; [|done]. intros Hin. by apply Hrel in Hin as (_ & _ & ?).
    + intros x [->|Hx]%elem_of_cons; [split; [done|split; [done|set_solver]]|].
      destruct (Hrel x Hx) as (? & ? & ?). split; [done|]. split; [done|set_solver].
    + intros x Hx. apply Hus. set_solver.
  - left. split; [destruct Hr; lia|]. eapply pages_ok_eq; [| |exact Hok]; simpl; done.
Qed.
End safety.

(** ** The life of a manager

    It starts empty, is given the size of the data file as its first page, and
    serves [get] and [free]; [used] is the set of pages handed out and not yet
    freed.  Other threads may change the system in between. *)
Inductive fdp_run {OS} (sys : syscalls OS) : gset Z -> fdpmgr -> OS -> Prop :=
  | run_start ps f size os m os' :
      0 < ps -> FdpMgr.free sys (fdp_new ps f) size os = Val (E_ok, m, os') -> fdp_run sys ∅ m os'
  | run_get used m os p m' os' :
      fdp_run sys used m os -> FdpMgr.get sys m os = Val (p, m', os') -> 0 <= p ->
      fdp_run sys ({[p]} ∪ used) m' os'
  | run_get_failed used m os r m' os' :
      fdp_run sys used m os -> FdpMgr.get sys m os = Val (r, m', os') -> r < 0 ->
      fdp_run sys used m' os'
  | run_free used m os p m' os' :
      fdp_run sys used m os -> p ∈ used -> FdpMgr.free sys m p os = Val (E_ok, m', os') ->
      fdp_run sys (used ∖ {[p]}) m' os'
  | run_free_failed used m os p r m' os' :
      fdp_run sys used m os -> p ∈ used -> FdpMgr.free sys m p os = Val (r, m', os') -> r <> E_ok ->
      fdp_run sys used m' os'
  | run_other used m os os' : fdp_run sys used m os -> fdp_run sys used m os'.

Section run.
Context {OS : Type} (sys : syscalls OS) {Regs : forall d, Regular sys d}.

Lemma free_first ps f size os m os' : 0 < ps -> FdpMgr.free sys (fdp_new ps f) size os = Val (E_ok, m, os') ->
  pages_ok ∅ m [] size.
Proof.
  unfold FdpMgr.free. intros Hps. simpl. rewrite decide_False by lia.
  destruct (Z.leb_spec 0 size); [|done]. simpl.
  destruct (Z.eqb_spec (Z.rem size ps) 0) as [Hd|]; [|done]. simpl.
  match goal with |- context [FdpMgr.addOffsetToFile sys ?m' ?x ?o] =>
    destruct (addOffset_spec sys m' x o) as (r & m1 & os1 & -> & Hs & Hp & Hf & Hr) end. simpl in *.
  destruct (Z.eqb_spec r E_ok) as [->|]; simpl; [|intros [= -> _ _]; by destruct Hr].
  intros [= -> ->]. split; rewrite ?Hp; simpl; [done|done|constructor| |set_solver|set_solver].
  split; [lia|]. by apply Z.rem_divide; [lia|].
Qed.

(** In every state of its life the manager is in order. *)
Lemma run_pages_ok used m os : fdp_run sys used m os -> exists rel fr, pages_ok used m rel fr.
Proof.
  induction 1 as [ps f size os m os' Hps Hf|used m os p m' os' _ (rel & fr & IH) Hg Hp
    |used m os r m' os' _ (rel & fr & IH) Hg Hr|used m os p m' os' _ (rel & fr & IH) Hp Hf
    |used m os p r m' os' _ (rel & fr & IH) Hp Hf Hr|]; [eauto using free_first| | | | |done].
  - destruct (fdp_get_ok sys used m rel fr os IH) as [[? _]|(r & m1 & os1 & E & H)]; [congruence|].
    rewrite Hg in E. injection E as <- <- <-. destruct H as [[? _]|(_ & _ & _ & H)]; [lia|eauto].
  - destruct (fdp_get_ok sys used m rel fr os IH) as [[? _]|(r1 & m1 & os1 & E & H)]; [congruence|].
    rewrite Hg in E. injection E as <- <- <-. destruct H as [[_ H]|[? _]]; [eauto|lia].
  - destruct (fdp_free_ok sys used m rel fr p os IH Hp) as (r & m1 & os1 & E & H).
    rewrite Hf in E. injection E as <- <- <-. destruct H as [[? _]|[_ H]]; [done|eauto].
  - destruct (fdp_free_ok sys used m rel fr p os IH Hp) as (r1 & m1 & os1 & E & H).
    rewrite Hf in E. injection E as <- <- <-. destruct H as [[_ H]|[? _]]; [eauto|done].
Qed.
End run.

(** C28. However [get] and [free] are called, and whatever file operations fail,
    a page that [get] hands out is aligned and is not in use; [get] never runs
    into its assertion, [free] of a page in use never into its own; and a page
    that was freed is the next one handed out. *)
Theorem pages_not_shared {OS} (sys : syscalls OS) {Regs : forall d, Regular sys d} used m os
  (Hrun : fdp_run sys used m os) :
  (forall os0, FdpMgr.get sys m os0 <> Abort) /\
  (forall os0 p m' os', FdpMgr.get sys m os0 = Val (p, m', os') -> p < 0 \/ (p ∉ used) /\ Z.divide (pageSize m) p) /\
  (forall os0 p, p ∈ used -> exists r m' os', FdpMgr.free sys m p os0 = Val (r, m', os') /\
     (r = E_ok -> forall os1 q m1 os2, FdpMgr.get sys m' os1 = Val (q, m1, os2) -> q < 0 \/ q = p)).
Proof.
  destruct (run_pages_ok sys used m os Hrun) as (rel & fr & Hok). split; [|split].
  - intros os0. by destruct (fdp_get_ok sys used m rel fr os0 Hok) as [[-> _]|(r & m1 & os1 & -> & _)].
  - intros os0 p m' os' Hg.
    destruct (fdp_get_ok sys used m rel fr os0 Hok) as [[? _]|(r & m1 & os1 & E & H)]; [congruence|].
    rewrite Hg in E. injection E as <- <- <-. naive_solver.
  - intros os0 p Hp. destruct (fdp_free_ok sys used m rel fr p os0 Hok Hp) as (r & m' & os' & E & H).
    exists r, m', os'. split; [done|]. intros -> os1 q m1 os2.
    destruct H as [[? _]|[_ H]]; [done|]. unfold FdpMgr.get. rewrite (po_stack _ _ _ _ H). simpl.
    destruct (removeOffset_spec sys (FdpMgr.with_stack m' (rel ++ [fr])) os1) as (r1 & m2 & os3 & -> & Hs & _ & _ & Hr).
    simpl in *. destruct (Z.eqb_spec r1 E_ok); simpl; [|intros [= <- <- <-]; left; destruct Hr; lia].
    rewrite Hs. destruct (rel ++ [fr]) eqn:Enil; [by destruct rel|]. intros [= <- <- <-]. by right.
Qed.

Definition demo_mgr : fdpmgr := {| pageSize := 256; nextFreeOffset := [512]; fdp_file := Some demo_file; fsize := 8 |}.

Lemma pages_not_shared_witness :
  fdp_run script_sys ∅ demo_mgr (script_init (le 8 512) []) /\
  (forall os0, FdpMgr.get script_sys demo_mgr os0 <> Abort).
Proof.
  assert (fdp_run script_sys ∅ demo_mgr (script_init (le 8 512) [])) as H.
  { eapply run_other, (run_start script_sys 256 (Some demo_file) 512 (script_init [] [])); [lia|vm_compute; reflexivity]. }
  split; [exact H|]. apply (pages_not_shared script_sys ∅ demo_mgr _ H).
Defined.

(** ** The persisted stack

    The file holds the stack from the bottom up, and the descriptor is at its
    end. *)
Definition is_off (x : Z) : Prop := - 2 ^ 63 <= x < 2 ^ 63.

Section persist.
Context {OS : Type} (sys : syscalls OS) (f : file) `{Reg : !Regular sys (fd f)}.
Hypothesis Hopen : fd f <> INVALID_HANDLE_VALUE.

Record synced (m : fdpmgr) (os : OS) : Prop := {
  sy_file : fdp_file m = Some f;
  sy_offs : Forall is_off (nextFreeOffset m);
  sy_data : f_data os = le_list 8 (reverse (nextFreeOffset m));
  sy_size : fsize m = 8 * zlen (nextFreeOffset m);
  sy_pos : f_pos os = length (f_data os) }.

Lemma add_synced m x os r m' os' : synced m os -> is_off x ->
  FdpMgr.addOffsetToFile sys (FdpMgr.with_stack m (x :: nextFreeOffset m)) x os = (r, m', os') -> r = E_ok ->
  synced m' os'.
Proof.
  intros [Hf Ho Hd Hs Hp] Hx. unfold FdpMgr.addOffsetToFile. simpl. rewrite Hf.
  destruct (write_spec sys f Hopen (le 8 x) os ltac:(done)) as (c & e & n & os1 & -> & _ & [(-> & _)|(-> & Hn & Hd1 & Hp1)]);
    simpl; [by intros [= <- <- <-]|].
  destruct (Z.eqb_spec n 8) as [->|]; simpl; [|by intros [= <- <- <-]]. intros [= <- <- <-] _.
  change (Z.to_nat 8) with 8%nat in *. rewrite take_ge in Hd1 by (rewrite length_le; lia).
  rewrite Hp, splice_end in Hd1. split; simpl; [done|by constructor| |rewrite Hs, zlen_cons; lia|].
  - rewrite Hd1, Hd, reverse_cons. by rewrite le_list_snoc.
  - rewrite Hp1, Hp, Hd1, length_app, length_le. lia.
Qed.

Lemma remove_synced m x rest os r m' os' : synced m os -> nextFreeOffset m = x :: rest ->
  FdpMgr.removeOffsetFromFile sys (FdpMgr.with_stack m rest) os = (r, m', os') -> r = E_ok ->
  synced m' os' /\ nextFreeOffset m' = rest.
Proof.
  intros [Hf Ho Hd Hs Hp] Hst. unfold FdpMgr.removeOffsetFromFile. simpl. rewrite Hf. simpl.
  rewrite Hst in *. rewrite zlen_cons in Hs. pose proof (zlen_nonneg rest).
  destruct (truncate_spec sys f Hopen (fsize m - 8) os ltac:(lia)) as (c & e & os1 & -> & _ & [(Hc & _)|(-> & Hd1 & Hp1)]).
  { destruct (Z.eqb_spec c E_ok); simpl; [subst; unfold E_ok in Hc; lia|]. by intros [= <- <- <-]. }
  simpl. intros [= <- <- <-] _. split; [|done]. apply Forall_cons in Ho as [_ Ho].
  assert (Z.to_nat (fsize m - 8) = (8 * length rest)%nat) as Hn by (unfold zlen in *; lia).
  assert (f_data os1 = le_list 8 (reverse rest)) as Hd2.
  { rewrite Hd1, Hd, reverse_cons, le_list_snoc, Hn.
    rewrite resize_le by (rewrite length_app, length_le_list, length_reverse; lia).
    by rewrite take_app_length' by (rewrite length_le_list, length_reverse; lia). }
  split; simpl; [done|done|done|unfold zlen in *; lia|].
  rewrite Hp1, Hd2, length_le_list, length_reverse. lia.
Qed.

Lemma get_synced m os p m' os' : synced m os -> Forall is_off (nextFreeOffset m) -> 0 < pageSize m ->
  (forall x, x ∈ nextFreeOffset m -> 0 <= x) ->
  FdpMgr.get sys m os = Val (p, m', os') -> 0 <= p -> synced m' os'.
Proof.
  intros Hsy Ho Hps Hnn. unfold FdpMgr.get. destruct (nextFreeOffset m) as [|x rest] eqn:Hst; [done|].
  assert (0 <= x) by (apply Hnn; set_solver).
  destruct (FdpMgr.removeOffsetFromFile _ _ _) as [[r m1] os1] eqn:E.
  assert (pageSize m1 = pageSize m) as Hps1.
  { revert E. unfold FdpMgr.removeOffsetFromFile. simpl. repeat case_match; by intros [= <- <- <-]. }
  assert (r = E_ok \/ r < 0) as Hr.
  { revert E. unfold FdpMgr.removeOffsetFromFile. simpl. rewrite (sy_file _ _ Hsy). simpl.
    assert (0 <= fsize m - 8) by (rewrite (sy_size _ _ Hsy), Hst, zlen_cons; pose proof (zlen_nonneg rest); lia).
    destruct (truncate_spec sys f Hopen (fsize m - 8) os ltac:(lia)) as (c & e & os2 & -> & _ & Hc).
    destruct (negb _); intros [= <- <- <-]; naive_solver. }
  destruct (Z.eqb_spec r E_ok) as [->|Hne]; simpl.
  2: { intros [= <- <- <-]. destruct Hr; lia. }
  destruct (remove_synced m x rest os E_ok m1 os1 Hsy Hst E eq_refl) as [Hsy1 Hst1]. rewrite Hst1.
  destruct rest as [|y rest]; [|by intros [= <- <- <-]].
  case_decide as Hlt; [|done]. rewrite Hps1 in *.
  destruct (FdpMgr.addOffsetToFile _ _ _ _) as [[r2 m2] os2] eqn:E2.
  destruct (Z.eqb_spec r2 E_ok) as [->|Hne]; simpl.
  - intros [= <- <- <-] _. eapply (add_synced m1 (x + pageSize m)); [done| |by rewrite Hst1|done].
    split; [|done]. lia.
  - destruct (addOffset_spec sys (FdpMgr.with_stack m1 [x + pageSize m]) (x + pageSize m) os1)
      as (r3 & m3 & os3 & E3 & _ & _ & _ & Hr3). rewrite E2 in E3. injection E3 as <- <- <-.
    intros [= <- <- <-] ?. destruct Hr3; lia.
Qed.

Lemma init_loop_spec rfuel l : forall fuel pre m os,
  f_data os = pre ++ le_list 8 l -> f_pos os = length pre -> Forall is_off l ->
  (length l < fuel)%nat -> (f_intr os + 8 < rfuel)%nat ->
  exists r m' os', FdpMgr.init_loop sys fuel rfuel f m os = Val (r, m', os') /\ f_data os' = f_data os /\
    (r = E_read_failed \/
     r = E_eof_detected /\ nextFreeOffset m' = reverse l ++ nextFreeOffset m /\
     fsize m' = fsize m + 8 * zlen l /\ fdp_file m' = fdp_file m /\ f_pos os' = length (f_data os)).
Proof.
  induction l as [|x l IH]; intros fuel pre m os Hd Hp Hl Hf Hrf; (destruct fuel as [|fuel]; [simpl in Hf; lia|]);
    cbn [FdpMgr.init_loop]; destruct (read_spec sys f Hopen rfuel 8 os ltac:(lia) ltac:(lia))
      as (r & e & b & os1 & -> & Hd1 & Hi1 & [->|(-> & Hb & Hp1)]); cbn [obind]; simpl (negb _).
  - eexists _, _, _. split; [done|]. auto.
  - rewrite Hp, Hd, drop_app_length in Hb. simpl in Hb. rewrite Hb in *. simpl.
    eexists _, _, _. split; [done|]. split; [done|]. right. rewrite app_nil_r in Hd. simpl in Hp1.
    repeat split; [unfold zlen; simpl; lia|rewrite Hd, Hp1, Hp; lia].
  - eexists _, _, _. split; [done|]. auto.
  - change (le_list 8 (x :: l)) with (le 8 x ++ le_list 8 l) in *.
    rewrite Hp, Hd, drop_app_length in Hb. change (Z.to_nat 8) with 8%nat in Hb.
    rewrite take_app_length' in Hb by (by rewrite length_le).
    assert (sle b = x) as Hx.
    { rewrite Hb. apply Forall_cons in Hl as [Hx _]. apply sle_le; [lia|exact Hx]. }
    assert (zlen b = 8) as Hz by (by rewrite Hb, zlen_le).
    rewrite Hz. simpl. rewrite Hx.
    destruct (IH fuel (pre ++ le 8 x) (FdpMgr.with_stack (FdpMgr.with_fsize m (fsize m + 8)) (x :: nextFreeOffset m)) os1)
      as (r & m' & os2 & Hrun & Hd2 & Hres).
    + by rewrite Hd1, Hd, app_assoc.
    + rewrite Hp1, Hp, Hb, length_app. done.
    + by apply Forall_cons in Hl as [_ Hl].
    + simpl in Hf. lia.
    + lia.
    + exists r, m', os2. split; [exact Hrun|]. split; [congruence|].
      destruct Hres as [?|(? & Hst & Hfs & Hff & Hpp)]; [by left|]. right. split; [done|].
      rewrite Hst, Hfs, Hff, Hpp, reverse_cons, <- app_assoc. simpl.
      split; [done|]. split; [unfold zlen; simpl; lia|]. split; [done|congruence].
Qed.
End persist.
Arguments synced {OS} sys f {Reg}.

(** C29. The file keeps the stack: after every [get] that hands out a page and
    every [free] that succeeds, a new manager that reads the file comes back
    with the stack, unless it cannot seek or read. *)
Theorem stack_persists {OS} (sys : syscalls OS) f {Reg : Regular sys (fd f)} m os m1 os1 fuel rfuel
  (Hopen : fd f <> INVALID_HANDLE_VALUE) (Hm : synced sys f m os) (Hps : 0 < pageSize m)
  (Hnn : forall x, x ∈ nextFreeOffset m -> 0 <= x)
  (Hop : (exists p, FdpMgr.get sys m os = Val (p, m1, os1) /\ 0 <= p) \/
         (exists p, p < 2 ^ 63 /\ FdpMgr.free sys m p os = Val (E_ok, m1, os1)))
  (Hfuel : (length (nextFreeOffset m1) < fuel)%nat) (Hrfuel : (f_intr os1 + 8 < rfuel)%nat) :
  synced sys f m1 os1 /\
  exists r m2 os2, FdpMgr.init sys fuel rfuel (fdp_new (pageSize m) (Some f)) os1 = Val (r, m2, os2) /\
    (r = E_seek_failed \/ r = E_ok \/
     r = E_eof_detected /\ nextFreeOffset m2 = nextFreeOffset m1 /\ synced sys f m2 os2).
Proof.
  assert (synced sys f m1 os1) as Hs1.
  { destruct Hop as [(p & Hg & Hp)|(p & Hp & Hf)].
    - by eapply (get_synced sys f Hopen m os p m1 os1); [|apply Hm| | | |].
    - revert Hf. unfold FdpMgr.free. destruct (Z.leb_spec 0 p); [|done]. simpl.
      rewrite decide_False by lia. destruct (Z.eqb_spec (Z.rem p (pageSize m)) 0); [|done]. simpl.
      destruct (FdpMgr.addOffsetToFile _ _ _ _) as [[r m2] os2] eqn:E.
      destruct (Z.eqb_spec r E_ok) as [->|]; simpl; [|congruence]. intros [= <- <-].
      apply (add_synced sys f Hopen m p os E_ok m2 os2); [done|unfold is_off; lia|done|done]. }
  split; [done|]. unfold FdpMgr.init. simpl.
  destruct (seek_spec sys f Hopen 0 os1 ltac:(lia)) as (r & e & os2 & -> & Hd & Hi & [[-> Hp]|[-> Hp]]); simpl.
  { eexists _, _, _. split; [done|]. auto. }
  destruct (init_loop_spec sys f Hopen rfuel (reverse (nextFreeOffset m1)) fuel [] (fdp_new (pageSize m) (Some f)) os2)
    as (r & m3 & os3 & -> & Hd3 & Hres).
  - rewrite Hd. apply Hs1.
  - by rewrite Hp.
  - apply Forall_reverse, Hs1.
  - by rewrite length_reverse.
  - lia.
  - simpl. destruct Hres as [->|(-> & Hst & Hfs & Hff & Hpp)]; simpl; eexists _, _, _; (split; [done|]); [by auto|].
    right. right. simpl in *. rewrite reverse_involutive, app_nil_r in Hst. split; [done|]. split; [done|].
    split; [done|rewrite Hst; apply Hs1|rewrite Hd3, Hd, Hst; apply Hs1|
      rewrite Hfs, Hst; unfold zlen; by rewrite length_reverse|by rewrite Hpp, Hd3].
Qed.

Definition demo_disk : script := s_put (le_list 8 [512]) 8 (script_init [] []).

Lemma stack_persists_witness :
  exists m1 os1, FdpMgr.free script_sys demo_mgr 256 demo_disk = Val (E_ok, m1, os1) /\
  synced script_sys demo_file m1 os1 /\
  exists r m2 os2, FdpMgr.init script_sys 9 99 (fdp_new 256 (Some demo_file)) os1 = Val (r, m2, os2) /\
    (r = E_seek_failed \/ r = E_ok \/
     r = E_eof_detected /\ nextFreeOffset m2 = nextFreeOffset m1 /\ synced script_sys demo_file m2 os2).
Proof.
  eexists _, _. split; [vm_compute; reflexivity|].
  eapply (stack_persists script_sys demo_file demo_mgr demo_disk _ _ 9 99).
  - done.
  - split; [done| |done|done|done]. constructor; [|constructor]. split; [done|]. vm_compute. done.
  - done.
  - intros x [->|[]%elem_of_nil]%elem_of_cons. done.
  - right. exists 256. split; [done|]. vm_compute. reflexivity.
  - vm_compute. lia.
  - vm_compute. lia.
Defined.

(** The codes of [init] are the wrong way round: reading the whole file
    returns [E_eof_detected], and a file that cannot be read, or that ends in
    the middle of an offset, returns [E_ok] with what was read so far. *)
Theorem init_codes_inverted :
  let new := fdp_new 256 (Some demo_file) in
  (exists m os, FdpMgr.init script_sys 9 99 new demo_disk = Val (E_eof_detected, m, os) /\ nextFreeOffset m = [512]) /\
  (exists m os, FdpMgr.init script_sys 9 99 new (script_init (le_list 8 [512]) [Fine; Failing 5]) = Val (E_ok, m, os) /\
     nextFreeOffset m = []) /\
  (exists m os, FdpMgr.init script_sys 9 99 new (script_init (le_list 8 [512] ++ [1; 2; 3]) []) = Val (E_ok, m, os) /\
     nextFreeOffset m = [512]).
Proof. repeat split; eexists _, _; split; vm_compute; reflexivity. Qed.

(** A failure leaves the file and the stack apart: when the write that adds
    the next page fails, [get] restores the stack but the file has lost the
    offset; and after a [free] whose write is cut short, the offset that the
    next [free] writes is not where [init] reads it. *)
Theorem failed_update_desyncs :
  (exists m os, FdpMgr.get script_sys demo_mgr (s_put (le_list 8 [512]) 8 (script_init [] [Fine; Fine; Failing 28])) =
       Val (E_write_failed, m, os) /\ nextFreeOffset m = [512] /\ s_data os = []) /\
  (exists m1 os1 m2 os2 m3 os3,
     FdpMgr.free script_sys demo_mgr 256 (s_put (le_list 8 [512]) 8 (script_init [] [Short 2])) = Val (E_write_failed, m1, os1) /\
     FdpMgr.free script_sys m1 0 os1 = Val (E_ok, m2, os2) /\ nextFreeOffset m2 = [0; 512] /\
     FdpMgr.init script_sys 9 99 (fdp_new 256 (Some demo_file)) os2 = Val (E_ok, m3, os3) /\
     nextFreeOffset m3 = [256; 512]).
Proof.
  split.
  - eexists _, _. split; [vm_compute; reflexivity|]. split; vm_compute; reflexivity.
  - eexists _, _, _, _, _, _. split; [vm_compute; reflexivity|]. split; [vm_compute; reflexivity|].
    split; [vm_compute; reflexivity|]. split; vm_compute; reflexivity.
Qed.
