(* ===== verification/DbFiles.v ===== *)
(** * librdb: the database files (librdb/include/dbfiles.h, librdb/src/dbfiles.cpp)

    [AttrFile], [KeyFile] and [ValueFile] move whole pages, or single fields of
    them, between memory and the files.  A page on disk is the memory of its
    structure (librdb/include/dbstruct.h), so the representation of the
    structures is part of this file.  Methods that log also decide their result;
    the log is left out. *)
From S2P Require Import Prelude Bytes DbStruct File FileLaws FdpMgr.

(** ** The structures in memory *)
Definition enc_key_rec (r : key_rec) : bytes :=
  le 1 (kr_flags r) ++ le 1 (kr_height r) ++ le 2 (kr_left r) ++ le 2 (kr_right r) ++ le 2 (kr_klen r) ++
  kr_key r ++ le 8 (kr_voff r).

(** The fields before [kp_poff], at offset 16; [kp_noff] is at offset 24. *)
Definition enc_kp_head (kp : key_page) : bytes :=
  le 2 (kp_root kp) ++ le 2 0 ++ le 4 (kp_hash kp) ++ le 4 0.

Definition enc_key_page (kp : key_page) : bytes :=
  le 2 (kp_flags kp) ++ le 2 (kp_vcount kp) ++ enc_kp_head kp ++
  le 8 (kp_poff kp) ++ le 8 (kp_noff kp) ++ replicate 32 0 ++ (kp_keys kp ≫= enc_key_rec).

Definition enc_value_page (vp : value_page) : bytes :=
  le 2 (vp_flags vp) ++ le 2 0 ++ le 4 0 ++ le 4 (vp_klen vp) ++ le 4 (vp_vlen vp) ++ vp_key vp ++ vp_value vp.

(** The field of [n] bytes at [off]. *)
Definition raw (b : bytes) (off n : nat) : bytes := take n (drop off b).
Definition fld (b : bytes) (off n : nat) : Z := sle (raw b off n).

Definition dec_key_rec (b : bytes) : key_rec :=
  {| kr_flags := fld b 0 1; kr_height := fld b 1 1; kr_left := fld b 2 2; kr_right := fld b 4 2;
     kr_klen := fld b 6 2; kr_key := raw b 8 48; kr_voff := fld b 56 8 |}.

Fixpoint dec_key_recs (n : nat) (b : bytes) : list key_rec :=
  match n with
  | O => []
  | S n => dec_key_rec b :: dec_key_recs n (drop 64 b)
  end.

Definition dec_key_page (kpSize : Z) (b : bytes) : key_page :=
  {| kp_flags := fld b 0 2; kp_vcount := fld b 2 2; kp_root := fld b 4 2; kp_hash := fld b 8 4;
     kp_poff := fld b 16 8; kp_noff := fld b 24 8;
     kp_keys := dec_key_recs (Z.to_nat (NUM_OF_KEYS_IN_PAGE kpSize)) (drop 64 b) |}.

Definition dec_value_page (b : bytes) : value_page :=
  {| vp_flags := fld b 0 2; vp_klen := fld b 8 4; vp_vlen := fld b 12 4; vp_key := raw b 16 48; vp_value := raw b 64 192 |}.

Record dbattr := { a_kpsize : Z; a_htsize : Z }.
Definition enc_dbattr (a : dbattr) : bytes := le 4 (a_kpsize a) ++ le 4 (a_htsize a).
Definition dec_dbattr (b : bytes) : dbattr := {| a_kpsize := fld b 0 4; a_htsize := fld b 4 4 |}.

Definition offsetof_vp_flags : Z := 0.
Definition offsetof_kp_flags : Z := 0.
Definition offsetof_kp_poff : Z := 16.
Definition offsetof_kp_noff : Z := 24.

Record AttrFile := { af_file : file; af_attr : dbattr }.
Record KeyFile := { kf_file : file; kf_mgr : option fdpmgr }.
Record ValueFile := { vf_file : file; vf_mgr : option fdpmgr }.

Definition kp_with_flags (kp : key_page) (f : Z) : key_page :=
  {| kp_flags := short16 f; kp_vcount := kp_vcount kp; kp_root := kp_root kp; kp_hash := kp_hash kp;
     kp_poff := kp_poff kp; kp_noff := kp_noff kp; kp_keys := kp_keys kp |}.
Definition kp_with_poff (kp : key_page) (o : Z) : key_page :=
  {| kp_flags := kp_flags kp; kp_vcount := kp_vcount kp; kp_root := kp_root kp; kp_hash := kp_hash kp;
     kp_poff := o; kp_noff := kp_noff kp; kp_keys := kp_keys kp |}.
Definition kp_with_noff (kp : key_page) (o : Z) : key_page :=
  {| kp_flags := kp_flags kp; kp_vcount := kp_vcount kp; kp_root := kp_root kp; kp_hash := kp_hash kp;
     kp_poff := kp_poff kp; kp_noff := o; kp_keys := kp_keys kp |}.
Definition vp_with_flags (vp : value_page) (f : Z) : value_page :=
  {| vp_flags := short16 f; vp_klen := vp_klen vp; vp_vlen := vp_vlen vp; vp_key := vp_key vp; vp_value := vp_value vp |}.

Section dbfiles.
Context {OS : Type} (sys : syscalls OS).

(** ** The three static functions *)
Definition OpenFile (f : file) (sync : bool) (os : OS) : Z * file * OS :=
  let oflags := {| o_read := true; o_write := true; o_append := false; o_create := true;
                   o_truncate := false; o_excl := false; o_sync := sync |} in
  let '(retval, _, f, os) := File.open sys f oflags 384 os in
  (retval, f, os).

(** The second result is what [buf] starts with when the call returns. *)
Definition ReadFile (fuel : nat) (f : file) (offset : Z) (toRead : Z) (os : OS) : outcome (Z * bytes * OS) :=
  let* (retval, _, buf, os) := File.read_at sys fuel f offset toRead os in
  if negb (retval =? E_ok) then Val (retval, buf, os)
  else if zlen buf =? 0 then Val (E_eof_detected, buf, os)
  else if negb (zlen buf =? toRead) then Val (E_read_failed, buf, os)
  else Val (retval, buf, os).

Definition WriteFile (f : file) (offset : Z) (buf : bytes) (os : OS) : Z * OS :=
  let '(retval, _, bWritten, os) := File.write_at sys f offset buf os in
  if negb (retval =? E_ok) then (retval, os)
  else if negb (bWritten =? zlen buf) then (E_write_failed, os)
  else (retval, os).
End dbfiles.

Module AttrFile.
Section attr.
Context {OS : Type} (sys : syscalls OS).

Definition setKeyPageSize (a : AttrFile) (kpSize : Z) : AttrFile :=
  {| af_file := af_file a; af_attr := {| a_kpsize := kpSize; a_htsize := a_htsize (af_attr a) |} |}.
Definition setHashTableSize (a : AttrFile) (htSize : Z) : AttrFile :=
  {| af_file := af_file a; af_attr := {| a_kpsize := a_kpsize (af_attr a); a_htsize := htSize |} |}.

Definition open (a : AttrFile) (os : OS) : Z * AttrFile * OS :=
  let '(r, f, os) := OpenFile sys (af_file a) false os in
  (r, {| af_file := f; af_attr := af_attr a |}, os).

(** A read that stops early leaves the rest of the attributes as it was. *)
Definition read (fuel : nat) (a : AttrFile) (os : OS) : outcome (Z * AttrFile * OS) :=
  let* (r, b, os) := ReadFile sys fuel (af_file a) 0 8 os in
  Val (r, {| af_file := af_file a; af_attr := dec_dbattr (b ++ drop (length b) (enc_dbattr (af_attr a))) |}, os).

Definition write (a : AttrFile) (os : OS) : Z * OS := WriteFile sys (af_file a) 0 (enc_dbattr (af_attr a)) os.
End attr.
End AttrFile.

Module KeyFile.
Section key.
Context {OS : Type} (sys : syscalls OS).

Definition with_mgr (k : KeyFile) (m : fdpmgr) : KeyFile := {| kf_file := kf_file k; kf_mgr := Some m |}.

Definition open (k : KeyFile) (sync : bool) (os : OS) : Z * KeyFile * OS :=
  let '(r, f, os) := OpenFile sys (kf_file k) sync os in
  (r, {| kf_file := f; kf_mgr := kf_mgr k |}, os).

Definition read (fuel : nat) (k : KeyFile) (offset toRead : Z) (os : OS) : outcome (Z * bytes * OS) :=
  ReadFile sys fuel (kf_file k) offset toRead os.

Definition write (k : KeyFile) (offset : Z) (buf : bytes) (os : OS) : Z * OS :=
  WriteFile sys (kf_file k) offset buf os.

(** [write(&offset, buf, toWrite)]: the second result is what [*offset] is set
    to, if it is. *)
Definition write_new (k : KeyFile) (buf : bytes) (os : OS) : outcome (Z * option Z * KeyFile * OS) :=
  let* m := deref (kf_mgr k) in
  let* (newOffset, m, os) := FdpMgr.get sys m os in
  if newOffset <? 0 then Val (int32 newOffset, None, with_mgr k m, os)
  else
    let '(retval, os) := write k newOffset buf os in
    if negb (retval =? E_ok) then
      let* (_, m, os) := FdpMgr.free sys m newOffset os in
      Val (retval, None, with_mgr k m, os)
    else Val (retval, Some newOffset, with_mgr k m, os).

(** The three field updates; [kp] is the page in memory, if there is one. *)
Definition writeFlags (k : KeyFile) (offset : Z) (kp : option key_page) (flags : Z) (os : OS)
  : Z * option key_page * OS :=
  let offset := offset + offsetof_kp_flags in
  let '(retval, os) := write k offset (le 4 flags) os in
  if retval =? E_ok then (retval, option_map (fun kp => kp_with_flags kp flags) kp, os) else (retval, kp, os).

Definition writePrevOffset (k : KeyFile) (offset : Z) (kp : option key_page) (prevOffset : Z) (os : OS)
  : Z * option key_page * OS :=
  let offset := offset + offsetof_kp_poff in
  let '(retval, os) := write k offset (le 8 prevOffset) os in
  if retval =? E_ok then (retval, option_map (fun kp => kp_with_poff kp prevOffset) kp, os) else (retval, kp, os).

Definition writeNextOffset (k : KeyFile) (offset : Z) (kp : option key_page) (nextOffset : Z) (os : OS)
  : Z * option key_page * OS :=
  let offset := offset + offsetof_kp_noff in
  let '(retval, os) := write k offset (le 8 nextOffset) os in
  if retval =? E_ok then (retval, option_map (fun kp => kp_with_noff kp nextOffset) kp, os) else (retval, kp, os).

Definition freePage (k : KeyFile) (offset : Z) (os : OS) : outcome (Z * KeyFile * OS) :=
  match kf_mgr k with
  | Some m => let* (r, m, os) := FdpMgr.free sys m offset os in Val (r, with_mgr k m, os)
  | None => Val (E_invalid_state, k, os)
  end.
End key.
End KeyFile.

Module ValueFile.
Section value.
Context {OS : Type} (sys : syscalls OS).

Definition with_mgr (v : ValueFile) (m : fdpmgr) : ValueFile := {| vf_file := vf_file v; vf_mgr := Some m |}.

Definition open (v : ValueFile) (sync : bool) (os : OS) : Z * ValueFile * OS :=
  let '(r, f, os) := OpenFile sys (vf_file v) sync os in
  (r, {| vf_file := f; vf_mgr := vf_mgr v |}, os).

Definition read (fuel : nat) (v : ValueFile) (offset : Z) (os : OS) : outcome (Z * bytes * OS) :=
  ReadFile sys fuel (vf_file v) offset sizeof_value_page_t os.

(** An [int] is read at [vp_flags], the field and the one after it. *)
Definition readFlags (fuel : nat) (v : ValueFile) (offset : Z) (os : OS) : outcome (Z * bytes * OS) :=
  ReadFile sys fuel (vf_file v) (offset + offsetof_vp_flags) 4 os.

Definition write (v : ValueFile) (offset : Z) (vp : value_page) (os : OS) : Z * OS :=
  WriteFile sys (vf_file v) offset (enc_value_page vp) os.

(** [write(&offset, vp)] returns [E_ok] also when the page was not written. *)
Definition write_new (v : ValueFile) (vp : value_page) (os : OS) : outcome (Z * option Z * ValueFile * OS) :=
  let* m := deref (vf_mgr v) in
  let* (newOffset, m, os) := FdpMgr.get sys m os in
  if newOffset <? 0 then Val (int32 newOffset, None, with_mgr v m, os)
  else
    let '(retval, os) := write v newOffset vp os in
    if negb (retval =? E_ok) then
      let* (_, m, os) := FdpMgr.free sys m newOffset os in
      Val (E_ok, None, with_mgr v m, os)
    else Val (E_ok, Some newOffset, with_mgr v m, os).

Definition writeFlags (v : ValueFile) (offset : Z) (vp : option value_page) (flags : Z) (os : OS)
  : Z * option value_page * OS :=
  let '(retval, os) := WriteFile sys (vf_file v) (offset + offsetof_vp_flags) (le 4 flags) os in
  if retval =? E_ok then (retval, option_map (fun vp => vp_with_flags vp flags) vp, os) else (retval, vp, os).

Definition freePage (v : ValueFile) (offset : Z) (os : OS) : outcome (Z * ValueFile * OS) :=
  match vf_mgr v with
  | Some m => let* (r, m, os) := FdpMgr.free sys m offset os in Val (r, with_mgr v m, os)
  | None => Val (E_invalid_state, v, os)
  end.
End value.
End ValueFile.

(** ** Reading back the structures *)
Lemma raw_skip a b off n : (length a <= off)%nat -> raw (a ++ b) off n = raw b (off - length a) n.
Proof. intros. unfold raw. by rewrite drop_app_ge. Qed.

Lemma raw_here a b n : length a = n -> raw (a ++ b) 0 n = a.
Proof. intros. unfold raw. rewrite drop_0. by apply take_app_length'. Qed.

Lemma raw_all a n : length a = n -> raw a 0 n = a.
Proof. intros. unfold raw. rewrite drop_0. apply take_ge. lia. Qed.

Lemma fld_skip a b off n : (length a <= off)%nat -> fld (a ++ b) off n = fld b (off - length a) n.
Proof. intros. unfold fld. by rewrite raw_skip. Qed.

Definition fits (n : nat) (z : Z) : Prop := - 2 ^ (8 * Z.of_nat n - 1) <= z < 2 ^ (8 * Z.of_nat n - 1).

Lemma fld_here n z b : (0 < n)%nat -> fits n z -> fld (le n z ++ b) 0 n = z.
Proof. intros. unfold fld. rewrite raw_here by apply length_le. by apply sle_le. Qed.

Lemma fld_last n z : (0 < n)%nat -> fits n z -> fld (le n z) 0 n = z.
Proof. intros. unfold fld. rewrite raw_all by apply length_le. by apply sle_le. Qed.

(** Skips to a field and reads it. *)
Ltac read_field :=
  repeat (first [rewrite fld_skip by (autorewrite with bytes; simpl; lia)
                |rewrite raw_skip by (autorewrite with bytes; simpl; lia)];
          autorewrite with bytes;
          repeat match goal with H : length ?k = _ |- context [length ?k] => rewrite H end; simpl Nat.sub);
  solve [apply fld_here; [lia|done]|apply fld_last; [lia|done]|by rewrite raw_here|by rewrite raw_all].

(** A record whose fields fit the structure. *)
Record kr_fits (r : key_rec) : Prop := {
  krf_flags : fits 1 (kr_flags r); krf_height : fits 1 (kr_height r); krf_left : fits 2 (kr_left r);
  krf_right : fits 2 (kr_right r); krf_klen : fits 2 (kr_klen r); krf_key : length (kr_key r) = 48%nat;
  krf_voff : fits 8 (kr_voff r) }.

Record kp_fits (n : nat) (kp : key_page) : Prop := {
  kpf_flags : fits 2 (kp_flags kp); kpf_vcount : fits 2 (kp_vcount kp); kpf_root : fits 2 (kp_root kp);
  kpf_hash : fits 4 (kp_hash kp); kpf_poff : fits 8 (kp_poff kp); kpf_noff : fits 8 (kp_noff kp);
  kpf_len : length (kp_keys kp) = n; kpf_keys : Forall kr_fits (kp_keys kp) }.

Record vp_fits (vp : value_page) : Prop := {
  vpf_flags : fits 2 (vp_flags vp); vpf_klen : fits 4 (vp_klen vp); vpf_vlen : fits 4 (vp_vlen vp);
  vpf_key : length (vp_key vp) = 48%nat; vpf_value : length (vp_value vp) = 192%nat }.

Lemma length_enc_key_rec r : kr_fits r -> length (enc_key_rec r) = 64%nat.
Proof. intros []. unfold enc_key_rec. autorewrite with bytes. simpl. lia. Qed.

Lemma length_enc_key_recs l : Forall kr_fits l -> length (l ≫= enc_key_rec) = (64 * length l)%nat.
Proof.
  induction 1 as [|r l Hr _ IH]; [done|]. rewrite bind_cons, length_app, IH, length_enc_key_rec by done. simpl. lia.
Qed.

Lemma dec_enc_key_rec r : kr_fits r -> dec_key_rec (enc_key_rec r) = r.
Proof.
  intros []. destruct r as [fl h a b n k v]. unfold dec_key_rec, enc_key_rec in *.
  cbn [kr_flags kr_height kr_left kr_right kr_klen kr_key kr_voff] in *.
  f_equal; read_field.
Qed.

Lemma dec_enc_key_recs l b : Forall kr_fits l -> dec_key_recs (length l) ((l ≫= enc_key_rec) ++ b) = l.
Proof.
  induction 1 as [|r l Hr _ IH]; [done|]. cbn [length dec_key_recs]. rewrite bind_cons, <- app_assoc.
  rewrite drop_app_length' by (by rewrite length_enc_key_rec). f_equal; [|done].
  rewrite <- (dec_enc_key_rec r Hr) at 2. unfold dec_key_rec.
  assert (forall off n, (off + n <= 64)%nat -> raw (enc_key_rec r ++ (l ≫= enc_key_rec) ++ b) off n = raw (enc_key_rec r) off n) as E.
  { intros off n Hn. unfold raw. pose proof (length_enc_key_rec r Hr).
    rewrite drop_app_le by lia. by rewrite take_app_le by (rewrite length_drop; lia). }
  unfold fld. by rewrite !E by lia.
Qed.

Lemma length_enc_key_page n kp : kp_fits n kp -> length (enc_key_page kp) = (64 + 64 * n)%nat.
Proof.
  intros []. unfold enc_key_page, enc_kp_head. autorewrite with bytes.
  rewrite length_enc_key_recs by done. lia.
Qed.
Lemma length_enc_value_page vp : vp_fits vp -> length (enc_value_page vp) = 256%nat.
Proof. intros []. unfold enc_value_page. autorewrite with bytes. lia. Qed.

Lemma key_page_roundtrip kpSize kp : kp_fits (Z.to_nat (NUM_OF_KEYS_IN_PAGE kpSize)) kp ->
  dec_key_page kpSize (enc_key_page kp) = kp.
Proof.
  intros [? ? ? ? ? ? Hlen Hk]. destruct kp as [fl vc rt h po no ks]. unfold dec_key_page, enc_key_page, enc_kp_head in *.
  cbn [kp_flags kp_vcount kp_root kp_hash kp_poff kp_noff kp_keys] in *.
  f_equal; repeat rewrite <- app_assoc; try read_field.
  rewrite <- Hlen. rewrite <- (app_nil_r (ks ≫= enc_key_rec)).
  repeat (rewrite drop_app_ge by (autorewrite with bytes; simpl; lia); autorewrite with bytes; simpl Nat.sub).
  by apply dec_enc_key_recs.
Qed.

Lemma value_page_roundtrip vp : vp_fits vp -> dec_value_page (enc_value_page vp) = vp.
Proof.
  intros []. destruct vp as [fl kl vl k v]. unfold dec_value_page, enc_value_page in *.
  cbn [vp_flags vp_klen vp_vlen vp_key vp_value] in *. f_equal; read_field.
Qed.

(** The memory of a key page, and of a value page, determines it: the page
    read from the bytes that were written is the page. *)
Theorem page_bytes_roundtrip kpSize kp vp
  (Hkp : kp_fits (Z.to_nat (NUM_OF_KEYS_IN_PAGE kpSize)) kp) (Hvp : vp_fits vp) :
  dec_key_page kpSize (enc_key_page kp) = kp /\ dec_value_page (enc_value_page vp) = vp.
Proof. split; [by apply key_page_roundtrip|by apply value_page_roundtrip]. Qed.

Definition demo_key_rec : key_rec := InitKeyRecord.
Definition demo_key_page : key_page :=
  {| kp_flags := 0; kp_vcount := 3; kp_root := 2; kp_hash := 77; kp_poff := -1; kp_noff := 4096;
     kp_keys := replicate 15 InitKeyRecord |}.
Definition demo_value_page : value_page :=
  {| vp_flags := 0; vp_klen := 2; vp_vlen := 1; vp_key := replicate 48 7; vp_value := replicate 192 9 |}.

Ltac fits_tac := unfold fits; vm_compute; split; [intros ?; discriminate|reflexivity].

Lemma demo_key_page_fits : kp_fits (Z.to_nat (NUM_OF_KEYS_IN_PAGE 1024)) demo_key_page.
Proof.
  split; simpl; try fits_tac; [reflexivity|].
  repeat (constructor; [split; simpl; first [fits_tac|reflexivity]|]). constructor.
Qed.
Lemma demo_value_page_fits : vp_fits demo_value_page.
Proof. split; simpl; first [fits_tac|reflexivity]. Qed.

Lemma page_bytes_roundtrip_witness :
  dec_key_page 1024 (enc_key_page demo_key_page) = demo_key_page /\
  dec_value_page (enc_value_page demo_value_page) = demo_value_page.
Proof. apply (page_bytes_roundtrip 1024); [apply demo_key_page_fits|apply demo_value_page_fits]. Defined.

(** ** What is on the disk *)
Section disk.
Context {OS : Type} (sys : syscalls OS) (f : file) `{Reg : !Regular sys (fd f)}.
Hypothesis Hopen : fd f <> INVALID_HANDLE_VALUE.

(** The file has the bytes [b] at [off]. *)
Definition stored (os : OS) (off : Z) (b : bytes) : Prop :=
  0 <= off /\ take (length b) (drop (Z.to_nat off) (f_data os)) = b.

Lemma stored_length os off b : stored os off b -> b <> [] -> (Z.to_nat off + length b <= length (f_data os))%nat.
Proof.
  intros [_ H] Hb. apply (f_equal length) in H. rewrite length_take, length_drop in H.
  assert (0 < length b)%nat by (destruct b; [done|simpl; lia]). lia.
Qed.

Lemma WriteFile_spec off b os : 0 <= off -> b <> [] ->
  exists r os', WriteFile sys f off b os = (r, os') /\ (f_intr os' <= f_intr os)%nat /\
    (r = E_ok /\ f_data os' = splice (f_data os) (Z.to_nat off) b \/
     r < 0 /\ exists n, (n < length b)%nat /\ f_data os' = splice (f_data os) (Z.to_nat off) (take n b)).
Proof.
  intros Ho Hb. unfold WriteFile, File.write_at.
  assert (0 < length b)%nat by (destruct b; [done|simpl; lia]).
  destruct (seek_spec sys f Hopen off os Ho) as (r & e & os1 & -> & Hd & Hi & [[-> Hp]|[-> Hp]]); simpl.
  { eexists _, _. split; [done|]. split; [done|]. right. split; [done|]. exists 0%nat. by rewrite take_0. }
  destruct (write_spec sys f Hopen b os1 Hb) as (r & e' & n & os2 & -> & Hi2 & [(-> & -> & Hd2 & Hp2)|(-> & Hn & Hd2 & Hp2)]); simpl.
  { eexists _, _. split; [done|]. split; [lia|]. right. split; [done|]. exists 0%nat. rewrite take_0. split; [lia|]. simpl. congruence. }
  destruct (Z.eqb_spec n (zlen b)) as [->|Hne]; simpl; eexists _, _; (split; [done|]); (split; [lia|]).
  - left. split; [done|]. rewrite Hd2, Hd, Hp, take_ge by (unfold zlen; lia). done.
  - right. split; [done|]. exists (Z.to_nat n). split; [unfold zlen in *; lia|]. congruence.
Qed.

Lemma write_stored off b os os' : 0 <= off -> b <> [] -> WriteFile sys f off b os = (E_ok, os') -> stored os' off b.
Proof.
  intros Ho Hb Hw. destruct (WriteFile_spec off b os Ho Hb) as (r & os1 & E & _ & H). rewrite Hw in E.
  injection E as <- <-. destruct H as [[_ Hd]|[? _]]; [|done]. split; [done|]. rewrite Hd. apply splice_read.
Qed.

(** A field of a structure is overwritten. *)
Lemma write_field off a x y c os os' : stored os off (a ++ x ++ c) -> length y = length x -> y <> [] ->
  WriteFile sys f (off + zlen a) y os = (E_ok, os') -> stored os' off (a ++ y ++ c).
Proof.
  intros [Ho Hs] Hl Hy Hw. pose proof (zlen_nonneg a).
  destruct (WriteFile_spec (off + zlen a) y os ltac:(lia) Hy) as (r & os1 & E & _ & Hd). rewrite Hw in E.
  injection E as <- <-. destruct Hd as [[_ Hd]|[? _]]; [|done]. split; [done|]. rewrite Hd. by apply (bytes_at_field _ _ _ x).
Qed.

Lemma ReadFile_spec fuel off n os : 0 <= off -> 0 < n -> (f_intr os + Z.to_nat n < fuel)%nat ->
  exists r b os', ReadFile sys fuel f off n os = Val (r, b, os') /\ f_data os' = f_data os /\
    let avail := zlen (drop (Z.to_nat off) (f_data os)) in
    (r = E_seek_failed \/ r = E_read_failed \/
     (r = E_eof_detected /\ avail = 0) \/
     (r = E_ok /\ n <= avail /\ b = take (Z.to_nat n) (drop (Z.to_nat off) (f_data os)))).
Proof.
  intros Ho Hn Hf. unfold ReadFile.
  destruct (read_at_code sys f Hopen fuel off n os Ho Hn Hf) as (r & e & b & os' & -> & Hd & Hres). simpl.
  destruct Hres as [[->| ->]|[-> ->]]; simpl; [eexists _, _, _; split; [done|]; auto..|].
  set (l := drop (Z.to_nat off) (f_data os)).
  assert (zlen (take (Z.to_nat n) l) = Z.min n (zlen l)) as Hz by (unfold zlen; rewrite length_take; lia).
  rewrite Hz. pose proof (zlen_nonneg l).
  destruct (Z.eqb_spec (Z.min n (zlen l)) 0); simpl; [|destruct (Z.eqb_spec (Z.min n (zlen l)) n); simpl];
    eexists _, _, _; (split; [done|]); (split; [done|]); simpl; auto 10 with lia.
Qed.

Lemma ReadFile_stored fuel off b os : stored os off b -> b <> [] -> (f_intr os + length b < fuel)%nat ->
  exists r b' os', ReadFile sys fuel f off (zlen b) os = Val (r, b', os') /\ f_data os' = f_data os /\
    (r = E_seek_failed \/ r = E_read_failed \/ r = E_ok /\ b' = b).
Proof.
  intros [Ho Hs] Hb Hf. assert (0 < length b)%nat by (destruct b; [done|simpl; lia]).
  destruct (ReadFile_spec fuel off (zlen b) os Ho) as (r & b' & os' & -> & Hd & Hres);
    [unfold zlen; lia|unfold zlen; by rewrite Nat2Z.id|].
  eexists _, _, _. split; [done|]. split; [done|].
  destruct Hres as [?|[?|[[_ Ha]|(-> & _ & ->)]]]; [auto|auto| |].
  - apply (f_equal length) in Hs. rewrite length_take in Hs. unfold zlen in Ha. lia.
  - right. right. split; [done|]. unfold zlen. by rewrite Nat2Z.id.
Qed.
End disk.
Arguments stored {OS} sys f {Reg}.

Lemma enc_key_page_ne kp : enc_key_page kp <> [].
Proof. done. Qed.
Lemma enc_value_page_ne vp : enc_value_page vp <> [].
Proof. done. Qed.

(** A page that was written is the page that is read: after
    [KeyFile::write] succeeds, [KeyFile::read] of the page size at that offset
    cannot seek or read, or returns memory that is the page; the same for value
    pages. *)
Theorem page_write_read {OS} (sys : syscalls OS) fuel k v off kpSize kp vp os os1 os2
  {RegK : Regular sys (fd (kf_file k))} {RegV : Regular sys (fd (vf_file v))}
  (Hk : fd (kf_file k) <> INVALID_HANDLE_VALUE) (Hv : fd (vf_file v) <> INVALID_HANDLE_VALUE) (Hoff : 0 <= off)
  (Hkp : kp_fits (Z.to_nat (NUM_OF_KEYS_IN_PAGE kpSize)) kp) (Hvp : vp_fits vp)
  (Hsize : kpSize = zlen (enc_key_page kp))
  (Hwk : KeyFile.write sys k off (enc_key_page kp) os = (E_ok, os1))
  (Hwv : ValueFile.write sys v off vp os = (E_ok, os2))
  (Hfuel : (@f_intr _ _ _ RegK os1 + length (enc_key_page kp) < fuel)%nat)
  (Hfuelv : (@f_intr _ _ _ RegV os2 + length (enc_value_page vp) < fuel)%nat) :
  (exists r b os3, KeyFile.read sys fuel k off kpSize os1 = Val (r, b, os3) /\
     (r = E_seek_failed \/ r = E_read_failed \/ r = E_ok /\ dec_key_page kpSize b = kp)) /\
  (exists r b os3, ValueFile.read sys fuel v off os2 = Val (r, b, os3) /\
     (r = E_seek_failed \/ r = E_read_failed \/ r = E_ok /\ dec_value_page b = vp)).
Proof.
  pose proof (key_page_roundtrip _ _ Hkp) as Dk. pose proof (value_page_roundtrip _ Hvp) as Dv. split.
  - apply (write_stored sys _ Hk _ _ _ _ Hoff (enc_key_page_ne kp)) in Hwk.
    destruct (ReadFile_stored sys _ Hk fuel _ _ _ Hwk (enc_key_page_ne kp) Hfuel) as (r & b & os3 & E & _ & H).
    rewrite <- Hsize in E. unfold KeyFile.read. rewrite E. eexists _, _, _. split; [done|]. naive_solver.
  - apply (write_stored sys _ Hv _ _ _ _ Hoff (enc_value_page_ne vp)) in Hwv.
    destruct (ReadFile_stored sys _ Hv fuel _ _ _ Hwv (enc_value_page_ne vp) Hfuelv) as (r & b & os3 & E & _ & H).
    unfold ValueFile.read. change sizeof_value_page_t with (Z.of_nat 256).
    rewrite <- (length_enc_value_page vp Hvp). fold (zlen (enc_value_page vp)). rewrite E.
    eexists _, _, _. split; [done|]. naive_solver.
Qed.

(** Updating a field of a page on the disk changes that field and nothing
    else: a page stored at the offset becomes the page with the new link, and
    the page in memory changes the same way, so the two stay equal. *)
Theorem link_update {OS} (sys : syscalls OS) k {Reg : Regular sys (fd (kf_file k))} off kp x os
  (Hopen : fd (kf_file k) <> INVALID_HANDLE_VALUE)
  (Hst : stored sys (kf_file k) os off (enc_key_page kp)) :
  (forall mem os1, KeyFile.writeNextOffset sys k off (Some kp) x os = (E_ok, mem, os1) ->
     mem = Some (kp_with_noff kp x) /\ stored sys (kf_file k) os1 off (enc_key_page (kp_with_noff kp x))) /\
  (forall mem os1, KeyFile.writePrevOffset sys k off (Some kp) x os = (E_ok, mem, os1) ->
     mem = Some (kp_with_poff kp x) /\ stored sys (kf_file k) os1 off (enc_key_page (kp_with_poff kp x))) /\
  (forall r mem os1, KeyFile.writeNextOffset sys k off (Some kp) x os = (r, mem, os1) -> r <> E_ok -> mem = Some kp).
Proof.
  unfold KeyFile.writeNextOffset, KeyFile.writePrevOffset, KeyFile.write. split; [|split].
  - intros mem os1. destruct (WriteFile _ _ _ _ _) as [r os2] eqn:E.
    destruct (Z.eqb_spec r E_ok) as [->|]; simpl; [intros [= <- <-]|by intros [= ? _ _]]. split; [done|].
    unfold enc_key_page. cbn [kp_with_noff kp_flags kp_vcount kp_poff kp_noff kp_keys].
    pose proof (write_field sys (kf_file k) Hopen off (le 2 (kp_flags kp) ++ le 2 (kp_vcount kp) ++ enc_kp_head kp ++ le 8 (kp_poff kp))
      (le 8 (kp_noff kp)) (le 8 x) (replicate 32 0 ++ (kp_keys kp ≫= enc_key_rec)) os os2) as W.
    rewrite <- !app_assoc in W. apply W; [exact Hst|by rewrite !length_le|done|exact E].
  - intros mem os1. destruct (WriteFile _ _ _ _ _) as [r os2] eqn:E.
    destruct (Z.eqb_spec r E_ok) as [->|]; simpl; [intros [= <- <-]|by intros [= ? _ _]]. split; [done|].
    unfold enc_key_page. cbn [kp_with_poff kp_flags kp_vcount kp_poff kp_noff kp_keys].
    pose proof (write_field sys (kf_file k) Hopen off (le 2 (kp_flags kp) ++ le 2 (kp_vcount kp) ++ enc_kp_head kp)
      (le 8 (kp_poff kp)) (le 8 x) (le 8 (kp_noff kp) ++ replicate 32 0 ++ (kp_keys kp ≫= enc_key_rec)) os os2) as W.
    rewrite <- !app_assoc in W. apply W; [exact Hst|by rewrite !length_le|done|exact E].
  - intros r mem os1. destruct (WriteFile _ _ _ _ _) as [r2 os2] eqn:E.
    destruct (Z.eqb_spec r2 E_ok) as [->|]; simpl; intros [= <- <- <-]; done.
Qed.

(** [KeyFile::writeFlags] writes the four bytes of an [int] over the two
    bytes of [kp_flags], so it also sets [kp_vcount] on the disk (to zero for
    the flags the code uses) while the page in memory keeps its count. *)
Theorem writeFlags_clobbers_count {OS} (sys : syscalls OS) k {Reg : Regular sys (fd (kf_file k))} off kp fl os mem os1
  (Hopen : fd (kf_file k) <> INVALID_HANDLE_VALUE) (Hfl : 0 <= fl < 2 ^ 15)
  (Hst : stored sys (kf_file k) os off (enc_key_page kp))
  (Hw : KeyFile.writeFlags sys k off (Some kp) fl os = (E_ok, mem, os1)) :
  mem = Some (kp_with_flags kp fl) /\
  stored sys (kf_file k) os1 off (enc_key_page (kp_with_vcount (kp_with_flags kp fl) 0)).
Proof.
  revert Hw. unfold KeyFile.writeFlags, KeyFile.write. destruct (WriteFile _ _ _ _ _) as [r os2] eqn:E.
  destruct (Z.eqb_spec r E_ok) as [->|]; simpl; [intros [= <- <-]|by intros [= ? _ _]]. split; [done|].
  assert (le 4 fl = le 2 (short16 fl) ++ le 2 0) as H4.
  { rewrite (wrapS_id 16 fl) by lia. unfold le. simpl.
    replace (fl / 256 / 256) with 0 by (symmetry; rewrite Z.div_div by lia; apply Z.div_small; lia). done. }
  pose proof (write_field sys (kf_file k) Hopen off [] (le 2 (kp_flags kp) ++ le 2 (kp_vcount kp)) (le 4 fl)
    (enc_kp_head kp ++ le 8 (kp_poff kp) ++ le 8 (kp_noff kp) ++ replicate 32 0 ++ (kp_keys kp ≫= enc_key_rec)) os os2) as W.
  rewrite !app_nil_l, <- !app_assoc in W.
  unfold enc_key_page. cbn [kp_with_vcount kp_with_flags kp_flags kp_vcount kp_poff kp_noff kp_keys].
  change (short16 0) with 0. rewrite (app_assoc (le 2 (short16 fl))), <- H4. apply W; [exact Hst|by rewrite length_app, !length_le|done|exact E].
Qed.

(** ** Witnesses *)
Definition demo_kf : KeyFile := {| kf_file := demo_file; kf_mgr := Some (FdpMgr.with_stack (fdp_new 1024 None) [2048]) |}.
Definition demo_vf : ValueFile := {| vf_file := demo_file; vf_mgr := Some (FdpMgr.with_stack (fdp_new 256 None) [512]) |}.
Definition demo_empty : script := script_init [] [].
Definition demo_key_disk : script := (KeyFile.write script_sys demo_kf 1024 (enc_key_page demo_key_page) demo_empty).2.
Definition demo_value_disk : script := (ValueFile.write script_sys demo_vf 1024 demo_value_page demo_empty).2.

Lemma page_write_read_witness :
  KeyFile.write script_sys demo_kf 1024 (enc_key_page demo_key_page) demo_empty = (E_ok, demo_key_disk) /\
  ValueFile.write script_sys demo_vf 1024 demo_value_page demo_empty = (E_ok, demo_value_disk) /\
  exists r b os3, KeyFile.read script_sys 2000 demo_kf 1024 1024 demo_key_disk = Val (r, b, os3) /\
     (r = E_seek_failed \/ r = E_read_failed \/ r = E_ok /\ dec_key_page 1024 b = demo_key_page).
Proof.
  split; [vm_compute; reflexivity|]. split; [vm_compute; reflexivity|].
  eapply (page_write_read script_sys 2000 demo_kf demo_vf 1024 1024 demo_key_page demo_value_page demo_empty demo_key_disk
    demo_value_disk);
    [done|done|lia|apply demo_key_page_fits|apply demo_value_page_fits|reflexivity|vm_compute; reflexivity|vm_compute; reflexivity
    |vm_compute; lia|vm_compute; lia].
Defined.

Lemma demo_key_disk_stored : stored script_sys demo_file demo_key_disk 1024 (enc_key_page demo_key_page).
Proof. split; [lia|]. vm_compute. reflexivity. Qed.

Lemma link_update_witness :
  stored script_sys demo_file demo_key_disk 1024 (enc_key_page demo_key_page) /\
  forall mem os1, KeyFile.writeNextOffset script_sys demo_kf 1024 (Some demo_key_page) 8192 demo_key_disk = (E_ok, mem, os1) ->
     mem = Some (kp_with_noff demo_key_page 8192) /\
     stored script_sys demo_file os1 1024 (enc_key_page (kp_with_noff demo_key_page 8192)).
Proof.
  split; [apply demo_key_disk_stored|].
  apply (link_update script_sys demo_kf 1024 demo_key_page 8192 demo_key_disk); [done|apply demo_key_disk_stored].
Defined.

Lemma writeFlags_clobbers_count_witness :
  exists mem os1, KeyFile.writeFlags script_sys demo_kf 1024 (Some demo_key_page) 0 demo_key_disk = (E_ok, mem, os1) /\
  mem = Some (kp_with_flags demo_key_page 0) /\
  stored script_sys demo_file os1 1024 (enc_key_page (kp_with_vcount (kp_with_flags demo_key_page 0) 0)) /\
  kp_vcount demo_key_page = 3.
Proof.
  eexists _, _. split; [vm_compute; reflexivity|].
  apply and_assoc. split; [|reflexivity].
  apply (writeFlags_clobbers_count script_sys demo_kf 1024 demo_key_page 0 demo_key_disk);
    [done|lia|apply demo_key_disk_stored|vm_compute; reflexivity].
Defined.

(** ** New pages *)
Section alloc.
Context {OS : Type} (sys : syscalls OS) {Regs : forall d, Regular sys d}.

(** Without a file of its own, the manager does not touch the system. *)
Lemma get_nofile used m rel fr os : pages_ok used m rel fr -> fr + pageSize m < 2 ^ 63 -> fdp_file m = None ->
  exists p m' fr', FdpMgr.get sys m os = Val (p, m', os) /\ 0 <= p /\ Z.divide (pageSize m) p /\ (p ∉ used) /\
    fdp_file m' = None /\ pages_ok ({[p]} ∪ used) m' (tail rel) fr'.
Proof.
  intros Hok Hov Hf.
  destruct (fdp_get_ok sys used m rel fr os Hok) as [(_ & _ & ?)|(r & m1 & os1 & E & H)]; [lia|].
  assert (0 <= r /\ os1 = os /\ fdp_file m1 = None) as (Hr & -> & Hf1).
  { revert E. unfold FdpMgr.get. rewrite (po_stack _ _ _ _ Hok). unfold FdpMgr.removeOffsetFromFile, FdpMgr.addOffsetToFile.
    assert (forall x, x ∈ rel ++ [fr] -> 0 <= x) as Hnn.
    { intros x [Hx|Hx]%elem_of_app; [by apply (po_released _ _ _ _ Hok) in Hx as [? _]; lia|].
      apply list_elem_of_singleton in Hx as ->. apply (po_frontier _ _ _ _ Hok). }
    destruct rel as [|x rel]; simpl; rewrite ?Hf; simpl; rewrite ?Hf; simpl.
    - rewrite decide_True by lia. simpl. intros [= <- <- <-]. split; [apply Hnn; set_solver|done].
    - destruct (rel ++ [fr]) eqn:Enil; [by destruct rel|]. intros [= <- <- <-]. split; [apply Hnn; set_solver|done]. }
  rewrite E. destruct H as [[? _]|(_ & ? & ? & ?)]; [lia|]. eauto 10.
Qed.

Lemma free_nofile used m rel fr p os : pages_ok used m rel fr -> p ∈ used -> fdp_file m = None ->
  exists m', FdpMgr.free sys m p os = Val (E_ok, m', os) /\ pages_ok (used ∖ {[p]}) m' (p :: rel) fr.
Proof.
  intros Hok Hp Hf. destruct (fdp_free_ok sys used m rel fr p os Hok Hp) as (r & m' & os' & E & H).
  assert (r = E_ok /\ os' = os) as [-> ->].
  { revert E. unfold FdpMgr.free. destruct (ASSERT _); simpl; try done. case_decide; simpl; [done|].
    destruct (ASSERT _); simpl; try done. unfold FdpMgr.addOffsetToFile. simpl. rewrite Hf. simpl. by intros [= <- _ <-]. }
  exists m'. split; [done|]. destruct H as [[? _]|[_ ?]]; done.
Qed.
End alloc.

(** A new key page: [KeyFile::write(&offset, ...)] either stores the bytes
    in a page that nobody has, at an aligned offset it reports, or fails, in
    which case no offset is reported and the page is free again. *)
Theorem new_page {OS} (sys : syscalls OS) {Regs : forall d, Regular sys d} k m used rel fr buf os
  (Hopen : fd (kf_file k) <> INVALID_HANDLE_VALUE) (Hb : buf <> [])
  (Hm : kf_mgr k = Some m) (Hok : pages_ok used m rel fr) (Hov : fr + pageSize m < 2 ^ 63) (Hnf : fdp_file m = None) :
  exists r off k' os' m', KeyFile.write_new sys k buf os = Val (r, off, k', os') /\
    kf_file k' = kf_file k /\ kf_mgr k' = Some m' /\
    ((r = E_ok /\ exists p fr', off = Some p /\ (p ∉ used) /\ Z.divide (pageSize m) p /\
        stored sys (kf_file k) os' p buf /\ pages_ok ({[p]} ∪ used) m' (tail rel) fr') \/
     (r < 0 /\ off = None /\ exists rel' fr', pages_ok used m' rel' fr')).
Proof.
  unfold KeyFile.write_new, KeyFile.write. rewrite Hm. simpl.
  destruct (get_nofile sys used m rel fr os Hok Hov Hnf) as (p & m1 & fr' & -> & Hp & Hal & Hu & Hnf1 & Hok1). simpl.
  rewrite (proj2 (Z.ltb_ge p 0)) by lia.
  destruct (WriteFile_spec sys (kf_file k) Hopen p buf os Hp Hb) as (r & os1 & E & _ & H). rewrite E.
  destruct H as [[-> _]|[Hr _]].
  - simpl. eexists _, _, _, _, m1. split; [done|]. split; [done|]. split; [done|]. left. split; [done|].
    exists p, fr'. repeat (split; [done|]). split; [|done]. by eapply write_stored.
  - destruct (Z.eqb_spec r E_ok) as [->|Hne]; [done|]. simpl.
    destruct (free_nofile sys _ m1 _ fr' p os1 Hok1 ltac:(set_solver) Hnf1) as (m2 & -> & Hok2). simpl.
    eexists _, _, _, _, m2. split; [done|]. split; [done|]. split; [done|]. right. split; [done|]. split; [done|].
    exists (p :: tail rel), fr'. replace used with (({[p]} ∪ used) ∖ {[p]}) by set_solver. done.
Qed.

Lemma new_page_witness :
  pages_ok ∅ (FdpMgr.with_stack (fdp_new 1024 None) [2048]) [] 2048 /\
  exists r off k' os' m', KeyFile.write_new script_sys demo_kf (enc_key_page demo_key_page) demo_empty = Val (r, off, k', os') /\
    kf_file k' = demo_file /\ kf_mgr k' = Some m' /\
    ((r = E_ok /\ exists p fr', off = Some p /\ (p ∉ (∅ : gset Z)) /\ Z.divide 1024 p /\
        stored script_sys demo_file os' p (enc_key_page demo_key_page) /\ pages_ok ({[p]} ∪ ∅) m' [] fr') \/
     (r < 0 /\ off = None /\ exists rel' fr', pages_ok ∅ m' rel' fr')).
Proof.
  assert (pages_ok ∅ (FdpMgr.with_stack (fdp_new 1024 None) [2048]) [] 2048) as Hok.
  { split; simpl; [lia|done|constructor| |set_solver|set_solver]. split; [lia|]. by exists 2. }
  split; [exact Hok|].
  apply (new_page script_sys demo_kf (FdpMgr.with_stack (fdp_new 1024 None) [2048]) ∅ [] 2048); [done|done|done|exact Hok|done|done].
Defined.

(** [ValueFile::write(&offset, ...)] loses a write error: where
    [KeyFile::write] reports the failure, it returns [E_ok] and leaves the
    caller's offset as it was. *)
Theorem value_write_error_lost :
  (exists k os, KeyFile.write_new script_sys demo_kf (enc_key_page demo_key_page) (script_init [] [Fine; Failing 28]) =
     Val (E_write_failed, None, k, os)) /\
  (exists v os, ValueFile.write_new script_sys demo_vf demo_value_page (script_init [] [Fine; Failing 28]) =
     Val (E_ok, None, v, os) /\ s_data os = []).
Proof.
  split; eexists _, _; [|split]; vm_compute; reflexivity.
Qed.
