(* ===== verification/RwLock.v ===== *)
(** * librdb: locks (librdb/src/rwlock.cpp, librdb/src/hashtable.cpp)

    The read-write locks of the hash table: [RWLock] over a POSIX read-write
    lock, the pool of locks, and [HashTable::rdlock], [rdunlock], [wrlock] and
    [wrunlock], which attach a lock to an entry on demand.  Threads are a step
    relation: a step takes the table's mutex, or finishes what a thread does
    under it.  The POSIX lock grants a reader when there is no writer and a
    writer when there is nobody; a call that is not granted blocks. *)
From S2P Require Import Prelude File.

(** Who holds the POSIX lock. *)
Inductive holders := Free | Readers (n : positive) | Writer.

Record RWLock := { cnt : Z; held : holders }.

Module RWLock.
(** [RWLock()] *)
Definition new : RWLock := {| cnt := 0; held := Free |}.

(** [None]: the call blocks. *)
Definition rdlock (l : RWLock) : option RWLock :=
  match held l with
  | Free => Some {| cnt := cnt l + 1; held := Readers 1 |}
  | Readers n => Some {| cnt := cnt l + 1; held := Readers (n + 1) |}
  | Writer => None
  end.

Definition wrlock (l : RWLock) : option RWLock :=
  match held l with
  | Free => Some {| cnt := cnt l + 1; held := Writer |}
  | _ => None
  end.

(** [tryrdlock] and [trywrlock]: the code, instead of blocking. *)
Definition tryrdlock (l : RWLock) : Z * RWLock :=
  match rdlock l with Some l => (E_ok, l) | None => (E_try_again, l) end.
Definition trywrlock (l : RWLock) : Z * RWLock :=
  match wrlock l with Some l => (E_ok, l) | None => (E_try_again, l) end.

(** [pthread_rwlock_unlock] by a holder. *)
Definition unlock (h : holders) : holders :=
  match h with
  | Readers n => if decide (n = 1%positive) then Free else Readers (Pos.pred n)
  | _ => Free
  end.

Definition rdunlock (l : RWLock) : RWLock :=
  if 0 <? cnt l then {| cnt := cnt l - 1; held := unlock (held l) |} else l.
Definition wrunlock (l : RWLock) : RWLock := rdunlock l.
Definition getLockCount (l : RWLock) : Z := cnt l.
End RWLock.

(** The locks in memory, by address, and the pool, in its order. *)
Record RWLockPool := { locks : gmap nat RWLock; pool : list nat; fresh : nat }.

Module RWLockPool.
Definition get (p : RWLockPool) : nat * RWLockPool :=
  match pool p with
  | a :: rest => (a, {| locks := locks p; pool := rest; fresh := fresh p |})
  | [] => (fresh p, {| locks := <[fresh p := RWLock.new]> (locks p); pool := []; fresh := S (fresh p) |})
  end.
Definition put (p : RWLockPool) (a : nat) : RWLockPool :=
  {| locks := locks p; pool := pool p ++ [a]; fresh := fresh p |}.
Definition set (p : RWLockPool) (a : nat) (l : RWLock) : RWLockPool :=
  {| locks := <[a := l]> (locks p); pool := pool p; fresh := fresh p |}.
End RWLockPool.

(** ** The hash table's locks *)
Record locktable := {
  ents : gmap Z nat;            (* [hent->rwlock], absent when null *)
  lpool : RWLockPool }.

Definition lt_init : locktable := {| ents := ∅; lpool := {| locks := ∅; pool := []; fresh := 0 |} |}.

Module LockTable.
(** The lock of an entry, taken from the pool when there is none. *)
Definition attach (t : locktable) (i : Z) : nat * locktable :=
  match ents t !! i with
  | Some a => (a, t)
  | None => let '(a, p) := RWLockPool.get (lpool t) in (a, {| ents := <[i := a]> (ents t); lpool := p |})
  end.

Definition store (t : locktable) (a : nat) (l : RWLock) : locktable :=
  {| ents := ents t; lpool := RWLockPool.set (lpool t) a l |}.

(** The part of [rdlock] and [wrlock] after the lock is attached; [None]: the
    thread blocks, with the mutex. *)
Definition rdlock (t : locktable) (i : Z) : option locktable :=
  let '(a, t) := attach t i in
  match locks (lpool t) !! a with
  | Some l => match RWLock.rdlock l with Some l => Some (store t a l) | None => None end
  | None => None
  end.

Definition wrlock (t : locktable) (i : Z) : option locktable :=
  let '(a, t) := attach t i in
  match locks (lpool t) !! a with
  | Some l => match RWLock.wrlock l with Some l => Some (store t a l) | None => None end
  | None => None
  end.

Definition rdunlock (t : locktable) (i : Z) : locktable :=
  match ents t !! i with
  | Some a =>
      match locks (lpool t) !! a with
      | Some l =>
          let l := RWLock.rdunlock l in
          let t := store t a l in
          if RWLock.getLockCount l =? 0
          then {| ents := delete i (ents t); lpool := RWLockPool.put (lpool t) a |} else t
      | None => t
      end
  | None => t
  end.

Definition wrunlock (t : locktable) (i : Z) : locktable :=
  match ents t !! i with
  | Some a =>
      match locks (lpool t) !! a with
      | Some l =>
          let t := store t a (RWLock.wrunlock l) in
          {| ents := delete i (ents t); lpool := RWLockPool.put (lpool t) a |}
      | None => t
      end
  | None => t
  end.
End LockTable.

(** ** Threads *)
Inductive pc := Idle | InLock (i : Z) (excl : bool) | Holds (i : Z) (excl : bool).

#[export] Instance pc_eq_dec : EqDecision pc.
Proof. solve_decision. Defined.

(** [mutex] is the thread inside a lock function, if any. *)
Record world := { mutex : option nat; table : locktable; threads : gmap nat pc }.

Definition pc_of (w : world) (t : nat) : pc := default Idle (threads w !! t).
Definition w_init : world := {| mutex := None; table := lt_init; threads := ∅ |}.

(** [lock_guard] in a lock function; the lock granted, the function returns and
    the mutex is released; an unlock function, which never waits inside. *)
Inductive step : world -> world -> Prop :=
  | step_enter w t i excl : mutex w = None -> pc_of w t = Idle ->
      step w {| mutex := Some t; table := table w; threads := <[t := InLock i excl]> (threads w) |}
  | step_granted w t i excl tb : mutex w = Some t -> pc_of w t = InLock i excl ->
      (if excl then LockTable.wrlock (table w) i else LockTable.rdlock (table w) i) = Some tb ->
      step w {| mutex := None; table := tb; threads := <[t := Holds i excl]> (threads w) |}
  | step_unlock w t i excl : mutex w = None -> pc_of w t = Holds i excl ->
      step w {| mutex := None;
                table := if excl then LockTable.wrunlock (table w) i else LockTable.rdunlock (table w) i;
                threads := <[t := Idle]> (threads w) |}.

Definition reachable (w : world) : Prop := rtc step w_init w.

(** ** The invariant *)
Definition count (i : Z) (excl : bool) (m : gmap nat pc) : nat := size (filter (fun kv => kv.2 = Holds i excl) m).

Lemma count_delete i e m t p : m !! t = Some p ->
  count i e m = ((if decide (p = Holds i e) then 1 else 0) + count i e (delete t m))%nat.
Proof.
  intros Ht. unfold count. rewrite <- (insert_delete_id m t p Ht) at 1.
  case_decide as Hp.
  - rewrite map_filter_insert_True by done. rewrite map_size_insert_None; [done|].
    apply map_lookup_filter_None. left. apply lookup_delete_eq.
  - rewrite map_filter_insert_False by done. f_equal. f_equal. by rewrite delete_delete_eq.
Qed.

Lemma count_insert i e m t p :
  count i e (<[t := p]> m) = ((if decide (p = Holds i e) then 1 else 0) + count i e (delete t m))%nat.
Proof. rewrite (count_delete i e _ t p) by apply lookup_insert_eq. by rewrite delete_insert_eq. Qed.

Lemma count_pc i e w t :
  count i e (threads w) = ((if decide (pc_of w t = Holds i e) then 1 else 0) + count i e (delete t (threads w)))%nat.
Proof.
  unfold pc_of. destruct (threads w !! t) as [p|] eqn:E; simpl default; [by apply count_delete|].
  rewrite decide_False by done. by rewrite delete_id.
Qed.

(** What a lock records of the threads that hold its entry. *)
Definition lock_ok (l : RWLock) (r w : nat) : Prop :=
  (held l = Writer /\ w = 1%nat /\ r = 0%nat /\ cnt l = 1) \/
  (exists n, held l = Readers n /\ w = 0%nat /\ r = Pos.to_nat n /\ cnt l = Zpos n).

Definition entry_ok (tb : locktable) (m : gmap nat pc) (i : Z) : Prop :=
  match ents tb !! i with
  | None => count i true m = 0%nat /\ count i false m = 0%nat
  | Some a => exists l, locks (lpool tb) !! a = Some l /\ lock_ok l (count i false m) (count i true m)
  end.

Record pool_ok (tb : locktable) : Prop := {
  pk_nodup : NoDup (pool (lpool tb));
  pk_free a : a ∈ pool (lpool tb) -> locks (lpool tb) !! a = Some RWLock.new;
  pk_fresh a l : locks (lpool tb) !! a = Some l -> (a < fresh (lpool tb))%nat;
  pk_used i a : ents tb !! i = Some a -> a ∉ pool (lpool tb);
  pk_live i a : ents tb !! i = Some a -> is_Some (locks (lpool tb) !! a);
  pk_inj i j a : ents tb !! i = Some a -> ents tb !! j = Some a -> i = j }.

Record world_ok (w : world) : Prop := {
  wk_pool : pool_ok (table w);
  wk_entry i : entry_ok (table w) (threads w) i;
  wk_mutex t i e : pc_of w t = InLock i e -> mutex w = Some t }.

(** Attaching a lock gives the entry its lock or a free one, and keeps the other
    entries. *)
Lemma attach_ok tb i a tb' : pool_ok tb -> LockTable.attach tb i = (a, tb') ->
  pool_ok tb' /\ ents tb' !! i = Some a /\ (forall j, j <> i -> ents tb' !! j = ents tb !! j) /\
  (forall b l, locks (lpool tb) !! b = Some l -> locks (lpool tb') !! b = Some l) /\
  (ents tb !! i = Some a \/ ents tb !! i = None /\ locks (lpool tb') !! a = Some RWLock.new).
Proof.
  intros [Hnd Hfree Hfr Hus Hlv Hinj]. unfold LockTable.attach. destruct (ents tb !! i) as [b|] eqn:E.
  { intros [= <- <-]. split; [done|]. eauto. }
  unfold RWLockPool.get. destruct (pool (lpool tb)) as [|x rest] eqn:Ep; intros [= <- <-]; simpl.
  - assert (forall j b, ents tb !! j = Some b -> b <> fresh (lpool tb)) as Hne.
    { intros j b Hj ->. destruct (Hlv _ _ Hj) as [l Hl]. apply Hfr in Hl. lia. }
    split; [split; simpl|].
    + constructor.
    + intros a Ha. by apply elem_of_nil in Ha.
    + intros a l [[-> _]|[_ Ha]]%lookup_insert_Some; [lia|apply Hfr in Ha; lia].
    + intros j a _. apply not_elem_of_nil.
    + intros j a [[-> <-]|[_ Ha]]%lookup_insert_Some; [rewrite lookup_insert_eq; eauto|].
      rewrite lookup_insert_ne by (apply not_eq_sym; by eapply Hne). by eapply Hlv.
    + intros j k a [[-> <-]|[? Ha]]%lookup_insert_Some [[-> Hb]|[? Hb]]%lookup_insert_Some; subst; eauto; exfalso; by eapply Hne.
    + rewrite lookup_insert_eq. split; [done|]. split; [intros j ?; by rewrite lookup_insert_ne|].
      split; [|right; split; [done|by rewrite lookup_insert_eq]].
      intros b l Hb. rewrite lookup_insert_ne; [done|]. intros <-. apply Hfr in Hb. lia.
  - apply NoDup_cons in Hnd as [Hx Hnd].
    assert (forall j b, ents tb !! j = Some b -> b <> x) as Hne.
    { intros j b Hj ->. apply (Hus _ _ Hj). set_solver. }
    split; [split; simpl|].
    + done.
    + intros a Ha. apply Hfree. set_solver.
    + done.
    + intros j a [[-> <-]|[_ Ha]]%lookup_insert_Some; [done|]. pose proof (Hus _ _ Ha). set_solver.
    + intros j a [[-> <-]|[_ Ha]]%lookup_insert_Some; [|eauto]. rewrite (Hfree x) by set_solver. eauto.
    + intros j k a [[-> <-]|[? Ha]]%lookup_insert_Some [[-> Hb]|[? Hb]]%lookup_insert_Some; subst; eauto; exfalso; by eapply Hne.
    + rewrite lookup_insert_eq. split; [done|]. split; [intros j ?; by rewrite lookup_insert_ne|].
      split; [done|]. right. split; [done|]. apply Hfree. set_solver.
Qed.

Lemma rdlock_ok l l' r w : lock_ok l r w \/ (l = RWLock.new /\ r = 0%nat /\ w = 0%nat) ->
  RWLock.rdlock l = Some l' -> lock_ok l' (S r) w.
Proof.
  unfold RWLock.rdlock, lock_ok. intros [[(-> & _)|(n & -> & -> & -> & Hc)]|(-> & -> & ->)]; [done| |].
  - intros [= <-]. simpl. right. exists (n + 1)%positive. repeat split; lia.
  - intros [= <-]. simpl. right. by exists 1%positive.
Qed.

Lemma wrlock_ok l l' r w : lock_ok l r w \/ (l = RWLock.new /\ r = 0%nat /\ w = 0%nat) ->
  RWLock.wrlock l = Some l' -> lock_ok l' r (S w).
Proof.
  unfold RWLock.wrlock, lock_ok. intros [[(-> & _)|(n & -> & _)]|(-> & -> & ->)]; [done|done|].
  intros [= <-]. simpl. left. done.
Qed.

Lemma rdunlock_ok l r w : lock_ok l (S r) w ->
  (RWLock.rdunlock l = RWLock.new /\ r = 0%nat /\ w = 0%nat) \/
  (cnt (RWLock.rdunlock l) <> 0 /\ lock_ok (RWLock.rdunlock l) r w).
Proof.
  unfold lock_ok, RWLock.rdunlock. intros [(_ & _ & ? & _)|(n & Hh & -> & Hn & Hc)]; [done|].
  rewrite Hc, Hh. simpl. case_decide as H1.
  - left. subst n. split; [done|]. split; [lia|done].
  - right. split; [lia|]. right. exists (Pos.pred n). split; [done|]. split; [done|].
    split; lia.
Qed.

Lemma wrunlock_ok l r w : lock_ok l r (S w) -> RWLock.wrunlock l = RWLock.new /\ r = 0%nat /\ w = 0%nat.
Proof.
  unfold lock_ok, RWLock.wrunlock, RWLock.rdunlock. intros [(Hh & Hw & -> & Hc)|(n & _ & ? & _)]; [|done].
  rewrite Hc, Hh. simpl. split; [done|lia].
Qed.

Lemma rwlock_new_unlocked l : RWLock.getLockCount l = cnt l.
Proof. done. Qed.

(** A lock with holders is stored at the address of an entry. *)
Lemma store_ok tb a i l : pool_ok tb -> ents tb !! i = Some a -> pool_ok (LockTable.store tb a l).
Proof.
  intros [Hnd Hfree Hfr Hus Hlv Hinj] Hi. split; simpl; auto.
  - intros b Hb. rewrite lookup_insert_ne; [auto|]. intros ->. by apply (Hus _ _ Hi).
  - intros b x [[-> _]|[_ Hb]]%lookup_insert_Some; [|eauto]. destruct (Hlv _ _ Hi). eauto.
  - intros j b Hj. destruct (decide (a = b)) as [->|]; [rewrite lookup_insert_eq; eauto|].
    rewrite lookup_insert_ne by done. eauto.
Qed.

(** An entry gives its lock back. *)
Lemma release_ok tb a i : pool_ok tb -> ents tb !! i = Some a ->
  pool_ok {| ents := delete i (ents tb); lpool := RWLockPool.put (lpool (LockTable.store tb a RWLock.new)) a |}.
Proof.
  intros [Hnd Hfree Hfr Hus Hlv Hinj] Hi. split; simpl; auto.
  - apply NoDup_app. split; [done|]. split; [|apply NoDup_singleton].
    intros x Hx ->%list_elem_of_singleton. by apply (Hus _ _ Hi).
  - intros b [Hb| ->%list_elem_of_singleton]%elem_of_app; [|by rewrite lookup_insert_eq].
    rewrite lookup_insert_ne; [auto|]. intros ->. by apply (Hus _ _ Hi).
  - intros b x [[-> _]|[_ Hb]]%lookup_insert_Some; [|eauto]. destruct (Hlv _ _ Hi). eauto.
  - intros j b [Hne Hj]%lookup_delete_Some. apply not_elem_of_app. split; [eauto|].
    intros ->%list_elem_of_singleton. by apply Hne, (Hinj i j a).
  - intros j b [Hne Hj]%lookup_delete_Some. destruct (decide (a = b)) as [->|]; [rewrite lookup_insert_eq; eauto|].
    rewrite lookup_insert_ne by done. eauto.
  - intros j k b [_ Hj]%lookup_delete_Some [_ Hk]%lookup_delete_Some. eauto.
Qed.

Lemma entry_ok_frame tb tb' m m' j :
  (forall e, count j e m' = count j e m) -> ents tb' !! j = ents tb !! j ->
  (forall a, ents tb !! j = Some a -> locks (lpool tb') !! a = locks (lpool tb) !! a) ->
  entry_ok tb m j -> entry_ok tb' m' j.
Proof.
  intros Hc He Hl. unfold entry_ok. rewrite !Hc, He. destruct (ents tb !! j) eqn:E; [|done].
  by rewrite Hl.
Qed.

Lemma count_other w t p j e : p <> Holds j e -> pc_of w t <> Holds j e ->
  count j e (<[t:=p]> (threads w)) = count j e (threads w).
Proof.
  intros H1 H2. rewrite count_insert, (count_pc j e w t). by repeat rewrite decide_False by done.
Qed.

Lemma mutex_ok_step w t p tb mx : world_ok w -> mutex w = None \/ mutex w = Some t ->
  (forall i e, p = InLock i e -> mx = Some t) ->
  forall t' i e, pc_of {| mutex := mx; table := tb; threads := <[t:=p]> (threads w) |} t' = InLock i e -> mx = Some t'.
Proof.
  intros Hw Hm Hp t' i e. unfold pc_of. simpl. destruct (decide (t = t')) as [->|Hne].
  - rewrite lookup_insert_eq. simpl. apply Hp.
  - rewrite lookup_insert_ne by done. intros H. pose proof (wk_mutex _ Hw t' i e H) as H2. destruct Hm; congruence.
Qed.

Lemma granted_ok w t i excl tb : world_ok w -> mutex w = Some t -> pc_of w t = InLock i excl ->
  (if excl then LockTable.wrlock (table w) i else LockTable.rdlock (table w) i) = Some tb ->
  world_ok {| mutex := None; table := tb; threads := <[t := Holds i excl]> (threads w) |}.
Proof.
  intros Hw Hm Hpc Hg.
  destruct (LockTable.attach (table w) i) as [a t1] eqn:Ea.
  destruct (attach_ok _ _ _ _ (wk_pool _ Hw) Ea) as (Hp1 & Hi & Hothers & Hkeep & Hwas).
  assert (exists l l', locks (lpool t1) !! a = Some l /\
    (if excl then RWLock.wrlock l else RWLock.rdlock l) = Some l' /\ tb = LockTable.store t1 a l') as (l & l' & Hl & Hl' & ->).
  { unfold LockTable.wrlock, LockTable.rdlock in Hg. rewrite Ea in Hg.
    destruct (locks (lpool t1) !! a) as [l|] eqn:El; [|by destruct excl].
    destruct excl; [destruct (RWLock.wrlock l) as [l'|] eqn:E'|destruct (RWLock.rdlock l) as [l'|] eqn:E'];
      try done; injection Hg as <-; by exists l, l'. }
  assert (lock_ok l (count i false (threads w)) (count i true (threads w)) \/
          (l = RWLock.new /\ count i false (threads w) = 0%nat /\ count i true (threads w) = 0%nat)) as Hlk.
  { pose proof (wk_entry _ Hw i) as He. unfold entry_ok in He. destruct Hwas as [Hs|[Hn Hnew]].
    - rewrite Hs in He. destruct He as (l0 & Hl0 & Hok). apply Hkeep in Hl0. left. congruence.
    - rewrite Hn in He. right. split; [congruence|]. split; apply He. }
  split; simpl.
  - by apply (store_ok t1 a i).
  - intros j. destruct (decide (j = i)) as [->|Hne].
    + unfold entry_ok. simpl. rewrite Hi, lookup_insert_eq. exists l'. split; [done|].
      rewrite !count_insert. pose proof (count_pc i true w t) as E1. pose proof (count_pc i false w t) as E2.
      rewrite Hpc in E1, E2. rewrite decide_False in E1 by done. rewrite decide_False in E2 by done. simpl in E1, E2.
      destruct excl; [rewrite decide_False, decide_True by done|rewrite decide_True, decide_False by done];
        rewrite <- E1, <- E2; [by apply (wrlock_ok l)|by apply (rdlock_ok l)].
    + apply (entry_ok_frame (table w) _ (threads w)); [|by apply Hothers| |apply Hw].
      * intros e. apply count_other; [congruence|by rewrite Hpc].
      * intros b Hb. simpl. destruct (pk_live _ (wk_pool _ Hw) j b Hb) as [lb Hlb].
        rewrite lookup_insert_ne; [rewrite Hlb; by apply Hkeep|]. intros ->.
        apply Hne, (pk_inj _ Hp1 j i b); [by rewrite Hothers|done].
  - by apply (mutex_ok_step w t); [|right|].
Qed.

Lemma unlock_ok w t i excl : world_ok w -> mutex w = None -> pc_of w t = Holds i excl ->
  world_ok {| mutex := None;
    table := if excl then LockTable.wrunlock (table w) i else LockTable.rdunlock (table w) i;
    threads := <[t := Idle]> (threads w) |}.
Proof.
  intros Hw Hm Hpc. pose proof (wk_entry _ Hw i) as He. unfold entry_ok in He.
  pose proof (count_pc i true w t) as E1. pose proof (count_pc i false w t) as E2. rewrite Hpc in E1, E2.
  destruct (ents (table w) !! i) as [a|] eqn:Hi.
  2: { destruct He as [He1 He2]. destruct excl; [rewrite decide_True in E1 by done|rewrite decide_True in E2 by done]; lia. }
  destruct He as (l & Hl & Hok). rewrite E1, E2 in Hok.
  assert (forall j b, j <> i -> ents (table w) !! j = Some b -> b <> a) as Hinj.
  { intros j b Hj Hb ->. by apply Hj, (pk_inj _ (wk_pool _ Hw) j i a). }
  assert (forall j e, j <> i -> count j e (<[t:=Idle]> (threads w)) = count j e (threads w)) as Hcnt.
  { intros j e Hj. apply count_other; [done|rewrite Hpc; congruence]. }
  (* the two outcomes *)
  assert (forall m', m' = <[t:=Idle]> (threads w) -> count i true m' = 0%nat -> count i false m' = 0%nat ->
    world_ok {| mutex := None; threads := m';
      table := {| ents := delete i (ents (table w)); lpool := RWLockPool.put (lpool (LockTable.store (table w) a RWLock.new)) a |} |}) as Hfree.
  { intros m' -> Hc1 Hc2. split; simpl; [apply release_ok; [apply Hw|done]| |by apply (mutex_ok_step w t); [|left|]].
    intros j. destruct (decide (j = i)) as [->|Hne].
    - unfold entry_ok. simpl. by rewrite lookup_delete_eq.
    - apply (entry_ok_frame (table w) _ (threads w)); [auto|by apply lookup_delete_ne| |apply Hw].
      intros b Hb. simpl. apply lookup_insert_ne. apply not_eq_sym. by eapply Hinj. }
  pose proof (count_insert i true (threads w) t Idle) as C1. pose proof (count_insert i false (threads w) t Idle) as C2.
  rewrite decide_False in C1 by done. rewrite decide_False in C2 by done. simpl in C1, C2.
  destruct excl.
  - unfold LockTable.wrunlock. rewrite Hi, Hl. rewrite decide_False, decide_True in Hok by done. simpl in Hok.
    apply wrunlock_ok in Hok as (-> & Hr & Hw0). apply Hfree; [done|lia|lia].
  - unfold LockTable.rdunlock. rewrite Hi, Hl, rwlock_new_unlocked. rewrite decide_True, decide_False in Hok by done. simpl in Hok.
    apply rdunlock_ok in Hok as [(-> & Hr & Hw0)|[Hc Hok]]; [apply Hfree; [done|lia|lia]|].
    rewrite (proj2 (Z.eqb_neq _ _) Hc).
    split; simpl; [apply (store_ok _ a i); [apply Hw|done]| |by apply (mutex_ok_step w t); [|left|]].
    intros j. destruct (decide (j = i)) as [->|Hne].
    + unfold entry_ok. simpl. rewrite Hi, lookup_insert_eq. eexists. split; [done|]. by rewrite C1, C2.
    + apply (entry_ok_frame (table w) _ (threads w)); [auto|done| |apply Hw].
      intros b Hb. simpl. apply lookup_insert_ne. apply not_eq_sym. by eapply Hinj.
Qed.

Lemma step_ok w w' : world_ok w -> step w w' -> world_ok w'.
Proof.
  intros Hw Hs. destruct Hs as [w t i e Hm Hp|w t i e tb Hm Hp Hg|w t i e Hm Hp];
    [|by apply (granted_ok w t i e)|by apply unlock_ok].
  split; simpl; [apply Hw| |].
  - intros j. apply (entry_ok_frame (table w) _ (threads w)); [|done|done|apply Hw].
    intros e'. apply count_other; [done|congruence].
  - apply (mutex_ok_step w t); [done|by left|]. by intros i' e' [= -> ->].
Qed.

Lemma reachable_ok w : reachable w -> world_ok w.
Proof.
  unfold reachable. intros H. assert (world_ok w_init) as H0.
  { split; simpl.
    - split; simpl; [constructor|by intros a Ha%elem_of_nil|done|done|done|done].
    - intros i. unfold entry_ok, count. simpl. by rewrite !map_filter_empty.
    - done. }
  revert H0. induction H as [|w1 w2 w3 Hs _ IH]; [done|]. intros H1. by apply IH, (step_ok w1).
Qed.

Lemma count_unique i e m t t' : count i e m = 1%nat -> m !! t = Some (Holds i e) -> m !! t' = Some (Holds i e) -> t = t'.
Proof.
  intros Hc H1 H2. destruct (decide (t = t')) as [|Hne]; [done|]. exfalso.
  rewrite (count_delete i e m t _ H1), (count_delete i e (delete t m) t' (Holds i e)) in Hc by (by rewrite lookup_delete_ne).
  rewrite decide_True in Hc by done. lia.
Qed.

Lemma count_pos i e m t : m !! t = Some (Holds i e) -> (0 < count i e m)%nat.
Proof. intros H. rewrite (count_delete i e m t _ H), decide_True by done. lia. Qed.

(** C30. Mutual exclusion, for every interleaving of any number of threads: a
    thread that holds an entry exclusively is the only one that holds it, and
    the lock attached to the entry counts its holders, however the locks are
    taken from the pool and given back. *)
Theorem entry_locks_exclude w t t' i e (Hr : reachable w) (Ht : pc_of w t = Holds i true) (Ht' : pc_of w t' = Holds i e) :
  t = t' /\ exists a l, ents (table w) !! i = Some a /\ locks (lpool (table w)) !! a = Some l /\
    held l = Writer /\ RWLock.getLockCount l = 1.
Proof.
  pose proof (wk_entry _ (reachable_ok w Hr) i) as He. unfold entry_ok in He.
  assert (forall t0 e0, pc_of w t0 = Holds i e0 -> threads w !! t0 = Some (Holds i e0)) as Hpc.
  { unfold pc_of. intros t0 e0 H. by destruct (threads w !! t0); simpl in H; subst. }
  apply Hpc in Ht, Ht'. pose proof (count_pos _ _ _ _ Ht). pose proof (count_pos _ _ _ _ Ht').
  destruct (ents (table w) !! i) as [a|] eqn:Ea; [|lia].
  destruct He as (l & Hl & [(Hh & Hw & Hrd & Hc)|(n & _ & ? & _)]); [|lia].
  split; [|by exists a, l]. destruct e; [by apply (count_unique i true (threads w))|lia].
Qed.

(** Thread 1 holds entry 0 exclusively and thread 2 asks for it. *)
Definition held_world : world :=
  {| mutex := None;
     table := {| ents := {[0 := 0%nat]};
                 lpool := {| locks := {[0%nat := {| cnt := 1; held := Writer |}]}; pool := []; fresh := 1 |} |};
     threads := {[1%nat := Holds 0 true]} |}.
Definition waiting_world : world :=
  {| mutex := Some 2%nat; table := table held_world; threads := <[2%nat := InLock 0 false]> (threads held_world) |}.

Lemma held_world_reachable : reachable held_world.
Proof.
  eapply rtc_l; [apply (step_enter w_init 1 0 true); done|].
  eapply rtc_l; [eapply (step_granted _ 1 0 true); vm_compute; reflexivity|].
  match goal with |- rtc step ?w _ => replace w with held_world by (vm_compute; reflexivity) end. apply rtc_refl.
Qed.

Lemma entry_locks_exclude_witness :
  reachable held_world /\
  (1 = 1)%nat /\ exists a l, ents (table held_world) !! 0 = Some a /\ locks (lpool (table held_world)) !! a = Some l /\
    held l = Writer /\ RWLock.getLockCount l = 1.
Proof.
  split; [exact held_world_reachable|].
  apply (entry_locks_exclude held_world 1 1 0 true); [exact held_world_reachable|reflexivity|reflexivity].
Defined.

(** A thread that has to wait for an entry waits inside the table's mutex,
    which every unlock function needs: from then on no thread can take a step,
    so the holder never releases the entry.  Two threads reach such a state with
    one exclusive and one shared lock of the same entry. *)
Theorem lock_wait_deadlocks :
  (forall w t i excl t' e, reachable w -> pc_of w t = InLock i excl -> pc_of w t' = Holds i e -> excl || e = true ->
     forall w', ~ step w w') /\
  reachable waiting_world /\ pc_of waiting_world 1 = Holds 0 true /\ pc_of waiting_world 2 = InLock 0 false.
Proof.
  split; [|split; [|done]].
  - intros w t i excl t' e Hr Ht Ht' Hx w' Hs. pose proof (reachable_ok w Hr) as Hw.
    pose proof (wk_mutex _ Hw t i excl Ht) as Hm.
    destruct Hs as [w t0 i0 e0 Hm0 _|w t0 i0 e0 tb Hm0 Hp0 Hg|w t0 i0 e0 Hm0 _]; [congruence| |congruence].
    assert (t0 = t) as -> by congruence. rewrite Ht in Hp0. injection Hp0 as <- <-.
    assert (threads w !! t' = Some (Holds i e)) as Hth.
    { revert Ht'. unfold pc_of. by destruct (threads w !! t') as [p|]; simpl; intros; subst. }
    pose proof (count_pos _ _ _ _ Hth) as Hc. pose proof (wk_entry _ Hw i) as He. unfold entry_ok in He.
    unfold LockTable.wrlock, LockTable.rdlock, LockTable.attach in Hg.
    destruct (ents (table w) !! i) as [a|]; [|destruct e; lia].
    destruct He as (l & Hl & Hok). rewrite Hl in Hg. unfold RWLock.wrlock, RWLock.rdlock in Hg.
    destruct Hok as [(Hh & Hwr & Hrd & _)|(n & Hh & Hwr & _)]; rewrite Hh in Hg; [by destruct excl|].
    destruct excl; [done|]. simpl in Hx. subst e. lia.
  - eapply rtc_r; [exact held_world_reachable|]. by apply (step_enter held_world 2 0 false).
Qed.
