(* ===== verification/Disk.v ===== *)
(** * Disks without faults, and a file system in memory

    [Regular] (FileLaws) allows every call to fail.  [Reliable] states the laws
    of a system while nothing fails: the descriptors in [D] are open on distinct
    regular files, a read returns what is asked for up to the end of the file, a
    write is complete.  [ram_sys] is a small file system with names and
    descriptors and a script of faults; while the script is empty it is
    reliable. *)
From S2P Require Import Prelude Bytes File FileLaws.

Class Reliable {OS : Type} (sys : syscalls OS) (D : gset Z) := {
  fs_ok : OS -> Prop;
  fs_data : OS -> Z -> bytes;
  fs_pos : OS -> Z -> nat;
  rel_valid : INVALID_HANDLE_VALUE ∉ D;
  rel_read d n os : fs_ok os -> d ∈ D -> 0 < n ->
    exists os', let b := take (Z.to_nat n) (drop (fs_pos os d) (fs_data os d)) in
      sys_read sys d n os = (zlen b, b, os') /\ fs_ok os' /\
      (forall e, e ∈ D -> fs_data os' e = fs_data os e) /\ fs_pos os' d = (fs_pos os d + length b)%nat /\
      (forall e, e ∈ D -> e <> d -> fs_pos os' e = fs_pos os e);
  rel_write d b os : fs_ok os -> d ∈ D -> b <> [] ->
    exists os', sys_write sys d b os = (zlen b, os') /\ fs_ok os' /\
      fs_data os' d = splice (fs_data os d) (fs_pos os d) b /\ fs_pos os' d = (fs_pos os d + length b)%nat /\
      (forall e, e ∈ D -> e <> d -> fs_data os' e = fs_data os e /\ fs_pos os' e = fs_pos os e);
  rel_lseek d off os : fs_ok os -> d ∈ D -> 0 <= off ->
    exists os', sys_lseek sys d off SEEK_SET os = (off, os') /\ fs_ok os' /\
      (forall e, e ∈ D -> fs_data os' e = fs_data os e) /\ fs_pos os' d = Z.to_nat off /\
      (forall e, e ∈ D -> e <> d -> fs_pos os' e = fs_pos os e);
  rel_ftruncate d n os : fs_ok os -> d ∈ D -> 0 <= n ->
    exists os', sys_ftruncate sys d n os = (0, os') /\ fs_ok os' /\
      fs_data os' d = resize (Z.to_nat n) 0 (fs_data os d) /\ fs_pos os' d = fs_pos os d /\
      (forall e, e ∈ D -> e <> d -> fs_data os' e = fs_data os e /\ fs_pos os' e = fs_pos os e) }.

(** ** The methods of [file] on such a disk *)
Section methods.
Context {OS : Type} (sys : syscalls OS) (D : gset Z) `{Rel : !Reliable sys D} (f : file).
Hypothesis Hf : fd f ∈ D.

Lemma rel_open : (fd f =? INVALID_HANDLE_VALUE) = false.
Proof. apply Z.eqb_neq. intros E. rewrite E in Hf. by apply rel_valid in Hf. Qed.

(** Nothing but the position of the file changed. *)
Definition moved (os os' : OS) : Prop :=
  fs_ok os' /\ (forall e, e ∈ D -> fs_data os' e = fs_data os e) /\
  (forall e, e ∈ D -> e <> fd f -> fs_pos os' e = fs_pos os e).

(** The file has the new content [b]; the others are as before. *)
Definition changed (b : bytes) (os os' : OS) : Prop :=
  fs_ok os' /\ fs_data os' (fd f) = b /\
  (forall e, e ∈ D -> e <> fd f -> fs_data os' e = fs_data os e /\ fs_pos os' e = fs_pos os e).

Lemma rel_seek off os : fs_ok os -> 0 <= off ->
  exists os', File.seek sys f off os = (E_ok, 0, os') /\ moved os os' /\ fs_pos os' (fd f) = Z.to_nat off.
Proof.
  intros Hok Ho. unfold File.seek, File.seek_whence. rewrite rel_open, (proj2 (Z.ltb_ge off 0)) by lia.
  destruct (rel_lseek (fd f) off os Hok Hf Ho) as (os' & -> & Hok' & Hd & Hp & Hfr).
  rewrite (proj2 (Z.eqb_neq off (-1))) by lia. simpl. rewrite Z.eqb_refl. simpl. exists os'. by split_and!.
Qed.

Lemma rel_read_at fuel off n os : fs_ok os -> 0 <= off -> 0 < n -> (2 <= fuel)%nat ->
  exists os', File.read_at sys fuel f off n os =
    Val (E_ok, 0, take (Z.to_nat n) (drop (Z.to_nat off) (fs_data os (fd f))), os') /\ moved os os'.
Proof.
  intros Hok Ho Hn Hfu. unfold File.read_at.
  destruct (rel_seek off os Hok Ho) as (os1 & -> & (Hok1 & Hd1 & Hf1) & Hp1). simpl.
  unfold File.read. rewrite rel_open, (proj2 (Z.leb_gt n 0)) by lia.
  destruct fuel as [|[|fuel]]; [lia..|]. cbn [File.read_loop].
  destruct (rel_read (fd f) n os1 Hok1 Hf Hn) as (os2 & E & Hok2 & Hd2 & Hp2 & Hf2). cbn zeta in *.
  rewrite E, Hp1, (Hd1 _ Hf) in *. clear E.
  set (b := take (Z.to_nat n) (drop (Z.to_nat off) (fs_data os (fd f)))) in *.
  pose proof (zlen_nonneg b). rewrite (proj2 (Z.ltb_ge (zlen b) 0)) by lia.
  assert (forall e, e ∈ D -> fs_data os2 e = fs_data os e) as Hd by (intros; rewrite Hd2, Hd1; auto).
  assert (forall e, e ∈ D -> e <> fd f -> fs_pos os2 e = fs_pos os e) as Hp by (intros; rewrite Hf2, Hf1; auto).
  destruct (Z.eqb_spec (zlen b) 0) as [H0|H0].
  { exists os2. split; [|by split_and!]. do 3 f_equal. destruct b; [done|by rewrite zlen_cons in H0; pose proof (zlen_nonneg b); lia]. }
  simpl. destruct (Z.ltb_spec 0 (n - zlen b)) as [Hlt|Hge].
  2: { exists os2. by split_and!. }
  destruct (rel_read (fd f) (n - zlen b) os2 Hok2 Hf ltac:(lia)) as (os3 & E & Hok3 & Hd3 & Hp3 & Hf3). cbn zeta in *.
  assert (drop (fs_pos os2 (fd f)) (fs_data os2 (fd f)) = []) as Hnil.
  { rewrite Hp2, Hd by done. apply nil_length_inv. rewrite length_drop.
    assert (length b = Nat.min (Z.to_nat n) (length (fs_data os (fd f)) - Z.to_nat off)) as Hb
      by (subst b; rewrite length_take, length_drop; lia).
    unfold zlen in Hlt. lia. }
  rewrite Hnil, take_nil in E. rewrite E. simpl. exists os3. split; [done|].
  split; [done|]. split; intros; [rewrite Hd3; auto|rewrite Hf3; auto].
Qed.

Lemma rel_write_at off b os : fs_ok os -> 0 <= off -> b <> [] ->
  exists os', File.write_at sys f off b os = (E_ok, 0, zlen b, os') /\
    changed (splice (fs_data os (fd f)) (Z.to_nat off) b) os os'.
Proof.
  intros Hok Ho Hb. unfold File.write_at.
  destruct (rel_seek off os Hok Ho) as (os1 & -> & (Hok1 & Hd1 & Hf1) & Hp1). simpl.
  unfold File.write. rewrite rel_open.
  assert (0 < zlen b) by (by apply zlen_pos).
  rewrite (proj2 (Z.leb_gt (zlen b) 0)) by lia.
  destruct (rel_write (fd f) b os1 Hok1 Hf Hb) as (os2 & -> & Hok2 & Hd2 & Hp2 & Hf2).
  rewrite (proj2 (Z.ltb_ge (zlen b) 0)) by lia. exists os2. split; [done|]. split; [done|].
  split; [by rewrite Hd2, Hp1, Hd1|]. intros e He Hne. destruct (Hf2 e He Hne) as [-> ->].
  by rewrite Hd1, Hf1.
Qed.

(** A write at the position, at the end of the file: an append. *)
Lemma rel_append b os : fs_ok os -> b <> [] -> fs_pos os (fd f) = length (fs_data os (fd f)) ->
  exists os', File.write sys f b os = (E_ok, 0, zlen b, os') /\ changed (fs_data os (fd f) ++ b) os os' /\
    fs_pos os' (fd f) = length (fs_data os' (fd f)).
Proof.
  intros Hok Hb Hp. unfold File.write. rewrite rel_open.
  assert (0 < zlen b) by (by apply zlen_pos).
  rewrite (proj2 (Z.leb_gt (zlen b) 0)) by lia.
  destruct (rel_write (fd f) b os Hok Hf Hb) as (os2 & -> & Hok2 & Hd2 & Hp2 & Hf2).
  rewrite (proj2 (Z.ltb_ge (zlen b) 0)) by lia. rewrite Hp, splice_end in Hd2. exists os2.
  split; [done|]. split; [by split_and!|]. by rewrite Hp2, Hd2, Hp, length_app.
Qed.

Lemma rel_truncate n os : fs_ok os -> 0 <= n <= zlen (fs_data os (fd f)) ->
  exists os', File.truncate sys f n os = (E_ok, 0, os') /\ changed (take (Z.to_nat n) (fs_data os (fd f))) os os' /\
    fs_pos os' (fd f) = length (fs_data os' (fd f)).
Proof.
  intros Hok Hn. unfold File.truncate. rewrite rel_open.
  destruct (rel_seek n os Hok ltac:(lia)) as (os1 & -> & (Hok1 & Hd1 & Hf1) & Hp1). simpl.
  destruct (rel_ftruncate (fd f) n os1 Hok1 Hf ltac:(lia)) as (os2 & -> & Hok2 & Hd2 & Hp2 & Hf2).
  simpl. exists os2. unfold zlen in Hn. rewrite Hd1, resize_le in Hd2 by (done || lia).
  split; [done|]. split.
  - split; [done|]. split; [done|]. intros e He Hne. destruct (Hf2 e He Hne) as [-> ->]. by rewrite Hd1, Hf1.
  - rewrite Hp2, Hp1, Hd2, length_take. lia.
Qed.
End methods.

(** ** A file system in memory

    Files by name; a descriptor has a file and a position.  Each call takes one
    entry of the script of faults. *)
Record ram := {
  r_files : gmap bytes bytes;
  r_fds : gmap Z (bytes * nat);
  r_next : Z;
  r_mask : Z;
  r_errno : Z;
  r_faults : list fault }.

Definition ram_init (l : list fault) : ram :=
  {| r_files := ∅; r_fds := ∅; r_next := 3; r_mask := 18; r_errno := 0; r_faults := l |}.

Definition r_with (files : gmap bytes bytes) (fds : gmap Z (bytes * nat)) (s : ram) : ram :=
  {| r_files := files; r_fds := fds; r_next := r_next s; r_mask := r_mask s; r_errno := r_errno s; r_faults := r_faults s |}.
Definition r_fail (e : Z) (s : ram) : ram :=
  {| r_files := r_files s; r_fds := r_fds s; r_next := r_next s; r_mask := r_mask s; r_errno := e; r_faults := r_faults s |}.

Definition r_call {A} (bad : A) (s : ram) (k : fault -> ram -> A * ram) : A * ram :=
  match r_faults s with
  | [] => k Fine s
  | a :: l =>
      let s := {| r_files := r_files s; r_fds := r_fds s; r_next := r_next s; r_mask := r_mask s;
                  r_errno := r_errno s; r_faults := l |} in
      match a with Failing e => (bad, r_fail e s) | _ => k a s end
  end.

(** A call on a descriptor: its file's name, content and position. *)
Definition r_on {A} (bad : A) (d : Z) (s : ram) (k : fault -> bytes -> bytes -> nat -> ram -> A * ram) : A * ram :=
  r_call bad s (fun a s =>
    match r_fds s !! d with
    | Some (n, p) => match r_files s !! n with Some b => k a n b p s | None => (bad, r_fail 9 s) end
    | None => (bad, r_fail 9 s)
    end).

Definition r_put (d : Z) (n b : bytes) (p : nat) (s : ram) : ram :=
  r_with (<[n := b]> (r_files s)) (<[d := (n, p)]> (r_fds s)) s.

Definition ram_sys : syscalls ram := {|
  sys_umask m s := (r_mask s, {| r_files := r_files s; r_fds := r_fds s; r_next := r_next s; r_mask := m;
                                 r_errno := r_errno s; r_faults := r_faults s |});
  sys_open n fl _ s := r_call (-1) s (fun _ s =>
    match r_files s !! n with
    | None => if O_CREAT fl then
        (r_next s, {| r_files := <[n := []]> (r_files s); r_fds := <[r_next s := (n, 0%nat)]> (r_fds s); r_next := r_next s + 1;
                      r_mask := r_mask s; r_errno := r_errno s; r_faults := r_faults s |}) else (-1, r_fail 2 s)
    | Some b =>
        (r_next s, {| r_files := <[n := if O_TRUNC fl then [] else b]> (r_files s);
                      r_fds := <[r_next s := (n, 0%nat)]> (r_fds s); r_next := r_next s + 1;
                      r_mask := r_mask s; r_errno := r_errno s; r_faults := r_faults s |})
    end);
  sys_read d n s := r_on (-1, []) d s (fun a nm b p s =>
    let x := s_move a (take (Z.to_nat n) (drop p b)) in (zlen x, x, r_put d nm b (p + length x) s));
  sys_write d x s := r_on (-1) d s (fun a nm b p s =>
    let x := s_move a x in (zlen x, r_put d nm (splice b p x) (p + length x) s));
  sys_lseek d off w s := r_on (-1) d s (fun _ nm b p s =>
    let n := match w with SEEK_SET => off | SEEK_CUR => Z.of_nat p + off | SEEK_END => zlen b + off end in
    (n, r_put d nm b (Z.to_nat n) s));
  sys_fsync d s := r_on (-1) d s (fun _ _ _ _ s => (0, s));
  sys_fstat d s := r_on (-1, 0) d s (fun _ _ b _ s => (0, zlen b, s));
  sys_ftruncate d n s := r_on (-1) d s (fun _ nm b p s => (0, r_put d nm (resize (Z.to_nat n) 0 b) p s));
  sys_fcntl d _ _ _ _ s := r_on (-1) d s (fun _ _ _ _ s => (0, s));
  sys_close d s := r_on (-1) d s (fun _ _ _ _ s => (0, r_with (r_files s) (delete d (r_fds s)) s));
  sys_errno := r_errno;
  EINTR := 4; EACCES := 13; EAGAIN := 11 |}.

(** The descriptors in [D] are open on distinct files and no fault is to come. *)
Definition ram_ok (D : gset Z) (s : ram) : Prop :=
  r_faults s = [] /\
  (forall d, d ∈ D -> exists n p, r_fds s !! d = Some (n, p) /\ is_Some (r_files s !! n)) /\
  (forall d e n p q, d ∈ D -> e ∈ D -> r_fds s !! d = Some (n, p) -> r_fds s !! e = Some (n, q) -> d = e).

Definition ram_data (s : ram) (d : Z) : bytes :=
  match r_fds s !! d with Some (n, _) => default [] (r_files s !! n) | None => [] end.
Definition ram_pos (s : ram) (d : Z) : nat := match r_fds s !! d with Some (_, p) => p | None => 0%nat end.

Section ram.
Context (D : gset Z).

Lemma ram_on {A} (bad : A) d s k : ram_ok D s -> d ∈ D ->
  exists n p b, r_fds s !! d = Some (n, p) /\ r_files s !! n = Some b /\ ram_data s d = b /\ ram_pos s d = p /\
    r_on bad d s k = k Fine n b p s.
Proof.
  intros (Hf & Hd & _) Hin. destruct (Hd d Hin) as (n & p & E & b & Eb). exists n, p, b.
  unfold ram_data, ram_pos, r_on, r_call. rewrite Hf, E, Eb. done.
Qed.

Lemma ram_put d n p b b' p' s : ram_ok D s -> d ∈ D -> r_fds s !! d = Some (n, p) -> r_files s !! n = Some b ->
  ram_ok D (r_put d n b' p' s) /\ ram_data (r_put d n b' p' s) d = b' /\ ram_pos (r_put d n b' p' s) d = p' /\
  (forall e, e ∈ D -> e <> d -> ram_data (r_put d n b' p' s) e = ram_data s e /\ ram_pos (r_put d n b' p' s) e = ram_pos s e).
Proof.
  intros (Hf & Hd & Hinj) Hin E Eb. split_and!.
  - split; [done|]. split; simpl.
    + intros e He. destruct (decide (e = d)) as [->|Hne].
      * exists n, p'. rewrite !lookup_insert_eq. eauto.
      * rewrite lookup_insert_ne by done. destruct (Hd e He) as (m & q & -> & Hm). exists m, q. split; [done|].
        destruct (decide (m = n)) as [->|]; [rewrite lookup_insert_eq; eauto|by rewrite lookup_insert_ne].
    + intros x y m q1 q2 Hx Hy. rewrite !lookup_insert_Some. intros [[<- E1]|[? E1]] [[<- E2]|[? E2]]; [done|..].
      * simplify_eq. by eapply (Hinj d y).
      * simplify_eq. symmetry. by eapply (Hinj d x).
      * by eapply Hinj.
  - unfold ram_data. simpl. by rewrite !lookup_insert_eq.
  - unfold ram_pos. simpl. by rewrite lookup_insert_eq.
  - intros e He Hne. unfold ram_data, ram_pos. simpl. rewrite lookup_insert_ne by done.
    destruct (Hd e He) as (m & q & Em & _). rewrite Em. split; [|done].
    destruct (decide (m = n)) as [->|Hmn]; [|by rewrite lookup_insert_ne].
    exfalso. apply Hne. by eapply Hinj.
Qed.

Lemma ram_reliable : INVALID_HANDLE_VALUE ∉ D -> Reliable ram_sys D.
Proof.
  intros Hinv. refine {| fs_ok := ram_ok D; fs_data := ram_data; fs_pos := ram_pos; rel_valid := Hinv |}.
  - intros d n os Hok Hd Hn. unfold ram_sys; cbn [sys_read].
    match goal with |- context [r_on ?bad ?d' ?os' ?k] =>
      destruct (ram_on bad d' os' k Hok Hd) as (nm & p & b & E & Eb & -> & -> & ->) end. simpl.
    destruct (ram_put d nm p b b (p + length (take (Z.to_nat n) (drop p b))) os Hok Hd E Eb) as (H1 & H2 & H3 & H4).
    eexists. split; [done|]. split; [done|]. split_and!; [|done|].
    + intros e He. destruct (decide (e = d)) as [->|Hne]; [|by apply H4].
      rewrite H2. unfold ram_data. by rewrite E, Eb.
    + intros e He Hne. by apply H4.
  - intros d x os Hok Hd Hx. unfold ram_sys; cbn [sys_write].
    match goal with |- context [r_on ?bad ?d' ?os' ?k] =>
      destruct (ram_on bad d' os' k Hok Hd) as (nm & p & b & E & Eb & -> & -> & ->) end. simpl.
    destruct (ram_put d nm p b (splice b p x) (p + length x) os Hok Hd E Eb) as (H1 & H2 & H3 & H4).
    eexists. by split_and!.
  - intros d off os Hok Hd Ho. unfold ram_sys; cbn [sys_lseek].
    match goal with |- context [r_on ?bad ?d' ?os' ?k] =>
      destruct (ram_on bad d' os' k Hok Hd) as (nm & p & b & E & Eb & _ & _ & ->) end. simpl.
    destruct (ram_put d nm p b b (Z.to_nat off) os Hok Hd E Eb) as (H1 & H2 & H3 & H4).
    eexists. split; [done|]. split; [done|]. split_and!; [|done|].
    + intros e He. destruct (decide (e = d)) as [->|Hne]; [|by apply H4].
      rewrite H2. unfold ram_data. by rewrite E, Eb.
    + intros e He Hne. by apply H4.
  - intros d n os Hok Hd Hn. unfold ram_sys; cbn [sys_ftruncate].
    match goal with |- context [r_on ?bad ?d' ?os' ?k] =>
      destruct (ram_on bad d' os' k Hok Hd) as (nm & p & b & E & Eb & -> & -> & ->) end.
    destruct (ram_put d nm p b (resize (Z.to_nat n) 0 b) p os Hok Hd E Eb) as (H1 & H2 & H3 & H4).
    eexists. by split_and!.
Defined.
End ram.
