(* ===== verification/PageMgr.v ===== *)
(** * librdb: pages in memory (librdb/include/pagemgr.h, librdb/src/pagemgr.cpp)

    [PageMgr]: one block of memory cut into pages of equal size.  An address is
    an offset into the block.  The pages hold key pages ([key_page_t]), the only
    use librdb makes of them; the content of the block is part of the state,
    because a page that was given back can still be written through an old
    pointer. *)
From S2P Require Import Prelude DbStruct.

Record pagemgr := {
  pool_size : Z;
  pm_numOfPages : Z;
  pm_numOfFreePages : Z;
  pm_pageSize : Z;
  pm_nextFreePage : list Z;        (* the stack, its top first *)
  pm_mem : gmap Z key_page }.      (* the content of the pool *)

(** [pageSize] zero bytes as a key page. *)
Definition zero_page (pageSize : Z) : key_page :=
  {| kp_flags := 0; kp_vcount := 0; kp_root := 0; kp_hash := 0; kp_poff := 0; kp_noff := 0;
     kp_keys := replicate (Z.to_nat (NUM_OF_KEYS_IN_PAGE pageSize)) zero_key_rec |}.

Module PageMgr.
(** The loop of the constructor; [malloc] says which sizes can be had.
    [poolSize] is a [size_t], so the test [poolSize < 0] is never true. *)
Fixpoint alloc_loop (fuel : nat) (malloc : Z -> bool) (poolSize : Z) : outcome Z :=
  match fuel with
  | O => OutOfFuel
  | S fuel =>
      if poolSize <? 0 then Abort
      else if malloc poolSize then Val poolSize
      else alloc_loop fuel malloc (uint64 (poolSize - 100 * 1024 * 1024))
  end.

(** [PageMgr(pageSize, memUsage)]; [memory] is what [GetMemorySize] returns. *)
Definition new (fuel : nat) (malloc : Z -> bool) (memory pageSize memUsage : Z) : outcome pagemgr :=
  let* poolSize := alloc_loop fuel malloc (uint64 (memory * uint64 memUsage) / 100) in
  let* n := if uint64 pageSize =? 0 then Undef else Val (int32 (poolSize / uint64 pageSize)) in
  Val {| pool_size := poolSize; pm_numOfPages := n; pm_numOfFreePages := n; pm_pageSize := pageSize;
         pm_nextFreePage := [0]; pm_mem := ∅ |}.

(** The address, or [None] for a null pointer. *)
Definition get (m : pagemgr) : option Z * pagemgr :=
  match pm_nextFreePage m with
  | addr :: rest =>
      if 0 <? pm_numOfFreePages m then
        let nfaddr := addr + pm_pageSize m in
        (Some addr,
         {| pool_size := pool_size m; pm_numOfPages := pm_numOfPages m;
            pm_numOfFreePages := pm_numOfFreePages m - 1; pm_pageSize := pm_pageSize m;
            pm_nextFreePage :=
              match rest with [] => if nfaddr <? pool_size m then [nfaddr] else [] | _ => rest end;
            pm_mem := <[addr := zero_page (pm_pageSize m)]> (pm_mem m) |})
      else (None, m)
  | [] => (None, m)
  end.

Definition free (m : pagemgr) (caddr : Z) : outcome pagemgr :=
  let* _ := ASSERT ((0 <=? caddr) && (caddr <? pool_size m)) in
  let* _ := if pm_pageSize m =? 0 then Undef else ASSERT (Z.rem caddr (pm_pageSize m) =? 0) in
  Val {| pool_size := pool_size m; pm_numOfPages := pm_numOfPages m;
         pm_numOfFreePages := pm_numOfFreePages m + 1; pm_pageSize := pm_pageSize m;
         pm_nextFreePage := caddr :: pm_nextFreePage m; pm_mem := pm_mem m |}.

(** A store into the pool: what a pointer to a page does. *)
Definition load (m : pagemgr) (a : Z) : outcome key_page := deref (pm_mem m !! a).
Definition store (m : pagemgr) (a : Z) (kp : key_page) : pagemgr :=
  {| pool_size := pool_size m; pm_numOfPages := pm_numOfPages m;
     pm_numOfFreePages := pm_numOfFreePages m; pm_pageSize := pm_pageSize m;
     pm_nextFreePage := pm_nextFreePage m; pm_mem := <[a := kp]> (pm_mem m) |}.
Definition getNumberOfPages (m : pagemgr) : Z := pm_numOfPages m.
Definition getNumberOfFreePages (m : pagemgr) : Z := pm_numOfFreePages m.
End PageMgr.

(** ** The pages in use

    The stack is released pages above, at its bottom, the first page never
    handed out.  Once every page was handed out the bottom can be anything, even
    a page in use: the stack then has one more entry than there are free pages,
    and the count of free pages keeps [get] from reaching it. *)
Record pool_ok (used : gset Z) (m : pagemgr) (released : list Z) (bottom : list Z) (frontier : Z) : Prop := {
  pl_size : 0 < pm_pageSize m;
  pl_num : pm_pageSize m * pm_numOfPages m <= pool_size m;
  pl_stack : pm_nextFreePage m = released ++ bottom;
  pl_bottom : bottom = [frontier] \/ frontier = pm_pageSize m * pm_numOfPages m;
  pl_nodup : NoDup released;
  pl_frontier : 0 <= frontier /\ (pm_pageSize m | frontier);
  pl_free : pm_numOfFreePages m = pm_numOfPages m - Z.of_nat (size used);
  pl_count : frontier = pm_pageSize m * (Z.of_nat (size used) + zlen released);
  pl_end : frontier <= pm_pageSize m * pm_numOfPages m;
  pl_released x : x ∈ released -> 0 <= x < frontier /\ (pm_pageSize m | x) /\ x ∉ used;
  pl_used x : x ∈ used -> 0 <= x < frontier /\ (pm_pageSize m | x);
  pl_mem x : x ∈ used -> is_Some (pm_mem m !! x) }.

(** A page below the frontier ends below it. *)
Lemma page_end ps a fr : 0 < ps -> a < fr -> (ps | a) -> (ps | fr) -> a + ps <= fr.
Proof. intros ? ? [y ->] [z ->]. assert (y < z) by (apply (Z.mul_lt_mono_pos_r ps); lia). nia. Qed.

Lemma pool_size_bound used m rel bot fr : pool_ok used m rel bot fr -> Z.of_nat (size used) <= pm_numOfPages m.
Proof. intros [? _ _ _ _ _ _ Hc He _ _ _]. pose proof (zlen_nonneg rel). nia. Qed.

(** A page is handed out unless all are in use. *)
Lemma pool_get used m rel bot fr : pool_ok used m rel bot fr -> Z.of_nat (size used) < pm_numOfPages m ->
  exists a m' rel' bot' fr', PageMgr.get m = (Some a, m') /\ (a ∉ used) /\
    Z.divide (pm_pageSize m) a /\ 0 <= a /\ a + pm_pageSize m <= pool_size m /\
    pm_mem m' = <[a := zero_page (pm_pageSize m)]> (pm_mem m) /\ pm_pageSize m' = pm_pageSize m /\
    pool_size m' = pool_size m /\ pm_numOfPages m' = pm_numOfPages m /\ pool_ok ({[a]} ∪ used) m' rel' bot' fr'.
Proof.
  intros [Hps Hnum Hst Hbot Hnd [Hfr Hdiv] Hfree Hcnt Hend Hrel Hus Hmem] Hlt.
  assert (Hadd : forall a (mem : gmap Z key_page), (forall x, x ∈ used -> is_Some (mem !! x)) ->
    forall x, x ∈ {[a]} ∪ used -> is_Some (<[a := zero_page (pm_pageSize m)]> mem !! x)).
  { intros a mem Hm x [->%elem_of_singleton|Hx]%elem_of_union; [rewrite lookup_insert_eq; eauto|].
    rewrite lookup_insert_is_Some'. auto. }
  unfold PageMgr.get. rewrite Hst, (proj2 (Z.ltb_lt 0 _)) by lia.
  destruct rel as [|a rest]; simpl.
  - destruct Hbot as [->| ->]; [|unfold zlen in Hcnt; simpl in Hcnt; nia]. simpl.
    assert (fr ∉ used) as Hni by (intros Hin; apply Hus in Hin; lia).
    assert (fr < pm_pageSize m * pm_numOfPages m) as Hroom by (unfold zlen in Hcnt; simpl in Hcnt; nia).
    pose proof (page_end _ _ _ Hps Hroom Hdiv (Z.divide_factor_l _ _)) as Hpe.
    assert (size ({[fr]} ∪ used) = S (size used)) as Hsz by (rewrite size_union, size_singleton by set_solver; lia).
    eexists fr, _, [], _, (fr + pm_pageSize m). split; [done|]. simpl. split_and!; try done; try lia.
    split; simpl; try done.
    + destruct (Z.ltb_spec (fr + pm_pageSize m) (pool_size m)); [by left|right; lia].
    + split; [lia|]. apply Z.divide_add_r; [done|apply Z.divide_refl].
    + rewrite Hsz. lia.
    + rewrite Hsz. unfold zlen in *. simpl in *. nia.
    + intros x Hx. by apply elem_of_nil in Hx.
    + intros x [->%elem_of_singleton|Hx]%elem_of_union; [split; [lia|done]|]. apply Hus in Hx as [? ?]. split; [lia|done].
    + by apply Hadd.
  - apply NoDup_cons in Hnd as [Hni Hnd]. destruct (Hrel a ltac:(set_solver)) as (Ha & Hda & Hau).
    pose proof (page_end _ _ _ Hps (proj2 Ha) Hda Hdiv) as Hpe.
    assert (size ({[a]} ∪ used) = S (size used)) as Hsz by (rewrite size_union, size_singleton by set_solver; lia).
    rewrite zlen_cons in Hcnt.
    set (bot' := match rest ++ bot with [] => if a + pm_pageSize m <? pool_size m then [a + pm_pageSize m] else [] | _ => bot end).
    eexists a, _, rest, bot', fr. split; [done|]. simpl. split_and!; try done; try lia. split; simpl; try done.
    + subst bot'. destruct (rest ++ bot) eqn:E; [|done]. apply app_eq_nil in E as [-> ->]. done.
    + subst bot'. destruct (rest ++ bot) eqn:E; [|done]. apply app_eq_nil in E as [-> ->].
      destruct Hbot as [?|?]; [done|by right].
    + rewrite Hsz. lia.
    + rewrite Hsz. nia.
    + intros x Hx. destruct (Hrel x ltac:(set_solver)) as (? & ? & ?). split_and!; [lia|lia|done|set_solver].
    + intros x [->%elem_of_singleton|Hx]%elem_of_union; [done|]. by apply Hus.
    + by apply Hadd.
Qed.

Lemma pool_get_none used m rel bot fr : pool_ok used m rel bot fr -> Z.of_nat (size used) = pm_numOfPages m ->
  PageMgr.get m = (None, m).
Proof.
  intros Hok Hn. unfold PageMgr.get. rewrite (pl_free _ _ _ _ _ Hok). destruct (pm_nextFreePage m); [done|].
  by rewrite (proj2 (Z.ltb_ge 0 _)) by lia.
Qed.

Lemma pool_free used m rel bot fr a : pool_ok used m rel bot fr -> a ∈ used ->
  exists m', PageMgr.free m a = Val m' /\ pm_mem m' = pm_mem m /\ pm_pageSize m' = pm_pageSize m /\
    pool_size m' = pool_size m /\ pm_numOfPages m' = pm_numOfPages m /\ pool_ok (used ∖ {[a]}) m' (a :: rel) bot fr.
Proof.
  intros [Hps Hnum Hst Hbot Hnd [Hfr Hdiv] Hfree Hcnt Hend Hrel Hus Hmem] Ha.
  destruct (Hus a Ha) as [Hab Had]. unfold PageMgr.free.
  rewrite (proj2 (Z.leb_le 0 a)), (proj2 (Z.ltb_lt a _)) by lia. simpl.
  rewrite (proj2 (Z.eqb_neq (pm_pageSize m) 0)) by lia.
  rewrite (proj2 (Z.rem_divide a (pm_pageSize m) ltac:(lia)) Had). simpl.
  assert (size used = S (size (used ∖ {[a]}))) as Hsz.
  { rewrite (union_difference_singleton_L a used) at 1 by done. rewrite size_union, size_singleton by set_solver. done. }
  eexists. split; [done|]. simpl. split_and!; try done. split; simpl; try done.
  - by rewrite Hst.
  - constructor; [|done]. intros Hin. by apply Hrel in Hin as (_ & _ & ?).
  - lia.
  - rewrite zlen_cons. nia.
  - intros x [->|Hx]%elem_of_cons; [split_and!; [lia|lia|done|set_solver]|].
    destruct (Hrel x Hx) as (? & ? & ?). split_and!; [lia|lia|done|set_solver].
  - intros x Hx. apply Hus. set_solver.
  - intros x Hx. apply Hmem. set_solver.
Qed.

(** ** The life of a pool *)
Inductive pool_run : gset Z -> pagemgr -> Prop :=
  | pool_start fuel malloc memory pageSize memUsage m :
      0 < pageSize < 2 ^ 31 -> PageMgr.new fuel malloc memory pageSize memUsage = Val m ->
      pool_size m / pageSize < 2 ^ 31 -> pool_run ∅ m
  | pool_got used m a m' : pool_run used m -> PageMgr.get m = (Some a, m') -> pool_run ({[a]} ∪ used) m'
  | pool_null used m m' : pool_run used m -> PageMgr.get m = (None, m') -> pool_run used m'
  | pool_freed used m a m' : pool_run used m -> a ∈ used -> PageMgr.free m a = Val m' -> pool_run (used ∖ {[a]}) m'
  | pool_stored used m a kp : pool_run used m -> pool_run used (PageMgr.store m a kp).

Lemma alloc_loop_range fuel malloc n r : 0 <= n -> PageMgr.alloc_loop fuel malloc n = Val r -> 0 <= r.
Proof.
  revert n. induction fuel as [|fuel IH]; intros n Hn; simpl; [done|].
  rewrite (proj2 (Z.ltb_ge n 0)) by lia. destruct (malloc n); [by intros [= <-]|].
  apply IH. unfold wrapU. apply Z.mod_pos_bound. lia.
Qed.

Lemma pool_new_ok fuel malloc memory pageSize memUsage m : 0 < pageSize < 2 ^ 31 ->
  PageMgr.new fuel malloc memory pageSize memUsage = Val m -> pool_size m / pageSize < 2 ^ 31 -> pool_ok ∅ m [] [0] 0.
Proof.
  intros Hps H Hsmall. unfold PageMgr.new in H. apply obind_inv in H as (sz & Hsz & H).
  apply alloc_loop_range in Hsz; [|apply Z.div_pos; [unfold wrapU; apply Z.mod_pos_bound|]; lia].
  rewrite wrapU_id in H by lia. rewrite (proj2 (Z.eqb_neq pageSize 0)) in H by lia. simpl in H. injection H as <-. simpl in *.
  pose proof (Z.div_pos sz pageSize Hsz ltac:(lia)) as Hd. pose proof (Z.mul_div_le sz pageSize ltac:(lia)).
  rewrite (wrapS_id 32) by lia.
  split; rewrite ?size_empty; simpl; try done; try set_solver; try lia; try (by left); try (by constructor).
  - split; [lia|]. apply Z.divide_0_r.
  - change (Z.of_nat 0 + zlen []) with 0. lia.
Qed.

Lemma pool_run_ok used m : pool_run used m -> exists rel bot fr, pool_ok used m rel bot fr.
Proof.
  induction 1 as [fuel malloc memory pageSize memUsage m Hps Hnew Hs|used m a m' _ (rel & bot & fr & IH) Hg
    |used m m' _ (rel & bot & fr & IH) Hg|used m a m' _ (rel & bot & fr & IH) Ha Hf|used m a kp _ (rel & bot & fr & IH)].
  - eauto using pool_new_ok.
  - assert (Z.of_nat (size used) < pm_numOfPages m) as Hlt.
    { destruct (Z.lt_ge_cases (Z.of_nat (size used)) (pm_numOfPages m)) as [|Hge]; [done|]. exfalso.
      revert Hg. unfold PageMgr.get. rewrite (pl_free _ _ _ _ _ IH), (proj2 (Z.ltb_ge 0 _)) by lia.
      by destruct (pm_nextFreePage m). }
    destruct (pool_get _ _ _ _ _ IH Hlt) as (a1 & m1 & rel' & bot' & fr' & E & _ & _ & _ & _ & _ & _ & _ & _ & H).
    rewrite Hg in E. simplify_eq. eauto.
  - assert (m' = m) as ->; [|eauto]. revert Hg. unfold PageMgr.get. destruct (pm_nextFreePage m); [by intros [=]|].
    destruct (0 <? _); [done|by intros [=]].
  - destruct (pool_free _ _ _ _ _ a IH Ha) as (m1 & E & _ & _ & _ & _ & H). rewrite Hf in E. simplify_eq. eauto.
  - exists rel, bot, fr. destruct IH. split; simpl; try done. intros x Hx. rewrite lookup_insert_is_Some'. auto.
Qed.

(** However pages are taken and given back, [PageMgr::get] returns an
    aligned page that lies inside the pool, is not in use and is all zero, or
    null exactly when as many pages as the pool has are in use; [free] of a page
    in use never runs into its assertions. *)
Theorem pool_pages_not_shared used m (Hrun : pool_run used m) :
  match PageMgr.get m with
  | (Some a, m') => (a ∉ used) /\ (pm_pageSize m | a) /\ 0 <= a /\ a + pm_pageSize m <= pool_size m /\
      PageMgr.load m' a = Val (zero_page (pm_pageSize m)) /\
      (forall b, b ∈ used -> PageMgr.load m' b = PageMgr.load m b)
  | (None, m') => m' = m /\ Z.of_nat (size used) = PageMgr.getNumberOfPages m
  end /\
  PageMgr.getNumberOfFreePages m = PageMgr.getNumberOfPages m - Z.of_nat (size used) /\
  (forall a, a ∈ used -> exists m', PageMgr.free m a = Val m').
Proof.
  destruct (pool_run_ok used m Hrun) as (rel & bot & fr & Hok). split; [|split].
  - destruct (Z.lt_ge_cases (Z.of_nat (size used)) (pm_numOfPages m)) as [Hlt|Hge].
    + destruct (pool_get _ _ _ _ _ Hok Hlt) as (a & m' & rel' & bot' & fr' & -> & Hu & Hd & H0 & He & Hm & _).
      split_and!; try done; unfold PageMgr.load; rewrite Hm; [by rewrite lookup_insert_eq|].
      intros b Hb. rewrite lookup_insert_ne; [done|]. intros ->. done.
    + assert (Z.of_nat (size used) = pm_numOfPages m) as Heq.
      { destruct Hok as [? _ _ _ _ _ _ Hc He _ _ _]. pose proof (zlen_nonneg rel). nia. }
      by rewrite (pool_get_none _ _ _ _ _ Hok Heq).
  - apply (pl_free _ _ _ _ _ Hok).
  - intros a Ha. destruct (pool_free _ _ _ _ _ a Hok Ha) as (m' & -> & _). eauto.
Qed.

Definition demo_pool : pagemgr :=
  match PageMgr.new 5 (fun n => n <=? 4000) 200 1024 1900 with Val m => m | _ => PageMgr.store {|
    pool_size := 0; pm_numOfPages := 0; pm_numOfFreePages := 0; pm_pageSize := 1; pm_nextFreePage := []; pm_mem := ∅ |} 0
    (zero_page 64) end.

Lemma pool_pages_not_shared_witness :
  pool_run ∅ demo_pool /\ PageMgr.getNumberOfPages demo_pool = 3 /\
  PageMgr.getNumberOfFreePages demo_pool = PageMgr.getNumberOfPages demo_pool - Z.of_nat (size (∅ : gset Z)).
Proof.
  assert (pool_run ∅ demo_pool) as H.
  { apply (pool_start 5 (fun n => n <=? 4000) 200 1024 1900); [lia|vm_compute; reflexivity|vm_compute; reflexivity]. }
  split; [exact H|]. split; [reflexivity|]. apply (pool_pages_not_shared ∅ demo_pool H).
Defined.
