(* ===== verification/Cache.v ===== *)
(** * librdb: the cache of key pages (librdb/include/cache.h, librdb/src/cache.cpp)

    [LRUCache] keeps the key pages in memory in a doubly linked list of
    [cnode_t]s, the most recently used one at the head.  A [key_page_node_t] is
    the handle of a page in the list of its hash table entry.  The nodes are in
    an explicit heap, since they point at each other; an access through a
    pointer that is null or whose node was freed is [Undef].  Addresses are not
    reused, so a dangling pointer never points at a new node. *)
From S2P Require Import Prelude Bytes DbStruct File FdpMgr DbFiles PageMgr.

Record cnode := { c_kpn : option positive; c_prev : option positive; c_next : option positive }.

Record key_page_node := {
  kpn_kp : option Z;          (* address in the pool *)
  kpn_kpoff : Z;
  kpn_cnode : option positive;
  kpn_prev : option positive;
  kpn_next : option positive }.

Record heap := { h_cn : gmap positive cnode; h_kpn : gmap positive key_page_node; h_brk : positive }.

Definition heap_init : heap := {| h_cn := ∅; h_kpn := ∅; h_brk := 1 |}.

Module Heap.
Definition get_cn (h : heap) (p : positive) : outcome cnode := deref (h_cn h !! p).
Definition set_cn (h : heap) (p : positive) (c : cnode) : heap :=
  {| h_cn := <[p := c]> (h_cn h); h_kpn := h_kpn h; h_brk := h_brk h |}.
(** A store through a pointer to a live node. *)
Definition upd_cn (h : heap) (p : positive) (f : cnode -> cnode) : outcome heap :=
  let* c := get_cn h p in Val (set_cn h p (f c)).
Definition free_cn (h : heap) (p : positive) : heap :=
  {| h_cn := delete p (h_cn h); h_kpn := h_kpn h; h_brk := h_brk h |}.
Definition new_cn (h : heap) (c : cnode) : positive * heap :=
  (h_brk h, {| h_cn := <[h_brk h := c]> (h_cn h); h_kpn := h_kpn h; h_brk := Pos.succ (h_brk h) |}).

Definition get_kpn (h : heap) (p : positive) : outcome key_page_node := deref (h_kpn h !! p).
Definition set_kpn (h : heap) (p : positive) (k : key_page_node) : heap :=
  {| h_cn := h_cn h; h_kpn := <[p := k]> (h_kpn h); h_brk := h_brk h |}.
Definition upd_kpn (h : heap) (p : positive) (f : key_page_node -> key_page_node) : outcome heap :=
  let* k := get_kpn h p in Val (set_kpn h p (f k)).
Definition free_kpn (h : heap) (p : positive) : heap :=
  {| h_cn := h_cn h; h_kpn := delete p (h_kpn h); h_brk := h_brk h |}.
Definition new_kpn (h : heap) (k : key_page_node) : positive * heap :=
  (h_brk h, {| h_cn := h_cn h; h_kpn := <[h_brk h := k]> (h_kpn h); h_brk := Pos.succ (h_brk h) |}).
End Heap.

Definition c_with_kpn (k : option positive) (c : cnode) : cnode := {| c_kpn := k; c_prev := c_prev c; c_next := c_next c |}.
Definition c_with_prev (p : option positive) (c : cnode) : cnode := {| c_kpn := c_kpn c; c_prev := p; c_next := c_next c |}.
Definition c_with_next (n : option positive) (c : cnode) : cnode := {| c_kpn := c_kpn c; c_prev := c_prev c; c_next := n |}.
Definition k_with_prev (p : option positive) (k : key_page_node) : key_page_node :=
  {| kpn_kp := kpn_kp k; kpn_kpoff := kpn_kpoff k; kpn_cnode := kpn_cnode k; kpn_prev := p; kpn_next := kpn_next k |}.
Definition k_with_next (n : option positive) (k : key_page_node) : key_page_node :=
  {| kpn_kp := kpn_kp k; kpn_kpoff := kpn_kpoff k; kpn_cnode := kpn_cnode k; kpn_prev := kpn_prev k; kpn_next := n |}.
Definition k_with_kpoff (o : Z) (k : key_page_node) : key_page_node :=
  {| kpn_kp := kpn_kp k; kpn_kpoff := o; kpn_cnode := kpn_cnode k; kpn_prev := kpn_prev k; kpn_next := kpn_next k |}.

Record lru := {
  lc_kpSize : Z;
  lc_max : Z;
  lc_num : Z;
  lc_head : option positive;
  lc_tail : option positive;
  lc_pageMgr : pagemgr }.

Module LRUCache.
(** [LRUCache(keyFile, kpSize, memUsage)]; the key file is an argument of the
    methods that read it. *)
Definition new (pm : pagemgr) (kpSize : Z) : lru :=
  {| lc_kpSize := kpSize; lc_max := PageMgr.getNumberOfPages pm; lc_num := 0; lc_head := None; lc_tail := None;
     lc_pageMgr := pm |}.

Definition with_list (c : lru) (num : Z) (hd tl : option positive) : lru :=
  {| lc_kpSize := lc_kpSize c; lc_max := lc_max c; lc_num := num; lc_head := hd; lc_tail := tl; lc_pageMgr := lc_pageMgr c |}.
Definition with_pm (c : lru) (pm : pagemgr) : lru :=
  {| lc_kpSize := lc_kpSize c; lc_max := lc_max c; lc_num := lc_num c; lc_head := lc_head c; lc_tail := lc_tail c; lc_pageMgr := pm |}.

(** Frees the page of a key page node, if it has one. *)
Definition drop_page (c : lru) (k : key_page_node) : outcome lru :=
  match kpn_kp k with
  | Some a => let* pm := PageMgr.free (lc_pageMgr c) a in Val (with_pm c pm)
  | None => Val c
  end.

Definition removeLast (c : lru) (h : heap) : outcome (option positive * lru * heap) :=
  match lc_tail c with
  | None => Val (None, c, h)
  | Some cn =>
      let* t := Heap.get_cn h cn in
      let* (c, h) :=
        match c_prev t with
        | Some p =>
            let* h := Heap.upd_cn h p (c_with_next None) in
            Val (with_list c (lc_num c) (lc_head c) (Some p), h)
        | None => Val (with_list c (lc_num c) None None, h)
        end in
      let* (c, h) :=
        match c_kpn t with
        | Some k =>
            let* kpn := Heap.get_kpn h k in
            let* c := drop_page c kpn in
            let h := Heap.set_kpn h k {| kpn_kp := None; kpn_kpoff := -1; kpn_cnode := None;
                                         kpn_prev := kpn_prev kpn; kpn_next := kpn_next kpn |} in
            let* h := Heap.upd_cn h cn (c_with_kpn None) in
            Val (c, h)
        | None => Val (c, h)
        end in
      let* h := Heap.upd_cn h cn (fun n => c_with_next None (c_with_prev None n)) in
      Val (Some cn, with_list c (lc_num c - 1) (lc_head c) (lc_tail c), h)
  end.

(** [calloc] of a node does not fail here. *)
Definition getCacheNode (c : lru) (h : heap) : outcome (option positive * lru * heap) :=
  if lc_max c <=? lc_num c then removeLast c h
  else
    let '(cn, h) := Heap.new_cn h {| c_kpn := None; c_prev := None; c_next := None |} in
    Val (Some cn, c, h).

Definition add (c : lru) (h : heap) (cn : positive) : outcome (lru * heap) :=
  let* h := Heap.upd_cn h cn (fun n => c_with_next (lc_head c) (c_with_prev None n)) in
  let* (tl, h) :=
    match lc_head c with
    | Some hd => let* h := Heap.upd_cn h hd (c_with_prev (Some cn)) in Val (lc_tail c, h)
    | None => Val (Some cn, h)
    end in
  Val (with_list c (lc_num c + 1) (Some cn) tl, h).

(** The private [free] of a cache node; [num] keeps its value. *)
Definition free_cnode (c : lru) (h : heap) (cn : positive) : outcome (lru * heap) :=
  let* n := Heap.get_cn h cn in
  let* (c, h) :=
    match c_prev n with
    | Some p => let* h := Heap.upd_cn h p (c_with_next (c_next n)) in Val (c, h)
    | None =>
        let c := with_list c (lc_num c) (c_next n) (lc_tail c) in
        match c_next n with
        | Some hd => let* h := Heap.upd_cn h hd (c_with_prev None) in Val (c, h)
        | None => Val (c, h)
        end
    end in
  let* n := Heap.get_cn h cn in
  let* (c, h) :=
    match c_next n with
    | Some x => let* h := Heap.upd_cn h x (c_with_prev (c_prev n)) in Val (c, h)
    | None =>
        let c := with_list c (lc_num c) (lc_head c) (c_prev n) in
        match c_prev n with
        | Some tl => let* h := Heap.upd_cn h tl (c_with_next None) in Val (c, h)
        | None => Val (c, h)
        end
    end in
  Val (c, Heap.free_cn h cn).

Section cache.
Context {OS : Type} (sys : syscalls OS).

(** [getPage(kp, offset)]: a page from the pool, read from the file unless
    [offset] is -1.  What a failed read leaves in the page is not kept: the page
    is given back, and is cleared when it is handed out again. *)
Definition getPage (fuel : nat) (kf : KeyFile) (c : lru) (offset : Z) (os : OS) : outcome (Z * option Z * lru * OS) :=
  let '(kp, pm) := PageMgr.get (lc_pageMgr c) in
  let c := with_pm c pm in
  match kp with
  | None => Val (E_no_memory, None, c, os)
  | Some a =>
      if offset =? -1 then Val (E_ok, Some a, c, os)
      else
        let* (retval, b, os) := KeyFile.read sys fuel kf offset (lc_kpSize c) os in
        if negb (retval =? E_ok) then
          let* pm := PageMgr.free (lc_pageMgr c) a in Val (retval, Some a, with_pm c pm, os)
        else Val (retval, Some a, with_pm c (PageMgr.store (lc_pageMgr c) a (dec_key_page (lc_kpSize c) b)), os)
  end.

(** [get(kpn, offset)]: the new node, when it succeeds. *)
Definition get (fuel : nat) (kf : KeyFile) (c : lru) (h : heap) (offset : Z) (os : OS)
  : outcome (Z * option positive * lru * heap * OS) :=
  let* (cn, c, h) := getCacheNode c h in
  match cn with
  | None => Val (E_no_memory, None, c, h, os)
  | Some cn =>
      let '(kpn, h) := Heap.new_kpn h {| kpn_kp := None; kpn_kpoff := 0; kpn_cnode := None; kpn_prev := None; kpn_next := None |} in
      let* (retval, kp, c, os) := getPage fuel kf c offset os in
      if negb (retval =? E_ok) then Val (retval, None, c, Heap.free_cn (Heap.free_kpn h kpn) cn, os)
      else
        let h := Heap.set_kpn h kpn {| kpn_kp := kp; kpn_kpoff := offset; kpn_cnode := Some cn; kpn_prev := None; kpn_next := None |} in
        let* h := Heap.upd_cn h cn (c_with_kpn (Some kpn)) in
        let* (c, h) := add c h cn in
        Val (retval, Some kpn, c, h, os)
  end.

(** [update(kpn, offset)]: the node of an evicted page gets its page back - and
    loses its neighbours. *)
Definition update (fuel : nat) (kf : KeyFile) (c : lru) (h : heap) (kpn : positive) (offset : Z) (os : OS)
  : outcome (Z * lru * heap * OS) :=
  let* (cn, c, h) := getCacheNode c h in
  match cn with
  | None => Val (E_no_memory, c, h, os)
  | Some cn =>
      let* (retval, kp, c, os) := getPage fuel kf c offset os in
      if negb (retval =? E_ok) then Val (retval, c, Heap.free_cn h cn, os)
      else
        let* _ := Heap.get_kpn h kpn in
        let h := Heap.set_kpn h kpn {| kpn_kp := kp; kpn_kpoff := offset; kpn_cnode := Some cn; kpn_prev := None; kpn_next := None |} in
        let* h := Heap.upd_cn h cn (c_with_kpn (Some kpn)) in
        let* (c, h) := add c h cn in
        Val (retval, c, h, os)
  end.
End cache.

Definition touch (c : lru) (h : heap) (kpn : positive) : outcome (lru * heap) :=
  let* k := Heap.get_kpn h kpn in
  match kpn_kp k, kpn_cnode k with
  | Some _, Some cn =>
      let* n := Heap.get_cn h cn in
      match c_prev n with
      | None => Val (c, h)
      | Some p =>
          let* h := Heap.upd_cn h p (c_with_next (c_next n)) in
          let* h := match c_next n with
                    | Some x => Heap.upd_cn h x (c_with_prev (Some p))
                    | None => Val h
                    end in
          let* h := Heap.upd_cn h cn (fun n => c_with_next (lc_head c) (c_with_prev None n)) in
          let* hd := deref (lc_head c) in
          let* h := Heap.upd_cn h hd (c_with_prev (Some cn)) in
          Val (with_list c (lc_num c) (Some cn) (lc_tail c), h)
      end
  | _, _ => Val (c, h)
  end.

(** The public [free], of a key page node. *)
Definition free (c : lru) (h : heap) (kpn : positive) : outcome (lru * heap) :=
  let* k := Heap.get_kpn h kpn in
  match kpn_cnode k with
  | None => Val (c, h)
  | Some cn =>
      let* (c, h) := free_cnode c h cn in
      let* c := drop_page c k in
      Val (c, Heap.free_kpn h kpn)
  end.
End LRUCache.
