(* ===== verification/HashTable.v ===== *)
(** * librdb: the hash table (librdb/include/hashtable.h, librdb/src/hashtable.cpp)

    The hash function and, per entry, the doubly linked list of key page nodes
    in memory and the offset of the first key page on disk.  The read-write lock
    of an entry is in [RwLock]. *)
From S2P Require Import Prelude DbStruct Cache.

(** ** The hash function *)
Fixpoint hash_loop (key : bytes) (n : nat) (ih : Z) : outcome Z :=
  match n with
  | O => Val ih
  | S n =>
      match key with
      | [] => Undef
      | c :: key =>
          hash_loop key n
            (uint64 (uint64 (uint64 (uint64 c + uint64 (Z.shiftl ih 6)) + uint64 (Z.shiftl ih 16)) - ih))
      end
  end.

(** [hash(key, klen, table_size)]; [key] is the memory the pointer leads to. *)
Definition hash (key : bytes) (klen table_size : Z) : outcome Z :=
  let* ih := hash_loop key (Z.to_nat klen) 0 in
  if uint64 table_size =? 0 then Undef else Val (int32 (ih mod uint64 table_size)).

(** ** The entries *)
Record hash_entry := { he_offset : Z; he_head : option positive; he_tail : option positive }.

Definition initHashEntry : hash_entry := {| he_offset := -1; he_head := None; he_tail := None |}.

Module HashTable.
(** [malloc] of the table does not fail here. *)
Definition allocate (size : Z) : list hash_entry := replicate (Z.to_nat size) initHashEntry.

(** The [ASSERT] of every method, and the entry. *)
Definition entry (ht : list hash_entry) (index : Z) : outcome hash_entry :=
  let* _ := ASSERT ((0 <=? index) && (index <? zlen ht)) in deref (zget ht index).

Definition getOffset (ht : list hash_entry) (index : Z) : outcome Z :=
  let* e := entry ht index in Val (he_offset e).

Definition setOffset (ht : list hash_entry) (index offset : Z) : outcome (list hash_entry) :=
  let* e := entry ht index in
  Val (zset ht index {| he_offset := offset; he_head := he_head e; he_tail := he_tail e |}).

Definition addKeyPageNode (ht : list hash_entry) (h : heap) (index : Z) (kpn : positive)
  : outcome (list hash_entry * heap) :=
  let* e := entry ht index in
  let* h := Heap.upd_kpn h kpn (fun k => k_with_next None (k_with_prev None k)) in
  match he_head e with
  | None =>
      let* k := Heap.get_kpn h kpn in
      Val (zset ht index {| he_offset := kpn_kpoff k; he_head := Some kpn; he_tail := Some kpn |}, h)
  | Some hd =>
      let* h := Heap.upd_kpn h kpn (k_with_prev (he_tail e)) in
      let* tl := deref (he_tail e) in
      let* h := Heap.upd_kpn h tl (k_with_next (Some kpn)) in
      Val (zset ht index {| he_offset := he_offset e; he_head := Some hd; he_tail := Some kpn |}, h)
  end.

Definition removeKeyPageNode (ht : list hash_entry) (h : heap) (index : Z) (kpn : positive)
  : outcome (list hash_entry * heap) :=
  let* e := entry ht index in
  let* _ := ASSERT (bool_decide (is_Some (he_head e)) && bool_decide (is_Some (he_tail e))) in
  let* k := Heap.get_kpn h kpn in
  let* (e, h) :=
    match kpn_prev k with
    | Some p => let* h := Heap.upd_kpn h p (k_with_next (kpn_next k)) in Val (e, h)
    | None =>
        let* off := match kpn_next k with
                    | Some x => let* n := Heap.get_kpn h x in Val (kpn_kpoff n)
                    | None => Val (-1)
                    end in
        Val ({| he_offset := off; he_head := kpn_next k; he_tail := he_tail e |}, h)
    end in
  let* k := Heap.get_kpn h kpn in
  let* (e, h) :=
    match kpn_next k with
    | Some x => let* h := Heap.upd_kpn h x (k_with_prev (kpn_prev k)) in Val (e, h)
    | None => Val ({| he_offset := he_offset e; he_head := he_head e; he_tail := kpn_prev k |}, h)
    end in
  Val (zset ht index e, h).

Definition getKeyPageNodeList (ht : list hash_entry) (index : Z) : outcome (option positive) :=
  let* e := entry ht index in Val (he_head e).

(** The loop of [freeKeyPageNodeList]. *)
Fixpoint free_list (fuel : nat) (h : heap) (hd : option positive) : outcome heap :=
  match fuel with
  | O => OutOfFuel
  | S fuel =>
      match hd with
      | None => Val h
      | Some kpn => let* k := Heap.get_kpn h kpn in free_list fuel (Heap.free_kpn h kpn) (kpn_next k)
      end
  end.

Definition freeKeyPageNodeList (fuel : nat) (ht : list hash_entry) (h : heap) (index : Z)
  : outcome (list hash_entry * heap) :=
  let* e := entry ht index in
  let* h := free_list fuel h (he_head e) in
  Val (zset ht index {| he_offset := he_offset e; he_head := None; he_tail := he_tail e |}, h).
End HashTable.
