(* ===== verification/Dll.v ===== *)
(** * Doubly linked lists

    The cache and the hash table link nodes in both directions.  [links] gives
    the two pointers of a node; [dseg links p l n] says that the nodes [l] are
    linked in this order, from the predecessor [p] to the successor [n]. *)
From S2P Require Import Prelude.

Abbreviation links := (positive -> option (option positive * option positive)).

(** The first node of [l ++ ...], the last one of [... ++ l]. *)
Definition first (l : list positive) (n : option positive) : option positive :=
  match l with [] => n | x :: _ => Some x end.
Definition final (p : option positive) (l : list positive) : option positive :=
  match last l with Some x => Some x | None => p end.

Fixpoint dseg (lk : links) (p : option positive) (l : list positive) (n : option positive) : Prop :=
  match l with
  | [] => True
  | x :: l => lk x = Some (p, first l n) /\ dseg lk (Some x) l n
  end.

Lemma first_app l1 l2 n : first (l1 ++ l2) n = first l1 (first l2 n).
Proof. by destruct l1. Qed.
Lemma final_cons p x l : final p (x :: l) = final (Some x) l.
Proof. unfold final. destruct l as [|y l]; [done|]. rewrite last_cons. by destruct (last (y :: l)). Qed.
Lemma final_snoc p l x : final p (l ++ [x]) = Some x.
Proof. unfold final. by rewrite last_snoc. Qed.
Lemma final_app p l1 l2 : final p (l1 ++ l2) = final (final p l1) l2.
Proof. revert p. induction l1 as [|x l1 IH]; intros p; [done|]. simpl app. by rewrite !final_cons. Qed.

Lemma dseg_app lk p l1 l2 n : dseg lk p (l1 ++ l2) n <-> dseg lk p l1 (first l2 n) /\ dseg lk (final p l1) l2 n.
Proof.
  revert p. induction l1 as [|x l1 IH]; intros p; simpl; [tauto|]. rewrite IH, final_cons, first_app. tauto.
Qed.

Lemma dseg_ext lk lk' p l n : dseg lk p l n -> (forall x, x ∈ l -> lk' x = lk x) -> dseg lk' p l n.
Proof.
  revert p. induction l as [|x l IH]; intros p; [done|]. intros [Hx Hl] He. split.
  - rewrite He by apply list_elem_of_here. done.
  - apply IH; [done|]. intros y Hy. apply He. by apply list_elem_of_further.
Qed.

(** A node of a list has its neighbours. *)
Lemma dseg_node lk p l1 x l2 n : dseg lk p (l1 ++ x :: l2) n -> lk x = Some (final p l1, first l2 n).
Proof. rewrite dseg_app. by intros [_ [? _]]. Qed.

(** The pointers of the neighbours of a segment are updated. *)
Lemma dseg_new_next lk lk' p l n n' : NoDup l -> dseg lk p l n ->
  (forall x, x ∈ l -> lk' x = if decide (last l = Some x) then (fun pn => (pn.1, n')) <$> lk x else lk x) ->
  dseg lk' p l n'.
Proof.
  intros Hnd Hd He. induction l as [|x l _] using rev_ind; [done|].
  apply NoDup_app in Hnd as (Hnd & Hni & _). apply dseg_app in Hd as [Hl [Hx _]]. apply dseg_app. split.
  - eapply dseg_ext; [exact Hl|]. intros y Hy. rewrite He by set_solver. rewrite decide_False; [done|].
    rewrite last_snoc. intros [= ->]. apply (Hni _ Hy). set_solver.
  - split; [|done]. simpl in *. rewrite He by set_solver. rewrite decide_True by apply last_snoc. by rewrite Hx.
Qed.

Lemma dseg_new_prev lk lk' p p' l n : NoDup l -> dseg lk p l n ->
  (forall x, x ∈ l -> lk' x = if decide (head l = Some x) then (fun pn => (p', pn.2)) <$> lk x else lk x) ->
  dseg lk' p' l n.
Proof.
  intros Hnd Hd He. destruct l as [|x l]; [done|].
  apply NoDup_cons in Hnd as [Hni Hnd]. destruct Hd as [Hx Hl]. split.
  - rewrite He by apply list_elem_of_here. rewrite decide_True by done. by rewrite Hx.
  - eapply dseg_ext; [exact Hl|]. intros y Hy. rewrite He by by apply list_elem_of_further.
    rewrite decide_False; [done|]. intros [= ->]. done.
Qed.

(** ** The two pointer updates, as functions *)
Definition set_next (lk : links) (a : option positive) (n : option positive) : links := fun x =>
  if decide (a = Some x) then (fun pn => (pn.1, n)) <$> lk x else lk x.
Definition set_prev (lk : links) (a : option positive) (p : option positive) : links := fun x =>
  if decide (a = Some x) then (fun pn => (p, pn.2)) <$> lk x else lk x.

(** Unlinking a node: its neighbours point at each other. *)
Lemma dseg_unlink lk l1 x l2 : NoDup (l1 ++ x :: l2) -> dseg lk None (l1 ++ x :: l2) None ->
  dseg (set_prev (set_next lk (last l1) (head l2)) (head l2) (last l1)) None (l1 ++ l2) None.
Proof.
  intros Hnd Hd. apply dseg_app in Hd as [H1 [_ H2]].
  apply NoDup_app in Hnd as (Hn1 & Hdj & Hn2). apply NoDup_cons in Hn2 as [Hx Hn2].
  apply dseg_app. split.
  - eapply dseg_new_next; [done|exact H1|]. intros y Hy. unfold set_prev, set_next. rewrite decide_False.
    + done.
    + intros Hh. apply (Hdj y Hy). destruct l2; simplify_eq/=. set_solver.
  - replace (final None l1) with (last l1) by (unfold final; by destruct (last l1)).
    eapply dseg_new_prev; [done|exact H2|]. intros y Hy. unfold set_prev, set_next.
    rewrite (decide_False (P := last l1 = Some y)); [done|]. intros Hl. apply (Hdj y); [|set_solver].
    apply last_Some in Hl as [l' ->]. set_solver.
Qed.

(** Pushing a new node in front. *)
Lemma dseg_push lk x l : NoDup (x :: l) -> dseg lk None l None -> lk x = Some (None, head l) ->
  dseg (set_prev lk (head l) (Some x)) None (x :: l) None.
Proof.
  intros Hnd Hd Hx. apply NoDup_cons in Hnd as [Hni Hnd]. split.
  - unfold set_prev. rewrite decide_False.
    + rewrite Hx. by destruct l.
    + intros Hh. apply Hni. destruct l; simplify_eq/=. set_solver.
  - eapply dseg_new_prev; [done|exact Hd|]. intros y Hy. unfold set_prev. by case_decide.
Qed.

(** Appending one. *)
Lemma dseg_append lk x l : NoDup (l ++ [x]) -> dseg lk None l None -> lk x = Some (last l, None) ->
  dseg (set_next lk (last l) (Some x)) None (l ++ [x]) None.
Proof.
  intros Hnd Hd Hx. apply NoDup_app in Hnd as (Hnd & Hni & _). apply dseg_app. split.
  - eapply dseg_new_next; [done|exact Hd|]. intros y Hy. unfold set_next. by case_decide.
  - split; [|done]. unfold set_next. rewrite decide_False.
    + rewrite Hx. unfold final. by destruct (last l).
    + intros Hl. apply last_Some in Hl as [l' ->]. apply (Hni x); set_solver.
Qed.

#[global] Arguments dseg : simpl never.
