(* ===== verification/CacheFacts.v ===== *)
(** * The cache as a list

    [lru_list] relates the pointers of an [LRUCache] to the list of its nodes,
    the most recently used one first.  Each operation on the pointers is an
    operation on the list - as long as [tail] points at its last node, which
    [touch] does not maintain. *)
From S2P Require Import Prelude Bytes DbStruct File FdpMgr DbFiles PageMgr Cache Dll.

Definition cn_links (h : heap) : links := fun p => (fun c => (c_prev c, c_next c)) <$> h_cn h !! p.

Record lru_list (c : lru) (h : heap) (L : list positive) : Prop := {
  ll_head : lc_head c = head L;
  ll_nodup : NoDup L;
  ll_seg : dseg (cn_links h) None L None }.

Definition tail_ok (c : lru) (L : list positive) : Prop := lc_tail c = last L.

(** What the operations on the list leave alone. *)
Record same_pages (c c' : lru) (h h' : heap) : Prop := {
  sp_kpSize : lc_kpSize c' = lc_kpSize c;
  sp_max : lc_max c' = lc_max c;
  sp_pm : lc_pageMgr c' = lc_pageMgr c;
  sp_kpn : h_kpn h' = h_kpn h;
  sp_brk : h_brk h' = h_brk h;
  sp_owner p : c_kpn <$> h_cn h' !! p = c_kpn <$> h_cn h !! p }.

(** ** Stores *)
Lemma upd_cn_ok h p c f : h_cn h !! p = Some c -> Heap.upd_cn h p f = Val (Heap.set_cn h p (f c)).
Proof. unfold Heap.upd_cn, Heap.get_cn. by intros ->. Qed.

Lemma seg_live h p l n x : dseg (cn_links h) p l n -> x ∈ l -> is_Some (h_cn h !! x).
Proof.
  intros Hd Hx. apply list_elem_of_split in Hx as (l1 & l2 & ->). apply dseg_node in Hd.
  unfold cn_links in Hd. destruct (h_cn h !! x); [eauto|done].
Qed.

Lemma seg_node h l1 x l2 : dseg (cn_links h) None (l1 ++ x :: l2) None ->
  exists k, h_cn h !! x = Some {| c_kpn := k; c_prev := last l1; c_next := head l2 |}.
Proof.
  intros Hd. apply dseg_node in Hd. unfold cn_links in Hd. destruct (h_cn h !! x) as [[k p n]|]; [|done].
  simpl in Hd. injection Hd as -> ->. exists k. unfold final. destruct (last l1), l2; done.
Qed.

(** The effect of a store on the links, and on the owners. *)
Lemma links_next h p c n x : h_cn h !! p = Some c ->
  cn_links (Heap.set_cn h p (c_with_next n c)) x = set_next (cn_links h) (Some p) n x.
Proof.
  intros Hp. unfold cn_links, set_next. simpl. case_decide; simplify_eq; [by rewrite lookup_insert_eq, Hp|].
  by rewrite lookup_insert_ne by congruence.
Qed.
Lemma links_prev h p c n x : h_cn h !! p = Some c ->
  cn_links (Heap.set_cn h p (c_with_prev n c)) x = set_prev (cn_links h) (Some p) n x.
Proof.
  intros Hp. unfold cn_links, set_prev. simpl. case_decide; simplify_eq; [by rewrite lookup_insert_eq, Hp|].
  by rewrite lookup_insert_ne by congruence.
Qed.
Lemma owner_set h p c c' q : h_cn h !! p = Some c -> c_kpn c' = c_kpn c ->
  c_kpn <$> h_cn (Heap.set_cn h p c') !! q = c_kpn <$> h_cn h !! q.
Proof.
  intros Hp Hc. simpl. destruct (decide (p = q)) as [<-|]; [rewrite lookup_insert_eq, Hp; simpl; congruence|].
  by rewrite lookup_insert_ne.
Qed.

(** ** Stores at both ends *)
Lemma same_pages_trans c1 c2 c3 h1 h2 h3 : same_pages c1 c2 h1 h2 -> same_pages c2 c3 h2 h3 -> same_pages c1 c3 h1 h3.
Proof. intros [] []. split; try congruence. Qed.

(** A node is put in front of a list. *)
Lemma push_spec c h L cn n : NoDup (cn :: L) -> dseg (cn_links h) None L None -> h_cn h !! cn = Some n ->
  exists h', (match head L with
              | Some hd => Heap.upd_cn (Heap.set_cn h cn (c_with_next (head L) (c_with_prev None n))) hd (c_with_prev (Some cn))
              | None => Val (Heap.set_cn h cn (c_with_next (head L) (c_with_prev None n)))
              end) = Val h' /\
    dseg (cn_links h') None (cn :: L) None /\ same_pages c c h h'.
Proof.
  intros Hnd Hd Hn. set (h1 := Heap.set_cn h cn _). pose proof (proj1 (proj1 (NoDup_cons _ _) Hnd)) as Hni.
  assert (cn_links h1 cn = Some (None, head L)) as Hcn by (unfold cn_links, h1; simpl; by rewrite lookup_insert_eq).
  assert (dseg (cn_links h1) None L None) as Hd1.
  { eapply dseg_ext; [exact Hd|]. intros x Hx. unfold cn_links, h1. simpl. rewrite lookup_insert_ne; [done|]. by intros <-. }
  assert (same_pages c c h h1) as Hs1 by (split; try done; intros p; by apply (owner_set h cn n)).
  destruct L as [|y L]; cbn [head] in *; [exists h1; by split_and!|].
  destruct (seg_live _ _ _ _ y Hd1 ltac:(set_solver)) as [ny Hy]. rewrite (upd_cn_ok _ _ _ _ Hy).
  eexists. split; [done|]. split.
  - eapply dseg_ext; [apply (dseg_push _ cn (y :: L) Hnd Hd1 Hcn)|]. intros x _. by apply links_prev.
  - eapply same_pages_trans; [exact Hs1|]. split; try done. intros p. by apply (owner_set h1 y ny).
Qed.

(** Unlinking, as [touch] and [free] do it: two stores, where there are
    neighbours. *)
Lemma unlink_spec c h l1 x l2 : lru_list c h (l1 ++ x :: l2) ->
  exists h1 h2,
    (match last l1 with Some p => Heap.upd_cn h p (c_with_next (head l2)) | None => Val h end) = Val h1 /\
    (match head l2 with Some y => Heap.upd_cn h1 y (c_with_prev (last l1)) | None => Val h1 end) = Val h2 /\
    h_cn h1 !! x = h_cn h !! x /\ h_cn h2 !! x = h_cn h !! x /\
    dseg (cn_links h2) None (l1 ++ l2) None /\ same_pages c c h h2.
Proof.
  intros [Hh Hnd Hd]. pose proof (dseg_unlink _ _ _ _ Hnd Hd) as Hu.
  assert (forall p, last l1 = Some p -> is_Some (h_cn h !! p) /\ p <> x) as H1.
  { intros p Hp. apply last_Some in Hp as [l' ->]. split; [eapply seg_live; [exact Hd|set_solver]|].
    intros ->. apply NoDup_app in Hnd as (_ & Hni & _). apply (Hni x); set_solver. }
  assert (forall p, head l2 = Some p -> is_Some (h_cn h !! p) /\ p <> x) as H2.
  { intros p Hp. destruct l2 as [|y l2]; simplify_eq/=. split; [eapply seg_live; [exact Hd|set_solver]|].
    intros ->. apply NoDup_app in Hnd as (_ & _ & Hnd). apply NoDup_cons in Hnd as [Hni _]. set_solver. }
  assert (exists h1, (match last l1 with Some p => Heap.upd_cn h p (c_with_next (head l2)) | None => Val h end) = Val h1 /\
    h_cn h1 !! x = h_cn h !! x /\ (forall y, is_Some (h_cn h !! y) -> is_Some (h_cn h1 !! y)) /\
    (forall y, cn_links h1 y = set_next (cn_links h) (last l1) (head l2) y) /\ same_pages c c h h1) as (h1 & E1 & Hx1 & Hl1 & Hk1 & Hs1).
  { destruct (last l1) as [p|] eqn:E.
    - destruct (H1 p eq_refl) as [[np Hp] Hne]. rewrite (upd_cn_ok _ _ _ _ Hp). eexists. split; [done|].
      split; [simpl; by rewrite lookup_insert_ne|]. split; [intros y Hy; simpl; rewrite lookup_insert_is_Some'; auto|].
      split; [intros y; by apply links_next|]. split; try done. intros q. by apply (owner_set h p np).
    - exists h. split_and!; try done. }
  exists h1. destruct (head l2) as [y|] eqn:E.
  - destruct (H2 y eq_refl) as [Hy Hne]. destruct (Hl1 y Hy) as [ny Hny]. rewrite (upd_cn_ok _ _ _ _ Hny).
    eexists. split; [done|]. split; [done|]. split; [done|]. split; [simpl; by rewrite lookup_insert_ne|]. split.
    + eapply dseg_ext; [exact Hu|]. intros z _. rewrite (links_prev _ _ _ _ _ Hny). unfold set_prev. by rewrite Hk1.
    + destruct Hs1. split; try done. intros q. rewrite <- sp_owner0. by apply (owner_set h1 y ny).
  - exists h1. split_and!; try done. eapply dseg_ext; [exact Hu|]. intros z _. by rewrite Hk1.
Qed.

(** ** The operations *)
Lemma add_spec c h L cn n : lru_list c h L -> cn ∉ L -> h_cn h !! cn = Some n ->
  exists c' h', LRUCache.add c h cn = Val (c', h') /\ lru_list c' h' (cn :: L) /\ lc_num c' = lc_num c + 1 /\
    (tail_ok c L -> tail_ok c' (cn :: L)) /\ same_pages c c' h h'.
Proof.
  intros [Hh Hnd Hd] Hni Hn. unfold LRUCache.add. rewrite (upd_cn_ok _ _ _ _ Hn). cbn [obind]. rewrite Hh.
  destruct (push_spec c h L cn n ltac:(by constructor) Hd Hn) as (h' & E & Hd' & Hs).
  destruct L as [|y L]; cbn [head] in *.
  - injection E as E. rewrite E. cbn [obind]. eexists _, _. split; [done|]. split_and!; [split; [done|by constructor|done]|done|done|].
    by destruct Hs.
  - rewrite E. cbn [obind]. eexists _, _. split; [done|]. split_and!; [split; [done|by constructor|done]|done| |by destruct Hs].
    intros Ht. unfold tail_ok in *. simpl. by rewrite Ht.
Qed.

(** [touch] moves the node of the page to the front; [tail] stays. *)
Lemma touch_spec c h l1 cn l2 kpn k : lru_list c h (l1 ++ cn :: l2) -> h_kpn h !! kpn = Some k ->
  is_Some (kpn_kp k) -> kpn_cnode k = Some cn ->
  exists c' h', LRUCache.touch c h kpn = Val (c', h') /\ lru_list c' h' (cn :: l1 ++ l2) /\
    lc_num c' = lc_num c /\ lc_tail c' = lc_tail c /\ same_pages c c' h h'.
Proof.
  intros HL Hk [a Ha] Hcn. pose proof HL as [Hh Hnd Hd]. unfold LRUCache.touch, Heap.get_kpn. rewrite Hk. simpl.
  rewrite Ha, Hcn. destruct (seg_node _ _ _ _ Hd) as (o & Hn). unfold Heap.get_cn. rewrite Hn. simpl.
  assert (NoDup (cn :: l1 ++ l2)) as Hnd' by (by rewrite Permutation_middle).
  destruct (unlink_spec _ _ _ _ _ HL) as (h1 & h2 & E1 & E2 & Hx1 & Hx2 & Hd2 & Hs2).
  destruct (last l1) as [p|] eqn:El.
  2: { apply last_None in El as ->. exists c, h. split_and!; try done. }
  rewrite E1. cbn [obind].
  replace (match head l2 with Some x => Heap.upd_cn h1 x (c_with_prev (Some p)) | None => Val h1 end) with (Val h2)
    by (by destruct (head l2)).
  cbn [obind]. rewrite Hn in Hx2. rewrite (upd_cn_ok _ _ _ _ Hx2). cbn [obind].
  assert (lc_head c = head (l1 ++ l2) /\ is_Some (head (l1 ++ l2))) as [Hhd [hd Hhd']].
  { rewrite Hh. destruct l1; [done|]. simpl. eauto. }
  rewrite Hhd, Hhd'. cbn [deref obind].
  destruct (push_spec c h2 (l1 ++ l2) cn _ Hnd' Hd2 Hx2) as (h3 & E3 & Hd3 & Hs3). rewrite Hhd' in E3. rewrite E3.
  cbn [obind]. eexists _, _. split; [done|]. split_and!; [by split|done|done|].
  destruct (same_pages_trans _ _ _ _ _ _ Hs2 Hs3). by split.
Qed.

(** Storing the same again changes nothing. *)
Lemma upd_cn_idem h h1 p f : (forall c, f (f c) = f c) -> Heap.upd_cn h p f = Val h1 -> Heap.upd_cn h1 p f = Val h1.
Proof.
  intros Hf. unfold Heap.upd_cn, Heap.get_cn. destruct (h_cn h !! p) as [c|]; [|done]. intros [= <-]. simpl.
  rewrite lookup_insert_eq. simpl. unfold Heap.set_cn. simpl. by rewrite insert_insert_eq, Hf.
Qed.

(** The private [free] unlinks and frees the node; [num] keeps counting it. *)
Lemma free_cnode_spec c h l1 cn l2 : lru_list c h (l1 ++ cn :: l2) ->
  exists c' h', LRUCache.free_cnode c h cn = Val (c', h') /\ lru_list c' h' (l1 ++ l2) /\
    lc_num c' = lc_num c /\ lc_max c' = lc_max c /\ lc_kpSize c' = lc_kpSize c /\ lc_pageMgr c' = lc_pageMgr c /\
    (tail_ok c (l1 ++ cn :: l2) -> tail_ok c' (l1 ++ l2)) /\
    h_kpn h' = h_kpn h /\ h_brk h' = h_brk h /\ h_cn h' !! cn = None /\
    (forall p, p <> cn -> c_kpn <$> h_cn h' !! p = c_kpn <$> h_cn h !! p).
Proof.
  intros HL. pose proof HL as [Hh Hnd Hd].
  destruct (seg_node _ _ _ _ Hd) as (o & Hn).
  destruct (unlink_spec _ _ _ _ _ HL) as (h1 & h2 & E1 & E2 & Hx1 & Hx2 & Hd2 & Hs2).
  assert (NoDup (l1 ++ l2) /\ cn ∉ l1 ++ l2) as [Hnd' Hni].
  { rewrite <- Permutation_middle in Hnd. apply NoDup_cons in Hnd. tauto. }
  assert (exists c', lc_head c' = head (l1 ++ l2) /\ lc_num c' = lc_num c /\ lc_max c' = lc_max c /\ lc_kpSize c' = lc_kpSize c /\
    lc_pageMgr c' = lc_pageMgr c /\ (tail_ok c (l1 ++ cn :: l2) -> tail_ok c' (l1 ++ l2)) /\
    LRUCache.free_cnode c h cn = Val (c', Heap.free_cn h2 cn)) as (c' & Hh' & Hnum & Hmax & Hkps & Hpm & Ht & E).
  { unfold LRUCache.free_cnode, Heap.get_cn. rewrite Hn. cbn [deref obind c_prev c_next].
    rewrite Hn in Hx1, Hx2. unfold tail_ok. destruct (last l1) as [p|] eqn:El.
    - rewrite E1. cbn [obind]. rewrite Hx1. cbn [deref obind c_prev c_next].
      assert (l1 <> []) as Hne by (by intros ->). destruct (head l2) as [y|] eqn:Ey.
      + rewrite E2. cbn [obind]. exists c. rewrite Hh. split_and!; try done; [by destruct l1|].
        intros ->. destruct l2; [done|]. by rewrite !last_app, last_cons_cons.
      + assert (l2 = []) as -> by (by destruct l2). injection E2 as ->. rewrite app_nil_r.
        rewrite (upd_cn_idem h h2 p (c_with_next None) ltac:(done) E1). cbn [obind].
        eexists. split; [|split_and!; [..|reflexivity]]; simpl; try done. by destruct l1.
    - apply last_None in El as ->. injection E1 as <-. simpl app in *. destruct l2 as [|y l2]; cbn [head] in *.
      + cbn [obind]. rewrite Hn. cbn [deref obind c_prev c_next]. injection E2 as <-.
        eexists. split; [|split_and!; [..|reflexivity]]; done.
      + rewrite E2. cbn [obind]. rewrite Hx2. cbn [deref obind c_prev c_next].
        rewrite (upd_cn_idem h h2 y (c_with_prev None) ltac:(done) E2). cbn [obind].
        eexists. split; [|split_and!; [..|reflexivity]]; done. }
  destruct Hs2. exists c', (Heap.free_cn h2 cn). split_and!; try done.
  - split; [done|done|]. eapply dseg_ext; [exact Hd2|]. intros x Hx. unfold cn_links. simpl.
    rewrite lookup_delete_ne; [done|]. by intros <-.
  - simpl. apply lookup_delete_eq.
  - intros p Hp. simpl. by rewrite lookup_delete_ne.
Qed.

(** ** The pages of the cache *)

(** The node [x] and a key page node point at each other, and the latter holds
    the page [a]. *)
Definition owner (h : heap) (x : positive) (a : Z) : Prop :=
  exists k kn, c_kpn <$> h_cn h !! x = Some (Some k) /\ h_kpn h !! k = Some kn /\
    kpn_cnode kn = Some x /\ kpn_kp kn = Some a.

Record cache_ok (c : lru) (h : heap) (L : list positive) (pgs : list Z) : Prop := {
  co_list : lru_list c h L;
  co_pages : Forall2 (owner h) L pgs;
  co_nodup : NoDup pgs;
  co_pool : exists rel bot fr, pool_ok (list_to_set pgs) (lc_pageMgr c) rel bot fr;
  co_max : lc_max c = PageMgr.getNumberOfPages (lc_pageMgr c);
  co_kps : pm_pageSize (lc_pageMgr c) = lc_kpSize c;
  co_cn p : is_Some (h_cn h !! p) -> (p < h_brk h)%positive;
  co_kpn p : is_Some (h_kpn h !! p) -> (p < h_brk h)%positive }.

Lemma size_pages (pgs : list Z) : NoDup pgs -> size (list_to_set pgs : gset Z) = length pgs.
Proof. apply size_list_to_set. Qed.

(** Nodes with different pages are different. *)
Lemma owner_ne h x y k kn a b : h_kpn h !! k = Some kn -> kpn_cnode kn = Some x -> kpn_kp kn = Some a -> owner h y b -> b <> a ->
  exists k' kn', k' <> k /\ c_kpn <$> h_cn h !! y = Some (Some k') /\ h_kpn h !! k' = Some kn' /\ kpn_cnode kn' = Some y /\ kpn_kp kn' = Some b.
Proof. intros H1 H2 H3 (k' & kn' & H4 & H5 & H6 & H7) Hne. exists k', kn'. split_and!; try done. intros ->. congruence. Qed.

(** The last node is removed, its page given back, its key page node emptied but
    left in the list of its hash table entry. *)
Lemma removeLast_spec c h l x pgs a : cache_ok c h (l ++ [x]) (pgs ++ [a]) -> tail_ok c (l ++ [x]) ->
  exists c' h' k kn, LRUCache.removeLast c h = Val (Some x, c', h') /\
    cache_ok c' h' l pgs /\ tail_ok c' l /\ lc_num c' = lc_num c - 1 /\ lc_max c' = lc_max c /\
    h_cn h' !! x = Some {| c_kpn := None; c_prev := None; c_next := None |} /\ h_brk h' = h_brk h /\
    lc_kpSize c' = lc_kpSize c /\ pm_mem (lc_pageMgr c') = pm_mem (lc_pageMgr c) /\
    h_kpn h !! k = Some kn /\ kpn_kp kn = Some a /\
    h_kpn h' = <[k := {| kpn_kp := None; kpn_kpoff := -1; kpn_cnode := None; kpn_prev := kpn_prev kn; kpn_next := kpn_next kn |}]> (h_kpn h).
Proof.
  intros Hok Ht. pose proof Hok as [HL Hpg Hndp (rel & bot & fr & Hpool) Hmax Hkps Hcn Hkpn]. pose proof HL as [Hh Hnd Hd].
  apply Forall2_app_inv in Hpg as [Hpg Hx]; [|apply Forall2_length in Hpg; rewrite !length_app in Hpg; simpl in Hpg; lia].
  apply Forall2_cons in Hx as [(k & kn & Hxk & Hk & Hkc & Hka) _].
  destruct (seg_node _ _ _ _ Hd) as (o & Hn). rewrite Hn in Hxk. simpl in Hxk. injection Hxk as ->.
  destruct (unlink_spec _ _ _ _ _ HL) as (h1 & h2 & E1 & E2 & Hx1 & _ & Hd2 & Hs2). simpl in E2. injection E2 as <-.
  rewrite app_nil_r in Hd2. destruct Hs2 as [_ _ _ Hk1 Hb1 Ho1].
  apply NoDup_app in Hnd as (Hndl & Hnil & _). apply NoDup_app in Hndp as (Hndp & Hnip & _).
  assert (a ∈ (list_to_set (pgs ++ [a]) : gset Z)) as Hain by (rewrite elem_of_list_to_set; set_solver).
  destruct (pool_free _ _ _ _ _ a Hpool Hain) as (pm' & Hfree & Hmem' & Hps' & _ & Hnp' & Hpool').
  unfold tail_ok in Ht. rewrite last_snoc in Ht.
  set (kn' := {| kpn_kp := None; kpn_kpoff := -1; kpn_cnode := None; kpn_prev := kpn_prev kn; kpn_next := kpn_next kn |}).
  set (h3 := {| h_cn := <[x := {| c_kpn := None; c_prev := None; c_next := None |}]> (h_cn h1); h_kpn := <[k := kn']> (h_kpn h1); h_brk := h_brk h1 |}).
  set (c3 := {| lc_kpSize := lc_kpSize c; lc_max := lc_max c; lc_num := lc_num c - 1; lc_head := head l; lc_tail := last l; lc_pageMgr := pm' |}).
  assert (LRUCache.removeLast c h = Val (Some x, c3, h3)) as E.
  { unfold LRUCache.removeLast. rewrite Ht. unfold Heap.get_cn. rewrite Hn. cbn [deref obind c_prev c_next c_kpn head] in *.
    assert ((match last l with
             | Some p => let* h := Heap.upd_cn h p (c_with_next None) in Val (LRUCache.with_list c (lc_num c) (lc_head c) (Some p), h)
             | None => Val (LRUCache.with_list c (lc_num c) None None, h)
             end) = Val (LRUCache.with_list c (lc_num c) (head l) (last l), h1)) as ->.
    { rewrite Hh. destruct (last l) as [p|] eqn:El; cbn [head] in *.
      - rewrite E1. simpl. assert (head (l ++ [x]) = head l) as -> by (destruct l; done). done.
      - apply last_None in El as ->. injection E1 as <-. done. }
    cbn [obind]. unfold Heap.get_kpn. rewrite Hk1, Hk. cbn [deref obind]. unfold LRUCache.drop_page. rewrite Hka.
    simpl lc_pageMgr. rewrite Hfree. cbn [obind].
    rewrite (upd_cn_ok _ x {| c_kpn := Some k; c_prev := last l; c_next := None |}) by (simpl; rewrite Hx1; done).
    cbn [obind]. rewrite (upd_cn_ok _ x {| c_kpn := None; c_prev := last l; c_next := None |}) by (simpl; by rewrite lookup_insert_eq).
    cbn [obind]. unfold h3, c3, Heap.set_cn, Heap.set_kpn. simpl. rewrite insert_insert_eq, Hk1. done. }
  exists c3, h3, k, kn. split; [exact E|]. split_and!; try done.
  - split; simpl; try done.
    + split; [done|done|]. eapply dseg_ext; [exact Hd2|]. intros y Hy. unfold cn_links. simpl.
      rewrite lookup_insert_ne; [done|]. intros <-. apply (Hnil x Hy). set_solver.
    + rewrite Forall2_lookup in Hpg |- *. intros i. specialize (Hpg i).
      destruct (l !! i) as [y|] eqn:Ey; inversion Hpg as [? b Hyo Hyp Hy'|]; subst; [|constructor]. constructor.
      symmetry in Hy'. apply list_elem_of_lookup_2 in Ey, Hy'.
      destruct (owner_ne _ _ _ _ _ _ b Hk Hkc Hka Hyo) as (k' & kn'' & Hne & Hc & Hk' & ? & ?); [intros ->; apply (Hnip a); set_solver|].
      exists k', kn''. simpl. rewrite !lookup_insert_ne by (done || (intros <-; apply (Hnil x Ey); set_solver)).
      rewrite Ho1, Hk1. done.
    + exists (a :: rel), bot, fr. replace (list_to_set pgs) with (list_to_set (pgs ++ [a]) ∖ {[a]} : gset Z); [done|].
      apply set_eq. intros z. rewrite elem_of_difference, elem_of_singleton, !elem_of_list_to_set, elem_of_app, list_elem_of_singleton.
      destruct (decide (z = a)) as [->|]; [|tauto]. split; [tauto|]. intros Hz. exfalso. apply (Hnip a Hz). set_solver.
    + unfold PageMgr.getNumberOfPages in *. congruence.
    + congruence.
    + intros p. rewrite lookup_insert_is_Some, Hb1. intros [<-|[_ Hp]]; apply Hcn; [by rewrite Hn|].
      specialize (Ho1 p). destruct (h_cn h1 !! p), (h_cn h !! p); simpl in *; naive_solver.
    + intros p. rewrite lookup_insert_is_Some, Hb1, Hk1. intros [<-|[_ Hp]]; apply Hkpn; [by rewrite Hk|done].
  - simpl. by rewrite lookup_insert_eq.
  - simpl. by rewrite Hk1.
Qed.

(** ** Getting a page *)

(** The read that [getPage] does, if it does one, succeeds with [b]. *)
Definition page_read {OS} (sys : syscalls OS) fuel kf kpSize off os (kp : key_page) os' : Prop :=
  (off = -1 /\ kp = zero_page kpSize /\ os' = os) \/
  (off <> -1 /\ exists b, KeyFile.read sys fuel kf off kpSize os = Val (E_ok, b, os') /\ kp = dec_key_page kpSize b).

(** A new node and its page are put in front, when a cache node [cn] that is in
    no list is at hand. *)
Lemma install_spec c h L pgs cn kpn kn0 a pm off prev next nd :
  cache_ok c h L pgs -> cn ∉ L -> h_cn h !! cn = Some nd -> h_kpn h !! kpn = Some kn0 ->
  Forall (fun x => c_kpn <$> h_cn h !! x <> Some (Some kpn)) L ->
  pm_pageSize pm = pm_pageSize (lc_pageMgr c) -> pm_numOfPages pm = pm_numOfPages (lc_pageMgr c) ->
  a ∉ pgs -> (exists rel bot fr, pool_ok (list_to_set (a :: pgs)) pm rel bot fr) ->
  let h1 := Heap.set_kpn h kpn {| kpn_kp := Some a; kpn_kpoff := off; kpn_cnode := Some cn; kpn_prev := prev; kpn_next := next |} in
  exists c' h',
    (let* h := Heap.upd_cn h1 cn (c_with_kpn (Some kpn)) in LRUCache.add (LRUCache.with_pm c pm) h cn) = Val (c', h') /\
    cache_ok c' h' (cn :: L) (a :: pgs) /\ (tail_ok c L -> tail_ok c' (cn :: L)) /\ lc_num c' = lc_num c + 1 /\
    h_kpn h' = h_kpn h1 /\ h_brk h' = h_brk h /\ lc_pageMgr c' = pm /\ lc_max c' = lc_max c /\ lc_kpSize c' = lc_kpSize c /\
    (forall x, c_kpn <$> h_cn h' !! x = if decide (x = cn) then Some (Some kpn) else c_kpn <$> h_cn h !! x).
Proof.
  intros [HL Hpg Hndp Hpool Hmax Hkps Hcn Hkpn] Hni Hnd Hk0 Hown Hps Hnp Ha Hpool' h1.
  rewrite (upd_cn_ok h1 cn nd) by done. cbn [obind]. set (h2 := Heap.set_cn h1 cn (c_with_kpn (Some kpn) nd)).
  assert (lru_list (LRUCache.with_pm c pm) h2 L) as HL2.
  { destruct HL as [Hh Hn Hd]. split; [done|done|]. eapply dseg_ext; [exact Hd|]. intros x Hx. unfold cn_links. simpl.
    rewrite lookup_insert_ne; [done|]. by intros <-. }
  destruct (add_spec _ _ _ cn (c_with_kpn (Some kpn) nd) HL2 Hni) as (c' & h' & E & HL' & Hnum & Ht & [Hs1 Hs2 Hs3 Hs4 Hs5 Hs6]);
    [simpl; by rewrite lookup_insert_eq|].
  exists c', h'. split; [exact E|]. simpl in *. split_and!; try done.
  2: { intros x. rewrite Hs6. case_decide; [subst; by rewrite lookup_insert_eq|by rewrite lookup_insert_ne]. }
  split; try done; simpl.
  - constructor.
    + exists kpn, {| kpn_kp := Some a; kpn_kpoff := off; kpn_cnode := Some cn; kpn_prev := prev; kpn_next := next |}.
      rewrite Hs6, Hs4. simpl. by rewrite !lookup_insert_eq.
    + rewrite Forall2_lookup in Hpg |- *. intros i. specialize (Hpg i). rewrite Forall_lookup in Hown.
      destruct (L !! i) as [y|] eqn:Ey; inversion Hpg as [? b Hyo Hyp Hy'|]; subst; [|constructor]. constructor.
      specialize (Hown i y Ey). destruct Hyo as (k' & kn' & H1 & H2 & H3 & H4). exists k', kn'.
      assert (kpn <> k') by congruence. assert (cn <> y) by (intros <-; by apply list_elem_of_lookup_2 in Ey).
      rewrite Hs6, Hs4. simpl. by rewrite !lookup_insert_ne by done.
  - by constructor.
  - rewrite Hs3. done.
  - rewrite Hs2, Hs3. unfold PageMgr.getNumberOfPages in *. congruence.
  - rewrite Hs1, Hs3. congruence.
  - intros p Hp. rewrite Hs5. apply Hcn. specialize (Hs6 p). simpl in Hs6.
    destruct (decide (p = cn)) as [->|]; [by rewrite Hnd|]. rewrite lookup_insert_ne in Hs6 by done.
    destruct (h_cn h' !! p), (h_cn h !! p); simpl in *; naive_solver.
  - intros p. rewrite Hs4, Hs5. simpl. rewrite lookup_insert_is_Some. intros [<-|[_ Hp]]; apply Hkpn; [by rewrite Hk0|done].
Qed.

(** The page is the one asked for; the others in use are as they were. *)
Record new_page_at (pm pm' : pagemgr) (pgs : list Z) (a : Z) (kp : key_page) : Prop := {
  np_fresh : a ∉ pgs;
  np_page : PageMgr.load pm' a = Val kp;
  np_other b : b ∈ pgs -> PageMgr.load pm' b = PageMgr.load pm b }.

Lemma pool_store_ok used pm rel bot fr a kp : pool_ok used pm rel bot fr -> pool_ok used (PageMgr.store pm a kp) rel bot fr.
Proof. intros []. split; simpl; try done. intros x Hx. rewrite lookup_insert_is_Some'. auto. Qed.

Section get.
Context {OS : Type} (sys : syscalls OS).

Lemma getPage_spec fuel kf c h L pgs off os kp os' : cache_ok c h L pgs -> (zlen L < lc_max c) ->
  page_read sys fuel kf (lc_kpSize c) off os kp os' ->
  exists a pm, LRUCache.getPage sys fuel kf c off os = Val (E_ok, Some a, LRUCache.with_pm c pm, os') /\
    pm_pageSize pm = pm_pageSize (lc_pageMgr c) /\ pm_numOfPages pm = pm_numOfPages (lc_pageMgr c) /\
    (exists rel bot fr, pool_ok (list_to_set (a :: pgs)) pm rel bot fr) /\ new_page_at (lc_pageMgr c) pm pgs a kp.
Proof.
  intros [HL Hpg Hndp (rel & bot & fr & Hpool) Hmax Hkps _ _] Hroom Hread.
  assert (Z.of_nat (size (list_to_set pgs : gset Z)) < pm_numOfPages (lc_pageMgr c)) as Hlt.
  { rewrite size_pages by done. apply Forall2_length in Hpg. unfold PageMgr.getNumberOfPages, zlen in *. lia. }
  destruct (pool_get _ _ _ _ _ Hpool Hlt) as (a & pm & rel' & bot' & fr' & E & Hni & _ & _ & _ & Hm & Hps & _ & Hnp & Hpool').
  rewrite elem_of_list_to_set in Hni. unfold LRUCache.getPage. rewrite E.
  destruct Hread as [(-> & -> & ->)|(Hoff & b & Hr & ->)].
  - simpl. exists a, pm. rewrite <- Hkps. split_and!; try done; [eauto|]. split; [done| |]; unfold PageMgr.load; rewrite Hm.
    + by rewrite lookup_insert_eq.
    + intros x Hx. rewrite lookup_insert_ne; [done|]. by intros ->.
  - rewrite (proj2 (Z.eqb_neq off (-1))) by done. simpl lc_kpSize. rewrite Hr. cbn [obind]. rewrite Z.eqb_refl. simpl.
    eexists a, _. split; [reflexivity|]. split_and!; try done.
    + exists rel', bot', fr'. by apply pool_store_ok.
    + split; [done| |]; unfold PageMgr.load; simpl; [by rewrite lookup_insert_eq|].
      intros x Hx. rewrite Hm, !lookup_insert_ne; [done|by intros ->..].
Qed.

(** What [get] does once it has a cache node. *)
Lemma get_installs fuel kf c0 h0 c h L pgs cn nd off os kp os' :
  LRUCache.getCacheNode c0 h0 = Val (Some cn, c, h) ->
  cache_ok c h L pgs -> zlen L < lc_max c -> cn ∉ L -> h_cn h !! cn = Some nd ->
  page_read sys fuel kf (lc_kpSize c) off os kp os' ->
  exists kpn a c' h', LRUCache.get sys fuel kf c0 h0 off os = Val (E_ok, Some kpn, c', h', os') /\
    cache_ok c' h' (cn :: L) (a :: pgs) /\ (tail_ok c L -> tail_ok c' (cn :: L)) /\ lc_num c' = lc_num c + 1 /\
    lc_max c' = lc_max c /\ lc_kpSize c' = lc_kpSize c /\ h_kpn h !! kpn = None /\
    h_kpn h' = <[kpn := {| kpn_kp := Some a; kpn_kpoff := off; kpn_cnode := Some cn; kpn_prev := None; kpn_next := None |}]> (h_kpn h) /\
    new_page_at (lc_pageMgr c) (lc_pageMgr c') pgs a kp /\
    (forall x, c_kpn <$> h_cn h' !! x = if decide (x = cn) then Some (Some kpn) else c_kpn <$> h_cn h !! x).
Proof.
  intros Eg Hok Hroom Hni Hnd Hread. unfold LRUCache.get. rewrite Eg. cbn [obind].
  destruct (Heap.new_kpn h _) as [kpn h1] eqn:En. unfold Heap.new_kpn in En. injection En as Ek Eh.
  destruct (getPage_spec fuel kf c h L pgs off os kp os' Hok Hroom Hread) as (a & pm & -> & Hps & Hnp & Hpool & Hnew).
  cbn [obind]. rewrite Z.eqb_refl. cbn [negb].
  pose proof Hok as [HL Hpg Hndp Hpool0 Hmax Hkps Hcn Hkpn].
  assert (h_kpn h !! kpn = None) as Hk0.
  { destruct (h_kpn h !! kpn) eqn:E; [|done]. specialize (Hkpn kpn). rewrite E in Hkpn. specialize (Hkpn ltac:(eauto)). subst. lia. }
  assert (cache_ok c h1 L pgs) as Hok1.
  { subst h1 kpn. split; simpl; try done.
    - destruct HL as [? ? Hd]. split; [done|done|]. eapply dseg_ext; [exact Hd|done].
    - eapply Forall2_impl; [exact Hpg|]. intros x y (k & kn & ? & Hk & ?). exists k, kn. simpl.
      rewrite lookup_insert_ne; [done|]. intros <-. by rewrite Hk0 in Hk.
    - intros p Hp. specialize (Hcn p Hp). lia.
    - intros p [<-|[_ Hp]]%lookup_insert_is_Some; [lia|]. specialize (Hkpn p Hp). lia. }
  destruct (install_spec c h1 L pgs cn kpn {| kpn_kp := None; kpn_kpoff := 0; kpn_cnode := None; kpn_prev := None; kpn_next := None |}
    a pm off None None nd Hok1 Hni) as (c' & h' & E & Hok' & Ht & Hnum & Hkpn' & _ & Hpm & Hm' & Hks' & Hcn'); try done.
  - subst h1. done.
  - subst h1 kpn. simpl. by rewrite lookup_insert_eq.
  - apply Forall_forall. intros x Hx Hc. rewrite Forall2_lookup in Hpg. apply list_elem_of_lookup in Hx as [i Hi].
    specialize (Hpg i). rewrite Hi in Hpg. inversion Hpg as [? b (k & kn & H1 & H2 & _)|]; subst. simpl in *. congruence.
  - apply Hnew.
  - rewrite <- obind_Val. exists kpn, a, c', h'. rewrite obind_Val. split.
    { destruct (Heap.upd_cn _ _ _); simpl in *; try done. by rewrite E. }
    split_and!; try done.
    + rewrite Hkpn'. subst h1 kpn. simpl. by rewrite insert_insert_eq.
    + by rewrite Hpm.
    + intros x. rewrite Hcn'. subst h1. done.
Qed.
End get.

Lemma getCacheNode_new c h L pgs : cache_ok c h L pgs -> lc_num c < lc_max c ->
  exists cn h', LRUCache.getCacheNode c h = Val (Some cn, c, h') /\ cache_ok c h' L pgs /\ (cn ∉ L) /\
    h_cn h' !! cn = Some {| c_kpn := None; c_prev := None; c_next := None |} /\ h_kpn h' = h_kpn h /\
    (forall x, x ∈ L -> h_cn h' !! x = h_cn h !! x).
Proof.
  intros [[Hh Hnd Hd] Hpg Hndp Hpool Hmax Hkps Hcn Hkpn] Hlt. unfold LRUCache.getCacheNode.
  rewrite (proj2 (Z.leb_gt (lc_max c) (lc_num c))) by lia. unfold Heap.new_cn.
  assert (forall x, is_Some (h_cn h !! x) -> h_brk h <> x) as Hne by (intros x Hx; specialize (Hcn x Hx); lia).
  eexists _, _. split; [done|]. split_and!; simpl; try done; [| |by rewrite lookup_insert_eq|intros x Hx; rewrite lookup_insert_ne; [done|apply Hne; by eapply seg_live]].
  - split; simpl; try done.
    + split; [done|done|]. eapply dseg_ext; [exact Hd|]. intros x Hx. unfold cn_links. simpl.
      rewrite lookup_insert_ne; [done|]. apply Hne. by eapply seg_live.
    + eapply Forall2_impl; [exact Hpg|]. intros x y (k & kn & Hx & ?). exists k, kn. simpl.
      rewrite lookup_insert_ne; [done|]. apply Hne. destruct (h_cn h !! x); [eauto|done].
    + intros p [<-|[_ Hp]]%lookup_insert_is_Some; [lia|]. specialize (Hcn p Hp). lia.
    + intros p Hp. specialize (Hkpn p Hp). lia.
  - intros Hin. apply (Hne (h_brk h)); [by eapply seg_live|done].
Qed.

(** An LRU cache of [max] pages, most recently used first. *)
Definition lru_insert (max : Z) (L : list positive) (x : positive) : list positive :=
  x :: (if zlen L <? max then L else removelast L).

(** A cache whose list is as it should be. *)
Definition lru_ok (c : lru) (h : heap) (L : list positive) : Prop :=
  tail_ok c L /\ lc_num c = zlen L /\ exists pgs, cache_ok c h L pgs.

Lemma owner_page h L pgs x b : Forall2 (owner h) L pgs -> x ∈ L -> owner h x b -> b ∈ pgs.
Proof.
  intros Hpg Hin Hx. rewrite Forall2_lookup in Hpg. apply list_elem_of_lookup in Hin as [i Hi]. specialize (Hpg i).
  rewrite Hi in Hpg. inversion Hpg as [? b' Hx' Hp' Hb'|]; subst. symmetry in Hb'. apply list_elem_of_lookup_2 in Hb'.
  destruct Hx as (? & ? & ? & ? & _ & ?), Hx' as (? & ? & ? & ? & _ & ?). by simplify_eq.
Qed.

(** There are never more nodes than pages. *)
Lemma cache_len c h L pgs : cache_ok c h L pgs -> zlen L <= lc_max c.
Proof.
  intros [_ Hpg Hnd (rel & bot & fr & Hpool) -> _ _ _]. apply Forall2_length in Hpg. pose proof (pool_size_bound _ _ _ _ _ Hpool) as Hb.
  rewrite size_pages in Hb by done. unfold PageMgr.getNumberOfPages, zlen. lia.
Qed.

(** A full cache removes its last node. *)
Lemma getCacheNode_full c h L pgs : cache_ok c h L pgs -> tail_ok c L -> lc_num c = zlen L -> 0 < lc_max c -> lc_max c <= zlen L ->
  exists x c1 h1 pg1, LRUCache.getCacheNode c h = Val (Some x, c1, h1) /\ cache_ok c1 h1 (removelast L) pg1 /\ (x ∉ removelast L) /\
    tail_ok c1 (removelast L) /\ lc_num c1 = lc_num c - 1 /\ lc_max c1 = lc_max c /\ lc_kpSize c1 = lc_kpSize c /\
    zlen (removelast L) = zlen L - 1 /\ pm_mem (lc_pageMgr c1) = pm_mem (lc_pageMgr c) /\ (forall b, b ∈ pg1 -> b ∈ pgs) /\
    (exists nd, h_cn h1 !! x = Some nd) /\ (forall y b, y ∈ removelast L -> owner h y b -> b ∈ pg1).
Proof.
  intros Hok Ht Hnum Hpos Hge. pose proof (co_pages _ _ _ _ Hok) as Hpg0.
  destruct L as [|x l _] using rev_ind; [unfold zlen in Hge; simpl in Hge; lia|].
  assert (exists pg a, pgs = pg ++ [a]) as (pg & a & ->).
  { apply Forall2_length in Hpg0. destruct pgs as [|a pg _] using rev_ind; [rewrite length_app in Hpg0; simpl in Hpg0; lia|eauto]. }
  destruct (removeLast_spec c h l x pg a Hok Ht) as (c1 & h1 & k & kn & E1 & Hok1 & Ht1 & Hnum1 & Hmax1 & Hx1 & _ & Hkps1 & Hm1 & _).
  rewrite removelast_last. pose proof (ll_nodup _ _ _ (co_list _ _ _ _ Hok)) as Hnd. apply NoDup_app in Hnd as (_ & Hnd & _).
  apply Forall2_app_inv in Hpg0 as [Hpl _]; [|apply Forall2_length in Hpg0; rewrite !length_app in Hpg0; simpl in Hpg0; lia].
  exists x, c1, h1, pg. rewrite zlen_app. change (zlen [x]) with 1. split_and!; try done; [| |lia|set_solver|eauto|].
  - unfold LRUCache.getCacheNode. by rewrite (proj2 (Z.leb_le (lc_max c) (lc_num c))) by lia.
  - intros Hin. apply (Hnd x Hin). set_solver.
  - intros y b Hy Hb. by eapply owner_page.
Qed.

Lemma get_lru {OS} (sys : syscalls OS) fuel kf c h L off os kp os' :
  lru_ok c h L -> 0 < lc_max c -> page_read sys fuel kf (lc_kpSize c) off os kp os' ->
  exists cn kpn k a c' h', LRUCache.get sys fuel kf c h off os = Val (E_ok, Some kpn, c', h', os') /\
    lru_ok c' h' (lru_insert (lc_max c) L cn) /\ h_kpn h' !! kpn = Some k /\ kpn_kp k = Some a /\ kpn_kpoff k = off /\
    PageMgr.load (lc_pageMgr c') a = Val kp /\
    (forall x b, owner h x b -> x ∈ tail (lru_insert (lc_max c) L cn) ->
       PageMgr.load (lc_pageMgr c') b = PageMgr.load (lc_pageMgr c) b).
Proof.
  intros (Ht & Hnum & pgs & Hok) Hpos Hread. pose proof (co_pages _ _ _ _ Hok) as Hpg0.
  unfold lru_insert. destruct (Z.ltb_spec (zlen L) (lc_max c)) as [Hlt|Hge].
  - destruct (getCacheNode_new c h L pgs Hok ltac:(lia)) as (cn & h1 & Eg & Hok1 & Hni & Hn & Hk1 & _).
    destruct (get_installs sys fuel kf c h c h1 L pgs cn _ off os kp os' Eg Hok1 Hlt Hni Hn Hread)
      as (kpn & a & c' & h' & E & Hok' & Ht' & Hnum' & _ & _ & _ & Hkpn & [_ Hp Ho] & _).
    eexists cn, kpn, _, a, c', h'. split; [exact E|]. split; [|split; [by rewrite Hkpn, lookup_insert_eq|split_and!; try done]].
    + split; [auto|]. split; [rewrite Hnum', zlen_cons; lia|eauto].
    + intros x b Hx Hin. apply Ho. by eapply owner_page.
  - destruct (getCacheNode_full c h L pgs Hok Ht Hnum Hpos Hge)
      as (x & c1 & h1 & pg & Eg & Hok1 & Hni & Ht1 & Hnum1 & Hmax1 & Hkps1 & Hlen & Hm1 & Hsub & [nd Hn] & Hown).
    destruct (get_installs sys fuel kf c h c1 h1 (removelast L) pg x nd off os kp os') as (kpn & a & c' & h' & E & Hok' & Ht' & Hnum' & _ & _ & _ & Hkpn & [_ Hp Ho] & _);
      [done|done| |done|done|by rewrite Hkps1|].
    { pose proof (cache_len _ _ _ _ Hok). lia. }
    eexists x, kpn, _, a, c', h'. split; [exact E|]. split; [|split; [by rewrite Hkpn, lookup_insert_eq|split_and!; try done]].
    + split; [auto|]. split; [rewrite Hnum', zlen_cons; lia|eauto].
    + intros y b Hy Hin. rewrite Ho by (by eapply Hown). unfold PageMgr.load. by rewrite Hm1.
Qed.

Lemma lru_new_ok pm kpSize : (exists fuel malloc memory memUsage, PageMgr.new fuel malloc memory kpSize memUsage = Val pm) ->
  0 < kpSize < 2 ^ 31 -> pool_size pm / kpSize < 2 ^ 31 -> lru_ok (LRUCache.new pm kpSize) heap_init [].
Proof.
  intros (fuel & malloc & memory & memUsage & E) Hk Hs. split; [done|]. split; [done|]. exists [].
  pose proof (pool_new_ok _ _ _ _ _ _ Hk E Hs) as Hp.
  split; simpl; try done; try (by constructor); try (by eauto); [split; [done|by constructor|done]| | |].
  - unfold PageMgr.new in E. apply obind_inv in E as (sz & _ & E). case_match; simpl in E; [done|]. by injection E as <-.
  - intros p Hp'. rewrite lookup_empty in Hp'. by destruct Hp'.
  - intros p Hp'. rewrite lookup_empty in Hp'. by destruct Hp'.
Qed.

(** ** Giving a page up *)
Lemma free_spec c h l1 cn l2 pgs kpn k a : cache_ok c h (l1 ++ cn :: l2) pgs ->
  c_kpn <$> h_cn h !! cn = Some (Some kpn) -> h_kpn h !! kpn = Some k -> kpn_cnode k = Some cn -> kpn_kp k = Some a ->
  exists c' h' pgs', LRUCache.free c h kpn = Val (c', h') /\ cache_ok c' h' (l1 ++ l2) pgs' /\
    (forall b, b ∈ pgs' <-> b ∈ pgs /\ b <> a) /\ lc_num c' = lc_num c /\ lc_max c' = lc_max c /\ lc_kpSize c' = lc_kpSize c /\
    pm_mem (lc_pageMgr c') = pm_mem (lc_pageMgr c) /\ (tail_ok c (l1 ++ cn :: l2) -> tail_ok c' (l1 ++ l2)) /\
    h_kpn h' = delete kpn (h_kpn h) /\ (forall p, p <> cn -> c_kpn <$> h_cn h' !! p = c_kpn <$> h_cn h !! p).
Proof.
  intros [HL Hpg Hndp (rel & bot & fr & Hpool) Hmax Hkps Hcn Hkpn] Hck Hk Hkc Hka.
  destruct (free_cnode_spec c h l1 cn l2 HL) as (c1 & h1 & E & HL1 & Hnum1 & Hmax1 & Hkps1 & Hpm1 & Ht1 & Hk1 & Hb1 & Hx1 & Ho1).
  apply Forall2_app_inv_l in Hpg as (p1 & p2' & Hp1 & Hp2 & ->). apply Forall2_cons_inv_l in Hp2 as (a' & p2 & Ha' & Hp2 & ->).
  assert (a' = a) as -> by (destruct Ha' as (? & ? & ? & ? & ? & ?); simplify_eq/=; congruence).
  destruct (pool_free _ _ _ _ _ a Hpool) as (pm & Hf & Hm & Hps & _ & Hnp & Hpool'); [rewrite elem_of_list_to_set; set_solver|].
  rewrite <- Permutation_middle in Hndp. apply NoDup_cons in Hndp as [Hna Hndp].
  pose proof (ll_nodup _ _ _ HL) as Hnd. rewrite <- Permutation_middle in Hnd. apply NoDup_cons in Hnd as [Hncn Hnd].
  assert (forall y b, y ∈ l1 ++ l2 -> b ∈ p1 ++ p2 -> owner h y b ->
    owner {| h_cn := h_cn h1; h_kpn := delete kpn (h_kpn h1); h_brk := h_brk h1 |} y b) as Hown.
  { intros y b Hy Hb Hyb. assert (b <> a) as Hne by (intros ->; done). assert (y <> cn) by (intros ->; done).
    destruct (owner_ne _ _ _ _ _ _ b Hk Hkc Hka Hyb Hne) as (k' & kn' & Hnek & H1 & H2 & H3 & H4).
    exists k', kn'. simpl. rewrite lookup_delete_ne, Hk1, Ho1 by done. done. }
  eexists (LRUCache.with_pm c1 pm), _, (p1 ++ p2). split.
  { unfold LRUCache.free, Heap.get_kpn. rewrite Hk. cbn [deref obind]. rewrite Hkc, E. cbn [obind].
    unfold LRUCache.drop_page. rewrite Hka, Hpm1, Hf. simpl. reflexivity. }
  split_and!; try done.
  - split; simpl; try done.
    + destruct HL1 as [? ? Hd1]. split; [done|done|]. eapply dseg_ext; [exact Hd1|done].
    + apply Forall2_app.
      * eapply Forall2_impl_in; [exact Hp1|]. intros. apply Hown; set_solver.
      * eapply Forall2_impl_in; [exact Hp2|]. intros. apply Hown; set_solver.
    + exists (a :: rel), bot, fr. replace (list_to_set (p1 ++ p2)) with (list_to_set (p1 ++ a :: p2) ∖ {[a]} : gset Z); [done|].
      apply set_eq. intros z. rewrite elem_of_difference, elem_of_singleton, !elem_of_list_to_set, !elem_of_app, elem_of_cons.
      destruct (decide (z = a)) as [->|]; [|tauto]. rewrite elem_of_app in Hna. tauto.
    + unfold PageMgr.getNumberOfPages in *. congruence.
    + congruence.
    + intros p Hp. rewrite Hb1. apply Hcn. destruct (decide (p = cn)) as [->|Hne]; [rewrite Hx1 in Hp; by destruct Hp|].
      specialize (Ho1 p Hne). destruct (h_cn h1 !! p), (h_cn h !! p); simpl in *; naive_solver.
    + intros p. rewrite lookup_delete_is_Some, Hb1, Hk1. intros [_ Hp]. by apply Hkpn.
  - intros b. rewrite elem_of_app in *. rewrite elem_of_app, elem_of_cons. split.
    + intros Hb. split; [tauto|]. intros ->. tauto.
    + intros [? ?]. tauto.
  - simpl. by rewrite Hk1.
Qed.

(** ** The properties *)

(** On a well-formed cache [get] behaves like an LRU cache: the new page is
    put in front, and when the cache is full the last one is dropped; the page
    that comes back holds what was read, and no page that stays changes. *)
Theorem get_evicts_last {OS} (sys : syscalls OS) fuel kf c h L off os kp os'
  (Hok : lru_ok c h L) (Hpos : 0 < lc_max c) (Hread : page_read sys fuel kf (lc_kpSize c) off os kp os') :
  exists cn kpn k a c' h', LRUCache.get sys fuel kf c h off os = Val (E_ok, Some kpn, c', h', os') /\
    lru_ok c' h' (lru_insert (lc_max c) L cn) /\ h_kpn h' !! kpn = Some k /\ kpn_kp k = Some a /\ kpn_kpoff k = off /\
    PageMgr.load (lc_pageMgr c') a = Val kp /\
    (forall x b, owner h x b -> x ∈ tail (lru_insert (lc_max c) L cn) ->
       PageMgr.load (lc_pageMgr c') b = PageMgr.load (lc_pageMgr c) b).
Proof. by apply get_lru. Qed.

(** [touch] of a page in front or in the middle moves it to the front.  Of
    the last page it leaves [tail] pointing at it: the next eviction drops the
    page that was just used, and forgets all the others, which still count. *)
Theorem touch_moves_to_front c h l1 cn l2 pgs kpn k (Hok : cache_ok c h (l1 ++ cn :: l2) pgs)
  (Ht : tail_ok c (l1 ++ cn :: l2)) (Hk : h_kpn h !! kpn = Some k) (Hkc : kpn_cnode k = Some cn)
  (Hkp : is_Some (kpn_kp k)) (Hown : c_kpn <$> h_cn h !! cn = Some (Some kpn)) :
  exists c1 h1, LRUCache.touch c h kpn = Val (c1, h1) /\ lru_list c1 h1 (cn :: l1 ++ l2) /\ lc_num c1 = lc_num c /\
    (l2 <> [] \/ l1 = [] -> tail_ok c1 (cn :: l1 ++ l2)) /\
    (l2 = [] -> l1 <> [] -> exists c2 h2, LRUCache.removeLast c1 h1 = Val (Some cn, c2, h2) /\
       lc_head c2 = None /\ lc_tail c2 = None /\ lc_num c2 = lc_num c - 1).
Proof.
  pose proof Hok as [HL Hpg Hndp (rel & bot & fr & Hpool) _ _ _ _].
  destruct (touch_spec _ _ _ _ _ _ _ HL Hk Hkp Hkc) as (c1 & h1 & E & HL1 & Hnum & Htl & [Hs1 Hs2 Hs3 Hs4 Hs5 Hs6]).
  exists c1, h1. split; [exact E|]. split; [exact HL1|]. split; [done|]. unfold tail_ok in *. rewrite Htl, Ht. split.
  - intros [Hne| ->].
    + destruct l2 as [|y l2 _] using rev_ind; [done|].
      replace (l1 ++ cn :: l2 ++ [y]) with ((l1 ++ cn :: l2) ++ [y]) by (by rewrite <- app_assoc).
      replace (cn :: l1 ++ l2 ++ [y]) with ((cn :: l1 ++ l2) ++ [y]) by (simpl; by rewrite <- app_assoc).
      by rewrite !last_snoc.
    + done.
  - intros -> Hne. rewrite app_nil_r in *.
    destruct (seg_node _ [] _ _ (ll_seg _ _ _ HL1)) as (o & Hn). pose proof (Hs6 cn) as Ho. rewrite Hn, Hown in Ho.
    simpl in Ho. injection Ho as ->. destruct Hkp as [a Ha].
    assert (a ∈ pgs) as Hin by (eapply owner_page; [exact Hpg| |exists kpn, k; done]; set_solver).
    destruct (pool_free _ _ _ _ _ a Hpool ltac:(by apply elem_of_list_to_set)) as (pm & Hf & _).
    unfold LRUCache.removeLast. rewrite Htl, Ht, last_snoc. unfold Heap.get_cn. rewrite Hn. cbn [deref obind c_prev c_next c_kpn last].
    unfold Heap.get_kpn. rewrite Hs4, Hk. cbn [deref obind]. unfold LRUCache.drop_page. rewrite Ha.
    cbn [LRUCache.with_list lc_pageMgr]. rewrite Hs3, Hf. cbn [obind].
    rewrite (upd_cn_ok (Heap.set_kpn _ _ _) cn _ _ Hn). cbn [obind].
    rewrite (upd_cn_ok _ cn {| c_kpn := None; c_prev := None; c_next := head l1 |})
      by (simpl; by rewrite lookup_insert_eq).
    cbn [obind]. eexists _, _. split; [reflexivity|]. simpl. split_and!; try done. lia.
Qed.

(** [free] gives a page and its node back but leaves [num]: the cache keeps
    counting the node, and once [num] has reached [max] with no node left, every
    [get] fails with [E_no_memory] although the whole pool is free. *)
Theorem free_keeps_counting {OS} (sys : syscalls OS) fuel kf c h l1 cn l2 pgs kpn k a
  (Hok : cache_ok c h (l1 ++ cn :: l2) pgs) (Hown : c_kpn <$> h_cn h !! cn = Some (Some kpn))
  (Hk : h_kpn h !! kpn = Some k) (Hkc : kpn_cnode k = Some cn) (Hka : kpn_kp k = Some a) (Ht : tail_ok c (l1 ++ cn :: l2)) :
  exists c' h' pgs', LRUCache.free c h kpn = Val (c', h') /\ cache_ok c' h' (l1 ++ l2) pgs' /\
    (a ∉ pgs') /\ lc_num c' = lc_num c /\
    (l1 = [] -> l2 = [] -> lc_num c = lc_max c ->
     PageMgr.getNumberOfFreePages (lc_pageMgr c') = lc_max c' /\
     forall off os, LRUCache.get sys fuel kf c' h' off os = Val (E_no_memory, None, c', h', os)).
Proof.
  destruct (free_spec c h l1 cn l2 pgs kpn k a Hok Hown Hk Hkc Hka)
    as (c' & h' & pgs' & E & Hok' & Hpg & Hnum & Hmax & Hkps & Hm & Ht' & Hk').
  exists c', h', pgs'. split_and!; try done; [rewrite Hpg; naive_solver|].
  intros -> -> Hfull. specialize (Ht' Ht). unfold tail_ok in Ht'. simpl in Ht'.
  pose proof Hok' as [_ Hp' _ (rel & bot & fr & Hpool) Hmx _ _ _]. apply Forall2_nil_inv_l in Hp' as ->. split.
  - unfold PageMgr.getNumberOfFreePages. rewrite (pl_free _ _ _ _ _ Hpool), Hmx. simpl list_to_set. rewrite size_empty.
    unfold PageMgr.getNumberOfPages. lia.
  - intros off os. unfold LRUCache.get, LRUCache.getCacheNode. rewrite (proj2 (Z.leb_le _ _)) by lia.
    unfold LRUCache.removeLast. by rewrite Ht'.
Qed.

(** *** Instances *)
Definition demo_kfile : KeyFile := {| kf_file := {| fname := []; fmask := 18; fd := 3 |}; kf_mgr := None |}.
Definition demo_get (s : lru * heap) : lru * heap :=
  match LRUCache.get FileLaws.script_sys 2 demo_kfile s.1 s.2 (-1) (FileLaws.script_init [] []) with
  | Val (_, _, c, h, _) => (c, h) | _ => s end.
Definition demo_cache0 : lru * heap := (LRUCache.new demo_pool 1024, heap_init).
Definition demo_cache1 : lru * heap := demo_get demo_cache0.
Definition demo_cache2 : lru * heap := demo_get demo_cache1.

Lemma demo_cache0_ok : lru_ok demo_cache0.1 demo_cache0.2 [].
Proof.
  apply lru_new_ok; [|lia|vm_compute; reflexivity]. eexists 5%nat, (fun n => n <=? 4000), 200, 1900. vm_compute. reflexivity.
Qed.

Lemma demo_get_ok s L kp : lru_ok s.1 s.2 L -> 0 < lc_max s.1 -> lc_kpSize s.1 = kp ->
  exists cn, lru_ok (demo_get s).1 (demo_get s).2 (lru_insert (lc_max s.1) L cn).
Proof.
  intros Hok Hp <-.
  destruct (get_lru FileLaws.script_sys 2 demo_kfile s.1 s.2 L (-1) (FileLaws.script_init [] []) (zero_page (lc_kpSize s.1)) _ Hok Hp
    ltac:(by left)) as (cn & kpn & k & a & c' & h' & E & H & _).
  exists cn. unfold demo_get. by rewrite E.
Qed.

Lemma demo_cache2_ok : exists pgs, cache_ok demo_cache2.1 demo_cache2.2 [3; 1]%positive pgs.
Proof.
  destruct (demo_get_ok _ _ 1024 demo_cache0_ok ltac:(reflexivity) eq_refl) as [x H1].
  destruct (demo_get_ok _ _ 1024 H1 ltac:(vm_compute; reflexivity) ltac:(vm_compute; reflexivity)) as [y (Ht & _ & pgs & H2)].
  pose proof (ll_head _ _ _ (co_list _ _ _ _ H2)) as Hh.
  assert (lru_insert (lc_max (demo_get demo_cache0).1) (lru_insert (lc_max demo_cache0.1) [] x) y = [y; x]) as E by (by vm_compute).
  unfold tail_ok in Ht. rewrite E in *.
  assert (lc_head demo_cache2.1 = Some 3%positive) as Eh by (by vm_compute).
  assert (lc_tail demo_cache2.1 = Some 1%positive) as Et by (by vm_compute).
  unfold demo_cache2, demo_cache1 in Eh, Et. rewrite Eh in Hh. rewrite Et in Ht. injection Hh as <-. injection Ht as <-. eauto.
Qed.

Lemma get_evicts_last_witness :
  lru_ok demo_cache0.1 demo_cache0.2 [] /\
  exists cn kpn k a c' h', LRUCache.get FileLaws.script_sys 2 demo_kfile demo_cache0.1 demo_cache0.2 (-1) (FileLaws.script_init [] []) =
      Val (E_ok, Some kpn, c', h', FileLaws.script_init [] []) /\
    lru_ok c' h' [cn] /\ h_kpn h' !! kpn = Some k /\ kpn_kp k = Some a /\ kpn_kpoff k = -1 /\
    PageMgr.load (lc_pageMgr c') a = Val (zero_page 1024) /\
    (forall x b, owner demo_cache0.2 x b -> x ∈ ([] : list positive) ->
       PageMgr.load (lc_pageMgr c') b = PageMgr.load (lc_pageMgr demo_cache0.1) b).
Proof.
  split; [apply demo_cache0_ok|].
  apply (get_evicts_last FileLaws.script_sys 2 demo_kfile demo_cache0.1 demo_cache0.2 [] (-1));
    [apply demo_cache0_ok|reflexivity|by left].
Defined.

Lemma touch_moves_to_front_witness :
  exists c1 h1 c2 h2, LRUCache.touch demo_cache2.1 demo_cache2.2 2%positive = Val (c1, h1) /\
    LRUCache.removeLast c1 h1 = Val (Some 1%positive, c2, h2) /\ lc_head c2 = None /\ lc_num c2 = 1.
Proof.
  destruct demo_cache2_ok as [pgs Hok].
  destruct (touch_moves_to_front demo_cache2.1 demo_cache2.2 [3%positive] 1%positive [] pgs 2%positive
    {| kpn_kp := Some 0; kpn_kpoff := -1; kpn_cnode := Some 1%positive; kpn_prev := None; kpn_next := None |})
    as (c1 & h1 & E & _ & Hn & _ & H); [exact Hok|by vm_compute|by vm_compute|done|by eexists|by vm_compute|].
  destruct (H eq_refl ltac:(done)) as (c2 & h2 & E2 & Hh & _ & Hnum). exists c1, h1, c2, h2.
  split_and!; try done.
Defined.

Lemma free_keeps_counting_witness :
  exists c' h' pgs', LRUCache.free demo_cache2.1 demo_cache2.2 2%positive = Val (c', h') /\
    cache_ok c' h' [3%positive] pgs' /\ lc_num c' = 2.
Proof.
  destruct demo_cache2_ok as [pgs Hok].
  destruct (free_keeps_counting FileLaws.script_sys 2 demo_kfile demo_cache2.1 demo_cache2.2 [3%positive] 1%positive [] pgs 2%positive
    {| kpn_kp := Some 0; kpn_kpoff := -1; kpn_cnode := Some 1%positive; kpn_prev := None; kpn_next := None |} 0)
    as (c' & h' & pgs' & E & Hok' & _ & Hn & _); [exact Hok|by vm_compute|by vm_compute|done|done|by vm_compute|].
  exists c', h', pgs'. split_and!; try done.
Defined.
