(* ===== verification/HashFacts.v ===== *)
(** * The hash table: its hash function and its lists

    The hash is the sdbm polynomial; the lists of key page nodes of the entries
    are doubly linked lists to which nodes are appended and from which they are
    removed, each entry by itself - until [LRUCache::update] clears the links of
    a node that is in a list. *)
From S2P Require Import Prelude DbStruct File PageMgr Cache HashTable Dll CacheFacts.

(** ** The hash function *)

(** The sdbm hash, over the integers. *)
Definition sdbm (key : bytes) : Z := foldl (fun h c => h * 65599 + c) 0 key.

Lemma hash_step c ih ih' : ih mod 2 ^ 64 = ih' mod 2 ^ 64 ->
  uint64 (uint64 (uint64 (uint64 c + uint64 (Z.shiftl ih 6)) + uint64 (Z.shiftl ih 16)) - ih) =
  (ih' * 65599 + c) mod 2 ^ 64.
Proof.
  intros E. unfold wrapU. rewrite !Z.shiftl_mul_pow2 by lia.
  assert (forall x, exists q, x mod 2 ^ 64 = x + q * 2 ^ 64) as M.
  { intros x. exists (- (x / 2 ^ 64)). rewrite Z.mod_eq by lia. ring. }
  destruct (M c) as [q1 ->]. destruct (M (ih * 2 ^ 6)) as [q2 ->]. destruct (M (c + q1 * 2 ^ 64 + (ih * 2 ^ 6 + q2 * 2 ^ 64))) as [q3 ->].
  destruct (M (ih * 2 ^ 16)) as [q4 ->]. match goal with |- (?x mod _ - _) mod _ = _ => destruct (M x) as [q5 ->] end.
  destruct (M ih) as [r1 H1], (M ih') as [r2 H2]. assert (ih' = ih + (r1 - r2) * 2 ^ 64) as -> by lia.
  rewrite <- (Z_mod_plus_full _ ((r1 - r2) * 65599 - (q1 + q2 + q3 + q4 + q5))). f_equal. ring.
Qed.

Lemma hash_loop_ok key n ih ih' : (n <= length key)%nat -> 0 <= ih < 2 ^ 64 -> ih = ih' mod 2 ^ 64 ->
  hash_loop key n ih = Val (foldl (fun h c => h * 65599 + c) ih' (take n key) mod 2 ^ 64).
Proof.
  revert key ih ih'. induction n as [|n IH]; intros key ih ih' Hn Hr E.
  { rewrite take_0. simpl foldl. rewrite E. destruct key; reflexivity. }
  destruct key as [|c key]; cbn [hash_loop take foldl length] in *; [lia|].
  rewrite (hash_step c ih ih') by (rewrite E, Zmod_mod; done).
  apply IH; [lia|apply Z.mod_pos_bound; lia|done].
Qed.

Lemma hash_spec key klen table_size : klen <= zlen key -> 0 < table_size < 2 ^ 31 ->
  hash key klen table_size = Val ((sdbm (take (Z.to_nat klen) key) mod 2 ^ 64) mod table_size).
Proof.
  intros Hlen Hsize. unfold hash. rewrite (hash_loop_ok key _ 0 0) by (done || (unfold zlen in Hlen; lia)). simpl.
  rewrite wrapU_id by lia. rewrite (proj2 (Z.eqb_neq table_size 0)) by lia.
  pose proof (Z.mod_pos_bound (sdbm (take (Z.to_nat klen) key) mod 2 ^ 64) table_size ltac:(lia)) as Hb.
  fold (sdbm (take (Z.to_nat klen) key)). rewrite wrapS_id by (unfold sdbm in *; lia). done.
Qed.

(** [hash] is the sdbm hash of the key bytes modulo 2^64, modulo the size
    of the table; it is an index of the table for every positive size. *)
Theorem hash_is_sdbm key klen table_size (Hlen : klen <= zlen key) (Hsize : 0 < table_size < 2 ^ 31) :
  exists i, hash key klen table_size = Val i /\ 0 <= i < table_size /\
    i = (sdbm (take (Z.to_nat klen) key) mod 2 ^ 64) mod table_size.
Proof.
  rewrite hash_spec by done. eexists. split; [done|]. split; [|done]. apply Z.mod_pos_bound. lia.
Qed.

(** ** The list of an entry *)
Definition kpn_links (h : heap) : links := fun p => (fun k => (kpn_prev k, kpn_next k)) <$> h_kpn h !! p.

(** What a node holds besides its links. *)
Definition kpn_data (k : key_page_node) : option Z * Z * option positive := (kpn_kp k, kpn_kpoff k, kpn_cnode k).

Record entry_list (ht : list hash_entry) (h : heap) (i : Z) (L : list positive) : Prop := {
  el_entry : exists off, zget ht i = Some {| he_offset := off; he_head := head L; he_tail := last L |} /\
    (forall x k, head L = Some x -> h_kpn h !! x = Some k -> kpn_kpoff k = off);
  el_nodup : NoDup L;
  el_seg : dseg (kpn_links h) None L None }.

(** Only links of the nodes in [L] change. *)
Record same_nodes (h h' : heap) (L : list positive) : Prop := {
  sn_cn : h_cn h' = h_cn h;
  sn_brk : h_brk h' = h_brk h;
  sn_data p : kpn_data <$> h_kpn h' !! p = kpn_data <$> h_kpn h !! p;
  sn_other p : p ∉ L -> h_kpn h' !! p = h_kpn h !! p }.

Lemma same_nodes_refl h L : same_nodes h h L.
Proof. by split. Qed.
Lemma same_nodes_trans h1 h2 h3 L : same_nodes h1 h2 L -> same_nodes h2 h3 L -> same_nodes h1 h3 L.
Proof.
  intros [? ? H1 H2] [? ? H3 H4]. split; [congruence|congruence|intros p; by rewrite H3, H1|].
  intros p Hp. by rewrite H4, H2.
Qed.

Lemma entry_ok ht i e : zget ht i = Some e -> HashTable.entry ht i = Val e.
Proof.
  intros He. unfold HashTable.entry. pose proof (zget_Some _ _ _ He).
  rewrite (proj2 (Z.leb_le 0 i)), (proj2 (Z.ltb_lt i (zlen ht))) by lia. simpl. by rewrite He.
Qed.

Lemma upd_kpn_ok h p k f : h_kpn h !! p = Some k -> Heap.upd_kpn h p f = Val (Heap.set_kpn h p (f k)).
Proof. unfold Heap.upd_kpn, Heap.get_kpn. by intros ->. Qed.

Lemma klinks_next h p k n x : h_kpn h !! p = Some k ->
  kpn_links (Heap.set_kpn h p (k_with_next n k)) x = set_next (kpn_links h) (Some p) n x.
Proof.
  intros Hp. unfold kpn_links, set_next. simpl. case_decide; simplify_eq; [by rewrite lookup_insert_eq, Hp|].
  by rewrite lookup_insert_ne by congruence.
Qed.
Lemma klinks_prev h p k n x : h_kpn h !! p = Some k ->
  kpn_links (Heap.set_kpn h p (k_with_prev n k)) x = set_prev (kpn_links h) (Some p) n x.
Proof.
  intros Hp. unfold kpn_links, set_prev. simpl. case_decide; simplify_eq; [by rewrite lookup_insert_eq, Hp|].
  by rewrite lookup_insert_ne by congruence.
Qed.
Lemma set_kpn_same h p k k' L : h_kpn h !! p = Some k -> kpn_data k' = kpn_data k -> p ∈ L -> same_nodes h (Heap.set_kpn h p k') L.
Proof.
  intros Hp Hk Hin. split; simpl; try done; intros q.
  - destruct (decide (p = q)) as [<-|]; [rewrite lookup_insert_eq, Hp; simpl; congruence|by rewrite lookup_insert_ne].
  - intros Hq. rewrite lookup_insert_ne; [done|]. by intros <-.
Qed.

Lemma kseg_live h p l n x : dseg (kpn_links h) p l n -> x ∈ l -> is_Some (h_kpn h !! x).
Proof.
  intros Hd Hx. apply list_elem_of_split in Hx as (l1 & l2 & ->). apply dseg_node in Hd.
  unfold kpn_links in Hd. destruct (h_kpn h !! x); [eauto|done].
Qed.

Lemma kseg_node h l1 x l2 : dseg (kpn_links h) None (l1 ++ x :: l2) None ->
  exists k, h_kpn h !! x = Some k /\ kpn_prev k = last l1 /\ kpn_next k = head l2.
Proof.
  intros Hd. apply dseg_node in Hd. unfold kpn_links in Hd. destruct (h_kpn h !! x) as [k|]; [|done].
  simpl in Hd. injection Hd as Hp Hn. exists k. split; [done|]. rewrite Hp, Hn. unfold final. by destruct (last l1), l2.
Qed.

(** The list of an entry is kept by changes elsewhere. *)
Lemma entry_list_frame ht ht' h h' i L : entry_list ht h i L -> zget ht' i = zget ht i ->
  (forall x, x ∈ L -> h_kpn h' !! x = h_kpn h !! x) -> entry_list ht' h' i L.
Proof.
  intros [(off & He & Ho) Hnd Hd] Hz Hk. split; [|done|].
  - exists off. rewrite Hz. split; [done|]. intros x k Hx Hxk. apply (Ho x); [done|]. rewrite <- Hxk. symmetry. apply Hk.
    destruct L; simplify_eq/=. set_solver.
  - eapply dseg_ext; [exact Hd|]. intros x Hx. unfold kpn_links. by rewrite Hk.
Qed.

(** [addKeyPageNode] appends. *)
Lemma addKeyPageNode_spec ht h i L kpn k : entry_list ht h i L -> kpn ∉ L -> h_kpn h !! kpn = Some k ->
  exists e h', HashTable.addKeyPageNode ht h i kpn = Val (zset ht i e, h') /\
    entry_list (zset ht i e) h' i (L ++ [kpn]) /\ same_nodes h h' (L ++ [kpn]) /\
    (L <> [] -> exists e0, zget ht i = Some e0 /\ he_offset e = he_offset e0).
Proof.
  intros [(off & He & Ho) Hnd Hd] Hni Hk. unfold HashTable.addKeyPageNode. rewrite (entry_ok _ _ _ He). cbn [obind].
  pose proof (zget_Some _ _ _ He) as Hir.
  rewrite (upd_kpn_ok _ _ _ _ Hk). cbn [obind he_head he_tail he_offset].
  set (k1 := k_with_next None (k_with_prev None k)). set (h1 := Heap.set_kpn h kpn k1).
  assert (h_kpn h1 !! kpn = Some k1) as Hk1 by (simpl; by rewrite lookup_insert_eq).
  assert (same_nodes h h1 (L ++ [kpn])) as Hs1 by (apply (set_kpn_same h kpn k); [done|done|set_solver]).
  assert (dseg (kpn_links h1) None L None) as Hd1.
  { eapply dseg_ext; [exact Hd|]. intros x Hx. unfold kpn_links. simpl. rewrite lookup_insert_ne; [done|]. by intros <-. }
  assert (NoDup (L ++ [kpn])) as Hnd' by (apply NoDup_app; split_and!; [done| |by apply NoDup_singleton]; set_solver).
  destruct L as [|y L]; cbn [head].
  - unfold Heap.get_kpn. rewrite Hk1. cbn [deref obind]. eexists _, h1. split; [done|]. split_and!; [|done|done].
    split; [|done|].
    + exists (kpn_kpoff k1). rewrite zget_zset_eq by done. split; [done|]. intros x k' [= <-] Hx. simpl in Hx. by rewrite lookup_insert_eq in Hx; simplify_eq.
    + split; [|done]. unfold kpn_links. by rewrite Hk1.
  - rewrite (upd_kpn_ok _ _ _ _ Hk1). cbn [obind]. set (h2 := Heap.set_kpn h1 kpn (k_with_prev (last (y :: L)) k1)).
    assert (exists z, last (y :: L) = Some z) as [z Hz].
    { destruct (last (y :: L)) eqn:E; [eauto|]. by apply last_None in E. }
    rewrite Hz. cbn [deref obind].
    assert (z ∈ y :: L) as Hzin by (apply last_Some in Hz as [l' ->]; set_solver).
    destruct (kseg_live _ _ _ _ _ Hd1 Hzin) as [nz Hnz].
    assert (kpn <> z) as Hne by (intros <-; done).
    assert (h_kpn h2 !! z = Some nz) as Hnz2 by (simpl; by rewrite lookup_insert_ne).
    rewrite (upd_kpn_ok _ _ _ _ Hnz2). cbn [obind]. set (h3 := Heap.set_kpn h2 z (k_with_next (Some kpn) nz)).
    eexists _, h3. split; [done|]. split_and!.
    + split; [|done|].
      * exists off. rewrite zget_zset_eq by done. split; [by rewrite last_snoc|]. intros x k' [= <-] Hx.
        assert (kpn <> y) by set_solver.
        destruct (decide (z = y)) as [->|Hzy]; simpl in Hx.
        -- rewrite lookup_insert_eq in Hx. simplify_eq. simpl. apply (Ho y); [done|]. simpl in Hnz. by rewrite lookup_insert_ne in Hnz.
        -- rewrite !lookup_insert_ne in Hx by done. by apply (Ho y).
      * assert (kpn_links h2 kpn = Some (last (y :: L), None)) as Hl2.
        { unfold kpn_links. simpl h_kpn. rewrite lookup_insert_eq. simpl. by rewrite Hz. }
        assert (dseg (kpn_links h2) None (y :: L) None) as Hd2.
        { eapply dseg_ext; [exact Hd1|]. intros x Hx. unfold kpn_links. simpl. rewrite (lookup_insert_ne _ kpn x); [done|]. by intros <-. }
        eapply dseg_ext; [apply (dseg_append _ kpn (y :: L) Hnd' Hd2 Hl2)|]. intros x _. rewrite Hz. by apply klinks_next.
    + eapply same_nodes_trans; [exact Hs1|]. apply (same_nodes_trans h1 h2 h3).
      * apply (set_kpn_same h1 kpn k1); [done|done|set_solver].
      * apply (set_kpn_same h2 z nz); [done|done|set_solver].
    + intros _. eexists. split; [exact He|done].
Qed.

(** [removeKeyPageNode] unlinks, wherever the node is; the offset of the entry
    becomes that of its new first node. *)
Lemma removeKeyPageNode_spec ht h i l1 kpn l2 : entry_list ht h i (l1 ++ kpn :: l2) ->
  exists e h', HashTable.removeKeyPageNode ht h i kpn = Val (zset ht i e, h') /\
    entry_list (zset ht i e) h' i (l1 ++ l2) /\ same_nodes h h' (l1 ++ l2) /\
    (l1 <> [] -> exists e0, zget ht i = Some e0 /\ he_offset e = he_offset e0) /\
    (l1 = [] -> l2 = [] -> he_offset e = -1).
Proof.
  intros [(off & He & Ho) Hnd Hd]. unfold HashTable.removeKeyPageNode. rewrite (entry_ok _ _ _ He). cbn [obind].
  pose proof (zget_Some _ _ _ He) as Hir.
  assert (is_Some (head (l1 ++ kpn :: l2)) /\ is_Some (last (l1 ++ kpn :: l2))) as [Hs1 Hs2].
  { split; [by destruct l1; eexists|]. apply not_eq_None_Some. intros E. apply last_None in E. by destruct l1. }
  cbn [he_head he_tail he_offset]. rewrite !bool_decide_true by done. cbn [andb ASSERT obind].
  destruct (kseg_node _ _ _ _ Hd) as (k & Hk & Hkp & Hkn). unfold Heap.get_kpn. rewrite Hk. cbn [deref obind]. rewrite Hkp, Hkn.
  pose proof (dseg_unlink _ _ _ _ Hnd Hd) as Hu.
  assert (NoDup (l1 ++ l2) /\ kpn ∉ l1 ++ l2) as [Hnd' Hni] by (rewrite <- Permutation_middle in Hnd; by apply NoDup_cons in Hnd as [? ?]).
  assert (exists e1 h1,
    (match last l1 with
     | Some p => let* h := Heap.upd_kpn h p (k_with_next (head l2)) in
         Val ({| he_offset := off; he_head := head (l1 ++ kpn :: l2); he_tail := last (l1 ++ kpn :: l2) |}, h)
     | None =>
        let* off := match head l2 with Some x => let* n := deref (h_kpn h !! x) in Val (kpn_kpoff n) | None => Val (-1) end in
        Val ({| he_offset := off; he_head := head l2; he_tail := last (l1 ++ kpn :: l2) |}, h)
     end) = Val (e1, h1) /\
    h_kpn h1 !! kpn = Some k /\ same_nodes h h1 (l1 ++ l2) /\
    (forall y, kpn_links h1 y = set_next (kpn_links h) (last l1) (head l2) y) /\
    he_head e1 = head (l1 ++ l2) /\ he_tail e1 = last (l1 ++ kpn :: l2) /\
    (forall x n, head (l1 ++ l2) = Some x -> h_kpn h !! x = Some n -> kpn_kpoff n = he_offset e1) /\
    (l1 <> [] -> he_offset e1 = off) /\ (l1 = [] -> l2 = [] -> he_offset e1 = -1))
    as (e1 & h1 & -> & Hk1 & Hsn1 & Hl1 & Hh1 & Ht1 & Ho1 & Hof & Hof').
  { destruct (last l1) as [p|] eqn:El.
    - assert (p ∈ l1) as Hp by (apply last_Some in El as [l' ->]; set_solver).
      destruct (kseg_live _ _ _ _ p Hd ltac:(set_solver)) as [np Hnp]. rewrite (upd_kpn_ok _ _ _ _ Hnp). cbn [obind].
      eexists _, _. split; [done|]. split; [simpl; rewrite lookup_insert_ne; [done|]; intros <-; set_solver|].
      split; [apply (set_kpn_same h p np); [done|done|set_solver]|]. split; [intros y; by apply klinks_next|].
      simpl. destruct l1 as [|y l1]; [done|]. simpl in *. split_and!; try done.
    - apply last_None in El as ->. simpl app in *. destruct l2 as [|y l2]; cbn [head] in *.
      + eexists _, _. split; [done|]. split_and!; try done.
      + destruct (kseg_live _ _ _ _ y Hd ltac:(set_solver)) as [ny Hny]. rewrite Hny. cbn [deref obind].
        eexists _, _. split; [done|]. split_and!; try done. simpl. intros x n [= <-] Hn. congruence. }
  cbn [obind]. rewrite Hk1. cbn [deref obind]. rewrite Hkn, Hkp.
  assert (exists e2 h2,
    (match head l2 with
     | Some x => let* h := Heap.upd_kpn h1 x (k_with_prev (last l1)) in Val (e1, h)
     | None => Val ({| he_offset := he_offset e1; he_head := he_head e1; he_tail := last l1 |}, h1)
     end) = Val (e2, h2) /\ same_nodes h1 h2 (l1 ++ l2) /\
    (forall y, kpn_links h2 y = set_prev (kpn_links h1) (head l2) (last l1) y) /\
    he_head e2 = head (l1 ++ l2) /\ he_tail e2 = last (l1 ++ l2) /\ he_offset e2 = he_offset e1)
    as (e2 & h2 & -> & Hsn2 & Hl2 & Hh2 & Ht2 & Ho2).
  { destruct l2 as [|y l2]; cbn [head] in *.
    - eexists _, _. split; [done|]. rewrite app_nil_r in *. split_and!; try done.
    - destruct (kseg_live _ _ _ _ y Hd ltac:(set_solver)) as [ny0 Hny0].
      assert (is_Some (h_kpn h1 !! y)) as [ny Hny].
      { pose proof (sn_data _ _ _ Hsn1 y) as Hdt. rewrite Hny0 in Hdt. destruct (h_kpn h1 !! y); [eauto|done]. }
      rewrite (upd_kpn_ok _ _ _ _ Hny). cbn [obind]. eexists _, _. split; [done|].
      split; [apply (set_kpn_same h1 y ny); [done|done|set_solver]|]. split; [intros z; by apply klinks_prev|].
      split_and!; try done. rewrite Ht1. by rewrite !last_app, !last_cons_cons. }
  cbn [obind]. exists e2, h2. split; [done|].
  assert (same_nodes h h2 (l1 ++ l2)) as Hsn by (eapply same_nodes_trans; [exact Hsn1|exact Hsn2]). split_and!; try done.
  - split; [|done|].
    + exists (he_offset e2). rewrite zget_zset_eq by done. split; [destruct e2; simpl in *; by rewrite Hh2, Ht2|].
      intros x n Hx Hn. pose proof (sn_data _ _ _ Hsn x) as Hdt. rewrite Hn in Hdt.
      destruct (h_kpn h !! x) as [n0|] eqn:Hn0; [|done]. rewrite Ho2, <- (Ho1 x n0 Hx Hn0).
      unfold kpn_data in Hdt. simpl in Hdt. congruence.
    + eapply dseg_ext; [exact Hu|]. intros y _. rewrite Hl2. unfold set_prev. by rewrite Hl1.
  - intros Hne. eexists. split; [exact He|]. simpl. rewrite Ho2. by apply Hof.
  - intros H1 H2. rewrite Ho2. by apply Hof'.
Qed.

(** ** The properties *)

(** The lists of the hash table: [addKeyPageNode] appends the node to the
    list of its entry, [removeKeyPageNode] takes it out wherever it is; the
    offset of the entry stays that of its first page, and becomes -1 when the
    list becomes empty; nodes keep their pages, and the lists of the other
    entries stay. *)
Theorem entry_is_list ht h i L j M (HL : entry_list ht h i L) (HM : entry_list ht h j M) (Hij : i <> j)
  (Hdj : forall x, x ∈ L -> x ∉ M) :
  (forall kpn k, kpn ∉ L -> kpn ∉ M -> h_kpn h !! kpn = Some k ->
     exists ht' h', HashTable.addKeyPageNode ht h i kpn = Val (ht', h') /\
       entry_list ht' h' i (L ++ [kpn]) /\ entry_list ht' h' j M /\
       (forall p, kpn_data <$> h_kpn h' !! p = kpn_data <$> h_kpn h !! p)) /\
  (forall l1 kpn l2, L = l1 ++ kpn :: l2 ->
     exists ht' h', HashTable.removeKeyPageNode ht h i kpn = Val (ht', h') /\
       entry_list ht' h' i (l1 ++ l2) /\ entry_list ht' h' j M /\
       (l1 ++ l2 = [] -> HashTable.getOffset ht' i = Val (-1)) /\
       (forall p, kpn_data <$> h_kpn h' !! p = kpn_data <$> h_kpn h !! p)).
Proof.
  assert (exists e, zget ht i = Some e) as [e0 He0] by (destruct HL as [(off & He & _) _ _]; eauto).
  pose proof (zget_Some _ _ _ He0) as Hir. split.
  - intros kpn k Hni Hnm Hk. destruct (addKeyPageNode_spec ht h i L kpn k HL Hni Hk) as (e & h' & E & HL' & [Hc Hb Hdt Ho] & _).
    eexists _, h'. split; [exact E|]. split; [done|]. split; [|done].
    eapply entry_list_frame; [exact HM|by rewrite zget_zset_ne by (done || lia)|]. intros x Hx. apply Ho. set_solver.
  - intros l1 kpn l2 ->. destruct (removeKeyPageNode_spec ht h i l1 kpn l2 HL) as (e & h' & E & HL' & [Hc Hb Hdt Ho] & _ & Hoff).
    eexists _, h'. split; [exact E|]. split; [done|]. split; [|split; [|done]].
    + eapply entry_list_frame; [exact HM|by rewrite zget_zset_ne by (done || lia)|]. intros x Hx. apply Ho. set_solver.
    + intros [-> ->]%app_eq_nil. unfold HashTable.getOffset. rewrite (entry_ok _ _ e) by (by apply zget_zset_eq). simpl.
      by rewrite (Hoff eq_refl eq_refl).
Qed.

(** [add] does not touch key page nodes. *)
Lemma add_kpn c h cn c' h' : LRUCache.add c h cn = Val (c', h') -> h_kpn h' = h_kpn h.
Proof.
  unfold LRUCache.add, Heap.upd_cn. intros H. apply obind_inv in H as (h1 & H1 & H). apply obind_inv in H1 as (n & _ & [= <-]).
  apply obind_inv in H as ((tl & h2) & H2 & [= _ <-]). destruct (lc_head c).
  - apply obind_inv in H2 as (h3 & H3 & [= _ <-]). apply obind_inv in H3 as (m & _ & [= <-]). done.
  - by injection H2 as _ <-.
Qed.

(** [update] leaves the node without neighbours. *)
Lemma update_links {OS} (sys : syscalls OS) fuel kf c h kpn off os c' h' os' :
  LRUCache.update sys fuel kf c h kpn off os = Val (E_ok, c', h', os') ->
  exists k, h_kpn h' !! kpn = Some k /\ kpn_prev k = None /\ kpn_next k = None.
Proof.
  unfold LRUCache.update. intros H. apply obind_inv in H as (((cn & c1) & h1) & _ & H). destruct cn as [cn|]; [|done].
  apply obind_inv in H as ((((r & kp) & c2) & os2) & _ & H). destruct (Z.eqb_spec r E_ok); simpl in H; [|congruence].
  apply obind_inv in H as (k0 & _ & H). apply obind_inv in H as (h2 & H2 & H). apply obind_inv in H as ((c3 & h3) & H3 & [= _ _ <- _]).
  apply add_kpn in H3. unfold Heap.upd_cn in H2. apply obind_inv in H2 as (n & _ & [= <-]). simpl in H3.
  rewrite H3, lookup_insert_eq. eauto.
Qed.

(** [LRUCache::update], which gives an evicted page back to its node, clears
    the links of the node although it is in the list of its entry: when the node
    is removed later, the entry becomes empty with offset -1, and the pages that
    were before it can no longer be reached from the hash table. *)
Theorem update_loses_list {OS} (sys : syscalls OS) fuel kf c ht h i l1 kpn l2 off os c' h' os'
  (HL : entry_list ht h i (l1 ++ kpn :: l2)) (Hne : l1 <> [])
  (Hup : LRUCache.update sys fuel kf c h kpn off os = Val (E_ok, c', h', os')) :
  exists ht' h2, HashTable.removeKeyPageNode ht h' i kpn = Val (ht', h2) /\
    HashTable.getKeyPageNodeList ht' i = Val None /\ HashTable.getOffset ht' i = Val (-1).
Proof.
  destruct (update_links _ _ _ _ _ _ _ _ _ _ _ Hup) as (k & Hk & Hp & Hn). destruct HL as [(o & He & _) _ _].
  pose proof (zget_Some _ _ _ He) as Hir.
  unfold HashTable.removeKeyPageNode. rewrite (entry_ok _ _ _ He). cbn [obind he_head he_tail he_offset].
  rewrite !bool_decide_true; [|apply not_eq_None_Some; intros E; apply last_None in E; by destruct l1|destruct l1; [done|by eexists]].
  simpl. unfold Heap.get_kpn. rewrite Hk. simpl. rewrite Hp, Hn. simpl. rewrite Hk. simpl. rewrite Hn.
  eexists _, _. split; [done|]. unfold HashTable.getKeyPageNodeList, HashTable.getOffset.
  by rewrite !(entry_ok _ i _ (zget_zset_eq _ _ _ Hir)).
Qed.

(** *** Instances *)
Lemma hash_is_sdbm_witness : exists i, hash (bytes_of "key") 3 500009 = Val i /\ 0 <= i < 500009 /\
  i = (sdbm (bytes_of "key") mod 2 ^ 64) mod 500009.
Proof. apply (hash_is_sdbm (bytes_of "key") 3 500009); [vm_compute; discriminate|lia]. Defined.

Definition demo_ht0 : list hash_entry := HashTable.allocate 2.
Definition demo_ht1 : list hash_entry * heap :=
  match HashTable.addKeyPageNode demo_ht0 demo_cache2.2 0 2 with Val r => r | _ => (demo_ht0, demo_cache2.2) end.
Definition demo_ht2 : list hash_entry * heap :=
  match HashTable.addKeyPageNode demo_ht1.1 demo_ht1.2 0 4 with Val r => r | _ => demo_ht1 end.

Lemma allocate_entry n h i : 0 <= i < n -> entry_list (HashTable.allocate n) h i [].
Proof.
  intros Hi. split; [|by constructor|done]. exists (-1). split; [|done]. unfold HashTable.allocate, zget.
  rewrite decide_True by lia. apply lookup_replicate_2. lia.
Qed.

Lemma demo_add ht h i kpn k L : entry_list ht h i L -> kpn ∉ L -> h_kpn h !! kpn = Some k ->
  exists s', HashTable.addKeyPageNode ht h i kpn = Val s' /\ entry_list s'.1 s'.2 i (L ++ [kpn]).
Proof.
  intros H1 H2 H3. destruct (addKeyPageNode_spec _ _ _ _ _ _ H1 H2 H3) as (e & h' & E & H & _). eauto.
Qed.

Lemma demo_ht1_list : entry_list demo_ht1.1 demo_ht1.2 0 [2]%positive.
Proof.
  assert (exists k, h_kpn demo_cache2.2 !! 2%positive = Some k) as [k2 H2] by (vm_compute; eauto).
  assert (entry_list demo_ht0 demo_cache2.2 0 []) as H0 by (apply allocate_entry; lia).
  unfold demo_ht1. revert H0 H2. generalize demo_cache2.2, demo_ht0. intros h ht H0 H2.
  destruct (demo_add ht h 0 2 k2 [] H0 ltac:(set_solver) H2) as (s1 & -> & Hl1). exact Hl1.
Qed.

Lemma demo_ht2_list : entry_list demo_ht2.1 demo_ht2.2 0 [2; 4]%positive.
Proof.
  assert (exists k, h_kpn demo_ht1.2 !! 4%positive = Some k) as [k4 H4] by (vm_compute; eauto).
  pose proof demo_ht1_list as H1. unfold demo_ht2. revert H1 H4. generalize demo_ht1. intros [ht h] H1 H4. cbn [fst snd] in *.
  destruct (demo_add ht h 0 4 k4 _ H1 ltac:(set_solver) H4) as (s2 & -> & Hl2). exact Hl2.
Qed.

Lemma entry_is_list_witness :
  entry_list demo_ht2.1 demo_ht2.2 0 [2; 4]%positive /\
  exists ht' h', HashTable.removeKeyPageNode demo_ht2.1 demo_ht2.2 0 2 = Val (ht', h') /\ entry_list ht' h' 0 [4]%positive.
Proof.
  split; [apply demo_ht2_list|].
  assert (entry_list demo_ht2.1 demo_ht2.2 1 []) as H1.
  { split; [|by constructor|exact I]. exists (-1). split; [vm_compute; reflexivity|intros x k [=]]. }
  destruct (entry_is_list demo_ht2.1 demo_ht2.2 0 [2; 4]%positive 1 [] demo_ht2_list H1 ltac:(lia) (fun x _ => not_elem_of_nil x)) as [_ Hr].
  destruct (Hr [] 2%positive [4%positive] eq_refl) as (ht' & h' & E & H & _). eauto.
Defined.

Lemma update_loses_list_witness :
  exists c' h' os' ht' h2,
    LRUCache.update FileLaws.script_sys 2 demo_kfile demo_cache2.1 demo_ht2.2 4 (-1) (FileLaws.script_init [] []) = Val (0, c', h', os') /\
    HashTable.removeKeyPageNode demo_ht2.1 h' 0 4 = Val (ht', h2) /\ HashTable.getKeyPageNodeList ht' 0 = Val None.
Proof.
  do 3 eexists.
  destruct (update_loses_list FileLaws.script_sys 2 demo_kfile demo_cache2.1 demo_ht2.1 demo_ht2.2 0 [2%positive] 4%positive [] (-1)
    (FileLaws.script_init [] []) _ _ _ demo_ht2_list ltac:(done) ltac:(vm_compute; reflexivity)) as (ht' & h2 & E & Hh & _).
  exists ht', h2. split; [vm_compute; reflexivity|]. split; [exact E|exact Hh].
Defined.
