(* ===== verification/Store.v ===== *)
(** * Stored pages

    The key file and the value file as finite maps from offsets to pages, on a
    disk without faults: each operation of [KeyFile] and [ValueFile] is an
    operation on its map, and leaves the other one alone. *)
From S2P Require Import Prelude Bytes DbStruct File FileLaws FdpMgr DbFiles Disk.

Section store.
Context {OS : Type} (sys : syscalls OS) (D : gset Z) `{Rel : !Reliable sys D}.

(** ** The three static functions *)
Lemma rel_ReadFile f fuel off n os : fd f ∈ D -> fs_ok os -> 0 <= off -> 0 < n -> (2 <= fuel)%nat ->
  exists os', moved sys D f os os' /\
    let b := take (Z.to_nat n) (drop (Z.to_nat off) (fs_data os (fd f))) in
    ReadFile sys fuel f off n os =
      Val (if zlen b =? 0 then E_eof_detected else if negb (zlen b =? n) then E_read_failed else E_ok, b, os').
Proof.
  intros Hf Hok Ho Hn Hfu. destruct (rel_read_at sys D f Hf fuel off n os Hok Ho Hn Hfu) as (os' & E & Hm).
  exists os'. split; [done|]. unfold ReadFile. rewrite E. simpl. case_match; [done|]. by case_match.
Qed.

Lemma rel_ReadFile_at f fuel off b os : fd f ∈ D -> fs_ok os -> 0 <= off -> b <> [] -> (2 <= fuel)%nat ->
  bytes_at (fs_data os (fd f)) off b ->
  exists os', moved sys D f os os' /\ ReadFile sys fuel f off (zlen b) os = Val (E_ok, b, os').
Proof.
  intros Hf Hok Ho Hb Hfu Hat. assert (0 < zlen b) by (by apply zlen_pos).
  destruct (rel_ReadFile f fuel off (zlen b) os Hf Hok Ho ltac:(lia) Hfu) as (os' & Hm & E). exists os'. split; [done|].
  cbn zeta in E. rewrite E. unfold bytes_at in Hat.
  replace (Z.to_nat (zlen b)) with (length b) by (unfold zlen; lia). rewrite Hat.
  rewrite (proj2 (Z.eqb_neq (zlen b) 0)), Z.eqb_refl by lia. done.
Qed.

Lemma rel_WriteFile f off b os : fd f ∈ D -> fs_ok os -> 0 <= off -> b <> [] ->
  exists os', WriteFile sys f off b os = (E_ok, os') /\ changed sys D f (splice (fs_data os (fd f)) (Z.to_nat off) b) os os'.
Proof.
  intros Hf Hok Ho Hb. destruct (rel_write_at sys D f Hf off b os Hok Ho Hb) as (os' & E & Hc). exists os'. split; [|done].
  unfold WriteFile. rewrite E. simpl. by rewrite Z.eqb_refl.
Qed.

(** ** The managers of free pages *)

(** The manager's own file, if it has one, is a third file that holds as many
    offsets as the stack. *)
Definition mgr_file (m : fdpmgr) (os : OS) : Prop :=
  match fdp_file m with
  | None => True
  | Some f => fd f ∈ D /\ fsize m = zlen (fs_data os (fd f)) /\ fsize m = 8 * zlen (nextFreeOffset m) /\
      fs_pos os (fd f) = length (fs_data os (fd f))
  end.

(** What a call on the manager changes. *)
Definition mgr_changed (m : fdpmgr) (os os' : OS) : Prop :=
  fs_ok os' /\ forall e, e ∈ D -> (forall f, fdp_file m = Some f -> e <> fd f) ->
    fs_data os' e = fs_data os e /\ fs_pos os' e = fs_pos os e.

Lemma mgr_add m x os : fs_ok os ->
  (match fdp_file m with
   | None => True
   | Some f => fd f ∈ D /\ fsize m = zlen (fs_data os (fd f)) /\ fsize m = 8 * (zlen (nextFreeOffset m) - 1) /\
       fs_pos os (fd f) = length (fs_data os (fd f))
   end) ->
  exists m' os', FdpMgr.addOffsetToFile sys m x os = (E_ok, m', os') /\ mgr_file m' os' /\ mgr_changed m os os' /\
    nextFreeOffset m' = nextFreeOffset m /\ pageSize m' = pageSize m /\ fdp_file m' = fdp_file m.
Proof.
  intros Hok Hm. unfold FdpMgr.addOffsetToFile. destruct (fdp_file m) as [f|] eqn:Ef.
  - destruct Hm as (Hf & Hz & Hs & Hp).
    destruct (rel_append sys D f Hf (le 8 x) os Hok ltac:(done) Hp) as (os' & -> & (Hok' & Hd & Hfr) & Hp'). simpl.
    eexists _, _. split; [done|]. split_and!; try done.
    + unfold mgr_file. simpl. rewrite Ef. split_and!; [done| |lia|done]. rewrite Hd, zlen_app, zlen_le. lia.
    + split; [done|]. intros e He Hne. apply Hfr; [done|]. by apply Hne.
  - eexists m, os. split; [done|]. unfold mgr_file. rewrite Ef. split_and!; try done.
Qed.

Lemma mgr_remove m os : fs_ok os -> nextFreeOffset m <> [] -> mgr_file m os ->
  exists m' os', FdpMgr.removeOffsetFromFile sys (FdpMgr.with_stack m (tail (nextFreeOffset m))) os = (E_ok, m', os') /\
    mgr_file m' os' /\ mgr_changed m os os' /\
    nextFreeOffset m' = tail (nextFreeOffset m) /\ pageSize m' = pageSize m /\ fdp_file m' = fdp_file m.
Proof.
  intros Hok Hne Hm. unfold mgr_file in Hm. unfold FdpMgr.removeOffsetFromFile. simpl. destruct (fdp_file m) as [f|] eqn:Ef.
  - destruct Hm as (Hf & Hz & Hs & Hp). destruct (nextFreeOffset m) as [|x rest] eqn:En; [done|]. rewrite zlen_cons in Hs.
    pose proof (zlen_nonneg rest). simpl.
    destruct (rel_truncate sys D f Hf (fsize m - 8) os Hok ltac:(lia)) as (os' & -> & (Hok' & Hd & Hfr) & Hp'). simpl.
    eexists _, _. split; [done|]. split_and!; try done.
    + unfold mgr_file. simpl. rewrite Ef. split_and!; [done| |lia|done]. rewrite Hd. unfold zlen in *. rewrite length_take. lia.
    + split; [done|]. intros e He Hn. apply Hfr; [done|]. by apply Hn.
  - eexists _, os. split; [done|]. unfold mgr_file. simpl. rewrite Ef. split_and!; try done.
Qed.

Lemma mgr_get used m rel fr os : pages_ok used m rel fr -> mgr_file m os -> fs_ok os -> fr + pageSize m < 2 ^ 63 ->
  exists p m' os' rel' fr', FdpMgr.get sys m os = Val (p, m', os') /\ 0 <= p /\ (p ∉ used) /\ Z.divide (pageSize m) p /\
    pages_ok ({[p]} ∪ used) m' rel' fr' /\ fr' <= fr + pageSize m /\ mgr_file m' os' /\ mgr_changed m os os' /\
    fdp_file m' = fdp_file m /\ pageSize m' = pageSize m.
Proof.
  intros Hok Hm Hos Hov. pose proof Hok as [Hps Hst Hnd [Hfr Hdiv] Hrel Hus].
  assert (nextFreeOffset m <> []) as Hne by (rewrite Hst; by destruct rel).
  destruct (mgr_remove m os Hos Hne Hm) as (m1 & os1 & E1 & Hm1 & [Hok1 Hc1] & Hs1 & Hp1 & Hf1).
  unfold FdpMgr.get. destruct (nextFreeOffset m) as [|x rest] eqn:En; [done|]. simpl tail in *. rewrite E1.
  rewrite Z.eqb_refl. cbn [negb]. rewrite Hs1. destruct rel as [|y rel]; simpl in Hst; injection Hst as -> ->.
  - rewrite decide_True by lia. rewrite Hp1.
    destruct (mgr_add (FdpMgr.with_stack m1 [fr + pageSize m]) (fr + pageSize m) os1 Hok1) as (m2 & os2 & E2 & Hm2 & [Hok2 Hc2] & Hs2 & Hp2 & Hf2).
    { unfold mgr_file in Hm1. simpl. destruct (fdp_file m1); [|done]. rewrite Hs1 in Hm1. done. }
    change (pageSize (FdpMgr.with_stack m1 [fr + pageSize m])) with (pageSize m1). rewrite Hp1, E2, Z.eqb_refl. cbn [negb]. cbn in Hs2, Hp2, Hf2, Hc2.
    exists fr, m2, os2, [], (fr + pageSize m). split_and!; try done; try congruence.
    + intros Hin. apply Hus in Hin. lia.
    + split; rewrite ?Hp2, ?Hp1; simpl; [done|done|constructor| |set_solver|].
      * split; [lia|]. apply Z.divide_add_r; [done|apply Z.divide_refl].
      * intros z [->%elem_of_singleton|Hx]%elem_of_union; [split; [lia|done]|]. destruct (Hus z Hx). split; [lia|done].
    + split; [done|]. intros e He Hn. rewrite <- Hf1 in Hn. destruct (Hc2 e He) as [-> ->]; [done|].
      apply Hc1; [done|]. intros f Hf. apply Hn. congruence.
  - apply NoDup_cons in Hnd as [Hni Hnd]. destruct (Hrel y ltac:(set_solver)) as (Hb & Hd & Hu).
    assert (rel ++ [fr] <> []) as Hne' by (by destruct rel). destruct (rel ++ [fr]) as [|w ws] eqn:E; [done|].
    exists y, m1, os1, rel, fr. split_and!; try done; try lia.
    split; rewrite ?Hp1; auto; [congruence|set_solver|].
    intros z [->%elem_of_singleton|Hx]%elem_of_union; [done|]. by apply Hus.
Qed.

Lemma mgr_free used m rel fr p os : pages_ok used m rel fr -> p ∈ used -> mgr_file m os -> fs_ok os ->
  exists m' os', FdpMgr.free sys m p os = Val (E_ok, m', os') /\ pages_ok (used ∖ {[p]}) m' (p :: rel) fr /\
    mgr_file m' os' /\ mgr_changed m os os' /\ fdp_file m' = fdp_file m /\ pageSize m' = pageSize m.
Proof.
  intros Hok Hp Hm Hos. destruct (po_used _ _ _ _ Hok p Hp) as [Hb Hd]. pose proof (po_size _ _ _ _ Hok).
  destruct (mgr_add (FdpMgr.with_stack m (p :: nextFreeOffset m)) p os Hos) as (m2 & os2 & E2 & Hm2 & [Hok2 Hc2] & Hs2 & Hp2 & Hf2).
  { unfold mgr_file in Hm. simpl. destruct (fdp_file m); [|done]. rewrite zlen_cons. destruct Hm as (? & ? & ? & ?). split_and!; try done. lia. }
  unfold FdpMgr.free. rewrite (proj2 (Z.leb_le 0 p)) by lia. cbn [ASSERT obind]. rewrite decide_False by lia.
  rewrite (proj2 (Z.rem_divide p (pageSize m) ltac:(lia)) Hd). cbn [Z.eqb ASSERT obind]. rewrite E2. cbn [negb Z.eqb E_ok]. cbn in Hs2, Hp2, Hf2, Hc2.
  exists m2, os2. split; [done|]. split_and!; try done.
  destruct Hok as [Hps' Hst Hnd Hfr Hrel Hus]. split; rewrite ?Hp2; auto.
  - rewrite Hs2, Hst. done.
  - constructor; [|done]. intros Hin. by apply Hrel in Hin as (_ & _ & ?).
  - intros x [->|Hx]%elem_of_cons; [split; [done|split; [done|set_solver]]|].
    destruct (Hrel x Hx) as (? & ? & ?). split; [done|]. split; [done|set_solver].
  - intros x Hx. apply Hus. set_solver.
Qed.

(** ** The key file and the value file *)
Lemma aligned_apart ps a b : 0 < ps -> Z.divide ps a -> Z.divide ps b -> a <> b -> a + ps <= b \/ b + ps <= a.
Proof.
  intros Hps [x ->] [y ->] Hne. assert (x <> y) by congruence.
  destruct (Z.lt_ge_cases x y); [left|right].
  - assert (x + 1 <= y) by lia. nia.
  - assert (y + 1 <= x) by lia. nia.
Qed.

(** The pages of type [A], encoded by [enc] in [ps] bytes, of the file [f]; [m]
    manages its free pages. *)
Record pages_stored {A} (enc : A -> bytes) (fits : A -> Prop) (ps : Z) (f : file) (m : fdpmgr) (os : OS) (d : gmap Z A) (fr : Z) : Prop := {
  st_fd : fd f ∈ D;
  st_pages : exists rel, pages_ok (dom d) m rel fr;
  st_size : pageSize m = ps;
  st_mgr : mgr_file m os;
  st_own g : fdp_file m = Some g -> fd g <> fd f;
  st_at o p : d !! o = Some p -> fits p /\ bytes_at (fs_data os (fd f)) o (enc p) }.

(** What the lemmas below need of an encoding. *)
Class Layout {A} (enc : A -> bytes) (fits : A -> Prop) (ps : Z) := {
  lay_len p : fits p -> zlen (enc p) = ps;
  lay_ne p : enc p <> [] }.

Section pages.
Context {A} (enc : A -> bytes) (fits : A -> Prop) (ps : Z) `{Lay : !Layout enc fits ps}.
Implicit Types (f : file) (m : fdpmgr) (d : gmap Z A).

(** The descriptors the file and its manager use. *)
Definition uses f m : gset Z := {[fd f]} ∪ match fdp_file m with Some g => {[fd g]} | None => ∅ end.

Lemma stored_frame f m os os' d fr : pages_stored enc fits ps f m os d fr ->
  (forall e, e ∈ uses f m -> fs_data os' e = fs_data os e /\ fs_pos os' e = fs_pos os e) ->
  pages_stored enc fits ps f m os' d fr.
Proof.
  intros [Hf Hp Hs Hm Hg Hat] He. unfold uses in He. split; try done.
  - unfold mgr_file in *. destruct (fdp_file m) as [g|]; [|done]. destruct (He (fd g)) as [-> ->]; [set_solver|done].
  - intros o p Ho. destruct (He (fd f)) as [-> _]; [set_solver|]. by apply Hat.
Qed.

Lemma stored_moved f m os os' d fr : pages_stored enc fits ps f m os d fr -> moved sys D f os os' ->
  pages_stored enc fits ps f m os' d fr.
Proof.
  intros [Hf Hp Hs Hm Hg Hat] (Hok & Hd & Hpos). split; try done.
  - unfold mgr_file in *. destruct (fdp_file m) as [g|] eqn:E; [|done]. destruct Hm as (Hgd & Hm). rewrite Hd, Hpos by (done || by apply Hg). done.
  - intros o p Ho. rewrite Hd by done. by apply Hat.
Qed.

Lemma stored_off f m os d fr o p : pages_stored enc fits ps f m os d fr -> d !! o = Some p -> 0 <= o /\ Z.divide ps o.
Proof.
  intros [_ [rel Hp] Hs _ _ _] Ho. destruct (po_used _ _ _ _ Hp o) as [? Hd]; [by apply elem_of_dom_2 in Ho|].
  rewrite Hs in Hd. split; [lia|done].
Qed.

Lemma stored_ps f m os d fr : pages_stored enc fits ps f m os d fr -> 0 < ps.
Proof. intros [_ [rel Hp] <- _ _ _]. apply Hp. Qed.

(** A page is read. *)
Lemma stored_read f m os d fr o p fuel : pages_stored enc fits ps f m os d fr -> fs_ok os -> d !! o = Some p -> (2 <= fuel)%nat ->
  exists os', ReadFile sys fuel f o ps os = Val (E_ok, enc p, os') /\ moved sys D f os os' /\ pages_stored enc fits ps f m os' d fr.
Proof.
  intros Hst Hok Ho Hfu. pose proof Hst as [Hf Hp Hs Hm Hg Hat]. destruct (Hat _ _ Ho) as [Hfit Hb].
  destruct (stored_off _ _ _ _ _ _ _ Hst Ho) as [Ho0 _].
  destruct (rel_ReadFile_at f fuel o (enc p) os Hf Hok Ho0 (lay_ne p) Hfu Hb) as (os' & Hmv & E).
  rewrite (lay_len p Hfit) in E. exists os'. split_and!; [done|done|]. by eapply stored_moved.
Qed.

(** Bytes [y] written inside the page [p] make it the page [p']. *)
Lemma stored_patch f m os os' d fr o p p' a x y c : pages_stored enc fits ps f m os d fr -> d !! o = Some p ->
  enc p = a ++ x ++ c -> enc p' = a ++ y ++ c -> length y = length x -> y <> [] -> fits p' ->
  changed sys D f (splice (fs_data os (fd f)) (Z.to_nat (o + zlen a)) y) os os' ->
  pages_stored enc fits ps f m os' (<[o := p']> d) fr.
Proof.
  intros Hst Ho Hx Hy Hl Hne Hfit (Hok & Hd & Hfr). pose proof Hst as [Hf [rel Hp] Hs Hm Hg Hat].
  pose proof (stored_ps _ _ _ _ _ Hst) as Hps. destruct (stored_off _ _ _ _ _ _ _ Hst Ho) as [Ho0 Hod].
  destruct (Hat _ _ Ho) as [Hfit0 Hb]. split; try done.
  - exists rel. by rewrite dom_insert_lookup_L by eauto.
  - unfold mgr_file in *. destruct (fdp_file m) as [g|] eqn:E; [|done]. destruct Hm as (Hgd & Hm).
    destruct (Hfr (fd g) Hgd) as [-> ->]; [by apply Hg|done].
  - intros o2 p2 [[<- <-]|[Hne2 Ho2]]%lookup_insert_Some; rewrite Hd.
    + split; [done|]. rewrite Hy. rewrite Hx in Hb. by eapply bytes_at_field.
    + destruct (Hat _ _ Ho2) as [Hfit2 Hb2]. split; [done|]. destruct (stored_off _ _ _ _ _ _ _ Hst Ho2) as [Ho20 Hod2].
      pose proof (zlen_nonneg a). pose proof (lay_len p' Hfit) as Hlen. rewrite Hy, !zlen_app in Hlen. pose proof (zlen_nonneg c).
      apply bytes_at_other; [done|apply lay_ne|done|lia|].
      rewrite (lay_len p2 Hfit2). destruct (aligned_apart ps o2 o Hps Hod2 Hod ltac:(done)); lia.
Qed.

(** A whole page is written over one. *)
Lemma stored_write f m os d fr o p p' : pages_stored enc fits ps f m os d fr -> fs_ok os -> d !! o = Some p -> fits p' ->
  exists os', WriteFile sys f o (enc p') os = (E_ok, os') /\
    changed sys D f (splice (fs_data os (fd f)) (Z.to_nat o) (enc p')) os os' /\ pages_stored enc fits ps f m os' (<[o := p']> d) fr.
Proof.
  intros Hst Hok Ho Hfit. destruct (stored_off _ _ _ _ _ _ _ Hst Ho) as [Ho0 _]. pose proof (st_fd _ _ _ _ _ _ _ _ Hst) as Hf.
  destruct (rel_WriteFile f o (enc p') os Hf Hok Ho0 (lay_ne p')) as (os' & E & Hc). exists os'. split_and!; [done|done|].
  destruct (st_at _ _ _ _ _ _ _ _ Hst _ _ Ho) as [Hfit0 _].
  eapply (stored_patch f m os os' d fr o p p' [] (enc p) (enc p') []); try done.
  - by rewrite app_nil_r.
  - by rewrite app_nil_r.
  - pose proof (lay_len p Hfit0). pose proof (lay_len p' Hfit). unfold zlen in *. lia.
  - apply lay_ne.
  - change (zlen []) with 0. by rewrite Z.add_0_r.
Qed.

(** A page is taken from the manager and written. *)
Lemma stored_new f m os d fr p : pages_stored enc fits ps f m os d fr -> fs_ok os -> fits p -> fr + ps < 2 ^ 63 ->
  exists o m' os1 os' fr', FdpMgr.get sys m os = Val (o, m', os1) /\ 0 <= o /\ d !! o = None /\
    WriteFile sys f o (enc p) os1 = (E_ok, os') /\ fs_ok os' /\ fr' <= fr + ps /\ fdp_file m' = fdp_file m /\
    (forall e, e ∈ D -> e ∉ uses f m -> fs_data os' e = fs_data os e /\ fs_pos os' e = fs_pos os e) /\
    pages_stored enc fits ps f m' os' (<[o := p]> d) fr'.
Proof.
  intros Hst Hok Hfit Hov. pose proof Hst as [Hf [rel Hp] Hs Hm Hg Hat]. pose proof (stored_ps _ _ _ _ _ Hst) as Hps.
  destruct (mgr_get (dom d) m rel fr os Hp Hm Hok ltac:(by rewrite Hs))
    as (o & m' & os1 & rel' & fr' & E & Ho0 & Hni & Hod & Hp' & Hfr' & Hm' & [Hok1 Hc1] & Hf' & Hs').
  rewrite Hs in Hod, Hfr'. rewrite not_elem_of_dom in Hni.
  destruct (rel_WriteFile f o (enc p) os1 Hf Hok1 Ho0 (lay_ne p)) as (os' & Ew & (Hok' & Hd' & Hc')).
  assert (fs_data os1 (fd f) = fs_data os (fd f)) as Hd1.
  { apply Hc1; [done|]. intros g Eg Heq. by apply (Hg g). }
  exists o, m', os1, os', fr'. split_and!; try done.
  - intros e He Hu. unfold uses in Hu. destruct (Hc' e He) as [-> ->]; [set_solver|]. apply Hc1; [done|].
    intros g Eg ->. rewrite Eg in Hu. set_solver.
  - split; try done.
    + exists rel'. by rewrite dom_insert_L.
    + congruence.
    + unfold mgr_file in *. destruct (fdp_file m') as [g|] eqn:Eg; [|done]. destruct Hm' as (Hgd & Hm').
      destruct (Hc' (fd g) Hgd) as [-> ->]; [apply Hg; congruence|done].
    + intros g Eg. apply Hg. congruence.
    + intros o2 p2 [[<- <-]|[Hne2 Ho2]]%lookup_insert_Some; rewrite Hd', Hd1.
      * split; [done|]. apply bytes_at_splice.
      * destruct (Hat _ _ Ho2) as [Hfit2 Hb2]. split; [done|]. destruct (stored_off _ _ _ _ _ _ _ Hst Ho2) as [Ho20 Hod2].
        apply bytes_at_other; [done|apply lay_ne|done|lia|]. rewrite (lay_len p2 Hfit2), (lay_len p Hfit).
        destruct (aligned_apart ps o2 o Hps Hod2 Hod ltac:(done)); lia.
Qed.

(** A page goes back to the manager. *)
Lemma stored_free f m os d fr o p : pages_stored enc fits ps f m os d fr -> fs_ok os -> d !! o = Some p ->
  exists m' os', FdpMgr.free sys m o os = Val (E_ok, m', os') /\ fs_ok os' /\ fdp_file m' = fdp_file m /\
    (forall e, e ∈ D -> e ∉ uses f m -> fs_data os' e = fs_data os e /\ fs_pos os' e = fs_pos os e) /\
    pages_stored enc fits ps f m' os' (delete o d) fr.
Proof.
  intros Hst Hok Ho. pose proof Hst as [Hf [rel Hp] Hs Hm Hg Hat].
  destruct (mgr_free (dom d) m rel fr o os Hp ltac:(by apply elem_of_dom_2 in Ho) Hm Hok)
    as (m' & os' & E & Hp' & Hm' & [Hok' Hc] & Hf' & Hs').
  assert (fs_data os' (fd f) = fs_data os (fd f)) as Hd1 by (apply Hc; [done|]; intros g Eg Heq; by apply (Hg g)).
  exists m', os'. split_and!; try done.
  - intros e He Hu. apply Hc; [done|]. intros g Eg ->. unfold uses in Hu. rewrite Eg in Hu. set_solver.
  - split; try done.
    + exists (o :: rel). by rewrite dom_delete_L.
    + congruence.
    + intros g Eg. apply Hg. congruence.
    + intros o2 p2 [_ Ho2]%lookup_delete_Some. rewrite Hd1. by apply Hat.
Qed.
End pages.
End store.

(** ** Key pages and value pages *)
Definition kp_ok (kpSize : Z) (kp : key_page) : Prop := kp_fits (Z.to_nat (NUM_OF_KEYS_IN_PAGE kpSize)) kp.

(** The sizes of key pages that [Rdb] accepts. *)
Definition page_size (kpSize : Z) : Prop := MIN_KEY_PAGE_SIZE <= kpSize /\ Z.divide KEY_PAGE_HDR_SIZE kpSize.

Lemma page_size_len kpSize : page_size kpSize -> 64 + 64 * NUM_OF_KEYS_IN_PAGE kpSize = kpSize.
Proof.
  unfold page_size, NUM_OF_KEYS_IN_PAGE, KEY_PAGE_HDR_SIZE, sizeof_key_rec_t. intros [_ [z ->]].
  replace (z * 64 - 64) with ((z - 1) * 64) by lia. rewrite Z.div_mul by lia. lia.
Qed.

Lemma key_layout kpSize : page_size kpSize -> Layout enc_key_page (kp_ok kpSize) kpSize.
Proof.
  intros Hs. split; [|apply enc_key_page_ne]. intros p Hp. unfold zlen. rewrite (length_enc_key_page _ _ Hp).
  pose proof (page_size_len _ Hs). destruct Hs as [Hmin _]. unfold MIN_KEY_PAGE_SIZE in Hmin. lia.
Qed.

#[export] Instance value_layout : Layout enc_value_page vp_fits sizeof_value_page_t.
Proof. split; [|apply enc_value_page_ne]. intros p Hp. unfold zlen. by rewrite (length_enc_value_page _ Hp). Qed.
