(* ===== verification/Unwind.v ===== *)
(** * librdb: undoing disk writes (librdb/include/unwind.h, librdb/src/unwind.cpp)

    [UnwindStack]: while an operation changes pages it pushes, for every write
    that succeeded, the write that restores the old value; [unwind] forgets them
    when the operation succeeded and executes them, last first, when it failed. *)
From S2P Require Import Prelude DbStruct File DbFiles PageMgr.

Inductive unwind_op := WRITE_FLAGS | WRITE_NEXT_OFFSET | WRITE_PREV_OFFSET | FREE_PAGE.

(** The [snf::file *] of a block: what its dynamic type is. *)
Inductive ub_target := Key | Value | Other.

(** The [void *] of a block: null, a key page in the pool, or the value page
    that the caller has on its stack, by its content; the latter dies with the
    caller, so that a store to it is not kept. *)
Inductive ub_ptr := NoPage | KeyPageAt (a : Z) | ValuePage (vp : value_page).

Record unwind_block := {
  ub_op : unwind_op;
  ub_file : option ub_target;
  ub_page : ub_ptr;
  ub_pageOff : Z;
  ub_offset : Z;
  ub_flags : Z }.

(** What the blocks act on. *)
Record dbio (OS : Type) := { io_kf : KeyFile; io_vf : ValueFile; io_pm : pagemgr; io_os : OS }.
Arguments io_kf {OS}. Arguments io_vf {OS}. Arguments io_pm {OS}. Arguments io_os {OS}.

Module UnwindStack.
Section unwind.
Context {OS : Type} (sys : syscalls OS).
Implicit Types (d : dbio OS).

Definition with_kf d (kf : KeyFile) (os : OS) : dbio OS := {| io_kf := kf; io_vf := io_vf d; io_pm := io_pm d; io_os := os |}.
Definition with_vf d (vf : ValueFile) (os : OS) : dbio OS := {| io_kf := io_kf d; io_vf := vf; io_pm := io_pm d; io_os := os |}.

(** [static_cast<key_page_t *>(blk.page)], and the store through it. *)
Definition key_page_of d (p : ub_ptr) : outcome (option key_page) :=
  match p with
  | NoPage => Val None
  | KeyPageAt a => let* kp := PageMgr.load (io_pm d) a in Val (Some kp)
  | ValuePage _ => Undef
  end.
Definition put_key_page d (p : ub_ptr) (kp : option key_page) (os : OS) : dbio OS :=
  {| io_kf := io_kf d; io_vf := io_vf d;
     io_pm := match p, kp with KeyPageAt a, Some kp => PageMgr.store (io_pm d) a kp | _, _ => io_pm d end; io_os := os |}.

(** A field update of the key file on the page of a block. *)
Definition on_key_page d (p : ub_ptr) (f : option key_page -> OS -> Z * option key_page * OS) : outcome (Z * dbio OS) :=
  let* kp := key_page_of d p in
  let '(retval, kp, os) := f kp (io_os d) in
  Val (retval, put_key_page d p kp os).

(** The body of the loop of [execute]; [kf] is set when the file is a key file. *)
Definition execute_block (blk : unwind_block) (d : dbio OS) : outcome (Z * dbio OS) :=
  let* t := match ub_file blk with None | Some Other => Abort | Some Key => Val true | Some Value => Val false end in
  match ub_op blk with
  | WRITE_FLAGS =>
      if (t : bool) then on_key_page d (ub_page blk) (fun kp => KeyFile.writeFlags sys (io_kf d) (ub_pageOff blk) kp (ub_flags blk))
      else
        let* vp := match ub_page blk with NoPage => Val None | ValuePage vp => Val (Some vp) | KeyPageAt _ => Undef end in
        let '(retval, _, os) := ValueFile.writeFlags sys (io_vf d) (ub_pageOff blk) vp (ub_flags blk) (io_os d) in
        Val (retval, with_kf d (io_kf d) os)
  | WRITE_NEXT_OFFSET =>
      let* _ := ASSERT t in
      on_key_page d (ub_page blk) (fun kp => KeyFile.writeNextOffset sys (io_kf d) (ub_pageOff blk) kp (ub_offset blk))
  | WRITE_PREV_OFFSET =>
      let* _ := ASSERT t in
      on_key_page d (ub_page blk) (fun kp => KeyFile.writePrevOffset sys (io_kf d) (ub_pageOff blk) kp (ub_offset blk))
  | FREE_PAGE =>
      if t then let* (r, kf, os) := KeyFile.freePage sys (io_kf d) (ub_offset blk) (io_os d) in Val (r, with_kf d kf os)
      else let* (r, vf, os) := ValueFile.freePage sys (io_vf d) (ub_offset blk) (io_os d) in Val (r, with_vf d vf os)
  end.

(** [execute]; the head of the list is the top of the stack. *)
Fixpoint execute (stk : list unwind_block) (d : dbio OS) : outcome (dbio OS) :=
  match stk with
  | [] => Val d
  | blk :: stk =>
      let* (retval, d) := execute_block blk d in
      let* _ := ASSERT (retval =? E_ok) in
      execute stk d
  end.

Definition unwind (stk : list unwind_block) (status : Z) (d : dbio OS) : outcome (dbio OS) :=
  if status =? E_ok then Val d else execute stk d.
End unwind.

Definition writeFlags (stk : list unwind_block) (f : ub_target) (page : ub_ptr) (pageOff flags : Z) : list unwind_block :=
  {| ub_op := WRITE_FLAGS; ub_file := Some f; ub_page := page; ub_pageOff := pageOff; ub_offset := -1; ub_flags := flags |} :: stk.
Definition writeNextOffset (stk : list unwind_block) (f : ub_target) (page : ub_ptr) (pageOff offset : Z) : list unwind_block :=
  {| ub_op := WRITE_NEXT_OFFSET; ub_file := Some f; ub_page := page; ub_pageOff := pageOff; ub_offset := offset; ub_flags := -1 |} :: stk.
Definition writePrevOffset (stk : list unwind_block) (f : ub_target) (page : ub_ptr) (pageOff offset : Z) : list unwind_block :=
  {| ub_op := WRITE_PREV_OFFSET; ub_file := Some f; ub_page := page; ub_pageOff := pageOff; ub_offset := offset; ub_flags := -1 |} :: stk.
Definition freePage (stk : list unwind_block) (f : ub_target) (offset : Z) : list unwind_block :=
  {| ub_op := FREE_PAGE; ub_file := Some f; ub_page := NoPage; ub_pageOff := -1; ub_offset := offset; ub_flags := -1 |} :: stk.
End UnwindStack.
