(* ===== verification/Rdb.v ===== *)
(** * librdb: the database (librdb/include/rdb.h, librdb/src/rdb.cpp)

    [Rdb] composes the other parts.  A call runs under the lock of its hash
    table entry ([RwLock] has the locks), so that calls on different entries
    interleave only at the mutexes of the parts; here the calls run one after the
    other and the guards of [opMutex] and of the entry are left out.  [db] is the
    state between [open] and [close]. *)
From S2P Require Import Prelude Bytes DbStruct KeyRec Prime File FdpMgr DbFiles PageMgr Cache HashTable Unwind.

Inductive op_t := NIL | GET | SET | DEL.

Record RdbOptions := { o_memusage : Z; o_syncdata : bool; o_syncidx : bool }.
Definition default_options : RdbOptions := {| o_memusage := 75; o_syncdata := true; o_syncidx := false |}.

Definition setMemoryUsage (o : RdbOptions) (memusage : Z) : Z * RdbOptions :=
  if (memusage <? 2) || (150 <? memusage) then (E_invalid_arg, o)
  else (E_ok, {| o_memusage := memusage; o_syncdata := o_syncdata o; o_syncidx := o_syncidx o |}).

(** The members of an open [Rdb]. *)
Record db (OS : Type) := mkDb {
  d_kpSize : Z;
  d_htSize : Z;
  d_ht : list hash_entry;
  d_kf : KeyFile;
  d_vf : ValueFile;
  d_cache : lru;
  d_heap : heap;
  d_opCount : Z;
  d_os : OS }.
Arguments mkDb {OS}. Arguments d_kpSize {OS}. Arguments d_htSize {OS}. Arguments d_ht {OS}. Arguments d_kf {OS}. Arguments d_vf {OS}.
Arguments d_cache {OS}. Arguments d_heap {OS}. Arguments d_opCount {OS}. Arguments d_os {OS}.

(** The fields of [key_info_t] that [processKeyPages] sets. *)
Record key_find := {
  f_ki : key_info;
  f_kpn : option positive;
  f_lkp : option Z;
  f_lkpoff : Z;
  f_kidx : Z }.

Definition ki_with_voff (ki : key_info) (v : Z) : key_info :=
  {| ki_key := ki_key ki; ki_klen := ki_klen ki; ki_hash := ki_hash ki; ki_voff := v |}.

Module Rdb.
Section rdb.
Context {OS : Type} (sys : syscalls OS).
Implicit Types (d : db OS) (f : key_find).

Definition with_os d (os : OS) : db OS :=
  mkDb (d_kpSize d) (d_htSize d) (d_ht d) (d_kf d) (d_vf d) (d_cache d) (d_heap d) (d_opCount d) os.
Definition with_cache d (c : lru) (h : heap) (os : OS) : db OS :=
  mkDb (d_kpSize d) (d_htSize d) (d_ht d) (d_kf d) (d_vf d) c h (d_opCount d) os.
Definition with_ht d (ht : list hash_entry) (h : heap) : db OS :=
  mkDb (d_kpSize d) (d_htSize d) ht (d_kf d) (d_vf d) (d_cache d) h (d_opCount d) (d_os d).
Definition with_kf d (kf : KeyFile) (os : OS) : db OS :=
  mkDb (d_kpSize d) (d_htSize d) (d_ht d) kf (d_vf d) (d_cache d) (d_heap d) (d_opCount d) os.
Definition with_vf d (vf : ValueFile) (os : OS) : db OS :=
  mkDb (d_kpSize d) (d_htSize d) (d_ht d) (d_kf d) vf (d_cache d) (d_heap d) (d_opCount d) os.
Definition with_ops d (n : Z) : db OS :=
  mkDb (d_kpSize d) (d_htSize d) (d_ht d) (d_kf d) (d_vf d) (d_cache d) (d_heap d) n (d_os d).

(** [*a] and [*a = kp] for a page in memory. *)
Definition load d (a : Z) : outcome key_page := PageMgr.load (lc_pageMgr (d_cache d)) a.
Definition store d (a : Z) (kp : key_page) : db OS :=
  with_cache d (LRUCache.with_pm (d_cache d) (PageMgr.store (lc_pageMgr (d_cache d)) a kp)) (d_heap d) (d_os d).

(** [keyFile->write(offset, kp, kpSize)] *)
Definition write_page d (offset : Z) (kp : key_page) : Z * db OS :=
  let '(r, os) := KeyFile.write sys (d_kf d) offset (enc_key_page kp) (d_os d) in (r, with_os d os).

(** A field update of the key file on the page at [a]. *)
Definition update_page d (a : Z) (upd : option key_page -> OS -> Z * option key_page * OS) : outcome (Z * db OS) :=
  let* kp := load d a in
  let '(r, kp', os) := upd (Some kp) (d_os d) in
  let d := with_os d os in
  Val (r, match kp' with Some kp => store d a kp | None => d end).

Definition unwind d (stk : list unwind_block) (status : Z) : outcome (db OS) :=
  let* io := UnwindStack.unwind sys stk status
    {| io_kf := d_kf d; io_vf := d_vf d; io_pm := lc_pageMgr (d_cache d); io_os := d_os d |} in
  Val (mkDb (d_kpSize d) (d_htSize d) (d_ht d) (io_kf io) (io_vf io) (LRUCache.with_pm (d_cache d) (io_pm io)) (d_heap d)
         (d_opCount d) (io_os io)).

(** ** Key pages *)
Definition f_with_ki f (ki : key_info) : key_find :=
  {| f_ki := ki; f_kpn := f_kpn f; f_lkp := f_lkp f; f_lkpoff := f_lkpoff f; f_kidx := f_kidx f |}.
Definition f_found f (ki : key_info) (kpn : positive) (kidx : Z) : key_find :=
  {| f_ki := ki; f_kpn := Some kpn; f_lkp := f_lkp f; f_lkpoff := f_lkpoff f; f_kidx := kidx |}.
Definition f_missed f (a : Z) (off kidx : Z) : key_find :=
  {| f_ki := f_ki f; f_kpn := f_kpn f; f_lkp := Some a; f_lkpoff := off; f_kidx := kidx |}.

(** The part both loops of [processKeyPages] share: the work on the page [a] of
    the node [kpn], read from [nextOffset].  [inl r]: the function returns [r];
    [inr n]: it goes on with the offset [n]. *)
Definition visit d f (op : op_t) (kpn : positive) (a nextOffset : Z) : outcome ((Z + Z) * key_find * db OS) :=
  let* kp := load d a in
  let missed kidx kp d := Val (inr (kp_noff kp), f_missed f a nextOffset kidx, d) in
  match op with
  | GET =>
      let* kidx := KeyRecords.get kp (f_ki f) in
      if 0 <=? kidx then
        let* r := kp_at kp kidx in
        Val (inl E_ok, f_found f (ki_with_voff (f_ki f) (kr_voff r)) kpn kidx, d)
      else missed kidx kp d
  | DEL =>
      let* (kidx, kp) := KeyRecords.remove kp (f_ki f) in
      let d := store d a kp in
      if 0 <=? kidx then
        let f := f_found f (f_ki f) kpn kidx in
        if 0 <? kp_vcount kp then let '(r, d) := write_page d nextOffset kp in Val (inl r, f, d)
        else Val (inl E_ok, f, d)
      else missed kidx kp d
  | SET =>
      if kp_vcount kp <? NUM_OF_KEYS_IN_PAGE (d_kpSize d) then
        let* (kidx, kp) := KeyRecords.put kp (f_ki f) in
        let d := store d a kp in
        if 0 <=? kidx then
          let* r := kp_at kp kidx in
          let '(retval, d) := write_page d nextOffset kp in
          Val (inl retval, f_found f (ki_with_voff (f_ki f) (kr_voff r)) kpn kidx, d)
        else missed kidx kp d
      else missed (f_kidx f) kp d
  | NIL => missed (f_kidx f) kp d
  end.

(** The first loop, over the nodes in memory.  [inr (r, n)]: it ends with
    [retval = r] and [nextOffset = n]. *)
Fixpoint cached_loop (fuel : nat) d f (op : op_t) (nextOffset : Z) (kpn : option positive)
  : outcome ((Z + Z * Z) * key_find * db OS) :=
  match fuel with
  | O => OutOfFuel
  | S fuel =>
      if nextOffset =? -1 then Val (inr (E_ok, nextOffset), f, d)
      else
        match kpn with
        | None => Val (inr (E_ok, nextOffset), f, d)
        | Some p =>
            let* (c, h) := LRUCache.touch (d_cache d) (d_heap d) p in
            let d := with_cache d c h (d_os d) in
            let* k := Heap.get_kpn (d_heap d) p in
            let* (retval, d) :=
              match kpn_kp k with
              | Some _ => Val (E_ok, d)
              | None =>
                  let* (r, c, h, os) := LRUCache.update sys fuel (d_kf d) (d_cache d) (d_heap d) p nextOffset (d_os d) in
                  Val (r, with_cache d c h os)
              end in
            if negb (retval =? E_ok) then
              let* _ := Heap.get_kpn (d_heap d) p in
              Val (inr (retval, nextOffset), f, d)
            else
              let* k := Heap.get_kpn (d_heap d) p in
              let* a := deref (kpn_kp k) in
              let* (res, f, d) := visit d f op p a nextOffset in
              match res with
              | inl r => Val (inl r, f, d)
              | inr nextOffset =>
                  let* k := Heap.get_kpn (d_heap d) p in
                  cached_loop fuel d f op nextOffset (kpn_next k)
              end
        end
  end.

(** The second loop, over the pages that are only on disk; its value is
    [retval], or what the function returns. *)
Fixpoint disk_loop (fuel : nat) d f (op : op_t) (nextOffset : Z) : outcome ((Z + Z) * key_find * db OS) :=
  match fuel with
  | O => OutOfFuel
  | S fuel =>
      if nextOffset =? -1 then Val (inr E_ok, f, d)
      else
        let* (retval, kpn, c, h, os) := LRUCache.get sys fuel (d_kf d) (d_cache d) (d_heap d) nextOffset (d_os d) in
        let d := with_cache d c h os in
        match kpn with
        | Some p =>
            let* (ht, h) := HashTable.addKeyPageNode (d_ht d) (d_heap d) (ki_hash (f_ki f)) p in
            let d := with_ht d ht h in
            let* k := Heap.get_kpn (d_heap d) p in
            let* a := deref (kpn_kp k) in
            let* (res, f, d) := visit d f op p a nextOffset in
            match res with
            | inl r => Val (inl r, f, d)
            | inr nextOffset => disk_loop fuel d f op nextOffset
            end
        | None => Val (inr retval, f, d)
        end
  end.

Definition processKeyPages (fuel : nat) d f (op : op_t) : outcome (Z * key_find * db OS) :=
  let* nextOffset := HashTable.getOffset (d_ht d) (ki_hash (f_ki f)) in
  let* kpn := HashTable.getKeyPageNodeList (d_ht d) (ki_hash (f_ki f)) in
  let* (res, f, d) := cached_loop fuel d f op nextOffset kpn in
  match res with
  | inl r => Val (r, f, d)
  | inr (retval, nextOffset) =>
      let* (res, f, d) := if retval =? E_ok then disk_loop fuel d f op nextOffset else Val (inr retval, f, d) in
      match res with
      | inl r => Val (r, f, d)
      | inr retval => Val (if retval =? E_ok then E_not_found else retval, f, d)
      end
  end.

Definition kp_with_hash_poff (kp : key_page) (hash poff : Z) : key_page :=
  {| kp_flags := kp_flags kp; kp_vcount := kp_vcount kp; kp_root := kp_root kp; kp_hash := hash;
     kp_poff := poff; kp_noff := kp_noff kp; kp_keys := kp_keys kp |}.

Definition addNewPage (fuel : nat) d f : outcome (Z * key_find * db OS) :=
  let* (retval, kpn, c, h, os) := LRUCache.get sys fuel (d_kf d) (d_cache d) (d_heap d) (-1) (d_os d) in
  let d := with_cache d c h os in
  match kpn with
  | None => Val (retval, f, d)
  | Some p =>
      let* k := Heap.get_kpn (d_heap d) p in
      let* a := deref (kpn_kp k) in
      let kp := kp_with_hash_poff (InitKeyPage (d_kpSize d)) (ki_hash (f_ki f)) (f_lkpoff f) in
      let* (kidx, kp) := KeyRecords.put kp (f_ki f) in
      let d := store d a kp in
      let f := {| f_ki := f_ki f; f_kpn := f_kpn f; f_lkp := f_lkp f; f_lkpoff := f_lkpoff f; f_kidx := kidx |} in
      let* _ := ASSERT (0 <=? kidx) in
      let* (retval, off, kf, os) := KeyFile.write_new sys (d_kf d) (enc_key_page kp) (d_os d) in
      let d := with_kf d kf os in
      let* (ustk, pageOffset, d) :=
        match off with
        | Some off =>
            let* h := Heap.upd_kpn (d_heap d) p (k_with_kpoff off) in
            Val (UnwindStack.writeFlags (UnwindStack.freePage [] Key off) Key (KeyPageAt a) off KPAGE_DELETED, off,
                 with_ht d (d_ht d) h)
        | None => Val ([], -1, d)
        end in
      let* (retval, ustk, d) :=
        match f_lkp f with
        | Some l =>
            if (retval =? E_ok) && negb (f_lkpoff f =? -1) then
              let* lkp := load d l in
              let* (r, d) := update_page d l (fun kp => KeyFile.writeNextOffset sys (d_kf d) (f_lkpoff f) kp pageOffset) in
              Val (r, if r =? E_ok then UnwindStack.writeNextOffset ustk Key (KeyPageAt l) (f_lkpoff f) (kp_noff lkp) else ustk, d)
            else Val (retval, ustk, d)
        | None => Val (retval, ustk, d)
        end in
      let* (f, d) :=
        if retval =? E_ok then
          let* (ht, h) := HashTable.addKeyPageNode (d_ht d) (d_heap d) (ki_hash (f_ki f)) p in
          Val ({| f_ki := f_ki f; f_kpn := Some p; f_lkp := f_lkp f; f_lkpoff := f_lkpoff f; f_kidx := f_kidx f |}, with_ht d ht h)
        else
          let* (c, h) := LRUCache.free (d_cache d) (d_heap d) p in
          Val (f, with_cache d c h (d_os d)) in
      let* d := unwind d ustk retval in
      Val (retval, f, d)
  end.

(** ** The operations *)
Definition find_init (ki : key_info) : key_find :=
  {| f_ki := ki; f_kpn := None; f_lkp := None; f_lkpoff := -1; f_kidx := -1 |}.

(** A null pointer, or a string that starts with the null byte. *)
Definition null_or_empty (p : option bytes) : outcome bool :=
  match p with
  | None => Val true
  | Some b => let* c := deref (head b) in Val (c =? 0)
  end.

(** The checks of the key and the hash of it; [inl] is the code of a failure. *)
Definition key_args (key : option bytes) (klen : Z) : outcome (Z + bytes) :=
  let* bad := null_or_empty key in
  if bad then Val (inl E_invalid_arg)
  else if klen <=? 0 then Val (inl E_invalid_arg)
  else match key with Some k => Val (inr k) | None => Val (inl E_invalid_arg) end.

Definition hash_key d (key : bytes) (klen : Z) : outcome Z :=
  let* hindex := hash key klen (d_htSize d) in
  let* _ := ASSERT ((0 <=? hindex) && (hindex <? d_htSize d)) in
  Val hindex.

(** The assertions after a successful [processKeyPages(&ki, GET)]. *)
Definition found_asserts d f : outcome unit :=
  let* p := match f_kpn f with Some p => Val p | None => Abort end in
  let* k := Heap.get_kpn (d_heap d) p in
  let* _ := ASSERT (bool_decide (is_Some (kpn_kp k))) in
  let* _ := ASSERT (negb (kpn_kpoff k =? -1)) in
  let* _ := ASSERT (negb (f_kidx f =? -1)) in
  ASSERT (negb (ki_voff (f_ki f) =? -1)).

(** [valueFile->read(ki_voff, &vp)] and the assertions on what was read; [vp] is
    what the variable held before. *)
Definition read_value (fuel : nat) d (voff : Z) (vp : value_page) (key : bytes) (klen : Z) : outcome (Z * value_page * db OS) :=
  let* (retval, b, os) := ValueFile.read sys fuel (d_vf d) voff (d_os d) in
  let d := with_os d os in
  if negb (retval =? E_ok) then Val (retval, vp, d)
  else
    let vp := dec_value_page b in
    let* _ := ASSERT (negb (IsValuePageDeleted (Some vp))) in
    let* _ := ASSERT (klen =? vp_klen vp) in
    let* c := memcmp key (vp_key vp) (Z.to_nat klen) in
    let* _ := ASSERT (c =? 0) in
    Val (retval, vp, d).

(** [get(key, klen, value, vlen)]: its code, the caller's buffer [value] and
    [*vlen]. *)
Definition get (fuel : nat) d (key : option bytes) (klen : Z) (value : option bytes) (vlen : option Z)
  : outcome (Z * option bytes * option Z * db OS) :=
  let* args := key_args key klen in
  match args, value, vlen with
  | inl e, _, _ => Val (e, value, vlen, d)
  | inr key, Some buf, Some n =>
      if n <=? 0 then Val (E_invalid_arg, value, vlen, d)
      else
        let d := with_ops d (d_opCount d + 1) in
        let* hindex := hash_key d key klen in
        let* ki := SetKeyInfo key klen hindex in
        let* (retval, f, d) := processKeyPages fuel d (find_init ki) GET in
        let* (retval, buf, n, d) :=
          if retval =? E_ok then
            let* _ := found_asserts d f in
            let* (retval, vp, d) := read_value fuel d (ki_voff (f_ki f)) (dec_value_page []) key klen in
            if negb (retval =? E_ok) then Val (retval, buf, n, d)
            else if n <? vp_vlen vp then Val (E_insufficient_buffer, buf, n, d)
            else
              let n := if vp_vlen vp <? n then vp_vlen vp else n in
              let* buf := memcpy buf (vp_value vp) n in
              Val (retval, buf, n, d)
          else Val (retval, buf, n, d) in
        Val (retval, Some buf, Some n, with_ops d (d_opCount d - 1))
  | inr _, _, _ => Val (E_invalid_arg, value, vlen, d)
  end.

(** An [Updater]: [update(oval, olen)] gives its code and what
    [getUpdatedValue(nval, &nlen)] does then - its code, [nval] and [nlen]. *)
Definition Updater : Type := bytes -> Z -> Z * (bytes -> Z -> Z * bytes * Z).

Definition vp_with_value (vp : value_page) (v : bytes) (vlen : Z) : value_page :=
  {| vp_flags := vp_flags vp; vp_klen := vp_klen vp; vp_vlen := vlen; vp_key := vp_key vp; vp_value := v |}.

Definition set (fuel : nat) d (key : option bytes) (klen : Z) (value : option bytes) (vlen : Z) (updater : option Updater)
  : outcome (Z * db OS) :=
  let* args := key_args key klen in
  match args with
  | inl e => Val (e, d)
  | inr key =>
      let* bad := null_or_empty value in
      match value with
      | Some value =>
          if bad then Val (E_invalid_arg, d)
          else if vlen <=? 0 then Val (E_invalid_arg, d)
          else
            let d := with_ops d (d_opCount d + 1) in
            let* hindex := hash_key d key klen in
            let* ki := SetKeyInfo key klen hindex in
            let* vp := InitValuePage key klen value vlen in
            let* (retval, f, d) := processKeyPages fuel d (find_init ki) GET in
            let* (retval, ustk, d) :=
              if retval =? E_ok then
                let* _ := found_asserts d f in
                let* (retval, vp, d) :=
                  match updater with
                  | None => Val (retval, vp, d)
                  | Some u =>
                      let* (retval, vp, d) := read_value fuel d (ki_voff (f_ki f)) vp key klen in
                      if negb (retval =? E_ok) then Val (retval, vp, d)
                      else
                        let '(retval, upd) := u (vp_value vp) (vp_vlen vp) in
                        if retval =? E_ok then
                          let '(retval, nval, nlen) := upd (vp_value vp) (vp_vlen vp) in
                          Val (retval, vp_with_value vp nval nlen, d)
                        else Val (retval, vp, d)
                  end in
                if retval =? E_ok then
                  let '(retval, os) := ValueFile.write sys (d_vf d) (ki_voff (f_ki f)) vp (d_os d) in
                  Val (retval, [], with_os d os)
                else Val (retval, [], d)
              else if retval =? E_not_found then
                let* (retval, off, vf, os) := ValueFile.write_new sys (d_vf d) vp (d_os d) in
                let d := with_vf d vf os in
                if negb (retval =? E_ok) then Val (retval, [], d)
                else
                  let voff := default (ki_voff (f_ki f)) off in
                  let f := f_with_ki f (ki_with_voff (f_ki f) voff) in
                  let ustk := UnwindStack.writeFlags (UnwindStack.freePage [] Value voff) Value (ValuePage vp) voff VPAGE_DELETED in
                  let* (retval, f, d) := processKeyPages fuel d f SET in
                  if retval =? E_not_found then
                    let* (retval, f, d) := addNewPage fuel d f in Val (retval, ustk, d)
                  else Val (retval, ustk, d)
              else Val (retval, [], d) in
            let* d := unwind d ustk retval in
            Val (retval, with_ops d (d_opCount d - 1))
      | None => Val (E_invalid_arg, d)
      end
  end.

(** The part of [remove] for a page that has lost its last key: [p] is its
    node. *)
Definition remove_page (fuel : nat) d (hindex : Z) (p : positive) (ustk : list unwind_block)
  : outcome (Z * list unwind_block * db OS) :=
  let* k := Heap.get_kpn (d_heap d) p in
  let* a := deref (kpn_kp k) in
  let* kp := load d a in
  let prev_kpoff := kp_poff kp in
  let prev_kpn := kpn_prev k in
  let next_kpoff := kp_noff kp in
  let* (retval, next_kpn, d) :=
    match kpn_next k with
    | None =>
        if negb (next_kpoff =? -1) then
          let* (r, n, c, h, os) := LRUCache.get sys fuel (d_kf d) (d_cache d) (d_heap d) next_kpoff (d_os d) in
          let d := with_cache d c h os in
          match n with
          | Some n =>
              let* (ht, h) := HashTable.addKeyPageNode (d_ht d) (d_heap d) hindex n in
              Val (r, Some n, with_ht d ht h)
          | None => Val (r, None, d)
          end
        else Val (E_ok, None, d)
    | Some n => Val (E_ok, Some n, d)
    end in
  if negb (retval =? E_ok) then Val (retval, ustk, d)
  else
    let page_of (off : Z) (n : option positive) : outcome (option Z) :=
      if negb (off =? -1) then match n with Some n => let* k := Heap.get_kpn (d_heap d) n in Val (kpn_kp k) | None => Val None end
      else Val None in
    let* prev_kp := page_of prev_kpoff prev_kpn in
    let* next_kp := page_of next_kpoff next_kpn in
    let* k := Heap.get_kpn (d_heap d) p in
    let off := kpn_kpoff k in
    let* (retval, d) := update_page d a (fun kp => KeyFile.writeFlags sys (d_kf d) off kp KPAGE_DELETED) in
    if negb (retval =? E_ok) then Val (retval, ustk, d)
    else
      let ustk := UnwindStack.writeFlags ustk Key (KeyPageAt a) off 0 in
      let* (retval, ustk, d) :=
        match prev_kp with
        | Some b =>
            let* pk := load d b in
            let* (r, d) := update_page d b (fun kp => KeyFile.writeNextOffset sys (d_kf d) prev_kpoff kp next_kpoff) in
            Val (r, if r =? E_ok then UnwindStack.writeNextOffset ustk Key (KeyPageAt b) prev_kpoff (kp_noff pk) else ustk, d)
        | None => Val (retval, ustk, d)
        end in
      let* (retval, ustk, d) :=
        match next_kp with
        | Some b =>
            if retval =? E_ok then
              let* nk := load d b in
              let* (r, d) := update_page d b (fun kp => KeyFile.writePrevOffset sys (d_kf d) next_kpoff kp prev_kpoff) in
              Val (r, if r =? E_ok then UnwindStack.writePrevOffset ustk Key (KeyPageAt b) next_kpoff (kp_poff nk) else ustk, d)
            else Val (retval, ustk, d)
        | None => Val (retval, ustk, d)
        end in
      if negb (retval =? E_ok) then Val (retval, ustk, d)
      else
        let* (ht, h) := HashTable.removeKeyPageNode (d_ht d) (d_heap d) hindex p in
        let d := with_ht d ht h in
        let* (c, h) := LRUCache.free (d_cache d) (d_heap d) p in
        let d := with_cache d c h (d_os d) in
        let* (r, kf, os) := KeyFile.freePage sys (d_kf d) off (d_os d) in
        Val (r, ustk, with_kf d kf os).

(** The part of [remove] that takes the key out of its page: [f] is what the first
    search found, [ki] the key again. *)
Definition del_key (fuel : nat) d f (ki : key_info) (hindex : Z) (ustk : list unwind_block)
  : outcome (Z * list unwind_block * db OS) :=
  let* (retval, df, d) := processKeyPages fuel d (find_init ki) DEL in
  let* _ := ASSERT (retval =? E_ok) in
  let* p := match f_kpn df with Some p => Val p | None => Undef end in
  let* _ := ASSERT (bool_decide (f_kpn f = Some p)) in
  let* _ := ASSERT (f_kidx f =? f_kidx df) in
  let* k := Heap.get_kpn (d_heap d) p in
  let* a := deref (kpn_kp k) in
  let* kp := load d a in
  if kp_vcount kp <=? 0 then remove_page fuel d hindex p ustk else Val (retval, ustk, d).

Definition remove (fuel : nat) d (key : option bytes) (klen : Z) : outcome (Z * db OS) :=
  let* args := key_args key klen in
  match args with
  | inl e => Val (e, d)
  | inr key =>
      let d := with_ops d (d_opCount d + 1) in
      let* hindex := hash_key d key klen in
      let* ki := SetKeyInfo key klen hindex in
      let* (retval, f, d) := processKeyPages fuel d (find_init ki) GET in
      let* (retval, ustk, d) :=
        if retval =? E_ok then
          let* _ := found_asserts d f in
          let voff := ki_voff (f_ki f) in
          let '(retval, _, os) := ValueFile.writeFlags sys (d_vf d) voff None VPAGE_DELETED (d_os d) in
          let d := with_os d os in
          if negb (retval =? E_ok) then Val (retval, [], d)
          else
            let ustk := UnwindStack.writeFlags [] Value NoPage voff 0 in
            let* dki := SetKeyInfo key klen hindex in
            let* (retval, ustk, d) := del_key fuel d f dki hindex ustk in
            if retval =? E_ok then
              let* (r, vf, os) := ValueFile.freePage sys (d_vf d) voff (d_os d) in
              Val (r, ustk, with_vf d vf os)
            else Val (retval, ustk, d)
        else Val (retval, [], d) in
      let* d := unwind d ustk retval in
      Val (retval, with_ops d (d_opCount d - 1))
  end.
End rdb.
End Rdb.
