(* ===== verification/RdbOpen.v ===== *)
(** * librdb: opening and closing the database (librdb/include/rdb.h, librdb/src/rdb.cpp)

    The constructor of [Rdb], the two functions that rebuild the tables of a
    database from its files, [open] and [close].  [rdb] is a closed database:
    what the object holds before [open].  [open] gives the state [db] of [Rdb.v]
    when it succeeds. *)
From S2P Require Import Prelude Bytes DbStruct Prime File FdpMgr DbFiles PageMgr Cache HashTable Rdb.

Record rdb := {
  r_path : bytes;
  r_name : bytes;
  r_kpSize : Z;
  r_htSize : Z;
  r_options : RdbOptions;
  r_opened : bool }.

Definition HASH_TABLE_SIZE : Z := 500000.

(** What the constructor of [PageMgr] asks the system for, and the limit on a
    path. *)
Record machine := {
  m_memory : Z;
  m_malloc : Z -> bool;
  m_maxpathlen : Z }.

(** The bytes of a string up to its first null byte. *)
Fixpoint c_str (b : bytes) : bytes :=
  match b with
  | [] => []
  | c :: b => if c =? 0 then [] else c :: c_str b
  end.

Module RdbOpen.

(** [init], the body of every constructor. *)
Definition init (fuel : nat) (path name : bytes) (kpsize htsize : Z) (o : RdbOptions) : outcome rdb :=
  let* _ := ASSERT (MIN_KEY_PAGE_SIZE <=? kpsize) in
  let* _ := ASSERT (Z.rem kpsize KEY_PAGE_HDR_SIZE =? 0) in
  let* _ := ASSERT (0 <? htsize) in
  let* n := NextPrime fuel htsize in
  Val {| r_path := path; r_name := name; r_kpSize := kpsize; r_htSize := n; r_options := o; r_opened := false |}.

Definition with_sizes (r : rdb) (kpsize htsize : Z) : rdb :=
  {| r_path := r_path r; r_name := r_name r; r_kpSize := kpsize; r_htSize := htsize; r_options := r_options r;
     r_opened := r_opened r |}.
Definition with_opened (r : rdb) (b : bool) : rdb :=
  {| r_path := r_path r; r_name := r_name r; r_kpSize := r_kpSize r; r_htSize := r_htSize r; r_options := r_options r;
     r_opened := b |}.

Definition setKeyPageSize (r : rdb) (kpsize : Z) : Z * rdb :=
  if kpsize <? MIN_KEY_PAGE_SIZE then (E_invalid_arg, r)
  else if negb (Z.rem kpsize KEY_PAGE_HDR_SIZE =? 0) then (E_invalid_arg, r)
  else if negb (r_opened r) then (E_ok, with_sizes r kpsize (r_htSize r))
  else (E_invalid_state, r).

(** The new size comes from the member [htSize], not from the argument. *)
Definition setHashTableSize (fuel : nat) (r : rdb) (htsize : Z) : outcome (Z * rdb) :=
  if htsize <=? 0 then Val (E_invalid_arg, r)
  else if negb (r_opened r) then
    let* n := NextPrime fuel (r_htSize r) in Val (E_ok, with_sizes r (r_kpSize r) n)
  else Val (E_invalid_state, r).

(** The four paths: [snprintf] cuts the name to the limit, and a suffix that does
    not fit in what is left is written past the array. *)
Definition file_path (maxpathlen : Z) (r : rdb) (suffix : bytes) : outcome bytes :=
  let p := take (Z.to_nat (maxpathlen - 1)) (c_str (r_path r) ++ 47 :: c_str (r_name r)) in
  if zlen p + zlen suffix <=? maxpathlen then Val (p ++ suffix) else Undef.

Section rdb.
Context {OS : Type} (sys : syscalls OS).

(** The destructor of a file. *)
Definition destroy (f : file) (os : OS) : OS := let '(_, _, _, os) := File.close sys f os in os.

(** [~KeyFile] and [~ValueFile]: the file of the manager first. *)
Definition destroy_mgr (m : option fdpmgr) (os : OS) : OS :=
  match m with
  | Some m => match fdp_file m with Some f => destroy f os | None => os end
  | None => os
  end.
Definition destroy_key (k : KeyFile) (os : OS) : OS := destroy (kf_file k) (destroy_mgr (kf_mgr k) os).
Definition destroy_value (v : ValueFile) (os : OS) : OS := destroy (vf_file v) (destroy_mgr (vf_mgr v) os).

(** The loop of [populateHashTable]. *)
Fixpoint pages_loop (fuel : nat) (kpSize offset : Z) (kf : KeyFile) (ht : list hash_entry) (os : OS)
  : outcome (Z * KeyFile * list hash_entry * OS) :=
  match fuel with
  | O => OutOfFuel
  | S fuel' =>
      let* (retval, b, os) := KeyFile.read sys fuel kf offset KEY_PAGE_HDR_SIZE os in
      if negb (retval =? E_ok) then
        Val (if retval =? E_eof_detected then E_ok else retval, kf, ht, os)
      else
        let kp := dec_key_page KEY_PAGE_HDR_SIZE b in
        let* (kf, ht, os) :=
          if IsKeyPageDeleted (Some kp) || (kp_vcount kp <=? 0) then
            let* (_, kf, os) := KeyFile.freePage sys kf offset os in Val (kf, ht, os)
          else if kp_poff kp =? -1 then
            let* o := HashTable.getOffset ht (kp_hash kp) in
            if o =? -1 then
              let* ht := HashTable.setOffset ht (kp_hash kp) offset in Val (kf, ht, os)
            else Val (kf, ht, os)
          else Val (kf, ht, os) in
        pages_loop fuel' kpSize (offset + kpSize) kf ht os
  end.

Definition populateHashTable (fuel : nat) (kpSize : Z) (kf : KeyFile) (ht : list hash_entry) (os : OS)
  : outcome (Z * KeyFile * list hash_entry * OS) :=
  let kf := KeyFile.with_mgr kf (fdp_new kpSize None) in
  let '(size, _, os) := File.size sys (kf_file kf) os in
  let* (retval, kf, os) := KeyFile.freePage sys kf size os in
  if retval =? E_ok then pages_loop fuel kpSize 0 kf ht os else Val (retval, kf, ht, os).

(** The loop of [populateFreePages]. *)
Fixpoint values_loop (fuel : nat) (vf : ValueFile) (m : fdpmgr) (offset : Z) (os : OS)
  : outcome (Z * fdpmgr * OS) :=
  match fuel with
  | O => OutOfFuel
  | S fuel' =>
      let* (retval, b, os) := ValueFile.readFlags sys fuel vf offset os in
      if negb (retval =? E_ok) then Val (if retval =? E_eof_detected then E_ok else retval, m, os)
      else
        let* (retval, m, os) :=
          if Z.land (sle b) VPAGE_DELETED =? VPAGE_DELETED then FdpMgr.free sys m offset os else Val (retval, m, os) in
        if retval =? E_ok then values_loop fuel' vf m (offset + sizeof_value_page_t) os else Val (retval, m, os)
  end.

Definition populateFreePages (fuel : nat) (vf : ValueFile) (fname : bytes) (os : OS) : outcome (Z * ValueFile * OS) :=
  let oflags := {| o_read := true; o_write := true; o_append := false; o_create := true;
                   o_truncate := false; o_excl := false; o_sync := false |} in
  let '(retval, _, file, os) := File.open sys (file_init fname 18) oflags 384 os in
  if negb (retval =? E_ok) then Val (retval, vf, os)
  else
    let* (retval, m, os) := FdpMgr.init sys fuel fuel (fdp_new sizeof_value_page_t (Some file)) os in
    let* (retval, vfsize, m, os) :=
      if negb (retval =? E_ok) then
        let '(retval, m, os) := FdpMgr.reset sys m os in
        if negb (retval =? E_ok) then Val (retval, -1, m, os)
        else
          let '(vfsize, _, os) := File.size sys (vf_file vf) os in
          let* (retval, m, os) := FdpMgr.free sys m vfsize os in
          let* (retval, m, os) := if retval =? E_ok then values_loop fuel vf m 0 os else Val (retval, m, os) in
          Val (retval, vfsize, m, os)
      else Val (retval, -1, m, os) in
    if retval =? E_ok then
      let* (m, os) :=
        if FdpMgr.size m =? 0 then
          let os := if vfsize =? -1 then let '(_, _, os) := File.size sys (vf_file vf) os in os else os in
          let* (_, m, os) := FdpMgr.free sys m vfsize os in Val (m, os)
        else Val (m, os) in
      Val (retval, ValueFile.with_mgr vf m, os)
    else Val (retval, vf, os).

(** The part of [open] on the attributes: those of the file, or those of the
    object when the file is empty.  The object of the file goes out of scope
    when [open] returns; its destructor has work only when [close] failed. *)
Definition attributes (fuel : nat) (attrPath : bytes) (r : rdb) (os : OS) : outcome (Z * dbattr * OS) :=
  let a := {| af_file := file_init attrPath 18; af_attr := {| a_kpsize := 0; a_htsize := 0 |} |} in
  let '(retval, a, os) := AttrFile.open sys a os in
  if negb (retval =? E_ok) then Val (retval, af_attr a, destroy (af_file a) os)
  else
    let* (retval, a, os) := AttrFile.read sys fuel a os in
    let '(retval, a, os) :=
      if (negb (retval =? E_ok)) && (retval =? E_eof_detected) then
        let a := AttrFile.setHashTableSize (AttrFile.setKeyPageSize a (r_kpSize r)) (r_htSize r) in
        let '(retval, os) := AttrFile.write sys a os in (retval, a, os)
      else (retval, a, os) in
    let '(_, _, f, os) := File.close sys (af_file a) os in
    Val (retval, af_attr a, destroy f os).

(** No state is given when the database is open already, or the code is not
    [E_ok]. *)
Definition open (fuel : nat) (m : machine) (r : rdb) (os : OS) : outcome (Z * rdb * option (db OS) * OS) :=
  if r_opened r then Val (E_ok, r, None, os)
  else
  let* idxPath := file_path (m_maxpathlen m) r [46; 105; 100; 120] in
  let* dbPath := file_path (m_maxpathlen m) r [46; 100; 98] in
  let* attrPath := file_path (m_maxpathlen m) r [46; 97; 116; 116; 114] in
  let* fdpPath := file_path (m_maxpathlen m) r [46; 102; 100; 112] in
  let* (retval, a, os) := attributes fuel attrPath r os in
  if negb (retval =? E_ok) then Val (retval, r, None, os)
  else
    let r := with_sizes r (a_kpsize a) (a_htsize a) in
    let '(retval, kf, os) := KeyFile.open sys {| kf_file := file_init idxPath 18; kf_mgr := None |} (o_syncidx (r_options r)) os in
    if negb (retval =? E_ok) then Val (retval, r, None, destroy_key kf os)
    else
      let '(retval, vf, os) := ValueFile.open sys {| vf_file := file_init dbPath 18; vf_mgr := None |} (o_syncdata (r_options r)) os in
      if negb (retval =? E_ok) then Val (retval, r, None, destroy_key kf (destroy_value vf os))
      else
        let ht := HashTable.allocate (r_htSize r) in
        let* pm := PageMgr.new fuel (m_malloc m) (m_memory m) (r_kpSize r) (o_memusage (r_options r)) in
        let cache := LRUCache.new pm (r_kpSize r) in
        let* (retval, kf, ht, os) := populateHashTable fuel (r_kpSize r) kf ht os in
        let* (retval, vf, os) := if retval =? E_ok then populateFreePages fuel vf fdpPath os else Val (retval, vf, os) in
        if negb (retval =? E_ok) then Val (retval, r, None, destroy_key kf (destroy_value vf os))
        else Val (retval, with_opened r true, Some (mkDb (r_kpSize r) (r_htSize r) ht kf vf cache heap_init 0 os), os).

(** [close] of an open database: its code, and the database if it is still
    open. *)
Definition close (r : rdb) (d : db OS) : Z * rdb * option (db OS) * OS :=
  if 0 <? d_opCount d then (E_try_again, r, Some d, d_os d)
  else (E_ok, with_opened r false, None, destroy_key (d_kf d) (destroy_value (d_vf d) (d_os d))).
End rdb.
End RdbOpen.
