(* ===== verification/PageStore.v ===== *)
(** * Key pages in their file

    [page_is] is the contract of [KeyPage] for a page that is also written to
    the disk: its fields fit the structure [key_page_t], its links and its hash
    are given.  [put] and [remove] keep it. *)
From S2P Require Import Prelude DbStruct KeyRec AvlTree KeyRecRepr KeyRecOps KeyPage Bytes DbFiles Store.
Import KeyRecords.

Record page_is (kpSize hash prev next : Z) (kp : key_page) (M : gmap bytes Z) : Prop := {
  pi_fits : kp_ok kpSize kp;
  pi_holds : holds kp M;
  pi_flags : kp_flags kp = 0;
  pi_hash : kp_hash kp = hash;
  pi_poff : kp_poff kp = prev;
  pi_noff : kp_noff kp = next }.

(** ** The records of a tree fit *)
Lemma fits_small n m z : (1 <= m <= n)%nat -> fits m z -> fits n z.
Proof.
  intros Hm. unfold fits. assert (2 ^ (8 * Z.of_nat m - 1) <= 2 ^ (8 * Z.of_nat n - 1)) by (apply Z.pow_le_mono_r; lia). lia.
Qed.

Lemma fits_char z : -128 <= z <= 127 -> fits 1 z.
Proof. unfold fits. simpl. lia. Qed.
Lemma fits_char2 z : -128 <= z <= 127 -> fits 2 z.
Proof. intros H. apply (fits_small 2 1); [lia|by apply fits_char]. Qed.

Lemma repr_voff_fits ks x t : repr ks x t -> Forall kr_fits ks -> Forall (fun e => fits 8 e.2) (elems t).
Proof.
  intros Hr Hf. revert x Hr. induction t as [|l IHl i k v r IHr]; intros x Hr; simpl; [constructor|].
  destruct Hr as (-> & rec & Hg & (_ & _ & _ & _ & Hv) & _ & Hl & Hr). apply Forall_app. split; [by eapply IHl|].
  constructor; [|by eapply IHr]. simpl. subst v. rewrite Forall_lookup in Hf. unfold zget in Hg. case_decide; [|done].
  by apply (krf_voff _ (Hf _ _ Hg)).
Qed.

Lemma root_range ks x t : repr ks x t -> zlen ks <= 127 -> -1 <= x <= 127.
Proof. intros Hr Hl. destruct t; simpl in Hr; [lia|]. destruct Hr as (-> & rec & Hg & _). apply zget_Some in Hg. lia. Qed.

Lemma repr_rec_fits ks x t j r : repr ks x t -> zlen ks <= 127 -> tsize t <= 127 ->
  Forall (fun e => fits 8 e.2) (elems t) -> j ∈ indices t -> zget ks j = Some r -> kr_fits r.
Proof.
  intros Hr Hl. revert x Hr. induction t as [|lt IHl i k v rt IHr]; intros x Hr Hs Hv Hj Hg; simpl in *; [by apply elem_of_nil in Hj|].
  destruct Hr as (-> & rec & Hgi & (Hfl & Hkl & Hlen & Hk & Hvo) & Hh & Hlr & Hrr).
  apply Forall_app in Hv as [Hvl [Hv Hvr]%Forall_cons]. pose proof (th_bounds lt). pose proof (th_bounds rt).
  apply elem_of_app in Hj as [Hj|[->|Hj]%elem_of_cons]; [by apply (IHl (kr_left rec)); [|lia|..]| |by apply (IHr (kr_right rec)); [|lia|..]].
  rewrite Hgi in Hg. injection Hg as <-. pose proof (root_range _ _ _ Hlr Hl). pose proof (root_range _ _ _ Hrr Hl).
  unfold zlen, MAX_KEY_LENGTH in Hlen. pose proof (f_equal length Hk) as Hk'. rewrite length_take in Hk'.
  split; [apply fits_char; rewrite Hfl; unfold KEY_INUSE; lia|apply fits_char; rewrite Hh; simpl; lia|by apply fits_char2; lia..| |lia|by rewrite Hvo].
  apply fits_char2. rewrite Hkl. unfold zlen. lia.
Qed.

Lemma init_rec_fits : kr_fits InitKeyRecord.
Proof. split; simpl; first [fits_tac|reflexivity]. Qed.
Lemma zero_rec_fits : kr_fits zero_key_rec.
Proof. split; simpl; first [fits_tac|reflexivity]. Qed.

(** ** After an operation *)

(** The page [kp'] represents [t'] and differs from [kp] in records of [t'] and
    in free ones. *)
Lemma page_is_after kpSize hash prev next kp M kp' t' dv :
  page_is kpSize hash prev next kp M -> page_wf kp' t' -> Forall (fun e => fits 8 e.2) (elems t') ->
  kp_flags kp' = kp_flags kp -> kp_hash kp' = kp_hash kp -> kp_poff kp' = kp_poff kp -> kp_noff kp' = kp_noff kp ->
  kp_vcount kp' = kp_vcount kp + dv ->
  zlen (kp_keys kp') = zlen (kp_keys kp) ->
  (forall j, j ∉ indices t' -> zget (kp_keys kp') j = Some InitKeyRecord \/ zget (kp_keys kp') j = zget (kp_keys kp) j) ->
  page_is kpSize hash prev next kp' (al_map (elems t')).
Proof.
  intros [Hf Hh Hfl Hha Hp Hn] Hwf Hv Efl Eha Ep En Evc Ezl Hfr. split; try congruence; [|by exists t'].
  pose proof Hwf as [Hr Hnd Ho Hks Hl Hvc Hfree]. pose proof (wf_size_slots _ _ Hwf) as Hsz. pose proof (th_bounds t').
  destruct Hf. split; try congruence.
  - apply fits_char2. lia.
  - apply fits_char2. pose proof (root_range _ _ _ Hr Hl). lia.
  - unfold zlen in *. lia.
  - apply Forall_lookup. intros j r Hj. pose proof (lookup_lt_Some _ _ _ Hj) as Hlt.
    assert (zget (kp_keys kp') (Z.of_nat j) = Some r) as Hg by (unfold zget; rewrite decide_True by lia; by rewrite Nat2Z.id).
    destruct (decide (Z.of_nat j ∈ indices t')) as [Hin|Hin]; [eapply repr_rec_fits; try done; lia|].
    destruct (Hfr _ Hin) as [E|E]; rewrite E in Hg; [injection Hg as <-; apply init_rec_fits|].
    rewrite Forall_lookup in kpf_keys. unfold zget in Hg. case_decide; [|done]. by eapply kpf_keys.
Qed.

Lemma page_wf_voff kpSize kp t : kp_ok kpSize kp -> page_wf kp t -> Forall (fun e => fits 8 e.2) (elems t).
Proof. intros [] []. by eapply repr_voff_fits. Qed.

Lemma al_insert_fits k v l : fits 8 v -> Forall (fun e : bytes * Z => fits 8 e.2) l -> Forall (fun e => fits 8 e.2) (al_insert k v l).
Proof.
  intros Hv Hl. induction Hl as [|[k' v'] l H1 Hl IH]; cbn [al_insert]; [by constructor|].
  repeat case_match; repeat apply Forall_cons_2; auto.
Qed.

Lemma put_slot_index k v slot t i : t_put_slot k slot t = Some i -> i ∈ indices (t_put k v slot t).
Proof.
  rewrite indices_put, elem_of_app. induction t as [|l IHl j k' v' r IHr]; simpl; [intros ->; simpl; set_solver|].
  rewrite elem_of_app, elem_of_cons. repeat case_match; naive_solver.
Qed.

(** [put] on a page with a free record. *)
Lemma page_put kpSize hash prev next kp M ki k : page_is kpSize hash prev next kp M -> key_is ki k -> fits 8 (ki_voff ki) ->
  kp_vcount kp < NUM_OF_KEYS_IN_PAGE kpSize ->
  exists idx kp', put kp ki = Val (idx, kp') /\ 0 <= idx /\ page_is kpSize hash prev next kp' (<[k := ki_voff ki]> M) /\
    exists r, kp_at kp' idx = Val r.
Proof.
  intros Hpi Hk Hv Hroom. pose proof Hpi as [Hf (t & Hwf & <-) _ _ _ _]. pose proof Hk as [Hki Hk'].
  assert (has_room kp) as Hrm by (unfold has_room, zlen; rewrite (kpf_len _ _ Hf); lia).
  destruct (wf_free_slot _ _ Hwf Hrm) as [s Hs]. pose proof (wf_size_slots _ _ Hwf) as Hsz.
  destruct (put_wf kp t ki k Hwf Hk) as (kp' & E & Hr' & Hwf' & _). rewrite Hs in *. specialize (Hwf' ltac:(eauto)).
  pose proof (put_slot_nonneg kp t k Hwf ltac:(rewrite Hs; eauto)) as Hidx. rewrite Hs in Hidx.
  pose proof Hwf as [Hr Hnd Ho Hks Hl Hvc Hfree]. pose proof (th_bounds t).
  destruct (put_rec_ok ki k Hki (page_fuel kp) t kp (kp_root kp) (-1) Hl ltac:(lia) Hr Hnd (wf_fuel _ _ Hwf))
    as (root' & kp1 & E1 & _ & (Hm1 & Hm2 & Hm3 & Hm4 & Hm5) & Hvc1 & Hz1 & Hfr1).
  pose proof E as E'. unfold put in E'. rewrite E1 in E'. simpl in E'. rewrite Hs in *. injection E' as E'. subst kp'.
  eexists _, _. split; [exact E|]. split; [exact Hidx|]. split.
  - rewrite <- al_insert_map by done. rewrite <- (elems_put k (ki_voff ki) (Some s) t) by eauto.
    eapply page_is_after; try done; simpl; try done.
    + rewrite elems_put by eauto. apply al_insert_fits; [done|]. by eapply page_wf_voff.
    + intros j Hj. right. by apply Hfr1.
  - assert (default (-1) (t_put_slot k (Some s) t) ∈ indices (t_put k (ki_voff ki) (Some s) t)) as Hin.
    { destruct (t_put_slot k (Some s) t) eqn:Es; simpl in *; [by apply put_slot_index|lia]. }
    pose proof (wf_repr _ _ Hwf') as Hrp. apply (repr_range _ _ _) in Hrp. rewrite Forall_forall in Hrp. specialize (Hrp _ Hin).
    unfold kp_at. destruct (zget_is_Some _ _ Hrp) as [r ->]. by exists r.
Qed.

(** [remove]; the slot it reports. *)
Lemma page_remove kpSize hash prev next kp M ki k : page_is kpSize hash prev next kp M -> key_is ki k ->
  exists idx kp', remove kp ki = Val (idx, kp') /\ (0 <= idx <-> is_Some (M !! k)) /\
    page_is kpSize hash prev next kp' (delete k M).
Proof.
  intros Hpi Hk. pose proof Hpi as [Hf (t & Hwf & <-) _ _ _ _]. pose proof Hk as [Hki Hk'].
  destruct (remove_wf kp t ki k Hwf Hk) as (kp' & E & Hwf'). pose proof Hwf as [Hr Hnd Ho Hks Hl Hvc Hfree].
  pose proof (wf_size_slots _ _ Hwf) as Hsz. pose proof (th_bounds t).
  destruct (remove_rec_ok ki k Hki (page_fuel kp) t kp (kp_root kp) (-1) Hl ltac:(lia) Hr Hnd (wf_fuel _ _ Hwf))
    as (root' & kp1 & E1 & Hr1 & Hfd & (Hm1 & Hm2 & Hm3 & Hm4 & Hm5) & Hvc1 & Hz1 & Hfr1).
  pose proof E as E'. unfold remove in E'. rewrite E1 in E'. simpl in E'. injection E' as E'. subst kp'.
  eexists _, _. split; [exact E|]. split.
  - rewrite <- (wf_find _ _ Hwf), fmap_is_Some by done. rewrite <- t_remove_slot_find.
    destruct (t_remove_slot k t) as [s|] eqn:Es; simpl.
    + split; [eauto|intros _]. apply repr_range in Hr. rewrite Forall_forall in Hr.
      apply Hr. rewrite <- (indices_remove k t), Es. simpl. apply list_elem_of_here.
    + split; [lia|by intros [? ?]].
  - rewrite <- al_remove_map by done. rewrite <- (elems_remove k t) by done.
    eapply page_is_after; try done; simpl; try done.
    + rewrite elems_remove by done. apply al_remove_Forall. by eapply page_wf_voff.
    + intros j Hj. destruct (decide (j ∈ indices t)) as [Hin|Hin]; [left|right; by apply Hfr1].
      rewrite <- (indices_remove k t), elem_of_app in Hin. destruct Hin as [Hin|Hin]; [|done].
      destruct (t_remove_slot k t) as [s|] eqn:Es; simpl in Hin; [|by apply elem_of_nil in Hin].
      apply list_elem_of_singleton in Hin as ->. by apply Hfd.
Qed.

Lemma page_get kpSize hash prev next kp M ki k : page_is kpSize hash prev next kp M -> key_is ki k ->
  match M !! k with
  | None => get kp ki = Val (-1)
  | Some v => exists idx r, get kp ki = Val idx /\ 0 <= idx /\ kp_at kp idx = Val r /\ kr_voff r = v
  end.
Proof.
  intros [_ (t & Hwf & <-) _ _ _ _] Hk. pose proof Hk as [_ Hk'].
  rewrite (get_wf kp t ki k Hwf Hk). rewrite <- (wf_find _ _ Hwf) by done.
  destruct (t_find k t) as [[i v]|] eqn:Hf; simpl; [|done].
  destruct (t_find_record k kp (kp_root kp) t i v) as (r & Hr & Hv); [apply Hwf|done|].
  exists i, r. pose proof (zget_Some _ _ _ Hr). unfold kp_at. rewrite Hr. split_and!; (done || lia).
Qed.

Lemma page_vcount kpSize hash prev next kp M : page_is kpSize hash prev next kp M -> kp_vcount kp = Z.of_nat (size M).
Proof. intros []. by apply holds_vcount. Qed.

Lemma page_slots kpSize hash prev next kp M : page_is kpSize hash prev next kp M -> zlen (kp_keys kp) <= 127.
Proof. intros [_ (t & [] & _) _ _ _ _]. done. Qed.

(** The page [addNewPage] starts with. *)
Lemma page_init kpSize hash prev : page_size kpSize -> kpSize <= 8192 -> fits 4 hash -> fits 8 prev ->
  page_is kpSize hash prev (-1)
    {| kp_flags := 0; kp_vcount := 0; kp_root := -1; kp_hash := hash; kp_poff := prev; kp_noff := -1;
       kp_keys := kp_keys (InitKeyPage kpSize) |} ∅.
Proof.
  intros [Hs _] Hm Hh Hp. destruct (init_holds kpSize) as (t & [] & He); [unfold MIN_KEY_PAGE_SIZE, KEY_PAGE_HDR_SIZE in *; lia|].
  assert (page_wf {| kp_flags := 0; kp_vcount := 0; kp_root := -1; kp_hash := hash; kp_poff := prev; kp_noff := -1;
       kp_keys := kp_keys (InitKeyPage kpSize) |} t) as Hwf by (by split).
  split; [|by exists t|reflexivity..]. split; cbn [kp_flags kp_vcount kp_root kp_hash kp_poff kp_noff kp_keys].
  1-3: fits_tac. 3: fits_tac. 1-2: assumption. { unfold InitKeyPage. cbn [kp_keys]. apply length_replicate. }
  apply Forall_replicate, zero_rec_fits.
Qed.

(** Its bytes. *)
Lemma page_bytes kpSize hash prev next kp M : page_is kpSize hash prev next kp M -> dec_key_page kpSize (enc_key_page kp) = kp.
Proof. intros [Hf _ _ _ _ _]. by apply key_page_roundtrip. Qed.

(** Its links. *)
Lemma page_with_noff kpSize hash prev next x kp M : page_is kpSize hash prev next kp M -> fits 8 x -> page_is kpSize hash prev x (kp_with_noff kp x) M.
Proof. intros [[] (t & [] & <-) ? ? ? ?] Hx. split; try done. exists t. split; [by split|done]. Qed.
Lemma page_with_poff kpSize hash prev next x kp M : page_is kpSize hash prev next kp M -> fits 8 x -> page_is kpSize hash x next (kp_with_poff kp x) M.
Proof. intros [[] (t & [] & <-) ? ? ? ?] Hx. split; try done. exists t. split; [by split|done]. Qed.

(** In a page with one key, [remove] reports the slot that [get] reports. *)
Lemma single_slot kpSize hash prev next kp M ki k i j kp' : page_is kpSize hash prev next kp M -> key_is ki k -> size M = 1%nat ->
  get kp ki = Val i -> remove kp ki = Val (j, kp') -> i = j.
Proof.
  intros Hp Hk HM Hg Hr. pose proof (page_vcount _ _ _ _ _ _ Hp) as Hvc. destruct Hp as [_ (t & Hwf & _) _ _ _ _].
  rewrite (get_wf kp t ki k Hwf Hk) in Hg. destruct (remove_wf kp t ki k Hwf Hk) as (kp2 & E & _). rewrite Hr in E. injection E as -> _. injection Hg as <-.
  rewrite (wf_vcount _ _ Hwf), HM in Hvc. destruct t as [|l x k' v r]; [done|]. simpl in Hvc.
  pose proof (th_bounds l). pose proof (th_bounds r). assert (tsize l = 0 /\ tsize r = 0) as [H1 H2] by lia.
  destruct l; [|simpl in H1; pose proof (th_bounds l1); pose proof (th_bounds l2); lia].
  destruct r; [|simpl in H2; pose proof (th_bounds r1); pose proof (th_bounds r2); lia].
  simpl. by repeat case_match.
Qed.
