(* ===== verification/RdbFiles.v ===== *)
(** * The two files of a database

    The key file and the value file together, on a disk without faults: each
    method of [KeyFile] and [ValueFile] that [Rdb] calls succeeds and is an
    operation on the map of the stored pages of its file. *)
From S2P Require Import Prelude Bytes DbStruct File FileLaws FdpMgr DbFiles Disk Store.

Section files.
Context {OS : Type} (sys : syscalls OS) (D : gset Z) `{Rel : !Reliable sys D} (kpSize : Z) (Hps : page_size kpSize).

(** The pages [kd] and [vd] are stored; [n] more pages of each kind can be
    taken before an offset overflows. *)
Definition files_ok (kf : KeyFile) (vf : ValueFile) (os : OS) (kd : gmap Z key_page) (vd : gmap Z value_page) (n : Z) : Prop :=
  fs_ok os /\ exists mk fk mv fv, kf_mgr kf = Some mk /\ fdp_file mk = None /\ vf_mgr vf = Some mv /\
    pages_stored sys D enc_key_page (kp_ok kpSize) kpSize (kf_file kf) mk os kd fk /\
    pages_stored sys D enc_value_page vp_fits sizeof_value_page_t (vf_file vf) mv os vd fv /\
    (fd (kf_file kf) ∉ uses (vf_file vf) mv) /\ fk + n * kpSize < 2 ^ 63 /\ fv + n * sizeof_value_page_t < 2 ^ 63.

Local Instance lay : Layout enc_key_page (kp_ok kpSize) kpSize := key_layout kpSize Hps.
Implicit Types (kf : KeyFile) (vf : ValueFile).

Lemma page_pos : 0 < kpSize.
Proof. destruct Hps as [H _]. unfold MIN_KEY_PAGE_SIZE in H. lia. Qed.

Lemma files_weaken kf vf os kd vd n n' : files_ok kf vf os kd vd n -> n' <= n -> files_ok kf vf os kd vd n'.
Proof.
  intros (Hok & mk & fk & mv & fv & ? & ? & ? & ? & ? & ? & Hk & Hv) Hn. split; [done|]. exists mk, fk, mv, fv.
  pose proof page_pos. unfold sizeof_value_page_t in *. split_and!; try done; nia.
Qed.

Lemma uses_in f m {A} (enc : A -> bytes) fits ps os d fr : pages_stored sys D enc fits ps f m os d fr -> uses f m ⊆ D.
Proof.
  intros [Hf _ _ Hm _ _] x. unfold uses, mgr_file in *. rewrite elem_of_union, elem_of_singleton. intros [->|Hx]; [done|].
  destruct (fdp_file m); [|set_solver]. apply elem_of_singleton in Hx as ->. by destruct Hm.
Qed.

Lemma uses_key f m : fdp_file m = None -> uses f m = {[fd f]}.
Proof. unfold uses. intros ->. set_solver. Qed.

(** A change of the key file leaves the value file alone, and vice versa. *)
Lemma value_frame f m os os' vd fv (k : Z) : pages_stored sys D enc_value_page vp_fits sizeof_value_page_t f m os vd fv ->
  k ∉ uses f m -> (forall e, e ∈ D -> e <> k -> fs_data os' e = fs_data os e /\ fs_pos os' e = fs_pos os e) ->
  pages_stored sys D enc_value_page vp_fits sizeof_value_page_t f m os' vd fv.
Proof.
  intros Hst Hk He. eapply stored_frame; [apply _|exact Hst|]. intros e Hin. apply He; [by eapply uses_in|]. by intros ->.
Qed.

Lemma key_frame f m os os' kd fk (g : file) mv : pages_stored sys D enc_key_page (kp_ok kpSize) kpSize f m os kd fk -> fdp_file m = None ->
  fd f ∉ uses g mv -> (forall e, e ∈ D -> e ∉ uses g mv -> fs_data os' e = fs_data os e /\ fs_pos os' e = fs_pos os e) ->
  pages_stored sys D enc_key_page (kp_ok kpSize) kpSize f m os' kd fk.
Proof.
  intros Hst Hm Hk He. eapply stored_frame; [apply lay|exact Hst|]. rewrite (uses_key _ _ Hm). intros e ->%elem_of_singleton.
  apply He; [|done]. eapply uses_in; [exact Hst|]. rewrite (uses_key _ _ Hm). set_solver.
Qed.

(** ** Key pages *)
Lemma files_read_key fuel kf vf os kd vd n o kp : files_ok kf vf os kd vd n -> kd !! o = Some kp -> (2 <= fuel)%nat ->
  exists os', KeyFile.read sys fuel kf o kpSize os = Val (E_ok, enc_key_page kp, os') /\ files_ok kf vf os' kd vd n.
Proof.
  intros (Hok & mk & fk & mv & fv & Hmk & Hnf & Hmv & Hk & Hv & Hap & Hn1 & Hn2) Ho Hfu.
  destruct (stored_read sys D _ _ _ _ _ _ _ _ _ _ fuel Hk Hok Ho Hfu) as (os' & E & (Hok' & Hd & Hp) & Hk').
  exists os'. split; [exact E|]. split; [done|]. exists mk, fk, mv, fv. split_and!; try done.
  eapply value_frame; [exact Hv|exact Hap|]. intros e He Hne. split; [by apply Hd|by apply Hp].
Qed.

(** Bytes are written inside a page. *)
Lemma files_patch kf vf os kd vd n o kp kp' a x y c : files_ok kf vf os kd vd n -> kd !! o = Some kp ->
  enc_key_page kp = a ++ x ++ c -> enc_key_page kp' = a ++ y ++ c -> length y = length x -> y <> [] -> kp_ok kpSize kp' ->
  exists os', KeyFile.write sys kf (o + zlen a) y os = (E_ok, os') /\ files_ok kf vf os' (<[o := kp']> kd) vd n.
Proof.
  intros (Hok & mk & fk & mv & fv & Hmk & Hnf & Hmv & Hk & Hv & Hap & Hn1 & Hn2) Ho Hx Hy Hl Hne Hfit.
  destruct (stored_off _ _ _ _ _ _ _ _ _ _ _ _ Hk Ho) as [Ho0 _]. pose proof (zlen_nonneg a).
  destruct (rel_WriteFile sys D (kf_file kf) (o + zlen a) y os (st_fd _ _ _ _ _ _ _ _ _ _ Hk) Hok ltac:(lia) Hne) as (os' & E & Hc).
  exists os'. split; [exact E|]. pose proof Hc as (Hok' & _ & Hfr). split; [done|]. exists mk, fk, mv, fv. split_and!; try done.
  - eapply stored_patch; [apply lay|exact Hk|exact Ho|exact Hx|exact Hy|done|done|done|done].
  - by eapply value_frame.
Qed.

Lemma files_write_key kf vf os kd vd n o kp kp' : files_ok kf vf os kd vd n -> kd !! o = Some kp -> kp_ok kpSize kp' ->
  exists os', KeyFile.write sys kf o (enc_key_page kp') os = (E_ok, os') /\ files_ok kf vf os' (<[o := kp']> kd) vd n.
Proof.
  intros Hfo Ho Hfit. pose proof Hfo as (_ & mk & fk & mv & fv & _ & _ & _ & Hk & _).
  destruct (st_at _ _ _ _ _ _ _ _ _ _ Hk _ _ Ho) as [Hfit0 _].
  destruct (files_patch kf vf os kd vd n o kp kp' [] (enc_key_page kp) (enc_key_page kp') [] Hfo Ho) as (os' & E & H).
  - by rewrite app_nil_r.
  - by rewrite app_nil_r.
  - pose proof (lay_len kp Hfit0) as E1. pose proof (lay_len kp' Hfit) as E2. unfold zlen in *. lia.
  - apply enc_key_page_ne.
  - done.
  - exists os'. change (zlen []) with 0 in E. by rewrite Z.add_0_r in E.
Qed.

Lemma files_next kf vf os kd vd n o kp mem x : files_ok kf vf os kd vd n -> kd !! o = Some kp -> fits 8 x ->
  exists os', KeyFile.writeNextOffset sys kf o (Some mem) x os = (E_ok, Some (kp_with_noff mem x), os') /\
    files_ok kf vf os' (<[o := kp_with_noff kp x]> kd) vd n.
Proof.
  intros Hfo Ho Hx. pose proof Hfo as (_ & mk & fk & mv & fv & _ & _ & _ & Hk & _).
  destruct (st_at _ _ _ _ _ _ _ _ _ _ Hk _ _ Ho) as [[] _].
  destruct (files_patch kf vf os kd vd n o kp (kp_with_noff kp x) (le 2 (kp_flags kp) ++ le 2 (kp_vcount kp) ++ enc_kp_head kp ++ le 8 (kp_poff kp))
      (le 8 (kp_noff kp)) (le 8 x) (replicate 32 0 ++ (kp_keys kp ≫= enc_key_rec)) Hfo Ho) as (os' & E & H).
  - by rewrite <- !app_assoc.
  - by rewrite <- !app_assoc.
  - by rewrite !length_le.
  - done.
  - by split.
  - exists os'. split; [|done]. unfold KeyFile.writeNextOffset. change (o + offsetof_kp_noff) with (o + 24).
    change (zlen _) with 24 in E. by rewrite E.
Qed.

Lemma files_prev kf vf os kd vd n o kp mem x : files_ok kf vf os kd vd n -> kd !! o = Some kp -> fits 8 x ->
  exists os', KeyFile.writePrevOffset sys kf o (Some mem) x os = (E_ok, Some (kp_with_poff mem x), os') /\
    files_ok kf vf os' (<[o := kp_with_poff kp x]> kd) vd n.
Proof.
  intros Hfo Ho Hx. pose proof Hfo as (_ & mk & fk & mv & fv & _ & _ & _ & Hk & _).
  destruct (st_at _ _ _ _ _ _ _ _ _ _ Hk _ _ Ho) as [[] _].
  destruct (files_patch kf vf os kd vd n o kp (kp_with_poff kp x) (le 2 (kp_flags kp) ++ le 2 (kp_vcount kp) ++ enc_kp_head kp)
      (le 8 (kp_poff kp)) (le 8 x) (le 8 (kp_noff kp) ++ replicate 32 0 ++ (kp_keys kp ≫= enc_key_rec)) Hfo Ho) as (os' & E & H).
  - by rewrite <- !app_assoc.
  - by rewrite <- !app_assoc.
  - by rewrite !length_le.
  - done.
  - by split.
  - exists os'. split; [|done]. unfold KeyFile.writePrevOffset. change (o + offsetof_kp_poff) with (o + 16).
    change (zlen _) with 16 in E. by rewrite E.
Qed.

(** The flag of a deleted page; the count on the disk becomes zero. *)
Lemma files_delete_flag kf vf os kd vd n o kp mem : files_ok kf vf os kd vd n -> kd !! o = Some kp ->
  exists os', KeyFile.writeFlags sys kf o (Some mem) KPAGE_DELETED os = (E_ok, Some (kp_with_flags mem KPAGE_DELETED), os') /\
    files_ok kf vf os' (<[o := kp_with_vcount (kp_with_flags kp KPAGE_DELETED) 0]> kd) vd n.
Proof.
  intros Hfo Ho. pose proof Hfo as (_ & mk & fk & mv & fv & _ & _ & _ & Hk & _).
  destruct (st_at _ _ _ _ _ _ _ _ _ _ Hk _ _ Ho) as [[] _].
  destruct (files_patch kf vf os kd vd n o kp (kp_with_vcount (kp_with_flags kp KPAGE_DELETED) 0) []
      (le 2 (kp_flags kp) ++ le 2 (kp_vcount kp)) (le 4 KPAGE_DELETED)
      (enc_kp_head kp ++ le 8 (kp_poff kp) ++ le 8 (kp_noff kp) ++ replicate 32 0 ++ (kp_keys kp ≫= enc_key_rec)) Hfo Ho) as (os' & E & H).
  - by rewrite app_nil_l, <- app_assoc.
  - done.
  - by rewrite length_app, !length_le.
  - done.
  - split; try done; simpl; fits_tac.
  - exists os'. split; [|done]. unfold KeyFile.writeFlags. change (o + offsetof_kp_flags) with (o + 0).
    change (zlen []) with 0 in E. by rewrite E.
Qed.

Lemma files_new_key kf vf os kd vd n kp : files_ok kf vf os kd vd n -> kp_ok kpSize kp -> 0 < n ->
  exists o kf' os', KeyFile.write_new sys kf (enc_key_page kp) os = Val (E_ok, Some o, kf', os') /\ 0 <= o /\ kd !! o = None /\
    kf_file kf' = kf_file kf /\ files_ok kf' vf os' (<[o := kp]> kd) vd (n - 1).
Proof.
  intros (Hok & mk & fk & mv & fv & Hmk & Hnf & Hmv & Hk & Hv & Hap & Hn1 & Hn2) Hfit Hn. pose proof page_pos.
  destruct (stored_new sys D _ _ _ _ _ _ _ _ kp Hk Hok Hfit ltac:(nia))
    as (o & m' & os1 & os' & fr' & Eg & Ho & Hfresh & Ew & Hok' & Hfr' & Hf' & He & Hk').
  exists o, (KeyFile.with_mgr kf m'), os'. split_and!; try done.
  - unfold KeyFile.write_new. rewrite Hmk. cbn [deref obind]. rewrite Eg. cbn [obind]. rewrite (proj2 (Z.ltb_ge o 0)) by done.
    unfold KeyFile.write. by rewrite Ew.
  - split; [done|]. exists m', fr', mv, fv. unfold sizeof_value_page_t in *. split_and!; try done; try congruence; try lia; try nia.
    eapply value_frame; [exact Hv|exact Hap|]. intros e Hin Hne. apply He; [done|]. rewrite (uses_key _ _ Hnf). set_solver.
Qed.

Lemma files_free_key kf vf os kd vd n o kp : files_ok kf vf os kd vd n -> kd !! o = Some kp ->
  exists kf' os', KeyFile.freePage sys kf o os = Val (E_ok, kf', os') /\ kf_file kf' = kf_file kf /\
    files_ok kf' vf os' (delete o kd) vd n.
Proof.
  intros (Hok & mk & fk & mv & fv & Hmk & Hnf & Hmv & Hk & Hv & Hap & Hn1 & Hn2) Ho.
  destruct (stored_free sys D _ _ _ _ _ _ _ _ o kp Hk Hok Ho) as (m' & os' & E & Hok' & Hf' & He & Hk').
  exists (KeyFile.with_mgr kf m'), os'. split_and!; try done.
  - unfold KeyFile.freePage. by rewrite Hmk, E.
  - split; [done|]. exists m', fk, mv, fv. split_and!; try done; try congruence.
    eapply value_frame; [exact Hv|exact Hap|]. intros e Hin Hne. apply He; [done|]. rewrite (uses_key _ _ Hnf). set_solver.
Qed.

(** ** Value pages *)
Lemma files_read_value fuel kf vf os kd vd n o vp : files_ok kf vf os kd vd n -> vd !! o = Some vp -> (2 <= fuel)%nat ->
  exists os', ValueFile.read sys fuel vf o os = Val (E_ok, enc_value_page vp, os') /\ files_ok kf vf os' kd vd n.
Proof.
  intros (Hok & mk & fk & mv & fv & Hmk & Hnf & Hmv & Hk & Hv & Hap & Hn1 & Hn2) Ho Hfu.
  destruct (stored_read sys D _ _ _ _ _ _ _ _ _ _ fuel Hv Hok Ho Hfu) as (os' & E & (Hok' & Hd & Hp) & Hv').
  exists os'. split; [exact E|]. split; [done|]. exists mk, fk, mv, fv. split_and!; try done.
  eapply key_frame; [exact Hk|done|exact Hap|]. intros e He Hne. split; [by apply Hd|]. apply Hp; [done|]. intros ->. apply Hne. unfold uses. set_solver.
Qed.

Lemma files_patch_value kf vf os kd vd n o vp vp' a x y c : files_ok kf vf os kd vd n -> vd !! o = Some vp ->
  enc_value_page vp = a ++ x ++ c -> enc_value_page vp' = a ++ y ++ c -> length y = length x -> y <> [] -> vp_fits vp' ->
  exists os', WriteFile sys (vf_file vf) (o + zlen a) y os = (E_ok, os') /\ files_ok kf vf os' kd (<[o := vp']> vd) n.
Proof.
  intros (Hok & mk & fk & mv & fv & Hmk & Hnf & Hmv & Hk & Hv & Hap & Hn1 & Hn2) Ho Hx Hy Hl Hne Hfit.
  destruct (stored_off _ _ _ _ _ _ _ _ _ _ _ _ Hv Ho) as [Ho0 _]. pose proof (zlen_nonneg a).
  destruct (rel_WriteFile sys D (vf_file vf) (o + zlen a) y os (st_fd _ _ _ _ _ _ _ _ _ _ Hv) Hok ltac:(lia) Hne) as (os' & E & Hc).
  exists os'. split; [exact E|]. pose proof Hc as (Hok' & _ & Hfr). split; [done|]. exists mk, fk, mv, fv. split_and!; try done.
  - eapply key_frame; [exact Hk|done|exact Hap|]. intros e He Hn. apply Hfr; [done|]. intros ->. apply Hn. unfold uses. set_solver.
  - eapply stored_patch; [apply _|exact Hv|exact Ho|exact Hx|exact Hy|done|done|done|done].
Qed.

Lemma files_write_value kf vf os kd vd n o vp vp' : files_ok kf vf os kd vd n -> vd !! o = Some vp -> vp_fits vp' ->
  exists os', ValueFile.write sys vf o vp' os = (E_ok, os') /\ files_ok kf vf os' kd (<[o := vp']> vd) n.
Proof.
  intros Hfo Ho Hfit. pose proof Hfo as (_ & mk & fk & mv & fv & _ & _ & _ & _ & Hv & _).
  destruct (st_at _ _ _ _ _ _ _ _ _ _ Hv _ _ Ho) as [Hfit0 _].
  destruct (files_patch_value kf vf os kd vd n o vp vp' [] (enc_value_page vp) (enc_value_page vp') [] Hfo Ho) as (os' & E & H).
  - by rewrite app_nil_r.
  - by rewrite app_nil_r.
  - by rewrite !length_enc_value_page.
  - apply enc_value_page_ne.
  - done.
  - exists os'. change (zlen []) with 0 in E. by rewrite Z.add_0_r in E.
Qed.

Lemma files_delete_value kf vf os kd vd n o vp : files_ok kf vf os kd vd n -> vd !! o = Some vp ->
  exists os' vp', ValueFile.writeFlags sys vf o None VPAGE_DELETED os = (E_ok, None, os') /\ files_ok kf vf os' kd (<[o := vp']> vd) n.
Proof.
  intros Hfo Ho. pose proof Hfo as (_ & mk & fk & mv & fv & _ & _ & _ & _ & Hv & _).
  destruct (st_at _ _ _ _ _ _ _ _ _ _ Hv _ _ Ho) as [[] _].
  set (vp' := {| vp_flags := VPAGE_DELETED; vp_klen := vp_klen vp; vp_vlen := vp_vlen vp; vp_key := vp_key vp; vp_value := vp_value vp |}).
  destruct (files_patch_value kf vf os kd vd n o vp vp' [] (le 2 (vp_flags vp) ++ le 2 0) (le 4 VPAGE_DELETED)
    (le 4 0 ++ le 4 (vp_klen vp) ++ le 4 (vp_vlen vp) ++ vp_key vp ++ vp_value vp) Hfo Ho) as (os' & E & H).
  - by rewrite app_nil_l, <- app_assoc.
  - done.
  - by rewrite length_app, !length_le.
  - done.
  - split; simpl; try done.
  - exists os', vp'. split; [|done]. unfold ValueFile.writeFlags. change (o + offsetof_vp_flags) with (o + 0).
    change (zlen []) with 0 in E. by rewrite E.
Qed.

Lemma files_new_value kf vf os kd vd n vp : files_ok kf vf os kd vd n -> vp_fits vp -> 0 < n ->
  exists o vf' os', ValueFile.write_new sys vf vp os = Val (E_ok, Some o, vf', os') /\ 0 <= o /\ vd !! o = None /\
    vf_file vf' = vf_file vf /\ files_ok kf vf' os' kd (<[o := vp]> vd) (n - 1).
Proof.
  intros (Hok & mk & fk & mv & fv & Hmk & Hnf & Hmv & Hk & Hv & Hap & Hn1 & Hn2) Hfit Hn. pose proof page_pos.
  unfold sizeof_value_page_t in *.
  destruct (stored_new sys D _ _ _ _ _ _ _ _ vp Hv Hok Hfit ltac:(lia))
    as (o & m' & os1 & os' & fr' & Eg & Ho & Hfresh & Ew & Hok' & Hfr' & Hf' & He & Hv').
  exists o, (ValueFile.with_mgr vf m'), os'. split_and!; try done.
  - unfold ValueFile.write_new. rewrite Hmv. cbn [deref obind]. rewrite Eg. cbn [obind]. rewrite (proj2 (Z.ltb_ge o 0)) by done.
    unfold ValueFile.write. by rewrite Ew.
  - split; [done|]. exists mk, fk, m', fr'. unfold sizeof_value_page_t. split_and!; try done; try lia; try nia.
    + eapply key_frame; [exact Hk|done|exact Hap|exact He].
    + unfold uses in *. cbn [vf_file ValueFile.with_mgr]. by rewrite Hf'.
Qed.

Lemma files_free_value kf vf os kd vd n o vp : files_ok kf vf os kd vd n -> vd !! o = Some vp ->
  exists vf' os', ValueFile.freePage sys vf o os = Val (E_ok, vf', os') /\ vf_file vf' = vf_file vf /\
    files_ok kf vf' os' kd (delete o vd) n.
Proof.
  intros (Hok & mk & fk & mv & fv & Hmk & Hnf & Hmv & Hk & Hv & Hap & Hn1 & Hn2) Ho.
  destruct (stored_free sys D _ _ _ _ _ _ _ _ o vp Hv Hok Ho) as (m' & os' & E & Hok' & Hf' & He & Hv').
  exists (ValueFile.with_mgr vf m'), os'. split_and!; try done.
  - unfold ValueFile.freePage. by rewrite Hmv, E.
  - split; [done|]. exists mk, fk, m', fv. split_and!; try done.
    + eapply key_frame; [exact Hk|done|exact Hap|exact He].
    + unfold uses in *. cbn [vf_file ValueFile.with_mgr]. by rewrite Hf'.
Qed.

(** The offset of a stored page fits a link. *)
Lemma files_key_off kf vf os kd vd n o kp : files_ok kf vf os kd vd n -> 0 <= n -> kd !! o = Some kp -> 0 <= o /\ fits 8 o.
Proof.
  intros (Hok & mk & fk & mv & fv & Hmk & Hnf & Hmv & [_ [rel Hp] Hs _ _ _] & Hv & Hap & Hn1 & Hn2) Hn Ho. pose proof page_pos.
  destruct (po_used _ _ _ _ Hp o) as [? _]; [by apply elem_of_dom_2 in Ho|]. split; [lia|].
  unfold fits. change (8 * Z.of_nat 8 - 1) with 63. nia.
Qed.

Lemma files_value_off kf vf os kd vd n o vp : files_ok kf vf os kd vd n -> 0 <= n -> vd !! o = Some vp -> 0 <= o /\ fits 8 o.
Proof.
  intros (Hok & mk & fk & mv & fv & Hmk & Hnf & Hmv & Hk & [_ [rel Hp] Hs _ _ _] & Hap & Hn1 & Hn2) Hn Ho.
  destruct (po_used _ _ _ _ Hp o) as [? _]; [by apply elem_of_dom_2 in Ho|]. unfold sizeof_value_page_t in *. split; [lia|].
  unfold fits. change (8 * Z.of_nat 8 - 1) with 63. lia.
Qed.
End files.
