(* ===== verification/RdbInv.v ===== *)
(** * The database as buckets of pages

    The bucket of an entry of the hash table: the chain of its pages on the disk,
    linked in both directions, and the pages of a prefix of the chain in memory,
    which map the same keys. *)
From S2P Require Import Prelude Bytes DbStruct KeyRec KeyPage File FdpMgr DbFiles Disk PageMgr Cache HashTable Dll CacheFacts HashFacts Store PageStore.

(** ** Chains *)

(** A page of a bucket: its offset, what it maps keys to, and its node and its
    address when it is in memory. *)
Record pg := mkPg { g_off : Z; g_map : gmap bytes Z; g_node : option (positive * Z) }.

Definition shape (g : pg) : Z * gmap bytes Z := (g_off g, g_map g).
Definition nodes (l : list pg) : list positive := omap (fun g => fst <$> g_node g) l.
Definition missing (l : list pg) : Z := zlen (filter (fun g => g_node g = None) l).

Definition first_off (l : list pg) (nxt : Z) : Z := match l with [] => nxt | g :: _ => g_off g end.
Definition last_off (prev : Z) (l : list pg) : Z := match last l with Some g => g_off g | None => prev end.

(** Every page [g] satisfies [P prev next g]. *)
Fixpoint chain (P : Z -> Z -> pg -> Prop) (prev : Z) (l : list pg) (nxt : Z) : Prop :=
  match l with
  | [] => True
  | g :: l => P prev (first_off l nxt) g /\ chain P (g_off g) l nxt
  end.

(** The pages in memory are a prefix. *)
Fixpoint cached_prefix (l : list pg) : Prop :=
  match l with
  | [] => True
  | g :: l => match g_node g with Some _ => cached_prefix l | None => Forall (fun g => g_node g = None) l end
  end.

Lemma first_off_app l1 l2 n : first_off (l1 ++ l2) n = first_off l1 (first_off l2 n).
Proof. by destruct l1. Qed.
Lemma last_off_cons p g l : last_off p (g :: l) = last_off (g_off g) l.
Proof. unfold last_off. rewrite last_cons. by destruct (last l). Qed.
Lemma last_off_snoc p l g : last_off p (l ++ [g]) = g_off g.
Proof. unfold last_off. by rewrite last_snoc. Qed.

Lemma chain_app P p l1 l2 n : chain P p (l1 ++ l2) n <-> chain P p l1 (first_off l2 n) /\ chain P (last_off p l1) l2 n.
Proof.
  revert p. induction l1 as [|g l1 IH]; intros p; simpl; [tauto|]. rewrite IH, first_off_app, last_off_cons. tauto.
Qed.

Lemma chain_at P p l1 g l2 n : chain P p (l1 ++ g :: l2) n -> P (last_off p l1) (first_off l2 n) g.
Proof. rewrite chain_app. by intros [_ [? _]]. Qed.

Lemma chain_impl P Q p l n : chain P p l n -> (forall a b g, g ∈ l -> P a b g -> Q a b g) -> chain Q p l n.
Proof.
  revert p. induction l as [|g l IH]; intros p; [done|]. intros [Hg Hl] Hpq. split; [apply Hpq; [set_solver|done]|].
  apply IH; [done|]. intros. apply Hpq; [set_solver|done].
Qed.

(** Only offsets matter for the links. *)
Lemma first_off_shape l l' n : shape <$> l' = shape <$> l -> first_off l' n = first_off l n.
Proof. destruct l, l'; simpl; try done. by intros [= ? ?]. Qed.
Lemma last_off_shape p l l' : shape <$> l' = shape <$> l -> last_off p l' = last_off p l.
Proof.
  revert p l'. induction l as [|g l IH]; intros p [|g' l'] E; try done. simpl in E. injection E as E1 E2 E3. rewrite !last_off_cons, E1. by apply IH.
Qed.

Lemma chain_shape P Q p l l' n : chain P p l n -> shape <$> l' = shape <$> l ->
  (forall a b j g g', l !! j = Some g -> l' !! j = Some g' -> P a b g -> Q a b g') -> chain Q p l' n.
Proof.
  revert p l'. induction l as [|g l IH]; intros p [|g' l'] Hc E Hpq; try done. destruct Hc as [Hg Hl].
  simpl in E. injection E as E1 E2 E3. split.
  - rewrite (first_off_shape l l') by done. by apply (Hpq _ _ 0%nat g g').
  - rewrite E1. apply (IH _ l' Hl E3). intros a b j x x' Hx Hx'. by apply (Hpq a b (S j)).
Qed.

Lemma chain_swap P Q p l1 g g' l2 n : chain P p (l1 ++ g :: l2) n -> g_off g' = g_off g ->
  (forall a b x, x ∈ l1 ++ l2 -> P a b x -> Q a b x) -> Q (last_off p l1) (first_off l2 n) g' -> chain Q p (l1 ++ g' :: l2) n.
Proof.
  intros Hc E Hpq Hg. rewrite chain_app in *. simpl in *. rewrite E. destruct Hc as (H1 & _ & H2). split_and!; [|done|].
  - eapply chain_impl; [exact H1|]. intros. apply Hpq; [set_solver|done].
  - eapply chain_impl; [exact H2|]. intros. apply Hpq; [set_solver|done].
Qed.

(** ** Prefixes *)
Lemma nodes_app l1 l2 : nodes (l1 ++ l2) = nodes l1 ++ nodes l2.
Proof. apply omap_app. Qed.
Lemma nodes_cons g l : nodes (g :: l) = match g_node g with Some (p, _) => [p] | None => [] end ++ nodes l.
Proof. unfold nodes. simpl. by destruct (g_node g) as [[? ?]|]. Qed.
Lemma nodes_none l : Forall (fun g => g_node g = None) l -> nodes l = [].
Proof. induction 1 as [|g l Hg _ IH]; [done|]. by rewrite nodes_cons, Hg. Qed.

Lemma elem_of_nodes l p : p ∈ nodes l <-> exists g a, g ∈ l /\ g_node g = Some (p, a).
Proof.
  unfold nodes. rewrite list_elem_of_omap. split.
  - intros (g & Hg & E). destruct (g_node g) as [[q a]|] eqn:En; simplify_eq/=. eauto.
  - intros (g & a & Hg & E). exists g. split; [done|]. by rewrite E.
Qed.

Lemma cached_prefix_app l1 l2 : cached_prefix (l1 ++ l2) ->
  cached_prefix l1 /\ cached_prefix l2 /\ (nodes l2 <> [] -> Forall (fun g => is_Some (g_node g)) l1).
Proof.
  induction l1 as [|g l1 IH]; simpl; [intros H; split_and!; [done|done|by constructor]|].
  destruct (g_node g) as [x|] eqn:E.
  - intros H. destruct (IH H) as (H1 & H2 & H3). split_and!; [done|done|]. intros Hn. constructor; [rewrite E; eauto|auto].
  - intros [H1 H2]%Forall_app. split_and!; [done| |].
    + destruct l2 as [|g2 l2]; [done|]. simpl. inversion_clear H2 as [|? ? H3 H4]. by rewrite H3.
    + intros Hn. by rewrite nodes_none in Hn.
Qed.

Lemma cached_all l1 l2 : Forall (fun g => is_Some (g_node g)) l1 -> cached_prefix l2 -> cached_prefix (l1 ++ l2).
Proof. induction 1 as [|g l1 [x E] _ IH]; [done|]. intros H. simpl. rewrite E. auto. Qed.

Lemma cached_none l : Forall (fun g => g_node g = None) l -> cached_prefix l.
Proof. destruct 1 as [|g l Hg Hl]; [done|]. simpl. by rewrite Hg. Qed.

Lemma cached_split l : cached_prefix l -> exists l1 l2, l = l1 ++ l2 /\
  Forall (fun g => is_Some (g_node g)) l1 /\ Forall (fun g => g_node g = None) l2.
Proof.
  induction l as [|g l IH]; simpl; [by exists [], []|]. destruct (g_node g) as [x|] eqn:E; intros H.
  - destruct (IH H) as (l1 & l2 & -> & H1 & H2). exists (g :: l1), l2. split_and!; [done|constructor; [rewrite E; eauto|done]|done].
  - exists [], (g :: l). split_and!; [done|constructor|by constructor].
Qed.

(** Only which pages are in memory matters. *)
Lemma cached_prefix_set l1 g g' l2 : cached_prefix (l1 ++ g :: l2) -> (g_node g' = None <-> g_node g = None) ->
  cached_prefix (l1 ++ g' :: l2).
Proof.
  intros H E. induction l1 as [|x l1 IH]; simpl in *.
  - destruct (g_node g), (g_node g'); naive_solver.
  - destruct (g_node x); [auto|]. rewrite Forall_app, Forall_cons in *. tauto.
Qed.

Lemma missing_app l1 l2 : missing (l1 ++ l2) = missing l1 + missing l2.
Proof. unfold missing. by rewrite filter_app, zlen_app. Qed.
Lemma missing_cons g l : missing (g :: l) = (match g_node g with None => 1 | Some _ => 0 end) + missing l.
Proof.
  unfold missing. rewrite filter_cons. destruct (g_node g); case_decide; try done. by rewrite zlen_cons.
Qed.
Lemma missing_nonneg l : 0 <= missing l.
Proof. apply zlen_nonneg. Qed.

Lemma missing_cached l : Forall (fun g => is_Some (g_node g)) l -> missing l = 0.
Proof. induction 1 as [|y l [z Hz] _ IH]; [done|]. by rewrite missing_cons, Hz, IH. Qed.

(** No key is in two pages. *)
Definition one_page (l : list pg) : Prop :=
  forall g1 g2 k, g1 ∈ l -> g2 ∈ l -> is_Some (g_map g1 !! k) -> is_Some (g_map g2 !! k) -> g_off g1 = g_off g2.

Lemma elem_of_mid {A} (x y : A) l1 l2 : x ∈ l1 ++ y :: l2 <-> x = y \/ x ∈ l1 ++ l2.
Proof. rewrite !elem_of_app, elem_of_cons. tauto. Qed.

Lemma one_page_set l1 g l2 M x : one_page (l1 ++ g :: l2) ->
  (forall k y, is_Some (M !! k) -> y ∈ l1 ++ l2 -> is_Some (g_map y !! k) -> is_Some (g_map g !! k)) ->
  one_page (l1 ++ mkPg (g_off g) M x :: l2).
Proof.
  intros H HM g1 g2 k [->|H1]%elem_of_mid [->|H2]%elem_of_mid Hk1 Hk2; simpl in *; [done|..].
  - apply (H g g2 k); [by apply elem_of_mid; left|by apply elem_of_mid; right|by eapply HM|done].
  - apply (H g1 g k); [by apply elem_of_mid; right|by apply elem_of_mid; left|done|by eapply HM].
  - apply (H g1 g2 k); [by apply elem_of_mid; right|by apply elem_of_mid; right|done|done].
Qed.

(** ** Buckets *)
Section bucket.
Context (kpSize : Z).
Implicit Types (c : lru) (h : heap) (g : pg) (L : list positive).

(** The node [p] has the page at the address [a], read from [off], and is known
    to the cache. *)
Definition node_at h L (p : positive) (a off : Z) : Prop :=
  exists cn k, h_kpn h !! p = Some k /\ kpn_data k = (Some a, off, Some cn) /\ cn ∈ L /\ c_kpn <$> h_cn h !! cn = Some (Some p).

(** The page on the disk and, if it is in memory, the one there; the trees in
    the two may differ. *)
Definition page_at (kd : gmap Z key_page) c h L (i prev next : Z) g : Prop :=
  (exists kp, kd !! g_off g = Some kp /\ page_is kpSize i prev next kp (g_map g)) /\
  forall p a, g_node g = Some (p, a) -> node_at h L p a (g_off g) /\
    exists kp, PageMgr.load (lc_pageMgr c) a = Val kp /\ page_is kpSize i prev next kp (g_map g).

Record bucket_ok (kd : gmap Z key_page) (ht : list hash_entry) c h L (i : Z) (l : list pg) : Prop := {
  bo_list : entry_list ht h i (nodes l);
  bo_off : exists e, zget ht i = Some e /\ he_offset e = first_off l (-1);
  bo_prefix : cached_prefix l;
  bo_chain : chain (page_at kd c h L i) (-1) l (-1);
  bo_nodup : NoDup (g_off <$> l);
  bo_keys : one_page l }.

Lemma chain_elem P p l n g : chain P p l n -> g ∈ l -> exists a b, P a b g.
Proof. intros Hc Hg. apply list_elem_of_split in Hg as (l1 & l2 & ->). apply chain_at in Hc. eauto. Qed.

Lemma bucket_disk kd ht c h L i l g : bucket_ok kd ht c h L i l -> g ∈ l ->
  exists kp a b, kd !! g_off g = Some kp /\ page_is kpSize i a b kp (g_map g).
Proof. intros Hb Hg. destruct (chain_elem _ _ _ _ _ (bo_chain _ _ _ _ _ _ _ Hb) Hg) as (a & b & (kp & ? & ?) & _). eauto. Qed.

Lemma bucket_node kd ht c h L i l g p a : bucket_ok kd ht c h L i l -> g ∈ l -> g_node g = Some (p, a) ->
  node_at h L p a (g_off g) /\ exists kp x y, PageMgr.load (lc_pageMgr c) a = Val kp /\ page_is kpSize i x y kp (g_map g).
Proof.
  intros Hb Hg Hn. destruct (chain_elem _ _ _ _ _ (bo_chain _ _ _ _ _ _ _ Hb) Hg) as (x & y & _ & H).
  destruct (H p a Hn) as (? & kp & ? & ?). eauto 8.
Qed.

(** Offsets, nodes and addresses of different buckets are different, since every
    page says which bucket it is in. *)
Lemma buckets_apart kd ht c h L i j l l' g g' : bucket_ok kd ht c h L i l -> bucket_ok kd ht c h L j l' -> i <> j ->
  g ∈ l -> g' ∈ l' -> g_off g <> g_off g' /\
  forall p a p' a', g_node g = Some (p, a) -> g_node g' = Some (p', a') -> p <> p' /\ a <> a'.
Proof.
  intros Hb Hb' Hij Hg Hg'. split.
  - intros E. destruct (bucket_disk _ _ _ _ _ _ _ _ Hb Hg) as (kp & x & y & H1 & []).
    destruct (bucket_disk _ _ _ _ _ _ _ _ Hb' Hg') as (kp' & x' & y' & H1' & []). rewrite E in H1. congruence.
  - intros p a p' a' Hn Hn'. destruct (bucket_node _ _ _ _ _ _ _ _ _ _ Hb Hg Hn) as ((cn & k & Hk & Hd & _) & kp & x & y & Hl & []).
    destruct (bucket_node _ _ _ _ _ _ _ _ _ _ Hb' Hg' Hn') as ((cn' & k' & Hk' & Hd' & _) & kp' & x' & y' & Hl' & []).
    assert (a <> a') as Hne by (intros ->; simplify_eq; congruence). split; [|done]. intros ->. simplify_eq. congruence.
Qed.

(** In one bucket, offsets are different by [bo_nodup]. *)
Lemma bucket_off_inj kd ht c h L i l g g' : bucket_ok kd ht c h L i l -> g ∈ l -> g' ∈ l -> g_off g = g_off g' -> g = g'.
Proof.
  intros Hb Hg Hg' E. pose proof (bo_nodup _ _ _ _ _ _ _ Hb) as Hnd.
  apply list_elem_of_lookup in Hg as [j1 H1], Hg' as [j2 H2].
  assert (j1 = j2) as ->; [|congruence]. eapply (NoDup_lookup (g_off <$> l)); [exact Hnd|by rewrite list_lookup_fmap, H1|].
  rewrite list_lookup_fmap, H2. simpl. congruence.
Qed.

(** A bucket is kept by changes elsewhere. *)
Lemma bucket_frame kd kd' ht ht' c c' h h' L L' i l : bucket_ok kd ht c h L i l ->
  zget ht' i = zget ht i -> (forall g, g ∈ l -> kd' !! g_off g = kd !! g_off g) ->
  (forall p, p ∈ nodes l -> h_kpn h' !! p = h_kpn h !! p) ->
  (forall g p a, g ∈ l -> g_node g = Some (p, a) -> node_at h L p a (g_off g) -> node_at h' L' p a (g_off g) /\
     PageMgr.load (lc_pageMgr c') a = PageMgr.load (lc_pageMgr c) a) ->
  bucket_ok kd' ht' c' h' L' i l.
Proof.
  intros [Hl Ho Hp Hc Hnd Hk] Hz Hkd Hn Hm. split; [by eapply entry_list_frame|by rewrite Hz|done| |done|done].
  eapply chain_impl; [exact Hc|]. intros a b g Hg [(kp & H1 & H2) H3]. split; [exists kp; by rewrite Hkd|].
  intros p x Hx. destruct (H3 p x Hx) as (H4 & kp' & H5 & H6). destruct (Hm g p x Hg Hx H4) as [H7 H8].
  split; [done|]. exists kp'. by rewrite H8.
Qed.
End bucket.

(** ** The addresses of the cache *)
Lemma node_owner h L p a off : node_at h L p a off -> exists x, x ∈ L /\ owner h x a /\ c_kpn <$> h_cn h !! x = Some (Some p).
Proof.
  intros (cn & k & Hk & Hd & Hin & Hc). unfold kpn_data in Hd. simplify_eq. exists cn. split; [done|]. split; [|done]. exists p, k. split_and!; congruence.
Qed.

Lemma owner_inj c h L pgs x y a : cache_ok c h L pgs -> x ∈ L -> y ∈ L -> owner h x a -> owner h y a -> x = y.
Proof.
  intros [_ Hpg Hnd _ _ _ _ _] Hx Hy Hox Hoy. apply list_elem_of_lookup in Hx as [i Hi], Hy as [j Hj].
  assert (forall z k, L !! k = Some z -> owner h z a -> pgs !! k = Some a) as Hlk.
  { intros z k Hk Hz. rewrite Forall2_lookup in Hpg. specialize (Hpg k). rewrite Hk in Hpg. inversion Hpg as [? b Hb E1 E2|]; subst.
    destruct Hz as (? & ? & ? & ? & ? & ?), Hb as (? & ? & ? & ? & ? & ?). simplify_eq. done. }
  assert (i = j) as ->; [|congruence]. eapply NoDup_lookup; [exact Hnd|by eapply Hlk|by eapply Hlk].
Qed.

Lemma node_page c h L pgs p a off : cache_ok c h L pgs -> node_at h L p a off -> a ∈ pgs.
Proof. intros Hc Hn. destruct (node_owner _ _ _ _ _ Hn) as (x & Hx & Ho & _). eapply owner_page; [apply Hc|done|done]. Qed.

(** Nodes with one address are one node. *)
Lemma node_addr_inj c h L pgs p a off p' off' : cache_ok c h L pgs -> node_at h L p a off -> node_at h L p' a off' -> p = p'.
Proof.
  intros Hc Hn Hn'. destruct (node_owner _ _ _ _ _ Hn) as (x & Hx & Ho & E), (node_owner _ _ _ _ _ Hn') as (y & Hy & Ho' & E').
  rewrite (owner_inj _ _ _ _ _ _ _ Hc Hx Hy Ho Ho') in E. congruence.
Qed.

Lemma bucket_addr_inj kpSize kd ht c h L pgs i l g g' p p' a : cache_ok c h L pgs -> bucket_ok kpSize kd ht c h L i l ->
  g ∈ l -> g' ∈ l -> g_node g = Some (p, a) -> g_node g' = Some (p', a) -> g = g'.
Proof.
  intros Hc Hb Hg Hg' Hn Hn'. destruct (bucket_node _ _ _ _ _ _ _ _ _ _ _ Hb Hg Hn) as [H1 _].
  destruct (bucket_node _ _ _ _ _ _ _ _ _ _ _ Hb Hg' Hn') as [H2 _].
  pose proof (node_addr_inj _ _ _ _ _ _ _ _ _ Hc H1 H2) as <-. eapply bucket_off_inj; [exact Hb|done|done|].
  destruct H1 as (? & ? & Hk & Hd & _), H2 as (? & ? & Hk' & Hd' & _). unfold kpn_data in *. congruence.
Qed.

Lemma cache_store c h L pgs a kp : cache_ok c h L pgs ->
  cache_ok (LRUCache.with_pm c (PageMgr.store (lc_pageMgr c) a kp)) h L pgs.
Proof.
  intros [[] Hpg Hndp (rel & bot & fr & Hpool) Hmax Hkps Hcn Hkpn]. split; try done. exists rel, bot, fr. by apply pool_store_ok.
Qed.

Lemma load_store pm a b kp : PageMgr.load (PageMgr.store pm a kp) b = if decide (b = a) then Val kp else PageMgr.load pm b.
Proof. unfold PageMgr.load. simpl. case_decide; [subst; by rewrite lookup_insert_eq|by rewrite lookup_insert_ne]. Qed.

(** The other pages of a bucket. *)
Lemma bucket_rest kpSize kd ht c h L i l1 g l2 x : bucket_ok kpSize kd ht c h L i (l1 ++ g :: l2) -> x ∈ l1 ++ l2 -> g_off x <> g_off g.
Proof.
  intros Hb Hx E. pose proof (bo_nodup _ _ _ _ _ _ _ _ Hb) as Hnd. rewrite fmap_app, fmap_cons in Hnd.
  rewrite <- Permutation_middle in Hnd. apply NoDup_cons in Hnd as [Hni _]. apply Hni. rewrite <- fmap_app, <- E. by apply list_elem_of_fmap_2.
Qed.

Lemma cache_kpn c h h' L pgs : cache_ok c h L pgs -> h_cn h' = h_cn h -> h_brk h' = h_brk h ->
  (forall q, (fun k => (kpn_kp k, kpn_cnode k)) <$> h_kpn h' !! q = (fun k => (kpn_kp k, kpn_cnode k)) <$> h_kpn h !! q) ->
  cache_ok c h' L pgs.
Proof.
  intros [[Hh Hnd Hd] Hpg Hndp Hpool Hmax Hkps Hcn Hkpn] E1 E2 E3. split; try done.
  - split; [done|done|]. eapply dseg_ext; [exact Hd|]. intros x _. unfold cn_links. by rewrite E1.
  - eapply Forall2_impl; [exact Hpg|]. intros x y (k & kn & H1 & H2 & H3 & H4). specialize (E3 k). rewrite H2 in E3.
    destruct (h_kpn h' !! k) as [kn'|] eqn:Ek; [|done]. simpl in E3. injection E3 as E3 E4. exists k, kn'. rewrite E1. split_and!; congruence.
  - intros q. rewrite E1, E2. apply Hcn.
  - intros q Hq. rewrite E2. apply Hkpn. specialize (E3 q). destruct (h_kpn h' !! q), (h_kpn h !! q); simpl in *; naive_solver.
Qed.

Lemma data_owner (o : option key_page_node) :
  (fun k => (kpn_kp k, kpn_cnode k)) <$> o = (fun d => (d.1.1, d.2)) <$> (kpn_data <$> o).
Proof. by destruct o. Qed.

(** [touch] keeps the pages. *)
Lemma touch_ok c h L pgs p a off : cache_ok c h L pgs -> node_at h L p a off ->
  exists c' h' L' pgs', LRUCache.touch c h p = Val (c', h') /\ cache_ok c' h' L' pgs' /\ L' ≡ₚ L /\ lc_num c' = lc_num c /\
    same_pages c c' h h'.
Proof.
  intros Hc (cn & k & Hk & Hd & Hin & Hown). unfold kpn_data in Hd. injection Hd as Hka _ Hkc.
  apply list_elem_of_split in Hin as (l1 & l2 & ->). pose proof Hc as [HL Hpg Hndp (rel & bot & fr & Hpool) Hmax Hkps Hcn Hkpn].
  destruct (touch_spec _ _ _ _ _ _ _ HL Hk ltac:(rewrite Hka; eauto) Hkc) as (c' & h' & E & HL' & Hnum & _ & Hsp).
  apply Forall2_app_inv_l in Hpg as (p1 & p2' & Hp1 & Hp2 & ->). apply Forall2_cons_inv_l in Hp2 as (a' & p2 & Ha' & Hp2 & ->).
  exists c', h', (cn :: l1 ++ l2), (a' :: p1 ++ p2). split; [done|]. split_and!; [|by rewrite Permutation_middle|done|done].
  destruct Hsp as [Hs1 Hs2 Hs3 Hs4 Hs5 Hs6]. split; try congruence.
  - eapply Forall2_impl; [constructor; [exact Ha'|by apply Forall2_app]|]. intros x y (k' & kn & ? & ? & ? & ?). exists k', kn. by rewrite Hs6, Hs4.
  - by rewrite Permutation_middle.
  - exists rel, bot, fr. rewrite Hs3. replace (list_to_set (a' :: p1 ++ p2) : gset Z) with (list_to_set (p1 ++ a' :: p2) : gset Z); [done|].
    apply list_to_set_perm_L. by rewrite Permutation_middle.
  - intros q Hq. rewrite Hs5. apply Hcn. specialize (Hs6 q). destruct (h_cn h' !! q), (h_cn h !! q); simpl in *; naive_solver.
  - intros q Hq. rewrite Hs5, Hs4 in *. by apply Hkpn.
Qed.
