(* ===== verification/RdbMem.v ===== *)
(** * The buckets in memory

    All buckets of a database together with the cache and the hash table, and what
    each change of a page in memory makes of them. *)
From S2P Require Import Prelude Bytes DbStruct KeyRec KeyPage File FdpMgr DbFiles Disk PageMgr Cache HashTable Dll CacheFacts HashFacts Store PageStore RdbInv.

(** ** All buckets *)
Section memory.
Context (kpSize : Z).
Implicit Types (c : lru) (h : heap) (g : pg) (L : list positive) (bks : list (list pg)).

(** What is in memory: [n] more pages can be taken from the cache beside those
    that are still missing. *)
Definition mem_ok (kd : gmap Z key_page) (ht : list hash_entry) c h L bks (n : Z) : Prop :=
  (exists pgs, cache_ok c h L pgs) /\ zlen L <= lc_num c /\ lc_kpSize c = kpSize /\ zlen ht = zlen bks /\
  (forall i l, bks !! i = Some l -> bucket_ok kpSize kd ht c h L (Z.of_nat i) l) /\
  lc_num c + missing (mjoin bks) + n <= lc_max c.

(** A node that is in no bucket. *)
Definition loose bks (p : positive) : Prop := forall i l, bks !! i = Some l -> p ∉ nodes l.

Lemma missing_insert bks i l l' : bks !! i = Some l ->
  missing (mjoin (<[i := l']> bks)) = missing (mjoin bks) - missing l + missing l'.
Proof.
  intros Hi. pose proof (lookup_lt_Some _ _ _ Hi) as Hlt. rewrite insert_take_drop by done.
  rewrite <- (take_drop_middle bks i l Hi) at 3. rewrite !join_app. simpl. rewrite !missing_app. lia.
Qed.

Lemma node_at_mono h h' L L' p a off : node_at h L p a off -> kpn_data <$> h_kpn h' !! p = kpn_data <$> h_kpn h !! p ->
  (forall x, x ∈ L -> x ∈ L' /\ c_kpn <$> h_cn h' !! x = c_kpn <$> h_cn h !! x) -> node_at h' L' p a off.
Proof.
  intros (cn & k & Hk & Hd & Hin & Hc) E HL. destruct (HL cn Hin) as [Hin' Hc']. rewrite Hk in E.
  destruct (h_kpn h' !! p) as [k'|] eqn:Ek; [|done]. apply (inj Some) in E.
  exists cn, k'. split_and!; [done|by rewrite E|done|by rewrite Hc'].
Qed.

(** [touch] *)
Lemma mem_touch kd ht c h L bks n p a off : mem_ok kd ht c h L bks n -> node_at h L p a off ->
  exists c' h' L', LRUCache.touch c h p = Val (c', h') /\ mem_ok kd ht c' h' L' bks n /\ node_at h' L' p a off /\
    h_kpn h' = h_kpn h /\ lc_pageMgr c' = lc_pageMgr c.
Proof.
  intros ([pgs Hc] & Hnum & Hks & Hht & Hb & Hroom) Hp.
  destruct (touch_ok _ _ _ _ _ _ _ Hc Hp) as (c' & h' & L' & pgs' & E & Hc' & HL & Hn' & [Hs1 Hs2 Hs3 Hs4 Hs5 Hs6]).
  assert (forall q x o, node_at h L q x o -> node_at h' L' q x o) as Hmono.
  { intros q x o Hq. eapply node_at_mono; [exact Hq|by rewrite Hs4|]. intros y Hy. by rewrite HL. }
  exists c', h', L'. split; [done|]. split; [|split_and!; [by apply Hmono|done|done]].
  split; [eauto|]. split; [rewrite Hn', HL; done|]. split; [congruence|]. split; [done|]. split; [|lia].
  intros i l Hi. eapply bucket_frame; [by apply Hb|done|done|intros q _; by rewrite Hs4|]. intros g q x Hg Hq Hn. by rewrite Hs3; auto.
Qed.

(** The page of [g] gets the content [M'], on the disk and in memory. *)
Lemma mem_set kd kd' ht c h L bks n i l1 g l2 p a M' kp kp0 : mem_ok kd ht c h L bks n -> bks !! i = Some (l1 ++ g :: l2) ->
  g_node g = Some (p, a) -> kd' !! g_off g = Some kp0 -> (forall o, o <> g_off g -> kd' !! o = kd !! o) ->
  page_is kpSize (Z.of_nat i) (last_off (-1) l1) (first_off l2 (-1)) kp0 M' ->
  page_is kpSize (Z.of_nat i) (last_off (-1) l1) (first_off l2 (-1)) kp M' ->
  (forall k x, is_Some (M' !! k) -> x ∈ l1 ++ l2 -> is_Some (g_map x !! k) -> is_Some (g_map g !! k)) ->
  mem_ok kd' ht (LRUCache.with_pm c (PageMgr.store (lc_pageMgr c) a kp)) h L (<[i := l1 ++ mkPg (g_off g) M' (Some (p, a)) :: l2]> bks) n.
Proof.
  intros ([pgs Hc] & Hnum & Hks & Hht & Hb & Hroom) Hi Hn Hkp0 Hkd Hp0 Hp Hkeys.
  split; [exists pgs; by apply cache_store|]. split; [done|]. split; [done|]. split; [unfold zlen in *; by rewrite length_insert|].
  split; [|cbn [LRUCache.with_pm lc_num lc_max]; rewrite (missing_insert _ _ _ _ Hi), !missing_app, !missing_cons, Hn; cbn [g_node]; lia].
  pose proof (Hb _ _ Hi) as Hbi. assert (g ∈ l1 ++ g :: l2) as Hgin by set_solver.
  destruct (bucket_node _ _ _ _ _ _ _ _ _ _ _ Hbi Hgin Hn) as [Hna _].
  intros j l [(<- & <- & _)|[Hne Hj]]%list_lookup_insert_Some; [|
    specialize (Hb j l Hj); eapply bucket_frame; [exact Hb|done| |done|]].
  - destruct Hbi as [Hl Ho Hpf Hch Hnd Hk]. assert (nodes (l1 ++ mkPg (g_off g) M' (Some (p, a)) :: l2) = nodes (l1 ++ g :: l2)) as En.
    { rewrite !nodes_app, !nodes_cons, Hn. done. }
    assert (g_off <$> l1 ++ mkPg (g_off g) M' (Some (p, a)) :: l2 = g_off <$> l1 ++ g :: l2) as Eo by (by rewrite !fmap_app).
    split; rewrite ?En, ?Eo; try done.
    + destruct Ho as (e & He & Hoe). exists e. split; [done|]. rewrite Hoe. by destruct l1.
    + eapply cached_prefix_set; [exact Hpf|]. simpl. by rewrite Hn.
    + eapply chain_swap; [exact Hch|done| |].
      * intros x y z Hz [(kpz & Hz1 & Hz2) Hz3]. assert (g_off z <> g_off g) as Hzo by (eapply bucket_rest; [by apply Hb|done]).
        split; [exists kpz; by rewrite Hkd|]. intros q b Hq. destruct (Hz3 q b Hq) as (Hq1 & kpq & Hq2 & Hq3). split; [done|].
        exists kpq. split; [|done]. cbn [LRUCache.with_pm lc_pageMgr]. rewrite load_store, decide_False; [done|]. intros ->.
        apply Hzo. f_equal. eapply (bucket_addr_inj _ _ _ _ _ _ _ _ _ z g); [exact Hc|by apply Hb|set_solver|set_solver|done|done].
      * split; [exists kp0; done|]. intros q b [= <- <-]. split; [done|]. exists kp. split; [|done].
        cbn [LRUCache.with_pm lc_pageMgr]. by rewrite load_store, decide_True.
    + by apply one_page_set.
  - intros x Hx. apply Hkd. intros E. by destruct (buckets_apart _ _ _ _ _ _ _ _ _ _ g x Hbi Hb ltac:(lia) Hgin Hx) as [? _].
  - intros x q b Hx Hq Hqn. split; [done|]. cbn [LRUCache.with_pm lc_pageMgr]. rewrite load_store, decide_False; [done|]. intros ->.
    destruct (buckets_apart _ _ _ _ _ _ _ _ _ _ g x Hbi Hb ltac:(lia) Hgin Hx) as [_ Hap]. by destruct (Hap _ _ _ _ Hn Hq).
Qed.

(** A page is taken from the cache: [get]. *)
Lemma mem_get {OS} (sys : syscalls OS) fuel kf kd ht c h L bks n off os kp os' : mem_ok kd ht c h L bks n ->
  0 < n + missing (mjoin bks) -> page_read sys fuel kf kpSize off os kp os' ->
  exists p a c' h' L', LRUCache.get sys fuel kf c h off os = Val (E_ok, Some p, c', h', os') /\
    mem_ok kd ht c' h' L' bks (n - 1) /\ node_at h' L' p a off /\ loose bks p /\ PageMgr.load (lc_pageMgr c') a = Val kp /\
    (forall q x o, node_at h L q x o -> node_at h' L' q x o /\ h_kpn h' !! q = h_kpn h !! q /\
       PageMgr.load (lc_pageMgr c') x = PageMgr.load (lc_pageMgr c) x).
Proof.
  intros ([pgs Hc] & Hnum & Hks & Hht & Hb & Hroom) Hpos Hread.
  destruct (getCacheNode_new c h L pgs Hc ltac:(lia)) as (cn & h1 & Eg & Hok1 & Hni & Hn & Hk1 & Hcn1).
  rewrite <- Hks in Hread.
  destruct (get_installs sys fuel kf c h c h1 L pgs cn _ off os kp os' Eg Hok1 ltac:(lia) Hni Hn Hread)
    as (p & a & c' & h' & E & Hok' & _ & Hnum' & Hmax' & Hks' & Hp0 & Hkpn & [Hpa1 Hpa2 Hpa3] & Hcn').
  rewrite Hk1 in Hp0, Hkpn.
  assert (forall q x o, node_at h L q x o -> node_at h' (cn :: L) q x o /\ h_kpn h' !! q = h_kpn h !! q /\
       PageMgr.load (lc_pageMgr c') x = PageMgr.load (lc_pageMgr c) x) as Hold.
  { intros q x o Hq. assert (q <> p) as Hne.
    { intros ->. destruct Hq as (? & ? & Hk & _). congruence. }
    assert (h_kpn h' !! q = h_kpn h !! q) as Eq by (rewrite Hkpn; by rewrite lookup_insert_ne).
    split; [|split; [done|apply Hpa3; exact (node_page _ _ _ _ _ _ _ Hc Hq)]]. eapply node_at_mono; [exact Hq|by rewrite Eq|].
    intros y Hy. split; [set_solver|]. rewrite Hcn', Hcn1 by done. rewrite decide_False; [done|]. by intros ->. }
  exists p, a, c', h', (cn :: L). split; [exact E|]. split_and!; try done.
  - split; [eauto|]. split; [rewrite zlen_cons; lia|]. split; [congruence|]. split; [done|]. split; [|lia].
    intros i l Hi. specialize (Hb i l Hi). eapply bucket_frame; [exact Hb|done|done| |].
    + intros q (g & x & Hg & Hq)%elem_of_nodes. destruct (bucket_node _ _ _ _ _ _ _ _ _ _ _ Hb Hg Hq) as [Hqn _]. by destruct (Hold _ _ _ Hqn) as (_ & ? & _).
    + intros g q x Hg Hq Hqn. by destruct (Hold _ _ _ Hqn) as (? & _ & ?).
  - exists cn. eexists. split; [rewrite Hkpn; by rewrite lookup_insert_eq|]. split; [done|]. split; [set_solver|]. rewrite Hcn'. by rewrite decide_True.
  - intros i l Hi (g & x & Hg & Hq)%elem_of_nodes. specialize (Hb i l Hi).
    destruct (bucket_node _ _ _ _ _ _ _ _ _ _ _ Hb Hg Hq) as [(? & ? & Hk & _) _]. congruence.
Qed.

(** A loose node: its page is written, or its offset. *)
Lemma loose_addr kd ht c h L bks n p a off : mem_ok kd ht c h L bks n -> loose bks p -> node_at h L p a off ->
  forall i l g q b, bks !! i = Some l -> g ∈ l -> g_node g = Some (q, b) -> q <> p /\ b <> a.
Proof.
  intros ([pgs Hc] & _ & _ & _ & Hb & _) Hlo Hp i l g q b Hi Hg Hq.
  assert (q <> p) as Hne by (intros ->; apply (Hlo i l Hi), elem_of_nodes; eauto). split; [done|]. intros ->. apply Hne.
  destruct (bucket_node _ _ _ _ _ _ _ _ _ _ _ (Hb i l Hi) Hg Hq) as [Hqn _]. eapply node_addr_inj; [exact Hc|exact Hqn|exact Hp].
Qed.

Lemma mem_loose_store kd ht c h L bks n p a off kp : mem_ok kd ht c h L bks n -> loose bks p -> node_at h L p a off ->
  mem_ok kd ht (LRUCache.with_pm c (PageMgr.store (lc_pageMgr c) a kp)) h L bks n.
Proof.
  intros Hm Hlo Hp. pose proof (loose_addr _ _ _ _ _ _ _ _ _ _ Hm Hlo Hp) as Hap. destruct Hm as ([pgs Hc] & Hnum & Hks & Hht & Hb & Hroom).
  split; [exists pgs; by apply cache_store|]. split; [done|]. split; [done|]. split; [done|]. split; [|done].
  intros i l Hi. eapply bucket_frame; [by apply Hb|done|done|done|]. intros g q b Hg Hq Hqn. split; [done|].
  cbn [LRUCache.with_pm lc_pageMgr]. rewrite load_store, decide_False; [done|]. by eapply Hap.
Qed.

Lemma mem_loose_off kd ht c h L bks n p a off off' : mem_ok kd ht c h L bks n -> loose bks p -> node_at h L p a off ->
  exists h', Heap.upd_kpn h p (k_with_kpoff off') = Val h' /\ mem_ok kd ht c h' L bks n /\ node_at h' L p a off'.
Proof.
  intros Hm Hlo Hp. pose proof (loose_addr _ _ _ _ _ _ _ _ _ _ Hm Hlo Hp) as Hap. destruct Hm as ([pgs Hc] & Hnum & Hks & Hht & Hb & Hroom).
  pose proof Hp as (cn & k & Hk & Hd & Hin & Hcn). rewrite (upd_kpn_ok _ _ _ _ Hk). eexists. split; [done|].
  set (h' := Heap.set_kpn h p (k_with_kpoff off' k)). split.
  - split; [exists pgs; apply (cache_kpn c h); [done..|]|].
    { intros q. unfold h'. simpl. destruct (decide (p = q)) as [<-|]; [by rewrite lookup_insert_eq, Hk|by rewrite lookup_insert_ne]. }
    split; [done|]. split; [done|]. split; [done|]. split; [|done].
    intros i l Hi. eapply bucket_frame; [by apply Hb|done|done| |].
    + intros q (g & b & Hg & Hq)%elem_of_nodes. destruct (Hap i l g q b Hi Hg Hq) as [Hne _]. unfold h'. simpl. by rewrite lookup_insert_ne.
    + intros g q b Hg Hq Hqn. split; [|done]. destruct (Hap i l g q b Hi Hg Hq) as [Hne _].
      eapply node_at_mono; [exact Hqn| |done]. unfold h'. simpl. by rewrite lookup_insert_ne.
  - exists cn. eexists. split; [unfold h'; simpl; by rewrite lookup_insert_eq|]. split; [|done]. unfold kpn_data in *. simpl. congruence.
Qed.

(** [addKeyPageNode] of a loose node: the pages [l0] of its bucket become
    [l1 ++ g :: l2], where [g] is the page of the node. *)
Lemma mem_attach_core kd kd' ht c h L bks n i l0 l1 g l2 p a kp : mem_ok kd ht c h L bks n -> loose bks p -> node_at h L p a (g_off g) ->
  bks !! i = Some l0 -> Forall (fun g => is_Some (g_node g)) l1 -> Forall (fun g => g_node g = None) l2 -> nodes l0 = nodes l1 ->
  (l1 <> [] -> first_off l0 (-1) = first_off l1 (-1)) -> g_node g = None ->
  chain (page_at kpSize kd' c h L (Z.of_nat i)) (-1) (l1 ++ g :: l2) (-1) -> NoDup (g_off <$> l1 ++ g :: l2) -> one_page (l1 ++ g :: l2) ->
  (forall o kp j, j <> Z.of_nat i -> kd !! o = Some kp -> kp_hash kp = j -> kd' !! o = kd !! o) ->
  PageMgr.load (lc_pageMgr c) a = Val kp -> page_is kpSize (Z.of_nat i) (last_off (-1) l1) (first_off l2 (-1)) kp (g_map g) ->
  exists ht' h', HashTable.addKeyPageNode ht h (Z.of_nat i) p = Val (ht', h') /\
    mem_ok kd' ht' c h' L (<[i := l1 ++ mkPg (g_off g) (g_map g) (Some (p, a)) :: l2]> bks) (n + missing l0 - missing l2) /\
    (forall q x o, node_at h L q x o -> node_at h' L q x o).
Proof.
  intros Hm Hlo Hp Hi Hl1 Hl2 En Hfo Hgn Hch Hnd Hkk Hkd Hld Hpi. pose proof (loose_addr _ _ _ _ _ _ _ _ _ _ Hm Hlo Hp) as Hap.
  destruct Hm as ([pgs Hc] & Hnum & Hks & Hht & Hb & Hroom).
  pose proof (Hb _ _ Hi) as Hbi. pose proof Hp as (cn & k & Hk & Hd & Hin & Hcn).
  assert (nodes (l1 ++ mkPg (g_off g) (g_map g) (Some (p, a)) :: l2) = nodes l1 ++ [p]) as En'.
  { rewrite nodes_app, nodes_cons. simpl. by rewrite (nodes_none l2). }
  pose proof (bo_list _ _ _ _ _ _ _ _ Hbi) as Hel. rewrite En in Hel.
  assert (p ∉ nodes l1) as Hni by (rewrite <- En; by apply (Hlo i)).
  destruct (addKeyPageNode_spec _ _ _ _ _ _ Hel Hni Hk) as (e & h' & E & Hel' & [Hs1 Hs2 Hs3 Hs4] & Hoff).
  assert (forall q x o, node_at h L q x o -> node_at h' L q x o) as Hmono.
  { intros q x o Hq. eapply node_at_mono; [exact Hq|by rewrite Hs3|]. intros y Hy. by rewrite Hs1. }
  destruct (bo_off _ _ _ _ _ _ _ _ Hbi) as (e0 & Ez & Hoe). pose proof (zget_Some _ _ _ Ez) as Hir.
  assert (zget (zset ht (Z.of_nat i) e) (Z.of_nat i) = Some e) as Ez' by (by apply zget_zset_eq).
  eexists _, h'. split; [exact E|]. split; [|done].
  split; [exists pgs; eapply cache_kpn; [exact Hc|done|done|]|].
  { intros q. by rewrite !data_owner, Hs3. }
  split; [done|]. split; [done|]. split; [rewrite zlen_zset, Hht; unfold zlen; by rewrite length_insert|].
  pose proof (missing_cached l1 Hl1) as Hm1.
  split; [|rewrite (missing_insert _ _ _ _ Hi), !missing_app, !missing_cons, Hm1; cbn [g_node]; lia].
  intros j l [(<- & <- & _)|[Hne Hj]]%list_lookup_insert_Some.
  - assert (g_off <$> l1 ++ mkPg (g_off g) (g_map g) (Some (p, a)) :: l2 = g_off <$> l1 ++ g :: l2) as Eo by (by rewrite !fmap_app).
    split; rewrite ?En', ?Eo; try done.
    + exists e. split; [done|]. destruct l1 as [|g1 l1].
      * simpl in *. destruct Hel' as [(off & He & Hof) _ _]. rewrite Ez' in He. injection He as ->. simpl.
        rewrite <- (Hof p) with (k := default k (h_kpn h' !! p)); [|done|].
        -- specialize (Hs3 p). rewrite Hk in Hs3. destruct (h_kpn h' !! p); [|done]. simpl in *. unfold kpn_data in *. congruence.
        -- specialize (Hs3 p). rewrite Hk in Hs3. by destruct (h_kpn h' !! p).
      * destruct Hoff as (e1 & He1 & ->).
        { inversion_clear Hl1 as [|? ? [[q b] Hq] _]. rewrite nodes_cons, Hq. done. }
        rewrite Ez in He1. injection He1 as <-. rewrite Hoe. by apply Hfo.
    + apply cached_all; [done|]. simpl. by apply cached_none.
    + eapply chain_swap; [exact Hch|done| |].
      * intros x y z Hz' [Hz1 Hz3]. split; [done|]. intros q b Hq. destruct (Hz3 q b Hq) as (Hq1 & Hq2). split; [by apply Hmono|done].
      * apply chain_at in Hch as [Hdisk _]. split; [done|]. intros q b [= <- <-]. split; [by apply Hmono|]. by exists kp.
    + by apply one_page_set.
  - specialize (Hb j l Hj). eapply bucket_frame; [exact Hb|by rewrite zget_zset_ne by lia| | |].
    + intros x Hx. destruct (bucket_disk _ _ _ _ _ _ _ _ _ Hb Hx) as (kpx & ? & ? & Hkx & []). by apply (Hkd _ kpx (Z.of_nat j)); [lia| |].
    + intros q (x & b & Hx & Hq)%elem_of_nodes. apply Hs4. rewrite elem_of_app, list_elem_of_singleton. intros [Hq'| ->].
      * rewrite <- En in Hq'. apply elem_of_nodes in Hq' as (y & b' & Hy & Hyq).
        destruct (buckets_apart _ _ _ _ _ _ _ _ _ _ y x Hbi Hb ltac:(lia) Hy Hx) as [_ Ha]. by destruct (Ha _ _ _ _ Hyq Hq).
      * by destruct (Hap j l x p b Hj Hx Hq).
    + intros x q b Hx Hq Hqn. by split; [apply Hmono|].
Qed.

(** The first missing page of a bucket. *)
Lemma mem_attach kd ht c h L bks n i l1 g l2 p a kp : mem_ok kd ht c h L bks n -> loose bks p -> node_at h L p a (g_off g) ->
  bks !! i = Some (l1 ++ g :: l2) -> Forall (fun g => is_Some (g_node g)) l1 -> g_node g = None ->
  PageMgr.load (lc_pageMgr c) a = Val kp -> page_is kpSize (Z.of_nat i) (last_off (-1) l1) (first_off l2 (-1)) kp (g_map g) ->
  exists ht' h', HashTable.addKeyPageNode ht h (Z.of_nat i) p = Val (ht', h') /\
    mem_ok kd ht' c h' L (<[i := l1 ++ mkPg (g_off g) (g_map g) (Some (p, a)) :: l2]> bks) (n + 1) /\
    (forall q x o, node_at h L q x o -> node_at h' L q x o).
Proof.
  intros Hm Hlo Hp Hi Hl1 Hgn Hld Hpi. pose proof Hm as (_ & _ & _ & _ & Hb & _). specialize (Hb _ _ Hi).
  assert (Forall (fun g => g_node g = None) l2) as Hl2.
  { pose proof (bo_prefix _ _ _ _ _ _ _ _ Hb) as Hpf. apply cached_prefix_app in Hpf as (_ & Hpf & _). simpl in Hpf. by rewrite Hgn in Hpf. }
  destruct (mem_attach_core kd kd ht c h L bks n i (l1 ++ g :: l2) l1 g l2 p a kp) as (ht' & h' & E & Hm' & Hmono); try done.
  - rewrite nodes_app, nodes_cons, Hgn, (nodes_none l2) by done. apply app_nil_r.
  - intros Hne. by destruct l1.
  - apply Hb.
  - apply Hb.
  - apply Hb.
  - exists ht', h'. split; [done|]. split; [|done]. replace (n + 1) with (n + missing (l1 ++ g :: l2) - missing l2); [done|].
    rewrite missing_app, missing_cons, Hgn, missing_cached by done. lia.
Qed.

(** The first page of an empty bucket. *)
Lemma mem_attach_first kd kd' ht c h L bks n i o M p a kp kp0 : mem_ok kd ht c h L bks n -> loose bks p -> node_at h L p a o ->
  bks !! i = Some [] -> kd !! o = None -> kd' !! o = Some kp0 -> (forall o', o' <> o -> kd' !! o' = kd !! o') ->
  page_is kpSize (Z.of_nat i) (-1) (-1) kp0 M -> PageMgr.load (lc_pageMgr c) a = Val kp -> page_is kpSize (Z.of_nat i) (-1) (-1) kp M ->
  exists ht' h', HashTable.addKeyPageNode ht h (Z.of_nat i) p = Val (ht', h') /\
    mem_ok kd' ht' c h' L (<[i := [mkPg o M (Some (p, a))]]> bks) n.
Proof.
  intros Hm Hlo Hp Hi Hfresh Ho Hkd Hp0 Hld Hpi.
  destruct (mem_attach_core kd kd' ht c h L bks n i [] [] (mkPg o M None) [] p a kp) as (ht' & h' & E & Hm' & _); try done.
  - split; [|done]. split; [by exists kp0|done].
  - simpl. apply NoDup_singleton.
  - intros g1 g2 k. simpl. rewrite !list_elem_of_singleton. by intros -> ->.
  - intros o' kp' j _ Hk _. apply Hkd. by intros ->; congruence.
  - exists ht', h'. split; [done|]. by replace n with (n + missing [] - missing []) by (change (missing []) with 0; lia).
Qed.

(** A new page is linked behind the last page of a bucket, on the disk; the node
    of the new page comes later. *)
Lemma mem_link kd kd' ht c h L bks n i l1 g p a o M kpo kp kp0 : mem_ok kd ht c h L bks n -> bks !! i = Some (l1 ++ [g]) ->
  g_node g = Some (p, a) -> kd !! o = None -> kd' !! o = Some kpo -> page_is kpSize (Z.of_nat i) (g_off g) (-1) kpo M ->
  kd' !! g_off g = Some kp0 -> page_is kpSize (Z.of_nat i) (last_off (-1) l1) o kp0 (g_map g) ->
  page_is kpSize (Z.of_nat i) (last_off (-1) l1) o kp (g_map g) -> (forall o', o' <> o -> o' <> g_off g -> kd' !! o' = kd !! o') ->
  (forall k x, is_Some (M !! k) -> x ∈ l1 ++ [g] -> g_map x !! k = None) ->
  mem_ok kd' ht (LRUCache.with_pm c (PageMgr.store (lc_pageMgr c) a kp)) h L (<[i := (l1 ++ [g]) ++ [mkPg o M None]]> bks) (n - 1).
Proof.
  intros ([pgs Hc] & Hnum & Hks & Hht & Hb & Hroom) Hi Hn Hfresh Ho Hpo Hg0 Hp0 Hp Hkd Hkeys.
  split; [exists pgs; by apply cache_store|]. split; [done|]. split; [done|]. split; [rewrite Hht; unfold zlen; by rewrite length_insert|].
  split; [|cbn [LRUCache.with_pm lc_num lc_max]; rewrite (missing_insert _ _ _ _ Hi), !missing_app, !missing_cons, Hn; cbn [g_node]; change (missing []) with 0; lia].
  pose proof (Hb _ _ Hi) as Hbi. assert (g ∈ l1 ++ [g]) as Hgin by set_solver.
  assert (forall x, x ∈ l1 ++ [g] -> g_off x <> o) as Hxo.
  { intros x Hx E. destruct (bucket_disk _ _ _ _ _ _ _ _ _ Hbi Hx) as (? & ? & ? & ? & _). congruence. }
  intros j l [(<- & <- & _)|[Hne Hj]]%list_lookup_insert_Some.
  - destruct Hbi as [Hl Hof Hpf Hch Hnd Hk]. pose proof (bo_prefix _ _ _ _ _ _ _ _ (Hb _ _ Hi)) as Hpf'.
    assert (Forall (fun g => is_Some (g_node g)) (l1 ++ [g])) as Hall.
    { apply cached_prefix_app in Hpf' as (_ & _ & Hall). apply Forall_app. split; [|apply Forall_singleton; rewrite Hn; eauto].
      apply Hall. rewrite nodes_cons, Hn. done. }
    assert (nodes ((l1 ++ [g]) ++ [mkPg o M None]) = nodes (l1 ++ [g])) as En by (rewrite (nodes_app (l1 ++ [g])); apply app_nil_r).
    split; rewrite ?En; try done.
    + destruct Hof as (e & He & Hoe). exists e. split; [done|]. rewrite Hoe. by destruct l1.
    + apply cached_all; [done|]. simpl. done.
    + apply chain_app. rewrite last_off_snoc. split; [|split; [|done]].
      * rewrite chain_app in Hch |- *. destruct Hch as [Hch1 [Hchg _]]. split; [|split; [|done]].
        -- eapply chain_impl; [exact Hch1|]. intros x y z Hz [(kpz & Hz1 & Hz2) Hz3].
           assert (g_off z <> g_off g) as Hzo by (eapply (bucket_rest kpSize kd ht c h L (Z.of_nat i) l1 g []); [by apply Hb|set_solver]).
           split; [exists kpz; rewrite Hkd; [done|apply Hxo; set_solver|done]|]. intros q b Hq. destruct (Hz3 q b Hq) as (Hq1 & kpq & Hq2 & Hq3).
           split; [done|]. exists kpq. split; [|done]. cbn [LRUCache.with_pm lc_pageMgr]. rewrite load_store, decide_False; [done|]. intros ->.
           apply Hzo. f_equal. eapply (bucket_addr_inj _ _ _ _ _ _ _ _ _ z g); [exact Hc|by apply Hb|set_solver|set_solver|done|done].
        -- destruct Hchg as [_ Hchg]. split; [by exists kp0|]. intros q b Hq. rewrite Hn in Hq. injection Hq as <- <-. destruct (Hchg p a Hn) as (Hq1 & _).
           split; [done|]. exists kp. cbn [LRUCache.with_pm lc_pageMgr]. by rewrite load_store, decide_True.
      * split; [by exists kpo|done].
    + rewrite fmap_app. apply NoDup_app. split; [done|]. split; [|apply NoDup_singleton].
      intros x (y & -> & Hy)%list_elem_of_fmap Hx. simpl in Hx. apply list_elem_of_singleton in Hx. by apply (Hxo y).
    + intros g1 g2 k [H1|H1%list_elem_of_singleton]%elem_of_app [H2|H2%list_elem_of_singleton]%elem_of_app Hk1 Hk2; subst; simpl in *;
        [by apply (Hk g1 g2 k)| | |done].
      * destruct Hk1 as [? E]. by rewrite (Hkeys k g1) in E.
      * destruct Hk2 as [? E]. by rewrite (Hkeys k g2) in E.
  - specialize (Hb j l Hj). eapply bucket_frame; [exact Hb|done| |done|].
    + intros x Hx. apply Hkd.
      * intros E. destruct (bucket_disk _ _ _ _ _ _ _ _ _ Hb Hx) as (? & ? & ? & ? & _). congruence.
      * intros E. by destruct (buckets_apart _ _ _ _ _ _ _ _ _ _ g x Hbi Hb ltac:(lia) Hgin Hx) as [? _].
    + intros x q b Hx Hq Hqn. split; [done|]. cbn [LRUCache.with_pm lc_pageMgr]. rewrite load_store, decide_False; [done|]. intros ->.
      destruct (buckets_apart _ _ _ _ _ _ _ _ _ _ g x Hbi Hb ltac:(lia) Hgin Hx) as [_ Hap]. by destruct (Hap _ _ _ _ Hn Hq).
Qed.

(** The page of [g] is unlinked and its node given up; [c] and [pm] are the
    cache after the updates of the neighbours. *)
Lemma mem_remove kd kd' ht c pm h L bks n i l1 g l2 p a : mem_ok kd ht c h L bks n -> bks !! i = Some (l1 ++ g :: l2) ->
  g_node g = Some (p, a) -> l2 = [] \/ nodes l2 <> [] ->
  (forall pgs, cache_ok c h L pgs -> cache_ok (LRUCache.with_pm c pm) h L pgs) ->
  chain (page_at kpSize kd' (LRUCache.with_pm c pm) h L (Z.of_nat i)) (-1) (l1 ++ l2) (-1) ->
  (forall o kp, kd !! o = Some kp -> kp_hash kp <> Z.of_nat i -> kd' !! o = Some kp) ->
  (forall b kp, PageMgr.load (lc_pageMgr c) b = Val kp -> kp_hash kp <> Z.of_nat i -> PageMgr.load pm b = Val kp) ->
  exists ht' h1 c' h' L', HashTable.removeKeyPageNode ht h (Z.of_nat i) p = Val (ht', h1) /\
    LRUCache.free (LRUCache.with_pm c pm) h1 p = Val (c', h') /\ mem_ok kd' ht' c' h' L' (<[i := l1 ++ l2]> bks) n.
Proof.
  intros ([pgs Hc] & Hnum & Hks & Hht & Hb & Hroom) Hi Hn Hl2 Hpm Hch' Hkd Hld.
  pose proof (Hb _ _ Hi) as Hbi. assert (g ∈ l1 ++ g :: l2) as Hgin by set_solver.
  destruct (bucket_node _ _ _ _ _ _ _ _ _ _ _ Hbi Hgin Hn) as [(cn & k & Hk & Hd & Hin & Hcn) _].
  pose proof (bo_list _ _ _ _ _ _ _ _ Hbi) as Hel. rewrite nodes_app, nodes_cons, Hn in Hel. simpl in Hel.
  destruct (removeKeyPageNode_spec _ _ _ _ _ _ Hel) as (e & h1 & E1 & Hel1 & [Hs1 Hs2 Hs3 Hs4] & Hoff1 & Hoff2).
  specialize (Hpm _ Hc). assert (cache_ok (LRUCache.with_pm c pm) h1 L pgs) as Hc1.
  { eapply cache_kpn; [exact Hpm|done|done|]. intros q. by rewrite !data_owner, Hs3. }
  apply list_elem_of_split in Hin as (L1 & L2 & ->).
  pose proof (Hs3 p) as Hk1. rewrite Hk in Hk1. destruct (h_kpn h1 !! p) as [k1|] eqn:Ek1; [|done]. apply (inj Some) in Hk1.
  rewrite Hd in Hk1. unfold kpn_data in Hk1. injection Hk1 as Hka _ Hkc.
  destruct (free_spec _ h1 L1 cn L2 pgs p k1 a Hc1 ltac:(by rewrite Hs1) Ek1 Hkc Hka)
    as (c' & h' & pgs' & E2 & Hc' & _ & Hnum' & Hmax' & Hks' & Hmem' & _ & Hkpn' & Hcn').
  destruct (bo_off _ _ _ _ _ _ _ _ Hbi) as (e0 & Ez & Hoe). pose proof (zget_Some _ _ _ Ez) as Hir.
  assert (forall q x o, q <> p -> node_at h (L1 ++ cn :: L2) q x o -> node_at h' (L1 ++ L2) q x o) as Hmono.
  { intros q x o Hq (cq & kq & H1 & H2 & H3 & H4). pose proof (Hs3 q) as H5. rewrite H1 in H5.
    destruct (h_kpn h1 !! q) as [kq1|] eqn:Eq1; [|done]. apply (inj Some) in H5. exists cq, kq1.
    assert (cq <> cn) as Hne by (intros ->; congruence). split; [by rewrite Hkpn', lookup_delete_ne|]. split; [congruence|].
    split; [set_solver|]. by rewrite Hcn', Hs1. }
  assert (forall x, PageMgr.load (lc_pageMgr c') x = PageMgr.load pm x) as Hload by (intros x; unfold PageMgr.load; by rewrite Hmem').
  eexists _, h1, c', h', (L1 ++ L2). split; [exact E1|]. split; [exact E2|].
  split; [eauto|]. split; [rewrite Hnum'; cbn [LRUCache.with_pm lc_num]; rewrite !zlen_app, zlen_cons in *; lia|]. split; [by rewrite Hks'|].
  split; [rewrite zlen_zset, Hht; unfold zlen; by rewrite length_insert|].
  split; [|rewrite Hnum', Hmax'; cbn [LRUCache.with_pm lc_num lc_max]; rewrite (missing_insert _ _ _ _ Hi), !missing_app, missing_cons, Hn; lia].
  assert (p ∉ nodes (l1 ++ l2)) as Hpn.
  { pose proof (el_nodup _ _ _ _ Hel) as Hnd. rewrite <- Permutation_middle in Hnd. apply NoDup_cons in Hnd as [? _]. by rewrite nodes_app. }
  intros j l [(<- & <- & _)|[Hne Hj]]%list_lookup_insert_Some.
  - destruct Hbi as [_ _ Hpf _ Hnd Hkk]. pose proof (cached_prefix_app _ _ Hpf) as (Hpf1 & Hpf2 & Hall).
    specialize (Hall ltac:(rewrite nodes_cons, Hn; done)). simpl in Hpf2. rewrite Hn in Hpf2. split.
    + rewrite nodes_app. eapply entry_list_frame; [exact Hel1|done|]. intros x Hx. rewrite Hkpn', lookup_delete_ne; [done|]. intros <-.
      apply Hpn. by rewrite nodes_app.
    + exists e. split; [by apply zget_zset_eq|]. destruct l1 as [|g1 l1].
      * simpl in *. destruct Hl2 as [->|Hl2]; [by apply Hoff2|]. destruct l2 as [|g2 l2]; [done|].
        simpl in Hpf2. destruct (g_node g2) as [[q b]|] eqn:Eg2; [|by rewrite (nodes_none (g2 :: l2)) in Hl2 by (by constructor)].
        destruct Hel1 as [(off & He & Hof) _ _]. rewrite zget_zset_eq in He by done. injection He as ->. simpl.
        destruct Hch' as [[_ Hm2] _]. destruct (Hm2 q b Eg2) as [(cq & kq & H1 & H2 & _) _].
        pose proof (Hs3 q) as H5. rewrite H1 in H5. destruct (h_kpn h1 !! q) as [kq1|] eqn:Eq1; [|done]. apply (inj Some) in H5.
        rewrite <- (Hof q kq1); [unfold kpn_data in *; congruence| |done]. by rewrite nodes_cons, Eg2.
      * inversion_clear Hall as [|? ? [[q b] Hq] _]. destruct Hoff1 as (e1 & He1 & ->); [rewrite nodes_cons, Hq; done|].
        rewrite Ez in He1. injection He1 as <-. by rewrite Hoe.
    + by apply cached_all.
    + eapply chain_impl; [exact Hch'|]. intros x y z Hz [Hz1 Hz3]. split; [done|]. intros q b Hq. destruct (Hz3 q b Hq) as (Hq1 & kpq & Hq2 & Hq3).
      split; [|exists kpq; by rewrite Hload]. apply Hmono; [|done]. intros ->. apply Hpn, elem_of_nodes. eauto.
    + rewrite !fmap_app, fmap_cons in *. rewrite <- Permutation_middle in Hnd. by apply NoDup_cons in Hnd as [_ ?].
    + intros g1 g2 kk H1 H2. apply (Hkk g1 g2 kk); by apply elem_of_mid; right.
  - specialize (Hb j l Hj). eapply bucket_frame; [exact Hb|by rewrite zget_zset_ne by lia| | |].
    + intros x Hx. destruct (bucket_disk _ _ _ _ _ _ _ _ _ Hb Hx) as (kpx & ? & ? & Hkx & []). rewrite Hkx. apply Hkd; [done|lia].
    + intros q (x & b & Hx & Hq)%elem_of_nodes. destruct (buckets_apart _ _ _ _ _ _ _ _ _ _ g x Hbi Hb ltac:(lia) Hgin Hx) as [_ Ha].
      destruct (Ha _ _ _ _ Hn Hq) as [Hpq _]. rewrite Hkpn', lookup_delete_ne by done. apply Hs4. intros Hq'. rewrite <- nodes_app in Hq'.
      apply elem_of_nodes in Hq' as (y & b' & Hy & Hyq).
      destruct (buckets_apart _ _ _ _ _ _ _ _ _ _ y x Hbi Hb ltac:(lia) ltac:(by apply elem_of_mid; right) Hx) as [_ Ha']. by destruct (Ha' _ _ _ _ Hyq Hq).
    + intros x q b Hx Hq Hqn. destruct (buckets_apart _ _ _ _ _ _ _ _ _ _ g x Hbi Hb ltac:(lia) Hgin Hx) as [_ Ha].
      destruct (Ha _ _ _ _ Hn Hq) as [Hpq _]. split; [by apply Hmono|]. rewrite Hload.
      destruct (bucket_node _ _ _ _ _ _ _ _ _ _ _ Hb Hx Hq) as [_ (kpx & ? & ? & Hkx & [])]. rewrite Hkx. apply Hld; [done|lia].
Qed.
End memory.
