(* ===== verification/RdbSearch.v ===== *)
(** * Walking through a bucket

    [processKeyPages] on a database whose buckets are known: it visits the pages
    of the bucket in order, those in memory first, then those that are only on
    the disk, which it puts in memory, up to the page where the operation ends. *)
From S2P Require Import Prelude Bytes DbStruct KeyRec KeyPage File FdpMgr DbFiles Disk PageMgr Cache.
From S2P Require Import HashTable Dll CacheFacts HashFacts Store PageStore RdbFiles RdbInv RdbMem Unwind Rdb.

Section walk.
Context {OS : Type} (sys : syscalls OS) (D : gset Z) `{Rel : !Reliable sys D}.
Implicit Types (d : db OS) (f : key_find) (g : pg) (kd : gmap Z key_page) (vd : gmap Z value_page) (bks : list (list pg)).

(** The database [d] has the key pages [kd] and the value pages [vd] on the disk
    and the buckets [bks]; it can take [n] more pages. *)
Record db_ok d kd vd bks (n : Z) : Prop := {
  do_size : page_size (d_kpSize d) /\ d_kpSize d <= 8192;
  do_ht : d_htSize d = zlen bks /\ 0 < zlen bks < 2 ^ 31;
  do_files : files_ok sys D (d_kpSize d) (d_kf d) (d_vf d) (d_os d) kd vd n;
  do_mem : exists L, mem_ok (d_kpSize d) kd (d_ht d) (d_cache d) (d_heap d) L bks n;
  do_n : 0 <= n }.

(** The page of a bucket in memory. *)
Lemma db_load d kd vd bks n i l1 g l2 p a : db_ok d kd vd bks n -> bks !! i = Some (l1 ++ g :: l2) -> g_node g = Some (p, a) ->
  exists kp kp0, Rdb.load d a = Val kp /\ kd !! g_off g = Some kp0 /\
    page_is (d_kpSize d) (Z.of_nat i) (last_off (-1) l1) (first_off l2 (-1)) kp (g_map g) /\
    page_is (d_kpSize d) (Z.of_nat i) (last_off (-1) l1) (first_off l2 (-1)) kp0 (g_map g).
Proof.
  intros [_ _ _ [L (_ & _ & _ & _ & Hb & _)] _] Hi Hn. pose proof (bo_chain _ _ _ _ _ _ _ _ (Hb _ _ Hi)) as Hc.
  apply chain_at in Hc as [(kp0 & H1 & H2) H3]. destruct (H3 p a Hn) as (_ & kp & H4 & H5). by exists kp, kp0.
Qed.

(** Its node. *)
Lemma db_node d kd vd bks n i l1 g l2 p a : db_ok d kd vd bks n -> bks !! i = Some (l1 ++ g :: l2) -> g_node g = Some (p, a) ->
  exists k, Heap.get_kpn (d_heap d) p = Val k /\ kpn_kp k = Some a /\ kpn_kpoff k = g_off g /\ kpn_next k = head (nodes l2) /\ kpn_prev k = last (nodes l1).
Proof.
  intros [_ _ _ [L (_ & _ & _ & _ & Hb & _)] _] Hi Hn. specialize (Hb _ _ Hi).
  destruct (bucket_node _ _ _ _ _ _ _ _ _ _ _ Hb ltac:(by apply elem_of_mid; left) Hn) as [(cn & k & Hk & Hd & _) _].
  pose proof (el_seg _ _ _ _ (bo_list _ _ _ _ _ _ _ _ Hb)) as Hseg. rewrite nodes_app, nodes_cons, Hn in Hseg. simpl in Hseg.
  apply kseg_node in Hseg as (k' & Hk' & Hkp & Hkn). rewrite Hk in Hk'. injection Hk' as <-.
  exists k. unfold Heap.get_kpn. rewrite Hk. unfold kpn_data in Hd. injection Hd as ? ? ?. split_and!; try done.
Qed.

Lemma db_off d kd vd bks n i l1 g l2 : db_ok d kd vd bks n -> bks !! i = Some (l1 ++ g :: l2) -> 0 <= g_off g /\ fits 8 (g_off g).
Proof.
  intros [[Hs _] _ Hf [L (_ & _ & _ & _ & Hb & _)] Hn] Hi. specialize (Hb _ _ Hi).
  destruct (bucket_disk _ _ _ _ _ _ _ _ _ Hb ltac:(by apply elem_of_mid; left)) as (kp & ? & ? & Hkp & _).
  eapply files_key_off; [exact Hs|exact Hf|done|exact Hkp].
Qed.

(** Putting the same content in memory again. *)
Lemma db_store d kd vd bks n i l1 g l2 p a kp : db_ok d kd vd bks n -> bks !! i = Some (l1 ++ g :: l2) -> g_node g = Some (p, a) ->
  page_is (d_kpSize d) (Z.of_nat i) (last_off (-1) l1) (first_off l2 (-1)) kp (g_map g) -> db_ok (Rdb.store d a kp) kd vd bks n.
Proof.
  intros Hok Hi Hn Hp. destruct (db_load _ _ _ _ _ _ _ _ _ _ _ Hok Hi Hn) as (_ & kp0 & _ & Hkp0 & _ & Hp0).
  destruct Hok as [Hs Hh Hf [L Hm] Hn0]. split; try done. exists L.
  pose proof (mem_set _ kd kd _ _ _ _ _ _ _ _ _ _ _ _ (g_map g) kp kp0 Hm Hi Hn Hkp0 (fun _ _ => eq_refl) Hp0 Hp) as H.
  rewrite list_insert_id in H by (rewrite Hi; destruct g; simpl in *; by subst). apply H.
  intros k x Hk Hx Hkx. done.
Qed.

(** ** One page *)
Definition passes (kpSize : Z) (op : op_t) (k : bytes) (M : gmap bytes Z) : Prop :=
  match op with
  | GET | DEL => M !! k = None
  | SET => NUM_OF_KEYS_IN_PAGE kpSize <= Z.of_nat (size M)
  | NIL => True
  end.

(** What a walk keeps of the search. *)
Definition same_search f f' : Prop := f_ki f' = f_ki f /\ f_kpn f' = f_kpn f.

Lemma visit_pass d kd vd bks n i l1 g l2 p a f k op : db_ok d kd vd bks n -> bks !! i = Some (l1 ++ g :: l2) -> g_node g = Some (p, a) ->
  key_is (f_ki f) k -> passes (d_kpSize d) op k (g_map g) ->
  exists f' d', Rdb.visit sys d f op p a (g_off g) = Val (inr (first_off l2 (-1)), f', d') /\ db_ok d' kd vd bks n /\
    same_search f f' /\ f_lkp f' = Some a /\ f_lkpoff f' = g_off g /\ d_heap d' = d_heap d /\ d_kpSize d' = d_kpSize d /\
    (forall x, x <> a -> Rdb.load d' x = Rdb.load d x).
Proof.
  intros Hok Hi Hn Hk Hpass. destruct (db_load _ _ _ _ _ _ _ _ _ _ _ Hok Hi Hn) as (kp & kp0 & Hld & _ & Hp & _).
  unfold Rdb.visit. rewrite Hld. cbn [obind]. destruct op; simpl in Hpass.
  - rewrite (pi_noff _ _ _ _ _ _ Hp). eexists _, d. split; [done|]. by split_and!.
  - pose proof (page_get _ _ _ _ _ _ _ _ Hp Hk) as Hg. rewrite Hpass in Hg. rewrite Hg. cbn [obind Z.leb Z.compare].
    rewrite (pi_noff _ _ _ _ _ _ Hp). eexists _, d. split; [done|]. by split_and!.
  - rewrite (page_vcount _ _ _ _ _ _ Hp), (proj2 (Z.ltb_ge _ _)) by done.
    rewrite (pi_noff _ _ _ _ _ _ Hp). eexists _, d. split; [done|]. by split_and!.
  - destruct (page_remove _ _ _ _ _ _ _ _ Hp Hk) as (idx & kp' & -> & Hidx & Hp'). cbn [obind].
    rewrite (delete_id _ _ Hpass) in Hp'. destruct (Z.leb_spec 0 idx) as [H0|H0].
    { apply Hidx in H0 as [? E]. congruence. }
    rewrite (pi_noff _ _ _ _ _ _ Hp'). eexists _, _. split; [done|]. split; [by eapply db_store|]. split_and!; try done.
    intros x Hx. unfold Rdb.load. simpl. by rewrite load_store, decide_False.
Qed.

(** ** The pages in memory *)

(** The head of the first loop, on the page [g]. *)
Lemma cached_step fuel d kd vd bks n i l1 g l2 p a f op : db_ok d kd vd bks n -> bks !! i = Some (l1 ++ g :: l2) -> g_node g = Some (p, a) ->
  exists d1, db_ok d1 kd vd bks n /\ d_kpSize d1 = d_kpSize d /\ (forall x, Rdb.load d1 x = Rdb.load d x) /\
    Rdb.cached_loop sys (S fuel) d f op (g_off g) (Some p) =
      (let* (res, f, d) := Rdb.visit sys d1 f op p a (g_off g) in
       match res with
       | inl r => Val (inl r, f, d)
       | inr nextOffset => let* k := Heap.get_kpn (d_heap d) p in Rdb.cached_loop sys fuel d f op nextOffset (kpn_next k)
       end).
Proof.
  intros Hok Hi Hn. pose proof (db_off _ _ _ _ _ _ _ _ _ Hok Hi) as [Hoff _].
  destruct (db_node _ _ _ _ _ _ _ _ _ _ _ Hok Hi Hn) as (k & Hk & Hka & _ & _ & _).
  pose proof Hok as [Hs Hh Hf [L Hm] Hn0]. pose proof Hm as (_ & _ & _ & _ & Hb & _). specialize (Hb _ _ Hi).
  destruct (bucket_node _ _ _ _ _ _ _ _ _ _ _ Hb ltac:(by apply elem_of_mid; left) Hn) as [Hna _].
  destruct (mem_touch _ _ _ _ _ _ _ _ _ _ _ Hm Hna) as (c' & h' & L' & Et & Hm' & _ & Hkpn & Hpm).
  exists (Rdb.with_cache d c' h' (d_os d)). split; [split; try done; by exists L'|]. split; [done|].
  split; [intros x; unfold Rdb.load; simpl; by rewrite Hpm|].
  cbn [Rdb.cached_loop]. rewrite (proj2 (Z.eqb_neq (g_off g) (-1))) by lia. rewrite Et. cbn [obind].
  change (d_heap (Rdb.with_cache d c' h' (d_os d))) with h'. assert (Heap.get_kpn h' p = Val k) as Hk' by (by unfold Heap.get_kpn; rewrite Hkpn).
  rewrite Hk'. cbn [obind]. rewrite Hka. cbn [obind negb].
  change (d_heap (Rdb.with_cache d c' h' (d_os d))) with h'. rewrite Hk'. cbn [obind]. by rewrite Hka.
Qed.

Lemma cached_walk m : forall fuel d kd vd bks n i l1 rest f k op, db_ok d kd vd bks n -> bks !! i = Some (l1 ++ m ++ rest) ->
  Forall (fun g => is_Some (g_node g)) m -> key_is (f_ki f) k -> Forall (fun g => passes (d_kpSize d) op k (g_map g)) m ->
  exists f' d', Rdb.cached_loop sys (length m + fuel) d f op (first_off (m ++ rest) (-1)) (head (nodes (m ++ rest))) =
      Rdb.cached_loop sys fuel d' f' op (first_off rest (-1)) (head (nodes rest)) /\
    db_ok d' kd vd bks n /\ d_kpSize d' = d_kpSize d /\ same_search f f' /\
    (m = [] -> f' = f) /\ (forall g, last m = Some g -> exists p a, g_node g = Some (p, a) /\ f_lkp f' = Some a /\ f_lkpoff f' = g_off g) /\
    (forall x, (forall g p, g ∈ m -> g_node g <> Some (p, x)) -> Rdb.load d' x = Rdb.load d x).
Proof.
  induction m as [|g m IH]; intros fuel d kd vd bks n i l1 rest f k op Hok Hi Hc Hk Hp.
  { exists f, d. by split_and!. }
  inversion_clear Hc as [|? ? [[p a] Hn] Hc']. inversion_clear Hp as [|? ? Hp1 Hp'].
  destruct (cached_step (length m + fuel) d kd vd bks n i l1 g (m ++ rest) p a f op Hok Hi Hn) as (d1 & Hok1 & Hs1 & Hld1 & E).
  destruct (visit_pass d1 kd vd bks n i l1 g (m ++ rest) p a f k op Hok1 Hi Hn Hk) as (f2 & d2 & Ev & Hok2 & Hf2 & Hlk & Hlo & Hh2 & Hs2 & Hld2); [by rewrite Hs1|].
  destruct (db_node d2 kd vd bks n i l1 g (m ++ rest) p a Hok2 Hi Hn) as (kn & Hkn & _ & _ & Hnx & _).
  pose proof Hf2 as [Hki Hkp].
  destruct (IH fuel d2 kd vd bks n i (l1 ++ [g]) rest f2 k op Hok2) as (f3 & d3 & E3 & Hok3 & Hs3 & [Hki3 Hkp3] & Hnil & Hlast & Hld3);
    [by rewrite <- app_assoc|done|by rewrite Hki|by rewrite Hs2, Hs1|].
  exists f3, d3. split.
  - cbn [app length first_off Nat.add]. rewrite nodes_cons, Hn. cbn [app head]. rewrite E, Ev. cbn [obind]. rewrite Hkn. cbn [obind]. by rewrite Hnx.
  - split_and!; try done; [congruence|split; congruence| |].
    2: { intros b Hb. rewrite Hld3 by (intros g' q Hg'; apply Hb; set_solver). rewrite Hld2, Hld1; [done|]. intros ->. apply (Hb g p); [set_solver|done]. }
    intros g' Hg'. rewrite last_cons in Hg'. destruct (last m) as [z|] eqn:El.
    + injection Hg' as <-. by apply Hlast.
    + apply last_None in El as ->. injection Hg' as <-. exists p, a. by rewrite Hnil.
Qed.

(** ** The pages on the disk *)

Lemma missing_pos bks i l1 g l2 : bks !! i = Some (l1 ++ g :: l2) -> g_node g = None -> 0 < missing (mjoin bks).
Proof.
  intros Hi Hn. rewrite <- (take_drop_middle bks i _ Hi), join_app. simpl. rewrite !missing_app, missing_cons, Hn.
  pose proof (missing_nonneg l1). pose proof (missing_nonneg l2). pose proof (missing_nonneg (mjoin (take i bks))).
  pose proof (missing_nonneg (mjoin (drop (S i) bks))). lia.
Qed.

(** The head of the second loop: the page [g] is put in memory. *)
Lemma disk_step fuel d kd vd bks n i l1 g l2 f op : db_ok d kd vd bks n -> bks !! i = Some (l1 ++ g :: l2) -> g_node g = None ->
  Forall (fun g => is_Some (g_node g)) l1 -> (2 <= fuel)%nat -> ki_hash (f_ki f) = Z.of_nat i ->
  exists d1 p a, db_ok d1 kd vd (<[i := l1 ++ mkPg (g_off g) (g_map g) (Some (p, a)) :: l2]> bks) n /\ d_kpSize d1 = d_kpSize d /\
    Rdb.disk_loop sys (S fuel) d f op (g_off g) =
      (let* (res, f, d) := Rdb.visit sys d1 f op p a (g_off g) in
       match res with
       | inl r => Val (inl r, f, d)
       | inr nextOffset => Rdb.disk_loop sys fuel d f op nextOffset
       end).
Proof.
  intros Hok Hi Hn Hl1 Hfu Hhash. pose proof (db_off _ _ _ _ _ _ _ _ _ Hok Hi) as [Hoff _].
  destruct Hok as [[Hs Hs'] Hh Hf [L Hm] Hn0]. pose proof Hm as (_ & _ & Hks & _ & Hb & _). specialize (Hb _ _ Hi).
  pose proof (chain_at _ _ _ _ _ _ (bo_chain _ _ _ _ _ _ _ _ Hb)) as [(kp & Hkp & Hp) _].
  destruct (files_read_key sys D _ Hs fuel _ _ _ _ _ _ _ _ Hf Hkp Hfu) as (os' & Er & Hf').
  assert (page_read sys fuel (d_kf d) (d_kpSize d) (g_off g) (d_os d) kp os') as Hread.
  { right. split; [lia|]. exists (enc_key_page kp). split; [done|]. symmetry. by eapply page_bytes. }
  assert (0 < n + missing (mjoin bks)) as Hpos.
  { pose proof (missing_pos _ _ _ _ _ Hi Hn). lia. }
  destruct (mem_get _ sys fuel (d_kf d) kd _ _ _ _ _ _ _ _ _ _ Hm Hpos Hread) as (p & a & c' & h' & L' & Eg & Hm' & Hna & Hlo & Hld & _).
  destruct (mem_attach _ kd _ c' h' L' bks (n - 1) i l1 g l2 p a kp Hm' Hlo Hna Hi Hl1 Hn Hld Hp) as (ht' & h2 & Ea & Hm2 & Hmono).
  replace (n - 1 + 1) with n in Hm2 by lia. destruct (Hmono _ _ _ Hna) as (cn & kn & Hkn & Hkd & _).
  set (d1 := Rdb.with_ht (Rdb.with_cache d c' h' os') ht' h2). exists d1, p, a. split_and!; [|done|].
  - split; try done; [|by exists L']. destruct Hh as [Hh1 Hh2]. unfold zlen in *. rewrite length_insert. done.
  - cbn [Rdb.disk_loop]. rewrite (proj2 (Z.eqb_neq (g_off g) (-1))) by lia. rewrite Eg. cbn [obind].
    change (d_ht (Rdb.with_cache d c' h' os')) with (d_ht d). change (d_heap (Rdb.with_cache d c' h' os')) with h'. rewrite Hhash, Ea. cbn [obind].
    change (d_heap (Rdb.with_ht (Rdb.with_cache d c' h' os') ht' h2)) with h2. unfold Heap.get_kpn. rewrite Hkn. cbn [deref obind].
    unfold kpn_data in Hkd. injection Hkd as -> _ _. done.
Qed.

Lemma disk_walk m : forall fuel d kd vd bks n i l1 rest f k op, db_ok d kd vd bks n -> bks !! i = Some (l1 ++ m ++ rest) ->
  Forall (fun g => is_Some (g_node g)) l1 -> Forall (fun g => g_node g = None) m -> key_is (f_ki f) k -> ki_hash (f_ki f) = Z.of_nat i ->
  Forall (fun g => passes (d_kpSize d) op k (g_map g)) m -> (2 <= fuel)%nat ->
  exists f' d' m', Rdb.disk_loop sys (length m + fuel) d f op (first_off (m ++ rest) (-1)) =
      Rdb.disk_loop sys fuel d' f' op (first_off rest (-1)) /\
    db_ok d' kd vd (<[i := l1 ++ m' ++ rest]> bks) n /\ d_kpSize d' = d_kpSize d /\ same_search f f' /\
    shape <$> m' = shape <$> m /\ Forall (fun g => is_Some (g_node g)) m' /\
    (m' = [] -> f' = f) /\ (forall g, last m' = Some g -> exists p a, g_node g = Some (p, a) /\ f_lkp f' = Some a /\ f_lkpoff f' = g_off g).
Proof.
  induction m as [|g m IH]; intros fuel d kd vd bks n i l1 rest f k op Hok Hi Hl1 Hc Hk Hh Hp Hfu.
  { exists f, d, []. rewrite list_insert_id by done. by split_and!. }
  inversion_clear Hc as [|? ? Hn Hc']. inversion_clear Hp as [|? ? Hp1 Hp']. pose proof (lookup_lt_Some _ _ _ Hi) as Hlt.
  destruct (disk_step (length m + fuel) d kd vd bks n i l1 g (m ++ rest) f op Hok Hi Hn Hl1 ltac:(lia) Hh) as (d1 & p & a & Hok1 & Hs1 & E).
  set (g' := mkPg (g_off g) (g_map g) (Some (p, a))) in *. set (bks1 := <[i := l1 ++ g' :: m ++ rest]> bks) in *.
  assert (bks1 !! i = Some (l1 ++ g' :: m ++ rest)) as Hi1 by (by apply list_lookup_insert_eq).
  destruct (visit_pass d1 kd vd bks1 n i l1 g' (m ++ rest) p a f k op Hok1 Hi1 eq_refl Hk) as (f2 & d2 & Ev & Hok2 & Hf2 & Hlk & Hlo & Hh2 & Hs2 & _); [by rewrite Hs1|].
  pose proof Hf2 as [Hki Hkp].
  destruct (IH fuel d2 kd vd bks1 n i (l1 ++ [g']) rest f2 k op Hok2) as (f3 & d3 & m' & E3 & Hok3 & Hs3 & [Hki3 Hkp3] & Hsh & Hcm & Hnil & Hlast);
    [by rewrite <- app_assoc|apply Forall_app; split; [done|apply Forall_singleton; eauto]|done|by rewrite Hki|by rewrite Hki|by rewrite Hs2, Hs1|done|].
  exists f3, d3, (g' :: m'). unfold bks1 in Hok3. rewrite list_insert_insert_eq, <- app_assoc in Hok3. split; [|split; [exact Hok3|]].
  - cbn [app length first_off Nat.add]. rewrite E. change (g_off g') with (g_off g) in Ev. rewrite Ev. cbn [obind]. exact E3.
  - split; [congruence|]. split; [split; congruence|]. split; [cbn [fmap list_fmap]; f_equal; exact Hsh|].
    split; [constructor; [eauto|done]|]. split; [done|]. intros x Hx. rewrite last_cons in Hx. destruct (last m') as [z|] eqn:El.
    + injection Hx as <-. by apply Hlast.
    + apply last_None in El as ->. injection Hx as <-. exists p, a. by rewrite Hnil.
Qed.
End walk.

(** ** Facts (Searching a bucket)

    [processKeyPages] and [addNewPage] on a database whose buckets are known:
    the search passes the pages that do not end it and ends at the first one that
    does; after a search through all pages the whole bucket is in memory. *)

Section search.
Context {OS : Type} (sys : syscalls OS) (D : gset Z) `{Rel : !Reliable sys D}.
Implicit Types (d : db OS) (f : key_find) (g : pg) (kd : gmap Z key_page) (vd : gmap Z value_page) (bks : list (list pg)).
Local Abbreviation db_ok := (db_ok sys D).

(** The page is in memory. *)
Definition cached g : Prop := is_Some (g_node g).

(** What the search remembers of the last page it passed. *)
Definition last_seen f (l : list pg) : Prop :=
  forall g, last l = Some g -> exists p a, g_node g = Some (p, a) /\ f_lkp f = Some a /\ f_lkpoff f = g_off g.

Lemma db_start d kd vd bks n i l : db_ok d kd vd bks n -> bks !! i = Some l ->
  HashTable.getOffset (d_ht d) (Z.of_nat i) = Val (first_off l (-1)) /\
  HashTable.getKeyPageNodeList (d_ht d) (Z.of_nat i) = Val (head (nodes l)).
Proof.
  intros [_ _ _ [L (_ & _ & _ & _ & Hb & _)] _] Hi. destruct (Hb _ _ Hi) as [[(off & He & _) _ _] (e & He' & Ho) _ _ _ _].
  unfold HashTable.getOffset, HashTable.getKeyPageNodeList. rewrite (entry_ok _ _ _ He). rewrite He in He'. injection He' as <-.
  simpl in *. by rewrite Ho.
Qed.

Lemma db_prefix d kd vd bks n i l : db_ok d kd vd bks n -> bks !! i = Some l -> cached_prefix l.
Proof. intros [_ _ _ [L (_ & _ & _ & _ & Hb & _)] _] Hi. apply (Hb _ _ Hi). Qed.

(** Two pages of a bucket are at different addresses. *)
Lemma db_addr d kd vd bks n i l1 g l2 y p q a : db_ok d kd vd bks n -> bks !! i = Some (l1 ++ g :: l2) -> y ∈ l1 ++ l2 ->
  g_node g = Some (p, a) -> g_node y = Some (q, a) -> False.
Proof.
  intros [_ _ _ [L ([pgs Hc] & _ & _ & _ & Hb & _)] _] Hi Hy Hn Hyn. specialize (Hb _ _ Hi).
  apply (bucket_rest _ _ _ _ _ _ _ _ _ _ y Hb Hy). f_equal.
  by apply (bucket_addr_inj _ _ _ _ _ _ _ _ _ y g q p a Hc Hb); [apply elem_of_mid; right|apply elem_of_mid; left|..].
Qed.

(** The first loop ends at the pages that are only on the disk. *)
Lemma cached_end fuel d f op rest : Forall (fun g => g_node g = None) rest ->
  Rdb.cached_loop sys (S fuel) d f op (first_off rest (-1)) (head (nodes rest)) = Val (inr (E_ok, first_off rest (-1)), f, d).
Proof. intros Hr. rewrite (nodes_none _ Hr). cbn [Rdb.cached_loop head]. by destruct (_ =? _). Qed.

(** The pages in memory are passed. *)
Lemma walk_cached fuel d kd vd bks n i l1 rest f k op : db_ok d kd vd bks n -> bks !! i = Some (l1 ++ rest) ->
  Forall cached l1 -> key_is (f_ki f) k -> ki_hash (f_ki f) = Z.of_nat i -> Forall (fun g => passes (d_kpSize d) op k (g_map g)) l1 ->
  (length l1 <= fuel)%nat ->
  exists f' d', db_ok d' kd vd bks n /\ d_kpSize d' = d_kpSize d /\ same_search f f' /\ (l1 = [] -> f' = f) /\ last_seen f' l1 /\
    (forall x, (forall g p, g ∈ l1 -> g_node g <> Some (p, x)) -> Rdb.load d' x = Rdb.load d x) /\
    Rdb.processKeyPages sys fuel d f op =
      (let* (res, f, d) := Rdb.cached_loop sys (fuel - length l1) d' f' op (first_off rest (-1)) (head (nodes rest)) in
       match res with
       | inl r => Val (r, f, d)
       | inr (retval, nextOffset) =>
           let* (res, f, d) := if retval =? E_ok then Rdb.disk_loop sys fuel d f op nextOffset else Val (inr retval, f, d) in
           match res with
           | inl r => Val (r, f, d)
           | inr retval => Val (if retval =? E_ok then E_not_found else retval, f, d)
           end
       end).
Proof.
  intros Hok Hi Hc Hk Hh Hp Hfu. destruct (db_start _ _ _ _ _ _ _ Hok Hi) as [E1 E2].
  destruct (cached_walk sys D l1 (fuel - length l1) d kd vd bks n i [] rest f k op Hok Hi Hc Hk Hp) as (f' & d' & E & Hok' & Hs & Hss & Hnil & Hlast & Hld).
  exists f', d'. split_and!; try done. unfold Rdb.processKeyPages. rewrite Hh, E1, E2. cbn [obind].
  replace fuel with (length l1 + (fuel - length l1))%nat at 1 by lia. by rewrite E.
Qed.

(** All pages are passed. *)
Lemma process_all fuel d kd vd bks n i l f k op : db_ok d kd vd bks n -> bks !! i = Some l -> key_is (f_ki f) k ->
  ki_hash (f_ki f) = Z.of_nat i -> Forall (fun g => passes (d_kpSize d) op k (g_map g)) l -> (length l + 2 <= fuel)%nat ->
  exists f' d' l', Rdb.processKeyPages sys fuel d f op = Val (E_not_found, f', d') /\ db_ok d' kd vd (<[i := l']> bks) n /\
    d_kpSize d' = d_kpSize d /\ same_search f f' /\ shape <$> l' = shape <$> l /\ Forall cached l' /\
    (l' = [] -> f' = f) /\ last_seen f' l'.
Proof.
  intros Hok Hi Hk Hh Hp Hfu. destruct (cached_split _ (db_prefix _ _ _ _ _ _ _ Hok Hi)) as (l1 & l2 & -> & Hc1 & Hc2).
  apply Forall_app in Hp as [Hp1 Hp2]. rewrite length_app in Hfu.
  destruct (walk_cached fuel d kd vd bks n i l1 l2 f k op Hok Hi Hc1 Hk Hh Hp1 ltac:(lia)) as (f1 & d1 & Hok1 & Hs1 & [Hki1 Hkp1] & Hnil1 & Hl1 & _ & E1).
  destruct (disk_walk sys D l2 (fuel - length l2) d1 kd vd bks n i l1 [] f1 k op Hok1) as (f2 & d2 & l2' & E2 & Hok2 & Hs2 & [Hki2 Hkp2] & Hsh & Hc2' & Hnil2 & Hl2);
    [by rewrite app_nil_r|done|done|by rewrite Hki1|by rewrite Hki1|by rewrite Hs1|lia|].
  rewrite !app_nil_r in *. exists f2, d2, (l1 ++ l2'). split.
  - rewrite E1. destruct (fuel - length l1)%nat as [|fu] eqn:Ef; [lia|]. rewrite (cached_end _ _ _ _ _ Hc2). cbn [obind]. rewrite Z.eqb_refl.
    replace fuel with (length l2 + (fuel - length l2))%nat at 1 by lia. rewrite E2.
    destruct (fuel - length l2)%nat as [|fu2] eqn:Ef2; [lia|]. cbn [Rdb.disk_loop first_off]. by rewrite Z.eqb_refl.
  - split; [done|]. split; [congruence|]. split; [split; congruence|]. split; [by rewrite !fmap_app, Hsh|].
    split; [by apply Forall_app|]. split.
    + intros [-> ->]%app_eq_nil. by rewrite (Hnil2 eq_refl), (Hnil1 eq_refl).
    + intros g Hg. rewrite last_app in Hg. destruct (last l2') as [x|] eqn:El; [injection Hg as <-; by apply Hl2|].
      apply last_None in El. rewrite (Hnil2 El). by apply Hl1.
Qed.

(** The search comes to the page [g]. *)
Lemma process_to fuel d kd vd bks n i l1 g l2 f k op : db_ok d kd vd bks n -> bks !! i = Some (l1 ++ g :: l2) -> key_is (f_ki f) k ->
  ki_hash (f_ki f) = Z.of_nat i -> Forall (fun g => passes (d_kpSize d) op k (g_map g)) l1 -> (length l1 + 3 <= fuel)%nat ->
  exists f' d' l1' p a, db_ok d' kd vd (<[i := l1' ++ mkPg (g_off g) (g_map g) (Some (p, a)) :: l2]> bks) n /\
    d_kpSize d' = d_kpSize d /\ same_search f f' /\ shape <$> l1' = shape <$> l1 /\
    (forall q b, g_node g = Some (q, b) -> q = p /\ b = a /\ Rdb.load d' a = Rdb.load d a) /\
    forall r f2 d2, Rdb.visit sys d' f' op p a (g_off g) = Val (inl r, f2, d2) -> Rdb.processKeyPages sys fuel d f op = Val (r, f2, d2).
Proof.
  intros Hok Hi Hk Hh Hp Hfu. pose proof (db_prefix _ _ _ _ _ _ _ Hok Hi) as Hpf. destruct (g_node g) as [[p a]|] eqn:Hn.
  - apply cached_prefix_app in Hpf as (_ & _ & Hall). specialize (Hall ltac:(rewrite nodes_cons, Hn; done)).
    destruct (walk_cached fuel d kd vd bks n i l1 (g :: l2) f k op Hok Hi Hall Hk Hh Hp ltac:(lia)) as (f1 & d1 & Hok1 & Hs1 & Hss1 & _ & _ & Hld1 & E1).
    destruct (fuel - length l1)%nat as [|fu] eqn:Ef; [lia|].
    destruct (cached_step sys D fu d1 kd vd bks n i l1 g l2 p a f1 op Hok1 Hi Hn) as (d2 & Hok2 & Hs2 & Hld2 & E2).
    exists f1, d2, l1, p, a. split; [|split; [congruence|split; [done|split; [done|split]]]].
    + rewrite <- Hn. destruct g. by rewrite list_insert_id.
    + intros q b [= <- <-]. split; [done|]. split; [done|]. rewrite Hld2, Hld1; [done|]. intros y q' Hy Hyn.
      apply (db_addr d kd vd bks n i l1 g l2 y p q' a); [done|done|set_solver|done|done].
    + intros r f3 d3 Ev. rewrite E1. cbn [first_off]. rewrite nodes_cons, Hn. cbn [app head]. rewrite E2, Ev. done.
  - destruct (cached_split _ (proj1 (cached_prefix_app _ _ Hpf))) as (c & u & -> & Hc & Hu). rewrite length_app in Hfu.
    pose proof (proj1 (proj2 (cached_prefix_app _ _ Hpf))) as Hg. cbn [cached_prefix] in Hg. rewrite Hn in Hg.
    apply Forall_app in Hp as [Hp1 Hp2]. rewrite <- app_assoc in Hi.
    destruct (walk_cached fuel d kd vd bks n i c (u ++ g :: l2) f k op Hok Hi Hc Hk Hh Hp1 ltac:(lia)) as (f1 & d1 & Hok1 & Hs1 & [Hki1 Hkp1] & _ & _ & Hld1 & E1).
    destruct (disk_walk sys D u (fuel - length u) d1 kd vd bks n i c (g :: l2) f1 k op Hok1 Hi) as (f2 & d2 & u' & E2 & Hok2 & Hs2 & [Hki2 Hkp2] & Hsh & Hcu & _ & _);
      [done|done|by rewrite Hki1|by rewrite Hki1|by rewrite Hs1|lia|].
    destruct (fuel - length u)%nat as [|fu] eqn:Ef; [lia|].
    destruct (disk_step sys D fu d2 kd vd (<[i := c ++ u' ++ g :: l2]> bks) n i (c ++ u') g l2 f2 op Hok2) as (d3 & p & a & Hok3 & Hs3 & E3).
    { rewrite list_lookup_insert_eq by (by eapply lookup_lt_Some). by rewrite <- app_assoc. }
    { done. } { by apply Forall_app. } { lia. } { by rewrite Hki2, Hki1. }
    exists f2, d3, (c ++ u'), p, a. rewrite list_insert_insert_eq in Hok3. split; [exact Hok3|]. split; [congruence|]. split; [split; congruence|].
    split; [by rewrite !fmap_app, Hsh|]. split; [done|]. intros r f4 d4 Ev. rewrite E1.
    destruct (fuel - length c)%nat as [|fu2] eqn:Ef2; [lia|]. rewrite cached_end by (apply Forall_app; split; [done|by constructor]).
    cbn [obind]. rewrite Z.eqb_refl. replace fuel with (length u + S fu)%nat by lia. rewrite E2. cbn [first_off]. rewrite E3, Ev. done.
Qed.
End search.
