(* ===== verification/RdbOps.v ===== *)
(** * The work on a page of a bucket

    Where a search ends: the page that has the key ([GET], [DEL]) or the first
    page with room for it ([SET]), and the new page that [addNewPage] puts behind
    the last one. *)
From S2P Require Import Prelude Bytes DbStruct KeyRec KeyPage File FdpMgr DbFiles Disk PageMgr Cache HashTable.
From S2P Require Import Dll CacheFacts HashFacts Store PageStore RdbFiles RdbInv RdbMem Unwind Rdb RdbSearch.

Section ops.
Context {OS : Type} (sys : syscalls OS) (D : gset Z) `{Rel : !Reliable sys D}.
Implicit Types (d : db OS) (f : key_find) (g : pg) (kd : gmap Z key_page) (vd : gmap Z value_page) (bks : list (list pg)).
Local Abbreviation db_ok := (db_ok sys D).

Lemma visit_get d kd vd bks n i l1 g l2 p a f k v : db_ok d kd vd bks n -> bks !! i = Some (l1 ++ g :: l2) -> g_node g = Some (p, a) ->
  key_is (f_ki f) k -> g_map g !! k = Some v -> v <> -1 ->
  exists kp idx, Rdb.load d a = Val kp /\ KeyRecords.get kp (f_ki f) = Val idx /\
    Rdb.visit sys d f GET p a (g_off g) = Val (inl E_ok, Rdb.f_found f (ki_with_voff (f_ki f) v) p idx, d) /\
    Rdb.found_asserts d (Rdb.f_found f (ki_with_voff (f_ki f) v) p idx) = Val tt.
Proof.
  intros Hok Hi Hn Hk Hg Hv. destruct (db_load _ _ _ _ _ _ _ _ _ _ _ _ _ Hok Hi Hn) as (kp & kp0 & Hld & _ & Hp & _).
  pose proof (page_get _ _ _ _ _ _ _ _ Hp Hk) as Hget. rewrite Hg in Hget. destruct Hget as (idx & r & Hget & Hidx & Hat & Hr).
  destruct (db_node _ _ _ _ _ _ _ _ _ _ _ _ _ Hok Hi Hn) as (kn & Hkn & Hka & Hko & _). pose proof (db_off _ _ _ _ _ _ _ _ _ _ _ Hok Hi) as [Hoff _].
  exists kp, idx. split; [done|]. split; [done|]. split.
  - unfold Rdb.visit. rewrite Hld. cbn [obind]. rewrite Hget. cbn [obind]. rewrite (proj2 (Z.leb_le 0 idx)) by done. rewrite Hat. cbn [obind]. by rewrite Hr.
  - unfold Rdb.found_asserts. cbn [Rdb.f_found f_kpn f_kidx f_ki ki_with_voff ki_voff obind]. rewrite Hkn. cbn [obind]. rewrite Hka, Hko.
    rewrite bool_decide_true by eauto. cbn [ASSERT obind]. rewrite !(proj2 (Z.eqb_neq _ _)) by (done || lia). done.
Qed.

(** The page in memory gets a new content; it is also written. *)
Lemma db_change d kd vd bks n i l1 g l2 p a M' kp : db_ok d kd vd bks n -> bks !! i = Some (l1 ++ g :: l2) -> g_node g = Some (p, a) ->
  page_is (d_kpSize d) (Z.of_nat i) (last_off (-1) l1) (first_off l2 (-1)) kp M' ->
  (forall k x, is_Some (M' !! k) -> x ∈ l1 ++ l2 -> is_Some (g_map x !! k) -> is_Some (g_map g !! k)) ->
  (exists L, mem_ok (d_kpSize d) (<[g_off g := kp]> kd) (d_ht d) (d_cache (Rdb.store d a kp)) (d_heap d) L
     (<[i := l1 ++ mkPg (g_off g) M' (Some (p, a)) :: l2]> bks) n) /\
  exists d', Rdb.write_page sys (Rdb.store d a kp) (g_off g) kp = (E_ok, d') /\ d_kpSize d' = d_kpSize d /\
    db_ok d' (<[g_off g := kp]> kd) vd (<[i := l1 ++ mkPg (g_off g) M' (Some (p, a)) :: l2]> bks) n.
Proof.
  intros Hok Hi Hn Hp Hkeys. destruct (db_load _ _ _ _ _ _ _ _ _ _ _ _ _ Hok Hi Hn) as (_ & kp0 & _ & Hkp0 & _).
  destruct Hok as [[Hs Hs'] Hh Hf [L Hm] Hn0].
  assert (mem_ok (d_kpSize d) (<[g_off g := kp]> kd) (d_ht d) (d_cache (Rdb.store d a kp)) (d_heap d) L
    (<[i := l1 ++ mkPg (g_off g) M' (Some (p, a)) :: l2]> bks) n) as Hm'.
  { apply (mem_set _ kd _ _ _ _ _ _ _ _ _ _ _ _ _ M' kp kp Hm Hi Hn); try done; [by rewrite lookup_insert_eq|]. intros o Ho. by rewrite lookup_insert_ne. }
  split; [by exists L|].
  destruct (files_write_key sys D (d_kpSize d) Hs _ _ _ _ _ _ _ _ kp Hf Hkp0) as (os' & Ew & Hf'); [by apply (pi_fits _ _ _ _ _ _ Hp)|].
  exists (Rdb.with_os (Rdb.store d a kp) os'). unfold Rdb.write_page. change (d_kf (Rdb.store d a kp)) with (d_kf d). change (d_os (Rdb.store d a kp)) with (d_os d).
  rewrite Ew. split; [done|]. split; [done|]. split; try done; [|by exists L].
  change (d_htSize (Rdb.with_os (Rdb.store d a kp) os')) with (d_htSize d). unfold zlen in *. by rewrite length_insert.
Qed.

Lemma visit_set d kd vd bks n i l1 g l2 p a f k : db_ok d kd vd bks n -> bks !! i = Some (l1 ++ g :: l2) -> g_node g = Some (p, a) ->
  key_is (f_ki f) k -> Z.of_nat (size (g_map g)) < NUM_OF_KEYS_IN_PAGE (d_kpSize d) -> fits 8 (ki_voff (f_ki f)) ->
  (forall x, x ∈ l1 ++ l2 -> g_map x !! k = None) ->
  exists f' d' kp, Rdb.visit sys d f SET p a (g_off g) = Val (inl E_ok, f', d') /\ d_kpSize d' = d_kpSize d /\
    db_ok d' (<[g_off g := kp]> kd) vd (<[i := l1 ++ mkPg (g_off g) (<[k := ki_voff (f_ki f)]> (g_map g)) (Some (p, a)) :: l2]> bks) n.
Proof.
  intros Hok Hi Hn Hk Hroom Hv Hother. destruct (db_load _ _ _ _ _ _ _ _ _ _ _ _ _ Hok Hi Hn) as (kp & kp0 & Hld & _ & Hp & _).
  pose proof (page_vcount _ _ _ _ _ _ Hp) as Hvc.
  destruct (page_put _ _ _ _ _ _ _ _ Hp Hk Hv ltac:(lia)) as (idx & kp' & Eput & Hidx & Hp' & r & Hr).
  destruct (db_change _ _ _ _ _ _ _ _ _ _ _ _ _ Hok Hi Hn Hp') as (_ & d' & Ew & Hs & Hok').
  { intros k' x Hk' Hx Hkx. destruct (decide (k' = k)) as [->|Hne]; [|by rewrite lookup_insert_ne in Hk'].
    rewrite (Hother x Hx) in Hkx. by destruct Hkx. }
  eexists _, d', kp'. split; [|split; [done|exact Hok']].
  unfold Rdb.visit. rewrite Hld. cbn [obind]. rewrite (proj2 (Z.ltb_lt _ _)) by lia. rewrite Eput. cbn [obind].
  rewrite (proj2 (Z.leb_le 0 idx)) by done. rewrite Hr. cbn [obind]. by rewrite Ew.
Qed.

(** The key is removed: the page is written, or it is left without keys in
    memory only. *)
Lemma visit_del d kd vd bks n i l1 g l2 p a f k : db_ok d kd vd bks n -> bks !! i = Some (l1 ++ g :: l2) -> g_node g = Some (p, a) ->
  key_is (f_ki f) k -> is_Some (g_map g !! k) ->
  exists kp idx kp', Rdb.load d a = Val kp /\ KeyRecords.remove kp (f_ki f) = Val (idx, kp') /\
    page_is (d_kpSize d) (Z.of_nat i) (last_off (-1) l1) (first_off l2 (-1)) kp' (delete k (g_map g)) /\
    (exists L, mem_ok (d_kpSize d) (<[g_off g := kp']> kd) (d_ht d) (d_cache (Rdb.store d a kp')) (d_heap d) L
       (<[i := l1 ++ mkPg (g_off g) (delete k (g_map g)) (Some (p, a)) :: l2]> bks) n) /\
    let f' := Rdb.f_found f (f_ki f) p idx in
    (delete k (g_map g) = ∅ -> Rdb.visit sys d f DEL p a (g_off g) = Val (inl E_ok, f', Rdb.store d a kp')) /\
    (delete k (g_map g) <> ∅ -> exists d', Rdb.visit sys d f DEL p a (g_off g) = Val (inl E_ok, f', d') /\
       d_heap d' = d_heap d /\ d_cache d' = d_cache (Rdb.store d a kp') /\ d_kpSize d' = d_kpSize d /\
       db_ok d' (<[g_off g := kp']> kd) vd (<[i := l1 ++ mkPg (g_off g) (delete k (g_map g)) (Some (p, a)) :: l2]> bks) n).
Proof.
  intros Hok Hi Hn Hk Hin. destruct (db_load _ _ _ _ _ _ _ _ _ _ _ _ _ Hok Hi Hn) as (kp & kp0 & Hld & _ & Hp & _).
  destruct (page_remove _ _ _ _ _ _ _ _ Hp Hk) as (idx & kp' & Erm & Hidx & Hp'). pose proof (page_vcount _ _ _ _ _ _ Hp') as Hvc.
  destruct (db_change _ _ _ _ _ _ _ _ _ _ _ _ _ Hok Hi Hn Hp') as (Hm & d' & Ew & Hs & Hok').
  { intros k' x Hk' _ _. destruct (decide (k' = k)) as [->|Hne]; [done|by rewrite lookup_delete_ne in Hk']. }
  exists kp, idx, kp'. split; [done|]. split; [done|]. split; [done|]. split; [done|]. unfold Rdb.visit. rewrite Hld. cbn [obind]. rewrite Erm. cbn [obind].
  rewrite (proj2 (Z.leb_le 0 idx)) by (by apply Hidx). split.
  - intros He. rewrite He, map_size_empty in Hvc. by rewrite Hvc.
  - intros He. rewrite (proj2 (Z.ltb_lt _ _)); [|apply map_size_non_empty_iff in He; lia]. rewrite Ew. exists d'. split; [done|].
    unfold Rdb.write_page in Ew. destruct (KeyFile.write _ _ _ _ _) as [r os]. injection Ew as _ <-. done.
Qed.

Lemma unwind_ok d stk : Rdb.unwind sys d stk E_ok = Val d.
Proof. unfold Rdb.unwind, UnwindStack.unwind. rewrite Z.eqb_refl. cbn [obind]. by destruct d as [? ? ? ? ? [] ? ? ?]. Qed.

(** A database between two changes: a key page [kp] has been written at [o] and
    is in memory, but is in no bucket yet. *)
Record db_pending d kd vd bks (n : Z) (p : positive) (a o : Z) (kp : key_page) : Prop := {
  dp_size : page_size (d_kpSize d) /\ d_kpSize d <= 8192;
  dp_ht : d_htSize d = zlen bks /\ 0 < zlen bks < 2 ^ 31;
  dp_files : files_ok sys D (d_kpSize d) (d_kf d) (d_vf d) (d_os d) (<[o := kp]> kd) vd n;
  dp_n : 0 <= n;
  dp_mem : exists L, mem_ok (d_kpSize d) kd (d_ht d) (d_cache d) (d_heap d) L bks n /\ node_at (d_heap d) L p a o;
  dp_fresh : kd !! o = None;
  dp_loose : loose bks p;
  dp_load : Rdb.load d a = Val kp }.

Lemma link_first d kd vd bks n p a o kp i M : db_pending d kd vd bks n p a o kp -> bks !! i = Some [] ->
  page_is (d_kpSize d) (Z.of_nat i) (-1) (-1) kp M ->
  exists ht h, HashTable.addKeyPageNode (d_ht d) (d_heap d) (Z.of_nat i) p = Val (ht, h) /\
    db_ok (Rdb.with_ht d ht h) (<[o := kp]> kd) vd (<[i := [mkPg o M (Some (p, a))]]> bks) n.
Proof.
  intros [Hs Hht Hf Hn (L & Hm & Hna) Hfr Hlo Hld] Hi Hp.
  destruct (mem_attach_first _ kd (<[o := kp]> kd) _ _ _ _ _ _ i o M p a kp kp Hm Hlo Hna Hi Hfr) as (ht & h & E & Hm'); try done.
  { by rewrite lookup_insert_eq. } { intros o' Ho. by rewrite lookup_insert_ne. }
  exists ht, h. split; [done|]. split; try done; [|by exists L]. simpl. unfold zlen in *. by rewrite length_insert.
Qed.

Lemma link_last d kd vd bks n p a o kp i l1 g q b M : db_pending d kd vd bks n p a o kp -> bks !! i = Some (l1 ++ [g]) ->
  Forall cached l1 -> g_node g = Some (q, b) -> page_is (d_kpSize d) (Z.of_nat i) (g_off g) (-1) kp M ->
  (forall k x, is_Some (M !! k) -> x ∈ l1 ++ [g] -> g_map x !! k = None) ->
  exists lkp d' ht h kd', Rdb.load d b = Val lkp /\
    Rdb.update_page d b (fun kp => KeyFile.writeNextOffset sys (d_kf d) (g_off g) kp o) = Val (E_ok, d') /\ d_kpSize d' = d_kpSize d /\
    HashTable.addKeyPageNode (d_ht d') (d_heap d') (Z.of_nat i) p = Val (ht, h) /\
    db_ok (Rdb.with_ht d' ht h) kd' vd (<[i := (l1 ++ [g]) ++ [mkPg o M (Some (p, a))]]> bks) n.
Proof.
  intros [[Hs Hs'] Hht Hf Hn (L & Hm & Hna) Hfr Hlo Hld] Hi Hc Hgn Hp Hkeys.
  pose proof Hm as (_ & _ & _ & _ & Hb & _). specialize (Hb _ _ Hi).
  pose proof (chain_at _ _ _ _ _ _ (bo_chain _ _ _ _ _ _ _ _ Hb)) as [(kp0 & Hkp0 & Hp0) Hmem]. destruct (Hmem q b Hgn) as (_ & lkp & Hlkp & Hpl).
  assert (o <> g_off g) as Hne by congruence.
  assert ((<[o := kp]> kd) !! g_off g = Some kp0) as Hkp1 by (by rewrite lookup_insert_ne).
  assert (fits 8 o) as Hfo by (apply (files_key_off sys D _ Hs _ _ _ _ _ _ o kp Hf Hn); by rewrite lookup_insert_eq).
  destruct (files_next sys D _ Hs _ _ _ _ _ _ _ _ lkp o Hf Hkp1 Hfo) as (os' & Ew & Hf').
  set (lkp' := kp_with_noff lkp o) in *. set (kd' := <[g_off g := kp_with_noff kp0 o]> (<[o := kp]> kd)) in *.
  assert (kd' !! o = Some kp) as Hko by (unfold kd'; by rewrite lookup_insert_ne, lookup_insert_eq).
  assert (mem_ok (d_kpSize d) kd' (d_ht d) (LRUCache.with_pm (d_cache d) (PageMgr.store (lc_pageMgr (d_cache d)) b lkp')) (d_heap d) L
    (<[i := (l1 ++ [g]) ++ [mkPg o M None]]> bks) (n - 1)) as Hm1.
  { apply (mem_link _ kd kd' _ _ _ _ _ _ _ _ _ q b o M kp lkp' (kp_with_noff kp0 o) Hm Hi Hgn Hfr); try done.
    - unfold kd'. by rewrite lookup_insert_eq.
    - by eapply page_with_noff.
    - by eapply page_with_noff.
    - intros o' H1 H2. unfold kd'. by rewrite !lookup_insert_ne. }
  set (d' := Rdb.store (Rdb.with_os d os') b lkp').
  assert (PageMgr.load (lc_pageMgr (d_cache d')) a = Val kp) as Hld'.
  { unfold d'. simpl. rewrite load_store, decide_False; [done|]. intros ->.
    by destruct (loose_addr _ _ _ _ _ _ _ _ _ _ _ Hm Hlo Hna i _ g q b Hi ltac:(set_solver) Hgn). }
  assert (loose (<[i := (l1 ++ [g]) ++ [mkPg o M None]]> bks) p) as Hlo'.
  { intros j l [(<- & <- & _)|[_ Hj]]%list_lookup_insert_Some; [|by apply (Hlo j)]. rewrite nodes_app. simpl. rewrite app_nil_r. by apply (Hlo i). }
  destruct (mem_attach _ kd' _ _ _ _ _ _ i (l1 ++ [g]) (mkPg o M None) [] p a kp Hm1 Hlo' Hna) as (ht & h & E & Hm2 & _); try done.
  { by rewrite list_lookup_insert_eq by (by eapply lookup_lt_Some). }
  { apply Forall_app. split; [done|]. apply Forall_singleton. rewrite Hgn. eauto. } { by rewrite last_off_snoc. }
  rewrite list_insert_insert_eq in Hm2. replace (n - 1 + 1) with n in Hm2 by lia.
  exists lkp, d', ht, h, kd'. split; [done|]. split.
  { unfold Rdb.update_page. unfold Rdb.load at 1. rewrite Hlkp. cbn [obind]. rewrite Ew. done. }
  split; [done|]. split; [done|]. split; try done; [|by exists L]. simpl. unfold zlen in *. by rewrite length_insert.
Qed.

(** Both cases, as [addNewPage] has them. *)
Lemma link_new d kd vd bks n p a o kp i l f M ustk : db_pending d kd vd bks n p a o kp -> bks !! i = Some l -> Forall cached l ->
  last_seen f l -> (l = [] -> f_lkp f = None /\ f_lkpoff f = -1) ->
  page_is (d_kpSize d) (Z.of_nat i) (f_lkpoff f) (-1) kp M ->
  (forall k x, is_Some (M !! k) -> x ∈ l -> g_map x !! k = None) ->
  exists d' ht h kd' stk, match f_lkp f with
    | Some b =>
        if (E_ok =? E_ok) && negb (f_lkpoff f =? -1) then
          let* lkp := Rdb.load d b in
          let* (r, d0) := Rdb.update_page d b (fun kp => KeyFile.writeNextOffset sys (d_kf d) (f_lkpoff f) kp o) in
          Val (r, if r =? E_ok then UnwindStack.writeNextOffset ustk Key (KeyPageAt b) (f_lkpoff f) (kp_noff lkp) else ustk, d0)
        else Val (E_ok, ustk, d)
    | None => Val (E_ok, ustk, d)
    end = Val (E_ok, stk, d') /\ d_kpSize d' = d_kpSize d /\
    HashTable.addKeyPageNode (d_ht d') (d_heap d') (Z.of_nat i) p = Val (ht, h) /\
    db_ok (Rdb.with_ht d' ht h) kd' vd (<[i := l ++ [mkPg o M (Some (p, a))]]> bks) n.
Proof.
  intros Hd Hi Hc Hlast Hnil Hp Hkeys. destruct (last l) as [g|] eqn:El.
  - destruct (Hlast g El) as (q & b & Hgn & Elk & Elo). apply last_Some in El as [l1 ->]. rewrite Elk, Elo in *.
    apply Forall_app in Hc as [Hc _].
    destruct (link_last d kd vd bks n p a o kp i l1 g q b M Hd Hi Hc Hgn Hp Hkeys) as (lkp & d' & ht & h & kd' & E1 & E2 & Hs & E3 & Hok).
    assert (0 <= g_off g) as Hoff.
    { destruct Hd as [[Hps _] _ Hf Hn (L & (_ & _ & _ & _ & Hb & _) & _) Hfr _ _]. specialize (Hb _ _ Hi).
      destruct (bucket_disk _ _ _ _ _ _ _ _ g Hb ltac:(set_solver)) as (kp0 & ? & ? & Hkp0 & _).
      apply (files_key_off sys D _ Hps _ _ _ _ _ _ _ kp0 Hf Hn). rewrite lookup_insert_ne; [done|]. congruence. }
    rewrite E1, (proj2 (Z.eqb_neq (g_off g) (-1))) by lia. cbn [negb andb obind Z.eqb E_ok]. rewrite E2. eexists d', ht, h, kd', _. by split_and!.
  - apply last_None in El as ->. destruct (Hnil eq_refl) as [Elk Elo]. rewrite Elk. rewrite Elo in Hp.
    destruct (link_first d kd vd bks n p a o kp i M Hd Hi Hp) as (ht & h & E & Hok). eexists d, ht, h, _, _. by split_and!.
Qed.

(** A new page for the key, behind the last page of its bucket. *)
Lemma addNewPage_spec fuel d kd vd bks n i l f k : db_ok d kd vd bks n -> bks !! i = Some l -> Forall cached l -> last_seen f l ->
  (l = [] -> f_lkp f = None /\ f_lkpoff f = -1) -> key_is (f_ki f) k -> ki_hash (f_ki f) = Z.of_nat i -> fits 8 (ki_voff (f_ki f)) ->
  (forall x, x ∈ l -> g_map x !! k = None) -> 0 < n ->
  exists f' d' kd' o p a, Rdb.addNewPage sys fuel d f = Val (E_ok, f', d') /\ d_kpSize d' = d_kpSize d /\
    db_ok d' kd' vd (<[i := l ++ [mkPg o {[ k := ki_voff (f_ki f) ]} (Some (p, a))]]> bks) (n - 1).
Proof.
  intros Hok Hi Hc Hlast Hnil Hk Hh Hv Hother Hn. pose proof (lookup_lt_Some _ _ _ Hi) as Hlt.
  assert (fits 8 (f_lkpoff f) /\ f_lkpoff f = last_off (-1) l) as [Hlo Elo].
  { destruct (last l) as [g|] eqn:El.
    - destruct (Hlast g El) as (p & a & _ & _ & ->). pose proof El as [l' El']%last_Some. subst l. rewrite last_off_snoc. split; [|done].
      by apply (db_off _ _ _ _ _ _ _ _ _ _ _ Hok Hi).
    - apply last_None in El as ->. destruct (Hnil eq_refl) as [_ ->]. split; [fits_tac|done]. }
  destruct Hok as [[Hs Hs'] Hht Hf [L Hm] Hn0]. set (ps := d_kpSize d) in *.
  assert (page_read sys fuel (d_kf d) ps (-1) (d_os d) (zero_page ps) (d_os d)) as Hread by (by left).
  pose proof (missing_nonneg (mjoin bks)).
  destruct (mem_get ps sys fuel (d_kf d) kd _ _ _ _ _ _ _ _ _ _ Hm ltac:(lia) Hread) as (p & a & c1 & h1 & L1 & Eg & Hm1 & Hna & Hloose & Hld & _).
  assert (fits 4 (ki_hash (f_ki f))) as Hh4 by (rewrite Hh; unfold fits, zlen in *; simpl; lia).
  pose proof (page_init ps _ _ Hs Hs' Hh4 Hlo) as Hinit.
  destruct (page_put _ _ _ _ _ _ _ _ Hinit Hk Hv) as (idx & kp & Eput & Hidx & Hp & _).
  { pose proof (page_size_len _ Hs). destruct Hs as [Hmin _]. unfold MIN_KEY_PAGE_SIZE in Hmin. cbn [kp_vcount]. lia. }
  rewrite insert_empty in Hp. rewrite Hh in Hp.
  pose proof (mem_loose_store _ _ _ _ _ _ _ _ _ _ _ kp Hm1 Hloose Hna) as Hm2.
  destruct (files_new_key sys D ps Hs _ _ _ _ _ _ kp Hf (pi_fits _ _ _ _ _ _ Hp) Hn) as (o & kf' & os' & Ew & Ho & Hfresh & _ & Hf').
  destruct (mem_loose_off _ _ _ _ _ _ _ _ _ _ _ o Hm2 Hloose Hna) as (h2 & Eu & Hm3 & Hna3).
  pose proof Hna as (cn1 & k1 & Hk1 & Hd1 & _). unfold kpn_data in Hd1. injection Hd1 as Hk1a _ _.
  unfold Rdb.addNewPage. fold ps. rewrite Eg. cbn [obind].
  set (d1 := Rdb.with_cache d c1 h1 (d_os d)). assert (Heap.get_kpn (d_heap d1) p = Val k1) as -> by (unfold Heap.get_kpn; simpl; by rewrite Hk1).
  cbn [obind]. rewrite Hk1a. cbn [deref obind].
  match type of Eput with KeyRecords.put ?x _ = _ => change (Rdb.kp_with_hash_poff (InitKeyPage (d_kpSize d1)) (ki_hash (f_ki f)) (f_lkpoff f)) with x end.
  rewrite Eput. cbn [obind]. rewrite (proj2 (Z.leb_le 0 idx)) by done. cbn [ASSERT obind].
  change (d_kf (Rdb.store d1 a kp)) with (d_kf d). change (d_os (Rdb.store d1 a kp)) with (d_os d). rewrite Ew. cbn [obind].
  change (d_heap (Rdb.with_kf (Rdb.store d1 a kp) kf' os')) with h1. rewrite Eu. cbn [obind].
  set (d2 := Rdb.with_ht (Rdb.with_kf (Rdb.store d1 a kp) kf' os') (d_ht (Rdb.with_kf (Rdb.store d1 a kp) kf' os')) h2). cbn [f_lkp f_lkpoff f_ki].
  assert (db_pending d2 kd vd bks (n - 1) p a o kp) as Hpend.
  { split; try done; [lia|by exists L1|]. unfold d2, Rdb.load. simpl. by rewrite load_store, decide_True. }
  edestruct (link_new d2 kd vd bks (n - 1) p a o kp i l f) as (d3 & ht & h & kd' & stk & E1 & Hs3 & E2 & Hok);
    [exact Hpend|exact Hi|exact Hc|exact Hlast|exact Hnil|exact Hp| |].
  { intros k' x Hk' Hx. apply elem_of_dom in Hk'. rewrite dom_singleton_L in Hk'. apply elem_of_singleton in Hk' as ->. by apply Hother. }
  rewrite E1. cbn [obind]. rewrite Z.eqb_refl, Hh, E2. cbn [obind]. rewrite unwind_ok. cbn [obind].
  eexists _, _, kd', o, p, a. split; [reflexivity|]. split; [exact Hs3|exact Hok].
Qed.
End ops.
