(* ===== verification/RdbUnlink.v ===== *)
(** * Removing a page from a bucket

    [remove_page], the part of [Rdb::remove] for a page that has lost its last
    key: the next page comes into memory, the page is marked, its neighbours are
    linked with each other on the disk and in memory, its node and its page are
    given up. *)
From S2P Require Import Prelude Bytes DbStruct KeyRec KeyPage File FdpMgr DbFiles Disk PageMgr Cache HashTable.
From S2P Require Import Dll CacheFacts HashFacts Store PageStore RdbFiles RdbInv RdbMem Unwind Rdb RdbSearch RdbOps.

(** ** Chains without a page *)
Lemma chain_unlink P Q p l1 g l2 n : chain P p (l1 ++ g :: l2) n -> NoDup (l1 ++ g :: l2) ->
  (forall a b x, x ∈ l1 ++ l2 -> last l1 <> Some x -> head l2 <> Some x -> P a b x -> Q a b x) ->
  (forall a x, last l1 = Some x -> P a (g_off g) x -> Q a (first_off l2 n) x) ->
  (forall b x, head l2 = Some x -> P (g_off g) b x -> Q (last_off p l1) b x) ->
  chain Q p (l1 ++ l2) n.
Proof.
  intros Hc Hnd Hother H1 H2. apply chain_app in Hc as [Hc1 [_ Hc2]]. apply NoDup_app in Hnd as (Hn1 & Hn12 & [_ Hn2]%NoDup_cons).
  apply chain_app. split.
  - destruct l1 as [|x l _] using rev_ind; [done|]. rewrite last_snoc in *. apply chain_app in Hc1 as [Hc1 [Hx _]].
    apply NoDup_app in Hn1 as (_ & Hn1 & _). apply chain_app. split; [|split; [by apply H1|done]].
    eapply chain_impl; [exact Hc1|]. intros a b y Hy. apply Hother; [set_solver| |].
    + intros [= <-]. apply (Hn1 x Hy). set_solver.
    + intros E. apply (Hn12 y); [set_solver|]. destruct l2; [done|]. injection E as ->. set_solver.
  - destruct l2 as [|x l2]; [done|]. destruct Hc2 as [Hx Hc2]. apply NoDup_cons in Hn2 as [Hnx Hn2].
    split; [by apply H2|]. eapply chain_impl; [exact Hc2|]. intros a b y Hy. apply Hother; [set_solver| |].
    + intros E. apply last_Some in E as [l' ->]. apply (Hn12 y); set_solver.
    + intros [= <-]. done.
Qed.

Section unlink.
Context {OS : Type} (sys : syscalls OS) (D : gset Z) `{Rel : !Reliable sys D}.
Implicit Types (d : db OS) (f : key_find) (g : pg) (kd : gmap Z key_page) (vd : gmap Z value_page) (bks : list (list pg)).
Local Abbreviation db_ok := (db_ok sys D).

(** The page [g], at the address [a] with the node [p], has lost its last key in
    memory and is [kp] there. *)
Record db_emptied d kd vd bks (n : Z) (i : nat) l1 g l2 (p : positive) (a : Z) (kp : key_page) : Prop := {
  de_size : page_size (d_kpSize d) /\ d_kpSize d <= 8192;
  de_ht : d_htSize d = zlen bks /\ 0 < zlen bks < 2 ^ 31;
  de_files : files_ok sys D (d_kpSize d) (d_kf d) (d_vf d) (d_os d) kd vd n;
  de_n : 0 <= n;
  de_mem : exists L, mem_ok (d_kpSize d) (<[g_off g := kp]> kd) (d_ht d) (d_cache d) (d_heap d) L bks n;
  de_disk : is_Some (kd !! g_off g);
  de_bucket : bks !! i = Some (l1 ++ g :: l2);
  de_node : g_node g = Some (p, a);
  de_page : page_is (d_kpSize d) (Z.of_nat i) (last_off (-1) l1) (first_off l2 (-1)) kp (g_map g);
  de_load : Rdb.load d a = Val kp }.

(** The nodes and pages of the bucket, as for [db_ok]. *)
Lemma emptied_node d kd vd bks n i l1 g l2 p a kp : db_emptied d kd vd bks n i l1 g l2 p a kp ->
  exists k, Heap.get_kpn (d_heap d) p = Val k /\ kpn_kp k = Some a /\ kpn_kpoff k = g_off g /\ kpn_next k = head (nodes l2) /\
    kpn_prev k = last (nodes l1) /\ Forall cached l1.
Proof.
  intros [_ _ _ _ (L & (_ & _ & _ & _ & Hb & _)) _ Hi Hn _ _]. specialize (Hb _ _ Hi).
  destruct (bucket_node _ _ _ _ _ _ _ _ _ _ _ Hb ltac:(by apply elem_of_mid; left) Hn) as [(cn & k & Hk & Hd & _) _].
  pose proof (el_seg _ _ _ _ (bo_list _ _ _ _ _ _ _ _ Hb)) as Hseg. rewrite nodes_app, nodes_cons, Hn in Hseg. simpl in Hseg.
  apply kseg_node in Hseg as (k' & Hk' & Hkp & Hkn). rewrite Hk in Hk'. injection Hk' as <-.
  exists k. unfold Heap.get_kpn. rewrite Hk. unfold kpn_data in Hd. injection Hd as ? ? ?. split_and!; try done.
  apply (cached_prefix_app _ _ (bo_prefix _ _ _ _ _ _ _ _ Hb)). by rewrite nodes_cons, Hn.
Qed.

(** ** The next page *)
Definition next_page (fuel : nat) d (hindex : Z) (k : key_page_node) (next_kpoff : Z) : outcome (Z * option positive * db OS) :=
  match kpn_next k with
  | None =>
      if negb (next_kpoff =? -1) then
        let* (r, n, c, h, os) := LRUCache.get sys fuel (d_kf d) (d_cache d) (d_heap d) next_kpoff (d_os d) in
        let d := Rdb.with_cache d c h os in
        match n with
        | Some n =>
            let* (ht, h) := HashTable.addKeyPageNode (d_ht d) (d_heap d) hindex n in
            Val (r, Some n, Rdb.with_ht d ht h)
        | None => Val (r, None, d)
        end
      else Val (E_ok, None, d)
  | Some n => Val (E_ok, Some n, d)
  end.

Lemma emptied_off d kd vd bks n i l1 g l2 p a kp x : db_emptied d kd vd bks n i l1 g l2 p a kp -> x ∈ l1 ++ l2 -> g_off x <> g_off g.
Proof.
  intros [_ _ _ _ (L & (_ & _ & _ & _ & Hb & _)) _ Hi _ _ _] Hx. eapply bucket_rest; [by apply Hb|done].
Qed.

Lemma next_page_spec fuel d kd vd bks n i l1 g l2 p a kp k : db_emptied d kd vd bks n i l1 g l2 p a kp ->
  kpn_next k = head (nodes l2) -> (2 <= fuel)%nat ->
  exists l2' d', next_page fuel d (Z.of_nat i) k (first_off l2 (-1)) = Val (E_ok, head (nodes l2'), d') /\
    shape <$> l2' = shape <$> l2 /\ (l2' = [] \/ nodes l2' <> []) /\ d_kpSize d' = d_kpSize d /\
    db_emptied d' kd vd (<[i := l1 ++ g :: l2']> bks) n i l1 g l2' p a kp.
Proof.
  intros Hd Hk Hfu. destruct (emptied_node _ _ _ _ _ _ _ _ _ _ _ _ Hd) as (_ & _ & _ & _ & _ & _ & Hc1).
  pose proof Hd as [[Hs Hs'] Hht Hf Hn0 (L & Hm) Hdisk Hi Hn Hp Hld]. unfold next_page. rewrite Hk.
  destruct (head (nodes l2)) as [n2|] eqn:Eh.
  { exists l2, d. rewrite list_insert_id by done. rewrite Eh. split_and!; try done. right. by intros E; rewrite E in Eh. }
  destruct l2 as [|g2 l2]; [exists [], d; by rewrite list_insert_id by done; split_and!; try done; left|].
  assert (g_node g2 = None) as Hg2.
  { rewrite nodes_cons in Eh. by destruct (g_node g2) as [[? ?]|]. }
  pose proof Hm as (_ & _ & Hks & _ & Hb & _). pose proof (Hb _ _ Hi) as Hbi.
  pose proof (bo_chain _ _ _ _ _ _ _ _ Hbi) as Hch. rewrite (cons_middle g), app_assoc in Hch. apply chain_at in Hch as [(kp2 & Hkp2 & Hp2) _].
  rewrite lookup_insert_ne in Hkp2 by (intros E; eapply (emptied_off _ _ _ _ _ _ _ _ _ _ _ _ g2 Hd); [set_solver|done]).
  pose proof (files_key_off sys D _ Hs _ _ _ _ _ _ _ _ Hf Hn0 Hkp2) as [Hoff2 _].
  destruct (files_read_key sys D _ Hs fuel _ _ _ _ _ _ _ _ Hf Hkp2 Hfu) as (os' & Er & Hf').
  assert (page_read sys fuel (d_kf d) (d_kpSize d) (g_off g2) (d_os d) kp2 os') as Hread.
  { right. split; [lia|]. exists (enc_key_page kp2). split; [done|]. symmetry. by eapply page_bytes. }
  assert (0 < missing (mjoin bks)) as Hpos.
  { apply (missing_pos bks i (l1 ++ [g]) g2 l2); [by rewrite <- app_assoc|done]. }
  destruct (mem_get _ sys fuel (d_kf d) _ _ _ _ _ _ _ _ _ _ _ Hm ltac:(lia) Hread) as (q & b & c' & h' & L' & Eg & Hm' & Hna & Hlo & Hldb & Hold).
  destruct (mem_attach _ _ _ c' h' L' bks (n - 1) i (l1 ++ [g]) g2 l2 q b kp2 Hm' Hlo Hna) as (ht' & h2 & Ea & Hm2 & Hmono); try done.
  { by rewrite <- app_assoc. } { apply Forall_app. split; [done|]. apply Forall_singleton. rewrite Hn. eauto. }
  replace (n - 1 + 1) with n in Hm2 by lia. rewrite <- app_assoc in Hm2.
  set (g2' := mkPg (g_off g2) (g_map g2) (Some (q, b))) in *. set (d1 := Rdb.with_ht (Rdb.with_cache d c' h' os') ht' h2).
  exists (g2' :: l2), d1. rewrite (proj2 (Z.eqb_neq (first_off (g2 :: l2) (-1)) (-1))) by (simpl; lia). cbn [negb]. cbn [first_off]. rewrite Eg. cbn [obind].
  change (d_ht (Rdb.with_cache d c' h' os')) with (d_ht d). change (d_heap (Rdb.with_cache d c' h' os')) with h'. rewrite Ea. cbn [obind].
  split; [done|]. split; [done|]. split; [by right|]. split; [done|]. split; try done.
  - simpl. unfold zlen in *. by rewrite length_insert.
  - by exists L'.
  - by rewrite list_lookup_insert_eq by (by eapply lookup_lt_Some).
  - destruct (bucket_node _ _ _ _ _ _ _ _ _ _ _ Hbi ltac:(by apply elem_of_mid; left) Hn) as [Hqn _]. destruct (Hold _ _ _ Hqn) as (_ & _ & El).
    unfold Rdb.load in *. simpl. by rewrite El.
Qed.

(** ** A neighbour *)
Definition addr (o : option pg) : option Z := match o with Some g => snd <$> g_node g | None => None end.

(** [u] on the page of [o], if there is one. *)
Definition on (o : option pg) (u : key_page -> key_page) kd : gmap Z key_page :=
  match o with Some g => alter u (g_off g) kd | None => kd end.

Lemma on_ne o u kd x : (forall g, o = Some g -> g_off g <> x) -> on o u kd !! x = kd !! x.
Proof. destruct o as [g|]; [|done]. intros H. apply lookup_alter_ne. by apply H. Qed.

(** [d'] is [d] with [u] applied to the page of [o] in memory. *)
Record mem_updated d d' (o : option pg) (u : key_page -> key_page) : Prop := {
  mu_cache : d_cache d' = LRUCache.with_pm (d_cache d) (lc_pageMgr (d_cache d'));
  mu_rest : d_kpSize d' = d_kpSize d /\ d_htSize d' = d_htSize d /\ d_ht d' = d_ht d /\ d_heap d' = d_heap d /\ d_kf d' = d_kf d /\ d_vf d' = d_vf d;
  mu_ok h L pgs : cache_ok (d_cache d) h L pgs -> cache_ok (d_cache d') h L pgs;
  mu_here g q b kp : o = Some g -> g_node g = Some (q, b) -> Rdb.load d b = Val kp -> Rdb.load d' b = Val (u kp);
  mu_there x : (forall g q b, o = Some g -> g_node g = Some (q, b) -> b <> x) -> Rdb.load d' x = Rdb.load d x }.

Lemma store_updated d os g q a kp u : g_node g = Some (q, a) -> Rdb.load d a = Val kp -> mem_updated d (Rdb.store (Rdb.with_os d os) a (u kp)) (Some g) u.
Proof.
  intros Hn Hl. split; try done.
  - intros h L pgs. apply cache_store.
  - intros g' q' b kp' [= <-] Hn' Hl'. rewrite Hn in Hn'. injection Hn' as <- <-. rewrite Hl in Hl'. injection Hl' as <-.
    unfold Rdb.load. simpl. by rewrite load_store, decide_True.
  - intros x Hx. unfold Rdb.load. simpl. rewrite load_store, decide_False; [done|]. intros ->. by apply (Hx g q a).
Qed.

(** A field of the page of a neighbour, if there is one, on the disk and in
    memory. *)
Lemma neighbour (w : KeyFile -> Z -> option key_page -> OS -> Z * option key_page * OS) (u : key_page -> key_page)
  (push : Z -> key_page -> list unwind_block) ustk o off d kd vd n :
  (forall kf vf os kd vd n o kp mem, files_ok sys D (d_kpSize d) kf vf os kd vd n -> kd !! o = Some kp ->
     exists os', w kf o (Some mem) os = (E_ok, Some (u mem), os') /\ files_ok sys D (d_kpSize d) kf vf os' (<[o := u kp]> kd) vd n) ->
  files_ok sys D (d_kpSize d) (d_kf d) (d_vf d) (d_os d) kd vd n ->
  (forall g, o = Some g -> off = g_off g /\ is_Some (kd !! g_off g) /\ exists q b kp, g_node g = Some (q, b) /\ Rdb.load d b = Val kp) ->
  exists d' stk, match addr o with
    | Some b =>
        let* pk := Rdb.load d b in
        let* (r, d0) := Rdb.update_page d b (fun kp => w (d_kf d) off kp) in
        Val (r, if r =? E_ok then push b pk else ustk, d0)
    | None => Val (E_ok, ustk, d)
    end = Val (E_ok, stk, d') /\ mem_updated d d' o u /\
    files_ok sys D (d_kpSize d') (d_kf d') (d_vf d') (d_os d') (on o u kd) vd n.
Proof.
  intros Hw Hf Ho. destruct o as [g|]; simpl.
  - destruct (Ho g eq_refl) as (-> & [kp0 Hkp0] & q & b & kp & Hn & Hl). rewrite Hn. simpl. rewrite Hl. cbn [obind].
    destruct (Hw _ _ _ _ _ _ _ _ kp Hf Hkp0) as (os' & Ew & Hf'). unfold Rdb.update_page. rewrite Hl. cbn [obind]. rewrite Ew. cbn [obind].
    exists (Rdb.store (Rdb.with_os d os') b (u kp)), (push b kp). split; [done|]. split; [by eapply store_updated|].
    replace (alter u (g_off g) kd) with (<[g_off g := u kp0]> kd); [done|]. apply map_eq. intros x.
    destruct (decide (g_off g = x)) as [<-|Hne]; [by rewrite lookup_insert_eq, lookup_alter_eq, Hkp0|by rewrite lookup_insert_ne, lookup_alter_ne].
  - exists d, ustk. split; [done|]. split; [|done]. split; try done. by destruct (d_cache d).
Qed.

(** The address of a neighbour. *)
Lemma neighbour_addr d (o : option pg) off (nd : option positive) : off = match o with Some g => g_off g | None => -1 end ->
  (forall g, o = Some g -> 0 <= g_off g /\ exists q b k, g_node g = Some (q, b) /\ nd = Some q /\ Heap.get_kpn (d_heap d) q = Val k /\ kpn_kp k = Some b) ->
  (if negb (off =? -1) then match nd with Some n => let* k := Heap.get_kpn (d_heap d) n in Val (kpn_kp k) | None => Val None end
   else Val None) = Val (addr o).
Proof.
  intros -> Ho. destruct o as [g|]; [|done]. destruct (Ho g eq_refl) as (Hoff & q & b & k & Hn & -> & Hk & Hkp).
  rewrite (proj2 (Z.eqb_neq _ _)) by lia. cbn [negb]. rewrite Hk. cbn [obind]. simpl. by rewrite Hn, Hkp.
Qed.

(** ** The chain without the page *)
Lemma last_elem l g : last l = Some g -> g ∈ l.
Proof. intros [l' ->]%last_Some. set_solver. Qed.
Lemma head_elem l g : head l = Some g -> g ∈ l.
Proof. destruct l; [done|]. intros [= ->]. set_solver. Qed.

(** What is on the disk and in memory of the pages that stay; [u1] is for the
    page before and [u2] for the page behind. *)
Lemma emptied_chain d d1 d2 d3 kd vd bks n i l1 g l2 p a kp x u0 u1 u2 L : db_emptied d kd vd bks n i l1 g l2 p a kp ->
  mem_ok (d_kpSize d) (<[g_off g := kp]> kd) (d_ht d) (d_cache d) (d_heap d) L bks n ->
  mem_updated d d1 (Some g) u0 -> mem_updated d1 d2 (last l1) u1 -> mem_updated d2 d3 (head l2) u2 ->
  (forall h a b kp M, page_is (d_kpSize d) h a b kp M -> page_is (d_kpSize d) h a (first_off l2 (-1)) (u1 kp) M) ->
  (forall h a b kp M, page_is (d_kpSize d) h a b kp M -> page_is (d_kpSize d) h (last_off (-1) l1) b (u2 kp) M) ->
  chain (page_at (d_kpSize d) (delete (g_off g) (on (head l2) u2 (on (last l1) u1 (<[g_off g := x]> kd)))) (d_cache d3) (d_heap d) L (Z.of_nat i))
    (-1) (l1 ++ l2) (-1).
Proof.
  intros Hd ([pgs Hc] & _ & _ & _ & Hb & _) Hm1 Hm2 Hm3 Hu1 Hu2. pose proof Hd as [_ _ _ _ _ _ Hi Hn _ _]. specialize (Hb _ _ Hi).
  pose proof (bo_nodup _ _ _ _ _ _ _ _ Hb) as Hndo. pose proof (NoDup_fmap_1 _ _ Hndo) as Hnd.
  assert (forall y z, y ∈ l1 ++ g :: l2 -> z ∈ l1 ++ g :: l2 -> y <> z -> g_off y <> g_off z) as Hoff.
  { intros y z Hy Hz Hne E. apply Hne. by eapply bucket_off_inj. }
  assert (forall y z q b q' b', y ∈ l1 ++ g :: l2 -> z ∈ l1 ++ g :: l2 -> y <> z -> g_node y = Some (q, b) -> g_node z = Some (q', b') -> b <> b') as Haddr.
  { intros y z q b q' b' Hy Hz Hne Hyn Hzn <-. apply Hne. by eapply bucket_addr_inj. }
  assert (forall y, y ∈ l1 ++ l2 -> y ∈ l1 ++ g :: l2 /\ y <> g) as Hin.
  { intros y Hy. split; [apply elem_of_mid; by right|]. intros ->. rewrite <- Permutation_middle in Hnd. by apply NoDup_cons in Hnd as [? _]. }
  assert (forall y, last l1 = Some y -> y ∈ l1 ++ l2) as Hlin by (intros y Hy%last_elem; set_solver).
  assert (forall y, head l2 = Some y -> y ∈ l1 ++ l2) as Hhin by (intros y Hy%head_elem; set_solver).
  assert (forall y, last l1 = Some y -> head l2 <> Some y) as Hlh.
  { intros y Hy%last_elem Hy'%head_elem. rewrite <- Permutation_middle in Hnd. apply NoDup_cons in Hnd as [_ Hnd]. apply NoDup_app in Hnd as (_ & Hnd & _).
    by apply (Hnd y). }
  assert (forall y q b, y ∈ l1 ++ l2 -> g_node y = Some (q, b) -> Rdb.load d1 b = Rdb.load d b) as Hld1.
  { intros y q b Hy Hyn. destruct (Hin y Hy). apply (mu_there _ _ _ _ Hm1). intros g' q' b' [= <-] Hn'. eapply (Haddr g y); try done. apply elem_of_mid; by left. }
  eapply chain_unlink; [apply (bo_chain _ _ _ _ _ _ _ _ Hb)|done|..].
  - intros a' b' y Hy Hyl Hyh [(kpy & Hky & Hpy) Hmy]. destruct (Hin y Hy) as [Hy1 Hy2]. split.
    + exists kpy. split; [|done]. pose proof (Hoff _ _ Hy1 ltac:(apply elem_of_mid; by left) Hy2). rewrite lookup_delete_ne by done.
      rewrite on_ne by (intros z Hz; apply Hoff; [apply Hin; auto|done|congruence]).
      rewrite on_ne by (intros z Hz; apply Hoff; [apply Hin; auto|done|congruence]). rewrite lookup_insert_ne by done.
      by rewrite lookup_insert_ne in Hky.
    + intros q b Hq. destruct (Hmy q b Hq) as (Hnq & kpq & Hlq & Hpq). split; [done|]. exists kpq. split; [|done].
      change (Rdb.load d3 b = Val kpq). rewrite (mu_there _ _ _ _ Hm3), (mu_there _ _ _ _ Hm2), (Hld1 y q b); try done;
        intros z q' b'' Hz Hzn; eapply (Haddr z y); try done; try congruence; apply Hin; auto.
  - intros a' y Hyl [(kpy & Hky & Hpy) Hmy]. destruct (Hin y (Hlin _ Hyl)) as [Hy1 Hy2]. split.
    + exists (u1 kpy). split; [|by eapply Hu1]. pose proof (Hoff _ _ Hy1 ltac:(apply elem_of_mid; by left) Hy2). rewrite lookup_delete_ne by done.
      rewrite on_ne by (intros z Hz; apply Hoff; [apply Hin; auto|done|]; intros ->; by apply (Hlh y)).
      unfold on. rewrite Hyl, lookup_alter_eq, lookup_insert_ne by done. rewrite lookup_insert_ne in Hky by done. by rewrite Hky.
    + intros q b Hq. destruct (Hmy q b Hq) as (Hnq & kpq & Hlq & Hpq). split; [done|]. exists (u1 kpq). split; [|by eapply Hu1].
      change (Rdb.load d3 b = Val (u1 kpq)). rewrite (mu_there _ _ _ _ Hm3).
      * apply (mu_here _ _ _ _ Hm2 y q); [done|done|]. by rewrite (Hld1 y q b) by auto.
      * intros z q' b' Hz Hzn. eapply (Haddr z y); try done; [apply Hin; auto|]. intros ->. by apply (Hlh y).
  - intros b' y Hyh [(kpy & Hky & Hpy) Hmy]. destruct (Hin y (Hhin _ Hyh)) as [Hy1 Hy2]. split.
    + exists (u2 kpy). split; [|by eapply Hu2]. pose proof (Hoff _ _ Hy1 ltac:(apply elem_of_mid; by left) Hy2). rewrite lookup_delete_ne by done.
      unfold on at 1. rewrite Hyh, lookup_alter_eq.
      rewrite on_ne by (intros z Hz; apply Hoff; [apply Hin; auto|done|]; intros ->; by apply (Hlh y)).
      rewrite lookup_insert_ne by done. rewrite lookup_insert_ne in Hky by done. by rewrite Hky.
    + intros q b Hq. destruct (Hmy q b Hq) as (Hnq & kpq & Hlq & Hpq). split; [done|]. exists (u2 kpq). split; [|by eapply Hu2].
      change (Rdb.load d3 b = Val (u2 kpq)). apply (mu_here _ _ _ _ Hm3 y q); [done|done|]. rewrite (mu_there _ _ _ _ Hm2).
      * by rewrite (Hld1 y q b) by auto.
      * intros z q' b'' Hz Hzn. eapply (Haddr z y); try done; [apply Hin; auto|]. intros ->. by apply (Hlh y).
Qed.

(** ** The whole *)
Lemma emptied_prev d kd vd bks n i l1 g l2 p a kp y : db_emptied d kd vd bks n i l1 g l2 p a kp -> y ∈ l1 ++ l2 ->
  0 <= g_off y /\ fits 8 (g_off y) /\ is_Some (kd !! g_off y) /\
  forall q b, g_node y = Some (q, b) -> b <> a /\ exists k kpy, Heap.get_kpn (d_heap d) q = Val k /\ kpn_kp k = Some b /\ Rdb.load d b = Val kpy.
Proof.
  intros Hd Hy. pose proof (emptied_off _ _ _ _ _ _ _ _ _ _ _ _ _ Hd Hy) as Hne.
  destruct Hd as [[Hs Hs'] _ Hf Hn0 (L & ([pgs Hc] & _ & _ & _ & Hb & _)) _ Hi Hn _ _]. specialize (Hb _ _ Hi).
  assert (y ∈ l1 ++ g :: l2) as Hyin by (apply elem_of_mid; by right).
  destruct (bucket_disk _ _ _ _ _ _ _ _ _ Hb Hyin) as (kpy & ? & ? & Hky & _). rewrite lookup_insert_ne in Hky by done.
  destruct (files_key_off sys D _ Hs _ _ _ _ _ _ _ _ Hf Hn0 Hky) as [Ho Hfo]. split_and!; try done.
  intros q b Hq. destruct (bucket_node _ _ _ _ _ _ _ _ _ _ _ Hb Hyin Hq) as [(cn & k & Hk & Hd & _) (kpm & ? & ? & Hl & _)]. split.
  - intros ->. apply Hne. f_equal. eapply (bucket_addr_inj _ _ _ _ _ _ _ _ _ y g); [exact Hc|exact Hb|done|apply elem_of_mid; by left|exact Hq|exact Hn].
  - exists k, kpm. unfold Heap.get_kpn. rewrite Hk. unfold kpn_data in Hd. injection Hd as ? ? ?. done.
Qed.

(** The neighbours are linked: the node and the page are given up. *)
Lemma emptied_finish d d1 d2 d3 kd vd bks n i l1 g l2 p a kp x u0 u1 u2 : db_emptied d kd vd bks n i l1 g l2 p a kp ->
  l2 = [] \/ nodes l2 <> [] ->
  mem_updated d d1 (Some g) u0 -> mem_updated d1 d2 (last l1) u1 -> mem_updated d2 d3 (head l2) u2 ->
  (forall h a b kp M, page_is (d_kpSize d) h a b kp M -> page_is (d_kpSize d) h a (first_off l2 (-1)) (u1 kp) M) ->
  (forall h a b kp M, page_is (d_kpSize d) h a b kp M -> page_is (d_kpSize d) h (last_off (-1) l1) b (u2 kp) M) ->
  files_ok sys D (d_kpSize d3) (d_kf d3) (d_vf d3) (d_os d3) (on (head l2) u2 (on (last l1) u1 (<[g_off g := x]> kd))) vd n ->
  exists ht h c h' kf os kd', HashTable.removeKeyPageNode (d_ht d3) (d_heap d3) (Z.of_nat i) p = Val (ht, h) /\
    LRUCache.free (d_cache d3) h p = Val (c, h') /\ KeyFile.freePage sys (d_kf d3) (g_off g) (d_os d3) = Val (E_ok, kf, os) /\
    d_kpSize d3 = d_kpSize d /\ db_ok (Rdb.with_kf (Rdb.with_cache (Rdb.with_ht d3 ht h) c h' (d_os d3)) kf os) kd' vd (<[i := l1 ++ l2]> bks) n.
Proof.
  intros Hd Hl2 Hm1 Hm2 Hm3 Hu1 Hu2 Hf3. pose proof Hd as [Hs Hht Hf Hn0 (L & Hm) Hdisk Hi Hn Hp Hld].
  pose proof (emptied_chain d d1 d2 d3 kd vd bks n i l1 g l2 p a kp x u0 u1 u2 L Hd Hm Hm1 Hm2 Hm3 Hu1 Hu2) as Hch.
  destruct (mu_rest _ _ _ _ Hm1) as (R1 & R2 & R3 & R4 & _ & _), (mu_rest _ _ _ _ Hm2) as (S1 & S2 & S3 & S4 & _ & _), (mu_rest _ _ _ _ Hm3) as (T1 & T2 & T3 & T4 & _ & _).
  assert (d_cache d3 = LRUCache.with_pm (d_cache d) (lc_pageMgr (d_cache d3))) as Ec.
  { rewrite (mu_cache _ _ _ _ Hm3) at 1. rewrite (mu_cache _ _ _ _ Hm2), (mu_cache _ _ _ _ Hm1). done. }
  pose proof Hm as (_ & _ & _ & _ & Hb & _). specialize (Hb _ _ Hi).
  assert (forall y, last l1 = Some y \/ head l2 = Some y -> y ∈ l1 ++ g :: l2) as Hin.
  { intros y [Hy%last_elem|Hy%head_elem]; set_solver. }
  assert (forall o kp', (<[g_off g := kp]> kd) !! o = Some kp' -> kp_hash kp' <> Z.of_nat i -> forall y, y ∈ l1 ++ g :: l2 -> g_off y <> o) as Hho.
  { intros o kp' Ho Hh y Hy <-. destruct (bucket_disk _ _ _ _ _ _ _ _ _ Hb Hy) as (kpy & ? & ? & Hky & []). congruence. }
  assert (forall b kp', Rdb.load d b = Val kp' -> kp_hash kp' <> Z.of_nat i -> forall y q c, y ∈ l1 ++ g :: l2 -> g_node y = Some (q, c) -> c <> b) as Hhb.
  { intros b kp' Hb' Hh y q c Hy Hyn ->. destruct (bucket_node _ _ _ _ _ _ _ _ _ _ _ Hb Hy Hyn) as (_ & kpy & ? & ? & Hly & []). unfold Rdb.load in Hb'. congruence. }
  rewrite Ec in Hch. set (kd3 := on (head l2) u2 (on (last l1) u1 (<[g_off g := x]> kd))) in *.
  destruct (mem_remove _ _ (delete (g_off g) kd3) _ _ (lc_pageMgr (d_cache d3)) _ _ _ _ _ _ _ _ p a Hm Hi Hn Hl2) as (ht & h & c & h' & L' & E1 & E2 & Hm');
    [|exact Hch| | |].
  { intros pgs Hc. rewrite <- Ec. apply (mu_ok _ _ _ _ Hm3), (mu_ok _ _ _ _ Hm2), (mu_ok _ _ _ _ Hm1), Hc. }
  { intros o kp' Ho Hh. pose proof (Hho _ _ Ho Hh) as Hne. pose proof (Hne g ltac:(apply elem_of_mid; by left)). rewrite lookup_delete_ne by done.
    unfold kd3. rewrite !on_ne by (intros z Hz; apply Hne; auto). rewrite lookup_insert_ne in Ho by done. by rewrite lookup_insert_ne. }
  { intros b kp' Hb' Hh. pose proof (Hhb b kp' Hb' Hh) as Hne. change (Rdb.load d3 b = Val kp').
    rewrite (mu_there _ _ _ _ Hm3), (mu_there _ _ _ _ Hm2), (mu_there _ _ _ _ Hm1); [done|..]; intros z q c Hz Hzn; eapply Hne; try done; auto.
    injection Hz as <-. apply elem_of_mid. by left. }
  rewrite <- Ec in E2. pose proof Hs as [Hps Hps'].
  assert (is_Some (kd3 !! g_off g)) as [kpo Hkpo].
  { pose proof (fun y Hy => emptied_off _ _ _ _ _ _ _ _ _ _ _ _ y Hd Hy) as Hoff. unfold kd3.
    rewrite !on_ne, lookup_insert_eq; [eauto|..]; intros z Hz; apply Hoff; [apply last_elem in Hz|apply head_elem in Hz]; set_solver. }
  rewrite T1, S1, R1 in Hf3. destruct (files_free_key sys D _ Hps _ _ _ _ _ _ _ _ Hf3 Hkpo) as (kf & os & E3 & _ & Hf').
  exists ht, h, c, h', kf, os, (delete (g_off g) kd3). rewrite T3, S3, R3, T4, S4, R4. split_and!; try done; [congruence|].
  split; cbn [Rdb.with_kf Rdb.with_cache Rdb.with_ht d_kpSize d_htSize d_ht d_kf d_vf d_cache d_heap d_os]; rewrite ?T1, ?S1, ?R1; try done.
  - rewrite T2, S2, R2. unfold zlen in *. by rewrite length_insert.
  - by exists L'.
Qed.

Lemma emptied_head d kd vd bks n i l1 g l2 p a kp y : db_emptied d kd vd bks n i l1 g l2 p a kp -> l2 = [] \/ nodes l2 <> [] ->
  head l2 = Some y -> exists q b, g_node y = Some (q, b) /\ head (nodes l2) = Some q.
Proof.
  intros [_ _ _ _ (L & (_ & _ & _ & _ & Hb & _)) _ Hi Hn _ _] Hl2 Hy. specialize (Hb _ _ Hi). destruct l2 as [|y' l2]; [done|]. injection Hy as ->.
  destruct Hl2 as [?|Hl2]; [done|]. pose proof (cached_prefix_app _ _ (bo_prefix _ _ _ _ _ _ _ _ Hb)) as (_ & Hpf & _). simpl in Hpf. rewrite Hn in Hpf.
  rewrite nodes_cons in *. destruct (g_node y) as [[q b]|] eqn:E; [by exists q, b|]. by rewrite (nodes_none _ Hpf) in Hl2.
Qed.

Lemma cached_last l y : Forall cached l -> last l = Some y -> exists q b, g_node y = Some (q, b) /\ last (nodes l) = Some q.
Proof.
  intros Hc [l' ->]%last_Some. apply Forall_app in Hc as [_ [[[q b] Hy] _]%Forall_cons]. exists q, b. split; [done|].
  rewrite nodes_app, nodes_cons, Hy, (nodes_none []), app_nil_r by done. by rewrite last_snoc.
Qed.

Lemma on_some o u kd x : is_Some (kd !! x) -> is_Some (on o u kd !! x).
Proof.
  destruct o as [g|]; [|done]. intros [kp Hx]. simpl. destruct (decide (g_off g = x)) as [<-|]; [rewrite lookup_alter_eq, Hx|rewrite lookup_alter_ne by done]; eauto.
Qed.

Lemma updated_load d d' o u b kp : mem_updated d d' o u -> Rdb.load d b = Val kp -> exists kp', Rdb.load d' b = Val kp'.
Proof.
  intros Hm Hl. destruct (decide (addr o = Some b)) as [E|E].
  - destruct o as [g|]; [|done]. simpl in E. destruct (g_node g) as [[q c]|] eqn:Hn; [|done]. injection E as ->.
    exists (u kp). by eapply (mu_here _ _ _ _ Hm).
  - exists kp. rewrite (mu_there _ _ _ _ Hm); [done|]. intros g q c -> Hn ->. apply E. simpl. by rewrite Hn.
Qed.

Lemma emptied_fits d kd vd bks n i l1 g l2 p a kp : db_emptied d kd vd bks n i l1 g l2 p a kp ->
  fits 8 (last_off (-1) l1) /\ fits 8 (first_off l2 (-1)).
Proof.
  intros Hd. split.
  - unfold last_off. destruct (last l1) as [y|] eqn:E; [|fits_tac]. apply last_elem in E. by apply (emptied_prev _ _ _ _ _ _ _ _ _ _ _ _ y Hd); set_solver.
  - destruct l2 as [|y l2]; [simpl; fits_tac|]. simpl. by apply (emptied_prev _ _ _ _ _ _ _ _ _ _ _ _ y Hd); set_solver.
Qed.

Lemma remove_page_spec fuel d kd vd bks n i l1 g l2 p a kp ustk : db_emptied d kd vd bks n i l1 g l2 p a kp -> (2 <= fuel)%nat ->
  exists stk d' kd' l2', Rdb.remove_page sys fuel d (Z.of_nat i) p ustk = Val (E_ok, stk, d') /\ d_kpSize d' = d_kpSize d /\
    db_ok d' kd' vd (<[i := l1 ++ l2']> bks) n /\ shape <$> l2' = shape <$> l2.
Proof.
  intros Hd0 Hfu. rename d into d0. destruct (emptied_node _ _ _ _ _ _ _ _ _ _ _ _ Hd0) as (k0 & Hk0 & Hka0 & Hko0 & Hkn0 & Hkp0 & Hc1).
  destruct (next_page_spec fuel _ _ _ _ _ _ _ _ _ _ _ _ k0 Hd0 Hkn0 Hfu) as (l2' & d & En & Hsh & Hl2 & Hs0 & Hd).
  pose proof (de_load _ _ _ _ _ _ _ _ _ _ _ _ Hd0) as Hld0. pose proof (de_page _ _ _ _ _ _ _ _ _ _ _ _ Hd0) as Hp0.
  destruct (emptied_node _ _ _ _ _ _ _ _ _ _ _ _ Hd) as (k & Hk & Hka & Hko & Hkn & Hkp & _).
  unfold Rdb.remove_page. rewrite Hk0. cbn [obind]. rewrite Hka0. cbn [deref obind]. rewrite Hld0. cbn [obind].
  rewrite (pi_noff _ _ _ _ _ _ Hp0), (pi_poff _ _ _ _ _ _ Hp0), Hkp0.
  match goal with |- context [obind ?m _] => change m with (next_page fuel d0 (Z.of_nat i) k0 (first_off l2 (-1))) end.
  rewrite En. cbn [obind negb Z.eqb E_ok].
  assert (forall y, y ∈ l1 ++ l2' -> forall q b, g_node y = Some (q, b) -> 0 <= g_off y /\ exists q' b' k, g_node y = Some (q', b') /\ Some q = Some q' /\
    Heap.get_kpn (d_heap d) q' = Val k /\ kpn_kp k = Some b') as Hnb.
  { intros y Hy q b Hyn. destruct (emptied_prev _ _ _ _ _ _ _ _ _ _ _ _ y Hd Hy) as (Ho & _ & _ & H). split; [done|].
    destruct (H q b Hyn) as (_ & ky & kpy & ? & ? & _). eauto 8. }
  rewrite (neighbour_addr d (last l1) (last_off (-1) l1) (last (nodes l1))); [|done|].
  2: { intros y Hy. destruct (cached_last _ _ Hc1 Hy) as (q & b & Hyn & ->). eapply Hnb; [apply last_elem in Hy; set_solver|done]. }
  rewrite <- (first_off_shape l2 l2' (-1) Hsh). cbn [obind].
  rewrite (neighbour_addr d (head l2') (first_off l2' (-1)) (head (nodes l2'))); [|by destruct l2'|].
  2: { intros y Hy. destruct (emptied_head _ _ _ _ _ _ _ _ _ _ _ _ y Hd Hl2 Hy) as (q & b & Hyn & ->). eapply Hnb; [apply head_elem in Hy; set_solver|done]. }
  cbn [obind]. rewrite Hk. cbn [obind]. rewrite Hko.
  pose proof (de_load _ _ _ _ _ _ _ _ _ _ _ _ Hd) as Hld. pose proof (de_node _ _ _ _ _ _ _ _ _ _ _ _ Hd) as Hgn.
  destruct (de_disk _ _ _ _ _ _ _ _ _ _ _ _ Hd) as [kp0 Hkp0']. destruct (de_size _ _ _ _ _ _ _ _ _ _ _ _ Hd) as [Hs Hs'].
  destruct (files_delete_flag sys D _ Hs _ _ _ _ _ _ _ _ kp (de_files _ _ _ _ _ _ _ _ _ _ _ _ Hd) Hkp0') as (os1 & Ew & Hf1).
  unfold Rdb.update_page at 1. rewrite Hld. cbn [obind]. rewrite Ew. cbn [obind negb Z.eqb E_ok].
  set (d1 := Rdb.store (Rdb.with_os d os1) a (kp_with_flags kp KPAGE_DELETED)) in *. set (x := kp_with_vcount (kp_with_flags kp0 KPAGE_DELETED) 0) in *.
  pose proof (store_updated d os1 g p a kp (fun kp => kp_with_flags kp KPAGE_DELETED) Hgn Hld) as Hm1. fold d1 in Hm1.
  destruct (emptied_fits _ _ _ _ _ _ _ _ _ _ _ _ Hd) as [Hfit1 Hfit2].
  assert (forall y q b, y ∈ l1 ++ l2' -> g_node y = Some (q, b) -> exists kpy, Rdb.load d1 b = Val kpy) as Hld1.
  { intros y q b Hy Hyn. destruct (emptied_prev _ _ _ _ _ _ _ _ _ _ _ _ y Hd Hy) as (_ & _ & _ & H).
    destruct (H q b Hyn) as (_ & _ & kpy & _ & _ & Hly). eapply updated_load; [exact Hm1|exact Hly]. }
  assert (forall y, y ∈ l1 ++ l2' -> is_Some ((<[g_off g := x]> kd) !! g_off y)) as Hdk.
  { intros y Hy. rewrite lookup_insert_ne by (intros E; by eapply (emptied_off _ _ _ _ _ _ _ _ _ _ _ _ y Hd)).
    by apply (emptied_prev _ _ _ _ _ _ _ _ _ _ _ _ y Hd Hy). }
  set (stk1 := UnwindStack.writeFlags ustk Key (KeyPageAt a) (g_off g) 0).
  destruct (neighbour (fun kf o kp => KeyFile.writeNextOffset sys kf o kp (first_off l2' (-1))) (fun kp => kp_with_noff kp (first_off l2' (-1)))
    (fun b pk => UnwindStack.writeNextOffset stk1 Key (KeyPageAt b) (last_off (-1) l1) (kp_noff pk)) stk1 (last l1) (last_off (-1) l1) d1 (<[g_off g := x]> kd) vd n)
    as (d2 & stk2 & E2 & Hm2 & Hf2); [|exact Hf1| |].
  { intros kf vf os kd0 vd0 n0 o kp1 mem H1 H2. by apply (files_next sys D _ Hs kf vf os kd0 vd0 n0 o kp1 mem). }
  { intros y Hy. destruct (cached_last _ _ Hc1 Hy) as (q & b & Hyn & _). assert (y ∈ l1 ++ l2') by (apply last_elem in Hy; set_solver).
    split; [unfold last_off; by rewrite Hy|]. split; [by apply Hdk|]. destruct (Hld1 y q b) as [kpy Hly]; [done|done|]. by exists q, b, kpy. }
  cbn beta in E2. rewrite E2. cbn [obind]. rewrite Z.eqb_refl. destruct (mu_rest _ _ _ _ Hm2) as (S1 & _).
  destruct (neighbour (fun kf o kp => KeyFile.writePrevOffset sys kf o kp (last_off (-1) l1)) (fun kp => kp_with_poff kp (last_off (-1) l1))
    (fun b pk => UnwindStack.writePrevOffset stk2 Key (KeyPageAt b) (first_off l2' (-1)) (kp_poff pk)) stk2 (head l2') (first_off l2' (-1)) d2
    (on (last l1) (fun kp => kp_with_noff kp (first_off l2' (-1))) (<[g_off g := x]> kd)) vd n) as (d3 & stk3 & E3 & Hm3 & Hf3); [|exact Hf2| |].
  { rewrite S1. intros kf vf os kd0 vd0 n0 o kp1 mem H1 H2. by apply (files_prev sys D _ Hs kf vf os kd0 vd0 n0 o kp1 mem). }
  { intros y Hy. destruct (emptied_head _ _ _ _ _ _ _ _ _ _ _ _ y Hd Hl2 Hy) as (q & b & Hyn & _). assert (y ∈ l1 ++ l2') by (apply head_elem in Hy; set_solver).
    split; [by destruct l2'; simplify_eq/=|]. split; [by apply on_some, Hdk|]. destruct (Hld1 y q b) as [kpy Hly]; [done|done|].
    destruct (updated_load _ _ _ _ _ _ Hm2 Hly) as [kpy' Hly']. by exists q, b, kpy'. }
  cbn beta in E3. rewrite E3. cbn [obind]. rewrite Z.eqb_refl. cbn [negb].
  edestruct (emptied_finish d d1 d2 d3) as (ht & h & c & h' & kf & os & kd' & F1 & F2 & F3 & F4 & F5);
    [exact Hd|exact Hl2|exact Hm1|exact Hm2|exact Hm3| | |exact Hf3|].
  { intros. by eapply page_with_noff. } { intros. by eapply page_with_poff. }
  rewrite F1. cbn [obind]. change (d_cache (Rdb.with_ht d3 ht h)) with (d_cache d3). change (d_heap (Rdb.with_ht d3 ht h)) with h. rewrite F2. cbn [obind].
  change (d_kf (Rdb.with_cache (Rdb.with_ht d3 ht h) c h' (d_os (Rdb.with_ht d3 ht h)))) with (d_kf d3).
  change (d_os (Rdb.with_cache (Rdb.with_ht d3 ht h) c h' (d_os (Rdb.with_ht d3 ht h)))) with (d_os d3). rewrite F3. cbn [obind].
  eexists _, _, kd', l2'. split; [reflexivity|]. rewrite list_insert_insert_eq in F5. split; [simpl; congruence|]. by split.
Qed.
End unlink.
