(* ===== verification/RdbRefine.v ===== *)
(** * The database is a map

    [Rdb::get], [Rdb::set] and [Rdb::remove] against their specification, a
    finite map from keys to values: on a disk without faults, with room for the
    pages in the files and in the cache, they look a key up, insert it and delete
    it, whatever pages are in memory. *)
From S2P Require Import Prelude Bytes DbStruct KeyRec AvlTree KeyRecOps KeyPage File FdpMgr DbFiles Disk PageMgr Cache HashTable.
From S2P Require Import Dll CacheFacts HashFacts Store PageStore RdbFiles RdbInv RdbMem Unwind Rdb RdbSearch RdbOps RdbUnlink.

(** ** Keys, values and value pages *)

(** The keys and values the database takes: they fit their fields and do not
    start with the null byte. *)
Definition key_ok (k : bytes) : Prop := is_key k /\ 1 <= zlen k <= MAX_KEY_LENGTH /\ head k <> Some 0.
Definition value_ok (v : bytes) : Prop := 1 <= zlen v <= MAX_VALUE_LENGTH /\ head v <> Some 0.

(** The value page [vp] is the one of the key [k] and holds [v]. *)
Record vp_is (k v : bytes) (vp : value_page) : Prop := {
  vi_fits : vp_fits vp;
  vi_flags : vp_flags vp = 0;
  vi_klen : vp_klen vp = zlen k;
  vi_vlen : vp_vlen vp = zlen v;
  vi_key : take (length k) (vp_key vp) = k;
  vi_value : take (length v) (vp_value vp) = v;
  vi_max : 0 <= zlen v <= MAX_VALUE_LENGTH }.

Lemma vp_is_key k v k' v' vp : vp_is k v vp -> vp_is k' v' vp -> k = k'.
Proof.
  intros [] []. assert (length k = length k') as E by (unfold zlen in *; lia). congruence.
Qed.

(** What [memcpy] makes of a prefix of the source. *)
Lemma memcpy_prefix dst (x r : bytes) : zlen x <= zlen dst -> memcpy dst (x ++ r) (zlen x) = Val (x ++ drop (length x) dst).
Proof.
  intros Hx. unfold memcpy. pose proof (zlen_nonneg r). pose proof (zlen_nonneg x). rewrite zlen_app. rewrite decide_True by lia.
  unfold zlen. rewrite Nat2Z.id. by rewrite take_app_length.
Qed.

Lemma memcmp_same x r y : take (length x) y = x -> memcmp (x ++ r) y (length x) = Val 0.
Proof.
  intros E. rewrite memcmp_take.
  - rewrite take_app_length, E. f_equal. clear. induction x as [|a x IH]; [done|]. simpl. by rewrite Z.eqb_refl.
  - rewrite length_app. lia.
  - pose proof (f_equal length E) as El. rewrite length_take in El. lia.
Qed.

Lemma init_value_page k rk v rv : key_ok k -> value_ok v ->
  exists vp, InitValuePage (k ++ rk) (zlen k) (v ++ rv) (zlen v) = Val vp /\ vp_is k v vp.
Proof.
  intros (_ & Hk & _) [Hv _]. unfold InitValuePage. unfold MAX_KEY_LENGTH, MAX_VALUE_LENGTH in *.
  rewrite memcpy_prefix by (unfold zlen in *; rewrite length_replicate; lia). cbn [obind].
  rewrite memcpy_prefix by (unfold zlen in *; rewrite length_replicate; lia). cbn [obind]. eexists. split; [done|].
  unfold zlen in *. split; cbn [vp_flags vp_klen vp_vlen vp_key vp_value]; try done; [|by rewrite take_app_length|by rewrite take_app_length|unfold MAX_VALUE_LENGTH, zlen; lia].
  split; cbn [vp_flags vp_klen vp_vlen vp_key vp_value]; [unfold fits; simpl; lia..| |]; rewrite length_app, length_drop, length_replicate; lia.
Qed.

Lemma set_key_info k rk hash : key_ok k -> exists ki, SetKeyInfo (k ++ rk) (zlen k) hash = Val ki /\ key_is ki k /\ ki_hash ki = hash /\ ki_voff ki = -1.
Proof.
  intros (Hk & Hl & _). unfold SetKeyInfo. unfold MAX_KEY_LENGTH in *.
  rewrite memcpy_prefix by (unfold zlen in *; rewrite length_replicate; lia). cbn [obind]. eexists. split; [done|]. split; [|done].
  split; [|done]. unfold ki_is, MAX_KEY_LENGTH. cbn [ki_klen ki_key]. unfold zlen in *. rewrite take_app_length, length_app, length_drop, length_replicate. repeat split; lia.
Qed.

(** ** The content of the buckets *)
Definition lhas (l : list pg) (k : bytes) (o : Z) : Prop := exists g, g ∈ l /\ g_map g !! k = Some o.
Definition has (bks : list (list pg)) (i : nat) (k : bytes) (o : Z) : Prop := exists l, bks !! i = Some l /\ lhas l k o.

(** The bucket of a key in a table of [n] entries. *)
Definition bucket (n : Z) (k : bytes) : nat := Z.to_nat ((sdbm k mod 2 ^ 64) mod n).

(** The keys in the pages, with their value pages, are those of [m]. *)
Record content (bks : list (list pg)) (vd : gmap Z value_page) (m : gmap bytes bytes) : Prop := {
  ct_in i k o : has bks i k o -> i = bucket (zlen bks) k /\ exists vp v, vd !! o = Some vp /\ vp_is k v vp /\ m !! k = Some v;
  ct_out k v : m !! k = Some v -> exists o, has bks (bucket (zlen bks) k) k o }.

Lemma lhas_mid l1 g l2 k o : lhas (l1 ++ g :: l2) k o <-> g_map g !! k = Some o \/ lhas (l1 ++ l2) k o.
Proof.
  unfold lhas. split.
  - intros (y & [->|Hy]%elem_of_mid & H); eauto.
  - intros [H|(y & Hy & H)]; eexists; (split; [apply elem_of_mid|exact H]); auto.
Qed.

Lemma lhas_shape l l' k o : shape <$> l' = shape <$> l -> lhas l' k o -> lhas l k o.
Proof.
  intros E (g & Hg & H). assert (shape g ∈ shape <$> l) as Hs by (rewrite <- E; by apply list_elem_of_fmap_2).
  apply list_elem_of_fmap in Hs as (g' & Es & Hg'). exists g'. split; [done|]. unfold shape in Es. congruence.
Qed.

Lemma has_insert bks i l l' j k o : bks !! i = Some l -> has (<[i := l']> bks) j k o <-> (j = i /\ lhas l' k o) \/ (j <> i /\ has bks j k o).
Proof.
  intros Hi. pose proof (lookup_lt_Some _ _ _ Hi) as Hlt. unfold has. split.
  - intros (x & [(<- & <- & _)|[Hne Hj]]%list_lookup_insert_Some & H); [by left|right; split; [done|by exists x]].
  - intros [[-> H]|[Hne (x & Hj & H)]].
    + exists l'. by rewrite list_lookup_insert_eq.
    + exists x. by rewrite list_lookup_insert_ne.
Qed.

(** Pages that come into memory do not change the content. *)
Lemma content_same bks bks' vd m : zlen bks' = zlen bks -> (forall i k o, has bks' i k o <-> has bks i k o) -> content bks vd m -> content bks' vd m.
Proof. intros Hz H [H1 H2]. split; [intros i k o; rewrite H, Hz; apply H1|]. intros k v Hk. rewrite Hz. destruct (H2 _ _ Hk) as [o Ho]. exists o. by apply H. Qed.

Lemma has_shape bks i l l' j k o : bks !! i = Some l -> shape <$> l' = shape <$> l -> has (<[i := l']> bks) j k o <-> has bks j k o.
Proof.
  intros Hi E. rewrite (has_insert _ _ _ _ _ _ _ Hi). split.
  - intros [[-> H]|[_ H]]; [|done]. exists l. split; [done|]. by eapply lhas_shape.
  - intros H. destruct (decide (j = i)) as [->|Hne]; [left|by right]. split; [done|]. destruct H as (l0 & Hl0 & H). rewrite Hi in Hl0. injection Hl0 as <-.
    by eapply lhas_shape.
Qed.

Lemma content_shape bks i l l' vd m : bks !! i = Some l -> shape <$> l' = shape <$> l -> content bks vd m -> content (<[i := l']> bks) vd m.
Proof. intros Hi E. apply content_same; [unfold zlen; by rewrite length_insert|]. intros j k o. by apply (has_shape _ _ l). Qed.

(** No page is without keys. *)
Definition full (bks : list (list pg)) : Prop := forall i l g, bks !! i = Some l -> g ∈ l -> g_map g <> ∅.

Lemma full_insert bks i l : full bks -> (forall g, g ∈ l -> g_map g <> ∅) -> full (<[i := l]> bks).
Proof. intros Hf Hl j l' g [(_ & <- & _)|[_ Hj]]%list_lookup_insert_Some Hg; [by apply Hl|by apply (Hf j l')]. Qed.

Lemma full_shape bks i l l' : full bks -> bks !! i = Some l -> shape <$> l' = shape <$> l -> full (<[i := l']> bks).
Proof.
  intros Hf Hi E. apply full_insert; [done|]. intros g Hg. assert (shape g ∈ shape <$> l) as Hs by (rewrite <- E; by apply list_elem_of_fmap_2).
  apply list_elem_of_fmap in Hs as (g' & Es & Hg'). unfold shape in Es. injection Es as _ ->. by apply (Hf i l).
Qed.

(** A value page is rewritten. *)
Lemma content_write bks vd m i k o v vp : content bks vd m -> has bks i k o -> (forall o', has bks i k o' -> o' = o) -> vp_is k v vp ->
  content bks (<[o := vp]> vd) (<[k := v]> m).
Proof.
  intros [H1 H2] Hk Hu Hvp. destruct (H1 _ _ _ Hk) as (Ei & vp0 & v0 & Hv0 & Hvp0 & Hm0). split.
  - intros j k' o' H. destruct (H1 _ _ _ H) as (Ej & vp' & v' & Hv' & Hvp' & Hm'). split; [done|]. destruct (decide (o' = o)) as [->|Hne].
    + exists vp, v. rewrite lookup_insert_eq. simplify_eq. assert (k' = k) as -> by (eapply vp_is_key; [exact Hvp'|exact Hvp0]). by rewrite lookup_insert_eq.
    + exists vp', v'. rewrite lookup_insert_ne by done. split; [done|]. split; [done|]. rewrite lookup_insert_ne; [done|]. intros <-.
      apply Hne, Hu. by rewrite Ei, <- Ej.
  - intros k' v' [[<- <-]|[Hne Hk']]%lookup_insert_Some; [|by apply (H2 k' v')]. exists o. by rewrite <- Ei.
Qed.

(** A key comes to the bucket [i]. *)
Lemma content_add bks bks' vd m i k o v vp : content bks vd m -> i = bucket (zlen bks) k -> zlen bks' = zlen bks ->
  (forall j k' o', has bks' j k' o' <-> (j = i /\ k' = k /\ o' = o) \/ has bks j k' o') -> m !! k = None -> vd !! o = None -> vp_is k v vp ->
  content bks' (<[o := vp]> vd) (<[k := v]> m).
Proof.
  intros [H1 H2] Ei Hz Hb Hm Hv Hvp. split.
  - intros j k' o' [(-> & -> & ->)|H]%Hb; [rewrite Hz; split; [done|]; exists vp, v; by rewrite !lookup_insert_eq|].
    destruct (H1 _ _ _ H) as (Ej & vp' & v' & Hv' & Hvp' & Hm'). rewrite Hz. split; [done|]. exists vp', v'. rewrite !lookup_insert_ne by congruence. done.
  - intros k' v' [[<- <-]|[Hne Hk']]%lookup_insert_Some.
    + exists o. apply Hb. left. by rewrite Hz.
    + destruct (H2 _ _ Hk') as [o' Ho']. exists o'. rewrite Hz. apply Hb. by right.
Qed.

(** A key goes. *)
Lemma content_del bks bks' vd m k o : content bks vd m -> zlen bks' = zlen bks -> (forall j k' o', has bks' j k' o' <-> k' <> k /\ has bks j k' o') ->
  has bks (bucket (zlen bks) k) k o -> content bks' (delete o vd) (delete k m).
Proof.
  intros [H1 H2] Hz Hb Hk. destruct (H1 _ _ _ Hk) as (_ & vp0 & v0 & Hv0 & Hvp0 & Hm0). split.
  - intros j k' o' [Hne H]%Hb. destruct (H1 _ _ _ H) as (Ej & vp' & v' & Hv' & Hvp' & Hm'). rewrite Hz. split; [done|]. exists vp', v'.
    rewrite !lookup_delete_ne; [done|done|]. intros <-. apply Hne. simplify_eq. by eapply vp_is_key.
  - intros k' v' [Hne Hk']%lookup_delete_Some. destruct (H2 _ _ Hk') as [o' Ho']. exists o'. rewrite Hz. apply Hb. auto.
Qed.

Section refine.
Context {OS : Type} (sys : syscalls OS) (D : gset Z) `{Rel : !Reliable sys D}.
Implicit Types (d : db OS) (f : key_find) (g : pg) (kd : gmap Z key_page) (vd : gmap Z value_page) (bks : list (list pg)) (m : gmap bytes bytes).
Local Abbreviation db_ok := (db_ok sys D).

(** The database [d], with a table of [sz] entries, is the map [m]; it can take
    [n] more keys. *)
Definition represents d (sz : Z) m (n : Z) : Prop :=
  exists kd vd bks, db_ok d kd vd bks (2 * n) /\ content bks vd m /\ full bks /\ zlen bks = sz.

Lemma ops_ok d x kd vd bks n : db_ok d kd vd bks n -> db_ok (Rdb.with_ops d x) kd vd bks n.
Proof. intros []. by split. Qed.

Lemma db_mem d kd vd bks n i l : db_ok d kd vd bks n -> bks !! i = Some l ->
  exists L, bucket_ok (d_kpSize d) kd (d_ht d) (d_cache d) (d_heap d) L (Z.of_nat i) l.
Proof. intros [_ _ _ [L (_ & _ & _ & _ & Hb & _)] _] Hi. exists L. by apply Hb. Qed.

(** A key is in one page of a bucket. *)
Lemma db_others d kd vd bks n i l1 g l2 k o y : db_ok d kd vd bks n -> bks !! i = Some (l1 ++ g :: l2) -> g_map g !! k = Some o ->
  y ∈ l1 ++ l2 -> g_map y !! k = None.
Proof.
  intros Hok Hi Hg Hy. destruct (db_mem _ _ _ _ _ _ _ Hok Hi) as [L Hb]. destruct (g_map y !! k) eqn:E; [exfalso|done].
  eapply (bucket_rest _ _ _ _ _ _ _ _ _ _ y Hb Hy), (bo_keys _ _ _ _ _ _ _ _ Hb y g k); [apply elem_of_mid; by right|apply elem_of_mid; by left|eauto..].
Qed.

Lemma has_fun d kd vd bks n i k o o' : db_ok d kd vd bks n -> has bks i k o -> has bks i k o' -> o' = o.
Proof.
  intros Hok (l & Hi & g & Hg & Ho) (l' & Hi' & g' & Hg' & Ho'). rewrite Hi in Hi'. injection Hi' as <-.
  apply list_elem_of_split in Hg as (l1 & l2 & ->). apply elem_of_mid in Hg' as [->|Hg']; [congruence|].
  rewrite (db_others _ _ _ _ _ _ _ _ _ _ _ _ Hok Hi Ho Hg') in Ho'. done.
Qed.

Lemma missing_key l k : (forall o, ~ lhas l k o) -> forall y, y ∈ l -> g_map y !! k = None.
Proof. intros H y Hy. destruct (g_map y !! k) as [o|] eqn:E; [|done]. exfalso. by apply (H o); exists y. Qed.

(** A bucket has no more pages than there are keys. *)
Lemma bucket_length d kd vd bks n i l m : db_ok d kd vd bks n -> content bks vd m -> full bks -> bks !! i = Some l -> (length l <= size m)%nat.
Proof.
  intros Hok Hc Hfull Hi. destruct (db_mem _ _ _ _ _ _ _ Hok Hi) as [L Hb].
  assert (exists ks, Forall2 (fun g k => is_Some (g_map g !! k)) l ks) as [ks Hks].
  { assert (forall g, g ∈ l -> g_map g <> ∅) as H by (intros g Hg; by apply (Hfull i l)). clear -H. induction l as [|g l IH]; [by exists []|].
    destruct IH as [ks Hks]; [intros g' Hg'; apply H; set_solver|]. destruct (map_choose (g_map g)) as (k & x & Hk); [apply H; set_solver|].
    exists (k :: ks). constructor; [eauto|done]. }
  rewrite (Forall2_length _ _ _ Hks), <- size_dom. assert (NoDup ks) as Hnd.
  { apply NoDup_alt. intros a b k Ha Hkb. destruct (Forall2_lookup_r _ _ _ _ _ Hks Ha) as (g1 & H1 & H1'), (Forall2_lookup_r _ _ _ _ _ Hks Hkb) as (g2 & H2 & H2').
    assert (g_off g1 = g_off g2) as E by (apply (bo_keys _ _ _ _ _ _ _ _ Hb g1 g2 k); [by eapply list_elem_of_lookup_2|by eapply list_elem_of_lookup_2|done|done]).
    apply (NoDup_lookup (g_off <$> l) a b (g_off g1) (bo_nodup _ _ _ _ _ _ _ _ Hb)); rewrite list_lookup_fmap; [by rewrite H1|rewrite H2; simpl; congruence]. }
  rewrite <- (size_list_to_set (C := gset bytes) ks Hnd). apply subseteq_size. intros k Hk%elem_of_list_to_set. apply list_elem_of_lookup in Hk as [a Ha].
  destruct (Forall2_lookup_r _ _ _ _ _ Hks Ha) as (g & Hg & [o Ho]). destruct (ct_in _ _ _ Hc i k o) as (_ & vp & v & _ & _ & Hm).
  - exists l. split; [done|]. exists g. split; [by eapply list_elem_of_lookup_2|done].
  - by apply elem_of_dom_2 in Hm.
Qed.

(** The search for a key that is there. *)
Lemma find_hit fuel d kd vd bks n i l k o ki : db_ok d kd vd bks n -> bks !! i = Some l -> lhas l k o -> o <> -1 -> key_is ki k ->
  ki_hash ki = Z.of_nat i -> (length l + 3 <= fuel)%nat ->
  exists d1 l1 g l2 p a f kp, Rdb.processKeyPages sys fuel d (Rdb.find_init ki) GET = Val (E_ok, f, d1) /\
    Rdb.found_asserts d1 f = Val tt /\ ki_voff (f_ki f) = o /\ f_kpn f = Some p /\ d_kpSize d1 = d_kpSize d /\
    db_ok d1 kd vd (<[i := l1 ++ g :: l2]> bks) n /\ shape <$> l1 ++ g :: l2 = shape <$> l /\
    g_node g = Some (p, a) /\ g_map g !! k = Some o /\ Rdb.load d1 a = Val kp /\ KeyRecords.get kp ki = Val (f_kidx f).
Proof.
  intros Hok Hi (g & Hg & Ho) Hne Hk Hh Hfu. apply list_elem_of_split in Hg as (l1 & l2 & ->). pose proof (lookup_lt_Some _ _ _ Hi) as Hlt.
  rewrite length_app in Hfu. cbn [length] in Hfu.
  assert (Forall (fun x => passes (d_kpSize d) GET k (g_map x)) l1) as Hp.
  { apply Forall_forall. intros y Hy. eapply (db_others _ _ _ _ _ _ l1 g l2); [exact Hok|exact Hi|exact Ho|set_solver]. }
  destruct (process_to sys D fuel d kd vd bks n i l1 g l2 (Rdb.find_init ki) k GET Hok Hi Hk Hh Hp ltac:(lia))
    as (f & d1 & l1' & p & a & Hok1 & Hs1 & [Hki _] & Hsh & _ & Hgo).
  set (g' := mkPg (g_off g) (g_map g) (Some (p, a))) in *.
  edestruct (visit_get sys D d1 kd vd _ n i l1' g' l2 p a f k o Hok1) as (kp & idx & Hld & Hget & Ev & Ha);
    [by rewrite list_lookup_insert_eq|done|by rewrite Hki|done|done|].
  exists d1, l1', g', l2, p, a. eexists _, kp. split; [by apply Hgo, Ev|]. split; [exact Ha|]. split_and!; try done.
  - rewrite !fmap_app. simpl. by rewrite Hsh.
  - cbn [Rdb.f_found f_kidx]. by rewrite Hki in Hget.
Qed.

Lemma read_value_spec fuel d kd vd bks n o vp vp0 k rk v : db_ok d kd vd bks n -> vd !! o = Some vp -> vp_is k v vp -> (2 <= fuel)%nat ->
  exists d', Rdb.read_value sys fuel d o vp0 (k ++ rk) (zlen k) = Val (E_ok, vp, d') /\ db_ok d' kd vd bks n.
Proof.
  intros [[Hs Hs'] Hht Hf Hm Hn] Ho [Hfit Hfl Hkl Hvl Hkey Hval _] Hfu.
  destruct (files_read_value sys D _ Hs fuel _ _ _ _ _ _ _ _ Hf Ho Hfu) as (os' & Er & Hf').
  unfold Rdb.read_value. rewrite Er. cbn [obind]. rewrite Z.eqb_refl. cbn [negb]. rewrite value_page_roundtrip by done.
  unfold IsValuePageDeleted. rewrite Hfl. cbn [Z.land Z.eqb VPAGE_DELETED negb ASSERT obind]. rewrite Hkl, Z.eqb_refl. cbn [ASSERT obind].
  unfold zlen. rewrite Nat2Z.id, memcmp_same by done. cbn [obind Z.eqb ASSERT]. eexists. split; [done|]. by split.
Qed.

(** The arguments of an operation. *)
Lemma args_ok k rk : key_ok k -> Rdb.key_args (Some (k ++ rk)) (zlen k) = Val (inr (k ++ rk)).
Proof.
  intros (_ & Hl & Hh). unfold Rdb.key_args, Rdb.null_or_empty. destruct k as [|c k]; [unfold zlen in Hl; simpl in Hl; lia|].
  simpl in Hh. cbn [app head deref obind]. rewrite (proj2 (Z.eqb_neq c 0)) by congruence. rewrite (proj2 (Z.leb_gt _ 0)) by lia. done.
Qed.

Lemma hash_ok d kd vd bks n k rk : db_ok d kd vd bks n -> Rdb.hash_key d (k ++ rk) (zlen k) = Val (Z.of_nat (bucket (zlen bks) k)) /\
  exists l, bks !! bucket (zlen bks) k = Some l.
Proof.
  intros [_ [Eh Hh] _ _ _]. pose proof (Z.mod_pos_bound (sdbm k mod 2 ^ 64) (zlen bks) ltac:(lia)) as Hb. unfold Rdb.hash_key. rewrite Eh, hash_spec.
  - assert (take (Z.to_nat (zlen k)) (k ++ rk) = k) as -> by (unfold zlen; by rewrite Nat2Z.id, take_app_length).
    cbn [obind]. unfold bucket. rewrite Z2Nat.id by lia. rewrite (proj2 (Z.leb_le 0 _)), (proj2 (Z.ltb_lt _ (zlen bks))) by lia. cbn [andb ASSERT obind].
    split; [done|]. apply lookup_lt_is_Some. unfold zlen in *. lia.
  - pose proof (zlen_nonneg rk). rewrite zlen_app. lia.
  - done.
Qed.

(** The value page of a key in a page. *)
Lemma content_value d kd vd bks n i k o m : db_ok d kd vd bks n -> content bks vd m -> has bks i k o ->
  exists vp v, vd !! o = Some vp /\ vp_is k v vp /\ m !! k = Some v /\ 0 <= o /\ fits 8 o.
Proof.
  intros [[Hs _] _ Hf _ Hn] Hc Hk. destruct (ct_in _ _ _ Hc _ _ _ Hk) as (_ & vp & v & Hv & Hvp & Hm).
  destruct (files_value_off sys D _ _ _ _ _ _ _ _ _ Hf Hn Hv). by exists vp, v.
Qed.

Lemma content_missing bks vd m i l k : content bks vd m -> m !! k = None -> bks !! i = Some l -> forall y, y ∈ l -> g_map y !! k = None.
Proof.
  intros [H1 _] Hm Hi. apply missing_key. intros o Ho. destruct (H1 i k o) as (_ & _ & v & _ & _ & E); [by exists l|congruence].
Qed.

(** [get] looks the key up and leaves the map as it is: [E_not_found] for a key
    that is not there, [E_insufficient_buffer] for a buffer that is too small,
    otherwise the value and its length. *)
Lemma get_spec d sz m n k rk buf len : represents d sz m n -> key_ok k -> 0 < len <= zlen buf ->
  forall fuel, (size m + 3 <= fuel)%nat ->
  exists d', represents d' sz m n /\
    Rdb.get sys fuel d (Some (k ++ rk)) (zlen k) (Some buf) (Some len) =
      Val match m !! k with
          | None => (E_not_found, Some buf, Some len, d')
          | Some v => if len <? zlen v then (E_insufficient_buffer, Some buf, Some len, d')
                      else (E_ok, Some (v ++ drop (length v) buf), Some (zlen v), d')
          end.
Proof.
  intros (kd & vd & bks & Hok0 & Hc & Hfull & Esz) Hk Hlen fuel Hfu. destruct (hash_ok _ _ _ _ _ k rk Hok0) as [_ [l Hi]]. set (i := bucket (zlen bks) k) in *.
  pose proof (bucket_length _ _ _ _ _ _ _ _ Hok0 Hc Hfull Hi) as Hlm. unfold Rdb.get. rewrite (args_ok k rk Hk). cbn [obind]. rewrite (proj2 (Z.leb_gt len 0)) by lia.
  set (d1 := Rdb.with_ops d (d_opCount d + 1)). pose proof (ops_ok d (d_opCount d + 1) _ _ _ _ Hok0) as Hok. fold d1 in Hok.
  destruct (hash_ok _ _ _ _ _ k rk Hok) as [-> _]. fold i. cbn [obind].
  destruct (set_key_info k rk (Z.of_nat i) Hk) as (ki & -> & Hki & Hhash & _). cbn [obind]. destruct (m !! k) as [v|] eqn:Hm.
  - destruct (ct_out _ _ _ Hc _ _ Hm) as [o Ho]. fold i in Ho. pose proof Ho as (l0 & Hl0 & Hlk). rewrite Hi in Hl0. injection Hl0 as <-.
    destruct (content_value _ _ _ _ _ _ _ _ _ Hok Hc Ho) as (vp & v' & Hv & Hvp & Hm' & Ho0 & _). rewrite Hm in Hm'. injection Hm' as <-.
    destruct (find_hit fuel d1 _ _ _ _ i l k o ki Hok Hi Hlk ltac:(lia) Hki Hhash ltac:(lia))
      as (d2 & l1 & g & l2 & p & a & f & kp & Ep & Ea & Eo & _ & _ & Hok2 & Hsh & _).
    rewrite Ep. cbn [obind]. rewrite Z.eqb_refl, Ea. cbn [obind]. rewrite Eo.
    destruct (read_value_spec fuel d2 _ _ _ _ o vp (dec_value_page []) k rk v Hok2 Hv Hvp ltac:(lia)) as (d3 & -> & Hok3). cbn [obind]. rewrite Z.eqb_refl. cbn [negb].
    assert (represents (Rdb.with_ops d3 (d_opCount d3 - 1)) sz m n) as Hr.
    { eexists kd, vd, _. split; [by apply ops_ok|]. split; [eapply content_shape; [exact Hi|exact Hsh|exact Hc]|]. split; [by eapply full_shape|]. unfold zlen in *. by rewrite length_insert. }
    pose proof (vi_vlen _ _ _ Hvp) as Evl. rewrite Evl. exists (Rdb.with_ops d3 (d_opCount d3 - 1)). split; [exact Hr|]. destruct (Z.ltb_spec len (zlen v)) as [Hlt|Hge]; [done|].
    assert ((if zlen v <? len then zlen v else len) = zlen v) as -> by (destruct (Z.ltb_spec (zlen v) len); lia).
    pose proof (vi_value _ _ _ Hvp) as Ev.
    assert (memcpy buf (vp_value vp) (zlen v) = Val (v ++ drop (length v) buf)) as ->; [|done].
    unfold memcpy. pose proof (f_equal length Ev) as El. rewrite length_take in El. pose proof (zlen_nonneg v).
    rewrite decide_True by (unfold zlen in *; lia). unfold zlen. by rewrite Nat2Z.id, Ev.
  - destruct (process_all sys D fuel d1 _ _ _ _ i l (Rdb.find_init ki) k GET Hok Hi Hki Hhash) as (f & d2 & l' & Ep & Hok2 & _ & _ & Hsh & _).
    { apply Forall_forall. by eapply content_missing. } { lia. }
    rewrite Ep. cbn [obind]. cbn [Z.eqb E_not_found E_ok Pos.eqb].
    exists (Rdb.with_ops d2 (d_opCount d2 - 1)). split; [|done]. eexists kd, vd, _. split; [by apply ops_ok|]. split; [by eapply content_shape|]. split; [by eapply full_shape|]. unfold zlen in *. by rewrite length_insert.
Qed.

Lemma db_weaken d kd vd bks n n' : db_ok d kd vd bks n -> 0 <= n' <= n -> db_ok d kd vd bks n'.
Proof.
  intros [[Hs Hs'] Hht Hf (L & H1 & H2 & H3 & H4 & H5 & H6) Hn] Hn'. split; try done; [|exists L; split_and!; try done; lia|lia].
  eapply files_weaken; [exact Hs|exact Hf|lia].
Qed.

(** The first element that does not satisfy [P]. *)
Lemma first_not {A} (P : A -> Prop) `{forall x, Decision (P x)} (l : list A) :
  Forall P l \/ exists l1 x l2, l = l1 ++ x :: l2 /\ Forall P l1 /\ ~ P x.
Proof.
  induction l as [|x l IH]; [by left|]. destruct (decide (P x)); [|right; by exists [], x, l].
  destruct IH as [IH|(l1 & y & l2 & -> & H1 & H2)]; [left; by constructor|right; exists (x :: l1), y, l2]. split_and!; [done|by constructor|done].
Qed.

(** A key in one more page, or in a new page. *)
Lemma has_put bks i l1 g l2 k o x : bks !! i = Some (l1 ++ g :: l2) -> (forall y, y ∈ l1 ++ g :: l2 -> g_map y !! k = None) ->
  forall j k' o', has (<[i := l1 ++ mkPg (g_off g) (<[k := o]> (g_map g)) x :: l2]> bks) j k' o' <-> (j = i /\ k' = k /\ o' = o) \/ has bks j k' o'.
Proof.
  intros Hi Hk j k' o'. rewrite (has_insert _ _ _ _ _ _ _ Hi), lhas_mid. simpl. rewrite lookup_insert_Some. split.
  - intros [[-> [[[<- <-]|[_ H]]|H]]|[_ H]]; [by left|right..]; try done; exists (l1 ++ g :: l2); (split; [done|]); apply lhas_mid; auto.
  - intros [(-> & -> & ->)|H]; [by left; auto|]. destruct (decide (j = i)) as [->|Hne]; [left; split; [done|]|by right].
    destruct H as (l & Hl & H). rewrite Hi in Hl. injection Hl as <-. apply lhas_mid in H as [H|H]; [|by right].
    left. right. split; [|done]. intros <-. rewrite Hk in H; [done|]. apply elem_of_mid. by left.
Qed.

Lemma has_new bks i l k o off x : bks !! i = Some l ->
  forall j k' o', has (<[i := l ++ [mkPg off {[k := o]} x]]> bks) j k' o' <-> (j = i /\ k' = k /\ o' = o) \/ has bks j k' o'.
Proof.
  intros Hi j k' o'. rewrite (has_insert _ _ _ _ _ _ _ Hi), lhas_mid, app_nil_r. simpl. rewrite lookup_singleton_Some. split.
  - intros [[-> [[<- <-]|H]]|[_ H]]; [by left|right..]; [by exists l|done].
  - intros [(-> & -> & ->)|H]; [by left; auto|]. destruct (decide (j = i)) as [->|Hne]; [left; split; [done|]|by right].
    destruct H as (l0 & Hl & H). rewrite Hi in Hl. injection Hl as <-. by right.
Qed.

(** The second search of [set]: the key goes to the first page with room, or to
    a new page. *)
Lemma insert_key fuel d kd vd bks n i l f k (ustk : list unwind_block) : db_ok d kd vd bks n -> bks !! i = Some l -> Forall cached l -> last_seen f l ->
  (l = [] -> f_lkp f = None /\ f_lkpoff f = -1) -> (forall y, y ∈ l -> g_map y !! k = None) -> key_is (f_ki f) k ->
  ki_hash (f_ki f) = Z.of_nat i -> fits 8 (ki_voff (f_ki f)) -> 0 < n -> (length l + 3 <= fuel)%nat -> full bks ->
  exists d' kd' bks', (let* (retval, f, d) := Rdb.processKeyPages sys fuel d f SET in
     if retval =? E_not_found then let* (retval, f, d) := Rdb.addNewPage sys fuel d f in Val (retval, ustk, d) else Val (retval, ustk, d)) =
     Val (E_ok, ustk, d') /\ db_ok d' kd' vd bks' (n - 1) /\ zlen bks' = zlen bks /\ full bks' /\
     forall j k' o', has bks' j k' o' <-> (j = i /\ k' = k /\ o' = ki_voff (f_ki f)) \/ has bks j k' o'.
Proof.
  intros Hok Hi Hc Hls Hnil Habs Hk Hh Hv Hn Hfu Hfull. pose proof (lookup_lt_Some _ _ _ Hi) as Hlt.
  destruct (first_not (fun g => NUM_OF_KEYS_IN_PAGE (d_kpSize d) <= Z.of_nat (size (g_map g))) l) as [Hp|(l1 & g & l2 & -> & Hp & Hroom)].
  - destruct (process_all sys D fuel d _ _ _ _ i l f k SET Hok Hi Hk Hh Hp ltac:(lia)) as (f' & d1 & l' & E1 & Hok1 & Hs1 & [Hki _] & Hsh & Hc' & Hnil' & Hls').
    assert (forall y, y ∈ l' -> g_map y !! k = None) as Habs'.
    { apply missing_key. intros o (y & Hy & Hyo)%(lhas_shape l). { by rewrite Habs in Hyo. } done. }
    destruct (addNewPage_spec sys D fuel d1 kd vd _ n i l' f' k Hok1) as (f2 & d2 & kd' & o & p & a & E2 & _ & Hok2);
      [by rewrite list_lookup_insert_eq|done|done| |by rewrite Hki|by rewrite Hki|by rewrite Hki|done|done|].
    { intros El. rewrite (Hnil' El). apply Hnil. subst l'. by destruct l. }
    rewrite E1. cbn [obind]. rewrite Z.eqb_refl, E2. cbn [obind]. rewrite list_insert_insert_eq, Hki in Hok2.
    eexists d2, kd', _. split; [done|]. split; [exact Hok2|]. split; [unfold zlen; by rewrite length_insert|]. split.
    { pose proof (full_shape _ _ _ _ Hfull Hi Hsh) as Hf1. apply full_insert; [done|]. intros y [Hy| ->%list_elem_of_singleton]%elem_of_app; [|apply insert_non_empty].
      eapply Hf1; [by apply list_lookup_insert_eq|done]. }
    intros j k' o'. pose proof (has_new (<[i := l']> bks) i l' k (ki_voff (f_ki f)) o (Some (p, a)) ltac:(by rewrite list_lookup_insert_eq) j k' o') as Hnew.
    rewrite list_insert_insert_eq in Hnew. rewrite Hnew. apply or_iff_compat_l. by apply (has_shape _ _ l).
  - rewrite length_app in Hfu. cbn [length] in Hfu.
    destruct (process_to sys D fuel d kd vd bks n i l1 g l2 f k SET Hok Hi Hk Hh Hp ltac:(lia)) as (f1 & d1 & l1' & p & a & Hok1 & Hs1 & [Hki _] & Hsh & _ & Hgo).
    set (g' := mkPg (g_off g) (g_map g) (Some (p, a))) in *.
    assert (forall y, y ∈ l1' ++ g' :: l2 -> g_map y !! k = None) as Habs'.
    { apply missing_key. intros o Ho. apply (lhas_shape (l1 ++ g :: l2)) in Ho as (y & Hy & Hyo); [by rewrite Habs in Hyo|]. rewrite !fmap_app. simpl. by rewrite Hsh. }
    destruct (visit_set sys D d1 kd vd _ n i l1' g' l2 p a f1 k Hok1) as (f2 & d2 & kp & Ev & _ & Hok2);
      [by rewrite list_lookup_insert_eq|done|by rewrite Hki|rewrite Hs1; simpl in Hroom; simpl; lia|by rewrite Hki|intros y Hy; apply Habs', elem_of_mid; by right|].
    rewrite (Hgo _ _ _ Ev). cbn [obind Z.eqb E_ok E_not_found]. rewrite list_insert_insert_eq, Hki in Hok2.
    eexists d2, _, _. split; [done|]. split; [eapply db_weaken; [exact Hok2|]; destruct Hok2; lia|]. split; [unfold zlen; by rewrite length_insert|]. split.
    { assert (full (<[i := l1' ++ g' :: l2]> bks)) as Hf1 by (eapply full_shape; [done|exact Hi|]; rewrite !fmap_app; simpl; by rewrite Hsh).
      apply full_insert; [done|]. intros y [->|Hy]%elem_of_mid; [apply insert_non_empty|]. eapply Hf1; [by apply list_lookup_insert_eq|apply elem_of_mid; by right]. }
    intros j k' o'. pose proof (has_put (<[i := l1' ++ g' :: l2]> bks) i l1' g' l2 k (ki_voff (f_ki f)) (Some (p, a)) ltac:(by rewrite list_lookup_insert_eq) Habs' j k' o') as Hput.
    rewrite list_insert_insert_eq in Hput. rewrite Hput. apply or_iff_compat_l.
    apply (has_shape _ _ (l1 ++ g :: l2)); [done|]. rewrite !fmap_app. simpl. by rewrite Hsh.
Qed.

(** The arguments of [set]. *)
Lemma value_args v rv : value_ok v -> Rdb.null_or_empty (Some (v ++ rv)) = Val false /\ 0 < zlen v.
Proof.
  intros [Hl Hh]. unfold Rdb.null_or_empty. destruct v as [|c v]; [unfold zlen in Hl; simpl in Hl; lia|]. simpl in Hh. cbn [app head deref obind].
  split; [by rewrite (proj2 (Z.eqb_neq c 0)) by congruence|]. lia.
Qed.

(** [set] inserts the key with its value, in place of the old one if there is one. *)
Lemma set_spec d sz m n k rk v rv : represents d sz m (n + 1) -> 0 <= n -> key_ok k -> value_ok v ->
  forall fuel, (size m + 3 <= fuel)%nat ->
  exists d', represents d' sz (<[k := v]> m) n /\
    Rdb.set sys fuel d (Some (k ++ rk)) (zlen k) (Some (v ++ rv)) (zlen v) None = Val (E_ok, d').
Proof.
  intros (kd & vd & bks & Hok0 & Hc & Hfull & Esz) Hn0 Hk Hv fuel Hfu. destruct (hash_ok _ _ _ _ _ k rk Hok0) as [_ [l Hi]]. set (i := bucket (zlen bks) k) in *.
  pose proof (bucket_length _ _ _ _ _ _ _ _ Hok0 Hc Hfull Hi) as Hlm. unfold Rdb.set. rewrite (args_ok k rk Hk). cbn [obind]. destruct (value_args v rv Hv) as [-> Hvl]. cbn [obind].
  rewrite (proj2 (Z.leb_gt (zlen v) 0)) by lia.
  set (d1 := Rdb.with_ops d (d_opCount d + 1)). pose proof (ops_ok d (d_opCount d + 1) _ _ _ _ Hok0) as Hok. fold d1 in Hok.
  destruct (hash_ok _ _ _ _ _ k rk Hok) as [-> _]. fold i. cbn [obind].
  destruct (set_key_info k rk (Z.of_nat i) Hk) as (ki & -> & Hki & Hhash & _). cbn [obind].
  destruct (init_value_page k rk v rv Hk Hv) as (vp & -> & Hvp). cbn [obind]. destruct (m !! k) as [v0|] eqn:Hm.
  - destruct (ct_out _ _ _ Hc _ _ Hm) as [o Ho]. fold i in Ho. pose proof Ho as (l0 & Hl0 & Hlk). rewrite Hi in Hl0. injection Hl0 as <-.
    destruct (content_value _ _ _ _ _ _ _ _ _ Hok Hc Ho) as (vp0 & v' & Hvo & _ & _ & Ho0 & _).
    destruct (find_hit fuel d1 _ _ _ _ i l k o ki Hok Hi Hlk ltac:(lia) Hki Hhash ltac:(lia))
      as (d2 & l1 & g & l2 & p & a & f & kp & Ep & Ea & Eo & _ & _ & Hok2 & Hsh & _).
    rewrite Ep. cbn [obind]. rewrite Z.eqb_refl, Ea. cbn [obind]. rewrite Eo.
    pose proof Hok2 as [[Hs Hs'] Hht Hf HM HN]. destruct (files_write_value sys D _ Hs _ _ _ _ _ _ _ _ vp Hf Hvo (vi_fits _ _ _ Hvp)) as (os' & -> & Hf'). cbn [obind].
    rewrite unwind_ok. cbn [obind]. eexists. split; [|done]. eexists kd, _, _. split.
    + apply (db_weaken _ _ _ _ (2 * (n + 1))); [|lia]. apply ops_ok. by split.
    + split; [|split; [by eapply full_shape|unfold zlen in *; by rewrite length_insert]]. eapply content_shape; [exact Hi|exact Hsh|]. eapply content_write; [exact Hc|exact Ho| |exact Hvp]. intros o' Ho'. exact (has_fun _ _ _ _ _ _ _ _ _ Hok Ho Ho').
  - destruct (process_all sys D fuel d1 _ _ _ _ i l (Rdb.find_init ki) k GET Hok Hi Hki Hhash) as (f & d2 & l' & Ep & Hok2 & _ & [Hkf _] & Hsh & Hcl & Hnil & Hls).
    { apply Forall_forall. by eapply content_missing. } { lia. }
    rewrite Ep. cbn [obind Z.eqb E_not_found E_ok Pos.eqb].
    pose proof Hok2 as [[Hs Hs'] Hht Hf HM HN]. destruct (files_new_value sys D _ Hs _ _ _ _ _ _ vp Hf (vi_fits _ _ _ Hvp) ltac:(lia)) as (o & vf' & os' & -> & Ho0 & Hfresh & _ & Hf').
    cbn [obind]. rewrite Z.eqb_refl. cbn [negb default]. change (id o) with o.
    assert (db_ok (Rdb.with_vf d2 vf' os') kd (<[o := vp]> vd) (<[i := l']> bks) (2 * (n + 1) - 1)) as Hok3.
    { assert (db_ok d2 kd vd (<[i := l']> bks) (2 * (n + 1) - 1)) as [] by (eapply db_weaken; [exact Hok2|lia]). by split. }
    set (f3 := Rdb.f_with_ki f (ki_with_voff (f_ki f) o)).
    destruct (insert_key fuel _ _ _ _ _ i l' f3 k
      (UnwindStack.writeFlags (UnwindStack.freePage [] Value o) Value (ValuePage vp) o VPAGE_DELETED) Hok3) as (d4 & kd' & bks' & E4 & Hok4 & Hz & Hfull' & Hhas).
    { rewrite list_lookup_insert_eq by (by eapply lookup_lt_Some). done. } { done. } { done. } { intros El. unfold f3. simpl. by rewrite (Hnil El). }
    { eapply content_missing; [eapply content_shape; [exact Hi|exact Hsh|exact Hc]|exact Hm|]. by rewrite list_lookup_insert_eq by (by eapply lookup_lt_Some). }
    { unfold f3. simpl. rewrite Hkf. done. } { unfold f3. simpl. by rewrite Hkf. }
    { unfold f3. simpl. pose proof Hok3 as [_ _ Hf3 _ Hn3]. eapply files_value_off; [exact Hf3|done|by rewrite lookup_insert_eq]. } { lia. }
    { rewrite <- (length_fmap shape l'), Hsh, length_fmap. lia. } { by eapply full_shape. }
    fold f3. rewrite E4. cbn [obind]. rewrite unwind_ok. cbn [obind]. eexists. split; [|done].
    exists kd', (<[o := vp]> vd), bks'. split; [eapply db_weaken; [by apply ops_ok|lia]|]. split; [|split; [done|rewrite Hz; unfold zlen in *; by rewrite length_insert]].
    eapply (content_add (<[i := l']> bks)); [by eapply content_shape| |exact Hz|exact Hhas|exact Hm|exact Hfresh|exact Hvp].
    unfold i, zlen. by rewrite length_insert.
Qed.

(** A key less in a page, and a page less in its bucket. *)
Lemma has_cut bks i l1 g l2 k o x : bks !! i = Some (l1 ++ g :: l2) -> g_map g !! k = Some o -> (forall y, y ∈ l1 ++ l2 -> g_map y !! k = None) ->
  (forall j o', has bks j k o' -> j = i) ->
  forall j k' o', has (<[i := l1 ++ mkPg (g_off g) (delete k (g_map g)) x :: l2]> bks) j k' o' <-> k' <> k /\ has bks j k' o'.
Proof.
  intros Hi Hg Hk Hall j k' o'. rewrite (has_insert _ _ _ _ _ _ _ Hi), lhas_mid. simpl. rewrite lookup_delete_Some. split.
  - intros [[-> [[Hne H]|H]]|[Hne H]].
    + split; [done|]. exists (l1 ++ g :: l2). split; [done|]. apply lhas_mid. by left.
    + split; [|exists (l1 ++ g :: l2); split; [done|]; apply lhas_mid; by right]. intros ->. destruct H as (y & Hy & E). by rewrite Hk in E.
    + split; [|done]. intros ->. by apply Hne, (Hall j o').
  - intros [Hne H]. destruct (decide (j = i)) as [->|]; [left; split; [done|]|by right]. destruct H as (l & Hl & H). rewrite Hi in Hl. injection Hl as <-.
    apply lhas_mid in H as [H|H]; [left|by right]. split; [congruence|done].
Qed.

Lemma has_unlink bks i l1 g l2 : bks !! i = Some (l1 ++ g :: l2) -> g_map g = ∅ ->
  forall j k o, has (<[i := l1 ++ l2]> bks) j k o <-> has bks j k o.
Proof.
  intros Hi Hg j k o. rewrite (has_insert _ _ _ _ _ _ _ Hi). split.
  - intros [[-> H]|[_ H]]; [|done]. exists (l1 ++ g :: l2). split; [done|]. apply lhas_mid. by right.
  - intros H. destruct (decide (j = i)) as [->|]; [left; split; [done|]|by right]. destruct H as (l & Hl & H). rewrite Hi in Hl. injection Hl as <-.
    apply lhas_mid in H as [H|H]; [by rewrite Hg in H|done].
Qed.

(** The second search of [remove], for the key of the page [g] that the first
    search has found, and what follows it. *)
Lemma del_key_eq fuel d f f1 ki hindex ustk p idx d2 :
  Rdb.processKeyPages sys fuel d (Rdb.find_init ki) DEL = Val (E_ok, Rdb.f_found f1 ki p idx, d2) -> f_kpn f = Some p ->
  Rdb.del_key sys fuel d f ki hindex ustk =
    (let* _ := ASSERT (f_kidx f =? idx) in
     let* k := Heap.get_kpn (d_heap d2) p in
     let* a := deref (kpn_kp k) in
     let* kp := Rdb.load d2 a in
     if kp_vcount kp <=? 0 then Rdb.remove_page sys fuel d2 hindex p ustk else Val (E_ok, ustk, d2)).
Proof.
  intros E Hf. unfold Rdb.del_key. rewrite E. cbn [obind]. rewrite Z.eqb_refl. cbn [ASSERT obind Rdb.f_found f_kpn f_kidx].
  by rewrite Hf, bool_decide_true.
Qed.

(** The page [g] keeps other keys. *)
Lemma del_kept fuel d f f1 ki hindex ustk p idx d2 kd vd bks n i l1 g l2 a kp M : 
  Rdb.processKeyPages sys fuel d (Rdb.find_init ki) DEL = Val (E_ok, Rdb.f_found f1 ki p idx, d2) -> f_kpn f = Some p -> f_kidx f = idx ->
  db_ok d2 kd vd bks n -> bks !! i = Some (l1 ++ g :: l2) -> g_node g = Some (p, a) -> Rdb.load d2 a = Val kp ->
  holds kp M -> M <> ∅ -> Rdb.del_key sys fuel d f ki hindex ustk = Val (E_ok, ustk, d2).
Proof.
  intros E Hf <- Hok Hi Hn Hld HM Hne. rewrite (del_key_eq _ _ _ _ _ _ _ _ _ _ E Hf), Z.eqb_refl. cbn [ASSERT obind].
  destruct (db_node _ _ _ _ _ _ _ _ _ _ _ _ _ Hok Hi Hn) as (kn & -> & Hka & _). cbn [obind]. rewrite Hka. cbn [deref obind]. rewrite Hld. cbn [obind].
  rewrite (holds_vcount _ _ HM), (proj2 (Z.leb_gt _ 0)); [done|]. apply map_size_non_empty_iff in Hne. lia.
Qed.

(** The page [g] has lost its last key. *)
Lemma del_emptied fuel d f f1 ki ustk p idx d2 kd vd bks n i l1 g l2 a kp :
  Rdb.processKeyPages sys fuel d (Rdb.find_init ki) DEL = Val (E_ok, Rdb.f_found f1 ki p idx, d2) -> f_kpn f = Some p -> f_kidx f = idx ->
  db_emptied sys D d2 kd vd bks n i l1 g l2 p a kp -> g_map g = ∅ -> (2 <= fuel)%nat -> (forall y, y ∈ l1 ++ l2 -> g_map y <> ∅) ->
  exists stk d' kd' bks', Rdb.del_key sys fuel d f ki (Z.of_nat i) ustk = Val (E_ok, stk, d') /\ db_ok d' kd' vd bks' n /\ zlen bks' = zlen bks /\
    (forall j l x, bks' !! j = Some l -> x ∈ l -> g_map x = ∅ -> j <> i /\ bks !! j = Some l) /\ forall j k' o', has bks' j k' o' <-> has bks j k' o'.
Proof.
  intros E Hf <- Hd Hg Hfu Hne. rewrite (del_key_eq _ _ _ _ _ _ _ _ _ _ E Hf), Z.eqb_refl. cbn [ASSERT obind].
  destruct (emptied_node _ _ _ _ _ _ _ _ _ _ _ _ _ _ Hd) as (kn & -> & Hka & _). cbn [obind]. rewrite Hka. cbn [deref obind].
  rewrite (de_load _ _ _ _ _ _ _ _ _ _ _ _ _ _ Hd). cbn [obind]. pose proof (de_page _ _ _ _ _ _ _ _ _ _ _ _ _ _ Hd) as Hp.
  pose proof (page_vcount _ _ _ _ _ _ Hp) as Hvc. rewrite Hg, map_size_empty in Hvc. rewrite Hvc. cbn [Z.leb Z.compare Z.of_nat].
  destruct (remove_page_spec sys D fuel d2 kd vd bks n i l1 g l2 p a kp ustk Hd Hfu) as (stk & d' & kd' & l2' & -> & _ & Hok & Hsh).
  pose proof (de_bucket _ _ _ _ _ _ _ _ _ _ _ _ _ _ Hd) as Hi. pose proof (lookup_lt_Some _ _ _ Hi) as Hlt.
  exists stk, d', kd', (<[i := l1 ++ l2']> bks). split; [done|]. split; [done|]. split; [unfold zlen; by rewrite length_insert|]. split.
  { intros j l x [(-> & <- & _)|[Hij Hj]]%list_lookup_insert_Some Hx Hx0; [|by split]. exfalso.
    assert (shape x ∈ shape <$> l1 ++ l2) as Hs by (rewrite fmap_app, <- Hsh, <- fmap_app; by apply list_elem_of_fmap_2).
    apply list_elem_of_fmap in Hs as (x' & Es & Hx'). apply (Hne x' Hx'). unfold shape in Es. injection Es as _ <-. done. }
  intros j k' o'. rewrite <- (has_unlink bks i l1 g l2 Hi Hg). rewrite <- (list_insert_insert_eq bks i (l1 ++ l2') (l1 ++ l2)).
  apply (has_shape _ _ (l1 ++ l2)); [by rewrite list_lookup_insert_eq|by rewrite !fmap_app, Hsh].
Qed.

Lemma del_key_spec fuel d kd vd bks n i l1 g l2 p a f ki k kp ustk o : db_ok d kd vd bks n -> bks !! i = Some (l1 ++ g :: l2) ->
  g_node g = Some (p, a) -> g_map g !! k = Some o -> key_is ki k -> ki_hash ki = Z.of_nat i -> (length l1 + 3 <= fuel)%nat ->
  f_kpn f = Some p -> Rdb.load d a = Val kp -> KeyRecords.get kp ki = Val (f_kidx f) -> (forall j o', has bks j k o' -> j = i) -> full bks ->
  (size (g_map g) <> 1%nat /\ Rdb.del_key sys fuel d f ki (Z.of_nat i) ustk = Abort) \/
  exists stk d' kd' bks', Rdb.del_key sys fuel d f ki (Z.of_nat i) ustk = Val (E_ok, stk, d') /\ db_ok d' kd' vd bks' n /\ zlen bks' = zlen bks /\ full bks' /\
    forall j k' o', has bks' j k' o' <-> k' <> k /\ has bks j k' o'.
Proof.
  intros Hok Hi Hn Hg Hk Hh Hfu Hfp Hld Hget Hall Hfull. pose proof (lookup_lt_Some _ _ _ Hi) as Hlt.
  assert (forall y, y ∈ l1 ++ l2 -> g_map y !! k = None) as Hoth by (intros y Hy; by eapply (db_others _ _ _ _ _ _ l1 g l2)).
  destruct (process_to sys D fuel d kd vd bks n i l1 g l2 (Rdb.find_init ki) k DEL Hok Hi Hk Hh) as (f1 & d1 & l1' & p0 & a0 & Hok1 & Hs1 & [Hki _] & Hsh & Hsame & Hgo).
  { apply Forall_forall. intros y Hy. apply Hoth. set_solver. } { done. }
  destruct (Hsame _ _ Hn) as (<- & <- & Hld1). rewrite <- Hn in Hok1. replace (mkPg (g_off g) (g_map g) (g_node g)) with g in Hok1 by (by destruct g).
  change (f_ki (Rdb.find_init ki)) with ki in Hki.
  assert (<[i := l1' ++ g :: l2]> bks !! i = Some (l1' ++ g :: l2)) as Hi1 by (by apply list_lookup_insert_eq).
  destruct (visit_del sys D d1 kd vd _ n i l1' g l2 p a f1 k Hok1 Hi1 Hn ltac:(by rewrite Hki) ltac:(eauto)) as (kp1 & idx & kp' & Hl1 & Erm & Hp' & Hm' & Hempty & Hmore).
  rewrite Hki in *. assert (kp1 = kp) as -> by congruence.
  assert (forall y, y ∈ l1' ++ l2 -> g_map y !! k = None) as Hoth1 by (intros y Hy; by eapply (db_others _ _ _ _ _ _ l1' g l2 k o y Hok1)).
  assert (forall j o', has (<[i := l1' ++ g :: l2]> bks) j k o' -> j = i) as Hall1.
  { intros j o' H. apply (Hall j o'). eapply has_shape; [exact Hi| |exact H]. rewrite !fmap_app. simpl. by rewrite Hsh. }
  assert (forall j k' o', has (<[i := l1' ++ g :: l2]> bks) j k' o' <-> has bks j k' o') as Hsm.
  { intros j k' o'. apply (has_shape _ _ (l1 ++ g :: l2)); [done|]. rewrite !fmap_app. simpl. by rewrite Hsh. }
  destruct (decide (f_kidx f = idx)) as [Eidx|Nidx]; [right|left].
  - set (g' := mkPg (g_off g) (delete k (g_map g)) (Some (p, a))) in *.
    assert (forall j k' o', has (<[i := l1' ++ g' :: l2]> (<[i := l1' ++ g :: l2]> bks)) j k' o' <-> k' <> k /\ has bks j k' o') as Hcut.
    { intros j k' o'. rewrite <- Hsm. by apply (has_cut _ i l1' g l2 k o). }
    assert (full (<[i := l1' ++ g :: l2]> bks)) as Hf1 by (eapply full_shape; [done|exact Hi|]; rewrite !fmap_app; simpl; by rewrite Hsh).
    assert (forall y, y ∈ l1' ++ l2 -> g_map y <> ∅) as Hne by (intros y Hy; eapply Hf1; [by apply list_lookup_insert_eq|apply elem_of_mid; by right]).
    destruct (decide (delete k (g_map g) = ∅)) as [E|E].
    + destruct (del_emptied fuel d f f1 ki ustk p idx (Rdb.store d1 a kp') kd vd (<[i := l1' ++ g' :: l2]> (<[i := l1' ++ g :: l2]> bks)) n i l1' g' l2 a kp')
        as (stk & d' & kd' & bks' & E1 & Hok' & Hz & Hf2 & Hhas); [by apply Hgo, Hempty|done|done| |done|lia|exact Hne|].
      { destruct Hok1 as [Hs Hht Hf HM HN]. split; try done.
        - unfold zlen in *. rewrite length_insert. exact Hht.
        - destruct (db_load _ _ _ _ _ _ _ _ _ _ _ _ _ Hok Hi Hn) as (_ & kp0 & _ & ? & _). simpl. eauto.
        - rewrite list_lookup_insert_eq; [done|]. by rewrite length_insert.
        - unfold Rdb.load. simpl. by rewrite load_store, decide_True. }
      exists stk, d', kd', bks'. split; [done|]. split; [done|]. split; [rewrite Hz; unfold zlen; by rewrite !length_insert|]. split.
      { intros j l x Hj Hx Hx0. destruct (Hf2 j l x Hj Hx Hx0) as [Hij Hj']. rewrite list_lookup_insert_ne in Hj' by done. by apply (Hf1 j l x). }
      intros j k' o'. by rewrite Hhas, Hcut.
    + destruct (Hmore E) as (d2 & Ev & _ & Ec & _ & Hok2).
      exists ustk, d2, (<[g_off g := kp']> kd), (<[i := l1' ++ g' :: l2]> (<[i := l1' ++ g :: l2]> bks)).
      split; [|split; [exact Hok2|split; [unfold zlen; by rewrite !length_insert|split; [|exact Hcut]]]].
      2: { apply full_insert; [done|]. intros y [->|Hy]%elem_of_mid; [done|by apply Hne]. }
      eapply (del_kept _ _ _ _ _ _ _ _ _ _ _ _ _ _ i l1' g' l2 a kp'); [by apply Hgo, Ev|done|done|exact Hok2| |done| |apply (pi_holds _ _ _ _ _ _ Hp')|done].
      { rewrite list_lookup_insert_eq; [done|]. by rewrite length_insert. }
      unfold Rdb.load. rewrite Ec. simpl. by rewrite load_store, decide_True.
  - assert (exists d2, Rdb.processKeyPages sys fuel d (Rdb.find_init ki) DEL = Val (E_ok, Rdb.f_found f1 ki p idx, d2)) as [d2 E].
    { destruct (decide (delete k (g_map g) = ∅)) as [E|E]; [eexists; by apply Hgo, Hempty|]. destruct (Hmore E) as (d2 & Ev & _). exists d2. by apply Hgo. }
    split; [|by rewrite (del_key_eq _ _ _ _ _ _ _ _ _ _ E Hfp), (proj2 (Z.eqb_neq _ _) Nidx)].
    intros Hsz. apply Nidx. destruct (db_load _ _ _ _ _ _ _ _ _ _ _ _ _ Hok Hi Hn) as (kp2 & _ & Hl2 & _ & Hp2 & _). rewrite Hld in Hl2. injection Hl2 as <-.
    by eapply single_slot.
Qed.

(** [remove] deletes the key; of a key that is not there it reports that. It can
    end in a failed assertion, but only when another key has the same bucket. *)
Lemma remove_spec d sz m n k rk : represents d sz m n -> key_ok k ->
  forall fuel, (size m + 3 <= fuel)%nat ->
  match m !! k with
  | None => exists d', Rdb.remove sys fuel d (Some (k ++ rk)) (zlen k) = Val (E_not_found, d') /\ represents d' sz m n
  | Some _ =>
      (exists d', Rdb.remove sys fuel d (Some (k ++ rk)) (zlen k) = Val (E_ok, d') /\ represents d' sz (delete k m) n) \/
      (Rdb.remove sys fuel d (Some (k ++ rk)) (zlen k) = Abort /\
       exists k', k' <> k /\ is_Some (m !! k') /\ bucket sz k' = bucket sz k)
  end.
Proof.
  intros (kd & vd & bks & Hok0 & Hc & Hfull & Esz) Hk fuel Hfu. destruct (hash_ok _ _ _ _ _ k rk Hok0) as [_ [l Hi]]. rewrite <- Esz in *.
  set (i := bucket (zlen bks) k) in *.
  pose proof (bucket_length _ _ _ _ _ _ _ _ Hok0 Hc Hfull Hi) as Hlm. unfold Rdb.remove. rewrite (args_ok k rk Hk). cbn [obind].
  set (d1 := Rdb.with_ops d (d_opCount d + 1)). pose proof (ops_ok d (d_opCount d + 1) _ _ _ _ Hok0) as Hok. fold d1 in Hok.
  destruct (hash_ok _ _ _ _ _ k rk Hok) as [-> _]. fold i. cbn [obind].
  destruct (set_key_info k rk (Z.of_nat i) Hk) as (ki & Eki & Hki & Hhash & _). rewrite Eki. cbn [obind]. destruct (m !! k) as [v|] eqn:Hm.
  - destruct (ct_out _ _ _ Hc _ _ Hm) as [o Ho]. fold i in Ho. pose proof Ho as (l0 & Hl0 & Hlk). rewrite Hi in Hl0. injection Hl0 as <-.
    destruct (content_value _ _ _ _ _ _ _ _ _ Hok Hc Ho) as (vp & v' & Hv & Hvp & _ & Ho0 & _).
    destruct (find_hit fuel d1 _ _ _ _ i l k o ki Hok Hi Hlk ltac:(lia) Hki Hhash ltac:(lia))
      as (d2 & l1 & g & l2 & p & a & f & kp & Ep & Ea & Eo & Hfp & _ & Hok2 & Hsh & Hn & Hg & Hld & Hget).
    rewrite Ep. cbn [obind]. rewrite Z.eqb_refl, Ea. cbn [obind]. rewrite Eo.
    pose proof Hok2 as [[Hs Hs'] Hht Hf HM HN]. destruct (files_delete_value sys D _ Hs _ _ _ _ _ _ o vp Hf Hv) as (os' & vp' & -> & Hf').
    rewrite Z.eqb_refl. cbn [negb obind].
    set (bks2 := <[i := l1 ++ g :: l2]> bks) in *. assert (db_ok (Rdb.with_os d2 os') kd (<[o := vp']> vd) bks2 (2 * n)) as Hok3 by (by split).
    assert (forall j k' o', has bks2 j k' o' <-> has bks j k' o') as Hsm by (intros; by apply (has_shape _ _ l)).
    edestruct (del_key_spec fuel (Rdb.with_os d2 os') kd _ bks2 (2 * n) i l1 g l2 p a f ki k kp
      (UnwindStack.writeFlags [] Value NoPage o 0) o Hok3) as [[Hsz ->]|(stk & d4 & kd' & bks' & -> & Hok4 & Hz & Hfull' & Hhas)]; try done.
    { by apply list_lookup_insert_eq, (lookup_lt_Some _ _ _ Hi). }
    { assert (length (l1 ++ g :: l2) = length l) as El by (rewrite <- (length_fmap shape l), <- Hsh; by rewrite length_fmap). rewrite length_app in El. lia. }
    { intros j o' H. apply Hsm in H. by destruct (ct_in _ _ _ Hc _ _ _ H) as [-> _]. }
    { by eapply full_shape. }
    + right. split; [done|].
      assert (delete k (g_map g) <> ∅) as (k' & o' & Hk')%map_choose.
      { intros E. apply Hsz. rewrite <- (insert_delete_id (g_map g) k o Hg), E, insert_empty. apply map_size_singleton. }
      apply lookup_delete_Some in Hk' as [Hne Hk']. exists k'. split; [done|].
      destruct (ct_in _ _ _ Hc i k' o') as (E & _ & v2 & _ & _ & Hm2).
      { apply Hsm. exists (l1 ++ g :: l2). split; [by apply list_lookup_insert_eq, (lookup_lt_Some _ _ _ Hi)|]. apply lhas_mid. by left. }
      split; [eauto|done].
    + left. cbn [obind]. rewrite Z.eqb_refl. pose proof Hok4 as [[Hs4 Hs4'] Hht4 Hf4 HM4 HN4].
      destruct (files_free_value sys D _ Hs4 _ _ _ _ _ _ o vp' Hf4) as (vf' & os4 & -> & _ & Hf5); [by rewrite lookup_insert_eq|].
      cbn [obind]. rewrite unwind_ok. cbn [obind]. eexists. split; [done|]. rewrite delete_insert_eq in Hf5.
      exists kd', (delete o vd), bks'. split; [apply ops_ok; by split|]. split; [|split; [done|rewrite Hz; unfold bks2, zlen in *; by rewrite length_insert]].
      eapply (content_del bks); [exact Hc|rewrite Hz; unfold bks2, zlen; by rewrite length_insert| |exact Ho].
      intros j k' o'. by rewrite Hhas, Hsm.
  - destruct (process_all sys D fuel d1 _ _ _ _ i l (Rdb.find_init ki) k GET Hok Hi Hki Hhash) as (f & d2 & l' & Ep & Hok2 & _ & _ & Hsh & _).
    { apply Forall_forall. by eapply content_missing. } { lia. }
    rewrite Ep. cbn [obind Z.eqb E_not_found E_ok Pos.eqb].
    assert (Rdb.unwind sys d2 [] E_not_found = Val d2) as ->.
    { unfold Rdb.unwind. simpl. by destruct d2 as [? ? ? ? ? [] ? ? ?]. }
    cbn [obind]. eexists. split; [done|]. eexists kd, vd, _. split; [by apply ops_ok|]. split; [by eapply content_shape|]. split; [by eapply full_shape|]. unfold zlen in *. by rewrite length_insert.
Qed.
End refine.
