(* ===== verification/RdbSpec.v ===== *)
(** * The specification of the database

    What [Rdb] promises its callers, for single operations and for sequences of
    them, and a database that [RdbOpen.open] has just made on a disk in memory,
    for which the assumptions hold. *)
From S2P Require Import Prelude Bytes DbStruct KeyRec AvlTree KeyPage File FdpMgr DbFiles Disk PageMgr Cache.
From S2P Require Import HashTable CacheFacts HashFacts Store PageStore RdbFiles RdbInv RdbMem Unwind Rdb RdbOpen RdbSearch RdbRefine.

(** ** Sequences of operations *)
Inductive cmd := CGet (k : bytes) (len : Z) | CSet (k v : bytes) | CRemove (k : bytes).

Definition cmd_ok (c : cmd) : Prop :=
  match c with
  | CGet k len => key_ok k /\ 0 < len
  | CSet k v => key_ok k /\ value_ok v
  | CRemove k => key_ok k
  end.

(** The map does what the database should do: the code, the value and the map. *)
Definition spec1 (m : gmap bytes bytes) (c : cmd) : (Z * option bytes) * gmap bytes bytes :=
  match c with
  | CGet k len =>
      match m !! k with
      | None => ((E_not_found, None), m)
      | Some v => if len <? zlen v then ((E_insufficient_buffer, None), m) else ((E_ok, Some v), m)
      end
  | CSet k v => ((E_ok, None), <[k := v]> m)
  | CRemove k => match m !! k with None => ((E_not_found, None), m) | Some _ => ((E_ok, None), delete k m) end
  end.

Fixpoint spec (m : gmap bytes bytes) (cs : list cmd) : list (Z * option bytes) * gmap bytes bytes :=
  match cs with
  | [] => ([], m)
  | c :: cs => let '(r, m) := spec1 m c in let '(rs, m) := spec m cs in (r :: rs, m)
  end.

(** The insertions among them. *)
Fixpoint sets (cs : list cmd) : Z :=
  match cs with [] => 0 | CSet _ _ :: cs => 1 + sets cs | _ :: cs => sets cs end.

Section run.
Context {OS : Type} (sys : syscalls OS).

(** The same on the database; the caller's buffer is cut to the length that
    [get] reports. *)
Definition exec (fuel : nat) (d : db OS) (c : cmd) : outcome ((Z * option bytes) * db OS) :=
  match c with
  | CGet k len =>
      let* (r, buf, n, d) := Rdb.get sys fuel d (Some k) (zlen k) (Some (replicate (Z.to_nat len) 0)) (Some len) in
      Val ((r, if r =? E_ok then Some (take (Z.to_nat (default 0 n)) (default [] buf)) else None), d)
  | CSet k v => let* (r, d) := Rdb.set sys fuel d (Some k) (zlen k) (Some v) (zlen v) None in Val ((r, None), d)
  | CRemove k => let* (r, d) := Rdb.remove sys fuel d (Some k) (zlen k) in Val ((r, None), d)
  end.

Fixpoint run (fuel : nat) (d : db OS) (cs : list cmd) : outcome (list (Z * option bytes) * db OS) :=
  match cs with
  | [] => Val ([], d)
  | c :: cs => let* (r, d) := exec fuel d c in let* (rs, d) := run fuel d cs in Val (r :: rs, d)
  end.
End run.

(** The keys of a map and of a sequence. *)
Definition cmd_key (c : cmd) : bytes := match c with CGet k _ | CSet k _ | CRemove k => k end.

(** Two keys of [ks] in one entry of a table of [sz] entries. *)
Definition collision (sz : Z) (ks : gset bytes) : Prop := exists k k', k <> k' /\ k ∈ ks /\ k' ∈ ks /\ bucket sz k = bucket sz k'.

Lemma collision_mono sz ks ks' : ks ⊆ ks' -> collision sz ks -> collision sz ks'.
Proof. intros H (k & k' & Hne & Hk & Hk' & E). exists k, k'. split_and!; [done|by apply H|by apply H|done]. Qed.

Section theorems.
Context {OS : Type} (sys : syscalls OS) (D : gset Z) `{Rel : !Reliable sys D}.
Implicit Types (d : db OS) (m : gmap bytes bytes).
Local Abbreviation represents := (represents sys D).

(** C2. [Rdb::get] is the lookup of the map the database stands for: with a
    buffer that is large enough it gives [E_ok], the value in front of what was
    in the buffer, and its length; [E_insufficient_buffer] and the buffer
    untouched otherwise, [E_not_found] for a key that is not in the map.  The map
    stays, whatever the search brings into memory. *)
Theorem get_is_lookup d sz m n k rk buf len fuel (Hd : represents d sz m n) (Hk : key_ok k) (Hlen : 0 < len <= zlen buf)
  (Hfuel : (size m + 3 <= fuel)%nat) :
  exists d', represents d' sz m n /\
    Rdb.get sys fuel d (Some (k ++ rk)) (zlen k) (Some buf) (Some len) =
      Val match m !! k with
          | None => (E_not_found, Some buf, Some len, d')
          | Some v => if len <? zlen v then (E_insufficient_buffer, Some buf, Some len, d')
                      else (E_ok, Some (v ++ drop (length v) buf), Some (zlen v), d')
          end.
Proof. by apply get_spec. Qed.

(** C3. [Rdb::set] is the insertion into the map: it succeeds, also for a key
    that is there, whether its page has room or a new one is linked behind the
    last, as long as one more page fits the files and the cache. *)
Theorem set_is_insert d sz m n k rk v rv fuel (Hd : represents d sz m (n + 1)) (Hn : 0 <= n) (Hk : key_ok k) (Hv : value_ok v)
  (Hfuel : (size m + 3 <= fuel)%nat) :
  exists d', represents d' sz (<[k := v]> m) n /\
    Rdb.set sys fuel d (Some (k ++ rk)) (zlen k) (Some (v ++ rv)) (zlen v) None = Val (E_ok, d').
Proof. by apply set_spec. Qed.

(** C4. [Rdb::remove] is the deletion from the map, with the page unlinked and
    given up when its last key goes; a key that is not there gives [E_not_found].
    The only other end is the failure of an assertion of the code, and then
    another key of the map has the same entry of the hash table. *)
Theorem remove_is_delete d sz m n k rk fuel (Hd : represents d sz m n) (Hk : key_ok k) (Hfuel : (size m + 3 <= fuel)%nat) :
  match m !! k with
  | None => exists d', Rdb.remove sys fuel d (Some (k ++ rk)) (zlen k) = Val (E_not_found, d') /\ represents d' sz m n
  | Some _ =>
      (exists d', Rdb.remove sys fuel d (Some (k ++ rk)) (zlen k) = Val (E_ok, d') /\ represents d' sz (delete k m) n) \/
      (Rdb.remove sys fuel d (Some (k ++ rk)) (zlen k) = Abort /\
       exists k', k' <> k /\ is_Some (m !! k') /\ bucket sz k' = bucket sz k)
  end.
Proof. by apply remove_spec. Qed.

(** ** Sequences *)
Lemma size_spec1 m c : (size (spec1 m c).2 <= size m + 1)%nat.
Proof.
  destruct c; simpl; repeat case_match; simpl; try lia.
  - rewrite map_size_insert. case_match; unfold id; lia.
  - rewrite map_size_delete. case_match; unfold id; lia.
Qed.

Lemma dom_spec1 m c : dom (spec1 m c).2 ⊆ dom m ∪ {[cmd_key c]}.
Proof. destruct c; simpl; repeat case_match; simpl; set_solver. Qed.

Lemma sets_cons c cs : sets (c :: cs) = (match c with CSet _ _ => 1 | _ => 0 end) + sets cs.
Proof. by destruct c. Qed.

Lemma sets_nonneg cs : 0 <= sets cs.
Proof. induction cs as [|[] cs IH]; simpl; lia. Qed.

(** One operation. *)
Lemma exec_spec d sz m n c fuel : represents d sz m (n + sets [c]) -> 0 <= n -> cmd_ok c -> (size m + 3 <= fuel)%nat ->
  (exists d', exec sys fuel d c = Val ((spec1 m c).1, d') /\ represents d' sz (spec1 m c).2 n) \/
  (exec sys fuel d c = Abort /\ (exists k, c = CRemove k) /\ collision sz (dom m ∪ {[cmd_key c]})).
Proof.
  intros Hd Hn Hc Hfu. rewrite sets_cons in Hd. destruct c as [k len|k v|k]; simpl in *.
  - left. rewrite Z.add_0_r in Hd. destruct Hc as [Hk Hlen].
    destruct (get_spec sys D d sz m n k [] (replicate (Z.to_nat len) 0) len Hd Hk) with (fuel := fuel) as (d' & Hd' & E);
      [unfold zlen; rewrite length_replicate; lia|done|]. rewrite app_nil_r in E. rewrite E. exists d'.
    destruct (m !! k) as [v|]; [|done]. destruct (Z.ltb_spec len (zlen v)); [done|]. cbn [obind fst snd default]. rewrite Z.eqb_refl.
    unfold zlen, id. rewrite Nat2Z.id, take_app_length. done.
  - left. destruct Hc as [Hk Hv]. destruct (set_spec sys D d sz m n k [] v [] Hd Hn Hk Hv fuel Hfu) as (d' & Hd' & E). rewrite !app_nil_r in E. rewrite E. by exists d'.
  - rewrite Z.add_0_r in Hd. pose proof (remove_spec sys D d sz m n k [] Hd Hc fuel Hfu) as H. rewrite app_nil_r in H. destruct (m !! k) as [v|] eqn:Hm.
    + destruct H as [(d' & -> & Hd')|(-> & k' & Hne & Hk' & Hb)]; [left; by exists d'|right]. split; [done|]. split; [by eexists|]. exists k', k.
      split; [done|]. apply elem_of_dom in Hk'. split; [set_solver|]. split; [set_solver|done].
    + left. destruct H as (d' & -> & Hd'). by exists d'.
Qed.

(** C1. A sequence of operations gives the replies of the map and ends in the
    final map, for any number of pages in memory before it; only a [remove] can
    end it, by the failure of an assertion, and only when two of the keys involved
    have the same entry of the hash table. *)
Theorem run_refines_map cs : forall d sz m n fuel (Hd : represents d sz m (n + sets cs)) (Hn : 0 <= n) (Hcs : Forall cmd_ok cs)
  (Hfuel : (size m + length cs + 3 <= fuel)%nat),
  (exists d', run sys fuel d cs = Val ((spec m cs).1, d') /\ represents d' sz (spec m cs).2 n) \/
  (run sys fuel d cs = Abort /\ (exists k, CRemove k ∈ cs) /\ collision sz (dom m ∪ list_to_set (cmd_key <$> cs))).
Proof.
  induction cs as [|c cs IH]; intros d sz m n fuel Hd Hn Hcs Hfu.
  { left. exists d. simpl in Hd. by rewrite Z.add_0_r in Hd. }
  inversion_clear Hcs as [|? ? Hc Hcs']. pose proof (sets_nonneg cs) as Hp.
  assert (represents d sz m ((n + sets cs) + sets [c])) as Hd1.
  { replace (n + sets cs + sets [c]) with (n + sets (c :: cs)); [done|]. rewrite !sets_cons. simpl. lia. }
  cbn [length] in Hfu. cbn [run spec]. destruct (exec_spec d sz m (n + sets cs) c fuel Hd1 ltac:(lia) Hc ltac:(lia)) as [(d1 & -> & Hd2)|(-> & (k & ->) & Hcol)].
  - pose proof (size_spec1 m c). pose proof (dom_spec1 m c) as Hdom. destruct (spec1 m c) as [r m1]. cbn [fst snd] in *. cbn [obind].
    destruct (IH d1 sz m1 n fuel Hd2 Hn Hcs' ltac:(lia)) as [(d2 & -> & Hd3)|(-> & (k & Hk) & Hcol)].
    + left. exists d2. destruct (spec m1 cs) as [rs m2]. done.
    + right. split; [done|]. split; [exists k; by right|]. eapply collision_mono; [|exact Hcol]. rewrite fmap_cons, list_to_set_cons. set_solver.
  - right. split; [done|]. split; [exists k; by left|]. eapply collision_mono; [|exact Hcol]. rewrite fmap_cons, list_to_set_cons. set_solver.
Qed.
End theorems.

(** ** A database that has just been opened *)
Lemma fresh_represents {OS} (sys : syscalls OS) (D : gset Z) `{Rel : !Reliable sys D} (d : db OS) n :
  page_size (d_kpSize d) -> d_kpSize d <= 8192 -> 0 < d_htSize d < 2 ^ 31 -> d_ht d = HashTable.allocate (d_htSize d) ->
  files_ok sys D (d_kpSize d) (d_kf d) (d_vf d) (d_os d) ∅ ∅ (2 * n) -> lru_ok (d_cache d) (d_heap d) [] ->
  lc_kpSize (d_cache d) = d_kpSize d -> 0 <= n -> 2 * n <= lc_max (d_cache d) -> represents sys D d (d_htSize d) ∅ n.
Proof.
  intros Hs Hs' Hh Hht Hf (_ & Hnum & pgs & Hc) Hk Hn Hmax. set (bks := replicate (Z.to_nat (d_htSize d)) ([] : list pg)).
  assert (zlen bks = d_htSize d) as Hz by (unfold bks, zlen; rewrite length_replicate; lia).
  assert (forall i l, bks !! i = Some l -> l = []) as Hnil by (intros i l H; by apply lookup_replicate in H as [? _]).
  assert (mjoin bks = []) as Hj by (unfold bks; generalize (Z.to_nat (d_htSize d)); intros j; clear; by induction j).
  exists ∅, ∅, bks. split; [|split; [|split; [|exact Hz]]].
  - split; try done; [by rewrite Hz|exists []|lia]. split; [by exists pgs|]. split; [change (zlen []) with 0 in *; lia|]. split; [done|].
    split; [rewrite Hht, Hz; unfold HashTable.allocate, zlen; rewrite length_replicate; lia|]. split; [|rewrite Hj; change (missing []) with 0; change (zlen []) with 0 in Hnum; lia].
    intros i l Hi. rewrite (Hnil _ _ Hi). apply lookup_lt_Some in Hi. unfold zlen in Hz. rewrite Hht.
    assert (entry_list (HashTable.allocate (d_htSize d)) (d_heap d) (Z.of_nat i) []) as Hel by (apply allocate_entry; lia).
    split; [exact Hel| |done|done|constructor|intros g1 g2 k H; by apply elem_of_nil in H].
    exists initHashEntry. split; [|done]. unfold HashTable.allocate, zget. rewrite decide_True by lia. apply lookup_replicate_2. lia.
  - split; [intros i k o (l & Hl & g & Hg & _)|intros k v Hk'; by rewrite lookup_empty in Hk']. rewrite (Hnil _ _ Hl) in Hg. by apply elem_of_nil in Hg.
  - intros i l g Hl Hg. rewrite (Hnil _ _ Hl) in Hg. by apply elem_of_nil in Hg.
Qed.

(** A database in a new directory, with pages of 1 KB and a table of 3 entries. *)
Definition demo_machine : machine := {| m_memory := 32 * 1024; m_malloc := fun _ => true; m_maxpathlen := 4096 |}.
Definition demo_open : outcome (Z * rdb * option (db ram) * ram) :=
  let* r := RdbOpen.init 50 (bytes_of "dir") (bytes_of "name") 1024 3 default_options in
  RdbOpen.open ram_sys 50 demo_machine r (ram_init []).
Definition demo_D : gset Z := {[4; 5; 6]}.
#[export] Instance demo_reliable : Reliable ram_sys demo_D := ram_reliable demo_D ltac:(by apply (bool_decide_unpack _)).

Lemma demo_elem (P : Z -> Prop) : P 4 -> P 5 -> P 6 -> forall e, e ∈ demo_D -> P e.
Proof. intros H4 H5 H6 e He. unfold demo_D in He. rewrite !elem_of_union, !elem_of_singleton in He. by destruct He as [[-> | ->] | ->]. Qed.

(** A file without pages. *)
Lemma stored_none {OS} (sys : syscalls OS) (D : gset Z) `{Rel : !Reliable sys D} {A} (enc : A -> bytes) fits ps f m os :
  fd f ∈ D -> 0 < ps -> pageSize m = ps -> nextFreeOffset m = [0] -> mgr_file sys D m os -> (forall g, fdp_file m = Some g -> fd g <> fd f) ->
  pages_stored sys D enc fits ps f m os ∅ 0.
Proof.
  intros Hf Hps Hm Hn Hmf Ho. split; try done. exists []. rewrite dom_empty_L. split; rewrite ?Hm; try done.
  - constructor.
  - split; [lia|]. apply Z.divide_0_r.
  - intros x Hx. by apply elem_of_nil in Hx.
Qed.

(** The descriptor of a file of this database, from its name. *)
Definition demo_fd (n : bytes) : Z := let c := nth 9 n 0 in if c =? 105 then 4 else if c =? 100 then 5 else 6.

(** What [open] leaves. *)
Definition demo_fact {A} (f : db ram -> A) : option A :=
  match demo_open with Val (c, _, Some d, _) => if c =? E_ok then Some (f d) else None | _ => None end.

Lemma demo_fact_ok {A} (f : db ram -> A) x r d os : demo_open = Val (E_ok, r, Some d, os) -> demo_fact f = Some x -> f d = x.
Proof. unfold demo_fact. intros ->. cbn. by intros [= ->]. Qed.

Lemma demo_some : exists r d os, demo_open = Val (E_ok, r, Some d, os).
Proof.
  assert (demo_fact (fun _ => tt) = Some tt) as H by (vm_compute; reflexivity). unfold demo_fact in H.
  destruct demo_open as [[[[c r] [d|]] os]| | |]; try discriminate H. destruct (Z.eqb_spec c E_ok) as [->|]; [|discriminate H]. eauto.
Qed.

Lemma demo_state r d os : demo_open = Val (E_ok, r, Some d, os) ->
  (d_kpSize d = 1024 /\ d_htSize d = 3 /\ d_ht d = HashTable.allocate 3 /\ d_heap d = heap_init) /\
  (exists pm, PageMgr.new 50 (m_malloc demo_machine) (m_memory demo_machine) 1024 75 = Val pm /\ d_cache d = LRUCache.new pm 1024 /\
     pool_size pm = 24576 /\ PageMgr.getNumberOfPages pm = 24) /\
  (kf_mgr (d_kf d) = Some {| pageSize := 1024; nextFreeOffset := [0]; fdp_file := None; fsize := 0 |} /\ fd (kf_file (d_kf d)) = 4) /\
  (fd (vf_file (d_vf d)) = 5 /\ exists g, fd g = 6 /\
     vf_mgr (d_vf d) = Some {| pageSize := 256; nextFreeOffset := [0]; fdp_file := Some g; fsize := 8 |}) /\
  r_faults (d_os d) = [] /\ (ram_data (d_os d) 6 = [0; 0; 0; 0; 0; 0; 0; 0] /\ ram_pos (d_os d) 6 = 8%nat) /\
  forall e, e ∈ demo_D -> exists n p, r_fds (d_os d) !! e = Some (n, p) /\ is_Some (r_files (d_os d) !! n) /\ demo_fd n = e.
Proof.
  intros E. pose proof (fun A (f : db ram -> A) x => demo_fact_ok f x r d os E) as F. clear E.
  split; [split_and!; apply F; vm_compute; reflexivity|]. split.
  { eexists. split; [vm_compute; reflexivity|]. split; [apply F; vm_compute; reflexivity|by split]. }
  split; [split; [apply (F _ (fun d => kf_mgr (d_kf d))); vm_compute; reflexivity|apply (F _ (fun d => fd (kf_file (d_kf d)))); vm_compute; reflexivity]|].
  split; [split; [apply (F _ (fun d => fd (vf_file (d_vf d)))); vm_compute; reflexivity|]|].
  { eexists. split; [|apply (F _ (fun d => vf_mgr (d_vf d))); vm_compute; reflexivity]. done. }
  split; [apply (F _ (fun d => r_faults (d_os d))); vm_compute; reflexivity|].
  split; [split; [apply (F _ (fun d => ram_data (d_os d) 6))|apply (F _ (fun d => ram_pos (d_os d) 6))]; vm_compute; reflexivity|].
  assert (forall e, match r_fds (d_os d) !! e with Some (n, p) => bool_decide (is_Some (r_files (d_os d) !! n)) && (demo_fd n =? e) | None => false end = true ->
    exists n p, r_fds (d_os d) !! e = Some (n, p) /\ is_Some (r_files (d_os d) !! n) /\ demo_fd n = e) as G.
  { intros e H. destruct (r_fds (d_os d) !! e) as [[n p]|]; [|done]. apply andb_true_iff in H as [H1%bool_decide_eq_true H2%Z.eqb_eq]. eauto. }
  apply demo_elem; apply G;
    apply (F _ (fun d => match r_fds (d_os d) !! _ with Some (n, p) => bool_decide (is_Some (r_files (d_os d) !! n)) && (demo_fd n =? _) | None => false end));
    vm_compute; reflexivity.
Qed.

Lemma demo_opened : exists r d os, demo_open = Val (E_ok, r, Some d, os) /\ represents ram_sys demo_D d 3 ∅ 12.
Proof.
  destruct demo_some as (r & d & os & E). destruct (demo_state _ _ _ E) as ((Ek & Eh & Et & Ehp) & (pm & Epm & Ec & Eps & Enp) & (Emk & Efk) & (Efv & g & Eg & Emv) & Hfault & (Hdata & Hpos) & Hfd).
  exists r, d, os. split; [exact E|]. clear E. rewrite <- Eh. apply (fresh_represents ram_sys demo_D d 12); rewrite ?Ek, ?Eh, ?Et, ?Ehp; [|lia..|done| | | |lia|].
  - split; [done|by exists 16].
  - split.
    + change (ram_ok demo_D (d_os d)). split; [done|]. split.
      * intros e He. destruct (Hfd e He) as (n & p & ? & ? & _). eauto.
      * intros e1 e2 n p q H1 H2 L1 L2. destruct (Hfd e1 H1) as (n1 & p1 & K1 & _ & <-), (Hfd e2 H2) as (n2 & p2 & K2 & _ & <-). congruence.
    + eexists _, 0, _, 0. split; [exact Emk|]. split; [done|]. split; [exact Emv|]. split_and!; try done.
      * apply stored_none; rewrite ?Efk; try done.
      * apply stored_none; rewrite ?Efv; try done.
        -- cbn [fdp_file fsize nextFreeOffset]. unfold mgr_file. cbn [fdp_file fsize nextFreeOffset]. rewrite Eg. change (fs_data (d_os d) 6) with (ram_data (d_os d) 6).
           change (fs_pos (d_os d) 6) with (ram_pos (d_os d) 6). rewrite Hdata, Hpos. split_and!; try done.
        -- intros g' [= <-]. by rewrite Eg.
      * rewrite Efk. unfold uses. cbn [fdp_file]. rewrite Efv, Eg. set_solver.
  - rewrite Ec. apply lru_new_ok; [by eexists _, _, _, _|done|by rewrite Eps].
  - by rewrite Ec.
  - rewrite Ec. cbn [LRUCache.new lc_max]. rewrite Enp. lia.
Qed.

(** *** Instances *)
Definition key_a : bytes := bytes_of "a".
Definition key_b : bytes := bytes_of "b".
Definition val_1 : bytes := bytes_of "one".
Definition val_2 : bytes := bytes_of "second".

Lemma demo_key_ok s : 1 <= zlen (bytes_of s) <= MAX_KEY_LENGTH -> head (bytes_of s) <> Some 0 -> key_ok (bytes_of s).
Proof. intros H1 H2. split; [apply bytes_of_is_key|by split]. Qed.

Lemma key_a_ok : key_ok key_a.
Proof. apply demo_key_ok; vm_compute; [split; discriminate|discriminate]. Qed.
Lemma key_b_ok : key_ok key_b.
Proof. apply demo_key_ok; vm_compute; [split; discriminate|discriminate]. Qed.
Lemma val_1_ok : value_ok val_1.
Proof. split; vm_compute; [split; discriminate|discriminate]. Qed.
Lemma val_2_ok : value_ok val_2.
Proof. split; vm_compute; [split; discriminate|discriminate]. Qed.

Lemma set_is_insert_witness : exists r d os, demo_open = Val (E_ok, r, Some d, os) /\
  exists d', represents ram_sys demo_D d' 3 {[ key_a := val_1 ]} 11 /\
    Rdb.set ram_sys 9 d (Some (key_a ++ [0])) 1 (Some (val_1 ++ [0])) 3 None = Val (E_ok, d').
Proof.
  destruct demo_opened as (r & d & os & E & Hd). exists r, d, os. split; [exact E|].
  destruct (set_is_insert ram_sys demo_D d 3 ∅ 11 key_a [0] val_1 [0] 9 Hd ltac:(lia) key_a_ok val_1_ok ltac:(rewrite map_size_empty; lia)) as (d' & H & E').
  exists d'. split; [exact H|exact E'].
Defined.

(** A database with one key. *)
Lemma demo_one : exists d, represents ram_sys demo_D d 3 {[ key_a := val_1 ]} 11.
Proof.
  destruct demo_opened as (r & d & os & _ & Hd).
  destruct (set_spec ram_sys demo_D d 3 ∅ 11 key_a [] val_1 [] Hd ltac:(lia) key_a_ok val_1_ok 9 ltac:(rewrite map_size_empty; lia)) as (d' & H & _).
  by exists d'.
Qed.

Lemma get_is_lookup_witness : exists d d', represents ram_sys demo_D d' 3 {[ key_a := val_1 ]} 11 /\
  Rdb.get ram_sys 9 d (Some (key_a ++ [0])) 1 (Some (replicate 8 7)) (Some 8) = Val (E_ok, Some (val_1 ++ replicate 5 7), Some 3, d').
Proof.
  destruct demo_one as (d & Hd). exists d.
  destruct (get_is_lookup ram_sys demo_D d 3 {[ key_a := val_1 ]} 11 key_a [0] (replicate 8 7) 8 9 Hd key_a_ok ltac:(vm_compute; split; congruence)
    ltac:(rewrite map_size_singleton; lia)) as (d' & H & E). exists d'. split; [exact H|]. rewrite lookup_singleton_eq in E. exact E.
Defined.

Lemma remove_is_delete_witness : exists d,
  (exists d', Rdb.remove ram_sys 9 d (Some (key_a ++ [0])) 1 = Val (E_ok, d') /\ represents ram_sys demo_D d' 3 ∅ 11).
Proof.
  destruct demo_one as (d & Hd). exists d.
  pose proof (remove_is_delete ram_sys demo_D d 3 {[ key_a := val_1 ]} 11 key_a [0] 9 Hd key_a_ok ltac:(rewrite map_size_singleton; lia)) as H.
  rewrite lookup_singleton_eq in H. destruct H as [(d' & E & H)|(_ & k' & Hne & [v Hv] & _)].
  - rewrite delete_singleton_eq in H. by exists d'.
  - exfalso. apply lookup_singleton_Some in Hv as [Hv _]. by apply Hne.
Defined.

(** Two keys in different entries, with a value replaced, a buffer that is too
    small and a key that is gone. *)
Definition demo_cmds : list cmd :=
  [CSet key_a val_1; CSet key_b val_1; CGet key_a 192; CSet key_a val_2; CGet key_a 2; CGet key_a 192; CRemove key_a; CGet key_a 192; CGet key_b 192].

Lemma demo_no_collision : ~ collision 3 (dom (∅ : gmap bytes bytes) ∪ list_to_set (cmd_key <$> demo_cmds)).
Proof.
  intros (k & k' & Hne & Hk & Hk' & Hb).
  assert (forall x : bytes, x ∈ dom (∅ : gmap bytes bytes) ∪ list_to_set (cmd_key <$> demo_cmds) -> x = key_a \/ x = key_b) as H.
  { intros x. rewrite dom_empty_L, elem_of_union, elem_of_list_to_set. intros [Hx|Hx]; [by apply elem_of_empty in Hx|].
    cbn [demo_cmds fmap list_fmap cmd_key] in Hx. rewrite !elem_of_cons, elem_of_nil in Hx. tauto. }
  destruct (H _ Hk) as [-> | ->], (H _ Hk') as [-> | ->]; try done; vm_compute in Hb; discriminate Hb.
Qed.

Lemma run_refines_map_witness : exists r d os, demo_open = Val (E_ok, r, Some d, os) /\
  exists d', run ram_sys 20 d demo_cmds =
    Val ([(E_ok, None); (E_ok, None); (E_ok, Some val_1); (E_ok, None); (E_insufficient_buffer, None); (E_ok, Some val_2);
          (E_ok, None); (E_not_found, None); (E_ok, Some val_1)], d').
Proof.
  destruct demo_opened as (r & d & os & E & Hd). exists r, d, os. split; [exact E|].
  assert (Forall cmd_ok demo_cmds) as Hok.
  { repeat apply Forall_cons_2; try apply Forall_nil_2; simpl; repeat split; auto using key_a_ok, key_b_ok, val_1_ok, val_2_ok; try lia;
      first [apply key_a_ok|apply key_b_ok|apply val_1_ok|apply val_2_ok]. }
  destruct (run_refines_map ram_sys demo_D demo_cmds d 3 ∅ 9 20 Hd ltac:(lia) Hok ltac:(rewrite map_size_empty; simpl; lia)) as [(d' & Er & _)|(_ & _ & Hc)].
  - exists d'. etransitivity; [exact Er|]. do 2 f_equal.
  - exfalso. by apply demo_no_collision.
Defined.

(** The assertion of [remove] does fail: of three keys in one page, the middle one
    cannot be removed. *)
Lemma remove_can_abort : exists r d os, demo_open = Val (E_ok, r, Some d, os) /\
  run ram_sys 20 d [CSet (bytes_of "d") val_1; CSet (bytes_of "a") val_1; CSet (bytes_of "g") val_1; CRemove (bytes_of "d")] = Abort.
Proof. do 3 eexists. split; [vm_compute; reflexivity|vm_compute; reflexivity]. Qed.
