(* ===== verification/Effects.v ===== *)
(** * Exceptions and state

    The C++ code of libjson and http throws exceptions and works on streams and
    lexers by reference.  A computation over a mutable object of type [S] is a
    function [S -> res E A * S]: the object keeps the value it had when an
    exception left the function. *)
From S2P Require Import Prelude.

(** [Ok a]: the call returns [a].  [Throw e]: it throws [e].  [Ub]: it has
    undefined behaviour.  [Diverge]: it does not return: the model's recursion
    bound was reached, which the termination theorems exclude, or the thread waits
    for a mutex that it holds itself. *)
Inductive res (E A : Type) : Type :=
  | Ok (a : A)
  | Throw (e : E)
  | Ub
  | Diverge.
Arguments Ok {E A} a.
Arguments Throw {E A} e.
Arguments Ub {E A}.
Arguments Diverge {E A}.

Definition rbind {E A B} (m : res E A) (k : A -> res E B) : res E B :=
  match m with
  | Ok a => k a
  | Throw e => Throw e
  | Ub => Ub
  | Diverge => Diverge
  end.

Notation "'let?' x ':=' m 'in' k" := (rbind m (fun x => k))
  (at level 10, x pattern, m at level 100, k at level 200)
  : snf_scope.

Lemma rbind_Ok {E A B} (m : res E A) (k : A -> res E B) b :
  rbind m k = Ok b -> exists a, m = Ok a /\ k a = Ok b.
Proof. destruct m; simpl; try discriminate. eauto. Qed.

(** ** Computations on a mutable object *)
Definition M (E S A : Type) : Type := S -> res E A * S.

Definition ret {E S A} (a : A) : M E S A := fun s => (Ok a, s).
Definition throw {E S A} (e : E) : M E S A := fun s => (Throw e, s).
Definition diverge {E S A} : M E S A := fun s => (Diverge, s).
Definition lift {E S A} (r : res E A) : M E S A := fun s => (r, s).
Definition gets {E S A} (f : S -> A) : M E S A := fun s => (Ok (f s), s).
Definition modify {E S} (f : S -> S) : M E S unit := fun s => (Ok tt, f s).

Definition bind {E S A B} (m : M E S A) (k : A -> M E S B) : M E S B := fun s =>
  match m s with
  | (Ok a, s) => k a s
  | (Throw e, s) => (Throw e, s)
  | (Ub, s) => (Ub, s)
  | (Diverge, s) => (Diverge, s)
  end.

Notation "'let!' x ':=' m 'in' k" := (bind m (fun x => k))
  (at level 10, x pattern, m at level 100, k at level 200)
  : snf_scope.
Notation "m ;; k" := (bind m (fun _ => k)) (at level 100, right associativity) : snf_scope.

(** [try { m } catch (e) { h }] *)
Definition catch {E S A} (m : M E S A) (h : E -> M E S A) : M E S A := fun s =>
  match m s with
  | (Throw e, s) => h e s
  | r => r
  end.

(** A method of a member object. *)
Definition focus {E S T A} (get : S -> T) (set : T -> S -> S) (m : M E T A) : M E S A := fun s =>
  let '(r, t) := m (get s) in (r, set t s).

(** A step whose result is known. *)
Lemma bind_Ok {E S A B} (m : M E S A) (k : A -> M E S B) s a s' : m s = (Ok a, s') -> bind m k s = k a s'.
Proof. unfold bind. by intros ->. Qed.

Lemma bind_ret {E S A B} (a : A) (k : A -> M E S B) s : bind (ret a) k s = k a s.
Proof. done. Qed.

Lemma bind_gets {E S A B} (f : S -> A) (k : A -> M E S B) s : bind (gets f) k s = k (f s) s.
Proof. reflexivity. Qed.

(** ** The result of a computation does not depend on the fuel *)
Definition diverges {E A S} (r : res E A * S) : bool := match r.1 with Diverge => true | _ => false end.

(** [runs m s P]: [m] returns a value and leaves a state related by [P]. *)
Definition runs {E S A} (m : M E S A) (s : S) (P : A -> S -> Prop) : Prop :=
  exists a s', m s = (Ok a, s') /\ P a s'.

Lemma runs_bind {E S A B} (m : M E S A) (k : A -> M E S B) s P Q :
  runs m s P -> (forall a s', P a s' -> runs (k a) s' Q) -> runs (bind m k) s Q.
Proof.
  intros (a & s1 & E1 & HP) Hk. destruct (Hk a s1 HP) as (b & s2 & E2 & HQ).
  exists b, s2. split; [|done]. unfold bind. by rewrite E1.
Qed.

Lemma runs_ret {E S A} (a : A) s (P : A -> S -> Prop) : P a s -> runs (E:=E) (ret a) s P.
Proof. intros. by exists a, s. Qed.

Lemma runs_impl {E S A} (m : M E S A) s (P Q : A -> S -> Prop) :
  runs m s P -> (forall a s', P a s' -> Q a s') -> runs m s Q.
Proof. intros (a & s' & ? & ?) Hi. exists a, s'. eauto. Qed.

Lemma runs_modify {E S} (f : S -> S) s (P : unit -> S -> Prop) : P tt (f s) -> runs (E:=E) (modify f) s P.
Proof. intros. by exists tt, (f s). Qed.

Lemma runs_gets {E S A} (f : S -> A) s (P : A -> S -> Prop) : P (f s) s -> runs (E:=E) (gets f) s P.
Proof. intros. by exists (f s), s. Qed.

(** The step of a proof about a sequence. *)
Lemma runs_step {E S A B} (m : M E S A) (k : A -> M E S B) s Q :
  runs m s (fun a s' => runs (k a) s' Q) -> runs (bind m k) s Q.
Proof. intros H. eapply runs_bind; [exact H|done]. Qed.

Lemma runs_catch {E S A} (m : M E S A) h s P : runs m s P -> runs (catch m h) s P.
Proof. intros (a & s' & E1 & ?). exists a, s'. split; [|done]. unfold catch. by rewrite E1. Qed.

(** [total m s P]: from [s], [m] is not cut off by its fuel, and leaves a state
    related by [P] when it returns. *)
Definition total {E S A} (m : M E S A) (s : S) (P : A -> S -> Prop) : Prop :=
  match m s with
  | (Ok a, s') => P a s'
  | (Diverge, _) => False
  | _ => True
  end.

Lemma total_bind {E S A B} (m : M E S A) (k : A -> M E S B) s Q :
  total m s (fun a s' => total (k a) s' Q) -> total (bind m k) s Q.
Proof. unfold total, bind. by destruct (m s) as [[a| | |] s']. Qed.

Lemma total_impl {E S A} (m : M E S A) s (P Q : A -> S -> Prop) :
  total m s P -> (forall a s', P a s' -> Q a s') -> total m s Q.
Proof. unfold total. destruct (m s) as [[a| | |] s']; auto. Qed.

Lemma total_ret {E S A} (a : A) s (P : A -> S -> Prop) : P a s -> total (E:=E) (ret a) s P.
Proof. done. Qed.

Lemma total_throw {E S A} (e : E) s (P : A -> S -> Prop) : total (throw e) s P.
Proof. done. Qed.

Lemma total_diverges {E S A} (m : M E S A) s P : total m s P -> diverges (m s) = false.
Proof. unfold total, diverges. by destruct (m s) as [[a| | |] s']. Qed.

Create HintDb effects.
#[export] Hint Resolve runs_ret runs_modify runs_gets total_ret total_throw : effects.
