(* ===== verification/Numbers.v ===== *)
(** * Numbers as text, and bit fields

    The positional notation of the C++ streams ([operator<<] in decimal and in
    hexadecimal) and of [std::stoll], and the bit masks of the UTF code. *)
From S2P Require Import Prelude.

(** ** Digits *)
Fixpoint base_digits (fuel : nat) (b n : Z) (acc : list Z) : list Z :=
  match fuel with
  | O => acc
  | S fuel =>
      let acc := n mod b :: acc in
      if n / b =? 0 then acc else base_digits fuel b (n / b) acc
  end.

(** The digits of [n >= 0], most significant first. *)
Definition digits (b n : Z) : list Z := base_digits (S (Z.to_nat (Z.log2 n))) b n [].

Definition value_of (b : Z) (ds : list Z) : Z := foldl (fun a d => a * b + d) 0 ds.

(** The character of a digit, in lower case. *)
Definition digit_char (d : Z) : Z := if d <? 10 then chr "0" + d else chr "a" + (d - 10).

Definition print_uint (b n : Z) : bytes := digit_char <$> digits b n.

(** [oss << n] for a signed integer, in decimal. *)
Definition print_int (n : Z) : bytes :=
  if n <? 0 then chr "-" :: print_uint 10 (- n) else print_uint 10 n.

(** [std::setw(w) << std::setfill(c)] *)
Definition pad_left (w : nat) (c : Z) (s : bytes) : bytes := replicate (w - length s) c ++ s.

Lemma value_of_app b ds es : value_of b (ds ++ es) =
  value_of b ds * b ^ zlen es + value_of b es.
Proof.
  unfold value_of. rewrite foldl_app. generalize (foldl (fun a d => a * b + d) 0 ds). intros x.
  assert (forall x y, foldl (fun a d => a * b + d) (x + y) es =
                      x * b ^ zlen es + foldl (fun a d => a * b + d) y es) as H.
  { clear. induction es as [|e es IH]; intros x y; [unfold zlen; simpl; lia|]. simpl.
    replace ((x + y) * b + e) with (x * b + (y * b + e)) by lia.
    rewrite IH. rewrite zlen_cons, Z.pow_add_r by (pose proof (zlen_nonneg es); lia). lia. }
  specialize (H x 0). by rewrite Z.add_0_r in H.
Qed.

Section digits.
Context (b : Z) (Hb : 2 <= b).

Lemma base_digits_app fuel n acc : base_digits fuel b n acc = base_digits fuel b n [] ++ acc.
Proof.
  revert n acc. induction fuel as [|fuel IH]; intros n acc; [done|]. cbn [base_digits].
  destruct (_ =? _); [done|]. rewrite IH, (IH _ [_]), <- app_assoc. done.
Qed.

Lemma div_log2 n : 0 < n / b -> (Z.to_nat (Z.log2 (n / b)) < Z.to_nat (Z.log2 n))%nat.
Proof.
  intros Hq. pose proof (Z.log2_nonneg (n / b)). apply Z2Nat.inj_lt; [lia|apply Z.log2_nonneg|].
  assert (0 < n) as Hn by (apply Z.nle_gt; intros ?; pose proof (Z.div_le_mono n 0 b); rewrite Z.div_0_l in *; lia).
  apply Z.log2_lt_pow2; [done|]. pose proof (Z.log2_spec n Hn) as [_ Hl].
  apply Z.div_lt_upper_bound; [lia|]. rewrite Z.pow_succ_r in Hl by apply Z.log2_nonneg.
  pose proof (Z.pow_pos_nonneg 2 (Z.log2 n)). nia.
Qed.

Lemma base_digits_step fuel n : (Z.to_nat (Z.log2 n) < fuel)%nat -> 0 <= n ->
  base_digits fuel b n [] =
    if n / b =? 0 then [n mod b]
    else base_digits (pred fuel) b (n / b) [] ++ [n mod b].
Proof. destruct fuel as [|fuel]; [lia|]. intros _ _. cbn [base_digits]. destruct (_ =? _); [done|]. apply base_digits_app. Qed.

(** Induction on the digits of a number. *)
Lemma digits_ind (P : Z -> list Z -> Prop) :
  (forall n, 0 <= n < b -> P n [n]) ->
  (forall n ds, b <= n -> P (n / b) ds -> P n (ds ++ [n mod b])) ->
  forall n, 0 <= n -> P n (digits b n).
Proof.
  intros H1 H2 n Hn. unfold digits.
  assert (Z.to_nat (Z.log2 n) < S (Z.to_nat (Z.log2 n)))%nat as Hf by lia. revert Hf.
  generalize (S (Z.to_nat (Z.log2 n))). intros fuel. revert n Hn.
  induction fuel as [|fuel IH]; intros n Hn Hf; [lia|]. rewrite base_digits_step by done.
  pose proof (Z.div_pos n b Hn ltac:(lia)). pose proof (Z.div_mod n b ltac:(lia)) as Hdm.
  pose proof (Z.mod_pos_bound n b ltac:(lia)).
  destruct (Z.eqb_spec (n / b) 0) as [E|E].
  - assert (n mod b = n) as -> by (rewrite E in Hdm; lia). apply H1. lia.
  - apply H2; [nia|]. apply IH; [done|]. pose proof (div_log2 n ltac:(lia)). simpl. lia.
Qed.

Lemma digits_value n : 0 <= n -> value_of b (digits b n) = n.
Proof.
  intros Hn. refine (digits_ind (fun n ds => value_of b ds = n) _ _ n Hn).
  - intros m _. unfold value_of. simpl. lia.
  - intros m ds Hm IH. rewrite value_of_app, IH. unfold zlen, value_of. simpl.
    pose proof (Z.div_mod m b ltac:(lia)). lia.
Qed.

Lemma digits_range n : 0 <= n -> Forall (fun d => 0 <= d < b) (digits b n).
Proof.
  intros Hn. refine (digits_ind (fun n ds => Forall (fun d => 0 <= d < b) ds) _ _ n Hn).
  - intros m Hm. constructor; [done|constructor].
  - intros m ds Hm IH. apply Forall_app. split; [done|]. constructor; [|constructor].
    apply Z.mod_pos_bound. lia.
Qed.

Lemma digits_length n k : 0 <= n < b ^ Z.of_nat k -> (1 <= k)%nat -> (length (digits b n) <= k)%nat.
Proof.
  intros Hn. pose proof (proj1 Hn) as H0. revert k Hn.
  refine (digits_ind (fun n ds => forall k, 0 <= n < b ^ Z.of_nat k -> (1 <= k)%nat -> (length ds <= k)%nat)
    _ _ n H0).
  - intros m _ k _ Hk. done.
  - intros m ds Hm IH k Hlt Hk. rewrite length_app. simpl.
    destruct k as [|[|k]]; [lia|rewrite Z.pow_1_r in Hlt; lia|].
    enough (length ds <= S k)%nat by lia. apply IH; [|lia]. split; [apply Z.div_pos; lia|].
    apply Z.div_lt_upper_bound; [lia|]. rewrite Nat2Z.inj_succ, Z.pow_succ_r in Hlt by lia. apply Hlt.
Qed.

(** The leading digit of a positive number is positive. *)
Lemma digits_head n : 0 < n -> exists d ds, digits b n = d :: ds /\ 0 < d < b.
Proof.
  intros Hn. refine (digits_ind (fun n ds => 0 < n -> exists d ds', ds = d :: ds' /\ 0 < d < b) _ _ n _ Hn).
  - intros m Hm Hp. exists m, []. split; [done|lia].
  - intros m ds Hm IH Hp. destruct IH as (d & ds' & -> & Hd).
    { apply Z.div_str_pos. lia. }
    by exists d, (ds' ++ [m mod b]).
  - lia.
Qed.
End digits.

Lemma value_of_zeros b k ds : value_of b (replicate k 0 ++ ds) = value_of b ds.
Proof.
  rewrite value_of_app. enough (value_of b (replicate k 0) = 0) as -> by lia.
  unfold value_of. induction k as [|k IH]; simpl; [done|]. by rewrite Z.mul_0_l, Z.add_0_r.
Qed.

Lemma length_pad_left w c s : (length s <= w)%nat -> length (pad_left w c s) = w.
Proof. intros. unfold pad_left. rewrite length_app, length_replicate. lia. Qed.

(** ** Bit fields *)
Lemma land_ones_mod x k n : 0 <= n -> 0 <= k ->
  Z.shiftr (Z.land x (Z.shiftl (Z.ones n) k)) k = (x / 2 ^ k) mod 2 ^ n.
Proof.
  intros Hn Hk. rewrite Z.shiftr_land, Z.shiftr_shiftl_l, Z.sub_diag, Z.shiftl_0_r by lia.
  by rewrite Z.land_ones, Z.shiftr_div_pow2 by lia.
Qed.

Lemma lor_shiftl_add x y k : 0 <= k -> 0 <= y < 2 ^ k -> Z.lor (Z.shiftl x k) y = x * 2 ^ k + y.
Proof.
  intros Hk Hy. rewrite <- Z.shiftl_mul_pow2 by done.
  rewrite <- Z.lxor_lor, Z.add_nocarry_lxor; [done|..];
    (apply Z.bits_inj'; intros i Hi; rewrite Z.land_spec, Z.bits_0;
     destruct (Z.le_gt_cases k i);
     [replace (Z.testbit y i) with false; [apply andb_false_r|];
      symmetry; destruct (Z.eq_dec y 0) as [->|?]; [apply Z.bits_0|];
      apply Z.bits_above_log2; [lia|]; apply Z.log2_lt_pow2; [lia|];
      pose proof (Z.pow_le_mono_r 2 k i); lia
     |rewrite Z.shiftl_spec_low by done; done]).
Qed.

(** A boolean fact about all the values of a small range, by evaluation. *)
Lemma forall_range (P : Z -> bool) a n :
  forallb P (seqZ a n) = true -> forall x, a <= x < a + n -> P x = true.
Proof.
  intros Hall x Hx. rewrite forallb_forall in Hall. apply Hall.
  apply list_elem_of_In, elem_of_seqZ. lia.
Qed.

(** ** [std::stoll] and friends *)
Definition is_digit10 (c : Z) : bool := (chr "0" <=? c) && (c <=? chr "9").

(** [isspace] in the "C" locale. *)
Definition isspace (c : Z) : bool := (c =? 32) || ((9 <=? c) && (c <=? 13)).

Fixpoint skip_while (p : Z -> bool) (s : bytes) : bytes :=
  match s with
  | c :: s' => if p c then skip_while p s' else s
  | [] => []
  end.

Fixpoint take_while (p : Z -> bool) (s : bytes) : bytes :=
  match s with
  | c :: s' => if p c then c :: take_while p s' else []
  | [] => []
  end.

(** The number [strtoll(s, &end, 10)] reads, without the range check, and the
    text after it; no value when it reads no digit. *)
Definition scan_int (s : bytes) : option (Z * bytes) :=
  let s := skip_while isspace s in
  let '(neg, s) :=
    match s with
    | c :: s' => if c =? chr "-" then (true, s') else if c =? chr "+" then (false, s') else (false, s)
    | [] => (false, [])
    end in
  match take_while is_digit10 s with
  | [] => None
  | ds =>
      let v := value_of 10 ((fun c => c - chr "0") <$> ds) in
      Some (if neg then - v else v, skip_while is_digit10 s)
  end.

Lemma digit_char_10 d : 0 <= d < 10 -> digit_char d = 48 + d.
Proof. intros. unfold digit_char. change (chr "0") with 48. by destruct (Z.ltb_spec d 10); [|lia]. Qed.

Lemma take_while_app p w r : Forall (fun c => p c = true) w ->
  match r with c :: _ => p c = false | [] => True end ->
  take_while p (w ++ r) = w /\ skip_while p (w ++ r) = r.
Proof.
  intros Hw Hr. induction Hw as [|c w Hc _ [IH1 IH2]]; simpl.
  - destruct r as [|c r]; [done|]. simpl. by rewrite Hr.
  - by rewrite Hc, IH1, IH2.
Qed.

Lemma print_uint_digits n : 0 <= n ->
  Forall (fun c => is_digit10 c = true) (print_uint 10 n) /\
  (fun c => c - 48) <$> print_uint 10 n = digits 10 n /\ print_uint 10 n <> [].
Proof.
  intros Hn. pose proof (digits_range 10 ltac:(lia) n Hn) as Hr. unfold print_uint. split_and!.
  - apply Forall_fmap. eapply Forall_impl; [exact Hr|]. intros d Hd. simpl. rewrite digit_char_10 by done.
    unfold is_digit10. change (chr "0") with 48. change (chr "9") with 57.
    rewrite andb_true_iff, !Z.leb_le. simpl in Hd. lia.
  - rewrite <- list_fmap_compose. rewrite <- (list_fmap_id (digits 10 n)) at 2.
    apply list_fmap_ext. intros i d Hd. simpl. rewrite Forall_lookup in Hr.
    rewrite digit_char_10 by eauto. lia.
  - destruct (Z.eq_dec n 0) as [->|?]; [done|].
    destruct (digits_head 10 ltac:(lia) n ltac:(lia)) as (d & ds & -> & _). done.
Qed.

(** Printing an integer and scanning it back. *)
Lemma scan_print_int z r : match r with c :: _ => is_digit10 c = false | [] => True end ->
  scan_int (print_int z ++ r) = Some (z, r).
Proof.
  intros Hr. assert (forall n, 0 <= n -> forall neg,
    match take_while is_digit10 (print_uint 10 n ++ r) with
    | [] => None
    | ds => Some (if (neg : bool) then - value_of 10 ((fun c => c - chr "0") <$> ds)
                  else value_of 10 ((fun c => c - chr "0") <$> ds),
                  skip_while is_digit10 (print_uint 10 n ++ r))
    end = Some (if neg then - n else n, r)) as Hmain.
  { intros n Hn neg. destruct (print_uint_digits n Hn) as (Hd & Hv & Hne).
    destruct (take_while_app is_digit10 _ r Hd Hr) as [-> ->]. change (chr "0") with 48.
    destruct (print_uint 10 n) as [|c w] eqn:E; [done|]. 
    cbv zeta. rewrite Hv, digits_value by lia. done. }
  unfold scan_int, print_int. destruct (Z.ltb_spec z 0) as [Hz|Hz].
  - cbn [app]. change (skip_while isspace (chr "-" :: print_uint 10 (- z) ++ r))
      with (chr "-" :: print_uint 10 (- z) ++ r).
    change (chr "-") with 45. cbv beta iota zeta. change (45 =? 45) with true. cbv iota.
    pose proof (Hmain (- z) ltac:(lia) true) as Hm. cbv iota zeta in Hm. rewrite Z.opp_involutive in Hm. exact Hm.
  - destruct (print_uint_digits z Hz) as (Hd & _ & Hne).
    pose proof (Hmain z Hz false) as Hm. destruct (print_uint 10 z) as [|c w]; [done|].
    inversion_clear Hd as [|? ? Hc _]. unfold is_digit10 in Hc. change (chr "0") with 48 in Hc.
    change (chr "9") with 57 in Hc. rewrite andb_true_iff, !Z.leb_le in Hc. cbn [app skip_while].
    assert (isspace c = false) as ->.
    { unfold isspace. destruct (Z.eqb_spec c 32); [lia|]. destruct (Z.leb_spec c 13); [lia|].
      by rewrite andb_false_r. }
    change (chr "-") with 45. change (chr "+") with 43.
    destruct (Z.eqb_spec c 45); [lia|]. destruct (Z.eqb_spec c 43); [lia|]. exact Hm.
Qed.
