(* ===== verification/JsonStream.v ===== *)
(** * libjson: errors, character classes and input streams
    (libjson/include/misc.h; std::istream as libjson uses it) *)
From S2P Require Import Prelude Effects.

(** ** Exceptions

    [parsing_error] is libjson/include/json.h's; the others are the Standard
    Library's ([ios_failure] is [std::ios_base::failure]). *)
Inductive exn : Type :=
  | parsing_error (msg : bytes) (row col : Z)
  | invalid_argument (msg : bytes)
  | out_of_range (msg : bytes)
  | logic_error (msg : bytes)
  | ios_failure.

(** ** Character classes *)
Definition space (c : Z) : bool :=
  (c =? chr " ") || (c =? 12) || (c =? 10) || (c =? 13) || (c =? 9) || (c =? 11).

Definition digit1_9 (c : Z) : bool :=
  (c =? chr "1") || (c =? chr "2") || (c =? chr "3") || (c =? chr "4") || (c =? chr "5") ||
  (c =? chr "6") || (c =? chr "7") || (c =? chr "8") || (c =? chr "9").

Definition digit (c : Z) : bool := (c =? chr "0") || digit1_9 c.

Definition lxdigit (c : Z) : bool := (chr "a" <=? c) && (c <=? chr "f").

Definition uxdigit (c : Z) : bool := (chr "A" <=? c) && (c <=? chr "F").

Lemma digit_spec c : digit c = true <-> 48 <= c <= 57.
Proof. unfold digit, digit1_9. simpl_chr. rewrite !orb_true_iff, !Z.eqb_eq. lia. Qed.

Lemma digit1_9_spec c : digit1_9 c = true <-> 49 <= c <= 57.
Proof. unfold digit1_9. simpl_chr. rewrite !orb_true_iff, !Z.eqb_eq. lia. Qed.

Lemma digit_false c : digit c = false <-> c < 48 \/ 57 < c.
Proof. rewrite <- not_true_iff_false, digit_spec. lia. Qed.

(** ** Input streams

    A [std::istringstream] (or [ifstream]) whose exception mask is [failbit |
    badbit | eofbit]: the characters before the get position, in reverse, the
    characters after it, and the state bits. *)
Record istream := mkIstream {
  is_prev : bytes;
  is_rest : bytes;
  is_eofbit : bool;
  is_failbit : bool;
  is_badbit : bool }.

(** [std::istringstream iss(s)] *)
Definition istringstream (s : bytes) : istream :=
  {| is_prev := []; is_rest := s; is_eofbit := false; is_failbit := false; is_badbit := false |}.

Definition is_good (st : istream) : bool := negb (is_eofbit st || is_failbit st || is_badbit st).

(** [setstate(err)] with any bit set throws. *)
Definition is_setstate {A} (eof fail bad : bool) : M exn istream A := fun st =>
  (Throw ios_failure,
   {| is_prev := is_prev st; is_rest := is_rest st; is_eofbit := is_eofbit st || eof;
      is_failbit := is_failbit st || fail; is_badbit := is_badbit st || bad |}).

Definition is_move (prev rest : bytes) : M exn istream unit := modify (fun st =>
  {| is_prev := prev; is_rest := rest; is_eofbit := is_eofbit st;
     is_failbit := is_failbit st; is_badbit := is_badbit st |}).

(** [is.get(c)] *)
Definition is_get : M exn istream Z := fun st =>
  if is_good st then
    match is_rest st with
    | c :: r => (is_move (c :: is_prev st) r;; ret c) st
    | [] => is_setstate true true false st
    end
  else is_setstate false true false st.

(** [is.putback(c)]: clears [eofbit]; a read-only buffer takes back only the
    character it last gave. *)
Definition is_putback (c : Z) : M exn istream unit :=
  modify (fun st => {| is_prev := is_prev st; is_rest := is_rest st; is_eofbit := false;
                       is_failbit := is_failbit st; is_badbit := is_badbit st |});;
  fun st =>
    if is_good st then
      match is_prev st with
      | d :: p => if c =? d then is_move p (c :: is_rest st) st else is_setstate false false true st
      | [] => is_setstate false false true st
      end
    else is_setstate false true false st.

(** [is.get(buf, n)] takes at most [n - 1] characters, up to a newline.  It
    sets [eofbit] when it meets the end of the input, also right after the last
    character it takes, and [failbit] when it takes none; the content of [buf]
    without the final NUL is returned. *)
Fixpoint take_line (n : nat) (r : bytes) : bytes :=
  match n, r with
  | S n, c :: r => if c =? 10 then [] else c :: take_line n r
  | _, _ => []
  end.

Definition is_getn (n : nat) : M exn istream bytes := fun st =>
  if is_good st then
    let buf := take_line (n - 1) (is_rest st) in
    let r := drop (length buf) (is_rest st) in
    (is_move (rev buf ++ is_prev st) r;;
     let eof := match r with [] => true | _ => false end in
     let fail := match buf with [] => true | _ => false end in
     if eof || fail then is_setstate eof fail false else ret buf) st
  else is_setstate false true false st.

(** ** Laws *)

(** The stream is readable and holds [r]. *)
Definition is_at (st : istream) (r : bytes) : Prop := is_good st = true /\ is_rest st = r.

Lemma istringstream_at s : is_at (istringstream s) s.
Proof. done. Qed.

Lemma is_get_at st c r : is_at st (c :: r) ->
  exists st', is_get st = (Ok c, st') /\ is_at st' r /\ is_prev st' = c :: is_prev st.
Proof.
  intros [Hg Hr]. unfold is_get. rewrite Hg, Hr. unfold is_move, bind, modify, ret.
  eexists. split; [reflexivity|]. done.
Qed.

Lemma is_get_end st : is_at st [] ->
  exists st', is_get st = (Throw ios_failure, st') /\ is_eofbit st' = true.
Proof.
  intros [Hg Hr]. unfold is_get. rewrite Hg, Hr. eexists. split; [reflexivity|].
  simpl. by destruct (is_eofbit st).
Qed.

Lemma is_putback_at st c p r : is_at st r -> is_prev st = c :: p ->
  exists st', is_putback c st = (Ok tt, st') /\ is_at st' (c :: r) /\ is_prev st' = p.
Proof.
  destruct st as [prev rest e f b]. intros [Hg Hr] Hp. unfold is_good in Hg. simpl in *. subst.
  destruct e, f, b; try done. unfold is_putback, bind, modify, is_move. simpl.
  rewrite Z.eqb_refl. eexists. split; [reflexivity|]. done.
Qed.

Lemma take_line_app (w r : bytes) : 10 ∉ w -> take_line (length w) (w ++ r) = w.
Proof.
  induction w as [|c w IH]; intros Hn; simpl; [by destruct r|].
  apply not_elem_of_cons in Hn as [Hc Hn]. destruct (Z.eqb_spec c 10); [done|]. by rewrite IH.
Qed.

(** Reading a word that is not the end of the input. *)
Lemma is_getn_at st w c r : w <> [] -> 10 ∉ w -> is_at st (w ++ c :: r) ->
  exists st', is_getn (S (length w)) st = (Ok w, st') /\ is_at st' (c :: r).
Proof.
  intros Hw Hn [Hg Hr]. unfold is_getn. rewrite Hg, Hr. simpl Nat.sub. rewrite Nat.sub_0_r, take_line_app by done.
  rewrite drop_app_length. unfold is_move, bind, modify, ret. simpl. destruct w; [done|].
  eexists. split; [reflexivity|]. done.
Qed.
