(* ===== verification/JsonUtf.v ===== *)
(** * libjson: UTF-8 and UTF-16 (libjson/src/utf.cpp) *)
From S2P Require Import Prelude Effects Numbers JsonStream.

Module Utf.

(** ** The code *)

(** [oss.setf(showbase); oss << std::hex << n], of a 32-bit [n]. *)
Definition showbase_hex (n : Z) : bytes :=
  if n =? 0 then bytes_of "0" else bytes_of "0x" ++ print_uint 16 (uint32 n).

(** [oss << std::setw(4) << std::setfill('0') << std::hex << n] *)
Definition hex4 (n : Z) : bytes := pad_left 4 (chr "0") (print_uint 16 n).

(** [str += static_cast<char>(..)] *)
Definition utf8_encode (codepoint : Z) : res exn bytes :=
  if 0x10FFFF <? codepoint then
    Throw (invalid_argument (bytes_of "invalid code point (" ++ showbase_hex codepoint ++ bytes_of ")"))
  else if codepoint <? 0x80 then
    Ok [schar codepoint]
  else if codepoint <? 0x800 then
    Ok [schar (0xC0 + Z.shiftr (Z.land codepoint 0x7C0) 6);
        schar (0x80 + Z.land codepoint 0x03F)]
  else if codepoint <? 0x10000 then
    Ok [schar (0xE0 + Z.shiftr (Z.land codepoint 0xF000) 12);
        schar (0x80 + Z.shiftr (Z.land codepoint 0x0FC0) 6);
        schar (0x80 + Z.land codepoint 0x003F)]
  else if codepoint <=? 0x10FFFF then
    Ok [schar (0xF0 + Z.shiftr (Z.land codepoint 0x1C0000) 18);
        schar (0x80 + Z.shiftr (Z.land codepoint 0x03F000) 12);
        schar (0x80 + Z.shiftr (Z.land codepoint 0x000FC0) 6);
        schar (0x80 + Z.land codepoint 0x00003F)]
  else Ok [].

(** The loop over the four hexadecimal digits. *)
Fixpoint decode_digits (i : nat) (w : Z) : M exn istream Z :=
  match i with
  | O => ret w
  | S i =>
      let w := Z.shiftl w 4 in
      let! c1 := is_get in
      if digit c1 then decode_digits i (w + (c1 - chr "0"))
      else if lxdigit c1 then decode_digits i (w + (c1 - chr "a" + 10))
      else if uxdigit c1 then decode_digits i (w + (c1 - chr "A" + 10))
      else ret (-1)
  end.

Definition utf16_decode_seq : M exn istream Z :=
  let! c1 := is_get in
  let! c2 := is_get in
  if negb (c1 =? chr "\") && negb (c2 =? chr "u") then ret (-1)
  else decode_digits 4 0.

Definition utf16_decode : M exn istream bytes :=
  let! w1 := utf16_decode_seq in
  if w1 =? -1 then throw (invalid_argument (bytes_of "invalid UTF-16 main sequence"))
  else if (0xD800 <=? w1) && (w1 <=? 0xDBFF) then
    let! w2 := utf16_decode_seq in
    if w2 =? -1 then throw (invalid_argument (bytes_of "invalid UTF-16 surrogate sequence"))
    else if (0xDC00 <=? w2) && (w1 <=? 0xDFFF) then
      lift (utf8_encode (uint32 (Z.shiftl (w1 - 0xD800) 10 + (w2 - 0xDC00) + 0x10000)))
    else
      throw (invalid_argument
        (bytes_of "invalid UTF-16 surrogate sequence (" ++ showbase_hex w2 ++ bytes_of ")"))
  else lift (utf8_encode (uint32 w1)).

(** The loop over the continuation bytes. *)
Fixpoint encode_rest (n : nat) (dw : Z) : M exn istream Z :=
  match n with
  | O => ret dw
  | S n =>
      let! c := is_get in
      if Z.land c 0x80 =? 0x80 then
        encode_rest n (Z.lor (uint32 (Z.shiftl dw 6)) (Z.land c 0x3F))
      else
        throw (invalid_argument (bytes_of "invalid UTF-8 sequence (" ++ [c] ++ bytes_of ")"))
  end.

(** The text of a code unit sequence. *)
Definition u16_text (dw : Z) : bytes :=
  if dw <? 0x10000 then bytes_of "\u" ++ hex4 dw
  else
    let dw := dw - 0x10000 in
    let w1 := Z.lor 0xD800 (Z.shiftr (Z.land dw 0xFFC00) 10) in
    let w2 := Z.lor 0xDC00 (Z.land dw 0x003FF) in
    bytes_of "\u" ++ hex4 w1 ++ bytes_of "\u" ++ hex4 w2.

Definition utf16_encode : M exn istream bytes :=
  let! c := is_get in
  let '(len, dw) :=
    (if Z.land c 0xF0 =? 0xF0 then (4%nat, Z.land c 0x07)
     else if Z.land c 0xE0 =? 0xE0 then (3%nat, Z.land c 0x0F)
     else if Z.land c 0xC0 =? 0xC0 then (2%nat, Z.land c 0x1F)
     else (1%nat, uint32 c)) in
  let! dw := encode_rest (len - 1) dw in
  ret (u16_text dw).

(** ** Code points *)
Definition scalar (cp : Z) : Prop := 0 <= cp <= 0x10FFFF /\ ~ 0xD800 <= cp <= 0xDFFF.

(** The bytes of a code point, by plain arithmetic. *)
Definition lead (base d : Z) : Z := schar (base + d).

Definition utf8_spec (cp : Z) : bytes :=
  if cp <? 0x80 then [cp]
  else if cp <? 0x800 then [lead 0xC0 (cp / 64); lead 0x80 (cp mod 64)]
  else if cp <? 0x10000 then
    [lead 0xE0 (cp / 4096); lead 0x80 (cp / 64 mod 64); lead 0x80 (cp mod 64)]
  else
    [lead 0xF0 (cp / 262144); lead 0x80 (cp / 4096 mod 64); lead 0x80 (cp / 64 mod 64);
     lead 0x80 (cp mod 64)].

Lemma field_6_5 x : Z.shiftr (Z.land x 0x7C0) 6 = x / 64 mod 32.
Proof. exact (land_ones_mod x 6 5 ltac:(lia) ltac:(lia)). Qed.
Lemma field_6_6 x : Z.shiftr (Z.land x 0xFC0) 6 = x / 64 mod 64.
Proof. exact (land_ones_mod x 6 6 ltac:(lia) ltac:(lia)). Qed.
Lemma field_12_4 x : Z.shiftr (Z.land x 0xF000) 12 = x / 4096 mod 16.
Proof. exact (land_ones_mod x 12 4 ltac:(lia) ltac:(lia)). Qed.
Lemma field_12_6 x : Z.shiftr (Z.land x 0x3F000) 12 = x / 4096 mod 64.
Proof. exact (land_ones_mod x 12 6 ltac:(lia) ltac:(lia)). Qed.
Lemma field_18_3 x : Z.shiftr (Z.land x 0x1C0000) 18 = x / 262144 mod 8.
Proof. exact (land_ones_mod x 18 3 ltac:(lia) ltac:(lia)). Qed.
Lemma field_10_10 x : Z.shiftr (Z.land x 0xFFC00) 10 = x / 1024 mod 1024.
Proof. exact (land_ones_mod x 10 10 ltac:(lia) ltac:(lia)). Qed.
Lemma field_0_6 x : Z.land x 0x3F = x mod 64.
Proof. exact (Z.land_ones x 6 ltac:(lia)). Qed.
Lemma field_0_10 x : Z.land x 0x3FF = x mod 1024.
Proof. exact (Z.land_ones x 10 ltac:(lia)). Qed.

Lemma div_bounds a b c : 0 < b -> 0 <= a < b * c -> 0 <= a / b < c.
Proof. intros. split; [apply Z.div_pos; lia|apply Z.div_lt_upper_bound; lia]. Qed.

Lemma utf8_encode_spec cp : 0 <= cp <= 0x10FFFF -> utf8_encode cp = Ok (utf8_spec cp).
Proof.
  intros Hcp. unfold utf8_encode, utf8_spec, lead.
  destruct (Z.ltb_spec 0x10FFFF cp); [lia|].
  rewrite field_6_5, field_6_6, field_12_4, field_12_6, field_18_3, field_0_6.
  destruct (Z.ltb_spec cp 0x80); [by rewrite wrapS_id by (simpl; lia)|].
  destruct (Z.ltb_spec cp 0x800).
  { pose proof (div_bounds cp 64 32). rewrite (Z.mod_small (cp / 64) 32) by lia. done. }
  destruct (Z.ltb_spec cp 0x10000).
  { pose proof (div_bounds cp 4096 16). rewrite (Z.mod_small (cp / 4096) 16) by lia. done. }
  destruct (Z.leb_spec cp 0x10FFFF); [|lia].
  pose proof (div_bounds cp 262144 8). rewrite (Z.mod_small (cp / 262144) 8) by lia. done.
Qed.

(** ** Encoding *)
Lemma cont_byte d : 0 <= d < 64 ->
  (Z.land (lead 0x80 d) 0x80 =? 0x80) = true /\ Z.land (lead 0x80 d) 0x3F = d.
Proof.
  intros Hd. pose proof (forall_range (fun d => (Z.land (lead 0x80 d) 0x80 =? 0x80) &&
    (Z.land (lead 0x80 d) 0x3F =? d)) 0 64 eq_refl d Hd) as Hb.
  by apply andb_true_iff in Hb as [? ?%Z.eqb_eq].
Qed.

(** The number of bytes [utf16_encode] reads and the bits of the first one. *)
Definition lead_info (c : Z) : nat * Z :=
  if Z.land c 0xF0 =? 0xF0 then (4%nat, Z.land c 0x07)
  else if Z.land c 0xE0 =? 0xE0 then (3%nat, Z.land c 0x0F)
  else if Z.land c 0xC0 =? 0xC0 then (2%nat, Z.land c 0x1F)
  else (1%nat, uint32 c).

Lemma lead_info_range base n len :
  forallb (fun d => bool_decide (lead_info (lead base d) = (len, d))) (seqZ 0 n) = true ->
  forall d, 0 <= d < n -> lead_info (lead base d) = (len, d).
Proof. intros Hall d Hd. eapply bool_decide_eq_true_1, (forall_range _ 0 n Hall). lia. Qed.

Lemma lead_info_2 d : 0 <= d < 32 -> lead_info (lead 0xC0 d) = (2%nat, d).
Proof. apply lead_info_range. vm_compute. reflexivity. Qed.
Lemma lead_info_3 d : 0 <= d < 16 -> lead_info (lead 0xE0 d) = (3%nat, d).
Proof. apply lead_info_range. vm_compute. reflexivity. Qed.
Lemma lead_info_4 d : 0 <= d < 8 -> lead_info (lead 0xF0 d) = (4%nat, d).
Proof. apply lead_info_range. vm_compute. reflexivity. Qed.

Lemma lead_info_1 c : 0 <= c < 128 -> lead_info c = (1%nat, c).
Proof.
  intros Hc.
  pose proof (forall_range (fun c => bool_decide (lead_info c = (1%nat, c))) 0 128 eq_refl c ltac:(lia)) as Hb.
  by apply bool_decide_eq_true_1 in Hb.
Qed.

Lemma encode_rest_ok ds dw r st :
  Forall (fun d => 0 <= d < 64) ds -> 0 <= dw -> (dw + 1) * 64 ^ zlen ds <= 2 ^ 32 ->
  is_at st ((lead 0x80 <$> ds) ++ r) ->
  runs (encode_rest (length ds) dw) st (fun v st' =>
    v = foldl (fun a d => a * 64 + d) dw ds /\ is_at st' r).
Proof.
  revert dw st. induction ds as [|d ds IH]; intros dw st Hds Hdw Hlt Hat; simpl.
  { by apply runs_ret. }
  inversion_clear Hds as [|? ? Hd Hds']. destruct (is_get_at _ _ _ Hat) as (st1 & E & Hat1 & _).
  destruct (cont_byte d Hd) as [H1 H2]. unfold runs, bind. rewrite E, H1, H2.
  rewrite zlen_cons, Z.pow_add_r, Z.pow_1_r in Hlt by (pose proof (zlen_nonneg ds); lia).
  assert (1 <= 64 ^ zlen ds) as Hp.
  { pose proof (zlen_nonneg ds). pose proof (Z.pow_pos_nonneg 64 (zlen ds)). lia. }
  assert (Z.lor (uint32 (Z.shiftl dw 6)) d = dw * 64 + d) as Ev.
  { assert (dw * 64 + 64 <= 2 ^ 32) as Hw by nia. rewrite wrapU_id.
    - by rewrite lor_shiftl_add by lia.
    - rewrite Z.shiftl_mul_pow2 by lia. lia. }
  cbv iota. rewrite Ev. exact (IH (dw * 64 + d) st1 Hds' ltac:(lia) ltac:(nia) Hat1).
Qed.

Lemma utf8_spec_lead cp : 0 <= cp <= 0x10FFFF ->
  exists c ds, utf8_spec cp = c :: (lead 0x80 <$> ds) /\ Forall (fun d => 0 <= d < 64) ds /\
    exists dw, lead_info c = (S (length ds), dw) /\ 0 <= dw /\ (dw + 1) * 64 ^ zlen ds <= 2 ^ 32 /\
      foldl (fun a d => a * 64 + d) dw ds = cp.
Proof.
  intros Hcp. unfold utf8_spec.
  pose proof (Z.mod_pos_bound cp 64 ltac:(lia)). pose proof (Z.mod_pos_bound (cp / 64) 64 ltac:(lia)).
  pose proof (Z.mod_pos_bound (cp / 4096) 64 ltac:(lia)).
  pose proof (Z.div_mod cp 64 ltac:(lia)) as E1.
  pose proof (Z.div_mod (cp / 64) 64 ltac:(lia)) as E2. rewrite Z.div_div in E2 by lia.
  pose proof (Z.div_mod (cp / 4096) 64 ltac:(lia)) as E3. rewrite Z.div_div in E3 by lia.
  change (64 * 64) with 4096 in *. change (4096 * 64) with 262144 in *.
  destruct (Z.ltb_spec cp 0x80).
  { exists cp, []. split; [done|]. split; [constructor|]. exists cp. rewrite lead_info_1 by lia.
    unfold zlen. simpl. split_and!; [done|lia..]. }
  destruct (Z.ltb_spec cp 0x800).
  { pose proof (div_bounds cp 64 32). eexists _, [cp mod 64]. split; [done|].
    split; [by repeat (constructor; [done|])|]. exists (cp / 64). rewrite lead_info_2 by lia.
    unfold zlen. simpl. split_and!; [done|lia..]. }
  destruct (Z.ltb_spec cp 0x10000).
  { pose proof (div_bounds cp 4096 16). eexists _, [cp / 64 mod 64; cp mod 64]. split; [done|].
    split; [by repeat (constructor; [done|])|]. exists (cp / 4096). rewrite lead_info_3 by lia.
    unfold zlen. simpl. split_and!; [done|lia..]. }
  pose proof (div_bounds cp 262144 8). eexists _, [cp / 4096 mod 64; cp / 64 mod 64; cp mod 64].
  split; [done|]. split; [by repeat (constructor; [done|])|]. exists (cp / 262144).
  rewrite lead_info_4 by lia. unfold zlen. simpl. split_and!; [done|lia..].
Qed.

Lemma utf16_encode_ok cp r st : 0 <= cp <= 0x10FFFF -> is_at st (utf8_spec cp ++ r) ->
  runs utf16_encode st (fun t st' => t = u16_text cp /\ is_at st' r).
Proof.
  intros Hcp Hat. destruct (utf8_spec_lead cp Hcp) as (c & ds & E & Hds & dw & Hl & Hdw & Hlt & Hv).
  rewrite E in Hat. simpl in Hat. destruct (is_get_at _ _ _ Hat) as (st1 & Eg & Hat1 & _).
  destruct (encode_rest_ok ds dw r st1 Hds Hdw Hlt Hat1) as (v & st2 & Er & -> & Hat2).
  exists (u16_text cp), st2. split; [|done]. unfold utf16_encode, bind at 1. rewrite Eg.
  fold (lead_info c). rewrite Hl. simpl Nat.sub. rewrite Nat.sub_0_r. unfold bind. rewrite Er.
  by rewrite Hv.
Qed.

(** ** Decoding *)
Lemma decode_digit_char d : 0 <= d < 16 ->
  (digit (digit_char d) = true /\ digit_char d - chr "0" = d) \/
  (digit (digit_char d) = false /\ lxdigit (digit_char d) = true /\ digit_char d - chr "a" + 10 = d).
Proof.
  intros Hd. pose proof (forall_range (fun d =>
    (digit (digit_char d) && (digit_char d - chr "0" =? d)) ||
    (negb (digit (digit_char d)) && lxdigit (digit_char d) && (digit_char d - chr "a" + 10 =? d)))
    0 16 eq_refl d Hd) as Hb. cbv beta in Hb.
  rewrite orb_true_iff, !andb_true_iff, negb_true_iff, !Z.eqb_eq in Hb. tauto.
Qed.

Lemma decode_digits_ok ds w r st :
  Forall (fun d => 0 <= d < 16) ds -> is_at st ((digit_char <$> ds) ++ r) ->
  runs (decode_digits (length ds) w) st (fun v st' =>
    v = foldl (fun a d => a * 16 + d) w ds /\ is_at st' r).
Proof.
  revert w st. induction ds as [|d ds IH]; intros w st Hds Hat; simpl; [by apply runs_ret|].
  inversion_clear Hds as [|? ? Hd Hds']. destruct (is_get_at _ _ _ Hat) as (st1 & E & Hat1 & _).
  unfold runs, bind. rewrite E.
  destruct (decode_digit_char d Hd) as [[-> ->]|(-> & -> & ->)];
    rewrite Z.shiftl_mul_pow2 by lia; apply IH; done.
Qed.

Lemma hex4_digits n : 0 <= n < 65536 -> exists ds,
  hex4 n = digit_char <$> ds /\ length ds = 4%nat /\ Forall (fun d => 0 <= d < 16) ds /\
  foldl (fun a d => a * 16 + d) 0 ds = n.
Proof.
  intros Hn. pose proof (digits_length 16 ltac:(lia) n 4 ltac:(done) ltac:(lia)) as Hl.
  exists (replicate (4 - length (digits 16 n)) 0 ++ digits 16 n). split_and!.
  - unfold hex4, pad_left, print_uint. rewrite length_fmap, fmap_app, fmap_replicate. done.
  - rewrite length_app, length_replicate. lia.
  - apply Forall_app. split; [apply Forall_replicate; lia|apply digits_range; lia].
  - change (value_of 16 (replicate (4 - length (digits 16 n)) 0 ++ digits 16 n) = n).
    rewrite value_of_zeros. apply digits_value; lia.
Qed.

Lemma utf16_decode_seq_ok n r st : 0 <= n < 65536 -> is_at st (bytes_of "\u" ++ hex4 n ++ r) ->
  runs utf16_decode_seq st (fun v st' => v = n /\ is_at st' r).
Proof.
  intros Hn Hat. destruct (hex4_digits n Hn) as (ds & E & Hlen & Hds & Hv). rewrite E in Hat.
  simpl in Hat. destruct (is_get_at _ _ _ Hat) as (st1 & E1 & Hat1 & _).
  destruct (is_get_at _ _ _ Hat1) as (st2 & E2 & Hat2 & _).
  pose proof (decode_digits_ok ds 0 r st2 Hds Hat2) as Hd. rewrite Hv, Hlen in Hd.
  unfold runs, utf16_decode_seq, bind at 1. rewrite E1. unfold bind. rewrite E2. exact Hd.
Qed.

Lemma utf16_decode_ok cp r st : scalar cp -> is_at st (u16_text cp ++ r) ->
  runs utf16_decode st (fun t st' => t = utf8_spec cp /\ is_at st' r).
Proof.
  intros [Hcp Hsur] Hat. unfold u16_text in Hat. unfold utf16_decode. apply runs_step.
  destruct (Z.ltb_spec cp 0x10000).
  - rewrite <- app_assoc in Hat.
    destruct (utf16_decode_seq_ok cp r st ltac:(lia) Hat) as (v & st1 & E & -> & Hat1).
    exists cp, st1. split; [done|]. destruct (Z.eqb_spec cp (-1)); [lia|].
    assert ((0xD800 <=? cp) && (cp <=? 0xDBFF) = false) as ->.
    { destruct (Z.leb_spec 0xD800 cp), (Z.leb_spec cp 0xDBFF); try done. lia. }
    rewrite wrapU_id by lia. exists (utf8_spec cp), st1. split; [|done].
    unfold lift. by rewrite utf8_encode_spec.
  - rewrite field_10_10, field_0_10 in Hat. rewrite <- !app_assoc in Hat. set (dw := cp - 0x10000) in *.
    pose proof (div_bounds dw 1024 1024 ltac:(lia) ltac:(unfold dw; lia)) as Hq.
    rewrite (Z.mod_small (dw / 1024)) in Hat by done.
    pose proof (Z.mod_pos_bound dw 1024 ltac:(lia)) as Hm. pose proof (Z.div_mod dw 1024 ltac:(lia)) as Hdm.
    change 0xD800 with (Z.shiftl 54 10) in Hat. change 0xDC00 with (Z.shiftl 55 10) in Hat.
    rewrite !lor_shiftl_add in Hat by lia. change (54 * 2 ^ 10) with 0xD800 in Hat.
    change (55 * 2 ^ 10) with 0xDC00 in Hat.
    destruct (utf16_decode_seq_ok (0xD800 + dw / 1024) _ st ltac:(lia) Hat) as (v & st1 & E & -> & Hat1).
    eexists _, st1. split; [exact E|]. destruct (Z.eqb_spec (0xD800 + dw / 1024) (-1)); [lia|].
    assert ((0xD800 <=? 0xD800 + dw / 1024) && (0xD800 + dw / 1024 <=? 0xDBFF) = true) as ->.
    { apply andb_true_iff. rewrite !Z.leb_le. lia. }
    apply runs_step.
    destruct (utf16_decode_seq_ok (0xDC00 + dw mod 1024) _ st1 ltac:(lia) Hat1) as (v & st2 & E2 & -> & Hat2).
    eexists _, st2. split; [exact E2|]. destruct (Z.eqb_spec (0xDC00 + dw mod 1024) (-1)); [lia|].
    assert ((0xDC00 <=? 0xDC00 + dw mod 1024) && (0xD800 + dw / 1024 <=? 0xDFFF) = true) as ->.
    { apply andb_true_iff. rewrite !Z.leb_le. lia. }
    rewrite Z.shiftl_mul_pow2 by lia. change (2 ^ 10) with 1024.
    replace ((0xD800 + dw / 1024 - 0xD800) * 1024 + (0xDC00 + dw mod 1024 - 0xDC00) + 0x10000)
      with cp by (unfold dw in *; lia).
    rewrite wrapU_id by lia. exists (utf8_spec cp), st2. split; [|done].
    unfold lift. by rewrite utf8_encode_spec.
Qed.

End Utf.
