(* ===== verification/JsonMisc.v ===== *)
(** * libjson: escaping and un-escaping of strings (libjson/src/misc.cpp) *)
From S2P Require Import Prelude Effects Numbers JsonStream JsonUtf.
Import Utf.

Module Misc.

(** ** The code

    Both functions run a loop that only the end of the stream stops:
    [while (true) { ... } catch (ios::failure) { if (!iss.eof()) throw; }],
    with one [str += ...] at the end of each round. *)
Fixpoint until_eof (fuel : nat) (step : M exn istream bytes) (str : bytes) : M exn istream bytes :=
  match fuel with
  | O => diverge
  | S fuel => fun st =>
      match step st with
      | (Ok w, st) => until_eof fuel step (str ++ w) st
      | (Throw ios_failure, st) => if is_eofbit st then (Ok str, st) else (Throw ios_failure, st)
      | (Throw e, st) => (Throw e, st)
      | (Ub, st) => (Ub, st)
      | (Diverge, st) => (Diverge, st)
      end
  end.

(** The one-letter escapes of the [switch]. *)
Definition escape_char (c : Z) : option Z :=
  if c =? 34 then Some 34
  else if c =? chr "\" then Some (chr "\")
  else if c =? chr "/" then Some (chr "/")
  else if c =? chr "b" then Some 8
  else if c =? chr "f" then Some 12
  else if c =? chr "n" then Some 10
  else if c =? chr "r" then Some 13
  else if c =? chr "t" then Some 9
  else None.

Definition unescape_step : M exn istream bytes :=
  let! c := is_get in
  if c =? chr "\" then
    let! c := is_get in
    match escape_char c with
    | Some e => ret [e]
    | None =>
        if c =? chr "u" then
          is_putback (chr "u");;
          is_putback (chr "\");;
          utf16_decode
        else throw (invalid_argument (bytes_of "invalid escape sequence"))
    end
  else ret [c].

Definition string_unescape (s : bytes) : res exn bytes :=
  (until_eof (S (length s)) unescape_step [] (istringstream s)).1.

Definition escape_step : M exn istream bytes :=
  let! c := is_get in
  if c =? chr "\" then ret (bytes_of "\\")
  else if c =? 34 then ret [chr "\"; 34]
  else if c =? chr "/" then ret (bytes_of "\/")
  else if c =? 8 then ret (bytes_of "\b")
  else if c =? 12 then ret (bytes_of "\f")
  else if c =? 10 then ret (bytes_of "\n")
  else if c =? 13 then ret (bytes_of "\r")
  else if c =? 9 then ret (bytes_of "\t")
  else if uchar c <? 0x80 then ret [c]
  else if 0x80 <=? uchar c then is_putback c;; utf16_encode
  else throw (invalid_argument (bytes_of "invalid code point")).

Definition string_escape (s : bytes) : res exn bytes :=
  (until_eof (S (length s)) escape_step [] (istringstream s)).1.

(** ** Termination: every round takes a character *)
Definition rest_len (st : istream) : nat := length (is_rest st).

(** Closes a branch that ends in [ret] or [throw]. *)
Ltac total_leaf := first [exact I | unfold total, ret, throw; simpl in *; first [lia | done]].

Lemma is_get_total st : total is_get st (fun c st' =>
  is_good st' = true /\ is_rest st = c :: is_rest st' /\ is_prev st' = c :: is_prev st).
Proof.
  unfold is_get, total. destruct (is_good st) eqn:Hg; [|exact I].
  destruct (is_rest st) as [|c r] eqn:Hr; [exact I|].
  destruct (is_get_at st c r) as (st' & E & [Hg' Hr'] & Hp'); [done|].
  unfold is_get in E. rewrite Hg, Hr in E. rewrite E. by rewrite Hr'.
Qed.

Lemma decode_digits_total i w st :
  total (decode_digits i w) st (fun _ st' => rest_len st' <= rest_len st)%nat.
Proof.
  revert w st. induction i as [|i IH]; intros w st; simpl; [total_leaf|].
  apply total_bind. eapply total_impl; [apply is_get_total|]. intros c st1 (_ & Hr & _).
  assert (rest_len st1 <= rest_len st)%nat by (unfold rest_len; rewrite Hr; simpl; lia).
  destruct (digit c), (lxdigit c), (uxdigit c); try (eapply total_impl; [apply IH|]; simpl; lia); total_leaf.
Qed.

Lemma utf16_decode_seq_total st :
  total utf16_decode_seq st (fun _ st' => rest_len st' + 2 <= rest_len st)%nat.
Proof.
  unfold utf16_decode_seq. apply total_bind. eapply total_impl; [apply is_get_total|].
  intros c1 st1 (_ & H1 & _). apply total_bind. eapply total_impl; [apply is_get_total|].
  intros c2 st2 (_ & H2 & _).
  assert (rest_len st2 + 2 <= rest_len st)%nat by (unfold rest_len; rewrite H1, H2; simpl; lia).
  destruct (_ && _); [total_leaf|]. eapply total_impl; [apply decode_digits_total|]. simpl. lia.
Qed.

Lemma lift_total {A} (r : res exn A) st (P : A -> istream -> Prop) :
  r <> Diverge -> (forall a, P a st) -> total (lift r) st P.
Proof. intros Hr HP. unfold total, lift. by destruct r. Qed.

Lemma utf8_encode_returns cp : utf8_encode cp <> Diverge.
Proof. unfold utf8_encode. by repeat destruct (_ <? _); [..|destruct (_ <=? _)]. Qed.

Lemma utf16_decode_total st :
  total utf16_decode st (fun _ st' => rest_len st' + 2 <= rest_len st)%nat.
Proof.
  unfold utf16_decode. apply total_bind. eapply total_impl; [apply utf16_decode_seq_total|].
  intros w1 st1 H1. destruct (_ =? _); [total_leaf|]. destruct (_ && _).
  - apply total_bind. eapply total_impl; [apply utf16_decode_seq_total|]. intros w2 st2 H2.
    destruct (_ =? _); [total_leaf|]. destruct (_ && _); [|total_leaf].
    apply lift_total; [apply utf8_encode_returns|simpl in *; lia].
  - apply lift_total; [apply utf8_encode_returns|simpl in *; lia].
Qed.

(** [putback] of the character just read. *)
Lemma is_putback_total st c p : is_prev st = c :: p ->
  total (is_putback c) st (fun _ st' => is_rest st' = c :: is_rest st /\ is_prev st' = p).
Proof.
  intros Hp. unfold is_putback. apply total_bind. unfold total at 1, modify. unfold total.
  destruct (is_good _); [|exact I]. simpl. rewrite Hp, Z.eqb_refl. done.
Qed.

Lemma unescape_step_total st :
  total unescape_step st (fun _ st' => rest_len st' < rest_len st)%nat.
Proof.
  unfold unescape_step. apply total_bind. eapply total_impl; [apply is_get_total|].
  intros c st1 (_ & H1 & P1). destruct (Z.eqb_spec c (chr "\")) as [->|].
  - apply total_bind. eapply total_impl; [apply is_get_total|]. intros c2 st2 (_ & H2 & P2).
    assert (rest_len st2 + 2 = rest_len st)%nat by (unfold rest_len; rewrite H1, H2; simpl; lia).
    destruct (escape_char c2); [total_leaf|].
    destruct (Z.eqb_spec c2 (chr "u")) as [->|]; [|total_leaf].
    apply total_bind. eapply total_impl; [by eapply is_putback_total|]. intros [] st3 [H3 P3].
    rewrite P1 in P3. apply total_bind. eapply total_impl; [by eapply is_putback_total|].
    intros [] st4 [H4 _]. eapply total_impl; [apply utf16_decode_total|].
    intros ? st5. simpl. unfold rest_len in *. rewrite H4, H3. simpl. lia.
  - unfold rest_len. rewrite H1. total_leaf.
Qed.

Lemma encode_rest_total n dw st :
  total (encode_rest n dw) st (fun _ st' => rest_len st' <= rest_len st)%nat.
Proof.
  revert dw st. induction n as [|n IH]; intros dw st; simpl; [total_leaf|].
  apply total_bind. eapply total_impl; [apply is_get_total|]. intros c st1 (_ & Hr & _).
  assert (rest_len st1 <= rest_len st)%nat by (unfold rest_len; rewrite Hr; simpl; lia).
  destruct (_ =? _); [|total_leaf]. eapply total_impl; [apply IH|]. simpl. lia.
Qed.

Lemma utf16_encode_total st :
  total utf16_encode st (fun _ st' => rest_len st' < rest_len st)%nat.
Proof.
  unfold utf16_encode. apply total_bind. eapply total_impl; [apply is_get_total|].
  intros c st1 (_ & Hr & _). fold (lead_info c). destruct (lead_info c) as [len dw].
  apply total_bind. eapply total_impl; [apply encode_rest_total|]. intros v st2 H2.
  unfold total, ret, rest_len in *. rewrite Hr. simpl in *. lia.
Qed.

Lemma escape_step_total st :
  total escape_step st (fun _ st' => rest_len st' < rest_len st)%nat.
Proof.
  unfold escape_step. apply total_bind. eapply total_impl; [apply is_get_total|].
  intros c st1 (_ & H1 & P1).
  assert (rest_len st1 < rest_len st)%nat by (unfold rest_len; rewrite H1; simpl; lia).
  repeat (destruct (_ =? _); [total_leaf|]). destruct (_ <? _); [total_leaf|].
  destruct (_ <=? _); [|total_leaf].
  apply total_bind. eapply total_impl; [by eapply is_putback_total|]. intros [] st2 [H2 _].
  eapply total_impl; [apply utf16_encode_total|]. intros ? st3. unfold rest_len in *.
  rewrite H2. simpl. lia.
Qed.

Lemma until_eof_total fuel step str st :
  (forall st, total step st (fun _ st' => rest_len st' < rest_len st)%nat) ->
  (rest_len st < fuel)%nat -> (until_eof fuel step str st).1 <> Diverge.
Proof.
  intros Hstep. revert str st. induction fuel as [|fuel IH]; intros str st Hf; [lia|]. simpl.
  specialize (Hstep st). unfold total in Hstep.
  destruct (step st) as [[w|e| |] st'] eqn:E; try done; [apply IH; lia|].
  destruct e; try done. by destruct (is_eofbit st').
Qed.

Lemma string_unescape_returns s : string_unescape s <> Diverge.
Proof. apply until_eof_total; [apply unescape_step_total|]. unfold rest_len. simpl. lia. Qed.

Lemma string_escape_returns s : string_escape s <> Diverge.
Proof. apply until_eof_total; [apply escape_step_total|]. unfold rest_len. simpl. lia. Qed.

(** ** Round trip *)

(** The UTF-8 bytes of a sequence of code points. *)
Definition utf8 (cps : list Z) : bytes := concat (utf8_spec <$> cps).

(** The escaped form of a code point. *)
Definition esc_cp (cp : Z) : bytes :=
  if cp =? chr "\" then bytes_of "\\"
  else if cp =? 34 then [chr "\"; 34]
  else if cp =? chr "/" then bytes_of "\/"
  else if cp =? 8 then bytes_of "\b"
  else if cp =? 12 then bytes_of "\f"
  else if cp =? 10 then bytes_of "\n"
  else if cp =? 13 then bytes_of "\r"
  else if cp =? 9 then bytes_of "\t"
  else if cp <? 128 then [cp]
  else u16_text cp.

Lemma until_eof_runs {A} (f g : A -> bytes) step xs fuel str st :
  (forall x, x ∈ xs -> forall r st, is_at st (f x ++ r) ->
     runs step st (fun t st' => t = g x /\ is_at st' r)) ->
  (forall st, is_at st [] -> exists st', step st = (Throw ios_failure, st') /\ is_eofbit st' = true) ->
  (length xs < fuel)%nat -> is_at st (concat (f <$> xs)) ->
  (until_eof fuel step str st).1 = Ok (str ++ concat (g <$> xs)).
Proof.
  intros Hstep Hend. revert fuel str st. induction xs as [|x xs IH]; intros [|fuel] str st Hf Hat;
    simpl in *; try lia.
  - destruct (Hend st Hat) as (st' & -> & ->). by rewrite app_nil_r.
  - destruct (Hstep x (list_elem_of_here _ _) _ _ Hat) as (t & st' & -> & -> & Hat').
    rewrite IH; [by rewrite <- app_assoc| |lia|done]. intros y Hy. apply Hstep. by apply list_elem_of_further.
Qed.

Lemma concat_length_ge {A} (f : A -> bytes) xs :
  (forall x, f x <> []) -> (length xs <= length (concat (f <$> xs)))%nat.
Proof.
  intros Hf. induction xs as [|x xs IH]; simpl; [lia|]. rewrite length_app.
  specialize (Hf x). unfold fmap in IH. destruct (f x); [done|]. simpl in *. lia.
Qed.

Lemma lead_negative base d : 128 <= base + d < 256 -> lead base d = base + d - 256.
Proof.
  intros Hd. unfold lead, wrapS. change (2 ^ (8 - 1)) with 128. change (2 ^ 8) with 256.
  rewrite (Z.mod_eq _ 256) by lia.
  assert ((base + d + 128) / 256 = 1) as -> by (symmetry; apply (Z.div_unique _ _ 1 (base + d - 128)); lia). lia.
Qed.

Lemma utf8_spec_head cp : 128 <= cp <= 0x10FFFF ->
  exists c w, utf8_spec cp = c :: w /\ -64 <= c < 0.
Proof.
  intros Hcp. unfold utf8_spec. destruct (Z.ltb_spec cp 0x80); [lia|].
  destruct (Z.ltb_spec cp 0x800).
  { do 2 eexists. split; [done|]. pose proof (div_bounds cp 64 32). rewrite lead_negative; lia. }
  destruct (Z.ltb_spec cp 0x10000).
  { do 2 eexists. split; [done|]. pose proof (div_bounds cp 4096 16). rewrite lead_negative; lia. }
  do 2 eexists. split; [done|]. pose proof (div_bounds cp 262144 8). rewrite lead_negative; lia.
Qed.

Lemma utf8_spec_nonempty cp : utf8_spec cp <> [].
Proof. unfold utf8_spec. by repeat destruct (_ <? _). Qed.

Lemma esc_cp_nonempty cp : esc_cp cp <> [].
Proof.
  unfold esc_cp. repeat (destruct (_ =? _); [done|]). destruct (_ <? _); [done|].
  unfold u16_text. by destruct (_ <? _).
Qed.

Lemma escape_step_ok cp r st : 0 <= cp <= 0x10FFFF -> is_at st (utf8_spec cp ++ r) ->
  runs escape_step st (fun t st' => t = esc_cp cp /\ is_at st' r).
Proof.
  intros Hcp Hat. unfold escape_step. apply runs_step.
  destruct (Z.ltb_spec cp 128) as [Hlt|Hge].
  - unfold utf8_spec in Hat. destruct (Z.ltb_spec cp 128); [|lia].
    destruct (is_get_at _ _ _ Hat) as (st1 & E & Hat1 & _). exists cp, st1. split; [done|].
    unfold esc_cp. assert (uchar cp = cp) as Hu by (apply wrapU_id; simpl; lia). rewrite Hu.
    destruct (Z.ltb_spec cp 128); [|lia].
    repeat (destruct (_ =? _); [by apply runs_ret|]). by apply runs_ret.
  - destruct (utf8_spec_head cp) as (c & w & E & Hc); [lia|]. pose proof Hat as Hat0. rewrite E in Hat0.
    simpl in Hat0. destruct (is_get_at _ _ _ Hat0) as (st1 & E1 & Hat1 & Hp). exists c, st1. split; [done|].
    destruct (is_putback_at st1 c (is_prev st) (w ++ r) Hat1 Hp) as (st2 & E2 & Hat2 & _).
    unfold esc_cp. simpl_chr. repeat match goal with
      | |- context [c =? ?k] => destruct (Z.eqb_spec c k); [lia|]
      | |- context [cp =? ?k] => destruct (Z.eqb_spec cp k); [lia|] end.
    assert (128 <= uchar c) as Hu.
    { unfold wrapU. replace (c mod 2 ^ 8) with (c + 256); [lia|].
      apply (Z.mod_unique _ _ (-1)); lia. }
    destruct (Z.ltb_spec (uchar c) 128); [lia|]. destruct (Z.leb_spec 128 (uchar c)); [|lia].
    destruct (Z.ltb_spec cp 128); [lia|]. apply runs_step. exists tt, st2. split; [done|].
    apply utf16_encode_ok; [done|]. by rewrite E.
Qed.

Lemma unescape_step_ok cp r st : scalar cp -> is_at st (esc_cp cp ++ r) ->
  runs unescape_step st (fun t st' => t = utf8_spec cp /\ is_at st' r).
Proof.
  intros Hcp Hat. pose proof Hcp as [Hrange _]. unfold unescape_step. apply runs_step. unfold esc_cp in Hat.
  assert (forall k e, is_at st ([chr "\"; k] ++ r) -> escape_char k = Some e -> utf8_spec cp = [e] ->
    runs is_get st (fun a s' => runs (if a =? chr "\" then
      let! c := is_get in match escape_char c with
      | Some e => ret [e]
      | None => if c =? chr "u" then is_putback (chr "u");; is_putback (chr "\");; utf16_decode
                else throw (invalid_argument (bytes_of "invalid escape sequence")) end
      else ret [a]) s' (fun t st' => t = utf8_spec cp /\ is_at st' r))) as Hesc.
  { intros k e Hk Hek Hu. destruct (is_get_at _ _ _ Hk) as (st1 & E1 & Hat1 & _).
    exists (chr "\"), st1. split; [done|]. rewrite Z.eqb_refl. apply runs_step.
    destruct (is_get_at _ _ _ Hat1) as (st2 & E2 & Hat2 & _). exists k, st2. split; [done|].
    rewrite Hek. by apply runs_ret. }
  destruct (Z.eqb_spec cp (chr "\")) as [->|]; [eapply Hesc; [exact Hat|reflexivity|reflexivity]|].
  destruct (Z.eqb_spec cp 34) as [->|]; [eapply Hesc; [exact Hat|reflexivity|reflexivity]|].
  destruct (Z.eqb_spec cp (chr "/")) as [->|]; [eapply Hesc; [exact Hat|reflexivity|reflexivity]|].
  destruct (Z.eqb_spec cp 8) as [->|]; [eapply Hesc; [exact Hat|reflexivity|reflexivity]|].
  destruct (Z.eqb_spec cp 12) as [->|]; [eapply Hesc; [exact Hat|reflexivity|reflexivity]|].
  destruct (Z.eqb_spec cp 10) as [->|]; [eapply Hesc; [exact Hat|reflexivity|reflexivity]|].
  destruct (Z.eqb_spec cp 13) as [->|]; [eapply Hesc; [exact Hat|reflexivity|reflexivity]|].
  destruct (Z.eqb_spec cp 9) as [->|]; [eapply Hesc; [exact Hat|reflexivity|reflexivity]|]. clear Hesc.
  destruct (Z.ltb_spec cp 128).
  - destruct (is_get_at _ _ _ Hat) as (st1 & E1 & Hat1 & _). exists cp, st1. split; [done|].
    destruct (Z.eqb_spec cp (chr "\")); [done|]. apply runs_ret. unfold utf8_spec.
    by destruct (Z.ltb_spec cp 128); [|lia].
  - assert (exists w, u16_text cp = chr "\" :: chr "u" :: w) as [w Ew].
    { unfold u16_text. destruct (_ <? _); by eexists. }
    pose proof Hat as Hat0. rewrite Ew in Hat0. simpl in Hat0.
    destruct (is_get_at _ _ _ Hat0) as (st1 & E1 & Hat1 & P1). exists (chr "\"), st1. split; [done|].
    rewrite Z.eqb_refl. apply runs_step.
    destruct (is_get_at _ _ _ Hat1) as (st2 & E2 & Hat2 & P2). exists (chr "u"), st2. split; [done|].
    change (escape_char (chr "u")) with (@None Z). cbv iota. rewrite Z.eqb_refl. apply runs_step.
    destruct (is_putback_at _ _ _ _ Hat2 P2) as (st3 & E3 & Hat3 & P3). exists tt, st3. split; [done|].
    apply runs_step. rewrite P1 in P3.
    destruct (is_putback_at _ _ _ _ Hat3 P3) as (st4 & E4 & Hat4 & P4). exists tt, st4. split; [done|].
    apply utf16_decode_ok; [done|]. by rewrite Ew.
Qed.

Lemma step_end (step : M exn istream bytes) k st : step = bind is_get k -> is_at st [] ->
  exists st', step st = (Throw ios_failure, st') /\ is_eofbit st' = true.
Proof.
  intros -> Hat. destruct (is_get_end st Hat) as (st' & E & He). exists st'. unfold bind. by rewrite E.
Qed.

Lemma string_escape_utf8 cps : Forall (fun cp => 0 <= cp <= 0x10FFFF) cps ->
  string_escape (utf8 cps) = Ok (concat (esc_cp <$> cps)).
Proof.
  intros Hcps. unfold string_escape. rewrite (until_eof_runs utf8_spec esc_cp _ cps).
  - done.
  - intros cp Hin r st. apply escape_step_ok. rewrite Forall_forall in Hcps. by apply Hcps.
  - intros st. by eapply step_end.
  - apply Nat.lt_succ_r, concat_length_ge, utf8_spec_nonempty.
  - apply istringstream_at.
Qed.

Lemma string_unescape_esc cps : Forall scalar cps ->
  string_unescape (concat (esc_cp <$> cps)) = Ok (utf8 cps).
Proof.
  intros Hcps. unfold string_unescape. rewrite (until_eof_runs esc_cp utf8_spec _ cps).
  - done.
  - intros cp Hin r st. apply unescape_step_ok. rewrite Forall_forall in Hcps. by apply Hcps.
  - intros st. by eapply step_end.
  - apply Nat.lt_succ_r, concat_length_ge, esc_cp_nonempty.
  - apply istringstream_at.
Qed.

(** A string without backslashes is its own un-escaped form. *)
Lemma string_unescape_plain s : chr "\" ∉ s -> string_unescape s = Ok s.
Proof.
  intros Hs. assert (forall s : bytes, concat ((fun c => [c]) <$> s) = s) as Hid.
  { clear. induction s as [|c s IH]; simpl; [done|]. f_equal. apply IH. }
  unfold string_unescape. rewrite (until_eof_runs (fun c => [c]) (fun c => [c]) _ s).
  - cbn [app]. by rewrite Hid.
  - intros c Hin r st Hat. unfold unescape_step. apply runs_step.
    destruct (is_get_at _ _ _ Hat) as (st1 & E1 & Hat1 & _). exists c, st1. split; [done|].
    destruct (Z.eqb_spec c (chr "\")) as [->|]; [done|]. by apply runs_ret.
  - intros st. by eapply step_end.
  - lia.
  - rewrite Hid. apply istringstream_at.
Qed.

End Misc.
