(* ===== verification/JsonReal.v ===== *)
(** * libjson: real numbers

    [double] values are the binary64 data of [SpecFloat]; [std::stold] reads an
    80-bit [long double] (64-bit significand) and the lexer converts it to
    [double], so that a decimal is rounded twice; [operator<<] prints with
    [%g] and a precision of 6. *)
From Stdlib Require Import Floats.SpecFloat.
From S2P Require Import Prelude Effects Numbers JsonStream.

Definition double : Type := spec_float.

(** ** Reading *)

(** [m * 10 ^ e] rounded to nearest even in the format [(prec, emax)]. *)
Definition round_decimal (prec emax : Z) (neg : bool) (m e : Z) : spec_float :=
  match m with
  | Zpos m =>
      if 0 <=? e then binary_round prec emax neg (m * Z.to_pos (10 ^ e)) 0
      else
        let '(mz, ez, lz) := SFdiv_core_binary prec emax (Zpos m) 0 (10 ^ (- e)) 0 in
        binary_round_aux prec emax neg mz ez lz
  | _ => S754_zero neg
  end.

(** Whether [m1 * 2 ^ e1 = m2 * 10 ^ e2]. *)
Definition same_magnitude (m1 e1 m2 e2 : Z) : bool :=
  m1 * 2 ^ (Z.max 0 e1) * 10 ^ (Z.max 0 (- e2)) =? m2 * 10 ^ (Z.max 0 e2) * 2 ^ (Z.max 0 (- e1)).

(** [strtold] reports [ERANGE] on an overflow, and on an inexact result below
    the normal range. *)
Definition long_double_range_error (m e : Z) (r : spec_float) : bool :=
  match r with
  | S754_infinity _ => true
  | S754_zero _ => negb (m =? 0)
  | S754_finite _ mf ef => (Zpos mf <? 2 ^ 63) && negb (same_magnitude (Zpos mf) ef m e)
  | S754_nan => false
  end.

(** The decimal parts of [-?digits(.digits)?([eE][+-]?digits)?]. *)
Definition split_decimal (s : bytes) : bool * Z * Z :=
  let '(neg, s) := match s with
    | c :: s' => if c =? chr "-" then (true, s') else (false, s)
    | [] => (false, [])
    end in
  let ip := take_while is_digit10 s in
  let s := skip_while is_digit10 s in
  let '(fp, s) := match s with
    | c :: s' => if c =? chr "." then (take_while is_digit10 s', skip_while is_digit10 s') else ([], s)
    | [] => ([], [])
    end in
  let e := match s with
    | c :: s' => if (c =? chr "e") || (c =? chr "E") then
                   match scan_int s' with Some (e, _) => e | None => 0 end
                 else 0
    | [] => 0
    end in
  (neg, value_of 10 ((fun c => c - chr "0") <$> ip ++ fp), e - zlen fp).

(** [static_cast<double>(std::stold(s))] on the decimal text of a number. *)
Definition stold_double (s : bytes) : res exn double :=
  let '(neg, m, e) := split_decimal s in
  let r := round_decimal 64 16384 neg m e in
  if long_double_range_error m e r then Throw (out_of_range (bytes_of "stold"))
  else match r with
       | S754_finite sg mf ef => Ok (binary_round 53 1024 sg mf ef)
       | r => Ok r
       end.

(** ** Printing *)

(** [n / d] rounded to the nearest integer, ties to even. *)
Definition div_round (n d : Z) : Z :=
  let q := n / d in
  let r := n mod d in
  if 2 * r <? d then q else if d <? 2 * r then q + 1 else if Z.even q then q else q + 1.

(** The decimal exponent of [n / d > 0]. *)
Definition decimal_exponent (n d : Z) : Z :=
  if d <=? n then zlen (digits 10 (n / d)) - 1
  else - zlen (digits 10 ((d - 1) / n)).

(** The six significant digits of [n / d] and their decimal exponent. *)
Definition six_digits (n d : Z) : Z * Z :=
  let x := decimal_exponent n d in
  let q := div_round (n * 10 ^ (Z.max 0 (5 - x))) (d * 10 ^ (Z.max 0 (x - 5))) in
  if q =? 10 ^ 6 then (10 ^ 5, x + 1) else (q, x).

Definition strip_zeros (s : bytes) : bytes := rev (skip_while (fun c => c =? chr "0") (rev s)).

Definition with_fraction (ip fp : bytes) : bytes :=
  match strip_zeros fp with
  | [] => ip
  | fp => ip ++ [chr "."] ++ fp
  end.

(** The magnitude [n / d > 0] in the style of [%g]. *)
Definition print_magnitude (n d : Z) : bytes :=
  let '(q, x) := six_digits n d in
  let ds := print_uint 10 q in
  if (x <? 6) && (-4 <=? x) then
    if 0 <=? x then with_fraction (take (Z.to_nat (x + 1)) ds) (drop (Z.to_nat (x + 1)) ds)
    else with_fraction (bytes_of "0") (replicate (Z.to_nat (- x - 1)) (chr "0") ++ ds)
  else
    with_fraction (take 1 ds) (drop 1 ds) ++ [chr "e"; if x <? 0 then chr "-" else chr "+"] ++
    pad_left 2 (chr "0") (print_uint 10 (Z.abs x)).

(** [oss << std::defaultfloat << d].  [SpecFloat] has one NaN, printed without
    a sign. *)
Definition print_double (d : double) : bytes :=
  match d with
  | S754_zero neg => (if neg then [chr "-"] else []) ++ bytes_of "0"
  | S754_infinity neg => (if neg then [chr "-"] else []) ++ bytes_of "inf"
  | S754_nan => bytes_of "nan"
  | S754_finite neg m e =>
      (if neg then [chr "-"] else []) ++
      print_magnitude (Zpos m * 2 ^ (Z.max 0 e)) (2 ^ (Z.max 0 (- e)))
  end.

(** ** Tests on known conversions *)
Example print_reads : (fun s => match stold_double (bytes_of s) with
    | Ok d => print_double d | _ => [] end) <$>
    ["3.14"; "-0.5"; "1e10"; "123456.789"; "999999.5"; "0.0001"; "0.00001234567"; "1.5e300"; "2.50";
     "0.1e-2"; "1e-5"; "12345678.9"]%string =
  bytes_of <$> ["3.14"; "-0.5"; "1e+10"; "123457"; "1e+06"; "0.0001"; "1.23457e-05"; "1.5e+300"; "2.5";
     "0.001"; "1e-05"; "1.23457e+07"]%string.
Proof. vm_compute. reflexivity. Qed.
