(* ===== verification/JsonValue.v ===== *)
(** * libjson: values, objects and arrays
    (libjson/include/json.h, libjson/src/json.cpp) *)
From S2P Require Import Prelude Effects Numbers JsonStream JsonUtf JsonMisc JsonReal.
Import Misc.

Module Json.

(** ** The data *)

(** [value::T] *)
Inductive T : Type :=
  | T_NULL | T_BOOLEAN | T_INTEGER | T_REAL | T_STRING | T_OBJECT | T_ARRAY.

#[export] Instance T_eq_dec : EqDecision T.
Proof. solve_decision. Defined.

(** A value owns its string, object or array, so that a copy is deep and a value
    is a tree.  An object is a [std::map<std::string, value>]: an association
    list sorted by [std::string]'s order.  [V_MOVED t] is what [value::move]
    leaves behind: the tag [t] over a null pointer. *)
Inductive value : Type :=
  | V_NULL
  | V_BOOLEAN (b : bool)
  | V_INTEGER (i : Z)
  | V_REAL (d : double)
  | V_STRING (s : bytes)
  | V_OBJECT (o : list (bytes * value))
  | V_ARRAY (a : list value)
  | V_MOVED (t : T).

Abbreviation object := (list (bytes * value)).
Abbreviation array := (list value).

Definition m_type (v : value) : T :=
  match v with
  | V_NULL => T_NULL
  | V_BOOLEAN _ => T_BOOLEAN
  | V_INTEGER _ => T_INTEGER
  | V_REAL _ => T_REAL
  | V_STRING _ => T_STRING
  | V_OBJECT _ => T_OBJECT
  | V_ARRAY _ => T_ARRAY
  | V_MOVED t => t
  end.

Definition is_null (v : value) : bool := bool_decide (m_type v = T_NULL).
Definition is_boolean (v : value) : bool := bool_decide (m_type v = T_BOOLEAN).
Definition is_integer (v : value) : bool := bool_decide (m_type v = T_INTEGER).
Definition is_real (v : value) : bool := bool_decide (m_type v = T_REAL).
Definition is_string (v : value) : bool := bool_decide (m_type v = T_STRING).
Definition is_object (v : value) : bool := bool_decide (m_type v = T_OBJECT).
Definition is_array (v : value) : bool := bool_decide (m_type v = T_ARRAY).

(** ** [std::map<std::string, value>] *)

(** [std::string::compare], as a strict order: characters as unsigned. *)
Fixpoint str_lt (a b : bytes) : bool :=
  match a, b with
  | _, [] => false
  | [], _ => true
  | x :: a, y :: b => if uchar x =? uchar y then str_lt a b else uchar x <? uchar y
  end.

Fixpoint map_find {A} (k : bytes) (o : list (bytes * A)) : option A :=
  match o with
  | [] => None
  | (k', v) :: o => if bool_decide (k = k') then Some v else map_find k o
  end.

(** [insert]: an existing key keeps its value. *)
Fixpoint map_insert {A} (k : bytes) (v : A) (o : list (bytes * A)) : list (bytes * A) :=
  match o with
  | [] => [(k, v)]
  | (k', v') :: o' =>
      if bool_decide (k = k') then o
      else if str_lt k k' then (k, v) :: o
      else (k', v') :: map_insert k v o'
  end.

(** [o[k] = v] *)
Fixpoint map_assign {A} (k : bytes) (v : A) (o : list (bytes * A)) : list (bytes * A) :=
  match o with
  | [] => [(k, v)]
  | (k', v') :: o' =>
      if bool_decide (k = k') then (k', v) :: o'
      else if str_lt k k' then (k, v) :: o
      else (k', v') :: map_assign k v o'
  end.

(** ** Objects *)
Definition object_add (key : bytes) (val : value) (o : object) : res exn object :=
  let? k := string_unescape key in Ok (map_insert k val o).

Definition object_add_pair (kvpair : bytes * value) (o : object) : object :=
  map_insert kvpair.1 kvpair.2 o.

Definition object_contains (key : bytes) (o : object) : res exn bool :=
  let? k := string_unescape key in
  Ok (match map_find k o with Some _ => true | None => false end).

Definition object_get (key : bytes) (o : object) : res exn value :=
  let? k := string_unescape key in
  match map_find k o with
  | None => Throw (out_of_range (bytes_of "key " ++ key ++ bytes_of " not found in JSON object!"))
  | Some v => Ok v
  end.

Definition object_get_default (key : bytes) (default_value : value) (o : object) : res exn value :=
  let? k := string_unescape key in
  match map_find k o with
  | None => Ok default_value
  | Some v => Ok v
  end.

(** ** Values *)
Definition invalid_type {A} : res exn A := Throw (logic_error (bytes_of "invalid JSON value type!")).

Definition get_boolean (v : value) : res exn bool :=
  if is_boolean v then match v with V_BOOLEAN b => Ok b | _ => Ub end else invalid_type.
Definition get_integer (v : value) : res exn Z :=
  if is_integer v then match v with V_INTEGER i => Ok i | _ => Ub end else invalid_type.
Definition get_real (v : value) : res exn double :=
  if is_real v then match v with V_REAL d => Ok d | _ => Ub end else invalid_type.
Definition get_string (v : value) : res exn bytes :=
  if is_string v then match v with V_STRING s => Ok s | _ => Ub end else invalid_type.
Definition get_object (v : value) : res exn object :=
  if is_object v then match v with V_OBJECT o => Ok o | _ => Ub end else invalid_type.
Definition get_array (v : value) : res exn array :=
  if is_array v then match v with V_ARRAY a => Ok a | _ => Ub end else invalid_type.

(** The typed accessors of an object share this shape. *)
Definition object_get_typed {A} (is_type : value -> bool) (get : value -> res exn A)
    (key : bytes) (default_value : A) (o : object) : res exn A :=
  let? k := string_unescape key in
  match map_find k o with
  | Some v => if is_type v then get v else Ok default_value
  | None => Ok default_value
  end.
Definition object_get_boolean := object_get_typed is_boolean get_boolean.
Definition object_get_integer := object_get_typed is_integer get_integer.
Definition object_get_real := object_get_typed is_real get_real.
Definition object_get_string := object_get_typed is_string get_string.

(** ** Arrays *)
Definition array_add (elem : value) (a : array) : array := a ++ [elem].

(** The index is a [size_t]; [index >= 0] holds of every one. *)
Definition array_valid (index : Z) (a : array) : bool := (0 <=? index) && (index <? zlen a).

Definition array_get (index : Z) (a : array) : res exn value :=
  if array_valid index a then
    match zget a index with Some v => Ok v | None => Ub end
  else
    Throw (out_of_range (bytes_of "index " ++ print_int index ++
                         bytes_of " is out of range in JSON array!")).

Definition array_get_default (index : Z) (default_value : value) (a : array) : res exn value :=
  if array_valid index a then
    match zget a index with Some v => Ok v | None => Ub end
  else Ok default_value.

(** ** Construction and assignment *)

(** The constructors and assignments from a string un-escape it. *)
Definition value_of_string (s : bytes) : res exn value :=
  let? s := string_unescape s in Ok (V_STRING s).
(** The constructor from a C string; [None] is the null pointer. *)
Definition value_of_cstring (s : option bytes) : res exn value :=
  match s with
  | None => Ok V_NULL
  | Some s => value_of_string s
  end.
Definition value_of_integral (i : Z) : value := V_INTEGER (int64 i).

(** No null pointer inside. *)
Fixpoint live (v : value) : bool :=
  match v with
  | V_OBJECT o => forallb (fun kv => live kv.2) o
  | V_ARRAY a => forallb live a
  | V_MOVED _ => false
  | _ => true
  end.

Definition clean (v : value) : value := V_NULL.

(** [value::copy]: the new value of [*this].  Copying a string, object or array
    dereferences its pointer, at every level. *)
Definition copy (v : value) : res exn value :=
  match v with
  | V_MOVED T_STRING | V_MOVED T_OBJECT | V_MOVED T_ARRAY => Ub
  | V_OBJECT _ | V_ARRAY _ => if live v then Ok v else Ub
  | _ => Ok v
  end.

(** [value::move]: the new values of [*this] and of [v]. *)
Definition move (v : value) : value * value :=
  match v with
  | V_STRING _ => (v, V_MOVED T_STRING)
  | V_OBJECT _ => (v, V_MOVED T_OBJECT)
  | V_ARRAY _ => (v, V_MOVED T_ARRAY)
  | _ => (v, v)
  end.

(** [v = w] and [v = std::move(w)] for distinct objects. *)
Definition assign (v w : value) : res exn value := copy w.
Definition assign_move (v w : value) : value * value := move w.

(** The other assignments, which clean [v] first: what it held does not
    matter.  An object or an array that is moved from is empty afterwards. *)
Definition assign_null (v : value) : value := clean v.
Definition assign_boolean (b : bool) (v : value) : value := V_BOOLEAN b.
Definition assign_integral (i : Z) (v : value) : value := value_of_integral i.
Definition assign_real (r : double) (v : value) : value := V_REAL r.
Definition assign_string (s : bytes) (v : value) : res exn value := value_of_string s.
Definition assign_object (o : object) (v : value) : res exn value := copy (V_OBJECT o).
Definition assign_object_move (o : object) (v : value) : value * object := (V_OBJECT o, []).
Definition assign_array (a : array) (v : value) : res exn value := copy (V_ARRAY a).
Definition assign_array_move (a : array) (v : value) : value * array := (V_ARRAY a, []).

(** [v[key]]: [v] afterwards and the element the reference denotes.  The key
    is not un-escaped here. *)
Definition op_index_key (key : bytes) (v : value) : res exn (value * value) :=
  let? o := (if negb (is_object v) then Ok [] else get_object v) in
  match map_find key o with
  | Some e => Ok (V_OBJECT o, e)
  | None => Ok (V_OBJECT (map_insert key V_NULL o), V_NULL)
  end.

(** [v[key] = x] *)
Definition op_index_key_assign (key : bytes) (x v : value) : res exn value :=
  let? (v, _) := op_index_key key v in
  let? o := get_object v in
  let? x := copy x in
  Ok (V_OBJECT (map_assign key x o)).

(** [v[index]]: [std::vector::operator[]] does not check its index. *)
Definition op_index (index : Z) (v : value) : res exn (value * value) :=
  let? a := (if negb (is_array v) then Ok [] else get_array v) in
  match zget a index with
  | Some e => Ok (V_ARRAY a, e)
  | None => Ub
  end.

(** ** Text *)
Definition newline (indent : nat) : bytes := 10 :: replicate indent (chr " ").

(** The items of a container between its brackets; [first] holds of the first
    one. *)
Fixpoint items_str (pretty : bool) (indent : nat) (first : bool) (items : list bytes) : bytes :=
  match items with
  | [] => []
  | i :: items =>
      (if first then [] else [chr ","]) ++
      (if pretty then newline (indent + 2) else [chr " "]) ++ i ++
      items_str pretty indent false items
  end.

Definition container_str (pretty : bool) (indent : nat) (l r : Z) (items : list bytes) : bytes :=
  [l] ++ items_str pretty indent true items ++
  (if pretty then newline indent else [chr " "]) ++ [r].

Fixpoint res_map {A B} (f : A -> res exn B) (l : list A) : res exn (list B) :=
  match l with
  | [] => Ok []
  | x :: l => let? y := f x in let? l := res_map f l in Ok (y :: l)
  end.

Fixpoint value_str (pretty : bool) (indent : nat) (v : value) : res exn bytes :=
  match v with
  | V_NULL => Ok (bytes_of "null")
  | V_BOOLEAN b => Ok (bytes_of (if b then "true" else "false"))
  | V_INTEGER i => Ok (print_int i)
  | V_REAL d => Ok (print_double d)
  | V_STRING s => let? s := string_escape s in Ok ([34] ++ s ++ [34])
  | V_OBJECT o =>
      let? items := res_map (fun kv : bytes * value =>
        let? k := string_escape kv.1 in
        let? s := value_str pretty (indent + 2) kv.2 in
        Ok ([34] ++ k ++ [34] ++ bytes_of " : " ++ s)) o in
      Ok (container_str pretty indent (chr "{") (chr "}") items)
  | V_ARRAY a =>
      let? items := res_map (value_str pretty (indent + 2)) a in
      Ok (container_str pretty indent (chr "[") (chr "]") items)
  | V_MOVED T_STRING | V_MOVED T_OBJECT | V_MOVED T_ARRAY => Ub
  | V_MOVED _ => Ok []
  end.

Definition member_str (pretty : bool) (indent : nat) (kvpair : bytes * value) : res exn bytes :=
  let? k := string_escape kvpair.1 in
  let? s := value_str pretty indent kvpair.2 in
  Ok ([34] ++ k ++ [34] ++ bytes_of " : " ++ s).

Definition object_str (pretty : bool) (indent : nat) (o : object) : res exn bytes :=
  let? items := res_map (member_str pretty (indent + 2)) o in
  Ok (container_str pretty indent (chr "{") (chr "}") items).

Definition array_str (pretty : bool) (indent : nat) (a : array) : res exn bytes :=
  let? items := res_map (value_str pretty (indent + 2)) a in
  Ok (container_str pretty indent (chr "[") (chr "]") items).

Lemma value_str_object pretty indent o : value_str pretty indent (V_OBJECT o) = object_str pretty indent o.
Proof. reflexivity. Qed.

Lemma value_str_array pretty indent a : value_str pretty indent (V_ARRAY a) = array_str pretty indent a.
Proof. reflexivity. Qed.

End Json.
