(* ===== verification/JsonLexer.v ===== *)
(** * libjson: the lexical analyzer
    (libjson/include/lexer.h, libjson/src/lexer.cpp) *)
From S2P Require Import Prelude Effects Numbers JsonStream JsonUtf JsonMisc JsonReal JsonValue.
Import Utf Misc Json.

Module Lexer.

(** ** The code *)
Inductive kind : Type :=
  | k_none | k_lcb | k_rcb | k_lb | k_rb | k_colon | k_comma | k_null | k_true | k_false
  | k_integer | k_real | k_string | k_eof.

#[export] Instance kind_eq_dec : EqDecision kind.
Proof. solve_decision. Defined.

Record token := mkToken { t_kind : kind; t_value : value }.

Record lexer := mkLexer {
  m_is : istream;
  m_row : Z;
  m_col : Z;
  m_lastrowcol : Z;
  m_token : token }.

(** [lexer(std::istream &)] *)
Definition lexer_init (st : istream) : lexer :=
  {| m_is := st; m_row := 1; m_col := 0; m_lastrowcol := 0;
     m_token := {| t_kind := k_none; t_value := V_NULL |} |}.

Abbreviation L := (M exn lexer).

Definition set_is (st : istream) (lx : lexer) : lexer :=
  {| m_is := st; m_row := m_row lx; m_col := m_col lx; m_lastrowcol := m_lastrowcol lx;
     m_token := m_token lx |}.

(** An operation on [m_is]. *)
Definition on_is {A} (m : M exn istream A) : L A := focus m_is set_is m.

Definition set_pos (row col last : Z) (lx : lexer) : lexer :=
  {| m_is := m_is lx; m_row := row; m_col := col; m_lastrowcol := last; m_token := m_token lx |}.

Definition set_token (k : kind) (v : value) : L unit := modify (fun lx =>
  {| m_is := m_is lx; m_row := m_row lx; m_col := m_col lx; m_lastrowcol := m_lastrowcol lx;
     m_token := {| t_kind := k; t_value := v |} |}).

Definition set_kind (k : kind) : L unit := fun lx => set_token k (t_value (m_token lx)) lx.

Definition parse_error {A} (msg : bytes) : L A := fun lx =>
  (Throw (parsing_error msg (m_row lx) (m_col lx)), lx).

Definition getc : L Z :=
  let! c := on_is is_get in
  modify (fun lx =>
    if c =? 10 then set_pos (m_row lx + 1) 0 (m_col lx) lx
    else set_pos (m_row lx) (m_col lx + 1) (m_lastrowcol lx) lx);;
  ret c.

Definition ungetc (c : Z) : L unit :=
  on_is (is_putback c);;
  modify (fun lx =>
    if c =? 10 then set_pos (m_row lx - 1) (m_lastrowcol lx) 0 lx
    else set_pos (m_row lx) (m_col lx - 1) (m_lastrowcol lx) lx).

(** A keyword: [m_is.get(buf, n)] and [strncmp]. *)
Definition get_keyword (word : bytes) (k : kind) (v : option value) : L unit :=
  let! buf := on_is (is_getn (S (length word))) in
  if bool_decide (buf = word) then
    set_kind k;;
    match v with Some v => set_token k v | None => ret tt end
  else parse_error (bytes_of "expected " ++ word ++ bytes_of ", found " ++
                    take_while (fun c => negb (c =? 0)) buf).

Definition get_null : L unit := get_keyword (bytes_of "null") k_null None.
Definition get_true : L unit := get_keyword (bytes_of "true") k_true (Some (V_BOOLEAN true)).
Definition get_false : L unit := get_keyword (bytes_of "false") k_false (Some (V_BOOLEAN false)).

(** Runs a loop with enough fuel for the rest of the input. *)
Definition with_fuel {A} (f : nat -> L A) : L A := fun lx => f (S (S (rest_len (m_is lx)))) lx.

(** [while (digit(c = getc())) nstr += c;]: [nstr] and the last [c]. *)
Fixpoint read_digits (fuel : nat) (nstr : bytes) : L (bytes * Z) :=
  match fuel with
  | O => diverge
  | S fuel =>
      let! c := getc in
      if digit c then read_digits fuel (nstr ++ [c]) else ret (nstr, c)
  end.

(** [while ((c = getc()) == '0') ;] *)
Fixpoint skip_zeroes (fuel : nat) : L Z :=
  match fuel with
  | O => diverge
  | S fuel =>
      let! c := getc in
      if c =? chr "0" then skip_zeroes fuel else ret c
  end.

(** [std::stoll] *)
Definition stoll (s : bytes) : res exn Z :=
  match scan_int s with
  | None => Throw (invalid_argument (bytes_of "stoll"))
  | Some (v, _) =>
      if (- 2 ^ 63 <=? v) && (v <? 2 ^ 63) then Ok v else Throw (out_of_range (bytes_of "stoll"))
  end.

(** The fraction, after the decimal point. *)
Definition get_fraction (nstr : bytes) : L (bytes * Z) :=
  let! c := getc in
  if digit c then with_fuel (fun n => read_digits n (nstr ++ [c]))
  else parse_error (bytes_of "no digit after decimal point found").

(** The exponent, after the letter. *)
Definition get_exponent (nstr : bytes) : L (bytes * Z) :=
  let! c := getc in
  let! (nstr, c) :=
    (if (c =? chr "+") || (c =? chr "-") then let! c' := getc in ret (nstr ++ [c], c')
     else ret (nstr, c)) in
  let! (no_exp_value, nstr) :=
    (if c =? chr "0" then
       let! c := with_fuel skip_zeroes in
       ungetc c;;
       ret (true, nstr)
     else if digit1_9 c then ret (false, nstr ++ [c])
     else parse_error (bytes_of "unexpected character found")) in
  let! (nstr', c) := with_fuel (fun n => read_digits n nstr) in
  let no_exp_value := no_exp_value && bool_decide (nstr' = nstr) in
  if no_exp_value then parse_error (bytes_of "no exponent value found")
  else ret (nstr', c).

Definition get_number : L unit :=
  let! c := getc in
  let! (nstr, c) :=
    (if c =? chr "-" then let! c' := getc in ret ([c], c') else ret ([], c)) in
  let! nstr :=
    (if c =? chr "0" then
       let! c' := getc in
       if negb (c' =? chr ".") then
         parse_error (bytes_of "expected decimal point not found")
       else ungetc c';; ret (nstr ++ [c])
     else if digit1_9 c then ret (nstr ++ [c])
     else parse_error (bytes_of "unexpected character found")) in
  let! (nstr, c) := with_fuel (fun n => read_digits n nstr) in
  let dot := c =? chr "." in
  let! (nstr, c) := (if dot then get_fraction (nstr ++ [c]) else ret (nstr, c)) in
  let exp := (c =? chr "e") || (c =? chr "E") in
  let! (nstr, c) := (if exp then get_exponent (nstr ++ [c]) else ret (nstr, c)) in
  ungetc c;;
  if dot || exp then
    set_kind k_real;;
    let! d := lift (stold_double nstr) in
    set_token k_real (V_REAL d)
  else
    set_kind k_integer;;
    let! i := lift (stoll nstr) in
    set_token k_integer (V_INTEGER i).

Fixpoint get_string_loop (fuel : nat) (str : bytes) : L unit :=
  match fuel with
  | O => diverge
  | S fuel =>
      let! c := getc in
      if c =? chr "\" then
        let! c := getc in
        match escape_char c with
        | Some e => get_string_loop fuel (str ++ [e])
        | None =>
            if c =? chr "u" then
              ungetc (chr "u");;
              ungetc (chr "\");;
              let! w := on_is utf16_decode in
              get_string_loop fuel (str ++ w)
            else parse_error (bytes_of "invalid escape sequence")
        end
      else if c =? 34 then
        set_kind k_string;;
        let! v := lift (value_of_string str) in
        set_token k_string v
      else get_string_loop fuel (str ++ [c])
  end.

Definition get_string : L unit := with_fuel (fun n => get_string_loop n []).

(** One round of the loop of [lexer::get]: whether to go on. *)
Definition get_round : L bool :=
  let! c := getc in
  if space c then ret true
  else
    (if c =? chr "{" then set_kind k_lcb
     else if c =? chr "}" then set_kind k_rcb
     else if c =? chr "[" then set_kind k_lb
     else if c =? chr "]" then set_kind k_rb
     else if c =? chr ":" then set_kind k_colon
     else if c =? chr "," then set_kind k_comma
     else if c =? chr "n" then ungetc c;; get_null
     else if c =? chr "t" then ungetc c;; get_true
     else if c =? chr "f" then ungetc c;; get_false
     else if (c =? chr "-") || digit c then ungetc c;; get_number
     else if c =? 34 then get_string
     else parse_error (bytes_of "unexpected character found"));;
    ret false.

Fixpoint get_rounds (fuel : nat) : L unit :=
  match fuel with
  | O => diverge
  | S fuel => let! again := get_round in if again then get_rounds fuel else ret tt
  end.

Definition get : L token :=
  set_token k_none V_NULL;;
  catch (with_fuel get_rounds) (fun e =>
    match e with
    | ios_failure => fun lx =>
        if is_eofbit (m_is lx) then set_kind k_eof lx else throw ios_failure lx
    | e => throw e
    end);;
  gets m_token.

End Lexer.
