(* ===== verification/JsonParser.v ===== *)
(** * libjson: the parser (libjson/src/parser.cpp) *)
From S2P Require Import Prelude Effects Numbers JsonStream JsonUtf JsonMisc JsonReal JsonValue JsonLexer.
Import Utf Misc Json Lexer.

Module Parser.

(** ** The code

    The loops of [parse_array] and [parse_object] from their test on, with the
    array or object built so far; [parse_array] and [parse_object] call each
    other and themselves through [get]. *)
Fixpoint array_loop (fuel : nat) (t : token) (arr : array) : L value :=
  match fuel with
  | O => diverge
  | S fuel =>
      if bool_decide (t_kind t = k_eof) then ret (V_ARRAY arr)
      else
        let! elem :=
          match t_kind t with
          | k_null | k_true | k_false | k_integer | k_real | k_string => lift (copy (t_value t))
          | k_lcb => let! t := get in object_loop fuel t []
          | k_lb => let! t := get in array_loop fuel t []
          | _ => parse_error (bytes_of "array element expected")
          end in
        let arr := array_add elem arr in
        let! t := get in
        if bool_decide (t_kind t = k_rb) then ret (V_ARRAY arr)
        else if negb (bool_decide (t_kind t = k_comma)) then parse_error (bytes_of ", or ] expected")
        else
          let! t := get in
          array_loop fuel t arr
  end
with object_loop (fuel : nat) (t : token) (obj : object) : L value :=
  match fuel with
  | O => diverge
  | S fuel =>
      if bool_decide (t_kind t = k_eof) then ret (V_OBJECT obj)
      else if negb (bool_decide (t_kind t = k_string)) then parse_error (bytes_of "string expected")
      else
        let! key := lift (Json.get_string (t_value t)) in
        let! t := get in
        if negb (bool_decide (t_kind t = k_colon)) then parse_error (bytes_of "colon expected")
        else
          let! t := get in
          let! val :=
            match t_kind t with
            | k_null | k_true | k_false | k_integer | k_real | k_string => lift (copy (t_value t))
            | k_lcb => let! t := get in object_loop fuel t []
            | k_lb => let! t := get in array_loop fuel t []
            | _ => parse_error (bytes_of "object member value expected")
            end in
          let! obj := lift (object_add key val obj) in
          let! t := get in
          if bool_decide (t_kind t = k_rcb) then ret (V_OBJECT obj)
          else if negb (bool_decide (t_kind t = k_comma)) then parse_error (bytes_of ", or } expected")
          else
            let! t := get in
            object_loop fuel t obj
  end.

Definition parse_array (fuel : nat) : L value := let! t := get in array_loop fuel t [].
Definition parse_object (fuel : nat) : L value := let! t := get in object_loop fuel t [].

Definition parse : L value :=
  let! t := get in
  if bool_decide (t_kind t = k_lcb) then with_fuel parse_object
  else if bool_decide (t_kind t = k_lb) then with_fuel parse_array
  else parse_error (bytes_of "only object and array are allowed as the top level JSON!").

(** [from_stream]: the value, and the stream afterwards. *)
Definition from_stream : M exn istream value := fun st =>
  let '(r, lx) := parse (lexer_init st) in (r, m_is lx).

Definition from_string (s : bytes) : res exn value := (from_stream (istringstream s)).1.

(** [from_file]: [read_file] is the file system; a file that cannot be opened
    has no content. *)
Definition from_file (read_file : bytes -> option bytes) (f : bytes) : res exn value :=
  match read_file f with
  | None => Throw ios_failure
  | Some s => (from_stream (istringstream s)).1
  end.

(** ** Termination *)

(** The characters left; none once the end of the input was met. *)
Definition rl (lx : lexer) : nat := rest_len (m_is lx).
Definition left_ (lx : lexer) : nat := if is_eofbit (m_is lx) then O else S (rl lx).

Lemma total_focus {A} (m : M exn istream A) lx (P : A -> lexer -> Prop) :
  total m (m_is lx) (fun a st => P a (set_is st lx)) -> total (on_is m) lx P.
Proof. unfold total, on_is, focus. by destruct (m (m_is lx)) as [[] ?]. Qed.

Lemma total_modify {E S} (f : S -> S) s (P : unit -> S -> Prop) : P tt (f s) -> total (E:=E) (modify f) s P.
Proof. done. Qed.

Lemma total_catch {E S A} (m : M E S A) h s (P : A -> S -> Prop) :
  total m s P -> (forall e s', total (h e) s' P) -> total (catch m h) s P.
Proof. unfold total at 1, catch. intros Hm Hh. unfold total. destruct (m s) as [[a|e| |] s']; auto. apply Hh. Qed.

Lemma total_lift {E S A} (r : res E A) s (P : A -> S -> Prop) :
  r <> Diverge -> (forall a, P a s) -> total (lift r) s P.
Proof. intros Hr HP. unfold total, lift. by destruct r. Qed.

Lemma total_set_token k v lx (P : unit -> lexer -> Prop) :
  (forall lx', rl lx' = rl lx -> m_token lx' = mkToken k v -> is_eofbit (m_is lx') = is_eofbit (m_is lx) -> P tt lx') ->
  total (set_token k v) lx P.
Proof. intros HP. by apply HP. Qed.

Lemma getc_total lx : total getc lx (fun _ lx' => S (rl lx') = rl lx).
Proof.
  apply total_bind, total_focus. eapply total_impl; [apply is_get_total|]. intros c st (_ & Hr & _).
  apply total_bind, total_modify. apply total_ret. unfold rl, rest_len.
  destruct (c =? 10); simpl; by rewrite Hr.
Qed.

Lemma ungetc_total c lx : total (ungetc c) lx (fun _ lx' => rl lx' = S (rl lx)).
Proof.
  apply total_bind, total_focus. unfold is_putback. apply total_bind. apply total_modify.
  unfold total. destruct (is_good _); [|exact I]. simpl. destruct (is_prev _) as [|d p]; [exact I|].
  destruct (c =? d); [|exact I]. simpl. by destruct (c =? 10).
Qed.

Ltac tstep lem := apply total_bind; eapply total_impl; [apply lem|]; cbv beta.
Ltac tdone lem := eapply total_impl; [apply lem|]; cbv beta.

Lemma is_getn_total n st : total (is_getn n) st (fun _ st' => rest_len st' < rest_len st)%nat.
Proof.
  unfold total, is_getn. destruct (is_good st); [|exact I]. unfold is_move, bind, modify.
  destruct (take_line (n - 1) (is_rest st)) as [|c buf] eqn:E; [simpl; by rewrite orb_true_r|].
  destruct (is_rest st) as [|c' r] eqn:Hr; [by destruct (n - 1)%nat|]. simpl.
  destruct (drop (length buf) r) as [|d r'] eqn:Hd; [exact I|]. unfold ret, rest_len. simpl.
  rewrite Hr. simpl. pose proof (length_drop r (length buf)) as Hl. rewrite Hd in Hl. simpl in Hl. lia.
Qed.

Lemma get_keyword_total word k v lx :
  total (get_keyword word k v) lx (fun _ lx' => rl lx' < rl lx)%nat.
Proof.
  unfold get_keyword. apply total_bind, total_focus. tdone is_getn_total. intros buf st Hst.
  case_bool_decide; [|exact I]. apply total_bind, total_set_token. intros lx' Hrl _ _.
  unfold rl in *. simpl in Hrl.
  destruct v; [apply total_set_token; intros lx2 Hrl2 _ _; unfold rl in *; lia|apply total_ret; lia].
Qed.

Lemma read_digits_total fuel nstr lx : (rl lx < fuel)%nat ->
  total (read_digits fuel nstr) lx (fun _ lx' => rl lx' < rl lx)%nat.
Proof.
  revert nstr lx. induction fuel as [|fuel IH]; intros nstr lx Hf; [lia|]. simpl.
  tstep getc_total. intros c lx1 H1. destruct (digit c); [|apply total_ret; lia].
  eapply total_impl; [apply IH; lia|]. simpl. lia.
Qed.

Lemma skip_zeroes_total fuel lx : (rl lx < fuel)%nat ->
  total (skip_zeroes fuel) lx (fun _ lx' => rl lx' < rl lx)%nat.
Proof.
  revert lx. induction fuel as [|fuel IH]; intros lx Hf; [lia|]. simpl.
  tstep getc_total. intros c lx1 H1. destruct (_ =? _); [|apply total_ret; lia].
  eapply total_impl; [apply IH; lia|]. simpl. lia.
Qed.

Lemma total_with_fuel {A} (f : nat -> L A) lx P :
  (forall n, (S (rl lx) < n)%nat -> total (f n) lx P) -> total (with_fuel f) lx P.
Proof. intros Hf. unfold total, with_fuel. apply Hf. unfold rl. lia. Qed.

Lemma get_fraction_total nstr lx : total (get_fraction nstr) lx (fun _ lx' => rl lx' + 2 <= rl lx)%nat.
Proof.
  unfold get_fraction. tstep getc_total. intros c lx1 H1. destruct (digit c); [|exact I].
  apply total_with_fuel. intros n Hn. eapply total_impl; [apply read_digits_total; lia|]. simpl. lia.
Qed.

Lemma get_exponent_total nstr lx : total (get_exponent nstr) lx (fun _ lx' => rl lx' < rl lx)%nat.
Proof.
  unfold get_exponent. tstep getc_total. intros c lx1 H1. apply total_bind.
  assert (total (if (c =? chr "+") || (c =? chr "-") then let! c' := getc in ret (nstr ++ [c], c')
     else ret (nstr, c)) lx1 (fun _ lx2 => rl lx2 <= rl lx1)%nat) as Hsign.
  { destruct (_ || _); [tstep getc_total; intros c' lx2 H2|]; apply total_ret; lia. }
  eapply total_impl; [exact Hsign|]. intros [nstr2 c2] lx2 H2. apply total_bind.
  assert (total (if c2 =? chr "0" then let! c := with_fuel skip_zeroes in ungetc c;; ret (true, nstr2)
     else if digit1_9 c2 then ret (false, nstr2 ++ [c2])
     else parse_error (bytes_of "unexpected character found")) lx2 (fun _ lx3 => rl lx3 <= rl lx2)%nat) as Hz.
  { destruct (c2 =? chr "0").
    - apply total_bind, total_with_fuel. intros n Hn.
      eapply total_impl; [apply skip_zeroes_total; lia|]. intros c3 lx3 H3.
      tstep ungetc_total. intros ? lx4 H4. apply total_ret. simpl in *. lia.
    - destruct (digit1_9 c2); [apply total_ret; lia|exact I]. }
  eapply total_impl; [exact Hz|]. intros [no_exp nstr3] lx3 H3. apply total_bind, total_with_fuel. intros n Hn.
  eapply total_impl; [apply read_digits_total; lia|]. intros [nstr4 c4] lx4 H4. cbv zeta beta iota.
  destruct (_ && _); [exact I|apply total_ret; simpl in *; lia].
Qed.

Lemma stold_returns s : stold_double s <> Diverge.
Proof.
  unfold stold_double. destruct (split_decimal s) as [[neg m] e].
  destruct (long_double_range_error _ _ _); [done|]. by destruct (round_decimal _ _ _ _ _).
Qed.

Lemma stoll_returns s : stoll s <> Diverge.
Proof. unfold stoll. destruct (scan_int s) as [[v ?]|]; [|done]. by destruct (_ && _). Qed.

Lemma value_of_string_returns s : value_of_string s <> Diverge.
Proof.
  unfold value_of_string. pose proof (string_unescape_returns s). by destruct (string_unescape s).
Qed.

Lemma get_number_total lx : total get_number lx (fun _ lx' => rl lx' < rl lx)%nat.
Proof.
  unfold get_number. tstep getc_total. intros c lx1 H1. apply total_bind.
  assert (total (if c =? chr "-" then let! c' := getc in ret ([c], c') else ret ([], c)) lx1
    (fun _ lx2 => rl lx2 <= rl lx1)%nat) as Hsign.
  { destruct (c =? chr "-"); [tstep getc_total; intros c' lx2 H2|]; apply total_ret; lia. }
  eapply total_impl; [exact Hsign|]. intros [nstr2 c2] lx2 H2. apply total_bind.
  assert (total (if c2 =? chr "0" then
       let! c' := getc in
       if negb (c' =? chr ".") then parse_error (bytes_of "expected decimal point not found")
       else ungetc c';; ret (nstr2 ++ [c2])
     else if digit1_9 c2 then ret (nstr2 ++ [c2])
     else parse_error (bytes_of "unexpected character found")) lx2 (fun _ lx3 => rl lx3 <= rl lx2)%nat) as Hz.
  { destruct (c2 =? chr "0").
    - tstep getc_total. intros c3 lx3 H3. destruct (c3 =? chr "."); [|exact I].
      tstep ungetc_total. intros ? lx4 H4. apply total_ret. lia.
    - destruct (digit1_9 c2); [apply total_ret; lia|exact I]. }
  eapply total_impl; [exact Hz|]. intros nstr3 lx3 H3. apply total_bind, total_with_fuel. intros n Hn.
  eapply total_impl; [apply read_digits_total; lia|]. intros [nstr4 c4] lx4 H4. cbv zeta beta iota.
  apply total_bind.
  assert (total (if c4 =? chr "." then get_fraction (nstr4 ++ [c4]) else ret (nstr4, c4)) lx4
    (fun _ lx5 => rl lx5 <= rl lx4)%nat) as Hfr.
  { destruct (c4 =? chr "."); [tdone get_fraction_total; simpl; lia|apply total_ret; lia]. }
  eapply total_impl; [exact Hfr|]. intros [nstr5 c5] lx5 H5. cbv zeta beta iota. apply total_bind.
  assert (total (if (c5 =? chr "e") || (c5 =? chr "E") then get_exponent (nstr5 ++ [c5]) else ret (nstr5, c5)) lx5
    (fun _ lx6 => rl lx6 <= rl lx5)%nat) as Hex.
  { destruct ((c5 =? chr "e") || (c5 =? chr "E")); [tdone get_exponent_total; simpl; lia|apply total_ret; lia]. }
  eapply total_impl; [exact Hex|]. intros [nstr6 c6] lx6 H6. cbv zeta beta iota.
  tstep ungetc_total. intros ? lx7 H7.
  destruct ((c4 =? chr ".") || ((c5 =? chr "e") || (c5 =? chr "E")));
    apply total_bind, total_set_token; intros lx8 H8 _ _; apply total_bind, total_lift;
    try apply stold_returns; try apply stoll_returns; intros v; apply total_set_token; intros lx9 H9 _ _;
    simpl in *; lia.
Qed.

Lemma get_string_loop_total fuel str lx : (rl lx < fuel)%nat ->
  total (get_string_loop fuel str) lx (fun _ lx' => rl lx' < rl lx)%nat.
Proof.
  revert str lx. induction fuel as [|fuel IH]; intros str lx Hf; [lia|]. simpl.
  tstep getc_total. intros c lx1 H1. destruct (c =? chr "\").
  - tstep getc_total. intros c2 lx2 H2. destruct (escape_char c2).
    { eapply total_impl; [apply IH; lia|]. simpl. lia. }
    destruct (c2 =? chr "u"); [|exact I]. tstep ungetc_total. intros ? lx3 H3. tstep ungetc_total.
    intros ? lx4 H4. apply total_bind, total_focus. tdone utf16_decode_total. intros w st Hst.
    eapply total_impl; [apply IH|]; unfold rl in *; simpl in *; intros; lia.
  - destruct (c =? 34); [|eapply total_impl; [apply IH; lia|]; simpl; lia].
    apply total_bind, total_set_token. intros lx2 H2 _ _. apply total_bind, total_lift; [apply value_of_string_returns|].
    intros v. apply total_set_token. intros lx3 H3 _ _. lia.
Qed.

Lemma get_round_total lx : total get_round lx (fun _ lx' => rl lx' < rl lx)%nat.
Proof.
  unfold get_round. tstep getc_total. intros c lx1 H1. destruct (space c); [apply total_ret; lia|].
  apply total_bind. eapply total_impl with (P := fun _ lx' => (rl lx' < rl lx)%nat); [|by intros; apply total_ret].
  assert (forall k, total (set_kind k) lx1 (fun _ lx' => rl lx' < rl lx)%nat) as Hk.
  { intros k. apply total_set_token. intros. lia. }
  assert (forall m : L unit, (forall lx2, total m lx2 (fun _ lx' => rl lx' < rl lx2)%nat) ->
    total (ungetc c;; m) lx1 (fun _ lx' => rl lx' < rl lx)%nat) as Hu.
  { intros m Hm. tstep ungetc_total. intros ? lx2 H2. eapply total_impl; [apply Hm|]. simpl. lia. }
  do 6 (destruct (c =? _); [apply Hk|]).
  destruct (c =? chr "n"); [apply Hu; intros; apply get_keyword_total|].
  destruct (c =? chr "t"); [apply Hu; intros; apply get_keyword_total|].
  destruct (c =? chr "f"); [apply Hu; intros; apply get_keyword_total|].
  destruct ((c =? chr "-") || digit c); [apply Hu; intros; apply get_number_total|].
  destruct (c =? 34); [|exact I]. apply total_with_fuel. intros n Hn.
  eapply total_impl; [apply get_string_loop_total; lia|]. simpl. lia.
Qed.

Lemma get_rounds_total fuel lx : (rl lx < fuel)%nat ->
  total (get_rounds fuel) lx (fun _ lx' => rl lx' < rl lx)%nat.
Proof.
  revert lx. induction fuel as [|fuel IH]; intros lx Hf; [lia|]. simpl.
  tstep get_round_total. intros [|] lx1 H1; [|by apply total_ret].
  eapply total_impl; [apply IH; lia|]. simpl. lia.
Qed.

(** After the end of the input was met, [get] returns [k_eof] again. *)
Lemma get_at_eof lx : is_eofbit (m_is lx) = true ->
  exists lx', get lx = (Ok (mkToken k_eof V_NULL), lx') /\ left_ lx' = O.
Proof.
  intros He. destruct lx as [[prev r e f b] row col last t]. simpl in He. subst e.
  unfold get, set_token, modify, bind at 1, bind at 1, with_fuel. simpl rest_len.
  unfold catch. simpl. eexists. split; [reflexivity|]. done.
Qed.

Lemma get_total lx : total get lx (fun t lx' =>
  (t_kind t = k_eof /\ left_ lx' = O) \/ (left_ lx' < left_ lx)%nat).
Proof.
  destruct (is_eofbit (m_is lx)) eqn:He.
  { destruct (get_at_eof lx He) as (lx' & E & Hl). unfold total. rewrite E. by left. }
  unfold get. apply total_bind, total_set_token. intros lx1 H1 _ He1.
  apply total_bind. unfold catch, total.
  pose proof (total_with_fuel get_rounds lx1 _ (fun n Hn => get_rounds_total n lx1 ltac:(lia))) as Hr.
  unfold total in Hr. destruct (with_fuel get_rounds lx1) as [[a|e| |] lx2]; try done.
  - right. unfold left_. rewrite He. destruct (is_eofbit (m_is lx2)); lia.
  - destruct e; try exact I. destruct (is_eofbit (m_is lx2)) eqn:He2; [|exact I].
    left. split; [done|]. unfold left_. simpl. by rewrite He2.
Qed.

(** ** The parser terminates *)
Definition enough (fuel : nat) (t : token) (lx : lexer) : Prop :=
  (1 <= fuel /\ t_kind t = k_eof /\ left_ lx = O)%nat \/ (left_ lx + 2 <= fuel)%nat.

Lemma copy_returns v : copy v <> Diverge.
Proof. destruct v; simpl; try done; [by destruct (forallb _ _)..|by destruct t]. Qed.

Lemma object_add_returns k v o : object_add k v o <> Diverge.
Proof. unfold object_add. pose proof (string_unescape_returns k). by destruct (string_unescape k). Qed.

Lemma get_string_returns v : Json.get_string v <> Diverge.
Proof. unfold Json.get_string. destruct (is_string v); [by destruct v|done]. Qed.

(** What the element of a container needs of the two loops. *)
Section element.
Context (fuel : nat)
  (IHa : forall t arr lx, enough fuel t lx -> total (array_loop fuel t arr) lx (fun _ lx' => left_ lx' <= left_ lx)%nat)
  (IHo : forall t obj lx, enough fuel t lx -> total (object_loop fuel t obj) lx (fun _ lx' => left_ lx' <= left_ lx)%nat).

Lemma nested_total (loop : token -> L value) lx :
  (forall t lx, enough fuel t lx -> total (loop t) lx (fun _ lx' => left_ lx' <= left_ lx)%nat) ->
  (left_ lx + 1 <= fuel)%nat ->
  total (let! t := get in loop t) lx (fun _ lx' => left_ lx' <= left_ lx)%nat.
Proof.
  intros Hloop Hf. tstep get_total. intros t lx1 H1.
  eapply total_impl; [apply Hloop|].
  - destruct H1 as [[? ?]|?]; [left; split_and!; [lia|done|done]|right; lia].
  - simpl. destruct H1 as [[? ?]|?]; lia.
Qed.

Lemma element_total (msg : bytes) t lx : (left_ lx + 1 <= fuel)%nat ->
  total (match t_kind t with
         | k_null | k_true | k_false | k_integer | k_real | k_string => lift (copy (t_value t))
         | k_lcb => let! t := get in object_loop fuel t []
         | k_lb => let! t := get in array_loop fuel t []
         | _ => parse_error msg
         end) lx (fun _ lx' => left_ lx' <= left_ lx)%nat.
Proof.
  intros Hf. destruct (t_kind t); try exact I; try (apply total_lift; [apply copy_returns|done]);
    apply nested_total; auto.
Qed.
End element.

Lemma loops_total fuel :
  (forall t arr lx, enough fuel t lx -> total (array_loop fuel t arr) lx (fun _ lx' => left_ lx' <= left_ lx)%nat) /\
  (forall t obj lx, enough fuel t lx -> total (object_loop fuel t obj) lx (fun _ lx' => left_ lx' <= left_ lx)%nat).
Proof.
  induction fuel as [|fuel [IHa IHo]]; split; intros t ? lx Hen; try (destruct Hen; lia); simpl;
    (case_bool_decide as Heof; [apply total_ret; lia|destruct Hen as [(_ & ? & _)|Hen]; [done|]]).
  - tstep element_total; [done|done|lia|]. intros elem lx1 H1. tstep get_total. intros t2 lx2 H2.
    case_bool_decide; [apply total_ret; lia|]. destruct (bool_decide _); [|exact I].
    tstep get_total. intros t3 lx3 H3. simpl. eapply total_impl; [apply IHa|].
    + destruct H3 as [[? ?]|?]; [left; split_and!; [lia|done|done]|right; lia].
    + simpl. lia.
  - destruct (bool_decide (t_kind t = k_string)); [|exact I].
    apply total_bind, total_lift; [apply get_string_returns|]. intros key. tstep get_total. intros t1 lx1 H1.
    destruct (bool_decide _); [|exact I]. simpl. tstep get_total. intros t2 lx2 H2.
    tstep element_total; [done|done|lia|]. intros val lx3 H3.
    apply total_bind, total_lift; [apply object_add_returns|]. intros obj'. tstep get_total. intros t4 lx4 H4.
    case_bool_decide; [apply total_ret; lia|]. destruct (bool_decide _); [|exact I].
    tstep get_total. intros t5 lx5 H5. simpl. eapply total_impl; [apply IHo|].
    + destruct H5 as [[? ?]|?]; [left; split_and!; [lia|done|done]|right; lia].
    + simpl. lia.
Qed.

Lemma parse_total lx : is_eofbit (m_is lx) = false -> total parse lx (fun _ _ => True).
Proof.
  intros He. unfold parse. tstep get_total. intros t lx1 H1.
  assert (forall n, (S (rl lx1) < n)%nat -> (left_ lx1 + 1 <= n)%nat) as Hn.
  { intros n Hn. unfold left_. destruct (is_eofbit (m_is lx1)); lia. }
  case_bool_decide; [|case_bool_decide; [|exact I]]; apply total_with_fuel; intros n Hlt;
    (eapply total_impl; [apply (nested_total n); [|by apply Hn]|done]);
    intros; by apply loops_total.
Qed.

End Parser.
