(* ===== verification/JsonTokens.v ===== *)
(** * libjson: what the lexical analyzer reads

    One lemma per token: on an input that starts with the text of the token
    (after white space), [lexer::get] returns it and leaves the rest. *)
From S2P Require Import Prelude Effects Numbers JsonStream JsonUtf JsonMisc JsonReal JsonValue JsonLexer.
Import Utf Misc Json Lexer.

Module Tokens.

Definition lat (lx : lexer) (r : bytes) : Prop := is_at (m_is lx) r.

Lemma runs_focus {A} (m : M exn istream A) lx (P : A -> lexer -> Prop) :
  runs m (m_is lx) (fun a st => P a (set_is st lx)) -> runs (on_is m) lx P.
Proof. intros (a & st & E & HP). exists a, (set_is st lx). split; [|done]. unfold on_is, focus. by rewrite E. Qed.

Lemma runs_bind_inv {E S A B} (m : M E S A) (k : A -> M E S B) s Q :
  runs (bind m k) s Q -> exists a s1, m s = (Ok a, s1) /\ runs (k a) s1 Q.
Proof.
  intros (b & s2 & E2 & HQ). unfold bind in E2. destruct (m s) as [[a| | |] s1]; try done.
  exists a, s1. split; [done|]. by exists b, s2.
Qed.

Lemma runs_call {E S A B} (m : M E S A) (k : A -> M E S B) s a s1 Q :
  m s = (Ok a, s1) -> runs (k a) s1 Q -> runs (bind m k) s Q.
Proof. intros E1 Hk. apply runs_step. by exists a, s1. Qed.

Lemma runs_lift {E S A} (a : A) s (P : A -> S -> Prop) : P a s -> runs (E:=E) (lift (Ok a)) s P.
Proof. intros. by exists a, s. Qed.

(** ** Characters *)
Lemma getc_runs lx c r : lat lx (c :: r) ->
  runs getc lx (fun c' lx' => c' = c /\ lat lx' r /\ is_prev (m_is lx') = c :: is_prev (m_is lx) /\
    m_token lx' = m_token lx).
Proof.
  intros Hat. destruct (is_get_at _ _ _ Hat) as (st & E & Hat' & Hp).
  apply runs_step, runs_focus. exists c, st. split; [done|].
  apply runs_step, runs_modify, runs_ret. destruct (c =? 10); done.
Qed.

Lemma ungetc_runs lx c p r : lat lx r -> is_prev (m_is lx) = c :: p ->
  runs (ungetc c) lx (fun _ lx' => lat lx' (c :: r) /\ m_token lx' = m_token lx /\ is_prev (m_is lx') = p).
Proof.
  intros Hat Hp. destruct (is_putback_at _ _ _ _ Hat Hp) as (st & E & Hat' & Hp').
  apply runs_step, runs_focus. exists tt, st. split; [done|].
  apply runs_modify. destruct (c =? 10); done.
Qed.

Ltac step_getc := apply runs_step; eapply runs_impl; [eapply getc_runs; eassumption|];
  let c := fresh "c" in intros c; intros ? (-> & ? & ? & ?).

Lemma set_token_runs k v lx (P : unit -> lexer -> Prop) r :
  lat lx r -> (forall lx', m_token lx' = mkToken k v -> lat lx' r -> P tt lx') -> runs (set_token k v) lx P.
Proof. intros Hat HP. apply runs_modify. by apply HP. Qed.

Lemma set_kind_runs k lx (P : unit -> lexer -> Prop) r :
  lat lx r -> (forall lx', m_token lx' = mkToken k (t_value (m_token lx)) -> lat lx' r -> P tt lx') ->
  runs (set_kind k) lx P.
Proof. intros Hat HP. eexists _, _. split; [reflexivity|]. by apply HP. Qed.

(** Rewrites with what is known of the tokens. *)
Ltac tokens := repeat match goal with H : m_token _ = _ |- _ => rewrite H; clear H end.

(** Evaluates the tests on constant characters. *)
Ltac eval_tests := repeat match goal with
  | |- context [if ?b then _ else _] =>
      let v := eval vm_compute in b in
      lazymatch v with true => idtac | false => idtac end;
      change b with v; cbv iota
  end.

(** ** White space, and the loop of [get] *)
Definition spaces (ws : bytes) : Prop := Forall (fun c => space c = true) ws.

(** [get_round] reads the token [k], [v] from [w]. *)
Definition reads_token (w : bytes) (k : kind) (v : value) (r : bytes) : Prop :=
  forall lx, lat lx (w ++ r) -> m_token lx = mkToken k_none V_NULL ->
    runs get_round lx (fun again lx' => again = false /\ m_token lx' = mkToken k v /\ lat lx' r).

Lemma get_rounds_ok ws w k v r fuel lx :
  spaces ws -> reads_token w k v r -> (length ws < fuel)%nat ->
  lat lx (ws ++ w ++ r) -> m_token lx = mkToken k_none V_NULL ->
  runs (get_rounds fuel) lx (fun _ lx' => m_token lx' = mkToken k v /\ lat lx' r).
Proof.
  intros Hws Hw. revert fuel lx. induction Hws as [|c ws Hc _ IH]; intros [|fuel] lx Hf Hat Htok;
    simpl in Hf; try lia; cbn [get_rounds]; apply runs_step.
  - eapply runs_impl; [by apply Hw|]. intros again lx' (-> & ? & ?). by apply runs_ret.
  - unfold get_round. simpl in Hat. step_getc. rewrite Hc. apply runs_ret. apply IH; [lia|done|congruence].
Qed.

Lemma get_ok ws w k v r lx :
  spaces ws -> reads_token w k v r -> lat lx (ws ++ w ++ r) ->
  runs get lx (fun t lx' => t = mkToken k v /\ lat lx' r).
Proof.
  intros Hws Hw Hat. unfold get. apply runs_step. eapply set_token_runs; [exact Hat|]. intros lx1 Ht Hat1.
  apply runs_step, runs_catch. unfold with_fuel.
  eapply runs_impl.
  - apply (get_rounds_ok ws w k v r); try done. destruct Hat1 as [_ Hr]. unfold rest_len. rewrite Hr, length_app. lia.
  - intros ? lx2 [Ht2 Hat2]. by apply runs_gets.
Qed.

(** ** Punctuation *)
Definition punct (k : kind) : option Z :=
  match k with
  | k_lcb => Some (chr "{") | k_rcb => Some (chr "}") | k_lb => Some (chr "[") | k_rb => Some (chr "]")
  | k_colon => Some (chr ":") | k_comma => Some (chr ",") | _ => None
  end.

Lemma reads_punct k c r : punct k = Some c -> reads_token [c] k V_NULL r.
Proof.
  intros Hk lx Hat Ht. unfold get_round. simpl in Hat. step_getc.
  destruct k; simplify_eq/=; apply runs_step; (eapply set_kind_runs; [eassumption|]); intros lx2 Ht2 Hat2;
    apply runs_ret; (split_and!; [done|by rewrite Ht2; tokens|done]).
Qed.

(** ** Keywords *)
Lemma get_keyword_ok word k v c r lx :
  word <> [] -> 10 ∉ word -> lat lx (word ++ c :: r) -> m_token lx = mkToken k_none V_NULL ->
  runs (get_keyword word k v) lx (fun _ lx' => m_token lx' = mkToken k (default V_NULL v) /\ lat lx' (c :: r)).
Proof.
  intros Hw Hn Hat Ht. unfold get_keyword. apply runs_step, runs_focus.
  destruct (is_getn_at _ _ _ _ Hw Hn Hat) as (st & E & Hat'). exists word, st. split; [done|].
  rewrite bool_decide_eq_true_2 by done. apply runs_step. eapply set_kind_runs; [exact Hat'|].
  intros lx2 Ht2 Hat2. destruct v as [v|].
  - eapply set_token_runs; [exact Hat2|]. intros lx3 Ht3 Hat3. done.
  - apply runs_ret. split; [|done]. rewrite Ht2. simpl. by rewrite Ht.
Qed.

Ltac keyword :=
  intros lx Hat Ht; unfold get_round; pose proof Hat as Hat0; simpl in Hat0; step_getc; eval_tests;
  apply runs_step, runs_step; (eapply runs_impl; [by eapply ungetc_runs|]);
  intros ? lx2 (Hat2 & Ht2 & _); (eapply runs_impl;
    [eapply get_keyword_ok; [done|apply (bool_decide_unpack _); vm_compute; exact I|exact Hat2|congruence]|]);
  intros ? lx3 [? ?]; by apply runs_ret.

Lemma reads_null c r : reads_token (bytes_of "null") k_null V_NULL (c :: r).
Proof. keyword. Qed.

Lemma reads_true c r : reads_token (bytes_of "true") k_true (V_BOOLEAN true) (c :: r).
Proof. keyword. Qed.

Lemma reads_false c r : reads_token (bytes_of "false") k_false (V_BOOLEAN false) (c :: r).
Proof. keyword. Qed.

(** ** Integers *)
Lemma read_digits_ok w c r fuel nstr lx :
  Forall (fun c => digit c = true) w -> digit c = false -> (length w < fuel)%nat -> lat lx (w ++ c :: r) ->
  runs (read_digits fuel nstr) lx (fun nc lx' => nc = (nstr ++ w, c) /\ lat lx' r /\
    (exists p, is_prev (m_is lx') = c :: p) /\ m_token lx' = m_token lx).
Proof.
  intros Hw Hc. revert fuel nstr lx. induction Hw as [|d w Hd _ IH]; intros [|fuel] nstr lx Hf Hat;
    simpl in Hf; try lia; cbn [read_digits]; simpl in Hat; step_getc.
  - rewrite Hc. apply runs_ret. rewrite app_nil_r. split_and!; [done|done|by eexists|done].
  - rewrite Hd. eapply runs_impl; [apply IH; [lia|done]|]. intros nc lx2 (-> & ? & ? & ?).
    rewrite <- app_assoc. split_and!; [done|done|done|congruence].
Qed.

(** Characters that end an integer. *)
Definition ends_number (c : Z) : Prop := digit c = false /\ c <> chr "." /\ c <> chr "e" /\ c <> chr "E".

Lemma get_number_tail nstr w c r lx i :
  Forall (fun c => digit c = true) w -> ends_number c -> stoll (nstr ++ w) = Ok i -> lat lx (w ++ c :: r) ->
  m_token lx = mkToken k_none V_NULL ->
  runs (let! (nstr, c) := with_fuel (fun n => read_digits n nstr) in
    let dot := c =? chr "." in
    let! (nstr, c) := (if dot then get_fraction (nstr ++ [c]) else ret (nstr, c)) in
    let exp := (c =? chr "e") || (c =? chr "E") in
    let! (nstr, c) := (if exp then get_exponent (nstr ++ [c]) else ret (nstr, c)) in
    ungetc c;;
    if dot || exp then
      set_kind k_real;; let! d := lift (stold_double nstr) in set_token k_real (V_REAL d)
    else
      set_kind k_integer;; let! i := lift (stoll nstr) in set_token k_integer (V_INTEGER i)) lx
    (fun _ lx' => m_token lx' = mkToken k_integer (V_INTEGER i) /\ lat lx' (c :: r)).
Proof.
  intros Hw (Hc & Hdot & He & HE) Hi Hat Ht. apply runs_step. unfold with_fuel.
  eapply runs_impl.
  { apply (read_digits_ok w c r); [done|done| |done]. destruct Hat as [_ Hr]. unfold rest_len.
    rewrite Hr, length_app. simpl. lia. }
  intros nc lx1 (-> & Hat1 & [p Hp] & Ht1). cbv zeta beta iota.
  rewrite (proj2 (Z.eqb_neq _ _) Hdot). cbv iota. apply runs_step, runs_ret. cbv beta iota.
  rewrite (proj2 (Z.eqb_neq _ _) He), (proj2 (Z.eqb_neq _ _) HE). cbv beta iota delta [orb].
  apply runs_step, runs_ret. cbv beta iota. apply runs_step.
  eapply runs_impl; [by eapply ungetc_runs|]. intros ? lx2 (Hat2 & Ht2 & _).
  apply runs_step. eapply set_kind_runs; [exact Hat2|]. intros lx3 Ht3 Hat3. rewrite Hi.
  apply runs_step, runs_lift. eapply set_token_runs; [exact Hat3|]. done.
Qed.

Lemma digit_is_digit10 c : digit c = is_digit10 c.
Proof.
  apply eq_true_iff_eq. rewrite digit_spec. unfold is_digit10. change (chr "0") with 48. change (chr "9") with 57.
  rewrite andb_true_iff, !Z.leb_le. lia.
Qed.

(** The text of a positive number: a non-zero digit, then digits. *)
Lemma print_uint_pos n : 0 < n -> exists d w, print_uint 10 n = d :: w /\ digit1_9 d = true /\
  Forall (fun c => digit c = true) w.
Proof.
  intros Hn. destruct (print_uint_digits n ltac:(lia)) as (Hd & _ & _). unfold print_uint in *.
  destruct (digits_head 10 ltac:(lia) n Hn) as (d & ds & E & Hd0). rewrite E in *. simpl in *.
  eexists _, _. split; [reflexivity|]. split.
  - apply digit1_9_spec. rewrite digit_char_10 by lia. lia.
  - inversion_clear Hd as [|? ? _ Hd']. eapply Forall_impl; [exact Hd'|]. intros c. by rewrite digit_is_digit10.
Qed.

Lemma stoll_print_int i : - 2 ^ 63 <= i < 2 ^ 63 -> stoll (print_int i) = Ok i.
Proof.
  intros Hi. unfold stoll. pose proof (scan_print_int i [] I) as E. rewrite app_nil_r in E. rewrite E.
  destruct (Z.leb_spec (- 2 ^ 63) i), (Z.ltb_spec i (2 ^ 63)); try lia. done.
Qed.

Lemma digit1_9_tests c : digit1_9 c = true -> (c =? chr "0") = false /\ (c =? chr "-") = false.
Proof. rewrite digit1_9_spec. simpl_chr. intros. rewrite !Z.eqb_neq. lia. Qed.

(** A round that starts with [-] or a non-zero digit reads a number. *)
Lemma get_round_number c r lx (P : lexer -> Prop) :
  c = 45 \/ 49 <= c <= 57 -> lat lx (c :: r) ->
  (forall lx', lat lx' (c :: r) -> m_token lx' = m_token lx -> runs get_number lx' (fun _ => P)) ->
  runs get_round lx (fun again lx' => again = false /\ P lx').
Proof.
  intros Hc Hat HP. unfold get_round. step_getc.
  assert (space c = false) as ->.
  { unfold space. simpl_chr. rewrite !(proj2 (Z.eqb_neq c _)) by lia. done. }
  assert ((c =? chr "-") || digit c = true) as ->.
  { apply orb_true_iff. rewrite digit_spec. simpl_chr. rewrite Z.eqb_eq. lia. }
  simpl_chr. rewrite !(proj2 (Z.eqb_neq c _)) by lia. cbv iota. apply runs_step, runs_step.
  eapply runs_impl; [by eapply ungetc_runs|]. intros ? lx2 (Hat2 & Ht2 & _).
  eapply runs_impl; [apply HP; [done|congruence]|]. intros ? lx3 H3. by apply runs_ret.
Qed.

Lemma reads_integer i c r : i <> 0 -> - 2 ^ 63 <= i < 2 ^ 63 -> ends_number c ->
  reads_token (print_int i) k_integer (V_INTEGER i) (c :: r).
Proof.
  intros Hi Hrange Hc lx Hat Ht. pose proof (stoll_print_int i Hrange) as Hs.
  unfold print_int in *. destruct (Z.ltb_spec i 0) as [Hneg|Hpos].
  - destruct (print_uint_pos (- i) ltac:(lia)) as (d & w & E & Hd & Hw). rewrite E in *.
    change ((chr "-" :: d :: w) ++ c :: r) with (45 :: (d :: w) ++ c :: r) in Hat.
    eapply get_round_number; [by left|exact Hat|]. intros lx1 Hat1 Ht1.
    unfold get_number. step_getc. eval_tests. apply runs_step. step_getc.
    apply runs_ret. destruct (digit1_9_tests d Hd) as [-> _]. rewrite Hd. apply runs_step, runs_ret.
    apply (get_number_tail _ w); try done. congruence.
  - destruct (print_uint_pos i ltac:(lia)) as (d & w & E & Hd & Hw). rewrite E in *.
    eapply get_round_number; [right; by apply digit1_9_spec|exact Hat|]. intros lx1 Hat1 Ht1.
    unfold get_number. step_getc. destruct (digit1_9_tests d Hd) as [Hz ->]. apply runs_step, runs_ret.
    rewrite Hz, Hd. apply runs_step, runs_ret. apply (get_number_tail _ w); try done. congruence.
Qed.

(** ** Strings *)
Lemma value_of_string_plain s : chr "\" ∉ s -> value_of_string s = Ok (V_STRING s).
Proof. intros Hs. unfold value_of_string. by rewrite string_unescape_plain. Qed.

(** One escaped code point. *)
Lemma string_round cp r fuel str lx P : scalar cp -> lat lx (esc_cp cp ++ r) ->
  (forall lx', lat lx' r -> m_token lx' = m_token lx -> runs (get_string_loop fuel (str ++ utf8_spec cp)) lx' P) ->
  runs (get_string_loop (S fuel) str) lx P.
Proof.
  intros Hcp Hat HP. cbn [get_string_loop]. unfold esc_cp in Hat.
  assert (forall k e, lat lx ([chr "\"; k] ++ r) -> escape_char k = Some e -> utf8_spec cp = [e] ->
    runs (get_string_loop (S fuel) str) lx P) as Hesc.
  { intros k e Hk Hek Hu. cbn [get_string_loop]. simpl in Hk. step_getc. rewrite Z.eqb_refl. step_getc.
    rewrite Hek, <- Hu. apply HP; [done|congruence]. }
  cbn [get_string_loop] in Hesc.
  destruct (Z.eqb_spec cp (chr "\")) as [->|]; [eapply Hesc; [exact Hat|reflexivity|reflexivity]|].
  destruct (Z.eqb_spec cp 34) as [->|]; [eapply Hesc; [exact Hat|reflexivity|reflexivity]|].
  destruct (Z.eqb_spec cp (chr "/")) as [->|]; [eapply Hesc; [exact Hat|reflexivity|reflexivity]|].
  destruct (Z.eqb_spec cp 8) as [->|]; [eapply Hesc; [exact Hat|reflexivity|reflexivity]|].
  destruct (Z.eqb_spec cp 12) as [->|]; [eapply Hesc; [exact Hat|reflexivity|reflexivity]|].
  destruct (Z.eqb_spec cp 10) as [->|]; [eapply Hesc; [exact Hat|reflexivity|reflexivity]|].
  destruct (Z.eqb_spec cp 13) as [->|]; [eapply Hesc; [exact Hat|reflexivity|reflexivity]|].
  destruct (Z.eqb_spec cp 9) as [->|]; [eapply Hesc; [exact Hat|reflexivity|reflexivity]|]. clear Hesc.
  destruct (Z.ltb_spec cp 128).
  - simpl in Hat. step_getc. rewrite !(proj2 (Z.eqb_neq cp _)) by done.
    assert (utf8_spec cp = [cp]) as Hu by (unfold utf8_spec; by destruct (Z.ltb_spec cp 128); [|lia]).
    rewrite <- Hu. apply HP; [done|congruence].
  - assert (exists w, u16_text cp = chr "\" :: chr "u" :: w) as [w Ew].
    { unfold u16_text. destruct (_ <? _); by eexists. }
    pose proof Hat as Hat0. rewrite Ew in Hat0. simpl in Hat0. step_getc. rewrite Z.eqb_refl. step_getc.
    change (escape_char (chr "u")) with (@None Z). cbv iota. rewrite Z.eqb_refl.
    apply runs_step. eapply runs_impl; [by eapply ungetc_runs|]. intros ? lx3 (Hat3 & Ht3 & Hp3).
    apply runs_step. eapply runs_impl; [eapply ungetc_runs; [exact Hat3|]|].
    { rewrite Hp3. eassumption. }
    intros ? lx4 (Hat4 & Ht4 & _). apply runs_step, runs_focus. 
    destruct (utf16_decode_ok cp r (m_is lx4) Hcp) as (t & st & E & -> & Hst); [by rewrite Ew|].
    exists (utf8_spec cp), st. split; [done|]. apply HP; [done|]. simpl. congruence.
Qed.

Lemma get_string_loop_ok cps r fuel str v lx :
  Forall scalar cps -> value_of_string (str ++ utf8 cps) = Ok v ->
  (length cps < fuel)%nat -> lat lx (concat (esc_cp <$> cps) ++ 34 :: r) ->
  runs (get_string_loop fuel str) lx (fun _ lx' => m_token lx' = mkToken k_string v /\ lat lx' r).
Proof.
  intros Hcps. revert fuel str lx. induction Hcps as [|cp cps Hcp _ IH]; intros [|fuel] str lx Hv Hf Hat;
    simpl in Hf; try lia.
  - cbn [get_string_loop]. simpl in Hat. step_getc. eval_tests. apply runs_step.
    eapply set_kind_runs; [eassumption|]. intros lx2 Ht2 Hat2. unfold utf8 in Hv. simpl in Hv.
    rewrite app_nil_r in Hv. rewrite Hv. apply runs_step, runs_lift. by eapply set_token_runs.
  - rewrite fmap_cons in Hat. cbn [concat] in Hat. rewrite <- app_assoc in Hat.
    eapply string_round; [done|exact Hat|]. intros lx1 Hat1 Ht1. apply IH; [|lia|done].
    by rewrite <- app_assoc.
Qed.

(** Strings that survive the second un-escaping. *)
Definition rt_string (s : bytes) : Prop :=
  exists cps, Forall scalar cps /\ (chr "\" ∉ cps) /\ s = utf8 cps.

Lemma utf8_spec_negative cp : 128 <= cp <= 0x10FFFF -> Forall (fun c => c < 0) (utf8_spec cp).
Proof.
  intros Hcp. destruct (utf8_spec_lead cp ltac:(lia)) as (c & ds & E & Hds & _).
  destruct (utf8_spec_head cp Hcp) as (c' & w & E' & Hc'). rewrite E in *. injection E' as E1 _.
  constructor; [lia|]. apply Forall_fmap. eapply Forall_impl; [exact Hds|]. intros d Hd. simpl.
  simpl in Hd. rewrite lead_negative; lia.
Qed.

Lemma rt_string_plain s : rt_string s -> chr "\" ∉ s.
Proof.
  intros (cps & Hcps & Hb & ->). unfold utf8. induction Hcps as [|cp cps [Hr _] _ IH]; simpl; [apply not_elem_of_nil|].
  apply not_elem_of_cons in Hb as [Hne Hb]. rewrite elem_of_app. intros [Hin|Hin]; [|by apply IH].
  destruct (Z.ltb_spec cp 128).
  - unfold utf8_spec in Hin. destruct (Z.ltb_spec cp 128); [|lia]. by apply list_elem_of_singleton in Hin.
  - pose proof (utf8_spec_negative cp ltac:(lia)) as Hn. rewrite Forall_forall in Hn. specialize (Hn _ Hin).
    by simpl_chr.
Qed.

Lemma rt_string_escape s : rt_string s -> exists w, string_escape s = Ok w /\
  forall r, reads_token ([34] ++ w ++ [34]) k_string (V_STRING s) r.
Proof.
  intros Hs. pose proof (rt_string_plain s Hs) as Hp. destruct Hs as (cps & Hcps & _ & ->).
  exists (concat (esc_cp <$> cps)). split.
  - apply string_escape_utf8. eapply Forall_impl; [exact Hcps|]. by intros cp [? _].
  - intros r lx Hat Ht. rewrite <- !app_assoc in Hat. simpl in Hat. unfold get_round. step_getc. eval_tests.
    apply runs_step. unfold get_string, with_fuel. eapply runs_impl.
    + apply (get_string_loop_ok cps r); [done|by apply value_of_string_plain| |done].
      pose proof (concat_length_ge esc_cp cps esc_cp_nonempty).
      match goal with H : lat _ _ |- _ => destruct H as [_ Hr] end. unfold rest_len. rewrite Hr, length_app. lia.
    + intros ? lx2 [? ?]. by apply runs_ret.
Qed.

End Tokens.
