(* ===== verification/JsonRoundTrip.v ===== *)
(** * libjson: parsing what was printed

    [from_string] gives back every value of the fragment [rt] from its text,
    pretty or not; and the parser terminates on every input. *)
From Stdlib Require Import Sorting.Sorted.
From S2P Require Import Prelude Effects Numbers JsonStream JsonUtf JsonMisc JsonReal JsonValue JsonLexer JsonParser JsonTokens.
Import Utf Misc Json Lexer Parser Tokens.

(** ** The values that survive *)

(** The keys of an object, in the order of [std::map]. *)
Definition key_lt (a b : bytes * value) : Prop := str_lt a.1 b.1 = true.

(** Integers other than zero (the lexer refuses [0]), strings of valid UTF-8
    without backslashes (they are un-escaped twice), containers that are not
    empty (the parser refuses [[ ]] and [{ }]), no reals (they are printed with
    six digits). *)
Fixpoint rt (v : value) : Prop :=
  match v with
  | V_NULL | V_BOOLEAN _ => True
  | V_INTEGER i => i <> 0 /\ - 2 ^ 63 <= i < 2 ^ 63
  | V_STRING s => rt_string s
  | V_OBJECT o => o <> [] /\ StronglySorted key_lt o /\
      (fix all (o : list (bytes * value)) : Prop :=
         match o with [] => True | kv :: o => rt_string kv.1 /\ rt kv.2 /\ all o end) o
  | V_ARRAY a => a <> [] /\
      (fix all (a : list value) : Prop := match a with [] => True | v :: a => rt v /\ all a end) a
  | V_REAL _ | V_MOVED _ => False
  end.

Lemma rt_array a : rt (V_ARRAY a) <-> a <> [] /\ Forall rt a.
Proof.
  simpl. apply and_iff_compat_l. induction a as [|v a IH]; [split; [constructor|done]|].
  by rewrite Forall_cons, <- IH.
Qed.

Lemma rt_object o : rt (V_OBJECT o) <->
  o <> [] /\ StronglySorted key_lt o /\ Forall (fun kv => rt_string kv.1 /\ rt kv.2) o.
Proof.
  simpl. do 2 apply and_iff_compat_l. induction o as [|kv o IH]; [split; [constructor|done]|].
  rewrite Forall_cons, <- IH. tauto.
Qed.

(** A value on the way down: [rt], or a container. *)
Lemma rt_live v : rt v -> live v = true.
Proof.
  revert v. fix IH 1. intros [| | | | |o|a|t] Hv; try done.
  - apply rt_object in Hv as (_ & _ & Ho). simpl. induction o as [|kv o IHo]; [done|].
    inversion_clear Ho as [|? ? [_ Hkv]]. simpl. apply andb_true_iff. split; [by apply IH|by apply IHo].
  - apply rt_array in Hv as (_ & Ha). simpl. induction a as [|v a IHa]; [done|].
    inversion_clear Ha as [|? ? Hv Ha']. simpl. apply andb_true_iff. split; [by apply IH|by apply IHa].
Qed.

(** ** The order of keys *)
Lemma str_lt_irrefl a : str_lt a a = false.
Proof. induction a as [|x a IH]; simpl; [done|]. by rewrite Z.eqb_refl. Qed.

Lemma str_lt_asym a b : str_lt a b = true -> str_lt b a = false.
Proof.
  revert b. induction a as [|x a IH]; intros [|y b]; simpl; try done. rewrite (Z.eqb_sym (uchar y)).
  destruct (Z.eqb_spec (uchar x) (uchar y)); [apply IH|]. rewrite Z.ltb_lt, Z.ltb_ge. lia.
Qed.

Lemma map_insert_last {A} k (v : A) o :
  Forall (fun kv => str_lt kv.1 k = true) o -> map_insert k v o = o ++ [(k, v)].
Proof.
  induction 1 as [|[k' v'] o Hk _ IH]; simpl in *; [done|]. case_bool_decide as Heq.
  - subst. by rewrite str_lt_irrefl in Hk.
  - by rewrite (str_lt_asym _ _ Hk), IH.
Qed.

(** ** The element of a container

    The [switch] of the two loops. *)
Definition element (fuel : nat) (msg : bytes) (t : token) : L value :=
  match t_kind t with
  | k_null | k_true | k_false | k_integer | k_real | k_string => lift (copy (t_value t))
  | k_lcb => let! t := get in object_loop fuel t []
  | k_lb => let! t := get in array_loop fuel t []
  | _ => parse_error msg
  end.

Lemma array_loop_S fuel t arr : array_loop (S fuel) t arr =
  if bool_decide (t_kind t = k_eof) then ret (V_ARRAY arr)
  else
    let! elem := element fuel (bytes_of "array element expected") t in
    let! t := get in
    if bool_decide (t_kind t = k_rb) then ret (V_ARRAY (array_add elem arr))
    else if negb (bool_decide (t_kind t = k_comma)) then parse_error (bytes_of ", or ] expected")
    else let! t := get in array_loop fuel t (array_add elem arr).
Proof. reflexivity. Qed.

Lemma object_loop_S fuel t obj : object_loop (S fuel) t obj =
  if bool_decide (t_kind t = k_eof) then ret (V_OBJECT obj)
  else if negb (bool_decide (t_kind t = k_string)) then parse_error (bytes_of "string expected")
  else
    let! key := lift (Json.get_string (t_value t)) in
    let! t := get in
    if negb (bool_decide (t_kind t = k_colon)) then parse_error (bytes_of "colon expected")
    else
      let! t := get in
      let! val := element fuel (bytes_of "object member value expected") t in
      let! obj := lift (object_add key val obj) in
      let! t := get in
      if bool_decide (t_kind t = k_rcb) then ret (V_OBJECT obj)
      else if negb (bool_decide (t_kind t = k_comma)) then parse_error (bytes_of ", or } expected")
      else let! t := get in object_loop fuel t obj.
Proof. reflexivity. Qed.

(** What may follow an element. *)
Definition delim (r : bytes) : Prop := exists c r', r = c :: r' /\ (c = 44 \/ c = 10 \/ c = 32).

Lemma delim_ends r : delim r -> exists c r', r = c :: r' /\ ends_number c.
Proof.
  intros (c & r' & -> & Hc). exists c, r'. split; [done|]. unfold ends_number. simpl_chr. rewrite digit_false. lia.
Qed.

(** The text between the items of a container, as white space. *)
Definition gap (pretty : bool) (indent : nat) : bytes := if pretty then newline indent else [chr " "].

Lemma gap_spaces pretty indent : spaces (gap pretty indent).
Proof.
  unfold gap, newline, spaces. destruct pretty; [|by constructor]. constructor; [done|].
  apply Forall_replicate. done.
Qed.

Lemma gap_delim pretty indent r : delim (gap pretty indent ++ r).
Proof. unfold gap, newline. destruct pretty; eexists _, _; (split; [reflexivity|]); simpl_chr; lia. Qed.

Lemma items_delim pretty indent items r :
  delim (items_str pretty indent false items ++ gap pretty indent ++ r).
Proof.
  destruct items as [|i items]; [apply gap_delim|]. eexists _, _. split; [reflexivity|]. by left.
Qed.

(** An element of text [text] is parsed with any fuel from [n] on. *)
Definition parses (n : nat) (v : value) (text : bytes) : Prop :=
  forall fuel msg r lx ws, (n <= fuel)%nat -> delim r -> spaces ws -> lat lx (ws ++ text ++ r) ->
    exists t lx1, get lx = (Ok t, lx1) /\ runs (element fuel msg t) lx1 (fun v' lx' => v' = v /\ lat lx' r).

(** The scalars. *)
Lemma parses_scalar n v text k :
  (forall r, delim r -> reads_token text k v r) -> copy v = Ok v ->
  (match k with k_null | k_true | k_false | k_integer | k_real | k_string => True | _ => False end) ->
  parses n v text.
Proof.
  intros Htok Hcopy Hk fuel msg r lx ws _ Hr Hws Hat.
  destruct (get_ok ws text k v r lx Hws (Htok r Hr) Hat) as (t & lx1 & E & -> & Hat1).
  exists (mkToken k v), lx1. split; [done|]. unfold element. simpl.
  destruct k; try done; rewrite Hcopy; by apply runs_lift.
Qed.

Lemma element_not_eof fuel msg t lx P : runs (element fuel msg t) lx P -> bool_decide (t_kind t = k_eof) = false.
Proof.
  intros (? & ? & E & _). apply bool_decide_eq_false_2. intros Ht. unfold element in E. by rewrite Ht in E.
Qed.

(** A punctuation mark after white space. *)
Lemma get_punct ws k c r lx : spaces ws -> punct k = Some c -> lat lx (ws ++ c :: r) ->
  runs get lx (fun t lx' => t = mkToken k V_NULL /\ lat lx' r).
Proof. intros Hws Hk. apply (get_ok ws [c]); [done|by apply reads_punct]. Qed.

(** *** Arrays *)
Lemma items_str_cons pretty indent i items :
  items_str pretty indent true (i :: items) = gap pretty (indent + 2) ++ i ++ items_str pretty indent false items.
Proof. reflexivity. Qed.

Lemma items_str_comma pretty indent i items :
  items_str pretty indent false (i :: items) = chr "," :: items_str pretty indent true (i :: items).
Proof. reflexivity. Qed.

Lemma array_loop_ok pretty indent n a : forall texts arr fuel r lx, a <> [] ->
  Forall2 (parses n) a texts -> (n + length a <= fuel)%nat ->
  lat lx (items_str pretty indent true texts ++ gap pretty indent ++ chr "]" :: r) ->
  runs (let! t := get in array_loop fuel t arr) lx (fun v lx' => v = V_ARRAY (arr ++ a) /\ lat lx' r).
Proof.
  induction a as [|v a IH]; intros texts arr [|fuel] r lx Hne Hitems Hf Hat; simpl in Hf; try done; try lia.
  inversion Hitems as [|? text ? texts' Hv Ha]; subst. rewrite items_str_cons, <- !app_assoc in Hat.
  destruct (Hv fuel (bytes_of "array element expected") _ lx _ ltac:(lia) (items_delim _ _ _ _) (gap_spaces _ _) Hat)
    as (t & lx1 & Eg & Hel).
  eapply runs_call; [exact Eg|]. rewrite array_loop_S, (element_not_eof _ _ _ _ _ Hel).
  apply runs_step. eapply runs_impl; [exact Hel|]. intros v' lx2 [-> Hat2]. apply runs_step.
  destruct texts' as [|text' texts'].
  - inversion Ha; subst. simpl in Hat2. eapply runs_impl; [eapply (get_punct _ k_rb); [apply gap_spaces|done|done]|].
    intros t2 lx3 [-> Hat3]. simpl. by apply runs_ret.
  - destruct a as [|v2 a]; [by inversion Ha|]. rewrite items_str_comma in Hat2.
    eapply runs_impl; [eapply (get_punct [] k_comma); [constructor|done|exact Hat2]|].
    intros t2 lx3 [-> Hat3]. eapply runs_impl.
    + apply (IH (text' :: texts') (array_add v arr) fuel r lx3); [done|done|simpl in *; lia|exact Hat3].
    + intros v3 lx4 [-> ?]. split; [|done]. unfold array_add. by rewrite <- app_assoc.
Qed.

(** *** Objects *)

(** The text of a member is the quoted key, a colon and the text of the value. *)
Definition member_parses (n : nat) (kv : bytes * value) (text : bytes) : Prop :=
  exists k w, text = ([34] ++ k ++ [34]) ++ bytes_of " : " ++ w /\ rt_string kv.1 /\
    (forall r, reads_token ([34] ++ k ++ [34]) k_string (V_STRING kv.1) r) /\ parses n kv.2 w.

Lemma StronglySorted_app_last o kv o' :
  StronglySorted key_lt (o ++ kv :: o') -> Forall (fun kv' => str_lt kv'.1 kv.1 = true) o.
Proof.
  induction o as [|kv' o IH]; simpl; [constructor|]. intros Hs. inversion_clear Hs as [|? ? Hs' Hall].
  constructor; [|by apply IH]. apply Forall_app in Hall as [_ Hall]. by inversion Hall.
Qed.

Lemma object_add_last k v o o' :
  rt_string k -> StronglySorted key_lt (o ++ (k, v) :: o') -> object_add k v o = Ok (o ++ [(k, v)]).
Proof.
  intros Hk Hs. unfold object_add. rewrite string_unescape_plain by by apply rt_string_plain. simpl.
  rewrite map_insert_last; [done|]. by apply StronglySorted_app_last in Hs.
Qed.

#[local] Arguments object_add : simpl never.

Lemma object_loop_ok pretty indent n o : forall texts obj fuel r lx, o <> [] ->
  Forall2 (member_parses n) o texts -> StronglySorted key_lt (obj ++ o) -> (n + length o <= fuel)%nat ->
  lat lx (items_str pretty indent true texts ++ gap pretty indent ++ chr "}" :: r) ->
  runs (let! t := get in object_loop fuel t obj) lx (fun v lx' => v = V_OBJECT (obj ++ o) /\ lat lx' r).
Proof.
  induction o as [|[k v] o IH]; intros texts obj [|fuel] r lx Hne Hitems Hs Hf Hat; simpl in Hf; try done; try lia.
  inversion Hitems as [|? text ? texts' Hkv Ho]; subst. destruct Hkv as (kt & w & -> & Hrk & Htok & Hv). cbn [fst snd] in Hrk, Htok, Hv.
  rewrite items_str_cons in Hat.
  assert (lat lx (gap pretty (indent + 2) ++ ([34] ++ kt ++ [34]) ++ bytes_of " : " ++ w ++
    items_str pretty indent false texts' ++ gap pretty indent ++ chr "}" :: r)) as Hat0
    by (rewrite <- !app_assoc in Hat; by rewrite <- !app_assoc).
  destruct (get_ok _ _ _ _ _ lx (gap_spaces _ _) (Htok _) Hat0) as (t & lx1 & Eg & -> & Hat1).
  eapply runs_call; [exact Eg|]. rewrite object_loop_S. simpl. apply runs_step, runs_lift.
  apply runs_step.
  eapply runs_impl; [eapply (get_punct [chr " "] k_colon); [by constructor|done|exact Hat1]|].
  intros t2 lx2 [-> Hat2]. simpl.
  destruct (Hv fuel (bytes_of "object member value expected") _ lx2 [chr " "] ltac:(lia) (items_delim _ _ _ _)
    ltac:(by constructor) Hat2) as (t3 & lx3 & Eg3 & Hel).
  eapply runs_call; [exact Eg3|]. apply runs_step. eapply runs_impl; [exact Hel|].
  intros v' lx4 [-> Hat4]. 
  rewrite (object_add_last k v obj o Hrk Hs). apply runs_step, runs_lift.
  apply runs_step. destruct texts' as [|text' texts'].
  - inversion Ho; subst. simpl in Hat4. eapply runs_impl; [eapply (get_punct _ k_rcb); [apply gap_spaces|done|done]|].
    intros t5 lx5 [-> Hat5]. simpl. by apply runs_ret.
  - destruct o as [|kv2 o]; [by inversion Ho|]. rewrite items_str_comma in Hat4.
    eapply runs_impl; [eapply (get_punct [] k_comma); [constructor|done|exact Hat4]|].
    intros t5 lx5 [-> Hat5]. eapply runs_impl.
    + apply (IH (text' :: texts') (obj ++ [(k, v)]) fuel r lx5); [done|done| |simpl in *; lia|exact Hat5].
      by rewrite <- app_assoc.
    + intros v3 lx6 [-> ?]. by rewrite <- app_assoc.
Qed.

(** ** Values *)
Lemma items_length pretty indent first texts :
  (max_list_with length texts + length texts <= length (items_str pretty indent first texts))%nat.
Proof.
  revert first. induction texts as [|t texts IH]; intros first; simpl; [lia|]. specialize (IH false).
  rewrite !length_app. assert (1 <= length (if pretty then newline (indent + 2) else [chr " "]))%nat
    by (destruct pretty; simpl; lia). lia.
Qed.

Lemma parses_mono n m v text : (n <= m)%nat -> parses n v text -> parses m v text.
Proof. intros Hnm Hp fuel msg r lx ws Hf. apply Hp. lia. Qed.

Lemma container_text pretty indent l r items :
  container_str pretty indent l r items = l :: items_str pretty indent true items ++ gap pretty indent ++ [r].
Proof. reflexivity. Qed.

Lemma res_map_ok {A} (f : A -> res exn bytes) (R : A -> bytes -> Prop) l :
  Forall (fun x => exists t, f x = Ok t /\ R x t) l ->
  exists ts, res_map f l = Ok ts /\ Forall2 R l ts.
Proof.
  induction 1 as [|x l (t & Ht & HR) _ (ts & Hts & HF)]; simpl; [by exists []|].
  rewrite Ht. simpl. rewrite Hts. exists (t :: ts). split; [done|by constructor].
Qed.

(** The text of a value is parsed with as much fuel as it has characters. *)
Definition prints_and_parses (pretty : bool) (v : value) : Prop :=
  forall indent, exists text, value_str pretty indent v = Ok text /\ parses (length text) v text.

Lemma items_parse (A : Type) (R : nat -> A -> bytes -> Prop) (l : list A) ts :
  (forall n m v t, (n <= m)%nat -> R n v t -> R m v t) ->
  Forall2 (fun v t => R (length t) v t) l ts -> Forall2 (R (max_list_with length ts)) l ts.
Proof.
  intros Hmono. induction 1 as [|v t l ts Hv _ IH]; constructor; simpl.
  - eapply Hmono; [|exact Hv]. lia.
  - eapply Forall2_impl; [exact IH|]. intros v' t' Hr. eapply Hmono; [|exact Hr]. simpl. lia.
Qed.

Lemma member_parses_mono n m kv text : (n <= m)%nat -> member_parses n kv text -> member_parses m kv text.
Proof.
  intros Hnm (k & w & ? & ? & ? & Hp). exists k, w. split_and!; try done. by eapply parses_mono.
Qed.

(** The element of a container that is itself a container. *)
Lemma parses_container n v text k c (loop : nat -> token -> L value) :
  punct k = Some c -> 
  (forall fuel msg, element fuel msg (mkToken k V_NULL) = let! t := get in loop fuel t) ->
  (forall fuel r lx, (n <= fuel)%nat -> lat lx (text ++ r) ->
     runs (let! t := get in loop fuel t) lx (fun v' lx' => v' = v /\ lat lx' r)) ->
  parses n v (c :: text).
Proof.
  intros Hk Hel Hloop fuel msg r lx ws Hf _ Hws Hat.
  destruct (get_punct ws k c (text ++ r) lx Hws Hk Hat) as (t & lx1 & E & -> & Hat1).
  exists (mkToken k V_NULL), lx1. split; [done|]. rewrite Hel. by apply Hloop.
Qed.

Lemma array_parses pretty indent a ts :
  a <> [] -> Forall2 (fun v t => parses (length t) v t) a ts ->
  forall fuel r lx, (length (container_str pretty indent (chr "[") (chr "]") ts) <= fuel)%nat ->
    lat lx (items_str pretty indent true ts ++ gap pretty indent ++ chr "]" :: r) ->
    runs (let! t := get in array_loop fuel t []) lx (fun v' lx' => v' = V_ARRAY a /\ lat lx' r).
Proof.
  intros Hne Hts fuel r lx Hf Hat.
  apply (array_loop_ok pretty indent (max_list_with length ts) a ts [] fuel r lx Hne); [|..|done].
  - by apply items_parse; [apply parses_mono|].
  - rewrite (Forall2_length _ _ _ Hts). pose proof (items_length pretty indent true ts).
    rewrite container_text in Hf. simpl in Hf. rewrite length_app in Hf. lia.
Qed.

Lemma object_parses pretty indent o ts :
  o <> [] -> StronglySorted key_lt o -> Forall2 (fun kv t => member_parses (length t) kv t) o ts ->
  forall fuel r lx, (length (container_str pretty indent (chr "{") (chr "}") ts) <= fuel)%nat ->
    lat lx (items_str pretty indent true ts ++ gap pretty indent ++ chr "}" :: r) ->
    runs (let! t := get in object_loop fuel t []) lx (fun v' lx' => v' = V_OBJECT o /\ lat lx' r).
Proof.
  intros Hne Hs Hts fuel r lx Hf Hat.
  apply (object_loop_ok pretty indent (max_list_with length ts) o ts [] fuel r lx Hne); [|done|..|done].
  - by apply items_parse; [apply member_parses_mono|].
  - rewrite (Forall2_length _ _ _ Hts). pose proof (items_length pretty indent true ts).
    rewrite container_text in Hf. simpl in Hf. rewrite length_app in Hf. lia.
Qed.

(** The items of an array and of an object, from their values. *)
Lemma array_items pretty indent a :
  Forall (prints_and_parses pretty) a ->
  exists ts, res_map (value_str pretty indent) a = Ok ts /\ Forall2 (fun v t => parses (length t) v t) a ts.
Proof.
  intros Ha. apply (res_map_ok _ (fun v t => parses (length t) v t)). eapply Forall_impl; [exact Ha|].
  intros v Hv. apply Hv.
Qed.

Lemma object_items pretty indent o :
  Forall (fun kv => rt_string kv.1 /\ prints_and_parses pretty kv.2) o ->
  exists ts, res_map (member_str pretty indent) o = Ok ts /\
    Forall2 (fun kv t => member_parses (length t) kv t) o ts.
Proof.
  intros Ho. apply (res_map_ok _ (fun kv t => member_parses (length t) kv t)). eapply Forall_impl; [exact Ho|].
  intros [k v] [Hk Hv]. simpl in *. destruct (rt_string_escape k Hk) as (kt & E & Htok).
  destruct (Hv indent) as (w & Ew & Hw). unfold member_str. simpl. rewrite E. simpl. rewrite Ew. simpl.
  eexists. split; [reflexivity|]. exists kt, w. split_and!; [|done|done|].
  - simpl. by rewrite <- app_assoc.
  - eapply parses_mono; [|exact Hw]. simpl. rewrite !length_app. simpl. lia.
Qed.

Lemma scalar_prints pretty v text k :
  (forall indent, value_str pretty indent v = Ok text) ->
  (forall r, delim r -> reads_token text k v r) -> copy v = Ok v ->
  (match k with k_null | k_true | k_false | k_integer | k_real | k_string => True | _ => False end) ->
  prints_and_parses pretty v.
Proof. intros Hs Htok Hc Hk indent. exists text. split; [done|]. by eapply parses_scalar. Qed.

Lemma delim_cons (P : bytes -> Prop) : (forall c r, ends_number c -> P (c :: r)) -> forall r, delim r -> P r.
Proof. intros HP r Hr. destruct (delim_ends r Hr) as (c & r' & -> & Hc). by apply HP. Qed.

Lemma value_ok pretty v : rt v -> prints_and_parses pretty v.
Proof.
  revert v. fix IH 1. intros [|b|i|d|s|o|a|t] Hv; try done.
  - apply (scalar_prints pretty V_NULL (bytes_of "null") k_null); try done. apply delim_cons. intros. apply reads_null.
  - destruct b.
    + apply (scalar_prints pretty (V_BOOLEAN true) (bytes_of "true") k_true); try done.
      apply delim_cons. intros. apply reads_true.
    + apply (scalar_prints pretty (V_BOOLEAN false) (bytes_of "false") k_false); try done.
      apply delim_cons. intros. apply reads_false.
  - destruct Hv as [Hi Hr]. apply (scalar_prints pretty (V_INTEGER i) (print_int i) k_integer); try done.
    apply delim_cons. intros. by apply reads_integer.
  - destruct (rt_string_escape s Hv) as (w & E & Htok).
    apply (scalar_prints pretty (V_STRING s) ([34] ++ w ++ [34]) k_string); try done.
    intros indent. simpl. by rewrite E.
  - apply rt_object in Hv as (Hne & Hs & Ho). intros indent.
    assert (Forall (fun kv => rt_string kv.1 /\ prints_and_parses pretty kv.2) o) as Ho'.
    { clear Hne Hs. induction o as [|kv o IHo]; [constructor|]. inversion_clear Ho as [|? ? [Hk Hkv] Ho'].
      constructor; [split; [done|by apply IH]|by apply IHo]. }
    destruct (object_items pretty (indent + 2) o Ho') as (ts & E & Hts).
    exists (container_str pretty indent (chr "{") (chr "}") ts). split.
    { rewrite value_str_object. unfold object_str. by rewrite E. }
    rewrite container_text at 2.
    apply (parses_container _ _ _ k_lcb _ (fun fuel t => object_loop fuel t [])); [done|done|].
    intros fuel r lx Hf Hat. rewrite <- !app_assoc in Hat. by eapply object_parses.
  - apply rt_array in Hv as (Hne & Ha). intros indent.
    assert (Forall (prints_and_parses pretty) a) as Ha'.
    { clear Hne. induction a as [|v a IHa]; [constructor|]. inversion_clear Ha as [|? ? Hv Ha'].
      constructor; [by apply IH|by apply IHa]. }
    destruct (array_items pretty (indent + 2) a Ha') as (ts & E & Hts).
    exists (container_str pretty indent (chr "[") (chr "]") ts). split.
    { rewrite value_str_array. unfold array_str. by rewrite E. }
    rewrite container_text at 2.
    apply (parses_container _ _ _ k_lb _ (fun fuel t => array_loop fuel t [])); [done|done|].
    intros fuel r lx Hf Hat. rewrite <- !app_assoc in Hat. by eapply array_parses.
Qed.

(** ** The top level *)
Lemma runs_with_fuel {A} (f : nat -> L A) lx P :
  (forall n, (rest_len (m_is lx) < n)%nat -> runs (f n) lx P) -> runs (with_fuel f) lx P.
Proof. intros Hf. unfold with_fuel, runs. apply Hf. lia. Qed.

Lemma parse_object_text pretty o ts : o <> [] -> StronglySorted key_lt o ->
  Forall2 (fun kv t => member_parses (length t) kv t) o ts ->
  runs parse (lexer_init (istringstream (container_str pretty 0%nat (chr "{") (chr "}") ts))) (fun v _ => v = V_OBJECT o).
Proof.
  intros Hne Hs Hts. unfold parse. apply runs_step.
  eapply runs_impl; [eapply (get_punct [] k_lcb); [constructor|done|apply istringstream_at]|].
  intros t lx1 [-> Hat1]. rewrite bool_decide_eq_true_2 by done. apply runs_with_fuel. intros n Hn.
  eapply runs_impl.
  - apply (object_parses pretty 0%nat o ts Hne Hs Hts n []); [|exact Hat1].
    destruct Hat1 as [_ Hr]. unfold rest_len in Hn. rewrite Hr in Hn.
    rewrite container_text. cbn [length]. unfold gap. lia.
  - by intros ? ? [-> _].
Qed.

Lemma parse_array_text pretty a ts : a <> [] -> Forall2 (fun v t => parses (length t) v t) a ts ->
  runs parse (lexer_init (istringstream (container_str pretty 0%nat (chr "[") (chr "]") ts))) (fun v _ => v = V_ARRAY a).
Proof.
  intros Hne Hts. unfold parse. apply runs_step.
  eapply runs_impl; [eapply (get_punct [] k_lb); [constructor|done|apply istringstream_at]|].
  intros t lx1 [-> Hat1]. rewrite bool_decide_eq_false_2 by done. rewrite bool_decide_eq_true_2 by done.
  apply runs_with_fuel. intros n Hn. eapply runs_impl.
  - apply (array_parses pretty 0%nat a ts Hne Hts n []); [|exact Hat1].
    destruct Hat1 as [_ Hr]. unfold rest_len in Hn. rewrite Hr in Hn.
    rewrite container_text. cbn [length]. unfold gap. lia.
  - by intros ? ? [-> _].
Qed.

Lemma from_string_runs text v :
  runs parse (lexer_init (istringstream text)) (fun v' _ => v' = v) -> from_string text = Ok v.
Proof. intros (v' & lx & E & ->). unfold from_string, from_stream. by rewrite E. Qed.

(** An object and an array of the fragment. *)
Lemma object_reads_back pretty o : rt (V_OBJECT o) ->
  exists text, value_str pretty 0%nat (V_OBJECT o) = Ok text /\ from_string text = Ok (V_OBJECT o).
Proof.
  intros (Hne & Hs & Ho)%rt_object. destruct (object_items pretty (0 + 2)%nat o) as (ts & E & Hts).
  { eapply Forall_impl; [exact Ho|]. intros kv [? ?]. split; [done|by apply value_ok]. }
  eexists. rewrite value_str_object. unfold object_str. rewrite E. split; [reflexivity|].
  by apply from_string_runs, parse_object_text.
Qed.

Lemma array_reads_back pretty a : rt (V_ARRAY a) ->
  exists text, value_str pretty 0%nat (V_ARRAY a) = Ok text /\ from_string text = Ok (V_ARRAY a).
Proof.
  intros (Hne & Ha)%rt_array. destruct (array_items pretty (0 + 2)%nat a) as (ts & E & Hts).
  { eapply Forall_impl; [exact Ha|]. intros v Hv. by apply value_ok. }
  eexists. rewrite value_str_array. unfold array_str. rewrite E. split; [reflexivity|].
  by apply from_string_runs, parse_array_text.
Qed.

(** ** The properties *)

(** C31. Parsing what was printed: for a container of the fragment [rt],
    [from_string] applied to [str(pretty)] gives the value back, for both
    settings of [pretty]. *)
Theorem parse_print pretty v :
  rt v -> is_object v = true \/ is_array v = true ->
  exists text, value_str pretty 0%nat v = Ok text /\ from_string text = Ok v.
Proof.
  intros Hv Hc. destruct v; try (destruct Hc; done); [by apply object_reads_back|by apply array_reads_back].
Qed.

(** C32. The parser terminates: on every input [from_string] returns a value or
    throws, within the fuel the model gives its loops. *)
Theorem from_string_terminates s : from_string s <> Diverge.
Proof.
  unfold from_string, from_stream. pose proof (parse_total (lexer_init (istringstream s)) eq_refl) as Ht.
  unfold total in Ht. by destruct (parse _) as [[| | |] lx].
Qed.

(** Escaping and un-escaping strings: every sequence of Unicode scalar
    values, encoded in UTF-8, is escaped to a text that un-escapes to the same
    bytes. *)
Theorem string_escape_roundtrip cps :
  Forall scalar cps ->
  exists t, string_escape (utf8 cps) = Ok t /\ string_unescape t = Ok (utf8 cps).
Proof.
  intros Hcps. exists (concat (esc_cp <$> cps)). split; [|by apply string_unescape_esc].
  apply string_escape_utf8. eapply Forall_impl; [exact Hcps|]. by intros cp [? _].
Qed.

(** ** Objects as maps *)
Definition is_str (s : bytes) : Prop := Forall is_char s.

Definition obj_wf (o : object) : Prop := StronglySorted key_lt o /\ Forall (fun kv => is_str kv.1) o.

Lemma str_lt_trans a b c : str_lt a b = true -> str_lt b c = true -> str_lt a c = true.
Proof.
  revert b c. induction a as [|x a IH]; intros [|y b] [|z c]; simpl; try done.
  destruct (Z.eqb_spec (uchar x) (uchar y)) as [E1|N1], (Z.eqb_spec (uchar y) (uchar z)) as [E2|N2];
    rewrite ?Z.ltb_lt; intros H1 H2.
  - rewrite E1, E2, Z.eqb_refl. by eapply IH.
  - rewrite E1. destruct (Z.eqb_spec (uchar y) (uchar z)); [done|]. by apply Z.ltb_lt.
  - rewrite <- E2. destruct (Z.eqb_spec (uchar x) (uchar y)); [done|]. by apply Z.ltb_lt.
  - destruct (Z.eqb_spec (uchar x) (uchar z)); [lia|]. apply Z.ltb_lt. lia.
Qed.

Lemma str_lt_total a b : is_str a -> is_str b -> a <> b -> str_lt a b = false -> str_lt b a = true.
Proof.
  intros Ha. revert b. induction Ha as [|x a Hx _ IH]; intros [|y b] Hb Hne; simpl; try done.
  inversion_clear Hb as [|? ? Hy Hb']. rewrite (Z.eqb_sym (uchar y)).
  destruct (Z.eqb_spec (uchar x) (uchar y)) as [E|N].
  - apply (uchar_inj x y Hx Hy) in E. subst. apply IH; [done|congruence].
  - rewrite Z.ltb_ge, Z.ltb_lt. lia.
Qed.

Lemma map_insert_keys {A} k (v : A) o (P : bytes -> Prop) :
  P k -> Forall (fun kv => P kv.1) o -> Forall (fun kv => P kv.1) (map_insert k v o).
Proof.
  intros Hk. induction 1 as [|[k' v'] o Hk' Ho IH]; simpl; [by repeat constructor|].
  case_bool_decide; [by constructor|]. destruct (str_lt k k'); by repeat constructor.
Qed.

Lemma map_insert_wf k v o : is_str k -> obj_wf o -> obj_wf (map_insert k v o).
Proof.
  intros Hk [Hs Hc]. split; [|by apply map_insert_keys]. revert Hc.
  induction Hs as [|[k' v'] o Hs IH Hall]; simpl; intros Hc; [by repeat constructor|].
  inversion_clear Hc as [|? ? Hk' Hc']. simpl in Hk'. case_bool_decide as Heq; [by constructor|].
  destruct (str_lt k k') eqn:Elt.
  - constructor; [by constructor|]. constructor; [done|]. eapply Forall_impl; [exact Hall|].
    intros kv Hkv. unfold key_lt in *. simpl in *. by eapply str_lt_trans.
  - constructor; [by apply IH|]. unfold key_lt in *. simpl in *.
    apply (map_insert_keys k v o (fun k2 => str_lt k' k2 = true)); [by apply str_lt_total|done].
Qed.

Lemma map_find_below {A} k (o : list (bytes * A)) :
  Forall (fun kv => str_lt k kv.1 = true) o -> map_find k o = None.
Proof.
  induction 1 as [|[k' v'] o Hk _ IH]; simpl in *; [done|]. rewrite bool_decide_eq_false_2; [done|].
  intros ->. by rewrite str_lt_irrefl in Hk.
Qed.

Lemma map_find_insert k k' v o : obj_wf o ->
  map_find k (map_insert k' v o) =
    if decide (k = k') then Some (default v (map_find k o)) else map_find k o.
Proof.
  intros [Hs _]. induction Hs as [|[k2 v2] o Hs IH Hall]; simpl.
  - by case_bool_decide; case_decide.
  - destruct (bool_decide (k' = k2)) eqn:E1.
    { apply bool_decide_eq_true in E1 as <-. simpl. by case_bool_decide; case_decide. }
    apply bool_decide_eq_false in E1. destruct (str_lt k' k2) eqn:Elt; simpl.
    + case_bool_decide as E2; case_decide; subst; try done. rewrite bool_decide_eq_false_2 by done.
      rewrite map_find_below; [done|]. eapply Forall_impl; [exact Hall|]. intros kv Hkv.
      by eapply str_lt_trans.
    + rewrite IH. case_bool_decide as E2; [|done]. subst. by rewrite decide_False by done.
Qed.

(** [object::add] inserts into the map of the object: the order of the keys
    is kept, the new key is bound unless it was already (then its value stays),
    and no other key is affected. *)
Theorem object_add_lookup key v o :
  obj_wf o -> is_str key -> chr "\" ∉ key ->
  exists o', object_add key v o = Ok o' /\ obj_wf o' /\
    forall k d, chr "\" ∉ k ->
      object_get_default k d o' =
        Ok (if decide (k = key) then default v (map_find key o) else default d (map_find k o)).
Proof.
  intros Ho Hk Hb. exists (map_insert key v o). split_and!.
  - unfold object_add. by rewrite string_unescape_plain.
  - by apply map_insert_wf.
  - intros k d Hbk. unfold object_get_default. rewrite string_unescape_plain by done. simpl.
    rewrite map_find_insert by done. case_decide; subst; [done|]. by destruct (map_find k o).
Qed.

(** ** Deviations from JSON *)

(** A string with a backslash does not survive printing and parsing: the
    lexer un-escapes the text and the assignment to [t_value] un-escapes the
    result again (here [a\b] becomes [a] and a backspace). *)
Theorem double_unescape :
  (let? text := value_str false 0%nat (V_ARRAY [V_STRING (bytes_of "a\b")]) in from_string text) =
  Ok (V_ARRAY [V_STRING [chr "a"; 8]]).
Proof. vm_compute. reflexivity. Qed.

(** What the parser does with texts outside the fragment: the integer zero
    and the empty containers it prints itself are refused, and an array or an
    object that the input leaves open is accepted. *)
Theorem parser_deviations :
  (let? t := value_str false 0%nat (V_ARRAY [V_INTEGER 0]) in from_string t) =
    Throw (parsing_error (bytes_of "expected decimal point not found") 1 4) /\
  (let? t := value_str false 0%nat (V_ARRAY []) in from_string t) =
    Throw (parsing_error (bytes_of "array element expected") 1 3) /\
  (let? t := value_str false 0%nat (V_OBJECT []) in from_string t) =
    Throw (parsing_error (bytes_of "string expected") 1 3) /\
  from_string (bytes_of "[ 1, 2,") = Ok (V_ARRAY [V_INTEGER 1; V_INTEGER 2]) /\
  from_string ([chr "{"; 34; chr "k"; 34] ++ bytes_of ": 7,") = Ok (V_OBJECT [(bytes_of "k", V_INTEGER 7)]).
Proof. vm_compute. done. Qed.

(** ** Instances *)
Definition sample_value : value :=
  V_OBJECT [(bytes_of "a", V_ARRAY [V_NULL; V_BOOLEAN true; V_INTEGER (-42)]); (bytes_of "b", V_STRING (bytes_of "x/y"))].

Lemma rt_ascii s : forallb (fun c => (0 <=? c) && (c <? 128) && negb (c =? chr "\")) s = true -> rt_string s.
Proof.
  intros Hs. exists s. rewrite forallb_forall in Hs.
  assert (forall c, c ∈ s -> 0 <= c < 128 /\ c <> chr "\") as Hc.
  { intros c Hin. apply list_elem_of_In in Hin. specialize (Hs c Hin).
    rewrite !andb_true_iff, negb_true_iff, Z.leb_le, Z.ltb_lt, Z.eqb_neq in Hs. tauto. }
  split_and!.
  - apply Forall_forall. intros c Hin. specialize (Hc c Hin). unfold scalar. lia.
  - intros Hin. by destruct (Hc _ Hin).
  - clear Hs. induction s as [|c s IH]; [done|]. unfold utf8. simpl. unfold utf8_spec at 1.
    destruct (Hc c (list_elem_of_here _ _)) as [Hr _]. destruct (Z.ltb_spec c 128); [|lia]. simpl. f_equal.
    apply IH. intros c' Hin. apply Hc. by apply list_elem_of_further.
Qed.

Lemma sample_rt : rt sample_value.
Proof.
  unfold sample_value. split; [done|]. split.
  - repeat constructor.
  - simpl. split_and!; try done; try (by apply rt_ascii); lia.
Qed.

Lemma parse_print_witness :
  exists text, value_str true 0%nat sample_value = Ok text /\ from_string text = Ok sample_value.
Proof. apply parse_print; [apply sample_rt|by left]. Defined.

Lemma string_escape_roundtrip_witness :
  exists t, string_escape (utf8 [97; 233; 8364; 128512]) = Ok t /\
    string_unescape t = Ok (utf8 [97; 233; 8364; 128512]).
Proof. apply string_escape_roundtrip. repeat (constructor; [unfold scalar; lia|]). constructor. Defined.

Lemma object_add_lookup_witness :
  exists o', object_add (bytes_of "k") (V_INTEGER 7) [] = Ok o' /\ obj_wf o' /\
    forall k d, chr "\" ∉ k ->
      object_get_default k d o' =
        Ok (if decide (k = bytes_of "k") then default (V_INTEGER 7) (map_find (bytes_of "k") []) else default d (map_find k [])).
Proof.
  apply object_add_lookup.
  - split; constructor.
  - unfold is_str. repeat constructor; unfold is_char; vm_compute; discriminate.
  - apply (bool_decide_unpack _). vm_compute. exact I.
Defined.
