(* ===== verification/UriText.v ===== *)
(** * http: the text of URI components (http/include/common/uri.h, http/src/common/uri.cpp)

    The character classes, the percent encoding and decoding of each component,
    and the tests of validity.  The classes of <cctype> are those of the "C"
    locale.  Exceptions carry no message here. *)
From S2P Require Import Prelude Effects Numbers.

(** ** <cctype> *)
Definition isdigit (c : Z) : bool := (48 <=? c) && (c <=? 57).
Definition isalpha (c : Z) : bool := ((65 <=? c) && (c <=? 90)) || ((97 <=? c) && (c <=? 122)).
Definition isxdigit (c : Z) : bool := isdigit c || ((65 <=? c) && (c <=? 70)) || ((97 <=? c) && (c <=? 102)).
Definition tolower (c : Z) : Z := if (65 <=? c) && (c <=? 90) then c + 32 else c.

(** ** Character classes of uri.h *)
Definition uri_generic_delimiter (c : Z) : bool :=
  (c =? chr ":") || (c =? chr "/") || (c =? chr "?") || (c =? chr "#") || (c =? chr "[") || (c =? chr "]") || (c =? chr "@").

Definition uri_subcomponent_delimiter (c : Z) : bool :=
  (c =? chr "!") || (c =? chr "$") || (c =? chr "&") || (c =? 39) || (c =? chr "(") || (c =? chr ")") ||
  (c =? chr "*") || (c =? chr "+") || (c =? chr ",") || (c =? chr ";") || (c =? chr "=").

Definition uri_reserved_character (c : Z) : bool :=
  if uri_generic_delimiter c then true else uri_subcomponent_delimiter c.

Definition uri_unreserved_character (c : Z) : bool :=
  if isalpha c || isdigit c then true
  else (c =? chr "-") || (c =? chr ".") || (c =? chr "_") || (c =? chr "~").

(** [uri_percent_encoded(str, index)], of the characters from [index] on; past
    the end of a string there is a NUL, which is no hexadecimal digit. *)
Definition uri_percent_encoded (s : bytes) : bool :=
  match s with
  | c :: x :: y :: _ => (c =? chr "%") && isxdigit x && isxdigit y
  | _ => false
  end.

Inductive uri_exn := bad_uri | stoi_out_of_range.

(** ** Encoding

    [setiosflags(hex | uppercase)] leaves the [dec] flag that a stream starts
    with, and with both of them set the number is printed in decimal. *)
Definition pct_encode (c : Z) : bytes := chr "%" :: pad_left 2 (chr "0") (print_int c).

(** The value of a hexadecimal digit, and [std::stoi(pct_encoded, 0, 16)]. *)
Definition xdigit_value (c : Z) : Z :=
  if isdigit c then c - 48 else if (65 <=? c) && (c <=? 70) then c - 55 else c - 87.
Definition stoi16 (x y : Z) : Z := 16 * xdigit_value x + xdigit_value y.

(** The two loops, over the characters a component keeps as they are. *)
Section loops.
Context (plain : Z -> bool).

Fixpoint encode_loop (istr : bytes) : bytes :=
  match istr with
  | [] => []
  | c :: istr => (if plain c then [c] else pct_encode c) ++ encode_loop istr
  end.

Fixpoint decode_loop (istr : bytes) : res uri_exn bytes :=
  match istr with
  | [] => Ok []
  | c :: rest =>
      if plain c then let? ostr := decode_loop rest in Ok (c :: ostr)
      else
        match rest with
        | x :: y :: rest2 =>
            if (c =? chr "%") && isxdigit x && isxdigit y then
              let? ostr := decode_loop rest2 in Ok (schar (stoi16 x y) :: ostr)
            else Throw bad_uri
        | _ => Throw bad_uri
        end
  end.

(** The loop of the [is_valid] functions. *)
Fixpoint valid_loop (s : bytes) : bool :=
  match s with
  | [] => true
  | c :: rest =>
      if plain c then valid_loop rest
      else
        match rest with
        | x :: y :: rest2 => if (c =? chr "%") && isxdigit x && isxdigit y then valid_loop rest2 else false
        | _ => false
        end
  end.
End loops.

Module Component.
Definition plain (c : Z) : bool :=
  uri_unreserved_character c || uri_subcomponent_delimiter c ||
  ((chr ":" =? c) || (chr "@" =? c) || (chr "/" =? c) || (chr "?" =? c)).
Definition encode (istr : bytes) : bytes := encode_loop plain istr.
Definition decode (istr : bytes) : res uri_exn bytes := decode_loop plain istr.
(** [uri_query::is_valid] and [uri_fragment::is_valid] *)
Definition is_valid (s : bytes) : bool := if decide (s = []) then false else valid_loop plain s.
(** [uri_component::set] *)
Definition set (comp : bytes) : res uri_exn bytes := decode comp.
End Component.

Module Scheme.
Fixpoint valid_rest (s : bytes) : bool :=
  match s with
  | [] => true
  | c :: s => if isalpha c || isdigit c || (c =? chr "+") || (c =? chr "-") || (c =? chr ".") then valid_rest s else false
  end.
Definition is_valid (scheme : bytes) : bool :=
  match scheme with
  | [] => false
  | c :: rest => if negb (isalpha c) then false else valid_rest rest
  end.
Definition encode (istr : bytes) : bytes := tolower <$> istr.
Definition set (scheme : bytes) : res uri_exn bytes :=
  if negb (is_valid scheme) then Throw bad_uri else Ok scheme.
End Scheme.

Module Userinfo.
Definition plain (c : Z) : bool :=
  uri_unreserved_character c || uri_subcomponent_delimiter c || (chr ":" =? c).
Definition encode (istr : bytes) : bytes := encode_loop plain istr.
Definition decode (istr : bytes) : res uri_exn bytes := decode_loop plain istr.
Definition is_valid (ui : bytes) : bool := if decide (ui = []) then false else valid_loop plain ui.
Definition set (ui : bytes) : res uri_exn bytes := decode ui.
End Userinfo.

(** [inet_pton] of the two address families, on the whole string: a parameter. *)
Record inet := { inet_pton4 : bytes -> bool; inet_pton6 : bytes -> bool }.

Module Host.
Section host.
Context (net : inet).

Definition regular (c : Z) : bool := uri_unreserved_character c || uri_subcomponent_delimiter c.
Definition is_regular_hostname (host : bytes) : bool := if decide (host = []) then false else valid_loop regular host.

Definition is_valid (host : bytes) : bool :=
  match host with
  | [] => false
  | c :: rest =>
      if (chr "[" =? c) && (chr "]" =? List.last host 0)
      then inet_pton6 net (removelast rest)
      else inet_pton4 net host || is_regular_hostname host
  end.

Definition plain (c : Z) : bool :=
  uri_unreserved_character c || uri_subcomponent_delimiter c ||
  ((chr ":" =? c) || (chr "." =? c) || (chr "[" =? c) || (chr "]" =? c)).

(** Only unreserved characters are put in lower case. *)
Fixpoint encode (istr : bytes) : bytes :=
  match istr with
  | [] => []
  | c :: istr =>
      (if uri_unreserved_character c then [tolower c] else if plain c then [c] else pct_encode c) ++ encode istr
  end.
Definition decode (istr : bytes) : res uri_exn bytes := decode_loop plain istr.
Definition set (host : bytes) : res uri_exn bytes :=
  if negb (is_valid host) then Throw bad_uri else decode host.
End host.
End Host.

Module Port.
(** [std::stoi] of a string of digits, which throws beyond [int]. *)
Definition stoi (s : bytes) : res uri_exn Z :=
  let v := value_of 10 ((fun c => c - 48) <$> s) in
  if v <? 2 ^ 31 then Ok v else Throw stoi_out_of_range.
Definition is_valid (port : bytes) : res uri_exn bool :=
  if decide (port = []) then Ok false
  else if forallb isdigit port then
    let? p := stoi port in Ok (negb ((p <=? 0) || (65535 <? p)))
  else Ok false.
Definition set (port : bytes) : res uri_exn bytes :=
  let? valid := is_valid port in
  if negb valid then Throw bad_uri else Ok port.
End Port.
