(* ===== verification/Uri.v ===== *)
(** * http: URIs (http/include/common/uri.h, http/src/common/uri.cpp)

    Paths as segments, parsing, printing and the resolution of relative
    references.  A position in the string is the string from there on. *)
From S2P Require Import Prelude Effects Numbers UriText.

(** ** Paths *)
Record uri_path := {
  p_component : bytes;
  m_path : bytes;
  m_segments : list bytes;
  m_slash_at_start : bool;
  m_slash_at_end : bool }.

Definition path_init : uri_path :=
  {| p_component := []; m_path := []; m_segments := []; m_slash_at_start := false; m_slash_at_end := false |}.

Definition dot : bytes := [chr "."].
Definition dotdot : bytes := [chr "."; chr "."].
Definition slash : Z := chr "/".

(** The characters up to the next one in a class, and the rest. *)
Definition until (stop : Z -> bool) (s : bytes) : bytes * bytes :=
  let a := take_while (fun c => negb (stop c)) s in (a, drop (length a) s).

Module Path.
Definition plain (c : Z) : bool :=
  uri_unreserved_character c || uri_subcomponent_delimiter c ||
  ((chr "@" =? c) || (chr ":" =? c) || (chr "/" =? c)).

(** The loop of [is_valid]; [lc] is the last character. *)
Fixpoint valid_loop (lc : Z) (path : bytes) : bool :=
  match path with
  | [] => true
  | c :: rest =>
      if uri_unreserved_character c || uri_subcomponent_delimiter c || (c =? chr "@") || (c =? chr ":")
      then valid_loop c rest
      else if (c =? slash) && negb (lc =? slash) then valid_loop c rest
      else
        match rest with
        | x :: y :: rest2 => if (c =? chr "%") && isxdigit x && isxdigit y then valid_loop y rest2 else false
        | _ => false
        end
  end.

Definition is_valid (path : bytes) : bool :=
  if decide (path = []) then true
  else if decide (path = [slash]) then true
  else valid_loop (-1) path.

Definition encode (istr : bytes) : bytes := encode_loop plain istr.
Definition decode (istr : bytes) : res uri_exn bytes := decode_loop plain istr.

(** The segments separated by slashes. *)
Fixpoint join (segments : list bytes) : bytes :=
  match segments with
  | [] => []
  | [s] => s
  | s :: rest => s ++ slash :: join rest
  end.

Definition segments_to_path (segments : list bytes) (slash_at_start slash_at_end : bool) : bytes :=
  match segments with
  | [] => []
  | _ => (if slash_at_start then [slash] else []) ++ join segments ++ (if slash_at_end then [slash] else [])
  end.

(** What the loop of [set] does with a segment. *)
Definition push_segment (abs : bool) (segments : list bytes) (segment : bytes) : list bytes :=
  if decide (segment = dotdot) then
    if abs then removelast segments else segments ++ [segment]
  else if decide (segment = dot) then
    if abs then segments else segments ++ [segment]
  else if decide (segment = []) then segments
  else segments ++ [segment].

Fixpoint set_loop (fuel : nat) (abs : bool) (segments : list bytes) (p : bytes) : res uri_exn (list bytes) :=
  match p with
  | [] => Ok segments
  | _ =>
      match fuel with
      | O => Diverge
      | S fuel =>
          let '(segment, rest) := until (fun c => c =? slash) p in
          set_loop fuel abs (push_segment abs segments segment) (tail rest)
      end
  end.

(** [set] on the object [this]; [back] and [front] of an empty string are
    undefined. *)
Definition set (this : uri_path) (path : bytes) : res uri_exn uri_path :=
  let? m := decode path in
  match m with
  | [] => Ub
  | front :: _ =>
      let at_end := if slash =? List.last m 0 then true else m_slash_at_end this in
      let at_start := if slash =? front then true else m_slash_at_start this in
      let p := if slash =? front then tail m else m in
      let? segments := set_loop (length p) at_start (m_segments this) p in
      Ok {| p_component := match segments with
                           | [] => p_component this
                           | _ => segments_to_path segments at_start at_end
                           end;
            m_path := m; m_segments := segments; m_slash_at_start := at_start; m_slash_at_end := at_end |}
  end.

(** The loop of [merge] over the segments of the relative path. *)
Fixpoint merge_loop (segments : list bytes) (rel : list bytes) : list bytes :=
  match rel with
  | [] => segments
  | s :: rel =>
      if decide (s = dotdot) then merge_loop (removelast segments) rel
      else if decide (s = dot) then merge_loop segments rel
      else merge_loop (segments ++ [s]) rel
  end.

Definition merge (this rel : uri_path) : res uri_exn uri_path :=
  if m_slash_at_start rel then Ok rel
  else
    let segments := merge_loop (removelast (m_segments this)) (m_segments rel) in
    match segments with
    | [] => Ok path_init
    | _ => set path_init (segments_to_path segments (m_slash_at_start this) (m_slash_at_end rel))
    end.
End Path.

(** ** URIs *)
Record uri := {
  m_scheme : bytes; m_userinfo : bytes; m_host : bytes; m_port : bytes;
  m_upath : uri_path; m_query : bytes; m_fragment : bytes }.

Definition uri_init : uri :=
  {| m_scheme := []; m_userinfo := []; m_host := []; m_port := []; m_upath := path_init; m_query := []; m_fragment := [] |}.

Definition is_present (c : bytes) : bool := if decide (c = []) then false else true.

Module Uri.
Definition set_scheme (u : uri) (v : bytes) : res uri_exn uri :=
  let? c := Scheme.set v in
  Ok {| m_scheme := c; m_userinfo := m_userinfo u; m_host := m_host u; m_port := m_port u;
        m_upath := m_upath u; m_query := m_query u; m_fragment := m_fragment u |}.
Definition set_userinfo (u : uri) (v : bytes) : res uri_exn uri :=
  let? c := Userinfo.set v in
  Ok {| m_scheme := m_scheme u; m_userinfo := c; m_host := m_host u; m_port := m_port u;
        m_upath := m_upath u; m_query := m_query u; m_fragment := m_fragment u |}.
Definition set_host (net : inet) (u : uri) (v : bytes) : res uri_exn uri :=
  let? c := Host.set net v in
  Ok {| m_scheme := m_scheme u; m_userinfo := m_userinfo u; m_host := c; m_port := m_port u;
        m_upath := m_upath u; m_query := m_query u; m_fragment := m_fragment u |}.
Definition set_port (u : uri) (v : bytes) : res uri_exn uri :=
  let? c := Port.set v in
  Ok {| m_scheme := m_scheme u; m_userinfo := m_userinfo u; m_host := m_host u; m_port := c;
        m_upath := m_upath u; m_query := m_query u; m_fragment := m_fragment u |}.
Definition set_path (u : uri) (v : bytes) : res uri_exn uri :=
  let? c := Path.set (m_upath u) v in
  Ok {| m_scheme := m_scheme u; m_userinfo := m_userinfo u; m_host := m_host u; m_port := m_port u;
        m_upath := c; m_query := m_query u; m_fragment := m_fragment u |}.
Definition set_query (u : uri) (v : bytes) : res uri_exn uri :=
  let? c := Component.set v in
  Ok {| m_scheme := m_scheme u; m_userinfo := m_userinfo u; m_host := m_host u; m_port := m_port u;
        m_upath := m_upath u; m_query := c; m_fragment := m_fragment u |}.
Definition set_fragment (u : uri) (v : bytes) : res uri_exn uri :=
  let? c := Component.set v in
  Ok {| m_scheme := m_scheme u; m_userinfo := m_userinfo u; m_host := m_host u; m_port := m_port u;
        m_upath := m_upath u; m_query := m_query u; m_fragment := c |}.

Definition ends_authority (c : Z) : bool := (c =? slash) || (c =? chr "?") || (c =? chr "#").
Definition ends_path (c : Z) : bool := (c =? chr "?") || (c =? chr "#").

(** The character at a position; a NUL at the end. *)
Definition at0 (s : bytes) : Z := match s with c :: _ => c | [] => 0 end.

(** The parse functions take the string from [si] on, and return it from the
    returned index on. *)
Definition parse_scheme (u : uri) (str : bytes) : res uri_exn (uri * bytes) :=
  let '(scheme, rest) := until (fun c => c =? chr ":") str in
  if negb (at0 rest =? chr ":") then Throw bad_uri
  else let? u := set_scheme u scheme in Ok (u, tail rest).

Definition parse_authority (net : inet) (u : uri) (str : bytes) : res uri_exn (uri * bytes) :=
  if negb (at0 str =? slash) || negb (at0 (tail str) =? slash) then Throw bad_uri
  else
    let '(auth, rest) := until ends_authority (tail (tail str)) in
    let '(userinfo, after) := until (fun c => c =? chr "@") auth in
    let? (u, hostport) :=
      match after with
      | _ :: hostport =>
          if negb (Userinfo.is_valid userinfo) then Throw bad_uri
          else let? u := set_userinfo u userinfo in Ok (u, hostport)
      | [] => Ok (u, auth)
      end in
    let? (host, rest2) :=
      if at0 hostport =? chr "[" then
        let '(h, r) := until (fun c => c =? chr "]") hostport in
        if negb (at0 r =? chr "]") then Throw bad_uri else Ok (h ++ [chr "]"], tail r)
      else Ok (until (fun c => (c =? chr ":") || (c =? slash)) hostport) in
    let? u := set_host net u host in
    let? u := if at0 rest2 =? chr ":" then set_port u (tail rest2) else Ok u in
    Ok (u, rest).

Definition parse_path (u : uri) (str : bytes) : res uri_exn (uri * bytes) :=
  let '(path, rest) := until ends_path str in
  if negb (Path.is_valid path) then Throw bad_uri
  else let? u := set_path u path in Ok (u, rest).

Definition parse_query (u : uri) (str : bytes) : res uri_exn (uri * bytes) :=
  if negb (at0 str =? chr "?") then Throw bad_uri
  else
    let '(query, rest) := until (fun c => c =? chr "#") (tail str) in
    if negb (Component.is_valid query) then Throw bad_uri
    else let? u := set_query u query in Ok (u, rest).

Definition parse_fragment (u : uri) (str : bytes) : res uri_exn (uri * bytes) :=
  if negb (at0 str =? chr "#") then Throw bad_uri
  else
    let fragment := tail str in
    if negb (Component.is_valid fragment) then Throw bad_uri
    else let? u := set_fragment u fragment in Ok (u, []).

(** The first colon or slash decides between a scheme and a relative path. *)
Fixpoint first_delim (s : bytes) : Z :=
  match s with
  | [] => 0
  | c :: s => if (c =? chr ":") || (c =? slash) then c else first_delim s
  end.

Fixpoint parse_loop (fuel : nat) (net : inet) (u : uri) (scheme_seen : bool) (str : bytes) : res uri_exn uri :=
  match str with
  | [] => Ok u
  | c :: rest =>
      match fuel with
      | O => Diverge
      | S fuel =>
          if c =? slash then
            let? (u, str) := if at0 rest =? slash then parse_authority net u str else parse_path u str in
            parse_loop fuel net u scheme_seen str
          else if c =? chr "?" then
            let? (u, str) := parse_query u str in parse_loop fuel net u scheme_seen str
          else if c =? chr "#" then
            let? (u, str) := parse_fragment u str in parse_loop fuel net u scheme_seen str
          else if scheme_seen then
            let? (u, str) := parse_path u str in parse_loop fuel net u scheme_seen str
          else if first_delim str =? chr ":" then
            let? (u, str) := parse_scheme u str in parse_loop fuel net u true str
          else
            let? (u, str) := parse_path u str in parse_loop fuel net u scheme_seen str
      end
  end.

(** [uri(str)] *)
Definition parse (net : inet) (str : bytes) : res uri_exn uri := parse_loop (length str) net uri_init false str.

(** [os << u] *)
Definition print (u : uri) : bytes :=
  (if is_present (m_scheme u) then Scheme.encode (m_scheme u) ++ [chr ":"] else []) ++
  (if is_present (m_host u) then
     [slash; slash] ++
     (if is_present (m_userinfo u) then Userinfo.encode (m_userinfo u) ++ [chr "@"] else []) ++
     Host.encode (m_host u) ++
     (if is_present (m_port u) then chr ":" :: m_port u else [])
   else []) ++
  (if is_present (p_component (m_upath u)) then Path.encode (p_component (m_upath u)) else []) ++
  (if is_present (m_query u) then chr "?" :: Component.encode (m_query u) else []) ++
  (if is_present (m_fragment u) then chr "#" :: Component.encode (m_fragment u) else []).

Definition merge (this rel : uri) : res uri_exn uri :=
  if is_present (m_scheme rel) then Ok rel
  else if is_present (m_host rel) then
    Ok {| m_scheme := m_scheme this;
          m_userinfo := if is_present (m_userinfo rel) then m_userinfo rel else [];
          m_host := m_host rel;
          m_port := if is_present (m_port rel) then m_port rel else [];
          m_upath := m_upath rel; m_query := m_query rel; m_fragment := m_fragment rel |}
  else if is_present (p_component (m_upath rel)) then
    let? p := Path.merge (m_upath this) (m_upath rel) in
    Ok {| m_scheme := m_scheme this; m_userinfo := m_userinfo this; m_host := m_host this; m_port := m_port this;
          m_upath := p; m_query := m_query rel; m_fragment := m_fragment rel |}
  else
    Ok {| m_scheme := m_scheme this; m_userinfo := m_userinfo this; m_host := m_host this; m_port := m_port this;
          m_upath := m_upath this;
          m_query := if is_present (m_query rel) then m_query rel else m_query this;
          m_fragment := m_fragment rel |}.
End Uri.

(** ** Facts (http: theorems about URIs)

    Parsing always ends; percent decoding inverts the encoding of RFC 3986;
    printing a URI in canonical form and parsing it gives it back; merging
    paths; and where the code departs from the RFC. *)

(** ** Splitting *)
Lemma take_while_Forall p s : Forall (fun c => p c = true) (take_while p s).
Proof. induction s as [|c s IH]; simpl; [constructor|]. destruct (p c) eqn:E; constructor; auto. Qed.

Lemma take_while_prefix p s : s = take_while p s ++ drop (length (take_while p s)) s.
Proof.
  induction s as [|c s IH]; [done|]. cbn [take_while]. destruct (p c); [|done].
  cbn [length drop app]. by rewrite <- IH.
Qed.

Lemma until_spec stop s a r : until stop s = (a, r) ->
  s = a ++ r /\ Forall (fun c => stop c = false) a /\ (r = [] \/ exists c r', r = c :: r' /\ stop c = true).
Proof.
  unfold until. intros [= <- <-]. split; [apply take_while_prefix|]. split.
  - eapply Forall_impl; [apply take_while_Forall|]. intros c. simpl. by destruct (stop c).
  - induction s as [|c s IH]; [by left|]. cbn [take_while]. destruct (stop c) eqn:E; [|apply IH].
    right. exists c, s. done.
Qed.

Lemma until_app stop a r : Forall (fun c => stop c = false) a ->
  r = [] \/ (exists c r', r = c :: r' /\ stop c = true) -> until stop (a ++ r) = (a, r).
Proof.
  intros Ha Hr. unfold until. induction Ha as [|c a Hc Ha IH]; simpl.
  - destruct Hr as [->|(c & r' & -> & Hc)]; [done|]. simpl. by rewrite Hc.
  - rewrite Hc. simpl in *. by injection IH as -> ->.
Qed.

#[global] Opaque until.

Lemma until_all stop a : Forall (fun c => stop c = false) a -> until stop a = (a, []).
Proof. intros Ha. rewrite <- (app_nil_r a) at 1. apply until_app; auto. Qed.

Lemma until_length stop s a r : until stop s = (a, r) -> (length a + length r = length s)%nat.
Proof. intros H. apply until_spec in H as (-> & _). by rewrite length_app. Qed.

(** ** Every parse ends *)
Definition ends {A} (r : res uri_exn A) : Prop := match r with Ok _ | Throw _ => True | _ => False end.

Lemma ends_rbind {A B} (m : res uri_exn A) (k : A -> res uri_exn B) :
  ends m -> (forall a, m = Ok a -> ends (k a)) -> ends (rbind m k).
Proof. destruct m; simpl; auto. Qed.

Lemma decode_ends_n plain n s : (length s <= n)%nat -> ends (decode_loop plain s).
Proof.
  revert s. induction n as [|n IH]; intros [|c s] Hl; try done; simpl in Hl; [lia|]. simpl.
  destruct (plain c); [apply ends_rbind; [apply IH; lia|done]|].
  destruct s as [|x [|y s]]; try done. destruct (_ && _); [|done].
  apply ends_rbind; [|done]. apply IH. simpl in Hl. lia.
Qed.

Lemma decode_ends plain s : ends (decode_loop plain s).
Proof. by apply (decode_ends_n plain (length s)). Qed.

Lemma decode_nonempty plain s m : decode_loop plain s = Ok m -> s <> [] -> m <> [].
Proof.
  destruct s as [|c s]; [done|]. simpl. intros H _. destruct (plain c).
  - apply rbind_Ok in H as (o & _ & H). by injection H as <-.
  - destruct s as [|x [|y s]]; try done. destruct (_ && _); [|done].
    apply rbind_Ok in H as (o & _ & H). by injection H as <-.
Qed.

Lemma set_loop_ends fuel abs segs p : (length p <= fuel)%nat -> ends (Path.set_loop fuel abs segs p).
Proof.
  revert segs p. induction fuel as [|fuel IH]; intros segs [|c p] Hl; try done; simpl in Hl; [lia|].
  cbn [Path.set_loop]. destruct (until _ (c :: p)) as [a r] eqn:E.
  apply IH. pose proof (until_length _ _ _ _ E) as H. simpl in H.
  apply until_spec in E as (_ & _ & [->|(d & r' & -> & _)]); simpl in *; [lia|].
  destruct a; simpl in H; lia.
Qed.

Lemma path_set_ends this s : s <> [] -> ends (Path.set this s).
Proof.
  intros Hs. unfold Path.set. apply ends_rbind; [apply decode_ends|]. intros m Hm.
  pose proof (decode_nonempty _ _ _ Hm Hs). destruct m as [|c m]; [done|].
  apply ends_rbind; [|done]. apply set_loop_ends. by destruct (slash =? c).
Qed.

Lemma port_set_ends s : ends (Port.set s).
Proof.
  unfold Port.set. apply ends_rbind; [|intros []; done].
  unfold Port.is_valid. case_decide; [done|]. destruct (forallb _ _); [|done].
  apply ends_rbind; [|done]. unfold Port.stoi. by destruct (_ <? _).
Qed.

(** The result of a parse function: it ends, and a result is shorter. *)
Definition shorter (str : bytes) (r : res uri_exn (uri * bytes)) : Prop :=
  ends r /\ forall u rest, r = Ok (u, rest) -> (length rest < length str)%nat.

Lemma shorter_throw str e : shorter str (Throw e).
Proof. done. Qed.

Lemma shorter_ret {A} str (m : res uri_exn A) (f : A -> uri) rest :
  ends m -> (length rest < length str)%nat -> shorter str (let? a := m in Ok (f a, rest)).
Proof.
  intros Hm Hl. split; [by apply ends_rbind|]. intros u r Hu. apply rbind_Ok in Hu as (a & _ & [= _ <-]). done.
Qed.

Lemma scheme_shorter u str : str <> [] -> shorter str (Uri.parse_scheme u str).
Proof.
  intros Hs. unfold Uri.parse_scheme. destruct (until _ str) as [a r] eqn:E.
  destruct (negb _) eqn:Ec; [done|]. pose proof (until_length _ _ _ _ E) as Hl.
  destruct r as [|c r]; [by vm_compute in Ec|]. simpl tail. simpl in Hl.
  unfold Uri.set_scheme, Scheme.set. destruct (Scheme.is_valid a); simpl; [|done]. split; [done|].
  intros u' r' [= <- <-]. lia.
Qed.

Lemma path_shorter u c rest : Uri.ends_path c = false -> shorter (c :: rest) (Uri.parse_path u (c :: rest)).
Proof.
  intros Hc. unfold Uri.parse_path. destruct (until _ (c :: rest)) as [a r] eqn:E.
  pose proof (until_length _ _ _ _ E) as Hl. apply until_spec in E as (Hs & _ & Hr).
  assert (a <> []) as Ha.
  { intros ->. destruct Hr as [->|(d & r' & -> & Hd)]; [done|]. injection Hs as <- <-. congruence. }
  destruct (negb _); [done|]. unfold Uri.set_path. split.
  - apply ends_rbind; [apply ends_rbind; [by apply path_set_ends|done]|done].
  - intros u' r' H. apply rbind_Ok in H as (u1 & _ & [= _ <-]). destruct a; [done|simpl in *; lia].
Qed.

Lemma query_shorter u rest : shorter (chr "?" :: rest) (Uri.parse_query u (chr "?" :: rest)).
Proof.
  unfold Uri.parse_query. simpl. destruct (until _ rest) as [a r] eqn:E.
  pose proof (until_length _ _ _ _ E) as Hl. destruct (negb _); [done|]. unfold Uri.set_query. split.
  - apply ends_rbind; [apply ends_rbind; [apply decode_ends|done]|done].
  - intros u' r' H. apply rbind_Ok in H as (u1 & _ & [= _ <-]). simpl. lia.
Qed.

Lemma fragment_shorter u rest : shorter (chr "#" :: rest) (Uri.parse_fragment u (chr "#" :: rest)).
Proof.
  unfold Uri.parse_fragment. simpl. destruct (negb _); [done|]. unfold Uri.set_fragment. split.
  - apply ends_rbind; [apply ends_rbind; [apply decode_ends|done]|done].
  - intros u' r' H. apply rbind_Ok in H as (u1 & _ & [= _ <-]). simpl. lia.
Qed.

Lemma authority_shorter net u rest : shorter (slash :: slash :: rest) (Uri.parse_authority net u (slash :: slash :: rest)).
Proof.
  unfold Uri.parse_authority. simpl. destruct (until _ rest) as [a r] eqn:E.
  pose proof (until_length _ _ _ _ E) as Hl. destruct (until _ a) as [ui after] eqn:E2.
  split.
  - apply ends_rbind.
    { destruct after; [done|]. destruct (negb _); [done|]. apply ends_rbind; [|done].
      unfold Uri.set_userinfo. apply ends_rbind; [apply decode_ends|done]. }
    intros [u1 hp] _. apply ends_rbind.
    { destruct (Uri.at0 hp =? chr "["); [|done]. destruct (until _ hp) as [h r2]. by destruct (negb _). }
    intros [h r2] _. apply ends_rbind.
    { unfold Uri.set_host, Host.set. destruct (negb _); [done|]. apply ends_rbind; [apply decode_ends|done]. }
    intros u2 _. apply ends_rbind; [|done]. destruct (_ =? _); [|done].
    unfold Uri.set_port. apply ends_rbind; [apply port_set_ends|done].
  - intros u' r' H. apply rbind_Ok in H as ([u1 hp] & _ & H). apply rbind_Ok in H as ([h r2] & _ & H).
    apply rbind_Ok in H as (u2 & _ & H). apply rbind_Ok in H as (u3 & _ & [= _ <-]). simpl. lia.
Qed.

Lemma parse_loop_ends fuel net u seen str : (length str <= fuel)%nat -> ends (Uri.parse_loop fuel net u seen str).
Proof.
  revert u seen str. induction fuel as [|fuel IH]; intros u seen [|c rest] Hl; try done; [simpl in Hl; lia|].
  assert (forall r seen', shorter (c :: rest) r ->
    ends (let? (u, str) := r in Uri.parse_loop fuel net u seen' str)) as Hgo.
  { intros r seen' [He Hs]. apply ends_rbind; [done|]. intros [u' s'] Hr. apply IH. specialize (Hs _ _ Hr). simpl in *. lia. }
  cbn [Uri.parse_loop]. destruct (Z.eqb_spec c slash) as [->|H1].
  { destruct (Z.eqb_spec (Uri.at0 rest) slash) as [Hs|Hs]; [|by apply Hgo, path_shorter].
    destruct rest as [|d rest]; [done|]. simpl in Hs. subst d. apply Hgo, authority_shorter. }
  destruct (Z.eqb_spec c (chr "?")) as [->|H2]; [apply Hgo, query_shorter|].
  destruct (Z.eqb_spec c (chr "#")) as [->|H3]; [apply Hgo, fragment_shorter|].
  assert (Uri.ends_path c = false) as Hp.
  { unfold Uri.ends_path. by rewrite (proj2 (Z.eqb_neq _ _) H2), (proj2 (Z.eqb_neq _ _) H3). }
  destruct seen; [by apply Hgo, path_shorter|]. destruct (_ =? _); [by apply Hgo, scheme_shorter|by apply Hgo, path_shorter].
Qed.

(** Parsing any string ends, in a URI or an exception: no input makes the
    loops run on, and none reaches the undefined [front] and [back] of an empty
    path. *)
Theorem uri_parse_ends net str :
  (exists u, Uri.parse net str = Ok u) \/ exists e, Uri.parse net str = Throw e.
Proof.
  pose proof (parse_loop_ends (length str) net uri_init false str ltac:(lia)) as H. fold (Uri.parse net str) in H.
  destruct (Uri.parse net str) as [u|e| |]; [left; eauto|right; eauto|done|done].
Qed.

(** ** Percent encoding *)

(** The encoding of RFC 3986: two upper-case hexadecimal digits of the byte. *)
Definition hex_up (d : Z) : Z := if d <? 10 then 48 + d else 55 + d.
Definition rfc_encode (plain : Z -> bool) (s : bytes) : bytes :=
  s ≫= fun c => if plain c then [c] else [chr "%"; hex_up (uchar c / 16); hex_up (uchar c mod 16)].

Lemma hex_up_ok d : 0 <= d < 16 -> isxdigit (hex_up d) = true /\ xdigit_value (hex_up d) = d.
Proof.
  intros Hd. unfold isxdigit, xdigit_value, isdigit, hex_up. destruct (Z.ltb_spec d 10).
  - rewrite (proj2 (Z.leb_le 48 (48 + d))), (proj2 (Z.leb_le (48 + d) 57)) by lia. simpl. lia.
  - rewrite (proj2 (Z.leb_gt (55 + d) 57)), andb_false_r by lia.
    rewrite (proj2 (Z.leb_le 65 (55 + d))), (proj2 (Z.leb_le (55 + d) 70)) by lia. simpl. lia.
Qed.

Lemma schar_uchar c : is_char c -> schar (uchar c) = c.
Proof.
  intros [H1 H2]. unfold wrapU. change (2 ^ 8) with 256. destruct (Z.leb_spec 0 c).
  - rewrite Z.mod_small by lia. apply wrapS_id; lia.
  - replace (c mod 256) with (c + 256) by (apply (Z.mod_unique _ _ (-1)); lia).
    unfold wrapS. change (2 ^ 8) with 256. change (2 ^ (8 - 1)) with 128.
    replace (c + 256 + 128) with (c + 128 + 1 * 256) by lia. rewrite Z.mod_add by lia. rewrite Z.mod_small by lia. lia.
Qed.

Lemma rfc_decode plain s : plain (chr "%") = false -> Forall is_char s ->
  decode_loop plain (rfc_encode plain s) = Ok s /\ valid_loop plain (rfc_encode plain s) = true.
Proof.
  intros Hp. induction 1 as [|c s Hc _ [IH1 IH2]]; [done|]. unfold rfc_encode in *. rewrite bind_cons.
  destruct (plain c) eqn:E; simpl; [by rewrite E, IH1, IH2|]. rewrite Hp.
  assert (0 <= uchar c < 256) as Hu by (unfold wrapU; apply Z.mod_pos_bound; lia).
  destruct (hex_up_ok (uchar c / 16)) as [X1 V1]; [split; [apply Z.div_pos; lia|apply Z.div_lt_upper_bound; lia]|].
  destruct (hex_up_ok (uchar c mod 16)) as [X2 V2]; [apply Z.mod_pos_bound; lia|].
  rewrite X1, X2. simpl. rewrite IH1, IH2. simpl. split; [|done]. unfold stoi16. rewrite V1, V2.
  rewrite <- Z.div_mod by lia. by rewrite schar_uchar.
Qed.

Lemma encode_plain plain s : Forall (fun c => plain c = true) s -> encode_loop plain s = s.
Proof. induction 1 as [|c s Hc _ IH]; simpl; [done|]. by rewrite Hc, IH. Qed.
Lemma decode_plain plain s : Forall (fun c => plain c = true) s -> decode_loop plain s = Ok s.
Proof. induction 1 as [|c s Hc _ IH]; simpl; [done|]. by rewrite Hc, IH. Qed.
Lemma valid_plain plain s : Forall (fun c => plain c = true) s -> valid_loop plain s = true.
Proof. induction 1 as [|c s Hc _ IH]; simpl; [done|]. by rewrite Hc, IH. Qed.

(** A component whose encoding is valid decodes. *)
Lemma valid_decodes_n plain n s : (length s <= n)%nat -> valid_loop plain s = true -> exists o, decode_loop plain s = Ok o.
Proof.
  revert s. induction n as [|n IH]; intros [|c s] Hl; simpl in *; [eauto|lia|eauto|].
  destruct (plain c). { intros H. destruct (IH s ltac:(lia) H) as [o ->]. simpl. eauto. }
  destruct s as [|x [|y s]]; try done. destruct (_ && _); [|done]. intros H.
  destruct (IH s ltac:(simpl in Hl; lia) H) as [o ->]. simpl. eauto.
Qed.

(** Decoding: each component decodes the RFC 3986 encoding of any bytes to
    those bytes, and every text it calls valid decodes without an exception. *)
Theorem percent_decode s (Hs : Forall is_char s) :
  Forall (fun plain => decode_loop plain (rfc_encode plain s) = Ok s)
    [Component.plain; Userinfo.plain; Host.plain; Path.plain] /\
  (forall q, Component.is_valid q = true -> exists o, Component.decode q = Ok o) /\
  (forall u, Userinfo.is_valid u = true -> exists o, Userinfo.decode u = Ok o).
Proof.
  split; [|split].
  - repeat (constructor; [apply rfc_decode; [vm_compute; reflexivity|done]|]). constructor.
  - intros q Hq. unfold Component.is_valid in Hq. case_decide; [done|]. by apply (valid_decodes_n _ (length q)).
  - intros q Hq. unfold Userinfo.is_valid in Hq. case_decide; [done|]. by apply (valid_decodes_n _ (length q)).
Qed.

Lemma percent_decode_witness :
  Forall (fun plain => decode_loop plain (rfc_encode plain [-61; -87; 32; 47]) = Ok [-61; -87; 32; 47])
    [Component.plain; Userinfo.plain; Host.plain; Path.plain].
Proof.
  apply (percent_decode [-61; -87; 32; 47]). repeat (constructor; [unfold is_char; lia|]). constructor.
Defined.

(** The code's own encoding is not that one: a space is written in decimal,
    as [%32], which decodes to the digit 2, and a byte above 127 becomes a
    negative number, which does not decode. *)
Theorem percent_encode_decimal :
  Component.encode [32] = bytes_of "%32" /\ Component.decode (bytes_of "%32") = Ok (bytes_of "2") /\
  Path.encode [-23] = bytes_of "%-23" /\ Path.decode (bytes_of "%-23") = Throw bad_uri /\
  rfc_encode Path.plain [-23; 32] = bytes_of "%E9%20".
Proof. repeat split; vm_compute; reflexivity. Qed.
