(* ===== verification/UriRoundTrip.v ===== *)
(** * http: printing and parsing a URI *)
From S2P Require Import Prelude Effects Numbers UriText Uri.

(** ** Canonical URIs

    The text of every component is what the printer copies: no character needs
    an encoding, scheme and host are in lower case, and the path is the one its
    segments spell. *)
Definition seg_char (c : Z) : bool :=
  uri_unreserved_character c || uri_subcomponent_delimiter c || (c =? chr "@") || (c =? chr ":").

Definition seg_ok (abs : bool) (s : bytes) : Prop :=
  s <> [] /\ Forall (fun c => seg_char c = true) s /\ (abs = true -> s <> dot /\ s <> dotdot).

Definition path_of (segs : list bytes) (a e : bool) : uri_path :=
  {| p_component := Path.segments_to_path segs a e; m_path := Path.segments_to_path segs a e;
     m_segments := segs; m_slash_at_start := a; m_slash_at_end := e |}.

Definition path_ok (p : uri_path) : Prop :=
  p = path_init \/ exists segs a e, segs <> [] /\ Forall (seg_ok a) segs /\ p = path_of segs a e.

Definition host_char (c : Z) : Prop := Host.regular c = true /\ tolower c = c.
Definition address_char (c : Z) : Prop := (isxdigit c || (c =? chr ":") || (c =? chr ".")) = true /\ tolower c = c.
Definition host_text (h : bytes) : Prop :=
  Forall host_char h \/ exists a, h = chr "[" :: a ++ [chr "]"] /\ Forall address_char a.

Record canonical (net : inet) (u : uri) : Prop := {
  ca_scheme : m_scheme u = [] \/ (Scheme.is_valid (m_scheme u) = true /\ tolower <$> m_scheme u = m_scheme u);
  ca_host : (m_host u = [] /\ m_userinfo u = [] /\ m_port u = []) \/
    (Host.is_valid net (m_host u) = true /\ host_text (m_host u) /\
     Forall (fun c => Userinfo.plain c = true) (m_userinfo u) /\
     (m_port u = [] \/ Port.is_valid (m_port u) = Ok true));
  ca_path : path_ok (m_upath u);
  ca_absolute : m_upath u <> path_init -> m_host u <> [] \/ m_scheme u = [] -> m_slash_at_start (m_upath u) = true;
  ca_query : Forall (fun c => Component.plain c = true) (m_query u);
  ca_fragment : Forall (fun c => Component.plain c = true) (m_fragment u) }.

(** ** Character facts *)
Lemma class_ne (p : Z -> bool) c d : p c = true -> p d = false -> c <> d.
Proof. intros H1 H2 ->. congruence. Qed.

Lemma class_Forall_ne (p : Z -> bool) (stop : Z -> bool) s :
  Forall (fun c => p c = true) s -> (forall c, stop c = true -> p c = false) -> Forall (fun c => stop c = false) s.
Proof.
  intros Hs Hp. eapply Forall_impl; [exact Hs|]. intros c Hc. simpl in Hc. destruct (stop c) eqn:E; [|done].
  rewrite Hp in Hc by done. done.
Qed.

(** Proves that a class has none of the characters of a stop test. *)
Ltac no_stop :=
  let c := fresh "c" in let H := fresh "H" in
  intros c H; unfold Uri.ends_authority, Uri.ends_path, slash in H;
  repeat (apply orb_true_iff in H; destruct H as [H|H]); apply Z.eqb_eq in H; subst c; vm_compute; reflexivity.

Lemma seg_char_plain c : seg_char c = true -> Path.plain c = true.
Proof.
  unfold seg_char, Path.plain. rewrite !orb_true_iff, !Z.eqb_eq. naive_solver.
Qed.

Lemma seg_char_valid lc c rest : seg_char c = true -> Path.valid_loop lc (c :: rest) = Path.valid_loop c rest.
Proof. intros H. cbn [Path.valid_loop]. unfold seg_char in H. by rewrite H. Qed.

Lemma seg_until s r : Forall (fun c => seg_char c = true) s -> r = [] \/ (exists r', r = slash :: r') ->
  until (fun c => c =? slash) (s ++ r) = (s, r).
Proof.
  intros Hs Hr. apply until_app; [by eapply class_Forall_ne; [exact Hs|no_stop]|].
  destruct Hr as [->|[r' ->]]; [by left|]. right. by exists slash, r'.
Qed.

(** ** Paths *)
Definition end_slash (e : bool) : bytes := if e then [slash] else [].

Lemma seg_ok_push a s segs : seg_ok a s -> Path.push_segment a segs s = segs ++ [s].
Proof.
  intros (Hne & _ & Hd). unfold Path.push_segment. destruct a; [destruct (Hd eq_refl)|]; by repeat case_decide.
Qed.

Lemma set_loop_step fuel a acc s r : s <> [] -> Forall (fun c => seg_char c = true) s ->
  r = [] \/ (exists r', r = slash :: r') ->
  Path.set_loop (S fuel) a acc (s ++ r) = Path.set_loop fuel a (Path.push_segment a acc s) (tail r).
Proof.
  intros Hs Hc Hr. pose proof (seg_until s r Hc Hr) as Hu. destruct s as [|c s]; [done|].
  change ((c :: s) ++ r) with (c :: s ++ r) in *. cbn [Path.set_loop]. by rewrite Hu.
Qed.

Lemma set_loop_nil fuel a acc : Path.set_loop fuel a acc [] = Ok acc.
Proof. by destruct fuel. Qed.

Lemma set_loop_join a e segs : Forall (seg_ok a) segs -> forall fuel acc, (length segs <= fuel)%nat -> segs <> [] ->
  Path.set_loop fuel a acc (Path.join segs ++ end_slash e) = Ok (acc ++ segs).
Proof.
  induction 1 as [|s segs Hs Hsegs IH]; intros fuel acc Hf Hne; [done|].
  destruct fuel as [|fuel]; [simpl in Hf; lia|]. pose proof Hs as (Hs1 & Hs2 & _).
  destruct segs as [|s2 segs].
  - cbn [Path.join]. rewrite set_loop_step by (done || (destruct e; simpl; eauto)).
    rewrite (seg_ok_push a s acc Hs). destruct e; simpl; by rewrite set_loop_nil.
  - change (Path.join (s :: s2 :: segs)) with (s ++ slash :: Path.join (s2 :: segs)).
    rewrite <- app_assoc. rewrite set_loop_step by (done || (right; simpl; eauto)).
    rewrite (seg_ok_push a s acc Hs). simpl tail. rewrite IH by (simpl in *; lia || done).
    by rewrite <- app_assoc.
Qed.

Lemma join_nonempty a segs : Forall (seg_ok a) segs -> segs <> [] ->
  exists c rest, Path.join segs = c :: rest /\ seg_char c = true.
Proof.
  intros H Hne. destruct segs as [|s segs]; [done|]. apply Forall_cons in H as [(Hs & Hc & _) _].
  destruct s as [|c s]; [done|]. apply Forall_cons in Hc as [Hc _].
  destruct segs; simpl; eauto.
Qed.

Lemma valid_seg s : Forall (fun c => seg_char c = true) s -> s <> [] -> forall lc r,
  exists c, seg_char c = true /\ Path.valid_loop lc (s ++ r) = Path.valid_loop c r.
Proof.
  induction 1 as [|c s Hc Hs IH]; intros Hne lc r; [done|].
  change ((c :: s) ++ r) with (c :: s ++ r). rewrite seg_char_valid by done.
  destruct s as [|d s]; [by exists c|]. by apply IH.
Qed.

Lemma slash_valid lc r : lc <> slash -> Path.valid_loop lc (slash :: r) = Path.valid_loop slash r.
Proof.
  intros H. cbn [Path.valid_loop]. rewrite (proj2 (Z.eqb_neq lc slash) H). reflexivity.
Qed.

Lemma seg_char_ne_slash c : seg_char c = true -> c <> slash.
Proof. intros H. by apply (class_ne seg_char). Qed.

Lemma valid_join a e segs : Forall (seg_ok a) segs -> segs <> [] -> forall lc,
  Path.valid_loop lc (Path.join segs ++ end_slash e) = true.
Proof.
  induction 1 as [|s segs (Hs1 & Hs2 & _) Hsegs IH]; intros Hne lc; [done|].
  destruct segs as [|s2 segs].
  - cbn [Path.join]. destruct (valid_seg s Hs2 Hs1 lc (end_slash e)) as (c & Hc & ->).
    destruct e; [|done]. simpl end_slash. by rewrite slash_valid by by apply seg_char_ne_slash.
  - change (Path.join (s :: s2 :: segs)) with (s ++ slash :: Path.join (s2 :: segs)). rewrite <- app_assoc.
    destruct (valid_seg s Hs2 Hs1 lc ((slash :: Path.join (s2 :: segs)) ++ end_slash e)) as (c & Hc & ->).
    change ((slash :: ?x) ++ ?y) with (slash :: x ++ y).
    rewrite slash_valid by (by apply seg_char_ne_slash). by apply IH.
Qed.

Lemma join_plain a segs : Forall (seg_ok a) segs -> Forall (fun c => Path.plain c = true) (Path.join segs).
Proof.
  induction 1 as [|s segs (_ & Hs & _) _ IH]; [constructor|].
  assert (Forall (fun c => Path.plain c = true) s) by (eapply Forall_impl; [exact Hs|apply seg_char_plain]).
  destruct segs as [|s2 segs]; [done|].
  change (Path.join (s :: s2 :: segs)) with (s ++ slash :: Path.join (s2 :: segs)).
  apply Forall_app. split; [done|]. by constructor.
Qed.

(** The text of a path. *)
Lemma path_text segs a e : segs <> [] -> Path.segments_to_path segs a e = (if a then [slash] else []) ++ Path.join segs ++ end_slash e.
Proof. by destruct segs. Qed.

Lemma path_text_plain segs a e : Forall (seg_ok a) segs -> segs <> [] ->
  Forall (fun c => Path.plain c = true) (Path.segments_to_path segs a e).
Proof.
  intros H Hne. rewrite path_text by done. pose proof (join_plain _ _ H).
  destruct a, e; simpl; repeat first [apply Forall_app; split|constructor]; done.
Qed.

Lemma path_text_valid segs a e : Forall (seg_ok a) segs -> segs <> [] -> Path.is_valid (Path.segments_to_path segs a e) = true.
Proof.
  intros H Hne. rewrite path_text by done. unfold Path.is_valid. repeat (case_decide; [done|]).
  destruct a; [|by apply (valid_join false)]. change ([slash] ++ ?x) with (slash :: x). rewrite slash_valid by done. by apply (valid_join true).
Qed.

Lemma last_snoc (l : bytes) x d : List.last (l ++ [x]) d = x.
Proof. apply last_last. Qed.

Lemma join_last a segs : Forall (seg_ok a) segs -> segs <> [] -> exists l c, Path.join segs = l ++ [c] /\ seg_char c = true.
Proof.
  induction 1 as [|s segs (Hs & Hc & _) _ IH]; intros Hne; [done|].
  destruct segs as [|s2 segs].
  - destruct (exists_last Hs) as (l & c & ->). exists l, c. split; [done|].
    apply Forall_app in Hc as [_ Hc]. by apply Forall_cons in Hc as [Hc _].
  - destruct (IH ltac:(done)) as (l & c & E & Hcc).
    change (Path.join (s :: s2 :: segs)) with (s ++ slash :: Path.join (s2 :: segs)). rewrite E.
    exists (s ++ slash :: l), c. split; [|done]. by rewrite <- app_assoc.
Qed.

Lemma path_set_text segs a e : Forall (seg_ok a) segs -> segs <> [] ->
  Path.set path_init (Path.segments_to_path segs a e) = Ok (path_of segs a e).
Proof.
  intros H Hne. unfold Path.set, Path.decode. rewrite decode_plain by by apply path_text_plain. cbn [rbind].
  destruct (join_nonempty _ _ H Hne) as (c & rest & Ej & Hc). pose proof (seg_char_ne_slash c Hc) as Hcs.
  destruct (join_last _ _ H Hne) as (l & z & El & Hz). pose proof (seg_char_ne_slash z Hz) as Hzs.
  assert ((slash =? List.last (Path.segments_to_path segs a e) 0) = e) as Hlast.
  { rewrite path_text, El by done. destruct e; simpl end_slash.
    - by rewrite !app_assoc, last_snoc.
    - rewrite app_nil_r, app_assoc, last_snoc. by apply Z.eqb_neq, not_eq_sym. }
  rewrite path_text in * by done.
  assert ((length segs <= length (Path.join segs ++ end_slash e))%nat) as Hfuel.
  { rewrite length_app. clear -H. induction H as [|s segs (Hs & _) _ IH]; [simpl; lia|].
    destruct segs; [simpl; destruct s; [done|simpl; lia]|].
    change (Path.join (s :: l :: segs)) with (s ++ slash :: Path.join (l :: segs)). rewrite length_app. simpl in *. lia. }
  destruct a.
  - change ([slash] ++ ?x) with (slash :: x) in *; cbn match. rewrite Hlast, Z.eqb_refl.
    cbn [tail p_component m_segments m_slash_at_start m_slash_at_end path_init].
    rewrite (set_loop_join true e segs H) by done. cbn [rbind app].
    unfold path_of. rewrite path_text by done. destruct segs as [|s0 segs]; [done|]. by destruct e.
  - change ([] ++ ?x) with x in *. rewrite Hlast. rewrite Ej in *. change ((c :: ?x) ++ ?y) with (c :: x ++ y) in *; cbn match.
    rewrite (proj2 (Z.eqb_neq slash c)) by done.
    cbn [p_component m_segments m_slash_at_start m_slash_at_end path_init].
    pose proof (set_loop_join false e segs H (length (c :: rest ++ end_slash e)) [] Hfuel Hne) as Hl.
    rewrite Ej in Hl. change ((c :: ?x) ++ ?y) with (c :: x ++ y) in Hl. rewrite Hl. cbn [rbind app].
    replace (c :: rest ++ end_slash e) with (Path.segments_to_path segs false e) by (by rewrite path_text, Ej).
    destruct segs as [|s0 segs]; [done|]. by destruct e.
Qed.

(** ** The stages of the parser

    [parses net u seen str v]: from [u], the rest [str] of the string makes [v],
    whatever fuel is at least its length. *)
Definition parses (net : inet) (u : uri) (seen : bool) (str : bytes) (v : uri) : Prop :=
  forall fuel, (length str <= fuel)%nat -> Uri.parse_loop fuel net u seen str = Ok v.

Lemma parses_nil net u seen : parses net u seen [] u.
Proof. intros fuel _. by destruct fuel. Qed.

(** A round of the loop. *)
Lemma parses_round net u seen c str u' rest seen' v :
  (forall fuel, Uri.parse_loop (S fuel) net u seen (c :: str) = Uri.parse_loop fuel net u' seen' rest) ->
  (length rest <= length str)%nat -> parses net u' seen' rest v -> parses net u seen (c :: str) v.
Proof.
  intros Hr Hl Hp [|fuel] Hf; simpl in Hf; [lia|]. rewrite Hr. apply Hp. lia.
Qed.

Abbreviation mk s ui h p pa q f :=
  {| m_scheme := s; m_userinfo := ui; m_host := h; m_port := p; m_upath := pa; m_query := q; m_fragment := f |}.

Lemma is_present_cons c s : is_present (c :: s) = true.
Proof. done. Qed.

Lemma component_valid q : q <> [] -> Forall (fun c => Component.plain c = true) q -> Component.is_valid q = true.
Proof. intros Hq H. unfold Component.is_valid. rewrite decide_False by done. by apply valid_plain. Qed.

Lemma fragment_stage net seen s ui h p pa q f : Forall (fun c => Component.plain c = true) f ->
  parses net (mk s ui h p pa q []) seen (if is_present f then chr "#" :: Component.encode f else []) (mk s ui h p pa q f).
Proof.
  intros Hf. destruct f as [|c f]; [apply parses_nil|]. rewrite is_present_cons.
  unfold Component.encode. rewrite encode_plain by done.
  eapply (parses_round _ _ _ _ _ _ []); [intros fuel|simpl; lia|apply parses_nil].
  cbn [Uri.parse_loop]. change (chr "#" =? slash) with false. change (chr "#" =? chr "?") with false.
  change (chr "#" =? chr "#") with true. cbn iota. unfold Uri.parse_fragment. cbn [Uri.at0 tail].
  change (negb (chr "#" =? chr "#")) with false. cbn iota. rewrite component_valid by done. cbn [negb].
  unfold Uri.set_fragment, Component.set, Component.decode. rewrite decode_plain by done. done.
Qed.

Definition starts (stop : Z -> bool) (s : bytes) : Prop := s = [] \/ exists c r, s = c :: r /\ stop c = true.

Lemma query_stage net seen s ui h p pa q rest v : Forall (fun c => Component.plain c = true) q ->
  starts (fun c => c =? chr "#") rest ->
  parses net (mk s ui h p pa q []) seen rest v ->
  parses net (mk s ui h p pa [] []) seen ((if is_present q then chr "?" :: Component.encode q else []) ++ rest) v.
Proof.
  intros Hq Hr Hp. destruct q as [|c q]; [done|]. rewrite is_present_cons.
  unfold Component.encode. rewrite encode_plain by done.
  change ((chr "?" :: c :: q) ++ rest) with (chr "?" :: (c :: q) ++ rest).
  eapply (parses_round _ _ _ _ _ _ rest); [intros fuel|rewrite length_app; lia|exact Hp].
  cbn [Uri.parse_loop]. change (chr "?" =? slash) with false. change (chr "?" =? chr "?") with true.
  cbn iota. unfold Uri.parse_query. cbn [Uri.at0 tail]. change (negb (chr "?" =? chr "?")) with false. cbn iota.
  rewrite until_app; [|by eapply class_Forall_ne; [exact Hq|no_stop]|exact Hr].
  rewrite component_valid by done. cbn [negb].
  unfold Uri.set_query, Component.set, Component.decode. rewrite decode_plain by done. done.
Qed.

Lemma path_stage net seen s ui h p pa rest v : path_ok pa ->
  (pa <> path_init -> m_slash_at_start pa = true \/ seen = true) -> starts Uri.ends_path rest ->
  parses net (mk s ui h p pa [] []) seen rest v ->
  parses net (mk s ui h p path_init [] []) seen
    ((if is_present (p_component pa) then Path.encode (p_component pa) else []) ++ rest) v.
Proof.
  intros Hpa Habs Hr Hp. destruct Hpa as [->|(segs & a & e & Hne & Hs & ->)]; [done|].
  assert (a = true \/ seen = true) as Ha.
  { apply Habs. intros E. apply (f_equal m_segments) in E. done. }
  unfold Path.encode. cbn [path_of p_component].
  pose proof (path_text_plain segs a e Hs Hne) as Hpl. pose proof (path_text_valid segs a e Hs Hne) as Hval.
  pose proof (path_set_text segs a e Hs Hne) as Hset. rewrite encode_plain by done.
  assert (forall u, m_upath u = path_init -> Uri.parse_path u (Path.segments_to_path segs a e ++ rest) =
    Ok (mk (m_scheme u) (m_userinfo u) (m_host u) (m_port u) (path_of segs a e) (m_query u) (m_fragment u), rest)) as Hpp.
  { intros u Hu. unfold Uri.parse_path.
    rewrite until_app; [|by eapply class_Forall_ne; [exact Hpl|no_stop]|exact Hr].
    rewrite Hval. cbn [negb]. unfold Uri.set_path. by rewrite Hu, Hset. }
  assert (exists c t, Path.segments_to_path segs a e = c :: t /\
    ((c = slash /\ Uri.at0 (t ++ rest) <> slash) \/ (a = false /\ seg_char c = true))) as (c & t & Et & Hc).
  { destruct (join_nonempty _ _ Hs Hne) as (c & t & Ej & Hc). rewrite path_text, Ej by done. destruct a.
    - exists slash, ((c :: t) ++ end_slash e). split; [done|]. left. split; [done|]. simpl. by apply seg_char_ne_slash.
    - exists c, (t ++ end_slash e). split; [done|]. by right. }
  rewrite Et in *. rewrite is_present_cons. change ((c :: t) ++ rest) with (c :: t ++ rest) in *.
  eapply (parses_round _ _ _ _ _ _ rest); [intros fuel|rewrite length_app; lia|exact Hp].
  cbn [Uri.parse_loop]. destruct Hc as [[-> Hd]|[-> Hc]].
  - change (slash =? slash) with true. cbn iota. rewrite (proj2 (Z.eqb_neq _ _) Hd). rewrite Hpp by done. done.
  - destruct Ha as [?| ->]; [done|].
    rewrite (proj2 (Z.eqb_neq c slash)) by (by apply seg_char_ne_slash).
    rewrite (proj2 (Z.eqb_neq c (chr "?"))) by (by apply (class_ne seg_char)).
    rewrite (proj2 (Z.eqb_neq c (chr "#"))) by (by apply (class_ne seg_char)). rewrite Hpp by done. done.
Qed.

(** ** Authority and scheme *)
Lemma host_char_facts h : Forall host_char h ->
  Forall (fun c => Host.plain c = true) h /\ Forall (fun c => Host.regular c = true) h /\ Host.encode h = h.
Proof.
  induction 1 as [|c h [Hc Hl] _ (IH1 & IH2 & IH3)]; [done|].
  assert (Host.plain c = true) as Hp by (unfold Host.plain, Host.regular in *; by rewrite Hc).
  split; [by constructor|]. split; [by constructor|]. cbn [Host.encode]. rewrite Hl, Hp, IH3. by destruct (uri_unreserved_character c).
Qed.

Lemma address_char_facts a : Forall address_char a ->
  Forall (fun c => Host.plain c = true) a /\ Forall (fun c => (isxdigit c || (c =? chr ":") || (c =? chr ".")) = true) a /\
  forall r, Host.encode (a ++ r) = a ++ Host.encode r.
Proof.
  induction 1 as [|c a [Hc Hl] _ (IH1 & IH2 & IH3)]; [done|].
  assert (Host.plain c = true) as Hp.
  { unfold Host.plain, uri_unreserved_character, isalpha. unfold isxdigit in Hc.
    rewrite !orb_true_iff, !andb_true_iff, !Z.leb_le, !Z.eqb_eq in Hc.
    destruct Hc as [[[[Hc|Hc]|Hc]|Hc]|Hc]; [by rewrite Hc, orb_true_r| | | |];
      [rewrite (proj2 (Z.leb_le 65 c)), (proj2 (Z.leb_le c 90)) by lia; done
      |rewrite (proj2 (Z.leb_le 97 c)), (proj2 (Z.leb_le c 122)), (proj2 (Z.leb_gt c 90)), !andb_false_r by lia; done|subst c; done|subst c; done]. }
  split; [by constructor|]. split; [by constructor|]. intros r. change ((c :: a) ++ r) with (c :: a ++ r). cbn [Host.encode]. rewrite Hl, Hp, IH3.
  by destruct (uri_unreserved_character c).
Qed.

(** What the host of a canonical URI contributes to parsing. *)
Lemma host_text_facts net h : Host.is_valid net h = true -> host_text h ->
  Host.encode h = h /\ Host.set net h = Ok h /\ h <> [] /\
  Forall (fun c => Uri.ends_authority c = false) h /\ Forall (fun c => (c =? chr "@") = false) h /\
  forall r, starts (fun c => c =? chr ":") r ->
    (if Uri.at0 (h ++ r) =? chr "[" then
       let '(h', r') := until (fun c => c =? chr "]") (h ++ r) in
       if negb (Uri.at0 r' =? chr "]") then Throw bad_uri else Ok (h' ++ [chr "]"], tail r')
     else Ok (until (fun c => (c =? chr ":") || (c =? slash)) (h ++ r))) = Ok (h, r).
Proof.
  intros Hv Ht. assert (h <> []) as Hne by (by intros ->).
  assert (Forall (fun c => Host.plain c = true) h -> Host.set net h = Ok h) as Hset.
  { intros H. unfold Host.set, Host.decode. rewrite Hv. cbn [negb]. by apply decode_plain. }
  assert (Forall (fun c => Host.plain c = true) h ->
    Forall (fun c => Uri.ends_authority c = false) h /\ Forall (fun c => (c =? chr "@") = false) h) as Hstop.
  { intros H. split; (eapply class_Forall_ne; [exact H|no_stop]). }
  destruct Ht as [Hc|(a & -> & Ha)].
  - destruct (host_char_facts h Hc) as (Hp & Hr & He). split; [done|]. split; [auto|]. split; [done|].
    split; [apply Hstop; done|]. split; [apply Hstop; done|]. intros r Hst.
    destruct h as [|c h]; [done|]. change ((c :: h) ++ r) with (c :: h ++ r). cbn [Uri.at0].
    assert (c <> chr "[") as Hcb by (apply Forall_cons in Hr as [Hr _]; by apply (class_ne Host.regular)).
    rewrite (proj2 (Z.eqb_neq _ _) Hcb). f_equal. change (c :: h ++ r) with ((c :: h) ++ r). apply until_app.
    + eapply class_Forall_ne; [exact Hr|no_stop].
    + destruct Hst as [->|(d & r' & -> & Hd)]; [by left|right]. exists d, r'. by rewrite Hd.
  - destruct (address_char_facts a Ha) as (Hp & Hx & He).
    assert (Forall (fun c => Host.plain c = true) (chr "[" :: a ++ [chr "]"])) as Hpl.
    { constructor; [done|]. apply Forall_app. split; [done|]. by constructor. }
    split; [cbn [Host.encode]; by rewrite He|]. split; [auto|]. split; [done|].
    split; [apply Hstop; done|]. split; [apply Hstop; done|]. intros r Hst.
    change ((chr "[" :: a ++ [chr "]"]) ++ r) with (chr "[" :: (a ++ [chr "]"]) ++ r). cbn [Uri.at0].
    change (chr "[" =? chr "[") with true. cbn iota. rewrite <- app_assoc.
    change (chr "[" :: a ++ [chr "]"] ++ r) with ((chr "[" :: a) ++ chr "]" :: r).
    rewrite until_app; [done| |right; by exists (chr "]"), r].
    constructor; [done|]. eapply class_Forall_ne; [exact Hx|no_stop].
Qed.

Lemma port_facts p : Port.is_valid p = Ok true -> p <> [] /\ Forall (fun c => isdigit c = true) p /\ Port.set p = Ok p.
Proof.
  intros H. assert (Port.set p = Ok p) as Hs by (unfold Port.set; by rewrite H). split; [|split; [|done]].
  - intros ->. done.
  - unfold Port.is_valid in H. case_decide; [done|]. destruct (forallb isdigit p) eqn:E; [|done].
    apply Forall_forall. intros x Hx%list_elem_of_In. by apply (proj1 (forallb_forall _ _) E).
Qed.

Definition port_text (p : bytes) : bytes := if is_present p then chr ":" :: p else [].

Lemma port_text_facts p : (p = [] \/ Port.is_valid p = Ok true) ->
  Forall (fun c => Uri.ends_authority c = false) (port_text p) /\ Forall (fun c => (c =? chr "@") = false) (port_text p) /\
  starts (fun c => c =? chr ":") (port_text p) /\
  forall s ui h pa q f,
    (if Uri.at0 (port_text p) =? chr ":" then Uri.set_port (mk s ui h [] pa q f) (tail (port_text p)) else Ok (mk s ui h [] pa q f))
    = Ok (mk s ui h p pa q f).
Proof.
  intros [->|Hp]; [by repeat split; try constructor|].
  destruct (port_facts p Hp) as (Hne & Hd & Hs). destruct p as [|c p]; [done|]. unfold port_text. rewrite is_present_cons.
  split; [constructor; [done|]; eapply class_Forall_ne; [exact Hd|no_stop]|].
  split; [constructor; [done|]; eapply class_Forall_ne; [exact Hd|no_stop]|].
  split; [right; by exists (chr ":"), (c :: p)|].
  intros. cbn [Uri.at0 tail]. change (chr ":" =? chr ":") with true. cbn iota. unfold Uri.set_port. by rewrite Hs.
Qed.

Lemma userinfo_stage s ui h p : Forall (fun c => Userinfo.plain c = true) ui ->
  Forall (fun c => (c =? chr "@") = false) (h ++ port_text p) ->
  let auth := (if is_present ui then Userinfo.encode ui ++ [chr "@"] else []) ++ h ++ port_text p in
  (let '(userinfo, after) := until (fun c => c =? chr "@") auth in
   match after with
   | _ :: hostport =>
       if negb (Userinfo.is_valid userinfo) then Throw bad_uri
       else let? u := Uri.set_userinfo (mk s [] [] [] path_init [] []) userinfo in Ok (u, hostport)
   | [] => Ok (mk s [] [] [] path_init [] [], auth)
   end) = Ok (mk s ui [] [] path_init [] [], h ++ port_text p).
Proof.
  intros Hui Hat auth. subst auth. destruct ui as [|c ui].
  - simpl app. by rewrite until_all.
  - rewrite is_present_cons. unfold Userinfo.encode. rewrite encode_plain by done. rewrite <- app_assoc.
    rewrite until_app; [|by eapply class_Forall_ne; [exact Hui|no_stop]|right; by exists (chr "@"), (h ++ port_text p)].
    cbn [app]. unfold Userinfo.is_valid. rewrite decide_False, valid_plain by done. cbn [negb].
    unfold Uri.set_userinfo, Userinfo.set, Userinfo.decode. by rewrite decode_plain.
Qed.

Lemma authority_stage net seen s ui h p rest v :
  Host.is_valid net h = true -> host_text h -> Forall (fun c => Userinfo.plain c = true) ui ->
  (p = [] \/ Port.is_valid p = Ok true) -> starts Uri.ends_authority rest ->
  parses net (mk s ui h p path_init [] []) seen rest v ->
  parses net (mk s [] [] [] path_init [] []) seen
    (([slash; slash] ++ (if is_present ui then Userinfo.encode ui ++ [chr "@"] else []) ++ Host.encode h ++ port_text p) ++ rest) v.
Proof.
  intros Hv Ht Hui Hp Hr Hgo.
  destruct (host_text_facts net h Hv Ht) as (He & Hset & Hne & Hs1 & Hs2 & Hsplit).
  destruct (port_text_facts p Hp) as (Hp1 & Hp2 & Hp3 & Hp4). rewrite He.
  set (auth := (if is_present ui then Userinfo.encode ui ++ [chr "@"] else []) ++ h ++ port_text p).
  assert (Forall (fun c => Uri.ends_authority c = false) auth) as Hauth.
  { subst auth. apply Forall_app. split; [|by apply Forall_app].
    destruct (is_present ui); [|constructor]. unfold Userinfo.encode. rewrite encode_plain by done.
    apply Forall_app. split; [eapply class_Forall_ne; [exact Hui|no_stop]|by constructor]. }
  change (([slash; slash] ++ auth) ++ rest) with (slash :: slash :: auth ++ rest).
  eapply (parses_round _ _ _ _ _ _ rest); [intros fuel|simpl; rewrite length_app; lia|exact Hgo].
  cbn [Uri.parse_loop]. change (slash =? slash) with true. cbn iota. cbn [Uri.at0]. change (slash =? slash) with true. cbn iota.
  unfold Uri.parse_authority. cbn [Uri.at0 tail]. change (negb (slash =? slash)) with false. cbn [orb].
  rewrite (until_app _ auth rest Hauth Hr).
  pose proof (userinfo_stage s ui h p Hui ltac:(by apply Forall_app)) as Hu. cbv zeta in Hu. fold auth in Hu.
  destruct (until (fun c => c =? chr "@") auth) as [userinfo after]. rewrite Hu. cbn [rbind].
  rewrite Hsplit by done. cbn [rbind]. unfold Uri.set_host. rewrite Hset. cbn [rbind m_scheme m_userinfo m_port m_upath m_query m_fragment].
  rewrite Hp4. done.
Qed.

Lemma scheme_rest_colon s : Scheme.valid_rest s = true -> Forall (fun c => (c =? chr ":") = false /\ (c =? slash) = false) s.
Proof.
  induction s as [|c s IH]; [constructor|]. simpl.
  destruct (isalpha c || isdigit c || (c =? chr "+") || (c =? chr "-") || (c =? chr ".")) eqn:E; [|done].
  intros H. constructor; [|auto]. split; apply Z.eqb_neq;
    by apply (class_ne (fun c => isalpha c || isdigit c || (c =? chr "+") || (c =? chr "-") || (c =? chr "."))).
Qed.

Lemma scheme_stage net s rest v : Scheme.is_valid s = true -> tolower <$> s = s ->
  parses net (mk s [] [] [] path_init [] []) true rest v ->
  parses net uri_init false ((Scheme.encode s ++ [chr ":"]) ++ rest) v.
Proof.
  intros Hv Hl Hgo. unfold Scheme.encode. rewrite Hl, <- app_assoc. pose proof Hv as Hv'.
  destruct s as [|c s]; [done|]. simpl in Hv. destruct (isalpha c) eqn:Ea; [|done]. simpl in Hv.
  pose proof (scheme_rest_colon s Hv) as Hs.
  assert (Forall (fun c => (c =? chr ":") = false /\ (c =? slash) = false) (c :: s)) as Hcs.
  { constructor; [|done]. split; apply Z.eqb_neq; by apply (class_ne isalpha). }
  assert (forall r, Uri.first_delim ((c :: s) ++ chr ":" :: r) = chr ":") as Hd.
  { intros r. clear -Hcs. induction Hcs as [|d t [H1 H2] _ IH]; [done|].
    change ((d :: t) ++ ?x) with (d :: t ++ x). cbn [Uri.first_delim]. by rewrite H1, H2. }
  change ((c :: s) ++ [chr ":"] ++ rest) with (c :: s ++ chr ":" :: rest).
  eapply (parses_round _ _ _ _ _ _ rest); [intros fuel|rewrite length_app; simpl; lia|exact Hgo].
  cbn [Uri.parse_loop]. rewrite (proj2 (Z.eqb_neq c slash)) by (by apply (class_ne isalpha)).
  rewrite (proj2 (Z.eqb_neq c (chr "?"))) by (by apply (class_ne isalpha)).
  rewrite (proj2 (Z.eqb_neq c (chr "#"))) by (by apply (class_ne isalpha)).
  change (c :: s ++ chr ":" :: rest) with ((c :: s) ++ chr ":" :: rest). rewrite Hd.
  change (chr ":" =? chr ":") with true. cbn iota. unfold Uri.parse_scheme.
  rewrite until_app; [|eapply Forall_impl; [exact Hcs|by intros ? []]|right; by exists (chr ":"), rest].
  cbn [Uri.at0 tail]. change (negb (chr ":" =? chr ":")) with false. cbn iota.
  unfold Uri.set_scheme, Scheme.set. rewrite Hv'. done.
Qed.

Lemma canonical_parses net u : canonical net u -> Uri.parse net (Uri.print u) = Ok u.
Proof.
  destruct u as [s ui h p pa q f]. intros [Hs Hh Hpa Habs Hq Hf]. simpl in *.
  pose proof (fragment_stage net (is_present s) s ui h p pa q f Hf) as P4.
  assert (starts (fun c => c =? chr "#") (if is_present f then chr "#" :: Component.encode f else [])) as S4.
  { destruct (is_present f); [right; eauto|by left]. }
  pose proof (query_stage net (is_present s) s ui h p pa q _ _ Hq S4 P4) as P3.
  set (t3 := (if is_present q then chr "?" :: Component.encode q else []) ++ _) in P3.
  assert (starts Uri.ends_path t3) as S3.
  { subst t3. destruct (is_present q); [right; by eexists _, _|]. destruct (is_present f); [right; by eexists _, _|by left]. }
  assert (pa <> path_init -> m_slash_at_start pa = true \/ is_present s = true) as Ha.
  { intros Hne. destruct s; [left; apply Habs; auto|by right]. }
  pose proof (path_stage net (is_present s) s ui h p pa t3 _ Hpa Ha S3 P3) as P2.
  set (t2 := (if is_present (p_component pa) then Path.encode (p_component pa) else []) ++ t3) in P2.
  assert (parses net (mk s [] [] [] path_init [] []) (is_present s)
    ((if is_present h then [slash; slash] ++ (if is_present ui then Userinfo.encode ui ++ [chr "@"] else []) ++
        Host.encode h ++ port_text p else []) ++ t2) (mk s ui h p pa q f)) as P1.
  { destruct Hh as [(-> & -> & ->)|(Hv & Ht & Hui & Hp)]; [exact P2|].
    destruct h as [|c h]; [done|]. rewrite is_present_cons.
    apply authority_stage; try done. subst t2.
    destruct Hpa as [->|(segs & a & e & Hsn & Hso & ->)].
    { simpl. destruct S3 as [->|(d & r & -> & Hd)]; [by left|right]. exists d, r. split; [done|].
      unfold Uri.ends_path, Uri.ends_authority in *. rewrite <- orb_assoc, Hd. apply orb_true_r. }
    assert (path_of segs a e <> path_init) as Hne by (intros E; by apply (f_equal m_segments) in E).
    assert (a = true) as -> by (apply (Habs Hne); by left). right.
    unfold Path.encode. cbn [path_of p_component]. rewrite encode_plain by (by apply path_text_plain).
    rewrite path_text by done. change ([slash] ++ ?x) with (slash :: x). rewrite is_present_cons.
    by eexists _, _. }
  unfold Uri.parse, Uri.print. cbn [m_scheme m_userinfo m_host m_port m_upath m_query m_fragment].
  assert (parses net uri_init false
    ((if is_present s then Scheme.encode s ++ [chr ":"] else []) ++
     (if is_present h then [slash; slash] ++ (if is_present ui then Userinfo.encode ui ++ [chr "@"] else []) ++
        Host.encode h ++ port_text p else []) ++ t2) (mk s ui h p pa q f)) as P0.
  { destruct s as [|c s]; [exact P1|]. rewrite is_present_cons in *. destruct Hs as [?|[Hv Hl]]; [done|].
    by apply scheme_stage. }
  apply P0. apply le_n.
Qed.

(** C33. A URI in canonical form survives printing and parsing. *)
Theorem uri_parse_print net u (Hu : canonical net u) : Uri.parse net (Uri.print u) = Ok u.
Proof. by apply canonical_parses. Qed.

Definition demo_inet : inet := {| inet_pton4 := fun _ => false; inet_pton6 := fun a => bool_decide (a = bytes_of "2001:db8::7") |}.
Definition demo_uri : uri :=
  mk (bytes_of "ldap") (bytes_of "rd") (bytes_of "[2001:db8::7]") (bytes_of "8042")
     (path_of [bytes_of "c=GB"; bytes_of "d;p"] true true) (bytes_of "objectClass?one") (bytes_of "s/../x").

Lemma uri_parse_print_witness :
  Uri.print demo_uri = bytes_of "ldap://rd@[2001:db8::7]:8042/c=GB/d;p/?objectClass?one#s/../x" /\
  Uri.parse demo_inet (Uri.print demo_uri) = Ok demo_uri.
Proof.
  split; [vm_compute; reflexivity|]. apply (uri_parse_print demo_inet demo_uri). split; simpl.
  - right. split; vm_compute; reflexivity.
  - right. split; [vm_compute; reflexivity|]. split; [|split; [repeat constructor|right; vm_compute; reflexivity]].
    right. exists (bytes_of "2001:db8::7"). split; [vm_compute; reflexivity|]. repeat constructor.
  - right. exists [bytes_of "c=GB"; bytes_of "d;p"], true, true. split; [done|]. split; [|done].
    repeat (constructor; [split; [done|split; [repeat constructor|intros _; split; intros ?; discriminate]]|]). constructor.
  - done.
  - repeat constructor.
  - repeat constructor.
Defined.

(** ** Merging paths *)

(** C34. Merging a relative path with an absolute one, when every character of
    their segments stands for itself: the segments are those of the base without
    the last one, whether or not the base ends in a slash, followed by the relative
    ones, where each [..] takes a segment away, if there is one, and [.] does
    nothing.  The merged path is the absolute path of these segments, without dot
    segments and with the trailing slash of the relative path; when no segment is
    left it is the empty path.  An absolute path replaces the base. *)
Theorem path_merge_resolves base brel e rsegs ra re
  (Hb : Forall (seg_ok true) base) (Hr : Forall (seg_ok false) rsegs) :
  let rel := {| p_component := brel; m_path := brel; m_segments := rsegs; m_slash_at_start := ra; m_slash_at_end := re |} in
  let segs := Path.merge_loop (removelast base) rsegs in
  Path.merge (path_of base true e) rel =
    Ok (if ra then rel else if decide (segs = []) then path_init else path_of segs true re) /\
  Forall (seg_ok true) segs.
Proof.
  cbv zeta.
  assert (forall acc, Forall (seg_ok true) acc -> Forall (seg_ok true) (Path.merge_loop acc rsegs)) as Hloop.
  { induction Hr as [|s rsegs (Hs1 & Hs2 & _) _ IH]; intros acc Hacc; [done|]. simpl.
    case_decide; [apply IH|case_decide; [by apply IH|apply IH]].
    - destruct (decide (acc = [])) as [->|Hn]; [done|]. rewrite (app_removelast_last [] Hn) in Hacc.
      by apply Forall_app in Hacc as [? _].
    - apply Forall_app. split; [done|]. constructor; [|constructor]. by split. }
  assert (Forall (seg_ok true) (Path.merge_loop (removelast base) rsegs)) as Hall.
  { apply Hloop. destruct (decide (base = [])) as [->|Hn]; [done|]. rewrite (app_removelast_last [] Hn) in Hb.
    by apply Forall_app in Hb as [? _]. }
  split; [|done]. unfold Path.merge. cbn [m_slash_at_start m_segments m_slash_at_end path_of]. destruct ra; [done|].
  destruct (Path.merge_loop (removelast base) rsegs) as [|s segs]; [done|]. rewrite decide_False by done. by apply path_set_text.
Qed.

Lemma path_merge_resolves_witness :
  let base := [bytes_of "b"; bytes_of "c"; bytes_of "d;p"] in
  Path.merge (path_of base true false)
    {| p_component := bytes_of "../g/./h/"; m_path := bytes_of "../g/./h/";
       m_segments := [dotdot; bytes_of "g"; dot; bytes_of "h"]; m_slash_at_start := false; m_slash_at_end := true |} =
  Ok (path_of [bytes_of "b"; bytes_of "g"; bytes_of "h"] true true) /\
  Path.merge (path_of base true false)
    {| p_component := bytes_of "../../"; m_path := bytes_of "../../";
       m_segments := [dotdot; dotdot]; m_slash_at_start := false; m_slash_at_end := true |} = Ok path_init.
Proof.
  assert (Forall (seg_ok true) [bytes_of "b"; bytes_of "c"; bytes_of "d;p"]) as Hb.
  { repeat (constructor; [split; [done|split; [repeat constructor|intros _; split; intros ?; discriminate]]|]). constructor. }
  split.
  - apply (path_merge_resolves [bytes_of "b"; bytes_of "c"; bytes_of "d;p"] (bytes_of "../g/./h/") false
      [dotdot; bytes_of "g"; dot; bytes_of "h"] false true Hb).
    repeat (constructor; [split; [done|split; [repeat constructor|done]]|]). constructor.
  - apply (path_merge_resolves [bytes_of "b"; bytes_of "c"; bytes_of "d;p"] (bytes_of "../../") false [dotdot; dotdot] false true Hb).
    repeat (constructor; [split; [done|split; [repeat constructor|done]]|]). constructor.
Defined.

(** The text of a reference resolved against a base. *)
Definition resolve_text (b r : string) : res uri_exn bytes :=
  let? b := Uri.parse demo_inet (bytes_of b) in let? r := Uri.parse demo_inet (bytes_of r) in
  let? u := Uri.merge b r in Ok (Uri.print u).

(** Where parsing and merging depart from RFC 3986: a path that starts with
    two slashes replaces the host; a relative path merged with an empty base
    path, or with a base path that ends in a slash, gives the wrong path; a path
    with an encoded space cannot be merged, because the decoded text is decoded
    again; a colon in the query makes a relative reference a malformed scheme. *)
Theorem uri_deviations :
  (let? u := Uri.parse demo_inet (bytes_of "http://good.org//evil.org/x") in Ok (m_host u, p_component (m_upath u)))
    = Ok (bytes_of "evil.org", bytes_of "/x") /\
  resolve_text "http://a" "g" = Ok (bytes_of "http://ag") /\
  resolve_text "http://a/b/" "c" = Ok (bytes_of "http://a/c") /\
  resolve_text "http://a/b" "c%20d" = Throw bad_uri /\
  Uri.parse demo_inet (bytes_of "g?x:y") = Throw bad_uri /\
  Uri.parse demo_inet (bytes_of "http://a:99999999999/") = Throw stoi_out_of_range.
Proof. repeat split; vm_compute; reflexivity. Qed.
