(* ===== verification/Text.v ===== *)
(** * Standard strings and exceptions

    What the C++ code of libcom and http uses of <string>: positions, substrings
    and [std::stoi], [snf::trim] (libcom/src/common.cpp), and the exceptions this
    code throws (http/include/common/status.h). *)
From S2P Require Import Prelude Effects Numbers UriText.

(** Exceptions carry no text here.  The five exceptions of status.h and of
    uri.h derive from [std::runtime_error]. *)
Inductive cpp_exn :=
  | invalid_argument
  | out_of_range
  | runtime_error
  | system_error (syserr : Z)
  | bad_function_call
  | regex_error
  | uri_error (e : uri_exn)
  | bad_message
  | not_implemented
  | not_found
  | http_exception (status : Z).

#[export] Instance uri_exn_eq_dec : EqDecision uri_exn.
Proof. solve_decision. Defined.
#[export] Instance cpp_exn_eq_dec : EqDecision cpp_exn.
Proof. solve_decision. Defined.

(** [s[i]]: a NUL at the end, undefined behaviour after it. *)
Definition char_at (s : bytes) (i : nat) : res cpp_exn Z :=
  match s !! i with
  | Some c => Ok c
  | None => if decide (i = length s) then Ok 0 else Ub
  end.

(** [s.substr(pos, n)] *)
Definition substr (s : bytes) (pos n : nat) : res cpp_exn bytes :=
  if decide (length s < pos)%nat then Throw out_of_range else Ok (take n (drop pos s)).

(** [std::stoi(s)]: the characters after the number are ignored. *)
Definition stoi (s : bytes) : res cpp_exn Z :=
  match scan_int s with
  | None => Throw invalid_argument
  | Some (v, _) => if decide (- 2 ^ 31 <= v < 2 ^ 31) then Ok v else Throw out_of_range
  end.

(** [std::stoull(s)], which negates a number with a sign modulo 2^64. *)
Definition stoull (s : bytes) : res cpp_exn Z :=
  match scan_int s with
  | None => Throw invalid_argument
  | Some (v, _) => if decide (- 2 ^ 64 < v < 2 ^ 64) then Ok (wrapU 64 v) else Throw out_of_range
  end.

(** The white space [trim] removes. *)
Definition is_trimmed (c : Z) : bool :=
  (c =? 32) || (c =? 12) || (c =? 10) || (c =? 13) || (c =? 9) || (c =? 11).

(** [snf::trim] *)
Definition trim (str : bytes) : bytes :=
  rev (skip_while is_trimmed (rev (skip_while is_trimmed str))).

(** ** Lemmas *)
Lemma skip_while_stop p s : (match s with c :: _ => p c = false | [] => True end) -> skip_while p s = s.
Proof. destruct s as [|c s]; [done|]. simpl. by intros ->. Qed.

(** A text without white space at its ends. *)
Definition trimmed (s : bytes) : Prop := trim s = s.

Lemma skip_while_idemp p s : skip_while p (skip_while p s) = skip_while p s.
Proof. induction s as [|c s IH]; simpl; [done|]. destruct (p c) eqn:E; [done|]. simpl. by rewrite E. Qed.

Lemma skip_while_suffix p s : exists w, s = w ++ skip_while p s /\ Forall (fun c => p c = true) w.
Proof.
  induction s as [|c s (w & IH & Hw)]; simpl; [by exists []|].
  destruct (p c) eqn:E; [|by exists []]. exists (c :: w). simpl. rewrite <- IH. auto.
Qed.

Lemma skip_while_head p s : match skip_while p s with c :: _ => p c = false | [] => True end.
Proof. induction s as [|c s IH]; simpl; [done|]. destruct (p c) eqn:E; done. Qed.

Lemma trim_idemp s : trimmed (trim s).
Proof.
  unfold trimmed, trim. set (u := skip_while is_trimmed s).
  destruct (skip_while_suffix is_trimmed (rev u)) as (w & Hu & _).
  set (v := skip_while is_trimmed (rev u)) in *.
  assert (skip_while is_trimmed (rev v) = rev v) as ->.
  { apply skip_while_stop. pose proof (skip_while_head is_trimmed s) as Hh. fold u in Hh.
    assert (u = rev v ++ rev w) as Eu by (rewrite <- (rev_involutive u), Hu, rev_app_distr; done).
    rewrite Eu in Hh. by destruct (rev v). }
  rewrite rev_involutive. unfold v. by rewrite skip_while_idemp.
Qed.
