(* ===== verification/Timeutil.v ===== *)
(** * libcom: dates and times (libcom/include/timeutil.h, libcom/src/timeutil.cpp)

    The Unix side of [snf::datetime]: its fields, the two text formats, and the
    seconds since the epoch. *)
From S2P Require Import Prelude Effects Numbers UriText Text.

Module DateTime.

(** ** The calendar of [gmtime_r] *)

(** The fields of [std::tm] that the code reads or writes. *)
Record tm := {
  tm_year : Z; tm_mon : Z; tm_mday : Z; tm_hour : Z; tm_min : Z; tm_sec : Z; tm_wday : Z }.

(** The day [d] of an era of 400 years: the year of the era from 1 and the day
    of that year from 0, by centuries, groups of four years and years. *)
Definition year_of_day (d : Z) : Z * Z :=
  let century := Z.min 3 (d / 36524) in
  let r := d - 36524 * century in
  let y := Z.min 3 (r mod 1461 / 365) in
  (100 * century + 4 * (r / 1461) + y + 1, r mod 1461 - 365 * y).

Definition gregorian_leap (y : Z) : bool := (y mod 4 =? 0) && (negb (y mod 100 =? 0) || (y mod 400 =? 0)).

Definition month_lengths (leap : bool) : list Z :=
  [31; if leap then 29 else 28; 31; 30; 31; 30; 31; 31; 30; 31; 30; 31].

(** The month from 0 and the day of the month from 1. *)
Fixpoint month_of_day (lengths : list Z) (mon doy : Z) : Z * Z :=
  match lengths with
  | [] => (mon, doy + 1)
  | l :: lengths => if doy <? l then (mon, doy + 1) else month_of_day lengths (mon + 1) (doy - l)
  end.

(** [gmtime_r]: the Gregorian calendar, in the range where the year is an [int]. *)
Definition gmtime (epoch : Z) : tm :=
  let days := epoch / 86400 in
  let secs := epoch mod 86400 in
  let d := days + 719162 in
  let '(yoe, doy) := year_of_day (d mod 146097) in
  let year := yoe + 400 * (d / 146097) in
  let '(mon, mday) := month_of_day (month_lengths (gregorian_leap year)) 0 doy in
  {| tm_year := year - 1900; tm_mon := mon; tm_mday := mday;
     tm_hour := secs / 3600; tm_min := secs mod 3600 / 60; tm_sec := secs mod 60;
     tm_wday := (days + 4) mod 7 |}.

(** The clock and the time zone of the system: [clock_gettime] in seconds and
    nanoseconds, [localtime_r] and [mktime], which normalizes its argument. *)
Record clock := {
  clock_gettime : Z * Z;
  localtime : Z -> tm;
  mktime : tm -> Z * tm }.

(** ** timeutil.h *)
Inductive time_unit := millisecond | second.
Inductive time_format := common | imf.

Definition days : list bytes :=
  bytes_of <$> ["Sun"; "Mon"; "Tue"; "Wed"; "Thu"; "Fri"; "Sat"]%string.
Definition months : list bytes :=
  bytes_of <$> ["Jan"; "Feb"; "Mar"; "Apr"; "May"; "Jun"; "Jul"; "Aug"; "Sep"; "Oct"; "Nov"; "Dec"]%string.

Definition seconds_in_minute : Z := 60.
Definition seconds_in_hour : Z := 3600.
Definition seconds_in_day : Z := 86400.

(** [%] truncates towards zero. *)
Definition is_leap_year (year : Z) : bool :=
  if negb (Z.rem year 4 =? 0) then false
  else if negb (Z.rem year 100 =? 0) then true
  else if negb (Z.rem year 400 =? 0) then false
  else true.

Definition days_in_month : list Z := [31; 28; 31; 30; 31; 30; 31; 31; 30; 31; 30; 31].

(** An index outside the array is undefined behaviour. *)
Definition seconds_in_month (m : Z) (leap_year : bool) : res cpp_exn Z :=
  if (m =? 1) && leap_year then Ok (29 * seconds_in_day)
  else match zget days_in_month m with
       | Some d => Ok (d * seconds_in_day)
       | None => Ub
       end.

Definition seconds_in_year (leap_year : bool) : Z := (if leap_year then 366 else 365) * seconds_in_day.

Record datetime := {
  m_tm : tm; m_msec : Z; m_epoch : Z; m_utc : bool; m_recalc : bool }.

(** [m_tm.f = v; m_recalc = true] *)
Definition with_tm (t : datetime) (f : tm -> tm) : datetime :=
  {| m_tm := f (m_tm t); m_msec := m_msec t; m_epoch := m_epoch t; m_utc := m_utc t; m_recalc := true |}.

Definition set_year (y : Z) (t : datetime) : datetime := with_tm t (fun m =>
  {| tm_year := y - 1900; tm_mon := tm_mon m; tm_mday := tm_mday m; tm_hour := tm_hour m;
     tm_min := tm_min m; tm_sec := tm_sec m; tm_wday := tm_wday m |}).
Definition set_month (mo : Z) (t : datetime) : datetime := with_tm t (fun m =>
  {| tm_year := tm_year m; tm_mon := mo - 1; tm_mday := tm_mday m; tm_hour := tm_hour m;
     tm_min := tm_min m; tm_sec := tm_sec m; tm_wday := tm_wday m |}).
Definition set_day (d : Z) (t : datetime) : datetime := with_tm t (fun m =>
  {| tm_year := tm_year m; tm_mon := tm_mon m; tm_mday := d; tm_hour := tm_hour m;
     tm_min := tm_min m; tm_sec := tm_sec m; tm_wday := tm_wday m |}).
Definition set_hour (h : Z) (t : datetime) : datetime := with_tm t (fun m =>
  {| tm_year := tm_year m; tm_mon := tm_mon m; tm_mday := tm_mday m; tm_hour := h;
     tm_min := tm_min m; tm_sec := tm_sec m; tm_wday := tm_wday m |}).
Definition set_minute (mi : Z) (t : datetime) : datetime := with_tm t (fun m =>
  {| tm_year := tm_year m; tm_mon := tm_mon m; tm_mday := tm_mday m; tm_hour := tm_hour m;
     tm_min := mi; tm_sec := tm_sec m; tm_wday := tm_wday m |}).
Definition set_second (s : Z) (t : datetime) : datetime := with_tm t (fun m =>
  {| tm_year := tm_year m; tm_mon := tm_mon m; tm_mday := tm_mday m; tm_hour := tm_hour m;
     tm_min := tm_min m; tm_sec := s; tm_wday := tm_wday m |}).
Definition set_day_of_week (d : Z) (t : datetime) : datetime := with_tm t (fun m =>
  {| tm_year := tm_year m; tm_mon := tm_mon m; tm_mday := tm_mday m; tm_hour := tm_hour m;
     tm_min := tm_min m; tm_sec := tm_sec m; tm_wday := d |}).
Definition set_millisecond (ms : Z) (t : datetime) : datetime :=
  {| m_tm := m_tm t; m_msec := ms; m_epoch := m_epoch t; m_utc := m_utc t; m_recalc := true |}.

Definition get_year (t : datetime) : Z := tm_year (m_tm t) + 1900.
Definition get_month (t : datetime) : Z := tm_mon (m_tm t) + 1.

Definition epoch (u : time_unit) (t : datetime) : Z :=
  match u with millisecond => m_epoch t * 1000 + m_msec t | second => m_epoch t end.

(** ** timeutil.cpp *)
Section lib.
Context (lib : clock).

(** [datetime(bool utc)]: now. *)
Definition datetime_now (utc : bool) : datetime :=
  let '(sec, nsec) := clock_gettime lib in
  {| m_tm := if utc then gmtime sec else localtime lib sec;
     m_msec := Z.quot nsec 1000000; m_epoch := sec; m_utc := utc; m_recalc := false |}.

(** [datetime(epoch, u, utc)] *)
Definition datetime_of (ep : Z) (u : time_unit) (utc : bool) : datetime :=
  let '(e, ms) := match u with millisecond => (Z.quot ep 1000, Z.rem ep 1000) | second => (ep, 0) end in
  {| m_tm := if utc then gmtime e else localtime lib e;
     m_msec := ms; m_epoch := e; m_utc := utc; m_recalc := false |}.

(** The two loops of [recalculate]. *)
Fixpoint add_years (n : nat) (y acc : Z) : Z :=
  match n with
  | O => acc
  | S n => add_years n (y + 1) (acc + seconds_in_year (is_leap_year y))
  end.

Fixpoint add_months (n : nat) (m : Z) (leap_year : bool) (acc : Z) : res cpp_exn Z :=
  match n with
  | O => Ok acc
  | S n => let? s := seconds_in_month m leap_year in add_months n (m + 1) leap_year (acc + s)
  end.

(** A product of two [int]s; overflow is undefined behaviour. *)
Definition int_mul (a b : Z) : res cpp_exn Z :=
  if decide (- 2 ^ 31 <= a * b < 2 ^ 31) then Ok (a * b) else Ub.

Definition recalculate (t : datetime) : res cpp_exn datetime :=
  if m_recalc t then
    let m := m_tm t in
    if m_utc t then
      let year := tm_year m + 1900 in
      let e := add_years (Z.to_nat (year - 1970)) 1970 0 in
      let? e := add_months (Z.to_nat (tm_mon m)) 0 (is_leap_year year) e in
      let? d := int_mul (tm_mday m - 1) seconds_in_day in
      let? h := int_mul (tm_hour m) seconds_in_hour in
      let? mi := int_mul (tm_min m) seconds_in_minute in
      Ok {| m_tm := m; m_msec := m_msec t; m_epoch := e + d + h + mi + tm_sec m;
            m_utc := m_utc t; m_recalc := false |}
    else
      let '(e, m) := mktime lib m in
      Ok {| m_tm := m; m_msec := m_msec t; m_epoch := e; m_utc := m_utc t; m_recalc := false |}
  else Ok t.

(** The index of a name, the first one that is equal. *)
Fixpoint index_of (s : bytes) (names : list bytes) (i : Z) : option Z :=
  match names with
  | [] => None
  | n :: names => if decide (n = s) then Some i else index_of s names (i + 1)
  end.

(** [if (str[i] != c) throw std::invalid_argument(...)] *)
Definition expect (str : bytes) (i : nat) (c : Z) : res cpp_exn unit :=
  let? x := char_at str i in if x =? c then Ok tt else Throw invalid_argument.

(** A number at a position, its bounds, and the character after it. *)
Definition field (str : bytes) (pos n : nat) (lo hi : Z) : res cpp_exn Z :=
  let? s := substr str pos n in
  let? i := stoi s in
  if (i <? lo) || (hi <? i) then Throw invalid_argument else Ok i.

Definition INT_MAX : Z := 2 ^ 31 - 1.

(** [datetime::get], the Internet Message format. *)
Definition get_imf (str : bytes) (t : datetime) : res cpp_exn datetime :=
  let? s := substr str 0 3 in
  let? t := match index_of s days 0 with Some i => Ok (set_day_of_week i t) | None => Throw invalid_argument end in
  let? _ := expect str 3 (chr ",") in
  let? _ := expect str 4 (chr " ") in
  let? i := field str 5 2 1 31 in
  let? _ := expect str 7 (chr " ") in
  let t := set_day i t in
  let? s := substr str 8 3 in
  let? t := match index_of s months 0 with Some i => Ok (set_month (i + 1) t) | None => Throw invalid_argument end in
  let? _ := expect str 11 (chr " ") in
  let? i := field str 12 4 0 INT_MAX in
  let? _ := expect str 16 (chr " ") in
  let t := set_year i t in
  let? i := field str 17 2 0 23 in
  let? _ := expect str 19 (chr ":") in
  let t := set_hour i t in
  let? i := field str 20 2 0 59 in
  let? _ := expect str 22 (chr ":") in
  let t := set_minute i t in
  let? i := field str 23 2 0 59 in
  let? _ := expect str 25 (chr " ") in
  let t := set_second i t in
  let? s := substr str 26 3 in
  if decide (s = bytes_of "GMT") then Ok t else Throw invalid_argument.

(** The format [YYYY/MM/DD hh:mm:ss.mse]; [i] is the month from 0. *)
Definition get_common (str : bytes) (t : datetime) : res cpp_exn datetime :=
  let? i := field str 0 4 0 INT_MAX in
  let? _ := expect str 4 (chr "/") in
  let t := set_year i t in
  let? i := field str 5 2 1 12 in
  let? _ := expect str 7 (chr "/") in
  let t := set_month i t in
  let? i := field str 8 2 1 31 in
  let? _ := expect str 10 (chr " ") in
  let t := set_day i t in
  let? i := field str 11 2 0 23 in
  let? _ := expect str 13 (chr ":") in
  let t := set_hour i t in
  let? i := field str 14 2 0 59 in
  let? _ := expect str 16 (chr ":") in
  let t := set_minute i t in
  let? i := field str 17 2 0 59 in
  let? _ := expect str 19 (chr ".") in
  let t := set_second i t in
  let? i := field str 20 3 0 999 in
  Ok (set_millisecond i t).

Definition get (str : bytes) (fmt : time_format) (utc : bool) : res cpp_exn datetime :=
  let? t :=
    match fmt with
    | imf => get_imf str (datetime_now true)
    | common => get_common str (datetime_now utc)
    end in
  recalculate t.
End lib.

(** An element of a constant array; an index outside it is undefined. *)
Definition name_at (names : list bytes) (i : Z) : res cpp_exn bytes :=
  match zget names i with Some n => Ok n | None => Ub end.

(** [std::setw(w) << v] with the fill character 0. *)
Definition padded (w : nat) (v : Z) : bytes := pad_left w (chr "0") (print_int v).

Definition str (fmt : time_format) (t : datetime) : res cpp_exn bytes :=
  let m := m_tm t in
  match fmt with
  | imf =>
      let? d := name_at days (tm_wday m) in
      let? mo := name_at months (get_month t - 1) in
      Ok (d ++ bytes_of ", " ++ padded 2 (tm_mday m) ++ bytes_of " " ++ mo ++ bytes_of " " ++
          padded 4 (get_year t) ++ bytes_of " " ++ padded 2 (tm_hour m) ++ bytes_of ":" ++
          padded 2 (tm_min m) ++ bytes_of ":" ++ padded 2 (tm_sec m) ++ bytes_of " GMT")
  | common =>
      Ok (padded 4 (get_year t) ++ bytes_of "/" ++ padded 2 (get_month t) ++ bytes_of "/" ++
          padded 2 (tm_mday m) ++ bytes_of " " ++ padded 2 (tm_hour m) ++ bytes_of ":" ++
          padded 2 (tm_min m) ++ bytes_of ":" ++ padded 2 (tm_sec m) ++ bytes_of "." ++
          padded 3 (m_msec t))
  end.
End DateTime.

(** ** Facts (Dates and times: the epoch and the Internet Message format)

    [recalculate] inverts [gmtime_r], and the text of a date reads back as the
    same instant. *)

Import DateTime.

(** ** Days before a year *)

(** The days from January 1, 1970 to January 1 of a year. *)
Definition year_days (y : Z) : Z := 365 * (y - 1970) + ((y - 1) / 4 - (y - 1) / 100 + (y - 1) / 400) - 477.

Lemma div_step y k : 0 < k -> y / k = (y - 1) / k + (if y mod k =? 0 then 1 else 0).
Proof.
  intros Hk. pose proof (Z.div_mod y k ltac:(lia)) as Hd. pose proof (Z.mod_pos_bound y k Hk) as Hm.
  destruct (Z.eqb_spec (y mod k) 0) as [E|E].
  - rewrite <- (Z.div_unique (y - 1) k (y / k - 1) (k - 1)); lia.
  - rewrite <- (Z.div_unique (y - 1) k (y / k) (y mod k - 1)); lia.
Qed.

Lemma is_leap_year_days y : 0 <= y ->
  year_days (y + 1) = year_days y + (if is_leap_year y then 366 else 365).
Proof.
  intros Hy. unfold is_leap_year, year_days. rewrite !Z.rem_mod_nonneg by lia.
  replace (y + 1 - 1) with y by lia.
  rewrite (div_step y 4), (div_step y 100), (div_step y 400) by lia.
  assert (y mod 100 = 0 -> y mod 4 = 0) by (intros; Z.to_euclidean_division_equations; lia).
  assert (y mod 400 = 0 -> y mod 100 = 0) by (intros; Z.to_euclidean_division_equations; lia).
  destruct (Z.eqb_spec (y mod 4) 0), (Z.eqb_spec (y mod 100) 0), (Z.eqb_spec (y mod 400) 0); cbn [negb]; lia.
Qed.

Lemma year_days_mono y z : y <= z -> year_days y <= year_days z.
Proof. unfold year_days. intros. Z.to_euclidean_division_equations. lia. Qed.

Lemma year_days_era y k : year_days (y + 400 * k) = year_days y + 146097 * k.
Proof. unfold year_days. Z.to_euclidean_division_equations. lia. Qed.

Lemma is_leap_year_era y k : 0 <= y -> 0 <= k -> is_leap_year (y + 400 * k) = is_leap_year y.
Proof.
  intros Hy Hk. unfold is_leap_year. rewrite !Z.rem_mod_nonneg by lia.
  assert ((y + 400 * k) mod 4 = y mod 4) as -> by (Z.to_euclidean_division_equations; lia).
  assert ((y + 400 * k) mod 100 = y mod 100) as -> by (Z.to_euclidean_division_equations; lia).
  assert ((y + 400 * k) mod 400 = y mod 400) as -> by (Z.to_euclidean_division_equations; lia). done.
Qed.

Lemma add_years_days n y acc : 0 <= y ->
  add_years n y acc = acc + 86400 * (year_days (y + Z.of_nat n) - year_days y).
Proof.
  revert y acc. induction n as [|n IH]; intros y acc Hy; cbn [add_years].
  - rewrite Z.add_0_r. lia.
  - rewrite IH by lia. replace (y + 1 + Z.of_nat n) with (y + Z.of_nat (S n)) by lia.
    rewrite is_leap_year_days by lia. unfold seconds_in_year, seconds_in_day. destruct (is_leap_year y); lia.
Qed.

Lemma add_months_acc n m l acc :
  add_months n m l acc = let? s := add_months n m l 0 in Ok (acc + s).
Proof.
  revert m acc. induction n as [|n IH]; intros m acc; cbn [add_months rbind].
  - by rewrite Z.add_0_r.
  - destruct (seconds_in_month m l) as [s| | |]; cbn [rbind]; [|done..].
    rewrite (IH (m + 1) (acc + s)), (IH (m + 1) (0 + s)).
    destruct (add_months n (m + 1) l 0); cbn [rbind]; [|done..]. f_equal. lia.
Qed.

(** ** The calendar *)
Lemma year_of_day_spec d : 0 <= d < 146097 -> let '(y, doy) := year_of_day d in
  1 <= y <= 400 /\ 0 <= doy < (if gregorian_leap y then 366 else 365) /\
  year_days y + doy = d - 719162.
Proof.
  intros Hd. unfold year_of_day. set (c := Z.min 3 (d / 36524)). set (r := d - 36524 * c).
  assert (0 <= c <= 3 /\ 0 <= r < 36525 /\ (c < 3 -> r < 36524)) as (Hc & Hr & Hr1).
  { pose proof (Z.div_mod d 36524 ltac:(lia)). pose proof (Z.mod_pos_bound d 36524 ltac:(lia)).
    pose proof (Z.div_pos d 36524 ltac:(lia) ltac:(lia)). lia. }
  pose proof (Z.div_mod r 1461 ltac:(lia)) as Hq. pose proof (Z.mod_pos_bound r 1461 ltac:(lia)) as Hm.
  set (q := r / 1461) in *. set (m := r mod 1461) in *.
  assert (0 <= q <= 24) by lia.
  pose proof (Z.div_mod m 365 ltac:(lia)) as Hy. pose proof (Z.mod_pos_bound m 365 ltac:(lia)).
  assert (0 <= m / 365 <= 4) by lia. set (y := Z.min 3 (m / 365)).
  assert (0 <= y <= 3 /\ 0 <= m - 365 * y < 366 /\ (y < 3 -> m - 365 * y < 365)) as (Hy1 & Hy2 & Hy3).
  { unfold y. pose proof (Zmin_spec 3 (m / 365)). lia. }
  assert (Hlast : c < 3 -> q = 24 -> y = 3 -> m - 365 * y < 365) by lia.
  assert (year_days (100 * c + 4 * q + y + 1) = 365 * (100 * c + 4 * q + y) + 25 * c + q - c - 719162) as ->.
  { unfold year_days. replace (100 * c + 4 * q + y + 1 - 1) with (100 * c + 4 * q + y) by lia.
    rewrite <- (Z.div_unique (100 * c + 4 * q + y) 4 (25 * c + q) y) by lia.
    rewrite <- (Z.div_unique (100 * c + 4 * q + y) 100 c (4 * q + y)) by lia.
    rewrite <- (Z.div_unique (100 * c + 4 * q + y) 400 0 (100 * c + 4 * q + y)) by lia. lia. }
  split_and!; try lia. unfold gregorian_leap.
  destruct (Z.eq_dec y 3) as [E|E].
  - assert ((100 * c + 4 * q + y + 1) mod 4 = 0) as -> by (symmetry; apply (Z.mod_unique _ _ (25 * c + q + 1)); lia).
    destruct (Z.eq_dec q 24) as [Eq|Eq].
    + assert ((100 * c + 4 * q + y + 1) mod 100 = 0) as -> by (symmetry; apply (Z.mod_unique _ _ (c + 1)); lia).
      destruct (Z.eq_dec c 3) as [Ec|?]; [rewrite Ec, Eq, E in *; change (_ && _)%bool with true; cbv iota; lia|].
      assert ((100 * c + 4 * q + y + 1) mod 400 = 100 * c + 4 * q + y + 1) as -> by (apply Z.mod_small; lia).
      destruct (Z.eqb_spec (100 * c + 4 * q + y + 1) 0); cbn; lia.
    + assert ((100 * c + 4 * q + y + 1) mod 100 = 4 * q + y + 1) as -> by (symmetry; apply (Z.mod_unique _ _ c); lia).
      destruct (Z.eqb_spec (4 * q + y + 1) 0); cbn; lia.
  - assert ((100 * c + 4 * q + y + 1) mod 4 = y + 1) as -> by (symmetry; apply (Z.mod_unique _ _ (25 * c + q)); lia).
    destruct (Z.eqb_spec (y + 1) 0); cbn; lia.
Qed.

(** The code's test of leap years. *)
Lemma is_leap_year_gregorian y : 0 <= y -> is_leap_year y = gregorian_leap y.
Proof.
  intros Hy. unfold is_leap_year, gregorian_leap. rewrite !Z.rem_mod_nonneg by lia.
  destruct (y mod 4 =? 0), (y mod 100 =? 0), (y mod 400 =? 0); done.
Qed.

(** The fields of a day of a year are in their ranges, and [add_months] counts
    back to it. *)
Definition month_ok (leap : bool) (doy : Z) : bool :=
  let '(mon, mday) := month_of_day (month_lengths leap) 0 doy in
  (0 <=? mon) && (mon <? 12) && (1 <=? mday) && (mday <=? 31) &&
  match add_months (Z.to_nat mon) 0 leap 0 with
  | Ok s => s + 86400 * (mday - 1) =? 86400 * doy
  | _ => false
  end.

Lemma month_all (leap : bool) doy : 0 <= doy < (if leap then 366 else 365) -> month_ok leap doy = true.
Proof.
  intros H. destruct leap.
  - apply (forall_range (month_ok true) 0 366); [vm_compute; reflexivity|lia].
  - apply (forall_range (month_ok false) 0 365); [vm_compute; reflexivity|lia].
Qed.

(** The fields of the time of day. *)
Definition date_ok (m : tm) : Prop :=
  0 <= tm_mon m < 12 /\ 1 <= tm_mday m <= 31 /\ 0 <= tm_hour m < 24 /\ 0 <= tm_min m < 60 /\
  0 <= tm_sec m < 60 /\ 0 <= tm_wday m < 7.

(** What [recalculate] counts, of the fields of [gmtime]. *)
Lemma gmtime_spec e : 0 <= e -> let m := gmtime e in
  date_ok m /\ 1970 <= tm_year m + 1900 /\ year_days (tm_year m + 1900) * 86400 <= e /\
  exists s, add_months (Z.to_nat (tm_mon m)) 0 (is_leap_year (tm_year m + 1900)) 0 = Ok s /\
    86400 * year_days (tm_year m + 1900) + s + (tm_mday m - 1) * 86400 + tm_hour m * 3600 + tm_min m * 60 + tm_sec m = e.
Proof.
  intros He. cbv zeta. unfold gmtime. set (d := e / 86400 + 719162).
  pose proof (Z.div_mod e 86400 ltac:(lia)) as Hde. pose proof (Z.mod_pos_bound e 86400 ltac:(lia)) as Hs.
  assert (0 <= e / 86400) by (apply Z.div_pos; lia).
  pose proof (Z.mod_pos_bound d 146097 ltac:(lia)) as Hr. pose proof (year_of_day_spec _ Hr) as Ho.
  destruct (year_of_day (d mod 146097)) as [y doy]. destruct Ho as (Hy & Hdoy & Hyd).
  set (k := d / 146097). assert (0 <= k) by (apply Z.div_pos; lia).
  pose proof (Z.div_mod d 146097 ltac:(lia)) as Hdk. fold k in Hdk.
  assert (gregorian_leap (y + 400 * k) = gregorian_leap y) as Hl
    by (rewrite <- !is_leap_year_gregorian by lia; apply is_leap_year_era; lia).
  rewrite <- Hl in Hdoy. pose proof (month_all _ _ Hdoy) as Hm. unfold month_ok in Hm.
  destruct (month_of_day _ 0 doy) as [mon mday].
  unfold date_ok. cbn [tm_year tm_mon tm_mday tm_hour tm_min tm_sec tm_wday].
  replace (y + 400 * k - 1900 + 1900) with (y + 400 * k) by lia. rewrite is_leap_year_gregorian by lia.
  destruct (add_months _ _ _ 0) as [s| | |] eqn:Es; rewrite ?andb_false_r in Hm; try discriminate.
  rewrite !andb_true_iff, !Z.leb_le, !Z.ltb_lt, Z.eqb_eq in Hm. destruct Hm as ((((? & ?) & ?) & ?) & Hc).
  rewrite year_days_era.
  assert (1970 <= y + 400 * k).
  { apply Z.nlt_ge. intros ?. pose proof (year_days_mono (y + 400 * k + 1) 1970 ltac:(lia)) as Hmo.
    change (year_days 1970) with 0 in Hmo. rewrite is_leap_year_days, is_leap_year_gregorian, year_days_era in Hmo by lia.
    lia. }
  split_and!; try lia; try (apply Z.mod_pos_bound; lia); try (Z.to_euclidean_division_equations; lia).
  exists s. split; [done|]. clear -Hc Hyd Hdk Hde Hs. unfold d in *. Z.to_euclidean_division_equations; lia.
Qed.

Section facts.
Context (lib : clock).

Lemma add_years_epoch y : 1970 <= y -> add_years (Z.to_nat (y - 1970)) 1970 0 = 86400 * year_days y.
Proof.
  intros Hy. rewrite add_years_days by lia. replace (1970 + Z.of_nat (Z.to_nat (y - 1970))) with y by lia.
  change (year_days 1970) with 0. lia.
Qed.

Lemma int_mul_ok a b : - 2 ^ 31 <= a * b < 2 ^ 31 -> int_mul a b = Ok (a * b).
Proof. intros. unfold int_mul. by rewrite decide_True. Qed.

(** ** Numbers of a fixed width *)
Lemma padded_digits w v : 0 <= v < 10 ^ Z.of_nat w -> (1 <= w)%nat ->
  length (padded w v) = w /\ Forall (fun c => is_digit10 c = true) (padded w v) /\
  value_of 10 ((fun c => c - 48) <$> padded w v) = v.
Proof.
  intros Hv Hw. destruct (print_uint_digits v ltac:(lia)) as (Hd & Hval & _).
  assert (print_int v = print_uint 10 v) as E by (unfold print_int; by destruct (Z.ltb_spec v 0); [lia|]).
  unfold padded. rewrite E. split_and!.
  - apply length_pad_left. unfold print_uint. rewrite length_fmap. by apply digits_length; [lia|..].
  - unfold pad_left. apply Forall_app. split; [|done]. by apply Forall_replicate.
  - unfold pad_left. rewrite fmap_app, fmap_replicate, Hval. change (chr "0" - 48) with 0.
    rewrite value_of_zeros. apply digits_value; lia.
Qed.

Lemma stoi_digits ds : ds <> [] -> Forall (fun c => is_digit10 c = true) ds ->
  0 <= value_of 10 ((fun c => c - 48) <$> ds) < 2 ^ 31 -> stoi ds = Ok (value_of 10 ((fun c => c - 48) <$> ds)).
Proof.
  intros Hne Hd Hv. unfold stoi, scan_int. destruct (take_while_app is_digit10 ds [] Hd I) as [Ht _].
  rewrite app_nil_r in Ht. destruct ds as [|c ds]; [done|]. inversion_clear Hd as [|? ? Hc _].
  unfold is_digit10 in Hc. change (chr "0") with 48 in Hc. change (chr "9") with 57 in Hc.
  rewrite andb_true_iff, !Z.leb_le in Hc. cbn [skip_while].
  assert (isspace c = false) as ->.
  { unfold isspace. destruct (Z.eqb_spec c 32); [lia|]. destruct (Z.leb_spec c 13); [lia|]. by rewrite andb_false_r. }
  change (chr "-") with 45. change (chr "+") with 43. change (chr "0") with 48.
  destruct (Z.eqb_spec c 45); [lia|]. destruct (Z.eqb_spec c 43); [lia|].
  rewrite Ht, decide_True by lia. done.
Qed.

(** The text of a number in two, three or four columns. *)
Lemma padded_text w v : 0 <= v < 10 ^ Z.of_nat w -> (1 <= w)%nat -> v < 2 ^ 31 ->
  exists ds, padded w v = ds /\ length ds = w /\ stoi ds = Ok v.
Proof.
  intros Hv Hw Hi. destruct (padded_digits w v Hv Hw) as (Hl & Hd & Hval). exists (padded w v). split_and!; [done..|].
  rewrite <- Hval at 2. apply stoi_digits; [|done|lia]. intros E. rewrite E in Hl. simpl in Hl. lia.
Qed.

Lemma padded2 v : 0 <= v < 100 -> exists a b, padded 2 v = [a; b] /\ stoi [a; b] = Ok v.
Proof.
  intros Hv. destruct (padded_text 2 v ltac:(done) ltac:(lia) ltac:(lia)) as ([|a [|b [|]]] & ? & Hl & ?); try done. eauto.
Qed.
Lemma padded3 v : 0 <= v < 1000 -> exists a b c, padded 3 v = [a; b; c] /\ stoi [a; b; c] = Ok v.
Proof.
  intros Hv. destruct (padded_text 3 v ltac:(done) ltac:(lia) ltac:(lia)) as ([|a [|b [|c [|]]]] & ? & Hl & ?); try done. eauto.
Qed.
Lemma padded4 v : 0 <= v < 10000 -> exists a b c d, padded 4 v = [a; b; c; d] /\ stoi [a; b; c; d] = Ok v.
Proof.
  intros Hv. destruct (padded_text 4 v ltac:(done) ltac:(lia) ltac:(lia)) as ([|a [|b [|c [|d [|]]]]] & ? & Hl & ?); try done.
  eauto 6.
Qed.

Lemma field_ok s pos n lo hi w v : substr s pos n = Ok w -> stoi w = Ok v -> lo <= v <= hi -> field s pos n lo hi = Ok v.
Proof.
  intros Hs Hv Hr. unfold field. rewrite Hs. cbn [rbind]. rewrite Hv. cbn [rbind].
  destruct (Z.ltb_spec v lo); [lia|]. destruct (Z.ltb_spec hi v); [lia|]. done.
Qed.

(** The names of the days and of the months read back. *)
Lemma name_text names i : Forall (fun n => length n = 3%nat) names -> NoDup names -> 0 <= i < zlen names ->
  exists a b c, name_at names i = Ok [a; b; c] /\ index_of [a; b; c] names 0 = Some i.
Proof.
  intros Hl Hnd Hi. destruct (zget_is_Some names i Hi) as [n Hn]. unfold name_at. rewrite Hn.
  unfold zget in Hn. rewrite decide_True in Hn by lia.
  pose proof (Forall_lookup_1 _ _ _ _ Hl Hn) as Hlen. destruct n as [|a [|b [|c [|]]]]; try done.
  exists a, b, c. split; [done|]. clear Hlen Hl.
  enough (forall l k j, NoDup l -> l !! j = Some [a; b; c] -> index_of [a; b; c] l k = Some (k + Z.of_nat j)) as H.
  { rewrite (H _ 0 _ Hnd Hn). f_equal. lia. }
  clear. intros l. induction l as [|x l IH]; intros k j Hnd Hj; [done|]. cbn [index_of].
  inversion_clear Hnd as [|? ? Hx Hnd']. destruct j as [|j]; simpl in Hj.
  - injection Hj as ->. rewrite decide_True by done. f_equal. lia.
  - rewrite decide_False. 2:{ intros ->. apply Hx. by eapply list_elem_of_lookup_2. }
    rewrite (IH _ _ Hnd' Hj). f_equal. lia.
Qed.

(** [recalculate] inverts [gmtime_r]: from the fields of the instant [e] it
    computes [e], for every instant from 1970 on; the day of the week is not
    read. *)
Lemma recalculate_epoch e t : 0 <= e -> m_tm (set_day_of_week (tm_wday (gmtime e)) t) = gmtime e ->
  m_utc t = true -> m_recalc t = true ->
  recalculate lib t = Ok {| m_tm := m_tm t; m_msec := m_msec t; m_epoch := e; m_utc := true; m_recalc := false |}.
Proof.
  intros He Ht Hu Hr. unfold recalculate. rewrite Hr, Hu. destruct (gmtime_spec e He) as (Hok & Hy & _ & s & Hs & Hsum).
  rewrite <- Ht in Hok, Hy, Hs, Hsum. clear Ht Hr Hu.
  destruct t as [[] ? ? ? ?]. unfold date_ok, set_day_of_week, with_tm in *. 
  cbn [m_tm m_msec tm_year tm_mon tm_mday tm_hour tm_min tm_sec] in *.
  destruct Hok as (? & ? & ? & ? & ? & ?). rewrite add_years_epoch, add_months_acc, Hs by done. cbn [rbind].
  unfold seconds_in_day, seconds_in_hour, seconds_in_minute. rewrite !int_mul_ok by lia. cbn [rbind].
  do 2 f_equal. lia.
Qed.

(** Reads the next name or the next separator of a text whose columns are known. *)
Local Ltac read_text :=
  repeat (cbn [rbind]; match goal with
  | |- context [rbind (substr ?s ?p ?n) _] =>
      let w := eval vm_compute in (substr s p n) in change (substr s p n) with w
  | |- context [rbind (expect ?s ?i ?c) _] => change (expect s i c) with (Ok (E:=cpp_exn) tt)
  end); cbn [rbind].

(** The fields a text determines. *)
Lemma get_imf_str t t0 : date_ok (m_tm t) -> 0 <= get_year t < 10000 ->
  exists s, str imf t = Ok s /\ exists t1, get_imf s t0 = Ok t1 /\ m_tm t1 = m_tm t /\
    m_msec t1 = m_msec t0 /\ m_utc t1 = m_utc t0 /\ m_recalc t1 = true.
Proof.
  intros (Hmo & Hd & Hh & Hmi & Hse & Hw) Hy. unfold str.
  destruct (name_text days (tm_wday (m_tm t))) as (d1 & d2 & d3 & Ed & Id); [repeat constructor|by apply (bool_decide_unpack _)|done|].
  destruct (name_text months (get_month t - 1)) as (o1 & o2 & o3 & Eo & Io);
    [repeat constructor|by apply (bool_decide_unpack _)|unfold get_month; change (zlen months) with 12; lia|].
  destruct (padded2 (tm_mday (m_tm t)) ltac:(lia)) as (a1 & a2 & Ea & Sa).
  destruct (padded4 (get_year t) ltac:(lia)) as (y1 & y2 & y3 & y4 & Ey & Sy).
  destruct (padded2 (tm_hour (m_tm t)) ltac:(lia)) as (h1 & h2 & Eh & Sh).
  destruct (padded2 (tm_min (m_tm t)) ltac:(lia)) as (i1 & i2 & Ei & Si).
  destruct (padded2 (tm_sec (m_tm t)) ltac:(lia)) as (s1 & s2 & Es & Ss).
  rewrite Ed, Eo, Ea, Ey, Eh, Ei, Es. cbn [rbind]. eexists. split; [reflexivity|]. unfold get_imf.
  cbn [app bytes_of]. match goal with |- context [substr ?s 0 3] => set (S := s) end.
  read_text. rewrite Id. read_text.
  rewrite (field_ok S 5 2 1 31 _ _ eq_refl Sa) by lia. read_text. rewrite Io. read_text.
  rewrite (field_ok S 12 4 0 INT_MAX _ _ eq_refl Sy) by (unfold INT_MAX; lia). read_text.
  rewrite (field_ok S 17 2 0 23 _ _ eq_refl Sh) by lia. read_text.
  rewrite (field_ok S 20 2 0 59 _ _ eq_refl Si) by lia. read_text.
  rewrite (field_ok S 23 2 0 59 _ _ eq_refl Ss) by lia. read_text.
  rewrite decide_True by done. eexists. split; [reflexivity|]. cbn. split_and!; [|done..].
  unfold get_year, get_month. destruct (m_tm t). cbn. f_equal; lia.
Qed.

(** The same for the other format, which leaves the day of the week alone. *)
Lemma get_common_str t t0 : date_ok (m_tm t) -> 0 <= get_year t < 10000 -> 0 <= m_msec t < 1000 ->
  exists s, str common t = Ok s /\ exists t1, get_common s t0 = Ok t1 /\
    m_tm (set_day_of_week (tm_wday (m_tm t)) t1) = m_tm t /\
    m_msec t1 = m_msec t /\ m_utc t1 = m_utc t0 /\ m_recalc t1 = true.
Proof.
  intros (Hmo & Hd & Hh & Hmi & Hse & Hw) Hy Hms. unfold str.
  destruct (padded2 (get_month t) ltac:(unfold get_month; lia)) as (o1 & o2 & Eo & So).
  destruct (padded2 (tm_mday (m_tm t)) ltac:(lia)) as (a1 & a2 & Ea & Sa).
  destruct (padded4 (get_year t) ltac:(lia)) as (y1 & y2 & y3 & y4 & Ey & Sy).
  destruct (padded2 (tm_hour (m_tm t)) ltac:(lia)) as (h1 & h2 & Eh & Sh).
  destruct (padded2 (tm_min (m_tm t)) ltac:(lia)) as (i1 & i2 & Ei & Si).
  destruct (padded2 (tm_sec (m_tm t)) ltac:(lia)) as (s1 & s2 & Es & Ss).
  destruct (padded3 (m_msec t) ltac:(lia)) as (n1 & n2 & n3 & En & Sn).
  rewrite Eo, Ea, Ey, Eh, Ei, Es, En. eexists. split; [reflexivity|]. unfold get_common.
  cbn [app bytes_of]. match goal with |- context [field ?s 0 4 _ _] => set (S := s) end.
  rewrite (field_ok S 0 4 0 INT_MAX _ _ eq_refl Sy) by (unfold INT_MAX; lia). read_text.
  rewrite (field_ok S 5 2 1 12 _ _ eq_refl So) by (unfold get_month; lia). read_text.
  rewrite (field_ok S 8 2 1 31 _ _ eq_refl Sa) by lia. read_text.
  rewrite (field_ok S 11 2 0 23 _ _ eq_refl Sh) by lia. read_text.
  rewrite (field_ok S 14 2 0 59 _ _ eq_refl Si) by lia. read_text.
  rewrite (field_ok S 17 2 0 59 _ _ eq_refl Ss) by lia. read_text.
  rewrite (field_ok S 20 3 0 999 _ _ eq_refl Sn) by lia. read_text.
  eexists. split; [reflexivity|]. cbn. split_and!; [|done..].
  unfold get_year, get_month. destruct (m_tm t). cbn. f_equal; lia.
Qed.

Lemma gmtime_year e : 0 <= e < 253402300800 -> 1970 <= tm_year (gmtime e) + 1900 < 10000.
Proof.
  intros He. destruct (gmtime_spec e ltac:(lia)) as (_ & Hy & Hyd & _). split; [lia|].
  apply Z.nle_gt. intros Hle. pose proof (year_days_mono _ _ Hle) as Hm. change (year_days 10000) with 2932897 in Hm. lia.
Qed.

(** A date that is printed in the Internet Message format is read back. *)
Lemma imf_roundtrip e : 0 <= e < 253402300800 ->
  exists s, str imf (datetime_of lib e second true) = Ok s /\
    exists t, get lib s imf true = Ok t /\ m_tm t = gmtime e /\ epoch second t = e.
Proof.
  intros He. pose proof (gmtime_year e He) as Hy. destruct (gmtime_spec e ltac:(lia)) as (Hok & _).
  assert (m_utc (datetime_now lib true) = true) as Hnow by (unfold datetime_now; by destruct (clock_gettime lib)).
  destruct (get_imf_str (datetime_of lib e second true) (datetime_now lib true)) as (s & Hs & t & Hg & Hm & _ & Hu & Hr);
    [exact Hok|unfold get_year; change (m_tm (datetime_of lib e second true)) with (gmtime e); lia|].
  exists s. split; [done|]. unfold get. rewrite Hg. cbn [rbind]. change (m_tm (datetime_of lib e second true)) with (gmtime e) in Hm.
  rewrite (recalculate_epoch e); [by eexists|lia| |congruence|done].
  unfold set_day_of_week, with_tm. cbn [m_tm]. rewrite Hm. by destruct (gmtime e).
Qed.

(** C35. A date before the year 10000 that is printed in the Internet Message
    format (the [Date] header) reads back as the same instant with the same
    fields, and one printed in the other format reads back as the same
    millisecond, whatever the clock says. *)
Theorem datetime_roundtrip e ms : 0 <= e < 253402300800 -> 0 <= ms < 1000 ->
  (exists s, str imf (datetime_of lib e second true) = Ok s /\
     exists t, get lib s imf true = Ok t /\ m_tm t = gmtime e /\ epoch second t = e) /\
  (exists s, str common (datetime_of lib (e * 1000 + ms) millisecond true) = Ok s /\
     exists t, get lib s common true = Ok t /\ epoch millisecond t = e * 1000 + ms).
Proof.
  intros He Hms. pose proof (gmtime_year e He) as Hy. destruct (gmtime_spec e ltac:(lia)) as (Hok & _).
  assert (m_utc (datetime_now lib true) = true) as Hnow by (unfold datetime_now; by destruct (clock_gettime lib)).
  split.
  - by apply imf_roundtrip.
  - assert (m_tm (datetime_of lib (e * 1000 + ms) millisecond true) = gmtime e /\
            m_msec (datetime_of lib (e * 1000 + ms) millisecond true) = ms) as [Ht Hmsec].
    { cbn. rewrite Z.quot_div_nonneg, Z.rem_mod_nonneg by lia.
      rewrite <- (Z.div_unique (e * 1000 + ms) 1000 e ms), <- (Z.mod_unique (e * 1000 + ms) 1000 e ms) by lia. done. }
    destruct (get_common_str (datetime_of lib (e * 1000 + ms) millisecond true) (datetime_now lib true))
      as (s & Hs & t & Hg & Hm & Hms' & Hu & Hr); [by rewrite Ht|unfold get_year; rewrite Ht; lia|lia|].
    exists s. split; [done|]. unfold get. rewrite Hg. cbn [rbind]. rewrite Ht in Hm.
    rewrite (recalculate_epoch e); [|lia|done|congruence|done].
    eexists. split; [reflexivity|]. cbn [epoch m_epoch m_msec]. lia.
Qed.
End facts.

(** A clock for the witness: the epoch, in a time zone without offset. *)
Definition demo_clock : clock := {| clock_gettime := (0, 0); localtime := gmtime; mktime := fun m => (0, m) |}.

Lemma datetime_roundtrip_witness :
  (exists s, str imf (datetime_of demo_clock 784111777 second true) = Ok s /\
     exists t, get demo_clock s imf true = Ok t /\ m_tm t = gmtime 784111777 /\ epoch second t = 784111777) /\
  (exists s, str common (datetime_of demo_clock (784111777 * 1000 + 5) millisecond true) = Ok s /\
     exists t, get demo_clock s common true = Ok t /\ epoch millisecond t = 784111777 * 1000 + 5).
Proof. apply (datetime_roundtrip demo_clock 784111777 5); split; lia || reflexivity || discriminate. Defined.

(** C2. Closed examples of what the checks of [get] let through: a text that
    ends after the day of the month is read past its end; a day that the month
    does not have is another instant; a date before 1970 is after it. *)
Theorem datetime_deviations :
  str imf (datetime_of demo_clock 784111777 second true) = Ok (bytes_of "Sun, 06 Nov 1994 08:49:37 GMT") /\
  get demo_clock (bytes_of "Sun, 1") imf true = Ub /\
  epoch second <$> (match get demo_clock (bytes_of "Mon, 31 Feb 2022 00:00:00 GMT") imf true with Ok t => Some t | _ => None end)
    = epoch second <$> (match get demo_clock (bytes_of "Thu, 03 Mar 2022 00:00:00 GMT") imf true with Ok t => Some t | _ => None end) /\
  (exists t, get demo_clock (bytes_of "Wed, 31 Dec 1969 23:59:59 GMT") imf true = Ok t /\ epoch second t = 31535999).
Proof. split_and!; [vm_compute; reflexivity..|]. eexists. split; vm_compute; reflexivity. Qed.
