(* ===== verification/Scanner.v ===== *)
(** * http: character classes and the message scanner
    (http/include/common/charset.h, scanner.h, http/src/common/scanner.cpp)

    A scanner is an object that reads the characters of a string one by one.
    Every caller passes an empty string by reference for a text to be read; here
    the reader returns the text with its boolean result. *)
From S2P Require Import Prelude Effects Numbers UriText Uri Text.

(** ** charset.h

    The argument is the [int] of a signed [char], or -1 at the end. *)
Definition is_tchar (c : Z) : bool :=
  if isalpha c || isdigit c then true
  else
    (c =? chr "!") || (c =? chr "#") || (c =? chr "$") || (c =? chr "%") || (c =? chr "&") || (c =? 39) ||
    (c =? chr "*") || (c =? chr "+") || (c =? chr "-") || (c =? chr ".") || (c =? chr "^") || (c =? chr "_") ||
    (c =? chr "`") || (c =? chr "|") || (c =? chr "~").

Definition is_vchar (c : Z) : bool := (33 <=? c) && (c <=? 126).
Definition is_whitespace (c : Z) : bool := (c =? chr " ") || (c =? 9).
Definition is_opaque (c : Z) : bool := (128 <=? c) && (c <=? 255).

Definition is_quoted (c : Z) : bool :=
  if is_whitespace c || is_opaque c then true
  else (c =? 33) || ((35 <=? c) && (c <=? 91)) || ((93 <=? c) && (c <=? 126)).

Definition is_commented (c : Z) : bool :=
  if is_whitespace c || is_opaque c then true
  else ((33 <=? c) && (c <=? 39)) || ((42 <=? c) && (c <=? 91)) || ((93 <=? c) && (c <=? 126)).

Definition is_escaped (c : Z) : bool := is_whitespace c || is_vchar c || is_opaque c.

Definition CR : Z := 13.
Definition LF : Z := 10.
Definition crlf : bytes := [CR; LF].

(** An exception of the URI code. *)
Definition of_uri {A} (r : res uri_exn A) : res cpp_exn A :=
  match r with
  | Ok a => Ok a
  | Throw e => Throw (uri_error e)
  | Ub => Ub
  | Diverge => Diverge
  end.

(** Parameters: a vector of names and values. *)
Abbreviation param_vec := (list (bytes * bytes)).

Module Scanner.

Record scanner := { m_cur : nat; m_len : nat; m_str : bytes }.
Abbreviation S := (M cpp_exn scanner).

(** [scanner(s)] and [scanner(s, start, len)]; [len] is at most the length of
    the string in both uses. *)
Definition scan (s : bytes) : scanner := {| m_cur := 0; m_len := length s; m_str := s |}.
Definition scan_range (s : bytes) (start len : nat) : scanner := {| m_cur := start; m_len := len; m_str := s |}.

Definition at_ (cur : nat) (scn : scanner) : scanner := {| m_cur := cur; m_len := m_len scn; m_str := m_str scn |}.

Definition get : S Z := fun scn =>
  if decide (m_cur scn < m_len scn)%nat
  then (Ok (nth (m_cur scn) (m_str scn) 0), at_ (Datatypes.S (m_cur scn)) scn)
  else (Ok (-1), scn).

(** Nothing is put back when the last character has been read. *)
Definition unget : S unit := modify (fun scn =>
  if decide (m_cur scn < m_len scn)%nat then at_ (pred (m_cur scn)) scn else scn).

Definition peek : S Z := gets (fun scn =>
  if decide (m_cur scn < m_len scn)%nat then nth (m_cur scn) (m_str scn) 0 else -1).

(** The rounds a loop that reads a character in each round can take. *)
Definition rounds (scn : scanner) : nat := Datatypes.S (m_len scn - m_cur scn).
Definition with_rounds {A} (m : nat -> S A) : S A := fun scn => m (rounds scn) scn.

(** [while (p(c = get())) ...; unget();]: the characters read. *)
Fixpoint while_loop (n : nat) (p : Z -> bool) : S bytes :=
  match n with
  | O => diverge
  | Datatypes.S n =>
      let! c := get in
      if p c then let! cs := while_loop n p in ret (c :: cs)
      else unget;; ret []
  end.
Definition read_while (p : Z -> bool) : S bytes := with_rounds (fun n => while_loop n p).

Definition nonempty (s : bytes) : bool := match s with [] => false | _ => true end.

Definition read_space : S bool := let! w := read_while is_whitespace in ret (nonempty w).
Definition read_opt_space : S bool := read_while is_whitespace;; ret true.

Definition read_special (s : Z) : S bool :=
  let! c := get in
  if negb (c =? s) then unget;; ret false else ret true.

Definition read_crlf : S bool :=
  let! c := get in
  if c =? -1 then ret true
  else if c =? LF then ret true
  else if c =? CR then
    let! c := get in
    if negb (c =? LF) then unget;; ret true else ret true
  else unget;; ret false.

Definition read_token (lower : bool) : S (bool * bytes) :=
  let! cs := read_while is_tchar in
  let token := if lower then tolower <$> cs else cs in
  ret (nonempty token, token).

Definition is_uri_char (c : Z) : bool := uri_reserved_character c || uri_unreserved_character c || (c =? chr "%").

(** The URI that is read must parse. *)
Definition read_uri (net : inet) : S (bool * bytes) :=
  let! u := read_while is_uri_char in
  if nonempty u then
    let! _ := lift (of_uri (Uri.parse net u)) in ret (true, u)
  else ret (false, u).

Definition read_version : S (bool * bytes) :=
  let! v := read_while (fun c => is_tchar c || (c =? chr "/")) in ret (nonempty v, v).

Definition read_status : S (bool * bytes) :=
  let! s := read_while isdigit in ret (Nat.eqb (length s) 3, s).

Definition read_reason : S (bool * bytes) :=
  let! r := read_while (fun c => is_whitespace c || is_vchar c || is_opaque c) in
  let reason := trim r in ret (nonempty reason, reason).

(** The loops of [read_qstring] and [read_comments], which end at [close] and
    differ in the characters they accept; [text] is what has been read. *)
Fixpoint quoted_loop (n : nat) (close : Z) (plain : Z -> bool) (text : bytes) : S bytes :=
  match n with
  | O => diverge
  | Datatypes.S n =>
      let! c := get in
      if c =? close then ret (text ++ [c])
      else if c =? chr "\" then
        let! d := get in
        if is_escaped d then quoted_loop n close plain (text ++ [c; d]) else throw invalid_argument
      else if plain c then quoted_loop n close plain (text ++ [c])
      else throw invalid_argument
  end.

Definition read_quoted (open close : Z) (plain : Z -> bool) : S (bool * bytes) :=
  let! c := get in
  if negb (c =? open) then unget;; ret (false, [])
  else let! s := with_rounds (fun n => quoted_loop n close plain [c]) in ret (true, s).

Definition dquote : Z := 34.
Definition read_qstring : S (bool * bytes) := read_quoted dquote dquote is_quoted.
Definition read_comments : S (bool * bytes) := read_quoted (chr "(") (chr ")") is_commented.

Fixpoint parameters_loop (n : nat) (pvec : param_vec) : S param_vec :=
  match n with
  | O => diverge
  | Datatypes.S n =>
      let! (found, name) := read_token true in
      if negb found then throw invalid_argument
      else
        read_opt_space;;
        let! eq := read_special (chr "=") in
        if negb eq then throw invalid_argument
        else
          read_opt_space;;
          let! c := peek in
          let! (next, value) :=
            if c =? dquote then read_qstring
            else if is_tchar c then read_token false
            else ret (false, []) in
          if negb next then throw invalid_argument
          else
            let pvec := pvec ++ [(name, value)] in
            read_opt_space;;
            let! semi := read_special (chr ";") in
            if semi then parameters_loop n pvec else ret pvec
  end.

Definition read_parameters : S (bool * param_vec) :=
  let! pvec := with_rounds (fun n => parameters_loop n []) in
  ret (match pvec with [] => false | _ => true end, pvec).

(** [std::stoll(hex, 0, 16)] of hexadecimal digits, stored in a [size_t]. *)
Definition read_chunk_size : S (option Z) :=
  let! hex := read_while isxdigit in
  if nonempty hex then
    let v := value_of 16 (xdigit_value <$> hex) in
    if v <? 2 ^ 63 then ret (Some v) else throw out_of_range
  else ret None.

(** The characters up to the end of the range. *)
Fixpoint rest_loop (n : nat) : S bytes :=
  match n with
  | O => diverge
  | Datatypes.S n =>
      let! c := get in
      if negb (c =? -1) then let! cs := rest_loop n in ret (c :: cs) else ret []
  end.

Definition any_segment : bytes := bytes_of "[^/]+".

(** The name and the value of a path parameter. *)
Definition read_path_parameter : S (bool * (bytes * bytes)) :=
  read_opt_space;;
  let! (found, name) := read_token true in
  if negb found then ret (false, (name, []))
  else
    read_opt_space;;
    let! eq := read_special (chr "=") in
    let! l := if eq then read_opt_space;; with_rounds rest_loop else ret [] in
    let value := trim l in
    ret (true, (name, match value with [] => any_segment | _ => value end)).

Fixpoint line_loop (n : nat) : S bytes :=
  match n with
  | O => diverge
  | Datatypes.S n =>
      let! c := get in
      if (c =? CR) || (c =? LF) then unget;; ret []
      else if c =? -1 then ret []
      else let! cs := line_loop n in ret (c :: cs)
  end.
Definition read_all : S (bool * bytes) := let! l := with_rounds line_loop in ret (true, trim l).

End Scanner.

(** ** Input streams

    A [std::istream] without exceptions: the characters left, and whether a read
    has failed, after which every read fails. *)
Record istream := { in_rest : bytes; in_fail : bool }.

(** [is.get(c)] as a condition. *)
Definition is_get (st : istream) : option Z * istream :=
  if in_fail st then (None, st)
  else match in_rest st with
       | c :: r => (Some c, {| in_rest := r; in_fail := false |})
       | [] => (None, {| in_rest := []; in_fail := true |})
       end.

(** [is.get()] *)
Definition is_get_int (st : istream) : Z * istream :=
  let '(o, st) := is_get st in (match o with Some c => uchar c | None => -1 end, st).

(** The rounds of [while (is.get(c)) { line.push_back(c); if (c == '\n') break; }]
    on a stream with these characters left. *)
Fixpoint readline_loop (rest : bytes) : bytes * istream :=
  match rest with
  | [] => ([], {| in_rest := []; in_fail := true |})
  | c :: rest =>
      if c =? LF then ([c], {| in_rest := rest; in_fail := false |})
      else let '(line, st) := readline_loop rest in (c :: line, st)
  end.

(** [readline(is, line)]: the result, the line, the stream. *)
Definition readline (st : istream) : bool * bytes * istream :=
  if in_fail st then (false, [], st)
  else let '(line, st) := readline_loop (in_rest st) in (negb (in_fail st), line, st).

(** The rounds of [while (is.get(c) && (n < to_read)) buf[n++] = c;] with [n]
    characters stored. *)
Fixpoint read_loop (rest : bytes) (n to_read : Z) : bytes * istream :=
  match rest with
  | [] => ([], {| in_rest := []; in_fail := true |})
  | c :: rest =>
      if n <? to_read then let '(buf, st) := read_loop rest (n + 1) to_read in (c :: buf, st)
      else ([], {| in_rest := rest; in_fail := false |})
  end.

(** [read(is, buf, to_read, &bread)]: the result, the characters stored, the
    stream. *)
Definition read (st : istream) (to_read : Z) : bool * bytes * istream :=
  if in_fail st then (false, [], st)
  else let '(buf, st) := read_loop (in_rest st) 0 to_read in (negb (in_fail st), buf, st).

(** ** Facts (The scanner on a text, and its termination)

    A scanner of a whole string is described by the characters before its
    position and those after it: [on pre rest]. *)

Import Scanner.

Definition on (pre rest : bytes) : scanner :=
  {| m_cur := length pre; m_len := length (pre ++ rest); m_str := pre ++ rest |}.

Lemma scan_on s : scan s = on [] s.
Proof. done. Qed.

Lemma on_shift pre c rest : on (pre ++ [c]) rest =
  {| m_cur := Datatypes.S (length pre); m_len := length (pre ++ c :: rest); m_str := pre ++ c :: rest |}.
Proof. unfold on. rewrite <- app_assoc, length_app. cbn. f_equal. lia. Qed.

Lemma get_on pre c rest : get (on pre (c :: rest)) = (Ok c, on (pre ++ [c]) rest).
Proof.
  unfold get. cbn [m_cur m_len m_str on]. rewrite decide_True by (rewrite length_app; cbn; lia).
  rewrite on_shift. unfold at_. cbn [m_cur m_len m_str on]. rewrite app_nth2, Nat.sub_diag by lia. done.
Qed.

Lemma get_end pre : get (on pre []) = (Ok (-1), on pre []).
Proof. unfold get. cbn [m_cur m_len on]. rewrite app_nil_r, decide_False by lia. done. Qed.

(** The last character is not put back. *)
Definition put_back (pre : bytes) (c : Z) (rest : bytes) : scanner :=
  match rest with [] => on (pre ++ [c]) [] | _ => on pre (c :: rest) end.

Lemma unget_on pre c rest : unget (on (pre ++ [c]) rest) = (Ok tt, put_back pre c rest).
Proof.
  rewrite on_shift. unfold unget, modify. cbn [m_cur m_len]. rewrite length_app. cbn [length].
  destruct rest as [|d rest]; cbn [length put_back].
  - rewrite decide_False by lia. by rewrite on_shift, length_app.
  - rewrite decide_True by lia. unfold at_, on. cbn. by rewrite length_app.
Qed.

Lemma unget_end pre : unget (on pre []) = (Ok tt, on pre []).
Proof. unfold unget, modify. cbn [m_cur m_len on]. by rewrite app_nil_r, decide_False by lia. Qed.

Lemma peek_on pre c rest : peek (on pre (c :: rest)) = (Ok c, on pre (c :: rest)).
Proof.
  unfold peek, gets. cbn [m_cur m_len m_str on]. rewrite decide_True by (rewrite length_app; cbn; lia).
  rewrite app_nth2, Nat.sub_diag by lia. done.
Qed.

Lemma peek_end pre : peek (on pre []) = (Ok (-1), on pre []).
Proof. unfold peek, gets. cbn [m_cur m_len on]. by rewrite app_nil_r, decide_False by lia. Qed.

Lemma rounds_on pre rest : rounds (on pre rest) = Datatypes.S (length rest).
Proof. unfold rounds. cbn [m_cur m_len on]. rewrite length_app. f_equal. lia. Qed.

Lemma with_rounds_on {A} (m : nat -> M cpp_exn scanner A) pre rest :
  with_rounds m (on pre rest) = m (Datatypes.S (length rest)) (on pre rest).
Proof. unfold with_rounds. by rewrite rounds_on. Qed.

(** Where a scanner stands after the characters of [w], when the character that
    follows has been read and put back. *)
Definition after (pre rest : bytes) : scanner :=
  match rest with [] => on pre [] | c :: r => put_back pre c r end.

Lemma after_cons2 pre c d r : after pre (c :: d :: r) = on pre (c :: d :: r).
Proof. done. Qed.

Lemma while_loop_on p n pre w rest : p (-1) = false -> Forall (fun c => p c = true) w ->
  match rest with c :: _ => p c = false | [] => True end -> (length w < n)%nat ->
  while_loop n p (on pre (w ++ rest)) = (Ok w, after (pre ++ w) rest).
Proof.
  intros H1 Hw Hr. revert n pre. induction Hw as [|c w Hc Hw IH]; intros n pre Hn;
    (destruct n as [|n]; [cbn in Hn; lia|]); cbn [while_loop app].
  - rewrite app_nil_r. destruct rest as [|c rest].
    + rewrite (bind_Ok _ _ _ _ _ (get_end pre)), H1, (bind_Ok _ _ _ _ _ (unget_end pre)). done.
    + rewrite (bind_Ok _ _ _ _ _ (get_on pre c rest)), Hr, (bind_Ok _ _ _ _ _ (unget_on pre c rest)). done.
  - rewrite (bind_Ok _ _ _ _ _ (get_on pre c _)), Hc.
    rewrite (bind_Ok _ _ _ _ _ (IH n (pre ++ [c]) ltac:(cbn in Hn; lia))). by rewrite <- app_assoc.
Qed.

(** The character that ends a text: one that the class does not contain, or none. *)
Definition stops (p : Z -> bool) (rest : bytes) : Prop := match rest with c :: _ => p c = false | [] => True end.

Lemma read_while_on p pre w rest : p (-1) = false -> Forall (fun c => p c = true) w -> stops p rest ->
  read_while p (on pre (w ++ rest)) = (Ok w, after (pre ++ w) rest).
Proof.
  intros. unfold read_while. rewrite with_rounds_on. apply while_loop_on; [done..|].
  rewrite length_app. lia.
Qed.

(** ** Termination and safety

    [safe m s P]: from [s], [m] returns with [P] or throws; it is neither cut off
    nor undefined. *)
Definition safe {E S A} (m : M E S A) (s : S) (P : A -> S -> Prop) : Prop :=
  match m s with
  | (Ok a, s') => P a s'
  | (Throw _, _) => True
  | _ => False
  end.

Lemma safe_bind {E S A B} (m : M E S A) (k : A -> M E S B) s Q :
  safe m s (fun a s' => safe (k a) s' Q) -> safe (bind m k) s Q.
Proof. unfold safe, bind. by destruct (m s) as [[a| | |] s']. Qed.

Lemma safe_impl {E S A} (m : M E S A) s (P Q : A -> S -> Prop) :
  safe m s P -> (forall a s', P a s' -> Q a s') -> safe m s Q.
Proof. unfold safe. destruct (m s) as [[a| | |] s']; auto. Qed.

(** The same of a result. *)
Definition settles {E A} (r : res E A) : Prop := match r with Ok _ | Throw _ => True | _ => False end.

Lemma settles_bind {E A B} (m : res E A) (k : A -> res E B) :
  settles m -> (forall a, m = Ok a -> settles (k a)) -> settles (rbind m k).
Proof. destruct m; cbn; auto. Qed.

(** A computation on a scanner inside its range stays inside, and never moves
    back. *)
Definition in_range (scn : scanner) : Prop := (m_cur scn <= m_len scn)%nat.
Definition left_ (scn : scanner) : nat := (m_len scn - m_cur scn)%nat.

(** From a place with fewer than [b] characters left, [m] consumes at least
    [Q a] characters when it returns [a]. *)
Definition advances {A} (b : nat) (m : M cpp_exn scanner A) (Q : A -> nat) : Prop :=
  forall scn, in_range scn -> (left_ scn < b)%nat ->
  safe m scn (fun a scn' => in_range scn' /\ (left_ scn' + Q a <= left_ scn)%nat).
Abbreviation steady b m := (advances b m (fun _ => O)).

Lemma advances_bind {A B} b (m : M cpp_exn scanner A) (k : A -> M cpp_exn scanner B) Q :
  advances b m Q -> (forall a, steady (b - Q a) (k a)) -> steady b (bind m k).
Proof.
  intros Hm Hk scn Hs Hb. apply safe_bind. eapply safe_impl; [by apply Hm|]. intros a s1 (H1 & Hl1).
  eapply safe_impl; [apply Hk; [done|lia]|]. cbv beta. intros b' s2 (? & ?). split; [done|]. lia.
Qed.

Lemma steady_bind {A B} b (m : M cpp_exn scanner A) (k : A -> M cpp_exn scanner B) :
  steady b m -> (forall a, steady b (k a)) -> steady b (bind m k).
Proof. intros Hm Hk. apply (advances_bind _ _ _ _ Hm). intros a. by rewrite Nat.sub_0_r. Qed.

Lemma advances_weaken {A} b (m : M cpp_exn scanner A) Q : advances b m Q -> steady b m.
Proof. intros Hm scn Hs Hb. eapply safe_impl; [by apply Hm|]. cbv beta. intros a s' [? ?]. split; [done|lia]. Qed.

Lemma steady_mono {A} b b' (m : M cpp_exn scanner A) : (b' <= b)%nat -> steady b m -> steady b' m.
Proof. intros Hb Hm scn Hs Hl. apply Hm; [done|lia]. Qed.

Lemma steady_ret {A} b (a : A) : steady b (ret a).
Proof. intros scn Hs Hb. cbn. split; [done|]. lia. Qed.
Lemma steady_throw {A} b e : steady b (throw (A:=A) e).
Proof. done. Qed.
Lemma steady_lift {A} b (r : res cpp_exn A) : settles r -> steady b (lift r).
Proof. intros Hr scn Hs Hb. unfold lift, safe. destruct r; [split; [done|lia]|done..]. Qed.
Lemma steady_peek b : steady b peek.
Proof. intros scn Hs Hb. cbn. split; [done|]. lia. Qed.

Lemma with_rounds_steady {A} b (m : nat -> M cpp_exn scanner A) :
  (forall n, steady n (m n)) -> steady b (with_rounds m).
Proof. intros Hm scn Hs Hb. unfold with_rounds. apply Hm; [done|]. unfold rounds, left_. lia. Qed.

(** [get] reads a character, or -1 at the end. *)
Lemma get_safe scn : in_range scn -> safe get scn (fun c scn' => in_range scn' /\
  ((c = -1 /\ scn' = scn /\ left_ scn = O) \/ (left_ scn' < left_ scn)%nat /\ scn' = at_ (Datatypes.S (m_cur scn)) scn)).
Proof.
  intros Hs. unfold get, safe, in_range, left_ in *. case_decide; cbn [m_cur m_len at_]; (split; [lia|]); [right|left]; (split; [lia|]); [done|].
  split; [done|lia].
Qed.

(** Reading a character and putting it back. *)
Lemma get_unget_safe scn (f : Z -> bool) : in_range scn -> safe get scn (fun c scn' => in_range scn' /\
  (left_ scn' <= left_ scn)%nat /\ (c <> -1 -> (left_ scn' < left_ scn)%nat) /\
  safe unget scn' (fun _ scn2 => in_range scn2 /\ (left_ scn2 <= left_ scn)%nat)).
Proof.
  intros Hs. eapply safe_impl; [by apply get_safe|]. cbv beta. intros c s' [Hr [(-> & -> & Hl)|[Hl ->]]].
  - split_and!; [done|lia|done|]. unfold unget, modify, safe, in_range, left_ in *. case_decide; cbn; lia.
  - split_and!; [done|lia|done|]. unfold unget, modify, safe, in_range, left_ in *. cbn [m_cur m_len at_] in *.
    case_decide; cbn [m_cur m_len at_]; lia.
Qed.

Lemma while_loop_safe p n scn : p (-1) = false -> in_range scn -> (left_ scn < n)%nat ->
  safe (while_loop n p) scn (fun w scn' => in_range scn' /\ (left_ scn' + length w <= left_ scn)%nat).
Proof.
  intros H1. revert scn. induction n as [|n IH]; intros scn Hs Hn; [lia|]. cbn [while_loop].
  apply safe_bind. eapply safe_impl; [by apply (get_unget_safe _ p)|]. cbv beta. intros c s1 (Hr & Hl & Hlt & Hu).
  destruct (p c) eqn:Hc.
  - assert (c <> -1) as Hne by congruence. specialize (Hlt Hne).
    apply safe_bind. eapply safe_impl; [apply IH; [done|lia]|]. cbn. intros w s2 [? ?]. split; [done|lia].
  - apply safe_bind. eapply safe_impl; [exact Hu|]. cbn. intros _ s2 [? ?]. split; [done|lia].
Qed.

Lemma read_while_advances b p : p (-1) = false -> advances b (read_while p) length.
Proof. intros H1 scn Hs Hb. unfold read_while, with_rounds. apply while_loop_safe; [done..|]. unfold rounds, left_. lia. Qed.

(** A character read, and put back on one of two paths. *)
Lemma get_branch {A} b (f : Z -> bool) (m : M cpp_exn scanner A) (k : Z -> M cpp_exn scanner A) (r : A) :
  f (-1) = false -> (forall c, f c = true -> steady (pred b) (k c)) ->
  steady b (bind get (fun c => if f c then k c else bind unget (fun _ => ret r))).
Proof.
  intros H1 Hk scn Hs Hb. apply safe_bind. eapply safe_impl; [by apply (get_unget_safe _ f)|].
  cbv beta. intros c s1 (Hr & Hl & Hlt & Hu). destruct (f c) eqn:Hc.
  - assert (c <> -1) as Hne by congruence. specialize (Hlt Hne).
    eapply safe_impl; [apply Hk; [done..|lia]|]. cbv beta. intros a s2 [? ?]. split; [done|lia].
  - apply safe_bind. eapply safe_impl; [exact Hu|]. cbn. intros _ s2 [? ?]. split; [done|lia].
Qed.

Lemma get_steady {A} b (k : Z -> M cpp_exn scanner A) :
  (forall c, c <> -1 -> steady (pred b) (k c)) -> steady b (k (-1)) -> steady b (bind get k).
Proof.
  intros Hk H1 scn Hs Hb. apply safe_bind. eapply safe_impl; [by apply (get_unget_safe _ (fun _ => true))|].
  cbv beta. intros c s1 (Hr & Hl & Hlt & _). destruct (Z.eq_dec c (-1)) as [->|Hne].
  - eapply safe_impl; [apply H1; [done|lia]|]. cbv beta. intros a s2 [? ?]. split; [done|lia].
  - specialize (Hlt Hne). eapply safe_impl; [apply Hk; [done..|lia]|]. cbv beta. intros a s2 [? ?]. split; [done|lia].
Qed.

(** ** The readers *)
Create HintDb steady.
#[export] Hint Resolve steady_ret steady_throw steady_peek with_rounds_steady : steady.

Lemma read_opt_space_steady b : steady b read_opt_space.
Proof.
  apply steady_bind; [|auto with steady]. apply (advances_weaken _ _ length), read_while_advances. done.
Qed.

Lemma read_space_steady b : steady b read_space.
Proof.
  apply steady_bind; [|auto with steady]. apply (advances_weaken _ _ length), read_while_advances. done.
Qed.

(** One character is consumed when it is the expected one. *)
Lemma read_special_advances b s : s <> -1 -> advances b (read_special s) (fun r => if r then 1 else 0)%nat.
Proof.
  intros Hs scn Hr Hb. apply safe_bind. eapply safe_impl; [by apply (get_unget_safe _ (fun _ => true))|].
  cbv beta. intros c s1 (Hr1 & Hl & Hlt & Hu). destruct (Z.eqb_spec c s) as [->|Hne]; cbn [negb].
  - specialize (Hlt Hs). cbn. split; [done|lia].
  - apply safe_bind. eapply safe_impl; [exact Hu|]. cbn. intros _ s2 [? ?]. split; [done|lia].
Qed.

Lemma read_special_steady b s : s <> -1 -> steady b (read_special s).
Proof. intros. eapply advances_weaken, read_special_advances. done. Qed.

Lemma read_crlf_steady b : steady b read_crlf.
Proof.
  intros scn Hs Hb. unfold read_crlf. apply safe_bind. eapply safe_impl; [by apply (get_unget_safe _ (fun _ => true))|].
  cbv beta. intros c s1 (Hr1 & Hl & Hlt & Hu). repeat case_match; try (cbn; split; [done|lia]).
  - apply safe_bind. eapply safe_impl; [by apply (get_unget_safe _ (fun _ => true))|]. cbv beta.
    intros d s2 (Hr2 & Hl2 & _ & Hu2). case_match; [|cbn; split; [done|lia]].
    apply safe_bind. eapply safe_impl; [exact Hu2|]. cbn. intros _ s3 [? ?]. split; [done|lia].
  - apply safe_bind. eapply safe_impl; [exact Hu|]. cbn. intros _ s2 [? ?]. split; [done|lia].
Qed.

(** A token, when there is one, is not empty. *)
Lemma read_token_advances b l : advances b (read_token l) (fun r => if r.1 then 1 else 0)%nat.
Proof.
  intros scn Hs Hb. unfold read_token. apply safe_bind.
  eapply safe_impl; [by apply (read_while_advances b is_tchar)|]. cbv beta. intros cs s1 [? ?]. cbn.
  split; [done|]. destruct l, cs; cbn in *; lia.
Qed.

Lemma read_token_steady b l : steady b (read_token l).
Proof. eapply advances_weaken, read_token_advances. Qed.

Lemma read_version_steady b : steady b read_version.
Proof. apply steady_bind; [|auto with steady]. eapply advances_weaken, read_while_advances. done. Qed.

Lemma read_status_steady b : steady b read_status.
Proof. apply steady_bind; [|auto with steady]. eapply advances_weaken, read_while_advances. done. Qed.

Lemma read_reason_steady b : steady b read_reason.
Proof. apply steady_bind; [|auto with steady]. eapply advances_weaken, read_while_advances. done. Qed.

Lemma of_uri_settles {A} (r : res uri_exn A) : Uri.ends r -> settles (of_uri r).
Proof. by destruct r. Qed.

Lemma uri_settles net s : settles (of_uri (Uri.parse net s)).
Proof. apply of_uri_settles, Uri.parse_loop_ends. lia. Qed.

Lemma read_uri_steady b net : steady b (read_uri net).
Proof.
  apply steady_bind; [eapply advances_weaken, read_while_advances; done|]. intros u. destruct (nonempty u); [|auto with steady].
  apply steady_bind; [apply steady_lift, uri_settles|auto with steady].
Qed.

Lemma quoted_loop_steady n close plain text : close <> -1 -> plain (-1) = false -> steady n (quoted_loop n close plain text).
Proof.
  intros Hc Hp. revert n text. fix IH 1. intros [|n] text; [intros scn _ Hl; lia|].
  cbn [quoted_loop]. apply get_steady.
  - intros c Hne. cbn [pred]. repeat case_match; auto with steady.
    apply get_steady; [|done]. intros d _. destruct (is_escaped d); [|done].
    apply (steady_mono n); [lia|apply IH].
  - rewrite (proj2 (Z.eqb_neq _ _) (not_eq_sym Hc)). cbn. rewrite Hp. apply steady_throw.
Qed.

Lemma read_quoted_steady b open close plain : open <> -1 -> close <> -1 -> plain (-1) = false ->
  steady b (read_quoted open close plain).
Proof.
  intros Ho Hc Hp scn Hs Hb. unfold read_quoted. apply safe_bind.
  eapply safe_impl; [by apply (get_unget_safe _ (fun _ => true))|].
  cbv beta. intros c s1 (Hr1 & Hl & Hlt & Hu). destruct (Z.eqb_spec c open) as [->|Hne]; cbn [negb].
  - eapply safe_impl; [apply (steady_bind b); [apply with_rounds_steady; intros; by apply quoted_loop_steady|auto with steady|done|lia]|].
    cbv beta. intros r s2 [? ?]. split; [done|lia].
  - apply safe_bind. eapply safe_impl; [exact Hu|]. cbn. intros _ s2 [? ?]. split; [done|lia].
Qed.

Lemma read_qstring_steady b : steady b read_qstring.
Proof. by apply read_quoted_steady. Qed.
Lemma read_comments_steady b : steady b read_comments.
Proof. by apply read_quoted_steady. Qed.

#[export] Hint Resolve read_opt_space_steady read_space_steady read_token_steady read_version_steady
  read_status_steady read_reason_steady read_uri_steady read_crlf_steady read_qstring_steady read_comments_steady : steady.
#[export] Hint Extern 5 (steady _ (read_special _)) => (apply read_special_steady; discriminate) : steady.
#[export] Hint Extern 6 (steady _ (bind _ _)) => (apply steady_bind; [|intros]) : steady.
#[export] Hint Extern 6 (steady _ (if ?b then _ else _)) => (destruct b) : steady.
#[export] Hint Extern 6 (steady _ (let '(_, _) := ?p in _)) => (destruct p) : steady.

(** A loop whose round starts with a token. *)
Lemma token_round {A} b l (k : bool * bytes -> M cpp_exn scanner A) :
  (forall t, steady (pred b) (k (true, t))) -> (forall t, steady b (k (false, t))) ->
  steady b (bind (read_token l) k).
Proof.
  intros Ht Hf. apply (advances_bind _ _ _ _ (read_token_advances b l)). intros [[] t]; cbn.
  - by replace (b - 1)%nat with (pred b) by lia.
  - by rewrite Nat.sub_0_r.
Qed.

Lemma parameters_loop_steady n pvec : steady n (parameters_loop n pvec).
Proof.
  revert pvec. induction n as [|n IH]; intros pvec; [intros scn _ Hl; lia|]. cbn [parameters_loop].
  apply token_round; intros name; cbn [negb pred]; auto 30 with steady.
Qed.

Lemma read_parameters_steady b : steady b read_parameters.
Proof. unfold read_parameters. auto using parameters_loop_steady with steady. Qed.
#[export] Hint Resolve read_parameters_steady : steady.

Lemma line_loop_steady n : steady n (line_loop n).
Proof.
  induction n as [|n IH]; [intros scn _ Hl; lia|]. intros scn Hs Hb. cbn [line_loop]. apply safe_bind.
  eapply safe_impl; [by apply (get_unget_safe _ (fun _ => true))|].
  cbv beta. intros c s1 (Hr1 & Hl & Hlt & Hu). destruct ((c =? CR) || (c =? LF)).
  - apply safe_bind. eapply safe_impl; [exact Hu|]. cbn. intros _ s2 [? ?]. split; [done|lia].
  - destruct (Z.eqb_spec c (-1)); [cbn; split; [done|lia]|]. specialize (Hlt n0).
    apply safe_bind. eapply safe_impl; [apply IH; [done|lia]|]. cbn. intros cs s2 [? ?]. split; [done|lia].
Qed.

Lemma rest_loop_steady n : steady n (rest_loop n).
Proof.
  induction n as [|n IH]; [intros scn _ Hl; lia|]. cbn [rest_loop]. apply get_steady; [|apply steady_ret].
  intros c Hc. rewrite (proj2 (Z.eqb_neq _ _) Hc). cbn [negb pred]. apply steady_bind; [exact IH|auto with steady].
Qed.

Lemma read_all_steady b : steady b read_all.
Proof. unfold read_all. auto using line_loop_steady with steady. Qed.
#[export] Hint Resolve read_all_steady : steady.

Lemma read_path_parameter_steady b : steady b read_path_parameter.
Proof. unfold read_path_parameter. auto 30 using rest_loop_steady with steady. Qed.

(** A computation on a whole text. *)
Lemma steady_safe {A} (m : M cpp_exn scanner A) s : (forall b, steady b m) -> settles (fst (m (scan s))).
Proof.
  intros Hm. assert (in_range (scan s)) as Hr by (unfold in_range; cbn; lia).
  specialize (Hm (Datatypes.S (left_ (scan s))) _ Hr ltac:(lia)). unfold safe in Hm. by destruct (m (scan s)) as [[] ?].
Qed.

(** ** The readers on a text *)
Lemma after_on pre rest : length rest <> 1%nat -> after pre rest = on pre rest.
Proof. destruct rest as [|c [|d r]]; done. Qed.

Lemma read_token_on pre w rest l : w <> [] -> Forall (fun c => is_tchar c = true) w -> stops is_tchar rest ->
  read_token l (on pre (w ++ rest)) = (Ok (true, if l then tolower <$> w else w), after (pre ++ w) rest).
Proof.
  intros Hne Hw Hr. unfold read_token. rewrite (bind_Ok _ _ _ _ _ (read_while_on is_tchar pre w rest eq_refl Hw Hr)).
  destruct l, w; done.
Qed.

Lemma read_opt_space_on pre w rest : Forall (fun c => is_whitespace c = true) w -> stops is_whitespace rest ->
  read_opt_space (on pre (w ++ rest)) = (Ok true, after (pre ++ w) rest).
Proof. intros Hw Hr. unfold read_opt_space. by rewrite (bind_Ok _ _ _ _ _ (read_while_on is_whitespace pre w rest eq_refl Hw Hr)). Qed.

Lemma read_opt_space_none pre rest : stops is_whitespace rest -> read_opt_space (on pre rest) = (Ok true, after pre rest).
Proof. intros Hr. pose proof (read_opt_space_on pre [] rest (Forall_nil_2 _) Hr) as H. by rewrite app_nil_r in H. Qed.

Lemma read_special_on pre c rest : read_special c (on pre (c :: rest)) = (Ok true, on (pre ++ [c]) rest).
Proof. unfold read_special. rewrite (bind_Ok _ _ _ _ _ (get_on pre c rest)), Z.eqb_refl. done. Qed.

Lemma read_special_ne s pre c rest : c <> s -> read_special s (on pre (c :: rest)) = (Ok false, put_back pre c rest).
Proof.
  intros Hc. unfold read_special. rewrite (bind_Ok _ _ _ _ _ (get_on pre c rest)), (proj2 (Z.eqb_neq _ _) Hc). cbn [negb].
  by rewrite (bind_Ok _ _ _ _ _ (unget_on pre c rest)).
Qed.

Lemma read_special_end s pre : s <> -1 -> read_special s (on pre []) = (Ok false, on pre []).
Proof.
  intros Hs. unfold read_special. rewrite (bind_Ok _ _ _ _ _ (get_end pre)), (proj2 (Z.eqb_neq _ _) (not_eq_sym Hs)). cbn [negb].
  by rewrite (bind_Ok _ _ _ _ _ (unget_end pre)).
Qed.

(** The end of a line. *)
Lemma read_crlf_on pre : read_crlf (on pre crlf) = (Ok true, on (pre ++ crlf) []).
Proof.
  unfold read_crlf, crlf. rewrite (bind_Ok _ _ _ _ _ (get_on pre CR [LF])).
  change (CR =? -1) with false. change (CR =? LF) with false. change (CR =? CR) with true. cbv iota.
  rewrite (bind_Ok _ _ _ _ _ (get_on (pre ++ [CR]) LF [])). change (negb (LF =? LF)) with false. cbv iota.
  by rewrite <- app_assoc.
Qed.

(** A line up to its end. *)
Definition line_char (c : Z) : Prop := c <> CR /\ c <> LF /\ c <> -1.

Lemma line_loop_on n pre w rest : Forall line_char w -> (rest = [] \/ exists r, rest = CR :: r) -> (length w < n)%nat ->
  line_loop n (on pre (w ++ rest)) = (Ok w, after (pre ++ w) rest).
Proof.
  intros Hw Hr. revert n pre. induction Hw as [|c w (H1 & H2 & H3) Hw IH]; intros n pre Hn;
    (destruct n as [|n]; [cbn in Hn; lia|]); cbn [line_loop app].
  - rewrite app_nil_r. destruct Hr as [->|[r ->]].
    + rewrite (bind_Ok _ _ _ _ _ (get_end pre)). done.
    + rewrite (bind_Ok _ _ _ _ _ (get_on pre CR r)). change ((CR =? CR) || (CR =? LF)) with true. cbv iota. rewrite (bind_Ok _ _ _ _ _ (unget_on pre CR r)). done.
  - rewrite (bind_Ok _ _ _ _ _ (get_on pre c _)).
    rewrite (proj2 (Z.eqb_neq _ _) H1), (proj2 (Z.eqb_neq _ _) H2), (proj2 (Z.eqb_neq _ _) H3). cbn [orb].
    rewrite (bind_Ok _ _ _ _ _ (IH n (pre ++ [c]) ltac:(cbn in Hn; lia))). by rewrite <- app_assoc.
Qed.

Lemma read_all_on pre w rest : Forall line_char w -> (rest = [] \/ exists r, rest = CR :: r) ->
  read_all (on pre (w ++ rest)) = (Ok (true, trim w), after (pre ++ w) rest).
Proof.
  intros Hw Hr. unfold read_all.
  rewrite (bind_Ok _ _ _ w (after (pre ++ w) rest)); [done|]. rewrite with_rounds_on. apply line_loop_on; [done..|].
  rewrite length_app. lia.
Qed.

(** A quoted string, with its quotes. *)
Fixpoint quoted_text (close : Z) (plain : Z -> bool) (s : bytes) : bool :=
  match s with
  | [] => true
  | c :: s =>
      if c =? chr "\" then match s with d :: s => is_escaped d && quoted_text close plain s | [] => false end
      else negb (c =? close) && plain c && quoted_text close plain s
  end.

Lemma quoted_loop_on m n close plain pre w rest acc : close <> chr "\" -> (length w <= m)%nat ->
  quoted_text close plain w = true -> (length w < n)%nat ->
  quoted_loop n close plain acc (on pre (w ++ close :: rest)) = (Ok (acc ++ w ++ [close]), on (pre ++ w ++ [close]) rest).
Proof.
  intros Hc. revert n pre w acc. induction m as [|m IH]; intros n pre w acc Hm Hw Hn;
    (destruct n as [|n]; [cbn in Hn; lia|]); destruct w as [|c w]; cbn [quoted_loop app]; try (cbn in Hm; lia).
  1,2: rewrite (bind_Ok _ _ _ _ _ (get_on pre close rest)), Z.eqb_refl; done.
  rewrite (bind_Ok _ _ _ _ _ (get_on pre c _)). cbn [quoted_text] in Hw. destruct (Z.eqb_spec c (chr "\")) as [->|Hs].
  - rewrite (proj2 (Z.eqb_neq _ _) (not_eq_sym Hc)). destruct w as [|d w]; [done|].
    apply andb_true_iff in Hw as [Hd Hw]. cbn [app]. rewrite (bind_Ok _ _ _ _ _ (get_on (pre ++ [chr "\"]) d _)), Hd.
    rewrite IH by (done || (cbn in Hm, Hn; lia)). by rewrite <- !app_assoc.
  - rewrite !andb_true_iff in Hw. destruct Hw as [[Hne Hp] Hw]. apply negb_true_iff in Hne. rewrite Hne, Hp.
    rewrite IH by (done || (cbn in Hm, Hn; lia)). by rewrite <- !app_assoc.
Qed.

Lemma read_qstring_on pre w rest : quoted_text dquote is_quoted w = true ->
  read_qstring (on pre (dquote :: w ++ dquote :: rest)) = (Ok (true, dquote :: w ++ [dquote]), on (pre ++ dquote :: w ++ [dquote]) rest).
Proof.
  intros Hw. unfold read_qstring, read_quoted. rewrite (bind_Ok _ _ _ _ _ (get_on pre dquote _)), Z.eqb_refl. cbn [negb].
  rewrite (bind_Ok _ _ _ (dquote :: w ++ [dquote]) (on (pre ++ dquote :: w ++ [dquote]) rest)); [done|].
  rewrite with_rounds_on, (quoted_loop_on (length w)); [|done|lia|done|rewrite length_app; lia]. by rewrite <- !app_assoc.
Qed.

(** ** Parameters *)
Definition is_token (s : bytes) : Prop := s <> [] /\ Forall (fun c => is_tchar c = true) s.
Definition is_name (s : bytes) : Prop := is_token s /\ tolower <$> s = s.
(** At least two characters: a last character that is read ahead is lost. *)
Definition long (s : bytes) : Prop := (2 <= length s)%nat.
Definition pvalue_ok (v : bytes) : Prop :=
  is_token v /\ long v \/ exists w, v = dquote :: w ++ [dquote] /\ quoted_text dquote is_quoted w = true.
Definition param_ok (p : bytes * bytes) : Prop := is_name p.1 /\ pvalue_ok p.2.

(** The parameters as they are printed, from the first name on, and the rest of
    the text: nothing, or at least two characters that start with a comma. *)
Definition param_text (p : bytes * bytes) : bytes := p.1 ++ chr "=" :: p.2.
Definition params_text (ps : param_vec) : bytes := concat ((fun p => chr ";" :: param_text p) <$> ps).
Definition list_end (rest : bytes) : Prop := rest = [] \/ exists c r, rest = chr "," :: c :: r.

Lemma list_end_after pre rest : list_end rest -> after pre rest = on pre rest.
Proof. intros [->|(c & r & ->)]; done. Qed.

Lemma pvalue_on {A} pre v rest (k : bool * bytes -> M cpp_exn scanner A) : pvalue_ok v ->
  stops is_tchar rest -> length rest <> 1%nat ->
  bind peek (fun c => bind (if c =? dquote then read_qstring else if is_tchar c then read_token false else ret (false, [])) k)
    (on pre (v ++ rest)) = k (true, v) (on (pre ++ v) rest).
Proof.
  intros [[[Hne Hv] _]|(w & -> & Hw)] Hr Hl.
  - destruct v as [|c v]; [done|]. cbn [app]. rewrite (bind_Ok _ _ _ _ _ (peek_on pre c _)).
    pose proof (Forall_inv Hv) as Hc. cbv beta in Hc. rewrite Hc.
    destruct (Z.eqb_spec c dquote) as [->|_]; [done|].
    change (c :: v ++ rest) with ((c :: v) ++ rest).
    rewrite (bind_Ok _ _ _ _ _ (read_token_on pre (c :: v) rest false ltac:(done) Hv Hr)). by rewrite after_on.
  - cbn [app]. rewrite (bind_Ok _ _ _ _ _ (peek_on pre dquote _)), Z.eqb_refl. rewrite <- app_assoc. cbn [app].
    by rewrite (bind_Ok _ _ _ _ _ (read_qstring_on pre w rest Hw)).
Qed.

Lemma params_text_stops (p : Z -> bool) ps rest : p (chr ";") = false -> stops p rest -> stops p (params_text ps ++ rest).
Proof. intros Hp Hr. by destruct ps. Qed.

(** A text of parameters is never one character long. *)
Lemma params_text_long ps rest : Forall param_ok ps -> length rest <> 1%nat -> length (params_text ps ++ rest) <> 1%nat.
Proof.
  intros Hps Hr. destruct Hps as [|p ps ((Hn & _) & _) _]; [done|]. destruct p as [n v]. unfold params_text, param_text. cbn.
  rewrite !length_app. destruct n; [by destruct Hn|]. cbn. lia.
Qed.

Lemma list_end_stops (p : Z -> bool) rest : p (chr ",") = false -> list_end rest -> stops p rest.
Proof. by intros Hp [->|(c & r & ->)]. Qed.

Lemma list_end_long rest : list_end rest -> length rest <> 1%nat.
Proof. by intros [->|(c & r & ->)]. Qed.

Lemma pvalue_long v : pvalue_ok v -> long v.
Proof. intros [[_ ?]|(w & -> & _)]; [done|]. unfold long. cbn. rewrite length_app. cbn. lia. Qed.

Lemma tchar_no_space s rest : s <> [] -> Forall (fun c => is_tchar c = true) s -> stops is_whitespace (s ++ rest).
Proof.
  intros Hne Hs. destruct s as [|c s]; [done|]. apply Forall_inv in Hs. cbn. unfold is_whitespace.
  destruct (Z.eqb_spec c (chr " ")) as [->|]; [done|]. destruct (Z.eqb_spec c 9) as [->|]; done.
Qed.

Lemma pvalue_no_space v rest : pvalue_ok v -> stops is_whitespace (v ++ rest).
Proof. intros [[[? ?] _]|(w & -> & _)]; [by apply tchar_no_space|done]. Qed.

(** One round of [parameters_loop]. *)
Lemma parameters_round n p pre acc rest : param_ok p -> stops is_tchar rest -> stops is_whitespace rest ->
  length rest <> 1%nat ->
  parameters_loop (Datatypes.S n) acc (on pre (param_text p ++ rest)) =
  bind (read_special (chr ";")) (fun semi => if semi then parameters_loop n (acc ++ [p]) else ret (acc ++ [p]))
    (on (pre ++ param_text p) rest).
Proof.
  destruct p as [name v]. intros [[[Hne Hname] Hlow] Hv] Ht Hw Hl. cbn [fst snd] in *.
  pose proof (pvalue_long v Hv) as Hlv. unfold long in Hlv.
  cbn [parameters_loop]. unfold param_text. cbn [fst snd]. rewrite <- app_assoc. cbn [app].
  rewrite (bind_Ok _ _ _ _ _ (read_token_on pre name (chr "=" :: v ++ rest) true Hne Hname eq_refl)), Hlow. cbn [negb].
  rewrite after_on by (cbn; rewrite length_app; lia).
  rewrite (bind_Ok _ _ _ _ _ (read_opt_space_none (pre ++ name) (chr "=" :: v ++ rest) eq_refl)).
  rewrite after_on by (cbn; rewrite length_app; lia).
  rewrite (bind_Ok _ _ _ _ _ (read_special_on _ (chr "=") _)). cbn [negb].
  rewrite (bind_Ok _ _ _ _ _ (read_opt_space_none _ (v ++ rest) (pvalue_no_space v rest Hv))).
  rewrite after_on by (rewrite length_app; lia).
  rewrite (pvalue_on _ v rest _ Hv Ht Hl). cbn [negb].
  rewrite (bind_Ok _ _ _ _ _ (read_opt_space_none _ rest Hw)), after_on by done.
  by rewrite <- !app_assoc.
Qed.

(** What [parameters_loop] reads from the first name on. *)
Lemma parameters_loop_on ps : forall p n pre acc rest, Forall param_ok (p :: ps) -> list_end rest -> (length ps < n)%nat ->
  parameters_loop n acc (on pre (param_text p ++ params_text ps ++ rest)) =
  (Ok (acc ++ p :: ps), on (pre ++ param_text p ++ params_text ps) rest).
Proof.
  induction ps as [|q ps IH]; intros p n pre acc rest Hp Hr Hn;
    (destruct n as [|n]; [cbn in Hn; lia|]); inversion_clear Hp as [|? ? Hp0 Hps].
  - rewrite parameters_round; [|done|by apply (list_end_stops _ rest)|by apply (list_end_stops _ rest)|by apply list_end_long].
    change (params_text []) with (@nil Z). rewrite app_nil_r. cbn [app]. destruct Hr as [->|(c & r & ->)].
    + by rewrite (bind_Ok _ _ _ _ _ (read_special_end (chr ";") _ ltac:(done))).
    + by rewrite (bind_Ok _ _ _ _ _ (read_special_ne (chr ";") _ (chr ",") (c :: r) ltac:(done))).
  - rewrite parameters_round; [|done|done|done|apply params_text_long; [done|by apply list_end_long]].
    change (params_text (q :: ps) ++ rest) with (chr ";" :: (param_text q ++ params_text ps) ++ rest).
    rewrite (bind_Ok _ _ _ _ _ (read_special_on _ (chr ";") _)), <- (app_assoc (param_text q)).
    rewrite (IH q n _ (acc ++ [p]) rest Hps Hr) by (cbn in Hn; lia).
    rewrite <- !app_assoc. done.
Qed.

Lemma read_parameters_on p ps pre rest : Forall param_ok (p :: ps) -> list_end rest ->
  read_parameters (on pre (param_text p ++ params_text ps ++ rest)) =
  (Ok (true, p :: ps), on (pre ++ param_text p ++ params_text ps) rest).
Proof.
  intros Hp Hr. unfold read_parameters.
  rewrite (bind_Ok _ _ _ (p :: ps) (on (pre ++ param_text p ++ params_text ps) rest)); [done|].
  rewrite with_rounds_on. apply (parameters_loop_on ps p); [done..|].
  rewrite !length_app. enough (length ps <= length (params_text ps))%nat by lia. clear. unfold params_text.
  induction ps as [|q ps IH]; cbn; [lia|]. rewrite length_app. lia.
Qed.
