(* ===== verification/Hval.v ===== *)
(** * http: header values (http/include/common/hval.h, http/src/common/hval.cpp,
    http/include/common/version.h, http/src/common/version.cpp)

    The values a header field can have, the functions that read them from text,
    the validators, and how they are printed. *)
From S2P Require Import Prelude Effects Numbers UriText Uri Text Timeutil Scanner.
From S2P Require Import UriRoundTrip.

Import Scanner.

(** ** version.h, version.cpp *)
Definition http_protocol : bytes := bytes_of "HTTP".
Definition MAJOR_VERSION : Z := 1.
Definition MINOR_VERSION : Z := 1.

Record version := { m_protocol : bytes; m_major : Z; m_minor : Z }.
Definition version_default : version :=
  {| m_protocol := http_protocol; m_major := MAJOR_VERSION; m_minor := MINOR_VERSION |}.

(** [vstr.find_first_of(c)] *)
Definition find_first_of (c : Z) (s : bytes) : option nat := fst <$> list_find (fun x => x = c) s.

Definition digit_at (s : bytes) (i : nat) : res cpp_exn Z :=
  let? c := char_at s i in if isdigit c then Ok (c - chr "0") else Throw bad_message.

(** [version(vstr)] *)
Definition parse_version (vstr : bytes) : res cpp_exn version :=
  let '(proto, idx) :=
    match find_first_of (chr "/") vstr with
    | Some i => (take i vstr, Datatypes.S i)
    | None => ([], O)
    end in
  let? major := digit_at vstr idx in
  let? c := char_at vstr (idx + 1) in
  if negb (c =? chr ".") then Throw bad_message
  else
    let? minor := digit_at vstr (idx + 2) in
    Ok {| m_protocol := proto; m_major := major; m_minor := minor |}.

(** [v.str()] *)
Definition print_version (v : version) : bytes :=
  (if nonempty (m_protocol v) then m_protocol v ++ bytes_of "/" else []) ++
  print_int (m_major v) ++ bytes_of "." ++ print_int (m_minor v).

(** ** hval.h: values *)
Record token := { t_name : bytes; t_parameters : param_vec }.
Record host_port := { hp_host : bytes; hp_port : Z }.
Record media_type := { mt_type : bytes; mt_subtype : bytes; mt_parameters : param_vec }.
Record via := { v_ver : version; v_url : uri; v_comments : bytes }.

Definition print_parameters (ps : param_vec) : bytes :=
  concat ((fun p => bytes_of ";" ++ p.1 ++ (if nonempty p.2 then bytes_of "=" ++ p.2 else [])) <$> ps).

Definition print_token (t : token) : bytes := t_name t ++ print_parameters (t_parameters t).

Definition print_host_port (hp : host_port) : bytes :=
  hp_host hp ++ (if hp_port hp =? 0 then [] else bytes_of ":" ++ print_int (hp_port hp)).

Definition print_media_type (mt : media_type) : bytes :=
  mt_type mt ++ bytes_of "/" ++ mt_subtype mt ++ print_parameters (mt_parameters mt).

(** [uri_port::numeric_port], an [in_port_t]. *)
Definition numeric_port (u : uri) : res cpp_exn Z := let? p := stoi (m_port u) in Ok (wrapU 16 p).

Definition print_via (v : via) : res cpp_exn bytes :=
  let? authority :=
    if is_present (m_host (v_url v)) then
      let? port :=
        if is_present (m_port (v_url v)) then
          let? p := numeric_port (v_url v) in Ok (bytes_of ":" ++ print_int p)
        else Ok [] in
      Ok (m_host (v_url v) ++ port)
    else Ok [] in
  Ok (print_version (v_ver v) ++ bytes_of " " ++ authority ++
      (if nonempty (v_comments v) then bytes_of " " ++ v_comments v else [])).

(** The classes derived from [base_value], with the text they were read from:
    the types [num_single_val_t] to [vai_seq_val_t]. *)
Inductive base_value :=
  | num_val (raw : bytes) (v : Z)
  | mt_val (raw : bytes) (v : media_type)
  | hp_val (raw : bytes) (v : host_port)
  | uri_val (raw : bytes) (v : uri)
  | dt_val (raw : bytes) (v : DateTime.datetime)
  | ce_seq (raw : bytes) (v : list bytes)
  | str_seq (raw : bytes) (v : list bytes)
  | tok_seq (raw : bytes) (v : list token)
  | cnxn_seq (raw : bytes) (v : list bytes)
  | via_seq (raw : bytes) (v : list via).

Definition is_seq (v : base_value) : bool :=
  match v with num_val _ _ | mt_val _ _ | hp_val _ _ | uri_val _ _ | dt_val _ _ => false | _ => true end.

Definition raw (v : base_value) : bytes :=
  match v with
  | num_val r _ | mt_val r _ | hp_val r _ | uri_val r _ | dt_val r _
  | ce_seq r _ | str_seq r _ | tok_seq r _ | cnxn_seq r _ | via_seq r _ => r
  end.

(** The elements of a sequence separated by a comma and a space. *)
Fixpoint join_with (sep : bytes) (l : list bytes) : bytes :=
  match l with
  | [] => []
  | [s] => s
  | s :: l => s ++ sep ++ join_with sep l
  end.

Fixpoint print_all {A} (f : A -> res cpp_exn bytes) (l : list A) : res cpp_exn (list bytes) :=
  match l with
  | [] => Ok []
  | a :: l => let? s := f a in let? ss := print_all f l in Ok (s :: ss)
  end.

(** [v.str()] *)
Definition value_str (v : base_value) : res cpp_exn bytes :=
  let sep := bytes_of ", " in
  match v with
  | num_val _ n => Ok (print_int n)
  | mt_val _ mt => Ok (print_media_type mt)
  | hp_val _ hp => Ok (print_host_port hp)
  | uri_val _ u => Ok (Uri.print u)
  | dt_val _ t => DateTime.str DateTime.imf t
  | ce_seq _ l | str_seq _ l | cnxn_seq _ l => Ok (join_with sep l)
  | tok_seq _ l => Ok (join_with sep (print_token <$> l))
  | via_seq _ l => let? ss := print_all print_via l in Ok (join_with sep ss)
  end.

(** ** hval.cpp: reading values *)

(** A computation on a scanner of a whole string. *)
Definition run {A} (m : M cpp_exn scanner A) (istr : bytes) : res cpp_exn A := fst (m (scan istr)).

Section parsers.
Context (net : inet) (lib : DateTime.clock).

Definition parse_number (istr : bytes) : res cpp_exn Z :=
  if forallb isdigit istr then stoull istr else Throw bad_message.

Fixpoint strings_loop (n : nat) (strvec : list bytes) : M cpp_exn scanner (list bytes) :=
  match n with
  | O => diverge
  | Datatypes.S n =>
      let! (found, s) := read_token true in
      if negb found then throw bad_message
      else
        let strvec := strvec ++ [s] in
        read_opt_space;;
        let! comma := read_special (chr ",") in
        if comma then read_opt_space;; strings_loop n strvec else ret strvec
  end.
Definition parse_strings (istr : bytes) : res cpp_exn (list bytes) :=
  if nonempty istr then run (with_rounds (fun n => strings_loop n [])) istr else Ok [].

Fixpoint tokens_loop (n : nat) (tokens : list token) : M cpp_exn scanner (list token) :=
  match n with
  | O => diverge
  | Datatypes.S n =>
      let! (found, name) := read_token true in
      if negb found then throw bad_message
      else
        read_opt_space;;
        let! semi := read_special (chr ";") in
        let! params :=
          if semi then
            let! (found, ps) := read_parameters in
            if negb found then throw bad_message else ret ps
          else ret [] in
        let tokens := tokens ++ [{| t_name := name; t_parameters := params |}] in
        read_opt_space;;
        let! comma := read_special (chr ",") in
        if comma then read_opt_space;; tokens_loop n tokens else ret tokens
  end.
Definition parse_tokens (istr : bytes) : res cpp_exn (list token) :=
  if nonempty istr then run (with_rounds (fun n => tokens_loop n [])) istr else Ok [].

(** [catch (snf::http::bad_uri &ex) { throw bad_message(ex.what()); }] *)
Definition catch_bad_uri {A} (r : res cpp_exn A) : res cpp_exn A :=
  match r with Throw (uri_error bad_uri) => Throw bad_message | r => r end.

Definition parse_uri (uristr : bytes) : res cpp_exn uri := catch_bad_uri (of_uri (Uri.parse net uristr)).

Definition parse_host_port (hoststr : bytes) : res cpp_exn host_port :=
  catch_bad_uri (
    let? u := of_uri (Uri.parse net (bytes_of "http://" ++ hoststr)) in
    if is_present (m_host u) then
      let? port := if is_present (m_port u) then numeric_port u else Ok 0 in
      Ok {| hp_host := m_host u; hp_port := port |}
    else Throw bad_message).

Definition read_media_type : M cpp_exn scanner media_type :=
  let! (found, ty) := read_token true in
  if negb found then throw bad_message
  else
    let! slash := read_special (chr "/") in
    if negb slash then throw bad_message
    else
      let! (found, sub) := read_token true in
      if negb found then throw bad_message
      else
        read_opt_space;;
        let! semi := read_special (chr ";") in
        let! params :=
          if semi then
            read_opt_space;;
            let! (found, ps) := read_parameters in
            if negb found then throw bad_message else ret ps
          else ret [] in
        ret {| mt_type := ty; mt_subtype := sub; mt_parameters := params |}.
Definition parse_media_type (istr : bytes) : res cpp_exn media_type := run read_media_type istr.

Fixpoint vias_loop (n : nat) (viavec : list via) : M cpp_exn scanner (list via) :=
  match n with
  | O => diverge
  | Datatypes.S n =>
      read_opt_space;;
      let! (found, s) := read_version in
      if negb found then throw bad_message
      else
        let! ver := lift (parse_version s) in
        let! space := read_space in
        if negb space then throw bad_message
        else
          let! (found, s) := read_uri net in
          if negb found then throw bad_message
          else
            let! url := lift (of_uri (Uri.parse net (bytes_of "http://" ++ s))) in
            read_space;;
            let! (_, comments) := read_comments in
            let viavec := viavec ++ [{| v_ver := ver; v_url := url; v_comments := comments |}] in
            read_opt_space;;
            let! comma := read_special (chr ",") in
            if comma then read_opt_space;; vias_loop n viavec else ret viavec
  end.
Definition parse_vias (istr : bytes) : res cpp_exn (list via) :=
  if nonempty istr then run (with_rounds (fun n => vias_loop n [])) istr else Ok [].

(** [catch (const std::invalid_argument &ex) { throw bad_message(ex.what()); }] *)
Definition parse_datetime (istr : bytes) : res cpp_exn DateTime.datetime :=
  match DateTime.get lib istr DateTime.imf true with
  | Throw invalid_argument => Throw bad_message
  | r => r
  end.
End parsers.

(** ** Validators *)
Definition CONNECTION_CLOSE : bytes := bytes_of "close".
Definition CONNECTION_KEEP_ALIVE : bytes := bytes_of "keep-alive".
Definition CONNECTION_UPGRADE : bytes := bytes_of "upgrade".

Definition valid_connection (cnxn : bytes) : res cpp_exn unit :=
  if bool_decide (cnxn = CONNECTION_CLOSE) || bool_decide (cnxn = CONNECTION_KEEP_ALIVE) ||
     bool_decide (cnxn = CONNECTION_UPGRADE)
  then Ok tt else Throw not_implemented.

Definition UNSUPPORTED_MEDIA_TYPE : Z := 415.

Definition valid_media_type (mt : media_type) : res cpp_exn unit :=
  if bool_decide (mt_type mt = bytes_of "text") then
    if bool_decide (mt_subtype mt = bytes_of "plain") then Ok tt else Throw (http_exception UNSUPPORTED_MEDIA_TYPE)
  else if bool_decide (mt_type mt = bytes_of "application") then
    if bool_decide (mt_subtype mt = bytes_of "json") then Ok tt else Throw (http_exception UNSUPPORTED_MEDIA_TYPE)
  else Throw (http_exception UNSUPPORTED_MEDIA_TYPE).

Definition valid_encoding (coding : bytes) : res cpp_exn unit :=
  if bool_decide (coding = bytes_of "compress") || bool_decide (coding = bytes_of "x-compress") ||
     bool_decide (coding = bytes_of "gzip") || bool_decide (coding = bytes_of "x-gzip") ||
     bool_decide (coding = bytes_of "deflate")
  then Ok tt else Throw not_implemented.

Definition no_validation {A} (_ : A) : res cpp_exn unit := Ok tt.

(** The validator on every element. *)
Fixpoint validate_all {A} (V : A -> res cpp_exn unit) (l : list A) : res cpp_exn unit :=
  match l with
  | [] => Ok tt
  | a :: l => let? _ := V a in validate_all V l
  end.

(** ** Construction

    [single_value(s)] and [sequence_value(s)], from a string: the value is
    parsed and validated, and the text kept. *)
Definition single_of {A} (parse : bytes -> res cpp_exn A) (V : A -> res cpp_exn unit)
    (mk : bytes -> A -> base_value) (s : bytes) : res cpp_exn base_value :=
  let? v := parse s in
  let? _ := V v in
  Ok (mk s v).

Definition sequence_of {A} (parse : bytes -> res cpp_exn (list A)) (V : A -> res cpp_exn unit)
    (mk : bytes -> list A -> base_value) (s : bytes) : res cpp_exn base_value :=
  let? l := parse s in
  let? _ := validate_all V l in
  Ok (mk s l).

(** From a value, with no text: [set] and [append]. *)
Definition single_set {A} (V : A -> res cpp_exn unit) (mk : bytes -> A -> base_value) (v : A) : res cpp_exn base_value :=
  let? _ := V v in Ok (mk [] v).

Definition sequence_append {A} (V : A -> res cpp_exn unit) (mk : bytes -> list A -> base_value)
    (l : list A) : res cpp_exn base_value :=
  let? _ := validate_all V l in Ok (mk [] l).

(** The raw text after [operator +=]. *)
Definition append_raw (r r' : bytes) : bytes := (if nonempty r then r ++ bytes_of ", " else r) ++ r'.

(** ** Facts (Header values: every text is read or refused, and printed values read back) *)

Import Scanner.

(** ** Reading ends *)
Lemma char_at_settles s i : (i <= length s)%nat -> settles (char_at s i).
Proof.
  intros Hi. unfold char_at. destruct (s !! i) eqn:E; [done|]. apply lookup_ge_None_1 in E.
  by rewrite decide_True by lia.
Qed.

Lemma digit_at_Ok s i d : digit_at s i = Ok d -> (i < length s)%nat.
Proof.
  unfold digit_at, char_at. destruct (s !! i) eqn:E; [by intros; apply lookup_lt_Some in E|].
  case_decide; cbn; discriminate.
Qed.

Lemma digit_at_settles s i : (i <= length s)%nat -> settles (digit_at s i).
Proof. intros Hi. unfold digit_at. apply settles_bind; [by apply char_at_settles|]. intros c _. by destruct (isdigit c). Qed.

Lemma parse_version_settles s : settles (parse_version s).
Proof.
  unfold parse_version. set (p := match find_first_of _ s with Some _ => _ | None => _ end).
  assert (p.2 <= length s)%nat as Hp.
  { subst p. unfold find_first_of. destruct (list_find _ s) as [[i c]|] eqn:E; cbn; [|lia].
    apply list_find_Some in E as (E & _). by apply lookup_lt_Some in E. }
  destruct p as [proto idx]. cbn in Hp. apply settles_bind; [by apply digit_at_settles|].
  intros major Hm. apply digit_at_Ok in Hm. apply settles_bind; [apply char_at_settles; lia|].
  intros c Hc. destruct (Z.eqb_spec c (chr ".")) as [->|?]; cbn [negb]; [|done].
  apply settles_bind; [|done]. apply digit_at_settles.
  unfold char_at in Hc. destruct (s !! (idx + 1)%nat) eqn:E; [apply lookup_lt_Some in E; lia|].
  case_decide; discriminate.
Qed.

Lemma stoi_settles s : settles (stoi s).
Proof. unfold stoi. destruct (scan_int s) as [[]|]; [|done]. by case_decide. Qed.

Lemma numeric_port_settles u : settles (numeric_port u).
Proof. apply settles_bind; [apply stoi_settles|done]. Qed.

Lemma catch_bad_uri_settles {A} (r : res cpp_exn A) : settles r -> settles (catch_bad_uri r).
Proof. by destruct r as [|[]| |]; try done; destruct e. Qed.

Lemma parse_number_settles s : settles (parse_number s).
Proof. unfold parse_number, stoull. destruct (forallb _ _); [|done]. destruct (scan_int s) as [[]|]; [|done]. by case_decide. Qed.

Lemma parse_uri_settles net s : settles (parse_uri net s).
Proof. apply catch_bad_uri_settles, uri_settles. Qed.

Lemma parse_host_port_settles net s : settles (parse_host_port net s).
Proof.
  apply catch_bad_uri_settles, settles_bind; [apply uri_settles|]. intros u _.
  destruct (is_present _); [|done]. apply settles_bind; [|done]. destruct (is_present _); [apply numeric_port_settles|done].
Qed.

Lemma strings_loop_steady n acc : steady n (strings_loop n acc).
Proof.
  revert acc. induction n as [|n IH]; intros acc; [intros scn _ Hl; lia|]. cbn [strings_loop].
  apply token_round; intros s; cbn [negb pred]; auto 30 with steady.
Qed.

Lemma tokens_loop_steady n acc : steady n (tokens_loop n acc).
Proof.
  revert acc. induction n as [|n IH]; intros acc; [intros scn _ Hl; lia|]. cbn [tokens_loop].
  apply token_round; intros s; cbn [negb pred]; auto 30 with steady.
Qed.

Lemma parse_version_steady b s : steady b (lift (parse_version s)).
Proof. apply steady_lift, parse_version_settles. Qed.
Lemma lift_uri_steady b net s : steady b (lift (of_uri (Uri.parse net s))).
Proof. apply steady_lift, uri_settles. Qed.
#[export] Hint Resolve parse_version_steady lift_uri_steady : steady.

(** A [Via] element, up to its URI, is at least one character long. *)
Lemma version_round {A} b (k : bool * bytes -> M cpp_exn scanner A) :
  (forall t, steady (pred b) (k (true, t))) -> (forall t, steady b (k (false, t))) ->
  steady b (bind read_version k).
Proof.
  intros Ht Hf. apply (advances_bind _ _ _ (fun r : bool * bytes => if r.1 then 1 else 0)%nat).
  - intros scn Hs Hb. unfold read_version. apply safe_bind.
    eapply safe_impl; [by apply (read_while_advances b (fun c => is_tchar c || (c =? chr "/")))|]. cbv beta. intros cs s1 [? ?]. cbn.
    split; [done|]. destruct cs; cbn in *; lia.
  - intros [[] t]; cbn; [by replace (b - 1)%nat with (pred b) by lia|by rewrite Nat.sub_0_r].
Qed.

Lemma vias_loop_steady net n acc : steady n (vias_loop net n acc).
Proof.
  revert acc. induction n as [|n IH]; intros acc; [intros scn _ Hl; lia|]. cbn [vias_loop].
  apply steady_bind; [auto with steady|]. intros _. apply version_round; intros s; cbn [negb pred]; [|auto with steady].
  auto 40 with steady.
Qed.

Lemma parse_strings_settles s : settles (parse_strings s).
Proof. unfold parse_strings. destruct (nonempty s); [|done]. apply steady_safe. auto using strings_loop_steady with steady. Qed.
Lemma parse_tokens_settles s : settles (parse_tokens s).
Proof. unfold parse_tokens. destruct (nonempty s); [|done]. apply steady_safe. auto using tokens_loop_steady with steady. Qed.
Lemma parse_vias_settles net s : settles (parse_vias net s).
Proof. unfold parse_vias. destruct (nonempty s); [|done]. apply steady_safe. auto using vias_loop_steady with steady. Qed.
Lemma parse_media_type_settles s : settles (parse_media_type s).
Proof. apply steady_safe. intros b. unfold read_media_type. auto 40 with steady. Qed.

Lemma validate_all_settles {A} (V : A -> res cpp_exn unit) l : (forall a, settles (V a)) -> settles (validate_all V l).
Proof. intros HV. induction l; cbn; [done|]. by apply settles_bind. Qed.

Lemma single_of_settles {A} parse V mk s : settles (parse s) -> (forall a : A, settles (V a)) -> settles (single_of parse V mk s).
Proof. intros Hp HV. apply settles_bind; [done|]. intros. by apply settles_bind. Qed.

Lemma sequence_of_settles {A} parse V mk s : settles (parse s) -> (forall a : A, settles (V a)) -> settles (sequence_of parse V mk s).
Proof. intros Hp HV. apply settles_bind; [done|]. intros. apply settles_bind; [by apply validate_all_settles|done]. Qed.

Lemma valid_connection_settles c : settles (valid_connection c).
Proof. unfold valid_connection. by destruct (_ || _). Qed.
Lemma valid_encoding_settles c : settles (valid_encoding c).
Proof. unfold valid_encoding. by destruct (_ || _). Qed.
Lemma valid_media_type_settles m : settles (valid_media_type m).
Proof. unfold valid_media_type. by repeat case_match. Qed.

(** ** Lists of elements separated by commas *)
Definition sep : bytes := bytes_of ", ".

Lemma sep_step {A} (k : M cpp_exn scanner A) (r : M cpp_exn scanner A) pre rest :
  stops is_whitespace rest -> long rest ->
  bind (read_special (chr ",")) (fun comma => if comma then bind read_opt_space (fun _ => k) else r)
    (on pre (sep ++ rest)) = k (on (pre ++ sep) rest).
Proof.
  intros Hw Hl. cbn [app]. change (sep ++ rest) with (chr "," :: [chr " "] ++ rest).
  rewrite (bind_Ok _ _ _ _ _ (read_special_on pre (chr ",") _)).
  rewrite (bind_Ok _ _ _ _ _ (read_opt_space_on (pre ++ [chr ","]) [chr " "] rest ltac:(by repeat constructor) Hw)).
  rewrite after_on by (unfold long in Hl; lia). by rewrite <- app_assoc.
Qed.

Lemma sep_end {A} (k : M cpp_exn scanner A) (a : A) pre :
  bind (read_special (chr ",")) (fun comma => if comma then k else ret a) (on pre []) = (Ok a, on pre []).
Proof. by rewrite (bind_Ok _ _ _ _ _ (read_special_end (chr ",") pre ltac:(done))). Qed.

Lemma join_with_cons s t l : join_with sep (s :: t :: l) = s ++ sep ++ join_with sep (t :: l).
Proof. done. Qed.

Lemma join_with_head (s : bytes) l : exists r, join_with sep (s :: l) = s ++ r.
Proof. destruct l; [exists []; by rewrite app_nil_r|]. rewrite join_with_cons. eauto. Qed.

Lemma join_with_long s l : long s -> long (join_with sep (s :: l)).
Proof. destruct (join_with_head s l) as [r ->]. unfold long. rewrite length_app. lia. Qed.

Lemma join_with_length (l : list bytes) : Forall (fun s => s <> []) l -> (length l <= length (join_with sep l))%nat.
Proof.
  induction 1 as [|s l Hs Hl IH]; [cbn; lia|]. destruct l; [destruct s; [done|cbn; lia]|].
  rewrite join_with_cons, !length_app. destruct s; [done|]. cbn in *. lia.
Qed.

Definition string_ok (s : bytes) : Prop := is_name s /\ long s.

Lemma strings_loop_on l : forall s n pre acc, Forall string_ok (s :: l) -> (length l < n)%nat ->
  strings_loop n acc (on pre (join_with sep (s :: l))) = (Ok (acc ++ s :: l), on (pre ++ join_with sep (s :: l)) []).
Proof.
  induction l as [|t l IH]; intros s n pre acc Hs Hn; (destruct n as [|n]; [cbn in Hn; lia|]);
    inversion_clear Hs as [|? ? [[[Hne Hname] Hlow] _] Hl]; cbn [strings_loop].
  - cbn [join_with]. pose proof (read_token_on pre s [] true Hne Hname I) as Ht. rewrite app_nil_r in Ht.
    rewrite (bind_Ok _ _ _ _ _ Ht), Hlow. cbn [negb after].
    rewrite (bind_Ok _ _ _ _ _ (read_opt_space_none (pre ++ s) [] I)). cbn [after]. apply sep_end.
  - rewrite join_with_cons.
    rewrite (bind_Ok _ _ _ _ _ (read_token_on pre s (sep ++ join_with sep (t :: l)) true Hne Hname eq_refl)), Hlow. cbn [negb].
    rewrite after_on by (cbn; lia).
    rewrite (bind_Ok _ _ _ _ _ (read_opt_space_none _ (sep ++ join_with sep (t :: l)) eq_refl)), after_on by (cbn; lia).
    pose proof (Forall_inv Hl) as [[[Htne Htn] _] Htl].
    rewrite sep_step; [|destruct (join_with_head t l) as [r ->]; by apply tchar_no_space|by apply join_with_long].
    rewrite IH by (done || (cbn in Hn; lia)). rewrite <- !app_assoc. done.
Qed.

Lemma parse_strings_join l : Forall string_ok l -> parse_strings (join_with sep l) = Ok l.
Proof.
  intros Hl. destruct l as [|s l]; [done|]. unfold parse_strings, run.
  destruct (join_with_head s l) as [r E]. pose proof (Forall_inv Hl) as [[[Hne _] _] _].
  assert (nonempty (join_with sep (s :: l)) = true) as -> by (rewrite E; by destruct s).
  rewrite scan_on, with_rounds_on, strings_loop_on; [done|done|].
  pose proof (join_with_length (s :: l)) as Hlen. cbn [length] in Hlen.
  enough (Forall (fun x => x <> []) (s :: l)) by (specialize (Hlen H); lia).
  eapply Forall_impl; [exact Hl|]. by intros x [[[] _] _].
Qed.

(** ** Tokens and media types *)
Lemma print_parameters_text ps : Forall param_ok ps -> print_parameters ps = params_text ps.
Proof.
  intros Hps. unfold print_parameters, params_text. f_equal. apply list_fmap_ext. intros i [n v] Hi.
  rewrite Forall_lookup in Hps. destruct (Hps _ _ Hi) as [_ Hv]. apply pvalue_long in Hv. cbn [fst snd] in *.
  unfold param_text. cbn [fst snd]. destruct v; [by unfold long in Hv; cbn in Hv; lia|]. done.
Qed.

Definition token_ok (t : token) : Prop := string_ok (t_name t) /\ Forall param_ok (t_parameters t).

(** The parameters after a name, up to a comma or the end. *)
Lemma after_params {A} ps pre rest (k : param_vec -> M cpp_exn scanner A) : Forall param_ok ps -> list_end rest ->
  bind read_opt_space (fun _ =>
  bind (read_special (chr ";")) (fun semi =>
  bind (if semi then bind read_parameters (fun '(found, ps) => if negb found then throw bad_message else ret ps) else ret []) k))
    (on pre (params_text ps ++ rest)) = k ps (on (pre ++ params_text ps) rest).
Proof.
  intros Hps Hr.
  rewrite (bind_Ok _ _ _ _ _ (read_opt_space_none pre (params_text ps ++ rest)
    (params_text_stops _ _ _ eq_refl (list_end_stops is_whitespace rest eq_refl Hr)))).
  rewrite after_on by (apply params_text_long; [done|by apply list_end_long]).
  destruct ps as [|p ps].
  - change (params_text [] ++ rest) with rest. change (params_text []) with (@nil Z). rewrite app_nil_r.
    destruct Hr as [->|(c & r & ->)].
    + by rewrite (bind_Ok _ _ _ _ _ (read_special_end (chr ";") pre ltac:(done))).
    + by rewrite (bind_Ok _ _ _ _ _ (read_special_ne (chr ";") pre (chr ",") (c :: r) ltac:(done))).
  - change (params_text (p :: ps) ++ rest) with (chr ";" :: (param_text p ++ params_text ps) ++ rest).
    rewrite (bind_Ok _ _ _ _ _ (read_special_on pre (chr ";") _)), <- (app_assoc (param_text p)). 
    rewrite (bind_Ok _ _ _ (p :: ps) (on ((pre ++ [chr ";"]) ++ param_text p ++ params_text ps) rest)).
    + by rewrite <- app_assoc.
    + by rewrite (bind_Ok _ _ _ _ _ (read_parameters_on p ps _ rest Hps Hr)).
Qed.

Definition token_text (t : token) : bytes := t_name t ++ params_text (t_parameters t).

Lemma print_token_text t : token_ok t -> print_token t = token_text t.
Proof. intros [_ Hp]. unfold print_token. by rewrite print_parameters_text. Qed.

Lemma token_text_long t : token_ok t -> long (token_text t).
Proof. intros [[_ Hl] _]. unfold long, token_text in *. rewrite length_app. lia. Qed.

Lemma tokens_loop_on l : forall t n pre acc, Forall token_ok (t :: l) -> (length l < n)%nat ->
  tokens_loop n acc (on pre (join_with sep (token_text <$> t :: l))) =
  (Ok (acc ++ t :: l), on (pre ++ join_with sep (token_text <$> t :: l)) []).
Proof.
  induction l as [|u l IH]; intros [name ps] n pre acc Ht Hn; (destruct n as [|n]; [cbn in Hn; lia|]);
    apply Forall_cons in Ht as [[[[[Hne Hname] Hlow] Hlong] Hps] Hl]; cbn [t_name t_parameters] in *; cbn [tokens_loop].
  - cbn [fmap list_fmap join_with token_text t_name t_parameters].
    assert (params_text ps = params_text ps ++ []) as E by (by rewrite app_nil_r).
    assert (length (params_text ps) <> 1%nat) as Hl1 by (rewrite E; by apply params_text_long).
    assert (stops is_tchar (params_text ps)) as Hst by (rewrite E; by apply params_text_stops).
    rewrite (bind_Ok _ _ _ _ _ (read_token_on pre name _ true Hne Hname Hst)), Hlow. cbn [negb].
    rewrite after_on by done. rewrite E at 1.
    etransitivity; [exact (after_params ps _ [] _ Hps (or_introl eq_refl))|].
    rewrite (bind_Ok _ _ _ _ _ (read_opt_space_none _ [] I)). cbn [after]. rewrite sep_end. by rewrite <- app_assoc.
  - cbn [fmap list_fmap]. rewrite join_with_cons. change (token_text u :: list_fmap _ _ token_text l) with (token_text <$> u :: l).
    unfold token_text at 1. cbn [t_name t_parameters].
    set (J := join_with sep (token_text <$> u :: l)). rewrite <- app_assoc.
    assert (list_end (sep ++ J)) as Hend by (right; by exists (chr " "), J).
    rewrite (bind_Ok _ _ _ _ _ (read_token_on pre name (params_text ps ++ sep ++ J) true Hne Hname
      (params_text_stops is_tchar ps (sep ++ J) eq_refl eq_refl))), Hlow. cbn [negb].
    rewrite after_on by (apply params_text_long; [done|cbn; lia]).
    etransitivity; [exact (after_params ps _ (sep ++ J) _ Hps Hend)|].
    rewrite (bind_Ok _ _ _ _ _ (read_opt_space_none _ (sep ++ J) eq_refl)), after_on by (cbn; lia).
    pose proof (Forall_inv Hl) as Hu. 
    rewrite sep_step; [|unfold J; destruct (join_with_head (token_text u) (token_text <$> l)) as [r Er]; cbn [fmap list_fmap]; rewrite Er;
      destruct Hu as [[[[? ?] _] _] _]; unfold token_text; rewrite <- app_assoc; by apply tchar_no_space
      |apply join_with_long; by apply token_text_long].
    unfold J. rewrite IH by (done || (cbn in Hn; lia)). change (token_text {| t_name := name; t_parameters := ps |}) with (name ++ params_text ps).
    rewrite <- !app_assoc. done.
Qed.

Lemma parse_tokens_join l : Forall token_ok l -> parse_tokens (join_with sep (print_token <$> l)) = Ok l.
Proof.
  intros Hl. assert (print_token <$> l = token_text <$> l) as ->.
  { apply list_fmap_ext. intros i t Hi. apply print_token_text. rewrite Forall_lookup in Hl. eauto. }
  destruct l as [|t l]; [done|]. unfold parse_tokens, run.
  pose proof (token_text_long t (Forall_inv Hl)) as Ht.
  assert (nonempty (join_with sep (token_text <$> t :: l)) = true) as ->.
  { destruct (join_with_head (token_text t) (token_text <$> l)) as [r E]. cbn [fmap list_fmap]. rewrite E.
    unfold long in Ht. by destruct (token_text t); [cbn in Ht; lia|]. }
  rewrite scan_on, with_rounds_on, tokens_loop_on; [done|done|].
  pose proof (join_with_length (token_text <$> t :: l)) as Hlen. rewrite length_fmap in Hlen. cbn [length] in Hlen.
  apply Nat.lt_succ_r. etransitivity; [|apply Hlen]; [lia|]. apply Forall_fmap. eapply Forall_impl; [exact Hl|].
  intros x Hx E. apply token_text_long in Hx. unfold long in Hx. cbn in E. rewrite E in Hx. cbn in Hx. lia.
Qed.

Definition media_type_ok (mt : media_type) : Prop :=
  is_name (mt_type mt) /\ string_ok (mt_subtype mt) /\ Forall param_ok (mt_parameters mt).

Lemma parse_media_type_print mt : media_type_ok mt -> parse_media_type (print_media_type mt) = Ok mt.
Proof.
  destruct mt as [ty sub ps]. intros ([[Hne Hty] Hlow] & [[[Hse Hsub] Hslow] Hlong] & Hps). cbn [mt_type mt_subtype mt_parameters] in *.
  unfold parse_media_type, run, print_media_type, read_media_type. cbn [mt_type mt_subtype mt_parameters].
  rewrite print_parameters_text by done. rewrite scan_on. change (bytes_of "/") with [chr "/"]. cbn [app].
  set (r := sub ++ params_text ps). assert (long r) as Hr by (unfold r, long in *; rewrite length_app; lia).
  unfold long in Hr. 
  rewrite (bind_Ok _ _ _ _ _ (read_token_on [] ty (chr "/" :: r) true Hne Hty eq_refl)), Hlow. cbn [negb].
  rewrite after_on by (cbn; lia).
  rewrite (bind_Ok _ _ _ _ _ (read_special_on _ (chr "/") _)). cbn [negb]. unfold r.
  assert (params_text ps = params_text ps ++ []) as E by (by rewrite app_nil_r).
  assert (length (params_text ps) <> 1%nat) as Hl1 by (rewrite E; by apply params_text_long).
  assert (stops is_tchar (params_text ps)) as Hst by (rewrite E; by apply params_text_stops).
  assert (stops is_whitespace (params_text ps)) as Hsw by (rewrite E; by apply params_text_stops).
  rewrite (bind_Ok _ _ _ _ _ (read_token_on _ sub _ true Hse Hsub Hst)), Hslow. cbn [negb]. rewrite after_on by done.
  rewrite (bind_Ok _ _ _ _ _ (read_opt_space_none _ _ Hsw)), after_on by done.
  destruct ps as [|p ps].
  - change (params_text []) with (@nil Z). by rewrite (bind_Ok _ _ _ _ _ (read_special_end (chr ";") _ ltac:(done))).
  - change (params_text (p :: ps)) with (chr ";" :: param_text p ++ params_text ps).
    rewrite (bind_Ok _ _ _ _ _ (read_special_on _ (chr ";") _)).
    pose proof (Forall_inv Hps) as [[[Hpn Hpt] _] Hpv]. destruct p as [n v]. cbn [fst snd] in *.
    set (t := param_text (n, v) ++ params_text ps).
    assert (stops is_whitespace t) as Ht by (unfold t, param_text; cbn [fst snd]; rewrite <- app_assoc; by apply tchar_no_space).
    assert (length t <> 1%nat) as Htl.
    { unfold t, param_text. cbn [fst snd]. rewrite !length_app. cbn. destruct n; [done|]. cbn. lia. }
    match goal with |- context [on ?q t] => set (pre := q) end.
    rewrite (bind_Ok _ _ _ ((n, v) :: ps) (on (pre ++ param_text (n, v) ++ params_text ps) [])); [done|].
    rewrite (bind_Ok _ _ _ _ _ (read_opt_space_none pre t Ht)), after_on by done.
    pose proof (read_parameters_on (n, v) ps pre [] Hps (or_introl eq_refl)) as Hrp. rewrite app_nil_r in Hrp.
    by rewrite (bind_Ok _ _ _ _ _ Hrp).
Qed.

(** ** Numbers and hosts *)
Lemma print_int_pos n : 0 <= n -> print_int n = print_uint 10 n.
Proof. intros. unfold print_int. by destruct (Z.ltb_spec n 0); [lia|]. Qed.

Lemma print_uint_isdigit n : 0 <= n -> forallb isdigit (print_uint 10 n) = true.
Proof.
  intros Hn. destruct (print_uint_digits n Hn) as (Hd & _). apply forallb_forall. intros c Hc%list_elem_of_In.
  rewrite Forall_forall in Hd. exact (Hd c Hc).
Qed.

Lemma parse_number_print n : 0 <= n < 2 ^ 64 -> parse_number (print_int n) = Ok n.
Proof.
  intros Hn. unfold parse_number. rewrite print_int_pos, print_uint_isdigit by lia.
  unfold stoull. rewrite <- print_int_pos by lia. rewrite <- (app_nil_r (print_int n)), scan_print_int by done.
  rewrite decide_True by lia. by rewrite wrapU_id by lia.
Qed.

Lemma stoi_print n : - 2 ^ 31 <= n < 2 ^ 31 -> stoi (print_int n) = Ok n.
Proof. intros Hn. unfold stoi. by rewrite <- (app_nil_r (print_int n)), scan_print_int, decide_True by done. Qed.

Lemma port_print_valid n : 0 < n < 65536 -> Port.is_valid (print_int n) = Ok true.
Proof.
  intros Hn. rewrite print_int_pos by lia. destruct (print_uint_digits n ltac:(lia)) as (_ & Hv & Hne).
  unfold Port.is_valid. rewrite decide_False by done. rewrite print_uint_isdigit by lia. unfold Port.stoi.
  rewrite Hv, digits_value by lia. destruct (Z.ltb_spec n (2 ^ 31)); [|lia]. cbn [rbind].
  destruct (Z.leb_spec n 0); [lia|]. destruct (Z.ltb_spec 65535 n); [lia|]. done.
Qed.

(** A URI of a host and a port only. *)
Lemma parse_http_authority net h p : Host.is_valid net h = true -> host_text h -> (p = [] \/ Port.is_valid p = Ok true) ->
  Uri.parse net (bytes_of "http://" ++ h ++ port_text p) = Ok (mk (bytes_of "http") [] h p path_init [] []).
Proof.
  intros Hv Ht Hp. destruct (host_text_facts net h Hv Ht) as (He & _).
  pose proof (scheme_stage net (bytes_of "http") (([slash; slash] ++ [] ++ Host.encode h ++ port_text p) ++ [])
    (mk (bytes_of "http") [] h p path_init [] []) eq_refl eq_refl) as Hs.
  rewrite He, app_nil_r in Hs. cbn [app] in Hs. apply Hs; [|apply le_n].
  pose proof (authority_stage net true (bytes_of "http") [] h p [] (mk (bytes_of "http") [] h p path_init [] [])
    Hv Ht (Forall_nil_2 _) Hp (or_introl eq_refl) (parses_nil _ _ _)) as Ha.
  by rewrite He, app_nil_r in Ha.
Qed.

Definition host_port_ok (net : inet) (hp : host_port) : Prop :=
  Host.is_valid net (hp_host hp) = true /\ host_text (hp_host hp) /\ 0 <= hp_port hp < 65536.

Lemma parse_host_port_print net hp : host_port_ok net hp -> parse_host_port net (print_host_port hp) = Ok hp.
Proof.
  destruct hp as [h n]. intros (Hv & Ht & Hn). cbn [hp_host hp_port] in *. unfold parse_host_port, print_host_port.
  cbn [hp_host hp_port]. destruct (host_text_facts net h Hv Ht) as (_ & _ & Hne & _).
  assert (is_present h = true) as Hp by (by destruct h).
  destruct (Z.eqb_spec n 0) as [->|Hn0].
  - pose proof (parse_http_authority net h [] Hv Ht (or_introl eq_refl)) as E.
    change (port_text []) with (@nil Z) in E. rewrite E. cbn [of_uri rbind m_host m_port]. by rewrite Hp.
  - pose proof (port_print_valid n ltac:(lia)) as Hpv.
    pose proof (parse_http_authority net h (print_int n) Hv Ht (or_intror Hpv)) as E.
    assert (is_present (print_int n) = true) as Hpp.
    { destruct (port_facts _ Hpv) as (Hx & _). by destruct (print_int n). }
    unfold port_text in E. rewrite Hpp in E. change (bytes_of ":" ++ print_int n) with (chr ":" :: print_int n).
    rewrite E. cbn [of_uri rbind m_host m_port]. rewrite Hp, Hpp. unfold numeric_port. cbn [m_port].
    rewrite stoi_print by lia. cbn [rbind]. by rewrite wrapU_id by lia.
Qed.
