(* ===== verification/Headers.v ===== *)
(** * http: message headers (http/include/common/headers.h, http/src/common/headers.cpp)

    A list of lower-case names with their values, in the order of arrival.  The
    values of a copied list are shared with the original in the code; here a
    list owns its values. *)
From S2P Require Import Prelude Effects Numbers UriText Uri Text Timeutil Scanner Hval.
Import Scanner.

Module Headers.

Definition CONTENT_LENGTH : bytes := bytes_of "content-length".
Definition TRANSFER_ENCODING : bytes := bytes_of "transfer-encoding".
Definition TE : bytes := bytes_of "te".
Definition TRAILERS : bytes := bytes_of "trailers".
Definition HOST : bytes := bytes_of "host".
Definition VIA : bytes := bytes_of "via".
Definition CONNECTION : bytes := bytes_of "connection".
Definition CONTENT_TYPE : bytes := bytes_of "content-type".
Definition CONTENT_ENCODING : bytes := bytes_of "content-encoding".
Definition CONTENT_LANGUAGE : bytes := bytes_of "content-language".
Definition CONTENT_LOCATION : bytes := bytes_of "content-location".
Definition DATE : bytes := bytes_of "date".
Definition TRANSFER_ENCODING_CHUNKED : bytes := bytes_of "chunked".

Abbreviation headers := (list (bytes * base_value)).

(** [find]: the position of a name, the first one. *)
Fixpoint find (name : bytes) (hdrs : headers) : option nat :=
  match hdrs with
  | [] => None
  | h :: hdrs => if bool_decide (name = h.1) then Some O else Datatypes.S <$> find name hdrs
  end.

(** [std::toupper] in the "C" locale. *)
Definition toupper (c : Z) : Z := if (97 <=? c) && (c <=? 122) then c - 32 else c.

Fixpoint canonicalize_loop (capitalize : bool) (name : bytes) : bytes :=
  match name with
  | [] => []
  | c :: name => (if capitalize then toupper c else c) :: canonicalize_loop (c =? chr "-") name
  end.
Definition canonicalize_name (name : bytes) : bytes := canonicalize_loop true name.

(** The lower-case copy each operation makes of a name. *)
Definition lower (name : bytes) : bytes := tolower <$> name.

Section headers.
Context (net : inet) (lib : DateTime.clock).

(** The value of a field, read from text. *)
Definition validate (name value : bytes) : res cpp_exn base_value :=
  if bool_decide (name = CONTENT_LENGTH) then single_of parse_number no_validation num_val value
  else if bool_decide (name = TRANSFER_ENCODING) then sequence_of parse_tokens no_validation tok_seq value
  else if bool_decide (name = TE) then sequence_of parse_tokens no_validation tok_seq value
  else if bool_decide (name = TRAILERS) then sequence_of parse_strings no_validation str_seq value
  else if bool_decide (name = HOST) then single_of (parse_host_port net) no_validation hp_val value
  else if bool_decide (name = VIA) then sequence_of (parse_vias net) no_validation via_seq value
  else if bool_decide (name = CONNECTION) then sequence_of parse_strings valid_connection cnxn_seq value
  else if bool_decide (name = CONTENT_TYPE) then single_of parse_media_type valid_media_type mt_val value
  else if bool_decide (name = CONTENT_ENCODING) then sequence_of parse_strings valid_encoding ce_seq value
  else if bool_decide (name = CONTENT_LOCATION) then single_of (parse_uri net) no_validation uri_val value
  else if bool_decide (name = DATE) then single_of (parse_datetime lib) no_validation dt_val value
  else sequence_of parse_strings no_validation str_seq value.

(** [*tgt += *src] when the value present and the new one have the same sequence
    type; when they differ the new one is dropped. *)
Definition append_value (tgt src : base_value) : res cpp_exn base_value :=
  match tgt with
  | ce_seq r l => match src with ce_seq r' l' => Ok (ce_seq (append_raw r r') (l ++ l')) | _ => Ok tgt end
  | str_seq r l => match src with str_seq r' l' => Ok (str_seq (append_raw r r') (l ++ l')) | _ => Ok tgt end
  | tok_seq r l => match src with tok_seq r' l' => Ok (tok_seq (append_raw r r') (l ++ l')) | _ => Ok tgt end
  | via_seq r l => match src with via_seq r' l' => Ok (via_seq (append_raw r r') (l ++ l')) | _ => Ok tgt end
  | cnxn_seq r l => match src with cnxn_seq r' l' => Ok (cnxn_seq (append_raw r r') (l ++ l')) | _ => Ok tgt end
  | _ => Throw bad_message
  end.

(** [I->second = v] *)
Definition set_at (i : nat) (v : base_value) (hdrs : headers) : headers :=
  alter (fun h => (h.1, v)) i hdrs.

(** [add(name, value)]; the list keeps its value when an exception is thrown. *)
Definition add (name value : bytes) (hdrs : headers) : res cpp_exn headers :=
  if nonempty name then
    let n := lower name in
    let? v := validate n value in
    match find n hdrs with
    | None => Ok (hdrs ++ [(n, v)])
    | Some i =>
        if is_seq v then
          match hdrs !! i with
          | Some h => let? v := append_value h.2 v in Ok (set_at i v hdrs)
          | None => Ub
          end
        else Throw bad_message
    end
  else Ok hdrs.

(** The name and the value of a header line. *)
Definition read_header : M cpp_exn scanner (bytes * bytes) :=
  let! (found, name) := read_token true in
  if negb found then throw bad_message
  else
    let! colon := read_special (chr ":") in
    if negb colon then throw bad_message
    else
      read_opt_space;;
      let! (found, value) := read_all in
      if negb found then throw bad_message
      else
        read_opt_space;;
        let! eol := read_crlf in
        if negb eol then throw bad_message else ret (name, value).

(** [add(istr)] *)
Definition add_line (istr : bytes) (hdrs : headers) : res cpp_exn headers :=
  let? (name, value) := run read_header istr in add name value hdrs.

Definition update (name value : bytes) (hdrs : headers) : res cpp_exn headers :=
  if nonempty name then
    let n := lower name in
    let? v := validate n value in
    match find n hdrs with
    | None => Ok (hdrs ++ [(n, v)])
    | Some i => Ok (set_at i v hdrs)
    end
  else Ok hdrs.

(** [update] of a value that is given, which adds a new name as it is written. *)
Definition update_value (name : bytes) (v : base_value) (hdrs : headers) : headers :=
  if nonempty name then
    match find (lower name) hdrs with
    | None => hdrs ++ [(name, v)]
    | Some i => set_at i v hdrs
    end
  else hdrs.

Definition remove (name : bytes) (hdrs : headers) : headers :=
  if nonempty name then
    match find (lower name) hdrs with
    | Some i => delete i hdrs
    | None => hdrs
    end
  else hdrs.

Definition is_set (name : bytes) (hdrs : headers) : bool :=
  if nonempty name then match find (lower name) hdrs with Some _ => true | None => false end else false.

Definition get (name : bytes) (hdrs : headers) : res cpp_exn base_value :=
  if nonempty name then
    match find (lower name) hdrs with
    | Some i => match hdrs !! i with Some h => Ok h.2 | None => Ub end
    | None => Throw out_of_range
    end
  else Throw out_of_range.

(** [os << hdrs] *)
Definition print_header (h : bytes * base_value) : res cpp_exn bytes :=
  let? s := value_str h.2 in Ok (canonicalize_name h.1 ++ bytes_of ": " ++ s ++ crlf).
Definition print (hdrs : headers) : res cpp_exn bytes :=
  let? lines := print_all print_header hdrs in Ok (concat lines).

(** ** The fields

    Each getter casts the value to the type of the field; a null pointer is
    used when it has another type. *)
Definition content_length (hdrs : headers) : res cpp_exn Z :=
  let? v := get CONTENT_LENGTH hdrs in match v with num_val _ n => Ok n | _ => Ub end.
Definition set_content_length (length : Z) (hdrs : headers) : res cpp_exn headers :=
  let? v := single_set no_validation num_val length in Ok (update_value CONTENT_LENGTH v hdrs).
Definition set_content_length_str (str : bytes) (hdrs : headers) : res cpp_exn headers :=
  let? v := single_of parse_number no_validation num_val str in Ok (update_value CONTENT_LENGTH v hdrs).

Definition tokens_of (name : bytes) (hdrs : headers) : res cpp_exn (list token) :=
  let? v := get name hdrs in match v with tok_seq _ l => Ok l | _ => Ub end.
Definition set_tokens (name : bytes) (tokens : list token) (hdrs : headers) : res cpp_exn headers :=
  let? v := sequence_append no_validation tok_seq tokens in Ok (update_value name v hdrs).
Definition set_tokens_str (name coding : bytes) (hdrs : headers) : res cpp_exn headers :=
  let? v := sequence_of parse_tokens no_validation tok_seq coding in Ok (update_value name v hdrs).

Definition transfer_encoding := tokens_of TRANSFER_ENCODING.
Definition set_transfer_encoding := set_tokens TRANSFER_ENCODING.
Definition set_transfer_encoding_str := set_tokens_str TRANSFER_ENCODING.
Definition te := tokens_of TE.
Definition set_te := set_tokens TE.
Definition set_te_str := set_tokens_str TE.

(** Whether a token of the field has a name. *)
Definition has_token (field name : bytes) (hdrs : headers) : bool :=
  match find field hdrs with
  | Some i =>
      match hdrs !! i with
      | Some (_, tok_seq _ l) => existsb (fun t => bool_decide (t_name t = name)) l
      | _ => false
      end
  | None => false
  end.
Definition is_message_chunked := has_token TRANSFER_ENCODING TRANSFER_ENCODING_CHUNKED.
Definition has_trailers := has_token TE TRAILERS.

Definition strings_of (name : bytes) (hdrs : headers) : res cpp_exn (list bytes) :=
  let? v := get name hdrs in match v with str_seq _ l => Ok l | _ => Ub end.
Definition set_strings (name : bytes) (fields : list bytes) (hdrs : headers) : res cpp_exn headers :=
  let? v := sequence_append no_validation str_seq fields in Ok (update_value name v hdrs).
Definition set_strings_str (name field : bytes) (hdrs : headers) : res cpp_exn headers :=
  let? v := sequence_of parse_strings no_validation str_seq field in Ok (update_value name v hdrs).

Definition trailers := strings_of TRAILERS.
Definition set_trailers := set_strings TRAILERS.
Definition set_trailers_str := set_strings_str TRAILERS.
Definition content_language := strings_of CONTENT_LANGUAGE.
Definition set_content_language := set_strings CONTENT_LANGUAGE.
Definition set_content_language_str := set_strings_str CONTENT_LANGUAGE.

Definition host (hdrs : headers) : res cpp_exn host_port :=
  let? v := get HOST hdrs in match v with hp_val _ hp => Ok hp | _ => Ub end.
Definition set_host (hp : host_port) (hdrs : headers) : res cpp_exn headers :=
  let? v := single_set no_validation hp_val hp in Ok (update_value HOST v hdrs).
Definition set_host_str (uristr : bytes) (port : Z) (hdrs : headers) : res cpp_exn headers :=
  let? hp := parse_host_port net uristr in
  let hp := if port =? 0 then hp else {| hp_host := hp_host hp; hp_port := port |} in
  set_host hp hdrs.

Definition intermediary (hdrs : headers) : res cpp_exn (list via) :=
  let? v := get VIA hdrs in match v with via_seq _ l => Ok l | _ => Ub end.
Definition set_intermediary (l : list via) (hdrs : headers) : res cpp_exn headers :=
  let? v := sequence_append no_validation via_seq l in Ok (update_value VIA v hdrs).
Definition set_intermediary_str (viastr : bytes) (hdrs : headers) : res cpp_exn headers :=
  let? v := sequence_of (parse_vias net) no_validation via_seq viastr in Ok (update_value VIA v hdrs).

Definition connection (hdrs : headers) : res cpp_exn (list bytes) :=
  let? v := get CONNECTION hdrs in match v with cnxn_seq _ l => Ok l | _ => Ub end.
Definition close_connection (hdrs : headers) : res cpp_exn bool :=
  let? l := connection hdrs in Ok (existsb (fun c => bool_decide (c = CONNECTION_CLOSE)) l).
Definition set_connection (l : list bytes) (hdrs : headers) : res cpp_exn headers :=
  let? v := sequence_append valid_connection cnxn_seq l in Ok (update_value CONNECTION v hdrs).
Definition set_connection_str (cnxn : bytes) (hdrs : headers) : res cpp_exn headers :=
  let? v := sequence_of parse_strings valid_connection cnxn_seq cnxn in Ok (update_value CONNECTION v hdrs).

Definition content_type (hdrs : headers) : res cpp_exn media_type :=
  let? v := get CONTENT_TYPE hdrs in match v with mt_val _ mt => Ok mt | _ => Ub end.
Definition set_content_type (mt : media_type) (hdrs : headers) : res cpp_exn headers :=
  let? v := single_set valid_media_type mt_val mt in Ok (update_value CONTENT_TYPE v hdrs).

Definition content_encoding (hdrs : headers) : res cpp_exn (list bytes) :=
  let? v := get CONTENT_ENCODING hdrs in match v with ce_seq _ l => Ok l | _ => Ub end.
Definition set_content_encoding (coding : bytes) (hdrs : headers) : res cpp_exn headers :=
  update CONTENT_ENCODING coding hdrs.

Definition content_location (hdrs : headers) : res cpp_exn uri :=
  let? v := get CONTENT_LOCATION hdrs in match v with uri_val _ u => Ok u | _ => Ub end.
Definition set_content_location (u : uri) (hdrs : headers) : res cpp_exn headers :=
  let? v := single_set no_validation uri_val u in Ok (update_value CONTENT_LOCATION v hdrs).
Definition set_content_location_str (uristr : bytes) (hdrs : headers) : res cpp_exn headers :=
  let? u := of_uri (Uri.parse net uristr) in set_content_location u hdrs.

Definition date (hdrs : headers) : res cpp_exn DateTime.datetime :=
  let? v := get DATE hdrs in match v with dt_val _ t => Ok t | _ => Ub end.
Definition set_date (t : DateTime.datetime) (hdrs : headers) : res cpp_exn headers :=
  let? v := single_set no_validation dt_val t in Ok (update_value DATE v hdrs).
Definition set_date_time (t : Z) (hdrs : headers) : res cpp_exn headers :=
  set_date (DateTime.datetime_of lib t DateTime.second true) hdrs.
Definition set_date_str (dtstr : bytes) (hdrs : headers) : res cpp_exn headers :=
  let? v := single_of (parse_datetime lib) no_validation dt_val dtstr in Ok (update_value DATE v hdrs).
End headers.
End Headers.
