(* ===== verification/HeadersSpec.v ===== *)
(** * Headers: a typed, case-insensitive map

    The list of fields refines a finite map from lower-case names to values;
    every field has the type of its name; header lines read back. *)
From S2P Require Import Prelude Effects Numbers UriText Uri UriRoundTrip.
From S2P Require Import Text Timeutil Scanner Hval Headers.

Import Scanner Headers.

(** ** The map of a list of fields *)
Abbreviation fields := (list_to_map (K:=bytes) (A:=base_value) (M:=gmap bytes base_value)).

Lemma find_spec n hdrs :
  match find n hdrs with
  | Some i => exists v, hdrs !! i = Some (n, v) /\ fields hdrs !! n = Some v /\
      forall w, fields (set_at i w hdrs) = <[n := w]> (fields hdrs) /\ (set_at i w hdrs).*1 = hdrs.*1
  | None => fields hdrs !! n = None /\ n ∉ hdrs.*1
  end.
Proof.
  induction hdrs as [|[m v] hdrs IH]; cbn [find].
  - split; [apply lookup_empty|apply not_elem_of_nil].
  - case_bool_decide as E; cbn [fst] in E.
    + subst m. exists v. split; [done|]. cbn [list_to_map foldr uncurry fst snd]. rewrite lookup_insert_eq. split; [done|].
      intros w. unfold set_at. cbn. by rewrite insert_insert_eq.
    + destruct (find n hdrs) as [i|]; cbn [fmap option_fmap option_map].
      * destruct IH as (x & Hx & Hl & Hs). exists x. split; [done|]. cbn. rewrite lookup_insert_ne by done. split; [done|].
        intros w. destruct (Hs w) as [Hw Hk]. unfold set_at in *. cbn. rewrite Hw, Hk. by rewrite insert_insert_ne by done.
      * destruct IH as [Hl Hn]. cbn. rewrite lookup_insert_ne by done. split; [done|]. rewrite not_elem_of_cons. done.
Qed.

(** Distinct names in lower case. *)
Definition lowered (n : bytes) : Prop := lower n = n /\ n <> [].
Definition wf (hdrs : headers) : Prop := NoDup hdrs.*1 /\ Forall lowered hdrs.*1.

Lemma tolower_idemp c : tolower (tolower c) = tolower c.
Proof. unfold tolower. destruct ((65 <=? c) && (c <=? 90)) eqn:E; [|by rewrite E]. apply andb_true_iff in E as [?%Z.leb_le ?%Z.leb_le].
  destruct (Z.leb_spec (c + 32) 90); [lia|]. by rewrite andb_false_r. Qed.

Lemma lower_idemp n : lower (lower n) = lower n.
Proof. unfold lower. rewrite <- list_fmap_compose. apply list_fmap_ext. intros i c _. apply tolower_idemp. Qed.

Lemma lower_lowered n : n <> [] -> lowered (lower n).
Proof. intros Hn. split; [apply lower_idemp|]. by destruct n. Qed.

Lemma nonempty_true n : n <> [] -> nonempty n = true.
Proof. by destruct n. Qed.

Lemma wf_snoc n v hdrs : wf hdrs -> lowered n -> n ∉ hdrs.*1 -> wf (hdrs ++ [(n, v)]).
Proof.
  intros [Hd Hl] Hn Hin. unfold wf. rewrite fmap_app. cbn. split.
  - apply NoDup_app. split; [done|]. split; [|apply NoDup_singleton]. intros x Hx ->%list_elem_of_singleton. done.
  - apply Forall_app. auto.
Qed.

Lemma fields_snoc n v hdrs : n ∉ hdrs.*1 -> fields (hdrs ++ [(n, v)]) = <[n := v]> (fields hdrs).
Proof. intros Hn. by apply list_to_map_snoc. Qed.

(** Putting a value under a name. *)
Definition put (n : bytes) (v : base_value) (hdrs : headers) : headers :=
  match find n hdrs with None => hdrs ++ [(n, v)] | Some i => set_at i v hdrs end.

Lemma put_spec n v hdrs : wf hdrs -> lowered n -> wf (put n v hdrs) /\ fields (put n v hdrs) = <[n := v]> (fields hdrs).
Proof.
  intros Hw Hn. unfold put. pose proof (find_spec n hdrs) as Hf. destruct (find n hdrs) as [i|].
  - destruct Hf as (x & _ & _ & Hs). destruct (Hs v) as [Hs1 Hs2]. split; [|done]. unfold wf. by rewrite Hs2.
  - destruct Hf as [_ Hni]. split; [by apply wf_snoc|by apply fields_snoc].
Qed.

Lemma delete_fields i n v hdrs : NoDup hdrs.*1 -> hdrs !! i = Some (n, v) -> fields (delete i hdrs) = delete n (fields hdrs).
Proof.
  revert i. induction hdrs as [|[m w] hdrs IH]; intros [|i] Hd Hi; try done.
  - injection Hi as -> ->. apply NoDup_cons in Hd as [Hn _]. cbn. rewrite delete_insert_eq.
    rewrite delete_id; [done|]. by apply not_elem_of_list_to_map_1.
  - apply NoDup_cons in Hd as [Hn Hd']. change (delete (Datatypes.S i) ((m, w) :: hdrs)) with ((m, w) :: delete i hdrs).
    rewrite !list_to_map_cons. cbn [fst snd]. rewrite (IH i Hd' Hi), delete_insert_ne; [done|]. intros ->. apply Hn.
    apply list_elem_of_fmap. exists (m, v). split; [done|]. by eapply list_elem_of_lookup_2.
Qed.

Lemma wf_delete i hdrs : wf hdrs -> wf (delete i hdrs).
Proof.
  intros [Hd Hl]. assert (sublist (delete i hdrs).*1 hdrs.*1) as Hs by (apply fmap_sublist, sublist_delete).
  split; [by eapply sublist_NoDup|]. apply Forall_forall. intros x Hx. rewrite Forall_forall in Hl. apply Hl.
  eapply elem_of_submseteq; [exact Hx|]. by apply sublist_submseteq.
Qed.

(** ** Types of the fields *)

(** The class of the value of a field. *)
Definition has_type (name : bytes) (v : base_value) : bool :=
  if bool_decide (name = CONTENT_LENGTH) then match v with num_val _ _ => true | _ => false end
  else if bool_decide (name = TRANSFER_ENCODING) then match v with tok_seq _ _ => true | _ => false end
  else if bool_decide (name = TE) then match v with tok_seq _ _ => true | _ => false end
  else if bool_decide (name = TRAILERS) then match v with str_seq _ _ => true | _ => false end
  else if bool_decide (name = HOST) then match v with hp_val _ _ => true | _ => false end
  else if bool_decide (name = VIA) then match v with via_seq _ _ => true | _ => false end
  else if bool_decide (name = CONNECTION) then match v with cnxn_seq _ _ => true | _ => false end
  else if bool_decide (name = CONTENT_TYPE) then match v with mt_val _ _ => true | _ => false end
  else if bool_decide (name = CONTENT_ENCODING) then match v with ce_seq _ _ => true | _ => false end
  else if bool_decide (name = CONTENT_LOCATION) then match v with uri_val _ _ => true | _ => false end
  else if bool_decide (name = DATE) then match v with dt_val _ _ => true | _ => false end
  else match v with str_seq _ _ => true | _ => false end.

Definition typed (hdrs : headers) : Prop := map_Forall (fun n v => has_type n v = true) (fields hdrs).

Lemma single_of_Ok {A} parse V mk s v : single_of (A:=A) parse V mk s = Ok v -> exists a, v = mk s a.
Proof. intros (a & _ & (b & _ & E)%rbind_Ok)%rbind_Ok. injection E as <-. eauto. Qed.

Lemma sequence_of_Ok {A} parse V mk s v : sequence_of (A:=A) parse V mk s = Ok v -> exists a, v = mk s a.
Proof. intros (a & _ & (b & _ & E)%rbind_Ok)%rbind_Ok. injection E as <-. eauto. Qed.

Lemma validate_typed net lib n s v : validate net lib n s = Ok v -> has_type n v = true.
Proof.
  unfold validate, has_type.
  repeat (case_bool_decide; [first [intros (? & ->)%single_of_Ok | intros (? & ->)%sequence_of_Ok]; done|]).
  by intros (? & ->)%sequence_of_Ok.
Qed.

Lemma has_type_append n v w x : has_type n v = true -> append_value v w = Ok x -> has_type n x = true.
Proof.
  unfold has_type. intros Hv Hx. destruct v; cbn [append_value] in Hx; try discriminate; destruct w; injection Hx as <-;
    repeat (case_bool_decide; [done|]); done.
Qed.

(** ** The operations on the map *)
Section operations.
Context (net : inet) (lib : DateTime.clock).

Definition good (hdrs : headers) : Prop := wf hdrs /\ typed hdrs.

Lemma put_good n v hdrs : good hdrs -> lowered n -> has_type n v = true ->
  good (put n v hdrs) /\ fields (put n v hdrs) = <[n := v]> (fields hdrs).
Proof.
  intros [Hw Ht] Hn Hv. destruct (put_spec n v hdrs Hw Hn) as [Hw' Hf]. split; [|done]. split; [done|].
  unfold typed. rewrite Hf. by apply map_Forall_insert_2.
Qed.

Lemma update_put n s hdrs : n <> [] ->
  update net lib n s hdrs = let? v := validate net lib (lower n) s in Ok (put (lower n) v hdrs).
Proof.
  intros Hn. unfold update, put. rewrite nonempty_true by done.
  destruct (validate _ _ _ _); cbn [rbind]; [|done..]. by destruct (find _ _).
Qed.

Lemma update_value_put n v hdrs : lowered n -> update_value n v hdrs = put n v hdrs.
Proof. intros [Hl Hn]. unfold update_value, put. rewrite nonempty_true, Hl by done. by destruct (find _ _). Qed.

Lemma remove_refines n hdrs : good hdrs -> n <> [] ->
  good (remove n hdrs) /\ fields (remove n hdrs) = delete (lower n) (fields hdrs).
Proof.
  intros [Hw Ht] Hn. unfold remove. rewrite nonempty_true by done. pose proof (find_spec (lower n) hdrs) as Hf.
  destruct (find (lower n) hdrs) as [i|].
  - destruct Hf as (v & Hi & _ & _). rewrite (delete_fields i (lower n) v); [|apply Hw|done]. split; [|done].
    split; [by apply wf_delete|]. unfold typed. rewrite (delete_fields i (lower n) v); [|apply Hw|done].
    by apply map_Forall_delete.
  - destruct Hf as [Hl _]. by rewrite delete_id.
Qed.

Lemma get_refines n hdrs : n <> [] ->
  Headers.get n hdrs = match fields hdrs !! lower n with Some v => Ok v | None => Throw out_of_range end.
Proof.
  intros Hn. unfold Headers.get. rewrite nonempty_true by done. pose proof (find_spec (lower n) hdrs) as Hf.
  destruct (find (lower n) hdrs) as [i|].
  - destruct Hf as (v & -> & -> & _). done.
  - by destruct Hf as [-> _].
Qed.

Lemma is_set_spec n hdrs : n <> [] -> is_set n hdrs = bool_decide (is_Some (fields hdrs !! lower n)).
Proof.
  intros Hn. unfold is_set. rewrite nonempty_true by done. pose proof (find_spec (lower n) hdrs) as Hf.
  destruct (find (lower n) hdrs) as [i|].
  - destruct Hf as (v & _ & -> & _). by rewrite bool_decide_true.
  - destruct Hf as [-> _]. by rewrite bool_decide_false by (by intros []).
Qed.

(** What [add] does to the map, on every branch. *)
Definition add_map (n s : bytes) (m : gmap bytes base_value) : res cpp_exn (gmap bytes base_value) :=
  let? v := validate net lib n s in
  match m !! n with
  | None => Ok (<[n := v]> m)
  | Some old => if is_seq v then let? x := append_value old v in Ok (<[n := x]> m) else Throw bad_message
  end.

Lemma add_refines n s hdrs : good hdrs -> n <> [] ->
  match add net lib n s hdrs with
  | Ok hdrs' => good hdrs' /\ add_map (lower n) s (fields hdrs) = Ok (fields hdrs')
  | Throw e => add_map (lower n) s (fields hdrs) = Throw e
  | Ub => add_map (lower n) s (fields hdrs) = Ub
  | Diverge => add_map (lower n) s (fields hdrs) = Diverge
  end.
Proof.
  intros [Hw Ht] Hn. unfold add, add_map. rewrite nonempty_true by done.
  destruct (validate net lib (lower n) s) as [v| | |] eqn:Ev; cbn [rbind]; [|done..].
  apply validate_typed in Ev. pose proof (find_spec (lower n) hdrs) as Hf.
  pose proof (lower_lowered n Hn) as Hlow. destruct (find (lower n) hdrs) as [i|] eqn:Efi.
  - destruct Hf as (old & Hi & Hold & Hs). rewrite Hold. destruct (is_seq v); [|done]. rewrite Hi. cbn [snd].
    destruct (append_value old v) as [x| | |] eqn:Ex; cbn [rbind]; [|done..].
    destruct (Hs x) as [-> Hk]. split; [|done]. split; [unfold wf; by rewrite Hk|].
    unfold typed. destruct (Hs x) as [-> _]. apply map_Forall_insert_2; [|done].
    eapply has_type_append; [|exact Ex]. exact (Ht _ _ Hold).
  - destruct Hf as [-> Hni]. rewrite fields_snoc by done. split; [|done]. split; [by apply wf_snoc|].
    unfold typed. rewrite fields_snoc by done. by apply map_Forall_insert_2.
Qed.

(** ** What a program can do with a list of headers *)

(** The operations of headers.h, the setters of the fields included, but for
    the [update] that is given a value. *)
Inductive operation :=
  | Add (name value : bytes)
  | AddLine (line : bytes)
  | Update (name value : bytes)
  | Remove (name : bytes)
  | SetContentLength (n : Z)
  | SetContentLengthStr (s : bytes)
  | SetTransferEncoding (l : list token)
  | SetTransferEncodingStr (s : bytes)
  | SetTe (l : list token)
  | SetTeStr (s : bytes)
  | SetTrailers (l : list bytes)
  | SetTrailersStr (s : bytes)
  | SetHost (hp : host_port)
  | SetHostStr (s : bytes) (port : Z)
  | SetIntermediary (l : list via)
  | SetIntermediaryStr (s : bytes)
  | SetConnection (l : list bytes)
  | SetConnectionStr (s : bytes)
  | SetContentType (mt : media_type)
  | SetContentEncoding (s : bytes)
  | SetContentLanguage (l : list bytes)
  | SetContentLanguageStr (s : bytes)
  | SetContentLocation (u : uri)
  | SetContentLocationStr (s : bytes)
  | SetDate (t : DateTime.datetime)
  | SetDateTime (t : Z)
  | SetDateStr (s : bytes).

Definition step (op : operation) (hdrs : headers) : res cpp_exn headers :=
  match op with
  | Add n v => add net lib n v hdrs
  | AddLine s => add_line net lib s hdrs
  | Update n v => update net lib n v hdrs
  | Remove n => Ok (remove n hdrs)
  | SetContentLength n => set_content_length n hdrs
  | SetContentLengthStr s => set_content_length_str s hdrs
  | SetTransferEncoding l => set_transfer_encoding l hdrs
  | SetTransferEncodingStr s => set_transfer_encoding_str s hdrs
  | SetTe l => set_te l hdrs
  | SetTeStr s => set_te_str s hdrs
  | SetTrailers l => set_trailers l hdrs
  | SetTrailersStr s => set_trailers_str s hdrs
  | SetHost hp => set_host hp hdrs
  | SetHostStr s port => set_host_str net s port hdrs
  | SetIntermediary l => set_intermediary l hdrs
  | SetIntermediaryStr s => set_intermediary_str net s hdrs
  | SetConnection l => set_connection l hdrs
  | SetConnectionStr s => set_connection_str s hdrs
  | SetContentType mt => set_content_type mt hdrs
  | SetContentEncoding s => set_content_encoding net lib s hdrs
  | SetContentLanguage l => set_content_language l hdrs
  | SetContentLanguageStr s => set_content_language_str s hdrs
  | SetContentLocation u => set_content_location u hdrs
  | SetContentLocationStr s => set_content_location_str net s hdrs
  | SetDate t => set_date t hdrs
  | SetDateTime t => set_date_time lib t hdrs
  | SetDateStr s => set_date_str lib s hdrs
  end.

(** [update(name, value)] takes any value, and keeps a new name as it is
    written: what it has to be given. *)
Definition fits (n : bytes) (v : base_value) (hdrs : headers) : Prop :=
  has_type (lower n) v = true /\ (is_set n hdrs = true \/ lower n = n).

(** The lists of headers a program can build; an operation that throws leaves
    the list as it was. *)
Inductive built : headers -> Prop :=
  | built_nil : built []
  | built_step hdrs op hdrs' : built hdrs -> step op hdrs = Ok hdrs' -> built hdrs'
  | built_value hdrs n v : built hdrs -> fits n v hdrs -> built (update_value n v hdrs).

Lemma good_nil : good [].
Proof. split; [split; [constructor|constructor]|]. apply map_Forall_empty. Qed.

Lemma put_value_good n v hdrs : good hdrs -> lowered n -> has_type n v = true -> good (update_value n v hdrs).
Proof. intros Hg Hn Hv. rewrite update_value_put by done. by apply put_good. Qed.

(** Every setter makes a value of the type of its field. *)
Local Ltac setter :=
  let E := fresh "E" in intros E;
  repeat match goal with
  | H : rbind _ _ = Ok _ |- _ => let H1 := fresh "H" in apply rbind_Ok in H as (? & H1 & H)
  | H : single_of _ _ _ _ = Ok _ |- _ => apply single_of_Ok in H as (? & ->)
  | H : sequence_of _ _ _ _ = Ok _ |- _ => apply sequence_of_Ok in H as (? & ->)
  | H : Ok _ = Ok ?x |- _ => is_var x; injection H as <-
  end;
  (apply put_value_good; [assumption|by split|reflexivity]).

Lemma add_good n s hdrs hdrs' : good hdrs -> add net lib n s hdrs = Ok hdrs' -> good hdrs'.
Proof.
  intros Hg E. destruct (decide (n = [])) as [->|Hn]; [by injection E as <-|].
  pose proof (add_refines n s hdrs Hg Hn) as H. rewrite E in H. apply H.
Qed.

Lemma update_good n s hdrs hdrs' : good hdrs -> update net lib n s hdrs = Ok hdrs' -> good hdrs'.
Proof.
  intros Hg E. destruct (decide (n = [])) as [->|Hn]; [by injection E as <-|].
  rewrite update_put in E by done. apply rbind_Ok in E as (v & Hv & E). injection E as <-.
  apply put_good; [done|by apply lower_lowered|by eapply validate_typed].
Qed.

Lemma step_good op hdrs hdrs' : good hdrs -> step op hdrs = Ok hdrs' -> good hdrs'.
Proof.
  intros Hg. destruct op; cbn [step];
    unfold set_content_length, set_content_length_str, set_transfer_encoding, set_transfer_encoding_str, set_te, set_te_str,
      set_trailers, set_trailers_str, set_content_language, set_content_language_str, set_host_str, set_host,
      set_intermediary, set_intermediary_str, set_connection, set_connection_str, set_content_type,
      set_content_location_str, set_content_location, set_date_time, set_date, set_date_str,
      set_tokens, set_tokens_str, set_strings, set_strings_str, single_set, sequence_append; try solve [setter].
  - by apply add_good.
  - intros ([n v] & _ & E)%rbind_Ok. by eapply add_good.
  - by apply update_good.
  - intros E. injection E as <-. destruct (decide (name = [])) as [->|Hn]; [done|by apply remove_refines].
  - by apply update_good.
Qed.

(** [update(name, value)] on the map: the name is the one that is there, or the
    one that is written. *)
Lemma update_value_fields n v hdrs : good hdrs -> n <> [] ->
  fields (update_value n v hdrs) = <[(if is_set n hdrs then lower n else n) := v]> (fields hdrs) /\
  (update_value n v hdrs).*1 = (if is_set n hdrs then hdrs.*1 else hdrs.*1 ++ [n]).
Proof.
  intros [[Hd Hl] _] Hn. unfold update_value, is_set. rewrite nonempty_true by done. pose proof (find_spec (lower n) hdrs) as Hf.
  destruct (find (lower n) hdrs) as [i|].
  - destruct Hf as (x & _ & _ & Hs). apply Hs.
  - destruct Hf as [_ Hni]. rewrite fmap_app. split; [|done]. apply fields_snoc. intros Hin. apply Hni.
    rewrite Forall_forall in Hl. by rewrite (proj1 (Hl _ Hin)).
Qed.

Lemma update_value_good n v hdrs : good hdrs -> n <> [] -> good (update_value n v hdrs) <-> fits n v hdrs.
Proof.
  intros Hg Hn. destruct (update_value_fields n v hdrs Hg Hn) as [Hf Hk]. unfold fits. destruct (is_set n hdrs) eqn:Es.
  - split.
    + intros [_ Ht]. split; [|by left]. apply (Ht (lower n)). by rewrite Hf, lookup_insert_eq.
    + intros [Hv _]. destruct Hg as [[Hd Hl] Ht]. split; [unfold wf; by rewrite Hk|]. unfold typed. rewrite Hf. by apply map_Forall_insert_2.
  - split.
    + intros [[_ Hl] Ht]. rewrite Hk in Hl. apply Forall_app in Hl as [_ [[Hl _] _]%Forall_cons]. split; [|by right].
      rewrite Hl. apply (Ht n). by rewrite Hf, lookup_insert_eq.
    + intros [Hv [?|Hl]]; [done|]. rewrite Hl in Hv. apply put_value_good; [done|by split|done].
Qed.

Lemma built_good hdrs : built hdrs -> good hdrs.
Proof.
  induction 1 as [|hdrs op hdrs' _ IH E|hdrs n v _ IH Hf]; [apply good_nil|by eapply step_good|].
  destruct (decide (n = [])) as [->|Hn]; [done|]. by apply update_value_good.
Qed.
End operations.

(** ** Facts (Headers: the specification)

    What the rest of http relies on: the invariant of the lists a program can
    build, the getters, the map, and the reading of header lines. *)

Import Scanner Headers.

(** A list for the witnesses, built from three header lines and a setter. *)
Definition demo_headers : headers :=
  [(CONTENT_TYPE, mt_val (bytes_of "text/plain;charset=utf-8")
      {| mt_type := bytes_of "text"; mt_subtype := bytes_of "plain"; mt_parameters := [(bytes_of "charset", bytes_of "utf-8")] |});
   (bytes_of "accept", str_seq (bytes_of "one, two, three") [bytes_of "one"; bytes_of "two"; bytes_of "three"]);
   (CONTENT_LENGTH, num_val [] 42)].

Lemma demo_built : built demo_inet demo_clock demo_headers.
Proof.
  assert (exists h1 h2 h3,
    step demo_inet demo_clock (AddLine (bytes_of "Content-Type: text/plain;charset=utf-8" ++ crlf)) [] = Ok h1 /\
    step demo_inet demo_clock (AddLine (bytes_of "Accept: one, two" ++ crlf)) h1 = Ok h2 /\
    step demo_inet demo_clock (Add (bytes_of "ACCEPT") (bytes_of "three")) h2 = Ok h3 /\
    step demo_inet demo_clock (SetContentLength 42) h3 = Ok demo_headers) as (h1 & h2 & h3 & E1 & E2 & E3 & E4).
  { do 3 eexists. split_and!; vm_compute; reflexivity. }
  eapply built_step; [|exact E4]. eapply built_step; [|exact E3]. eapply built_step; [|exact E2].
  eapply built_step; [|exact E1]. apply built_nil.
Qed.

Section spec.
Context (net : inet) (lib : DateTime.clock).

(** The names are distinct, in lower case and not empty, and every value has the
    type of its field. *)
Definition invariant (hdrs : headers) : Prop :=
  NoDup hdrs.*1 /\ Forall (fun n => lower n = n /\ n <> []) hdrs.*1 /\
  forall n v, fields hdrs !! n = Some v -> has_type n v = true.

Lemma good_invariant hdrs : good hdrs <-> invariant hdrs.
Proof.
  split.
  - intros [[Hd Hl] Ht]. split; [done|]. split; [done|]. intros n v Hv. exact (Ht n v Hv).
  - intros (Hd & Hl & Ht). split; [by split|]. intros n v Hv. by apply Ht.
Qed.

(** C10. Whatever sequence of operations built a list of headers, from lines,
    texts or values, its names are distinct, in lower case and not empty, and
    every value has the type of its field.  The [update] that is given a value is
    the one operation that can break this: it keeps the invariant exactly when
    the value has the type of the field and a new name is in lower case. *)
Theorem headers_invariant hdrs (Hb : built net lib hdrs) :
  invariant hdrs /\
  (forall op hdrs', step net lib op hdrs = Ok hdrs' -> invariant hdrs') /\
  forall n v, n <> [] -> invariant (update_value n v hdrs) <-> fits n v hdrs.
Proof.
  pose proof (built_good _ _ _ Hb) as Hg. split; [by apply good_invariant|]. split.
  - intros op hdrs' E. apply good_invariant. by eapply step_good.
  - intros n v Hn. rewrite <- good_invariant. by apply update_value_good.
Qed.

(** A getter of a field: the value when the field is set, [std::out_of_range]
    when it is not. *)
Definition reads {A} (g : headers -> res cpp_exn A) (name : bytes) (hdrs : headers) : Prop :=
  if is_set name hdrs then exists a, g hdrs = Ok a else g hdrs = Throw out_of_range.

Lemma getter_reads {A} name (f : base_value -> res cpp_exn A) hdrs : good hdrs -> lowered name ->
  (forall v, has_type name v = true -> exists a, f v = Ok a) -> reads (fun h => rbind (Headers.get name h) f) name hdrs.
Proof.
  intros [_ Ht] [Hl Hn] Hf. unfold reads. rewrite is_set_spec, get_refines, Hl by done.
  destruct (fields hdrs !! name) as [v|] eqn:E; cbn [rbind].
  - rewrite bool_decide_true by done. apply Hf. exact (Ht _ _ E).
  - rewrite bool_decide_false; [done|]. by intros [].
Qed.

Local Ltac getter :=
  apply getter_reads; [assumption|split; [vm_compute; reflexivity|discriminate]|];
  let H := fresh in intros [] H; vm_compute in H; first [discriminate H | eexists; reflexivity].

(** C36. In a list that a program can build, with values of the type of their
    fields, no getter casts a value to the wrong type: each one returns the value of its field when it is set, and throws
    [std::out_of_range] when it is not, [content_length] and [connection] of a
    message without these fields included. *)
Theorem getters_typed hdrs (Hb : built net lib hdrs) :
  reads content_length CONTENT_LENGTH hdrs /\ reads transfer_encoding TRANSFER_ENCODING hdrs /\ reads te TE hdrs /\
  reads trailers TRAILERS hdrs /\ reads host HOST hdrs /\ reads intermediary VIA hdrs /\
  reads connection CONNECTION hdrs /\ reads close_connection CONNECTION hdrs /\ reads content_type CONTENT_TYPE hdrs /\
  reads content_encoding CONTENT_ENCODING hdrs /\ reads content_language CONTENT_LANGUAGE hdrs /\
  reads content_location CONTENT_LOCATION hdrs /\ reads date DATE hdrs.
Proof.
  pose proof (built_good _ _ _ Hb) as Hg.
  assert (reads connection CONNECTION hdrs) as Hc by getter.
  split_and!; try exact Hc; try solve [getter].
  unfold reads, close_connection in *. destruct (is_set CONNECTION hdrs); [destruct Hc as [a ->]; eauto|by rewrite Hc].
Qed.

(** A line that is read has a name. *)
Lemma read_header_name line n s : run read_header line = Ok (n, s) -> n <> [].
Proof.
  unfold run, read_header, read_token. intros E.
  unfold bind at 1 in E. unfold bind at 1 in E. destruct (read_while is_tchar (scan line)) as [[cs| | |] s1]; try discriminate.
  cbn [ret fst] in E. destruct (tolower <$> cs) as [|c l] eqn:Ec; cbn [nonempty negb] in E; [discriminate|].
  revert E. unfold bind. repeat case_match; intros E; try discriminate; simplify_eq/=; done.
Qed.

(** C9. The list refines a finite map with names in lower case as its keys:
    looking up, testing, overriding, removing and appending a field, from its
    name and value or from a line, are the operations of the map, whatever the
    case of the name, and nothing else changes.  The [update] that is given a
    value overrides the field when it is there, and otherwise inserts it under
    the name as it is written. *)
Theorem headers_refine_map hdrs n s (Hb : built net lib hdrs) (Hn : n <> []) :
  is_set n hdrs = bool_decide (is_Some (fields hdrs !! lower n)) /\
  Headers.get n hdrs = match fields hdrs !! lower n with Some v => Ok v | None => Throw out_of_range end /\
  fields (remove n hdrs) = delete (lower n) (fields hdrs) /\
  (let? h := update net lib n s hdrs in Ok (fields h)) =
    (let? v := validate net lib (lower n) s in Ok (<[lower n := v]> (fields hdrs))) /\
  (let? h := add net lib n s hdrs in Ok (fields h)) = add_map net lib (lower n) s (fields hdrs) /\
  (forall line, (let? h := add_line net lib line hdrs in Ok (fields h)) =
    (let? (m, t) := run read_header line in add_map net lib (lower m) t (fields hdrs))) /\
  forall v, fields (update_value n v hdrs) = <[(if is_set n hdrs then lower n else n) := v]> (fields hdrs).
Proof.
  pose proof (built_good _ _ _ Hb) as Hg.
  assert (forall m t, m <> [] -> (let? h := add net lib m t hdrs in Ok (fields h)) = add_map net lib (lower m) t (fields hdrs)) as Hadd.
  { intros m t Hm. pose proof (add_refines net lib m t hdrs Hg Hm) as H.
    destruct (add net lib m t hdrs); cbn [rbind]; [by destruct H as [_ ->]|by rewrite H..]. }
  split_and!.
  - by apply is_set_spec.
  - by apply get_refines.
  - by apply remove_refines.
  - rewrite update_put by done. destruct (validate net lib (lower n) s) as [v| | |] eqn:Ev; cbn [rbind]; [|done..].
    f_equal. apply put_good; [done|by apply lower_lowered|by eapply validate_typed].
  - by apply Hadd.
  - intros line. unfold add_line. destruct (run read_header line) as [[m t]| | |] eqn:E; cbn [rbind]; [|done..].
    apply Hadd. by eapply read_header_name.
  - intros v. by apply update_value_fields.
Qed.

(** ** Reading a line *)
Lemma validate_settles n s : n <> DATE -> settles (validate net lib n s).
Proof.
  intros Hd. unfold validate.
  repeat (case_bool_decide; [first [done|apply sequence_of_settles|apply single_of_settles]; intros;
    auto using parse_number_settles, parse_tokens_settles, parse_strings_settles, parse_host_port_settles, parse_vias_settles,
      parse_media_type_settles, parse_uri_settles, valid_connection_settles, valid_encoding_settles, valid_media_type_settles;
    exact I|]).
  apply sequence_of_settles; [apply parse_strings_settles|done].
Qed.

Lemma append_value_settles v w : settles (append_value v w).
Proof. destruct v; cbn; try done; by destruct w. Qed.

Lemma add_settles n s hdrs : lower n <> DATE -> settles (add net lib n s hdrs).
Proof.
  intros Hd. unfold add. destruct (nonempty n); [|done]. apply settles_bind; [by apply validate_settles|]. intros v _.
  pose proof (find_spec (lower n) hdrs) as Hf. destruct (find (lower n) hdrs) as [i|]; [|done].
  destruct Hf as (x & -> & _). destruct (is_seq v); [|done]. apply settles_bind; [apply append_value_settles|done].
Qed.

Lemma read_header_settles line : settles (run read_header line).
Proof. apply steady_safe. intros b. unfold read_header. auto 40 with steady. Qed.

Lemma read_header_lower line n s : run read_header line = Ok (n, s) -> lower n = n.
Proof.
  unfold run, read_header, read_token. intros E.
  unfold bind at 1 in E. unfold bind at 1 in E. destruct (read_while is_tchar (scan line)) as [[cs| | |] s1]; try discriminate.
  cbn [ret fst] in E. destruct (nonempty (tolower <$> cs)); cbn [negb] in E; [|discriminate].
  revert E. unfold bind. repeat case_match; intros E; try discriminate; simplify_eq/=. apply lower_idemp.
Qed.

(** Reading a header line and adding the field ends, with the new list or
    with an exception, and without undefined behaviour, for every line that is
    not a [Date] field; the loops of the scanner and of the value parsers end
    for these too. *)
Theorem add_line_settles line hdrs (Hd : forall s, run read_header line <> Ok (DATE, s)) :
  settles (add_line net lib line hdrs).
Proof.
  unfold add_line. apply settles_bind; [apply read_header_settles|]. intros [n s] E.
  apply add_settles. rewrite (read_header_lower _ _ _ E). intros ->. by apply (Hd s).
Qed.
End spec.

(** A length that is given as a text, and a field with a capital letter. *)
Lemma headers_invariant_witness :
  invariant demo_headers /\ ~ invariant (update_value CONTENT_LENGTH (str_seq [] []) demo_headers) /\
  ~ invariant (update_value (bytes_of "X-Field") (str_seq [] []) demo_headers).
Proof.
  destruct (headers_invariant demo_inet demo_clock demo_headers demo_built) as (H & _ & Hu). split; [exact H|]. split.
  - rewrite Hu by discriminate. intros [Ht _]. vm_compute in Ht. discriminate Ht.
  - rewrite Hu by discriminate. intros [_ [Hs|Hl]]; [vm_compute in Hs; discriminate Hs|vm_compute in Hl; discriminate Hl].
Defined.

Lemma getters_typed_witness :
  reads content_length CONTENT_LENGTH demo_headers /\ content_length demo_headers = Ok 42 /\
  connection demo_headers = Throw out_of_range.
Proof.
  split; [exact (proj1 (getters_typed demo_inet demo_clock demo_headers demo_built))|]. split; vm_compute; reflexivity.
Defined.

Lemma headers_refine_map_witness :
  is_set (bytes_of "ACCEPT") demo_headers = bool_decide (is_Some (fields demo_headers !! bytes_of "accept")) /\
  is_set (bytes_of "ACCEPT") demo_headers = true.
Proof.
  split; [|vm_compute; reflexivity].
  exact (proj1 (headers_refine_map demo_inet demo_clock demo_headers (bytes_of "ACCEPT") (bytes_of "four") demo_built ltac:(discriminate))).
Defined.

Lemma add_line_settles_witness :
  settles (add_line demo_inet demo_clock (bytes_of "Content-Length: 5" ++ crlf) []) /\
  add_line demo_inet demo_clock (bytes_of "Date: Sun, 1" ++ crlf) [] = Ub.
Proof.
  split; [|vm_compute; reflexivity]. apply add_line_settles. intros s E. vm_compute in E. discriminate E.
Defined.
