(* ===== verification/HvalText.v ===== *)
(** * http: header values survive printing and reading

    Every value whose parts are in canonical form prints as a text that stands in
    a header line and that its field reads back as the same value. *)
From S2P Require Import Prelude Effects Numbers UriText Uri UriRoundTrip.
From S2P Require Import Text Timeutil Scanner Hval Headers HeadersSpec.
Import Scanner.

(** ** Texts in a line *)

(** A text without white space at its ends, and not empty. *)
Definition solid (s : bytes) : Prop :=
  (exists c w, s = c :: w /\ is_trimmed c = false) /\ (exists d w, s = w ++ [d] /\ is_trimmed d = false).

Lemma solid_app a m b : solid a -> solid b -> solid (a ++ m ++ b).
Proof.
  intros [(c & w & -> & Hc) _] [_ (d & v & -> & Hd)]. split.
  - by exists c, (w ++ m ++ v ++ [d]).
  - exists d, ((c :: w) ++ m ++ v). by rewrite <- !app_assoc.
Qed.

Lemma solid_Forall s : s <> [] -> Forall (fun c => is_trimmed c = false) s -> solid s.
Proof.
  intros Hne Hs. split.
  - destruct s as [|c w]; [done|]. exists c, w. split; [done|]. by inversion Hs.
  - destruct (exists_last Hne) as (w & d & ->). exists d, w. split; [done|].
    apply Forall_app in Hs as [_ Hs]. by inversion Hs.
Qed.

Lemma solid_trim s : solid s -> trim s = s.
Proof.
  intros [(c & w & -> & Hc) (d & v & E & Hd)]. unfold trim. rewrite (skip_while_stop _ (c :: w)) by done. rewrite E at 1.
  rewrite rev_app_distr. cbn [rev app]. rewrite skip_while_stop by done.
  rewrite <- (rev_involutive (c :: w)), E, rev_app_distr. done.
Qed.

(** A text that stands in a header line. *)
Definition text_ok (s : bytes) : Prop := Forall line_char s /\ (s = [] \/ solid s).

Lemma text_ok_trim s : text_ok s -> trim s = s.
Proof. intros [_ [->|Hs]]; [done|by apply solid_trim]. Qed.

(** Characters that can stand anywhere in such a text. *)
Definition plain_char (c : Z) : Prop := line_char c /\ is_trimmed c = false.

Lemma plain_text s : s <> [] -> Forall plain_char s -> Forall line_char s /\ solid s.
Proof.
  intros Hne Hs. split; [|apply solid_Forall; [done|]]; (eapply Forall_impl; [exact Hs|]); by intros c [].
Qed.

Lemma graphic_plain c : 33 <= c -> plain_char c.
Proof. intros Hc. unfold plain_char, line_char, is_trimmed, CR, LF. lia. Qed.

Lemma graphic_line c : 33 <= c -> line_char c.
Proof. intros Hc. by apply graphic_plain. Qed.

Lemma graphic_text s : s <> [] -> Forall (fun c => 33 <= c) s -> Forall line_char s /\ solid s.
Proof. intros Hne Hs. apply plain_text; [done|]. eapply Forall_impl; [exact Hs|]. intros c. apply graphic_plain. Qed.

Lemma if_true_orb (b x : bool) : (if b then true else x) = b || x.
Proof. by destruct b. Qed.

Lemma graphic_uri c : is_uri_char c = true -> 33 <= c.
Proof.
  unfold is_uri_char, uri_reserved_character, uri_generic_delimiter, uri_subcomponent_delimiter, uri_unreserved_character, isalpha, isdigit.
  rewrite !if_true_orb. simpl_chr. lia.
Qed.

Lemma graphic_tchar c : is_tchar c = true -> 33 <= c.
Proof. unfold is_tchar, isalpha, isdigit. rewrite if_true_orb. simpl_chr. lia. Qed.

Lemma graphic_digit c : isdigit c = true -> 33 <= c.
Proof. unfold isdigit. lia. Qed.

Lemma is_token_text s : is_token s -> Forall line_char s /\ solid s.
Proof. intros [Hne Hs]. apply graphic_text; [done|]. eapply Forall_impl; [exact Hs|]. intros c. apply graphic_tchar. Qed.

(** ** The texts of the values *)
Lemma quoted_line close plain s : (forall c, plain c = true -> line_char c) ->
  quoted_text close plain s = true -> Forall line_char s.
Proof.
  intros Hp. remember (length s) as k eqn:Hk. assert (length s <= k)%nat as Hl by lia. clear Hk. revert s Hl.
  induction k as [|k IH]; intros [|c s] Hl; cbn [length] in Hl; try lia; cbn [quoted_text]; try done.
  destruct (Z.eqb_spec c (chr "\")) as [->|].
  - destruct s as [|d s]; [done|]. intros [Hd Hs]%andb_prop. cbn [length] in Hl.
    constructor; [done|]. constructor; [|by apply IH; [lia|]].
    unfold is_escaped, is_whitespace, is_vchar, is_opaque, line_char, CR, LF in *. revert Hd. simpl_chr. lia.
  - intros [[_ Hpc]%andb_prop Hs]%andb_prop. constructor; [by apply Hp|by apply IH; [lia|]].
Qed.

Lemma pvalue_text v : pvalue_ok v -> Forall line_char v /\ solid v.
Proof.
  intros [[Ht _]|(w & -> & Hw)]; [by apply is_token_text|].
  apply quoted_line in Hw as Hf.
  - assert (line_char dquote) as Hq by (apply graphic_line; unfold dquote; lia).
    split; [by constructor; [|apply Forall_app; split; [|constructor]]|].
    split; [by eexists _, _|]. by exists dquote, (dquote :: w).
  - intros c. unfold is_quoted, is_whitespace, is_opaque, line_char, CR, LF. rewrite if_true_orb. simpl_chr. lia.
Qed.

Lemma params_line ps : Forall param_ok ps -> Forall line_char (params_text ps) /\ (ps = [] \/ solid (params_text ps)).
Proof.
  induction 1 as [|[n v] ps [[Hn _] Hv] Hps [IH1 IH2]]; [split; [constructor|by left]|].
  cbn [fst snd] in *. destruct (is_token_text n Hn) as [Hn1 Hn2], (pvalue_text v Hv) as [Hv1 Hv2].
  assert (params_text ((n, v) :: ps) = [chr ";"] ++ n ++ [chr "="] ++ v ++ params_text ps) as ->.
  { unfold params_text. cbn [fmap list_fmap concat]. unfold param_text. cbn [fst snd app]. by rewrite <- app_assoc. }
  assert (solid ([chr ";"] ++ n ++ [chr "="] ++ v)) as Hs.
  { rewrite (app_assoc n). apply solid_app; [|done]. apply solid_Forall; [done|by repeat constructor]. }
  split.
  - repeat (apply Forall_app; split); try done; constructor; try done; by apply graphic_line.
  - right. destruct IH2 as [->|IH2]; [by rewrite !app_nil_r|].
    pose proof (solid_app _ [] _ Hs IH2) as H. by rewrite <- !app_assoc in H.
Qed.

Lemma with_params_text a ps : Forall line_char a -> solid a -> Forall param_ok ps ->
  Forall line_char (a ++ params_text ps) /\ solid (a ++ params_text ps).
Proof.
  intros Ha1 Ha2 Hps. destruct (params_line ps Hps) as [H1 [->|H2]]; [by rewrite app_nil_r|].
  split; [by apply Forall_app|]. by apply (solid_app a []).
Qed.

Lemma join_text l : Forall (fun s => Forall line_char s /\ solid s) l -> text_ok (join_with sep l).
Proof.
  intros Hl. destruct l as [|s l]; [split; [constructor|by left]|]. unfold text_ok.
  cut (Forall line_char (join_with sep (s :: l)) /\ solid (join_with sep (s :: l))); [intros []; auto|].
  revert s Hl. induction l as [|t l IH]; intros s Hl; inversion Hl as [|?? [H1 H2] Hl']; subst; [done|].
  rewrite join_with_cons. destruct (IH t Hl') as [H3 H4]. split; [|by apply solid_app].
  apply Forall_app. split; [done|]. apply Forall_app. split; [by repeat (constructor; [done|])|done].
Qed.

Lemma string_text s : string_ok s -> Forall line_char s /\ solid s.
Proof. intros [[Hs _] _]. by apply is_token_text. Qed.

Lemma token_line t : token_ok t -> Forall line_char (print_token t) /\ solid (print_token t).
Proof.
  intros Ht. rewrite print_token_text by done. destruct Ht as [Hn Hps]. destruct (string_text _ Hn).
  by apply with_params_text.
Qed.

Lemma media_type_text mt : media_type_ok mt -> Forall line_char (print_media_type mt) /\ solid (print_media_type mt).
Proof.
  intros ([Ht _] & Hs & Hps). unfold print_media_type. rewrite print_parameters_text by done.
  destruct (is_token_text _ Ht) as [H1 H2], (string_text _ Hs) as [H3 H4].
  rewrite !app_assoc. rewrite <- (app_assoc (mt_type mt)). apply with_params_text; [|by apply solid_app|done].
  apply Forall_app. split; [done|]. apply Forall_app. split; [|done]. constructor; [by apply graphic_line|done].
Qed.

Lemma digits_text n : 0 <= n -> Forall (fun c => 33 <= c) (print_int n) /\ print_int n <> [].
Proof.
  intros Hn. rewrite print_int_pos by done. destruct (print_uint_digits n Hn) as (_ & _ & Hne). split; [|done].
  pose proof (print_uint_isdigit n Hn) as Hd. rewrite forallb_forall in Hd.
  apply Forall_forall. intros c Hc. apply graphic_digit, Hd. by apply list_elem_of_In.
Qed.

(** ** The characters of a URI *)
Lemma regular_uri c : Host.regular c = true -> is_uri_char c = true.
Proof.
  unfold Host.regular, is_uri_char, uri_reserved_character. destruct (uri_unreserved_character c); [by rewrite orb_true_r|].
  cbn [orb]. intros ->. by destruct (uri_generic_delimiter c).
Qed.

(** A character of a component, which is regular or one of the delimiters. *)
Lemma plain_uri c b : (b = true -> is_uri_char c = true) ->
  uri_unreserved_character c || uri_subcomponent_delimiter c || b = true -> is_uri_char c = true.
Proof. intros Hb [Hc|Hc]%orb_prop; [by apply regular_uri|by apply Hb]. Qed.

Ltac uri_class :=
  intros c Hc; eapply plain_uri; [|exact Hc]; simpl_chr;
  rewrite ?orb_true_iff, !Z.eqb_eq; intros Hd; repeat destruct Hd as [Hd|Hd]; subst c; reflexivity.

Lemma component_uri c : Component.plain c = true -> is_uri_char c = true.
Proof. revert c. unfold Component.plain. uri_class. Qed.
Lemma userinfo_uri c : Userinfo.plain c = true -> is_uri_char c = true.
Proof. revert c. unfold Userinfo.plain. uri_class. Qed.
Lemma path_uri c : Path.plain c = true -> is_uri_char c = true.
Proof. revert c. unfold Path.plain. uri_class. Qed.

Lemma hex_uri c : isxdigit c || (c =? chr ":") || (c =? chr ".") = true -> is_uri_char c = true.
Proof.
  unfold isxdigit, is_uri_char, uri_reserved_character, uri_generic_delimiter, uri_unreserved_character, isalpha, isdigit.
  rewrite !if_true_orb. simpl_chr. lia.
Qed.

Lemma host_uri h : host_text h -> Forall (fun c => is_uri_char c = true) h.
Proof.
  intros [Hh|(a & -> & Ha)].
  - eapply Forall_impl; [exact Hh|]. intros c [Hc _]. by apply regular_uri.
  - constructor; [reflexivity|]. apply Forall_app. split; [|by repeat constructor].
    eapply Forall_impl; [exact Ha|]. intros c [Hc _]. by apply hex_uri.
Qed.

Lemma scheme_uri s : Scheme.is_valid s = true -> Forall (fun c => is_uri_char c = true) s.
Proof.
  assert (forall c, isalpha c || isdigit c || (c =? chr "+") || (c =? chr "-") || (c =? chr ".") = true -> is_uri_char c = true) as Hc.
  { intros c. unfold is_uri_char, uri_reserved_character, uri_generic_delimiter, uri_subcomponent_delimiter, uri_unreserved_character, isalpha, isdigit.
    rewrite !if_true_orb. simpl_chr. lia. }
  assert (forall r, Scheme.valid_rest r = true -> Forall (fun c => is_uri_char c = true) r) as Hr.
  { induction r as [|c r IH]; [constructor|]. cbn [Scheme.valid_rest]. case_match eqn:E; [|done]. intros H. constructor; auto. }
  destruct s as [|c s]; [done|]. cbn [Scheme.is_valid]. destruct (isalpha c) eqn:E; [|done]. intros H.
  constructor; [|by apply Hr]. apply Hc. by rewrite E.
Qed.

Lemma port_uri p : p = [] \/ Port.is_valid p = Ok true -> Forall (fun c => is_uri_char c = true) (port_text p).
Proof.
  unfold port_text. intros [->|Hp]; [constructor|]. destruct (port_facts p Hp) as (_ & Hd & _).
  destruct (is_present p); [|constructor]. constructor; [reflexivity|]. eapply Forall_impl; [exact Hd|].
  intros c Hc. apply hex_uri. cbv beta in Hc. unfold isxdigit. by rewrite Hc.
Qed.

(** Every character of a canonical URI is one [read_uri] accepts. *)
Lemma print_uri_chars net u : canonical net u -> Forall (fun c => is_uri_char c = true) (Uri.print u).
Proof.
  intros [Hs Hh Hp _ Hq Hf]. unfold Uri.print. repeat (apply Forall_app; split).
  - destruct (is_present (m_scheme u)) eqn:E; [|constructor]. destruct Hs as [Hs|[Hv Hl]]; [by rewrite Hs in E|].
    unfold Scheme.encode. rewrite Hl. apply Forall_app. split; [by apply scheme_uri|by repeat constructor].
  - destruct (is_present (m_host u)) eqn:E; [|constructor]. destruct Hh as [[Hh _]|(Hv & Ht & Hui & Hpo)]; [by rewrite Hh in E|].
    destruct (host_text_facts _ _ Hv Ht) as (-> & _). repeat (apply Forall_app; split).
    + by repeat constructor.
    + destruct (is_present (m_userinfo u)); [|constructor]. unfold Userinfo.encode. rewrite encode_plain by done.
      apply Forall_app. split; [|by repeat constructor]. eapply Forall_impl; [exact Hui|]. apply userinfo_uri.
    + by apply host_uri.
    + by apply port_uri.
  - destruct Hp as [->|(segs & a & e & Hne & Hok & ->)]; [constructor|].
    destruct (is_present _); [|constructor]. unfold Path.encode, path_of. cbn [p_component].
    pose proof (path_text_plain _ _ e Hok Hne) as Hpl. rewrite encode_plain by done.
    eapply Forall_impl; [exact Hpl|]. apply path_uri.
  - destruct (is_present (m_query u)); [|constructor]. constructor; [reflexivity|]. unfold Component.encode.
    rewrite encode_plain by done. eapply Forall_impl; [exact Hq|]. apply component_uri.
  - destruct (is_present (m_fragment u)); [|constructor]. constructor; [reflexivity|]. unfold Component.encode.
    rewrite encode_plain by done. eapply Forall_impl; [exact Hf|]. apply component_uri.
Qed.

(** ** Dates *)
Lemma padded_line w n : 0 <= n -> Forall line_char (DateTime.padded w n).
Proof.
  intros Hn. unfold DateTime.padded, pad_left. apply Forall_app. split; [by apply Forall_replicate|].
  destruct (digits_text n Hn) as [Hd Hne]. by apply graphic_text.
Qed.

Lemma names_text (names : list bytes) i : forallb (fun s => forallb (fun c => 33 <=? c) s && nonempty s) names = true ->
  0 <= i < zlen names -> exists s, DateTime.name_at names i = Ok s /\ Forall (fun c => 33 <= c) s /\ s <> [].
Proof.
  intros Hn Hi. destruct (zget_is_Some names i Hi) as [s Hs]. unfold DateTime.name_at. rewrite Hs. exists s.
  rewrite forallb_forall in Hn. specialize (Hn s).
  assert (In s names) as Hin.
  { apply list_elem_of_In. unfold zget in Hs. case_decide; [|done]. by eapply list_elem_of_lookup_2. }
  apply Hn in Hin as [Hc Hne]%andb_prop. split; [done|]. split; [|by destruct s].
  apply Forall_forall. intros c Hx%list_elem_of_In. rewrite forallb_forall in Hc. specialize (Hc c Hx). lia.
Qed.

Lemma imf_text lib e s : 0 <= e < 253402300800 ->
  DateTime.str DateTime.imf (DateTime.datetime_of lib e DateTime.second true) = Ok s -> Forall line_char s /\ solid s.
Proof.
  intros He. destruct (gmtime_spec e ltac:(lia)) as ((Hmo & Hd & Hh & Hmi & Hse & Hw) & Hy & _).
  set (t := DateTime.datetime_of lib e DateTime.second true). unfold DateTime.str, DateTime.get_year.
  change (DateTime.m_tm t) with (DateTime.gmtime e).
  destruct (names_text DateTime.days (DateTime.tm_wday (DateTime.gmtime e)) eq_refl) as (d & -> & Hdt & Hdne); [done|].
  destruct (names_text DateTime.months (DateTime.get_month t - 1) eq_refl) as (mo & -> & Hmt & Hmne).
  { unfold DateTime.get_month. change (DateTime.m_tm t) with (DateTime.gmtime e). unfold zlen. cbn [length DateTime.months fmap list_fmap]. lia. }
  cbn [rbind]. intros [= <-]. split.
  - destruct (graphic_text d Hdne Hdt) as [Hd' _], (graphic_text mo Hmne Hmt) as [Hm' _].
    repeat first [done | apply padded_line; lia | apply Forall_app; split | constructor; [done|] | constructor].
  - split.
    + destruct (graphic_text d Hdne Hdt) as [_ [(c & w & -> & Hc) _]]. by eexists _, _.
    + exists (chr "T"). eexists. split; [|done]. rewrite !app_comm_cons, !app_assoc.
      change [chr " "; chr "G"; chr "M"; chr "T"] with ([chr " "; chr "G"; chr "M"] ++ [chr "T"]). by rewrite app_assoc.
Qed.

(** ** The values *)

(** Equal up to the text they were read from; a date also up to the fraction of
    the second, which [get] takes from the clock. *)
Definition same_value (v w : base_value) : Prop :=
  match v, w with
  | num_val _ a, num_val _ b => a = b
  | mt_val _ a, mt_val _ b => a = b
  | hp_val _ a, hp_val _ b => a = b
  | uri_val _ a, uri_val _ b => a = b
  | dt_val _ a, dt_val _ b =>
      DateTime.m_tm a = DateTime.m_tm b /\ DateTime.epoch DateTime.second a = DateTime.epoch DateTime.second b
  | ce_seq _ a, ce_seq _ b | str_seq _ a, str_seq _ b | cnxn_seq _ a, cnxn_seq _ b => a = b
  | tok_seq _ a, tok_seq _ b => a = b
  | via_seq _ a, via_seq _ b => a = b
  | _, _ => False
  end.

Section values.
Context (net : inet) (lib : DateTime.clock).

(** The values in canonical form.  [Via] is left out. *)
Definition value_ok (v : base_value) : Prop :=
  match v with
  | num_val _ n => 0 <= n < 2 ^ 64
  | mt_val _ mt => media_type_ok mt /\ valid_media_type mt = Ok tt
  | hp_val _ hp => host_port_ok net hp
  | uri_val _ u => canonical net u
  | dt_val _ t => exists e, 0 <= e < 253402300800 /\ t = DateTime.datetime_of lib e DateTime.second true
  | ce_seq _ l => Forall string_ok l /\ validate_all valid_encoding l = Ok tt
  | str_seq _ l => Forall string_ok l
  | tok_seq _ l => Forall token_ok l
  | cnxn_seq _ l => Forall string_ok l /\ validate_all valid_connection l = Ok tt
  | via_seq _ _ => False
  end.

Lemma host_port_text hp : host_port_ok net hp -> text_ok (print_host_port hp).
Proof.
  intros (Hv & Ht & Hp). destruct (host_text_facts _ _ Hv Ht) as (_ & _ & Hne & _).
  cut (Forall (fun c => 33 <= c) (print_host_port hp)).
  { intros H. destruct (graphic_text (print_host_port hp)) as [H1 H2]; [|done|split; auto].
    unfold print_host_port. by destruct (hp_host hp). }
  unfold print_host_port. apply Forall_app. split; [eapply Forall_impl; [by apply host_uri|apply graphic_uri]|].
  case_match; [constructor|]. constructor; [simpl_chr; lia|]. apply digits_text. lia.
Qed.

Lemma uri_text u : canonical net u -> text_ok (Uri.print u).
Proof.
  intros Hu. pose proof (print_uri_chars net u Hu) as Hc. destruct (decide (Uri.print u = [])) as [->|Hne]; [split; [constructor|by left]|].
  destruct (graphic_text (Uri.print u) Hne) as [H1 H2]; [|split; auto]. eapply Forall_impl; [exact Hc|apply graphic_uri].
Qed.

Lemma validate_none {A} (l : list A) : validate_all no_validation l = Ok tt.
Proof. by induction l. Qed.

(** The field of a value is one whose type the value has. *)
Local Ltac by_field :=
  unfold has_type, Headers.validate, single_of, sequence_of in *;
  repeat (case_bool_decide; [try discriminate|]); try discriminate.

(** A value of the type of its field prints as a text of a line, which the field
    reads back as the same value. *)
Lemma value_round n v : has_type n v = true -> value_ok v ->
  exists s w, value_str v = Ok s /\ text_ok s /\ Headers.validate net lib n s = Ok w /\ same_value v w.
Proof.
  intros Hn Hv. destruct v as [r x|r x|r x|r x|r x|r x|r x|r x|r x|r x]; cbn [value_ok value_str] in *.
  - destruct (digits_text x ltac:(lia)) as [Hd Hne]. destruct (graphic_text _ Hne Hd). pose proof (parse_number_print x Hv) as Hp.
    exists (print_int x), (num_val (print_int x) x). split_and!; [done|split; auto| |done]. by_field; by rewrite Hp.
  - destruct Hv as [Hm Hval]. destruct (media_type_text x Hm). pose proof (parse_media_type_print x Hm) as Hp.
    exists (print_media_type x), (mt_val (print_media_type x) x). split_and!; [done|split; auto| |done].
    by_field; rewrite Hp; cbn [rbind]; by rewrite Hval.
  - pose proof (host_port_text x Hv). pose proof (parse_host_port_print net x Hv) as Hp.
    exists (print_host_port x), (hp_val (print_host_port x) x). split_and!; [done..| |done]. by_field; by rewrite Hp.
  - pose proof (uri_text x Hv). pose proof (canonical_parses net x Hv) as Hp.
    exists (Uri.print x), (uri_val (Uri.print x) x). split_and!; [done..| |done]. by_field; unfold parse_uri; by rewrite Hp.
  - destruct Hv as (e & He & ->). destruct (imf_roundtrip lib e He) as (s & Hs & t & Hg & Ht & Hep).
    destruct (imf_text lib e s He Hs). exists s, (dt_val s t). split_and!; [done|split; auto| |by split].
    by_field; unfold parse_datetime; by rewrite Hg.
  - destruct Hv as [Hl Hval]. pose proof (parse_strings_join x Hl) as Hp.
    exists (join_with sep x), (ce_seq (join_with sep x) x). split_and!; [done|apply join_text; eapply Forall_impl; [exact Hl|apply string_text]| |done].
    by_field; rewrite Hp; cbn [rbind]; by rewrite Hval.
  - pose proof (parse_strings_join x Hv) as Hp.
    exists (join_with sep x), (str_seq (join_with sep x) x). split_and!; [done|apply join_text; eapply Forall_impl; [exact Hv|apply string_text]| |done].
    by_field; rewrite Hp; cbn [rbind]; by rewrite validate_none.
  - pose proof (parse_tokens_join x Hv) as Hp.
    exists (join_with sep (print_token <$> x)), (tok_seq (join_with sep (print_token <$> x)) x). split_and!; [done| | |done].
    + apply join_text, Forall_fmap. eapply Forall_impl; [exact Hv|apply token_line].
    + by_field; rewrite Hp; cbn [rbind]; by rewrite validate_none.
  - destruct Hv as [Hl Hval]. pose proof (parse_strings_join x Hl) as Hp.
    exists (join_with sep x), (cnxn_seq (join_with sep x) x). split_and!; [done|apply join_text; eapply Forall_impl; [exact Hl|apply string_text]| |done].
    by_field; rewrite Hp; cbn [rbind]; by rewrite Hval.
  - done.
Qed.
End values.
