(* ===== verification/Nio.v ===== *)
(** * libnet: buffered input and output (libnet/include/nio.h, libnet/src/nio.cpp)

    [nio] is the base class of sockets and TLS connections.  The virtual
    functions [readn] and [writen] are an interface here; [pipe] is an instance
    for the theorems: what the peer sends is a list of bytes. *)
From S2P Require Import Prelude Effects Numbers Text File.
From S2P Require Import Bytes.

(** [readn(buf, n, &bread, to, &oserr)]: the return value, the bytes stored and
    the system error; [writen(buf, n, &bwritten, to, &oserr)]: the return value,
    the number of bytes written and the system error. *)
Class Transport (T : Type) := {
  readn : Z -> T -> (Z * bytes * Z) * T;
  writen : bytes -> T -> (Z * Z * Z) * T;
  (** a bound on the bytes that reads can still return, for the loops *)
  pending : T -> nat }.

Record nio (T : Type) := {
  m_buffered : bool; m_buf : bytes; m_max : Z; m_len : Z; m_idx : Z; m_dev : T }.
Arguments m_buffered {T}. Arguments m_buf {T}. Arguments m_max {T}.
Arguments m_len {T}. Arguments m_idx {T}. Arguments m_dev {T}.

Section nio.
Context `{Transport T}.

(** [nio()] over a device. *)
Definition nio_init (dev : T) : nio T :=
  {| m_buffered := false; m_buf := []; m_max := 0; m_len := 0; m_idx := 0; m_dev := dev |}.

Definition with_dev (io : nio T) (dev : T) : nio T :=
  {| m_buffered := m_buffered io; m_buf := m_buf io; m_max := m_max io; m_len := m_len io; m_idx := m_idx io; m_dev := dev |}.
Definition with_idx (io : nio T) (idx : Z) : nio T :=
  {| m_buffered := m_buffered io; m_buf := m_buf io; m_max := m_max io; m_len := m_len io; m_idx := idx; m_dev := m_dev io |}.

Definition setbuf (bufsize : Z) (io : nio T) : nio T :=
  if m_buffered io then io
  else
    let bufsize := if bufsize <? 64 then 64 else if 65536 <? bufsize then 65536 else bufsize in
    {| m_buffered := true; m_buf := replicate (Z.to_nat bufsize) 0; m_max := bufsize; m_len := 0; m_idx := 0; m_dev := m_dev io |}.

(** The loop of [read_buffered]: [out] holds the bytes copied so far. *)
Fixpoint read_buffered_loop (fuel : nat) (to_read : Z) (out : bytes) (io : nio T) : option ((Z * bytes * Z) * nio T) :=
  match fuel with
  | O => None
  | S fuel =>
      if to_read =? 0 then Some ((E_ok, out, 0), io)
      else
        let n := if m_idx io <? m_len io then Z.min (m_len io - m_idx io) to_read else 0 in
        let out := out ++ take (Z.to_nat n) (drop (Z.to_nat (m_idx io)) (m_buf io)) in
        let io := with_idx io (m_idx io + n) in
        let to_read := to_read - n in
        if to_read =? 0 then Some ((E_ok, out, 0), io)
        else if m_len io <=? m_idx io then Some ((E_invalid_state, out, 0), io)
        else
          let '((retval, data, oserr), dev) := readn (m_max io) (m_dev io) in
          let io := {| m_buffered := m_buffered io; m_buf := data ++ drop (length data) (m_buf io); m_max := m_max io;
                       m_len := zlen data; m_idx := 0; m_dev := dev |} in
          if negb (retval =? E_ok) || (m_len io =? 0) then Some ((retval, out, oserr), io)
          else read_buffered_loop fuel to_read out io
  end.

Definition read_buffered (to_read : Z) (io : nio T) : option ((Z * bytes * Z) * nio T) :=
  if to_read <=? 0 then Some ((E_invalid_arg, [], 0), io)
  else read_buffered_loop (S (Z.to_nat to_read)) to_read [] io.

(** [read] *)
Definition nio_read (to_read : Z) (io : nio T) : option ((Z * bytes * Z) * nio T) :=
  if m_buffered io then read_buffered to_read io
  else let '(r, dev) := readn to_read (m_dev io) in Some (r, with_dev io dev).

(** [write] *)
Definition nio_write (data : bytes) (io : nio T) : (Z * Z * Z) * nio T :=
  let '(r, dev) := writen data (m_dev io) in (r, with_dev io dev).

(** [get_char]: the return value, the character, the system error. *)
Definition get_char (io : nio T) : option ((Z * Z * Z) * nio T) :=
  match nio_read 1 io with
  | None => None
  | Some ((retval, data, oserr), io) =>
      if retval =? E_ok then
        match data with
        | [c] => Some ((E_ok, c, oserr), io)
        | _ => Some ((E_read_failed, 0, oserr), io)
        end
      else Some ((retval, 0, oserr), io)
  end.

Definition put_char (c : Z) (io : nio T) : (Z * Z) * nio T :=
  let '((retval, bwritten, oserr), io) := nio_write [c] io in
  (if retval =? E_ok then if negb (1 =? bwritten) then E_write_failed else E_ok else retval, oserr, io).

(** A 4-byte integer in network order. *)
Definition int_bytes (v : Z) : bytes :=
  (fun k => schar (v / 2 ^ (8 * k))) <$> [3; 2; 1; 0].
Definition bytes_int (b : bytes) : Z := int32 (foldl (fun a c => a * 256 + uchar c) 0 b).

(** [read_integral<int>] and [write_integral<int>] *)
Definition read_int (io : nio T) : option ((Z * Z * Z) * nio T) :=
  match nio_read 4 io with
  | None => None
  | Some ((retval, data, oserr), io) =>
      let retval := if retval =? E_ok then if negb (4 =? zlen data) then E_read_failed else E_ok else retval in
      Some ((retval, if retval =? E_ok then bytes_int data else 0, oserr), io)
  end.

Definition write_int (v : Z) (io : nio T) : (Z * Z) * nio T :=
  let '((retval, bwritten, oserr), io) := nio_write (int_bytes v) io in
  (if retval =? E_ok then if negb (4 =? bwritten) then E_write_failed else E_ok else retval, oserr, io).

(** [read_string] appends to an empty string; [new char[n]] throws for a
    negative [n], which is [None] in the result. *)
Definition read_string (io : nio T) : option (option (Z * bytes * Z) * nio T) :=
  match read_int io with
  | None => None
  | Some ((retval, to_read, oserr), io) =>
      if retval =? E_ok then
        if to_read <? 0 then Some (None, io)
        else
          match nio_read to_read io with
          | None => None
          | Some ((retval, data, oserr), io) =>
              let retval := if retval =? E_ok then if negb (to_read =? zlen data) then E_read_failed else E_ok else retval in
              Some (Some (retval, if retval =? E_ok then data else [], oserr), io)
          end
      else Some (Some (retval, [], oserr), io)
  end.

Definition write_string (str : bytes) (io : nio T) : (Z * Z) * nio T :=
  let to_write := int32 (zlen str) in
  let '((retval, oserr), io) := write_int to_write io in
  if retval =? E_ok then
    let '((retval, bwritten, oserr), io) := nio_write (take (Z.to_nat to_write) str) io in
    ((if retval =? E_ok then if negb (to_write =? bwritten) then E_write_failed else E_ok else retval, oserr), io)
  else ((retval, oserr), io).

(** The loop of [readline]: the return value, the line, the system error. *)
Fixpoint readline_loop (fuel : nat) (line : bytes) (io : nio T) : option ((Z * bytes * Z) * nio T) :=
  match fuel with
  | O => None
  | S fuel =>
      match nio_read 1 io with
      | None => None
      | Some ((retval, data, oserr), io) =>
          if negb (retval =? E_ok) then Some ((retval, line, oserr), io)
          else
            match data with
            | [] => Some ((E_read_failed, line, oserr), io)
            | c :: _ =>
                let line := if zlen data =? 1 then line ++ [c] else line in
                if c =? 10 then Some ((E_ok, line, oserr), io) else readline_loop fuel line io
            end
      end
  end.
Definition nio_readline (io : nio T) : option ((Z * bytes * Z) * nio T) :=
  readline_loop (S (pending (m_dev io) + Z.to_nat (m_len io - m_idx io))) [] io.
End nio.

(** ** A byte stream

    The bytes the peer has sent, to be received, and those sent to it; a read of
    [n] bytes returns [n], or what is left at the end. *)
Record pipe := { p_in : bytes; p_out : bytes }.
#[export] Instance pipe_transport : Transport pipe := {|
  readn n p :=
    if n <=? 0 then ((E_invalid_arg, [], 0), p)
    else ((E_ok, take (Z.to_nat n) (p_in p), 0), {| p_in := drop (Z.to_nat n) (p_in p); p_out := p_out p |});
  writen data p :=
    match data with
    | [] => ((E_invalid_arg, 0, 0), p)
    | _ => ((E_ok, zlen data, 0), {| p_in := p_in p; p_out := p_out p ++ data |})
    end;
  pending p := length (p_in p) |}.

(** ** Facts (Buffered input and output: what reaches the device)

    A read through the buffer never calls the device; strings that are not empty
    survive a byte stream. *)

Section facts.
Context `{Transport T}.

(** A buffered [nio] as [setbuf] and reads leave it. *)
Definition buffer_ok (io : nio T) : Prop :=
  m_buffered io = true /\ 0 <= m_idx io <= m_len io /\ m_len io <= zlen (m_buf io).

Lemma setbuf_ok n dev : buffer_ok (setbuf n (nio_init dev)) /\ m_len (setbuf n (nio_init dev)) = 0.
Proof. unfold setbuf, buffer_ok. cbn. split; [|done]. split_and!; [done|lia..|apply zlen_nonneg]. Qed.

(** The bytes in the buffer that have not been returned. *)
Definition buffered (io : nio T) : bytes := take (Z.to_nat (m_len io - m_idx io)) (drop (Z.to_nat (m_idx io)) (m_buf io)).

Lemma buffered_length io : buffer_ok io -> zlen (buffered io) = m_len io - m_idx io.
Proof. intros (_ & Hi & Hl). unfold buffered, zlen in *. rewrite length_take, length_drop. lia. Qed.

(** A read of [n] bytes returns what the buffer has; when that is less, it ends
    with [E_invalid_state] instead of filling the buffer. *)
Lemma buffered_read n io : buffer_ok io -> 0 < n ->
  nio_read n io =
    Some ((if n <=? m_len io - m_idx io then E_ok else E_invalid_state, take (Z.to_nat n) (buffered io), 0),
          with_idx io (m_idx io + Z.min (m_len io - m_idx io) n)).
Proof.
  intros (Hb & Hi & Hl) Hn. unfold nio_read. rewrite Hb. unfold read_buffered. destruct (Z.leb_spec n 0); [lia|].
  cbn [read_buffered_loop]. destruct (Z.eqb_spec n 0); [lia|]. cbn [app].
  assert ((if m_idx io <? m_len io then Z.min (m_len io - m_idx io) n else 0) = Z.min (m_len io - m_idx io) n) as ->
    by (destruct (Z.ltb_spec (m_idx io) (m_len io)); lia).
  assert (take (Z.to_nat (Z.min (m_len io - m_idx io) n)) (drop (Z.to_nat (m_idx io)) (m_buf io)) = take (Z.to_nat n) (buffered io)) as ->.
  { unfold buffered. rewrite take_take. f_equal. lia. }
  destruct (Z.leb_spec n (m_len io - m_idx io)).
  - destruct (Z.eqb_spec (n - Z.min (m_len io - m_idx io) n) 0); [done|lia].
  - destruct (Z.eqb_spec (n - Z.min (m_len io - m_idx io) n) 0); [lia|].
    cbn [m_idx m_len with_idx]. destruct (Z.leb_spec (m_len io) (m_idx io + Z.min (m_len io - m_idx io) n)); [done|lia].
Qed.

(** Once [setbuf] has been called nothing is ever read from the device: a
    read fails with [E_invalid_state] and no byte, whatever the peer has sent,
    and leaves the device as it was; so does every read after it. *)
Theorem buffered_never_reads bufsize n dev (Hn : 0 < n) :
  exists io, nio_read n (setbuf bufsize (nio_init dev)) = Some ((E_invalid_state, [], 0), io) /\
    m_dev io = dev /\ nio_read n io = Some ((E_invalid_state, [], 0), io).
Proof.
  destruct (setbuf_ok bufsize dev) as [Hok Hl]. rewrite buffered_read by done.
  assert (m_idx (setbuf bufsize (nio_init dev)) = 0) as Hi by done. rewrite Hl, Hi. cbn [Z.sub Z.add].
  replace (Z.min 0 n) with 0 by lia. destruct (Z.leb_spec n (0 - 0)); [lia|].
  assert (with_idx (setbuf bufsize (nio_init dev)) (0 + 0) = setbuf bufsize (nio_init dev)) as Hw by done.
  replace (Z.min (0 - 0) n) with 0 by lia. rewrite Hw.
  assert (take (Z.to_nat n) (buffered (setbuf bufsize (nio_init dev))) = []) as Hbuf.
  { unfold buffered. rewrite Hl, Hi. cbn. by destruct (Z.to_nat n). }
  rewrite Hbuf. eexists. split; [reflexivity|]. split; [done|].
  rewrite buffered_read by done. rewrite Hl, Hi. replace (Z.min (0 - 0) n) with 0 by lia. rewrite Hw, Hbuf.
  destruct (Z.leb_spec n (0 - 0)); [lia|]. done.
Qed.
End facts.

(** ** Strings over a byte stream *)
Lemma bytes_int_bytes v : - 2 ^ 31 <= v < 2 ^ 31 -> bytes_int (int_bytes v) = v.
Proof.
  intros Hv. unfold bytes_int, int_bytes. cbn [fmap list_fmap foldl]. rewrite !uchar_schar.
  change (2 ^ (8 * 3)) with 16777216. change (2 ^ (8 * 2)) with 65536. change (2 ^ (8 * 1)) with 256. change (2 ^ (8 * 0)) with 1.
  rewrite Z.div_1_r. unfold wrapS. change (2 ^ 32) with 4294967296. change (2 ^ (32 - 1)) with 2147483648.
  assert ((((0 * 256 + (v / 16777216) mod 256) * 256 + (v / 65536) mod 256) * 256 + (v / 256) mod 256) * 256 + v mod 256
    = v mod 4294967296) as ->.
  { Z.to_euclidean_division_equations. lia. }
  rewrite Zplus_mod_idemp_l, Z.mod_small by lia. lia.
Qed.

Lemma zlen_int_bytes v : zlen (int_bytes v) = 4.
Proof. done. Qed.

(** An unbuffered stream. *)
Definition conn (inp out : bytes) : nio pipe := nio_init {| p_in := inp; p_out := out |}.

Lemma conn_read n inp out : 0 < n ->
  nio_read n (conn inp out) = Some ((E_ok, take (Z.to_nat n) inp, 0), conn (drop (Z.to_nat n) inp) out).
Proof. intros Hn. unfold nio_read, conn. cbn. destruct (Z.leb_spec n 0); [lia|]. done. Qed.

Lemma conn_read_none n inp out : n <= 0 -> nio_read n (conn inp out) = Some ((E_invalid_arg, [], 0), conn inp out).
Proof. intros Hn. unfold nio_read, conn. cbn. destruct (Z.leb_spec n 0); [done|lia]. Qed.

Lemma conn_write data inp out : data <> [] -> nio_write data (conn inp out) = ((E_ok, zlen data, 0), conn inp (out ++ data)).
Proof. intros Hd. destruct data; done. Qed.

(** A string that is not empty and fits an [int], written with
    [write_string], is what [read_string] reads at the other end, whatever
    follows it, and nothing more is consumed.  The empty string is refused by
    the writer after its length has been sent. *)
Theorem string_roundtrip s rest inp out : s <> [] -> zlen s < 2 ^ 31 ->
  exists text, write_string s (conn inp out) = ((E_ok, 0), conn inp (out ++ text)) /\
    read_string (conn (text ++ rest) out) = Some (Some (E_ok, s, 0), conn rest out) /\
    write_string [] (conn inp out) = ((E_invalid_arg, 0), conn inp (out ++ [0; 0; 0; 0])).
Proof.
  intros Hs Hl. pose proof (zlen_nonneg s) as H0.
  assert (int32 (zlen s) = zlen s) as Hi by (apply wrapS_id; lia).
  exists (int_bytes (zlen s) ++ s). split_and!.
  - unfold write_string, write_int. rewrite Hi, conn_write by done.
    rewrite zlen_int_bytes. change (4 =? 4) with true. change (E_ok =? E_ok) with true. cbv iota beta. cbn [negb].
    change (E_ok =? E_ok) with true. cbv iota. rewrite take_ge by (unfold zlen; lia). rewrite conn_write by done.
    change (E_ok =? E_ok) with true. cbv iota beta. rewrite Z.eqb_refl. cbn [negb]. by rewrite <- app_assoc.
  - unfold read_string, read_int. rewrite conn_read by lia. rewrite <- app_assoc.
    rewrite take_app_length', drop_app_length' by done. change (E_ok =? E_ok) with true. cbv iota beta.
    rewrite zlen_int_bytes. change (negb (4 =? 4)) with false. cbv iota. change (E_ok =? E_ok) with true. cbv iota beta.
    rewrite bytes_int_bytes by lia. destruct (Z.ltb_spec (zlen s) 0); [lia|].
    assert (0 < zlen s) by (by apply zlen_pos).
    rewrite conn_read by done. assert (Z.to_nat (zlen s) = length s) as -> by (unfold zlen; lia). rewrite take_app_length, drop_app_length.
    change (E_ok =? E_ok) with true. cbv iota beta. rewrite Z.eqb_refl. done.
  - reflexivity.
Qed.

Lemma string_roundtrip_witness :
  exists text, write_string (bytes_of "hello") (conn [] []) = ((E_ok, 0), conn [] ([] ++ text)) /\
    read_string (conn (text ++ bytes_of "next") []) = Some (Some (E_ok, bytes_of "hello", 0), conn (bytes_of "next") []) /\
    write_string [] (conn [] []) = ((E_invalid_arg, 0), conn [] ([] ++ [0; 0; 0; 0])).
Proof. apply string_roundtrip; [discriminate|reflexivity]. Defined.

Lemma buffered_never_reads_witness :
  exists io, nio_read 4 (setbuf 512 (nio_init {| p_in := bytes_of "data"; p_out := [] |})) = Some ((E_invalid_state, [], 0), io) /\
    m_dev io = {| p_in := bytes_of "data"; p_out := [] |} /\ nio_read 4 io = Some ((E_invalid_state, [], 0), io).
Proof. apply buffered_never_reads. reflexivity. Defined.
