(* ===== verification/Body.v ===== *)
(** * http: message bodies (http/include/common/body.h, http/src/common/body.cpp)

    The sources a body comes from: a buffer, a string, a functor, an input stream
    or a socket.  A body is read by [has_next] and [next] in turn. *)
From S2P Require Import Prelude Effects Numbers UriText Uri Text Scanner.
From S2P Require File.
From S2P Require Import Nio.

Import Scanner.

Definition CHUNKSIZE : Z := 65536.

(** ** What a body reads from

    [readline], [read] of at most a number of bytes, and [get]; each throws what
    the body throws when it fails. *)
Class Source (X : Type) := {
  src_readline : M cpp_exn X bytes;
  src_read : Z -> M cpp_exn X bytes;
  src_getc : M cpp_exn X Z }.

#[export] Instance istream_source : Source istream := {|
  src_readline st := let '(ok, line, st) := readline st in (if ok then Ok line else Throw runtime_error, st);
  src_read n st := let '(ok, buf, st) := read st n in (if ok then Ok buf else Throw runtime_error, st);
  src_getc st := let '(c, st) := is_get_int st in (Ok c, st) |}.

(** The result of an operation of [nio] that the body checks. *)
Definition checked {T A} (o : option ((Z * A * Z) * nio T)) (io : nio T) : res cpp_exn A * nio T :=
  match o with
  | None => (Diverge, io)
  | Some ((retval, a, oserr), io) => (if retval =? File.E_ok then Ok a else Throw (system_error oserr), io)
  end.

#[export] Instance nio_source `{Transport T} : Source (nio T) := {|
  src_readline io := checked (nio_readline io) io;
  src_read n io := checked (nio_read n io) io;
  src_getc io := checked (get_char io) io |}.

(** ** [body_source_istream] and [body_source_socket] *)
Record stream_body (X : Type) := {
  b_src : X; b_size : Z; b_read : Z; b_chunked : bool; b_extensions : param_vec }.
Arguments b_src {X}. Arguments b_size {X}. Arguments b_read {X}. Arguments b_chunked {X}. Arguments b_extensions {X}.

Section stream.
Context `{Source X}.
Abbreviation B := (M cpp_exn (stream_body X)).

(** The constructors without and with a length. *)
Definition chunked_body (src : X) : stream_body X :=
  {| b_src := src; b_size := 0; b_read := 0; b_chunked := true; b_extensions := [] |}.
Definition sized_body (src : X) (size : Z) : stream_body X :=
  {| b_src := src; b_size := size; b_read := 0; b_chunked := false; b_extensions := [] |}.

Definition from_src {A} (m : M cpp_exn X A) : B A :=
  focus b_src (fun src b => {| b_src := src; b_size := b_size b; b_read := b_read b; b_chunked := b_chunked b;
                               b_extensions := b_extensions b |}) m.
Definition set_size (n : Z) : B unit := modify (fun b =>
  {| b_src := b_src b; b_size := n; b_read := b_read b; b_chunked := b_chunked b; b_extensions := b_extensions b |}).
Definition add_read (n : Z) : B unit := modify (fun b =>
  {| b_src := b_src b; b_size := b_size b; b_read := wrapU 64 (b_read b + n); b_chunked := b_chunked b;
     b_extensions := b_extensions b |}).
Definition set_extensions (ps : param_vec) : B unit := modify (fun b =>
  {| b_src := b_src b; b_size := b_size b; b_read := b_read b; b_chunked := b_chunked b; b_extensions := ps |}).

(** A computation on a local scanner, which is returned. *)
Definition on_scanner {A} (m : M cpp_exn scanner A) (scn : scanner) : B (A * scanner) := fun b =>
  match m scn with
  | (Ok a, scn) => (Ok (a, scn), b)
  | (Throw e, _) => (Throw e, b)
  | (Ub, _) => (Ub, b)
  | (Diverge, _) => (Diverge, b)
  end.

(** [if (('\r' != get()) || ('\n' != get())) throw bad_message(...)] *)
Definition expect_crlf : B unit :=
  let! c := from_src src_getc in
  if negb (c =? CR) then throw bad_message
  else
    let! c := from_src src_getc in
    if negb (c =? LF) then throw bad_message else ret tt.

Definition stream_has_next : B bool :=
  let! b := gets (fun b => b) in
  if b_read b <? b_size b then ret true
  else
    (if b_chunked b then
       let! line := from_src src_readline in
       let! (size, scn) := on_scanner read_chunk_size (scan line) in
       match size with
       | None => throw bad_message
       | Some size =>
           set_size size;;
           let! (semi, scn) := on_scanner (read_special (chr ";")) scn in
           let! scn :=
             if semi then
               set_extensions [];;
               let! ((found, ps), scn) := on_scanner read_parameters scn in
               if negb found then throw bad_message else set_extensions ps;; ret scn
             else ret scn in
           let! (eol, scn) := on_scanner read_crlf scn in
           if negb eol then throw bad_message
           else if size =? 0 then expect_crlf else ret tt
       end
     else ret tt);;
    let! b := gets (fun b => b) in
    ret (b_read b <? b_size b).

(** [next]: the data, empty when no byte was read. *)
Definition stream_next : B bytes :=
  let! b := gets (fun b => b) in
  let to_read := int32 (wrapU 64 (b_size b - b_read b)) in
  let to_read := if CHUNKSIZE <? to_read then CHUNKSIZE else to_read in
  let! data := from_src (src_read to_read) in
  add_read (zlen data);;
  let! b := gets (fun b => b) in
  (if b_chunked b && (b_size b <=? b_read b) then expect_crlf else ret tt);;
  ret data.
End stream.

(** ** All the sources

    A functor is the list of the results its calls will have: the return value,
    the data and the extensions. *)
Definition functor := list (Z * bytes * param_vec).

Inductive body (T : Type) :=
  | buffer_source (data : bytes) (m_begin : Z)
  | string_source (data : bytes) (m_begin : Z)
  | functor_source (f : functor) (m_size : Z) (m_buf : bytes) (m_extensions : param_vec)
  | istream_source_of (b : stream_body istream)
  | socket_source_of (b : stream_body (nio T)).
Arguments buffer_source {T}. Arguments string_source {T}. Arguments functor_source {T}.
Arguments istream_source_of {T}. Arguments socket_source_of {T}.

Module Body.
Section body.
Context `{Transport T}.

(** body_factory *)
Definition from_buffer (data : bytes) : body T := buffer_source data 0.
Definition from_string (data : bytes) : body T := string_source data 0.
Definition from_functor (f : functor) : body T := functor_source f 0 [] [].
Definition from_istream_sized (st : istream) (size : Z) : body T := istream_source_of (sized_body st size).
Definition from_istream (st : istream) : body T := istream_source_of (chunked_body st).
Definition from_socket_sized (io : nio T) (size : Z) : body T := socket_source_of (sized_body io size).
Definition from_socket (io : nio T) : body T := socket_source_of (chunked_body io).

Definition chunked (b : body T) : bool :=
  match b with
  | buffer_source _ _ | string_source _ _ => false
  | functor_source _ _ _ _ => true
  | istream_source_of b => b_chunked b
  | socket_source_of b => b_chunked b
  end.

(** [length()] through the base class: the [length] of the stream and socket
    sources is not [const] and does not override it. *)
Definition length (b : body T) : Z :=
  match b with
  | buffer_source data _ | string_source data _ => zlen data
  | functor_source _ _ _ _ | istream_source_of _ | socket_source_of _ => 0
  end.

Definition chunk_extensions (b : body T) : param_vec :=
  match b with
  | buffer_source _ _ | string_source _ _ => []
  | functor_source _ _ _ ext => ext
  | istream_source_of b => b_extensions b
  | socket_source_of b => b_extensions b
  end.

Definition has_next : M cpp_exn (body T) bool := fun b =>
  match b with
  | buffer_source data m_begin | string_source data m_begin => (Ok (m_begin <? zlen data), b)
  | functor_source f m_size m_buf ext =>
      if negb (m_size =? 0) then (Ok true, b)
      else
        match f with
        | [] => (Ub, b)
        | (retval, data, ext) :: f =>
            if retval =? File.E_ok
            then (Ok (negb (zlen data =? 0)), functor_source f (zlen data) data ext)
            else (Throw runtime_error, functor_source f (zlen data) data ext)
        end
  | istream_source_of b => let '(r, b) := stream_has_next b in (r, istream_source_of b)
  | socket_source_of b => let '(r, b) := stream_has_next b in (r, socket_source_of b)
  end.

Definition next : M cpp_exn (body T) bytes := fun b =>
  match b with
  | buffer_source data m_begin =>
      if m_begin <? zlen data then (Ok data, buffer_source data (m_begin + zlen data)) else (Ok [], b)
  | string_source data m_begin =>
      if m_begin <? zlen data then (Ok data, string_source data (m_begin + zlen data)) else (Ok [], b)
  | functor_source f m_size m_buf ext =>
      if m_size =? 0 then (Ok [], b) else (Ok m_buf, functor_source f 0 m_buf ext)
  | istream_source_of b => let '(r, b) := stream_next b in (r, istream_source_of b)
  | socket_source_of b => let '(r, b) := stream_next b in (r, socket_source_of b)
  end.
End body.
End Body.

(** ** Facts (http: what the readers of a body are given)

    Sources of text that satisfy the same laws, bodies of a given length, and
    what becomes of chunks. *)

Import Scanner.

(** ** Sources of text

    [feed t] is a source that holds the text [t].  What the readers of messages
    rely on; a socket and an input stream both provide it. *)
Class TextSource {X} `{Source X} (feed : bytes -> X) := {
  feed_readline w rest : LF ∉ w -> src_readline (feed (w ++ LF :: rest)) = (Ok (w ++ [LF]), feed rest);
  feed_getc c rest : 0 <= c < 128 -> src_getc (feed (c :: rest)) = (Ok c, feed rest) }.

Lemma conn_readline w : forall n line rest out, LF ∉ w -> (length w < n)%nat ->
  readline_loop n line (conn (w ++ LF :: rest) out) = Some ((File.E_ok, line ++ w ++ [LF], 0), conn rest out).
Proof.
  induction w as [|c w IH]; intros [|n] line rest out Hw Hn; simpl in Hn; try lia; cbn [readline_loop]; rewrite conn_read by lia.
  - done.
  - apply not_elem_of_cons in Hw as [Hc Hw].
    change (take (Z.to_nat 1) ((c :: w) ++ LF :: rest)) with [c].
    change (drop (Z.to_nat 1) ((c :: w) ++ LF :: rest)) with (w ++ LF :: rest).
    change (negb (File.E_ok =? File.E_ok)) with false. cbv iota beta. change (zlen [c] =? 1) with true. cbv iota.
    destruct (Z.eqb_spec c 10) as [->|]; [done|]. rewrite IH by (try done; lia). by rewrite <- app_assoc.
Qed.

#[export] Instance conn_text out : TextSource (fun t => conn t out).
Proof.
  split.
  - intros w rest Hw. cbn [src_readline nio_source]. unfold nio_readline.
    assert (pending (m_dev (conn (w ++ LF :: rest) out)) = length (w ++ LF :: rest)) as -> by done.
    rewrite conn_readline; [done|done|]. rewrite length_app. lia.
  - intros c rest Hc. cbn [src_getc nio_source]. unfold get_char. rewrite conn_read by lia. done.
Qed.

(** An input stream that holds a text. *)
Definition stream_of (t : bytes) : istream := {| in_rest := t; in_fail := false |}.

Lemma stream_readline w rest : LF ∉ w -> Scanner.readline_loop (w ++ LF :: rest) = (w ++ [LF], stream_of rest).
Proof.
  induction w as [|c w IH]; intros Hw; cbn [app Scanner.readline_loop]; [done|].
  apply not_elem_of_cons in Hw as [Hc Hw]. destruct (Z.eqb_spec c LF) as [->|]; [done|]. by rewrite IH.
Qed.

#[export] Instance stream_text : TextSource stream_of.
Proof.
  split.
  - intros w rest Hw. cbn [src_readline istream_source]. unfold readline, stream_of. cbn [in_fail in_rest].
    by rewrite stream_readline.
  - intros c rest Hc. cbn [src_getc istream_source]. unfold is_get_int, is_get, stream_of. cbn [in_fail in_rest].
    unfold wrapU. rewrite Z.mod_small by (change (2 ^ 8) with 256; lia). done.
Qed.

(** ** The reading loop

    [while (b->has_next()) { data = b->next(datalen); ... }], as body.h says: the
    pieces of data. *)
Fixpoint drain {B} (has_next : M cpp_exn B bool) (next : M cpp_exn B bytes) (fuel : nat) : M cpp_exn B (list bytes) :=
  match fuel with
  | O => diverge
  | Datatypes.S fuel =>
      let! more := has_next in
      if more then let! d := next in let! ds := drain has_next next fuel in ret (d :: ds) else ret []
  end.

(** A piece of data: not empty, at most as long as the buffer. *)
Definition piece (d : bytes) : Prop := 0 < zlen d <= CHUNKSIZE.

(** A body with its source and its counts. *)
Definition body_at {X} (src : X) (size rd : Z) (chunked : bool) (ext : param_vec) : stream_body X :=
  {| b_src := src; b_size := size; b_read := rd; b_chunked := chunked; b_extensions := ext |}.

(** How many bytes [next] asks for. *)
Lemma ask_range size rd : 0 <= rd < size -> size < 2 ^ 31 ->
  let to_read := int32 (wrapU 64 (size - rd)) in
  (if CHUNKSIZE <? to_read then CHUNKSIZE else to_read) = Z.min CHUNKSIZE (size - rd).
Proof.
  intros Hr Hs. cbn zeta. rewrite wrapU_id by lia. rewrite wrapS_id by lia. destruct (Z.ltb_spec CHUNKSIZE (size - rd)); lia.
Qed.

Section socket.
Context (out : bytes).

Lemma socket_read n inp : 0 < n ->
  src_read n (conn inp out) = (Ok (take (Z.to_nat n) inp), conn (drop (Z.to_nat n) inp) out).
Proof. intros Hn. cbn [src_read nio_source]. rewrite conn_read by done. done. Qed.

(** [next] on a socket with [a] bytes to be read before [b]. *)
Lemma socket_next n size rd chunked ext a b : CHUNKSIZE = Z.of_nat n ->
  0 <= rd -> size = rd + zlen a -> a <> [] -> size < 2 ^ 31 ->
  stream_next (body_at (conn (a ++ b) out) size rd chunked ext) =
    if chunked && (length a <=? n)%nat
    then bind expect_crlf (fun _ => ret a) (body_at (conn b out) size size chunked ext)
    else (Ok (take n a), body_at (conn (drop n a ++ b) out) size (rd + zlen (take n a)) chunked ext).
Proof.
  intros Hn Hr Hsz Ha Hs. pose proof (zlen_pos a ltac:(done)) as Hpos.
  unfold stream_next. rewrite bind_gets. cbn [b_size b_read body_at].
  pose proof (ask_range size rd ltac:(lia) Hs) as Hask. cbv zeta in Hask. cbv zeta. rewrite Hask.
  replace (size - rd) with (zlen a) by lia.
  assert (0 < Z.min CHUNKSIZE (zlen a)) as Hm by (unfold CHUNKSIZE; lia).
  unfold from_src. unfold bind at 1. unfold focus. cbn [b_src body_at]. rewrite socket_read by done. cbv iota beta.
  assert (Z.to_nat (Z.min CHUNKSIZE (zlen a)) = Nat.min n (length a)) as -> by (unfold zlen; lia).
  assert (take (Nat.min n (length a)) (a ++ b) = take n a) as ->.
  { rewrite <- take_take, (take_app_le _ _ (length a)), firstn_all by done. done. }
  assert (drop (Nat.min n (length a)) (a ++ b) = drop n a ++ b) as ->.
  { rewrite drop_app_le by lia. f_equal. destruct (Nat.min_spec n (length a)) as [[? ->]|[? ->]]; [done|].
    rewrite !drop_ge by lia. done. }
  unfold add_read, modify, bind, gets, ret. cbn [b_src b_size b_read b_chunked b_extensions body_at].
  assert (zlen (take n a) = Z.of_nat (Nat.min n (length a))) as Hz by (unfold zlen; rewrite length_take; done).
  rewrite wrapU_id by (rewrite Hz; unfold zlen in *; lia).
  destruct chunked; cbn [andb]; [|done].
  destruct (Nat.leb_spec (length a) n).
  - rewrite take_ge, drop_ge by done. rewrite <- Hsz, Z.leb_refl. reflexivity.
  - destruct (Z.leb_spec size (rd + zlen (take n a))); [rewrite Hz in *; unfold zlen in *; lia|]. reflexivity.
Qed.

Lemma has_next_more {X} `{Source X} (src : X) size rd chunked ext : rd < size ->
  stream_has_next (body_at src size rd chunked ext) = (Ok true, body_at src size rd chunked ext).
Proof.
  intros Hlt. unfold stream_has_next. rewrite bind_gets. cbn [b_size b_read body_at].
  destruct (Z.ltb_spec rd size); [done|lia].
Qed.

Lemma has_next_sized {X} `{Source X} (src : X) size rd ext : size <= rd ->
  stream_has_next (body_at src size rd false ext) = (Ok false, body_at src size rd false ext).
Proof.
  intros Hlt. unfold stream_has_next. rewrite bind_gets. cbn [b_size b_read b_chunked body_at].
  destruct (Z.ltb_spec rd size); [lia|]. unfold bind, ret, gets. cbn [b_size b_read body_at]. destruct (Z.ltb_spec rd size); [lia|done].
Qed.
End socket.

(** ** The head of a chunk *)
Lemma hex_digit_char d : 0 <= d < 16 -> isxdigit (digit_char d) = true /\ xdigit_value (digit_char d) = d.
Proof.
  assert (forallb (fun d => isxdigit (digit_char d) && (xdigit_value (digit_char d) =? d)) (seqZ 0 16) = true) as Hall by reflexivity.
  intros Hd. rewrite forallb_forall in Hall. specialize (Hall d).
  rewrite <- list_elem_of_In, elem_of_seqZ in Hall. apply andb_prop in Hall as [? ?%Z.eqb_eq]; [done|lia].
Qed.

Lemma print_hex n : 0 <= n -> Forall (fun c => isxdigit c = true) (print_uint 16 n) /\
  value_of 16 (xdigit_value <$> print_uint 16 n) = n /\ print_uint 16 n <> [].
Proof.
  intros Hn. pose proof (digits_range 16 ltac:(lia) n Hn) as Hr. pose proof (digits_value 16 ltac:(lia) n Hn) as Hv. unfold print_uint. split_and!.
  - apply Forall_fmap. eapply Forall_impl; [exact Hr|]. intros d Hd. by apply hex_digit_char.
  - assert (xdigit_value <$> (digit_char <$> digits 16 n) = digits 16 n) as ->; [|done].
    rewrite <- list_fmap_compose. rewrite <- (list_fmap_id (digits 16 n)) at 2. apply Forall_fmap_ext_1.
    eapply Forall_impl; [exact Hr|]. intros d Hd. by apply hex_digit_char.
  - destruct (decide (n = 0)) as [->|]; [discriminate|]. intros E. apply fmap_nil_inv in E. rewrite E in Hv. cbn in Hv. lia.
Qed.

(** The scanner on the head of a chunk without extensions. *)
Lemma read_chunk_size_on n : 0 <= n < 2 ^ 63 ->
  read_chunk_size (scan (print_uint 16 n ++ crlf)) = (Ok (Some n), on (print_uint 16 n) crlf).
Proof.
  intros Hn. destruct (print_hex n) as (Hx & Hv & Hne); [lia|]. rewrite scan_on. unfold read_chunk_size.
  erewrite bind_Ok; [|apply read_while_on; [reflexivity|exact Hx|reflexivity]].
  destruct (print_uint 16 n) as [|c w] eqn:E; [done|]. rewrite <- E in *. assert (nonempty (print_uint 16 n) = true) as -> by (by rewrite E).
  cbv zeta. rewrite Hv. destruct (Z.ltb_spec n (2 ^ 63)); [|lia]. rewrite app_nil_l. done.
Qed.

Section chunks.
Context `{TextSource X feed}.

Lemma expect_crlf_on rest size rd chunked ext :
  expect_crlf (body_at (feed (crlf ++ rest)) size rd chunked ext) = (Ok tt, body_at (feed rest) size rd chunked ext).
Proof.
  unfold expect_crlf, from_src, bind, focus. cbn [b_src body_at crlf app].
  rewrite feed_getc by (unfold CR; lia). cbn. rewrite feed_getc by (unfold LF; lia). done.
Qed.

(** [has_next] at the head of a chunk of [n] bytes: the size is the new one, the
    count of bytes read is still that of the chunk before. *)
Lemma has_next_chunk n size rd ext rest : size <= rd -> 0 <= n < 2 ^ 63 ->
  stream_has_next (body_at (feed (print_uint 16 n ++ crlf ++ rest)) size rd true ext) =
    if n =? 0 then bind expect_crlf (fun _ => ret (rd <? 0)) (body_at (feed rest) 0 rd true ext)
    else (Ok (rd <? n), body_at (feed rest) n rd true ext).
Proof.
  intros Hsz Hn. destruct (print_hex n) as (Hx & _ & Hne); [lia|].
  unfold stream_has_next. rewrite bind_gets. cbn [b_read b_size body_at]. destruct (Z.ltb_spec rd size); [lia|].
  cbn [b_chunked body_at].
  assert (LF ∉ print_uint 16 n ++ [CR]) as Hlf.
  { rewrite elem_of_app. intros [Hi|Hi]; [|by apply list_elem_of_singleton in Hi].
    rewrite Forall_forall in Hx. by specialize (Hx _ Hi). }
  assert (print_uint 16 n ++ crlf ++ rest = (print_uint 16 n ++ [CR]) ++ LF :: rest) as -> by (by rewrite <- app_assoc).
  unfold from_src. unfold bind at 1. unfold bind at 1. unfold focus. cbn [b_src body_at]. rewrite feed_readline by done. cbv iota beta.
  rewrite <- app_assoc. change ([CR] ++ [LF]) with crlf.
  unfold bind at 1. unfold on_scanner at 1. rewrite read_chunk_size_on by done. cbv iota beta.
  unfold set_size, modify. unfold bind at 1. cbv iota beta. unfold bind at 1. unfold on_scanner at 1.
  assert (read_special (chr ";") (on (print_uint 16 n) crlf) = (Ok false, on (print_uint 16 n) crlf)) as -> by (apply read_special_ne; discriminate).
  cbv iota beta. unfold bind at 1. unfold ret at 1. unfold bind at 1. unfold on_scanner at 1. rewrite read_crlf_on. cbv iota beta. cbn [negb].
  unfold body_at. cbn [b_src b_size b_read b_chunked b_extensions]. destruct (Z.eqb_spec n 0) as [->|].
  - unfold bind. destruct (expect_crlf _) as [[[]| | |] b] eqn:E; try reflexivity.
    unfold gets, ret. f_equal. f_equal.
    assert (b_read b = rd /\ b_size b = 0) as [-> ->]; [|done].
    revert E. unfold expect_crlf, from_src, bind, focus, throw, ret. cbn [b_src].
    repeat (destruct (src_getc _) as [[]]; cbn [b_src]; try discriminate; destruct (negb _); try discriminate).
    intros E. by simplify_eq.
  - reflexivity.
Qed.

(** A chunk of data, and the last chunk. *)
Definition chunk_text (d : bytes) : bytes := print_uint 16 (zlen d) ++ crlf ++ d ++ crlf.
Definition last_text : bytes := print_uint 16 0 ++ crlf ++ crlf.
End chunks.

(** ** Draining a body on a socket *)

(** The pieces read before the result of the rest of the loop. *)
Definition prepend {X} (ps : list bytes) (r : res cpp_exn (list bytes) * X) : res cpp_exn (list bytes) * X :=
  (match r.1 with Ok ds => Ok (ps ++ ds) | Throw e => Throw e | Ub => Ub | Diverge => Diverge end, r.2).

Local Notation "'drain_stream'" := (drain stream_has_next stream_next).

(** The data up to the size of a body or of a chunk. *)
Lemma drain_data out (chunked : bool) ext k : forall a size rd tail, (length a <= k)%nat ->
  0 <= rd -> size = rd + zlen a -> a <> [] -> size < 2 ^ 31 ->
  exists ps, concat ps = a /\ Forall piece ps /\ (length ps <= length a)%nat /\ forall fuel,
    drain_stream (length ps + fuel) (body_at (conn (a ++ (if chunked then crlf ++ tail else tail)) out) size rd chunked ext) =
      prepend ps (drain_stream fuel (body_at (conn tail out) size size chunked ext)).
Proof.
  induction k as [|k IH]; intros a size rd tail Hk Hr Hsz Ha Hs; [destruct a; [done|simpl in Hk; lia]|].
  destruct (Z_of_nat_complete CHUNKSIZE) as [n Hn]; [done|].
  pose proof (zlen_pos a ltac:(done)) as Hpos.
  assert (piece (take n a)) as Hp.
  { unfold piece, zlen in *. rewrite length_take. change CHUNKSIZE with 65536 in *. lia. }
  destruct (decide (length a <= n)%nat) as [Hle|Hgt].
  - exists [a]. rewrite take_ge in Hp by done. split_and!; [simpl; apply app_nil_r|by constructor|unfold zlen in *; simpl; lia|].
    intros fuel. cbn [length plus drain]. erewrite bind_Ok; [|apply has_next_more; lia]. cbv iota.
    unfold bind at 1. rewrite (socket_next out n) by (done || lia). destruct (Nat.leb_spec (length a) n); [|lia].
    destruct chunked; cbn [andb].
    + erewrite bind_Ok by apply (expect_crlf_on (feed := fun t => conn t out)). cbv iota beta. unfold ret at 1.
      unfold bind, prepend. by destruct (drain_stream fuel _) as [[]].
    + rewrite drop_ge by done. rewrite take_ge by done. cbn [app]. rewrite <- Hsz.
      unfold bind, prepend. by destruct (drain_stream fuel _) as [[]].
  - assert (drop n a <> []) as Hd by (intros E; apply (f_equal length) in E; rewrite length_drop in E; simpl in E; lia).
    assert (zlen a = zlen (take n a) + zlen (drop n a)) as Hza by (rewrite <- zlen_app, take_drop; done).
    destruct (IH (drop n a) size (rd + zlen (take n a)) tail) as (ps & Hc & Hf & Hl & Hdr); [..|exists (take n a :: ps)].
    + rewrite length_drop. change CHUNKSIZE with 65536 in Hn. lia.
    + pose proof (zlen_nonneg (take n a)). lia.
    + lia.
    + done.
    + done.
    + split_and!; [simpl; rewrite Hc; apply take_drop|by constructor|cbn [length]; rewrite length_drop in Hl; change CHUNKSIZE with 65536 in Hn; lia|].
      intros fuel. cbn [length plus drain]. erewrite bind_Ok; [|apply has_next_more; lia]. cbv iota.
      unfold bind at 1. rewrite (socket_next out n) by (done || lia). destruct (Nat.leb_spec (length a) n); [lia|].
      rewrite andb_false_r. cbv iota beta. unfold bind. rewrite Hdr. unfold prepend. by destruct (drain_stream fuel _) as [[]].
Qed.

(** C16. A body of a given length on a connection: the reading loop of body.h ends
    with the pieces of exactly that many bytes, none empty or longer than the
    buffer, and leaves what follows in the connection, for less than 2^31 bytes.
    A length that is not positive when it is converted to [int], as are all from
    2^31 to 2^32 - 1, makes the first [next] throw. *)
Theorem sized_body_drains data rest out (Hd : zlen data < 2 ^ 31) :
  (exists ps b, drain_stream (Datatypes.S (length data)) (sized_body (conn (data ++ rest) out) (zlen data)) = (Ok ps, b) /\
    b_src b = conn rest out /\ concat ps = data /\ Forall piece ps) /\
  (forall size, 2 ^ 31 <= size < 2 ^ 32 -> int32 size <= 0) /\
  forall size, 0 < size < 2 ^ 64 -> int32 size <= 0 ->
    exists b, bind stream_has_next (fun _ => stream_next) (sized_body (conn (data ++ rest) out) size) = (Throw (system_error 0), b).
Proof.
  split; [|split].
  - destruct (decide (data = [])) as [->|Hne].
    { exists [], (sized_body (conn rest out) 0). done. }
    destruct (drain_data out false [] (length data) data (zlen data) 0 rest) as (ps & Hc & Hf & Hl & Hdr); try done.
    specialize (Hdr (Datatypes.S (length data) - length ps)%nat).
    replace (length ps + (Datatypes.S (length data) - length ps))%nat with (Datatypes.S (length data)) in Hdr by lia.
    exists ps, (body_at (conn rest out) (zlen data) (zlen data) false []). split_and!; [|done..].
    change (sized_body (conn (data ++ rest) out) (zlen data)) with (body_at (conn (data ++ rest) out) (zlen data) 0 false []).
    rewrite Hdr. replace (Datatypes.S (length data) - length ps)%nat with (Datatypes.S (length data - length ps)) by lia.
    cbn [drain]. unfold bind. rewrite has_next_sized by lia. unfold prepend, ret. cbn [fst snd]. by rewrite app_nil_r.
  - intros size Hsize. unfold wrapS.
    rewrite <- (Z.mod_unique (size + 2 ^ (32 - 1)) (2 ^ 32) 1 (size + 2 ^ (32 - 1) - 2 ^ 32)); lia.
  - intros size Hsize Hneg. change (sized_body (conn (data ++ rest) out) size) with (body_at (conn (data ++ rest) out) size 0 false []).
    erewrite bind_Ok by (apply has_next_more; lia). unfold stream_next. rewrite bind_gets. cbn [b_size b_read body_at].
    rewrite Z.sub_0_r, wrapU_id by lia. revert Hneg. generalize (int32 size) as n. intros n Hn.
    cbv zeta. destruct (Z.ltb_spec CHUNKSIZE n); [unfold CHUNKSIZE in *; lia|].
    unfold from_src, bind, focus. cbn [b_src body_at src_read nio_source].
    assert (nio_read n (conn (data ++ rest) out) = Some ((File.E_invalid_arg, [], 0), conn (data ++ rest) out)) as ->.
    { apply conn_read_none. lia. }
    eexists. reflexivity.
Qed.

(** The first chunk: its data, then what [has_next] makes of the next head. *)
Lemma drain_first_chunk out d tail (Hd : d <> []) (Hl : zlen d < 2 ^ 31) :
  exists ps, concat ps = d /\ Forall piece ps /\ (length ps <= length d)%nat /\ forall fuel,
    drain_stream (Datatypes.S (length ps + fuel)) (chunked_body (conn (chunk_text d ++ tail) out)) =
      prepend ps (drain_stream (Datatypes.S fuel) (body_at (conn tail out) (zlen d) (zlen d) true [])).
Proof.
  pose proof (zlen_pos d ltac:(done)) as Hpos.
  destruct (drain_data out true [] (length d) d (zlen d) 0 tail) as (ps & Hc & Hf & Hlen & Hdr); try (done || lia).
  exists ps. split_and!; [done..|]. intros fuel.
  rewrite <- Hdr. rewrite Nat.add_succ_r. cbn [drain]. unfold bind.
  change (chunked_body (conn (chunk_text d ++ tail) out)) with (body_at (conn (chunk_text d ++ tail) out) 0 0 true []).
  unfold chunk_text. rewrite <- !app_assoc. rewrite (has_next_chunk (feed := fun t => conn t out)) by lia.
  destruct (Z.eqb_spec (zlen d) 0); [lia|]. rewrite has_next_more by lia. destruct (Z.ltb_spec 0 (zlen d)); [|lia]. done.
Qed.

(** A chunked body on a connection is received when it has one chunk.  The
    count of bytes read is never reset, so a second chunk that is not longer than
    the first one ends the reading loop: its data stays unread in the connection
    and the reader takes the body for complete. *)
Theorem second_chunk_lost d rest out (Hd : d <> []) (Hl : zlen d < 2 ^ 31) :
  (exists ps b, drain_stream (Datatypes.S (Datatypes.S (length d))) (chunked_body (conn (chunk_text d ++ last_text ++ rest) out)) = (Ok ps, b) /\
    b_src b = conn rest out /\ concat ps = d /\ Forall piece ps) /\
  forall d2, d2 <> [] -> zlen d2 <= zlen d ->
    exists ps b, drain_stream (Datatypes.S (Datatypes.S (length d))) (chunked_body (conn (chunk_text d ++ chunk_text d2 ++ rest) out)) = (Ok ps, b) /\
      b_src b = conn (d2 ++ crlf ++ rest) out /\ concat ps = d /\ Forall piece ps.
Proof.
  assert (forall tail b, stream_has_next (body_at (conn tail out) (zlen d) (zlen d) true []) = (Ok false, b) ->
    exists ps, drain_stream (Datatypes.S (Datatypes.S (length d))) (chunked_body (conn (chunk_text d ++ tail) out)) = (Ok ps, b) /\
      concat ps = d /\ Forall piece ps) as Hend.
  { intros tail b Hb. destruct (drain_first_chunk out d tail Hd Hl) as (ps & Hc & Hf & Hlen & Hdr).
    exists ps. split_and!; [|done..].
    replace (Datatypes.S (Datatypes.S (length d))) with (Datatypes.S (length ps + Datatypes.S (length d - length ps))) by lia.
    rewrite Hdr. cbn [drain]. unfold bind. rewrite Hb. unfold prepend, ret. cbn [fst snd]. by rewrite app_nil_r. }
  pose proof (zlen_nonneg d) as H0. split.
  - destruct (Hend (last_text ++ rest) (body_at (conn rest out) 0 (zlen d) true [])) as (ps & ? & ? & ?); [|by eauto 6].
    unfold last_text. rewrite <- !app_assoc. rewrite (has_next_chunk (feed := fun t => conn t out)) by lia. change (0 =? 0) with true. cbv iota.
    erewrite bind_Ok by apply (expect_crlf_on (feed := fun t => conn t out)). destruct (Z.ltb_spec (zlen d) 0); [lia|done].
  - intros d2 Hd2 Hle. pose proof (zlen_pos d2 ltac:(done)).
    destruct (Hend (chunk_text d2 ++ rest) (body_at (conn (d2 ++ crlf ++ rest) out) (zlen d2) (zlen d) true [])) as (ps & ? & ? & ?); [|by eauto 6].
    unfold chunk_text. rewrite <- !app_assoc. rewrite (has_next_chunk (feed := fun t => conn t out)) by lia.
    destruct (Z.eqb_spec (zlen d2) 0); [lia|]. destruct (Z.ltb_spec (zlen d) (zlen d2)); [lia|done].
Qed.

(** ** Bodies on input streams *)
Lemma stream_read_loop a : forall n to_read rest, to_read = n + zlen a ->
  Scanner.read_loop (a ++ rest) n to_read =
    (a, match rest with [] => {| in_rest := []; in_fail := true |} | _ :: rest => stream_of rest end).
Proof.
  induction a as [|c a IH]; intros n to_read rest Hn.
  - destruct rest as [|c rest]; cbn [app Scanner.read_loop]; [done|]. change (zlen []) with 0 in Hn.
    destruct (Z.ltb_spec n to_read); [lia|done].
  - rewrite zlen_cons in Hn. cbn [app Scanner.read_loop]. pose proof (zlen_nonneg a).
    destruct (Z.ltb_spec n to_read); [|lia]. rewrite (IH (n + 1) to_read rest) by lia. done.
Qed.

(** [read] takes one character more than it was asked for; at the end of the
    stream it fails although it has read what it was asked for. *)
Lemma stream_src_read a rest : src_read (zlen a) (stream_of (a ++ rest)) =
  match rest with
  | [] => (Throw runtime_error, {| in_rest := []; in_fail := true |})
  | _ :: rest => (Ok a, stream_of rest)
  end.
Proof.
  cbn [src_read istream_source]. unfold read. cbn [in_fail in_rest stream_of].
  rewrite stream_read_loop by lia. by destruct rest.
Qed.

(** The data of a body on an input stream is one character too long: behind a
    body of a given length the next character of the stream is lost, a body that
    ends the stream is refused, and no chunk is received, since the character
    that was taken belongs to the end of line behind the data. *)
Theorem stream_body_reads_too_far d (Hd : d <> []) (Hl : zlen d <= CHUNKSIZE) :
  let step := bind stream_has_next (fun _ => stream_next) in
  (forall c rest, exists b, step (sized_body (stream_of (d ++ c :: rest)) (zlen d)) = (Ok d, b) /\ b_src b = stream_of rest) /\
  (exists b, step (sized_body (stream_of d) (zlen d)) = (Throw runtime_error, b)) /\
  forall rest, exists b, step (chunked_body (stream_of (chunk_text d ++ rest))) = (Throw bad_message, b).
Proof.
  pose proof (zlen_pos d ltac:(done)) as Hpos.
  assert (forall (r : bytes) chunked, stream_next (body_at (stream_of (d ++ r)) (zlen d) 0 chunked []) =
    match r with
    | [] => (Throw runtime_error, body_at {| in_rest := []; in_fail := true |} (zlen d) 0 chunked [])
    | _ :: r => bind (if chunked then expect_crlf else ret tt) (fun _ => ret d) (body_at (stream_of r) (zlen d) (zlen d) chunked [])
    end) as Hnext.
  { intros r chunked. unfold stream_next. rewrite bind_gets. cbn [b_size b_read body_at].
    pose proof (ask_range (zlen d) 0 ltac:(lia) ltac:(unfold CHUNKSIZE in Hl; lia)) as Hask. cbv zeta in Hask. cbv zeta. rewrite Hask.
    replace (Z.min CHUNKSIZE (zlen d - 0)) with (zlen d) by lia. unfold from_src. unfold bind at 1. unfold focus. cbn [b_src body_at].
    rewrite stream_src_read. destruct r as [|c r]; [done|]. cbv iota beta.
    unfold add_read, modify. unfold bind at 1. cbv iota beta. rewrite bind_gets. cbn [b_src b_size b_read b_chunked b_extensions body_at].
    rewrite wrapU_id by (unfold CHUNKSIZE in Hl; lia). rewrite Z.add_0_l, Z.leb_refl, andb_true_r. by destruct chunked. }
  cbv zeta. split_and!.
  - intros c rest. exists (body_at (stream_of rest) (zlen d) (zlen d) false []). split; [|done].
    change (sized_body ?s ?n) with (body_at s n 0 false []). erewrite bind_Ok by (apply has_next_more; lia). by rewrite Hnext.
  - eexists. change (sized_body ?s ?n) with (body_at s n 0 false []). erewrite bind_Ok by (apply has_next_more; lia).
    rewrite <- (app_nil_r d) at 1. by rewrite Hnext.
  - intros rest. eexists. change (chunked_body ?s) with (body_at s 0 0 true []).
    unfold chunk_text. rewrite <- !app_assoc. unfold bind at 1. rewrite (has_next_chunk (feed := stream_of)) by (unfold CHUNKSIZE in Hl; lia).
    destruct (Z.eqb_spec (zlen d) 0); [lia|]. cbv iota beta. rewrite Hnext. unfold crlf. cbn [app]. cbv iota beta.
    unfold bind at 1. unfold expect_crlf at 1. unfold from_src, bind, focus. cbn [b_src body_at].
    rewrite feed_getc by (unfold LF; lia). reflexivity.
Qed.

(** ** Witnesses *)
Lemma sized_body_drains_witness :
  zlen (bytes_of "hello") < 2 ^ 31 /\
  ((exists ps b, drain_stream 6 (sized_body (conn (bytes_of "hello" ++ bytes_of "GET /") []) 5) = (Ok ps, b) /\
    b_src b = conn (bytes_of "GET /") [] /\ concat ps = bytes_of "hello" /\ Forall piece ps) /\
  (forall size, 2 ^ 31 <= size < 2 ^ 32 -> int32 size <= 0) /\
  forall size, 0 < size < 2 ^ 64 -> int32 size <= 0 ->
    exists b, bind stream_has_next (fun _ => stream_next) (sized_body (conn (bytes_of "hello" ++ bytes_of "GET /") []) size) = (Throw (system_error 0), b)).
Proof. split; [reflexivity|]. apply (sized_body_drains (bytes_of "hello")). reflexivity. Defined.

Lemma second_chunk_lost_witness :
  bytes_of "hello" <> [] /\ zlen (bytes_of "hello") < 2 ^ 31 /\
  ((exists ps b, drain_stream 7 (chunked_body (conn (chunk_text (bytes_of "hello") ++ last_text ++ []) [])) = (Ok ps, b) /\
    b_src b = conn [] [] /\ concat ps = bytes_of "hello" /\ Forall piece ps) /\
  forall d2, d2 <> [] -> zlen d2 <= zlen (bytes_of "hello") ->
    exists ps b, drain_stream 7 (chunked_body (conn (chunk_text (bytes_of "hello") ++ chunk_text d2 ++ []) [])) = (Ok ps, b) /\
      b_src b = conn (d2 ++ crlf ++ []) [] /\ concat ps = bytes_of "hello" /\ Forall piece ps).
Proof. split; [discriminate|]. split; [reflexivity|]. apply (second_chunk_lost (bytes_of "hello") [] []); [discriminate|reflexivity]. Defined.

Lemma stream_body_reads_too_far_witness :
  bytes_of "hello" <> [] /\ zlen (bytes_of "hello") <= CHUNKSIZE /\
  let step := bind stream_has_next (fun _ => stream_next) in
  (forall c rest, exists b, step (sized_body (stream_of (bytes_of "hello" ++ c :: rest)) (zlen (bytes_of "hello"))) = (Ok (bytes_of "hello"), b) /\ b_src b = stream_of rest) /\
  (exists b, step (sized_body (stream_of (bytes_of "hello")) (zlen (bytes_of "hello"))) = (Throw runtime_error, b)) /\
  forall rest, exists b, step (chunked_body (stream_of (chunk_text (bytes_of "hello") ++ rest))) = (Throw bad_message, b).
Proof. split; [discriminate|]. split; [discriminate|]. apply (stream_body_reads_too_far (bytes_of "hello")); discriminate. Defined.
