(* ===== verification/Message.v ===== *)
(** * http: requests and responses (http/include/common/{method,status,message,request,response}.h
    and http/src/common/{method,status,message,request,response}.cpp)

    The parts of messages, their first lines, the builders that read them from a
    stream or a socket, and their validation. *)
From S2P Require Import Prelude Effects Numbers UriText Uri.
From S2P Require Import Text Timeutil Scanner Hval Headers Nio Body.
From S2P Require Import UriRoundTrip.
From S2P Require Import HeadersSpec HvalText.

Import Scanner.

(** ** Methods *)
Inductive method_type := M_GET | M_HEAD | M_POST | M_PUT | M_DELETE | M_CONNECT | M_OPTIONS | M_TRACE.
#[export] Instance method_type_eq_dec : EqDecision method_type.
Proof. solve_decision. Defined.

(** [method(method_type)] *)
Definition method_name (m : method_type) : bytes :=
  match m with
  | M_GET => bytes_of "GET" | M_HEAD => bytes_of "HEAD" | M_POST => bytes_of "POST" | M_PUT => bytes_of "PUT"
  | M_DELETE => bytes_of "DELETE" | M_CONNECT => bytes_of "CONNECT" | M_OPTIONS => bytes_of "OPTIONS"
  | M_TRACE => bytes_of "TRACE"
  end.

(** [method(const std::string &)] *)
Definition parse_method (str : bytes) : res cpp_exn method_type :=
  if bool_decide (str = bytes_of "GET") then Ok M_GET
  else if bool_decide (str = bytes_of "HEAD") then Ok M_HEAD
  else if bool_decide (str = bytes_of "POST") then Ok M_POST
  else if bool_decide (str = bytes_of "PUT") then Ok M_PUT
  else if bool_decide (str = bytes_of "DELETE") then Ok M_DELETE
  else if bool_decide (str = bytes_of "CONNECT") then Ok M_CONNECT
  else if bool_decide (str = bytes_of "OPTIONS") then Ok M_OPTIONS
  else if bool_decide (str = bytes_of "TRACE") then Ok M_TRACE
  else Throw bad_message.

(** ** Status codes, as numbers *)
Definition reason_phrase (s : Z) : option bytes :=
  match s with
  | 100 => Some (bytes_of "Continue")
  | 101 => Some (bytes_of "Switching Protocols")
  | 200 => Some (bytes_of "OK")
  | 201 => Some (bytes_of "Created")
  | 202 => Some (bytes_of "Accepted")
  | 203 => Some (bytes_of "Non-Authoritative Information")
  | 204 => Some (bytes_of "No Content")
  | 205 => Some (bytes_of "Reset Content")
  | 206 => Some (bytes_of "Partial Content")
  | 300 => Some (bytes_of "Multiple Choices")
  | 301 => Some (bytes_of "Moved Permanently")
  | 302 => Some (bytes_of "Found")
  | 303 => Some (bytes_of "See Other")
  | 304 => Some (bytes_of "Not Modified")
  | 305 => Some (bytes_of "Use Proxy")
  | 307 => Some (bytes_of "Temporary Redirect")
  | 400 => Some (bytes_of "Bad Request")
  | 401 => Some (bytes_of "Unauthorized")
  | 402 => Some (bytes_of "Payment Required")
  | 403 => Some (bytes_of "Forbidden")
  | 404 => Some (bytes_of "Not Found")
  | 405 => Some (bytes_of "Method Not Allowed")
  | 406 => Some (bytes_of "Not Acceptable")
  | 407 => Some (bytes_of "Proxy Authentication Required")
  | 408 => Some (bytes_of "Request Timeout")
  | 409 => Some (bytes_of "Conflict")
  | 410 => Some (bytes_of "Gone")
  | 411 => Some (bytes_of "Length Required")
  | 412 => Some (bytes_of "Precondition Failed")
  | 413 => Some (bytes_of "Payload Too Large")
  | 414 => Some (bytes_of "URI Too Long")
  | 415 => Some (bytes_of "Unsupported Media Type")
  | 416 => Some (bytes_of "Range Not Satisfiable")
  | 417 => Some (bytes_of "Expectation Failed")
  | 426 => Some (bytes_of "Upgrade Required")
  | 500 => Some (bytes_of "Internal Server Error")
  | 501 => Some (bytes_of "Not Implemented")
  | 502 => Some (bytes_of "Bad Gateway")
  | 503 => Some (bytes_of "Service Unavailable")
  | 504 => Some (bytes_of "Gateway Timeout")
  | 505 => Some (bytes_of "HTTP Version Not Supported")
  | _ => None
  end.

Definition HTTP_VERSION_NOT_SUPPORTED : Z := 505.
Definition is_info_status (s : Z) : bool := (100 <=? s) && (s <? 200).
Definition is_success_status (s : Z) : bool := (200 <=? s) && (s <? 300).
Definition is_error_status (s : Z) : bool := 400 <=? s.

(** The check of the version of both first lines. *)
Definition check_version (v : version) : res cpp_exn unit :=
  if negb (bool_decide (m_protocol v = http_protocol)) then Throw bad_message
  else if negb (m_major v =? MAJOR_VERSION) || negb (m_minor v =? MINOR_VERSION)
  then Throw (http_exception HTTP_VERSION_NOT_SUPPORTED)
  else Ok tt.

Section messages.
Context `{Transport T} (net : inet) (lib : DateTime.clock).
Abbreviation headers := (list (bytes * base_value)).

(** ** message.cpp *)

(** [std::find(l.begin(), l.end(), token(name))] and [erase] of what it finds. *)
Fixpoint erase_token (name : bytes) (l : list token) : option (list token) :=
  match l with
  | [] => None
  | t :: l => if bool_decide (t_name t = name) then Some l else cons t <$> erase_token name l
  end.

Definition chunked_token : token := {| t_name := Headers.TRANSFER_ENCODING_CHUNKED; t_parameters := [] |}.

(** [validate_length_chunkiness] *)
Definition validate_length_chunkiness (b : option (body T)) (hdrs : headers) : res cpp_exn headers :=
  match b with
  | None => Ok hdrs
  | Some b =>
      if Body.chunked b then
        let hdrs := Headers.remove Headers.CONTENT_LENGTH hdrs in
        if Headers.is_set Headers.TRANSFER_ENCODING hdrs then
          let? encodings := Headers.transfer_encoding hdrs in
          match erase_token Headers.TRANSFER_ENCODING_CHUNKED encodings with
          | None => Headers.set_transfer_encoding (encodings ++ [chunked_token]) hdrs
          | Some _ => Ok hdrs
          end
        else Headers.set_transfer_encoding_str Headers.TRANSFER_ENCODING_CHUNKED hdrs
      else
        let? hdrs :=
          if Headers.is_set Headers.TRANSFER_ENCODING hdrs then
            let? encodings := Headers.transfer_encoding hdrs in
            match erase_token Headers.TRANSFER_ENCODING_CHUNKED encodings with
            | None => Ok hdrs
            | Some [] => Ok (Headers.remove Headers.TRANSFER_ENCODING hdrs)
            | Some encodings => Headers.set_transfer_encoding encodings hdrs
            end
          else Ok hdrs in
        Headers.set_content_length (Body.length b) hdrs
  end.

(** ** Requests *)
Record request := {
  r_version : version; r_headers : headers; r_body : option (body T);
  r_type : method_type; r_uri : uri; r_trailers : headers; r_parameters : gmap bytes bytes }.

Definition request_init : request :=
  {| r_version := version_default; r_headers := []; r_body := None;
     r_type := M_GET; r_uri := uri_init; r_trailers := []; r_parameters := ∅ |}.

(** The copy and move constructors, which leave the trailers and the path
    parameters behind. *)
Definition copy_request (req : request) : request :=
  {| r_version := r_version req; r_headers := r_headers req; r_body := r_body req;
     r_type := r_type req; r_uri := r_uri req; r_trailers := []; r_parameters := ∅ |}.

(** [std::map::insert] keeps a value that is there. *)
Definition set_path_parameter (kv : bytes * bytes) (req : request) : request :=
  {| r_version := r_version req; r_headers := r_headers req; r_body := r_body req;
     r_type := r_type req; r_uri := r_uri req; r_trailers := r_trailers req;
     r_parameters := match r_parameters req !! kv.1 with
                     | Some _ => r_parameters req
                     | None => <[kv.1 := kv.2]> (r_parameters req)
                     end |}.

(** [request::validate] *)
Definition validate_request (req : request) : res cpp_exn request :=
  let hdrs := r_headers req in
  if Headers.is_set Headers.HOST hdrs then
    let? hp := Headers.host hdrs in
    if is_present (m_host (r_uri req)) && negb (bool_decide (hp_host hp = m_host (r_uri req))) then Throw bad_message
    else
      let? _ :=
        if negb (hp_port hp =? 0) then
          if is_present (m_port (r_uri req)) then
            let? p := numeric_port (r_uri req) in
            if negb (hp_port hp =? p) then Throw bad_message else Ok tt
          else Ok tt
        else if is_present (m_port (r_uri req)) then Throw bad_message
        else Ok tt in
      let? hdrs := validate_length_chunkiness (r_body req) hdrs in
      Ok {| r_version := r_version req; r_headers := hdrs; r_body := r_body req;
            r_type := r_type req; r_uri := r_uri req; r_trailers := r_trailers req; r_parameters := r_parameters req |}
  else Throw bad_message.

(** [request_builder::build] *)
Definition build_request (validate : bool) (req : request) : res cpp_exn request :=
  let? req := if validate then validate_request req else Ok req in
  Ok (copy_request req).

(** The text of a request line: method, URI and version. *)
Definition read_request_line : M cpp_exn scanner (bytes * bytes * bytes) :=
  let! (found, mstr) := read_token false in
  if negb found then throw bad_message
  else
    let! space := read_space in
    if negb space then throw bad_message
    else
      let! (found, ustr) := read_uri net in
      if negb found then throw bad_message
      else
        let! space := read_space in
        if negb space then throw bad_message
        else
          let! (found, vstr) := read_version in
          if negb found then throw bad_message
          else
            read_opt_space;;
            let! eol := read_crlf in
            if negb eol then throw bad_message else ret (mstr, ustr, vstr).

(** [request_builder::request_line] *)
Definition request_line (istr : bytes) (req : request) : res cpp_exn request :=
  let? (mstr, ustr, vstr) := run read_request_line istr in
  let? m := parse_method mstr in
  let? u := of_uri (Uri.parse net ustr) in
  let? v := parse_version vstr in
  let? _ := check_version v in
  Ok {| r_version := v; r_headers := r_headers req; r_body := r_body req;
        r_type := m; r_uri := u; r_trailers := r_trailers req; r_parameters := r_parameters req |}.

(** ** The builders from a stream or a socket *)
Section source.
Context `{Source X} (sized : X -> Z -> body T) (unsized : X -> body T).

(** The loop that reads header lines up to an empty one.  The bound on its
    rounds is a parameter. *)
Fixpoint read_headers (fuel : nat) (hdrs : headers) : M cpp_exn X headers :=
  match fuel with
  | O => diverge
  | Datatypes.S fuel =>
      let! line := src_readline in
      if bool_decide (line = []) || bool_decide (line = crlf) then ret hdrs
      else let! hdrs := lift (Headers.add_line net lib line hdrs) in read_headers fuel hdrs
  end.

(** The body of a message whose headers have been read. *)
Definition body_of (ignore_body : bool) (hdrs : headers) (src : X) : res cpp_exn (option (body T)) :=
  if ignore_body then Ok None
  else if Headers.is_message_chunked hdrs then Ok (Some (unsized src))
  else
    let? len := Headers.content_length hdrs in
    Ok (if negb (len =? 0) then Some (sized src len) else None).

(** [request_builder(is, ignore_body)]; the stream is the state. *)
Definition read_request (fuel : nat) (ignore_body : bool) : M cpp_exn X request :=
  let! line := src_readline in
  let! req := lift (request_line line request_init) in
  let! hdrs := read_headers fuel [] in
  if match hdrs with [] => true | _ => false end then throw bad_message
  else
    let! src := gets (fun src => src) in
    let! b := lift (body_of ignore_body hdrs src) in
    ret {| r_version := r_version req; r_headers := hdrs; r_body := b;
           r_type := r_type req; r_uri := r_uri req; r_trailers := r_trailers req; r_parameters := r_parameters req |}.
End source.

(** [os << req] *)
Definition print_request (req : request) : res cpp_exn bytes :=
  let u := r_uri req in
  let? hdrs := Headers.print (r_headers req) in
  Ok (method_name (r_type req) ++ bytes_of " " ++
      (if is_present (p_component (m_upath u)) then Path.encode (p_component (m_upath u)) else []) ++
      (if is_present (m_query u) then bytes_of "?" ++ Component.encode (m_query u) else []) ++
      (if is_present (m_fragment u) then bytes_of "#" ++ Component.encode (m_fragment u) else []) ++
      bytes_of " " ++ print_version (r_version req) ++ crlf ++ hdrs ++ crlf).

(** ** Responses *)
Record response := {
  s_version : version; s_headers : headers; s_body : option (body T); s_status : Z; s_reason : bytes }.

Definition response_init : response :=
  {| s_version := version_default; s_headers := []; s_body := None; s_status := 200; s_reason := [] |}.

(** [response::validate]: the reason phrase of an unknown status is a null
    pointer. *)
Definition validate_response (resp : response) : res cpp_exn response :=
  let? reason :=
    if nonempty (s_reason resp) then Ok (s_reason resp)
    else match reason_phrase (s_status resp) with Some r => Ok r | None => Ub end in
  let? hdrs := validate_length_chunkiness (s_body resp) (s_headers resp) in
  Ok {| s_version := s_version resp; s_headers := hdrs; s_body := s_body resp; s_status := s_status resp; s_reason := reason |}.

Definition build_response (validate : bool) (resp : response) : res cpp_exn response :=
  if validate then validate_response resp else Ok resp.

Definition read_response_line : M cpp_exn scanner (bytes * bytes * bytes) :=
  let! (found, vstr) := read_version in
  if negb found then throw bad_message
  else
    let! space := read_space in
    if negb space then throw bad_message
    else
      let! (found, sstr) := read_status in
      if negb found then throw bad_message
      else
        let! space := read_space in
        if negb space then throw bad_message
        else
          let! (found, rstr) := read_reason in
          if negb found then throw bad_message
          else
            read_opt_space;;
            let! eol := read_crlf in
            if negb eol then throw bad_message else ret (vstr, sstr, rstr).

(** [response_builder::response_line] *)
Definition response_line (istr : bytes) (resp : response) : res cpp_exn response :=
  let? (vstr, sstr, rstr) := run read_response_line istr in
  let? v := parse_version vstr in
  let? _ := check_version v in
  let? s := stoi sstr in
  Ok {| s_version := v; s_headers := s_headers resp; s_body := s_body resp; s_status := s; s_reason := rstr |}.

Section source.
Context `{Source X} (sized : X -> Z -> body T) (unsized : X -> body T).

(** [response_builder(is, ignore_body)] *)
Definition read_response (fuel : nat) (ignore_body : bool) : M cpp_exn X response :=
  let! line := src_readline in
  let! resp := lift (response_line line response_init) in
  let! hdrs := read_headers fuel [] in
  if match hdrs with [] => true | _ => false end then throw bad_message
  else
    let! src := gets (fun src => src) in
    let! b := lift (body_of sized unsized ignore_body hdrs src) in
    ret {| s_version := s_version resp; s_headers := hdrs; s_body := b; s_status := s_status resp; s_reason := s_reason resp |}.
End source.

(** [os << resp] *)
Definition print_response (resp : response) : res cpp_exn bytes :=
  let? hdrs := Headers.print (s_headers resp) in
  Ok (print_version (s_version resp) ++ bytes_of " " ++ print_int (s_status resp) ++ bytes_of " " ++
      s_reason resp ++ crlf ++ hdrs ++ crlf).
End messages.

(** ** The methods of messages and of their builders

    What has the same name in the code for strings, numbers and objects has the
    type in its name here.  A builder is the message that it makes. *)
Module Request.
Section methods.
Context `{Transport T} (net : inet) (lib : DateTime.clock).
Implicit Types req : request (T := T).

Definition set_version (v : version) req : request :=
  {| r_version := v; r_headers := r_headers req; r_body := r_body req; r_type := r_type req; r_uri := r_uri req;
     r_trailers := r_trailers req; r_parameters := r_parameters req |}.
Definition set_headers (h : list (bytes * base_value)) req : request :=
  {| r_version := r_version req; r_headers := h; r_body := r_body req; r_type := r_type req; r_uri := r_uri req;
     r_trailers := r_trailers req; r_parameters := r_parameters req |}.
Definition add_header_line (line : bytes) req : res cpp_exn request :=
  let? h := Headers.add_line net lib line (r_headers req) in Ok (set_headers h req).
Definition add_header (k v : bytes) req : res cpp_exn request :=
  let? h := Headers.add net lib k v (r_headers req) in Ok (set_headers h req).
Definition update_header (k v : bytes) req : res cpp_exn request :=
  let? h := Headers.update net lib k v (r_headers req) in Ok (set_headers h req).
Definition remove_header (k : bytes) req : request := set_headers (Headers.remove k (r_headers req)) req.
Definition has_body req : bool := match r_body req with Some _ => true | None => false end.
Definition set_body (b : option (body T)) req : request :=
  {| r_version := r_version req; r_headers := r_headers req; r_body := b; r_type := r_type req; r_uri := r_uri req;
     r_trailers := r_trailers req; r_parameters := r_parameters req |}.
Definition set_method (t : method_type) req : request :=
  {| r_version := r_version req; r_headers := r_headers req; r_body := r_body req; r_type := t; r_uri := r_uri req;
     r_trailers := r_trailers req; r_parameters := r_parameters req |}.
Definition set_uri (u : uri) req : request :=
  {| r_version := r_version req; r_headers := r_headers req; r_body := r_body req; r_type := r_type req; r_uri := u;
     r_trailers := r_trailers req; r_parameters := r_parameters req |}.
Definition set_trailers (h : list (bytes * base_value)) req : request :=
  {| r_version := r_version req; r_headers := r_headers req; r_body := r_body req; r_type := r_type req; r_uri := r_uri req;
     r_trailers := h; r_parameters := r_parameters req |}.

(** [req = other] for another object: the trailers and the parameters of the
    path stay. *)
Definition assign (other req : request (T := T)) : request :=
  set_uri (r_uri other) (set_method (r_type other) (set_body (r_body other)
    (set_headers (r_headers other) (set_version (r_version other) req)))).

(** The builder. *)
Definition method_str (str : bytes) req : res cpp_exn request := let? t := parse_method str in Ok (set_method t req).
Definition with_uri_str (str : bytes) req : res cpp_exn request := let? u := of_uri (Uri.parse net str) in Ok (set_uri u req).
Definition with_version_numbers (major minor : Z) req : request :=
  set_version {| m_protocol := m_protocol (r_version req); m_major := major; m_minor := minor |} req.
Definition with_version_str (str : bytes) req : res cpp_exn request := let? v := parse_version str in Ok (set_version v req).
End methods.
End Request.

Module Response.
Section methods.
Context `{Transport T} (net : inet) (lib : DateTime.clock).
Implicit Types resp : response (T := T).

Definition set_version (v : version) resp : response :=
  {| s_version := v; s_headers := s_headers resp; s_body := s_body resp; s_status := s_status resp; s_reason := s_reason resp |}.
Definition set_headers (h : list (bytes * base_value)) resp : response :=
  {| s_version := s_version resp; s_headers := h; s_body := s_body resp; s_status := s_status resp; s_reason := s_reason resp |}.
Definition add_header_line (line : bytes) resp : res cpp_exn response :=
  let? h := Headers.add_line net lib line (s_headers resp) in Ok (set_headers h resp).
Definition add_header (k v : bytes) resp : res cpp_exn response :=
  let? h := Headers.add net lib k v (s_headers resp) in Ok (set_headers h resp).
Definition update_header (k v : bytes) resp : res cpp_exn response :=
  let? h := Headers.update net lib k v (s_headers resp) in Ok (set_headers h resp).
Definition remove_header (k : bytes) resp : response := set_headers (Headers.remove k (s_headers resp)) resp.
Definition has_body resp : bool := match s_body resp with Some _ => true | None => false end.
Definition set_body (b : option (body T)) resp : response :=
  {| s_version := s_version resp; s_headers := s_headers resp; s_body := b; s_status := s_status resp; s_reason := s_reason resp |}.
Definition set_status (s : Z) resp : response :=
  {| s_version := s_version resp; s_headers := s_headers resp; s_body := s_body resp; s_status := s; s_reason := s_reason resp |}.
Definition set_reason (r : bytes) resp : response :=
  {| s_version := s_version resp; s_headers := s_headers resp; s_body := s_body resp; s_status := s_status resp; s_reason := r |}.

(** [resp = other] *)
Definition assign (other resp : response (T := T)) : response :=
  set_reason (s_reason other) (set_status (s_status other) (set_body (s_body other)
    (set_headers (s_headers other) (set_version (s_version other) resp)))).

(** The builder. *)
Definition with_version_numbers (major minor : Z) resp : response :=
  set_version {| m_protocol := m_protocol (s_version resp); m_major := major; m_minor := minor |} resp.
Definition with_version_str (str : bytes) resp : res cpp_exn response := let? v := parse_version str in Ok (set_version v resp).

(** An assignment leaves nothing of the old response. *)
Lemma assign_all other resp : assign other resp = other.
Proof. by destruct other. Qed.
End methods.
End Response.

(** An assignment and a copy differ in what they make of trailers and
    parameters. *)
Lemma assign_keeps `{Transport T} (other req : request (T := T)) :
  Request.assign other req = Request.set_trailers (r_trailers req) (copy_request other) <-> r_parameters req = ∅.
Proof. split; [intros E; exact (f_equal r_parameters E)|]. intros E. destruct req; cbn in E; by subst. Qed.

(** ** Facts (http: messages survive printing and reading)

    The header of a message, printed and read line by line from any source of
    text, and the first lines of requests and responses. *)

Import Scanner.

(** ** Header lines *)
Lemma tolower_toupper c : tolower (Headers.toupper c) = tolower c.
Proof. unfold tolower, Headers.toupper. repeat (case_match; try lia). Qed.

Lemma lower_canonical n : tolower <$> Headers.canonicalize_name n = tolower <$> n.
Proof.
  unfold Headers.canonicalize_name. generalize true. induction n as [|c n IH]; intros b; [done|].
  cbn [Headers.canonicalize_loop fmap list_fmap]. unfold fmap in IH. rewrite IH. f_equal. destruct b; [apply tolower_toupper|done].
Qed.

Lemma toupper_tchar c : is_tchar c = true -> is_tchar (Headers.toupper c) = true.
Proof. unfold is_tchar, Headers.toupper, isalpha, isdigit. rewrite !if_true_orb. simpl_chr. case_match; lia. Qed.

Lemma canonical_tchar n : Forall (fun c => is_tchar c = true) n -> Forall (fun c => is_tchar c = true) (Headers.canonicalize_name n).
Proof.
  intros Hn. cut (forall b, Forall (fun c => is_tchar c = true) (Headers.canonicalize_loop b n)); [intros H; apply H|].
  induction Hn as [|c n Hc _ IH]; intros b; constructor; [|apply IH]. destruct b; [by apply toupper_tchar|done].
Qed.

Lemma solid_no_space s rest : text_ok s -> stops is_whitespace (s ++ CR :: rest).
Proof.
  intros [_ [->|[(c & w & -> & Hc) _]]]; [done|]. cbn [app stops]. revert Hc.
  unfold is_trimmed, is_whitespace. simpl_chr. lia.
Qed.

(** A header line with a canonical name. *)
Definition line_of (n s : bytes) : bytes := Headers.canonicalize_name n ++ bytes_of ": " ++ s ++ crlf.

Lemma read_header_on n s : is_name n -> text_ok s -> run Headers.read_header (line_of n s) = Ok (n, s).
Proof.
  intros [[Hne Ht] Hlow] Hs. unfold run, line_of, Headers.read_header. rewrite scan_on.
  assert (Headers.canonicalize_name n <> []) as Hcne by (by destruct n).
  change (bytes_of ": " ++ s ++ crlf) with (chr ":" :: [chr " "] ++ s ++ crlf).
  rewrite (bind_Ok _ _ _ _ _ (read_token_on [] _ (chr ":" :: [chr " "] ++ s ++ crlf) true Hcne (canonical_tchar n Ht) eq_refl)).
  rewrite lower_canonical, Hlow. cbn [negb]. rewrite after_on by (cbn; rewrite length_app; cbn; lia).
  rewrite (bind_Ok _ _ _ _ _ (read_special_on _ (chr ":") _)). cbn [negb].
  assert (Forall (fun c => is_whitespace c = true) [chr " "]) as Hsp by (by repeat constructor).
  rewrite (bind_Ok _ _ _ _ _ (read_opt_space_on _ [chr " "] (s ++ crlf) Hsp (solid_no_space s [LF] Hs))).
  rewrite after_on by (rewrite length_app; cbn; lia).
  rewrite (bind_Ok _ _ _ _ _ (read_all_on _ s crlf (proj1 Hs) (or_intror (ex_intro _ [LF] eq_refl)))).
  cbn [negb]. rewrite text_ok_trim by done. rewrite after_on by done.
  rewrite (bind_Ok _ _ _ _ _ (read_opt_space_none _ crlf eq_refl)). rewrite after_on by done.
  by rewrite (bind_Ok _ _ _ _ _ (read_crlf_on _)).
Qed.

(** ** The header of a message *)
Abbreviation headers := (list (bytes * base_value)).

(** Two lists with the same names and values. *)
Definition same_headers : headers -> headers -> Prop := Forall2 (fun h k => h.1 = k.1 /\ same_value h.2 k.2).

Lemma same_headers_names h k : same_headers h k -> k.*1 = h.*1.
Proof. induction 1 as [|x y h k [E _] _ IH]; [done|]. by rewrite !fmap_cons, E, IH. Qed.

Lemma find_none n (hdrs : headers) : n ∉ hdrs.*1 -> Headers.find n hdrs = None.
Proof.
  intros Hn. pose proof (find_spec n hdrs) as H. destruct (Headers.find n hdrs); [|done].
  destruct H as (v & Hi & _). exfalso. apply Hn. apply list_elem_of_fmap. exists (n, v). split; [done|].
  by eapply list_elem_of_lookup_2.
Qed.

Section head.
Context (net : inet) (lib : DateTime.clock).

(** The headers in canonical form: the invariant of a list, names that are
    tokens, and values in canonical form. *)
Definition headers_ok (hdrs : headers) : Prop :=
  NoDup hdrs.*1 /\ Forall (fun h => is_name h.1 /\ has_type h.1 h.2 = true /\ value_ok net lib h.2) hdrs.

Lemma line_no_lf n s : is_name n -> text_ok s -> LF ∉ (Headers.canonicalize_name n ++ bytes_of ": " ++ s ++ [CR]).
Proof.
  intros [[_ Hn] _] [Hs _]. rewrite !elem_of_app. intros [H|[H|[H|H]]].
  - pose proof (canonical_tchar n Hn) as Hc. rewrite Forall_forall in Hc. by apply Hc in H.
  - by repeat (apply elem_of_cons in H as [H|H]; [done|]); apply elem_of_nil in H.
  - rewrite Forall_forall in Hs. by apply Hs in H as (_ & ? & _).
  - by apply list_elem_of_singleton in H.
Qed.

(** Reading back what was printed, from any source. *)
Lemma read_headers_on `{TextSource X feed} hdrs : forall acc fuel rest, headers_ok hdrs ->
  NoDup (acc.*1 ++ hdrs.*1) -> (length hdrs < fuel)%nat ->
  exists lines hdrs', Headers.print hdrs = Ok lines /\ same_headers hdrs hdrs' /\
    read_headers net lib fuel acc (feed (lines ++ crlf ++ rest)) = (Ok (acc ++ hdrs'), feed rest).
Proof.
  induction hdrs as [|[n v] hdrs IH]; intros acc fuel rest [Hd Hok] Hnd Hf; (destruct fuel as [|fuel]; [cbn in Hf; lia|]).
  - exists [], []. split; [done|]. split; [constructor|]. cbn [read_headers app].
    rewrite (bind_Ok _ _ _ crlf (feed rest)).
    + rewrite bool_decide_false by done. rewrite bool_decide_true by done. cbn [orb]. by rewrite app_nil_r.
    + apply (feed_readline [CR] rest). by intros ?%list_elem_of_singleton.
  - inversion Hok as [|?? (Hn & Ht & Hv) Hok']; subst. cbn [fst snd] in *. apply NoDup_cons in Hd as [Hni Hd].
    destruct (value_round net lib n v Ht Hv) as (s & w & Hs & Hts & Hval & Hsame).
    destruct (IH (acc ++ [(n, w)]) fuel rest) as (lines & hdrs' & Hp & Hsh & Hr).
    + done.
    + rewrite fmap_app. cbn [fmap list_fmap]. rewrite <- app_assoc. done.
    + cbn in Hf. lia.
    + exists (line_of n s ++ lines), ((n, w) :: hdrs'). split.
      { unfold Headers.print in *. cbn [print_all]. unfold Headers.print_header at 1. cbn [fst snd]. rewrite Hs. cbn [rbind].
        destruct (print_all Headers.print_header hdrs) as [ls| | |]; try done. cbn [rbind] in *. injection Hp as <-. done. }
      split; [by constructor|]. cbn [read_headers]. rewrite (bind_Ok _ _ _ (line_of n s) (feed (lines ++ crlf ++ rest))).
      * rewrite bool_decide_false; [|intros E; by destruct n as [|? ?]; destruct Hn as [[]]].
        rewrite bool_decide_false.
        2: { unfold line_of. intros E. apply (f_equal length) in E. rewrite !length_app in E. cbn in E. lia. }
        cbn [orb]. rewrite (bind_Ok _ _ _ (acc ++ [(n, w)]) (feed (lines ++ crlf ++ rest))).
        -- rewrite Hr. by rewrite <- app_assoc.
        -- unfold lift. f_equal. unfold Headers.add_line. rewrite read_header_on by done. cbn [rbind].
           unfold Headers.add. destruct Hn as [[Hne _] Hlow]. rewrite nonempty_true by done. unfold Headers.lower. rewrite Hlow.
           rewrite Hval. cbn [rbind]. rewrite find_none; [done|]. intros Hin. apply NoDup_app in Hnd as (_ & Hx & _).
           apply (Hx n Hin). by left.
      * assert (line_of n s ++ lines ++ crlf ++ rest =
          (Headers.canonicalize_name n ++ bytes_of ": " ++ s ++ [CR]) ++ LF :: lines ++ crlf ++ rest) as E.
        { unfold line_of, crlf. by rewrite <- !app_assoc. }
        rewrite <- app_assoc, E. rewrite feed_readline by (by apply line_no_lf).
        unfold line_of, crlf. by rewrite <- !app_assoc.
Qed.
End head.

(** ** First lines *)
Lemma read_space_on pre w rest : w <> [] -> Forall (fun c => is_whitespace c = true) w -> stops is_whitespace rest ->
  read_space (on pre (w ++ rest)) = (Ok true, after (pre ++ w) rest).
Proof.
  intros Hne Hw Hr. unfold read_space. rewrite (bind_Ok _ _ _ _ _ (read_while_on is_whitespace pre w rest eq_refl Hw Hr)). by destruct w.
Qed.

(** A single space between two words. *)
Lemma space_on {A} pre c rest (k : bool -> M cpp_exn scanner A) : is_whitespace c = false -> rest <> [] ->
  bind read_space k (on pre (chr " " :: c :: rest)) = k true (on (pre ++ [chr " "]) (c :: rest)).
Proof.
  intros Hc Hr. assert (Forall (fun c => is_whitespace c = true) [chr " "]) as Hsp by (by repeat constructor).
  rewrite (bind_Ok _ _ _ _ _ (read_space_on pre [chr " "] (c :: rest) ltac:(done) Hsp Hc)). by destruct rest.
Qed.

Lemma graphic_no_space c : 33 <= c -> is_whitespace c = false.
Proof. unfold is_whitespace. simpl_chr. lia. Qed.

Definition version_text : bytes := print_version version_default.

Lemma version_line {A} pre (k : bytes -> M cpp_exn scanner A) :
  bind read_version (fun '(found, vstr) => if negb found then throw bad_message
    else read_opt_space;; let! eol := read_crlf in if negb eol then throw bad_message else k vstr) (on pre (version_text ++ crlf)) =
  k version_text (on ((pre ++ version_text) ++ crlf) []).
Proof.
  unfold read_version. rewrite (bind_Ok _ _ _ (true, version_text) (on (pre ++ version_text) crlf)).
  - cbn [negb]. rewrite (bind_Ok _ _ _ _ _ (read_opt_space_none _ crlf eq_refl)). rewrite after_on by done.
    by rewrite (bind_Ok _ _ _ _ _ (read_crlf_on _)).
  - rewrite (bind_Ok _ _ _ version_text (on (pre ++ version_text) crlf)); [done|].
    rewrite (read_while_on _ pre version_text crlf); [done|done| |done]. by repeat constructor.
Qed.

(** A URI in origin form: an absolute path with an optional query and fragment. *)
Definition origin_form (net : inet) (u : uri) : Prop :=
  canonical net u /\ m_scheme u = [] /\ m_host u = [] /\ Uri.print u <> [].

Definition request_text (m : method_type) (u : uri) : bytes :=
  method_name m ++ bytes_of " " ++ Uri.print u ++ bytes_of " " ++ version_text.

Lemma method_token m : Forall (fun c => is_tchar c = true) (method_name m) /\ method_name m <> [] /\ parse_method (method_name m) = Ok m.
Proof. destruct m; (split; [by repeat constructor|by split]). Qed.

Lemma request_line_on {T} `{Transport T} net m u (req : @request T) : origin_form net u ->
  request_line net (request_text m u ++ crlf) req =
    Ok {| r_version := version_default; r_headers := r_headers req; r_body := r_body req; r_type := m; r_uri := u;
          r_trailers := r_trailers req; r_parameters := r_parameters req |}.
Proof.
  intros (Hu & _ & _ & Hne). destruct (method_token m) as (Hm & Hmne & Hpm).
  pose proof (print_uri_chars net u Hu) as Hc. pose proof (canonical_parses net u Hu) as Hp. set (t := Uri.print u) in *.
  assert (run (read_request_line net) (request_text m u ++ crlf) = Ok (method_name m, t, version_text)) as E.
  { unfold run, request_text, read_request_line. rewrite scan_on. fold t. rewrite <- !app_assoc.
    change (bytes_of " " ++ t ++ bytes_of " " ++ version_text ++ crlf) with (chr " " :: t ++ chr " " :: version_text ++ crlf).
    rewrite (bind_Ok _ _ _ _ _ (read_token_on [] (method_name m) (chr " " :: t ++ chr " " :: version_text ++ crlf) false Hmne Hm eq_refl)).
    cbn [negb]. rewrite after_on by (cbn; rewrite length_app; cbn; lia).
    destruct t as [|c t'] eqn:Et; [done|]. inversion Hc as [|?? Hc1 Hc2]; subst. cbn [app].
    rewrite space_on; [|by apply graphic_no_space, graphic_uri|by destruct t']. cbn [negb].
    unfold read_uri. change (c :: t' ++ chr " " :: version_text ++ crlf) with ((c :: t') ++ chr " " :: version_text ++ crlf).
    rewrite (bind_Ok _ _ _ (true, c :: t') (on ((([] ++ method_name m) ++ [chr " "]) ++ c :: t') (chr " " :: version_text ++ crlf))).
    - cbn [negb]. change (version_text ++ crlf) with (chr "H" :: (tail version_text ++ crlf)).
      rewrite space_on by done. cbn [negb]. change (chr "H" :: (tail version_text ++ crlf)) with (version_text ++ crlf).
      rewrite version_line. done.
    - rewrite (bind_Ok _ _ _ _ _ (read_while_on is_uri_char _ (c :: t') (chr " " :: version_text ++ crlf) eq_refl Hc eq_refl)).
      cbn [nonempty]. rewrite Hp. done. }
  unfold request_line. rewrite E. cbn [rbind]. rewrite Hpm. cbn [rbind]. rewrite Hp. reflexivity.
Qed.

(** The status and the reason phrase of a response. *)
Definition status_ok (s : Z) (reason : bytes) : Prop :=
  100 <= s < 1000 /\ Forall (fun c => is_whitespace c || is_vchar c || is_opaque c = true) reason /\ solid reason.

Definition response_text (s : Z) (reason : bytes) : bytes :=
  version_text ++ bytes_of " " ++ print_int s ++ bytes_of " " ++ reason.

Lemma status_digits s : 100 <= s < 1000 -> length (print_int s) = 3%nat /\ Forall (fun c => isdigit c = true) (print_int s) /\ stoi (print_int s) = Ok s.
Proof.
  intros Hs. assert (forallb (fun s => Nat.eqb (length (print_int s)) 3 && forallb isdigit (print_int s)) (seqZ 100 900) = true) as Hall by (vm_compute; reflexivity).
  rewrite forallb_forall in Hall. specialize (Hall s). rewrite <- list_elem_of_In, elem_of_seqZ in Hall.
  apply andb_prop in Hall as [Hl%Nat.eqb_eq Hd]; [|lia]. split; [done|]. split; [|apply stoi_print; lia].
  rewrite forallb_forall in Hd. apply Forall_forall. intros c Hc. by apply Hd, list_elem_of_In.
Qed.

Lemma response_line_on {T} `{Transport T} s reason (resp : @response T) : status_ok s reason ->
  response_line (response_text s reason ++ crlf) resp =
    Ok {| s_version := version_default; s_headers := s_headers resp; s_body := s_body resp; s_status := s; s_reason := reason |}.
Proof.
  intros (Hs & Hr & Hsol). destruct (status_digits s Hs) as (Hl & Hd & Hst).
  assert (run read_response_line (response_text s reason ++ crlf) = Ok (version_text, print_int s, reason)) as E.
  { unfold run, response_text, read_response_line. rewrite scan_on. rewrite <- !app_assoc. set (t := print_int s) in *.
    change (bytes_of " " ++ t ++ bytes_of " " ++ reason ++ crlf) with (chr " " :: t ++ chr " " :: reason ++ crlf).
    destruct Hsol as [(c & w & -> & Hc) Hlast].
    destruct t as [|d t'] eqn:Et; [done|].
    rewrite (bind_Ok _ _ _ (true, version_text) (on ([] ++ version_text) (chr " " :: (d :: t') ++ chr " " :: (c :: w) ++ crlf))).
    2: { unfold read_version. rewrite (bind_Ok _ _ _ version_text (on ([] ++ version_text) (chr " " :: (d :: t') ++ chr " " :: (c :: w) ++ crlf))); [done|].
         rewrite (read_while_on _ [] version_text (chr " " :: (d :: t') ++ chr " " :: (c :: w) ++ crlf)); [done|done|by repeat constructor|done]. }
    cbn [negb app]. inversion Hd as [|?? Hd1 Hd2]; subst.
    rewrite space_on; [|by apply graphic_no_space, graphic_digit|by destruct t']. cbn [negb].
    change (d :: t' ++ chr " " :: c :: w ++ crlf) with ((d :: t') ++ chr " " :: c :: w ++ crlf).
    unfold read_status. rewrite (bind_Ok _ _ _ (true, d :: t') (on (([] ++ version_text ++ [chr " "]) ++ d :: t') (chr " " :: c :: w ++ crlf))).
    2: { rewrite (bind_Ok _ _ _ _ _ (read_while_on isdigit _ (d :: t') (chr " " :: c :: w ++ crlf) eq_refl Hd eq_refl)). rewrite Hl. done. }
    cbn [negb]. rewrite space_on; [| |by destruct w].
    2: { revert Hc. unfold is_trimmed, is_whitespace. simpl_chr. lia. }
    cbn [negb]. change (c :: w ++ crlf) with ((c :: w) ++ crlf).
    assert (trim (c :: w) = c :: w) as Ht by (apply solid_trim; split; [by exists c, w|done]).
    unfold read_reason. rewrite (bind_Ok _ _ _ (true, c :: w) (on (((([] ++ version_text ++ [chr " "]) ++ d :: t') ++ [chr " "]) ++ c :: w) crlf)).
    2: { rewrite (bind_Ok _ _ _ _ _ (read_while_on _ _ (c :: w) crlf eq_refl Hr eq_refl)). cbv zeta. by rewrite Ht. }
    cbn [negb]. rewrite (bind_Ok _ _ _ _ _ (read_opt_space_none _ crlf eq_refl)). rewrite after_on by done.
    by rewrite (bind_Ok _ _ _ _ _ (read_crlf_on _)). }
  unfold response_line. rewrite E. cbn [rbind]. change (parse_version version_text) with (Ok (E:=cpp_exn) version_default).
  cbn [rbind]. change (check_version version_default) with (Ok (E:=cpp_exn) tt). cbn [rbind]. by rewrite Hst.
Qed.
