(* ===== verification/Transmit.v ===== *)
(** * http: transmission (http/src/common/transmit.cpp)

    Sending and receiving messages over a connection. *)
From S2P Require Import Prelude Effects Numbers UriText Uri.
From S2P Require Import Text Timeutil Scanner Hval Headers Nio Body Message.
From S2P Require File JsonStream JsonValue.

(** What has been sent decides the result: a code of error.h, or the exception
    thrown for a system error. *)
Section transmit.
Context `{Transport T}.
Abbreviation X := (M cpp_exn (nio T)).

(** [send_data] *)
Definition send_data (data : bytes) : X Z := fun io =>
  let to_write := int32 (zlen data) in
  let '((retval, bwritten, syserr), io) := nio_write (take (Z.to_nat to_write) data) io in
  (if negb (retval =? File.E_ok) then Throw (system_error syserr)
   else if negb (to_write =? bwritten) then Ok File.E_write_failed
   else Ok File.E_ok, io).

(** The text before the data of a chunk: its size in hexadecimal digits and the
    extensions. *)
Definition chunk_head (chunklen : Z) (cext : param_vec) : bytes :=
  print_uint 16 chunklen ++ concat ((fun e => bytes_of ";" ++ e.1 ++ bytes_of "=" ++ e.2) <$> cext).

(** Two computations of which the second runs when the first returns [E_ok]. *)
Definition and_then {S} (m k : M cpp_exn S Z) : M cpp_exn S Z :=
  let! retval := m in if negb (retval =? File.E_ok) then ret retval else k.

(** On the body, and on the connection. *)
Definition of_body {A} (m : M cpp_exn (body T) A) : M cpp_exn (body T * nio T) A :=
  focus fst (fun b s => (b, s.2)) m.
Definition of_io {A} (m : X A) : M cpp_exn (body T * nio T) A :=
  focus snd (fun io s => (s.1, io)) m.

Definition crlf_text : bytes := [13; 10].
Definition last_chunk : bytes := bytes_of "0" ++ crlf_text ++ crlf_text.

(** A round of the loop of [send_body]: the code and the rest of the length. *)
Definition send_piece (body_chunked : bool) (body_length : Z) : M cpp_exn (body T * nio T) (Z * Z) :=
  let! cext := of_body (gets Body.chunk_extensions) in
  let! data := of_body Body.next in
  let chunklen := zlen data in
  let! retval := of_io (
    and_then (if body_chunked then send_data (chunk_head chunklen cext) else ret File.E_ok)
      (and_then (send_data data) (if body_chunked then send_data crlf_text else ret File.E_ok))) in
  ret (retval, if (retval =? File.E_ok) && negb body_chunked then body_length - chunklen else body_length).

(** The loop of [send_body]; the bound on its rounds is a parameter. *)
Fixpoint send_loop (fuel : nat) (body_chunked : bool) (body_length : Z) : M cpp_exn (body T * nio T) (Z * Z) :=
  match fuel with
  | O => diverge
  | S fuel =>
      let! more := of_body Body.has_next in
      if more then
        let! (retval, body_length) := send_piece body_chunked body_length in
        if negb (retval =? File.E_ok) then ret (retval, body_length) else send_loop fuel body_chunked body_length
      else ret (File.E_ok, body_length)
  end.

(** [send_body] *)
Definition send_body (fuel : nat) : M cpp_exn (body T * nio T) Z :=
  let! body_chunked := of_body (gets Body.chunked) in
  let! len := of_body (gets Body.length) in
  let! (retval, body_length) := send_loop fuel body_chunked (int64 len) in
  if retval =? File.E_ok then
    if body_chunked then of_io (send_data last_chunk)
    else if negb (body_length =? 0) then ret File.E_write_failed
    else ret retval
  else ret retval.

(** The body of a message that has one, sent after the head. *)
Definition send_message (fuel : nat) (head : bytes) (b : option (body T)) : X Z :=
  and_then (send_data head)
    match b with
    | None => ret File.E_ok
    | Some b => fun io => let '(r, (_, io)) := send_body fuel (b, io) in (r, io)
    end.

(** [send_request], [send_response] *)
Definition send_request (fuel : nat) (req : request) : X Z :=
  let! s := lift (print_request req) in send_message fuel s (r_body req).
Definition send_response (fuel : nat) (resp : response) : X Z :=
  let! s := lift (print_response resp) in send_message fuel s (s_body resp).

(** [recv_request], [recv_response] *)
Definition recv_request (net : inet) (lib : DateTime.clock) (fuel : nat) : X (@request T) :=
  let! req := read_request net lib Body.from_socket_sized Body.from_socket fuel false in lift (build_request true req).
Definition recv_response (net : inet) (lib : DateTime.clock) (fuel : nat) : X (@response T) :=
  let! resp := read_response net lib Body.from_socket_sized Body.from_socket fuel false in lift (build_response true resp).

(** An exception of libjson. *)
Definition of_json {A} (r : res JsonStream.exn A) : res cpp_exn A :=
  match r with
  | Ok a => Ok a
  | Throw (JsonStream.invalid_argument _) => Throw invalid_argument
  | Throw (JsonStream.out_of_range _) => Throw out_of_range
  | Throw _ => Throw runtime_error
  | Ub => Ub
  | Diverge => Diverge
  end.

(** The text of the body of an error response. *)
Definition error_text (code : Z) (msg : bytes) : res cpp_exn bytes :=
  of_json (
    let? title := JsonValue.Json.value_of_cstring (reason_phrase code) in
    let? detail := JsonValue.Json.value_of_string msg in
    let pair k v o := JsonValue.Json.object_add_pair (bytes_of k, v) o in
    let err := pair "detail" detail (pair "title" title []) in
    JsonValue.Json.value_str true 0 (JsonValue.Json.V_OBJECT
      (pair "errors" (JsonValue.Json.V_ARRAY [JsonValue.Json.V_OBJECT err]) []))).

(** [gen_error_resp] *)
Definition gen_error_resp (lib : DateTime.clock) (code : Z) (msg : bytes) : res cpp_exn (@response T) :=
  let? hdrs := Headers.set_date (DateTime.datetime_now lib true) [] in
  let? hdrs := Headers.set_connection_str CONNECTION_CLOSE hdrs in
  let? hdrs := Headers.set_content_type
    {| mt_type := bytes_of "application"; mt_subtype := bytes_of "json"; mt_parameters := [] |} hdrs in
  let? text := error_text code msg in
  build_response true
    {| s_version := {| m_protocol := http_protocol; m_major := 1; m_minor := 1 |}; s_headers := hdrs;
       s_body := Some (Body.from_string text); s_status := code; s_reason := [] |}.
End transmit.
