(* ===== verification/TransmitFacts.v ===== *)
(** * http: a message that is sent is received

    Requests and responses with a body of known length, from the sender's
    [build] to the receiver's: everything between the two. *)
From S2P Require Import Prelude Effects Numbers UriText Uri UriRoundTrip.
From S2P Require Import Text Timeutil Scanner Hval Headers HeadersSpec HvalText.
From S2P Require Import Nio Body Message Transmit.
From S2P Require File.

(** ** Lists of headers *)
Lemma headers_ok_put net lib n v hdrs : headers_ok net lib hdrs -> is_name n -> has_type n v = true -> value_ok net lib v ->
  headers_ok net lib (put n v hdrs).
Proof.
  intros [Hd Hok] Hn Ht Hv. unfold put. pose proof (find_spec n hdrs) as Hf. destruct (Headers.find n hdrs) as [i|].
  - destruct Hf as (w & Hi & _ & Hs). destruct (Hs v) as [_ Hk]. split; [by rewrite Hk|]. unfold Headers.set_at.
    apply Forall_lookup. intros j h Hj. rewrite Forall_lookup in Hok. destruct (decide (i = j)) as [<-|Hne].
    + rewrite list_lookup_alter_eq, Hi in Hj. cbn in Hj. by simplify_eq.
    + rewrite list_lookup_alter_ne in Hj by done. by eapply Hok.
  - destruct Hf as [_ Hni]. split.
    + rewrite fmap_app. apply NoDup_app. split; [done|]. split; [|by apply NoDup_singleton].
      intros x Hx Hy. cbn in Hy. apply list_elem_of_singleton in Hy. by subst.
    + apply Forall_app. split; [done|]. by apply Forall_singleton.
Qed.

Lemma put_names n v hdrs m : m ∈ (put n v hdrs).*1 -> m = n \/ m ∈ hdrs.*1.
Proof.
  unfold put. pose proof (find_spec n hdrs) as Hf. destruct (Headers.find n hdrs) as [i|].
  - destruct Hf as (w & _ & _ & Hs). destruct (Hs v) as [_ ->]. auto.
  - rewrite fmap_app, elem_of_app. intros [H|H]; [auto|]. cbn in H. apply list_elem_of_singleton in H. auto.
Qed.

Lemma put_not_nil n v hdrs : put n v hdrs <> [].
Proof.
  unfold put. pose proof (find_spec n hdrs) as Hf. destruct (Headers.find n hdrs) as [i|]; [|by destruct hdrs].
  destruct Hf as (w & Hi & _ & Hs). intros E. destruct (Hs v) as [_ Hk]. rewrite E in Hk. by destruct hdrs.
Qed.

Lemma headers_ok_wf net lib hdrs : headers_ok net lib hdrs -> wf hdrs.
Proof.
  intros [Hd Hok]. split; [done|]. apply Forall_fmap. eapply Forall_impl; [exact Hok|]. intros h ([[Hne _] Hl] & _). by split.
Qed.

(** The value of a field in two lists with the same values. *)
Lemma same_lookup h k n : same_headers h k ->
  match fields h !! n with
  | Some v => exists w, fields k !! n = Some w /\ same_value v w
  | None => fields k !! n = None
  end.
Proof.
  induction 1 as [|[a v] [b w] h k [E Hs] _ IH]; cbn [list_to_map foldr uncurry]; [by rewrite !lookup_empty|].
  cbn [fst snd] in *. subst b. cbn. destruct (decide (a = n)) as [->|Hne].
  - rewrite !lookup_insert_eq. eauto.
  - by rewrite !lookup_insert_ne.
Qed.

Lemma fields_get n hdrs : n <> [] -> Headers.lower n = n ->
  Headers.get n hdrs = match fields hdrs !! n with Some v => Ok v | None => Throw out_of_range end.
Proof. intros Hn Hl. rewrite get_refines, Hl by done. done. Qed.

Lemma fields_not_in n (hdrs : headers) : n ∉ hdrs.*1 -> fields hdrs !! n = None.
Proof. apply not_elem_of_list_to_map_1. Qed.

(** ** Validation and transmission of a body of known length *)
Section body.
Context `{Transport T}.

Lemma length_validated (b : body T) hdrs : Body.Body.chunked b = false -> Headers.TRANSFER_ENCODING ∉ hdrs.*1 ->
  validate_length_chunkiness (Some b) hdrs = Ok (put Headers.CONTENT_LENGTH (num_val [] (Body.Body.length b)) hdrs).
Proof.
  intros Hb Ht. unfold validate_length_chunkiness. rewrite Hb.
  rewrite is_set_spec by done. change (Headers.lower Headers.TRANSFER_ENCODING) with Headers.TRANSFER_ENCODING.
  rewrite (fields_not_in _ _ Ht). rewrite bool_decide_false by (by intros []).
  cbn [rbind]. unfold Headers.set_content_length, single_set. cbn [rbind no_validation]. by rewrite update_value_put.
Qed.
End body.

Lemma send_data_on data inp out : data <> [] -> zlen data < 2 ^ 31 ->
  send_data data (conn inp out) = (Ok File.E_ok, conn inp (out ++ data)).
Proof.
  intros Hne Hl. pose proof (zlen_nonneg data). unfold send_data. rewrite wrapS_id by lia.
  rewrite take_ge by (unfold zlen; lia). rewrite conn_write by done.
  change (negb (File.E_ok =? File.E_ok)) with false. cbv iota beta. by rewrite Z.eqb_refl.
Qed.

(** The operations of a string body at the start and at the end. *)
Lemma string_has_next data k (io : nio pipe) : of_body Body.Body.has_next (string_source data k, io) = (Ok (k <? zlen data), (string_source data k, io)).
Proof. reflexivity. Qed.

Lemma string_next data (io : nio pipe) : data <> [] ->
  of_body Body.Body.next (string_source data 0, io) = (Ok data, (string_source data (zlen data), io)).
Proof. intros Hd%zlen_pos. unfold of_body, focus. cbn [fst snd Body.Body.next]. destruct (Z.ltb_spec 0 (zlen data)); [done|lia]. Qed.

Lemma send_piece_on data inp out : data <> [] -> zlen data < 2 ^ 31 ->
  send_piece false (zlen data) (string_source data 0, conn inp out) = (Ok (File.E_ok, 0), (string_source data (zlen data), conn inp (out ++ data))).
Proof.
  intros Hd Hl. unfold send_piece.
  rewrite (bind_Ok _ _ _ [] (string_source data 0, conn inp out)) by done.
  rewrite (bind_Ok _ _ _ _ _ (string_next data (conn inp out) Hd)).
  rewrite (bind_Ok _ _ _ File.E_ok (string_source data (zlen data), conn inp (out ++ data))).
  - unfold ret. change ((File.E_ok =? File.E_ok) && negb false) with true. cbv iota. by rewrite Z.sub_diag.
  - unfold of_io, focus. cbn [fst snd]. unfold and_then. rewrite (bind_Ok _ _ _ File.E_ok (conn inp out)) by done.
    change (negb (File.E_ok =? File.E_ok)) with false. cbv iota.
    by rewrite (bind_Ok _ _ _ _ _ (send_data_on data inp out Hd Hl)).
Qed.

(** A body from a string is sent as it is. *)
Lemma send_message_on fuel head data inp out : head <> [] -> zlen head < 2 ^ 31 -> data <> [] -> zlen data < 2 ^ 31 -> (2 <= fuel)%nat ->
  send_message fuel head (Some (Body.Body.from_string data)) (conn inp out) = (Ok File.E_ok, conn inp (out ++ head ++ data)).
Proof.
  intros Hh Hhl Hd Hl Hf. pose proof (zlen_pos data Hd). destruct fuel as [|[|fuel]]; [lia|lia|].
  unfold send_message, and_then. rewrite (bind_Ok _ _ _ _ _ (send_data_on head inp out Hh Hhl)).
  change (negb (File.E_ok =? File.E_ok)) with false. cbv iota. rewrite app_assoc. set (out' := out ++ head).
  assert (send_body (Datatypes.S (Datatypes.S fuel)) (Body.Body.from_string data, conn inp out') =
    (Ok File.E_ok, (string_source data (zlen data), conn inp (out' ++ data)))) as ->; [|done].
  unfold send_body. rewrite (bind_Ok _ _ _ false (string_source data 0, conn inp out')) by done.
  rewrite (bind_Ok _ _ _ (zlen data) (string_source data 0, conn inp out')) by done.
  rewrite wrapS_id by lia. rewrite (bind_Ok _ _ _ (File.E_ok, 0) (string_source data (zlen data), conn inp (out' ++ data))); [done|].
  cbn [send_loop]. rewrite (bind_Ok _ _ _ _ _ (string_has_next data 0 _)). destruct (Z.ltb_spec 0 (zlen data)); [|lia].
  rewrite (bind_Ok _ _ _ _ _ (send_piece_on data inp out' Hd Hl)). change (negb (File.E_ok =? File.E_ok)) with false. cbv iota.
  rewrite (bind_Ok _ _ _ _ _ (string_has_next data (zlen data) _)). destruct (Z.ltb_spec (zlen data) (zlen data)); [lia|done].
Qed.

(** ** The two ends of a message *)
Section message.
Context (net : inet) (lib : DateTime.clock).

Lemma content_length_ok (data : bytes) hdrs : headers_ok net lib hdrs -> zlen data < 2 ^ 31 ->
  headers_ok net lib (put Headers.CONTENT_LENGTH (num_val [] (zlen data)) hdrs).
Proof.
  intros Hh Hl. pose proof (zlen_nonneg data). apply headers_ok_put; [done| |done|cbn; lia].
  split; [split; [done|by repeat constructor]|done].
Qed.

Lemma put_fields n v hdrs : headers_ok net lib hdrs -> lowered n -> fields (put n v hdrs) = <[n := v]> (fields hdrs).
Proof. intros Hh%headers_ok_wf Hn. by apply put_spec. Qed.

(** What is read behind the first line: the fields that were sent, and a body of
    the length they say. *)
Lemma receive_head (data : bytes) hdrs rest out : headers_ok net lib hdrs -> Headers.TRANSFER_ENCODING ∉ hdrs.*1 ->
  data <> [] -> zlen data < 2 ^ 31 ->
  let sent := put Headers.CONTENT_LENGTH (num_val [] (zlen data)) hdrs in
  exists lines got, Headers.print sent = Ok lines /\ same_headers sent got /\ got <> [] /\
    read_headers net lib (2 + length hdrs) [] (conn (lines ++ crlf ++ rest) out) = (Ok got, conn rest out) /\
    forall src, body_of Body.Body.from_socket_sized Body.Body.from_socket false got src =
      Ok (Some (Body.Body.from_socket_sized (T := pipe) src (zlen data))).
Proof.
  intros Hh Ht Hd Hl sent. pose proof (content_length_ok data hdrs Hh Hl) as Hs. fold sent in Hs.
  assert (length sent < 2 + length hdrs)%nat as Hlen.
  { unfold sent, put. case_match; [unfold Headers.set_at; rewrite length_alter; lia|rewrite length_app; cbn; lia]. }
  destruct (read_headers_on net lib (feed := fun t => conn t out) sent [] _ rest Hs (proj1 Hs) Hlen) as (lines & got & Hp & Hsh & Hr).
  exists lines, got. split; [done|]. split; [done|]. split.
  { intros ->. inversion Hsh as [E|]. by apply (put_not_nil Headers.CONTENT_LENGTH (num_val [] (zlen data)) hdrs). }
  split; [done|]. intros src. unfold body_of.
  assert (Headers.is_message_chunked got = false) as ->.
  { unfold Headers.is_message_chunked, Headers.has_token. rewrite find_none; [done|].
    rewrite (same_headers_names _ _ Hsh). intros [?|?]%put_names; done. }
  unfold Headers.content_length. rewrite fields_get by done.
  pose proof (same_lookup sent got Headers.CONTENT_LENGTH Hsh) as Hc. unfold sent in Hc.
  rewrite put_fields, lookup_insert_eq in Hc by done. destruct Hc as (w & -> & Hw). cbn [rbind].
  destruct w; try done. cbn [same_value] in Hw. subst v. cbn [rbind]. destruct (Z.eqb_spec (zlen data) 0) as [E|]; [|done].
  pose proof (zlen_pos data Hd). lia.
Qed.

(** A request in origin form is valid when its [Host] field is set. *)
Lemma request_validated {T} `{Transport T} (req : @request T) b r hp : origin_form net (r_uri req) ->
  fields (r_headers req) !! Headers.HOST = Some (hp_val r hp) -> Headers.TRANSFER_ENCODING ∉ (r_headers req).*1 ->
  r_body req = Some b -> Body.Body.chunked b = false ->
  build_request true req = Ok {| r_version := r_version req;
    r_headers := put Headers.CONTENT_LENGTH (num_val [] (Body.Body.length b)) (r_headers req); r_body := Some b;
    r_type := r_type req; r_uri := r_uri req; r_trailers := []; r_parameters := ∅ |}.
Proof.
  intros (Hu & _ & Hhost & _) Hf Ht Hb Hc. unfold build_request, validate_request. rewrite is_set_spec by done.
  change (Headers.lower Headers.HOST) with Headers.HOST. rewrite Hf, bool_decide_true by done.
  unfold Headers.host. rewrite fields_get, Hf by done. cbn [rbind]. rewrite Hhost. cbn [is_present andb].
  assert (m_port (r_uri req) = []) as ->.
  { destruct (ca_host _ _ Hu) as [(_ & _ & Hp)|[Hv _]]; [done|]. by rewrite Hhost in Hv. }
  change (is_present []) with false. cbv iota. rewrite Hb, length_validated by done. by destruct (negb (hp_port hp =? 0)).
Qed.

Lemma print_request_text {T} `{Transport T} (req : @request T) lines : origin_form net (r_uri req) -> r_version req = version_default ->
  Headers.print (r_headers req) = Ok lines ->
  print_request req = Ok ((request_text (r_type req) (r_uri req) ++ crlf) ++ lines ++ crlf).
Proof.
  intros (_ & Hs & Hh & _) Hv Hl. unfold print_request. rewrite Hl. cbn [rbind]. f_equal. unfold request_text, Uri.print.
  rewrite Hs, Hh, Hv. cbn [is_present app]. rewrite <- !app_assoc. repeat f_equal; by case_match.
Qed.

Lemma text_no_lf s : Forall (fun c => 32 <= c \/ c = 9) s -> LF ∉ s ++ [CR].
Proof.
  intros Hs [Hi|Hi%list_elem_of_singleton]%elem_of_app; [|done]. rewrite Forall_forall in Hs. apply Hs in Hi. unfold LF in Hi. lia.
Qed.

Lemma version_chars : Forall (fun c => 32 <= c) version_text.
Proof. by repeat (constructor; [vm_compute; discriminate|]). Qed.

Lemma request_text_chars m u : origin_form net u -> Forall (fun c => 32 <= c \/ c = 9) (request_text m u).
Proof.
  intros Hu. cut (Forall (fun c => 32 <= c) (request_text m u)); [intros H; eapply Forall_impl; [exact H|]; auto|]. revert Hu.
  intros (Hu & _). pose proof (print_uri_chars net u Hu) as Hc. pose proof version_chars as Hv. unfold request_text.
  assert (Forall (fun c => 32 <= c) (method_name m)) as Hm by (destruct m; by repeat (constructor; [simpl_chr; lia|])).
  assert (Forall (fun c => 32 <= c) (bytes_of " ")) as Hs by (by repeat (constructor; [simpl_chr; lia|])).
  rewrite !Forall_app. split_and!; try done. eapply Forall_impl; [exact Hc|]. intros c Hx%graphic_uri. lia.
Qed.

Lemma response_text_chars s reason : status_ok s reason -> Forall (fun c => 32 <= c \/ c = 9) (response_text s reason).
Proof.
  intros (Hs & Hr & _). destruct (status_digits s Hs) as (_ & Hd & _). unfold response_text. rewrite !Forall_app. split_and!.
  - eapply Forall_impl; [apply version_chars|]. auto.
  - by repeat (constructor; [left; simpl_chr; lia|]).
  - eapply Forall_impl; [exact Hd|]. intros c Hc%graphic_digit. lia.
  - by repeat (constructor; [left; simpl_chr; lia|]).
  - eapply Forall_impl; [exact Hr|]. intros c. unfold is_whitespace, is_vchar, is_opaque. simpl_chr. lia.
Qed.

Lemma print_response_text {T} `{Transport T} (resp : @response T) lines : s_version resp = version_default ->
  Headers.print (s_headers resp) = Ok lines ->
  print_response resp = Ok ((response_text (s_status resp) (s_reason resp) ++ crlf) ++ lines ++ crlf).
Proof.
  intros Hv Hl. unfold print_response. rewrite Hl. cbn [rbind]. f_equal. unfold response_text, version_text. rewrite Hv.
  by rewrite <- !app_assoc.
Qed.

(** The fields a receiver has, but for the length. *)
Lemma received_fields hdrs got len v : headers_ok net lib hdrs ->
  same_headers (put Headers.CONTENT_LENGTH v hdrs) got ->
  (forall n v, n <> Headers.CONTENT_LENGTH -> fields hdrs !! n = Some v ->
     exists w, fields (put Headers.CONTENT_LENGTH (num_val [] len) got) !! n = Some w /\ same_value v w) /\
  Headers.content_length (put Headers.CONTENT_LENGTH (num_val [] len) got) = Ok len.
Proof.
  intros Hh Hs. assert (wf got) as Hw.
  { pose proof (same_headers_names _ _ Hs) as E. unfold wf. rewrite E. apply (put_spec _ v); [by eapply headers_ok_wf|by split]. }
  destruct (put_spec Headers.CONTENT_LENGTH (num_val [] len) got Hw) as [_ Hf]; [by split|]. split.
  - intros n x Hn Hx. rewrite Hf, lookup_insert_ne by done. pose proof (same_lookup _ _ n Hs) as H.
    rewrite put_fields, lookup_insert_ne, Hx in H by done. done.
  - unfold Headers.content_length. rewrite fields_get, Hf, lookup_insert_eq by done. done.
Qed.

(** The exchange of a request, from the sender's fields to the receiver's. *)
Lemma request_exchange m u hdrs data (Hu : origin_form net u) (Hh : headers_ok net lib hdrs)
  (Hhost : Headers.is_set Headers.HOST hdrs = true) (Hte : Headers.TRANSFER_ENCODING ∉ hdrs.*1)
  (Hd : data <> []) (Hl : zlen data < 2 ^ 31) :
  exists req head,
    build_request true {| r_version := version_default; r_headers := hdrs; r_body := Some (Body.Body.from_string data);
                          r_type := m; r_uri := u; r_trailers := []; r_parameters := ∅ |} = Ok req /\
    print_request req = Ok head /\
    (zlen head < 2 ^ 31 -> forall inp out,
       send_request 2 req (conn inp out) = (Ok File.E_ok, conn inp (out ++ head ++ data))) /\
    forall rest out, exists got,
      recv_request net lib (2 + length hdrs) (conn (head ++ data ++ rest) out) = (Ok got, conn (data ++ rest) out) /\
      r_type got = m /\ r_uri got = u /\ r_version got = version_default /\
      r_body got = Some (Body.Body.from_socket_sized (conn (data ++ rest) out) (zlen data)) /\
      (forall n v, n <> Headers.CONTENT_LENGTH -> fields hdrs !! n = Some v ->
         exists w, fields (r_headers got) !! n = Some w /\ same_value v w) /\
      Headers.content_length (r_headers got) = Ok 0.
Proof.
  rewrite is_set_spec in Hhost by done. apply bool_decide_eq_true in Hhost as [v Hv].
  change (Headers.lower Headers.HOST) with Headers.HOST in Hv.
  assert (exists r hp, v = hp_val r hp) as (r & hp & ->).
  { destruct Hh as [Hnd Hok]. apply elem_of_list_to_map_2 in Hv. rewrite Forall_forall in Hok. apply Hok in Hv as (_ & Ht & _).
    destruct v; try (vm_compute in Ht; discriminate). eauto. }
  set (req0 := {| r_version := _ |}).
  pose proof (request_validated (T := pipe) req0 _ r hp Hu Hv Hte eq_refl eq_refl) as Hb. cbn [req0 r_version r_type r_uri r_headers] in Hb.
  change (Body.Body.length (Body.Body.from_string data)) with (zlen data) in Hb.
  destruct (receive_head data hdrs [] [] Hh Hte Hd Hl) as (lines & _ & Hp & _).
  set (sent := put Headers.CONTENT_LENGTH (num_val [] (zlen data)) hdrs) in *.
  eexists _, _. split; [exact Hb|].
  split; [by apply print_request_text|]. cbn [r_type r_uri r_headers r_body]. split.
  { intros Hlen inp out. unfold send_request. unfold bind at 1, lift. erewrite print_request_text; [|exact Hu|done|exact Hp].
    cbn [r_type r_uri r_body]. apply send_message_on; try done. by destruct m. }
  intros rest out. destruct (receive_head data hdrs (data ++ rest) out Hh Hte Hd Hl) as (lines' & got & Hp' & Hsh & Hne & Hr & Hbody).
  fold sent in Hp', Hsh. assert (lines' = lines) as -> by congruence.
  destruct (received_fields hdrs got 0 _ Hh Hsh) as [Hfields Hlen0].
  assert (exists r' hp', fields got !! Headers.HOST = Some (hp_val r' hp')) as (r' & hp' & Hhost').
  { pose proof (same_lookup sent got Headers.HOST Hsh) as H. unfold sent in H. rewrite put_fields, lookup_insert_ne, Hv in H by done.
    destruct H as (w & -> & Hw). destruct w; try done. eauto. }
  assert (Headers.TRANSFER_ENCODING ∉ got.*1) as Hte'.
  { rewrite (same_headers_names _ _ Hsh). intros [?|?]%put_names; done. }
  exists {| r_version := version_default; r_headers := put Headers.CONTENT_LENGTH (num_val [] 0) got;
    r_body := Some (Body.Body.from_socket_sized (conn (data ++ rest) out) (zlen data)); r_type := m; r_uri := u;
    r_trailers := []; r_parameters := ∅ |}.
  split; [|by split_and!].
  unfold recv_request, read_request.
  assert (((request_text m u ++ crlf) ++ lines ++ crlf) ++ data ++ rest = (request_text m u ++ [CR]) ++ LF :: lines ++ crlf ++ data ++ rest) as ->
    by (unfold crlf; by rewrite <- !app_assoc).
  set (read := {| r_version := version_default; r_headers := got;
    r_body := Some (Body.Body.from_socket_sized (conn (data ++ rest) out) (zlen data)); r_type := m; r_uri := u;
    r_trailers := []; r_parameters := ∅ |}).
  pose proof (request_validated read _ r' hp' Hu Hhost' Hte' eq_refl eq_refl) as Hb'.
  rewrite (bind_Ok _ _ _ read (conn (data ++ rest) out)).
  + unfold lift. by rewrite Hb'.
  + rewrite (bind_Ok _ _ _ (request_text m u ++ crlf) (conn (lines ++ crlf ++ data ++ rest) out)).
    2: { pose proof (feed_readline (feed := fun t => conn t out) (request_text m u ++ [CR]) (lines ++ crlf ++ data ++ rest)) as Hf.
         rewrite Hf by (apply text_no_lf; by apply request_text_chars). unfold crlf. by rewrite <- app_assoc. }
    unfold lift at 1. rewrite (bind_Ok _ _ _ _ (conn (lines ++ crlf ++ data ++ rest) out)) by (f_equal; by apply request_line_on).
    rewrite (bind_Ok _ _ _ _ _ Hr). destruct got as [|g got]; [done|].
    rewrite bind_gets. unfold lift at 1. rewrite Hbody. reflexivity.
Qed.

(** C6. A request with a path, canonical headers with a host, and a body of known
    length: it is valid, it is sent as its text followed by the data, and the
    receiver at the other end reads the same method, URI and version, the same
    value in every field, and a body on the connection that has the data before
    it and its length, whatever follows.  Only [Content-Length] is not what was
    sent: the validation of the receiver replaces it by 0. *)
Theorem request_received m u hdrs data (Hu : origin_form net u) (Hh : headers_ok net lib hdrs)
  (Hhost : Headers.is_set Headers.HOST hdrs = true) (Hte : Headers.TRANSFER_ENCODING ∉ hdrs.*1)
  (Hd : data <> []) (Hl : zlen data < 2 ^ 31) :
  exists req head,
    build_request true {| r_version := version_default; r_headers := hdrs; r_body := Some (Body.Body.from_string data);
                          r_type := m; r_uri := u; r_trailers := []; r_parameters := ∅ |} = Ok req /\
    print_request req = Ok head /\
    (zlen head < 2 ^ 31 -> forall inp out,
       send_request 2 req (conn inp out) = (Ok File.E_ok, conn inp (out ++ head ++ data))) /\
    forall rest out, exists got,
      recv_request net lib (2 + length hdrs) (conn (head ++ data ++ rest) out) = (Ok got, conn (data ++ rest) out) /\
      r_type got = m /\ r_uri got = u /\ r_version got = version_default /\
      r_body got = Some (Body.Body.from_socket_sized (conn (data ++ rest) out) (zlen data)) /\
      (forall n v, n <> Headers.CONTENT_LENGTH -> fields hdrs !! n = Some v ->
         exists w, fields (r_headers got) !! n = Some w /\ same_value v w) /\
      Headers.content_length (r_headers got) = Ok 0.
Proof. by apply request_exchange. Qed.

(** A response whose reason phrase is set is valid. *)
Lemma response_validated {T} `{Transport T} (resp : @response T) b : s_reason resp <> [] ->
  Headers.TRANSFER_ENCODING ∉ (s_headers resp).*1 -> s_body resp = Some b -> Body.Body.chunked b = false ->
  build_response true resp = Ok {| s_version := s_version resp;
    s_headers := put Headers.CONTENT_LENGTH (num_val [] (Body.Body.length b)) (s_headers resp); s_body := Some b;
    s_status := s_status resp; s_reason := s_reason resp |}.
Proof.
  intros Hr Ht Hb Hc. unfold build_response, validate_response. assert (Scanner.nonempty (s_reason resp) = true) as -> by (by destruct (s_reason resp)).
  cbn [rbind]. by rewrite Hb, length_validated by done.
Qed.

(** The sending of a response. *)
Lemma response_sent s reason hdrs data (Hs : status_ok s reason) (Hh : headers_ok net lib hdrs)
  (Hte : Headers.TRANSFER_ENCODING ∉ hdrs.*1) (Hd : data <> []) (Hl : zlen data < 2 ^ 31) :
  let sent := {| s_version := version_default; s_headers := put Headers.CONTENT_LENGTH (num_val [] (zlen data)) hdrs;
    s_body := Some (Body.Body.from_string data); s_status := s; s_reason := reason |} in
  exists head,
    build_response true {| s_version := version_default; s_headers := hdrs; s_body := Some (Body.Body.from_string data);
                           s_status := s; s_reason := reason |} = Ok sent /\
    print_response sent = Ok head /\
    (zlen head < 2 ^ 31 -> forall inp out, send_response 2 sent (conn inp out) = (Ok File.E_ok, conn inp (out ++ head ++ data))).
Proof.
  assert (reason <> []) as Hrne by (destruct Hs as (_ & _ & (c & w & -> & _) & _); done).
  pose proof (response_validated (T := pipe) {| s_version := version_default; s_headers := hdrs; s_body := Some (Body.Body.from_string data);
    s_status := s; s_reason := reason |} _ Hrne Hte eq_refl eq_refl) as Hb. cbn [s_version s_headers s_status s_reason] in Hb.
  change (Body.Body.length (Body.Body.from_string data)) with (zlen data) in Hb.
  destruct (receive_head data hdrs [] [] Hh Hte Hd Hl) as (lines & _ & Hp & _).
  eexists. split; [exact Hb|]. split; [by apply print_response_text|]. intros Hlen inp out.
  unfold send_response. unfold bind at 1, lift. erewrite print_response_text; [|done|exact Hp].
  cbn [s_status s_reason s_body]. apply send_message_on; done.
Qed.

Lemma response_exchange s reason hdrs data (Hs : status_ok s reason) (Hh : headers_ok net lib hdrs)
  (Hte : Headers.TRANSFER_ENCODING ∉ hdrs.*1) (Hd : data <> []) (Hl : zlen data < 2 ^ 31) :
  exists resp head,
    build_response true {| s_version := version_default; s_headers := hdrs; s_body := Some (Body.Body.from_string data);
                           s_status := s; s_reason := reason |} = Ok resp /\
    print_response resp = Ok head /\
    (zlen head < 2 ^ 31 -> forall inp out,
       send_response 2 resp (conn inp out) = (Ok File.E_ok, conn inp (out ++ head ++ data))) /\
    forall rest out, exists got,
      recv_response net lib (2 + length hdrs) (conn (head ++ data ++ rest) out) = (Ok got, conn (data ++ rest) out) /\
      s_status got = s /\ s_reason got = reason /\ s_version got = version_default /\
      s_body got = Some (Body.Body.from_socket_sized (conn (data ++ rest) out) (zlen data)) /\
      (forall n v, n <> Headers.CONTENT_LENGTH -> fields hdrs !! n = Some v ->
         exists w, fields (s_headers got) !! n = Some w /\ same_value v w) /\
      Headers.content_length (s_headers got) = Ok 0.
Proof.
  assert (reason <> []) as Hrne by (destruct Hs as (_ & _ & (c & w & -> & _) & _); done).
  destruct (response_sent s reason hdrs data Hs Hh Hte Hd Hl) as (head & Hb & Hprint & Hsend).
  destruct (receive_head data hdrs [] [] Hh Hte Hd Hl) as (lines & _ & Hp & _).
  assert (head = (response_text s reason ++ crlf) ++ lines ++ crlf) as ->.
  { erewrite print_response_text in Hprint; [|done|exact Hp]. by injection Hprint. }
  set (sent := put Headers.CONTENT_LENGTH (num_val [] (zlen data)) hdrs) in *.
  eexists _, _. split; [exact Hb|]. split; [exact Hprint|]. split; [exact Hsend|].
  intros rest out. destruct (receive_head data hdrs (data ++ rest) out Hh Hte Hd Hl) as (lines' & got & Hp' & Hsh & Hne & Hr & Hbody).
  fold sent in Hp', Hsh. assert (lines' = lines) as -> by congruence.
  destruct (received_fields hdrs got 0 _ Hh Hsh) as [Hfields Hlen0].
  assert (Headers.TRANSFER_ENCODING ∉ got.*1) as Hte'.
  { rewrite (same_headers_names _ _ Hsh). intros [?|?]%put_names; done. }
  exists {| s_version := version_default; s_headers := put Headers.CONTENT_LENGTH (num_val [] 0) got;
    s_body := Some (Body.Body.from_socket_sized (conn (data ++ rest) out) (zlen data)); s_status := s; s_reason := reason |}.
  split; [|by split_and!].
  unfold recv_response, read_response.
  assert (((response_text s reason ++ crlf) ++ lines ++ crlf) ++ data ++ rest = (response_text s reason ++ [CR]) ++ LF :: lines ++ crlf ++ data ++ rest) as ->
    by (unfold crlf; by rewrite <- !app_assoc).
  set (read := {| s_version := version_default; s_headers := got;
    s_body := Some (Body.Body.from_socket_sized (conn (data ++ rest) out) (zlen data)); s_status := s; s_reason := reason |}).
  pose proof (response_validated read _ Hrne Hte' eq_refl eq_refl) as Hb'.
  rewrite (bind_Ok _ _ _ read (conn (data ++ rest) out)).
  + unfold lift. by rewrite Hb'.
  + rewrite (bind_Ok _ _ _ (response_text s reason ++ crlf) (conn (lines ++ crlf ++ data ++ rest) out)).
    2: { pose proof (feed_readline (feed := fun t => conn t out) (response_text s reason ++ [CR]) (lines ++ crlf ++ data ++ rest)) as Hf.
         rewrite Hf; [unfold crlf; by rewrite <- app_assoc|]. apply text_no_lf. by apply response_text_chars. }
    unfold lift at 1. rewrite (bind_Ok _ _ _ _ (conn (lines ++ crlf ++ data ++ rest) out)) by (f_equal; by apply response_line_on).
    rewrite (bind_Ok _ _ _ _ _ Hr). destruct got as [|g got]; [done|].
    rewrite bind_gets. unfold lift at 1. rewrite Hbody. reflexivity.
Qed.

(** C7. The same for a response: status, reason phrase, fields and body arrive. *)
Theorem response_received s reason hdrs data (Hs : status_ok s reason) (Hh : headers_ok net lib hdrs)
  (Hte : Headers.TRANSFER_ENCODING ∉ hdrs.*1) (Hd : data <> []) (Hl : zlen data < 2 ^ 31) :
  exists resp head,
    build_response true {| s_version := version_default; s_headers := hdrs; s_body := Some (Body.Body.from_string data);
                           s_status := s; s_reason := reason |} = Ok resp /\
    print_response resp = Ok head /\
    (zlen head < 2 ^ 31 -> forall inp out,
       send_response 2 resp (conn inp out) = (Ok File.E_ok, conn inp (out ++ head ++ data))) /\
    forall rest out, exists got,
      recv_response net lib (2 + length hdrs) (conn (head ++ data ++ rest) out) = (Ok got, conn (data ++ rest) out) /\
      s_status got = s /\ s_reason got = reason /\ s_version got = version_default /\
      s_body got = Some (Body.Body.from_socket_sized (conn (data ++ rest) out) (zlen data)) /\
      (forall n v, n <> Headers.CONTENT_LENGTH -> fields hdrs !! n = Some v ->
         exists w, fields (s_headers got) !! n = Some w /\ same_value v w) /\
      Headers.content_length (s_headers got) = Ok 0.
Proof. by apply response_exchange. Qed.

(** A request without a body is sent without [Content-Length], and no such
    request can be received: reading it throws [std::out_of_range]. *)
Theorem request_without_length m u hdrs (Hu : origin_form net u) (Hh : headers_ok net lib hdrs)
  (Hhost : Headers.is_set Headers.HOST hdrs = true) (Hte : Headers.TRANSFER_ENCODING ∉ hdrs.*1)
  (Hcl : Headers.CONTENT_LENGTH ∉ hdrs.*1) :
  exists lines, print_request (T := pipe)
      {| r_version := version_default; r_headers := hdrs; r_body := None; r_type := m; r_uri := u; r_trailers := []; r_parameters := ∅ |} =
      Ok ((request_text m u ++ crlf) ++ lines ++ crlf) /\
    forall rest out, exists io,
      recv_request net lib (1 + length hdrs) (conn (((request_text m u ++ crlf) ++ lines ++ crlf) ++ rest) out) = (Throw out_of_range, io).
Proof.
  assert (forall rest out, exists lines got, Headers.print hdrs = Ok lines /\ same_headers hdrs got /\
    read_headers net lib (1 + length hdrs) [] (conn (lines ++ crlf ++ rest) out) = (Ok got, conn rest out)) as Hread.
  { intros rest out. apply (read_headers_on net lib (feed := fun t => conn t out) hdrs []); [done|apply Hh|lia]. }
  destruct (Hread [] []) as (lines & _ & Hp & _). exists lines. split; [by apply print_request_text|].
  intros rest out. destruct (Hread rest out) as (lines' & got & Hp' & Hsh & Hr). assert (lines' = lines) as -> by congruence.
  assert (hdrs <> []) as Hne by (intros ->; by vm_compute in Hhost).
  eexists. unfold recv_request, read_request.
  assert (((request_text m u ++ crlf) ++ lines ++ crlf) ++ rest = (request_text m u ++ [CR]) ++ LF :: lines ++ crlf ++ rest) as ->
    by (unfold crlf; by rewrite <- !app_assoc).
  unfold bind at 1. rewrite (bind_Ok _ _ _ (request_text m u ++ crlf) (conn (lines ++ crlf ++ rest) out)).
  2: { pose proof (feed_readline (feed := fun t => conn t out) (request_text m u ++ [CR]) (lines ++ crlf ++ rest)) as Hf.
       rewrite Hf by (apply text_no_lf; by apply request_text_chars). unfold crlf. by rewrite <- app_assoc. }
  unfold lift at 1. rewrite (bind_Ok _ _ _ _ (conn (lines ++ crlf ++ rest) out)) by (f_equal; by apply request_line_on).
  rewrite (bind_Ok _ _ _ _ _ Hr). pose proof (same_headers_names _ _ Hsh) as En. destruct got as [|g got]; [by destruct hdrs|].
  rewrite bind_gets. unfold body_of. unfold Headers.is_message_chunked, Headers.has_token. rewrite find_none by (by rewrite En).
  unfold Headers.content_length. rewrite fields_get by done. rewrite fields_not_in by (by rewrite En). reflexivity.
Qed.
End message.

(** ** Chunks *)

(** What [send_body] writes for a functor that yields one piece of data: there is
    no end of line between the size and the data. *)
Definition sent_chunk (data : bytes) : bytes := print_uint 16 (zlen data) ++ data ++ crlf ++ bytes_of "0" ++ crlf ++ crlf.

(** A character that no reader of the head of a chunk accepts behind the size. *)
Definition not_in_head (c : Z) : Prop := isxdigit c = false /\ c <> chr ";" /\ c <> CR /\ c <> LF /\ c <> -1.

Lemma chunk_sent data inp out : data <> [] -> zlen data < 2 ^ 31 ->
  send_body 2 (Body.Body.from_functor [(File.E_ok, data, []); (File.E_ok, [], [])], conn inp out) =
    (Ok File.E_ok, (functor_source [] 0 [] [], conn inp (out ++ sent_chunk data))).
Proof.
  intros Hd Hl. pose proof (zlen_pos data Hd) as Hpos. destruct (print_hex (zlen data)) as (_ & _ & Hne); [lia|].
  assert (zlen (print_uint 16 (zlen data)) < 2 ^ 31) as Hhl.
  { unfold zlen at 1, print_uint. rewrite length_fmap. pose proof (digits_length 16 ltac:(lia) (zlen data) 8 ltac:(lia) ltac:(lia)). lia. }
  unfold send_body. rewrite (bind_Ok _ _ _ true (Body.Body.from_functor _, conn inp out)) by done.
  rewrite (bind_Ok _ _ _ 0 (Body.Body.from_functor _, conn inp out)) by done. change (int64 0) with 0.
  rewrite (bind_Ok _ _ _ (File.E_ok, 0) (functor_source [] 0 [] [], conn inp (out ++ print_uint 16 (zlen data) ++ data ++ crlf))).
  + change (File.E_ok =? File.E_ok) with true. cbv iota. unfold of_io, focus. cbn [fst snd].
    rewrite (send_data_on last_chunk) by done. unfold sent_chunk. by rewrite <- !app_assoc.
  + cbn [send_loop].
    rewrite (bind_Ok _ _ _ true (functor_source [(File.E_ok, [], [])] (zlen data) data [], conn inp out)).
    2: { unfold of_body, focus. cbn [fst snd Body.Body.has_next Body.Body.from_functor]. change (File.E_ok =? File.E_ok) with true.
         destruct (Z.eqb_spec (zlen data) 0); [lia|done]. }
    rewrite (bind_Ok _ _ _ (File.E_ok, 0) (functor_source [(File.E_ok, [], [])] 0 data [], conn inp (out ++ print_uint 16 (zlen data) ++ data ++ crlf))).
    { change (negb (File.E_ok =? File.E_ok)) with false. cbv iota. rewrite (bind_Ok _ _ _ false (functor_source [] 0 [] [], conn inp (out ++ print_uint 16 (zlen data) ++ data ++ crlf))); done. }
    unfold send_piece. rewrite (bind_Ok _ _ _ [] (functor_source [(File.E_ok, [], [])] (zlen data) data [], conn inp out)) by done.
    rewrite (bind_Ok _ _ _ data (functor_source [(File.E_ok, [], [])] 0 data [], conn inp out)).
    2: { unfold of_body, focus. cbn [fst snd Body.Body.next]. destruct (Z.eqb_spec (zlen data) 0); [lia|done]. }
    rewrite (bind_Ok _ _ _ File.E_ok (functor_source [(File.E_ok, [], [])] 0 data [], conn inp (out ++ print_uint 16 (zlen data) ++ data ++ crlf))); [done|].
    unfold of_io, focus. cbn [fst snd]. unfold and_then. unfold chunk_head. change (concat _) with (@nil Z). rewrite app_nil_r.
    rewrite (bind_Ok _ _ _ _ _ (send_data_on _ inp out Hne Hhl)). change (negb (File.E_ok =? File.E_ok)) with false. cbv iota.
    rewrite (bind_Ok _ _ _ _ _ (send_data_on data inp _ Hd Hl)). change (negb (File.E_ok =? File.E_ok)) with false. cbv iota.
    rewrite (send_data_on crlf_text) by done. by rewrite <- !app_assoc.
Qed.

Lemma chunk_head_refused n c (v r out : bytes) : 0 <= n < 2 ^ 63 -> not_in_head c -> LF ∉ v ->
  exists b, stream_has_next (chunked_body (conn ((print_uint 16 n ++ c :: v) ++ LF :: r) out)) = (Throw bad_message, b).
Proof.
  intros Hn (Hc1 & Hc2 & Hc3 & Hc4 & Hc5) Hlf. destruct (print_hex n) as (Hx & Hv & Hne); [lia|]. set (h := print_uint 16 n) in *.
  assert (LF ∉ h ++ c :: v) as Hno.
  { rewrite elem_of_app, elem_of_cons. intros [Hi|[Hi|Hi]]; [|congruence|done]. rewrite Forall_forall in Hx. by apply Hx in Hi. }
  unfold stream_has_next. rewrite bind_gets. unfold chunked_body. cbn [b_read b_size b_chunked]. change (0 <? 0) with false. cbv iota.
  unfold from_src. unfold bind at 1. unfold bind at 1. unfold focus. cbn [b_src].
  rewrite (feed_readline (feed := fun t => conn t out)) by done. cbv iota beta. rewrite <- app_assoc. cbn [app].
  assert (Scanner.read_chunk_size (Scanner.scan (h ++ c :: v ++ [LF])) = (Ok (Some n), on h (c :: v ++ [LF]))) as Hrc.
  { rewrite scan_on. unfold Scanner.read_chunk_size. rewrite (bind_Ok _ _ _ _ _ (read_while_on isxdigit [] h (c :: v ++ [LF]) eq_refl Hx Hc1)).
    assert (Scanner.nonempty h = true) as -> by (by destruct h). cbv zeta. rewrite Hv. destruct (Z.ltb_spec n (2 ^ 63)); [|lia].
    rewrite after_on by (cbn; rewrite length_app; cbn; lia). done. }
  unfold bind at 1, on_scanner at 1. rewrite Hrc. cbv iota beta. unfold set_size, modify. unfold bind at 1. cbv iota beta.
  unfold bind at 1, on_scanner at 1. rewrite read_special_ne by done.
  assert (put_back h c (v ++ [LF]) = on h (c :: v ++ [LF])) as -> by (by destruct v).
  cbv iota beta. unfold bind at 1. unfold ret at 1. cbv iota beta. unfold bind at 1, on_scanner at 1.
  unfold Scanner.read_crlf. rewrite (bind_Ok _ _ _ _ _ (get_on h c _)).
  rewrite (proj2 (Z.eqb_neq c (-1))), (proj2 (Z.eqb_neq c LF)), (proj2 (Z.eqb_neq c CR)) by done. cbv iota.
  rewrite (bind_Ok _ _ _ _ _ (unget_on h c _)). unfold ret at 1. cbv iota beta. cbn [negb]. eexists. reflexivity.
Qed.

(** Data sent as a chunk cannot be read as one, unless it starts with what
    could follow the size: the reader of a chunked body on the other end of the
    connection refuses its head. *)
Theorem sent_chunk_refused c w (Hc : not_in_head c) (Hl : zlen (c :: w) < 2 ^ 31) inp out rest :
  send_body 2 (Body.Body.from_functor [(File.E_ok, c :: w, []); (File.E_ok, [], [])], conn inp out) =
    (Ok File.E_ok, (functor_source [] 0 [] [], conn inp (out ++ sent_chunk (c :: w)))) /\
  exists b, stream_has_next (chunked_body (conn (sent_chunk (c :: w) ++ rest) out)) = (Throw bad_message, b).
Proof.
  split; [by apply chunk_sent|]. pose proof (zlen_nonneg (c :: w)).
  assert (exists v r, w ++ crlf ++ (bytes_of "0" ++ crlf ++ crlf) ++ rest = v ++ LF :: r /\ LF ∉ v) as (v & r & Ew & Hlf).
  { apply list_elem_of_split_l. rewrite elem_of_app. right. right. by left. }
  assert (sent_chunk (c :: w) ++ rest = (print_uint 16 (zlen (c :: w)) ++ c :: v) ++ LF :: r) as ->.
  { unfold sent_chunk. rewrite <- !app_assoc. cbn [app]. rewrite <- Ew. by rewrite <- !app_assoc. }
  apply chunk_head_refused; [lia|done|done].
Qed.

(** ** Witnesses *)
Definition demo_target : uri := mk [] [] [] [] (path_of [bytes_of "api"; bytes_of "v1"] true false) (bytes_of "q=1") [].
Definition demo_fields : headers :=
  [(Headers.HOST, hp_val [] {| hp_host := bytes_of "example.org"; hp_port := 8080 |});
   (bytes_of "accept", str_seq [] [bytes_of "json"; bytes_of "plain"]);
   (Headers.CONTENT_TYPE, mt_val [] {| mt_type := bytes_of "text"; mt_subtype := bytes_of "plain"; mt_parameters := [] |})].

Lemma demo_target_origin : origin_form demo_inet demo_target.
Proof.
  split; [|by split_and!]. split; simpl.
  - by left.
  - by left.
  - right. exists [bytes_of "api"; bytes_of "v1"], true, false. split; [done|]. split; [|done].
    repeat (constructor; [split; [done|split; [repeat constructor|intros _; split; intros ?; discriminate]]|]). constructor.
  - done.
  - repeat constructor.
  - constructor.
Qed.

Lemma checked_name s : forallb is_tchar s = true -> s <> [] -> tolower <$> s = s -> is_name s.
Proof.
  intros Hs Hne Hl. split; [|done]. split; [done|]. apply Forall_forall. intros c Hc%list_elem_of_In.
  by apply (proj1 (forallb_forall _ _) Hs).
Qed.
Lemma checked_string s : forallb is_tchar s = true -> s <> [] -> tolower <$> s = s -> long s -> string_ok s.
Proof. intros Hs Hne Hl Hlo. split; [by apply checked_name|done]. Qed.

Lemma demo_fields_ok : headers_ok demo_inet demo_clock demo_fields.
Proof.
  split.
  - repeat (apply NoDup_cons; split; [intros Hi; repeat (apply elem_of_cons in Hi as [Hi|Hi]; [discriminate|]); by apply elem_of_nil in Hi|]).
    apply NoDup_nil_2.
  - repeat apply Forall_cons_2; [..|apply Forall_nil_2]; (split; [by apply checked_name|split; [reflexivity|]]).
    + split; [reflexivity|]. split; [left; repeat constructor|cbn; lia].
    + repeat (constructor; [apply checked_string; try done; unfold long; cbn; lia|]). constructor.
    + split; [|reflexivity]. split; [by apply checked_name|]. split; [apply checked_string; try done; unfold long; cbn; lia|constructor].
Qed.

Lemma demo_not_in n : n ∉ demo_fields.*1 <-> forallb (fun h => negb (bool_decide (h.1 = n))) demo_fields = true.
Proof.
  rewrite forallb_forall. split.
  - intros Hn [m v] Hi%list_elem_of_In. cbn. apply negb_true_iff, bool_decide_eq_false. intros ->. apply Hn.
    apply list_elem_of_fmap. by exists (n, v).
  - intros Hf [[m v] [-> Hi]]%list_elem_of_fmap. apply list_elem_of_In, Hf in Hi. cbn in Hi.
    by rewrite bool_decide_true in Hi.
Qed.

Lemma request_received_witness :
  exists req head,
    build_request (T := pipe) true {| r_version := version_default; r_headers := demo_fields;
      r_body := Some (Body.Body.from_string (bytes_of "hello")); r_type := M_POST; r_uri := demo_target;
      r_trailers := []; r_parameters := ∅ |} = Ok req /\
    print_request req = Ok head /\
    (zlen head < 2 ^ 31 -> forall inp out,
       send_request 2 req (conn inp out) = (Ok File.E_ok, conn inp (out ++ head ++ bytes_of "hello"))) /\
    forall rest out, exists got,
      recv_request demo_inet demo_clock (2 + length demo_fields) (conn (head ++ bytes_of "hello" ++ rest) out) = (Ok got, conn (bytes_of "hello" ++ rest) out) /\
      r_type got = M_POST /\ r_uri got = demo_target /\ r_version got = version_default /\
      r_body got = Some (Body.Body.from_socket_sized (conn (bytes_of "hello" ++ rest) out) (zlen (bytes_of "hello"))) /\
      (forall n v, n <> Headers.CONTENT_LENGTH -> fields demo_fields !! n = Some v ->
         exists w, fields (r_headers got) !! n = Some w /\ same_value v w) /\
      Headers.content_length (r_headers got) = Ok 0.
Proof.
  apply (request_received demo_inet demo_clock M_POST demo_target demo_fields (bytes_of "hello")).
  - apply demo_target_origin.
  - apply demo_fields_ok.
  - reflexivity.
  - apply demo_not_in. reflexivity.
  - discriminate.
  - reflexivity.
Defined.

Lemma response_received_witness :
  exists resp head,
    build_response (T := pipe) true {| s_version := version_default; s_headers := demo_fields;
      s_body := Some (Body.Body.from_string (bytes_of "hello")); s_status := 200; s_reason := bytes_of "OK" |} = Ok resp /\
    print_response resp = Ok head /\
    (zlen head < 2 ^ 31 -> forall inp out,
       send_response 2 resp (conn inp out) = (Ok File.E_ok, conn inp (out ++ head ++ bytes_of "hello"))) /\
    forall rest out, exists got,
      recv_response demo_inet demo_clock (2 + length demo_fields) (conn (head ++ bytes_of "hello" ++ rest) out) = (Ok got, conn (bytes_of "hello" ++ rest) out) /\
      s_status got = 200 /\ s_reason got = bytes_of "OK" /\ s_version got = version_default /\
      s_body got = Some (Body.Body.from_socket_sized (conn (bytes_of "hello" ++ rest) out) (zlen (bytes_of "hello"))) /\
      (forall n v, n <> Headers.CONTENT_LENGTH -> fields demo_fields !! n = Some v ->
         exists w, fields (s_headers got) !! n = Some w /\ same_value v w) /\
      Headers.content_length (s_headers got) = Ok 0.
Proof.
  apply (response_received demo_inet demo_clock 200 (bytes_of "OK") demo_fields (bytes_of "hello")).
  - split; [lia|]. split; [repeat constructor|]. apply solid_Forall; [discriminate|repeat constructor].
  - apply demo_fields_ok.
  - apply demo_not_in. reflexivity.
  - discriminate.
  - reflexivity.
Defined.

Lemma request_without_length_witness :
  exists lines, print_request (T := pipe)
      {| r_version := version_default; r_headers := demo_fields; r_body := None; r_type := M_GET; r_uri := demo_target;
         r_trailers := []; r_parameters := ∅ |} =
      Ok ((request_text M_GET demo_target ++ crlf) ++ lines ++ crlf) /\
    forall rest out, exists io,
      recv_request demo_inet demo_clock (1 + length demo_fields) (conn (((request_text M_GET demo_target ++ crlf) ++ lines ++ crlf) ++ rest) out) =
        (Throw out_of_range, io).
Proof.
  apply (request_without_length demo_inet demo_clock M_GET demo_target demo_fields).
  - apply demo_target_origin.
  - apply demo_fields_ok.
  - reflexivity.
  - apply demo_not_in. reflexivity.
  - apply demo_not_in. reflexivity.
Defined.

Lemma sent_chunk_refused_witness :
  not_in_head (chr "h") /\ zlen (bytes_of "hello") < 2 ^ 31 /\
  send_body 2 (Body.Body.from_functor [(File.E_ok, bytes_of "hello", []); (File.E_ok, [], [])], conn [] []) =
    (Ok File.E_ok, (functor_source [] 0 [] [], conn [] ([] ++ sent_chunk (bytes_of "hello")))) /\
  exists b, stream_has_next (chunked_body (conn (sent_chunk (bytes_of "hello") ++ []) [])) = (Throw bad_message, b).
Proof.
  assert (not_in_head (chr "h")) as Hc by (split; [reflexivity|split_and!; discriminate]).
  split; [exact Hc|]. split; [reflexivity|]. apply (sent_chunk_refused (chr "h") (bytes_of "ello") Hc). reflexivity.
Defined.
