(* ===== verification/Router.v ===== *)
(** * http: the router (http/include/server/router.h, http/src/server/router.cpp)

    A tree of path segments with handlers, its construction, and the search for
    the handler of a path. *)
From S2P Require Import Prelude Effects Numbers UriText Uri.
From S2P Require Import Text Scanner Hval Nio Body Message.
From S2P Require File.

Import Scanner.

(** [std::regex]: the compilation of an expression (case is ignored), which
    fails with [std::regex_error], and the match of a whole string. *)
Class Regex (R : Type) := {
  regex : bytes -> option R;
  regex_match : R -> bytes -> bool }.

Module Router.
Section router.
Context `{Transport T} `{Regex R}.

(** [request_handler_t]; an empty [std::function] is [None]. *)
Definition request_handler := @request T -> res cpp_exn (@response T).

Inductive path_segment :=
  | Segment (m_name m_param : bytes) (m_regexpr : option R) (m_children : list path_segment) (m_handler : option request_handler).

Definition m_name (s : path_segment) : bytes := let '(Segment n _ _ _ _) := s in n.
Definition m_param (s : path_segment) : bytes := let '(Segment _ p _ _ _) := s in p.
Definition m_regexpr (s : path_segment) : option R := let '(Segment _ _ r _ _) := s in r.
Definition m_children (s : path_segment) : list path_segment := let '(Segment _ _ _ c _) := s in c.
Definition m_handler (s : path_segment) : option request_handler := let '(Segment _ _ _ _ h) := s in h.

Definition with_children (c : list path_segment) (s : path_segment) : path_segment :=
  Segment (m_name s) (m_param s) (m_regexpr s) c (m_handler s).
Definition with_handler (h : option request_handler) (s : path_segment) : path_segment :=
  Segment (m_name s) (m_param s) (m_regexpr s) (m_children s) h.

(** The characters of a segment that is no parameter. *)
Definition segment_char (c : Z) : bool :=
  uri_unreserved_character c || uri_subcomponent_delimiter c || (c =? chr "@") || (c =? chr ":").

(** [path_segment(seg)]; [front] and [back] of the empty string are undefined. *)
Definition new_segment (seg : bytes) : res cpp_exn path_segment :=
  match seg with
  | [] => Ub
  | c :: _ =>
      if (c =? chr "{") && (List.last seg 0 =? chr "}") then
        let? (found, (param, name)) := fst (read_path_parameter (scan_range seg 1 (length seg - 1))) in
        if negb found then Throw invalid_argument
        else match regex name with
             | Some r => Ok (Segment name param (Some r) [] None)
             | None => Throw invalid_argument
             end
      else if forallb segment_char seg then Ok (Segment seg [] None [] None)
      else Throw invalid_argument
  end.

Definition is_param (s : path_segment) : bool := nonempty (m_param s).

Definition matches (elem : bytes) (s : path_segment) : bool :=
  match m_regexpr s with
  | Some r => regex_match r elem
  | None => bool_decide (elem = m_name s)
  end.

(** [split]: the text between slashes, without the empty ones. *)
Fixpoint split_loop (path elem : bytes) : list bytes :=
  match path with
  | [] => if nonempty elem then [elem] else []
  | c :: path =>
      if c =? chr "/" then (if nonempty elem then elem :: split_loop path [] else split_loop path [])
      else split_loop path (elem ++ [c])
  end.
Definition split (path : bytes) : list bytes := split_loop path [].

(** [find(segments, name)]: the position of the segment with a name. *)
Fixpoint find (name : bytes) (segments : list path_segment) : option nat :=
  match segments with
  | [] => None
  | s :: segments => if bool_decide (m_name s = name) then Some O else Datatypes.S <$> find name segments
  end.

(** The second loop of [add]: new segments, each in the children of the one
    before it; the last one gets the handler.  Those made before an exception
    stay. *)
Fixpoint grow (elements : list bytes) (handler : option request_handler) (segments : list path_segment) :
    res cpp_exn unit * list path_segment :=
  match elements with
  | [] => (Ok tt, segments)
  | e :: elements =>
      match new_segment e with
      | Ok seg =>
          let '(r, children) := grow elements handler [] in
          let seg := with_children children seg in
          let seg := match elements with [] => with_handler handler seg | _ => seg end in
          (r, match m_regexpr seg with Some _ => segments ++ [seg] | None => seg :: segments end)
      | Throw x => (Throw x, segments)
      | Ub => (Ub, segments)
      | Diverge => (Diverge, segments)
      end
  end.

(** [add]: the first loop goes down the segments that are there. *)
Fixpoint add_loop (elements : list bytes) (handler : option request_handler) (segments : list path_segment) :
    res cpp_exn unit * list path_segment :=
  match elements with
  | [] => (Ok tt, segments)
  | e :: rest =>
      match find e segments with
      | None => grow elements handler segments
      | Some i =>
          match segments !! i with
          | None => (Ub, segments)
          | Some seg =>
              match rest with
              | [] => (Ok tt, <[i := with_handler handler seg]> segments)
              | _ =>
                  let '(r, children) := add_loop rest handler (m_children seg) in
                  (r, <[i := with_children children seg]> segments)
              end
          end
      end
  end.
Definition add (path : bytes) (handler : option request_handler) (root : list path_segment) :
    res cpp_exn unit * list path_segment :=
  add_loop (split path) handler root.

(** The search.  The pointer [seg] and the stack of parameters are passed by
    reference, so a call changes them for its caller; [pop] of an empty stack is
    undefined. *)
Record search := { seg : option path_segment; param_stk : list (bytes * bytes) }.
Abbreviation S := (M cpp_exn search).

Definition set_seg (s : path_segment) : S unit := modify (fun st => {| seg := Some s; param_stk := param_stk st |}).
Definition push (kv : bytes * bytes) : S unit := modify (fun st => {| seg := seg st; param_stk := kv :: param_stk st |}).
Definition pop : S unit := fun st =>
  match param_stk st with
  | [] => (Ub, st)
  | _ :: stk => (Ok tt, {| seg := seg st; param_stk := stk |})
  end.

(** [if (seg->is_param())], of the pointer as it is now. *)
Definition seg_is_param : S bool := gets (fun st => match seg st with Some s => is_param s | None => false end).

(** The loop over the segments of a level, with the search below a segment. *)
Fixpoint level (below : list path_segment -> S Z) (elem : bytes) (segments : list path_segment) (retval : Z) : S Z :=
  match segments with
  | [] => ret retval
  | s :: segments =>
      set_seg s;;
      if matches elem s then
        (if is_param s then push (m_name s, elem) else ret tt);;
        let! retval := below (m_children s) in
        if retval =? File.E_ok then ret retval
        else
          let! p := seg_is_param in
          (if p then pop else ret tt);;
          level below elem segments retval
      else level below elem segments retval
  end.

Fixpoint handle_path (elements : list bytes) (segments : list path_segment) : S Z :=
  match elements with
  | [] => ret File.E_ok
  | e :: elements => level (handle_path elements) e segments File.E_not_found
  end.

(** The checks of the response a handler has made. *)
Definition check_response (req : @request T) (resp : @response T) : res cpp_exn (@response T) :=
  match s_body resp with
  | None => Ok resp
  | Some _ =>
      let s := s_status resp in
      let? _ :=
        if bool_decide (r_type req = M_HEAD) then Throw (http_exception 500)
        else if bool_decide (r_type req = M_CONNECT) && is_success_status s then Throw (http_exception s)
        else Ok tt in
      if is_info_status s || (s =? 204) || (s =? 304) then Throw (http_exception s) else Ok resp
  end.

(** The call of a handler, with [catch (std::bad_function_call &)]. *)
Definition call_handler (handler : option request_handler) (req : @request T) : res cpp_exn (@response T) :=
  match
    match handler with
    | Some h => let? resp := h req in check_response req resp
    | None => Throw bad_function_call
    end
  with
  | Throw bad_function_call => Throw not_implemented
  | r => r
  end.

(** [handle(req)]: the response, and the request with its path parameters. *)
Definition handle (root : list path_segment) (req : @request T) : res cpp_exn (@response T) * @request T :=
  let elements := split (p_component (m_upath (r_uri req))) in
  match handle_path elements root {| seg := None; param_stk := [] |} with
  | (Ok retval, st) =>
      if retval =? File.E_ok then
        let req := foldl (fun req kv => set_path_parameter kv req) req (param_stk st) in
        (call_handler (match seg st with Some s => m_handler s | None => None end) req, req)
      else (Throw not_found, req)
  | (Throw e, _) => (Throw e, req)
  | (Ub, _) => (Ub, req)
  | (Diverge, _) => (Diverge, req)
  end.
End router.
End Router.

(** ** Facts (http: what the router finds)

    A router whose routes have no parameters is a finite map from paths to
    handlers.  With parameters the search is no longer safe. *)

Import Router.

Section facts.
Context `{Transport T} `{Regex R}.
Abbreviation seg_t := (@path_segment T R).
Abbreviation handler_t := (@request_handler T).

(** ** Trees without parameters *)

(** No parameter, and the names of the children are distinct, at every level. *)
Inductive literal : seg_t -> Prop :=
  | literal_segment n cs h : Forall literal cs -> NoDup (m_name <$> cs) -> literal (Segment n [] None cs h).

Definition level_ok (segments : list seg_t) : Prop := Forall literal segments /\ NoDup (m_name <$> segments).

Lemma literal_children s : literal s -> level_ok (m_children s).
Proof. by inversion 1. Qed.

Lemma literal_matches s e : literal s -> matches e s = bool_decide (e = m_name s).
Proof. by inversion 1. Qed.

Lemma literal_no_param s : literal s -> is_param s = false.
Proof. by inversion 1. Qed.

(** The segment of a path. *)
Fixpoint walk (elements : list bytes) (segments : list seg_t) : option seg_t :=
  match elements with
  | [] => None
  | e :: rest =>
      match find e segments with
      | Some i => s ← segments !! i; match rest with [] => Some s | _ => walk rest (m_children s) end
      | None => None
      end
  end.

(** The handler of a path. *)
Definition handler_at (elements : list bytes) (segments : list seg_t) : option handler_t := walk elements segments ≫= m_handler.

Lemma find_Some e (segments : list seg_t) i : find e segments = Some i -> exists s, segments !! i = Some s /\ m_name s = e.
Proof.
  revert i. induction segments as [|s segments IH]; intros i; cbn [find]; [done|]. case_bool_decide as E.
  - intros [= <-]. by exists s.
  - destruct (find e segments) as [j|]; [|done]. intros [= <-]. by apply IH.
Qed.

Lemma find_None e (segments : list seg_t) : find e segments = None <-> e ∉ m_name <$> segments.
Proof.
  induction segments as [|s segments IH]; cbn [find]; [split; [intros _; apply not_elem_of_nil|done]|].
  rewrite fmap_cons, not_elem_of_cons. case_bool_decide as E; [split; [done|by intros []]|].
  destruct (find e segments); cbn; [split; [done|]|]; naive_solver.
Qed.

(** ** The search *)
Definition state_ok (st : search) : Prop := match seg st with Some s => is_param (R := R) (T := T) s = false | None => True end.

(** One level, when the search below a segment leaves the stack alone. *)
Lemma level_spec (below : list seg_t -> M cpp_exn search Z) (found : seg_t -> option seg_t) e segments : forall retval st,
  level_ok segments -> state_ok st -> retval <> File.E_ok ->
  (forall s st, s ∈ segments -> seg st = Some s -> exists r st', below (m_children s) st = (Ok r, st') /\
     param_stk st' = param_stk st /\ state_ok st' /\
     match found s with Some x => r = File.E_ok /\ seg st' = Some x | None => r = File.E_not_found end) ->
  exists r st', level below e segments retval st = (Ok r, st') /\ param_stk st' = param_stk st /\ state_ok st' /\
    match find e segments ≫= (fun i => segments !! i ≫= found) with
    | Some x => r = File.E_ok /\ seg st' = Some x
    | None => r = match find e segments with Some _ => File.E_not_found | None => retval end
    end.
Proof.
  induction segments as [|s segments IH]; intros retval st [Hl Hd] Hst Hr Hbelow.
  { exists retval, st. done. }
  inversion Hl as [|?? Hs Hl']; subst. rewrite fmap_cons in Hd. apply NoDup_cons in Hd as [Hni Hd].
  set (st1 := {| seg := Some s; param_stk := param_stk st |}).
  assert (state_ok st1) as Hst1 by (by apply literal_no_param).
  assert (forall retval st, state_ok st -> retval <> File.E_ok -> exists r st', level below e segments retval st = (Ok r, st') /\
    param_stk st' = param_stk st /\ state_ok st' /\
    match find e segments ≫= (fun i => segments !! i ≫= found) with
    | Some x => r = File.E_ok /\ seg st' = Some x
    | None => r = match find e segments with Some _ => File.E_not_found | None => retval end
    end) as Hrest.
  { intros rv st2 Hst2 Hrv. apply IH; [by split|done|done|]. intros x sx Hx. apply Hbelow. by right. }
  cbn [level find]. unfold set_seg, modify. unfold bind at 1. fold st1. rewrite literal_matches by done.
  case_bool_decide as E; [rewrite bool_decide_true by congruence|rewrite bool_decide_false by congruence].
  - rewrite literal_no_param by done. unfold bind at 1, ret at 1.
    destruct (Hbelow s st1) as (r & st' & Hb & Hstk & Hok & Hf); [by left|done|].
    unfold bind at 1. rewrite Hb. cbn [mbind option_bind lookup list_lookup].
    destruct (found s) as [x|].
    + destruct Hf as [-> Hx]. change (File.E_ok =? File.E_ok) with true. cbv iota. by exists File.E_ok, st'.
    + subst r. change (File.E_not_found =? File.E_ok) with false. cbv iota.
      assert (seg_is_param (T := T) (R := R) st' = (Ok false, st')) as Hp.
      { unfold seg_is_param, gets. unfold state_ok in Hok. destruct (seg st') as [x|]; [by rewrite Hok|done]. }
      unfold bind at 1. rewrite Hp. unfold bind at 1, ret at 1.
      destruct (Hrest File.E_not_found st' Hok ltac:(done)) as (r & st2 & Hlev & Hstk2 & Hok2 & Hf2).
      exists r, st2. split; [done|]. split; [by rewrite Hstk2, Hstk|]. split; [done|].
      assert (find e segments = None) as Hn by (apply find_None; by subst e).
      by rewrite Hn in Hf2.
  - destruct (Hrest retval st1 Hst1 Hr) as (r & st2 & Hlev & Hstk2 & Hok2 & Hf2).
    exists r, st2. split; [done|]. split; [done|]. split; [done|].
    destruct (find e segments) as [i|]; cbn [fmap option_fmap option_map mbind option_bind] in *; done.
Qed.

(** The search in a tree without parameters: the segment of the path, and an
    empty stack of parameters stays empty. *)
Lemma handle_path_spec elements : forall segments st, level_ok segments -> state_ok st -> elements <> [] ->
  exists r st', handle_path elements segments st = (Ok r, st') /\ param_stk st' = param_stk st /\ state_ok st' /\
    match walk elements segments with
    | Some s => r = File.E_ok /\ seg st' = Some s
    | None => r = File.E_not_found
    end.
Proof.
  induction elements as [|e elements IH]; intros segments st Hlev Hst Hne; [done|]. clear Hne. cbn [handle_path].
  destruct (level_spec (handle_path elements) (fun s => match elements with [] => Some s | _ => walk elements (m_children s) end)
    e segments File.E_not_found st Hlev Hst ltac:(done)) as (r & st' & Hl & Hstk & Hok & Hf).
  - intros s st1 Hs Hseg. destruct elements as [|f elements].
    + exists File.E_ok, st1. split; [done|]. split; [done|]. split; [|done]. unfold state_ok. rewrite Hseg.
      apply literal_no_param. destruct Hlev as [Hlit _]. rewrite Forall_forall in Hlit. by apply Hlit.
    + apply IH; [|unfold state_ok; rewrite Hseg|done].
      * apply literal_children. destruct Hlev as [Hlit _]. rewrite Forall_forall in Hlit. by apply Hlit.
      * apply literal_no_param. destruct Hlev as [Hlit _]. rewrite Forall_forall in Hlit. by apply Hlit.
  - exists r, st'. split; [done|]. split; [done|]. split; [done|]. cbn [walk].
    destruct (find e segments) as [i|]; cbn [mbind option_bind] in *; [|done].
    destruct (segments !! i) as [s|]; cbn [mbind option_bind] in *; done.
Qed.

(** ** Adding a route *)

(** What is found below a segment. *)
Definition step (rest : list bytes) (s : seg_t) : option seg_t := match rest with [] => Some s | _ => walk rest (m_children s) end.

(** Every character may appear in a segment that is no parameter. *)
Definition literal_element (e : bytes) : Prop := e <> [] /\ forallb segment_char e = true.

(** The tree [segments'] is [segments] with the handler [h] for the path [es]. *)
Definition updated (es : list bytes) (h : option handler_t) (segments segments' : list seg_t) : Prop :=
  forall p, p <> [] -> handler_at p segments' = (if decide (p = es) then h else handler_at p segments) /\
    (is_Some (walk p segments') <-> is_Some (walk p segments) \/ p `prefix_of` es).

Lemma walk_cons e rest s (segments : list seg_t) :
  walk (e :: rest) (s :: segments) = if decide (e = m_name s) then step rest s else walk (e :: rest) segments.
Proof.
  cbn [walk find]. destruct (decide (e = m_name s)) as [E|E].
  - by rewrite bool_decide_true by congruence.
  - rewrite bool_decide_false by congruence. by destruct (find e segments).
Qed.

Lemma find_insert e i s s' (segments : list seg_t) :
  segments !! i = Some s -> m_name s' = m_name s -> find e (<[i := s']> segments) = find e segments.
Proof.
  revert i. induction segments as [|x segments IH]; intros [|i] Hi En; cbn in *; try done.
  - injection Hi as ->. by rewrite En.
  - by rewrite IH.
Qed.

Lemma walk_insert e i s s' p (segments : list seg_t) :
  find e segments = Some i -> segments !! i = Some s -> m_name s' = m_name s ->
  walk p (<[i := s']> segments) = match p with [] => None | f :: rest => if decide (f = e) then step rest s' else walk p segments end.
Proof.
  intros Hf Hi En. destruct p as [|f rest]; [done|]. cbn [walk]. rewrite (find_insert f i s s') by done.
  destruct (decide (f = e)) as [->|Hne].
  - rewrite Hf, list_lookup_insert_eq by (by eapply lookup_lt_Some). done.
  - destruct (find f segments) as [j|] eqn:Hj; [|done].
    rewrite list_lookup_insert_ne; [done|]. intros <-.
    destruct (find_Some _ _ _ Hf) as (x & Hx & ?), (find_Some _ _ _ Hj) as (y & Hy & ?). congruence.
Qed.

Lemma walk_found e i s rest (segments : list seg_t) :
  find e segments = Some i -> segments !! i = Some s -> walk (e :: rest) segments = step rest s.
Proof. intros Hf Hi. cbn [walk]. by rewrite Hf, Hi. Qed.

(** A level changes with one of its segments. *)
Lemma updated_level e rest h segments segments' (s s' : seg_t) :
  (forall p, walk p segments' = match p with [] => None | f :: r => if decide (f = e) then step r s' else walk p segments end) ->
  (forall r, step r s ≫= m_handler = handler_at (e :: r) segments) ->
  (forall r, r <> [] -> step r s = walk (e :: r) segments) ->
  match rest with
  | [] => s' = with_handler h s
  | _ => m_handler s' = m_handler s /\ updated rest h (m_children s) (m_children s')
  end ->
  updated (e :: rest) h segments segments'.
Proof.
  intros Hw Hh Hs Hrest [|f r] Hp; [done|]. unfold handler_at at 1. rewrite Hw. destruct (decide (f = e)) as [->|Hne].
  2:{ rewrite decide_False by congruence. split; [done|]. split; [by left|intros [?|Hpre]; [done|]].
      by apply prefix_cons_inv_1 in Hpre. }
  rewrite <- Hh. destruct r as [|g r].
  - cbn [step mbind option_bind]. split; [|split; [right|by eexists]; apply prefix_cons, prefix_nil].
    destruct rest as [|k rest]; [subst s'; by rewrite decide_True|].
    rewrite decide_False by congruence. apply Hrest.
  - rewrite <- (Hs (g :: r)) by done. destruct rest as [|k rest].
    + subst s'. rewrite decide_False by congruence. cbn [step with_handler m_children]. split; [done|].
      split; [by left|intros [?|Hpre]; [done|]]. by apply prefix_cons_inv_2, prefix_nil_inv in Hpre.
    + destruct Hrest as [_ Hrest]. destruct (Hrest (g :: r) ltac:(done)) as [Hr1 Hr2]. cbn [step]. split.
      * unfold handler_at in Hr1. rewrite Hr1. destruct (decide (g :: r = k :: rest)) as [E|E].
        -- by rewrite decide_True by congruence.
        -- by rewrite decide_False by congruence.
      * rewrite Hr2. split; (intros [?|Hpre]; [by left|right]); [by apply prefix_cons|by apply prefix_cons_inv_2 in Hpre].
Qed.

Lemma literal_new_segment e : literal_element e -> new_segment (T := T) (R := R) e = Ok (Segment e [] None [] None).
Proof.
  intros [Hne Hc]. unfold new_segment. destruct e as [|c e]; [done|].
  assert ((c =? chr "{") = false) as ->.
  { apply Z.eqb_neq. intros ->. cbn [forallb] in Hc. by apply andb_prop in Hc as [Hc _]. }
  by rewrite Hc.
Qed.

Lemma level_ok_cons s (segments : list seg_t) : literal s -> find (m_name s) segments = None -> level_ok segments -> level_ok (s :: segments).
Proof.
  intros Hs Hf [Hl Hd]. split; [by constructor|]. rewrite fmap_cons. apply NoDup_cons. split; [by apply find_None|done].
Qed.

Lemma level_ok_insert i s s' (segments : list seg_t) :
  segments !! i = Some s -> m_name s' = m_name s -> literal s' -> level_ok segments -> level_ok (<[i := s']> segments).
Proof.
  intros Hi En Hs [Hl Hd]. split; [by apply Forall_insert|].
  rewrite list_fmap_insert, En. rewrite list_insert_id; [done|]. by rewrite list_lookup_fmap, Hi.
Qed.

Lemma grow_updates es : forall h segments, Forall literal_element es -> level_ok segments ->
  match es with [] => True | e :: _ => find e segments = None end ->
  exists segments', grow es h segments = (Ok tt, segments') /\ level_ok segments' /\ (es <> [] -> updated es h segments segments').
Proof.
  induction es as [|e rest IH]; intros h segments Hes Hlev Hf; [by exists segments|].
  inversion Hes as [|?? He Hrest]; subst. cbn [grow]. rewrite literal_new_segment by done.
  destruct (IH h [] Hrest) as (children & Hg & Hc & Hu); [by split; [|constructor]|by destruct rest|]. rewrite Hg.
  cbn [with_children with_handler m_name m_param m_regexpr m_children m_handler].
  set (new := match rest with [] => _ | _ => _ end).
  assert (exists k, new = Segment e [] None children k /\ k = match rest with [] => h | _ => None end) as (k & Ek & Hk) by (unfold new; destruct rest; by eexists).
  assert (literal new) as Hnew by (rewrite Ek; destruct Hc; by constructor).
  assert (m_name new = e) as En by (by rewrite Ek).
  assert (m_regexpr new = None) as -> by (by rewrite Ek).
  exists (new :: segments). split; [done|]. split; [apply level_ok_cons; [done|by rewrite En|done]|]. intros _.
  apply (updated_level e rest h segments _ (Segment e [] None [] None) new).
  - intros [|f r]; [done|]. by rewrite walk_cons, En.
  - intros r. unfold handler_at. cbn [walk]. rewrite Hf. destruct r as [|f r]; [done|]. by cbn.
  - intros [|f r] Hr; [done|]. cbn [walk step]. by rewrite Hf.
  - rewrite Ek, Hk. destruct rest as [|f r]; [|split; [done|by apply Hu]].
    cbn [grow] in Hg. injection Hg as <-. done.
Qed.

Lemma add_loop_updates es : forall h segments, Forall literal_element es -> level_ok segments ->
  exists segments', add_loop es h segments = (Ok tt, segments') /\ level_ok segments' /\ (es <> [] -> updated es h segments segments').
Proof.
  induction es as [|e rest IH]; intros h segments Hes Hlev; [by exists segments|].
  cbn [add_loop]. destruct (find e segments) as [i|] eqn:Hf; [|by apply grow_updates].
  destruct (find_Some _ _ _ Hf) as (s & Hi & En). rewrite Hi.
  assert (literal s) as Hs by (destruct Hlev as [Hl _]; by eapply (Forall_lookup_1 _ _ _ _ Hl)).
  inversion Hes as [|?? He Hrest]; subst.
  assert (forall s', m_name s' = m_name s -> literal s' ->
    match rest with [] => s' = with_handler h s | _ => m_handler s' = m_handler s /\ updated rest h (m_children s) (m_children s') end ->
    level_ok (<[i := s']> segments) /\ updated (m_name s :: rest) h segments (<[i := s']> segments)) as Hdone.
  { intros s' En' Hs' Hr. split; [by eapply level_ok_insert|].
    apply (updated_level (m_name s) rest h segments _ s s'); [intros p; by eapply walk_insert| |intros r _; symmetry; by eapply walk_found|done].
    intros r. unfold handler_at. by rewrite (walk_found _ _ s r _ Hf). }
  destruct rest as [|f rest].
  - eexists. split; [done|]. destruct (Hdone (with_handler h s)) as [? ?]; [done| |done|by split].
    destruct Hs. by constructor.
  - destruct (IH h (m_children s) Hrest (literal_children _ Hs)) as (children & -> & Hc & Hu).
    eexists. split; [done|]. destruct (Hdone (with_children children s)) as [? ?]; [done| |split; [done|by apply Hu]|by split].
    destruct Hs, Hc. by constructor.
Qed.

(** ** The table of routes *)

(** The calls of [add], in order, until one fails. *)
Fixpoint add_all (routes : list (bytes * option handler_t)) (root : list seg_t) : res cpp_exn unit * list seg_t :=
  match routes with
  | [] => (Ok tt, root)
  | (path, h) :: routes => match add path h root with (Ok _, root) => add_all routes root | r => r end
  end.

(** The handler of every path; a path without elements is no route. *)
Abbreviation table := (gmap (list bytes) (option handler_t)).
Definition add_route (t : table) (r : bytes * option handler_t) : table :=
  match split r.1 with [] => t | es => <[es := r.2]> t end.
Definition route_table (routes : list (bytes * option handler_t)) : table := foldl add_route ∅ routes.

(** What the table says of a request: a route is called, a path on the way to a
    route is not implemented, and no other path is found. *)
Definition answer (t : table) (req : @request T) : res cpp_exn (@response T) :=
  let es := split (p_component (m_upath (r_uri req))) in
  match t !! es with
  | Some h => call_handler h req
  | None => if decide (es = [] \/ map_Exists (fun k _ => es `prefix_of` k) t) then Throw not_implemented else Throw not_found
  end.

(** A tree without parameters stands for a table. *)
Definition tree_of (t : table) (root : list seg_t) : Prop :=
  level_ok root /\ t !! [] = None /\
  forall p, p <> [] -> handler_at p root = mjoin (t !! p) /\ (is_Some (walk p root) <-> map_Exists (fun k _ => p `prefix_of` k) t).

Lemma add_tree path h t root : Forall literal_element (split path) -> tree_of t root ->
  exists root', add path h root = (Ok tt, root') /\ tree_of (add_route t (path, h)) root'.
Proof.
  intros Hl (Hlev & Hnil & Ht). unfold add, add_route. cbn [fst snd].
  destruct (add_loop_updates (split path) h root Hl Hlev) as (root' & Ha & Hlev' & Hu). exists root'. split; [done|].
  destruct (split path) as [|e es] eqn:Es; [cbn in Ha; by injection Ha as <-|].
  split; [done|]. split; [by rewrite lookup_insert_ne|]. intros p Hp.
  destruct (Hu ltac:(done) p Hp) as [Hh Hw], (Ht p Hp) as [Hh' Hw']. split.
  - rewrite Hh. destruct (decide (p = e :: es)) as [->|Hne]; [by rewrite lookup_insert_eq|].
    by rewrite lookup_insert_ne.
  - rewrite Hw, Hw'. split.
    + intros [(k & x & Hk & Hpre)|Hpre].
      * destruct (decide (k = e :: es)) as [->|Hne]; [by exists (e :: es), h; rewrite lookup_insert_eq|].
        exists k, x. by rewrite lookup_insert_ne.
      * exists (e :: es), h. by rewrite lookup_insert_eq.
    + intros (k & x & Hk & Hpre). apply lookup_insert_Some in Hk as [[<- _]|[_ Hk]]; [by right|left; by exists k, x].
Qed.

Lemma add_all_tree routes : forall t root, Forall (fun r => Forall literal_element (split r.1)) routes -> tree_of t root ->
  exists root', add_all routes root = (Ok tt, root') /\ tree_of (foldl add_route t routes) root'.
Proof.
  induction routes as [|[path h] routes IH]; intros t root Hr Ht; [by exists root|].
  inversion Hr as [|?? Hp Hrest]; subst. destruct (add_tree path h t root Hp Ht) as (root1 & Ha & Ht1).
  cbn [add_all foldl]. rewrite Ha. by apply IH.
Qed.

Lemma handle_tree t root req : tree_of t root -> handle root req = (answer t req, req).
Proof.
  intros (Hlev & Hnil & Ht). unfold handle, answer. set (es := split _).
  destruct (decide (es = [])) as [->|Hne].
  { rewrite Hnil. cbn [handle_path]. unfold ret. rewrite decide_True by (by left). done. }
  destruct (handle_path_spec es root {| seg := None; param_stk := [] |}) as (r & st & -> & Hstk & _ & Hw); [done..|].
  destruct (Ht es Hne) as [Hh Hex]. unfold handler_at in Hh. destruct (walk es root) as [s|].
  - destruct Hw as [-> Hseg]. change (File.E_ok =? File.E_ok) with true. cbv iota. rewrite Hstk, Hseg. cbn [foldl param_stk].
    cbn [mbind option_bind] in Hh. rewrite Hh. destruct (t !! es) as [h|]; [by destruct h|].
    rewrite decide_True by (right; apply Hex; by eexists). done.
  - subst r. change (File.E_not_found =? File.E_ok) with false. cbv iota.
    destruct (t !! es) as [h|] eqn:El.
    + assert (is_Some (@None seg_t)) as [? [=]]. apply Hex. by exists es, h.
    + rewrite decide_False; [done|]. intros [?|Hx]; [done|]. apply Hex in Hx as [? [=]].
Qed.

Lemma routes_tree routes : Forall (fun r => Forall literal_element (split r.1)) routes ->
  exists root, add_all routes [] = (Ok tt, root) /\ tree_of (route_table routes) root.
Proof.
  intros Hr. apply (add_all_tree routes ∅ [] Hr). split; [split; constructor|]. split; [done|]. intros p Hp. split.
  - rewrite lookup_empty. unfold handler_at. by destruct p.
  - split; [|by intros (k & x & Hk & _)]. by destruct p; [|intros [? [=]]].
Qed.

(** C8. A router whose routes have no parameters is a finite map: after any
    sequence of calls of [add] with such paths, none of which fails, [handle]
    calls the handler last added for the elements of the request's path, throws
    [not_implemented] for a path that only leads to routes, throws [not_found]
    for any other, and leaves the request as it was.  A route without elements,
    such as the root, is never called. *)
Theorem router_is_map routes : Forall (fun r => Forall literal_element (split r.1)) routes ->
  exists root, add_all routes [] = (Ok tt, root) /\ forall req, handle root req = (answer (route_table routes) req, req).
Proof.
  intros Hr. destruct (routes_tree routes Hr) as (root & Ha & Ht). exists root. split; [done|].
  intros req. by apply handle_tree.
Qed.

(** ** Routes with parameters *)

(** The tree of one route. *)
Fixpoint chain (segs : list seg_t) (h : option handler_t) : list seg_t :=
  match segs with
  | [] => []
  | [s] => [Segment (m_name s) (m_param s) (m_regexpr s) [] h]
  | s :: segs => [Segment (m_name s) (m_param s) (m_regexpr s) (chain segs h) (m_handler s)]
  end.

(** The values of the parameters, under the text of their expressions. *)
Fixpoint bindings (segs : list seg_t) (vs : list bytes) : list (bytes * bytes) :=
  match segs, vs with
  | s :: segs, v :: vs => (if is_param s then [(m_name s, v)] else []) ++ bindings segs vs
  | _, _ => []
  end.

Lemma grow_chain h es segs : Forall2 (fun e s => new_segment e = Ok s) es segs -> grow es h [] = (Ok tt, chain segs h).
Proof.
  induction 1 as [|e s es segs He Hes IH]; [done|]. cbn [grow]. rewrite He, IH.
  destruct es as [|e2 es]; inversion Hes; subst; destruct s as [n p [r|] c k]; done.
Qed.

Lemma add_chain path h segs : Forall2 (fun e s => new_segment e = Ok s) (split path) segs -> add path h [] = (Ok tt, chain segs h).
Proof.
  intros Hs. unfold add. destruct (split path) as [|e es] eqn:E; [by inversion Hs|].
  cbn [add_loop find]. by apply grow_chain.
Qed.

Lemma handle_chain h segs : forall vs st, segs <> [] -> Forall2 (fun v s => matches v s = true) vs segs ->
  exists s, handle_path vs (chain segs h) st = (Ok File.E_ok, {| seg := Some s; param_stk := reverse (bindings segs vs) ++ param_stk st |}) /\
    m_handler s = h.
Proof.
  induction segs as [|s segs IH]; intros vs st Hne Hm; [done|]. clear Hne.
  inversion Hm as [|v ? vs' ? Hv Hvs]; subst.
  set (new := Segment (m_name s) (m_param s) (m_regexpr s) (chain segs h) (match segs with [] => h | _ => m_handler s end)).
  assert (chain (s :: segs) h = [new]) as -> by (by destruct segs).
  cbn [handle_path level]. unfold set_seg, modify. unfold bind at 1.
  assert (matches v new = true) as -> by exact Hv.
  change (is_param new) with (is_param s). cbn [bindings]. rewrite reverse_app, <- app_assoc.
  set (st1 := {| seg := Some new; param_stk := reverse (if is_param s then [(m_name s, v)] else []) ++ param_stk st |}).
  assert ((if is_param s then push (m_name new, v) else ret tt) {| seg := Some new; param_stk := param_stk st |} = (Ok tt, st1)) as Hpush
    by (unfold st1; by destruct (is_param s)).
  unfold bind at 1. rewrite Hpush. unfold bind at 1. change (m_children new) with (chain segs h).
  destruct segs as [|s2 segs].
  - inversion Hvs; subst. cbn [handle_path]. exists new. done.
  - destruct (IH vs' st1 ltac:(done) Hvs) as (x & -> & Hx). by exists x.
Qed.

Lemma set_parameters_union kvs : forall req : @request T,
  r_parameters (foldl (fun req kv => set_path_parameter kv req) req kvs) = r_parameters req ∪ list_to_map kvs.
Proof.
  induction kvs as [|[k v] kvs IH]; intros req; [cbn [foldl list_to_map foldr]; by rewrite (right_id_L ∅ (∪))|]. cbn [foldl]. rewrite IH.
  apply map_eq. intros i. rewrite !lookup_union. cbn [set_path_parameter r_parameters fst snd list_to_map foldr].
  destruct (r_parameters req !! k) as [x|] eqn:E.
  - destruct (decide (i = k)) as [->|Hne]; [rewrite E, lookup_insert_eq; by destruct (list_to_map kvs !! k)|by rewrite lookup_insert_ne].
  - destruct (decide (i = k)) as [->|Hne]; [rewrite !lookup_insert_eq, E; by destruct (list_to_map kvs !! k)|by rewrite !lookup_insert_ne].
Qed.

(** A router with one route, any of whose elements may be parameters, calls
    its handler for a request each of whose path elements matches.  The values
    are recorded under the text of the expressions, and not under the names of
    the parameters; of parameters with the same expression (such as two without
    one) only the last value remains. *)
Theorem route_parameters path h segs (req : @request T) :
  split path <> [] -> Forall2 (fun e s => new_segment e = Ok s) (split path) segs ->
  Forall2 (fun v s => matches v s = true) (split (p_component (m_upath (r_uri req)))) segs ->
  exists root req', add path h [] = (Ok tt, root) /\ handle root req = (call_handler h req', req') /\
    r_parameters req' = r_parameters req ∪ list_to_map (reverse (bindings segs (split (p_component (m_upath (r_uri req)))))).
Proof.
  intros Hne Hs Hm. assert (segs <> []) as Hsegs by (intros ->; by inversion Hs).
  destruct (handle_chain h segs _ {| seg := None; param_stk := [] |} Hsegs Hm) as (s & Hh & Hsh).
  eexists _, _. split; [by apply add_chain|]. split; [|by apply set_parameters_union].
  unfold handle. rewrite Hh. change (File.E_ok =? File.E_ok) with true. cbv iota.
  cbn [seg param_stk]. by rewrite Hsh, app_nil_r.
Qed.

(** The search pops an empty stack, which is undefined behaviour, when a
    parameter with no children follows an element that is no parameter, and the
    request's path goes on after both: the search returns to the first element
    with [seg], passed by reference, still at the parameter. *)
Theorem parameter_backtrack path h e p (s1 s2 : seg_t) (req : @request T) v1 v2 v3 vs :
  split path = [e; p] -> new_segment e = Ok s1 -> new_segment p = Ok s2 -> is_param s1 = false -> is_param s2 = true ->
  split (p_component (m_upath (r_uri req))) = v1 :: v2 :: v3 :: vs -> matches v1 s1 = true -> matches v2 s2 = true ->
  exists root, add path h [] = (Ok tt, root) /\ handle root req = (Ub, req).
Proof.
  intros Ep H1 H2 Hp1 Hp2 Er Hm1 Hm2. exists (chain [s1; s2] h). split.
  { apply add_chain. rewrite Ep. by repeat constructor. }
  destruct s1 as [n1 p1 r1 c1 h1], s2 as [n2 p2 r2 c2 h2]. unfold handle. rewrite Er.
  unfold matches, is_param in *. cbn [m_name m_param m_regexpr m_children m_handler] in *.
  cbn [chain handle_path level m_name m_param m_regexpr m_children m_handler].
  unfold set_seg, modify, push, pop, seg_is_param, gets, ret, is_param, matches.
  repeat (unfold bind, modify, gets, ret; cbn [m_name m_param m_regexpr m_children m_handler param_stk seg];
    rewrite ?Hm1, ?Hm2, ?Hp1, ?Hp2; change (File.E_not_found =? File.E_ok) with false; cbv iota).
  done.
Qed.
End facts.

(** ** Concrete routers *)

(** Expressions other than the default one match nothing but their own text. *)
Definition demo_regex : Regex bytes := {|
  regex e := Some e;
  regex_match r e := if bool_decide (r = Scanner.any_segment) then Scanner.nonempty e && forallb (fun c => negb (c =? chr "/")) e else bool_decide (e = r) |}.
#[local] Existing Instance demo_regex.

Definition demo_request (p : string) : @request pipe :=
  {| r_version := version_default; r_headers := []; r_body := None; r_type := M_GET;
     r_uri := {| m_scheme := m_scheme uri_init; m_userinfo := m_userinfo uri_init; m_host := m_host uri_init; m_port := m_port uri_init;
       m_upath := {| p_component := bytes_of p; m_path := bytes_of p; m_segments := []; m_slash_at_start := true; m_slash_at_end := false |};
       m_query := m_query uri_init; m_fragment := m_fragment uri_init |};
     r_trailers := []; r_parameters := ∅ |}.
Definition demo_handler (status : Z) : request_handler (T := pipe) :=
  fun req => Ok {| s_version := version_default; s_headers := []; s_body := None; s_status := status; s_reason := [] |}.

Lemma router_is_map_witness :
  exists root, add_all [(bytes_of "/p1/p2/p3", Some (demo_handler 200)); (bytes_of "p1/p2", Some (demo_handler 201)); (bytes_of "/", Some (demo_handler 202))] [] = (Ok tt, root) /\
    forall req, handle root req =
      (answer (route_table [(bytes_of "/p1/p2/p3", Some (demo_handler 200)); (bytes_of "p1/p2", Some (demo_handler 201)); (bytes_of "/", Some (demo_handler 202))]) req, req).
Proof. apply router_is_map. by repeat (constructor; [repeat constructor; done|]). Defined.

(** The answers for the example of router.h. *)
Example demo_routes :
  let t := route_table [(bytes_of "/p1/p2/p3", Some (demo_handler 200)); (bytes_of "p1/p2", Some (demo_handler 201)); (bytes_of "/", Some (demo_handler 202))] in
  let status r := match r with Ok resp => Ok (s_status resp) | Throw e => Throw e | Ub => Ub | Diverge => Diverge end in
  (fun p => status (answer t (demo_request p))) <$> ["/p1/p2/p3"; "/p1/p2"; "/p1"; "/p2"; "/"]%string =
    [Ok 200; Ok 201; Throw not_implemented; Throw not_found; Throw not_implemented].
Proof. vm_compute. reflexivity. Qed.

Definition demo_segment (name param : string) : path_segment (T := pipe) :=
  Segment (bytes_of name) (bytes_of param) (match param with EmptyString => None | _ => Some (bytes_of name) end) [] None.

Lemma route_parameters_witness :
  exists root req', add (bytes_of "/users/{id}/{item}") (Some (demo_handler 200)) [] = (Ok tt, root) /\
    handle root (demo_request "/users/7/book") = (call_handler (Some (demo_handler 200)) req', req') /\
    r_parameters req' = {[Scanner.any_segment := bytes_of "book"]}.
Proof.
  destruct (route_parameters (bytes_of "/users/{id}/{item}") (Some (demo_handler 200))
    (demo_segment "users" "" :: demo_segment "[^/]+" "id" :: demo_segment "[^/]+" "item" :: []) (demo_request "/users/7/book"))
    as (root & req' & Ha & Hh & Hp).
  - vm_compute. discriminate.
  - replace (split _) with [bytes_of "users"; bytes_of "{id}"; bytes_of "{item}"] by (vm_compute; reflexivity).
    repeat (constructor; [vm_compute; reflexivity|]). constructor.
  - repeat (constructor; [vm_compute; reflexivity|]). constructor.
  - exists root, req'. split; [exact Ha|]. split; [exact Hh|]. rewrite Hp. vm_compute. reflexivity.
Defined.

Lemma parameter_backtrack_witness :
  exists root, add (bytes_of "/users/{id}") (Some (demo_handler 200)) [] = (Ok tt, root) /\
    handle root (demo_request "/users/7/book") = (Ub, demo_request "/users/7/book").
Proof.
  eapply (parameter_backtrack (bytes_of "/users/{id}") (Some (demo_handler 200)) (bytes_of "users") (bytes_of "{id}")); reflexivity.
Defined.
