(* ===== verification/Reactor.v ===== *)
(** * libnet: the reactor (libnet/include/reactor.h, libnet/src/reactor.cpp)

    Handlers are registered for the events of sockets; a thread polls the sockets
    and calls the handlers.  The mutex of the reactor is part of its state: a
    thread that locks a mutex it holds does not return. *)
From stdpp Require Import sorting.
From S2P Require Import Prelude Effects Text Scanner Nio.

Inductive event := ev_read | ev_write | ev_error | ev_hup | ev_invalid | ev_timeout.
#[export] Instance event_eq_dec : EqDecision event.
Proof. solve_decision. Defined.

(** [static_cast<short>(e)], with the values of the flags of poll on Linux. *)
Definition event_bits (e : event) : Z :=
  match e with
  | ev_read => 1 | ev_write => 4 | ev_error => 8 | ev_hup => 16 | ev_invalid => 32 | ev_timeout => 4096
  end.
Definition registrable (e : event) : bool := bool_decide (e = ev_read) || bool_decide (e = ev_write).

Definition INVALID_SOCKET : Z := -1.
(** The largest time point; times are in nanoseconds. *)
Definition TIME_MAX : Z := 2 ^ 63 - 1.

(** A handler: the one of the reactor's own pair of sockets, or one of its
    user's. *)
Inductive handler (H : Type) := sockpair_handler | user_handler (h : H).
Arguments sockpair_handler {H}. Arguments user_handler {H} h.

Record ev_info (H : Type) := { ei_e : event; ei_h : handler H; ei_to : Z; ei_exp : Z }.
Arguments ei_e {H}. Arguments ei_h {H}. Arguments ei_to {H}. Arguments ei_exp {H}.

(** The members; [m_reader] is the socket the reactor reads its wake-ups from,
    and [m_pair] the bytes that wait there. *)
Record reactor (H : Type) := {
  m_timeout : Z; m_stopped : bool; m_reader : Z; m_pair : bytes; m_lock : bool;
  m_handlers : gmap Z (list (ev_info H)) }.
Arguments m_timeout {H}. Arguments m_stopped {H}. Arguments m_reader {H}.
Arguments m_pair {H}. Arguments m_lock {H}. Arguments m_handlers {H}.

Record pollfd := { fd : Z; events : Z; revents : Z }.

(** Handlers as the reactor sees them: [name()] and [operator()] on a world they
    share, of which the reactor is a part.  A handler that is called while the
    mutex is held and returns has not changed the members of the reactor: they are
    private, and the methods that change them lock the mutex, or, like [stop],
    wait for the thread the handler runs in. *)
Class Names (W H : Type) := {
  handler_name : H -> M cpp_exn (W * reactor H) bytes;
  name_private h st : (handler_name h st).2 = st }.
Class Handlers (W H : Type) := {
  operator_call : H -> Z -> event -> M cpp_exn (W * reactor H) bool;
  call_private h s e st : m_lock st.2 = true ->
    match operator_call h s e st with (Ok _, st') | (Throw _, st') => st'.2 = st.2 | _ => True end }.

Module Reactor.
Section reactor.
Context `{Names W H}.
Abbreviation X := (M cpp_exn (W * reactor H)).

Definition with_stopped (r : reactor H) : reactor H :=
  {| m_timeout := m_timeout r; m_stopped := true; m_reader := m_reader r; m_pair := m_pair r; m_lock := m_lock r; m_handlers := m_handlers r |}.
Definition with_reader (fd : Z) (pair : bytes) (r : reactor H) : reactor H :=
  {| m_timeout := m_timeout r; m_stopped := m_stopped r; m_reader := fd; m_pair := pair; m_lock := m_lock r; m_handlers := m_handlers r |}.
Definition with_lock (l : bool) (r : reactor H) : reactor H :=
  {| m_timeout := m_timeout r; m_stopped := m_stopped r; m_reader := m_reader r; m_pair := m_pair r; m_lock := l; m_handlers := m_handlers r |}.
Definition with_handlers (hs : gmap Z (list (ev_info H))) (r : reactor H) : reactor H :=
  {| m_timeout := m_timeout r; m_stopped := m_stopped r; m_reader := m_reader r; m_pair := m_pair r; m_lock := m_lock r; m_handlers := hs |}.

Definition get_r {A} (f : reactor H -> A) : X A := gets (fun st => f st.2).
Definition modify_r (f : reactor H -> reactor H) : X unit := modify (fun st => (st.1, f st.2)).

(** [std::lock_guard<std::mutex> guard(m_lock)] around the rest of a block. *)
Definition guarded {A} (m : X A) : X A := fun st =>
  if m_lock st.2 then (Diverge, st)
  else let '(r, st) := m (st.1, with_lock true st.2) in (r, (st.1, with_lock false st.2)).

(** [m_sockpair[1].write_integral(1)] *)
Definition wake : X unit := modify_r (fun r => with_reader (m_reader r) (m_pair r ++ int_bytes 1) r).

(** [ev_info(e, to, h)] *)
Definition new_ev_info (now : Z) (e : event) (to : Z) (h : handler H) : ev_info H :=
  if to <=? 0 then {| ei_e := e; ei_h := h; ei_to := 0; ei_exp := TIME_MAX |}
  else {| ei_e := e; ei_h := h; ei_to := to; ei_exp := now + to * 1000000 |}.

(** [name()], whose text goes to the log. *)
Definition name (h : handler H) : X bytes :=
  match h with
  | sockpair_handler => ret (bytes_of "socket-pair-handler")
  | user_handler h => handler_name h
  end.

(** [sockpair_handler::operator()] *)
Definition sockpair_call (s : Z) (e : event) : X bool :=
  let! reader := get_r m_reader in
  if negb (bool_decide (e = ev_read)) || negb (s =? reader) then
    modify_r (fun r => with_reader INVALID_SOCKET [] r);; ret false
  else
    modify_r (fun r =>
      match read_int (nio_init {| p_in := m_pair r; p_out := [] |}) with
      | Some (_, io) => with_reader (m_reader r) (p_in (m_dev io)) r
      | None => r
      end);;
    ret true.

(** The position of the handler of an event. *)
Definition find_event (e : event) (eis : list (ev_info H)) : option nat :=
  fst <$> list_find (fun ei => ei_e ei = e) eis.

(** [add_handler]; a handler that is [None] is a null pointer.  The timeout of a
    handler that is replaced stays. *)
Definition add_handler (now : Z) (s : Z) (e : event) (h : option (handler H)) (to : Z) : X unit :=
  if s =? INVALID_SOCKET then throw invalid_argument
  else if negb (registrable e) then throw invalid_argument
  else
    match h with
    | None => throw invalid_argument
    | Some h =>
        let! stopped := get_r m_stopped in
        if stopped then ret tt
        else guarded (
          let! hs := get_r m_handlers in
          match hs !! s with
          | Some eis =>
              match find_event e eis ≫= fun i => (i,.) <$> eis !! i with
              | Some (i, ei) =>
                  name (ei_h ei);;
                  modify_r (with_handlers (<[s := <[i := {| ei_e := ei_e ei; ei_h := h; ei_to := ei_to ei; ei_exp := ei_exp ei |}]> eis]> hs));;
                  name h
              | None =>
                  modify_r (with_handlers (<[s := eis ++ [new_ev_info now e to h]]> hs));;
                  name h
              end
          | None =>
              modify_r (with_handlers (<[s := [new_ev_info now e to h]]> hs));;
              name h
          end;;
          wake)
    end.

(** [remove_handler(s)], [remove_handler(s, e)] *)
Definition remove_handler (s : Z) : X unit :=
  guarded (modify_r (fun r => with_handlers (delete s (m_handlers r)) r);; wake).

Definition remove_handler_event (s : Z) (e : event) : X unit :=
  guarded (
    let! hs := get_r m_handlers in
    match hs !! s with
    | Some eis =>
        match find_event e eis ≫= fun i => (i,.) <$> eis !! i with
        | Some (i, ei) =>
            name (ei_h ei);;
            modify_r (with_handlers (match delete i eis with [] => delete s hs | eis => <[s := eis]> hs end))
        | None => ret tt
        end
    | None => ret tt
    end;;
    wake).

(** [set_poll_vector]: the sockets in order, with the events of their handlers. *)
Definition poll_events (eis : list (ev_info H)) : Z :=
  foldl (fun events ei => if registrable (ei_e ei) then Z.lor events (event_bits (ei_e ei)) else events) 0 eis.
Definition set_poll_vector : X (list pollfd) :=
  guarded (get_r (fun r =>
    omap (fun s =>
      eis ← m_handlers r !! s;
      if poll_events eis =? 0 then None else Some {| fd := s; events := poll_events eis; revents := 0 |})
    (merge_sort Z.le (elements (dom (m_handlers r)))))).

(** ** The calls *)
Context `{!Handlers W H}.

Definition call (h : handler H) (s : Z) (e : event) : X bool :=
  match h with
  | sockpair_handler => sockpair_call s e
  | user_handler h => operator_call h s e
  end.

(** The event a handler is called with, if it is called. *)
Definition fired (now : Z) (revents : Z) (ei : ev_info H) : option event :=
  let has e := negb (Z.land revents (event_bits e) =? 0) in
  if negb (revents =? 0) then
    if has ev_error then Some ev_error
    else if has ev_hup then Some ev_hup
    else if has ev_invalid then Some ev_invalid
    else if has (ei_e ei) then Some (ei_e ei)
    else None
  else if ei_exp ei <? now then Some ev_timeout
  else None.

(** The expiration is renewed when a handler that has a timeout was called with
    its own event and stays. *)
Definition renew (now : Z) (ev : option event) (ei : ev_info H) : ev_info H :=
  if bool_decide (ev = Some (ei_e ei)) && negb (ei_to ei =? 0) then
    {| ei_e := ei_e ei; ei_h := ei_h ei; ei_to := ei_to ei; ei_exp := now + ei_to ei * 1000000 |}
  else ei.

(** The handlers of a socket, one after the other: [kept] are those before the
    iterator.  A handler that returns false is erased, and the log message then
    uses the reference to its element: to the next handler, or behind the last
    element of the vector, which is undefined. *)
Fixpoint process_infos (now : Z) (s revents : Z) (kept todo : list (ev_info H)) : X unit :=
  match todo with
  | [] => ret tt
  | ei :: todo =>
      let ev := fired now revents ei in
      let! ok := match ev with Some ev => call (ei_h ei) s ev | None => ret true end in
      if ok then
        let kept := kept ++ [renew now ev ei] in
        modify_r (fun r => with_handlers (<[s := kept ++ todo]> (m_handlers r)) r);;
        process_infos now s revents kept todo
      else
        modify_r (fun r => with_handlers (<[s := kept ++ todo]> (m_handlers r)) r);;
        match todo with
        | [] => lift Ub
        | next :: _ => name (ei_h next);; process_infos now s revents kept todo
        end
  end.

(** A round of the loop of [process_poll_vector], and the loop. *)
Definition process_fd (now : Z) (p : pollfd) : X unit :=
  guarded (
    let! hs := get_r m_handlers in
    match hs !! fd p with
    | None => ret tt
    | Some eis =>
        process_infos now (fd p) (revents p) [] eis;;
        modify_r (fun r =>
          match m_handlers r !! fd p with
          | Some [] => with_handlers (delete (fd p) (m_handlers r)) r
          | _ => r
          end)
    end).
Fixpoint process_poll_vector (now : Z) (poll_vec : list pollfd) : X unit :=
  match poll_vec with
  | [] => ret tt
  | p :: poll_vec => process_fd now p;; process_poll_vector now poll_vec
  end.

(** What [poll] answers: an error, or the number of sockets that are ready and
    the vector with their events. *)
Inductive polled := poll_failed (syserr : Z) | poll_done (nready : Z) (poll_vec : list pollfd).

(** A round of the loop of [start]; [false] when it ends. *)
Definition start_round (poll : list pollfd -> Z -> polled) (now : Z) : X bool :=
  let! stopped := get_r m_stopped in
  if stopped then ret false
  else
    let! poll_vec := set_poll_vector in
    let! timeout := get_r m_timeout in
    match poll poll_vec timeout with
    | poll_failed syserr => throw (system_error syserr)
    | poll_done nready poll_vec => (if 0 <? nready then process_poll_vector now poll_vec else ret tt);; ret true
    end.

(** [reactor(to)], with the sockets of the pair. *)
Definition reactor_init (to reader : Z) : reactor H :=
  {| m_timeout := to; m_stopped := false; m_reader := reader; m_pair := int_bytes 1; m_lock := false;
     m_handlers := {[reader := [{| ei_e := ev_read; ei_h := sockpair_handler; ei_to := 0; ei_exp := TIME_MAX |}]]} |}.

(** [stop], without the wait for the thread. *)
Definition stop : X unit :=
  let! stopped := get_r m_stopped in
  if stopped then ret tt else modify_r with_stopped;; wake.

(** ** The reactor among threads

    The thread of [start] and the others take turns between critical sections:
    what a thread does while it holds the mutex is one step, and the others touch
    the members only through the methods. *)
Inductive pc :=
  | Top
  | Waiting (poll_vec : list pollfd)
  | Dispatching (now : Z) (poll_vec : list pollfd)
  | Returned
  | Failed.

(** [poll] answers for the sockets it was asked about. *)
Definition same_sockets (asked answered : list pollfd) : Prop :=
  (fun p => (fd p, events p)) <$> answered = (fun p => (fd p, events p)) <$> asked.

Inductive step : (W * reactor H) * pc -> (W * reactor H) * pc -> Prop :=
  | step_end st : m_stopped st.2 = true -> step (st, Top) (st, Returned)
  | step_poll st poll_vec st' : m_stopped st.2 = false -> set_poll_vector st = (Ok poll_vec, st') -> step (st, Top) (st', Waiting poll_vec)
  | step_failed st poll_vec : step (st, Waiting poll_vec) (st, Failed)
  | step_none_ready st poll_vec : step (st, Waiting poll_vec) (st, Top)
  | step_ready st poll_vec now answered : same_sockets poll_vec answered -> step (st, Waiting poll_vec) (st, Dispatching now answered)
  | step_dispatch st now p poll_vec st' : process_fd now p st = (Ok tt, st') -> step (st, Dispatching now (p :: poll_vec)) (st', Dispatching now poll_vec)
  | step_thrown st now p poll_vec x st' : process_fd now p st = (Throw x, st') -> step (st, Dispatching now (p :: poll_vec)) (st', Failed)
  | step_dispatched st now : step (st, Dispatching now []) (st, Top)
  | step_add st c now s e h to r st' : add_handler now s e h to st = (r, st') -> r = Ok tt \/ (exists x, r = Throw x) -> step (st, c) (st', c)
  | step_remove st c s st' : remove_handler s st = (Ok tt, st') -> step (st, c) (st', c)
  | step_remove_event st c s e r st' : remove_handler_event s e st = (r, st') -> r = Ok tt \/ (exists x, r = Throw x) -> step (st, c) (st', c)
  | step_stop st c st' : stop st = (Ok tt, st') -> step (st, c) (st', c)
  | step_world st c w : step (st, c) ((w, st.2), c).
End reactor.
End Reactor.

(** ** Facts (libnet: what the reactor guarantees)

    The states of the reactor while its thread and others take turns, the
    handlers a round calls, and the two ways in which a handler cannot be used. *)

Import Reactor.

(** ** Computations that keep a property of the state *)
Definition keeps {E S A} (P : S -> Prop) (m : M E S A) : Prop :=
  forall s, P s -> match m s with (Ok _, s') | (Throw _, s') => P s' | _ => True end.

Lemma keeps_ret {E S A} (P : S -> Prop) (a : A) : keeps P (ret (E := E) a).
Proof. by intros s Hs. Qed.
Lemma keeps_throw {E S A} (P : S -> Prop) (e : E) : keeps P (throw (A := A) e).
Proof. by intros s Hs. Qed.
Lemma keeps_gets {E S A} (P : S -> Prop) (f : S -> A) : keeps P (gets (E := E) f).
Proof. by intros s Hs. Qed.
Lemma keeps_lift {E S A} (P : S -> Prop) (r : res E A) : keeps P (lift r).
Proof. intros s Hs. by destruct r. Qed.
Lemma keeps_modify {E S} (P : S -> Prop) (f : S -> S) : (forall s, P s -> P (f s)) -> keeps P (modify (E := E) f).
Proof. intros Hf s Hs. by apply Hf. Qed.
Lemma keeps_bind {E S A B} (P : S -> Prop) (m : M E S A) (k : A -> M E S B) : keeps P m -> (forall a, keeps P (k a)) -> keeps P (bind m k).
Proof.
  intros Hm Hk s Hs. specialize (Hm s Hs). unfold bind. destruct (m s) as [[a|x| |] s']; [|done..]. by apply Hk.
Qed.

Create HintDb keeps.
#[export] Hint Resolve keeps_ret keeps_throw keeps_gets keeps_lift : keeps.

Section facts.
Context `{Names W H, !Handlers W H}.
Abbreviation state := (W * reactor H)%type.

(** ** The handlers of a socket *)
Definition distinct (eis : list (ev_info H)) : Prop := NoDup (ei_e <$> eis) /\ Forall (fun ei => registrable (ei_e ei) = true) eis.
Definition handlers_ok (hs : gmap Z (list (ev_info H))) : Prop :=
  map_Forall (fun s eis => s <> INVALID_SOCKET /\ eis <> [] /\ distinct eis) hs.

(** The reactor between two critical sections, and in one. *)
Definition reactor_ok (r : reactor H) : Prop := m_lock r = false /\ handlers_ok (m_handlers r).
Definition locked (st : state) : Prop := m_lock st.2 = true /\ handlers_ok (m_handlers st.2).

Lemma keeps_guarded {A} (m : M cpp_exn state A) : keeps locked m -> keeps (fun st => reactor_ok st.2) (guarded m).
Proof.
  intros Hm st [Hl Hh]. unfold guarded. rewrite Hl. specialize (Hm (st.1, with_lock true st.2) (conj eq_refl Hh)).
  destruct (m _) as [[a|x| |] st1]; [|..|done|done]; by destruct Hm.
Qed.

Lemma name_pure h (st : state) : (name h st).2 = st.
Proof. destruct h as [|h]; [done|]. apply name_private. Qed.

Lemma keeps_name (P : state -> Prop) h : keeps P (name h).
Proof.
  intros st Hst. pose proof (name_pure h st) as Hn. destruct (name h st) as [r st']. cbn in Hn. subst st'. by destruct r.
Qed.

Lemma sockpair_call_returns s e (st : state) : exists b st', sockpair_call s e st = (Ok b, st') /\
  st'.1 = st.1 /\ m_handlers st'.2 = m_handlers st.2 /\ m_lock st'.2 = m_lock st.2.
Proof.
  unfold sockpair_call, bind, get_r, gets. destruct (negb _ || _); eexists _, _; (split; [reflexivity|]); [done|].
  cbn. by repeat case_match.
Qed.

Lemma keeps_call (P : state -> Prop) h s e : (forall st, P st -> m_lock st.2 = true) ->
  (forall st st', P st -> m_handlers st'.2 = m_handlers st.2 -> m_lock st'.2 = true -> P st') -> keeps P (call h s e).
Proof.
  intros Hlock HP. destruct h as [|h]; cbn [call].
  - intros st Hst. destruct (sockpair_call_returns s e st) as (b & st' & -> & _ & Hh & Hl).
    apply (HP st); [done..|]. rewrite Hl. by apply Hlock.
  - intros st Hst. pose proof (call_private h s e st (Hlock st Hst)) as Hp.
    destruct (operator_call h s e st) as [[b|x| |] st'] eqn:E; try done.
    all: apply (HP st); [done|by rewrite Hp|rewrite Hp; by apply Hlock].
Qed.

Lemma keeps_wake : keeps locked (wake (W := W) (H := H)).
Proof. by apply keeps_modify. Qed.

Lemma handlers_ok_insert hs s eis : handlers_ok hs -> s <> INVALID_SOCKET -> eis <> [] -> distinct eis -> handlers_ok (<[s := eis]> hs).
Proof. intros Hh Hs Hne Hd. by apply map_Forall_insert_2. Qed.

Lemma find_event_Some e (eis : list (ev_info H)) i : find_event e eis = Some i -> exists ei, eis !! i = Some ei /\ ei_e ei = e.
Proof.
  unfold find_event. destruct (list_find _ eis) as [[j ei]|] eqn:E; [|done]. cbn. intros [= <-].
  apply list_find_Some in E as (Hj & He & _). by exists ei.
Qed.
Lemma find_event_None e (eis : list (ev_info H)) : find_event e eis = None -> e ∉ ei_e <$> eis.
Proof.
  unfold find_event. destruct (list_find _ eis) as [[j ei]|] eqn:E; [done|]. intros _.
  apply list_find_None in E. rewrite list_elem_of_fmap. intros (ei & -> & Hin). by rewrite Forall_forall in E; apply E in Hin.
Qed.

Lemma distinct_replace eis i ei ei' : eis !! i = Some ei -> ei_e ei' = ei_e ei -> distinct eis -> distinct (<[i := ei']> eis).
Proof.
  intros Hi He [Hd Hf]. split.
  - rewrite list_fmap_insert, He, list_insert_id; [done|]. by rewrite list_lookup_fmap, Hi.
  - apply Forall_insert; [done|]. rewrite He. by apply (Forall_lookup_1 _ _ _ _ Hf Hi).
Qed.
Lemma distinct_delete eis i : distinct eis -> distinct (delete i eis).
Proof.
  intros [Hd Hf]. split; [|by apply Forall_delete]. rewrite list_fmap_delete.
  by eapply sublist_NoDup; [|apply sublist_delete].
Qed.

(** ** The operations *)
Lemma keeps_set_handlers hs : handlers_ok hs -> keeps locked (modify_r (W := W) (H := H) (with_handlers hs)).
Proof. intros Hh. apply keeps_modify. intros st [Hl _]. by split. Qed.

Lemma distinct_app eis ei : distinct eis -> ei_e ei ∉ ei_e <$> eis -> registrable (ei_e ei) = true -> distinct (eis ++ [ei]).
Proof.
  intros [Hd Hf] Hni Hr. split; [|by apply Forall_app; split; [|constructor]].
  rewrite fmap_app. apply NoDup_app. split; [done|]. split; [|apply NoDup_singleton].
  intros x Hx Hin. apply list_elem_of_singleton in Hin. by subst x.
Qed.
Lemma new_ev_info_event now e to (h : handler H) : ei_e (new_ev_info now e to h) = e.
Proof. unfold new_ev_info. by destruct (to <=? 0). Qed.

Lemma keeps_add_handler now s e h to : keeps (fun st : state => reactor_ok st.2) (add_handler now s e h to).
Proof.
  unfold add_handler. destruct (s =? INVALID_SOCKET) eqn:Es; [apply keeps_throw|]. apply Z.eqb_neq in Es.
  destruct (registrable e) eqn:Er; [|apply keeps_throw]. destruct h as [h|]; [|apply keeps_throw].
  apply keeps_bind; [apply keeps_gets|]. intros []; [apply keeps_ret|]. apply keeps_guarded.
  intros st Hst. assert (Hst' := Hst). destruct Hst' as [_ Hh].
  unfold bind at 2, get_r at 1, gets at 1. revert st Hst Hh.
  enough (forall hs, handlers_ok hs -> keeps locked (bind (match hs !! s with
    | Some eis =>
        match find_event e eis ≫= fun i => (i,.) <$> eis !! i with
        | Some (i, ei) => name (ei_h ei);; modify_r (W := W) (with_handlers (<[s := <[i := {| ei_e := ei_e ei; ei_h := h; ei_to := ei_to ei; ei_exp := ei_exp ei |}]> eis]> hs));; name h
        | None => modify_r (with_handlers (<[s := eis ++ [new_ev_info now e to h]]> hs));; name h
        end
    | None => modify_r (with_handlers (<[s := [new_ev_info now e to h]]> hs));; name h
    end) (fun _ => wake))) as Hk by (intros st Hst Hh; by apply (Hk (m_handlers st.2) Hh st)).
  intros hs Hh. apply keeps_bind; [|intros _; apply keeps_wake].
  destruct (hs !! s) as [eis|] eqn:El.
  - destruct (Hh s eis El) as (_ & Hne & Hd). destruct (find_event e eis) as [i|] eqn:Ef; cbn [mbind option_bind].
    + destruct (find_event_Some _ _ _ Ef) as (ei & Hi & He). rewrite Hi. cbn [fmap option_fmap option_map].
      apply keeps_bind; [apply keeps_name|intros _]. apply keeps_bind; [|intros _; apply keeps_name].
      apply keeps_set_handlers, handlers_ok_insert; [done..| |by eapply distinct_replace].
      intros E. apply (f_equal length) in E. rewrite length_insert in E. by destruct eis.
    + apply keeps_bind; [|intros _; apply keeps_name]. apply keeps_set_handlers, handlers_ok_insert; [done..|by destruct eis|].
      apply distinct_app; [done|rewrite new_ev_info_event; by apply find_event_None|by rewrite new_ev_info_event].
  - apply keeps_bind; [|intros _; apply keeps_name]. apply keeps_set_handlers, handlers_ok_insert; [done..|].
    split; [apply NoDup_singleton|constructor; [by rewrite new_ev_info_event|constructor]].
Qed.

Lemma handlers_ok_delete hs s : handlers_ok hs -> handlers_ok (delete s hs).
Proof. apply map_Forall_delete. Qed.

Lemma keeps_remove_handler s : keeps (fun st : state => reactor_ok st.2) (remove_handler s).
Proof.
  apply keeps_guarded, keeps_bind; [|intros _; apply keeps_wake]. apply keeps_modify. intros st [Hl Hh].
  split; [done|by apply handlers_ok_delete].
Qed.

Lemma keeps_remove_handler_event s e : keeps (fun st : state => reactor_ok st.2) (remove_handler_event s e).
Proof.
  apply keeps_guarded. intros st Hst. unfold bind at 1, get_r at 1, gets at 1.
  assert (handlers_ok (m_handlers st.2)) as Hh by apply Hst. revert st Hst Hh.
  enough (forall hs, handlers_ok hs -> keeps locked (bind (match hs !! s with
    | Some eis =>
        match find_event e eis ≫= fun i => (i,.) <$> eis !! i with
        | Some (i, ei) => name (ei_h ei);; modify_r (W := W) (with_handlers (match delete i eis with [] => delete s hs | eis => <[s := eis]> hs end))
        | None => ret tt
        end
    | None => ret tt
    end) (fun _ => wake))) as Hk by (intros st Hst Hh; by apply (Hk (m_handlers st.2) Hh st)).
  intros hs Hh. apply keeps_bind; [|intros _; apply keeps_wake].
  destruct (hs !! s) as [eis|] eqn:El; [|apply keeps_ret]. destruct (Hh s eis El) as (Hs & _ & Hd).
  destruct (_ ≫= _) as [[i ei]|]; [|apply keeps_ret]. apply keeps_bind; [apply keeps_name|intros _].
  apply keeps_set_handlers. destruct (delete i eis) as [|x l] eqn:Ed; [by apply handlers_ok_delete|].
  apply handlers_ok_insert; [done..|]. rewrite <- Ed. by apply distinct_delete.
Qed.

(** ** A round *)

Lemma renew_event now ev (ei : ev_info H) : ei_e (renew now ev ei) = ei_e ei.
Proof. unfold renew. by destruct (_ && _). Qed.

Lemma keeps_insert s eis : s <> INVALID_SOCKET -> eis <> [] -> distinct eis ->
  keeps locked (modify_r (W := W) (fun r => with_handlers (<[s := eis]> (m_handlers r)) r)).
Proof. intros Hs Hne Hd. apply keeps_modify. intros st [Hl Hh]. split; [done|]. by apply handlers_ok_insert. Qed.

Lemma keeps_locked_call h fd e : keeps locked (call h fd e).
Proof. apply keeps_call; [by intros st []|]. intros st st' [Hl Hh] Eh El. split; [done|]. by rewrite Eh. Qed.

Lemma distinct_events (l l' : list (ev_info H)) : ei_e <$> l = ei_e <$> l' -> distinct l -> distinct l'.
Proof.
  intros E [Hd Hf]. split; [by rewrite <- E|]. apply (Forall_fmap ei_e (fun e => registrable e = true)).
  rewrite <- E. by apply (Forall_fmap ei_e (fun e => registrable e = true)).
Qed.

(** A vector that has become empty is only left by undefined behaviour. *)
Lemma keeps_process_infos now s rv todo : forall kept, s <> INVALID_SOCKET -> distinct (kept ++ todo) ->
  keeps locked (process_infos now s rv kept todo).
Proof.
  induction todo as [|ei todo IH]; intros kept Hs Hd; cbn [process_infos]; [apply keeps_ret|].
  apply keeps_bind; [case_match; [apply keeps_locked_call|apply keeps_ret]|]. intros [].
  - assert (distinct ((kept ++ [renew now (fired now rv ei) ei]) ++ todo)) as Hd'.
    { eapply distinct_events; [|exact Hd]. rewrite <- app_assoc, !fmap_app. cbn. by rewrite renew_event. }
    apply keeps_bind; [apply keeps_insert; [done|by destruct kept|done]|intros _]. by apply IH.
  - assert (distinct (kept ++ todo)) as Hd'.
    { replace (kept ++ todo) with (delete (length kept) (kept ++ ei :: todo)); [by apply distinct_delete|].
      by rewrite delete_middle. }
    destruct todo as [|next todo]; [by intros st Hst|].
    apply keeps_bind; [apply keeps_insert; [done|by destruct kept|done]|intros _].
    apply keeps_bind; [apply keeps_name|intros _]. by apply IH.
Qed.

Lemma keeps_process_fd now p : keeps (fun st : state => reactor_ok st.2) (process_fd now p).
Proof.
  apply keeps_guarded. intros st Hst. unfold bind at 1, get_r at 1, gets at 1.
  destruct (m_handlers st.2 !! fd p) as [eis|] eqn:El; [|by apply keeps_ret].
  destruct (proj2 Hst _ _ El) as (Hs & _ & Hd). revert st Hst El.
  enough (keeps locked (bind (process_infos now (fd p) (revents p) [] eis) (fun _ => modify_r (W := W) (fun r =>
    match m_handlers r !! fd p with Some [] => with_handlers (delete (fd p) (m_handlers r)) r | _ => r end)))) as Hk by (intros st Hst _; by apply Hk).
  apply keeps_bind; [by apply keeps_process_infos|intros _]. apply keeps_modify. intros st [Hl Hh].
  destruct (m_handlers st.2 !! fd p) as [[|ei l]|]; (split; [done|]); [by apply handlers_ok_delete|done..].
Qed.

(** ** Every state of the reactor *)
Lemma reactor_step_ok s s' : reactor_ok s.1.2 -> step s s' -> reactor_ok s'.1.2.
Proof.
  assert (forall A (m : M cpp_exn state A) st r st', keeps (fun st => reactor_ok st.2) m -> reactor_ok st.2 -> m st = (r, st') ->
    (exists a, r = Ok a) \/ (exists x, r = Throw x) -> reactor_ok st'.2) as Hkeep.
  { intros A m st r st' Hm Hst E Hr. specialize (Hm st Hst). rewrite E in Hm. by destruct Hr as [[a ->]|[x ->]]. }
  intros Hs. inversion 1 as [st ?|st v st' ? E|st v|st v|st v now a ?|st now p v st' E|st now p v x st' E|st now|st c now p e h to r st' E Hr|st c p st' E|st c p e r st' E Hr|st c st' E|st c w]; subst; cbn in *; try done.
  - unfold set_poll_vector in E. eapply (Hkeep _ _ _ _ _ (keeps_guarded _ (keeps_gets (S := state) _ _)) Hs E). left. by eexists.
  - eapply (Hkeep _ _ _ _ _ (keeps_process_fd _ _) Hs E). left. by eexists.
  - eapply (Hkeep _ _ _ _ _ (keeps_process_fd _ _) Hs E). right. by eexists.
  - eapply (Hkeep _ _ _ _ _ (keeps_add_handler _ _ _ _ _) Hs E). destruct Hr as [->|?]; [left; by eexists|by right].
  - eapply (Hkeep _ _ _ _ _ (keeps_remove_handler _) Hs E). left. by eexists.
  - eapply (Hkeep _ _ _ _ _ (keeps_remove_handler_event _ _) Hs E). destruct Hr as [->|?]; [left; by eexists|by right].
  - assert (keeps (fun st : state => reactor_ok st.2) stop) as Hk.
    { apply keeps_bind; [apply keeps_gets|]. intros []; [apply keeps_ret|].
      apply keeps_bind; [|intros _]; by apply keeps_modify. }
    eapply (Hkeep _ _ _ _ _ Hk Hs E). left. by eexists.
Qed.

(** The sockets of a poll vector and what is asked of each. *)
Lemma poll_events_spec (eis : list (ev_info H)) : distinct eis ->
  poll_events eis = (if bool_decide (ev_read ∈ ei_e <$> eis) then 1 else 0) + (if bool_decide (ev_write ∈ ei_e <$> eis) then 4 else 0).
Proof.
  intros [Hd Hf].
  assert (poll_events eis = foldl (fun events e => if registrable e then Z.lor events (event_bits e) else events) 0 (ei_e <$> eis)) as ->.
  { unfold poll_events. generalize 0. induction eis as [|ei eis IH]; intros acc; [done|]. cbn. apply IH.
    - by inversion Hd.
    - by inversion Hf. }
  apply (Forall_fmap ei_e (fun e => registrable e = true)) in Hf.
  assert (forall l, NoDup l -> Forall (fun e => registrable e = true) l -> l = [] \/ l = [ev_read] \/ l = [ev_write] \/ l = [ev_read; ev_write] \/ l = [ev_write; ev_read]) as Hall.
  { assert (forall e, registrable e = true -> e = ev_read \/ e = ev_write) as Hreg by (intros []; auto; discriminate).
    intros [|a [|b [|c l]]] H1 H2; [by left|..]; rewrite ?Forall_cons in H2; destruct_and?; rewrite ?NoDup_cons, ?not_elem_of_cons in H1; destruct_and?.
    - destruct (Hreg a) as [->| ->]; auto.
    - destruct (Hreg a) as [->| ->], (Hreg b) as [->| ->]; tauto.
    - destruct (Hreg a) as [->| ->], (Hreg b) as [->| ->], (Hreg c) as [->| ->]; tauto. }
  destruct (Hall _ Hd Hf) as [->|[->|[->|[->| ->]]]]; vm_compute; reflexivity.
Qed.

Definition asks (p : pollfd) (e : event) : bool := negb (Z.land (events p) (event_bits e) =? 0).

Lemma set_poll_vector_spec (st : state) : reactor_ok st.2 ->
  exists pv, set_poll_vector st = (Ok pv, st) /\ StronglySorted Z.lt (fd <$> pv) /\
    (forall s, s ∈ fd <$> pv <-> is_Some (m_handlers st.2 !! s)) /\
    Forall (fun p => revents p = 0 /\ forall e, registrable e = true -> asks p e = true <-> exists eis, m_handlers st.2 !! fd p = Some eis /\ e ∈ ei_e <$> eis) pv.
Proof.
  intros [Hl Hh]. destruct st as [w r]. cbn in *. set (hs := m_handlers r) in *.
  set (ss := merge_sort Z.le (elements (dom hs))).
  set (f := fun s => {| fd := s; events := poll_events (default [] (hs !! s)); revents := 0 |}).
  assert (forall s, s ∈ ss <-> is_Some (hs !! s)) as Hss.
  { intros s. unfold ss. rewrite (merge_sort_Permutation Z.le), elem_of_elements. apply elem_of_dom. }
  exists (f <$> ss). split; [|split; [|split]].
  - unfold set_poll_vector, guarded, get_r, gets. cbn. rewrite Hl. fold hs. fold ss.
    assert (with_lock false (with_lock true r) = r) as -> by (destruct r; cbn in *; by subst).
    f_equal. f_equal.
    assert (Forall (fun s => is_Some (hs !! s)) ss) as Hall by (apply Forall_forall; intros s; apply Hss).
    clearbody ss. clear Hss. induction ss as [|s ss IH]; [done|]. inversion Hall as [|?? [eis E] Hall']; subst.
    cbn. rewrite E. cbn. destruct (Hh s eis E) as (_ & Hne & Hd).
    assert ((poll_events eis =? 0) = false) as ->.
    { rewrite poll_events_spec by done. destruct eis as [|ei eis]; [done|]. destruct Hd as [_ Hf]. inversion Hf as [|?? Hr _]; subst.
      apply Z.eqb_neq. cbn. destruct (ei_e ei) eqn:Ee; try discriminate Hr; repeat case_bool_decide; set_solver. }
    cbn. unfold f at 1. rewrite E. f_equal. by apply IH.
  - assert (fd <$> (f <$> ss) = ss) as -> by (rewrite <- list_fmap_compose; by apply list_fmap_id).
    assert (NoDup ss) as Hnd by (unfold ss; rewrite (merge_sort_Permutation Z.le); apply NoDup_elements).
    assert (StronglySorted Z.le ss) as Hs by (apply (StronglySorted_merge_sort Z.le); intros; lia).
    clearbody ss. clear -Hnd Hs. induction Hs as [|s ss Hs IH Hle]; [constructor|]. inversion Hnd as [|?? Hni Hnd']; subst.
    constructor; [by apply IH|]. apply Forall_forall. intros x Hx. rewrite Forall_forall in Hle. specialize (Hle x Hx).
    destruct (decide (x = s)) as [->|?]; [done|lia].
  - intros s. assert (fd <$> (f <$> ss) = ss) as -> by (rewrite <- list_fmap_compose; by apply list_fmap_id). apply Hss.
  - apply Forall_fmap, Forall_forall. intros s Hs. apply Hss in Hs as [eis E]. split; [done|].
    intros e He. unfold asks, f. cbn [events fd revents]. rewrite E. change (default [] (Some eis)) with eis. destruct (Hh s eis E) as (_ & _ & Hd). rewrite poll_events_spec by done.
    destruct e; try discriminate He; do 2 case_bool_decide; cbn; naive_solver.
Qed.

(** C11. Every state of the reactor, whatever its thread and the others do in turn:
    the mutex is free between critical sections, a socket that is registered is
    valid and has handlers for distinct events, each reading or writing; and the
    vector given to [poll] lists the registered sockets once, in order, with the
    events of their handlers. *)
Theorem reactor_invariant to reader w st c : reader <> INVALID_SOCKET ->
  rtc step ((w, reactor_init to reader), Top) (st, c) ->
  reactor_ok st.2 /\
  exists pv, set_poll_vector st = (Ok pv, st) /\ StronglySorted Z.lt (fd <$> pv) /\
    (forall s, s ∈ fd <$> pv <-> is_Some (m_handlers st.2 !! s)) /\
    Forall (fun p => revents p = 0 /\ forall e, registrable e = true -> asks p e = true <-> exists eis, m_handlers st.2 !! fd p = Some eis /\ e ∈ ei_e <$> eis) pv.
Proof.
  intros Hr Hreach.
  assert (forall s s', rtc step s s' -> reactor_ok s.1.2 -> reactor_ok s'.1.2) as Hinv.
  { induction 1 as [|x y z Hxy _ IH]; [done|]. intros Hx. by eapply IH, reactor_step_ok. }
  assert (reactor_ok st.2) as Hok.
  { apply (Hinv _ _ Hreach). split; [done|]. cbn. apply map_Forall_singleton. split; [done|]. split; [done|].
    split; [apply NoDup_singleton|by constructor]. }
  split; [done|]. by apply set_poll_vector_spec.
Qed.

(** ** The calls of a round *)

(** The handlers of a socket with the events they are called with. *)
Definition called (now : Z) (hs : gmap Z (list (ev_info H))) (p : pollfd) : list (H * Z * event) :=
  omap (fun ei => match ei_h ei, fired now (revents p) ei with user_handler h, Some e => Some (h, fd p, e) | _, _ => None end)
    (default [] (hs !! fd p)).
Definition renew_all (now rv : Z) (eis : list (ev_info H)) : list (ev_info H) := (fun ei => renew now (fired now rv ei) ei) <$> eis.
Definition renew_round (now : Z) (pv : list pollfd) (hs : gmap Z (list (ev_info H))) : gmap Z (list (ev_info H)) :=
  foldl (fun hs p => alter (renew_all now (revents p)) (fd p) hs) hs pv.

Section stays.
(** The handlers that stay, and what a call of one does to the world. *)
Variable staying : H -> Prop.
Variable act : W -> H * Z * event -> W.
Hypothesis stays : forall h s e w r, staying h -> m_lock r = true -> operator_call h s e (w, r) = (Ok true, (act w (h, s, e), r)).

Definition stays_there (ei : ev_info H) : Prop := match ei_h ei with user_handler h => staying h | sockpair_handler => False end.

Lemma process_infos_stays now s rv todo : forall kept w r, m_lock r = true -> Forall stays_there todo -> m_handlers r !! s = Some (kept ++ todo) ->
  process_infos now s rv kept todo (w, r) =
    (Ok tt, (foldl act w (omap (fun ei => match ei_h ei, fired now rv ei with user_handler h, Some e => Some (h, s, e) | _, _ => None end) todo),
             with_handlers (<[s := kept ++ renew_all now rv todo]> (m_handlers r)) r)).
Proof.
  induction todo as [|ei todo IH]; intros kept w r Hl Hu Hs; cbn [process_infos].
  { cbn. rewrite insert_id by done. by destruct r. }
  inversion Hu as [|?? Hei Hu']; subst. unfold stays_there in Hei. destruct (ei_h ei) as [|h] eqn:Eh; [done|].
  set (w1 := match fired now rv ei with Some e => act w (h, s, e) | None => w end).
  assert (match fired now rv ei with Some e => call (user_handler h) s e | None => ret true end (w, r) = (Ok true, (w1, r))) as Hcall.
  { unfold w1. destruct (fired now rv ei); [by apply stays|done]. }
  unfold bind at 1. rewrite Hcall. unfold bind at 1, modify_r, modify. cbn [fst snd].
  rewrite IH; [|done|done|cbn [m_handlers with_handlers]; by rewrite lookup_insert_eq].
  f_equal. f_equal.
  - cbn [omap list_omap]. rewrite Eh. unfold w1. by destruct (fired now rv ei).
  - unfold with_handlers. cbn. f_equal. rewrite insert_insert_eq. f_equal. by rewrite <- app_assoc.
Qed.

Lemma process_fd_stays now p w r : m_lock r = false -> m_handlers r !! fd p <> Some [] ->
  Forall stays_there (default [] (m_handlers r !! fd p)) ->
  process_fd now p (w, r) =
    (Ok tt, (foldl act w (called now (m_handlers r) p), with_handlers (alter (renew_all now (revents p)) (fd p) (m_handlers r)) r)).
Proof.
  intros Hl Hne Hu. unfold process_fd, guarded. cbn [fst snd]. rewrite Hl. unfold bind at 1, get_r at 1, gets at 1.
  cbn [snd with_lock m_handlers]. unfold called. destruct (m_handlers r !! fd p) as [eis|] eqn:Es.
  - change (default [] (Some eis)) with eis in *. unfold bind. rewrite process_infos_stays by done.
    unfold modify_r, modify. cbn [m_handlers with_handlers with_lock snd fst app]. rewrite lookup_insert_eq, (alter_alt_Some _ _ _ _ Es).
    destruct eis as [|ei eis]; [done|]. cbn. unfold with_lock, with_handlers. cbn. by rewrite Hl.
  - cbn. rewrite alter_id' by done. by destruct r; cbn in *; subst.
Qed.

Lemma called_other now hs p q f : fd p <> fd q -> called now (alter f (fd q) hs) p = called now hs p.
Proof. intros Hne. unfold called. by rewrite lookup_alter_ne. Qed.

Lemma round_stays now pv : forall w r, m_lock r = false -> NoDup (fd <$> pv) ->
  (forall p, p ∈ pv -> m_handlers r !! fd p <> Some [] /\ Forall stays_there (default [] (m_handlers r !! fd p))) ->
  process_poll_vector now pv (w, r) =
    (Ok tt, (foldl act w (concat (called now (m_handlers r) <$> pv)), with_handlers (renew_round now pv (m_handlers r)) r)).
Proof.
  induction pv as [|p pv IH]; intros w r Hl Hd Hu; [by destruct r|].
  rewrite fmap_cons in Hd. apply NoDup_cons in Hd as [Hni Hd]. cbn [process_poll_vector].
  assert (forall q, q ∈ pv -> fd q <> fd p) as Hne by (intros q Hq E; apply Hni; rewrite <- E; by apply list_elem_of_fmap_2).
  destruct (Hu p ltac:(by left)) as [Hp Hup]. unfold bind. rewrite process_fd_stays by done. rewrite IH; cbn [m_lock m_handlers with_handlers]; [|done|done|].
  - f_equal. f_equal. cbn [fmap list_fmap concat]. rewrite foldl_app. f_equal. f_equal. apply list_fmap_ext.
    intros i q Hq. by apply called_other, Hne, list_elem_of_lookup_2 with i.
  - intros q Hq. rewrite lookup_alter_ne by (symmetry; by apply Hne). apply Hu. by right.
Qed.

(** A round of the reactor in which no handler asks to be removed calls, in the
    order of the sockets and of their handlers, exactly those whose event is
    there: on an error, a hang-up or an invalid socket all handlers of the socket
    with that event, otherwise those whose own event is among the ready ones, and
    on a socket that is not ready those that have expired.  Expirations are renewed
    and nothing else of the reactor changes. *)
Theorem dispatch_calls now pv w r : reactor_ok r -> NoDup (fd <$> pv) ->
  (forall p, p ∈ pv -> Forall stays_there (default [] (m_handlers r !! fd p))) ->
  process_poll_vector now pv (w, r) =
    (Ok tt, (foldl act w (concat (called now (m_handlers r) <$> pv)), with_handlers (renew_round now pv (m_handlers r)) r)).
Proof.
  intros [Hl Hh] Hd Hu. apply round_stays; [done..|]. intros p Hp. split; [|by apply Hu].
  intros E. by destruct (Hh _ _ E) as (_ & ? & _).
Qed.
End stays.

(** ** Handlers that cannot be used *)

(** [add_handler] by the thread that holds the mutex. *)
Lemma add_handler_locked now s e h to (st : state) : m_lock st.2 = true ->
  add_handler now s e h to st =
    (if (s =? INVALID_SOCKET) || negb (registrable e) || negb (bool_decide (is_Some h)) then Throw invalid_argument
     else if m_stopped st.2 then Ok tt else Diverge, st).
Proof.
  intros Hl. unfold add_handler. destruct (s =? INVALID_SOCKET); [done|]. destruct (registrable e); [|done].
  destruct h as [h|]; [|done]. cbn [negb orb]. rewrite bool_decide_true by done. unfold bind, get_r, gets. destruct (m_stopped st.2); [done|].
  unfold guarded. by rewrite Hl.
Qed.

(** What [add_handler] leaves behind when it returns. *)
Lemma add_handler_registers now s e h to (st st' : state) : m_stopped st.2 = false -> add_handler now s e (Some h) to st = (Ok tt, st') ->
  st'.1 = st.1 /\ exists eis ei, m_handlers st'.2 !! s = Some eis /\ ei ∈ eis /\ ei_e ei = e /\ ei_h ei = h.
Proof.
  intros Hst. unfold add_handler. destruct (s =? INVALID_SOCKET); [done|]. destruct (registrable e); [|done]. cbn [negb].
  unfold bind at 1, get_r at 1, gets at 1. rewrite Hst. unfold guarded. destruct (m_lock st.2); [done|].
  set (st0 := (st.1, with_lock true st.2)). unfold bind at 1 2, get_r at 1, gets at 1. cbn [st0 snd with_lock m_handlers].
  assert (forall h (x : state), exists r, name h x = (r, x)) as Hname.
  { intros h0 x. pose proof (name_pure h0 x) as Hn. destruct (name h0 x) as [r x']. cbn in Hn. subst. by exists r. }
  destruct (m_handlers st.2 !! s) as [eis|] eqn:El.
  - destruct (find_event e eis) as [i|] eqn:Ef; cbn [mbind option_bind].
    + destruct (find_event_Some _ _ _ Ef) as (ei & Hi & He). rewrite Hi. cbn [fmap option_fmap option_map].
      unfold bind at 1. destruct (Hname (ei_h ei) st0) as [r1 ->]. destruct r1; try done.
      unfold bind at 1, modify_r at 1, modify at 1. unfold with_handlers at 1. match goal with |- context [name h ?x] => destruct (Hname h x) as [r2 ->] end.
      destruct r2; try done. intros [= <-]. split; [done|]. eexists _, _. cbn. rewrite lookup_insert_eq. split; [done|].
      split; [eapply list_elem_of_lookup_2, list_lookup_insert_eq; by eapply lookup_lt_Some|]. done.
    + unfold bind at 1, modify_r at 1, modify at 1. unfold with_handlers at 1. match goal with |- context [name h ?x] => destruct (Hname h x) as [r2 ->] end.
      destruct r2; try done. intros [= <-]. split; [done|]. eexists _, (new_ev_info now e to h). cbn. rewrite lookup_insert_eq. split; [done|].
      split; [apply elem_of_app; right; by left|]. unfold new_ev_info. by destruct (to <=? 0).
  - unfold bind at 1, modify_r at 1, modify at 1. unfold with_handlers at 1. match goal with |- context [name h ?x] => destruct (Hname h x) as [r2 ->] end.
    destruct r2; try done. intros [= <-]. split; [done|]. eexists _, (new_ev_info now e to h). cbn. rewrite lookup_insert_eq. split; [done|].
    split; [by left|]. unfold new_ev_info. by destruct (to <=? 0).
Qed.

(** A round whose first call does not return. *)
Lemma first_call_blocks now p st ei eis h ev : m_lock st.2 = false -> m_handlers st.2 !! fd p = Some (ei :: eis) ->
  ei_h ei = user_handler h -> fired now (revents p) ei = Some ev ->
  (operator_call h (fd p) ev (st.1, with_lock true st.2)).1 = Diverge ->
  (process_poll_vector now [p] st).1 = Diverge.
Proof.
  intros Hl Hp Hh Hev Hcall. cbn [process_poll_vector]. unfold process_fd, guarded, bind at 1. rewrite Hl.
  unfold bind at 1, get_r at 1, gets at 1. cbn [snd with_lock m_handlers]. rewrite Hp. unfold bind at 1. cbn [process_infos].
  rewrite Hev, Hh. unfold bind at 1. cbn [call]. destruct (operator_call _ _ _ _) as [r s]. cbn in Hcall. by subst.
Qed.

(** A handler that registers a handler while it is called never returns, and
    with it the thread of the reactor: the mutex is held around the call, and
    [add_handler] locks it again. *)
Theorem registration_in_handler_blocks now p st ei eis h ev f now' s e h' to (k : unit -> M cpp_exn state bool) :
  reactor_ok st.2 -> m_stopped st.2 = false -> m_handlers st.2 !! fd p = Some (ei :: eis) ->
  ei_h ei = user_handler h -> fired now (revents p) ei = Some ev ->
  (forall st, operator_call h (fd p) ev st = bind (modify (fun st => (f st.1, st.2))) (fun _ => bind (add_handler now' s e (Some h') to) k) st) ->
  s <> INVALID_SOCKET -> registrable e = true ->
  (process_poll_vector now [p] st).1 = Diverge.
Proof.
  intros [Hl _] Hst Hp Hh Hev Hcall Hs He. eapply first_call_blocks; [done..|].
  rewrite Hcall. unfold bind at 1, modify at 1, bind at 1. rewrite add_handler_locked by done.
  destruct (Z.eqb_spec s INVALID_SOCKET); [done|]. rewrite He. cbn. by rewrite Hst.
Qed.

Lemma process_infos_removes now s rv kept ei eis h ev (st : state) w' r' :
  ei_h ei = user_handler h -> fired now rv ei = Some ev -> operator_call h s ev st = (Ok false, (w', r')) ->
  process_infos now s rv kept (ei :: eis) st =
    let st' := (w', with_handlers (<[s := kept ++ eis]> (m_handlers r')) r') in
    match eis with
    | [] => (Ub, st')
    | next :: _ => bind (name (ei_h next)) (fun _ => process_infos now s rv kept eis) st'
    end.
Proof.
  intros Hh Hev Hcall. cbn [process_infos]. rewrite Hev, Hh. cbn [call]. unfold bind at 1. rewrite Hcall. by destruct eis.
Qed.

(** A handler that asks to be removed makes the round undefined when it is the
    last of its socket, since the reference to its element is used after the
    element was erased; before another handler it is removed and the round goes on
    with the next one. *)
Theorem removal_of_last_undefined now p w w' r ei h ev eis : reactor_ok r ->
  m_handlers r !! fd p = Some (ei :: eis) -> ei_h ei = user_handler h -> fired now (revents p) ei = Some ev ->
  operator_call h (fd p) ev (w, with_lock true r) = (Ok false, (w', with_lock true r)) ->
  (eis = [] -> (process_poll_vector now [p] (w, r)).1 = Ub) /\
  (forall next l, eis = next :: l -> (forall st : state, exists text, (name (ei_h next) st).1 = Ok text) ->
    process_fd now p (w, r) = process_fd now p (w', with_handlers (<[fd p := eis]> (m_handlers r)) r)).
Proof.
  intros [Hl Hok] Hp Hh Hev Hcall. split.
  - intros ->. cbn [process_poll_vector]. unfold process_fd, guarded, bind at 1. cbn [snd fst]. rewrite Hl.
    unfold bind at 1, get_r at 1, gets at 1. cbn [snd with_lock m_handlers]. rewrite Hp. unfold bind at 1.
    by rewrite (process_infos_removes _ _ _ _ _ _ _ _ _ _ _ Hh Hev Hcall).
  - intros next l -> Hname. unfold process_fd, guarded. cbn [snd fst with_handlers m_lock]. rewrite Hl.
    unfold bind at 1 3, get_r at 1 2, gets at 1 2. cbn [snd with_lock m_handlers with_handlers]. rewrite Hp, lookup_insert_eq.
    unfold bind at 1 2. rewrite (process_infos_removes _ _ _ _ _ _ _ _ _ _ _ Hh Hev Hcall). cbn [app].
    unfold bind at 1. match goal with |- context [name (ei_h next) ?x] => destruct (Hname x) as [text Ht]; pose proof (name_pure (ei_h next) x) as Hn; destruct (name (ei_h next) x) as [rn sn] end.
    cbn in Ht, Hn. subst. done.
Qed.
End facts.

(** ** A concrete set of handlers

    A world that records the calls, and handlers that stay, that ask to be removed
    and that register a handler for a socket. *)
Inductive demo_handler := demo_stays | demo_leaves | demo_registers (s : Z).
Definition demo_world := list (demo_handler * Z * event).
#[local] Instance demo_names : Names demo_world demo_handler.
Proof.
  refine {| handler_name h := ret (bytes_of "demo") |}. done.
Defined.
#[local] Instance demo_handlers : Handlers demo_world demo_handler.
Proof.
  refine {| operator_call h s e :=
    bind (modify (fun st => (st.1 ++ [(h, s, e)], st.2))) (fun _ =>
    match h with
    | demo_stays => ret true
    | demo_leaves => ret false
    | demo_registers t => bind (add_handler 0 t ev_read (Some (user_handler demo_stays)) 0) (fun _ => ret true)
    end) |}.
  intros [| |t] s e [w r] Hl; [done..|]. unfold bind at 1, modify at 1, bind. rewrite add_handler_locked by done.
  destruct (_ || _); [done|]. by destruct (m_stopped _).
Defined.

Definition demo_reactor (h : demo_handler) : reactor demo_handler :=
  with_handlers {[7 := [new_ev_info 0 ev_read 0 (user_handler h)]]} (reactor_init 5000 3).
Definition demo_ready : pollfd := {| fd := 7; events := 1; revents := 1 |}.

Lemma demo_reactor_ok h : reactor_ok (demo_reactor h).
Proof.
  split; [done|]. apply map_Forall_singleton. split; [done|]. split; [done|]. split; [apply NoDup_singleton|by constructor].
Qed.

Lemma reactor_invariant_witness :
  exists st, rtc step (([] : demo_world, reactor_init 5000 3), Top) (st, Top) /\ reactor_ok st.2 /\ is_Some (m_handlers st.2 !! 7).
Proof.
  set (r := (add_handler 0 7 ev_read (Some (user_handler demo_leaves)) 0 ([] : demo_world, reactor_init 5000 3))).
  assert (rtc step (([] : demo_world, reactor_init 5000 3), Top) (r.2, Top)) as Hr.
  { apply rtc_once. eapply (step_add _ Top 0 7 ev_read (Some (user_handler demo_leaves)) 0 (Ok tt)); [vm_compute; reflexivity|by left]. }
  exists r.2. split; [exact Hr|]. split; [|vm_compute; by eexists].
  by destruct (reactor_invariant 5000 3 _ _ _ ltac:(done) Hr).
Defined.

Lemma dispatch_calls_witness :
  process_poll_vector 0 [demo_ready] ([] : demo_world, demo_reactor demo_stays) =
    (Ok tt, ([(demo_stays, 7, ev_read)], with_handlers (renew_round 0 [demo_ready] (m_handlers (demo_reactor demo_stays))) (demo_reactor demo_stays))).
Proof.
  apply (dispatch_calls (fun h => h = demo_stays) (fun w c => w ++ [c])).
  - by intros ? s e w r ->.
  - apply demo_reactor_ok.
  - apply NoDup_singleton.
  - intros p Hp. apply list_elem_of_singleton in Hp as ->. by repeat constructor.
Defined.

Lemma registration_in_handler_blocks_witness :
  (process_poll_vector 0 [demo_ready] ([] : demo_world, demo_reactor (demo_registers 8))).1 = Diverge.
Proof.
  apply (registration_in_handler_blocks 0 demo_ready _ (new_ev_info 0 ev_read 0 (user_handler (demo_registers 8))) [] (demo_registers 8) ev_read
    (fun w => w ++ [(demo_registers 8, 7, ev_read)]) 0 8 ev_read (user_handler demo_stays) 0 (fun _ => ret true)); try done.
  apply demo_reactor_ok.
Defined.

Lemma removal_of_last_undefined_witness :
  (process_poll_vector 0 [demo_ready] ([] : demo_world, demo_reactor demo_leaves)).1 = Ub.
Proof.
  apply (removal_of_last_undefined 0 demo_ready [] [(demo_leaves, 7, ev_read)] (demo_reactor demo_leaves)
    (new_ev_info 0 ev_read 0 (user_handler demo_leaves)) demo_leaves ev_read []); try done.
  apply demo_reactor_ok.
Defined.
