(* ===== verification/ThreadPool.v ===== *)
(** * libcom: the thread pool (libcom/include/thrdpool.h)

    A synchronized queue with a condition variable, the workers that take tasks
    from it, and the states they reach together.  A task is a value: what is
    modelled is when it is taken and by whom, not what it does. *)
From S2P Require Import Prelude Numbers.

(** ** sync_queue *)
Record sync_queue (T : Type) := { m_queue : list T; m_valid : bool; m_waiting : Z }.
Arguments m_queue {T}. Arguments m_valid {T}. Arguments m_waiting {T}.

Module SyncQueue.
Section queue.
Context {T : Type}.

Definition new : sync_queue T := {| m_queue := []; m_valid := true; m_waiting := 0 |}.
Definition empty (q : sync_queue T) : bool := match m_queue q with [] => true | _ => false end.
Definition size (q : sync_queue T) : Z := Z.of_nat (length (m_queue q)).

(** [put]: the queue, and whether a waiting thread is notified. *)
Definition put (elem : T) (q : sync_queue T) : sync_queue T * bool :=
  if m_valid q then ({| m_queue := m_queue q ++ [elem]; m_valid := m_valid q; m_waiting := m_waiting q |}, true)
  else (q, false).

(** [get] before the wait, the predicate of the wait, and [get] behind it. *)
Definition get_begin (q : sync_queue T) : sync_queue T :=
  {| m_queue := m_queue q; m_valid := m_valid q; m_waiting := m_waiting q + 1 |}.
Definition ready (q : sync_queue T) : bool := negb (m_valid q && empty q).
Definition get_end (q : sync_queue T) : option T * sync_queue T :=
  let q := {| m_queue := m_queue q; m_valid := m_valid q; m_waiting := m_waiting q - 1 |} in
  if m_valid q then
    match m_queue q with
    | elem :: rest => (Some elem, {| m_queue := rest; m_valid := m_valid q; m_waiting := m_waiting q |})
    | [] => (None, q)
    end
  else (None, q).

Definition invalidate (q : sync_queue T) : sync_queue T :=
  {| m_queue := []; m_valid := false; m_waiting := m_waiting q |}.
End queue.
End SyncQueue.

(** ** thread_pool *)

(** Where a worker is: at the test of [m_done], at the call of [get], asleep in
    the wait, notified, in a task, behind the loop. *)
Inductive worker (T : Type) := AtTop | InGet | Asleep | Notified | Running (t : T) | Exited.
Arguments AtTop {T}. Arguments InGet {T}. Arguments Asleep {T}. Arguments Notified {T}. Arguments Running {T} t. Arguments Exited {T}.

(** The members, and what has happened: the tasks that were put into the queue,
    those that were taken from it, and those that were thrown away, in order. *)
Record thread_pool (T : Type) := {
  m_done : bool; m_threads : list (worker T); tasks : sync_queue T;
  accepted : list T; started : list T; dropped : list T }.
Arguments m_done {T}. Arguments m_threads {T}. Arguments tasks {T}.
Arguments accepted {T}. Arguments started {T}. Arguments dropped {T}.

Module ThreadPool.
Section pool.
Context {T : Type}.
Abbreviation pool := (thread_pool T).

Definition with_threads (ws : list (worker T)) (p : pool) : pool :=
  {| m_done := m_done p; m_threads := ws; tasks := tasks p; accepted := accepted p; started := started p; dropped := dropped p |}.
Definition set_worker (i : nat) (w : worker T) (p : pool) : pool := with_threads (<[i := w]> (m_threads p)) p.

(** [thread_pool(n)], and the number of threads of [thread_pool()]: the
    arithmetic is that of [size_t]. *)
Definition start (n : nat) : pool :=
  {| m_done := false; m_threads := replicate n AtTop; tasks := SyncQueue.new; accepted := []; started := []; dropped := [] |}.
Definition default_count (hardware_concurrency : Z) : Z :=
  let hc := wrapU 64 (hardware_concurrency - 1) in
  if hc <=? 0 then 1 else hc.

Definition thread_count (p : pool) : Z := Z.of_nat (length (m_threads p)).
Definition request_count (p : pool) : Z := SyncQueue.size (tasks p).
Definition threads_waiting (p : pool) : Z := m_waiting (tasks p).

(** A test of the predicate of the wait, with what follows it when it holds. *)
Definition test (i : nat) (p : pool) : pool :=
  if SyncQueue.ready (tasks p) then
    let '(fcn, q) := SyncQueue.get_end (tasks p) in
    {| m_done := m_done p;
       m_threads := <[i := match fcn with Some t => Running t | None => AtTop end]> (m_threads p);
       tasks := q; accepted := accepted p;
       started := match fcn with Some t => started p ++ [t] | None => started p end; dropped := dropped p |}
  else set_worker i Asleep p.

(** What worker [i] does next: the loop of [start]. *)
Definition worker_step (i : nat) (p : pool) : option pool :=
  match m_threads p !! i with
  | Some AtTop => Some (set_worker i (if m_done p then Exited else InGet) p)
  | Some InGet =>
      Some (test i {| m_done := m_done p; m_threads := m_threads p; tasks := SyncQueue.get_begin (tasks p);
                      accepted := accepted p; started := started p; dropped := dropped p |})
  | Some Notified => Some (test i p)
  | Some (Running _) => Some (set_worker i AtTop p)
  | Some Asleep | Some Exited | None => None
  end.

(** [notify_one] and [notify_all]; the thread that is notified is a parameter. *)
Definition notify_one (i : nat) (p : pool) : pool :=
  match m_threads p !! i with Some Asleep => set_worker i Notified p | _ => p end.
Definition notify_all (p : pool) : pool :=
  with_threads ((fun w => match w with Asleep => Notified | _ => w end) <$> m_threads p) p.

(** [submit] *)
Definition submit (t : T) (i : nat) (p : pool) : pool :=
  let '(q, notify) := SyncQueue.put t (tasks p) in
  let p := {| m_done := m_done p; m_threads := m_threads p; tasks := q;
              accepted := if notify then accepted p ++ [t] else accepted p; started := started p; dropped := dropped p |} in
  if notify then notify_one i p else p.

(** [stop] up to the joins: the flag, then the queue. *)
Definition stop_flag (p : pool) : pool :=
  {| m_done := true; m_threads := m_threads p; tasks := tasks p; accepted := accepted p; started := started p; dropped := dropped p |}.
Definition stop_queue (p : pool) : pool :=
  notify_all {| m_done := m_done p; m_threads := m_threads p; tasks := SyncQueue.invalidate (tasks p);
                accepted := accepted p; started := started p; dropped := dropped p ++ m_queue (tasks p) |}.

(** The steps of the workers, and all steps: tasks are submitted, a waiting
    thread is notified for no reason, the pool is stopped.  [notify_one] notifies
    a thread that waits if there is one. *)
Inductive work : pool -> pool -> Prop :=
  | work_step i p p' : worker_step i p = Some p' -> work p p'.
Inductive step : pool -> pool -> Prop :=
  | step_work p p' : work p p' -> step p p'
  | step_submit t i p : (Asleep ∈ m_threads p -> m_threads p !! i = Some Asleep) -> step p (submit t i p)
  | step_spurious i p : m_threads p !! i = Some Asleep -> step p (set_worker i Notified p)
  | step_flag p : step p (stop_flag p)
  | step_queue p : m_done p = true -> m_valid (tasks p) = true -> step p (stop_queue p).

Definition reachable (n : nat) (p : pool) : Prop := rtc step (start n) p.
End pool.
End ThreadPool.
Import ThreadPool.

Section facts.
Context {T : Type}.
Abbreviation pool := (thread_pool T).

(** ** The invariant *)

Definition in_wait (w : worker T) : bool := match w with Asleep | Notified => true | _ => false end.
(** A worker that will look at the queue again of its own accord. *)
Definition awake (w : worker T) : bool := match w with Asleep | Exited => false | _ => true end.

Definition count (f : worker T -> bool) (ws : list (worker T)) : nat := sum_list_with (fun w => Nat.b2n (f w)) ws.
Arguments count : simpl never.

Definition pool_ok (n : nat) (p : pool) : Prop :=
  length (m_threads p) = n /\
  accepted p = started p ++ dropped p ++ m_queue (tasks p) /\
  m_waiting (tasks p) = Z.of_nat (count in_wait (m_threads p)) /\
  (m_valid (tasks p) = true -> dropped p = []) /\
  (m_valid (tasks p) = false -> m_queue (tasks p) = [] /\ m_done p = true /\ Asleep ∉ m_threads p) /\
  (m_done p = false -> Exited ∉ m_threads p) /\
  (m_done p = false -> m_queue (tasks p) <> [] -> exists i w, m_threads p !! i = Some w /\ awake w = true).

Lemma sum_insert (f : worker T -> nat) ws i w0 w : ws !! i = Some w0 ->
  (sum_list_with f (<[i := w]> ws) + f w0 = sum_list_with f ws + f w)%nat.
Proof.
  revert i. induction ws as [|x ws IH]; intros [|i] Hi; simpl in *; try done.
  - injection Hi as ->. lia.
  - specialize (IH i Hi). lia.
Qed.

Lemma pool_count_insert f ws i w0 w : ws !! i = Some w0 ->
  Z.of_nat (count f (<[i := w]> ws)) = Z.of_nat (count f ws) + (if f w then 1 else 0) - (if f w0 then 1 else 0).
Proof.
  intros Hi. pose proof (sum_insert (fun w => Nat.b2n (f w)) _ _ _ w Hi) as Hs. cbn beta in Hs. unfold count.
  destruct (f w), (f w0); cbn [Nat.b2n] in Hs; lia.
Qed.

Lemma elem_of_insert (ws : list (worker T)) i w x : x ∈ <[i := w]> ws -> x = w \/ x ∈ ws.
Proof.
  intros (j & Hj)%list_elem_of_lookup. apply list_lookup_insert_Some in Hj as [(_ & -> & _)|[_ Hj]]; [by left|].
  right. by eapply list_elem_of_lookup_2.
Qed.

(** A worker moves; its new place has not left the loop. *)
Lemma set_worker_ok n p i w0 w : pool_ok n p -> m_threads p !! i = Some w0 -> in_wait w = in_wait w0 ->
  awake w = true -> pool_ok n (set_worker i w p).
Proof.
  intros (Hn & Ha & Hw & Hd & Hv & He & Hk) Hi Hwait Hawake. split_and!; cbn; try done.
  - by rewrite length_insert.
  - rewrite (pool_count_insert _ _ _ _ _ Hi), Hwait. lia.
  - intros E. destruct (Hv E) as (? & ? & ?). split_and!; [done..|]. intros [<-|?]%elem_of_insert; [done|congruence].
  - intros E [<-|Hin]%elem_of_insert; [done|]. by apply He in E.
  - intros _ _. exists i, w. split; [|done]. apply list_lookup_insert_eq. by eapply lookup_lt_Some.
Qed.

Lemma test_ok n p i : pool_ok n p -> m_threads p !! i = Some Notified -> pool_ok n (test i p).
Proof.
  intros (Hn & Ha & Hw & Hd & Hv & He & Hk) Hi. unfold test, SyncQueue.ready, SyncQueue.get_end, SyncQueue.empty.
  destruct (m_valid (tasks p)) eqn:Ev; cbn [negb andb].
  - destruct (m_queue (tasks p)) as [|t rest] eqn:Eq; cbn [negb m_queue m_valid m_waiting].
    + split_and!; cbn; rewrite ?Ev, ?Eq; try done; [by rewrite length_insert|..].
      * rewrite (pool_count_insert _ _ _ _ _ Hi). cbn. lia.
      * intros E [[=]|Hin]%elem_of_insert. by apply He in E.
    + split_and!; cbn; rewrite ?Ev; try done; [by rewrite length_insert|..].
      * rewrite Ha, Hd by done. by rewrite <- app_assoc.
      * rewrite (pool_count_insert _ _ _ _ _ Hi). cbn. lia.
      * intros E [[=]|Hin]%elem_of_insert. by apply He in E.
      * intros _ _. exists i, (Running t). split; [|done]. apply list_lookup_insert_eq. by eapply lookup_lt_Some.
  - destruct (Hv eq_refl) as (Hq & Hdone & Hs'). rewrite Hq in *. split_and!; cbn; rewrite ?Ev, ?Hq, ?Hdone; try done; [by rewrite length_insert|..].
    + rewrite (pool_count_insert _ _ _ _ _ Hi). cbn. lia.
    + intros _. split_and!; [done..|]. by intros [[=]|?]%elem_of_insert.
Qed.

Lemma get_begin_ok n p i : pool_ok n p -> m_threads p !! i = Some InGet ->
  pool_ok n (set_worker i Notified {| m_done := m_done p; m_threads := m_threads p; tasks := SyncQueue.get_begin (tasks p);
    accepted := accepted p; started := started p; dropped := dropped p |}).
Proof.
  intros (Hn & Ha & Hw & Hd & Hv & He & Hk) Hi. split_and!; cbn; try done.
  - by rewrite length_insert.
  - rewrite (pool_count_insert _ _ _ _ _ Hi). cbn. lia.
  - intros E. destruct (Hv E) as (? & ? & ?). split_and!; [done..|]. by intros [[=]|?]%elem_of_insert.
  - intros E [[=]|Hin]%elem_of_insert. by apply He in E.
  - intros _ _. exists i, Notified. split; [|done]. apply list_lookup_insert_eq. by eapply lookup_lt_Some.
Qed.

Lemma work_ok n p p' : pool_ok n p -> work p p' -> pool_ok n p'.
Proof.
  intros Hp Hw. revert Hp. destruct Hw as [i q q' Hq]. intros Hp. unfold worker_step in Hq. destruct (m_threads q !! i) as [[| | | |t|]|] eqn:Hi; try done; injection Hq as <-.
  - destruct (m_done q) eqn:Ed; [|by eapply set_worker_ok].
    destruct Hp as (Hn & Ha & Hw & Hd & Hv & He & Hk). split_and!; cbn; rewrite ?Ed; try done.
    + by rewrite length_insert.
    + rewrite (pool_count_insert _ _ _ _ _ Hi). cbn. lia.
    + intros E. destruct (Hv E) as (? & ? & ?). split_and!; [done..|]. by intros [[=]|?]%elem_of_insert.
  - pose proof (get_begin_ok _ _ _ Hp Hi) as Hb.
    match goal with |- pool_ok n (test i ?x) => assert (test i x = test i (set_worker i Notified x)) as -> end.
    { unfold test, set_worker, with_threads. cbn. destruct (SyncQueue.ready _); [|by rewrite list_insert_insert_eq].
      destruct (SyncQueue.get_end _) as [[t|] q']; by rewrite list_insert_insert_eq. }
    apply test_ok; [done|]. cbn. apply list_lookup_insert_eq. by eapply lookup_lt_Some.
  - by apply test_ok.
  - by eapply set_worker_ok.
Qed.

Lemma all_asleep (ws : list (worker T)) : ws <> [] -> Exited ∉ ws -> Asleep ∈ ws \/ exists i w, ws !! i = Some w /\ awake w = true.
Proof.
  intros Hne He. destruct ws as [|w ws]; [done|]. destruct (awake w) eqn:Ea; [by right; exists 0%nat, w|].
  left. destruct w; try done; [by left|]. exfalso. apply He. by left.
Qed.

Lemma submit_ok n p t i : (0 < n)%nat -> pool_ok n p -> (Asleep ∈ m_threads p -> m_threads p !! i = Some Asleep) -> pool_ok n (submit t i p).
Proof.
  intros Hpos (Hn & Ha & Hw & Hd & Hv & He & Hk) Hi. unfold submit, SyncQueue.put.
  destruct (m_valid (tasks p)) eqn:Ev; [|split_and!; cbn; rewrite ?Ev; done].
  assert (m_threads p <> []) as Hne by (intros E; rewrite E in Hn; cbn in Hn; lia).
  unfold notify_one. cbn [m_threads]. destruct (m_threads p !! i) as [[| | | |x|]|] eqn:El.
  3: { split_and!; cbn; rewrite ?Ev; try done.
    - by rewrite length_insert.
    - rewrite Ha. by rewrite <- !app_assoc.
    - rewrite (pool_count_insert _ _ _ _ _ El). cbn. lia.
    - intros E [[=]|Hin]%elem_of_insert. by apply He in E.
    - intros _ _. exists i, Notified. split; [|done]. apply list_lookup_insert_eq. by eapply lookup_lt_Some. }
  all: split_and!; cbn; rewrite ?Ev; try done; [rewrite Ha; by rewrite <- !app_assoc|].
  all: intros E _; destruct (all_asleep _ Hne (He E)) as [Hin|?]; [|done]; by apply Hi in Hin.
Qed.

Lemma stop_queue_ok n p : pool_ok n p -> m_done p = true -> m_valid (tasks p) = true -> pool_ok n (stop_queue p).
Proof.
  intros (Hn & Ha & Hw & Hd & Hv & He & Hk) Hdone Ev. split_and!; cbn; rewrite ?Hdone; try done.
  - by rewrite length_fmap.
  - rewrite Ha, Hd by done. by rewrite app_nil_r.
  - rewrite Hw. f_equal. unfold count. clear. induction (m_threads p) as [|w ws IH]; [done|]. cbn. rewrite IH. by destruct w.
  - intros _. split_and!; [done..|]. intros (w & Hw' & _)%list_elem_of_fmap. by destruct w.
Qed.

Lemma pool_step_ok n p p' : (0 < n)%nat -> pool_ok n p -> step p p' -> pool_ok n p'.
Proof.
  intros Hpos Hp Hs. inversion Hs as [q q' Hq|t i q Hi|i q Hi|q|q Hd Hv]; subst.
  - by eapply work_ok.
  - by apply submit_ok.
  - by eapply set_worker_ok.
  - destruct Hp as (Hn & Ha & Hw & Hd & Hv & He & Hk). split_and!; cbn; try done. intros E. by destruct (Hv E) as (? & ? & ?).
  - by apply stop_queue_ok.
Qed.

Lemma pool_reachable_ok n p : (0 < n)%nat -> reachable n p -> pool_ok n p.
Proof.
  intros Hpos Hr. assert (forall q q' : pool, rtc step q q' -> pool_ok n q -> pool_ok n q') as Hall.
  { induction 1 as [|x y z Hxy _ IH]; [done|]. intros Hx. by eapply IH, pool_step_ok. }
  apply (Hall _ _ Hr). split_and!; cbn; try done.
  - by rewrite length_replicate.
  - unfold count. clear. induction n as [|n IH]; [done|]. done.
  - by intros _ [[=] _]%elem_of_replicate.
Qed.

(** ** Properties *)

(** C13. Whatever the workers, the submitters and the stop do in turn, tasks are
    started in the order in which they were accepted and none twice: what was
    accepted is what was started, followed by what waits, or, when the pool has
    been stopped, by what was thrown away; and the count of waiting threads is the
    number of workers in the wait. *)
Theorem tasks_in_order n (p : pool) : (0 < n)%nat -> reachable n p ->
  (m_valid (tasks p) = true -> accepted p = started p ++ m_queue (tasks p)) /\
  (m_valid (tasks p) = false -> accepted p = started p ++ dropped p) /\
  threads_waiting p = Z.of_nat (count in_wait (m_threads p)).
Proof.
  intros Hn Hr. destruct (pool_reachable_ok n p Hn Hr) as (_ & Ha & Hw & Hd & Hv & _). split_and!; [| |done]; intros E.
  - by rewrite Ha, Hd.
  - destruct (Hv E) as (Hq & _). by rewrite Ha, Hq, app_nil_r.
Qed.

(** The next [k] steps of worker [i]. *)
Fixpoint worker_run (i k : nat) (p : pool) : option pool :=
  match k with O => Some p | S k => p ← worker_step i p; worker_run i k p end.

Lemma run_step i k (p q : pool) : worker_step i p = Some q -> worker_run i (S k) p = worker_run i k q.
Proof. intros E. cbn [worker_run]. by rewrite E. Qed.

Lemma run_from_test i (p : pool) t rest s : m_valid (tasks p) = true -> m_queue (tasks p) = t :: rest -> started p = s ->
  started (test i p) = s ++ [t].
Proof. intros Ev Eq <-. unfold test, SyncQueue.ready, SyncQueue.get_end, SyncQueue.empty. cbn. by rewrite Ev, Eq. Qed.

Lemma run_from_get i (p : pool) t rest : m_valid (tasks p) = true -> m_queue (tasks p) = t :: rest -> m_threads p !! i = Some InGet ->
  exists p', worker_run i 1 p = Some p' /\ started p' = started p ++ [t].
Proof.
  intros Ev Eq Hi. cbn [worker_run]. unfold worker_step. rewrite Hi. eexists. split; [done|]. by apply (run_from_test _ _ t rest).
Qed.

Lemma run_from_top i (p : pool) t rest : m_valid (tasks p) = true -> m_queue (tasks p) = t :: rest -> m_done p = false -> m_threads p !! i = Some AtTop ->
  exists p', worker_run i 2 p = Some p' /\ started p' = started p ++ [t].
Proof.
  intros Ev Eq Hd Hi. rewrite (run_step i 1 p (set_worker i InGet p)) by (unfold worker_step; by rewrite Hi, Hd).
  destruct (run_from_get i (set_worker i InGet p) t rest Ev Eq) as (p' & Hp & Hs); [|by exists p'].
  apply list_lookup_insert_eq. by eapply lookup_lt_Some.
Qed.

(** C12. No wake-up is lost: in a pool that has not been stopped, when a task waits
    there is a worker that, with at most three steps of its own, starts it; none of
    these waits for a notification. *)
Theorem waiting_task_is_started n (p : pool) t rest : (0 < n)%nat -> reachable n p -> m_done p = false -> m_queue (tasks p) = t :: rest ->
  exists i k p', (k <= 3)%nat /\ worker_run i k p = Some p' /\ started p' = started p ++ [t].
Proof.
  intros Hn Hr Hd Eq. destruct (pool_reachable_ok n p Hn Hr) as (_ & _ & _ & _ & Hv & _ & Hk).
  assert (m_valid (tasks p) = true) as Ev.
  { destruct (m_valid (tasks p)) eqn:E; [done|]. destruct (Hv eq_refl) as (? & ? & _). congruence. }
  destruct (Hk Hd ltac:(congruence)) as (i & w & Hi & Ha). destruct w as [| | | |x|]; try done.
  - destruct (run_from_top i p t rest Ev Eq Hd Hi) as (p' & ? & ?). exists i, 2%nat, p'. split_and!; [lia|done..].
  - destruct (run_from_get i p t rest Ev Eq Hi) as (p' & ? & ?). exists i, 1%nat, p'. split_and!; [lia|done..].
  - exists i, 1%nat, (test i p). split; [lia|]. split; [|by apply (run_from_test _ _ t rest)].
    by rewrite (run_step i 0 p (test i p)) by (unfold worker_step; by rewrite Hi).
  - destruct (run_from_top i (set_worker i AtTop p) t rest Ev Eq Hd) as (p' & Hp & ?).
    { apply list_lookup_insert_eq. by eapply lookup_lt_Some. }
    exists i, 3%nat, p'. split_and!; [lia| |done]. by rewrite (run_step i 2 p (set_worker i AtTop p)) by (unfold worker_step; by rewrite Hi).
Qed.

(** ** Stopping *)
Definition left (w : worker T) : nat := match w with Exited => 0 | AtTop => 1 | _ => 2 end.

Lemma stopped_work n p p' : pool_ok n p -> m_done p = true -> m_valid (tasks p) = false -> work p p' ->
  m_done p' = true /\ m_valid (tasks p') = false /\ (S (sum_list_with left (m_threads p')) <= sum_list_with left (m_threads p))%nat.
Proof.
  intros Hp Hd Hv Hw. revert Hp Hd Hv. destruct Hw as [i q q' Hq]. intros Hp Hd Hv. unfold worker_step in Hq.
  destruct (m_threads q !! i) as [w|] eqn:Hi; [|done]. pose proof (fun y => sum_insert left _ _ _ y Hi) as Hs.
  destruct w as [| | | |t|]; try done; injection Hq as <-.
  - rewrite Hd. cbn. split_and!; [done..|]. specialize (Hs Exited). cbn in Hs. lia.
  - unfold test, SyncQueue.ready, SyncQueue.get_end. cbn. rewrite !Hv. cbn. rewrite ?Hv. split_and!; [done..|]. specialize (Hs AtTop). cbn in Hs. lia.
  - unfold test, SyncQueue.ready, SyncQueue.get_end. cbn. rewrite !Hv. cbn. rewrite ?Hv. split_and!; [done..|]. specialize (Hs AtTop). cbn in Hs. lia.
  - cbn. split_and!; [done..|]. specialize (Hs AtTop). cbn in Hs. lia.
Qed.

Lemma left_bound (ws : list (worker T)) : (sum_list_with left ws <= 2 * length ws)%nat.
Proof. induction ws as [|w ws IH]; cbn; [lia|]. assert (left w <= 2)%nat by (destruct w; cbn; lia). lia. Qed.

(** Once the queue has been invalidated the joins of [stop] return: the workers
    make at most two steps each, a task that is running counted as one, and as long
    as one has not left its loop some worker can make a step. *)
Theorem stop_joins n (p : pool) k p' : (0 < n)%nat -> reachable n p -> m_done p = true -> m_valid (tasks p) = false -> nsteps work k p p' ->
  (k <= 2 * n)%nat /\ (Forall (fun w => w = Exited) (m_threads p') \/ exists p'', work p' p'').
Proof.
  intros Hn Hr Hd Hv Hk. pose proof (pool_reachable_ok n p Hn Hr) as Hp.
  assert (pool_ok n p' /\ m_valid (tasks p') = false /\ (k + sum_list_with left (m_threads p') <= sum_list_with left (m_threads p))%nat) as (Hp' & Hv' & Hle).
  { clear Hr. induction Hk as [|k x y z Hxy _ IH]; [done|]. destruct (stopped_work n x y Hp Hd Hv Hxy) as (Hd' & Hv' & Hle).
    destruct (IH Hd' Hv' (work_ok _ _ _ Hp Hxy)) as (? & ? & ?). split_and!; [done..|lia]. }
  split.
  - pose proof (left_bound (m_threads p)). destruct Hp as (Hlen & _). lia.
  - destruct (decide (Forall (fun w => left w = 0%nat) (m_threads p'))) as [Hall|Hne].
    + left. eapply Forall_impl; [exact Hall|]. by intros [].
    + right. apply not_Forall_Exists in Hne; [|apply _]. apply Exists_exists in Hne as (w & (i & Hi)%list_elem_of_lookup & Hw).
      destruct Hp' as (_ & _ & _ & _ & Hva & _). destruct (Hva Hv') as (_ & _ & Has).
      destruct (worker_step i p') as [p''|] eqn:E; [by exists p''; apply (work_step i)|]. exfalso.
      unfold worker_step in E. rewrite Hi in E. destruct w; try done; [|by apply Hw]. apply Has. by eapply list_elem_of_lookup_2.
Qed.
End facts.

(** Two workers; a task is submitted, then the pool is stopped. *)
Lemma demo_reach : reachable 2 (submit 5 0 (start 2)).
Proof. apply rtc_once. apply step_submit. by intros [[=] _]%elem_of_replicate. Qed.

Lemma tasks_in_order_witness : accepted (submit 5 0 (start 2)) = started (submit 5 0 (start 2)) ++ [5].
Proof. by apply (tasks_in_order 2 (submit 5 0 (start 2)) ltac:(lia) demo_reach). Defined.

Lemma waiting_task_is_started_witness :
  exists i k p', (k <= 3)%nat /\ worker_run i k (submit 5 0 (start 2)) = Some p' /\ started p' = [5].
Proof. apply (waiting_task_is_started 2 (submit 5 0 (start 2)) 5 []); [lia|apply demo_reach|done..]. Defined.

Lemma stop_joins_witness :
  let p := stop_queue (stop_flag (submit 5 0 (start 2))) in
  reachable 2 p /\ (Forall (fun w => w = Exited) (m_threads p) \/ exists p'', work p p'').
Proof.
  intros p. assert (reachable 2 p) as Hr.
  { eapply rtc_r; [eapply rtc_r; [apply demo_reach|apply step_flag]|]. by apply step_queue. }
  split; [done|]. by apply (stop_joins 2 p 0 p ltac:(lia) Hr); [..|constructor].
Defined.

(** On a machine whose number of processors is not known the pool asks for
    [2^64 - 1] threads. *)
Example default_counts : default_count <$> [8; 1; 0] = [7; 1; 2 ^ 64 - 1].
Proof. reflexivity. Qed.
