(* ===== verification/FileBody.v ===== *)
(** * Whole files (http/src/common/body.cpp, [body_source_file]; libcom/include/file.h, [read_file])

    The source of a body that reads a [snf::file]: its constructor, [has_next],
    [next] and [length], over the system calls of [File]; and the function that
    reads a file into an array. *)
From S2P Require Import Prelude Effects Text File FileLaws Body.

Record file_body := { fb_file : file; fb_filesize : Z; fb_read : Z }.

Module FileBody.
Section body.
Context {OS : Type} (sys : syscalls OS).

(** [body_source_file(filename)]; the result of [size] is converted to a
    [size_t], an error code too. *)
Definition init (filename : bytes) : M cpp_exn OS file_body := fun os =>
  let oflags := {| o_read := true; o_write := false; o_append := false; o_create := false; o_truncate := false; o_excl := false; o_sync := false |} in
  let '((r, syserr), f, os) := File.open sys (file_init filename 18) oflags 384 os in
  if negb (r =? E_ok) then (Throw (system_error syserr), os)
  else
    let '(n, _, os) := File.size sys f os in
    (Ok {| fb_file := f; fb_filesize := wrapU 64 n; fb_read := 0 |}, os).

Definition length (b : file_body) : Z := fb_filesize b.
Definition has_next (b : file_body) : bool := fb_read b <? fb_filesize b.

(** [next(buflen)]: no bytes are a null pointer with the length 0. *)
Definition next (fuel : nat) : M cpp_exn (file_body * OS) bytes := fun '(b, os) =>
  match File.read sys fuel (fb_file b) CHUNKSIZE os with
  | Val (r, syserr, data, os) =>
      if negb (r =? E_ok) then (Throw (system_error syserr), (b, os))
      else (Ok data, ({| fb_file := fb_file b; fb_filesize := fb_filesize b; fb_read := fb_read b + zlen data |}, os))
  | _ => (Diverge, (b, os))
  end.

(** [~body_source_file] *)
Definition destroy (b : file_body) (os : OS) : OS := (File.close sys (fb_file b) os).2.
End body.
End FileBody.

(** [read_file(name, data, &datalen)] for elements of [tsize] bytes: the code,
    and what [data] points to, a null pointer or the bytes that were read (what
    the array has beyond them is indeterminate).  The file is closed by its
    destructor on every way out.  Bytes that are read past the array are
    undefined behaviour. *)
Definition read_file {OS} (sys : syscalls OS) (fuel : nat) (tsize : Z) (name : bytes) (data : option bytes) (datalen : Z)
  : M cpp_exn OS (Z * option bytes * Z) := fun os =>
  let flags := {| o_read := true; o_write := false; o_append := false; o_create := false; o_truncate := false; o_excl := false; o_sync := false |} in
  let '((retval, oserr), f, os) := File.open sys (file_init name 18) flags 384 os in
  let fin f os := (File.close sys f os).2 in
  if negb (retval =? 0) then
    (if negb (oserr =? 0) then Throw (system_error oserr) else Ok (retval, data, datalen), fin f os)
  else
    let '(fsize, oserr, os) := File.size sys f os in
    if fsize <? 0 then
      (if negb (oserr =? 0) then Throw (system_error oserr) else Ok (int32 fsize, data, datalen), fin f os)
    else if negb (fsize =? 0) then
      let nelem := fsize / tsize in
      match File.read sys fuel f (int32 fsize) os with
      | Val (retval, oserr, b, os) =>
          if nelem * tsize <? zlen b then (Ub, os)
          else if negb (retval =? 0) then
            (if negb (oserr =? 0) then Throw (system_error oserr) else Ok (retval, None, fsize), fin f os)
          else
            let '(_, _, f, os) := File.close sys f os in
            (Ok (retval, Some b, fsize), fin f os)
      | _ => (Diverge, os)
      end
    else
      let '(_, _, f, os) := File.close sys f os in
      (Ok (0, data, 0), fin f os).

(** ** Facts (http: bodies from files, and what the reader of a body gets) *)
Import FileBody.

Lemma take_then_rest {A} c (l : list A) : take c l ++ drop (Datatypes.length (take c l)) l = l.
Proof. revert c. induction l as [|x l IH]; intros [|c]; [done..|]. cbn. by rewrite IH. Qed.

Section file.
Context {OS : Type} (sys : syscalls OS) (f : file) `{!Regular sys (fd f)}.
Hypothesis Hopen : fd f <> INVALID_HANDLE_VALUE.
Context (fuel : nat).
Abbreviation ST := (file_body * OS)%type.
Definition more : M cpp_exn ST bool := gets (fun st => has_next st.1).
Definition at_read (n m : Z) : file_body := {| fb_file := f; fb_filesize := n; fb_read := m |}.

(** One piece: an exception, or the bytes at the offset. *)
Lemma next_spec n m os : (f_intr (sys:=sys) (d:=fd f) os + Z.to_nat CHUNKSIZE < fuel)%nat ->
  exists r st, next sys fuel (at_read n m, os) = (r, st) /\ f_data (d:=fd f) st.2 = f_data (d:=fd f) os /\
    (f_intr (d:=fd f) st.2 <= f_intr (d:=fd f) os)%nat /\
    match r with
    | Ok piece => piece = take (Z.to_nat CHUNKSIZE) (drop (f_pos (d:=fd f) os) (f_data (d:=fd f) os)) /\
                  st.1 = at_read n (m + zlen piece) /\ f_pos (d:=fd f) st.2 = (f_pos (d:=fd f) os + Datatypes.length piece)%nat
    | Throw e => exists c, e = system_error c
    | _ => False
    end.
Proof.
  intros Hf. unfold next. cbn [fb_file at_read].
  destruct (read_spec sys f Hopen fuel CHUNKSIZE os) as (r & e & b & os' & -> & Hd & Hi & Hr); [done|done|].
  destruct (Z.eqb_spec r E_ok) as [->|Hne]; cbn [negb].
  - do 2 eexists. split; [reflexivity|]. split; [done|]. split; [done|]. destruct Hr as [?|(_ & Hb & Hp)]; [done|]. done.
  - do 2 eexists. split; [reflexivity|]. split; [done|]. split; [done|]. by eexists.
Qed.

Lemma drain_step rounds n m os : drain more (next sys fuel) (S rounds) (at_read n m, os) =
  (if m <? n then let! d := next sys fuel in let! ds := drain more (next sys fuel) rounds in ret (d :: ds) else ret []) (at_read n m, os).
Proof. reflexivity. Qed.

Lemma drain_from rounds : forall m os, (f_intr (d:=fd f) os + Z.to_nat CHUNKSIZE < fuel)%nat ->
  m = Z.of_nat (f_pos (d:=fd f) os) -> (f_pos (d:=fd f) os <= Datatypes.length (f_data (d:=fd f) os))%nat ->
  (Datatypes.length (f_data (d:=fd f) os) - f_pos (d:=fd f) os < rounds)%nat ->
  exists r st, drain more (next sys fuel) rounds (at_read (zlen (f_data (d:=fd f) os)) m, os) = (r, st) /\
    f_data (d:=fd f) st.2 = f_data (d:=fd f) os /\
    match r with
    | Ok pieces => concat pieces = drop (f_pos (d:=fd f) os) (f_data (d:=fd f) os) /\
                   Forall (fun p => 0 < zlen p <= CHUNKSIZE) pieces /\ has_next st.1 = false
    | Throw e => exists c, e = system_error c
    | _ => False
    end.
Proof.
  induction rounds as [|rounds IH]; intros m os Hf Hm Hp Hr; [lia|]. rewrite drain_step.
  destruct (Z.ltb_spec m (zlen (f_data (d:=fd f) os))) as [Hlt|Hge].
  - unfold bind at 1. destruct (next_spec (zlen (f_data (d:=fd f) os)) m os Hf) as (r & [b os1] & -> & Hd & Hi & Hres). cbn [fst snd] in Hd, Hi, Hres.
    destruct r as [piece|e| |]; [|do 2 eexists; split; [reflexivity|]; done|done..].
    destruct Hres as (Hpiece & -> & Hpos).
    assert (0 < zlen piece <= CHUNKSIZE) as Hlen.
    { unfold zlen in *. rewrite Hpiece, length_take, length_drop. change CHUNKSIZE with 65536. lia. }
    assert (Datatypes.length piece <= Datatypes.length (f_data (d:=fd f) os) - f_pos (d:=fd f) os)%nat as Hle.
    { rewrite Hpiece, length_take, length_drop. lia. }
    unfold zlen in Hlen. rewrite <- Hd.
    destruct (IH (m + zlen piece) os1) as (r & st & E & Hd2 & Hres2); [lia|unfold zlen; lia|rewrite Hd; lia|rewrite Hd; lia|].
    rewrite Hd in E. unfold bind. rewrite Hd, E. destruct r as [l|e| |]; (do 2 eexists; split; [reflexivity|]; cbn; split; [congruence|]); [|done..].
    destruct Hres2 as (Hc & Hall & Hn). split_and!; [|by constructor|done]. cbn [concat]. rewrite Hc, Hd, Hpos, <- drop_drop, Hpiece. apply take_then_rest.
  - do 2 eexists. split; [reflexivity|]. cbn. split; [done|]. unfold zlen in Hge. split_and!; [|constructor|].
    + symmetry. apply drop_ge. lia.
    + apply Z.ltb_ge. unfold zlen. cbn. lia.
Qed.

(** A body made from a file is read in pieces of at most the size of the buffer,
    none of them empty, that make up the bytes of the file, or the reading ends
    in a [std::system_error]. *)
Theorem file_body_drains os : (f_intr (d:=fd f) os + Z.to_nat CHUNKSIZE < fuel)%nat -> f_pos (d:=fd f) os = 0%nat ->
  exists r st, drain more (next sys fuel) (S (Datatypes.length (f_data (d:=fd f) os))) (at_read (zlen (f_data (d:=fd f) os)) 0, os) = (r, st) /\
    match r with
    | Ok pieces => concat pieces = f_data (d:=fd f) os /\ Forall (fun p => 0 < zlen p <= CHUNKSIZE) pieces /\ has_next st.1 = false
    | Throw e => exists c, e = system_error c
    | _ => False
    end.
Proof.
  intros Hf Hp. destruct (drain_from (S (Datatypes.length (f_data (d:=fd f) os))) 0 os Hf) as (r & st & E & _ & Hr); [lia..|].
  exists r, st. split; [done|]. rewrite Hp in Hr. by destruct r.
Qed.

(** A body that promises more than the file holds, because the file became
    shorter or because [size] failed, never ends: [has_next] stays true and
    [next] gives nothing, unless a read fails. *)
Theorem file_body_never_ends rounds n m os : (f_intr (d:=fd f) os + Z.to_nat CHUNKSIZE < fuel)%nat -> m < n ->
  (Datatypes.length (f_data (d:=fd f) os) <= f_pos (d:=fd f) os)%nat ->
  match (drain more (next sys fuel) rounds (at_read n m, os)).1 with Diverge => True | Throw e => exists c, e = system_error c | _ => False end.
Proof.
  intros Hf Hm. revert os Hf. induction rounds as [|rounds IH]; intros os Hf Hp; [done|]. rewrite drain_step, (proj2 (Z.ltb_lt m n)) by lia. unfold bind at 1.
  destruct (next_spec n m os Hf) as (r & [b os1] & -> & Hd & Hi & Hres). cbn [fst snd] in Hd, Hi, Hres.
  destruct r as [piece|e| |]; [|done..]. destruct Hres as (Hpiece & -> & Hpos). rewrite drop_ge, take_nil in Hpiece by lia. subst piece.
  cbn in Hpos. rewrite Z.add_0_r. specialize (IH os1). unfold bind.
  destruct (drain more (next sys fuel) rounds (at_read n m, os1)) as [[] ?] eqn:E; cbn in *; try done; apply IH; rewrite ?Hd; lia.
Qed.
(** Whatever [read] returns, it has not stored more than it was asked for. *)
Lemma read_loop_len fuel' : forall n buf os r e b os', 0 < n ->
  File.read_loop sys fuel' (fd f) n buf os = Val (r, e, b, os') -> zlen b <= zlen buf + n.
Proof.
  induction fuel' as [|fuel' IH]; intros n buf os r e b os' Hn E; [done|]. cbn [File.read_loop] in E.
  pose proof (read_law n os Hn) as H. destruct (sys_read _ _ _ _) as [[k d] os1]. destruct H as (_ & _ & H).
  destruct (Z.ltb_spec k 0) as [Hk|Hk].
  - rewrite (proj2 (Z.ltb_lt 0 n) Hn) in E. destruct (negb _); [injection E as <- <- <- <-; lia|by eapply IH].
  - destruct (Z.eqb_spec k 0); [injection E as <- <- <- <-; lia|]. destruct H as [[? _]|(Hd & Hle & _)]; [lia|].
    assert (zlen (buf ++ d) = zlen buf + k) as El by (unfold zlen in *; rewrite length_app; lia).
    destruct (Z.ltb_spec 0 (n - k)); [apply IH in E; lia|injection E as <- <- <- <-; lia].
Qed.

(** A file of less than 2 GB whose size is a number of elements is read whole,
    or there is an exception, or the code of an error without a number; nothing
    is written outside the array. *)
Theorem read_file_reads tsize name data datalen os os1 :
  File.open sys (file_init name 18) {| o_read := true; o_write := false; o_append := false; o_create := false; o_truncate := false; o_excl := false; o_sync := false |} 384 os = ((E_ok, 0), f, os1) ->
  f_pos (d:=fd f) os1 = 0%nat -> 0 < tsize -> (tsize | zlen (f_data (d:=fd f) os1)) -> zlen (f_data (d:=fd f) os1) < 2 ^ 31 ->
  (f_intr (d:=fd f) os1 + Datatypes.length (f_data (d:=fd f) os1) < fuel)%nat ->
  match (read_file sys fuel tsize name data datalen os).1 with
  | Ok (c, b, n) => c = E_ok -> n = zlen (f_data (d:=fd f) os1) /\ b = (if n =? 0 then data else Some (f_data (d:=fd f) os1))
  | Throw e => exists c, e = system_error c
  | _ => False
  end.
Proof.
  intros E Hp Ht Hdiv Hlen Hf. unfold read_file. rewrite E. cbn [negb]. change (negb (E_ok =? 0)) with false. cbv iota.
  unfold File.size. rewrite (fd_open f Hopen). pose proof (fstat_law os1) as L.
  destruct (sys_fstat sys (fd f) os1) as [[r n] os2]. destruct L as (Hd & Hp2 & Hi & Hr).
  destruct (Z.ltb_spec r 0) as [Hneg|Hpos].
  { change (E_stat_failed <? 0) with true. cbv iota. destruct (_ =? 0); cbn; [done|by eexists]. }
  destruct Hr as [?| ->]; [lia|]. pose proof (zlen_nonneg (f_data (d:=fd f) os1)) as H0.
  destruct (Z.ltb_spec (zlen (f_data (d:=fd f) os1)) 0); [lia|].
  destruct (Z.eqb_spec (zlen (f_data (d:=fd f) os1)) 0) as [->|Hne]; cbn [negb].
  { destruct (File.close sys f os2) as [[[? ?] ?] ?]. done. }
  rewrite (wrapS_id 32) by (cbn in Hlen |- *; lia).
  destruct (read_spec sys f Hopen fuel (zlen (f_data (d:=fd f) os1)) os2) as (c & e & b & os3 & Er & _ & _ & Hc); [lia|unfold zlen in *; lia|].
  rewrite Er. unfold File.read in Er. rewrite (fd_open f Hopen), (proj2 (Z.leb_gt (zlen (f_data (d:=fd f) os1)) 0)) in Er by lia. apply read_loop_len in Er; [|lia].
  destruct Hdiv as [k Hk].
  assert (zlen (f_data (d:=fd f) os1) / tsize * tsize = zlen (f_data (d:=fd f) os1)) as Hexact by (rewrite Hk, Z.div_mul by lia; done).
  rewrite Hexact, (proj2 (Z.ltb_ge _ _)) by exact Er. destruct Hc as [->|(-> & Hb & _)].
  - change (negb (E_read_failed =? 0)) with true. cbv iota. destruct (_ =? 0); cbn; [done|by eexists].
  - destruct (File.close sys f os3) as [[[? ?] ?] ?]. cbn. intros _. split; [done|]. rewrite (proj2 (Z.eqb_neq _ _)) by done.
    rewrite Hb, Hp2, Hp, Hd, drop_0. f_equal. apply take_ge. unfold zlen. by rewrite Nat2Z.id.
Qed.
End file.

(** ** A file and a system with faults *)
Definition demo_body_file : file := mkFile (bytes_of "page") 18 3.
Definition demo_os (faults : list fault) : script := {| s_data := bytes_of "<p>text</p>"; s_pos := 0; s_mask := 0; s_errno := 0; s_next := faults |}.

Lemma file_body_drains_witness :
  let f := demo_body_file in let os := demo_os [Failing 4; Short 2] in
  (exists r st, drain (more (OS:=script)) (next script_sys 70000) (S (Datatypes.length (f_data (sys:=script_sys) (d:=3) os)))
      (at_read f (zlen (f_data (sys:=script_sys) (d:=3) os)) 0, os) = (r, st) /\
    match r with
    | Ok pieces => concat pieces = f_data (sys:=script_sys) (d:=3) os /\ Forall (fun p => 0 < zlen p <= CHUNKSIZE) pieces /\ has_next st.1 = false
    | Throw e => exists c, e = system_error c
    | _ => False
    end) /\
  (drain more (next script_sys 70000) 12 (at_read f 11 0, os)).1 = Ok [bytes_of "<p>text</p>"].
Proof.
  cbv zeta. split; [|vm_compute; reflexivity].
  apply (file_body_drains script_sys demo_body_file); [discriminate|apply Nat.ltb_lt; vm_compute; reflexivity|reflexivity].
Defined.

(** [fstat] fails when the body is made. *)
Lemma file_body_never_ends_witness :
  fb_filesize <$> (match FileBody.init script_sys (bytes_of "page") (demo_os [Fine; Failing 9]) with (Ok b, _) => Some b | _ => None end) = Some (2 ^ 64 + E_stat_failed) /\
  match (drain more (next script_sys 70000) 5 (at_read demo_body_file (2 ^ 64 + E_stat_failed) 11, {| s_data := bytes_of "<p>text</p>"; s_pos := 11; s_mask := 0; s_errno := 0; s_next := [] |})).1
  with Diverge => True | Throw e => exists c, e = system_error c | _ => False end.
Proof.
  split; [vm_compute; reflexivity|].
  apply (file_body_never_ends script_sys demo_body_file); [discriminate|apply Nat.ltb_lt; vm_compute; reflexivity|reflexivity|vm_compute; lia].
Defined.

(** Bytes that are read whole; and an array of two elements of four bytes for
    eleven bytes, of which the last three are written past it. *)
Lemma read_file_reads_witness :
  let os := demo_os [Fine; Fine; Short 3; Failing 4] in
  match (read_file script_sys 50 1 (bytes_of "page") None 7 os).1 with
  | Ok (c, b, n) => c = E_ok -> n = 11 /\ b = (if n =? 0 then None else Some (bytes_of "<p>text</p>"))
  | Throw e => exists c, e = system_error c
  | _ => False
  end /\ (read_file script_sys 50 1 (bytes_of "page") None 7 os).1 = Ok (E_ok, Some (bytes_of "<p>text</p>"), 11) /\
  (read_file script_sys 50 4 (bytes_of "page") None 7 os).1 = Ub.
Proof.
  cbv zeta. split; [|split; vm_compute; reflexivity].
  apply (read_file_reads script_sys demo_body_file ltac:(discriminate) 50 1 (bytes_of "page") None 7 (demo_os [Fine; Fine; Short 3; Failing 4])
    {| s_data := bytes_of "<p>text</p>"; s_pos := 0; s_mask := 0; s_errno := 0; s_next := [Fine; Short 3; Failing 4] |});
    first [reflexivity|apply Z.divide_1_l|vm_compute; lia].
Defined.
