(* ===== verification/Server.v ===== *)
(** * http: the server (http/src/server/handler.cpp, http/src/server/server.cpp)

    The handlers that accept connections and read from them, the processing of a
    request by a worker, and the start and stop of the server.  Sockets and TLS
    connections are objects on a heap that the code deletes: the use of an object
    that is not there any more is undefined. *)
From S2P Require Import Prelude Effects Numbers UriText Uri Text Timeutil.
From S2P Require Import Hval Headers Nio Body Message Transmit.
From S2P Require Import Router Reactor ThreadPool.
From S2P Require File.
From S2P Require Import UriRoundTrip.
From S2P Require Import Scanner HeadersSpec HvalText TransmitFacts.

(** A socket with its identifier, or a TLS connection. *)
Inductive object (T : Type) := socket_object (m_sock : Z) (io : nio T) | connection_object (io : nio T).
Arguments socket_object {T}. Arguments connection_object {T}.
Definition object_io {T} (o : object T) : nio T := match o with socket_object _ io | connection_object io => io end.
Definition with_io {T} (io : nio T) (o : object T) : object T :=
  match o with socket_object s _ => socket_object s io | connection_object _ => connection_object io end.

Abbreviation ptr := positive.

(** [accept_handler] and [read_handler]; a null pointer is [None]. *)
Inductive srv_handler :=
  | accept_handler (m_sock : ptr) (m_secured : bool)
  | read_handler (m_io : ptr) (m_sock : option ptr) (m_shutting_down : bool).

(** What is submitted to the thread pool. *)
Inductive task := process_ssl_handshake (s : ptr) | process_request (io : ptr) (s : option ptr).

(** The server, the router, the heap, the connections that wait to be accepted by
    each listening socket, and the devices of the sockets that were deleted. *)
Record server (T R : Type) := {
  m_started : bool; m_stopped : bool; m_thrdpool : option (sync_queue task);
  m_root : list (@Router.path_segment T R); heap : gmap ptr (object T); backlog : gmap Z (list (Z * nio T)); closed : list T }.
Arguments m_started {T R}. Arguments m_stopped {T R}. Arguments m_thrdpool {T R}. Arguments m_root {T R}.
Arguments heap {T R}. Arguments backlog {T R}. Arguments closed {T R}.

Definition E_bind_failed : Z := -28.

Module Server.
Section server.
Context `{Transport T} `{Regex R}.
Abbreviation W := (server T R).
Abbreviation X := (M cpp_exn (W * reactor srv_handler)).

Definition with_heap (h : gmap ptr (object T)) (w : W) : W :=
  {| m_started := m_started w; m_stopped := m_stopped w; m_thrdpool := m_thrdpool w; m_root := m_root w; heap := h; backlog := backlog w; closed := closed w |}.
Definition with_pool (q : option (sync_queue task)) (w : W) : W :=
  {| m_started := m_started w; m_stopped := m_stopped w; m_thrdpool := q; m_root := m_root w; heap := heap w; backlog := backlog w; closed := closed w |}.
Definition with_root (root : list (@Router.path_segment T R)) (w : W) : W :=
  {| m_started := m_started w; m_stopped := m_stopped w; m_thrdpool := m_thrdpool w; m_root := root; heap := heap w; backlog := backlog w; closed := closed w |}.
Definition with_backlog (b : gmap Z (list (Z * nio T))) (w : W) : W :=
  {| m_started := m_started w; m_stopped := m_stopped w; m_thrdpool := m_thrdpool w; m_root := m_root w; heap := heap w; backlog := b; closed := closed w |}.
Definition with_flags (started stopped : bool) (w : W) : W :=
  {| m_started := started; m_stopped := stopped; m_thrdpool := m_thrdpool w; m_root := m_root w; heap := heap w; backlog := backlog w; closed := closed w |}.

Definition get_w {A} (f : W -> A) : X A := gets (fun st => f st.1).
Definition modify_w (f : W -> W) : X unit := modify (fun st => (f st.1, st.2)).

(** [new], [*p], a method of the object, and [delete], which closes it. *)
Definition new_object (o : object T) : X ptr := fun st =>
  let p := fresh (dom (heap st.1)) in (Ok p, (with_heap (<[p := o]> (heap st.1)) st.1, st.2)).
Definition deref (p : ptr) : X (object T) :=
  let! h := get_w heap in match h !! p with Some o => ret o | None => lift Ub end.
Definition on_io {A} (p : ptr) (m : M cpp_exn (nio T) A) : X A :=
  let! o := deref p in
  fun st => let '(r, io) := m (object_io o) in (r, (with_heap (<[p := with_io io o]> (heap st.1)) st.1, st.2)).
Definition delete_object (p : ptr) : X unit :=
  let! o := deref p in
  modify_w (fun w => {| m_started := m_started w; m_stopped := m_stopped w; m_thrdpool := m_thrdpool w; m_root := m_root w;
    heap := delete p (heap w); backlog := backlog w; closed := closed w ++ [m_dev (object_io o)] |}).
Definition delete_opt (p : option ptr) : X unit := match p with Some p => delete_object p | None => ret tt end.

(** The identifier of a socket. *)
Definition sock_id (p : option ptr) : X Z :=
  match p with
  | None => lift Ub
  | Some p => let! o := deref p in match o with socket_object s _ => ret s | connection_object _ => lift Ub end
  end.
Definition close_socket (p : ptr) : X unit :=
  let! o := deref p in
  match o with
  | socket_object _ io => modify_w (fun w => with_heap (<[p := socket_object INVALID_SOCKET io]> (heap w)) w)
  | connection_object _ => lift Ub
  end.

(** [dynamic_cast<snf::net::socket *>(p)] *)
Definition as_socket (p : ptr) : X (option ptr) :=
  let! o := deref p in ret (match o with socket_object _ _ => Some p | connection_object _ => None end).

(** [server::instance().thread_pool()->submit(...)] *)
Definition submit (t : task) : X unit :=
  let! pool := get_w m_thrdpool in
  match pool with
  | None => lift Ub
  | Some q => modify_w (with_pool (Some (SyncQueue.put t q).1))
  end.

(** [read_handler::name()] uses the socket, which a connection that is not
    secured does not have. *)
Definition handler_name (h : srv_handler) : X bytes :=
  match h with
  | accept_handler _ secured => ret (if secured then bytes_of "secured-accept-handler" else bytes_of "accept-handler")
  | read_handler _ s _ => let! id := sock_id s in ret (if negb (id =? 0) then bytes_of "secured-read-handler" else bytes_of "read-handler")
  end.

Lemma sock_id_private s st : (sock_id s st).2 = st.
Proof.
  destruct s as [p|]; [|done]. unfold sock_id, deref, get_w, gets, bind. destruct (heap st.1 !! p) as [[]|]; done.
Qed.

#[export] Instance srv_names : Names W srv_handler.
Proof.
  refine {| Reactor.handler_name := handler_name |}.
  intros [p b|p s b] st; [done|]. cbn [handler_name]. unfold bind. pose proof (sock_id_private s st) as Hs.
  destruct (sock_id s st) as [r st']. cbn in Hs. subst st'. by destruct r.
Defined.

(** [accept]: a connection that waits, or the error of a socket that does not
    block. *)
Definition EAGAIN : Z := 11.
Definition accept (listening : Z) : X (Z * nio T) :=
  let! b := get_w backlog in
  match b !! listening with
  | Some (c :: cs) => modify_w (with_backlog (<[listening := cs]> b));; ret c
  | _ => throw (system_error EAGAIN)
  end.

(** [accept_handler::operator()] *)
Definition accept_call (now : Z) (m_sock : ptr) (secured : bool) (s : Z) (e : event) : X bool :=
  let! id := sock_id (Some m_sock) in
  if negb (id =? s) then ret false
  else if negb (bool_decide (e = ev_read)) then ret false
  else
    catch (
      let! (fd, io) := accept id in
      let! nsock := new_object (socket_object fd io) in
      (if secured then submit (process_ssl_handshake nsock)
       else Reactor.add_handler now fd ev_read (Some (user_handler (read_handler nsock None false))) 0);;
      ret true)
    (fun x => match x with system_error _ => ret false | x => throw x end).

(** [read_handler::operator()] *)
Definition read_call (m_io : ptr) (m_sock : option ptr) (shutting_down : bool) (s : Z) (e : event) : X bool :=
  let! sock := match m_sock with Some p => (let! _ := deref p in ret (Some p)) | None => as_socket m_io end in
  match sock with
  | None => ret false
  | Some p =>
      if shutting_down then close_socket p;; ret false
      else
        let! id := sock_id (Some p) in
        if negb (id =? s) then ret false
        else if negb (bool_decide (e = ev_read)) then close_socket p;; ret false
        else submit (process_request m_io m_sock);; ret false
  end.

(** ** Requests *)
Section request.
Context (net : inet) (lib : DateTime.clock).
(** [what()] of an exception, and the calls of the system that shut a connection
    down. *)
Context (what : cpp_exn -> bytes) (shutdown_write tls_shutdown : M cpp_exn (nio T) unit).

(** The status for an exception that [process_request] catches. *)
Definition caught (x : cpp_exn) : option Z :=
  match x with
  | bad_message | uri_error bad_uri => Some 400
  | not_found => Some 404
  | not_implemented => Some 501
  | http_exception s => Some s
  | system_error _ | runtime_error => Some 500
  | _ => None
  end.

(** The [try] block with its handlers, with bounds on the lines of a header and the
    pieces of a body: the status, the result of the sending,
    whether the connection ends, and the message of the error. *)
Definition try_request (lines pieces : nat) (io : ptr) : X (Z * Z * bool * bytes) :=
  catch (
    let! req := on_io io (recv_request net lib lines) in
    let! root := get_w m_root in
    let '(r, req) := Router.handle root req in
    let! resp := lift r in
    let! retval := on_io io (send_response pieces resp) in
    let! close := lift (Headers.close_connection (r_headers req)) in
    let! close := if close then ret true else lift (Headers.close_connection (s_headers resp)) in
    ret (s_status resp, retval, close, []))
  (fun x => match caught x with Some s => ret (s, File.E_ok, false, what x) | None => throw x end).

(** Up to the new registration: the pointer to the socket is [sptr]. *)
Definition answer_request (lines pieces : nat) (io : ptr) (sptr : option ptr) : X (Z * bool) :=
  let! (status, retval, close, errmsg) := try_request lines pieces io in
  let! retval :=
    if is_error_status status then let! resp := lift (gen_error_resp lib status errmsg) in on_io io (send_response pieces resp)
    else ret retval in
  let close := is_error_status status || negb (retval =? File.E_ok) || close in
  (if close then
     let! o := deref io in
     (match o with connection_object _ => on_io io tls_shutdown | socket_object _ _ => ret tt end);;
     match sptr with Some p => on_io p shutdown_write | None => lift Ub end
   else ret tt);;
  let! id := sock_id sptr in
  ret (id, close).

(** [process_request(io, s)]: an exception deletes both objects; otherwise the
    handler owns [io], and the socket is deleted at the end all the same. *)
Definition run_request (now : Z) (lines pieces : nat) (io : ptr) (s : option ptr) : X unit :=
  let! sptr := match s with Some p => ret (Some p) | None => as_socket io end in
  let! (id, close) := catch (answer_request lines pieces io sptr) (fun x => delete_opt sptr;; delete_object io;; throw x) in
  catch (Reactor.add_handler now id ev_read (Some (user_handler (read_handler io sptr close))) 0) (fun x => delete_opt sptr;; throw x);;
  delete_opt sptr.

(** [process_ssl_handshake(s)]: the handshake is an argument; it gives the
    connection, or fails. *)
Definition run_handshake (now : Z) (handshake : nio T -> option (nio T)) (s : ptr) : X unit :=
  let! o := deref s in
  match handshake (object_io o) with
  | Some io =>
      let! id := sock_id (Some s) in
      let! cnxn := new_object (connection_object io) in
      Reactor.add_handler now id ev_read (Some (user_handler (read_handler cnxn (Some s) false))) 0
  | None => delete_object s
  end.

(** A worker takes a task of the pool. *)
Definition run_task (now : Z) (lines pieces : nat) (handshake : nio T -> option (nio T)) : X unit :=
  let! pool := get_w m_thrdpool in
  match pool with
  | None => ret tt
  | Some q =>
      let '(t, q) := SyncQueue.get_end (SyncQueue.get_begin q) in
      modify_w (with_pool (Some q));;
      match t with
      | Some (process_ssl_handshake s) => run_handshake now handshake s
      | Some (process_request io s) => run_request now lines pieces io s
      | None => ret tt
      end
  end.
End request.

(** ** start and stop

    [setup_context] and [setup_socket], which call the system and the TLS library,
    are arguments: a code of error.h, and the listening sockets. *)
Definition listen (now : Z) (sock : option (Z * nio T)) (secured : bool) : X bool :=
  match sock with
  | None => ret false
  | Some (id, io) =>
      let! p := new_object (socket_object id io) in
      Reactor.add_handler now id ev_read (Some (user_handler (accept_handler p secured))) 0;;
      ret true
  end.

Definition start (now : Z) (configured : bool) (setup_context : Z) (http_sock https_sock : option (Z * nio T)) : X Z :=
  let! started := get_w m_started in
  let! stopped := get_w m_stopped in
  if started then ret File.E_ok
  else if stopped then ret File.E_invalid_state
  else if negb configured then ret File.E_invalid_arg
  else if negb (setup_context =? File.E_ok) then ret setup_context
  else
    modify_w (with_pool (Some SyncQueue.new));;
    let! bound := listen now http_sock false in
    if negb bound then ret E_bind_failed
    else
      let! bound := listen now https_sock true in
      if negb bound then ret E_bind_failed
      else modify_w (fun w => with_flags true (m_stopped w) w);; ret File.E_ok.

(** [stop], which uses the thread pool whether or not there is one. *)
Definition stop : X Z :=
  Reactor.stop;;
  let! pool := get_w m_thrdpool in
  match pool with
  | None => lift Ub
  | Some q =>
      modify_w (with_pool (Some (SyncQueue.invalidate q)));;
      modify_w (with_flags false true);;
      ret 0
  end.

Definition register_path (path : bytes) (h : option (@Router.request_handler T)) : X unit :=
  let! root := get_w m_root in
  let '(r, root) := Router.add path h root in
  modify_w (with_root root);; lift r.
End server.
End Server.

(** ** Facts (http: what the server does with a connection)

    The handlers are handlers of the reactor.  A connection that is accepted
    without TLS stops the reactor; a worker answers the request of a connection,
    end to end from the bytes received to the bytes sent, and then deletes the
    socket that its new handler uses. *)

Import Server.

Section facts.
Context `{Transport T} `{Regex R}.
Abbreviation W := (server T R).
Abbreviation state := (W * reactor srv_handler)%type.

(** ** Computations that leave the reactor alone *)
Definition apart {A} (m : M cpp_exn state A) : Prop := forall st, (m st).2.2 = st.2.

Lemma apart_ret {A} (a : A) : apart (ret a).
Proof. done. Qed.
Lemma apart_lift {A} (r : res cpp_exn A) : apart (lift r).
Proof. done. Qed.
Lemma apart_throw {A} x : apart (throw (A := A) x).
Proof. done. Qed.
Lemma apart_get {A} (f : W -> A) : apart (get_w f).
Proof. done. Qed.
Lemma apart_modify (f : W -> W) : apart (modify_w f).
Proof. done. Qed.
Lemma apart_bind {A B} (m : M cpp_exn state A) (k : A -> M cpp_exn state B) : apart m -> (forall a, apart (k a)) -> apart (bind m k).
Proof.
  intros Hm Hk st. specialize (Hm st). unfold bind. destruct (m st) as [[a| | |] st1]; [|done..]. cbn in Hm. by rewrite Hk.
Qed.
Lemma apart_catch {A} (m : M cpp_exn state A) k : apart m -> (forall x, apart (k x)) -> apart (catch m k).
Proof.
  intros Hm Hk st. specialize (Hm st). unfold catch. destruct (m st) as [[a|x| |] st1]; [done| |done..]. cbn in Hm. by rewrite Hk.
Qed.
Lemma apart_new_object o : apart (new_object o).
Proof. done. Qed.
Create HintDb apart.
#[local] Hint Resolve apart_ret apart_lift apart_throw apart_get apart_modify apart_bind apart_new_object : apart.

Lemma apart_deref p : apart (deref p).
Proof. apply apart_bind; [done|]. intros h. by destruct (h !! p). Qed.
#[local] Hint Resolve apart_deref : apart.
Lemma apart_as_socket p : apart (as_socket p).
Proof. by apply apart_bind; [apply apart_deref|]. Qed.
Lemma apart_sock_id p : apart (sock_id p).
Proof. destruct p as [p|]; [|done]. apply apart_bind; [apply apart_deref|]. by intros []. Qed.
Lemma apart_close_socket p : apart (close_socket p).
Proof. apply apart_bind; [apply apart_deref|]. by intros []. Qed.
Lemma apart_submit t : apart (submit t).
Proof. apply apart_bind; [done|]. by intros []. Qed.
Lemma apart_accept l : apart (accept l).
Proof. apply apart_bind; [done|]. intros b. by destruct (b !! l) as [[]|]. Qed.
#[local] Hint Resolve apart_as_socket apart_sock_id apart_close_socket apart_submit apart_accept : apart.

Lemma apart_read_call io p down s e : apart (read_call io p down s e).
Proof.
  apply apart_bind.
  { destruct p as [p|]; auto with apart. }
  intros [p'|]; [|done]. destruct down; [auto with apart|]. apply apart_bind; [auto with apart|]. intros id.
  repeat case_match; auto with apart.
Qed.

(** The handlers, as the reactor calls them. *)
Definition srv_call (now : Z) (h : srv_handler) (s : Z) (e : event) : M cpp_exn state bool :=
  match h with
  | accept_handler p secured => accept_call now p secured s e
  | read_handler io p shutting_down => read_call io p shutting_down s e
  end.

(** While the mutex is held, the reactor stays as it is. *)
Definition fixed (r : reactor srv_handler) (st : state) : Prop := st.2 = r.

Lemma apart_keeps {A} r (m : M cpp_exn state A) : apart m -> keeps (fixed r) m.
Proof. intros Hm st Hst. specialize (Hm st). unfold fixed in *. destruct (m st) as [[a|x| |] st1]; cbn in Hm; first [done|congruence]. Qed.

Lemma keeps_catch {A} (P : state -> Prop) (m : M cpp_exn state A) k : keeps P m -> (forall x, keeps P (k x)) -> keeps P (catch m k).
Proof.
  intros Hm Hk st Hst. specialize (Hm st Hst). unfold catch. destruct (m st) as [[a|x| |] st1]; [done| |done..]. by apply Hk.
Qed.

Lemma keeps_add_locked r now s e h to : m_lock r = true -> keeps (fixed r) (Reactor.add_handler (W := W) now s e h to).
Proof.
  intros Hl st Hst. unfold fixed in Hst. rewrite add_handler_locked by (by rewrite Hst).
  destruct (_ || _); [done|]. by destruct (Reactor.m_stopped _).
Qed.

Lemma accept_call_fixed r now p secured s e : m_lock r = true -> keeps (fixed r) (accept_call (T := T) (R := R) now p secured s e).
Proof.
  intros Hl. unfold accept_call. apply keeps_bind; [apply apart_keeps, apart_sock_id|]. intros id.
  destruct (negb (id =? s)); [apply keeps_ret|]. destruct (negb _); [apply keeps_ret|]. apply keeps_catch.
  - apply keeps_bind; [apply apart_keeps, apart_accept|]. intros [fd io].
    apply keeps_bind; [by apply apart_keeps|]. intros nsock. apply keeps_bind; [|intros; apply keeps_ret].
    destruct secured; [apply apart_keeps, apart_submit|by apply keeps_add_locked].
  - intros []; auto with keeps.
Qed.

#[export] Instance srv_handlers (now : Z) : Handlers W srv_handler.
Proof.
  refine {| operator_call := srv_call now |}. intros [p b|p s b] id e st Hl.
  - exact (accept_call_fixed st.2 now p b id e Hl st eq_refl).
  - exact (apart_keeps st.2 _ (apart_read_call p s b id e) st eq_refl).
Defined.

(** C15. A connection that is accepted without TLS stops the reactor for good: its
    thread holds the mutex while it calls the handler that accepts, and the handler
    registers the connection with the same reactor. *)
Theorem http_accept_blocks now now' p st ei eis sock io fd' io' cs :
  m_lock st.2 = false -> Reactor.m_stopped st.2 = false -> m_handlers st.2 !! fd p = Some (ei :: eis) ->
  ei_h ei = user_handler (accept_handler sock false) -> Reactor.fired now (revents p) ei = Some ev_read ->
  heap st.1 !! sock = Some (socket_object (fd p) io) -> backlog st.1 !! fd p = Some ((fd', io') :: cs) -> fd' <> INVALID_SOCKET ->
  (Reactor.process_poll_vector (Handlers0 := srv_handlers now') now [p] st).1 = Diverge.
Proof.
  intros Hl Hst Hp Hh Hev Hheap Hb Hfd. eapply first_call_blocks; [done..|]. cbn [operator_call srv_handlers srv_call].
  unfold accept_call, sock_id, deref, get_w, gets, bind. cbn [fst]. rewrite Hheap. unfold ret. rewrite Z.eqb_refl. cbn [negb].
  rewrite bool_decide_true by done. cbn [negb]. unfold catch, accept, get_w, gets, bind, modify_w, modify. cbn [fst]. rewrite Hb.
  unfold ret, new_object. rewrite add_handler_locked by done. destruct (Z.eqb_spec fd' INVALID_SOCKET); [done|]. cbn. by rewrite Hst.
Qed.

(** ** After a request *)
Section request.
Context (net : inet) (lib : DateTime.clock) (what : cpp_exn -> bytes) (shutdown_write tls_shutdown : M cpp_exn (nio T) unit).

Lemma apart_on_io {A} p (m : M cpp_exn (nio T) A) : apart (on_io p m).
Proof. apply apart_bind; [apply apart_deref|]. intros o st. by destruct (m (object_io o)). Qed.
Lemma apart_delete p : apart (delete_object p).
Proof. by apply apart_bind; [apply apart_deref|]. Qed.
Lemma apart_try lines pieces io : apart (try_request net lib what lines pieces io).
Proof.
  apply apart_catch; [|intros x; by destruct (caught x)].
  apply apart_bind; [apply apart_on_io|]. intros req. apply apart_bind; [done|]. intros root.
  destruct (Router.handle root req) as [r req']. apply apart_bind; [done|]. intros resp.
  apply apart_bind; [apply apart_on_io|]. intros retval. apply apart_bind; [done|]. intros [];
    (apply apart_bind; [done|]); done.
Qed.
Lemma apart_answer lines pieces io p : apart (answer_request net lib what shutdown_write tls_shutdown lines pieces io p).
Proof.
  apply apart_bind; [apply apart_try|]. intros [[[status retval] close] errmsg].
  apply apart_bind; [destruct (is_error_status status); [apply apart_bind; [done|intros; apply apart_on_io]|done]|]. intros retval'.
  apply apart_bind; [|intros; apply apart_bind; [apply apart_sock_id|done]].
  destruct (_ || _); [|done]. apply apart_bind; [apply apart_deref|]. intros o.
  apply apart_bind; [destruct o; [done|apply apart_on_io]|intros; destruct p; [apply apart_on_io|done]].
Qed.
Lemma apart_delete_opt p : apart (delete_opt p).
Proof. destruct p; [apply apart_delete|done]. Qed.

Lemma answer_needs_socket lines pieces io st id close st' :
  answer_request net lib what shutdown_write tls_shutdown lines pieces io None st <> (Ok (id, close), st').
Proof.
  unfold answer_request, bind at 1. destruct (try_request _ _ _ _ _ _ _) as [[[[[status retval] c] errmsg]| | |] st1]; try done.
  unfold bind at 1. destruct (_ st1) as [[retval'| | |] st2]; try done.
  unfold bind at 1. by destruct (_ st2) as [[[]| | |] st3].
Qed.

(** C14. When a request has been processed the handler registered for the next one
    holds a pointer to the socket, and the socket has been deleted: whatever
    happens on the connection, its next event is undefined behaviour. *)
Theorem socket_deleted_after_request now lines pieces io s st st' : Reactor.m_stopped st.2 = false ->
  run_request net lib what shutdown_write tls_shutdown now lines pieces io s st = (Ok tt, st') ->
  exists id eis ei p close, m_handlers st'.2 !! id = Some eis /\ ei ∈ eis /\ ei_e ei = ev_read /\
    ei_h ei = user_handler (read_handler io (Some p) close) /\ heap st'.1 !! p = None /\
    forall now' e, (srv_call now' (read_handler io (Some p) close) id e st').1 = Ub.
Proof.
  intros Hst. unfold run_request. unfold bind at 1.
  assert (forall st1 sptr, st1.2 = st.2 ->
    bind (catch (answer_request net lib what shutdown_write tls_shutdown lines pieces io sptr) (fun x => bind (delete_opt sptr) (fun _ => bind (delete_object io) (fun _ => throw x))))
      (fun '(id, close) => bind (catch (Reactor.add_handler now id ev_read (Some (user_handler (read_handler io sptr close))) 0) (fun x => bind (delete_opt sptr) (fun _ => throw x))) (fun _ => delete_opt sptr)) st1 = (Ok tt, st') ->
    exists id eis ei p close, m_handlers st'.2 !! id = Some eis /\ ei ∈ eis /\ ei_e ei = ev_read /\
      ei_h ei = user_handler (read_handler io (Some p) close) /\ heap st'.1 !! p = None /\
      forall now' e, (srv_call now' (read_handler io (Some p) close) id e st').1 = Ub) as Hmain.
  2: { destruct s as [p|]; [intros Hrun; apply (Hmain st (Some p)); [done|exact Hrun]|]. pose proof (apart_as_socket io st) as Ha.
       destruct (as_socket io st) as [[sptr|x| |] st1]; try done.
       intros Hrun. apply (Hmain st1 sptr); [exact Ha|exact Hrun]. }
  intros st1 sptr Hr. unfold bind at 1, catch at 1. pose proof (apart_answer lines pieces io sptr st1) as Ha.
  destruct (answer_request _ _ _ _ _ _ _ _ _ _) as [[[id close]|x| |] st2] eqn:Eans; [| |done..]; cbn [snd] in Ha.
  2: { unfold bind. destruct (delete_opt sptr st2) as [[[]| | |] st3]; try done. destruct (delete_object io st3) as [[[]| | |] st4]; done. }
  unfold bind at 1, catch. destruct (Reactor.add_handler _ _ _ _ _ st2) as [[[]|x| |] st3] eqn:Eadd; [| |done..].
  2: { unfold bind. by destruct (delete_opt sptr st3) as [[[]| | |] st4]. }
  destruct (add_handler_registers _ _ _ _ _ st2 st3 ltac:(by rewrite Ha, Hr) Eadd) as (Ew & eis & ei & Hh & Hin & He & Heh).
  intros Hdel. destruct sptr as [p|]; [|].
  - pose proof (apart_delete p st3) as Hd. unfold delete_opt in Hdel. rewrite Hdel in Hd. cbn in Hd.
    assert (heap st'.1 !! p = None) as Hgone.
    { revert Hdel. unfold delete_object, deref, get_w, gets, bind. destruct (heap st3.1 !! p); [|done].
      unfold ret, modify_w, modify. intros [= <-]. cbn. apply lookup_delete_eq. }
    exists id, eis, ei, p, close. rewrite Hd. split_and!; [done..|]. intros now' e. cbn [srv_call]. unfold read_call, deref, get_w, gets, bind.
    by rewrite Hgone.
  - by apply answer_needs_socket in Eans.
Qed.
End request.
End facts.

(** ** From the bytes of a request to the bytes of its answer *)
Section exchange.
Context `{Regex R} (net : inet) (lib : DateTime.clock) (what : cpp_exn -> bytes).
Context (shutdown_write tls_shutdown : M cpp_exn (nio pipe) unit).
Abbreviation state := (server pipe R * reactor srv_handler)%type.

Lemma on_io_socket {A} p fd io io' (m : M cpp_exn (nio pipe) A) a (st : state) : heap st.1 !! p = Some (socket_object fd io) -> m io = (Ok a, io') ->
  on_io p m st = (Ok a, (with_heap (<[p := socket_object fd io']> (heap st.1)) st.1, st.2)).
Proof. intros Hp Hm. unfold on_io, bind, deref, get_w, gets, bind. rewrite Hp. unfold ret. cbn [object_io]. by rewrite Hm. Qed.

Lemma close_connection_fields hdrs : Headers.close_connection hdrs =
  match fields hdrs !! Headers.CONNECTION with
  | Some (cnxn_seq _ l) => Ok (existsb (fun c => bool_decide (c = CONNECTION_CLOSE)) l)
  | Some _ => Ub
  | None => Throw out_of_range
  end.
Proof.
  unfold Headers.close_connection, Headers.connection. rewrite fields_get by done.
  destruct (fields hdrs !! Headers.CONNECTION) as [[]|]; done.
Qed.

Lemma close_connection_kept hdrs got b : Headers.close_connection hdrs = Ok b ->
  (forall v, fields hdrs !! Headers.CONNECTION = Some v -> exists w, fields got !! Headers.CONNECTION = Some w /\ same_value v w) ->
  Headers.close_connection got = Ok b.
Proof.
  rewrite !close_connection_fields. destruct (fields hdrs !! Headers.CONNECTION) as [v|]; [|done].
  intros Hb Hv. destruct (Hv v eq_refl) as (w & -> & Hs). destruct v; try done. destruct w; try done. cbn in Hs. by subst.
Qed.

Lemma add_handler_new now s e h to (st : state) : Reactor.m_stopped st.2 = false -> m_lock st.2 = false -> m_handlers st.2 !! s = None ->
  s <> INVALID_SOCKET -> Reactor.registrable e = true -> (forall st' : state, st'.1 = st.1 -> exists text, (Reactor.name h st').1 = Ok text) ->
  exists r, Reactor.add_handler now s e (Some h) to st = (Ok tt, (st.1, r)).
Proof.
  intros Hst Hl Hs Hi He Hname. unfold Reactor.add_handler. destruct (Z.eqb_spec s INVALID_SOCKET); [done|]. rewrite He. cbn [negb].
  unfold bind at 1, Reactor.get_r at 1, gets at 1. rewrite Hst. unfold Reactor.guarded. rewrite Hl.
  unfold bind at 1 2, Reactor.get_r at 1, gets at 1. cbn [snd Reactor.with_lock m_handlers]. rewrite Hs.
  unfold bind at 1, Reactor.modify_r at 1, modify at 1. match goal with |- context [Reactor.name h ?x] =>
    destruct (Hname x eq_refl) as [text Ht]; pose proof (name_pure h x) as Hn; destruct (Reactor.name h x) as [rn sn] end.
  cbn in Ht, Hn. subst. eexists. done.
Qed.

(** The end of the processing of a request. *)
Lemma run_request_on now lines pieces io fd c c1 close (st st1 : state) :
  heap st.1 !! io = Some (socket_object fd c) ->
  answer_request net lib what shutdown_write tls_shutdown lines pieces io (Some io) st = (Ok (fd, close), st1) ->
  heap st1.1 !! io = Some (socket_object fd c1) -> Reactor.m_stopped st1.2 = false -> m_lock st1.2 = false ->
  m_handlers st1.2 !! fd = None -> fd <> INVALID_SOCKET ->
  exists st', run_request net lib what shutdown_write tls_shutdown now lines pieces io None st = (Ok tt, st') /\
    closed st'.1 = closed st1.1 ++ [m_dev c1].
Proof.
  intros Hio Ha Hio1 Hst Hl Hh Hfd. unfold run_request, as_socket, deref, get_w, gets. unfold bind at 1, bind at 1, bind at 1.
  rewrite Hio. unfold ret at 1 2. unfold bind at 1, catch at 1. rewrite Ha.
  destruct (add_handler_new now fd ev_read (user_handler (read_handler io (Some io) close)) 0 st1) as [r Hr]; [done..| |].
  { intros st' E. cbn [Reactor.name]. unfold Reactor.handler_name, srv_names, handler_name, sock_id, deref, get_w, gets, bind. rewrite E, Hio1.
    by eexists. }
  unfold bind at 1, catch. rewrite Hr. unfold delete_opt, delete_object, deref, get_w, gets, bind. cbn [fst]. rewrite Hio1.
  unfold ret, modify_w, modify. by eexists.
Qed.

(** A method and a status that may have a body in the answer. *)
Definition body_allowed (m : method_type) (s : Z) : bool :=
  negb (bool_decide (m = M_HEAD)) && negb (bool_decide (m = M_CONNECT) && is_success_status s) && negb (is_info_status s || (s =? 204) || (s =? 304)).

Lemma call_handler_allowed (h : @Router.request_handler pipe) req resp b : h req = Ok resp -> s_body resp = Some b ->
  body_allowed (r_type req) (s_status resp) = true -> Router.call_handler (Some h) req = Ok resp.
Proof.
  unfold body_allowed. rewrite !andb_true_iff, !negb_true_iff. intros Hh Hb ((H1 & H2) & H3).
  unfold Router.call_handler, Router.check_response. rewrite Hh. cbn [rbind]. rewrite Hb, H1, H2. cbn [rbind]. by rewrite H3.
Qed.

Section answer.
(** A request and the answer of its handler, with their fields and data. *)
Context (m : method_type) (u : uri) (hdrs : headers) (data : bytes) (s : Z) (reason : bytes) (hdrs' : headers) (data' : bytes).
Hypothesis (Hu : origin_form net u) (Hh : headers_ok net lib hdrs) (Hhost : Headers.is_set Headers.HOST hdrs = true)
  (Hte : Headers.TRANSFER_ENCODING ∉ hdrs.*1) (Hd : data <> []) (Hl : zlen data < 2 ^ 31) (Hc : Headers.close_connection hdrs = Ok false).
Hypothesis (Hs : status_ok s reason) (Hh' : headers_ok net lib hdrs') (Hte' : Headers.TRANSFER_ENCODING ∉ hdrs'.*1)
  (Hd' : data' <> []) (Hl' : zlen data' < 2 ^ 31) (Hc' : Headers.close_connection hdrs' = Ok false) (Hallowed : body_allowed m s = true).

Definition request_of : @request pipe :=
  {| r_version := version_default; r_headers := hdrs; r_body := Some (Body.Body.from_string data); r_type := m; r_uri := u; r_trailers := []; r_parameters := ∅ |}.
Definition response_of : @response pipe :=
  {| s_version := version_default; s_headers := hdrs'; s_body := Some (Body.Body.from_string data'); s_status := s; s_reason := reason |}.

Lemma try_request_on : exists req head resp head',
  build_request true request_of = Ok req /\ print_request req = Ok head /\
  build_response true response_of = Ok resp /\ print_response resp = Ok head' /\ s_status resp = s /\
  (zlen head' < 2 ^ 31 -> forall inp out, send_response 2 resp (conn inp out) = (Ok File.E_ok, conn inp (out ++ head' ++ data'))) /\
  forall (table : gmap (list bytes) (option (@Router.request_handler pipe))) root (h : @Router.request_handler pipe) io fd rest out (st : state), zlen head' < 2 ^ 31 -> Router.tree_of table root ->
    table !! Router.split (p_component (m_upath u)) = Some (Some h) ->
    (forall got, r_type got = m -> r_uri got = u -> h got = Ok resp) -> m_root st.1 = root ->
    heap st.1 !! io = Some (socket_object fd (conn (head ++ data ++ rest) out)) ->
    try_request net lib what (2 + length hdrs) 2 io st =
      (Ok (s, File.E_ok, false, []), (with_heap (<[io := socket_object fd (conn (data ++ rest) (out ++ head' ++ data'))]> (heap st.1)) st.1, st.2)).
Proof.
  destruct (request_exchange net lib m u hdrs data Hu Hh Hhost Hte Hd Hl) as (req & head & Hb & Hp & _ & Hrecv).
  destruct (response_sent net lib s reason hdrs' data' Hs Hh' Hte' Hd' Hl') as (head' & Hb' & Hp' & Hsend).
  eexists req, head, _, head'. split; [exact Hb|]. split; [exact Hp|]. split; [exact Hb'|]. split; [exact Hp'|]. split; [done|]. split; [exact Hsend|].
  intros table root h io fd rest out st Hlen Htree Hroute Hhandler Hroot Hheap.
  destruct (Hrecv rest out) as (got & Hgot & Htype & Huri & _ & _ & Hfields & _).
  assert (Headers.CONNECTION <> Headers.CONTENT_LENGTH) as Hne by done.
  unfold try_request, catch. rewrite (bind_Ok _ _ _ _ _ (on_io_socket _ _ _ _ _ _ _ Hheap Hgot)).
  erewrite bind_Ok; [|unfold get_w, gets; cbn [fst with_heap m_root]; by rewrite Hroot]. rewrite (Router.handle_tree _ _ _ Htree).
  unfold Router.answer. cbv zeta. rewrite Huri. rewrite Hroute.
  rewrite (call_handler_allowed h got _ _ (Hhandler got Htype Huri) eq_refl) by (cbn; by rewrite Htype).
  unfold bind at 1, lift at 1. erewrite bind_Ok; [|eapply on_io_socket; [cbn; apply lookup_insert_eq|by apply Hsend]].
  rewrite (close_connection_kept hdrs _ _ Hc (fun v => Hfields _ v Hne)). unfold bind at 1, lift at 1.
  assert (Headers.close_connection (put Headers.CONTENT_LENGTH (num_val [] (zlen data')) hdrs') = Ok false) as Hclose.
  { apply (close_connection_kept hdrs'); [done|]. intros v Hv. exists v.
    rewrite (put_fields net lib), lookup_insert_ne by done. split; [done|].
    rewrite close_connection_fields, Hv in Hc'. by destruct v. }
  cbn [s_headers]. rewrite Hclose. unfold bind, lift, ret. cbn [s_status]. f_equal. f_equal.
  unfold with_heap. cbn. by rewrite insert_insert_eq.
Qed.

(** C5. From the bytes of a request to the bytes of its answer, on a connection
    without TLS that both sides keep, for canonical headers, bodies of known length
    and a response that the method allows and whose status is below 400: the
    request is read, its handler is found among routes without parameters and
    called, and what has been sent on the connection when the worker is done is the
    text of the response followed by its data, once and whole. *)
Theorem request_answered : is_error_status s = false -> exists req head resp head',
  build_request true request_of = Ok req /\ print_request req = Ok head /\
  build_response true response_of = Ok resp /\ print_response resp = Ok head' /\
  forall routes root (h : @Router.request_handler pipe) now io fd rest out (st : state), zlen head' < 2 ^ 31 ->
    Forall (fun r => Forall Router.literal_element (Router.split r.1)) routes -> Router.add_all routes [] = (Ok tt, root) ->
    Router.route_table routes !! Router.split (p_component (m_upath u)) = Some (Some h) ->
    (forall got, r_type got = m -> r_uri got = u -> h got = Ok resp) -> m_root st.1 = root ->
    heap st.1 !! io = Some (socket_object fd (conn (head ++ data ++ rest) out)) -> fd <> INVALID_SOCKET ->
    Reactor.m_stopped st.2 = false -> m_lock st.2 = false -> m_handlers st.2 !! fd = None ->
    exists st', run_request net lib what shutdown_write tls_shutdown now (2 + length hdrs) 2 io None st = (Ok tt, st') /\
      closed st'.1 = closed st.1 ++ [{| p_in := data ++ rest; p_out := out ++ head' ++ data' |}].
Proof.
  intros Herr. destruct try_request_on as (req & head & resp & head' & Hb & Hp & Hb' & Hp' & _ & _ & Htry).
  exists req, head, resp, head'. do 4 (split; [done|]).
  intros routes root h now io fd rest out st Hlen Hroutes Hadd Hroute Hhandler Hroot Hheap Hfd Hst Hlk Hnone.
  destruct (Router.routes_tree routes Hroutes) as (root' & Hadd' & Htree). assert (root' = root) as -> by congruence.
  pose proof (Htry _ root h io fd rest out st Hlen Htree Hroute Hhandler Hroot Hheap) as Ht.
  set (c1 := conn (data ++ rest) (out ++ head' ++ data')) in *.
  set (st1 := (with_heap (<[io := socket_object fd c1]> (heap st.1)) st.1, st.2)) in *.
  apply (run_request_on now (2 + length hdrs) 2 io fd (conn (head ++ data ++ rest) out) c1 false st st1); [exact Hheap| |cbn; apply lookup_insert_eq|done..].
  unfold answer_request. rewrite (bind_Ok _ _ _ _ _ Ht). rewrite Herr. cbn [orb negb]. unfold bind at 1, ret at 1.
  change (File.E_ok =? File.E_ok) with true. cbn [orb negb]. unfold bind at 1, ret at 1.
  unfold st1, sock_id, deref, get_w, gets, bind. cbn [fst with_heap heap]. by rewrite lookup_insert_eq.
Qed.

(** A response with an error status is followed on the connection by a second
    response, generated for that status: the status of the first one is taken for
    an error that has not been reported. *)
Theorem error_status_answered_twice : is_error_status s = true -> exists req head resp head',
  build_request true request_of = Ok req /\ print_request req = Ok head /\
  build_response true response_of = Ok resp /\ print_response resp = Ok head' /\
  forall err text routes root (h : @Router.request_handler pipe) now io fd rest out (st : state), zlen head' < 2 ^ 31 ->
    gen_error_resp lib s [] = Ok err -> (forall inp out, send_response 2 err (conn inp out) = (Ok File.E_ok, conn inp (out ++ text))) ->
    (forall io, shutdown_write io = (Ok tt, io)) ->
    Forall (fun r => Forall Router.literal_element (Router.split r.1)) routes -> Router.add_all routes [] = (Ok tt, root) ->
    Router.route_table routes !! Router.split (p_component (m_upath u)) = Some (Some h) ->
    (forall got, r_type got = m -> r_uri got = u -> h got = Ok resp) -> m_root st.1 = root ->
    heap st.1 !! io = Some (socket_object fd (conn (head ++ data ++ rest) out)) -> fd <> INVALID_SOCKET ->
    Reactor.m_stopped st.2 = false -> m_lock st.2 = false -> m_handlers st.2 !! fd = None ->
    exists st', run_request net lib what shutdown_write tls_shutdown now (2 + length hdrs) 2 io None st = (Ok tt, st') /\
      closed st'.1 = closed st.1 ++ [{| p_in := data ++ rest; p_out := (out ++ head' ++ data') ++ text |}].
Proof.
  intros Herr. destruct try_request_on as (req & head & resp & head' & Hb & Hp & Hb' & Hp' & _ & _ & Htry).
  exists req, head, resp, head'. do 4 (split; [done|]).
  intros err text routes root h now io fd rest out st Hlen Hgen Hsend Hshut Hroutes Hadd Hroute Hhandler Hroot Hheap Hfd Hst Hlk Hnone.
  destruct (Router.routes_tree routes Hroutes) as (root' & Hadd' & Htree). assert (root' = root) as -> by congruence.
  pose proof (Htry _ root h io fd rest out st Hlen Htree Hroute Hhandler Hroot Hheap) as Ht.
  set (c1 := conn (data ++ rest) ((out ++ head' ++ data') ++ text)).
  set (st1 := (with_heap (<[io := socket_object fd c1]> (heap st.1)) st.1, st.2)).
  apply (run_request_on now (2 + length hdrs) 2 io fd (conn (head ++ data ++ rest) out) c1 true st st1); [exact Hheap| |cbn; apply lookup_insert_eq|done..].
  unfold answer_request. rewrite (bind_Ok _ _ _ _ _ Ht). rewrite Herr. cbn [orb].
  assert (forall (w w' : server pipe R) (r : reactor srv_handler), w = w' -> (w, r) = (w', r)) as Hpair by (by intros ? ? ? ->).
  erewrite (bind_Ok _ _ _ File.E_ok st1).
  2: { unfold bind at 1, lift at 1. rewrite Hgen. erewrite on_io_socket; [|cbn; apply lookup_insert_eq|apply Hsend].
       f_equal. apply Hpair. unfold with_heap. cbn. by rewrite insert_insert_eq. }
  erewrite (bind_Ok _ _ _ tt st1).
  2: { erewrite bind_Ok; [|unfold deref, get_w, gets, bind; cbn; by rewrite lookup_insert_eq]. cbn iota. erewrite bind_Ok; [|done].
       erewrite on_io_socket; [|cbn; apply lookup_insert_eq|apply Hshut].
       f_equal. apply Hpair. unfold with_heap. cbn. by rewrite insert_insert_eq. }
  unfold st1, sock_id, deref, get_w, gets, bind. cbn [fst with_heap heap]. by rewrite lookup_insert_eq.
Qed.
End answer.
End exchange.

(** ** Concrete connections *)
#[local] Existing Instance demo_regex.
Definition demo_what (x : cpp_exn) : bytes := bytes_of "error".
Definition demo_shutdown : M cpp_exn (nio pipe) unit := ret tt.
Definition demo_connection : bytes * base_value := (Headers.CONNECTION, cnxn_seq [] [CONNECTION_KEEP_ALIVE]).
Definition demo_request_fields : headers := [(Headers.HOST, hp_val [] {| hp_host := bytes_of "example.org"; hp_port := 8080 |}); demo_connection].
Definition demo_answer (s : Z) (reason data : string) : @Router.request_handler pipe := fun _ =>
  build_response true (response_of s (bytes_of reason) [demo_connection] (bytes_of data)).
Definition demo_server (root : list (@Router.path_segment pipe bytes)) (inp : bytes) : server pipe bytes * reactor srv_handler :=
  ({| m_started := true; m_stopped := false; m_thrdpool := Some SyncQueue.new; m_root := root;
      heap := {[1%positive := socket_object 7 (conn inp [])]}; backlog := ∅; closed := [] |}, Reactor.reactor_init 5000 3).

Lemma demo_connection_ok : is_name demo_connection.1 /\ has_type demo_connection.1 demo_connection.2 = true /\ value_ok demo_inet demo_clock demo_connection.2.
Proof.
  split; [by apply checked_name|split; [reflexivity|]]. split; [|reflexivity].
  constructor; [apply checked_string; try done; unfold long; cbn; lia|constructor].
Qed.

Lemma demo_response_fields_ok : headers_ok demo_inet demo_clock [demo_connection].
Proof. split; [apply NoDup_singleton|]. constructor; [apply demo_connection_ok|constructor]. Qed.

Lemma demo_request_fields_ok : headers_ok demo_inet demo_clock demo_request_fields.
Proof.
  split.
  - apply NoDup_cons. split; [by intros [=]%list_elem_of_singleton|apply NoDup_singleton].
  - repeat apply Forall_cons_2; [|apply demo_connection_ok|apply Forall_nil_2]. split; [|split; [reflexivity|]].
    + by apply checked_name.
    + split; [reflexivity|]. split; [left; repeat constructor|cbn; lia].
Qed.

Lemma demo_status_ok : status_ok 200 (bytes_of "OK") /\ status_ok 404 (bytes_of "Gone").
Proof.
  split; (split; [lia|]); (split; [repeat constructor|]); (apply solid_Forall; [discriminate|repeat constructor]).
Qed.

Definition demo_routes (h : @Router.request_handler pipe) : list (bytes * option (@Router.request_handler pipe)) := [(bytes_of "/api/v1", Some h)].
Definition demo_root (h : @Router.request_handler pipe) : list (@Router.path_segment pipe bytes) := (Router.add_all (demo_routes h) []).2.

Lemma demo_routes_literal h : Forall (fun r => Forall Router.literal_element (Router.split r.1)) (demo_routes h).
Proof. by repeat (constructor; [repeat constructor; done|]). Qed.

Lemma demo_not_in_fields n (hdrs : headers) : forallb (fun h => negb (bool_decide (h.1 = n))) hdrs = true -> n ∉ hdrs.*1.
Proof.
  rewrite forallb_forall. intros Hf [[m v] [-> Hi]]%list_elem_of_fmap. apply list_elem_of_In, Hf in Hi. cbn in Hi.
  by rewrite bool_decide_true in Hi.
Qed.

(** The generated response for a status, sent. *)
Lemma demo_error_sent : exists err text, gen_error_resp (T := pipe) demo_clock 404 [] = Ok err /\ text <> [] /\
  forall inp out, send_response 2 err (conn inp out) = (Ok File.E_ok, conn inp (out ++ text)).
Proof.
  assert (exists err head data, gen_error_resp (T := pipe) demo_clock 404 [] = Ok err /\ print_response err = Ok head /\
    s_body err = Some (string_source data 0) /\ head <> [] /\ zlen head < 2 ^ 31 /\ data <> [] /\ zlen data < 2 ^ 31)
    as (err & head & data & Hgen & Hp & Hb & H1 & H2 & H3 & H4).
  { eexists _, _, _. split; [vm_compute; reflexivity|]. split; [vm_compute; reflexivity|]. split; [vm_compute; reflexivity|]. done. }
  exists err, (head ++ data). split; [done|]. split; [by destruct head|]. intros inp out.
  unfold send_response. unfold bind at 1, lift at 1. rewrite Hp, Hb. by apply send_message_on.
Qed.

Lemma request_answered_witness : exists head head',
  exists st', run_request demo_inet demo_clock demo_what demo_shutdown demo_shutdown 0 4 2 1%positive None
      (demo_server (demo_root (demo_answer 200 "OK" "hello")) (head ++ bytes_of "ping")) = (Ok tt, st') /\
    closed st'.1 = [{| p_in := bytes_of "ping"; p_out := head' ++ bytes_of "hello" |}].
Proof.
  destruct (request_answered demo_inet demo_clock demo_what demo_shutdown demo_shutdown M_POST demo_target demo_request_fields (bytes_of "ping")
    200 (bytes_of "OK") [demo_connection] (bytes_of "hello")) as (req & head & resp & head' & Hb & Hp & Hb' & Hp' & Hrun).
  - apply demo_target_origin.
  - apply demo_request_fields_ok.
  - reflexivity.
  - apply demo_not_in_fields. reflexivity.
  - discriminate.
  - reflexivity.
  - reflexivity.
  - apply demo_status_ok.
  - apply demo_response_fields_ok.
  - apply demo_not_in_fields. reflexivity.
  - discriminate.
  - reflexivity.
  - reflexivity.
  - reflexivity.
  - reflexivity.
  - assert (zlen head' < 2 ^ 31) as Hlen by (vm_compute in Hb'; injection Hb' as <-; vm_compute in Hp'; injection Hp' as <-; reflexivity).
    exists head, head'.
    apply (Hrun (demo_routes (demo_answer 200 "OK" "hello")) (demo_root (demo_answer 200 "OK" "hello")) (demo_answer 200 "OK" "hello") 0 1%positive 7 [] []
      (demo_server (demo_root (demo_answer 200 "OK" "hello")) (head ++ bytes_of "ping"))).
    + exact Hlen.
    + apply demo_routes_literal.
    + vm_compute. reflexivity.
    + vm_compute. reflexivity.
    + intros got _ _. exact Hb'.
    + reflexivity.
    + reflexivity.
    + discriminate.
    + reflexivity.
    + reflexivity.
    + reflexivity.
Defined.

Lemma error_status_answered_twice_witness : exists head head' text, text <> [] /\
  exists st', run_request demo_inet demo_clock demo_what demo_shutdown demo_shutdown 0 4 2 1%positive None
      (demo_server (demo_root (demo_answer 404 "Gone" "hello")) (head ++ bytes_of "ping")) = (Ok tt, st') /\
    closed st'.1 = [{| p_in := bytes_of "ping"; p_out := (head' ++ bytes_of "hello") ++ text |}].
Proof.
  destruct (error_status_answered_twice demo_inet demo_clock demo_what demo_shutdown demo_shutdown M_POST demo_target demo_request_fields (bytes_of "ping")
    404 (bytes_of "Gone") [demo_connection] (bytes_of "hello")) as (req & head & resp & head' & Hb & Hp & Hb' & Hp' & Hrun).
  - apply demo_target_origin.
  - apply demo_request_fields_ok.
  - reflexivity.
  - apply demo_not_in_fields. reflexivity.
  - discriminate.
  - reflexivity.
  - reflexivity.
  - apply demo_status_ok.
  - apply demo_response_fields_ok.
  - apply demo_not_in_fields. reflexivity.
  - discriminate.
  - reflexivity.
  - reflexivity.
  - reflexivity.
  - reflexivity.
  - assert (zlen head' < 2 ^ 31) as Hlen by (vm_compute in Hb'; injection Hb' as <-; vm_compute in Hp'; injection Hp' as <-; reflexivity).
    destruct demo_error_sent as (err & text & Hgen & Htext & Hsend).
    exists head, head', text. split; [exact Htext|].
    apply (Hrun err text (demo_routes (demo_answer 404 "Gone" "hello")) (demo_root (demo_answer 404 "Gone" "hello")) (demo_answer 404 "Gone" "hello") 0 1%positive 7 [] []
      (demo_server (demo_root (demo_answer 404 "Gone" "hello")) (head ++ bytes_of "ping"))).
    + exact Hlen.
    + exact Hgen.
    + exact Hsend.
    + reflexivity.
    + apply demo_routes_literal.
    + vm_compute. reflexivity.
    + vm_compute. reflexivity.
    + intros got _ _. exact Hb'.
    + reflexivity.
    + reflexivity.
    + discriminate.
    + reflexivity.
    + reflexivity.
    + reflexivity.
Defined.

(** A connection that waits at a listening socket without TLS. *)
Lemma http_accept_blocks_witness :
  (Reactor.process_poll_vector (Handlers0 := srv_handlers 0) 0 [{| fd := 5; events := 1; revents := 1 |}]
    ({| m_started := true; m_stopped := false; m_thrdpool := Some SyncQueue.new; m_root := ([] : list (@Router.path_segment pipe bytes));
        heap := {[1%positive := socket_object 5 (conn [] [])]}; backlog := {[5 := [(9, conn [] [])]]}; closed := [] |},
     Reactor.with_handlers {[5 := [{| ei_e := ev_read; ei_h := user_handler (accept_handler 1 false); ei_to := 0; ei_exp := TIME_MAX |}]]}
       (Reactor.reactor_init 5000 3))).1 = Diverge.
Proof.
  eapply (http_accept_blocks 0 0 {| fd := 5; events := 1; revents := 1 |}); try reflexivity. discriminate.
Defined.

(** A request that is no request: it is answered with an error, and the socket of
    the new handler is gone. *)
Definition demo_garbage : res cpp_exn unit * (server pipe bytes * reactor srv_handler) :=
  run_request demo_inet demo_clock demo_what demo_shutdown demo_shutdown 0 4 2 1%positive None (demo_server [] (bytes_of "GET" ++ [13; 10])).

Lemma socket_deleted_after_request_witness : exists id eis ei p close, m_handlers demo_garbage.2.2 !! id = Some eis /\ ei ∈ eis /\ ei_e ei = ev_read /\
    ei_h ei = user_handler (read_handler 1 (Some p) close) /\ heap demo_garbage.2.1 !! p = None /\
    forall now' e, (srv_call now' (read_handler 1 (Some p) close) id e demo_garbage.2).1 = Ub.
Proof.
  apply (socket_deleted_after_request demo_inet demo_clock demo_what demo_shutdown demo_shutdown 0 4 2 1%positive None
    (demo_server [] (bytes_of "GET" ++ [13; 10]))).
  - reflexivity.
  - assert (demo_garbage.1 = Ok tt) as Hok by (vm_compute; reflexivity).
    fold demo_garbage. rewrite <- Hok. by destruct demo_garbage.
Defined.
