(* ===== verification/Config.v ===== *)
(** * libcom: configuration files (libcom/include/config.h, libcom/src/config.cpp)

    Lines of the form key = value are read into a map.  The stream of the file
    throws [std::ios::failure] for every state but good. *)
From S2P Require Import Prelude Numbers Effects Text.

Inductive config_exn := ios_failure.

(** [ifs.getline(buf, n)] on what is left of the file: a line that ends, the end
    of the file before the end of a line, or a line that does not fit. *)
Inductive line_read := got_line (line rest : bytes) | at_eof | too_long.

Module Config.
Definition sizeof_buf : Z := 8192.

Fixpoint getline (room : Z) (s : bytes) : line_read :=
  match s with
  | [] => at_eof
  | c :: s =>
      if c =? 10 then got_line [] s
      else if room <=? 0 then too_long
      else match getline (room - 1) s with got_line line rest => got_line (c :: line) rest | r => r end
  end.

(** The C string in the buffer. *)
Fixpoint c_str (l : bytes) : bytes := match l with [] => [] | c :: l => if c =? 0 then [] else c :: c_str l end.

Definition skip_space : bytes -> bytes := skip_while isspace.
Definition drop_space_behind (l : bytes) : bytes := rev (skip_space (rev l)).

(** The key, up to a space or the sign, and what is behind it. *)
Fixpoint read_key (l : bytes) : bytes * bytes :=
  match l with
  | c :: l' => if (c =? chr "=") || isspace c then ([], l) else let '(k, rest) := read_key l' in (c :: k, rest)
  | [] => ([], [])
  end.

(** A line: an entry, or nothing. *)
Definition read_line (line : bytes) : option (bytes * bytes) :=
  let ptr := skip_space (drop_space_behind (c_str line)) in
  match ptr with
  | [] => None
  | c :: _ =>
      if c =? chr "#" then None
      else
        let '(k, ptr) := read_key ptr in
        match k with
        | [] => None
        | _ =>
            let ptr := skip_space ptr in
            let ptr := match ptr with c :: ptr' => if c =? chr "=" then ptr' else ptr | [] => [] end in
            let ptr := skip_space ptr in
            Some (k, match ptr with [] => bytes_of "true" | _ => ptr end)
        end
  end.

(** [m_kvmap.insert]: the first entry of a key stays. *)
Definition insert_new (kv : bytes * bytes) (m : gmap bytes bytes) : gmap bytes bytes :=
  match m !! kv.1 with Some _ => m | None => <[kv.1 := kv.2]> m end.

(** The loop of [read]; the end of the file leaves it with what has been read. *)
Fixpoint read_loop (fuel : nat) (s : bytes) (m : gmap bytes bytes) : res config_exn (gmap bytes bytes) :=
  match fuel with
  | O => Diverge
  | S fuel =>
      match getline (sizeof_buf - 1) s with
      | at_eof => Ok m
      | too_long => Throw ios_failure
      | got_line line rest =>
          read_loop fuel rest (match read_line line with Some kv => insert_new kv m | None => m end)
      end
  end.

(** [config(cf)]: the content of the file, or [None] if it cannot be opened. *)
Definition read (content : option bytes) : res config_exn (gmap bytes bytes) :=
  match content with
  | None => Throw ios_failure
  | Some s => read_loop (S (length s)) s ∅
  end.

Definition get (key : bytes) (m : gmap bytes bytes) : option bytes := m !! key.
Definition get_default (key default_value : bytes) (m : gmap bytes bytes) : bytes :=
  match m !! key with Some v => v | None => default_value end.
End Config.
Import Config.

(** ** What is read *)

(** A key and a value that a line can hold. *)
Definition key_ok (k : bytes) : Prop :=
  (exists c k', k = c :: k' /\ c <> chr "#") /\ Forall (fun c => c <> 0 /\ c <> 10 /\ c <> chr "=" /\ isspace c = false) k.
Definition value_ok (v : bytes) : Prop :=
  Forall (fun c => c <> 0 /\ c <> 10) v /\
  (exists c w, v = c :: w /\ isspace c = false) /\ (exists c w, v = w ++ [c] /\ isspace c = false).
Definition entry_ok (kv : bytes * bytes) : Prop :=
  key_ok kv.1 /\ value_ok kv.2 /\ zlen kv.1 + 3 + zlen kv.2 < sizeof_buf.
Definition entry_line (kv : bytes * bytes) : bytes := kv.1 ++ bytes_of " = " ++ kv.2.

Lemma getline_line line rest : forall room, Forall (fun c => c <> 10) line -> zlen line <= room ->
  getline room (line ++ 10 :: rest) = got_line line rest.
Proof.
  induction line as [|c line IH]; intros room Hf Hl; [done|]. inversion Hf as [|?? Hc Hf']; subst.
  rewrite zlen_cons in Hl. pose proof (zlen_nonneg line). cbn [getline app]. destruct (Z.eqb_spec c 10); [done|].
  destruct (Z.leb_spec room 0); [lia|]. by rewrite IH by (done || lia).
Qed.

Lemma getline_eof line : forall room, Forall (fun c => c <> 10) line -> zlen line <= room -> getline room line = at_eof.
Proof.
  induction line as [|c line IH]; intros room Hf Hl; [done|]. inversion Hf as [|?? Hc Hf']; subst.
  rewrite zlen_cons in Hl. pose proof (zlen_nonneg line). cbn [getline]. destruct (Z.eqb_spec c 10); [done|].
  destruct (Z.leb_spec room 0); [lia|]. by rewrite IH by (done || lia).
Qed.

Lemma c_str_id l : Forall (fun c => c <> 0) l -> c_str l = l.
Proof. induction 1 as [|c l Hc _ IH]; [done|]. cbn. destruct (Z.eqb_spec c 0); [done|]. by rewrite IH. Qed.

Lemma skip_space_head c l : isspace c = false -> skip_space (c :: l) = c :: l.
Proof. intros H. unfold skip_space. cbn. by rewrite H. Qed.
Lemma drop_behind_last l c : isspace c = false -> drop_space_behind (l ++ [c]) = l ++ [c].
Proof. intros H. unfold drop_space_behind. rewrite rev_app_distr. cbn [rev app]. rewrite skip_space_head by done. cbn [rev]. by rewrite rev_involutive. Qed.

Lemma read_key_word k c rest : Forall (fun c => c <> chr "=" /\ isspace c = false) k -> (c =? chr "=") || isspace c = true ->
  read_key (k ++ c :: rest) = (k, c :: rest).
Proof.
  intros Hk Hc. induction Hk as [|x k [Hx1 Hx2] _ IH]; cbn [app read_key]; [by rewrite Hc|].
  apply Z.eqb_neq in Hx1. rewrite Hx1, Hx2. cbn [orb]. by rewrite IH.
Qed.

Lemma read_entry kv : entry_ok kv -> read_line (entry_line kv) = Some kv.
Proof.
  destruct kv as [k v]. intros (((c & k' & Ek & Hc) & Hk) & (Hv & (a & v1 & Ea & Ha) & (z & v2 & Ez & Hz)) & _). cbn [fst snd] in *. subst k.
  unfold read_line, entry_line. cbn [fst snd]. rewrite c_str_id.
  2: { rewrite !Forall_app. split; [eapply Forall_impl; [exact Hk|naive_solver]|]. split; [by repeat constructor|eapply Forall_impl; [exact Hv|naive_solver]]. }
  assert ((c :: k') ++ bytes_of " = " ++ v = ((c :: k') ++ bytes_of " = " ++ v2) ++ [z]) as -> by (rewrite Ez, <- !app_assoc; done).
  rewrite drop_behind_last by done. rewrite <- !app_assoc, <- Ez. inversion Hk as [|?? (? & ? & Heq & Hsp) Hk']; subst.
  cbn [app]. rewrite skip_space_head by done. destruct (Z.eqb_spec c (chr "#")); [done|].
  change (bytes_of " = " ++ a :: v1) with (32 :: chr "=" :: 32 :: a :: v1).
  pose proof (read_key_word (c :: k') 32 (chr "=" :: 32 :: a :: v1)) as Hw. cbn [app] in Hw.
  rewrite Hw; [|constructor; [done|]; eapply Forall_impl; [exact Hk'|naive_solver]|done].
  change (skip_space (32 :: chr "=" :: 32 :: a :: v1)) with (chr "=" :: 32 :: a :: v1). cbv iota. rewrite Z.eqb_refl.
  change (skip_space (32 :: a :: v1)) with (skip_space (a :: v1)). by rewrite skip_space_head.
Qed.

(** Enough rounds are there for every file. *)
Lemma getline_shorter s : forall room line rest, getline room s = got_line line rest -> (length rest < length s)%nat.
Proof.
  induction s as [|c s IH]; intros room line rest; cbn [getline]; [done|]. destruct (c =? 10); [intros [= _ ->]; cbn; lia|].
  destruct (room <=? 0); [done|]. destruct (getline (room - 1) s) as [l r| |] eqn:E; try done. intros [= _ <-].
  apply IH in E. cbn. lia.
Qed.

Lemma read_loop_returns fuel : forall s m, (length s < fuel)%nat -> read_loop fuel s m <> Diverge.
Proof.
  induction fuel as [|fuel IH]; intros s m Hl; [lia|]. cbn [read_loop]. destruct (getline _ s) as [line rest| |] eqn:E; [|done..].
  apply getline_shorter in E. apply IH. lia.
Qed.

(** The lines of a file. *)
Definition file_of (lines : list bytes) : bytes := concat ((fun l => l ++ [10]) <$> lines).

Lemma read_lines lines tail : forall fuel m, Forall (fun l => Forall (fun c => c <> 10) l /\ zlen l < sizeof_buf) lines ->
  Forall (fun c => c <> 10) tail -> zlen tail < sizeof_buf -> (length (file_of lines ++ tail) < fuel)%nat ->
  read_loop fuel (file_of lines ++ tail) m =
    Ok (foldl (fun m l => match read_line l with Some kv => insert_new kv m | None => m end) m lines).
Proof.
  induction lines as [|l lines IH]; intros [|fuel] m Hl Ht Htl Hf; try lia.
  - cbn [read_loop file_of fmap list_fmap concat app foldl]. by rewrite getline_eof by (done || lia).
  - inversion Hl as [|?? [Hl1 Hl2] Hl']; subst. cbn [read_loop].
    assert (file_of (l :: lines) ++ tail = l ++ 10 :: file_of lines ++ tail) as E.
    { unfold file_of. cbn [fmap list_fmap concat]. by rewrite <- !app_assoc. }
    rewrite E in Hf |- *. rewrite getline_line by (done || lia). cbn [foldl]. apply IH; [done..|].
    rewrite length_app in Hf. cbn in Hf. lia.
Qed.

Lemma insert_all kvs : forall m, foldl (fun m kv => insert_new kv m) m kvs = m ∪ list_to_map kvs.
Proof.
  induction kvs as [|[k v] kvs IH]; intros m; [cbn; by rewrite (right_id_L ∅ (∪))|]. cbn [foldl]. rewrite IH. unfold insert_new. cbn [fst snd].
  apply map_eq. intros i. rewrite !lookup_union. cbn [list_to_map foldr]. destruct (m !! k) as [x|] eqn:E; destruct (decide (i = k)) as [->|Hne];
    rewrite ?lookup_insert_eq, ?lookup_insert_ne, ?E by done; try done; by destruct (list_to_map kvs !! k).
Qed.

(** A file of entries is read as the map of the entries, of entries with one
    key the first; a last line that does not end in a new line is lost, whatever
    it holds. *)
Theorem config_read_back kvs tail : Forall entry_ok kvs -> Forall (fun c => c <> 10) tail -> zlen tail < sizeof_buf ->
  read (Some (file_of (entry_line <$> kvs) ++ tail)) = Ok (list_to_map kvs).
Proof.
  intros Hk Ht Htl. unfold read. rewrite read_lines; [|..|done|done|lia].
  - f_equal. assert (foldl (fun m l => match read_line l with Some kv => insert_new kv m | None => m end) ∅ (entry_line <$> kvs) =
      foldl (fun m kv => insert_new kv m) ∅ kvs) as ->; [|by rewrite insert_all, (left_id_L ∅ (∪))].
    generalize (∅ : gmap bytes bytes). induction Hk as [|kv kvs Hkv _ IH]; intros m; [done|]. cbn [fmap list_fmap foldl].
    by rewrite read_entry.
  - apply Forall_fmap. eapply Forall_impl; [exact Hk|]. intros [k v] ((_ & Hk1) & (Hv & _) & Hlen). unfold compose. cbn [fst snd] in *. split.
    + unfold entry_line. rewrite !Forall_app. split; [eapply Forall_impl; [exact Hk1|naive_solver]|].
      split; [by repeat constructor|eapply Forall_impl; [exact Hv|naive_solver]].
    + unfold entry_line. rewrite !zlen_app. change (zlen (bytes_of " = ")) with 3. cbn [fst snd]. lia.
Qed.

Lemma config_read_back_witness : read (Some (bytes_of "port = 8080" ++ [10] ++ bytes_of "root = /var/www data" ++ [10] ++ bytes_of "lost = x")) =
  Ok (list_to_map [(bytes_of "port", bytes_of "8080"); (bytes_of "root", bytes_of "/var/www data")]).
Proof.
  apply (config_read_back [(bytes_of "port", bytes_of "8080"); (bytes_of "root", bytes_of "/var/www data")] (bytes_of "lost = x")).
  - repeat constructor; try (simpl_chr; lia); try (by eexists _, _).
    all: try (exists (chr "0"), (bytes_of "808"); done). all: try (exists (chr "a"), (bytes_of "/var/www dat"); done).
    all: try (eexists _, _; split; [reflexivity|done]).
  - repeat (constructor; [done|]). constructor.
  - reflexivity.
Defined.
