(* ===== verification/Addr.v ===== *)
(** * libnet: addresses and name lookup (libnet/src/ia.cpp, sa.cpp, host.cpp, addrinfo.cpp, libnet/include/net.h)

    Internet addresses, socket addresses as the bytes of a [sockaddr], and the
    lookup of hosts.  [inet_pton], [inet_ntop] and [getaddrinfo] are parameters;
    the constants are those of Linux. *)
From S2P Require Import Prelude Effects Numbers Bytes Text UriText Headers Config.

Definition AF_UNSPEC : Z := 0.
Definition AF_INET : Z := 2.
Definition AF_INET6 : Z := 10.
Definition AI_PASSIVE : Z := 1.
Definition AI_CANONNAME : Z := 2.
Definition AI_NUMERICHOST : Z := 4.
Definition AI_V4MAPPED : Z := 8.
Definition AI_ADDRCONFIG : Z := 32.
Definition AI_NUMERICSERV : Z := 1024.
Definition EAI_AGAIN : Z := -3.
Definition SOCK_STREAM : Z := 1.
Definition SOCK_DGRAM : Z := 2.

(** The [addrinfo] structures of the C library: hints, and a result with the
    bytes of its [sockaddr]. *)
Record ai_hints := { ai_flags : Z; hint_family : Z; ai_socktype : Z }.
Record addrinfo := { ai_family : Z; ai_addr : bytes; ai_canonname : option bytes }.

Class NetCalls (K : Type) := {
  inet_pton : Z -> bytes -> option bytes;
  inet_ntop : Z -> bytes -> option bytes;
  getaddrinfo : option bytes -> option bytes -> ai_hints -> K -> (Z * list addrinfo) * K;
  net_errno : K -> Z }.

(** ** Byte order (net.h) *)

(** [swap<T>], for the unsigned value of an integer of [n] bytes. *)
Definition swap (n : nat) (x : Z) : Z := unle (rev (le n x)).

(** [hton<T>] and [ntoh<T>] of an unsigned integer of [n] bytes, on a
    little-endian host. *)
Definition hton (n : nat) (b : Z) : res cpp_exn Z :=
  if (n =? 2)%nat || (n =? 4)%nat || (n =? 8)%nat then Ok (swap n b) else Throw invalid_argument.
Definition ntoh : nat -> Z -> res cpp_exn Z := hton.

(** [snf::streq(s1, s2, true)] (libcom/include/common.h) *)
Definition streq (s1 s2 : bytes) : bool :=
  if decide (length s1 = length s2) then bool_decide ((Headers.toupper <$> s1) = (Headers.toupper <$> s2)) else false.

(** ** Internet addresses (ia.cpp)

    The type and the member of the union that it selects. *)
Inductive internet_address :=
  | v4_addr (a : bytes)
  | v6_addr (a : bytes).
#[export] Instance internet_address_eq_dec : EqDecision internet_address.
Proof. solve_decision. Defined.

Module Ia.
Section ia.
Context `{NetCalls K}.

Definition is_ipv4 (ia : internet_address) : bool := match ia with v4_addr _ => true | _ => false end.
Definition is_ipv6 (ia : internet_address) : bool := match ia with v6_addr _ => true | _ => false end.

(** [internet_address(type, addrstr)] *)
Definition of_type (type : Z) (addrstr : bytes) : res cpp_exn internet_address :=
  if type =? AF_INET then
    match inet_pton AF_INET (Config.c_str addrstr) with Some a => Ok (v4_addr a) | None => Throw runtime_error end
  else if type =? AF_INET6 then
    match inet_pton AF_INET6 (Config.c_str addrstr) with Some a => Ok (v6_addr a) | None => Throw runtime_error end
  else Throw runtime_error.

(** [internet_address(addrstr)] *)
Definition of_string (addrstr : bytes) : res cpp_exn internet_address :=
  match inet_pton AF_INET (Config.c_str addrstr) with
  | Some a => Ok (v4_addr a)
  | None =>
      match inet_pton AF_INET6 (Config.c_str addrstr) with
      | Some a => Ok (v6_addr a)
      | None => Throw runtime_error
      end
  end.

(** [operator==] *)
Definition eq (x y : internet_address) : bool :=
  match x, y with
  | v4_addr a, v4_addr b => bool_decide (a = b)
  | v6_addr a, v6_addr b => bool_decide (a = b)
  | _, _ => false
  end.

Definition get_ipv4 (ia : internet_address) : option bytes := match ia with v4_addr a => Some a | _ => None end.
Definition get_ipv6 (ia : internet_address) : option bytes := match ia with v6_addr a => Some a | _ => None end.

(** [str] *)
Definition str (brief : bool) (ia : internet_address) : M cpp_exn K bytes := fun k =>
  let paddr := match ia with v4_addr a => inet_ntop AF_INET a | v6_addr a => inet_ntop AF_INET6 a end in
  match paddr with
  | None => (Throw (system_error (net_errno k)), k)
  | Some paddr =>
      (Ok (if brief then paddr
           else bytes_of "family=" ++ (if is_ipv4 ia then bytes_of "inet" else bytes_of "inet6") ++ bytes_of ", addr=" ++ paddr), k)
  end.
End ia.
End Ia.

(** ** Looking up addresses (addrinfo.cpp) *)
Definition MAX_TRIES : nat := 10.

Section addrinfo.
Context `{NetCalls K}.

(** The loop of [get_address_info], which sleeps between the tries. *)
Fixpoint lookup_loop (tries : nat) (host svc : option bytes) (hints : ai_hints) (k : K) : (Z * list addrinfo) * K :=
  let '((status, r), k) := getaddrinfo host svc hints k in
  match tries with
  | S (S _ as tries) => if status =? EAI_AGAIN then lookup_loop tries host svc hints k else ((status, r), k)
  | _ => ((status, r), k)
  end.

(** [get_address_info]; the text of the exception streams [host], which must
    not be null. *)
Definition get_address_info (host svc : option bytes) (hints : ai_hints) : M cpp_exn K (list addrinfo) := fun k =>
  let '((status, r), k) := lookup_loop MAX_TRIES host svc hints k in
  if status =? 0 then (Ok r, k)
  else match host with
       | None => (Ub, k)
       | Some _ => (Throw (system_error status), k)
       end.
End addrinfo.

(** ** Socket addresses (sa.cpp)

    The union of [sockaddr_in] and [sockaddr_in6]: 28 bytes, of which some may
    never have been written. *)
Abbreviation memory := (list (option Z)).
Definition sizeof_sockaddr_in : Z := 16.
Definition sizeof_sockaddr_in6 : Z := 28.

Definition load (off n : nat) (m : memory) : res cpp_exn bytes :=
  match mapM (M:=option) (fun x => x) (take n (drop off m)) with
  | Some b => if decide (length b = n) then Ok b else Ub
  | None => Ub
  end.
Definition store (off : nat) (b : bytes) (m : memory) : memory :=
  take off m ++ (Some <$> b) ++ drop (off + length b) m.
Definition uninitialized : memory := replicate 28 None.

Inductive socket_type := tcp | udp.

Module Sa.
Section sa.
Context `{NetCalls K}.

(** The fields; [sin_port] and [sin6_port], [sin_family] and [sin6_family]
    are the same bytes. *)
Definition sin_family (m : memory) : res cpp_exn Z := let? b := load 0 2 m in Ok (unle b).
Definition sin_port (m : memory) : res cpp_exn Z := let? b := load 2 2 m in Ok (unle b).
Definition sin_addr (m : memory) : res cpp_exn bytes := load 4 4 m.
Definition sin6_addr (m : memory) : res cpp_exn bytes := load 8 16 m.

(** [init] *)
Definition init (ia : internet_address) (port : Z) : res cpp_exn memory :=
  let? p := ntoh 2 port in
  match ia with
  | v4_addr a =>
      Ok (store 4 a (store 2 (le 2 p) (store 0 (le 2 AF_INET) (store 0 (replicate 16 0) uninitialized))))
  | v6_addr a =>
      Ok (store 8 a (store 2 (le 2 p) (store 0 (le 2 AF_INET6) (store 0 (replicate 28 0) uninitialized))))
  end.

(** The constructors from texts. *)
Definition of_type (type : Z) (addrstr : bytes) (port : Z) : res cpp_exn memory :=
  let? ia := Ia.of_type type addrstr in init ia port.
Definition of_string (addrstr : bytes) (port : Z) : res cpp_exn memory :=
  let? ia := Ia.of_string addrstr in init ia port.

(** [socket_address(ss, len)]: the bytes of [ss]. *)
Definition of_storage (ss : bytes) (len : Z) : res cpp_exn memory :=
  if len =? sizeof_sockaddr_in then Ok (store 0 (le 2 AF_INET) (store 0 (take 16 ss) uninitialized))
  else if len =? sizeof_sockaddr_in6 then Ok (store 0 (le 2 AF_INET6) (store 0 (take 28 ss) uninitialized))
  else Throw invalid_argument.

(** [socket_address(sin)], [socket_address(sin6)]: as many bytes as the type
    has are copied from where it points. *)
Definition of_sin (p : bytes) : res cpp_exn memory :=
  if decide (16 <= length p)%nat then Ok (store 0 (take 16 p) uninitialized) else Ub.
Definition of_sin6 (p : bytes) : res cpp_exn memory :=
  if decide (28 <= length p)%nat then Ok (store 0 (take 28 p) uninitialized) else Ub.

Definition is_ipv4 (m : memory) : res cpp_exn bool := let? f := sin_family m in Ok (f =? AF_INET).
Definition is_ipv6 (m : memory) : res cpp_exn bool := let? f := sin_family m in Ok (f =? AF_INET6).

(** [operator==] *)
Definition eq (x y : memory) : res cpp_exn bool :=
  let? fx := sin_family x in
  let? fy := sin_family y in
  if negb (fx =? fy) then Ok false
  else
    let? px := sin_port x in
    let? py := sin_port y in
    if negb (px =? py) then Ok false
    else if fx =? AF_INET then
      let? ax := sin_addr x in
      let? ay := sin_addr y in
      Ok (bool_decide (ax = ay))
    else if fx =? AF_INET6 then
      let? ax := sin6_addr x in
      let? ay := sin6_addr y in
      Ok (bool_decide (ax = ay))
    else Throw invalid_argument.

Definition get_ipv4 (m : memory) : res cpp_exn (option bytes) :=
  let? b := is_ipv4 m in if b then let? a := sin_addr m in Ok (Some a) else Ok None.
Definition get_ipv6 (m : memory) : res cpp_exn (option bytes) :=
  let? b := is_ipv6 m in if b then let? a := sin6_addr m in Ok (Some a) else Ok None.

(** [get_sa_v4], [get_sa_v6] and [get_sa]: the structure and its length, or a
    null pointer. *)
Definition get_sa_v4 (m : memory) : res cpp_exn (option (memory * Z)) :=
  let? b := is_ipv4 m in Ok (if b then Some (take 16 m, sizeof_sockaddr_in) else None).
Definition get_sa_v6 (m : memory) : res cpp_exn (option (memory * Z)) :=
  let? b := is_ipv6 m in Ok (if b then Some (m, sizeof_sockaddr_in6) else None).
Definition get_sa (m : memory) : res cpp_exn (option (memory * Z)) :=
  let? b := is_ipv4 m in
  if b then Ok (Some (take 16 m, sizeof_sockaddr_in))
  else let? b := is_ipv6 m in Ok (if b then Some (m, sizeof_sockaddr_in6) else None).

(** [port()] and [port(p)] *)
Definition port (m : memory) : res cpp_exn Z := let? p := sin_port m in ntoh 2 p.
Definition set_port (p : Z) (m : memory) : res cpp_exn memory := let? p := hton 2 p in Ok (store 2 (le 2 p) m).

(** [str] *)
Definition str (brief : bool) (m : memory) : M cpp_exn K bytes :=
  let! v4 := lift (is_ipv4 m) in
  let! v6 := lift (is_ipv6 m) in
  let! paddr :=
    (if v4 then let! a := lift (sin_addr m) in ret (inet_ntop AF_INET a)
     else if v6 then let! a := lift (sin6_addr m) in ret (inet_ntop AF_INET6 a)
     else ret None) in
  match paddr with
  | None => fun k => (Throw (system_error (net_errno k)), k)
  | Some paddr =>
      let! p := lift (port m) in
      ret (if brief then paddr ++ bytes_of "-" ++ print_int p
           else bytes_of "family=" ++ (if v4 then bytes_of "inet" else bytes_of "inet6") ++
                bytes_of ", addr=" ++ paddr ++ bytes_of ", port=" ++ print_int p)
  end.

(** The loop of [get_server] and [get_client]: [ptr] runs through the results,
    but the address is always that of [res], the first one. *)
Fixpoint collect (head : addrinfo) (ptr : list addrinfo) : res cpp_exn (list memory) :=
  match ptr with
  | [] => Ok []
  | p :: ptr =>
      let? here :=
        (if ai_family p =? AF_INET then let? sa := of_sin (ai_addr head) in Ok [sa]
         else if ai_family head =? AF_INET6 then let? sa := of_sin6 (ai_addr head) in Ok [sa]
         else Ok []) in
      let? rest := collect head ptr in
      Ok (here ++ rest)
  end.
Definition sa_vec (r : list addrinfo) : res cpp_exn (list memory) :=
  match r with [] => Ok [] | head :: _ => collect head r end.

Definition family_flags (family : Z) (flags : Z) : Z := if family =? AF_INET6 then Z.lor flags AI_V4MAPPED else flags.
Definition service_flags (svc : bytes) (flags : Z) : Z := if forallb isdigit svc then Z.lor flags AI_NUMERICSERV else flags.
Definition socktype (type : socket_type) : Z := match type with tcp => SOCK_STREAM | udp => SOCK_DGRAM end.

(** [get_server(family, type, svc)] *)
Definition get_server (family : Z) (type : socket_type) (svc : bytes) : M cpp_exn K (list memory) :=
  if decide (svc = []) then throw invalid_argument
  else
    let flags := service_flags svc (family_flags family (Z.lor AI_PASSIVE AI_ADDRCONFIG)) in
    let! r := get_address_info None (Some (Config.c_str svc)) {| ai_flags := flags; hint_family := family; ai_socktype := socktype type |} in
    lift (sa_vec r).
Definition get_server_port (family : Z) (type : socket_type) (port : Z) : M cpp_exn K (list memory) :=
  get_server family type (print_int port).

(** [AI_NUMERICHOST] for a host that is an address. *)
Definition host_flags (host : bytes) (flags : Z) : Z :=
  match Ia.of_string host with Ok _ => Z.lor flags AI_NUMERICHOST | _ => flags end.

(** [get_client(family, type, host, svc)] *)
Definition get_client (family : Z) (type : socket_type) (host svc : bytes) : M cpp_exn K (list memory) :=
  if decide (svc = []) then throw invalid_argument
  else
    let flags := service_flags svc (host_flags host (family_flags family AI_ADDRCONFIG)) in
    let! r := get_address_info (Some (Config.c_str host)) (Some (Config.c_str svc)) {| ai_flags := flags; hint_family := family; ai_socktype := socktype type |} in
    lift (sa_vec r).
Definition get_client_port (family : Z) (type : socket_type) (host : bytes) (port : Z) : M cpp_exn K (list memory) :=
  get_client family type host (print_int port).
End sa.
End Sa.

(** ** Hosts (host.cpp) *)
Module HostName.
Record host := { m_canonical : bytes; m_names : list bytes; m_ias : list internet_address }.

(** [add_name] *)
Definition add_name (n : bytes) (names : list bytes) : list bytes :=
  if decide (n ∈ names) then names else names ++ [n].

Section host.
Context `{NetCalls K}.

(** One result of the lookup; the addresses are at their places in the
    [sockaddr]. *)
Definition add_result (p : addrinfo) (h : host) : res cpp_exn host :=
  let h :=
    match ai_canonname p with
    | Some ((_ :: _) as c) => {| m_canonical := c; m_names := add_name c (m_names h); m_ias := m_ias h |}
    | _ => h
    end in
  let sa : memory := Some <$> ai_addr p in
  let? ia :=
    (if ai_family p =? AF_INET then let? a := load 4 4 sa in Ok (Some (v4_addr a))
     else if ai_family p =? AF_INET6 then let? a := load 8 16 sa in Ok (Some (v6_addr a))
     else Ok None) in
  Ok {| m_canonical := m_canonical h; m_names := m_names h;
        m_ias := match ia with Some ia => m_ias h ++ [ia] | None => m_ias h end |}.

Fixpoint add_results (r : list addrinfo) (h : host) : res cpp_exn host :=
  match r with
  | [] => Ok h
  | p :: r => let? h := add_result p h in add_results r h
  end.

(** [init]: what the constructors do. *)
Definition init (h : bytes) (flags : Z) : M cpp_exn K host :=
  let! r := get_address_info (Some (Config.c_str h)) None {| ai_flags := flags; hint_family := AF_UNSPEC; ai_socktype := SOCK_STREAM |} in
  lift (add_results r {| m_canonical := []; m_names := [h]; m_ias := [] |}).
Definition of_name (h : bytes) : M cpp_exn K host := init h AI_CANONNAME.

(** [hosteq] *)
Definition hosteq (h1 h2 : bytes) : M cpp_exn K bool :=
  if streq h1 h2 then ret true
  else
    let! host1 := init h1 (Sa.host_flags h1 AI_ADDRCONFIG) in
    let! host2 := init h2 (Sa.host_flags h2 AI_ADDRCONFIG) in
    if existsb (fun name => bool_decide (name ∈ m_names host2)) (m_names host1) then ret true
    else ret (existsb (fun ia => existsb (Ia.eq ia) (m_ias host2)) (m_ias host1)).
End host.
End HostName.

(** ** Facts (libnet: addresses, what survives and what does not)

    A socket address made from an internet address and a port gives both back,
    also through the bytes of its [sockaddr]; the addresses of a lookup are
    copies of the first. *)

(** ** Byte order *)
Lemma unle_chars b : Forall is_char b -> le (length b) (unle b) = b.
Proof.
  induction 1 as [|c b Hc _ IH]; [done|]. cbn [length unle].
  change (le (S (length b)) (uchar c + 256 * unle b)) with (schar (uchar c + 256 * unle b) :: le (length b) ((uchar c + 256 * unle b) / 256)).
  assert ((uchar c + 256 * unle b) / 256 = unle b) as ->.
  { unfold wrapU. change (2 ^ 8) with 256. rewrite (Z.mul_comm 256), Z.div_add by lia.
    rewrite Z.div_small by (apply Z.mod_pos_bound; lia). lia. }
  rewrite IH. f_equal. unfold wrapU, wrapS, is_char in *. change (2 ^ 8) with 256. change (2 ^ (8 - 1)) with 128.
  Z.to_euclidean_division_equations. lia.
Qed.

Lemma le_chars n z : Forall is_char (le n z).
Proof.
  revert z. induction n as [|n IH]; intros z; [constructor|].
  change (le (S n) z) with (schar z :: le n (z / 256)). constructor; [|apply IH].
  pose proof (wrapS_range 8 z ltac:(lia)) as Hr. change (2 ^ (8 - 1)) with 128 in Hr. unfold is_char. lia.
Qed.

(** [ntoh] undoes [hton]. *)
Lemma swap_swap n x : 0 <= x < 2 ^ (8 * Z.of_nat n) -> swap n (swap n x) = x.
Proof.
  intros Hx. unfold swap. assert (le n (unle (rev (le n x))) = rev (le n x)) as ->.
  { pose proof (unle_chars (rev (le n x)) (List.Forall_rev (le_chars n x))) as E.
    by rewrite length_rev, length_le in E. }
  rewrite rev_involutive, unle_le. by apply Z.mod_small.
Qed.

Lemma unle_range b : 0 <= unle b < 2 ^ (8 * zlen b).
Proof.
  induction b as [|c b IH]; [done|]. cbn [unle]. rewrite zlen_cons. pose proof (zlen_nonneg b).
  replace (8 * (1 + zlen b)) with (8 + 8 * zlen b) by lia. rewrite Z.pow_add_r by lia.
  pose proof (Z.mod_pos_bound c (2 ^ 8) ltac:(lia)). unfold wrapU. change (2 ^ 8) with 256 in *. lia.
Qed.

Lemma swap_range n x : 0 <= swap n x < 2 ^ (8 * Z.of_nat n).
Proof.
  unfold swap. pose proof (unle_range (rev (le n x))) as H. unfold zlen in H. by rewrite length_rev, length_le in H.
Qed.

(** ** The memory of an address *)
(** An address of the length its type has. *)
Definition ia_ok (ia : internet_address) : Prop :=
  match ia with v4_addr a => length a = 4%nat | v6_addr a => length a = 16%nat end.
Definition port_ok (p : Z) : Prop := 0 <= p < 65536.

(** What [init] leaves in memory. *)
Definition image (ia : internet_address) (p : Z) : memory :=
  match ia with
  | v4_addr a => Some <$> (le 2 AF_INET ++ le 2 (swap 2 p) ++ a ++ replicate 8 0)
  | v6_addr a => Some <$> (le 2 AF_INET6 ++ le 2 (swap 2 p) ++ replicate 4 0 ++ a ++ replicate 4 0)
  end ++ (match ia with v4_addr _ => replicate 12 None | _ => [] end).

Lemma init_image ia p : ia_ok ia -> Sa.init ia p = Ok (image ia p).
Proof.
  unfold Sa.init, ntoh, hton. change ((2 =? 2)%nat || _ || _) with true. cbv iota. cbn [rbind].
  unfold image. generalize (swap 2 p). intros q. destruct ia as [a|a]; cbn [ia_ok]; intros Ha; f_equal.
  - destruct a as [|a0 [|a1 [|a2 [|a3 [|]]]]]; try discriminate. reflexivity.
  - do 16 (destruct a as [|? a]; [discriminate|]). destruct a; [|discriminate]. reflexivity.
Qed.

Lemma image_family ia p : ia_ok ia -> Sa.sin_family (image ia p) = Ok (match ia with v4_addr _ => AF_INET | v6_addr _ => AF_INET6 end).
Proof. intros Ha. unfold Sa.sin_family. destruct ia; reflexivity. Qed.

Lemma image_port ia p : ia_ok ia -> port_ok p -> Sa.sin_port (image ia p) = Ok (swap 2 p).
Proof.
  intros Ha Hp. unfold Sa.sin_port. assert (load 2 2 (image ia p) = Ok (le 2 (swap 2 p))) as ->.
  { unfold image. generalize (swap 2 p). intros q. destruct ia as [a|a]; reflexivity. }
  cbn [rbind]. f_equal. rewrite unle_le. apply Z.mod_small, swap_range.
Qed.

Lemma image_addr4 a p : length a = 4%nat -> Sa.sin_addr (image (v4_addr a) p) = Ok a.
Proof. intros Ha. do 4 (destruct a as [|? a]; [discriminate|]). destruct a; [|discriminate]. reflexivity. Qed.

Lemma image_addr6 a p : length a = 16%nat -> Sa.sin6_addr (image (v6_addr a) p) = Ok a.
Proof. intros Ha. do 16 (destruct a as [|? a]; [discriminate|]). destruct a; [|discriminate]. reflexivity. Qed.

Lemma ntoh_swap n p : (n = 2 \/ n = 4 \/ n = 8)%nat -> ntoh n p = Ok (swap n p).
Proof. unfold ntoh, hton. intros [->|[->| ->]]; reflexivity. Qed.

Lemma image_get_port ia p : ia_ok ia -> port_ok p -> Sa.port (image ia p) = Ok p.
Proof.
  intros Ha Hp. unfold Sa.port. rewrite image_port by done. cbn [rbind]. rewrite ntoh_swap by auto.
  f_equal. apply swap_swap. done.
Qed.

(** [port(q)] changes the port alone. *)
Lemma image_set_port ia p q : ia_ok ia -> Sa.set_port q (image ia p) = Ok (image ia q).
Proof.
  intros Ha. unfold Sa.set_port. change (hton 2 q) with (ntoh 2 q). rewrite ntoh_swap by auto. cbn [rbind]. f_equal.
  unfold image. generalize (swap 2 p) (swap 2 q). intros x y. destruct ia; reflexivity.
Qed.

(** Equality of socket addresses is equality of address and port. *)
Lemma image_eq a p b q : ia_ok a -> ia_ok b -> port_ok p -> port_ok q ->
  Sa.eq (image a p) (image b q) = Ok (bool_decide (a = b /\ p = q)).
Proof.
  intros Ha Hb Hp Hq. unfold Sa.eq. rewrite !image_family by done. cbn [rbind].
  rewrite !image_port by done. cbn [rbind].
  assert (swap 2 p = swap 2 q <-> p = q) as Hs.
  { split; [|by intros ->]. intros E. rewrite <- (swap_swap 2 p), <- (swap_swap 2 q) by done. by rewrite E. }
  assert (forall f g : Z, negb (f =? f) = false /\ (f <> g -> negb (f =? g) = true)) as Hn.
  { intros f g. split; [by rewrite Z.eqb_refl|]. intros ?. by destruct (Z.eqb_spec f g). }
  destruct a as [a|a], b as [b|b]; cbn [ia_ok] in *;
    try (change (negb (AF_INET =? AF_INET6)) with true; cbv iota; f_equal; symmetry; apply bool_decide_eq_false; naive_solver).
  all: rewrite Z.eqb_refl; cbn [negb].
  all: destruct (Z.eqb_spec (swap 2 p) (swap 2 q)) as [E|E]; cbn [negb];
    [|f_equal; symmetry; apply bool_decide_eq_false; naive_solver].
  - change (AF_INET =? AF_INET) with true. cbv iota. rewrite !image_addr4 by done. cbn [rbind]. f_equal.
    apply bool_decide_ext. naive_solver.
  - change (AF_INET6 =? AF_INET) with false. change (AF_INET6 =? AF_INET6) with true. cbv iota.
    rewrite !image_addr6 by done. cbn [rbind]. f_equal. apply bool_decide_ext. naive_solver.
Qed.

(** A socket address made from an internet address and a port gives both back,
    and so does the address a system call makes from its [sockaddr]: the same
    memory, whatever follows in the [sockaddr_storage].  Setting the port
    changes nothing else, and two addresses are equal when both parts are. *)
Theorem socket_address_roundtrip ia p : ia_ok ia -> port_ok p ->
  exists m raw len, Sa.init ia p = Ok m /\
    Sa.port m = Ok p /\ Sa.get_ipv4 m = Ok (Ia.get_ipv4 ia) /\ Sa.get_ipv6 m = Ok (Ia.get_ipv6 ia) /\
    Sa.get_sa m = Ok (Some (Some <$> raw, len)) /\ len = zlen raw /\
    (forall rest, Sa.of_storage (raw ++ rest) len = Ok m) /\
    (forall q, Sa.set_port q m = Sa.init ia q) /\
    (forall b q, ia_ok b -> port_ok q -> exists m', Sa.init b q = Ok m' /\ Sa.eq m m' = Ok (bool_decide (ia = b /\ p = q))).
Proof.
  intros Ha Hp. exists (image ia p).
  exists (match ia with
     | v4_addr a => le 2 AF_INET ++ le 2 (swap 2 p) ++ a ++ replicate 8 0
     | v6_addr a => le 2 AF_INET6 ++ le 2 (swap 2 p) ++ replicate 4 0 ++ a ++ replicate 4 0 end).
  exists (match ia with v4_addr _ => sizeof_sockaddr_in | v6_addr _ => sizeof_sockaddr_in6 end).
  split_and!; [by apply init_image|by apply image_get_port|..].
  - unfold Sa.get_ipv4, Sa.is_ipv4. rewrite image_family by done. destruct ia as [a|a]; [|done].
    cbn [rbind]. change (AF_INET =? AF_INET) with true. cbv iota. by rewrite image_addr4.
  - unfold Sa.get_ipv6, Sa.is_ipv6. rewrite image_family by done. destruct ia as [a|a]; [done|].
    cbn [rbind]. change (AF_INET6 =? AF_INET6) with true. cbv iota. by rewrite image_addr6.
  - unfold Sa.get_sa, Sa.is_ipv4, Sa.is_ipv6. rewrite image_family by done. unfold image.
    generalize (swap 2 p). intros q. destruct ia as [a|a]; cbn [ia_ok] in Ha.
    + do 4 (destruct a as [|? a]; [discriminate|]). destruct a; [|discriminate]. reflexivity.
    + do 16 (destruct a as [|? a]; [discriminate|]). destruct a; [|discriminate]. reflexivity.
  - destruct ia; unfold zlen; rewrite !length_app, !length_le; cbn [length replicate]; cbn [ia_ok] in Ha; rewrite Ha; done.
  - intros rest. unfold image. generalize (swap 2 p). intros q. destruct ia as [a|a]; cbn [ia_ok] in Ha.
    + do 4 (destruct a as [|? a]; [discriminate|]). destruct a; [|discriminate]. reflexivity.
    + do 16 (destruct a as [|? a]; [discriminate|]). destruct a; [|discriminate]. reflexivity.
  - intros q. rewrite init_image by done. by apply image_set_port.
  - intros b q Hb Hq. exists (image b q). split; [by apply init_image|by apply image_eq].
Qed.

Lemma socket_address_roundtrip_witness :
  exists m raw len, Sa.init (v4_addr [127; 0; 0; 1]) 8080 = Ok m /\
    Sa.port m = Ok 8080 /\ Sa.get_ipv4 m = Ok (Some [127; 0; 0; 1]) /\ Sa.get_ipv6 m = Ok None /\
    Sa.get_sa m = Ok (Some (Some <$> raw, len)) /\ len = zlen raw /\
    (forall rest, Sa.of_storage (raw ++ rest) len = Ok m) /\
    (forall q, Sa.set_port q m = Sa.init (v4_addr [127; 0; 0; 1]) q) /\
    (forall b q, ia_ok b -> port_ok q ->
       exists m', Sa.init b q = Ok m' /\ Sa.eq m m' = Ok (bool_decide (v4_addr [127; 0; 0; 1] = b /\ 8080 = q))).
Proof. apply (socket_address_roundtrip (v4_addr [127; 0; 0; 1]) 8080); [reflexivity|unfold port_ok; lia]. Defined.

(** ** Texts *)

(** [inet_ntop] has a text for every address, [inet_pton] reads it back, and
    no text is an address of both types; texts are C strings. *)
Class InetLaws K `{NetCalls K} := {
  ntop_pton4 a : length a = 4%nat -> exists t, inet_ntop AF_INET a = Some t /\ inet_pton AF_INET t = Some a /\ Forall (fun c => c <> 0) t;
  ntop_pton6 a : length a = 16%nat -> exists t, inet_ntop AF_INET6 a = Some t /\ inet_pton AF_INET6 t = Some a /\
    inet_pton AF_INET t = None /\ Forall (fun c => c <> 0) t }.

Section texts.
Context `{InetLaws K}.

(** An internet address survives printing and reading, with and without its
    type; and the printing leaves no trace. *)
Theorem internet_address_roundtrip ia k : ia_ok ia ->
  exists t, Ia.str true ia k = (Ok t, k) /\ Ia.of_string t = Ok ia /\
    Ia.of_type (if Ia.is_ipv4 ia then AF_INET else AF_INET6) t = Ok ia.
Proof.
  destruct ia as [a|a]; cbn [ia_ok]; intros Ha.
  - destruct (ntop_pton4 a Ha) as (t & E1 & E2 & Hc). exists t. unfold Ia.str, Ia.of_string, Ia.of_type. cbn [Ia.is_ipv4].
    change (AF_INET =? AF_INET) with true. cbv iota. rewrite (c_str_id t Hc), E1, E2. done.
  - destruct (ntop_pton6 a Ha) as (t & E1 & E2 & E3 & Hc). exists t. unfold Ia.str, Ia.of_string, Ia.of_type. cbn [Ia.is_ipv4].
    change (AF_INET6 =? AF_INET) with false. change (AF_INET6 =? AF_INET6) with true. cbv iota. rewrite (c_str_id t Hc), E1, E2, E3. done.
Qed.
End texts.

(** ** The lookup *)
Section lookup.
Context `{NetCalls K} (host svc : option bytes) (hints : ai_hints).

(** The state of the resolver after [n] calls, and the answer of the next. *)
Fixpoint after (n : nat) (k : K) : K :=
  match n with O => k | S n => after n (getaddrinfo host svc hints k).2 end.
Definition answer (k : K) : Z * list addrinfo := (getaddrinfo host svc hints k).1.

Lemma lookup_loop_again n k : lookup_loop (S (S n)) host svc hints k =
  let '((status, r), k) := getaddrinfo host svc hints k in
  if status =? EAI_AGAIN then lookup_loop (S n) host svc hints k else ((status, r), k).
Proof. done. Qed.

Lemma lookup_stops n k tries : (n < tries)%nat -> (forall i, (i < n)%nat -> (answer (after i k)).1 = EAI_AGAIN) ->
  (answer (after n k)).1 <> EAI_AGAIN \/ tries = S n -> lookup_loop tries host svc hints k = (answer (after n k), after (S n) k).
Proof.
  revert k tries. induction n as [|n IH]; intros k tries Hn Hi Hs.
  - cbn [after]. unfold answer in *. destruct tries as [|[|tries]]; [lia|..]; cbn [lookup_loop];
      destruct (getaddrinfo host svc hints k) as [[st r] k'] eqn:E; [done|].
    destruct Hs as [Hs|Hs]; [|done]. cbn [after] in Hs. rewrite E in Hs. cbn in Hs. destruct (Z.eqb_spec st EAI_AGAIN); done.
  - destruct tries as [|[|tries]]; [lia..|]. rewrite lookup_loop_again. specialize (Hi 0%nat ltac:(lia)) as H0. unfold answer in H0. cbn [after] in H0.
    destruct (getaddrinfo host svc hints k) as [[st r] k'] eqn:E. cbn in H0. subst st. change (EAI_AGAIN =? EAI_AGAIN) with true. cbv iota.
    cbn [after]. rewrite E. cbn [snd]. rewrite (IH k' (S tries)).
    + done.
    + lia.
    + intros i Hl. specialize (Hi (S i) ltac:(lia)). cbn [after] in Hi. by rewrite E in Hi.
    + destruct Hs as [Hs|Hs]; [left; cbn [after] in Hs; by rewrite E in Hs|right; lia].
Qed.

(** A lookup makes at most ten calls: it ends at the first answer that is not
    [EAI_AGAIN], or with the tenth. *)
Theorem lookup_tries k :
  (exists n, (n < MAX_TRIES)%nat /\ (forall i, (i < n)%nat -> (answer (after i k)).1 = EAI_AGAIN) /\
     (answer (after n k)).1 <> EAI_AGAIN /\ lookup_loop MAX_TRIES host svc hints k = (answer (after n k), after (S n) k)) \/
  ((forall i, (i < MAX_TRIES)%nat -> (answer (after i k)).1 = EAI_AGAIN) /\
     lookup_loop MAX_TRIES host svc hints k = (answer (after 9 k), after MAX_TRIES k)).
Proof.
  assert (forall m, (m <= MAX_TRIES)%nat ->
    (exists n, (n < m)%nat /\ (forall i, (i < n)%nat -> (answer (after i k)).1 = EAI_AGAIN) /\ (answer (after n k)).1 <> EAI_AGAIN) \/
    (forall i, (i < m)%nat -> (answer (after i k)).1 = EAI_AGAIN)) as Hm.
  { induction m as [|m IH]; intros Hm; [right; lia|]. destruct (IH ltac:(lia)) as [(n & ? & ? & ?)|Hall].
    - left. exists n. split; [lia|done].
    - destruct (decide ((answer (after m k)).1 = EAI_AGAIN)) as [E|E]; [|left; exists m; split; [lia|done]].
      right. intros i Hi. destruct (decide (i = m)) as [->|]; [done|]. apply Hall. lia. }
  destruct (Hm MAX_TRIES ltac:(done)) as [(n & Hn & Hi & Hs)|Hall].
  - left. exists n. split_and!; [done..|]. apply lookup_stops; auto.
  - right. split; [done|]. apply (lookup_stops 9); [unfold MAX_TRIES; lia| |by right].
    intros i Hi. apply Hall. unfold MAX_TRIES. lia.
Qed.

(** The results of one family come out as so many copies of the first. *)
Lemma collect_copies head r f sa : (f = AF_INET /\ Sa.of_sin (ai_addr head) = Ok sa) \/
    (f = AF_INET6 /\ ai_family head = AF_INET6 /\ Sa.of_sin6 (ai_addr head) = Ok sa) ->
  Forall (fun p => ai_family p = f) r -> Sa.collect head r = Ok (replicate (length r) sa).
Proof.
  intros Hf. induction 1 as [|p r Hp _ IH]; [done|]. cbn [Sa.collect length replicate]. rewrite IH, Hp.
  destruct Hf as [[-> E]|(-> & E6 & E)].
  - change (AF_INET =? AF_INET) with true. cbv iota. by rewrite E.
  - rewrite E6. change (AF_INET6 =? AF_INET) with false. change (AF_INET6 =? AF_INET6) with true. cbv iota. by rewrite E.
Qed.
End lookup.

(** [get_client] and [get_server] give the first address as often as there
    are results: the others are never returned. *)
Theorem lookup_copies_first head rest f sa :
    (f = AF_INET /\ Sa.of_sin (ai_addr head) = Ok sa) \/ (f = AF_INET6 /\ Sa.of_sin6 (ai_addr head) = Ok sa) ->
    Forall (fun p => ai_family p = f) (head :: rest) ->
  Sa.sa_vec (head :: rest) = Ok (replicate (S (length rest)) sa).
Proof.
  intros Hf Hall. unfold Sa.sa_vec. apply (collect_copies head (head :: rest) f); [|done].
  inversion Hall as [|?? Hh _]; subst. naive_solver.
Qed.

(** A result of type AF_INET behind a first one of type AF_INET6: sixteen bytes
    of the first are taken for its address, and to read it as the
    IPv6 address its family says it is reads memory never written. *)
Theorem mixed_lookup_undefined head p : ai_family head = AF_INET6 -> length (ai_addr head) = 28%nat ->
    take 2 (ai_addr head) = le 2 AF_INET6 -> ai_family p = AF_INET ->
  exists s1 s2, Sa.sa_vec [head; p] = Ok [s1; s2] /\ s1 = Some <$> ai_addr head /\
    Sa.is_ipv6 s2 = Ok true /\ Sa.get_ipv6 s2 = Ub.
Proof.
  intros Hh Hl Ht Hp. destruct head as [fh ah ch]. cbn [ai_family ai_addr] in *. subst fh.
  do 28 (destruct ah as [|? ah]; [discriminate|]). destruct ah; [|discriminate].
  injection Ht as -> ->. unfold Sa.sa_vec. cbn [Sa.collect]. rewrite Hp.
  do 2 eexists. split; [reflexivity|]. split; [reflexivity|]. split; reflexivity.
Qed.

(** ** Hosts *)
Import HostName.

Lemma add_name_distinct n names : NoDup names -> NoDup (add_name n names) /\ names `prefix_of` add_name n names /\ n ∈ add_name n names.
Proof.
  intros Hn. unfold add_name. case_decide as Hin; [by split_and!|]. split_and!.
  - apply NoDup_app. split; [done|]. split; [set_solver|apply NoDup_singleton].
  - by eexists.
  - set_solver.
Qed.

(** The names of a host are distinct, the first one is the name that was looked
    up, and the canonical name is one of them. *)
Definition host_ok (h : bytes) (x : host) : Prop :=
  NoDup (m_names x) /\ [h] `prefix_of` m_names x /\ (m_canonical x = [] \/ m_canonical x ∈ m_names x).

Lemma add_result_ok h p x x' : host_ok h x -> add_result p x = Ok x' -> host_ok h x'.
Proof.
  intros (Hn & Hp & Hc). unfold add_result. intros (ia & _ & [= <-])%rbind_Ok.
  assert (forall y : host, host_ok h y -> host_ok h {| m_canonical := m_canonical y; m_names := m_names y;
    m_ias := match ia with Some ia => m_ias y ++ [ia] | None => m_ias y end |}) as Hy by done. apply Hy. clear Hy.
  destruct (ai_canonname p) as [[|c l]|]; [done| |done].
  destruct (add_name_distinct (c :: l) _ Hn) as (H1 & H2 & H3). split_and!; cbn [m_names m_canonical]; [done|by etrans|by right].
Qed.

Lemma add_results_ok h r : forall x x', host_ok h x -> add_results r x = Ok x' -> host_ok h x'.
Proof.
  induction r as [|p r IH]; intros x x' Hx; cbn [add_results]; [by intros [= <-]|].
  intros (y & E & Hr)%rbind_Ok. eapply IH; [|exact Hr]. by eapply add_result_ok.
Qed.

Section host.
Context `{NetCalls K}.

Theorem host_names_distinct h flags (k k' : K) x : init h flags k = (Ok x, k') -> host_ok h x.
Proof.
  unfold init, bind, get_address_info.
  destruct (lookup_loop MAX_TRIES (Some (Config.c_str h)) None _ k) as [[st r] k1]. destruct (st =? 0); [|done].
  cbv iota beta. unfold lift. intros [= E _]. eapply add_results_ok; [|exact E].
  split_and!; cbn [m_names m_canonical]; [apply NoDup_singleton|done|by left].
Qed.

(** Two lookups decide whether hosts are equal: they are when a name or an
    address is common to both. *)
Theorem hosteq_shares h1 h2 (k : K) x1 k1 x2 k2 : streq h1 h2 = false ->
  init h1 (Sa.host_flags h1 AI_ADDRCONFIG) k = (Ok x1, k1) -> init h2 (Sa.host_flags h2 AI_ADDRCONFIG) k1 = (Ok x2, k2) ->
  exists b, hosteq h1 h2 k = (Ok b, k2) /\
    (b = true <-> (exists n, n ∈ m_names x1 /\ n ∈ m_names x2) \/ (exists ia, ia ∈ m_ias x1 /\ ia ∈ m_ias x2)).
Proof.
  intros Hs E1 E2. unfold hosteq. rewrite Hs. unfold bind. rewrite E1, E2.
  assert (existsb (fun name => bool_decide (name ∈ m_names x2)) (m_names x1) = true <-> exists n, n ∈ m_names x1 /\ n ∈ m_names x2) as Hn.
  { rewrite existsb_exists. setoid_rewrite bool_decide_eq_true. by setoid_rewrite <- list_elem_of_In. }
  assert (existsb (fun ia => existsb (Ia.eq ia) (m_ias x2)) (m_ias x1) = true <-> exists ia, ia ∈ m_ias x1 /\ ia ∈ m_ias x2) as Hi.
  { rewrite existsb_exists. setoid_rewrite <- list_elem_of_In. split.
    - intros (ia & H1 & (ib & H2 & He)%existsb_exists). rewrite <- list_elem_of_In in H2. exists ia. split; [done|].
      destruct ia, ib; cbn in He; try done; apply bool_decide_eq_true in He; by subst.
    - intros (ia & H1 & H2). exists ia. split; [done|]. apply existsb_exists. exists ia. rewrite <- list_elem_of_In. split; [done|].
      destruct ia; cbn; by apply bool_decide_eq_true. }
  destruct (existsb (fun name => _) (m_names x1)).
  - exists true. split; [done|]. tauto.
  - eexists. split; [done|]. rewrite <- Hi. split; [by right|]. intros [Hx|Hx]; [|done]. by apply Hn in Hx.
Qed.
End host.

(** ** A resolver for examples

    Texts are decimal numbers, four of them behind dots or sixteen of them
    behind colons; the answers of the lookups are a script. *)
Fixpoint numbers_text (sep : Z) (a : bytes) : bytes :=
  match a with [] => [] | x :: a => sep :: print_int x ++ numbers_text sep a end.
Fixpoint text_numbers (n : nat) (sep : Z) (t : bytes) : option bytes :=
  match n, t with
  | O, [] => Some []
  | Datatypes.S n, c :: t =>
      if c =? sep then
        match scan_int t with
        | Some (x, t) => match text_numbers n sep t with Some a => Some (x :: a) | None => None end
        | None => None
        end
      else None
  | _, _ => None
  end.

#[export] Instance script_net : NetCalls (list (Z * list addrinfo)) := {|
  inet_pton t s := if t =? AF_INET then text_numbers 4 (chr ".") s else text_numbers 16 (chr ":") s;
  inet_ntop t a := Some (numbers_text (if t =? AF_INET then chr "." else chr ":") a);
  getaddrinfo _ _ _ k := match k with [] => ((EAI_AGAIN, []), []) | r :: k => (r, k) end;
  net_errno _ := 0 |}.

Lemma text_numbers_text sep a : is_digit10 sep = false -> text_numbers (length a) sep (numbers_text sep a) = Some a.
Proof.
  intros Hs. induction a as [|x a IH]; [done|]. cbn [length numbers_text text_numbers]. rewrite Z.eqb_refl.
  rewrite scan_print_int by (by destruct a). by rewrite IH.
Qed.

Lemma print_int_nonzero x : Forall (fun c => c <> 0) (print_int x).
Proof.
  assert (forall n, 0 <= n -> Forall (fun c => c <> 0) (print_uint 10 n)) as Hu.
  { intros n Hn. destruct (print_uint_digits n Hn) as (Hd & _). eapply Forall_impl; [exact Hd|].
    intros c Hc ->. discriminate. }
  unfold print_int. destruct (Z.ltb_spec x 0); [constructor; [done|]|]; apply Hu; lia.
Qed.

Lemma numbers_text_nonzero sep a : sep <> 0 -> Forall (fun c => c <> 0) (numbers_text sep a).
Proof. intros Hs. induction a as [|x a IH]; [constructor|]. cbn [numbers_text]. constructor; [done|]. apply Forall_app. split; [apply print_int_nonzero|done]. Qed.

#[export] Instance script_laws : InetLaws (list (Z * list addrinfo)).
Proof.
  split; intros a Ha; (eexists; split; [reflexivity|]); cbn [inet_pton script_net].
  - change (AF_INET =? AF_INET) with true. cbv iota. rewrite <- Ha.
    split; [by apply text_numbers_text|by apply numbers_text_nonzero].
  - change (AF_INET6 =? AF_INET) with false. change (AF_INET =? AF_INET) with true. cbv iota.
    split_and!; [rewrite <- Ha; by apply text_numbers_text| |by apply numbers_text_nonzero].
    destruct a as [|x a]; [discriminate|]. reflexivity.
Qed.

Lemma internet_address_roundtrip_witness : exists t,
  Ia.str true (v4_addr [127; 0; 0; 1]) ([] : list (Z * list addrinfo)) = (Ok t, []) /\ Ia.of_string t = Ok (v4_addr [127; 0; 0; 1]) /\
  Ia.of_type AF_INET t = Ok (v4_addr [127; 0; 0; 1]).
Proof. apply (internet_address_roundtrip (v4_addr [127; 0; 0; 1]) []). reflexivity. Defined.

Definition demo_v4 (d : Z) : addrinfo :=
  {| ai_family := AF_INET; ai_addr := le 2 AF_INET ++ le 2 (swap 2 80) ++ [10; 0; 0; d] ++ replicate 8 0; ai_canonname := None |}.

Lemma lookup_copies_first_witness :
  Sa.sa_vec [demo_v4 1; demo_v4 2] = Ok (replicate 2 (image (v4_addr [10; 0; 0; 1]) 80)).
Proof.
  apply (lookup_copies_first (demo_v4 1) [demo_v4 2] AF_INET).
  - left. split; [reflexivity|vm_compute; reflexivity].
  - repeat constructor.
Defined.
