(* ===== verification/NioNum.v ===== *)
(** * libnet: numbers on a connection (libnet/include/nio.h)

    The templates [read_integral], [write_integral], [read_real] and [write_real]
    of [nio], and its move.  A type of the C++ language is its size and, for an
    integer, whether it has a sign; a real number is a [spec_float]. *)
From Stdlib Require Import Floats.SpecFloat.
From S2P Require Import Prelude Bytes Effects Numbers Text File Nio Addr.

Definition good_size (n : nat) : bool := (n =? 2)%nat || (n =? 4)%nat || (n =? 8)%nat.
Definition int_value (n : nat) (has_sign : bool) (v : Z) : Z := (if has_sign then wrapS else wrapU) (8 * Z.of_nat n) v.

(** ** Real numbers as bits

    [float] has 24 bits of precision, [double] 53; the union [u4] or [u8] gives
    the bits of a number. *)
Definition prec_of (n : nat) : Z := if (n =? 4)%nat then 24 else 53.
Definition emax_of (n : nat) : Z := if (n =? 4)%nat then 128 else 1024.

Definition real_bits (n : nat) (x : spec_float) : Z :=
  let prec := prec_of n in let emax := emax_of n in
  let signed (s : bool) (b : Z) := (if s then 2 ^ (8 * Z.of_nat n - 1) else 0) + b in
  match x with
  | S754_zero s => signed s 0
  | S754_infinity s => signed s ((2 * emax - 1) * 2 ^ (prec - 1))
  | S754_nan => (2 * emax - 1) * 2 ^ (prec - 1) + 2 ^ (prec - 2)
  | S754_finite s m e =>
      signed s (if Zpos m <? 2 ^ (prec - 1) then Zpos m
                else (e + emax + prec - 2) * 2 ^ (prec - 1) + (Zpos m - 2 ^ (prec - 1)))
  end.

Definition bits_real (n : nat) (b : Z) : spec_float :=
  let prec := prec_of n in let emax := emax_of n in
  let s := Z.testbit b (8 * Z.of_nat n - 1) in
  let e := (b / 2 ^ (prec - 1)) mod (2 * emax) in
  let f := b mod 2 ^ (prec - 1) in
  if e =? 0 then match f with Zpos m => S754_finite s m (3 - emax - prec) | _ => S754_zero s end
  else if e =? 2 * emax - 1 then if f =? 0 then S754_infinity s else S754_nan
  else match f + 2 ^ (prec - 1) with Zpos m => S754_finite s m (e - emax - prec + 2) | _ => S754_nan end.

(** The conversion of an integer, which rounds, and to an integer between two
    bounds, which drops the fraction and is undefined outside of them. *)
Definition real_of_int (n : nat) (i : Z) : spec_float := binary_normalize (prec_of n) (emax_of n) i 0 false.
Definition int_of_real (lo hi : Z) (x : spec_float) : res cpp_exn Z :=
  let within z := if (lo <=? z) && (z <? hi) then Ok z else Ub in
  match x with
  | S754_zero _ => within 0
  | S754_finite s m e =>
      let z := if 0 <=? e then Zpos m * 2 ^ e else Zpos m / 2 ^ (- e) in within (if s then - z else z)
  | _ => Ub
  end.

(** [narrow_cast<float>] of a [uint32_t] *)
Definition narrow_to_float (v : Z) : res cpp_exn spec_float :=
  let r := real_of_int 4 v in
  let? back := int_of_real 0 (2 ^ 32) r in if back =? v then Ok r else Throw runtime_error.

(** [ntoh<T>] of a real number, whose value becomes an integer in [ntohl] while
    its bytes are swapped by [swap], and the assignment to the integer of the
    union. *)
Definition ntoh_real (n : nat) (data : bytes) : res cpp_exn Z :=
  if (n =? 4)%nat then
    let? u := int_of_real 0 (2 ^ 32) (bits_real 4 (unle data)) in
    let? v := ntoh 4 u in
    let? r := narrow_to_float v in
    int_of_real (- 2 ^ 31) (2 ^ 31) r
  else int_of_real (- 2 ^ 63) (2 ^ 63) (bits_real 8 (unle (rev data))).

Section nio.
Context `{Transport T}.
Abbreviation IO := (M cpp_exn (nio T)).

Definition io_read (n : Z) : IO (Z * bytes * Z) := fun io =>
  match nio_read n io with None => (Diverge, io) | Some (r, io) => (Ok r, io) end.
Definition io_write (data : bytes) : IO (Z * Z * Z) := fun io => let '(r, io) := nio_write data io in (Ok r, io).

(** The bytes of a number: the return value, the bytes when it is [E_ok], and
    the system error; and the other way. *)
Definition read_sized (n : nat) : IO (Z * option bytes * Z) :=
  let! (retval, data, oserr) := io_read (Z.of_nat n) in
  let retval := if (retval =? E_ok) && negb (zlen data =? Z.of_nat n) then E_read_failed else retval in
  ret (retval, if retval =? E_ok then Some data else None, oserr).
Definition write_sized (data : bytes) : IO (Z * Z) :=
  let! (retval, bwritten, oserr) := io_write data in
  ret (if (retval =? E_ok) && negb (bwritten =? zlen data) then E_write_failed else retval, oserr).

(** [read_integral(data)]: [None] leaves [*data] as it was. *)
Definition read_integral (n : nat) (has_sign : bool) : IO (Z * option Z * Z) :=
  if negb (good_size n) then ret (E_invalid_arg, None, 0)
  else
    let! (retval, data, oserr) := read_sized n in
    match data with
    | Some data => let! v := lift (ntoh n (unle data)) in ret (retval, Some (int_value n has_sign v), oserr)
    | None => ret (retval, None, oserr)
    end.
Definition write_integral (n : nat) (v : Z) : IO (Z * Z) :=
  if negb (good_size n) then ret (E_invalid_arg, 0)
  else let! v := lift (hton n (int_value n false v)) in write_sized (le n v).

Definition read_real (n : nat) : IO (Z * option spec_float * Z) :=
  if negb ((n =? 4)%nat || (n =? 8)%nat) then ret (E_invalid_arg, None, 0)
  else
    let! (retval, data, oserr) := read_sized n in
    match data with
    | Some data => let! i := lift (ntoh_real n data) in ret (retval, Some (bits_real n (int_value n false i)), oserr)
    | None => ret (retval, None, oserr)
    end.
Definition write_real (n : nat) (x : spec_float) : IO (Z * Z) :=
  if negb ((n =? 4)%nat || (n =? 8)%nat) then ret (E_invalid_arg, 0)
  else
    let! i := lift (hton n (real_bits n x)) in
    write_sized (le n (real_bits n (real_of_int n (int_value n true i)))).

(** The move constructor and the move assignment, of the buffer: what is moved
    from keeps its counts and loses the bytes. *)
Definition nio_move (io : nio T) : nio T * nio T :=
  (io, {| m_buffered := m_buffered io; m_buf := []; m_max := m_max io; m_len := m_len io; m_idx := m_idx io; m_dev := m_dev io |}).
End nio.

(** ** Facts (libnet: numbers on a connection) *)
(** ** Integers *)
Lemma good_sizes n : good_size n = true -> n = 2%nat \/ n = 4%nat \/ n = 8%nat.
Proof. unfold good_size. destruct n as [|[|[|[|[|[|[|[|[|]]]]]]]]]; cbn; auto; discriminate. Qed.

Lemma hton_good n v : good_size n = true -> hton n v = Ok (swap n v).
Proof. unfold hton, good_size. by intros ->. Qed.

Lemma swap_le n v : le n (swap n v) = rev (le n v).
Proof.
  unfold swap. pose proof (unle_chars (rev (le n v)) (List.Forall_rev (le_chars n v))) as E.
  by rewrite length_rev, length_le in E.
Qed.
Lemma swap_bytes n v : swap n (unle (rev (le n v))) = v mod 2 ^ (8 * Z.of_nat n).
Proof. change (unle (rev (le n v))) with (swap n v). unfold swap at 1. by rewrite swap_le, rev_involutive, unle_le. Qed.

(** A value of a type of the C++ language. *)
Definition of_type (n : nat) (has_sign : bool) (v : Z) : Prop :=
  if has_sign then - 2 ^ (8 * Z.of_nat n - 1) <= v < 2 ^ (8 * Z.of_nat n - 1) else 0 <= v < 2 ^ (8 * Z.of_nat n).

Lemma int_value_mod n b v : good_size n = true -> int_value n b (v mod 2 ^ (8 * Z.of_nat n)) = int_value n b v.
Proof.
  intros Hn. unfold int_value, wrapU. destruct b; [apply wrapS_mod; destruct (good_sizes n Hn) as [|[]]; lia|].
  by rewrite Zmod_mod.
Qed.
Lemma int_value_id n b v : good_size n = true -> of_type n b v -> int_value n b v = v.
Proof.
  intros Hn Hv. unfold int_value, of_type in *. destruct b; [|by apply wrapU_id].
  apply wrapS_id; [destruct (good_sizes n Hn) as [|[]]; lia|done].
Qed.

(** The bytes on the wire: the most significant first. *)
Definition network_bytes (n : nat) (v : Z) : bytes := rev (le n v).

Lemma write_sized_conn data inp out : data <> [] ->
  write_sized data (conn inp out) = (Ok (E_ok, 0), conn inp (out ++ data)).
Proof.
  intros Hd. unfold write_sized, bind at 1, io_write. rewrite conn_write by done. change (E_ok =? E_ok) with true.
  by rewrite Z.eqb_refl.
Qed.
Lemma read_sized_conn n data inp out : (0 < n)%nat -> length data = n ->
  read_sized n (conn (data ++ inp) out) = (Ok (E_ok, Some data, 0), conn inp out).
Proof.
  intros Hn Hl. unfold read_sized, bind at 1, io_read. rewrite conn_read by lia. rewrite Nat2Z.id, <- Hl, take_app_length, drop_app_length.
  change (E_ok =? E_ok) with true. unfold zlen. by rewrite Z.eqb_refl.
Qed.

(** An integer of 2, 4 or 8 bytes is sent with its most significant byte first,
    and a reader of the same type gets it back. *)
Theorem integral_roundtrip n has_sign v inp out rest out' : good_size n = true -> of_type n has_sign v ->
  write_integral n v (conn inp out) = (Ok (E_ok, 0), conn inp (out ++ network_bytes n v)) /\
  read_integral n has_sign (conn (network_bytes n v ++ rest) out') = (Ok (E_ok, Some v, 0), conn rest out').
Proof.
  intros Hn Hv. assert (length (network_bytes n v) = n) as Hl by (unfold network_bytes; by rewrite length_rev, length_le).
  assert (0 < n)%nat as Hpos by (destruct (good_sizes n Hn) as [|[]]; lia).
  split.
  - unfold write_integral. rewrite Hn. cbn [negb]. unfold bind at 1, lift. rewrite hton_good by done. rewrite swap_le.
    assert (le n (int_value n false v) = le n v) as E.
    { rewrite <- (rev_involutive (le n v)), <- (swap_le n v). rewrite <- (swap_le n (swap n v)). f_equal.
      change (swap n (swap n v)) with (unle (rev (le n (swap n v)))). by rewrite swap_le, rev_involutive, unle_le. }
    rewrite E. apply write_sized_conn. intros E2. rewrite E2 in Hl. cbn in Hl. lia.
  - unfold read_integral. rewrite Hn. cbn [negb]. unfold bind at 1. rewrite read_sized_conn by done.
    unfold bind, lift. unfold ntoh. rewrite hton_good by done. unfold network_bytes. rewrite swap_bytes, int_value_mod, int_value_id by done. done.
Qed.
Lemma integral_roundtrip_witness :
  write_integral 2 (-2) (conn [] []) = (Ok (E_ok, 0), conn [] [-1; -2]) /\
  read_integral 2 true (conn [-1; -2; 7] []) = (Ok (E_ok, Some (-2), 0), conn [7] []).
Proof. apply (integral_roundtrip 2 true (-2) [] [] [7] []); [reflexivity|]. cbn. lia. Defined.

(** Other sizes are refused, and nothing is sent or read. *)
Theorem integral_sizes {T} `{!Transport T} n has_sign v (io : nio T) : good_size n = false ->
  write_integral n v io = (Ok (E_invalid_arg, 0), io) /\ read_integral n has_sign io = (Ok (E_invalid_arg, None, 0), io).
Proof. unfold write_integral, read_integral. by intros ->. Qed.
Lemma integral_sizes_witness : write_integral 1 5 (conn [] []) = (Ok (E_invalid_arg, 0), conn [] []) /\
  read_integral 1 true (conn [] []) = (Ok (E_invalid_arg, None, 0), conn [] []).
Proof. by apply (integral_sizes 1 true 5). Defined.

(** ** Real numbers

    [write_real] converts the swapped integer to a real number, and [read_real]
    swaps another thing for each size. *)
Definition sent (n : nat) (x : spec_float) : bytes := p_out (m_dev (write_real n x (conn [] [])).2).
Definition received (n : nat) (x : spec_float) : res cpp_exn (Z * option spec_float * Z) := (read_real n (conn (sent n x) [])).1.
Definition int_real (n : nat) (i : Z) : spec_float := real_of_int n i.
Definition one_tenth : spec_float := S754_finite false 13421773 (-27).

(** [1.0f] is received, [0.1f] is undefined behaviour of the receiver. *)
Example float_one : received 4 (int_real 4 1) = Ok (E_ok, Some (int_real 4 1), 0).
Proof. vm_compute. reflexivity. Qed.
Example float_one_tenth : received 4 one_tenth = Ub.
Proof. vm_compute. reflexivity. Qed.
(** The doubles of the first integers are all received as zero. *)
Example doubles_are_zero :
  forallb (fun i => match received 8 (int_real 8 i) with Ok (0, Some (S754_zero false), 0) => true | _ => false end)
    [1; 2; 3; 4; 5; 6; 7; 8; 9; 10; 100; 1000] = true.
Proof. vm_compute. reflexivity. Qed.
Example bits_survive : forallb (fun x => bool_decide (real_bits 8 (bits_real 8 x) = x)) [0; 1; 2 ^ 52; 4607182418800017408; 2 ^ 63 + 5; 9218868437227405312] = true.
Proof. vm_compute. reflexivity. Qed.
