(* ===== verification/Sock.v ===== *)
(** * libnet: sockets (libnet/src/sock.cpp, net.cpp, libnet/include/sock.h, net.h)

    A socket object is a descriptor with its cached addresses.  The system calls
    are the class [SockCalls] over the state [K] of the system; the constants are
    those of Linux.  The base class [nio] is modelled in Nio.v. *)
From S2P Require Import Prelude Effects Numbers Bytes Text File Config Addr.
From S2P Require Import Nio.

Definition EINTR : Z := 4.
Definition EAGAIN : Z := 11.
Definition EPIPE : Z := 32.
Definition ECONNABORTED : Z := 103.
Definition ECONNRESET : Z := 104.
Definition ETIMEDOUT : Z := 110.
Definition EINPROGRESS : Z := 115.
Definition POLLIN : Z := 1.
Definition POLLOUT : Z := 4.
Definition POLLERR : Z := 8.
Definition O_NONBLOCK : Z := 2048.
Definition SOL_SOCKET : Z := 1.
Definition SO_REUSEADDR : Z := 2.
Definition SO_TYPE : Z := 3.
Definition SO_ERROR : Z := 4.
Definition SO_SNDBUF : Z := 7.
Definition SO_RCVBUF : Z := 8.
Definition SO_KEEPALIVE : Z := 9.
Definition SO_LINGER : Z := 13.
Definition SO_RCVTIMEO : Z := 20.
Definition SO_SNDTIMEO : Z := 21.
Definition IPPROTO_TCP : Z := 6.
Definition IPPROTO_UDP : Z := 17.
Definition TCP_NODELAY : Z := 1.
Definition SOMAXCONN : Z := 4096.
Definition INVALID_SOCKET : Z := -1.
Definition SOCKET_ERROR : Z := -1.
Definition POLL_WAIT_FOREVER : Z := -1.
Definition POLL_WAIT_NONE : Z := 0.
Definition E_connection_reset : Z := -26.
Definition E_broken_pipe : Z := -29.
Definition E_timed_out : Z := -30.

(** What a call gives: its value, or [errno]. *)
Abbreviation answer A := (A + Z)%type.

(** The calls, by descriptor.  [recv]: the bytes; [poll]: the events
    that came, one mask per element; an option is the list of the fields of its
    structure; addresses are bytes with a length. *)
Class SockCalls (K : Type) := {
  sys_recv : Z -> Z -> K -> answer bytes * K;
  sys_send : Z -> bytes -> K -> answer Z * K;
  sys_poll : list (Z * Z) -> Z -> K -> answer (list Z) * K;
  sys_getsockopt : Z -> Z -> Z -> K -> answer (list Z) * K;
  sys_setsockopt : Z -> Z -> Z -> list Z -> K -> answer unit * K;
  sys_getfl : Z -> K -> answer Z * K;
  sys_setfl : Z -> Z -> K -> answer unit * K;
  sys_socket : Z -> Z -> Z -> K -> answer Z * K;
  sys_socketpair : K -> answer (Z * Z) * K;
  sys_connect : Z -> option (memory * Z) -> K -> answer unit * K;
  sys_bind : Z -> option (memory * Z) -> K -> answer unit * K;
  sys_listen : Z -> Z -> K -> answer unit * K;
  sys_accept : Z -> K -> answer (Z * bytes * Z) * K;
  sys_getsockname : Z -> K -> answer (bytes * Z) * K;
  sys_getpeername : Z -> K -> answer (bytes * Z) * K;
  sys_shutdown : Z -> Z -> K -> answer unit * K;
  sys_close : Z -> K -> answer unit * K;
  (** a bound on the interruptions still to come, for the loops *)
  patience : K -> nat }.

(** ** net.cpp *)
Definition map_system_error (error default_retval : Z) : Z :=
  if EAGAIN =? error then E_try_again
  else if (ECONNRESET =? error) || (ECONNABORTED =? error) then E_connection_reset
  else if ETIMEDOUT =? error then E_timed_out
  else if EPIPE =? error then E_broken_pipe
  else default_retval.

(** [poll(fds, to, oserr)]: the return value, the events and the error. *)
Fixpoint poll_loop `{SockCalls K} (fuel : nat) (fds : list (Z * Z)) (to : Z) (k : K) : res cpp_exn (Z * list Z * Z) * K :=
  match fuel with
  | O => (Diverge, k)
  | S fuel =>
      match sys_poll fds to k with
      | (inl revents, k) => (Ok (Z.of_nat (length (filter (fun e => e <> 0) revents)), revents, 0), k)
      | (inr error, k) => if EINTR =? error then poll_loop fuel fds to k else (Ok (SOCKET_ERROR, [], error), k)
      end
  end.
Definition poll `{SockCalls K} (fds : list (Z * Z)) (to : Z) : M cpp_exn K (Z * list Z * Z) := fun k =>
  poll_loop (S (patience k)) fds to k.

(** ** sock.h *)
Record socket := {
  m_sock : Z; m_type : socket_type; m_local : option memory; m_peer : option memory; m_skip_close : bool }.

Inductive linger_type := dflt | none | timed.

Module Sock.
Section sock.
Context `{SockCalls K}.

Definition with_sock (fd : Z) (s : socket) : socket :=
  {| m_sock := fd; m_type := m_type s; m_local := m_local s; m_peer := m_peer s; m_skip_close := m_skip_close s |}.

(** A method works on the object and the system. *)
Abbreviation SK := (M cpp_exn (socket * K)).
Definition call {A} (f : Z -> K -> answer A * K) : SK (answer A) := fun st =>
  let '(a, k) := f (m_sock st.1) st.2 in (Ok a, (st.1, k)).
(** A call whose failure is a [std::system_error]. *)
Definition must {A} (f : Z -> K -> answer A * K) : SK A :=
  let! r := call f in match r with inl a => ret a | inr e => throw (system_error e) end.
Definition kernel {A} (m : M cpp_exn K A) : SK A := focus snd (fun k st => (st.1, k)) m.

(** [getopt] and [setopt] *)
Definition getopt (level optname : Z) : SK (list Z) := must (fun fd => sys_getsockopt fd level optname).
Definition setopt (level optname : Z) (value : list Z) : SK unit := must (fun fd => sys_setsockopt fd level optname value).
Definition getopt_int (level optname : Z) : SK Z :=
  let! v := getopt level optname in match v with [x] => ret x | _ => lift Ub end.

(** The type of a descriptor. *)
Definition type_of (value : Z) : res cpp_exn socket_type :=
  if value =? SOCK_STREAM then Ok tcp else if value =? SOCK_DGRAM then Ok udp else Throw invalid_argument.

(** The three constructors; an exception leaves no object. *)
Definition of_raw (s : Z) (skip_close : bool) : M cpp_exn K socket := fun k =>
  match sys_getsockopt s SOL_SOCKET SO_TYPE k with
  | (inr e, k) => (Throw (system_error e), k)
  | (inl [value], k) =>
      (let? t := type_of value in Ok {| m_sock := s; m_type := t; m_local := None; m_peer := None; m_skip_close := skip_close |}, k)
  | (inl _, k) => (Ub, k)
  end.
Definition of_peer (s : Z) (ss : bytes) (len : Z) : M cpp_exn K socket :=
  let! o := of_raw s false in
  let! peer := lift (Sa.of_storage ss len) in
  ret {| m_sock := m_sock o; m_type := m_type o; m_local := None; m_peer := Some peer; m_skip_close := false |}.
Definition create (family : Z) (type : socket_type) : M cpp_exn K socket :=
  if negb ((family =? AF_INET) || (family =? AF_INET6)) then throw invalid_argument
  else fun k =>
    match sys_socket family (Sa.socktype type) (match type with tcp => IPPROTO_TCP | udp => IPPROTO_UDP end) k with
    | (inl fd, k) => (Ok {| m_sock := fd; m_type := type; m_local := None; m_peer := None; m_skip_close := false |}, k)
    | (inr e, k) => (Throw (system_error e), k)
    end.
(** [socketpair] on Unix; when the second object cannot be made the first is
    destroyed. *)
Definition socketpair : M cpp_exn K (socket * socket) :=
  let! p := (fun k => match sys_socketpair k with (inl p, k) => (Ok p, k) | (inr e, k) => (Throw (system_error e), k) end) in
  let! s1 := of_raw p.1 false in
  let! s2 := catch (of_raw p.2 false) (fun e k => (Throw e, (sys_close (m_sock s1) k).2)) in
  ret (s1, s2).

(** The options. *)
Definition keepalive : SK bool := let! v := getopt_int SOL_SOCKET SO_KEEPALIVE in ret (negb (v =? 0)).
Definition set_keepalive (enable : bool) : SK unit := setopt SOL_SOCKET SO_KEEPALIVE [if enable then 1 else 0].
Definition reuseaddr : SK bool := let! v := getopt_int SOL_SOCKET SO_REUSEADDR in ret (negb (v =? 0)).
Definition set_reuseaddr (b : bool) : SK unit := setopt SOL_SOCKET SO_REUSEADDR [if b then 1 else 0].

(** [linger(to)]: the type, and what is stored through [to]. *)
Definition linger : SK (linger_type * option Z) :=
  let! v := getopt SOL_SOCKET SO_LINGER in
  match v with
  | [l_onoff; l_linger] =>
      ret (if l_onoff =? 0 then (dflt, None) else if l_linger =? 0 then (none, None) else (timed, Some l_linger))
  | _ => lift Ub
  end.
Definition set_linger (lt : linger_type) (to : Z) : SK unit :=
  match lt with
  | dflt => setopt SOL_SOCKET SO_LINGER [0; 0]
  | none => setopt SOL_SOCKET SO_LINGER [1; 0]
  | timed => if to <=? 0 then throw invalid_argument else setopt SOL_SOCKET SO_LINGER [1; to]
  end.

Definition rcvbuf : SK Z := getopt_int SOL_SOCKET SO_RCVBUF.
Definition set_rcvbuf (bufsize : Z) : SK unit := setopt SOL_SOCKET SO_RCVBUF [bufsize].
Definition sndbuf : SK Z := getopt_int SOL_SOCKET SO_SNDBUF.
Definition set_sndbuf (bufsize : Z) : SK unit := setopt SOL_SOCKET SO_SNDBUF [bufsize].

(** A [timeval] as milliseconds, and back: [tv_sec] is only assigned above
    1000, and otherwise has the value [stack] that memory holds. *)
Definition get_timeo (opt : Z) : SK Z :=
  let! v := getopt SOL_SOCKET opt in
  match v with
  | [tv_sec; tv_usec] =>
      let ms := tv_sec * 1000 + Z.quot tv_usec 1000 in
      if decide (- 2 ^ 63 <= ms < 2 ^ 63) then ret ms else lift Ub
  | _ => lift Ub
  end.
Definition set_timeo (stack : Z) (opt to : Z) : SK unit :=
  let tv_sec := if 1000 <? to then Z.quot to 1000 else stack in
  setopt SOL_SOCKET opt [tv_sec; Z.rem to 1000 * 1000].
Definition rcvtimeout : SK Z := get_timeo SO_RCVTIMEO.
Definition set_rcvtimeout (stack to : Z) : SK unit := set_timeo stack SO_RCVTIMEO to.
Definition sndtimeout : SK Z := get_timeo SO_SNDTIMEO.
Definition set_sndtimeout (stack to : Z) : SK unit := set_timeo stack SO_SNDTIMEO to.

Definition error : SK Z := getopt_int SOL_SOCKET SO_ERROR.
Definition tcpnodelay : SK bool := let! v := getopt_int IPPROTO_TCP TCP_NODELAY in ret (negb (v =? 0)).
Definition set_tcpnodelay (nodelay : bool) : SK unit := setopt IPPROTO_TCP TCP_NODELAY [if nodelay then 1 else 0].

(** [blocking()] and [blocking(blk)] *)
Definition nonblocking (flags : Z) : bool := Z.land flags O_NONBLOCK =? O_NONBLOCK.
Definition blocking : SK bool := let! flags := must sys_getfl in ret (negb (nonblocking flags)).
Definition set_blocking (blk : bool) : SK unit :=
  let! flags := must sys_getfl in
  if blk then
    if nonblocking flags then must (fun fd => sys_setfl fd (Z.land flags (Z.lnot O_NONBLOCK))) else ret tt
  else
    if nonblocking flags then ret tt else must (fun fd => sys_setfl fd (Z.lor flags O_NONBLOCK)).

(** [dump_options] *)
Definition print_bool (b : bool) : bytes := bytes_of (if b then "true" else "false").
Definition print_linger (lt : linger_type) : bytes :=
  bytes_of (match lt with dflt => "default" | none => "none" | timed => "timed" end).
Definition dump_options : SK bytes :=
  let! ka := keepalive in let! ra := reuseaddr in let! nd := tcpnodelay in let! b := blocking in
  let! (lt, to) := linger in
  let! rb := rcvbuf in let! sb := sndbuf in let! rt := rcvtimeout in let! st := sndtimeout in let! e := error in
  ret (bytes_of ", keepalive=" ++ print_bool ka ++ bytes_of ", reuseaddr=" ++ print_bool ra ++
       bytes_of ", tcpnodelay=" ++ print_bool nd ++ bytes_of ", blocking=" ++ print_bool b ++
       bytes_of ", linger-type=" ++ print_linger lt ++
       (match to with Some to => bytes_of ", linger-timeout=" ++ print_int to | None => [] end) ++
       bytes_of ", rcvbuf=" ++ print_int rb ++ bytes_of ", sndbuf=" ++ print_int sb ++
       bytes_of ", rcvtimeout=" ++ print_int rt ++ bytes_of ", sndtimeout=" ++ print_int st ++
       bytes_of ", error=" ++ print_int e).

(** [local_address] and [peer_address] keep what the system answered. *)
Definition local_address : SK memory := fun st =>
  match m_local st.1 with
  | Some m => (Ok m, st)
  | None =>
      (let! (ss, len) := must sys_getsockname in
       let! m := lift (Sa.of_storage ss len) in
       modify (fun st => ({| m_sock := m_sock st.1; m_type := m_type st.1; m_local := Some m; m_peer := m_peer st.1; m_skip_close := m_skip_close st.1 |}, st.2)) ;;
       ret m) st
  end.
Definition peer_address : SK memory := fun st =>
  match m_peer st.1 with
  | Some m => (Ok m, st)
  | None =>
      (let! (ss, len) := must sys_getpeername in
       let! m := lift (Sa.of_storage ss len) in
       modify (fun st => ({| m_sock := m_sock st.1; m_type := m_type st.1; m_local := m_local st.1; m_peer := Some m; m_skip_close := m_skip_close st.1 |}, st.2)) ;;
       ret m) st
  end.

(** [if (POLL_WAIT_FOREVER != to) if (blocking()) { ... }] *)
Definition enter (to : Z) : SK bool :=
  if POLL_WAIT_FOREVER =? to then ret false
  else let! b := blocking in if b then set_blocking false ;; ret true else ret false.
Definition leave (reset : bool) : SK unit := if reset then set_blocking true else ret tt.

Definition connect_in_progress (e : Z) : bool := e =? EINPROGRESS.

(** The wait for a connection in progress: the error, or 0. *)
Definition await_connection (to : Z) : SK Z := fun st =>
  (let! (retval, revents, syserr) := kernel (poll [(m_sock st.1, Z.lor POLLOUT POLLERR)] to) in
   if retval =? SOCKET_ERROR then ret syserr
   else if retval =? 0 then ret ETIMEDOUT
   else match revents with
        | [e] => if Z.land e POLLERR =? 0 then ret 0 else error
        | _ => lift Ub
        end) st.

(** [connect(sa, to)] *)
Definition connect (sa : memory) (to : Z) : SK unit :=
  let! saddr := lift (Sa.get_sa sa) in
  let! reset := enter to in
  let! r := call (fun fd => sys_connect fd saddr) in
  (match r with
   | inl _ => ret tt
   | inr e =>
       let! b := blocking in
       if b then throw (system_error e)
       else if connect_in_progress e then
         let! retval := await_connection to in
         if negb (retval =? 0) then leave reset ;; throw (system_error retval) else ret tt
       else ret tt
   end) ;;
  leave reset.

Definition connect_address (ia : internet_address) (port to : Z) : SK unit :=
  let! sa := lift (Sa.init ia port) in connect sa to.
Definition connect_host `{NetCalls K} (family : Z) (host : bytes) (port to : Z) : SK unit := fun st =>
  (let! sas := kernel (Sa.get_client_port family (m_type st.1) host port) in
   match sas with [] => ret tt | sa :: _ => connect sa to end) st.

Definition bind_sa (sa : memory) : SK unit :=
  let! saddr := lift (Sa.get_sa sa) in must (fun fd => sys_bind fd saddr).
Definition bind_address (ia : internet_address) (port : Z) : SK unit := let! sa := lift (Sa.init ia port) in bind_sa sa.
Definition bind_family `{NetCalls K} (family port : Z) : SK unit :=
  let! sas := kernel (Sa.get_server_port family tcp port) in
  match sas with [] => ret tt | sa :: _ => bind_sa sa end.

Definition listen (backlog : Z) : SK unit :=
  let backlog := if backlog <? 5 then 5 else backlog in
  let backlog := if SOMAXCONN <? backlog then SOMAXCONN else backlog in
  must (fun fd => sys_listen fd backlog).

Definition accept : SK socket :=
  let! (s, saddr, slen) := must sys_accept in kernel (of_peer s saddr slen).

(** [is_readable(to, oserr)] and [is_writable(to, oserr)]; [None] is a null
    [oserr]. *)
Definition is_ready (event : Z) (to : Z) (oserr : option Z) : SK (bool * option Z) := fun st =>
  (let! (retval, _, syserr) := kernel (poll [(m_sock st.1, event)] to) in
   ret (0 <? retval, match oserr with Some _ => Some syserr | None => None end)) st.
Definition is_readable : Z -> option Z -> SK (bool * option Z) := is_ready POLLIN.
Definition is_writable : Z -> option Z -> SK (bool * option Z) := is_ready POLLOUT.

(** The loops of [readn] and [writen]: [op] is the transfer ([None]: the socket
    is not ready), which moves some bytes. *)
Definition attempt {A} (ready : Z -> option Z -> SK (bool * option Z)) (to : Z) (oserr : option Z)
    (op : Z -> K -> answer A * K) : SK (option (answer A) * option Z) :=
  let! b := blocking in
  if b then let! r := call op in ret (Some r, oserr)
  else
    let! (ok, oserr) := ready to oserr in
    if ok then let! r := call op in ret (Some r, oserr) else ret (None, oserr).

Definition store_error (error : Z) (oserr : option Z) : option Z := match oserr with Some _ => Some error | None => None end.

Fixpoint readn_loop (fuel : nat) (to_read to : Z) (cbuf : bytes) (oserr : option Z) : SK (Z * bytes * option Z) :=
  match fuel with
  | O => diverge
  | S fuel =>
      let! (n, oserr) := attempt is_readable to oserr (fun fd => sys_recv fd to_read) in
      match n with
      | None => match oserr with Some e => ret (map_system_error e E_read_failed, cbuf, oserr) | None => lift Ub end
      | Some (inr error) =>
          if EINTR =? error then readn_loop fuel to_read to cbuf oserr
          else ret (map_system_error error E_read_failed, cbuf, store_error error oserr)
      | Some (inl []) => ret (E_ok, cbuf, oserr)
      | Some (inl data) =>
          let to_read := to_read - zlen data in
          if 0 <? to_read then readn_loop fuel to_read to (cbuf ++ data) oserr else ret (E_ok, cbuf ++ data, oserr)
      end
  end.

(** [readn(buf, to_read, bread, to, oserr)]: the return value, the bytes and
    the error; [false] is a null pointer, and [None] bytes are an untouched
    [bread]. *)
Definition readn (buf bread : bool) (to_read to : Z) (oserr : option Z) : SK (Z * option bytes * option Z) := fun st =>
  (if negb buf || (to_read <=? 0) || negb bread then ret (E_invalid_arg, None, oserr)
   else
     let! reset := enter to in
     let! (retval, data, oserr) := readn_loop (S (patience st.2 + Z.to_nat to_read)) to_read to [] oserr in
     leave reset ;;
     ret (retval, Some data, oserr)) st.

Fixpoint writen_loop (fuel : nat) (cbuf : bytes) (to nbytes : Z) (oserr : option Z) : SK (Z * Z * option Z) :=
  match fuel with
  | O => diverge
  | S fuel =>
      let! (n, oserr) := attempt is_writable to oserr (fun fd => sys_send fd cbuf) in
      match n with
      | None => match oserr with Some e => ret (map_system_error e E_write_failed, nbytes, oserr) | None => lift Ub end
      | Some (inr error) =>
          if EINTR =? error then writen_loop fuel cbuf to nbytes oserr
          else ret (map_system_error error E_write_failed, nbytes, store_error error oserr)
      | Some (inl n) =>
          if n =? 0 then ret (E_ok, nbytes, oserr)
          else
            let cbuf := drop (Z.to_nat n) cbuf in
            match cbuf with [] => ret (E_ok, nbytes + n, oserr) | _ => writen_loop fuel cbuf to (nbytes + n) oserr end
      end
  end.
Definition writen (buf : option bytes) (bwritten : bool) (to : Z) (oserr : option Z) : SK (Z * option Z * option Z) := fun st =>
  (match buf with
   | None | Some [] => ret (E_invalid_arg, None, oserr)
   | Some cbuf =>
       if negb bwritten then ret (E_invalid_arg, None, oserr)
       else
         let! reset := enter to in
         let! (retval, n, oserr) := writen_loop (S (patience st.2 + length cbuf)) cbuf to 0 oserr in
         leave reset ;;
         ret (retval, Some n, oserr)
   end) st.

(** [close] and [shutdown] *)
Definition close : SK unit := fun st =>
  if m_sock st.1 =? INVALID_SOCKET then (Ok tt, st)
  else (must sys_close ;; modify (fun st => (with_sock INVALID_SOCKET st.1, st.2))) st.
Definition shutdown (type : Z) : SK unit := fun st =>
  if m_sock st.1 =? INVALID_SOCKET then (Ok tt, st) else must (fun fd => sys_shutdown fd type) st.

(** [~socket]: an exception that leaves a destructor ends the program. *)
Definition destroy : SK unit := fun st => if m_skip_close st.1 then (Ok tt, st) else close st.

(** [str] *)
Definition str `{NetCalls K} : SK bytes := fun st =>
  (let! l := (match m_local st.1 with Some m => let! t := kernel (Sa.str false m) in ret (bytes_of ", local-address=" ++ t) | None => ret [] end) in
   let! p := (match m_peer st.1 with Some m => let! t := kernel (Sa.str false m) in ret (bytes_of ", peer-address=" ++ t) | None => ret [] end) in
   ret (bytes_of "id=" ++ print_int (m_sock st.1) ++ l ++ p)) st.
End sock.

(** ** Moving

    The new object and what is left of [s]. *)
Definition move (s : socket) : socket * socket :=
  ({| m_sock := m_sock s; m_type := m_type s; m_local := m_local s; m_peer := m_peer s; m_skip_close := m_skip_close s |},
   {| m_sock := INVALID_SOCKET; m_type := m_type s; m_local := None; m_peer := None; m_skip_close := m_skip_close s |}).

(** [operator=] of two objects; the descriptor that [this] had is overwritten. *)
Definition move_assign (this s : socket) : socket * socket := move s.
End Sock.

(** ** Facts (libnet: what a socket does on a connected stream)

    The laws of the calls on a connected stream socket, with short transfers,
    interruptions and waits, are the class [Connected].  Under them [readn] and
    [writen] move what [pipe] of Nio.v says, leave the mode of the socket as it
    was, and say when they stopped early. *)

Import Sock.

(** The peer's side of the connection is a [pipe]: the bytes still to be
    received and those sent. *)
Class Connected (K : Type) `{SockCalls K} (fd : Z) := {
  wire : K -> pipe;
  flags : K -> Z;
  ready : Z -> K -> Prop;
  same (k k' : K) : Prop := wire k' = wire k /\ flags k' = flags k /\ (patience k' <= patience k)%nat;
  getfl_law k : sys_getfl fd k = (inl (flags k), k);
  setfl_law f k : exists k', sys_setfl fd f k = (inl tt, k') /\ flags k' = f /\ wire k' = wire k /\ (patience k' <= patience k)%nat;
  (** the events of one element, none after the time is over *)
  poll_law ev to k :
    match sys_poll [(fd, ev)] to k with
    | (inl [e], k') => same k k' /\ (e <> 0 -> ready ev k')
    | (inl _, _) => False
    | (inr e, k') => e = EINTR /\ wire k' = wire k /\ flags k' = flags k /\ (patience k' < patience k)%nat
    end;
  recv_law n k : 0 < n -> nonblocking (flags k) = false \/ ready POLLIN k ->
    match sys_recv fd n k with
    | (inl d, k') =>
        d `prefix_of` p_in (wire k) /\ zlen d <= n /\ (d = [] -> p_in (wire k) = []) /\
        wire k' = {| p_in := drop (length d) (p_in (wire k)); p_out := p_out (wire k) |} /\
        flags k' = flags k /\ (patience k' <= patience k)%nat
    | (inr e, k') => e = EINTR /\ wire k' = wire k /\ flags k' = flags k /\ (patience k' < patience k)%nat
    end;
  send_law b k : b <> [] -> nonblocking (flags k) = false \/ ready POLLOUT k ->
    match sys_send fd b k with
    | (inl n, k') =>
        0 < n <= zlen b /\
        wire k' = {| p_in := p_in (wire k); p_out := p_out (wire k) ++ take (Z.to_nat n) b |} /\
        flags k' = flags k /\ (patience k' <= patience k)%nat
    | (inr e, k') => e = EINTR /\ wire k' = wire k /\ flags k' = flags k /\ (patience k' < patience k)%nat
    end }.

(** ** The flag *)
Lemma nonblocking_testbit f : nonblocking f = Z.testbit f 11.
Proof.
  unfold nonblocking, O_NONBLOCK. change 2048 with (2 ^ 11). destruct (Z.testbit f 11) eqn:E.
  - apply Z.eqb_eq. apply Z.bits_inj'. intros n Hn. rewrite Z.land_spec, !Z.pow2_bits_eqb by lia.
    destruct (Z.eqb_spec 11 n) as [<-|]; [by rewrite E|by rewrite andb_false_r].
  - apply Z.eqb_neq. intros Hx. assert (Z.testbit (Z.land f (2 ^ 11)) 11 = true) as Ht by (by rewrite Hx).
    rewrite Z.land_spec, E in Ht. done.
Qed.

Lemma nonblocking_set f : nonblocking (Z.lor f O_NONBLOCK) = true.
Proof. rewrite nonblocking_testbit, Z.lor_spec. by rewrite orb_true_r. Qed.

Lemma nonblocking_restore f : nonblocking f = false -> Z.land (Z.lor f O_NONBLOCK) (Z.lnot O_NONBLOCK) = f.
Proof.
  rewrite nonblocking_testbit. intros Hf. apply Z.bits_inj'. intros n Hn. unfold O_NONBLOCK. change 2048 with (2 ^ 11).
  rewrite Z.land_spec, Z.lor_spec, Z.lnot_spec, Z.pow2_bits_eqb by lia.
  destruct (Z.eqb_spec 11 n) as [<-|]; [by rewrite Hf|]. by rewrite orb_false_r, andb_true_r.
Qed.

Section connected.
Context {K : Type} `{!SockCalls K} {sd : Z} `{!Connected K sd}.

(** Same object, and a system that differs by what [same] allows. *)
Lemma same_refl k : same k k.
Proof. done. Qed.
Lemma same_trans k1 k2 k3 : same k1 k2 -> same k2 k3 -> same k1 k3.
Proof. unfold same. intros (? & ? & ?) (? & ? & ?). split_and!; [congruence..|lia]. Qed.

Context (s : socket) (Hs : m_sock s = sd).

Lemma call_run {A} (f : Z -> K -> answer A * K) k : call f (s, k) = (Ok (f sd k).1, (s, (f sd k).2)).
Proof. unfold call. cbn. rewrite Hs. by destruct (f sd k). Qed.

Lemma blocking_run k : blocking (s, k) = (Ok (negb (nonblocking (flags k))), (s, k)).
Proof. unfold blocking, must, bind. rewrite call_run, getfl_law. done. Qed.

(** The time of some wait is over before an event. *)
Definition timed_out (to : Z) : Prop := exists ev k k', sys_poll [(sd, ev)] to k = (inl [0], k').

(** [poll] waits through the interruptions. *)
Lemma poll_run ev to : forall fuel k, (patience k < fuel)%nat ->
  exists e k', poll_loop fuel [(sd, ev)] to k = (Ok (if decide (e = 0) then 0 else 1, [e], 0), k') /\
    same k k' /\ (e <> 0 -> ready ev k') /\ (e = 0 -> timed_out to).
Proof.
  induction fuel as [|fuel IH]; intros k Hf; [lia|]. cbn [poll_loop]. pose proof (poll_law ev to k) as Hp.
  destruct (sys_poll [(sd, ev)] to k) as [[[|e [|]]|e] k'] eqn:Ep; try done.
  - destruct Hp as [Hsame Hr]. exists e, k'. split; [|split_and!; [done..|intros ->; by exists ev, k, k']]. f_equal. f_equal. f_equal. cbn [filter list_filter].
    repeat case_decide; done.
  - destruct Hp as (-> & Hw & Hfl & Hpat). change (EINTR =? EINTR) with true. cbv iota.
    destruct (IH k' ltac:(lia)) as (e & k2 & E & H2 & Hr). exists e, k2. split; [done|]. split; [|done].
    eapply same_trans; [|exact H2]. split_and!; [done..|lia].
Qed.

Lemma is_ready_run ev to oserr k : exists b k', is_ready ev to oserr (s, k) =
    (Ok (b, match oserr with Some _ => Some 0 | None => None end), (s, k')) /\ same k k' /\ (if b then ready ev k' else timed_out to).
Proof.
  destruct (poll_run ev to (S (patience k)) k ltac:(lia)) as (e & k' & E & Hsame & Hr & Ht).
  exists (if decide (e = 0) then false else true), k'. split; [|split; [done|case_decide; naive_solver]].
  unfold is_ready, kernel, focus, bind, poll. cbn [snd fst]. rewrite Hs, E. cbn. by case_decide.
Qed.

(** ** Entering and leaving the mode without blocking *)
Lemma set_nonblocking_run k : nonblocking (flags k) = false ->
  exists k', set_blocking false (s, k) = (Ok tt, (s, k')) /\ flags k' = Z.lor (flags k) O_NONBLOCK /\ wire k' = wire k /\ (patience k' <= patience k)%nat.
Proof.
  intros Hn. destruct (setfl_law (Z.lor (flags k) O_NONBLOCK) k) as (k' & E & Hf & Hw & Hp). exists k'. split; [|done].
  unfold set_blocking, must, bind. rewrite call_run, getfl_law. cbn [fst snd ret]. rewrite Hn, call_run, E. done.
Qed.

Lemma set_blocking_run k : nonblocking (flags k) = true ->
  exists k', set_blocking true (s, k) = (Ok tt, (s, k')) /\ flags k' = Z.land (flags k) (Z.lnot O_NONBLOCK) /\ wire k' = wire k.
Proof.
  intros Hn. destruct (setfl_law (Z.land (flags k) (Z.lnot O_NONBLOCK)) k) as (k' & E & Hf & Hw & _). exists k'. split; [|done].
  unfold set_blocking, must, bind. rewrite call_run, getfl_law. cbn [fst snd ret]. rewrite Hn, call_run, E. done.
Qed.

(** Does a transfer wait with [poll]? *)
Definition polled (to : Z) (k : K) : bool := nonblocking (flags k) || negb (to =? POLL_WAIT_FOREVER).

Lemma enter_run to k : exists reset k1, enter to (s, k) = (Ok reset, (s, k1)) /\
    wire k1 = wire k /\ (patience k1 <= patience k)%nat /\ nonblocking (flags k1) = polled to k /\
    (forall k2, flags k2 = flags k1 -> exists k3, leave reset (s, k2) = (Ok tt, (s, k3)) /\ wire k3 = wire k2 /\ flags k3 = flags k).
Proof.
  unfold enter, polled. destruct (Z.eqb_spec POLL_WAIT_FOREVER to) as [<-|Hto].
  { exists false, k. split_and!; [done..|by rewrite Z.eqb_refl, orb_false_r|]. intros k2 Hk. by exists k2. }
  destruct (Z.eqb_spec to POLL_WAIT_FOREVER); [congruence|]. rewrite orb_true_r.
  unfold bind. rewrite blocking_run. destruct (nonblocking (flags k)) eqn:Hn; cbn [negb].
  { exists false, k. split_and!; [done..|]. intros k2 Hk. by exists k2. }
  destruct (set_nonblocking_run k Hn) as (k1 & E & Hf & Hw & Hp). rewrite E. exists true, k1.
  split_and!; [done..|rewrite Hf; apply nonblocking_set|]. intros k2 Hk.
  destruct (set_blocking_run k2) as (k3 & E3 & Hf3 & Hw3); [rewrite Hk, Hf; apply nonblocking_set|].
  exists k3. split_and!; [done..|]. rewrite Hf3, Hk, Hf. by apply nonblocking_restore.
Qed.

(** One attempt: a call on a socket that can be used, or a wait that is over. *)
Lemma attempt_run {A} ev to oserr (op : Z -> K -> answer A * K) k :
  exists k1, same k k1 /\
    ((exists oserr', attempt (is_ready ev) to oserr op (s, k) = (Ok (Some (op sd k1).1, oserr'), (s, (op sd k1).2)) /\
        (nonblocking (flags k1) = false \/ ready ev k1) /\ (is_Some oserr -> is_Some oserr') /\ (oserr = Some 0 -> oserr' = Some 0)) \/
     (nonblocking (flags k) = true /\ timed_out to /\
        attempt (is_ready ev) to oserr op (s, k) = (Ok (None, match oserr with Some _ => Some 0 | None => None end), (s, k1)))).
Proof.
  unfold attempt, bind. rewrite blocking_run. destruct (nonblocking (flags k)) eqn:Hn; cbn [negb].
  2: { exists k. split; [done|]. left. exists oserr. rewrite call_run. auto. }
  destruct (is_ready_run ev to oserr k) as (b & k1 & E & Hsame & Hr). exists k1. split; [done|]. rewrite E.
  destruct b; [left|right; done]. eexists. rewrite call_run. split; [done|]. split; [auto|]. split; [intros [? ->]; by eexists|by intros ->].
Qed.

(** What has been received and what has not. *)
Definition received (d : bytes) (k k' : K) : Prop :=
  d `prefix_of` p_in (wire k) /\ flags k' = flags k /\
  wire k' = {| p_in := drop (length d) (p_in (wire k)); p_out := p_out (wire k) |}.

(** A read ends with all the bytes or the end of the stream, or early when a
    wait is over. *)
Definition read_outcome (n to : Z) (waits : bool) (k : K) (r : Z) (d : bytes) (oserr : option Z) : Prop :=
  (r = E_ok /\ d = take (Z.to_nat n) (p_in (wire k))) \/
  (r = E_read_failed /\ oserr = Some 0 /\ zlen d < n /\ waits = true /\ timed_out to).

Lemma received_app d1 d2 k k1 k2 : received d1 k k1 -> received d2 k1 k2 -> received (d1 ++ d2) k k2.
Proof.
  intros ((t & Ht) & Hf1 & Hw1) (Hd2 & Hf2 & Hw2). rewrite Hw1 in Hd2, Hw2. cbn [p_in p_out] in *.
  rewrite Ht, drop_app_length in Hd2. split_and!; [rewrite Ht; by apply prefix_app|congruence|].
  rewrite Hw2, drop_drop, length_app. done.
Qed.

Lemma readn_loop_run to : forall fuel n cbuf oserr k, 0 < n -> (patience k + Z.to_nat n < fuel)%nat ->
    is_Some oserr \/ nonblocking (flags k) = false ->
  exists r d oserr' k', readn_loop fuel n to cbuf oserr (s, k) = (Ok (r, cbuf ++ d, oserr'), (s, k')) /\ (oserr = Some 0 -> oserr' = Some 0) /\
    received d k k' /\ read_outcome n to (nonblocking (flags k)) k r d oserr'.
Proof.
  induction fuel as [|fuel IH]; intros n cbuf oserr k Hn Hf Ho; [lia|]. cbn [readn_loop]. unfold bind at 1.
  destruct (attempt_run POLLIN to oserr (fun sd => sys_recv sd n) k) as (k1 & (Hw1 & Hf1 & Hp1) & [(o1 & E & Hr & Ho1 & Hz1)|(Hb & Ht & E)]).
  all: change is_readable with (is_ready POLLIN); rewrite E; cbv iota beta.
  2: { destruct Ho as [[e ->]|Ho]; [|congruence]. change (map_system_error 0 E_read_failed) with E_read_failed.
    exists E_read_failed, [], (Some 0), k1. rewrite app_nil_r. split; [done|]. split; [done|]. unfold received. rewrite Hw1. cbn [length drop].
    split; [split_and!; [by eexists|done|by destruct (wire k)]|]. right. done. }
  pose proof (recv_law n k1 Hn Hr) as Hl. destruct (sys_recv sd n k1) as [[d|e] k2]; cbn [fst snd].
  - destruct Hl as (Hpre & Hlen & Hend & Hw2 & Hf2 & Hp2). rewrite Hw1 in Hpre, Hend, Hw2.
    assert (received d k k2) as Hrec by (split_and!; [done|congruence|done]).
    destruct d as [|c d].
    { exists E_ok, [], o1, k2. rewrite app_nil_r. split; [done|]. split; [done|]. split; [done|]. left. by rewrite (Hend eq_refl), take_nil. }
    destruct (Z.ltb_spec 0 (n - zlen (c :: d))) as [Hmore|Hmore].
    + assert (0 < zlen (c :: d)) as Hpos by (by apply zlen_pos).
      destruct (IH (n - zlen (c :: d)) (cbuf ++ c :: d) o1 k2) as (r & d' & o' & k' & E' & Hz' & Hrec' & Hout); [lia| | |].
      { unfold zlen in *. lia. }
      { destruct Ho as [Ho|Ho]; [left; auto|right; congruence]. }
      exists r, (c :: d ++ d'), o', k'. rewrite E', <- app_assoc. split; [done|]. split; [auto|].
      split; [by eapply (received_app (c :: d))|].
      destruct Hout as [(-> & Hd')|(-> & -> & Hlt & Hnb & Ht)]; [left|right].
      * split; [done|]. rewrite Hw2 in Hd'. cbn [p_in] in Hd'. destruct Hpre as [t Ht]. rewrite Ht in Hd' |- *.
        rewrite drop_app_length in Hd'. rewrite take_app_ge by (unfold zlen in *; lia).
        assert (Z.to_nat n - length (c :: d) = Z.to_nat (n - zlen (c :: d)))%nat as -> by (unfold zlen; lia).
        by rewrite <- Hd'.
      * split_and!; [done..| |congruence|done]. change (c :: d ++ d') with ((c :: d) ++ d'). rewrite zlen_app. lia.
    + exists E_ok, (c :: d), o1, k2. split; [done|]. split; [done|]. split; [done|]. left. split; [done|].
      destruct Hpre as [t Ht]. rewrite Ht. rewrite take_app_le by (unfold zlen in *; lia). rewrite take_ge by (unfold zlen in *; lia). done.
  - destruct Hl as (-> & Hw2 & Hf2 & Hp2). change (EINTR =? EINTR) with true. cbv iota.
    destruct (IH n cbuf o1 k2 Hn) as (r & d & o' & k' & E' & Hz' & Hrec & Hout); [lia| |].
    { destruct Ho as [Ho|Ho]; [left; auto|right; congruence]. }
    exists r, d, o', k'. split; [done|]. split; [auto|]. unfold received, read_outcome in *.
    replace (flags k2) with (flags k) in * by congruence. replace (wire k2) with (wire k) in * by congruence. done.
Qed.

(** [readn], in every mode and with every time limit. *)
Lemma readn_run n to oserr k : 0 < n -> is_Some oserr \/ polled to k = false ->
  exists r d oserr' k', readn true true n to oserr (s, k) = (Ok (r, Some d, oserr'), (s, k')) /\ (oserr = Some 0 -> oserr' = Some 0) /\
    received d k k' /\ read_outcome n to (polled to k) k r d oserr'.
Proof.
  intros Hn Ho. unfold readn. cbn [negb orb]. destruct (Z.leb_spec n 0); [lia|]. cbn [orb].
  destruct (enter_run to k) as (reset & k1 & E1 & Hw1 & Hp1 & Hm & Hleave).
  destruct (readn_loop_run to (Datatypes.S (patience k + Z.to_nat n)) n [] oserr k1 Hn) as (r & d & o' & k2 & E2 & Hz & Hrec & Hout);
    [lia|by rewrite Hm|]. destruct Hrec as (Hpre & Hf2 & Hw2).
  destruct (Hleave k2 Hf2) as (k3 & E3 & Hw3 & Hf3).
  exists r, d, o', k3. unfold bind. cbn [snd]. rewrite E1, E2. cbv iota beta. rewrite E3. split; [done|]. split; [done|].
  rewrite Hw1 in *. unfold received, read_outcome in *. rewrite Hm in Hout. rewrite Hw3, Hw1 in *. done.
Qed.

(** ** Writing *)
Definition sent (b : bytes) (k k' : K) : Prop :=
  flags k' = flags k /\ wire k' = {| p_in := p_in (wire k); p_out := p_out (wire k) ++ b |}.

Definition write_outcome (b : bytes) (to : Z) (waits : bool) (r n : Z) (oserr : option Z) : Prop :=
  0 <= n <= zlen b /\
  ((r = E_ok /\ n = zlen b) \/
   (r = E_write_failed /\ oserr = Some 0 /\ n < zlen b /\ waits = true /\ timed_out to)).

Lemma writen_loop_run to : forall fuel b m oserr k, b <> [] -> (patience k + length b < fuel)%nat ->
    is_Some oserr \/ nonblocking (flags k) = false ->
  exists r n oserr' k', writen_loop fuel b to m oserr (s, k) = (Ok (r, m + n, oserr'), (s, k')) /\ (oserr = Some 0 -> oserr' = Some 0) /\
    sent (take (Z.to_nat n) b) k k' /\ write_outcome b to (nonblocking (flags k)) r n oserr'.
Proof.
  induction fuel as [|fuel IH]; intros b m oserr k Hb Hf Ho; [lia|]. cbn [writen_loop]. unfold bind at 1.
  destruct (attempt_run POLLOUT to oserr (fun sd => sys_send sd b) k) as (k1 & (Hw1 & Hf1 & Hp1) & [(o1 & E & Hr & Ho1 & Hz1)|(Hnb & Ht & E)]).
  all: change is_writable with (is_ready POLLOUT); rewrite E; cbv iota beta.
  2: { destruct Ho as [[e ->]|Ho]; [|congruence]. change (map_system_error 0 E_write_failed) with E_write_failed.
    exists E_write_failed, 0, (Some 0), k1. rewrite Z.add_0_r. split; [done|]. split; [done|]. split.
    - split; [done|]. rewrite Hw1. cbn [Z.to_nat take]. rewrite app_nil_r. by destruct (wire k).
    - split; [split; [done|apply zlen_nonneg]|]. right. split_and!; [done..|by apply zlen_pos|done|done]. }
  pose proof (send_law b k1 Hb Hr) as Hl. destruct (sys_send sd b k1) as [[n|e] k2]; cbn [fst snd].
  - destruct Hl as (Hn & Hw2 & Hf2 & Hp2). rewrite Hw1 in Hw2. destruct (Z.eqb_spec n 0); [lia|].
    destruct (drop (Z.to_nat n) b) as [|c b'] eqn:Ed.
    + exists E_ok, n, o1, k2. assert (n = zlen b) as Hz.
      { assert (length (drop (Z.to_nat n) b) = 0%nat) as Hx by (by rewrite Ed). rewrite length_drop in Hx. unfold zlen in *. lia. }
      split; [done|]. split; [done|]. split; [split; [congruence|done]|]. split; [lia|by left].
    + assert (length (c :: b') < length b)%nat as Hlt by (rewrite <- Ed, length_drop; unfold zlen in *; lia).
      destruct (IH (c :: b') (m + n) o1 k2) as (r & n' & o' & k' & E' & Hz' & (Hf3 & Hw3) & Hrange & Hout); [done|lia| |].
      { destruct Ho as [Ho|Ho]; [left; auto|right; congruence]. }
      assert (zlen b = n + zlen (c :: b')) as Hz by (rewrite <- Ed; unfold zlen in *; rewrite length_drop; lia).
      exists r, (n + n'), o', k'. rewrite E'. split; [by rewrite Z.add_assoc|]. split; [auto|]. split.
      * split; [congruence|]. rewrite Hw3, Hw2. cbn [p_in p_out]. rewrite <- app_assoc. f_equal. f_equal.
        rewrite <- Ed. rewrite Z2Nat.inj_add by lia.
        rewrite <- (take_drop (Z.to_nat n) (take (Z.to_nat n + Z.to_nat n') b)).
        rewrite take_take, Nat.min_l by lia. rewrite skipn_firstn_comm. f_equal. f_equal. lia.
      * split; [lia|]. destruct Hout as [(-> & ->)|(-> & -> & Hlt' & Hnb & Ht)]; [left; split; [done|lia]|right].
        split_and!; [done..|lia|congruence|done].
  - destruct Hl as (-> & Hw2 & Hf2 & Hp2). change (EINTR =? EINTR) with true. cbv iota.
    destruct (IH b m o1 k2 Hb) as (r & n & o' & k' & E' & Hz' & Hsent & Hout); [lia| |].
    { destruct Ho as [Ho|Ho]; [left; auto|right; congruence]. }
    exists r, n, o', k'. split; [done|]. split; [auto|]. unfold sent in *.
    replace (flags k2) with (flags k) in * by congruence. replace (wire k2) with (wire k) in * by congruence. done.
Qed.

Lemma writen_run b to oserr k : b <> [] -> is_Some oserr \/ polled to k = false ->
  exists r n oserr' k', writen (Some b) true to oserr (s, k) = (Ok (r, Some n, oserr'), (s, k')) /\ (oserr = Some 0 -> oserr' = Some 0) /\
    sent (take (Z.to_nat n) b) k k' /\ write_outcome b to (polled to k) r n oserr'.
Proof.
  intros Hb Ho. unfold writen. destruct b as [|c b]; [done|]. cbn [negb].
  destruct (enter_run to k) as (reset & k1 & E1 & Hw1 & Hp1 & Hm & Hleave).
  destruct (writen_loop_run to (Datatypes.S (patience k + length (c :: b))) (c :: b) 0 oserr k1) as (r & n & o' & k2 & E2 & Hz & (Hf2 & Hw2) & Hout);
    [done|lia|by rewrite Hm|].
  destruct (Hleave k2 Hf2) as (k3 & E3 & Hw3 & Hf3).
  exists r, n, o', k3. unfold bind. cbn [snd]. rewrite E1, E2. cbv iota beta. rewrite E3. split; [done|]. split; [done|].
  rewrite Hm in Hout. split; [|done]. split; [done|]. by rewrite Hw3, Hw2, Hw1.
Qed.
End connected.

(** ** The contract of [readn] and [writen] *)

(** On a connected stream [readn] ends, whatever the system cuts the stream into
    and however often it interrupts.  It stores a prefix of what the peer sends,
    takes exactly that from the stream, and leaves the mode of the socket as it
    was.  It returns [E_ok] when it has all the bytes or the stream has ended;
    otherwise a wait was over, which comes back as [E_read_failed] with no system
    error.  Without waits it does what [pipe] does. *)
Theorem readn_refines_pipe {K} `{!SockCalls K} {sd} `{!Connected K sd} (s : socket) n to e k :
  m_sock s = sd -> 0 < n ->
  exists r d oserr' k', Sock.readn true true n to (Some e) (s, k) = (Ok (r, Some d, oserr'), (s, k')) /\
    flags k' = flags k /\ d `prefix_of` p_in (wire k) /\
    wire k' = {| p_in := drop (length d) (p_in (wire k)); p_out := p_out (wire k) |} /\
    ((r = E_ok /\ Nio.readn n (wire k) = ((E_ok, d, 0), wire k')) \/
     (r = E_read_failed /\ oserr' = Some 0 /\ zlen d < n /\ polled to k = true /\ timed_out (sd:=sd) to)).
Proof.
  intros Hs Hn. destruct (readn_run s Hs n to (Some e) k Hn) as (r & d & o & k' & E & _ & (Hpre & Hf & Hw) & Hout); [left; by eexists|].
  exists r, d, o, k'. split_and!; [done..|]. destruct Hout as [(-> & Hd)|Hout]; [left|by right]. split; [done|].
  rewrite Hw. cbn. destruct (Z.leb_spec n 0); [lia|]. rewrite Hd. f_equal. f_equal.
  rewrite length_take. destruct (decide (Z.to_nat n <= length (p_in (wire k)))%nat); [by rewrite Nat.min_l|].
  rewrite Nat.min_r, !drop_ge by lia. done.
Qed.

(** [writen] likewise: it ends, sends a prefix of the data and reports its
    length; all of it unless a wait was over. *)
Theorem writen_refines_pipe {K} `{!SockCalls K} {sd} `{!Connected K sd} (s : socket) b to e k :
  m_sock s = sd -> b <> [] ->
  exists r n oserr' k', Sock.writen (Some b) true to (Some e) (s, k) = (Ok (r, Some n, oserr'), (s, k')) /\
    flags k' = flags k /\ 0 <= n <= zlen b /\
    wire k' = {| p_in := p_in (wire k); p_out := p_out (wire k) ++ take (Z.to_nat n) b |} /\
    ((r = E_ok /\ Nio.writen b (wire k) = ((E_ok, n, 0), wire k')) \/
     (r = E_write_failed /\ oserr' = Some 0 /\ n < zlen b /\ polled to k = true /\ timed_out (sd:=sd) to)).
Proof.
  intros Hs Hb. destruct (writen_run s Hs b to (Some e) k Hb) as (r & n & o & k' & E & _ & (Hf & Hw) & Hr & Hout); [left; by eexists|].
  exists r, n, o, k'. split_and!; [done..|lia|lia|done|]. destruct Hout as [(-> & Hn)|Hout]; [left|by right]. split; [done|].
  rewrite Hw. subst n. destruct b; [done|]. cbn [Nio.writen pipe_transport]. do 2 f_equal.
  rewrite take_ge by (unfold zlen; lia). done.
Qed.

(** ** Connecting with a time limit

    The calls of a connection keep the flags of the descriptor. *)
Class Connecting (K : Type) `{SockCalls K} (sd : Z) `{!Connected K sd} := {
  connect_law a k : flags (fd:=sd) (sys_connect sd a k).2 = flags (fd:=sd) k;
  getsockopt_law l o k : flags (fd:=sd) (sys_getsockopt sd l o k).2 = flags (fd:=sd) k }.

Section connecting.
Context {K : Type} `{!SockCalls K} {sd : Z} `{!Connected K sd} `{!Connecting K sd} (s : socket) (Hs : m_sock s = sd).


(** What [connect] makes of the answers of the system: of the call [::connect],
    of the wait, and of the error of the socket. *)
Definition verdict (connected : answer unit) (event pending_error : Z) : res cpp_exn unit :=
  match connected with
  | inl _ => Ok tt
  | inr e =>
      if e =? EINPROGRESS then
        if event =? 0 then Throw (system_error ETIMEDOUT)
        else if Z.land event POLLERR =? 0 then Ok tt
        else if pending_error =? 0 then Ok tt else Throw (system_error pending_error)
      else Ok tt
  end.

Lemma connect_verdict sa saddr to k : Sa.get_sa sa = Ok saddr -> to <> POLL_WAIT_FOREVER -> nonblocking (flags k) = false ->
    (forall k1, exists v, (sys_getsockopt sd SOL_SOCKET SO_ERROR k1).1 = inl [v]) ->
  exists k1 k2 e k3 v k', nonblocking (flags (fd:=sd) k1) = true /\
    poll [(sd, Z.lor POLLOUT POLLERR)] to (sys_connect sd saddr k1).2 = (Ok (if decide (e = 0) then 0 else 1, [e], 0), k3) /\
    (sys_getsockopt sd SOL_SOCKET SO_ERROR k3).1 = inl [v] /\
    connect sa to (s, k) = (verdict (sys_connect sd saddr k1).1 e v, (s, k')) /\ flags (fd:=sd) k' = flags (fd:=sd) k /\ k2 = (sys_connect sd saddr k1).2.
Proof.
  intros Hsa Hto Hn Herr. destruct (enter_run s Hs to k) as (reset & k1 & E1 & _ & _ & Hm1 & Hleave). exists k1.
  unfold polled in Hm1. destruct (Z.eqb_spec to POLL_WAIT_FOREVER); [done|]. rewrite orb_true_r in Hm1.
  pose proof (connect_law saddr k1) as Hm2. destruct (sys_connect sd saddr k1) as [a k2] eqn:Ec. exists k2. cbn [fst snd] in *.
  destruct (poll_run (Z.lor POLLOUT POLLERR) to (Datatypes.S (patience k2)) k2 ltac:(lia)) as (e & k3 & Ep & (_ & Hm3 & _) & _). destruct (Herr k3) as [v Ev]. exists e, k3, v.
  pose proof (getsockopt_law SOL_SOCKET SO_ERROR k3) as Hm4.
  assert (forall k0, flags (fd:=sd) k0 = flags (fd:=sd) k2 -> exists k', leave reset (s, k0) = (Ok tt, (s, k')) /\ flags (fd:=sd) k' = flags (fd:=sd) k) as Hl.
  { intros k0 Hk0. destruct (Hleave k0 ltac:(congruence)) as (k' & ? & _ & ?). eauto. }
  unfold connect. unfold bind at 1. rewrite Hsa. unfold lift at 1. unfold bind at 1. rewrite E1. unfold bind at 1. unfold bind at 1.
  rewrite (call_run s Hs), Ec. cbv iota beta. cbn [fst snd]. destruct a as [[]|err].
  { destruct (Hl k2 eq_refl) as (k' & E' & Hm'). exists k'. split_and!; [done..| |done|done]. unfold ret. exact E'. }
  unfold verdict. unfold bind at 1. rewrite (blocking_run s Hs). rewrite Hm2, Hm1. cbn [negb]. unfold connect_in_progress.
  destruct (err =? EINPROGRESS).
  2: { destruct (Hl k2 eq_refl) as (k' & E' & Hm'). exists k'. split_and!; [done..| |done|done]. unfold ret. exact E'. }
  assert (poll [(sd, Z.lor POLLOUT POLLERR)] to k2 = (Ok (if decide (e = 0) then 0 else 1, [e], 0), k3)) as Epoll by exact Ep.
  unfold bind at 1, await_connection, bind at 1, kernel, focus. cbn [fst snd]. rewrite Hs, Epoll. cbv iota beta. cbn [fst].
  case_decide as He.
  { subst e. cbn. destruct (Hl k3 Hm3) as (k' & E' & Hm'). exists k'. split_and!; [done..| |done|done].
    unfold bind. destruct reset; cbn in E' |- *; [by rewrite E'|]. unfold ret in E'. cbn in E'. congruence. }
  change (1 =? SOCKET_ERROR) with false. change (1 =? 0) with false. cbv iota. destruct (Z.eqb_spec e 0); [done|].
  destruct (Z.land e POLLERR =? 0).
  { destruct (Hl k3 Hm3) as (k' & E' & Hm'). exists k'. split_and!; [done..| |done|done]. unfold ret. cbn. exact E'. }
  unfold error, getopt_int, getopt, must. unfold bind at 1. unfold bind at 1. rewrite (call_run s Hs).
  destruct (sys_getsockopt sd SOL_SOCKET SO_ERROR k3) as [a4 k4]. cbn [fst snd] in *. subst a4. unfold ret at 1. cbv iota beta.
  unfold ret at 1. destruct (Hl k4 ltac:(congruence)) as (k' & E' & Hm'). exists k'. split_and!; [done..| |done|done].
  destruct (v =? 0); cbn [negb]; unfold ret, bind; [exact E'|]. rewrite E'. done.
Qed.
End connecting.

(** With a time limit, [connect] sets the mode of the socket back in every case.
    While the connection is in progress it waits: when the time is over, or the
    socket reports an error, it throws that error, and otherwise it returns. *)
Theorem connect_waits {K} `{!SockCalls K} {sd} `{!Connected K sd} `{!Connecting K sd} (s : socket) sa saddr to k :
  m_sock s = sd -> Sa.get_sa sa = Ok saddr -> to <> POLL_WAIT_FOREVER -> nonblocking (flags k) = false ->
  (forall k1, (sys_connect sd saddr k1).1 = inr EINPROGRESS) ->
  (forall k1, exists v, (sys_getsockopt sd SOL_SOCKET SO_ERROR k1).1 = inl [v]) ->
  exists k2 e k3 v k', poll [(sd, Z.lor POLLOUT POLLERR)] to k2 = (Ok (if decide (e = 0) then 0 else 1, [e], 0), k3) /\
    (sys_getsockopt sd SOL_SOCKET SO_ERROR k3).1 = inl [v] /\ flags (fd:=sd) k' = flags (fd:=sd) k /\
    connect sa to (s, k) =
      ((if e =? 0 then Throw (system_error ETIMEDOUT)
        else if Z.land e POLLERR =? 0 then Ok tt
        else if v =? 0 then Ok tt else Throw (system_error v)), (s, k')).
Proof.
  intros Hs Hsa Hto Hn Hc Herr.
  destruct (connect_verdict s Hs sa saddr to k Hsa Hto Hn Herr) as (k1 & k2 & e & k3 & v & k' & _ & Ep & Ev & E & Hm & ->).
  rewrite Hc in E. unfold verdict in E. rewrite Z.eqb_refl in E. eauto 10.
Qed.

(** But an error that the system reports at once, such as a refused connection,
    is lost: [connect] with a time limit returns as if it had connected. *)
Theorem connect_error_lost {K} `{!SockCalls K} {sd} `{!Connected K sd} `{!Connecting K sd} (s : socket) sa saddr to k err :
  m_sock s = sd -> Sa.get_sa sa = Ok saddr -> to <> POLL_WAIT_FOREVER -> nonblocking (flags k) = false ->
  (forall k1, (sys_connect sd saddr k1).1 = inr err) -> err <> EINPROGRESS ->
  (forall k1, exists v, (sys_getsockopt sd SOL_SOCKET SO_ERROR k1).1 = inl [v]) ->
  exists k', connect sa to (s, k) = (Ok tt, (s, k')) /\ flags (fd:=sd) k' = flags (fd:=sd) k.
Proof.
  intros Hs Hsa Hto Hn Hc He Herr.
  destruct (connect_verdict s Hs sa saddr to k Hsa Hto Hn Herr) as (k1 & k2 & e & k3 & v & k' & _ & Ep & Ev & E & Hm & ->).
  rewrite Hc in E. unfold verdict in E. destruct (Z.eqb_spec err EINPROGRESS); [done|]. eauto.
Qed.

(** ** A system for examples

    A stream whose calls follow a script: a call is interrupted, moves a few
    bytes only, or a wait sees nothing for half a second. *)
Inductive weather := Interrupt | Short (n : nat) | Quiet.
Record wire_kernel := {
  w_in : bytes; w_out : bytes; w_flags : Z; w_script : list weather; w_opts : gmap (Z * Z) (list Z);
  w_connect : answer unit; w_event : Z }.
Definition w_next (k : wire_kernel) : wire_kernel :=
  {| w_in := w_in k; w_out := w_out k; w_flags := w_flags k; w_script := tail (w_script k); w_opts := w_opts k;
     w_connect := w_connect k; w_event := w_event k |}.
Definition w_with_flags (f : Z) (k : wire_kernel) : wire_kernel :=
  {| w_in := w_in k; w_out := w_out k; w_flags := f; w_script := w_script k; w_opts := w_opts k;
     w_connect := w_connect k; w_event := w_event k |}.
Definition w_move (inp out : bytes) (k : wire_kernel) : wire_kernel :=
  {| w_in := inp; w_out := out; w_flags := w_flags k; w_script := w_script k; w_opts := w_opts k;
     w_connect := w_connect k; w_event := w_event k |}.
Definition w_event_of (k : wire_kernel) : Z := if w_event k =? 0 then POLLIN else w_event k.
Definition ENOSYS : Z := 38.

(** How many of [n] bytes the next call moves. *)
Definition w_moves (n : nat) (k : wire_kernel) : nat := match w_script k with Short m :: _ => Nat.min (Datatypes.S m) n | _ => n end.

#[export] Instance wire_calls : SockCalls wire_kernel := {|
  sys_recv _ n k :=
    match w_script k with
    | Interrupt :: _ => (inr EINTR, w_next k)
    | _ => let d := take (w_moves (Z.to_nat n) k) (w_in k) in
           (inl d, w_next (w_move (drop (length d) (w_in k)) (w_out k) k))
    end;
  sys_send _ b k :=
    match w_script k with
    | Interrupt :: _ => (inr EINTR, w_next k)
    | _ => let n := w_moves (length b) k in
           (inl (Z.of_nat n), w_next (w_move (w_in k) (w_out k ++ take n b) k))
    end;
  sys_poll fds to k :=
    match w_script k with
    | Interrupt :: _ => (inr EINTR, w_next k)
    | Quiet :: _ => (inl [if (0 <=? to) && (to <=? 500) then 0 else w_event_of k], w_next k)
    | _ => (inl [w_event_of k], k)
    end;
  sys_getsockopt _ l o k := (inl (default [0] (w_opts k !! (l, o))), k);
  sys_setsockopt _ l o v k := (inl tt, {| w_in := w_in k; w_out := w_out k; w_flags := w_flags k; w_script := w_script k;
     w_opts := <[(l, o) := v]> (w_opts k); w_connect := w_connect k; w_event := w_event k |});
  sys_getfl _ k := (inl (w_flags k), k);
  sys_setfl _ f k := (inl tt, w_with_flags f k);
  sys_socket _ _ _ k := (inr ENOSYS, k);
  sys_socketpair k := (inr ENOSYS, k);
  sys_connect _ _ k := (w_connect k, k);
  sys_bind _ _ k := (inl tt, k);
  sys_listen _ _ k := (inl tt, k);
  sys_accept _ k := (inr ENOSYS, k);
  sys_getsockname _ k := (inr ENOSYS, k);
  sys_getpeername _ k := (inr ENOSYS, k);
  sys_shutdown _ _ k := (inl tt, k);
  sys_close _ k := (inl tt, k);
  patience k := length (w_script k) |}.

Lemma w_tail k : (length (tail (w_script k)) <= length (w_script k))%nat.
Proof. destruct (w_script k); cbn; lia. Qed.

#[export] Instance wire_connected sd : Connected wire_kernel sd.
Proof.
  refine {| wire k := {| p_in := w_in k; p_out := w_out k |}; flags := w_flags; ready _ _ := True |}.
  - done.
  - intros f k. by exists (w_with_flags f k).
  - intros ev to k. cbn. pose proof (w_tail k). destruct (w_script k) as [|[]?] eqn:E; cbn; rewrite ?E; cbn; split_and!; try done; cbn; try lia.
  - intros n k Hn _. cbn. pose proof (w_tail k) as Ht.
    destruct (w_script k) as [|c t] eqn:E; [|destruct c]; cbn; rewrite ?E; cbn [tail length] in *.
    2: { split_and!; [done..|lia]. }
    all: assert (0 < w_moves (Z.to_nat n) k <= Z.to_nat n)%nat as Hm by (unfold w_moves; rewrite E; lia).
    all: split_and!; [apply prefix_take|unfold zlen; rewrite length_take; lia| |done|done|lia].
    all: intros H0; destruct (w_in k); [done|]; destruct (w_moves (Z.to_nat n) k); [lia|discriminate].
  - intros b k Hb _. cbn. pose proof (w_tail k) as Ht. assert (0 < length b)%nat as Hl by (destruct b; [done|cbn; lia]).
    destruct (w_script k) as [|c t] eqn:E; [|destruct c]; cbn; rewrite ?E; cbn [tail length] in *.
    2: { split_and!; [done..|lia]. }
    all: assert (0 < w_moves (length b) k <= length b)%nat as Hm by (unfold w_moves; rewrite E; lia).
    all: split_and!; [lia|unfold zlen; lia|by rewrite Nat2Z.id|done|lia].
Defined.

#[export] Instance wire_connecting sd : Connecting wire_kernel sd.
Proof. by split. Qed.

Definition demo_socket : socket := {| m_sock := 7; m_type := tcp; m_local := None; m_peer := None; m_skip_close := false |}.
Definition demo_wire (script : list weather) : wire_kernel :=
  {| w_in := bytes_of "hello"; w_out := []; w_flags := 2; w_script := script; w_opts := ∅; w_connect := inl tt; w_event := 1 |}.

Lemma readn_refines_pipe_witness :
  let k := demo_wire [Short 2; Interrupt; Quiet] in
  (exists r d oserr' k', Sock.readn true true 5 100 (Some 0) (demo_socket, k) = (Ok (r, Some d, oserr'), (demo_socket, k')) /\
    flags (fd:=7) k' = flags (fd:=7) k /\ d `prefix_of` p_in (wire (fd:=7) k) /\
    wire (fd:=7) k' = {| p_in := drop (length d) (p_in (wire (fd:=7) k)); p_out := p_out (wire (fd:=7) k) |} /\
    ((r = E_ok /\ Nio.readn 5 (wire (fd:=7) k) = ((E_ok, d, 0), wire (fd:=7) k')) \/
     (r = E_read_failed /\ oserr' = Some 0 /\ zlen d < 5 /\ polled (sd:=7) 100 k = true /\ timed_out (sd:=7) 100))) /\
  (Sock.readn true true 5 POLL_WAIT_FOREVER (Some 0) (demo_socket, k)).1 = Ok (E_ok, Some (bytes_of "hello"), Some 0) /\
  (Sock.readn true true 5 100 (Some 0) (demo_socket, k)).1 = Ok (E_read_failed, Some (bytes_of "hel"), Some 0).
Proof.
  cbv zeta. split; [|split; vm_compute; reflexivity].
  exact (readn_refines_pipe (sd:=7) demo_socket 5 100 0 (demo_wire [Short 2; Interrupt; Quiet]) eq_refl eq_refl).
Defined.

Lemma writen_refines_pipe_witness :
  let k := demo_wire [Interrupt; Short 0; Interrupt] in
  exists r n oserr' k', Sock.writen (Some (bytes_of "abc")) true POLL_WAIT_FOREVER (Some 0) (demo_socket, k) = (Ok (r, Some n, oserr'), (demo_socket, k')) /\
    flags (fd:=7) k' = flags (fd:=7) k /\ 0 <= n <= zlen (bytes_of "abc") /\
    wire (fd:=7) k' = {| p_in := p_in (wire (fd:=7) k); p_out := p_out (wire (fd:=7) k) ++ take (Z.to_nat n) (bytes_of "abc") |} /\
    ((r = E_ok /\ Nio.writen (bytes_of "abc") (wire (fd:=7) k) = ((E_ok, n, 0), wire (fd:=7) k')) \/
     (r = E_write_failed /\ oserr' = Some 0 /\ n < zlen (bytes_of "abc") /\ polled (sd:=7) POLL_WAIT_FOREVER k = true /\
        timed_out (sd:=7) POLL_WAIT_FOREVER)).
Proof.
  cbv zeta. exact (writen_refines_pipe (sd:=7) demo_socket (bytes_of "abc") POLL_WAIT_FOREVER 0 (demo_wire _) eq_refl ltac:(discriminate)).
Defined.

(** A wait that is over with a null [oserr], the default of the parameter, is
    undefined: the null pointer is read. *)
Theorem wait_without_oserr {K} `{!SockCalls K} {sd} `{!Connected K sd} (s : socket) n to k :
  m_sock s = sd -> 0 < n -> nonblocking (flags (fd:=sd) k) = true ->
  (exists k', sys_poll [(sd, POLLIN)] to k = (inl [0], k')) ->
  (Sock.readn true true n to None (s, k)).1 = Ub.
Proof.
  intros Hs Hn Hb (k' & Ep). unfold readn. cbn [negb orb]. destruct (Z.leb_spec n 0); [lia|]. cbn [orb].
  assert (enter to (s, k) = (Ok false, (s, k))) as E.
  { unfold enter. destruct (_ =? to); [done|]. unfold bind. rewrite (blocking_run s Hs), Hb. done. }
  unfold bind at 1. rewrite E. unfold bind at 1. cbn [readn_loop snd]. unfold bind at 1. unfold attempt, bind at 1.
  rewrite (blocking_run s Hs), Hb. cbn [negb]. unfold bind at 1, is_readable, is_ready, bind at 1, kernel, focus. cbn [fst snd].
  unfold poll. cbn [poll_loop]. rewrite Hs, Ep. done.
Qed.

Lemma wait_without_oserr_witness : (Sock.readn true true 5 100 None (demo_socket, w_with_flags 2050 (demo_wire [Quiet]))).1 = Ub.
Proof.
  apply (wait_without_oserr (sd:=7) demo_socket); [reflexivity..|].
  eexists. reflexivity.
Defined.

Definition refused_wire (a : answer unit) (event : Z) : wire_kernel :=
  {| w_in := []; w_out := []; w_flags := 2; w_script := []; w_opts := {[(SOL_SOCKET, SO_ERROR) := [111]]}; w_connect := a; w_event := event |}.
Definition demo_address : memory := match Sa.init (v4_addr [127; 0; 0; 1]) 80 with Ok m => m | _ => [] end.

(** [ECONNREFUSED] is 111. *)
Example connect_refused_now : exists k', connect demo_address 1000 (demo_socket, refused_wire (inr 111) 4) = (Ok tt, (demo_socket, k')).
Proof. eexists. vm_compute. reflexivity. Qed.
Example connect_refused_later : exists k',
  connect demo_address 1000 (demo_socket, refused_wire (inr EINPROGRESS) 12) = (Throw (system_error 111), (demo_socket, k')).
Proof. eexists. vm_compute. reflexivity. Qed.

(** ** The timeout options *)

(** A time limit above a second is read back as it was set; below, the seconds
    are what happened to be in memory. *)
Theorem timeout_option_roundtrip {K} `{!SockCalls K} s stack opt to k k1 k2 :
  0 <= to < 2 ^ 53 -> - 2 ^ 53 < stack < 2 ^ 53 ->
  (let tv_sec := if 1000 <? to then Z.quot to 1000 else stack in
   sys_setsockopt (m_sock s) SOL_SOCKET opt [tv_sec; Z.rem to 1000 * 1000] k = (inl tt, k1) /\
   sys_getsockopt (m_sock s) SOL_SOCKET opt k1 = (inl [tv_sec; Z.rem to 1000 * 1000], k2)) ->
  exists v, (set_timeo stack opt to ;; get_timeo opt) (s, k) = (Ok v, (s, k2)) /\
    (if 1000 <? to then v = to else v = stack * 1000 + Z.rem to 1000).
Proof.
  cbv zeta. intros Hto Hst [E1 E2]. eexists. unfold set_timeo, get_timeo, setopt, getopt, must, call. unfold bind. cbn [fst snd].
  rewrite E1. cbn [fst snd ret]. rewrite E2. cbn [fst snd ret]. rewrite Z.quot_mul by lia.
  pose proof (Z.quot_rem' to 1000) as Hq. pose proof (Z.rem_bound_pos to 1000 ltac:(lia) ltac:(lia)).
  rewrite decide_True by (destruct (1000 <? to); lia). split; [reflexivity|].
  destruct (1000 <? to); lia.
Qed.
