(* ===== verification/SockLife.v ===== *)
(** * libnet: the life of socket objects

    Objects are made, moved, assigned, closed and destroyed; the system is its
    table of open descriptors.  No descriptor is closed twice; an assignment to an
    object with an open descriptor loses it.  Last, the listening sockets of the
    server (http/src/server/server.cpp). *)
From S2P Require Import Prelude Effects Numbers Bytes Text File Config Addr Sock.
Import Sock.

Definition EBADF : Z := 9.

(** [::close] on the table; the other calls have no part here. *)
#[export] Instance table_calls : SockCalls (gset Z) := {|
  sys_recv _ _ k := (inr EBADF, k); sys_send _ _ k := (inr EBADF, k); sys_poll _ _ k := (inr EBADF, k);
  sys_getsockopt _ _ _ k := (inl [SOCK_STREAM], k); sys_setsockopt _ _ _ _ k := (inl tt, k);
  sys_getfl _ k := (inl 0, k); sys_setfl _ _ k := (inl tt, k);
  sys_socket _ _ _ k := (let n := fresh k in (inl n, {[n]} ∪ k)); sys_socketpair k := (inr EBADF, k);
  sys_connect _ _ k := (inl tt, k); sys_bind _ _ k := (inl tt, k); sys_listen _ _ k := (inl tt, k);
  sys_accept _ k := (inr EBADF, k); sys_getsockname _ k := (inr EBADF, k); sys_getpeername _ k := (inr EBADF, k);
  sys_shutdown _ _ k := (inl tt, k);
  sys_close n k := if decide (n ∈ k) then (inl tt, k ∖ {[n]}) else (inr EBADF, k);
  patience _ := O |}.

Record world := { objects : gmap positive socket; open : gset Z }.
Definition start : world := {| objects := ∅; open := ∅ |}.

(** An object that closes its descriptor when it is destroyed. *)
Definition owner (s : socket) : Prop := m_skip_close s = false /\ m_sock s <> INVALID_SOCKET.

Inductive step : world -> world -> Prop :=
  (** [socket(family, type)], [accept]: a descriptor that was not open *)
  | step_create id o w : objects w !! id = None -> m_skip_close o = false -> 0 <= m_sock o -> m_sock o ∉ open w ->
      step w {| objects := <[id := o]> (objects w); open := {[m_sock o]} ∪ open w |}
  (** [socket(s, true)]: a descriptor that something else closes *)
  | step_borrow id o w : objects w !! id = None -> m_skip_close o = true ->
      step w {| objects := <[id := o]> (objects w); open := open w |}
  | step_move src dst s new rest w : objects w !! src = Some s -> objects w !! dst = None -> move s = (new, rest) ->
      step w {| objects := <[dst := new]> (<[src := rest]> (objects w)); open := open w |}
  | step_assign src dst s this new rest w : src <> dst -> objects w !! src = Some s -> objects w !! dst = Some this ->
      move_assign this s = (new, rest) ->
      step w {| objects := <[dst := new]> (<[src := rest]> (objects w)); open := open w |}
  (** [close()] of an object that is not borrowed *)
  | step_close id s r s' k' w : objects w !! id = Some s -> m_skip_close s = false -> close (s, open w) = (r, (s', k')) ->
      step w {| objects := <[id := s']> (objects w); open := k' |}
  | step_destroy id s r s' k' w : objects w !! id = Some s -> destroy (s, open w) = (r, (s', k')) ->
      step w {| objects := delete id (objects w); open := k' |}.

Inductive steps : world -> world -> Prop :=
  | steps_refl w : steps w w
  | steps_step w1 w2 w3 : steps w1 w2 -> step w2 w3 -> steps w1 w3.

(** Owners have open descriptors, each its own. *)
Record world_ok (w : world) : Prop := {
  open_valid n : n ∈ open w -> n <> INVALID_SOCKET;
  owned_open id s : objects w !! id = Some s -> owner s -> m_sock s ∈ open w;
  owned_once id1 id2 s1 s2 : objects w !! id1 = Some s1 -> objects w !! id2 = Some s2 -> owner s1 -> owner s2 ->
    m_sock s1 = m_sock s2 -> id1 = id2 }.

(** [n] is open and no object will close it. *)
Definition lost (n : Z) (w : world) : Prop :=
  n ∈ open w /\ forall id s, objects w !! id = Some s -> owner s -> m_sock s <> n.

Lemma close_owner s k : m_sock s ∈ k -> m_sock s <> INVALID_SOCKET -> close (s, k) = (Ok tt, (with_sock INVALID_SOCKET s, k ∖ {[m_sock s]})).
Proof.
  intros Hk Hs. unfold close. cbn [fst]. destruct (Z.eqb_spec (m_sock s) INVALID_SOCKET); [done|].
  unfold must, bind, call. cbn. rewrite decide_True by done. done.
Qed.

Lemma close_none s k : m_sock s = INVALID_SOCKET -> close (s, k) = (Ok tt, (s, k)).
Proof. intros E. unfold close. cbn [fst]. by rewrite E. Qed.

Lemma not_owner_invalid s : m_sock s = INVALID_SOCKET -> ~ owner s.
Proof. intros E [_ H]. done. Qed.

(** Moving keeps what is owned: it is what the source had. *)
Lemma move_owner s new rest : move s = (new, rest) -> ~ owner rest /\ m_sock new = m_sock s /\ m_skip_close new = m_skip_close s.
Proof. intros [= <- <-]. split; [by intros [_ H]|done]. Qed.


Lemma close_run w id s : world_ok w -> objects w !! id = Some s -> m_skip_close s = false ->
  exists s', close (s, open w) = (Ok tt, (s', open w ∖ {[m_sock s]})) /\ m_skip_close s' = false /\ ~ owner s'.
Proof.
  intros Hok Hid Hskip. destruct (decide (m_sock s = INVALID_SOCKET)) as [E|E].
  - exists s. rewrite close_none by done. split; [|split; [done|by apply not_owner_invalid]]. do 2 f_equal. rewrite E.
    assert (INVALID_SOCKET ∉ open w) by (intros Hi; by apply (open_valid _ Hok) in Hi). set_solver.
  - exists (with_sock INVALID_SOCKET s). rewrite close_owner; [|by eapply (owned_open _ Hok id); [|split]|done].
    split; [done|]. split; [done|]. by apply not_owner_invalid.
Qed.

(** After a close of [s] and with [id] no longer an owner, the rest is fine. *)
Lemma world_ok_without w id s objs : world_ok w -> objects w !! id = Some s -> m_skip_close s = false ->
  (forall id' s', objs !! id' = Some s' -> owner s' -> id' <> id /\ objects w !! id' = Some s') ->
  world_ok {| objects := objs; open := open w ∖ {[m_sock s]} |}.
Proof.
  intros Hok Hid Hskip Hobjs. split; cbn [objects open].
  - intros n Hn. apply (open_valid _ Hok). set_solver.
  - intros id' s' Hl Ho. destruct (Hobjs _ _ Hl Ho) as [Hne Hl']. pose proof (owned_open _ Hok _ _ Hl' Ho).
    apply elem_of_difference. split; [done|]. rewrite not_elem_of_singleton. intros E. apply Hne.
    eapply (owned_once _ Hok); [exact Hl'|exact Hid|done| |done]. split; [done|]. rewrite <- E. apply Ho.
  - intros id1 id2 s1 s2 H1 H2 O1 O2. destruct (Hobjs _ _ H1 O1) as [_ L1], (Hobjs _ _ H2 O2) as [_ L2].
    by eapply (owned_once _ Hok).
Qed.

(** [dst] takes what [src] had. *)
Lemma world_ok_moved w src dst s new rest : world_ok w -> objects w !! src = Some s -> src <> dst -> move s = (new, rest) ->
  world_ok {| objects := <[dst := new]> (<[src := rest]> (objects w)); open := open w |}.
Proof.
  intros Hok Hs Hne Hm. destruct (move_owner _ _ _ Hm) as (Hrest & Hsock & Hskip).
  assert (forall id o, <[dst := new]> (<[src := rest]> (objects w)) !! id = Some o -> owner o ->
    (id = dst /\ o = new /\ owner s) \/ (id <> dst /\ id <> src /\ objects w !! id = Some o)) as Hcases.
  { intros id o. rewrite !lookup_insert_Some. intros [[<- <-]|[Hd [[<- <-]|[Hsr Hl]]]] Ho; [|done|right; auto].
    left. split_and!; [done..|]. destruct Ho as [H1 H2]. split; congruence. }
  split; cbn [objects open].
  - apply (open_valid _ Hok).
  - intros id o Hl Ho. destruct (Hcases _ _ Hl Ho) as [(-> & -> & Hos)|(_ & _ & Hl')].
    + rewrite Hsock. by eapply (owned_open _ Hok).
    + by eapply (owned_open _ Hok).
  - intros id1 id2 s1 s2 H1 H2 O1 O2 E.
    destruct (Hcases _ _ H1 O1) as [(-> & -> & Hos)|(D1 & R1 & L1)], (Hcases _ _ H2 O2) as [(-> & -> & Hos')|(D2 & R2 & L2)]; [done|..].
    + exfalso. apply R2. symmetry. eapply (owned_once _ Hok); [exact Hs|exact L2|done..|congruence].
    + exfalso. apply R1. eapply (owned_once _ Hok); [exact L1|exact Hs|done..|congruence].
    + by eapply (owned_once _ Hok).
Qed.

Lemma destroy_run w id s : world_ok w -> objects w !! id = Some s ->
  exists s', destroy (s, open w) = (Ok tt, (s', if m_skip_close s then open w else open w ∖ {[m_sock s]})).
Proof.
  intros Hok Hid. unfold destroy. cbn [fst]. destruct (m_skip_close s) eqn:E; [by eexists|].
  destruct (close_run w id s Hok Hid E) as (s' & -> & _). by eexists.
Qed.

Lemma life_step_ok w1 w2 : world_ok w1 -> step w1 w2 -> world_ok w2.
Proof.
  intros Hok. inversion_clear 1 as [id o ? Hid Hskip H0 Hfresh|id o ? Hid Hskip|src dst s new rest ? Hs Hd Hm|src dst s this new rest ? Hne Hs Hd Hm
    |id s r s' k' ? Hid Hskip Hc|id s r s' k' ? Hid Hc].
  - split; cbn [objects open].
    + intros n Hn. unfold INVALID_SOCKET. apply elem_of_union in Hn as [Hn%elem_of_singleton|Hn]; [lia|by apply (open_valid _ Hok)].
    + intros id' s'. rewrite lookup_insert_Some. intros [[<- <-]|[? Hl]] Ho; [set_solver|].
      pose proof (owned_open _ Hok _ _ Hl Ho). set_solver.
    + intros id1 id2 s1 s2. rewrite !lookup_insert_Some. intros [[<- <-]|[? H1]] [[<- <-]|[? H2]] O1 O2 E; [done|..].
      * pose proof (owned_open _ Hok _ _ H2 O2). congruence.
      * pose proof (owned_open _ Hok _ _ H1 O1). congruence.
      * by eapply (owned_once _ Hok).
  - assert (~ owner o) as Hno by (intros [H _]; congruence). split; cbn [objects open].
    + apply (open_valid _ Hok).
    + intros id' s'. rewrite lookup_insert_Some. intros [[<- <-]|[? Hl]] Ho; [done|by eapply (owned_open _ Hok)].
    + intros id1 id2 s1 s2. rewrite !lookup_insert_Some. intros [[<- <-]|[? H1]] [[<- <-]|[? H2]] O1 O2 E; try done. by eapply (owned_once _ Hok).
  - apply (world_ok_moved _ _ _ s); [done..|congruence|done].
  - by apply (world_ok_moved _ _ _ s).
  - destruct (close_run _ id s Hok Hid Hskip) as (s2 & E & Hs2 & Hno). rewrite E in Hc. injection Hc as <- <- <-.
    apply (world_ok_without _ id s); [done..|]. intros id' s'. rewrite lookup_insert_Some. intros [[<- <-]|[? Hl]] Ho; done.
  - destruct (destroy_run _ id s Hok Hid) as (s2 & E). rewrite E in Hc. injection Hc as <- <- <-.
    destruct (m_skip_close s) eqn:Hskip.
    + split; cbn [objects open].
      * apply (open_valid _ Hok).
      * intros id' s'. rewrite lookup_delete_Some. intros [_ Hl]. by eapply (owned_open _ Hok).
      * intros id1 id2 s1 s2'. rewrite !lookup_delete_Some. intros [_ H1] [_ H2]. by eapply (owned_once _ Hok).
    + apply (world_ok_without _ id s); [done..|]. intros id' s'. rewrite lookup_delete_Some. intros [? Hl] Ho. split; [done|done].
Qed.

Lemma steps_ok w : steps start w -> world_ok w.
Proof.
  intros Hw. remember start as w0 eqn:E. induction Hw as [|w1 w2 w3 _ IH Hstep]; subst.
  - split; cbn; [set_solver|..]; intros *; by rewrite lookup_empty.
  - eapply life_step_ok; [by apply IH|done].
Qed.

Lemma step_lost n w1 w2 : lost n w1 -> world_ok w1 -> step w1 w2 -> lost n w2.
Proof.
  intros [Hn Hl] Hok Hstep. inversion Hstep as [id o ? Hid Hskip H0 Hfresh|id o ? Hid Hskip|src dst s new rest ? Hs Hd Hm|src dst s this new rest ? Hne Hs Hd Hm
    |id s r s' k' ? Hid Hskip Hc|id s r s' k' ? Hid Hc]; subst; split; cbn [objects open].
  - set_solver.
  - intros id' s'. rewrite lookup_insert_Some. intros [[<- <-]|[? Hl']] Ho; [congruence|by eapply Hl].
  - done.
  - intros id' s'. rewrite lookup_insert_Some. intros [[<- <-]|[? Hl']] Ho; [destruct Ho; congruence|by eapply Hl].
  - done.
  - destruct (move_owner _ _ _ Hm) as (Hrest & Hsock & Hsk).
    intros id' s'. rewrite !lookup_insert_Some. intros [[<- <-]|[? [[<- <-]|[? Hl']]]] Ho; [|done|by eapply Hl].
    rewrite Hsock. eapply Hl; [exact Hs|]. destruct Ho. split; congruence.
  - done.
  - destruct (move_owner _ _ _ Hm) as (Hrest & Hsock & Hsk).
    intros id' s'. rewrite !lookup_insert_Some. intros [[<- <-]|[? [[<- <-]|[? Hl']]]] Ho; [|done|by eapply Hl].
    rewrite Hsock. eapply Hl; [exact Hs|]. destruct Ho. split; congruence.
  - destruct (close_run _ id s Hok Hid Hskip) as (s2 & E & _ & _). rewrite E in Hc. injection Hc as _ _ <-.
    destruct (decide (m_sock s = INVALID_SOCKET)) as [Ei|Ei].
    + pose proof (open_valid _ Hok _ Hn). set_solver.
    + pose proof (Hl id s Hid ltac:(by split)). set_solver.
  - destruct (close_run _ id s Hok Hid Hskip) as (s2 & E & _ & Hno). rewrite E in Hc. injection Hc as _ <- _.
    intros id' s'. rewrite lookup_insert_Some. intros [[<- <-]|[? Hl']] Ho; [done|by eapply Hl].
  - destruct (destroy_run _ id s Hok Hid) as (s2 & E). rewrite E in Hc. injection Hc as _ _ <-.
    destruct (m_skip_close s) eqn:Hskip; [done|]. destruct (decide (m_sock s = INVALID_SOCKET)) as [Ei|Ei].
    + pose proof (open_valid _ Hok _ Hn). set_solver.
    + pose proof (Hl id s Hid ltac:(by split)). set_solver.
  - intros id' o'. rewrite lookup_delete_Some. intros [_ Hl']. by eapply Hl.
Qed.

(** C23. However sockets are made, moved, assigned, closed and destroyed, as long as
    borrowed descriptors are not closed explicitly: every owner's descriptor is
    open and its own, so that closing or destroying an object never fails and
    closes nothing that another object uses. *)
Theorem descriptors_closed_once w : steps start w -> forall id s, objects w !! id = Some s ->
  exists s', destroy (s, open w) = (Ok tt, (s', if m_skip_close s then open w else open w ∖ {[m_sock s]})) /\
    (m_skip_close s = false -> exists s2, close (s, open w) = (Ok tt, (s2, open w ∖ {[m_sock s]})) /\ m_sock s2 = INVALID_SOCKET) /\
    forall id' o, id' <> id -> objects w !! id' = Some o -> owner o ->
      m_sock o ∈ (if m_skip_close s then open w else open w ∖ {[m_sock s]}).
Proof.
  intros Hw id s Hid. pose proof (steps_ok w Hw) as Hok. destruct (destroy_run w id s Hok Hid) as (s' & E). exists s'. split; [done|].
  split.
  - intros Hskip. destruct (close_run w id s Hok Hid Hskip) as (s2 & E2 & Hs2 & Hno). exists s2. split; [done|].
    destruct (decide (m_sock s2 = INVALID_SOCKET)); [done|]. exfalso. by apply Hno.
  - intros id' o Hne Ho Hown. pose proof (owned_open _ Hok _ _ Ho Hown). destruct (m_skip_close s) eqn:Hskip; [done|].
    apply elem_of_difference. split; [done|]. rewrite not_elem_of_singleton. intros Eq. apply Hne.
    eapply (owned_once _ Hok); [exact Ho|exact Hid|done| |done]. split; [done|]. rewrite <- Eq. apply Hown.
Qed.

(** An assignment to an object with a descriptor loses the descriptor: it stays
    open whatever happens later. *)
Theorem assignment_leaks w src dst s this new rest w' : steps start w -> src <> dst ->
  objects w !! src = Some s -> objects w !! dst = Some this -> owner this -> move_assign this s = (new, rest) ->
  steps {| objects := <[dst := new]> (<[src := rest]> (objects w)); open := open w |} w' ->
  m_sock this ∈ open w' /\ forall id o, objects w' !! id = Some o -> owner o -> m_sock o <> m_sock this.
Proof.
  intros Hw Hne Hs Hd Hthis Hm Hw'. pose proof (steps_ok w Hw) as Hok.
  destruct (move_owner _ _ _ Hm) as (Hrest & Hsock & Hsk).
  assert (world_ok {| objects := <[dst := new]> (<[src := rest]> (objects w)); open := open w |}) as Hok1 by (by apply (world_ok_moved _ _ _ s)).
  assert (lost (m_sock this) {| objects := <[dst := new]> (<[src := rest]> (objects w)); open := open w |}) as Hlost.
  { split; cbn [objects open]; [by eapply (owned_open _ Hok)|].
    intros id o. rewrite !lookup_insert_Some. intros [[<- <-]|[Hd' [[<- <-]|[Hs' Hl]]]] Ho E; [|done|].
    - rewrite Hsock in E. apply Hne. eapply (owned_once _ Hok); [exact Hs|exact Hd| |done|done]. destruct Ho. split; congruence.
    - apply Hd'. symmetry. by eapply (owned_once _ Hok). }
  remember {| objects := <[dst := new]> (<[src := rest]> (objects w)); open := open w |} as w1 eqn:E1. clear E1.
  assert (lost (m_sock this) w' /\ world_ok w') as [[? ?] _]; [|done].
  induction Hw' as [|w1 w2 w3 _ IH Hstep]; [done|]. destruct (IH Hok1 Hlost) as [Hl2 Hok2].
  split; [by eapply step_lost|by eapply life_step_ok].
Qed.

Definition demo_owner (n : Z) : socket := {| m_sock := n; m_type := tcp; m_local := None; m_peer := None; m_skip_close := false |}.
Definition demo_world : world :=
  {| objects := <[2%positive := demo_owner 4]> (<[1%positive := demo_owner 3]> ∅); open := {[4]} ∪ ({[3]} ∪ ∅) |}.

Lemma demo_steps : steps start demo_world.
Proof.
  eapply steps_step; [eapply steps_step; [apply steps_refl|]|].
  - apply (step_create 1 (demo_owner 3) start); [reflexivity|reflexivity|cbn; lia|cbn; set_solver].
  - apply (step_create 2 (demo_owner 4) {| objects := _; open := _ |}); [reflexivity|reflexivity|cbn; lia|cbn; set_solver].
Qed.

Lemma descriptors_closed_once_witness :
  exists s', destroy (demo_owner 3, open demo_world) = (Ok tt, (s', open demo_world ∖ {[3]})) /\
    (false = false -> exists s2, close (demo_owner 3, open demo_world) = (Ok tt, (s2, open demo_world ∖ {[3]})) /\ m_sock s2 = INVALID_SOCKET) /\
    forall id' o, id' <> 1%positive -> objects demo_world !! id' = Some o -> owner o -> m_sock o ∈ open demo_world ∖ {[3]}.
Proof. exact (descriptors_closed_once demo_world demo_steps 1 (demo_owner 3) eq_refl). Defined.

Lemma assignment_leaks_witness : forall w',
  steps {| objects := <[1%positive := demo_owner 4]> (<[2%positive := with_sock INVALID_SOCKET (demo_owner 4)]> (objects demo_world)); open := open demo_world |} w' ->
  3 ∈ open w' /\ forall id o, objects w' !! id = Some o -> owner o -> m_sock o <> 3.
Proof.
  intros w'. apply (assignment_leaks demo_world 2 1 (demo_owner 4) (demo_owner 3)); [exact demo_steps|discriminate|reflexivity|reflexivity| |reflexivity].
  split; [reflexivity|discriminate].
Defined.

(** ** The listening sockets of the server (http/src/server/server.cpp) *)

(** [server::setup_socket(port)]; the null pointer is [None].  The object is
    destroyed on the way out of the block, before the exception is caught; the
    program ends, here [Ub], when its descriptor cannot be closed then. *)
Definition setup_socket `{SockCalls K} `{NetCalls K} (port : Z) : M cpp_exn K (option socket) :=
  catch (
    let! s := create AF_INET tcp in
    fun k =>
      match (set_keepalive true;; set_tcpnodelay true;; set_reuseaddr true;; set_blocking false;;
             bind_family AF_INET port;; listen 20) (s, k) with
      | (Ok _, (s, k)) => (Ok (Some s), k)
      | (Throw e, st) =>
          match destroy st with
          | (Ok _, (_, k)) => (Throw e, k)
          | (_, (_, k)) => (Ub, k)
          end
      | (Ub, (_, k)) => (Ub, k)
      | (Diverge, (_, k)) => (Diverge, k)
      end)
    (fun e => match e with system_error _ => ret None | _ => throw e end).

(** The methods that leave the object alone. *)
Definition fixed `{SockCalls K} {A} (m : M cpp_exn (socket * K) A) : Prop := forall st, (m st).2.1 = st.1.

Section fixed.
Context `{SockCalls K} `{!NetCalls K}.

Create HintDb fixed.
Lemma fixed_ret {A} (a : A) : fixed (K:=K) (ret a). Proof. done. Qed.
Lemma fixed_throw {A} e : fixed (K:=K) (A:=A) (throw e). Proof. done. Qed.
Lemma fixed_lift {A} (r : res cpp_exn A) : fixed (K:=K) (lift r). Proof. by intros st; destruct r. Qed.
Lemma fixed_bind {A B} (m : M cpp_exn (socket * K) A) (f : A -> M cpp_exn (socket * K) B) : fixed m -> (forall a, fixed (f a)) -> fixed (bind m f).
Proof.
  intros Hm Hf st. unfold bind. specialize (Hm st). destruct (m st) as [[a| | |] st']; cbn in *; [|done..]. by rewrite (Hf a st').
Qed.
Lemma fixed_must {A} (f : Z -> K -> answer A * K) : fixed (must f).
Proof. intros [s k]. unfold must, bind, call. cbn. by destruct (f (m_sock s) k) as [[] ?]. Qed.
Lemma fixed_kernel {A} (m : M cpp_exn K A) : fixed (kernel m).
Proof. intros [s k]. unfold kernel, focus. cbn. by destruct (m k). Qed.
Hint Resolve fixed_ret fixed_throw fixed_lift fixed_bind fixed_must fixed_kernel : fixed.

Lemma fixed_set_blocking b : fixed (set_blocking (K:=K) b).
Proof. apply fixed_bind; [auto with fixed|]. intros flags. repeat case_match; auto with fixed. Qed.
Lemma fixed_bind_family family port : fixed (bind_family (K:=K) family port).
Proof. apply fixed_bind; [auto with fixed|]. intros [|sa sas]; [auto with fixed|]. apply fixed_bind; auto with fixed. Qed.
Hint Resolve fixed_set_blocking fixed_bind_family : fixed.

(** The descriptor is given to the caller or to [::close]: there is a socket
    that owns it, or it has been closed, or there was none. *)
Theorem setup_socket_owns port k r k' : setup_socket port k = (r, k') ->
  match r with
  | Ok (Some s) => exists k1, create AF_INET tcp k = (Ok s, k1)
  | Ok None | Throw _ => (exists e, create AF_INET tcp k = (Throw e, k')) \/
      exists s k1 k2, create AF_INET tcp k = (Ok s, k1) /\ (m_sock s = INVALID_SOCKET /\ k' = k2 \/ sys_close (m_sock s) k2 = (inl tt, k'))
  | _ => True
  end.
Proof.
  unfold setup_socket, catch, bind at 1. destruct (create AF_INET tcp k) as [[s|e| |] k1] eqn:Ec.
  - match goal with |- context [match ?m (s, k1) with _ => _ end] => assert (fixed m) as Hfix by
      (repeat first [apply fixed_set_blocking|apply fixed_bind_family|exact (fixed_must _)|apply fixed_bind; [|intros ?]]);
      specialize (Hfix (s, k1)); destruct (m (s, k1)) as [[u|e| |] [s' k2]] end; cbn in Hfix; subst s'.
    + intros [= <- <-]. by exists k1.
    + unfold destroy. cbn [fst]. assert (m_skip_close s = false) as ->.
      { unfold create in Ec. cbn in Ec. destruct (sys_socket _ _ _ _) as [[] ?]; [by injection Ec as <- _|done]. }
      unfold close. cbn [fst]. destruct (Z.eqb_spec (m_sock s) INVALID_SOCKET) as [Es|Es].
      * intros E. assert (k' = k2 /\ match r with Ok None | Throw _ => True | _ => False end) as [-> Hr].
        { destruct e; injection E as <- <-; done. }
        destruct r as [[?|]|? | |]; try done; right; exists s, k1, k2; auto.
      * unfold must, bind, call. cbn. destruct (sys_close (m_sock s) k2) as [[[]|e2] k3] eqn:Ecl; cbn.
        -- intros E. assert (k' = k3 /\ match r with Ok None | Throw _ => True | _ => False end) as [-> Hr].
           { destruct e; injection E as <- <-; done. }
           destruct r as [[?|]|? | |]; try done; right; exists s, k1, k2; auto.
        -- by intros [= <- <-].
    + by intros [= <- <-].
    + by intros [= <- <-].
  - intros E. assert (k' = k1 /\ match r with Ok None | Throw _ => True | _ => False end) as [-> Hr].
    { destruct e; injection E as <- <-; done. }
    destruct r as [[?|]|? | |]; try done; left; by exists e.
  - by intros [= <- <-].
  - by intros [= <- <-].
Qed.
End fixed.

(** The address of every interface with a port, and a system where the port is
    taken ([EADDRINUSE] is 98): no descriptor is left. *)
#[local] Instance any_address : NetCalls (gset Z) := {|
  inet_pton _ _ := None; inet_ntop _ _ := None; net_errno _ := 0;
  getaddrinfo _ _ _ k := ((0, [{| ai_family := AF_INET; ai_addr := le 2 AF_INET ++ [0; 80] ++ replicate 12 0; ai_canonname := None |}]), k) |}.
Definition busy_calls : SockCalls (gset Z) := {|
  sys_recv := sys_recv; sys_send := sys_send; sys_poll := sys_poll; sys_getsockopt := sys_getsockopt; sys_setsockopt := sys_setsockopt;
  sys_getfl := sys_getfl; sys_setfl := sys_setfl; sys_socket := sys_socket; sys_socketpair := sys_socketpair; sys_connect := sys_connect;
  sys_bind _ _ k := (inr 98, k); sys_listen := sys_listen; sys_accept := sys_accept; sys_getsockname := sys_getsockname;
  sys_getpeername := sys_getpeername; sys_shutdown := sys_shutdown; sys_close := sys_close; patience := patience |}.

Lemma setup_socket_owns_witness :
  (exists s k, setup_socket 80 (∅ : gset Z) = (Ok (Some s), k) /\ elements k = [m_sock s]) /\
  ((exists e, create AF_INET tcp (∅ : gset Z) = (Throw e, ∅)) \/
   exists s k1 k2, create AF_INET tcp ∅ = (Ok s, k1) /\ (m_sock s = INVALID_SOCKET /\ ∅ = k2 \/ sys_close (m_sock s) k2 = (inl tt, ∅))).
Proof.
  split; [do 2 eexists; split; vm_compute; reflexivity|].
  apply (setup_socket_owns (H:=busy_calls) 80 (∅ : gset Z) (Ok None) ∅). vm_compute. reflexivity.
Defined.
