(* ===== verification/SocketTransport.v ===== *)
(** * From a pipe to a socket

    The code over [Transport] cannot tell a connection from what a homomorphism
    makes of it.  [wire], what a connected socket is to its peer, is one; so the
    theorems on messages, proved for [pipe], hold for sockets with short
    transfers and interruptions. *)
From S2P Require Import Prelude Effects Numbers UriText Uri.
From S2P Require Import Text Timeutil Scanner Hval Headers Nio Body Message Transmit.
From S2P Require File.
From S2P Require Import UriRoundTrip.
From S2P Require Import HvalText HeadersSpec.
From S2P Require Import TransmitFacts Addr Sock.

(** ** Computations on related objects *)
Definition res_map {E A B} (g : A -> B) (r : res E A) : res E B :=
  match r with Ok a => Ok (g a) | Throw e => Throw e | Ub => Ub | Diverge => Diverge end.

(** [m2] on the image of an object does what [m1] does on the object. *)
Definition sim {E S1 S2 A1 A2} (h : S1 -> S2) (g : A1 -> A2) (m1 : M E S1 A1) (m2 : M E S2 A2) : Prop :=
  forall s, m2 (h s) = (res_map g (m1 s).1, h (m1 s).2).

Lemma res_map_id {E A} (r : res E A) : res_map (fun a => a) r = r.
Proof. by destruct r. Qed.

Section sim.
Context {E S1 S2 : Type} (h : S1 -> S2).

Lemma sim_ret {A B} (g : A -> B) a b : g a = b -> sim (E:=E) h g (ret a) (ret b).
Proof. intros <- s. done. Qed.
Lemma sim_throw {A B} (g : A -> B) (e : E) : sim h g (throw e) (throw e).
Proof. intros s. done. Qed.
Lemma sim_diverge {A B} (g : A -> B) : sim (E:=E) h g diverge diverge.
Proof. intros s. done. Qed.
Lemma sim_lift {A B} (g : A -> B) (r1 : res E A) r2 : res_map g r1 = r2 -> sim h g (lift r1) (lift r2).
Proof. intros <- s. done. Qed.
Lemma sim_lift_id {A} (r : res E A) : sim h (fun a => a) (lift r) (lift r).
Proof. intros s. unfold lift. cbn. by rewrite res_map_id. Qed.
Lemma sim_gets {A B} (g : A -> B) f1 f2 : (forall s, g (f1 s) = f2 (h s)) -> sim (E:=E) h g (gets f1) (gets f2).
Proof. intros H s. unfold gets. cbn. by rewrite H. Qed.
Lemma sim_modify f1 f2 : (forall s, h (f1 s) = f2 (h s)) -> sim (E:=E) h (fun u => u) (modify f1) (modify f2).
Proof. intros H s. unfold modify. cbn. by rewrite H. Qed.
Lemma sim_bind {A B C D} (g : A -> B) (f : C -> D) (m1 : M E S1 A) m2 k1 k2 :
  sim h g m1 m2 -> (forall a, sim h f (k1 a) (k2 (g a))) -> sim h f (bind m1 k1) (bind m2 k2).
Proof. intros Hm Hk s. unfold bind. rewrite Hm. destruct (m1 s) as [[a| | |] s']; cbn; [apply Hk|done..]. Qed.
Lemma sim_eq {A B} (g : A -> B) m1 m2 s : sim (E:=E) h g m1 m2 -> m2 (h s) = (res_map g (m1 s).1, h (m1 s).2).
Proof. done. Qed.
End sim.

(** A member of related objects. *)
Lemma sim_focus {E S1 S2 T1 T2 A B} (h : S1 -> S2) (h' : T1 -> T2) (g : A -> B) get1 set1 get2 set2 (m1 : M E T1 A) m2 :
  (forall s, get2 (h s) = h' (get1 s)) -> (forall t s, set2 (h' t) (h s) = h (set1 t s)) ->
  sim h' g m1 m2 -> sim h g (focus get1 set1 m1) (focus get2 set2 m2).
Proof. intros Hg Hs Hm s. unfold focus. rewrite Hg, Hm. destruct (m1 (get1 s)) as [r t]. cbn. by rewrite Hs. Qed.

Create HintDb sim.
#[export] Hint Resolve sim_ret sim_throw sim_diverge sim_lift sim_lift_id sim_gets sim_modify : sim.

(** The steps of a proof about code that is the same on both sides. *)
Ltac sim_step :=
  match goal with
  | |- sim _ _ (bind _ _) (bind _ _) => eapply sim_bind; [eauto with sim|intros ?; cbv beta]
  | |- sim _ _ (if ?b then _ else _) (if ?b then _ else _) => destruct b
  | |- sim _ _ (match ?p with (_, _) => _ end) (match ?p with (_, _) => _ end) => destruct p
  | |- sim _ _ _ _ => solve [eauto with sim]
  end.
Ltac sim_run := repeat sim_step.

(** ** Homomorphisms of connections *)
Class TransportHom {T1 T2} `{Transport T1} `{Transport T2} (h : T1 -> T2) := {
  hom_readn n t : readn n (h t) = ((readn n t).1, h (readn n t).2);
  hom_writen b t : writen b (h t) = ((writen b t).1, h (writen b t).2);
  hom_pending t : pending (h t) = pending t }.

Section nio.
Context {T1 T2} `{Transport T1} `{Transport T2} (h : T1 -> T2) `{!TransportHom h}.

Definition nio_map (io : nio T1) : nio T2 :=
  {| m_buffered := m_buffered io; m_buf := m_buf io; m_max := m_max io; m_len := m_len io; m_idx := m_idx io; m_dev := h (m_dev io) |}.
Definition out_map {A} (o : option (A * nio T1)) : option (A * nio T2) :=
  match o with Some (a, io) => Some (a, nio_map io) | None => None end.

Lemma nio_map_init t : nio_map (nio_init t) = nio_init (h t).
Proof. done. Qed.

Lemma read_buffered_loop_hom : forall fuel n out io,
  read_buffered_loop fuel n out (nio_map io) = out_map (read_buffered_loop fuel n out io).
Proof.
  induction fuel as [|fuel IH]; intros n out io; [done|]. cbn [read_buffered_loop]. destruct (n =? 0); [done|].
  change (m_idx (nio_map io)) with (m_idx io). change (m_len (nio_map io)) with (m_len io). change (m_buf (nio_map io)) with (m_buf io).
  cbv zeta. set (m := if m_idx io <? m_len io then _ else _). change (with_idx (nio_map io) (m_idx io + m)) with (nio_map (with_idx io (m_idx io + m))).
  destruct (n - m =? 0); [done|].
  change (m_idx (nio_map ?x)) with (m_idx x).
  destruct (m_len (with_idx io (m_idx io + m)) <=? m_idx (with_idx io (m_idx io + m))) eqn:El; rewrite ?El.
  { cbn [m_len m_idx nio_map with_idx] in *. rewrite El. done. }
  cbn [m_len m_idx m_dev m_max m_buf m_buffered nio_map with_idx] in *. rewrite El, hom_readn.
  destruct (readn (m_max io) (m_dev io)) as [[[r data] e] dev]. cbn [fst snd].
  destruct (_ || _); [done|].
  rewrite <- IH. done.
Qed.

Lemma nio_read_hom n io : nio_read n (nio_map io) = out_map (nio_read n io).
Proof.
  unfold nio_read. change (m_buffered (nio_map io)) with (m_buffered io). destruct (m_buffered io).
  - unfold read_buffered. destruct (n <=? 0); [done|]. apply read_buffered_loop_hom.
  - cbn [m_dev nio_map]. rewrite hom_readn. by destruct (readn n (m_dev io)) as [r dev].
Qed.

Lemma nio_write_hom b io : nio_write b (nio_map io) = ((nio_write b io).1, nio_map (nio_write b io).2).
Proof. unfold nio_write. cbn [m_dev nio_map]. rewrite hom_writen. by destruct (writen b (m_dev io)) as [r dev]. Qed.

Lemma get_char_hom io : get_char (nio_map io) = out_map (get_char io).
Proof.
  unfold get_char. rewrite nio_read_hom. destruct (nio_read 1 io) as [[[[r d] e] io']|]; [|done]. cbn [out_map].
  destruct (r =? File.E_ok); [|done]. by destruct d as [|c [|]].
Qed.

Lemma readline_loop_hom : forall fuel line io, readline_loop fuel line (nio_map io) = out_map (readline_loop fuel line io).
Proof.
  induction fuel as [|fuel IH]; intros line io; [done|]. cbn [readline_loop]. rewrite nio_read_hom.
  destruct (nio_read 1 io) as [[[[r d] e] io']|]; [|done]. cbn [out_map]. destruct (negb (r =? File.E_ok)); [done|].
  destruct d as [|c d]; [done|]. destruct (c =? 10); [done|]. apply IH.
Qed.

Lemma nio_readline_hom io : nio_readline (nio_map io) = out_map (nio_readline io).
Proof. unfold nio_readline. cbn [m_dev m_len m_idx nio_map]. rewrite hom_pending. apply readline_loop_hom. Qed.
End nio.

(** ** Sources and bodies *)
Class SourceHom {X1 X2} `{Source X1} `{Source X2} (h : X1 -> X2) := {
  hom_readline : sim h (fun a => a) src_readline src_readline;
  hom_read n : sim h (fun a => a) (src_read n) (src_read n);
  hom_getc : sim h (fun a => a) src_getc src_getc }.
#[export] Hint Resolve hom_readline hom_read hom_getc : sim.

#[export] Instance nio_source_hom {T1 T2} `{Transport T1} `{Transport T2} (h : T1 -> T2) `{!TransportHom h} : SourceHom (nio_map h).
Proof.
  split; intros *; intros io; cbn [src_readline src_read src_getc nio_source].
  - rewrite (nio_readline_hom h). destruct (nio_readline io) as [[[[r d] e] io']|]; [|done]. cbn. by destruct (r =? File.E_ok).
  - rewrite (nio_read_hom h). destruct (nio_read n io) as [[[[r d] e] io']|]; [|done]. cbn. by destruct (r =? File.E_ok).
  - rewrite (get_char_hom h). destruct (get_char io) as [[[[r d] e] io']|]; [|done]. cbn. by destruct (r =? File.E_ok).
Qed.

Section stream.
Context {X1 X2} `{Source X1} `{Source X2} (h : X1 -> X2) `{!SourceHom h}.

Definition stream_map (b : stream_body X1) : stream_body X2 :=
  {| b_src := h (b_src b); b_size := b_size b; b_read := b_read b; b_chunked := b_chunked b; b_extensions := b_extensions b |}.

Lemma sim_from_src {A} (m1 : M cpp_exn X1 A) m2 : sim h (fun a => a) m1 m2 -> sim stream_map (fun a => a) (from_src m1) (from_src m2).
Proof. intros Hm. by apply (sim_focus _ h). Qed.
Lemma sim_set_size n : sim stream_map (fun a => a) (set_size n) (set_size n).
Proof. by apply sim_modify. Qed.
Lemma sim_add_read n : sim stream_map (fun a => a) (add_read n) (add_read n).
Proof. by apply sim_modify. Qed.
Lemma sim_set_extensions ps : sim stream_map (fun a => a) (set_extensions ps) (set_extensions ps).
Proof. by apply sim_modify. Qed.
Lemma sim_on_scanner {A} (m : M cpp_exn Scanner.scanner A) scn : sim stream_map (fun a => a) (on_scanner m scn) (on_scanner m scn).
Proof. intros b. unfold on_scanner. by destruct (m scn) as [[a| | |] scn']. Qed.
Hint Resolve sim_from_src sim_set_size sim_add_read sim_set_extensions sim_on_scanner : sim.

Lemma sim_this {A} (m : stream_body X1 -> M cpp_exn (stream_body X1) A) m2 :
  (forall b, sim stream_map (fun a => a) (m b) (m2 (stream_map b))) ->
  sim stream_map (fun a => a) (bind (gets (fun b => b)) m) (bind (gets (fun b => b)) m2).
Proof. intros Hm s. unfold bind, gets. apply Hm. Qed.

Lemma sim_expect_crlf : sim stream_map (fun a => a) expect_crlf expect_crlf.
Proof. unfold expect_crlf. sim_run. Qed.
Hint Resolve sim_expect_crlf : sim.

Lemma sim_has_next : sim stream_map (fun a => a) stream_has_next stream_has_next.
Proof.
  unfold stream_has_next. apply sim_this. intros b. cbn [b_read b_size b_chunked stream_map].
  destruct (_ <? _); [sim_run|]. apply (sim_bind _ (fun a => a)); [|intros []; apply sim_this; intros b'; apply sim_ret; done].
  destruct (b_chunked b); [|sim_run]. sim_step. apply (sim_bind _ (fun a => a)); [eauto with sim|]. intros [[size|] scn]; cbv iota beta; [|sim_run].
  apply (sim_bind _ (fun a => a)); [eauto with sim|]. intros _. apply (sim_bind _ (fun a => a)); [eauto with sim|]. intros [semi scn1]. cbv iota beta.
  apply (sim_bind _ (fun a => a)).
  - destruct semi; [|sim_run]. sim_step. apply (sim_bind _ (fun a => a)); [eauto with sim|]. intros [[found ps] scn']. sim_run.
  - intros scn2. apply (sim_bind _ (fun a => a)); [eauto with sim|]. intros [eol scn']. sim_run.
Qed.

Lemma sim_next : sim stream_map (fun a => a) stream_next stream_next.
Proof.
  unfold stream_next. apply sim_this. intros b. cbn [b_read b_size b_chunked stream_map]. cbv zeta.
  sim_step. sim_step. apply (sim_this (fun b => (if b_chunked b && (b_size b <=? b_read b) then expect_crlf else ret tt) ;; ret a)).
  intros b'. cbn [b_read b_size b_chunked stream_map]. sim_run.
Qed.
End stream.
#[export] Hint Resolve sim_has_next sim_next : sim.

(** ** Bodies, messages and their transmission *)
Section messages.
Context {T1 T2} `{Transport T1} `{Transport T2} (h : T1 -> T2) `{!TransportHom h}.
Context (net : inet) (lib : DateTime.clock).

Definition body_map (b : body T1) : body T2 :=
  match b with
  | buffer_source data i => buffer_source data i
  | string_source data i => string_source data i
  | functor_source f n b e => functor_source f n b e
  | istream_source_of b => istream_source_of b
  | socket_source_of b => socket_source_of (stream_map (nio_map h) b)
  end.

Lemma sim_body_has_next : sim body_map (fun a => a) Body.has_next Body.has_next.
Proof.
  intros [data i|data i|f n buf e|b|b]; cbn [Body.has_next body_map]; [by destruct (i <? zlen data)..| | |].
  - destruct (negb (n =? 0)); [done|]. destruct f as [|[[r d] ext] f]; [done|]. by destruct (r =? File.E_ok).
  - destruct (stream_has_next b) as [[]]; done.
  - rewrite (sim_eq _ _ _ _ b (sim_has_next (nio_map h))). destruct (stream_has_next b) as [[]]; done.
Qed.

Lemma sim_body_next : sim body_map (fun a => a) Body.next Body.next.
Proof.
  intros [data i|data i|f n buf e|b|b]; cbn [Body.next body_map]; [by destruct (i <? zlen data)..| | |].
  - by destruct (n =? 0).
  - destruct (stream_next b) as [[]]; done.
  - rewrite (sim_eq _ _ _ _ b (sim_next (nio_map h))). destruct (stream_next b) as [[]]; done.
Qed.

Lemma body_map_length b : Body.length (body_map b) = Body.length b.
Proof. by destruct b. Qed.
Lemma body_map_chunked b : Body.chunked (body_map b) = Body.chunked b.
Proof. by destruct b. Qed.
Lemma body_map_extensions b : Body.chunk_extensions (body_map b) = Body.chunk_extensions b.
Proof. by destruct b. Qed.

(** *** Sending *)
Definition pair_map (s : body T1 * nio T1) : body T2 * nio T2 := (body_map s.1, nio_map h s.2).

Lemma sim_of_body {A} (m1 : M cpp_exn (body T1) A) m2 : sim body_map (fun a => a) m1 m2 -> sim pair_map (fun a => a) (of_body m1) (of_body m2).
Proof. intros Hm. by apply (sim_focus _ body_map). Qed.
Lemma sim_of_io {A} (m1 : M cpp_exn (nio T1) A) m2 : sim (nio_map h) (fun a => a) m1 m2 -> sim pair_map (fun a => a) (of_io m1) (of_io m2).
Proof. intros Hm. by apply (sim_focus _ (nio_map h)). Qed.

Lemma sim_send_data data : sim (nio_map h) (fun a => a) (send_data data) (send_data data).
Proof.
  intros io. unfold send_data. cbv zeta. rewrite (nio_write_hom h).
  destruct (nio_write (take (Z.to_nat (int32 (zlen data))) data) io) as [[[r n] e] io']. cbn [fst snd].
  destruct (negb (r =? File.E_ok)); [done|]. by destruct (negb (int32 (zlen data) =? n)).
Qed.

Lemma sim_and_then {S1 S2} (g : S1 -> S2) m1 m2 k1 k2 : sim g (fun a => a) m1 m2 -> sim g (fun a => a) k1 k2 ->
  sim g (fun a => a) (and_then m1 k1) (and_then m2 k2).
Proof. intros Hm Hk. unfold and_then. apply (sim_bind _ (fun a => a)); [done|]. intros r. destruct (negb (r =? File.E_ok)); [by apply sim_ret|done]. Qed.
Hint Resolve sim_body_has_next sim_body_next sim_of_body sim_of_io sim_send_data sim_and_then : sim.

Lemma sim_send_piece c n : sim pair_map (fun a => a) (send_piece c n) (send_piece c n).
Proof.
  unfold send_piece. apply (sim_bind _ (fun a => a)); [apply sim_of_body, sim_gets; intros; by rewrite body_map_extensions|].
  intros ext. apply (sim_bind _ (fun a => a)); [by apply sim_of_body, sim_body_next|]. intros data. cbv zeta.
  apply (sim_bind _ (fun a => a)).
  - apply sim_of_io, sim_and_then; [destruct c; eauto with sim|apply sim_and_then; [eauto with sim|destruct c; eauto with sim]].
  - intros r. by apply sim_ret.
Qed.

Lemma sim_send_loop c : forall fuel n, sim pair_map (fun a => a) (send_loop fuel c n) (send_loop fuel c n).
Proof.
  induction fuel as [|fuel IH]; intros n; cbn [send_loop]; [apply sim_diverge|].
  apply (sim_bind _ (fun a => a)); [by apply sim_of_body, sim_body_has_next|]. intros [|]; [|by apply sim_ret].
  apply (sim_bind _ (fun a => a)); [apply sim_send_piece|]. intros [r len]. destruct (negb (r =? File.E_ok)); [by apply sim_ret|apply IH].
Qed.

Lemma sim_send_body fuel : sim pair_map (fun a => a) (send_body fuel) (send_body fuel).
Proof.
  unfold send_body. apply (sim_bind _ (fun a => a)); [apply sim_of_body, sim_gets; intros; by rewrite body_map_chunked|]. intros c.
  apply (sim_bind _ (fun a => a)); [apply sim_of_body, sim_gets; intros; by rewrite body_map_length|]. intros len.
  apply (sim_bind _ (fun a => a)); [apply sim_send_loop|]. intros [r len']. cbv iota beta.
  destruct (r =? File.E_ok); [|by apply sim_ret]. destruct c; [apply sim_of_io; eauto with sim|]. destruct (negb (len' =? 0)); by apply sim_ret.
Qed.

Lemma sim_send_message fuel head b : sim (nio_map h) (fun a => a) (send_message fuel head b) (send_message fuel head (body_map <$> b)).
Proof.
  unfold send_message. apply sim_and_then; [eauto with sim|]. destruct b as [b|]; cbn [fmap option_fmap option_map]; [|by apply sim_ret].
  intros io. change (body_map b, nio_map h io) with (pair_map (b, io)). rewrite (sim_eq _ _ _ _ (b, io) (sim_send_body fuel)).
  by destruct (send_body fuel (b, io)) as [r [b' io']].
Qed.

Definition request_map (req : @request T1) : @request T2 :=
  {| r_version := r_version req; r_headers := r_headers req; r_body := body_map <$> r_body req; r_type := r_type req; r_uri := r_uri req;
     r_trailers := r_trailers req; r_parameters := r_parameters req |}.
Definition response_map (resp : @response T1) : @response T2 :=
  {| s_version := s_version resp; s_headers := s_headers resp; s_body := body_map <$> s_body resp; s_status := s_status resp; s_reason := s_reason resp |}.

Lemma print_request_map req : print_request (request_map req) = print_request req.
Proof. done. Qed.
Lemma print_response_map resp : print_response (response_map resp) = print_response resp.
Proof. done. Qed.

Lemma sim_send_request fuel req : sim (nio_map h) (fun a => a) (send_request fuel req) (send_request fuel (request_map req)).
Proof.
  unfold send_request. rewrite print_request_map. apply (sim_bind _ (fun a => a)); [apply sim_lift_id|]. intros s.
  apply sim_send_message.
Qed.
Lemma sim_send_response fuel resp : sim (nio_map h) (fun a => a) (send_response fuel resp) (send_response fuel (response_map resp)).
Proof.
  unfold send_response. rewrite print_response_map. apply (sim_bind _ (fun a => a)); [apply sim_lift_id|]. intros s.
  apply sim_send_message.
Qed.

(** *** Validation *)
Lemma length_chunkiness_map b hdrs : validate_length_chunkiness (body_map <$> b) hdrs = validate_length_chunkiness b hdrs.
Proof. destruct b as [b|]; [|done]. cbn. by rewrite body_map_chunked, body_map_length. Qed.

Lemma res_map_bind {E A B C} (g : B -> C) (m : res E A) (k : A -> res E B) : res_map g (rbind m k) = rbind m (fun a => res_map g (k a)).
Proof. by destruct m. Qed.
Lemma rbind_ext {E A B} (m : res E A) (k1 k2 : A -> res E B) : (forall a, k1 a = k2 a) -> rbind m k1 = rbind m k2.
Proof. intros Hk. destruct m; [apply Hk|done..]. Qed.

Lemma build_request_map v req : build_request v (request_map req) = res_map request_map (build_request v req).
Proof.
  unfold build_request. rewrite res_map_bind. destruct v; [|done]. unfold validate_request.
  cbn [r_headers request_map r_uri r_body]. destruct (Headers.is_set _ _); [|done].
  destruct (Headers.host (r_headers req)) as [hp| | |]; [|done..]. cbn [rbind]. destruct (_ && _); [done|].
  match goal with |- context [rbind (rbind ?m _) _ = _] => destruct m as [u| | |]; [|done..] end. cbn [rbind].
  rewrite length_chunkiness_map. by destruct (validate_length_chunkiness _ _).
Qed.
Lemma build_response_map v resp : build_response v (response_map resp) = res_map response_map (build_response v resp).
Proof.
  unfold build_response. destruct v; [|done]. unfold validate_response. cbn [s_headers s_status s_body s_reason response_map].
  match goal with |- rbind ?m _ = _ => destruct m as [u| | |]; [|done..] end. cbn [rbind].
  rewrite length_chunkiness_map. by destruct (validate_length_chunkiness _ _).
Qed.

(** *** Receiving *)
Lemma sim_read_headers : forall fuel hdrs, sim (nio_map h) (fun a => a) (read_headers net lib fuel hdrs) (read_headers net lib fuel hdrs).
Proof.
  induction fuel as [|fuel IH]; intros hdrs; cbn [read_headers]; [apply sim_diverge|].
  apply (sim_bind _ (fun a => a)); [apply hom_readline|]. intros line. destruct (_ || _); [by apply sim_ret|].
  apply (sim_bind _ (fun a => a)); [apply sim_lift_id|]. intros hdrs'. apply IH.
Qed.

Lemma body_of_map ignore hdrs src :
  body_of Body.from_socket_sized Body.from_socket ignore hdrs (nio_map h src) =
  res_map (fmap body_map) (body_of Body.from_socket_sized Body.from_socket ignore hdrs src).
Proof.
  unfold body_of. destruct ignore; [done|]. destruct (Headers.is_message_chunked hdrs); [done|].
  rewrite res_map_bind. apply rbind_ext. intros len. by destruct (negb (len =? 0)).
Qed.

Lemma request_line_map line : request_line net line request_init = res_map request_map (request_line net line request_init).
Proof.
  unfold request_line. rewrite res_map_bind. apply rbind_ext. intros [[ms us] vs]. cbv beta iota. rewrite res_map_bind. apply rbind_ext. intros m. cbv beta iota.
  rewrite res_map_bind. apply rbind_ext. intros u. cbv beta iota. rewrite res_map_bind. apply rbind_ext. intros v. cbv beta iota. rewrite res_map_bind. by apply rbind_ext.
Qed.
Lemma response_line_map line : response_line line response_init = res_map response_map (response_line line response_init).
Proof.
  unfold response_line. rewrite res_map_bind. apply rbind_ext. intros [[ms us] vs]. cbv beta iota. rewrite res_map_bind. apply rbind_ext. intros v. cbv beta iota.
  rewrite res_map_bind. apply rbind_ext. intros u. cbv beta iota. rewrite res_map_bind. by apply rbind_ext.
Qed.

Lemma sim_recv_request fuel : sim (nio_map h) request_map (recv_request net lib fuel) (recv_request net lib fuel).
Proof.
  unfold recv_request, read_request. apply (sim_bind _ request_map); [|intros req; apply sim_lift; symmetry; apply build_request_map].
  apply (sim_bind _ (fun a => a)); [apply hom_readline|]. intros line.
  apply (sim_bind _ request_map); [apply sim_lift; symmetry; apply request_line_map|]. intros req.
  apply (sim_bind _ (fun a => a)); [apply sim_read_headers|]. intros hdrs. destruct hdrs as [|kv hdrs]; [apply sim_throw|].
  apply (sim_bind _ (nio_map h)); [by apply sim_gets|]. intros src.
  apply (sim_bind _ (fmap body_map)); [apply sim_lift; symmetry; apply body_of_map|]. intros b. by apply sim_ret.
Qed.
Lemma sim_recv_response fuel : sim (nio_map h) response_map (recv_response net lib fuel) (recv_response net lib fuel).
Proof.
  unfold recv_response, read_response. apply (sim_bind _ response_map); [|intros resp; apply sim_lift; symmetry; apply build_response_map].
  apply (sim_bind _ (fun a => a)); [apply hom_readline|]. intros line.
  apply (sim_bind _ response_map); [apply sim_lift; symmetry; apply response_line_map|]. intros resp.
  apply (sim_bind _ (fun a => a)); [apply sim_read_headers|]. intros hdrs. destruct hdrs as [|kv hdrs]; [apply sim_throw|].
  apply (sim_bind _ (nio_map h)); [by apply sim_gets|]. intros src.
  apply (sim_bind _ (fmap body_map)); [apply sim_lift; symmetry; apply body_of_map|]. intros b. by apply sim_ret.
Qed.
End messages.

(** ** Facts (http over sockets)

    A connected socket, whose waits end in time, carries messages as [pipe]
    does: the bytes of a request leave one socket and arrive as the same request
    at another, whatever the two systems cut them into. *)

(** [readn] and [writen] of a socket as the class that [nio] uses, with the time
    limit the callers give; the last case is excluded by [wire_hom]. *)
Definition socket_transport {K} `{!SockCalls K} {sd} `{!Connected K sd} (s : socket) (to : Z) : Transport K := {|
  readn n k :=
    match Sock.readn true true n to (Some 0) (s, k) with
    | (Ok (r, d, o), (_, k')) => ((r, default [] d, default 0 o), k')
    | (_, (_, k')) => ((File.E_read_failed, [], 0), k')
    end;
  writen b k :=
    match Sock.writen (Some b) true to (Some 0) (s, k) with
    | (Ok (r, n, o), (_, k')) => ((r, default 0 n, default 0 o), k')
    | (_, (_, k')) => ((File.E_write_failed, 0, 0), k')
    end;
  pending k := length (p_in (wire (fd:=sd) k)) |}.

(** To its peer the socket is a pipe. *)
Lemma wire_hom {K} `{!SockCalls K} {sd} `{!Connected K sd} (s : socket) to : m_sock s = sd -> ~ timed_out (sd:=sd) to ->
  @TransportHom K pipe (socket_transport s to) pipe_transport (wire (fd:=sd)).
Proof.
  intros Hs Hto. split.
  - intros n k. cbn [readn socket_transport pipe_transport]. destruct (Z.leb_spec n 0) as [Hn|Hn].
    { unfold Sock.readn. destruct (Z.leb_spec n 0); [|lia]. done. }
    destruct (readn_run s Hs n to (Some 0) k Hn) as (r & d & o & k' & E & Hz & (_ & _ & Hw) & Hout); [left; by eexists|].
    rewrite E. destruct Hout as [(-> & Hd)|(_ & _ & _ & _ & ?)]; [|done]. rewrite (Hz eq_refl). cbn. rewrite Hw, Hd. do 2 f_equal.
    rewrite length_take. destruct (decide (Z.to_nat n <= length (p_in (wire (fd:=sd) k)))%nat); [by rewrite Nat.min_l|].
    rewrite Nat.min_r, !drop_ge by lia. done.
  - intros b k. cbn [writen socket_transport pipe_transport]. destruct b as [|c b]; [done|].
    destruct (writen_run s Hs (c :: b) to (Some 0) k) as (r & n & o & k' & E & Hz & (_ & Hw) & _ & Hout); [done|left; by eexists|].
    rewrite E. destruct Hout as [(-> & ->)|(_ & _ & _ & _ & ?)]; [|done]. rewrite (Hz eq_refl). cbn [fst snd default]. rewrite Hw.
    rewrite take_ge by (unfold zlen; lia). done.
  - done.
Qed.

Lemma nio_map_init_inv {T1 T2} (h : T1 -> T2) io d : nio_map h io = nio_init d -> exists t, io = nio_init t /\ h t = d.
Proof. destruct io as [b buf mx l i t]. unfold nio_map, nio_init. cbn. intros [= -> -> -> -> -> Ed]. by exists t. Qed.

(** ** A request between two connections

    Both are pipes to their peers: [h1] and [h2] are homomorphisms. *)
Definition request_carried {T1 T2} `{Transport T1} `{Transport T2} (h1 : T1 -> pipe) (h2 : T2 -> pipe)
    (net : inet) (lib : DateTime.clock) (m : method_type) (u : uri) (hdrs : headers) (data : bytes) : Prop :=
  exists (req : @request T1) head,
    build_request true {| r_version := version_default; r_headers := hdrs; r_body := Some (Body.Body.from_string data);
                          r_type := m; r_uri := u; r_trailers := []; r_parameters := ∅ |} = Ok req /\
    print_request req = Ok head /\
    (zlen head < 2 ^ 31 -> forall k, exists k', send_request 2 req (nio_init k) = (Ok File.E_ok, nio_init k') /\
       h1 k' = {| p_in := p_in (h1 k); p_out := p_out (h1 k) ++ head ++ data |}) /\
    forall rest k, p_in (h2 k) = head ++ data ++ rest -> exists (got : @request T2) k',
      recv_request net lib (2 + length hdrs) (nio_init k) = (Ok got, nio_init k') /\
      h2 k' = {| p_in := data ++ rest; p_out := p_out (h2 k) |} /\
      r_type got = m /\ r_uri got = u /\ r_version got = version_default /\
      body_map h2 <$> r_body got = Some (Body.Body.from_socket_sized (nio_init (h2 k')) (zlen data)) /\
      (forall n v, n <> Headers.CONTENT_LENGTH -> fields hdrs !! n = Some v ->
         exists w, fields (r_headers got) !! n = Some w /\ same_value v w).

Section carried.
Context {T1 T2 : Type} `{!Transport T1} `{!Transport T2} (h1 : T1 -> pipe) (h2 : T2 -> pipe).
Context `{!TransportHom h1} `{!TransportHom h2} (net : inet) (lib : DateTime.clock).

Lemma send_over fuel (req : @request T1) k out : send_request fuel (request_map h1 req) (nio_init (h1 k)) = (Ok File.E_ok, nio_init out) ->
  exists k', send_request fuel req (nio_init k) = (Ok File.E_ok, nio_init k') /\ h1 k' = out.
Proof.
  rewrite <- (nio_map_init h1), (sim_eq _ _ _ _ (nio_init k) (sim_send_request h1 fuel req)).
  destruct (send_request fuel req (nio_init k)) as [r io]. cbn [fst snd]. intros Heq. apply pair_equal_spec in Heq as [Er Eio].
  destruct (nio_map_init_inv _ _ _ Eio) as (k' & -> & Ek). exists k'. split; [|done]. f_equal. destruct r; cbn in Er; congruence.
Qed.

Lemma recv_over fuel k got out : recv_request net lib fuel (nio_init (h2 k)) = (Ok got, nio_init out) ->
  exists got' k', recv_request net lib fuel (nio_init k) = (Ok got', nio_init k') /\ request_map h2 got' = got /\ h2 k' = out.
Proof.
  rewrite <- (nio_map_init h2), (sim_eq _ _ _ _ (nio_init k) (sim_recv_request h2 net lib fuel)).
  destruct (recv_request net lib fuel (nio_init k)) as [r io]. cbn [fst snd]. intros Heq. apply pair_equal_spec in Heq as [Er Eio].
  destruct (nio_map_init_inv _ _ _ Eio) as (k' & -> & Ek). destruct r as [got'| | |]; try done. cbn in Er.
  exists got', k'. split; [done|]. split; [congruence|done].
Qed.

Lemma request_over m u hdrs data : origin_form net u -> headers_ok net lib hdrs ->
  Headers.is_set Headers.HOST hdrs = true -> Headers.TRANSFER_ENCODING ∉ hdrs.*1 -> data <> [] -> zlen data < 2 ^ 31 ->
  request_carried h1 h2 net lib m u hdrs data.
Proof.
  intros Hu Hh Hhost Hte Hd Hl.
  destruct (request_exchange net lib m u hdrs data Hu Hh Hhost Hte Hd Hl) as (req & head & Hb & Hp & Hsend & Hrecv).
  pose proof (build_request_map h1 true {| r_version := version_default; r_headers := hdrs; r_body := Some (Body.Body.from_string data);
    r_type := m; r_uri := u; r_trailers := []; r_parameters := ∅ |}) as Hmap. unfold request_map in Hmap at 1. cbn in Hmap.
  unfold request_carried, Body.Body.from_string in *. rewrite Hb in Hmap.
  destruct (build_request (T:=T1) true _) as [req1| | |] eqn:E1; try done. cbn in Hmap. injection Hmap as Hreq.
  exists req1, head. split; [done|]. split; [by rewrite <- (print_request_map h1 req1), <- Hreq|]. split.
  - intros Hlen k. apply send_over. rewrite <- Hreq. specialize (Hsend Hlen (p_in (h1 k)) (p_out (h1 k))).
    unfold conn in Hsend. by destruct (h1 k).
  - intros rest k Hk. destruct (Hrecv rest (p_out (h2 k))) as (got & Hgot & Ht & Hu' & Hv & Hbody & Hf & _).
    assert (conn (head ++ data ++ rest) (p_out (h2 k)) = nio_init (h2 k)) as Ec.
    { unfold conn. rewrite <- Hk. by destruct (h2 k). }
    rewrite Ec in Hgot. destruct (recv_over _ _ _ _ Hgot) as (got' & k' & Er & Hm & Hw). exists got', k'.
    assert (h2 k' = {| p_in := data ++ rest; p_out := p_out (h2 k) |}) as Hw' by done.
    rewrite <- Hm in Ht, Hu', Hv, Hbody, Hf. split_and!; try done. rewrite Hw'. exact Hbody.
Qed.
End carried.

Section sockets.
Context {K1 K2 : Type} `{!SockCalls K1} `{!SockCalls K2} {sd1 sd2 : Z} `{!Connected K1 sd1} `{!Connected K2 sd2}.

(** C17. A request with a host and a body of known length, sent over a socket
    whose writes are cut and interrupted, leaves as its text and its data; a
    socket that is given these bytes in pieces, with interruptions, receives the
    same method, URI, version and fields, and a body that has the data in front. *)
Theorem request_over_sockets s1 s2 to1 to2 net lib m u hdrs data : m_sock s1 = sd1 -> m_sock s2 = sd2 ->
  ~ timed_out (K:=K1) (sd:=sd1) to1 -> ~ timed_out (K:=K2) (sd:=sd2) to2 ->
  origin_form net u -> headers_ok net lib hdrs ->
  Headers.is_set Headers.HOST hdrs = true -> Headers.TRANSFER_ENCODING ∉ hdrs.*1 -> data <> [] -> zlen data < 2 ^ 31 ->
  @request_carried K1 K2 (socket_transport (sd:=sd1) s1 to1) (socket_transport (sd:=sd2) s2 to2)
    (wire (fd:=sd1)) (wire (fd:=sd2)) net lib m u hdrs data.
Proof.
  intros H1 H2 Hto1 Hto2. apply @request_over; [exact (wire_hom s1 to1 H1 Hto1)|exact (wire_hom s2 to2 H2 Hto2)].
Qed.
End sockets.

(** ** Witness: two scripted systems *)
Lemma wire_in_time sd : ~ timed_out (K:=wire_kernel) (sd:=sd) 1000.
Proof.
  intros (ev & k & k' & E). cbn in E. assert (w_event_of k <> 0) by (unfold w_event_of; destruct (Z.eqb_spec (w_event k) 0); done).
  destruct (w_script k) as [|[]]; congruence.
Qed.

Lemma request_over_sockets_witness :
  @request_carried wire_kernel wire_kernel (socket_transport (sd:=7) demo_socket 1000) (socket_transport (sd:=7) demo_socket 1000)
    (wire (fd:=7)) (wire (fd:=7)) demo_inet demo_clock M_POST demo_target demo_fields (bytes_of "hello").
Proof.
  apply (request_over_sockets demo_socket demo_socket 1000 1000 demo_inet demo_clock
    M_POST demo_target demo_fields (bytes_of "hello") eq_refl eq_refl (wire_in_time 7) (wire_in_time 7)).
  - apply demo_target_origin.
  - apply demo_fields_ok.
  - reflexivity.
  - apply demo_not_in. reflexivity.
  - discriminate.
  - reflexivity.
Defined.
