(* ===== verification/Cnxn.v ===== *)
(** * libnet: TLS connections (libnet/src/cnxn.cpp, libsslwrapper/src/tls.cpp)

    [tls] wraps an [SSL] object of OpenSSL; a [connection] drives it over a
    socket and switches between the contexts of a server by name.  The functions
    of OpenSSL on that object are the class [SslCalls]; contexts are of a type
    [C].  Every exception that these files throw is a [snf::ssl::exception], here
    [runtime_error]; the ones of the Standard Library are others. *)
From S2P Require Import Prelude Effects Numbers Text File Config Addr Sock.
From S2P Require Import Bytes Nio SocketTransport.

Definition SSL_ERROR_NONE : Z := 0.
Definition SSL_ERROR_WANT_READ : Z := 2.
Definition SSL_ERROR_WANT_WRITE : Z := 3.
Definition SSL_ERROR_SYSCALL : Z := 5.
Definition SSL_ERROR_ZERO_RETURN : Z := 6.
Definition EOF : Z := -1.
Definition E_syscall_failed : Z := -18.
Definition E_connect_failed : Z := -25.
Definition E_accept_failed : Z := -27.
Definition E_ssl_error : Z := -31.

(** [SSL_read]: the bytes, at least one, or a return value below one. *)
Class SslCalls (K C : Type) := {
  SSL_set_fd : Z -> K -> Z * K;
  SSL_get_fd : K -> Z;
  SSL_connect : K -> Z * K;
  SSL_accept : K -> Z * K;
  SSL_read : Z -> K -> answer bytes * K;
  SSL_write : bytes -> K -> Z * K;
  SSL_get_error : Z -> K -> Z;
  SSL_shutdown : K -> Z * K;
  SSL_clear : K -> Z * K;
  SSL_set_SSL_CTX : C -> K -> bool * K;
  SSL_get_servername : K -> option bytes;
  ERR_peek_error : K -> Z;
  ssl_errno : K -> Z;
  (** does the certificate of a context match a name (Ssl.v has [matches])? *)
  cert_matches : C -> bytes -> res cpp_exn bool }.

(** ** tls.cpp *)
Module Tls.
Section tls.
Context `{SslCalls K C}.
Abbreviation X := (M cpp_exn K).

Definition ssl_call {A} (f : K -> A * K) : X A := fun k => let '(a, k) := f k in (Ok a, k).

Definition set_context (ctx : C) : X unit :=
  let! ok := ssl_call (SSL_set_SSL_CTX ctx) in if ok then ret tt else throw runtime_error.
Definition get_sni (m_server : bool) : X bytes :=
  if negb m_server then throw runtime_error
  else
    let! name := gets SSL_get_servername in
    match name with Some ((_ :: _) as n) => ret n | _ => throw runtime_error end.
Definition get_socket : X Z :=
  let! sock := gets SSL_get_fd in if sock <? 1 then throw runtime_error else ret sock.
Definition set_socket (s : Z) : X unit :=
  let! r := ssl_call (SSL_set_fd s) in if negb (r =? 1) then throw runtime_error else ret tt.
Definition connect (m_server : bool) : X Z := if m_server then throw runtime_error else ssl_call SSL_connect.
Definition accept (m_server : bool) : X Z := if negb m_server then throw runtime_error else ssl_call SSL_accept.

(** [read] and [write]: the return value and the bytes, or their number. *)
Definition read (to_read : Z) : X (Z * bytes) :=
  let! n := ssl_call (SSL_read to_read) in
  ret (match n with inl d => if 0 <? zlen d then (1, d) else (0, []) | inr rc => (rc, []) end).
Definition write (buf : bytes) : X (Z * Z) :=
  let! n := ssl_call (SSL_write buf) in ret (if 0 <? n then (1, n) else (n, 0)).

Definition shutdown : X Z :=
  let! retval := ssl_call SSL_shutdown in if retval =? 0 then ssl_call SSL_shutdown else ret retval.
Definition reset : X unit := let! r := ssl_call SSL_clear in if negb (r =? 1) then throw runtime_error else ret tt.
End tls.
End Tls.

(** ** cnxn.cpp *)
Inductive connection_mode := client | server.
Inductive operation := op_unknown | op_connect | op_accept | op_read | op_write | op_shutdown.
Record error_info := { ei_error : Z; ei_ssl_error : Z; ei_os_error : Z; ei_op : operation }.

Record connection (C : Type) := { m_mode : connection_mode; m_contexts : list (bool * C) }.
Arguments m_mode {C}. Arguments m_contexts {C}.

Module Cnxn.
Section cnxn.
Context `{SockCalls K} `{SslCalls K C}.
Abbreviation X := (M cpp_exn K).

Definition is_server (c : connection C) : bool := match m_mode c with server => true | client => false end.

(** [connection(m, ctx)], apart from the [SSL] object. *)
Definition init (m : connection_mode) (ctx : C) : connection C := {| m_mode := m; m_contexts := [(true, ctx)] |}.

(** [add_context] *)
Definition add_context (ctx : C) (c : connection C) : res cpp_exn (connection C) :=
  if negb (is_server c) then Throw runtime_error
  else Ok {| m_mode := m_mode c; m_contexts := m_contexts c ++ [(false, ctx)] |}.

(** The search of [switch_context]: the index of the first context that
    matches. *)
Fixpoint find_context (servername : bytes) (l : list (bool * C)) : res cpp_exn (option nat) :=
  match l with
  | [] => Ok None
  | (_, ctx) :: l =>
      let? same := cert_matches ctx servername in
      if same then Ok (Some O) else let? i := find_context servername l in Ok (Datatypes.S <$> i)
  end.
Definition none_current (l : list (bool * C)) : list (bool * C) := (fun ci => (false, ci.2)) <$> l.

(** [switch_context], on the connection and the [SSL] object. *)
Definition switch_context (servername : bytes) : M cpp_exn (connection C * K) unit := fun st =>
  let '(c, k) := st in
  match find_context servername (m_contexts c) with
  | Ok (Some i) =>
      match m_contexts c !! i with
      | None => (Ub, st)
      | Some (true, _) => (Ok tt, st)
      | Some (false, ctx) =>
          let l := none_current (m_contexts c) in
          let with_list l := {| m_mode := m_mode c; m_contexts := l |} in
          match Tls.set_context ctx k with
          | (Ok _, k) => (Ok tt, (with_list (<[i := (true, ctx)]> l), k))
          | (r, k) => (r, (with_list l, k))
          end
      end
  | Ok None => (Throw runtime_error, st)
  | Throw e => (Throw e, st)
  | Ub => (Ub, st)
  | Diverge => (Diverge, st)
  end.

(** [sni_cb]: 1 for success.  Only [snf::ssl::exception] is caught. *)
Definition sni_cb : M cpp_exn (connection C * K) Z :=
  catch
    (let! m := gets (fun st => is_server st.1) in
     let! name := focus snd (fun k st => (st.1, k)) (Tls.get_sni m) in
     switch_context name ;; ret 1)
    (fun e => if decide (e = runtime_error) then ret 0 else throw e).

(** [handle_ssl_error(sock, to, ei)]: the return value, and [ei]. *)
Definition failure_of (op : operation) (os_error : Z) : Z :=
  match op with
  | op_connect => E_connect_failed
  | op_accept => E_accept_failed
  | op_read => E_read_failed
  | op_write => E_write_failed
  | op_shutdown => if os_error =? 0 then E_ok else E_close_failed
  | op_unknown => E_syscall_failed
  end.

(** The switch: the return value, the events to poll for and the system error. *)
Definition classify (ei : error_info) (k : K) : Z * Z * Z :=
  let e := ei_ssl_error ei in
  if (e =? SSL_ERROR_NONE) || (e =? SSL_ERROR_ZERO_RETURN) then (E_ok, 0, ei_os_error ei)
  else if e =? SSL_ERROR_WANT_READ then (E_try_again, POLLIN, ei_os_error ei)
  else if e =? SSL_ERROR_WANT_WRITE then (E_try_again, POLLOUT, ei_os_error ei)
  else if e =? SSL_ERROR_SYSCALL then
    if negb (ERR_peek_error k =? 0) then (E_ssl_error, 0, ei_os_error ei)
    else if ei_error ei =? 0 then (E_syscall_failed, 0, EOF)
    else if ei_error ei =? -1 then (failure_of (ei_op ei) (ssl_errno k), 0, ssl_errno k)
    else (E_ok, 0, ei_os_error ei)
  else (E_ssl_error, 0, ei_os_error ei).

Definition handle_ssl_error (sock to : Z) (ei : error_info) : X (Z * error_info) :=
  if 0 <? ei_error ei then ret (E_ok, ei)
  else
    let! ssl_error := gets (SSL_get_error (ei_error ei)) in
    let! (retval, events, os_error) := gets (classify {| ei_error := ei_error ei; ei_ssl_error := ssl_error; ei_os_error := ei_os_error ei; ei_op := ei_op ei |}) in
    let! (retval, os_error) :=
      (if negb (INVALID_SOCKET =? sock) && (E_try_again =? retval) then
         let! (n, _, syserr) := poll [(sock, events)] to in
         ret (if n =? 0 then (E_timed_out, ETIMEDOUT) else if n =? SOCKET_ERROR then (E_syscall_failed, syserr) else (E_try_again, syserr))
       else ret (retval, os_error)) in
    if E_ssl_error =? retval then throw runtime_error
    else ret (retval, {| ei_error := ei_error ei; ei_ssl_error := ssl_error; ei_os_error := os_error; ei_op := ei_op ei |}).

Definition error_of (op : operation) (error : Z) : error_info :=
  {| ei_error := error; ei_ssl_error := 0; ei_os_error := 0; ei_op := op |}.

(** The loop of [handshake]; the bound on its rounds is a parameter. *)
Fixpoint handshake_loop (fuel : nat) (c : connection C) (sock to : Z) : X unit :=
  match fuel with
  | O => diverge
  | S fuel =>
      let! rc := (if is_server c then Tls.accept true else Tls.connect false) in
      let! (retval, _) := handle_ssl_error sock to (error_of (if is_server c then op_accept else op_connect) rc) in
      if retval =? E_try_again then handshake_loop fuel c sock to else ret tt
  end.
Definition handshake (fuel : nat) (c : connection C) (sock to : Z) : X unit :=
  Tls.set_socket sock ;; handshake_loop fuel c sock to.

(** The loops of [readn] and [writen]: [bread] starts with what the caller
    left there. *)
Fixpoint readn_loop (fuel : nat) (sock to_read to : Z) (cbuf : bytes) (bread : Z) (oserr : option Z) : X (Z * bytes * Z * option Z) :=
  match fuel with
  | O => diverge
  | S fuel =>
      let! (n, data) := Tls.read to_read in
      if n <=? 0 then
        let! (retval, ei) := handle_ssl_error sock to (error_of op_read n) in
        if negb (E_try_again =? retval) then ret (retval, cbuf, bread, Sock.store_error (ei_os_error ei) oserr)
        else readn_loop fuel sock to_read to cbuf bread oserr
      else
        let to_read := to_read - zlen data in
        if 0 <? to_read then readn_loop fuel sock to_read to (cbuf ++ data) (bread + zlen data) oserr
        else ret (E_ok, cbuf ++ data, bread + zlen data, oserr)
  end.
Definition readn (fuel : nat) (buf : bool) (to_read : Z) (bread : option Z) (to : Z) (oserr : option Z) : X (Z * bytes * option Z * option Z) :=
  if negb buf || (to_read <=? 0) then ret (E_invalid_arg, [], bread, oserr)
  else match bread with
       | None => ret (E_invalid_arg, [], bread, oserr)
       | Some n =>
           let! sock := Tls.get_socket in
           let! (retval, data, n, oserr) := readn_loop fuel sock to_read to [] n oserr in
           ret (retval, data, Some n, oserr)
       end.

Fixpoint writen_loop (fuel : nat) (sock : Z) (cbuf : bytes) (to bwritten : Z) (oserr : option Z) : X (Z * Z * option Z) :=
  match fuel with
  | O => diverge
  | S fuel =>
      let! (n, nbytes) := Tls.write cbuf in
      if n <=? 0 then
        let! (retval, ei) := handle_ssl_error sock to (error_of op_write n) in
        if negb (E_try_again =? retval) then ret (retval, bwritten, Sock.store_error (ei_os_error ei) oserr)
        else writen_loop fuel sock cbuf to bwritten oserr
      else
        match drop (Z.to_nat nbytes) cbuf with
        | [] => ret (E_ok, bwritten + nbytes, oserr)
        | cbuf => writen_loop fuel sock cbuf to (bwritten + nbytes) oserr
        end
  end.
Definition writen (fuel : nat) (buf : option bytes) (bwritten : option Z) (to : Z) (oserr : option Z) : X (Z * option Z * option Z) :=
  match buf, bwritten with
  | Some ((_ :: _) as cbuf), Some n =>
      let! sock := Tls.get_socket in
      let! (retval, n, oserr) := writen_loop fuel sock cbuf to n oserr in
      ret (retval, Some n, oserr)
  | _, _ => ret (E_invalid_arg, bwritten, oserr)
  end.

(** [shutdown] *)
Definition shutdown : X unit :=
  let! retval := Tls.shutdown in
  if negb (retval =? 1) then let! _ := handle_ssl_error INVALID_SOCKET POLL_WAIT_NONE (error_of op_shutdown retval) in ret tt
  else ret tt.
End cnxn.
End Cnxn.

(** ** Facts (libnet: what a TLS connection promises)

    Reading and writing over TLS, under the laws of an [SSL] object whose peer
    answers, is reading and writing a pipe; the contexts of a server; and the
    failures of a handshake, which the caller does not see. *)

(** ** A connection whose peer answers

    [SSL_read] gives bytes in the order they were sent, asks to be tried again,
    or says that the peer has closed; [SSL_write] takes some bytes or asks to be
    tried again.  The wait in between may be interrupted. *)
Class TlsStream (K C : Type) `{SockCalls K} `{SslCalls K C} (fd : Z) := {
  tls_wire : K -> pipe;
  quiet (k k' : K) : Prop := tls_wire k' = tls_wire k /\ (patience k' <= patience k)%nat;
  fd_law k : SSL_get_fd k = fd /\ 1 <= fd;
  tls_poll_law ev to k :
    match sys_poll [(fd, ev)] to k with
    | (inl [e], k') => quiet k k'
    | (inl _, _) => False
    | (inr e, k') => e = EINTR /\ tls_wire k' = tls_wire k /\ (patience k' < patience k)%nat
    end;
  read_law n k : 0 < n ->
    match SSL_read n k with
    | (inl d, k') => d `prefix_of` p_in (tls_wire k) /\ d <> [] /\ zlen d <= n /\ (patience k' <= patience k)%nat /\
        tls_wire k' = {| p_in := drop (length d) (p_in (tls_wire k)); p_out := p_out (tls_wire k) |}
    | (inr rc, k') => rc <= 0 /\ tls_wire k' = tls_wire k /\
        ((SSL_get_error rc k' = SSL_ERROR_ZERO_RETURN /\ p_in (tls_wire k) = [] /\ (patience k' <= patience k)%nat) \/
         ((SSL_get_error rc k' = SSL_ERROR_WANT_READ \/ SSL_get_error rc k' = SSL_ERROR_WANT_WRITE) /\ (patience k' < patience k)%nat))
    end;
  write_law b k : b <> [] ->
    let '(n, k') := SSL_write b k in
    (0 < n <= zlen b /\ (patience k' <= patience k)%nat /\
       tls_wire k' = {| p_in := p_in (tls_wire k); p_out := p_out (tls_wire k) ++ take (Z.to_nat n) b |}) \/
    (n <= 0 /\ tls_wire k' = tls_wire k /\
       (SSL_get_error n k' = SSL_ERROR_WANT_READ \/ SSL_get_error n k' = SSL_ERROR_WANT_WRITE) /\ (patience k' < patience k)%nat) }.

Section stream.
Context {K C : Type} `{!SockCalls K} `{!SslCalls K C} {sd : Z} `{!TlsStream K C sd}.
Abbreviation link := (tls_wire (fd:=sd)).

(** The time of some wait is over. *)
Definition late (to : Z) : Prop := exists ev k k', sys_poll [(sd, ev)] to k = (inl [0], k').

Lemma tls_poll_run ev to : forall fuel k, (patience k < fuel)%nat ->
  exists e k', poll_loop fuel [(sd, ev)] to k = (Ok (if decide (e = 0) then 0 else 1, [e], 0), k') /\
    quiet k k' /\ (e = 0 -> late to).
Proof.
  induction fuel as [|fuel IH]; intros k Hf; [lia|]. cbn [poll_loop]. pose proof (tls_poll_law ev to k) as Hp.
  destruct (sys_poll [(sd, ev)] to k) as [[[|e [|]]|e] k'] eqn:Ep; try done.
  - exists e, k'. split; [|split; [done|intros ->; by exists ev, k, k']]. do 3 f_equal. cbn [filter list_filter]. repeat case_decide; done.
  - destruct Hp as (-> & Hw & Hpat). change (EINTR =? EINTR) with true. cbv iota.
    destruct (IH k' ltac:(lia)) as (e & k2 & E & (Hw2 & Hp2) & Hl). exists e, k2. split; [done|]. split; [|done].
    split; [congruence|lia].
Qed.

(** What [handle_ssl_error] makes of a call that is to be tried again: it is,
    unless the wait is over. *)
Lemma handle_want to rc op k : rc <= 0 -> SSL_get_error rc k = SSL_ERROR_WANT_READ \/ SSL_get_error rc k = SSL_ERROR_WANT_WRITE ->
  exists k' ei, quiet k k' /\
    ((Cnxn.handle_ssl_error sd to (Cnxn.error_of op rc) k = (Ok (File.E_try_again, ei), k')) \/
     (Cnxn.handle_ssl_error sd to (Cnxn.error_of op rc) k = (Ok (E_timed_out, ei), k') /\ ei_os_error ei = ETIMEDOUT /\ late to)).
Proof.
  intros Hrc Hwant. unfold Cnxn.handle_ssl_error. cbn [ei_error Cnxn.error_of]. destruct (Z.ltb_spec 0 rc); [lia|].
  assert (exists ev, Cnxn.classify {| ei_error := rc; ei_ssl_error := SSL_get_error rc k; ei_os_error := 0; ei_op := op |} k = (File.E_try_again, ev, 0)) as [ev Ec].
  { unfold Cnxn.classify. cbn [ei_ssl_error ei_os_error]. destruct Hwant as [-> | ->]; by eexists. }
  rewrite !bind_gets. cbn [ei_os_error ei_op Cnxn.error_of]. rewrite Ec. cbv iota beta.
  destruct (fd_law (fd:=sd) k) as [_ Hsd]. unfold INVALID_SOCKET. destruct (Z.eqb_spec (-1) sd); [lia|].
  change (File.E_try_again =? File.E_try_again) with true. cbn [negb andb].
  destruct (tls_poll_run ev to (Datatypes.S (patience k)) k ltac:(lia)) as (e & k' & Ep & Hq & Hl).
  assert (poll [(sd, ev)] to k = (Ok (if decide (e = 0) then 0 else 1, [e], 0), k')) as Epoll by exact Ep.
  exists k', {| ei_error := rc; ei_ssl_error := SSL_get_error rc k; ei_os_error := if decide (e = 0) then ETIMEDOUT else 0; ei_op := op |}.
  split; [exact Hq|]. case_decide as He; [right|left].
  - split; [|split; [reflexivity|auto]]. erewrite bind_Ok; [|erewrite bind_Ok; [|exact Epoll]; reflexivity]. reflexivity.
  - erewrite bind_Ok; [|erewrite bind_Ok; [|exact Epoll]; reflexivity]. reflexivity.
Qed.

Lemma get_socket_run {A} (f : Z -> M cpp_exn K A) k : bind Tls.get_socket f k = f sd k.
Proof.
  destruct (fd_law (fd:=sd) k) as [E Hsd]. unfold Tls.get_socket, bind, gets. rewrite E. by destruct (Z.ltb_spec sd 1); [lia|].
Qed.

(** *** Reading *)
Definition tls_received (d : bytes) (k k' : K) : Prop :=
  d `prefix_of` p_in (link k) /\ link k' = {| p_in := drop (length d) (p_in (link k)); p_out := p_out (link k) |}.

Lemma tls_received_app d1 d2 k k1 k2 : tls_received d1 k k1 -> tls_received d2 k1 k2 -> tls_received (d1 ++ d2) k k2.
Proof.
  intros ((t & Ht) & Hw1) (Hd2 & Hw2). rewrite Hw1 in Hd2, Hw2. cbn [p_in p_out] in *.
  rewrite Ht, drop_app_length in Hd2. split; [rewrite Ht; by apply prefix_app|]. rewrite Hw2, drop_drop, length_app. done.
Qed.

Definition tls_outcome (n to : Z) (k : K) (r : Z) (d : bytes) (oserr : option Z) : Prop :=
  (r = File.E_ok /\ d = take (Z.to_nat n) (p_in (link k))) \/
  (r = E_timed_out /\ oserr = Some ETIMEDOUT /\ zlen d < n /\ late to).

Lemma tls_readn_loop to e : forall fuel n cbuf b k, 0 < n -> (patience k + Z.to_nat n < fuel)%nat ->
  exists r d oserr k', Cnxn.readn_loop fuel sd n to cbuf b (Some e) k = (Ok (r, cbuf ++ d, b + zlen d, oserr), k') /\
    tls_received d k k' /\ tls_outcome n to k r d oserr /\ (e = 0 -> r = File.E_ok -> oserr = Some 0).
Proof.
  induction fuel as [|fuel IH]; intros n cbuf b k Hn Hf; [lia|]. cbn [Cnxn.readn_loop]. unfold bind at 1, Tls.read, bind at 1, Tls.ssl_call.
  pose proof (read_law n k Hn) as Hl. destruct (SSL_read n k) as [[d|rc] k1]; cbv iota beta.
  - destruct Hl as (Hpre & Hne & Hlen & Hp & Hw). assert (0 < zlen d) as Hpos by (by apply zlen_pos).
    destruct (Z.ltb_spec 0 (zlen d)); [|lia]. unfold ret at 1. change (1 <=? 0) with false. cbv iota.
    assert (tls_received d k k1) as Hrec by done. destruct Hpre as [t Ht].
    destruct (Z.ltb_spec 0 (n - zlen d)).
    + destruct (IH (n - zlen d) (cbuf ++ d) (b + zlen d) k1) as (r & d' & o & k' & E & Hrec' & Hout & Hz); [lia|unfold zlen in *; lia|].
      exists r, (d ++ d'), o, k'. rewrite E, <- app_assoc, zlen_app, Z.add_assoc. split; [done|].
      split; [by eapply tls_received_app|]. split; [|done].
      destruct Hout as [(-> & Hd')|(-> & -> & Hlt & Hla)]; [left|right; split_and!; [done..|rewrite zlen_app; lia|done]].
      split; [done|]. rewrite Hw in Hd'. cbn [p_in] in Hd'. rewrite Ht in Hd' |- *. rewrite drop_app_length in Hd'.
      rewrite take_app_ge by (unfold zlen in *; lia).
      assert (Z.to_nat n - length d = Z.to_nat (n - zlen d))%nat as -> by (unfold zlen; lia). by rewrite <- Hd'.
    + exists File.E_ok, d, (Some e), k1. split; [done|]. split; [done|]. split; [|by intros ->]. left. split; [done|].
      rewrite Ht. rewrite take_app_le by (unfold zlen in *; lia). rewrite take_ge by (unfold zlen in *; lia). done.
  - destruct Hl as (Hrc & Hw & Hcase). unfold ret at 1. destruct (Z.leb_spec rc 0); [|lia]. unfold bind at 1.
    destruct Hcase as [(Hz & Hend & _)|(Hwant & Hp)].
    + assert (Cnxn.handle_ssl_error sd to (Cnxn.error_of op_read rc) k1 =
        (Ok (File.E_ok, {| ei_error := rc; ei_ssl_error := SSL_ERROR_ZERO_RETURN; ei_os_error := 0; ei_op := op_read |}), k1)) as ->.
      { unfold Cnxn.handle_ssl_error. cbn [ei_error Cnxn.error_of]. destruct (Z.ltb_spec 0 rc); [lia|].
        unfold bind, gets. rewrite Hz. cbn. by rewrite andb_false_r. }
      change (negb (File.E_try_again =? File.E_ok)) with true. cbv iota beta. exists File.E_ok, [], (Some 0), k1.
      rewrite app_nil_r. change (zlen []) with 0. rewrite Z.add_0_r. split; [done|]. split; [|split; [|done]].
      * split; [by eexists|]. rewrite Hw. by destruct (link k).
      * left. split; [done|]. by rewrite Hend, take_nil.
    + destruct (handle_want to rc op_read k1 Hrc Hwant) as (k2 & ei & (Hw2 & Hp2) & [E|(E & Ho & Hla)]); rewrite E; cbv iota beta.
      * change (negb (File.E_try_again =? File.E_try_again)) with false. cbv iota.
        destruct (IH n cbuf b k2 Hn ltac:(lia)) as (r & d & o & k' & E' & Hrec & Hout & Hz). exists r, d, o, k'. split; [done|].
        unfold tls_received, tls_outcome in *. replace (link k2) with (link k) in * by congruence. done.
      * change (negb (File.E_try_again =? E_timed_out)) with true. cbv iota. exists E_timed_out, [], (Some ETIMEDOUT), k2.
        rewrite app_nil_r. change (zlen []) with 0. rewrite Z.add_0_r. split; [by rewrite <- Ho|].
        split; [split; [by eexists|rewrite Hw2, Hw; by destruct (link k)]|]. split; [right; done|intros _ ?; done].
Qed.

Lemma tls_readn_run fuel n to b e k : 0 < n -> (patience k + Z.to_nat n < fuel)%nat ->
  exists r d oserr k', Cnxn.readn fuel true n (Some b) to (Some e) k = (Ok (r, d, Some (b + zlen d), oserr), k') /\
    tls_received d k k' /\ tls_outcome n to k r d oserr /\ (e = 0 -> r = File.E_ok -> oserr = Some 0).
Proof.
  intros Hn Hf. destruct (tls_readn_loop to e fuel n [] b k Hn Hf) as (r & d & o & k' & E & H).
  exists r, d, o, k'. split; [|exact H]. unfold Cnxn.readn. cbn [negb orb]. destruct (Z.leb_spec n 0); [lia|].
  rewrite get_socket_run. unfold bind at 1. by rewrite E.
Qed.

(** *** Writing *)
Definition tls_sent (b : bytes) (k k' : K) : Prop := link k' = {| p_in := p_in (link k); p_out := p_out (link k) ++ b |}.
Definition tls_write_outcome (b : bytes) (to r n : Z) (oserr : option Z) : Prop :=
  0 <= n <= zlen b /\
  ((r = File.E_ok /\ n = zlen b) \/ (r = E_timed_out /\ oserr = Some ETIMEDOUT /\ n < zlen b /\ late to)).

Lemma tls_writen_loop to e : forall fuel b m k, b <> [] -> (patience k + length b < fuel)%nat ->
  exists r n oserr k', Cnxn.writen_loop fuel sd b to m (Some e) k = (Ok (r, m + n, oserr), k') /\
    tls_sent (take (Z.to_nat n) b) k k' /\ tls_write_outcome b to r n oserr /\ (e = 0 -> r = File.E_ok -> oserr = Some 0).
Proof.
  induction fuel as [|fuel IH]; intros b m k Hb Hf; [lia|]. cbn [Cnxn.writen_loop]. unfold bind at 1, Tls.write, bind at 1, Tls.ssl_call.
  pose proof (write_law b k Hb) as Hl. destruct (SSL_write b k) as [n k1]; cbv iota beta.
  destruct Hl as [(Hn & Hp & Hw)|(Hn & Hw & Hwant & Hp)].
  - destruct (Z.ltb_spec 0 n); [|lia]. unfold ret at 1. change (1 <=? 0) with false. cbv iota.
    destruct (drop (Z.to_nat n) b) as [|c b'] eqn:Ed.
    + exists File.E_ok, n, (Some e), k1. assert (n = zlen b) as Hz.
      { assert (length (drop (Z.to_nat n) b) = 0%nat) as Hx by (by rewrite Ed). rewrite length_drop in Hx. unfold zlen in *. lia. }
      split; [done|]. split; [done|]. split; [split; [lia|by left]|by intros ->].
    + assert (length (c :: b') < length b)%nat as Hlt by (rewrite <- Ed, length_drop; unfold zlen in *; lia).
      destruct (IH (c :: b') (m + n) k1) as (r & n' & o & k' & E' & Hw3 & (Hrange & Hout) & Hz'); [done|lia|].
      assert (zlen b = n + zlen (c :: b')) as Hz by (rewrite <- Ed; unfold zlen in *; rewrite length_drop; lia).
      exists r, (n + n'), o, k'. rewrite E'. split; [by rewrite Z.add_assoc|]. split; [|split; [|done]].
      * unfold tls_sent in *. rewrite Hw3, Hw. cbn [p_in p_out]. rewrite <- app_assoc. do 2 f_equal.
        rewrite <- Ed, take_take_drop. f_equal. lia.
      * split; [lia|]. destruct Hout as [(-> & ->)|(-> & -> & Hlt' & Ht)]; [left; split; [done|lia]|right]. split_and!; [done..|lia|done].
  - destruct (Z.ltb_spec 0 n); [lia|]. unfold ret at 1. destruct (Z.leb_spec n 0); [|lia]. unfold bind at 1.
    destruct (handle_want to n op_write k1 Hn Hwant) as (k2 & ei & (Hw2 & Hp2) & [E|(E & Ho & Hla)]); rewrite E; cbv iota beta.
    + change (negb (File.E_try_again =? File.E_try_again)) with false. cbv iota.
      destruct (IH b m k2 Hb ltac:(lia)) as (r & n' & o & k' & E' & Hsent & Hout). exists r, n', o, k'. split; [done|].
      unfold tls_sent in *. replace (link k2) with (link k) in * by congruence. done.
    + change (negb (File.E_try_again =? E_timed_out)) with true. cbv iota. exists E_timed_out, 0, (Some ETIMEDOUT), k2.
      rewrite Z.add_0_r. split; [by rewrite <- Ho|]. split; [|split; [|intros _ ?; done]].
      * unfold tls_sent. rewrite Hw2, Hw. cbn [Z.to_nat take]. rewrite app_nil_r. by destruct (link k).
      * split; [split; [done|apply zlen_nonneg]|]. right. split_and!; [done..|by apply zlen_pos|done].
Qed.

Lemma tls_writen_run fuel b to m e k : b <> [] -> (patience k + length b < fuel)%nat ->
  exists r n oserr k', Cnxn.writen fuel (Some b) (Some m) to (Some e) k = (Ok (r, Some (m + n), oserr), k') /\
    tls_sent (take (Z.to_nat n) b) k k' /\ tls_write_outcome b to r n oserr /\ (e = 0 -> r = File.E_ok -> oserr = Some 0).
Proof.
  intros Hb Hf. destruct (tls_writen_loop to e fuel b m k Hb Hf) as (r & n & o & k' & E & H).
  exists r, n, o, k'. split; [|exact H]. unfold Cnxn.writen. destruct b as [|c b]; [done|].
  rewrite get_socket_run. unfold bind at 1. by rewrite E.
Qed.
End stream.

(** ** The contracts *)

Lemma pipe_readn_take n (w : pipe) d : 0 < n -> d = take (Z.to_nat n) (p_in w) ->
  Nio.readn n w = ((File.E_ok, d, 0), {| p_in := drop (length d) (p_in w); p_out := p_out w |}).
Proof.
  intros Hn ->. cbn. destruct (Z.leb_spec n 0); [lia|]. do 2 f_equal. rewrite length_take.
  destruct (decide (Z.to_nat n <= length (p_in w))%nat); [by rewrite Nat.min_l|]. by rewrite Nat.min_r, !drop_ge by lia.
Qed.

(** Over TLS, [readn] ends when the peer answers, whatever OpenSSL asks for in
    between: it stores a prefix of what the peer sends and takes exactly that
    from the stream; all the bytes, or all there are, unless a wait is over.  The
    number read is added to what the caller left in [bread]. *)
Theorem tls_readn_refines_pipe {K C} `{!SockCalls K} `{!SslCalls K C} {sd} `{!TlsStream K C sd} fuel n to b e k :
  0 < n -> (patience k + Z.to_nat n < fuel)%nat ->
  exists r d oserr k', Cnxn.readn fuel true n (Some b) to (Some e) k = (Ok (r, d, Some (b + zlen d), oserr), k') /\
    d `prefix_of` p_in (tls_wire (fd:=sd) k) /\
    tls_wire (fd:=sd) k' = {| p_in := drop (length d) (p_in (tls_wire (fd:=sd) k)); p_out := p_out (tls_wire (fd:=sd) k) |} /\
    ((r = File.E_ok /\ Nio.readn n (tls_wire (fd:=sd) k) = ((File.E_ok, d, 0), tls_wire (fd:=sd) k')) \/
     (r = E_timed_out /\ oserr = Some ETIMEDOUT /\ zlen d < n /\ late (sd:=sd) to)).
Proof.
  intros Hn Hf. destruct (tls_readn_run (sd:=sd) fuel n to b e k Hn Hf) as (r & d & o & k' & E & (Hpre & Hw) & Hout & _).
  exists r, d, o, k'. split_and!; [done..|]. destruct Hout as [(-> & Hd)|Hout]; [left|by right]. split; [done|].
  rewrite Hw. by apply pipe_readn_take.
Qed.

(** ** Contexts *)
Definition one_current {C} (l : list (bool * C)) : Prop := exists i ctx, l !! i = Some (true, ctx) /\ forall j x, l !! j = Some x -> x.1 = true -> j = i.

Lemma one_current_init {K C} `{!SslCalls K C} m (ctx : C) : one_current (m_contexts (Cnxn.init m ctx)).
Proof. exists 0%nat, ctx. split; [done|]. by intros [|j] x Hx. Qed.

Lemma one_current_add {C} (c c' : connection C) ctx :
  one_current (m_contexts c) -> Cnxn.add_context ctx c = Ok c' -> one_current (m_contexts c').
Proof.
  unfold Cnxn.add_context. destruct (negb (Cnxn.is_server c)); [done|]. intros (i & ctx0 & Hi & Hu) [= <-]. cbn.
  exists i, ctx0. split; [by apply lookup_app_l_Some|]. intros j x Hx Hc. apply lookup_app_Some in Hx as [Hx|[_ Hx]]; [by eapply Hu|].
  apply list_lookup_singleton_Some in Hx as [_ <-]. done.
Qed.

Lemma find_context_first {K C} `{!SslCalls K C} name (l : list (bool * C)) i : Cnxn.find_context name l = Ok (Some i) ->
  exists x, l !! i = Some x /\ cert_matches (K:=K) x.2 name = Ok true /\
    forall j y, (j < i)%nat -> l !! j = Some y -> cert_matches (K:=K) y.2 name = Ok false.
Proof.
  revert i. induction l as [|[cur ctx] l IH]; intros i; [done|]. cbn. destruct (cert_matches ctx name) as [[]| | |] eqn:E; try done; cbn.
  - intros [= <-]. exists (cur, ctx). split_and!; [done..|]. intros j y Hj. lia.
  - destruct (Cnxn.find_context name l) as [[i'|]| | |]; try done. intros [= <-]. destruct (IH i' eq_refl) as (x & Hx & Hm & Hf).
    exists x. split_and!; [done..|]. intros [|j] y Hj Hy; [injection Hy as <-; done|]. apply (Hf j); [lia|done].
Qed.

Lemma find_context_stuck {K C} `{!SslCalls K C} name (l : list (bool * C)) :
  (match Cnxn.find_context name l with Ub | Diverge => True | _ => False end) -> exists ctx, ctx ∈ l.*2 /\ forall b, cert_matches (K:=K) ctx name <> Ok b.
Proof.
  induction l as [|[cur ctx] l IH]; [done|]. cbn. destruct (cert_matches ctx name) as [[]| | |] eqn:E; cbn; try done.
  2, 3: intros _; exists ctx; split; [left|congruence].
  intros H. destruct IH as (ctx' & Hin & Hc); [by destruct (Cnxn.find_context name l)|]. exists ctx'. split; [by right|done].
Qed.

Lemma none_current_snd {C} (l : list (bool * C)) : (Cnxn.none_current l).*2 = l.*2.
Proof. unfold Cnxn.none_current. rewrite <- list_fmap_compose. done. Qed.
Lemma contexts_insert {C} (l : list (bool * C)) i cur ctx : l !! i = Some (cur, ctx) -> (<[i := (true, ctx)]> (Cnxn.none_current l)).*2 = l.*2.
Proof.
  intros Hi. rewrite list_fmap_insert, none_current_snd. cbn. apply list_insert_id. by rewrite list_lookup_fmap, Hi.
Qed.

(** C21. In a server whose contexts have one current, [switch_context] that returns
    has made the first context whose certificate matches the current one, and
    the only one.  One that throws has changed nothing, unless it is OpenSSL
    that refuses the context: then none is current any more. *)
Theorem switch_context_selects {K C} `{!SslCalls K C} name (c c' : connection C) (k k' : K) r :
  one_current (m_contexts c) -> Cnxn.switch_context name (c, k) = (r, (c', k')) ->
  (m_contexts c').*2 = (m_contexts c).*2 /\
  match r with
  | Ok _ =>
      one_current (m_contexts c') /\
      exists i ctx, m_contexts c' !! i = Some (true, ctx) /\ cert_matches (K:=K) ctx name = Ok true /\
        forall j y, (j < i)%nat -> m_contexts c' !! j = Some y -> cert_matches (K:=K) y.2 name = Ok false
  | Throw e =>
      (c' = c /\ k' = k /\ (e = runtime_error /\ Cnxn.find_context name (m_contexts c) = Ok None \/ Cnxn.find_context name (m_contexts c) = Throw e)) \/
      (Forall (fun x => x.1 = false) (m_contexts c') /\
         exists ctx k1, cert_matches (K:=K) ctx name = Ok true /\ SSL_set_SSL_CTX ctx k = (false, k1))
  | _ => c' = c /\ exists ctx, ctx ∈ (m_contexts c).*2 /\ forall b, cert_matches (K:=K) ctx name <> Ok b
  end.
Proof.
  intros Hone. unfold Cnxn.switch_context.
  destruct (Cnxn.find_context name (m_contexts c)) as [[i|]|e| |] eqn:Ef.
  2: { intros [= <- <- <-]. split; [done|]. by left; auto. }
  2: { intros [= <- <- <-]. split; [done|]. left. by auto. }
  2, 3: intros [= <- <- <-]; split; [done|]; split; [done|]; apply find_context_stuck; by rewrite Ef.
  destruct (find_context_first _ _ _ Ef) as ([cur ctx] & Hi & Hm & Hfirst). rewrite Hi. destruct cur.
  { intros [= <- <- <-]. split; [done|]. split; [done|]. by exists i, ctx. }
  unfold Tls.set_context, bind, Tls.ssl_call. destruct (SSL_set_SSL_CTX ctx k) as [[] k1] eqn:Es; intros [= <- <- <-]; cbn [m_contexts m_mode].
  - split; [by eapply contexts_insert|]. assert (Cnxn.none_current (m_contexts c) !! i = Some (false, ctx)) as Hi'.
    { unfold Cnxn.none_current. by rewrite list_lookup_fmap, Hi. }
    split.
    + exists i, ctx. split; [by rewrite list_lookup_insert_eq by (by eapply lookup_lt_Some)|].
      intros j x Hx Hc. destruct (decide (j = i)); [done|]. rewrite list_lookup_insert_ne in Hx by done.
      unfold Cnxn.none_current in Hx. rewrite list_lookup_fmap in Hx. destruct (m_contexts c !! j); [|done]. injection Hx as <-. done.
    + exists i, ctx. split; [by rewrite list_lookup_insert_eq by (by eapply lookup_lt_Some)|]. split; [done|].
      intros j y Hj Hy. rewrite list_lookup_insert_ne in Hy by lia. unfold Cnxn.none_current in Hy. rewrite list_lookup_fmap in Hy.
      destruct (m_contexts c !! j) as [z|] eqn:Ez; [|done]. injection Hy as <-. cbn. by apply (Hfirst j).
  - split; [by apply none_current_snd|]. right. split; [|eauto]. apply Forall_forall. intros x Hx.
    apply list_elem_of_fmap in Hx as (y & -> & _). done.
Qed.

(** ** Handshakes *)

(** What a call leaves that has not done its work: OpenSSL waits for the peer
    until the time is over, the peer has closed the connection, or a system call
    has failed. *)
Definition unanswered {K C} `{!SockCalls K} `{!SslCalls K C} (sd to rc : Z) (k : K) : Prop :=
  rc <= 0 /\
  ((SSL_get_error rc k = SSL_ERROR_WANT_READ \/ SSL_get_error rc k = SSL_ERROR_WANT_WRITE) /\
      (forall ev, exists k', sys_poll [(sd, ev)] to k = (inl [0], k')) \/
   SSL_get_error rc k = SSL_ERROR_ZERO_RETURN \/
   SSL_get_error rc k = SSL_ERROR_SYSCALL /\ ERR_peek_error k = 0).

(** An error that OpenSSL has queued, or one that the switch has no case for. *)
Definition reported {K C} `{!SockCalls K} `{!SslCalls K C} (rc : Z) (k : K) : Prop :=
  rc <= 0 /\
  (SSL_get_error rc k = SSL_ERROR_SYSCALL /\ ERR_peek_error k <> 0 \/
   SSL_get_error rc k ∉ [SSL_ERROR_NONE; SSL_ERROR_ZERO_RETURN; SSL_ERROR_WANT_READ; SSL_ERROR_WANT_WRITE; SSL_ERROR_SYSCALL]).

Lemma handle_reported {K C} `{!SockCalls K} `{!SslCalls K C} sd to op rc (k : K) : reported rc k ->
  Cnxn.handle_ssl_error sd to (Cnxn.error_of op rc) k = (Throw runtime_error, k).
Proof.
  intros (Hrc & Hcase). unfold Cnxn.handle_ssl_error. cbn [ei_error Cnxn.error_of]. destruct (Z.ltb_spec 0 rc); [lia|].
  rewrite !bind_gets. cbn [ei_os_error ei_op Cnxn.error_of].
  assert (Cnxn.classify {| ei_error := rc; ei_ssl_error := SSL_get_error rc k; ei_os_error := 0; ei_op := op |} k = (E_ssl_error, 0, 0)) as ->.
  { unfold Cnxn.classify. cbn [ei_ssl_error ei_os_error]. destruct Hcase as [(-> & Hq)|Hno].
    - apply Z.eqb_neq in Hq. by rewrite Hq.
    - rewrite !not_elem_of_cons in Hno. destruct Hno as (H1%Z.eqb_neq & H2%Z.eqb_neq & H3%Z.eqb_neq & H4%Z.eqb_neq & H5%Z.eqb_neq & _).
      by rewrite H1, H2, H3, H4, H5. }
  cbv iota beta. change (File.E_try_again =? E_ssl_error) with false. by rewrite andb_false_r.
Qed.

Lemma handle_unanswered {K C} `{!SockCalls K} `{!SslCalls K C} sd to op rc (k : K) : 0 <= sd -> op = op_connect \/ op = op_accept ->
  unanswered sd to rc k -> exists r ei k', Cnxn.handle_ssl_error sd to (Cnxn.error_of op rc) k = (Ok (r, ei), k') /\ r <> File.E_try_again.
Proof.
  intros Hsd Hop (Hrc & Hcase). unfold Cnxn.handle_ssl_error. cbn [ei_error Cnxn.error_of]. destruct (Z.ltb_spec 0 rc); [lia|].
  rewrite !bind_gets. cbn [ei_os_error ei_op Cnxn.error_of]. unfold INVALID_SOCKET. destruct (Z.eqb_spec (-1) sd); [lia|].
  destruct Hcase as [(Hwant & Hpoll)|[Hzero|(Hsys & Hq)]].
  - assert (exists ev, Cnxn.classify {| ei_error := rc; ei_ssl_error := SSL_get_error rc k; ei_os_error := 0; ei_op := op |} k =
      (File.E_try_again, ev, 0)) as [ev ->] by (unfold Cnxn.classify; cbn [ei_ssl_error ei_os_error]; destruct Hwant as [-> | ->]; by eexists).
    destruct (Hpoll ev) as [k' Ep]. exists E_timed_out, {| ei_error := rc; ei_ssl_error := SSL_get_error rc k; ei_os_error := ETIMEDOUT; ei_op := op |}, k'.
    split; [|done]. cbv iota beta. change (File.E_try_again =? File.E_try_again) with true. cbn [negb andb].
    unfold bind, poll. cbn [poll_loop]. by rewrite Ep.
  - assert (Cnxn.classify {| ei_error := rc; ei_ssl_error := SSL_get_error rc k; ei_os_error := 0; ei_op := op |} k = (File.E_ok, 0, 0)) as ->
      by (unfold Cnxn.classify; cbn [ei_ssl_error ei_os_error]; by rewrite Hzero).
    do 3 eexists. split; [cbv iota beta; change (File.E_try_again =? File.E_ok) with false; rewrite andb_false_r; reflexivity|done].
  - assert (exists r e, Cnxn.classify {| ei_error := rc; ei_ssl_error := SSL_get_error rc k; ei_os_error := 0; ei_op := op |} k = (r, 0, e) /\
      r <> File.E_try_again /\ r <> E_ssl_error) as (r & e & -> & Hr & Hr').
    { unfold Cnxn.classify. cbn [ei_ssl_error ei_os_error ei_error ei_op]. rewrite Hsys, Hq. change (negb (0 =? 0)) with false. cbn.
      destruct (rc =? 0); [by do 2 eexists|]. destruct (rc =? -1); [|by do 2 eexists]. do 2 eexists. split; [done|]. by destruct Hop as [-> | ->]. }
    exists r, {| ei_error := rc; ei_ssl_error := SSL_get_error rc k; ei_os_error := e; ei_op := op |}, k.
    split; [|done]. cbv iota beta. destruct (Z.eqb_spec File.E_try_again r); [congruence|]. rewrite andb_false_r.
    unfold bind, ret. by destruct (Z.eqb_spec E_ssl_error r).
Qed.


(** ** An [SSL] object for examples

    It sits on the socket of the scripted system: an interruption of the script
    is a call that asks to be tried again, and a peer that does not take part in
    the handshake. *)
#[export] Instance wire_ssl : SslCalls wire_kernel (bytes * bool) := {|
  SSL_set_fd _ k := (1, k);
  SSL_get_fd _ := 7;
  SSL_connect k := (match w_script k with [] => 1 | _ => -1 end, k);
  SSL_accept k := (match w_script k with [] => 1 | _ => -1 end, k);
  SSL_read n k :=
    match w_script k with
    | Interrupt :: _ => (inr (-1), w_next k)
    | _ => match take (w_moves (Z.to_nat n) k) (w_in k) with
           | [] => (inr 0, k)
           | d => (inl d, w_next (w_move (drop (length d) (w_in k)) (w_out k) k))
           end
    end;
  SSL_write b k :=
    match w_script k with
    | Interrupt :: _ => (-1, w_next k)
    | _ => let n := w_moves (length b) k in (Z.of_nat n, w_next (w_move (w_in k) (w_out k ++ take n b) k))
    end;
  SSL_get_error rc _ := if rc =? 0 then SSL_ERROR_ZERO_RETURN else SSL_ERROR_WANT_READ;
  SSL_shutdown k := (1, k);
  SSL_clear k := (1, k);
  SSL_set_SSL_CTX c k := (c.2, k);
  SSL_get_servername _ := None;
  ERR_peek_error _ := 0;
  ssl_errno _ := 0;
  cert_matches c name := Ok (bool_decide (c.1 = name)) |}.

#[export] Instance wire_tls : TlsStream wire_kernel (bytes * bool) 7.
Proof.
  refine {| tls_wire k := {| p_in := w_in k; p_out := w_out k |} |}.
  - done.
  - intros ev to k. cbn. pose proof (w_tail k). destruct (w_script k) as [|[]?] eqn:E; cbn; rewrite ?E; cbn; split_and!; try done; cbn; try lia.
  - intros n k Hn. cbn. pose proof (w_tail k) as Ht. destruct (w_script k) as [|[| |] t] eqn:E; cbn [tail length] in Ht.
    2: { split_and!; [done..|]. right. split; [by left|]. cbn. rewrite E. cbn. lia. }
    all: assert (0 < w_moves (Z.to_nat n) k <= Z.to_nat n)%nat as Hm by (unfold w_moves; rewrite E; lia).
    all: destruct (take (w_moves (Z.to_nat n) k) (w_in k)) as [|c d] eqn:Ed.
    1, 3, 5: split_and!; [done..|]; left; split_and!; [done| |cbn; rewrite ?E; cbn; lia]; cbn; destruct (w_in k); [done|]; destruct (w_moves (Z.to_nat n) k); [lia|done].
    all: assert (length (c :: d) <= Z.to_nat n)%nat as Hl by (rewrite <- Ed, length_take; lia).
    all: split_and!; [cbn [p_in]; rewrite <- Ed; apply prefix_take|done|unfold zlen; lia|cbn; rewrite ?E; cbn; lia|done].
  - intros b k Hb. cbn. pose proof (w_tail k) as Ht. assert (0 < length b)%nat as Hl by (destruct b; [done|cbn; lia]).
    destruct (w_script k) as [|[| |] t] eqn:E; cbn [tail length] in Ht.
    2: { right. split_and!; [done..|by left|cbn; rewrite E; cbn; lia]. }
    all: assert (0 < w_moves (length b) k <= length b)%nat as Hm by (unfold w_moves; rewrite E; lia).
    all: left; split_and!; [lia|unfold zlen; lia|cbn; rewrite ?E; cbn; lia|by rewrite Nat2Z.id].
Defined.

Lemma tls_readn_refines_pipe_witness :
  let k := demo_wire [Interrupt; Short 2; Quiet] in
  (exists r d oserr k', Cnxn.readn 10 true 5 (Some 3) 1000 (Some 0) k = (Ok (r, d, Some (3 + zlen d), oserr), k') /\
    d `prefix_of` p_in (tls_wire (fd:=7) k) /\
    tls_wire (fd:=7) k' = {| p_in := drop (length d) (p_in (tls_wire (fd:=7) k)); p_out := p_out (tls_wire (fd:=7) k) |} /\
    ((r = File.E_ok /\ Nio.readn 5 (tls_wire (fd:=7) k) = ((File.E_ok, d, 0), tls_wire (fd:=7) k')) \/
     (r = E_timed_out /\ oserr = Some ETIMEDOUT /\ zlen d < 5 /\ late (sd:=7) 1000))) /\
  (Cnxn.readn 10 true 5 (Some 3) 1000 (Some 0) k).1 = Ok (File.E_ok, bytes_of "hello", Some 8, Some 0).
Proof.
  cbv zeta. split; [|vm_compute; reflexivity].
  apply (tls_readn_refines_pipe (sd:=7) 10 5 1000 3 0 (demo_wire [Interrupt; Short 2; Quiet])); [reflexivity|vm_compute; lia].
Defined.

(** Two names; OpenSSL refuses the third context. *)
Definition demo_contexts : connection (bytes * bool) :=
  {| m_mode := server; m_contexts := [(true, (bytes_of "a", true)); (false, (bytes_of "b", true)); (false, (bytes_of "c", false))] |}.

Lemma switch_context_selects_witness :
  let k := demo_wire [] in
  let c' := {| m_mode := server; m_contexts := [(false, (bytes_of "a", true)); (true, (bytes_of "b", true)); (false, (bytes_of "c", false))] |} in
  Cnxn.switch_context (bytes_of "b") (demo_contexts, k) = (Ok tt, (c', k)) /\
  (m_contexts c').*2 = (m_contexts demo_contexts).*2 /\ one_current (m_contexts c') /\
  (exists i ctx, m_contexts c' !! i = Some (true, ctx) /\ cert_matches (K:=wire_kernel) ctx (bytes_of "b") = Ok true /\
     forall j y, (j < i)%nat -> m_contexts c' !! j = Some y -> cert_matches (K:=wire_kernel) y.2 (bytes_of "b") = Ok false).
Proof.
  cbv zeta. split; [vm_compute; reflexivity|].
  refine (switch_context_selects (bytes_of "b") demo_contexts _ (demo_wire []) (demo_wire []) (Ok tt) _ _); [|vm_compute; reflexivity].
  exists 0%nat, (bytes_of "a", true). split; [reflexivity|]. intros [|[|[|j]]] x Hx Hc; [reflexivity|injection Hx as <-; discriminate..|discriminate].
Defined.

Example switch_refused : exists c', Cnxn.switch_context (bytes_of "c") (demo_contexts, demo_wire []) = (Throw runtime_error, (c', demo_wire [])) /\
  (m_contexts c').*1 = [false; false; false].
Proof. eexists. split; vm_compute; reflexivity. Qed.

