(* ===== verification/TlsTransport.v ===== *)
(** * http over TLS

    A TLS connection whose waits end in time carries messages as [pipe] does, so
    https is http: the theorem on requests holds for it as it does for sockets. *)
From S2P Require Import Prelude Effects Numbers UriText Uri UriRoundTrip.
From S2P Require Import Text Timeutil Scanner Hval HvalText Headers HeadersSpec Nio.
From S2P Require Import Body Message Transmit TransmitFacts Addr Sock SocketTransport Cnxn.
From S2P Require File.

(** [readn] and [writen] of a connection as the class that [nio] uses; the bound
    on the rounds is what [TlsStream] makes enough, and the last case is excluded
    by [tls_hom]. *)
Definition tls_transport {K C} `{!SockCalls K} `{!SslCalls K C} {sd} `{!TlsStream K C sd} (to : Z) : Transport K := {|
  readn n k :=
    match Cnxn.readn (Datatypes.S (patience k + Z.to_nat n)) true n (Some 0) to (Some 0) k with
    | (Ok (r, d, _, o), k') => ((r, d, default 0 o), k')
    | (_, k') => ((File.E_read_failed, [], 0), k')
    end;
  writen b k :=
    match Cnxn.writen (Datatypes.S (patience k + length b)) (Some b) (Some 0) to (Some 0) k with
    | (Ok (r, n, o), k') => ((r, default 0 n, default 0 o), k')
    | (_, k') => ((File.E_write_failed, 0, 0), k')
    end;
  pending k := length (p_in (tls_wire (fd:=sd) k)) |}.

Lemma tls_hom {K C} `{!SockCalls K} `{!SslCalls K C} {sd} `{!TlsStream K C sd} to : ~ late (K:=K) (sd:=sd) to ->
  @TransportHom K pipe (tls_transport to) pipe_transport (tls_wire (fd:=sd)).
Proof.
  intros Hto. split.
  - intros n k. cbn [readn tls_transport]. destruct (Z.leb_spec n 0) as [Hn|Hn].
    { unfold Cnxn.readn. cbn. destruct (Z.leb_spec n 0); [|lia]. done. }
    destruct (tls_readn_run (sd:=sd) (Datatypes.S (patience k + Z.to_nat n)) n to 0 0 k Hn ltac:(lia)) as (r & d & o & k' & E & (_ & Hw) & Hout & Hz).
    rewrite E. destruct Hout as [(-> & Hd)|(_ & _ & _ & ?)]; [|done]. rewrite (Hz eq_refl eq_refl). cbn [fst snd default].
    rewrite (pipe_readn_take n _ d Hn Hd). by rewrite Hw.
  - intros b k. cbn [writen tls_transport]. destruct b as [|c b]; [done|].
    destruct (tls_writen_run (sd:=sd) (Datatypes.S (patience k + length (c :: b))) (c :: b) to 0 0 k ltac:(done) ltac:(lia))
      as (r & n & o & k' & E & Hw & (_ & Hout) & Hz).
    rewrite E. destruct Hout as [(-> & ->)|(_ & _ & _ & ?)]; [|done]. rewrite (Hz eq_refl eq_refl). cbn [fst snd default].
    unfold tls_sent in Hw. rewrite Hw, take_ge by (unfold zlen; lia). done.
  - done.
Qed.

(** C18. A request sent over a TLS connection leaves as its text and its data, and
    arrives at another as the same method, URI, version and fields, and a body
    that has the data in front, however often OpenSSL asks to be tried again. *)
Theorem request_over_tls {K C} `{!SockCalls K} `{!SslCalls K C} {sd} `{!TlsStream K C sd} to1 to2 net lib m u hdrs data :
  ~ late (K:=K) (sd:=sd) to1 -> ~ late (K:=K) (sd:=sd) to2 ->
  origin_form net u -> headers_ok net lib hdrs ->
  Headers.is_set Headers.HOST hdrs = true -> Headers.TRANSFER_ENCODING ∉ hdrs.*1 -> data <> [] -> zlen data < 2 ^ 31 ->
  @request_carried K K (tls_transport (sd:=sd) to1) (tls_transport (sd:=sd) to2)
    (tls_wire (fd:=sd)) (tls_wire (fd:=sd)) net lib m u hdrs data.
Proof. intros H1 H2. apply @request_over; [exact (tls_hom to1 H1)|exact (tls_hom to2 H2)]. Qed.

Lemma tls_in_time : ~ late (K:=wire_kernel) (sd:=7) 1000.
Proof. exact (wire_in_time 7). Qed.

Lemma request_over_tls_witness :
  @request_carried wire_kernel wire_kernel (tls_transport (sd:=7) 1000) (tls_transport (sd:=7) 1000)
    (tls_wire (fd:=7)) (tls_wire (fd:=7)) demo_inet demo_clock M_POST demo_target demo_fields (bytes_of "hello").
Proof.
  apply (request_over_tls (sd:=7) 1000 1000 demo_inet demo_clock M_POST demo_target demo_fields (bytes_of "hello") tls_in_time tls_in_time).
  - apply demo_target_origin.
  - apply demo_fields_ok.
  - reflexivity.
  - apply demo_not_in. reflexivity.
  - discriminate.
  - reflexivity.
Defined.
