(* ===== verification/Clap.v ===== *)
(** * libcom: command lines (libcom/include/clap.h, libcom/src/clap.cpp)

    A tree of commands with options, and the parser of an argument vector.  The
    help texts on the console are left out.  [std::stoll] with base 0 and
    [std::stod] are modelled as the parser uses them. *)
From Stdlib Require Import Floats.SpecFloat.
From S2P Require Import Prelude Effects Numbers UriText Text Headers JsonReal Addr.

(** ** Numbers *)

(** The digits of a base at the start of a text, as a number, and how many there
    are. *)
Definition digit_value (c : Z) : Z :=
  if isdigit c then c - 48 else if (97 <=? c) && (c <=? 122) then c - 87 else if (65 <=? c) && (c <=? 90) then c - 55 else 99.
Definition is_digit_of (b c : Z) : bool := digit_value c <? b.
Definition read_digits (b : Z) (s : bytes) : bytes := take_while (is_digit_of b) s.
Definition digits_value (b : Z) (ds : bytes) : Z := value_of b (digit_value <$> ds).

Definition read_sign (s : bytes) : bool * bytes :=
  match s with
  | c :: s' => if c =? chr "-" then (true, s') else if c =? chr "+" then (false, s') else (false, s)
  | [] => (false, [])
  end.

(** A text that starts with 0x and a digit. *)
Definition hex_prefix (s : bytes) : option bytes :=
  match s with
  | z :: x :: ((d :: _) as s') => if (z =? chr "0") && (tolower x =? chr "x") && is_digit_of 16 d then Some s' else None
  | _ => None
  end.

(** [std::stoll(s, 0, 0)] *)
Definition stoll0 (s : bytes) : res cpp_exn Z :=
  let '(neg, s) := read_sign (skip_while isspace s) in
  let '(b, s) :=
    match hex_prefix s with
    | Some s' => (16, s')
    | None => match s with c :: _ => if c =? chr "0" then (8, s) else (10, s) | [] => (10, s) end
    end in
  match read_digits b s with
  | [] => Throw invalid_argument
  | ds =>
      let v := if neg then - digits_value b ds else digits_value b ds in
      if decide (- 2 ^ 63 <= v < 2 ^ 63) then Ok v else Throw out_of_range
  end.

(** An exponent behind [mark], or 0. *)
Definition read_exponent (mark : Z) (s : bytes) : Z :=
  match s with
  | c :: s =>
      if tolower c =? mark then
        let '(neg, s) := read_sign s in
        match read_digits 10 s with [] => 0 | ds => if neg then - digits_value 10 ds else digits_value 10 ds end
      else 0
  | [] => 0
  end.

(** The digits before and after the point, and what follows. *)
Definition read_mantissa (b : Z) (s : bytes) : bytes * bytes * bytes :=
  let ip := read_digits b s in
  let s := skip_while (is_digit_of b) s in
  match s with
  | c :: s' => if c =? chr "." then (ip, read_digits b s', skip_while (is_digit_of b) s') else (ip, [], s)
  | [] => (ip, [], [])
  end.

(** [ERANGE] for a [double]: overflow, or an inexact result below the normal
    range; [exact]: the result is the number. *)
Definition range_error (zero exact : bool) (r : spec_float) : bool :=
  match r with
  | S754_infinity _ => true
  | S754_zero _ => negb zero
  | S754_finite _ mf _ => (Zpos mf <? 2 ^ 52) && negb exact
  | S754_nan => false
  end.
Definition exact_decimal (m e : Z) (r : spec_float) : bool :=
  match r with S754_finite _ mf ef => same_magnitude (Zpos mf) ef m e | _ => true end.
Definition exact_binary (m e : Z) (r : spec_float) : bool :=
  match r with S754_finite _ mf ef => Zpos mf * 2 ^ (Z.max 0 (ef - e)) =? m * 2 ^ (Z.max 0 (e - ef)) | _ => true end.

Definition starts_with (word s : bytes) : bool := bool_decide (tolower <$> take (length word) s = word).

(** [std::stod(s)] *)
Definition stod (s : bytes) : res cpp_exn double :=
  let '(neg, s) := read_sign (skip_while isspace s) in
  if starts_with (bytes_of "inf") s then Ok (S754_infinity neg)
  else if starts_with (bytes_of "nan") s then Ok S754_nan
  else
    let hex := match s with
      | z :: x :: s' => if (z =? chr "0") && (tolower x =? chr "x") then
          let '(ip, fp, rest) := read_mantissa 16 s' in match ip ++ fp with [] => None | _ => Some (ip, fp, rest) end else None
      | _ => None end in
    match hex with
    | Some (ip, fp, rest) =>
        let m := digits_value 16 (ip ++ fp) in
        let e := read_exponent (chr "p") rest - 4 * zlen fp in
        let r := match m with Zpos p => binary_round 53 1024 neg p e | _ => S754_zero neg end in
        if range_error (m =? 0) (exact_binary m e r) r then Throw out_of_range else Ok r
    | None =>
        let '(ip, fp, rest) := read_mantissa 10 s in
        match ip ++ fp with
        | [] => Throw invalid_argument
        | ds =>
            let m := digits_value 10 ds in
            let e := read_exponent (chr "e") rest - zlen fp in
            let r := round_decimal 53 1024 neg m e in
            if range_error (m =? 0) (exact_decimal m e r) r then Throw out_of_range else Ok r
        end
    end.

(** ** clap.h *)
Inductive cl_opt_type := t_none | t_bool | t_int | t_real | t_string | t_sequence.
Inductive cl_opt_arg :=
  | monostate
  | arg_bool (b : bool)
  | arg_int (v : Z)
  | arg_real (d : double)
  | arg_string (s : bytes)
  | arg_sequence (l : list bytes).

Record cl_opt := { o_name : bytes; longname : bytes; o_desc : bytes; required : bool; o_type : cl_opt_type; arg : cl_opt_arg }.
Definition found_opt (o : cl_opt) : bool := match arg o with monostate => false | _ => true end.
Definition set_arg (a : cl_opt_arg) (o : cl_opt) : cl_opt :=
  {| o_name := o_name o; longname := longname o; o_desc := o_desc o; required := required o; o_type := o_type o; arg := a |}.

Inductive command :=
  Command (m_name m_desc : bytes) (m_options : list cl_opt) (m_subcmds : list command) (m_found : bool).
Definition name (c : command) : bytes := let 'Command n _ _ _ _ := c in n.
Definition options (c : command) : list cl_opt := let 'Command _ _ o _ _ := c in o.
Definition subcommands (c : command) : list command := let 'Command _ _ _ s _ := c in s.
Definition found (c : command) : bool := let 'Command _ _ _ _ f := c in f.

(** [subcommand()]: the first that was found. *)
Definition subcommand (c : command) : res cpp_exn command :=
  match List.find found (subcommands c) with Some sc => Ok sc | None => Throw out_of_range end.
Definition add_subcommand (sc c : command) : command :=
  let 'Command n d o s f := c in Command n d o (s ++ [sc]) f.
Definition add_option (opt : cl_opt) (c : command) : command :=
  let 'Command n d o s f := c in Command n d (o ++ [opt]) s f.

(** ** clap.cpp *)

(** The loop over [std::getline(ss, s, ',')]: the pieces that are not empty. *)
Fixpoint split_commas (cur s : bytes) : list bytes :=
  match s with
  | [] => match cur with [] => [] | _ => [cur] end
  | c :: s =>
      if c =? chr "," then (match cur with [] => [] | _ => [cur] end) ++ split_commas [] s
      else split_commas (cur ++ [c]) s
  end.

(** The argument of an option that has one. *)
Definition arg_value (t : cl_opt_type) (a : bytes) : res cpp_exn cl_opt_arg :=
  match t with
  | t_int => let? v := stoll0 a in Ok (arg_int v)
  | t_real => let? d := stod a in Ok (arg_real d)
  | t_string => Ok (arg_string a)
  | t_sequence => Ok (arg_sequence (split_commas [] a))
  | t_bool => Ok (arg_bool true)
  | t_none => Ok monostate
  end.

Section argv.
(** The arguments; [argv[argc]] is a null pointer. *)
Context (argv : list bytes).
Abbreviation argc := (length argv).

(** [argv[i][0]] *)
Definition first_char (i : nat) : res cpp_exn Z :=
  match argv !! i with Some a => Ok (hd 0 a) | None => Ub end.

Definition matches (o : cl_opt) (a : bytes) : bool := streq (o_name o) a || streq (longname o) a.

(** The switch over the type: the new argument and index, or [None] when the
    argument is missing. *)
Definition take_arg (o : cl_opt) (idx : nat) : res cpp_exn (option (cl_opt_arg * nat)) :=
  match o_type o with
  | t_bool => Ok (Some (arg_bool true, idx))
  | t_none => Ok (Some (arg o, idx))
  | t =>
      match argv !! Datatypes.S idx with
      | Some a => let? v := arg_value t a in Ok (Some (v, Datatypes.S idx))
      | None => Ok None
      end
  end.

(** The loop over the options, for the argument at [idx]: [false] ends the
    parser. *)
Fixpoint each_option (opts : list cl_opt) (idx : nat) : res cpp_exn bool * (nat * list cl_opt) :=
  match opts with
  | [] => (Ok true, (idx, []))
  | o :: opts =>
      match argv !! idx with
      | None => (Ub, (idx, o :: opts))
      | Some a =>
          if matches o a then
            match take_arg o idx with
            | Ok (Some (v, idx)) => let '(r, (idx, opts)) := each_option opts idx in (r, (idx, set_arg v o :: opts))
            | Ok None => (Ok false, (idx, o :: opts))
            | Throw e => (Throw e, (idx, o :: opts))
            | Ub => (Ub, (idx, o :: opts))
            | Diverge => (Diverge, (idx, o :: opts))
            end
          else (Ok false, (idx, o :: opts))
      end
  end.

(** The outer loop; [idx] grows in every round. *)
Fixpoint args_loop (fuel : nat) : M cpp_exn (nat * list cl_opt) bool := fun st =>
  let '(idx, opts) := st in
  match fuel with
  | O => (Diverge, st)
  | S fuel =>
      if decide (argc <= idx)%nat then (Ok true, st)
      else
        match first_char idx with
        | Ok c =>
            if negb (c =? chr "-") then (Ok true, st)
            else match opts with
                 | [] => (Ok false, st)
                 | _ =>
                     match each_option opts idx with
                     | (Ok true, (idx, opts)) => args_loop fuel (Datatypes.S idx, opts)
                     | r => r
                     end
                 end
        | _ => (Ub, st)
        end
  end.

(** [parse_args] *)
Definition parse_args : M cpp_exn (nat * list cl_opt) bool :=
  let! ok := args_loop (Datatypes.S argc) in
  if ok then gets (fun st => forallb (fun o => negb (required o && negb (found_opt o))) st.2) else ret false.

(** The search for the sub-command that an argument names, which goes on with
    [step]. *)
Section search.
Context (step : command -> res cpp_exn bool * command) (a : bytes).
Fixpoint search (l : list command) : res cpp_exn bool * list command :=
  match l with
  | [] => (Ok false, [])
  | sc :: l =>
      if streq (name sc) a then let '(r, sc) := step sc in (r, sc :: l)
      else let '(r, l) := search l in (r, sc :: l)
  end.
End search.

(** [parse], which marks the commands and options of the tree. *)
Fixpoint parse (idx : nat) (c : command) {struct c} : res cpp_exn bool * command :=
  let 'Command n d opts subs f := c in
  if decide (Datatypes.S idx = argc) then
    (Ok (match subs, opts with [], [] => true | _, _ => false end), c)
  else
    let idx := Datatypes.S idx in
    match first_char idx with
    | Ok ch =>
        let '(r, (idx, opts)) := if ch =? chr "-" then parse_args (idx, opts) else (Ok true, (idx, opts)) in
        match r with
        | Ok true =>
            match subs with
            | [] => (Ok true, Command n d opts subs true)
            | _ =>
                match argv !! idx with
                | None => (Ub, Command n d opts subs true)
                | Some a => let '(r, subs) := search (parse idx) a subs in (r, Command n d opts subs true)
                end
            end
        | r => (r, Command n d opts subs true)
        end
    | _ => (Ub, Command n d opts subs true)
    end.

(** [cl_parse] *)
Definition cl_parse (cmd : command) : res cpp_exn bool * command := parse 0 cmd.
End argv.

(** ** Facts (libcom: what a command line means)

    [accepts] says which arguments belong to a tree of commands that have at most
    one option each, and what the parser leaves in the tree; [parse] decides it.
    With two options or more nothing that starts with a dash is accepted. *)

(** ** The grammar *)

(** The value of an option, and the arguments that follow. *)
Definition value_taken (o : cl_opt) (args : list bytes) (v : cl_opt_arg) (rest : list bytes) : Prop :=
  match o_type o with
  | t_bool => v = arg_bool true /\ rest = args
  | t_none => v = arg o /\ rest = args
  | t => exists a, args = a :: rest /\ arg_value t a = Ok v
  end.

Definition starts_with_dash (args : list bytes) : bool := match args with a :: _ => hd 0 a =? chr "-" | [] => false end.

(** An option any number of times; the last value stays. *)
Inductive option_taken : cl_opt -> list bytes -> cl_opt -> list bytes -> Prop :=
  | taken_none o args : starts_with_dash args = false -> option_taken o args o args
  | taken_more o a args v args' o' rest : hd 0 a = chr "-" -> matches o a = true -> value_taken o args v args' ->
      option_taken (set_arg v o) args' o' rest -> option_taken o (a :: args) o' rest.

(** The options of a command: a required one is looked for only when the first
    argument has a dash. *)
Inductive options_taken : list cl_opt -> list bytes -> list cl_opt -> list bytes -> Prop :=
  | no_dash opts args : starts_with_dash args = false -> options_taken opts args opts args
  | one_option o args o' rest : starts_with_dash args = true -> option_taken o args o' rest ->
      negb (required o' && negb (found_opt o')) = true -> options_taken [o] args [o'] rest.

Inductive accepts : command -> list bytes -> command -> Prop :=
  | accepts_bare n d f : accepts (Command n d [] [] f) [] (Command n d [] [] f)
  | accepts_leaf n d opts f args opts' rest : args <> [] -> options_taken opts args opts' rest ->
      accepts (Command n d opts [] f) args (Command n d opts' [] true)
  | accepts_sub n d opts before sc after f args opts' a rest sc' : args <> [] -> options_taken opts args opts' (a :: rest) ->
      Forall (fun s => streq (name s) a = false) before -> streq (name sc) a = true -> accepts sc rest sc' ->
      accepts (Command n d opts (before ++ sc :: after) f) args (Command n d opts' (before ++ sc' :: after) true).

(** Every command of the tree has one option at most. *)
Fixpoint single_options (c : command) : bool :=
  let 'Command _ _ opts subs _ := c in (length opts <=? 1)%nat && forallb single_options subs.

Lemma command_ind' (P : command -> Prop) : (forall n d o s f, Forall P s -> P (Command n d o s f)) -> forall c, P c.
Proof.
  intros H. fix IH 1. intros [n d o s f]. apply H. induction s as [|c s IHs]; [constructor|]. constructor; [apply IH|exact IHs].
Qed.

(** ** The parser decides it *)
Section argv.
Context (argv : list bytes).
Abbreviation argc := (length argv).

Lemma take_arg_value o idx v idx' : take_arg argv o idx = Ok (Some (v, idx')) ->
  value_taken o (drop (Datatypes.S idx) argv) v (drop (Datatypes.S idx') argv) /\ (idx <= idx')%nat /\ ((idx < argc)%nat -> (idx' < argc)%nat).
Proof.
  unfold take_arg, value_taken. destruct (o_type o); try (intros [= <- <-]; done).
  all: destruct (argv !! Datatypes.S idx) as [a|] eqn:E; [|done]; rewrite (drop_S _ _ _ E).
  all: destruct (arg_value _ a) as [v'| | |] eqn:Ev; try done; intros [= <- <-].
  all: split; [eauto|]; split; [lia|intros _; by eapply lookup_lt_Some].
Qed.

Lemma value_take_arg o idx v rest : value_taken o (drop (Datatypes.S idx) argv) v rest ->
  exists idx', take_arg argv o idx = Ok (Some (v, idx')) /\ rest = drop (Datatypes.S idx') argv /\ (idx <= idx')%nat /\ ((idx < argc)%nat -> (idx' < argc)%nat).
Proof.
  unfold take_arg, value_taken. destruct (o_type o); try (intros [-> ->]; by exists idx).
  all: intros (a & Ha & Hv); pose proof (f_equal head Ha) as Hh; rewrite head_lookup, lookup_drop, Nat.add_0_r in Hh; cbn in Hh.
  all: rewrite Hh, Hv; exists (Datatypes.S idx); rewrite (drop_S _ _ _ Hh) in Ha; injection Ha as <-.
  all: split; [done|]; split; [done|]; split; [lia|intros _; by eapply lookup_lt_Some].
Qed.

(** One option against one argument. *)
Lemma each_option_one o idx a : argv !! idx = Some a ->
  each_option argv [o] idx =
    (if matches o a then
       match take_arg argv o idx with
       | Ok (Some (v, idx)) => (Ok true, (idx, [set_arg v o]))
       | Ok None => (Ok false, (idx, [o]))
       | Throw e => (Throw e, (idx, [o]))
       | Ub => (Ub, (idx, [o]))
       | Diverge => (Diverge, (idx, [o]))
       end
     else (Ok false, (idx, [o]))).
Proof.
  intros E. cbn [each_option]. rewrite E. destruct (matches o a); [|done]. by destruct (take_arg argv o idx) as [[[]|]| | |].
Qed.

Lemma dash_at idx a : argv !! idx = Some a -> starts_with_dash (drop idx argv) = (hd 0 a =? chr "-").
Proof. intros E. by rewrite (drop_S _ _ _ E). Qed.

Lemma each_option_length opts idx r idx' opts' : each_option argv opts idx = (r, (idx', opts')) -> length opts' = length opts.
Proof.
  revert idx r idx' opts'. induction opts as [|o opts IH]; intros idx r idx' opts'; cbn [each_option]; [by intros [= _ _ <-]|].
  destruct (argv !! idx) as [a|]; [|by intros [= _ _ <-]]. destruct (matches o a); [|by intros [= _ _ <-]].
  destruct (take_arg argv o idx) as [[[v idx1]|]| | |]; try (by intros [= _ _ <-]).
  destruct (each_option argv opts idx1) as [r1 [idx2 opts2]] eqn:E. intros [= _ _ <-]. cbn. by rewrite (IH _ _ _ _ E).
Qed.

Lemma args_loop_length : forall fuel idx opts r idx' opts', args_loop argv fuel (idx, opts) = (r, (idx', opts')) -> length opts' = length opts.
Proof.
  induction fuel as [|fuel IH]; intros idx opts r idx' opts'; cbn [args_loop]; [by intros [= _ _ <-]|].
  case_decide; [by intros [= _ _ <-]|]. destruct (first_char argv idx); try (by intros [= _ _ <-]).
  destruct (negb _); [by intros [= _ _ <-]|]. destruct opts as [|o opts]; [by intros [= _ _ <-]|].
  destruct (each_option argv (o :: opts) idx) as [r1 [idx1 opts1]] eqn:E. pose proof (each_option_length _ _ _ _ _ E) as Hl.
  destruct r1 as [[]| | |]; intros Heq; try (by injection Heq as _ _ <-). by rewrite (IH _ _ _ _ _ Heq).
Qed.

Lemma args_loop_single fuel idx o r idx' opts' : args_loop argv fuel (idx, [o]) = (r, (idx', opts')) -> exists o', opts' = [o'].
Proof. intros H%args_loop_length. destruct opts' as [|o' [|]]; try done. by exists o'. Qed.

Lemma args_loop_taken o : forall fuel idx o' idx', args_loop argv fuel (idx, [o]) = (Ok true, (idx', [o'])) ->
  (idx <= idx')%nat /\ option_taken o (drop idx argv) o' (drop idx' argv).
Proof.
  intros fuel. revert o. induction fuel as [|fuel IH]; intros o idx o' idx'; [done|]. cbn [args_loop].
  case_decide as Hidx.
  { intros [= <- <-]. rewrite drop_ge by done. split; [done|]. by constructor. }
  destruct (lookup_lt_is_Some_2 argv idx ltac:(lia)) as [a E]. unfold first_char. rewrite E.
  destruct (Z.eqb_spec (hd 0 a) (chr "-")) as [Hd|Hd]; cbn [negb].
  2: { intros [= <- <-]. split; [done|]. constructor. rewrite (dash_at _ _ E). by apply Z.eqb_neq. }
  rewrite (each_option_one _ _ _ E). destruct (matches o a) eqn:Em; [|done].
  destruct (take_arg argv o idx) as [[[v idx1]|]| | |] eqn:Et; try done. intros Hl. destruct (IH _ _ _ _ Hl) as [Hle Hrec].
  destruct (take_arg_value _ _ _ _ Et) as (Hv & Hle1 & _). split; [lia|]. rewrite (drop_S _ _ _ E). by eapply taken_more.
Qed.

Lemma drop_cons_at {A} (l : list A) idx a t : a :: t = drop idx l -> l !! idx = Some a /\ t = drop (Datatypes.S idx) l.
Proof.
  intros H. assert (l !! idx = Some a) as E by (rewrite <- (Nat.add_0_r idx), <- lookup_drop, <- H; done).
  split; [done|]. rewrite (drop_S _ _ _ E) in H. by injection H.
Qed.

Lemma taken_args_loop o args o' rest : option_taken o args o' rest -> forall fuel idx, args = drop idx argv -> (idx <= argc)%nat -> (argc < fuel + idx)%nat ->
  exists idx', args_loop argv fuel (idx, [o]) = (Ok true, (idx', [o'])) /\ rest = drop idx' argv /\ (idx <= idx' <= argc)%nat.
Proof.
  induction 1 as [o args Hd|o a args v args' o' rest Hd Hm Hv _ IH]; intros fuel idx Ha Hle Hf; (destruct fuel as [|fuel]; [lia|]); cbn [args_loop].
  - exists idx. case_decide as Hidx; [done|]. destruct (lookup_lt_is_Some_2 argv idx ltac:(lia)) as [a E].
    unfold first_char. rewrite E. rewrite Ha, (dash_at _ _ E) in Hd. by rewrite Hd.
  - destruct (drop_cons_at _ _ _ _ Ha) as [E ->]. pose proof (lookup_lt_Some _ _ _ E) as Hlt. case_decide; [lia|].
    unfold first_char. rewrite E, Hd, Z.eqb_refl. cbn [negb]. rewrite (each_option_one _ _ _ E), Hm.
    destruct (value_take_arg _ _ _ _ Hv) as (idx1 & -> & -> & Hle1 & Hlt1). specialize (Hlt1 Hlt).
    destruct (IH fuel (Datatypes.S idx1) eq_refl ltac:(lia) ltac:(lia)) as (idx' & El & -> & ?). exists idx'. split; [done|]. split; [done|lia].
Qed.

(** The option part of [parse]. *)
Definition option_part (idx : nat) (opts : list cl_opt) (ch : Z) : res cpp_exn bool * (nat * list cl_opt) :=
  if ch =? chr "-" then parse_args argv (idx, opts) else (Ok true, (idx, opts)).

Lemma option_part_taken idx a opts opts' idx' : argv !! idx = Some a -> (length opts <=? 1)%nat = true ->
  option_part idx opts (hd 0 a) = (Ok true, (idx', opts')) -> (idx <= idx')%nat /\ options_taken opts (drop idx argv) opts' (drop idx' argv).
Proof.
  intros E Hone. unfold option_part, parse_args. destruct (Z.eqb_spec (hd 0 a) (chr "-")) as [Hd|Hd].
  2: { intros [= <- <-]. split; [done|]. constructor. rewrite (dash_at _ _ E). by apply Z.eqb_neq. }
  pose proof (lookup_lt_Some _ _ _ E) as Hlt. unfold bind. destruct opts as [|o [|]]; [| |done].
  { cbn [args_loop]. case_decide; [lia|]. unfold first_char. rewrite E, Hd. done. }
  destruct (args_loop argv (Datatypes.S argc) (idx, [o])) as [[[]| | |] [idx1 opts1]] eqn:El; try done.
  assert (exists o1, opts1 = [o1]) as [o1 ->] by (by eapply args_loop_single).
  destruct (args_loop_taken _ _ _ _ _ El) as [Hle Ht]. unfold gets. intros [= Hr <- <-]. split; [done|].
  constructor; [by rewrite (dash_at _ _ E), Hd|done|]. cbn in Hr. by rewrite andb_true_r in Hr.
Qed.

Lemma taken_option_part idx a opts opts' rest : argv !! idx = Some a -> options_taken opts (drop idx argv) opts' rest ->
  exists idx', option_part idx opts (hd 0 a) = (Ok true, (idx', opts')) /\ rest = drop idx' argv /\ (idx <= idx' <= argc)%nat.
Proof.
  intros E Ht. pose proof (lookup_lt_Some _ _ _ E) as Hlt. pose proof (dash_at _ _ E) as Hdash. unfold option_part.
  inversion Ht as [opts1 args Hd|o args o' rest' Hd Ho Hr]; subst; rewrite Hdash in Hd; rewrite Hd; [by exists idx; split_and!; [..|lia]|].
  destruct (taken_args_loop _ _ _ _ Ho (Datatypes.S argc) idx eq_refl ltac:(lia) ltac:(lia)) as (idx' & El & -> & ?).
  exists idx'. split; [|done]. unfold parse_args, bind. rewrite El. unfold gets. cbn. by rewrite Hr.
Qed.

(** *** The search *)
Lemma search_found step a l l' : search step a l = (Ok true, l') -> exists before sc after sc', l = before ++ sc :: after /\ l' = before ++ sc' :: after /\
  Forall (fun s => streq (name s) a = false) before /\ streq (name sc) a = true /\ step sc = (Ok true, sc').
Proof.
  revert l'. induction l as [|sc l IH]; intros l'; [done|]. cbn [search]. destruct (streq (name sc) a) eqn:E.
  - destruct (step sc) as [r sc'] eqn:Es. intros [= -> <-]. by exists [], sc, l, sc'.
  - destruct (search step a l) as [r l1]. intros [= -> <-]. destruct (IH l1 eq_refl) as (b & sc0 & af & sc' & -> & -> & Hb & Hs & Ht).
    exists (sc :: b), sc0, af, sc'. split_and!; [done..|by constructor|done|done].
Qed.

Lemma found_search step a before sc after sc' r : Forall (fun s => streq (name s) a = false) before -> streq (name sc) a = true -> step sc = (r, sc') ->
  search step a (before ++ sc :: after) = (r, before ++ sc' :: after).
Proof.
  intros Hb Hs Ht. induction Hb as [|s b Hn _ IH]; cbn [search app]; [by rewrite Hs, Ht|by rewrite Hn, IH].
Qed.

Lemma parse_eq idx n d opts subs f : parse argv idx (Command n d opts subs f) =
  (if decide (Datatypes.S idx = argc) then (Ok (match subs, opts with [], [] => true | _, _ => false end), Command n d opts subs f)
   else match first_char argv (Datatypes.S idx) with
        | Ok ch =>
            let '(r, (idx, opts)) := option_part (Datatypes.S idx) opts ch in
            match r with
            | Ok true =>
                match subs with
                | [] => (Ok true, Command n d opts subs true)
                | _ => match argv !! idx with
                       | None => (Ub, Command n d opts subs true)
                       | Some a => let '(r, subs) := search (parse argv idx) a subs in (r, Command n d opts subs true)
                       end
                end
            | r => (r, Command n d opts subs true)
            end
        | _ => (Ub, Command n d opts subs true)
        end).
Proof. done. Qed.

(** C20. For a tree of commands with one option at most each, [parse] returns
    [true] exactly for the arguments that the grammar accepts, and marks in the
    tree the commands and the values that it names. *)
Theorem parse_accepts c c' idx : single_options c = true -> (idx < argc)%nat ->
  parse argv idx c = (Ok true, c') <-> accepts c (drop (Datatypes.S idx) argv) c'.
Proof.
  revert idx c'. induction c as [n d opts subs f IHs] using command_ind'. intros idx c' Hc Hidx. cbn in Hc. apply andb_prop in Hc as [Hone Hsubs].
  rewrite parse_eq. case_decide as Hend.
  { rewrite Hend, drop_ge by done. split.
    - intros Hp. destruct subs, opts; try done. injection Hp as <-. constructor.
    - inversion 1; subst; done. }
  destruct (lookup_lt_is_Some_2 argv (Datatypes.S idx) ltac:(lia)) as [a E]. unfold first_char. rewrite E.
  assert (drop (Datatypes.S idx) argv <> []) as Hne by (by rewrite (drop_S _ _ _ E)). split.
  - destruct (option_part (Datatypes.S idx) opts (hd 0 a)) as [r [idx1 opts1]] eqn:Eo. destruct r as [[]| | |]; try done.
    destruct (option_part_taken _ _ _ _ _ E Hone Eo) as [Hle Ht]. destruct subs as [|s0 subs]; [intros [= <-]; by econstructor|].
    destruct (argv !! idx1) as [a1|] eqn:E1; [|done]. destruct (search (parse argv idx1) a1 (s0 :: subs)) as [r l'] eqn:Es.
    intros [= -> <-]. destruct (search_found _ _ _ _ Es) as (b & sc & af & sc' & Hl & -> & Hb & Hn & Hp).
    rewrite Hl in *. rewrite (drop_S _ _ _ E1) in Ht. eapply accepts_sub; [done|exact Ht|done|done|].
    apply Forall_app in IHs as [_ IHs]. inversion IHs as [|? ? IHsc _]; subst. rewrite forallb_app in Hsubs. cbn in Hsubs.
    apply andb_prop in Hsubs as [_ Hsubs]. apply andb_prop in Hsubs as [Hsc _]. apply IHsc; [done|by eapply lookup_lt_Some|done].
  - inversion 1 as [|n0 d0 opts0 f0 args0 opts' rest _ Ht|n0 d0 opts0 b sc af f0 args0 opts' a1 rest sc' _ Ht Hb Hn Hacc]; subst; [done|..];
      destruct (taken_option_part _ _ _ _ _ E Ht) as (idx1 & -> & Hr & Hle); [done|].
    destruct (drop_cons_at _ _ _ _ Hr) as [E1 ->]. rewrite E1.
    assert (parse argv idx1 sc = (Ok true, sc')) as Hp.
    { apply Forall_app in IHs as [_ IHs]. inversion IHs as [|? ? IHsc _]; subst. rewrite forallb_app in Hsubs. cbn in Hsubs.
      apply andb_prop in Hsubs as [_ Hsubs]. apply andb_prop in Hsubs as [Hsc _]. apply IHsc; [done|by eapply lookup_lt_Some|done]. }
    destruct (b ++ sc :: af) as [|x l] eqn:El; [by destruct b|]. rewrite <- El. by rewrite (found_search _ _ _ _ _ _ _ Hb Hn Hp).
Qed.
End argv.

(** ** Where the parser and the documentation part *)

(** A command with two options or more accepts no argument with a dash: after
    the first option has matched, the same argument, or the value behind it, is
    compared with the second. *)
Theorem options_exclude_each_other argv n d o1 o2 opts subs f a : argv !! 1%nat = Some a -> hd 0 a = chr "-" ->
  (matches o1 a = true -> matches o2 a = false) -> (forall v, argv !! 2%nat = Some v -> matches o2 v = false) ->
  (cl_parse argv (Command n d (o1 :: o2 :: opts) subs f)).1 <> Ok true.
Proof.
  intros E Hd H1 H2. pose proof (lookup_lt_Some _ _ _ E) as Hlt. unfold cl_parse. rewrite parse_eq. case_decide; [lia|].
  unfold first_char. rewrite E. unfold option_part. rewrite Hd, Z.eqb_refl. unfold parse_args, bind. cbn [args_loop].
  case_decide; [lia|]. unfold first_char. rewrite E, Hd, Z.eqb_refl. cbn [negb].
  assert (exists r st, each_option argv (o1 :: o2 :: opts) 1 = (r, st) /\ r <> Ok true) as (r & st & -> & Hr).
  { cbn [each_option]. rewrite E. destruct (matches o1 a); [|by do 2 eexists]. specialize (H1 eq_refl).
    destruct (take_arg argv o1 1) as [[[v i]|]| | |] eqn:Et; try (by do 2 eexists).
    assert (exists x, argv !! i = Some x /\ matches o2 x = false) as (x & -> & ->); [|by do 2 eexists].
    unfold take_arg in Et. destruct (o_type o1); try (injection Et as <- <-; eauto).
    all: destruct (argv !! 2%nat) as [x|] eqn:E2; [|done]; destruct (arg_value _ x); try done; injection Et as <- <-; eauto. }
  destruct r as [[]| | |], st; try done; by destruct subs.
Qed.

Definition demo_flag : cl_opt := {| o_name := bytes_of "-v"; longname := bytes_of "--verbose"; o_desc := []; required := false; o_type := t_bool; arg := monostate |}.
Definition demo_count : cl_opt := {| o_name := bytes_of "-n"; longname := bytes_of "--count"; o_desc := []; required := true; o_type := t_int; arg := monostate |}.
Definition demo_leaf (n : string) (opts : list cl_opt) (f : bool) : command := Command (bytes_of n) [] opts [] f.
Definition words (l : list string) : list bytes := bytes_of <$> l.

Lemma options_exclude_each_other_witness :
  let argv := words ["prog"; "-v"]%string in
  (cl_parse argv (Command (bytes_of "prog") [] [demo_flag; demo_count] [] false)).1 <> Ok true /\
  (cl_parse argv (Command (bytes_of "prog") [] [demo_flag] [] false)).1 = Ok true.
Proof.
  cbv zeta. split; [|vm_compute; reflexivity].
  apply (options_exclude_each_other (words ["prog"; "-v"]%string) _ _ _ _ _ _ _ (bytes_of "-v")); [reflexivity|reflexivity|reflexivity|discriminate].
Defined.

(** A tree with one option each, parsed. *)
Lemma parse_accepts_witness :
  let argv := words ["prog"; "-v"; "put"; "-n"; "0x10"; "file"]%string in
  let tree v sub f := Command (bytes_of "prog") [] [v] [demo_leaf "get" [] false; sub] f in
  let c' := tree (set_arg (arg_bool true) demo_flag) (demo_leaf "put" [set_arg (arg_int 16) demo_count] true) true in
  parse argv 0 (tree demo_flag (demo_leaf "put" [demo_count] false) false) = (Ok true, c') /\
  accepts (tree demo_flag (demo_leaf "put" [demo_count] false) false) (drop 1 argv) c'.
Proof.
  cbv zeta. split; [vm_compute; reflexivity|].
  apply (parse_accepts (words ["prog"; "-v"; "put"; "-n"; "0x10"; "file"]%string)); [reflexivity|cbn; lia|vm_compute; reflexivity].
Defined.

(** A sub-command that needs no arguments is accepted, but not marked: [subcommand]
    does not find it. *)
Example leaf_not_found :
  let c := Command (bytes_of "prog") [] [] [demo_leaf "list" [] false] false in
  exists c', cl_parse (words ["prog"; "list"]%string) c = (Ok true, c') /\ subcommand c' = Throw out_of_range.
Proof. eexists. split; vm_compute; reflexivity. Qed.

(** Options without a sub-command behind them: the null pointer at the end of
    the arguments is read. *)
Example null_argument :
  (cl_parse (words ["prog"; "-v"]%string) (Command (bytes_of "prog") [] [demo_flag] [demo_leaf "list" [] false] false)).1 = Ub.
Proof. vm_compute. reflexivity. Qed.

(** A required option is not missed when the first argument is not an option, and
    a command whose options are all optional does not run without arguments. *)
Example required_not_missed : (cl_parse (words ["prog"; "file"]%string) (demo_leaf "prog" [demo_count] false)).1 = Ok true.
Proof. vm_compute. reflexivity. Qed.
Example optional_missed : (cl_parse (words ["prog"]%string) (demo_leaf "prog" [demo_flag] false)).1 = Ok false.
Proof. vm_compute. reflexivity. Qed.
