(* ===== verification/FileSys.v ===== *)
(** * libcom: the file system (libcom/src/filesystem.cpp, fattr.cpp, dir.cpp,
    the [basename] of common.cpp)

    The Unix branches.  The calls of the system are the class [FsCalls] over its
    state [W]; a failure comes with [errno].  A path is not a null pointer.  An
    [oserr] that is a null pointer is [None]. *)
From S2P Require Import Prelude Effects Numbers UriText Text File Config Addr Sock.

Definition E_syscall_failed : Z := -18.
Definition E_rename_failed : Z := -16.
Definition E_remove_failed : Z := -17.
Definition E_mkdir_failed : Z := -15.
Definition ENOENT : Z := 2.
Definition MAXPATHLEN : nat := 1023.
Definition pathsep : Z := chr "/".

(** ** fattr.h *)
Inductive file_type := unknown | regular | directory | symlink | hardlink | fifo | character | block | socket_file | mntpoint.
#[export] Instance file_type_eq_dec : EqDecision file_type.
Proof. solve_decision. Defined.

(** [struct stat] *)
Record stat_buf := {
  st_mode : Z; st_ctime : Z; st_atime : Z; st_mtime : Z; st_size : Z; st_blksize : Z; st_blocks : Z;
  st_ino : Z; st_nlink : Z; st_dev : Z; st_rdev : Z; st_uid : Z; st_gid : Z }.

Record file_attr := {
  f_name : bytes; f_type : file_type; f_mode : Z; f_nlinks : Z; f_size : Z; f_inode : Z; f_ctime : Z; f_atime : Z;
  f_mtime : Z; f_blksize : Z; f_blkcnt : Z; f_dev : Z; f_rdev : Z; f_uid : Z; f_gid : Z }.

Class FsCalls (W : Type) := {
  sys_access : bytes -> W -> answer unit * W;
  sys_stat : bytes -> W -> answer stat_buf * W;
  sys_lstat : bytes -> W -> answer stat_buf * W;
  sys_mkdir : bytes -> Z -> W -> answer unit * W;
  sys_rename : bytes -> bytes -> W -> answer unit * W;
  sys_unlink : bytes -> W -> answer unit * W;
  sys_rmdir : bytes -> W -> answer unit * W;
  (** [opendir]; [readdir]: a name, or the end *)
  sys_opendir : bytes -> W -> answer Z * W;
  sys_readdir : Z -> W -> answer (option bytes) * W;
  sys_closedir : Z -> W -> W;
  (** the home directory of the effective user *)
  sys_pw_dir : W -> option bytes;
  (** a bound on the names that a directory still has *)
  entries : Z -> W -> nat }.

Definition file_type_string (ft : file_type) : bytes :=
  bytes_of (match ft with
            | regular => "REG" | directory => "DIR" | symlink => "SLINK" | hardlink => "HLINK" | fifo => "FIFO"
            | character => "CHAR" | block => "BLOCK" | socket_file => "SOCK" | mntpoint => "MNTPNT" | unknown => "UNK"
            end).

Module Fattr.
(** [S_ISREG] and so on. *)
Definition type_of_mode (m : Z) : file_type :=
  let fmt := Z.land m 61440 in
  if fmt =? 32768 then regular else if fmt =? 16384 then directory else if fmt =? 8192 then character
  else if fmt =? 24576 then block else if fmt =? 4096 then fifo else if fmt =? 40960 then symlink
  else if fmt =? 49152 then socket_file else unknown.

Definition clear : file_attr :=
  {| f_name := []; f_type := unknown; f_mode := 0; f_nlinks := 0; f_size := 0; f_inode := 0; f_ctime := 0; f_atime := 0;
     f_mtime := 0; f_blksize := 0; f_blkcnt := 0; f_dev := 0; f_rdev := 0; f_uid := 0; f_gid := 0 |}.

(** [init(st)], which leaves the name empty. *)
Definition of_stat (st : stat_buf) : file_attr :=
  {| f_name := []; f_type := type_of_mode (st_mode st); f_mode := st_mode st; f_nlinks := st_nlink st; f_size := st_size st;
     f_inode := st_ino st; f_ctime := st_ctime st; f_atime := st_atime st; f_mtime := st_mtime st; f_blksize := st_blksize st;
     f_blkcnt := st_blocks st; f_dev := st_dev st; f_rdev := st_rdev st; f_uid := st_uid st; f_gid := st_gid st |}.
Definition set_name (n : bytes) (fa : file_attr) : file_attr :=
  {| f_name := n; f_type := f_type fa; f_mode := f_mode fa; f_nlinks := f_nlinks fa; f_size := f_size fa;
     f_inode := f_inode fa; f_ctime := f_ctime fa; f_atime := f_atime fa; f_mtime := f_mtime fa; f_blksize := f_blksize fa;
     f_blkcnt := f_blkcnt fa; f_dev := f_dev fa; f_rdev := f_rdev fa; f_uid := f_uid fa; f_gid := f_gid fa |}.

(** [init(path, use_lstat)] *)
Definition init `{FsCalls W} (path : bytes) (use_lstat : bool) : M cpp_exn W file_attr := fun w =>
  match (if use_lstat then sys_lstat path w else sys_stat path w) with
  | (inl st, w) => (Ok (of_stat st), w)
  | (inr e, w) => (Throw (system_error e), w)
  end.

(** [operator==] *)
Definition equal (lhs rhs : file_attr) : bool :=
  if negb (f_inode lhs =? 0) && negb (f_inode rhs =? 0) && negb (f_inode lhs =? f_inode rhs) then false
  else if negb (f_dev lhs =? 0) && negb (f_dev rhs =? 0) && negb (f_dev lhs =? f_dev rhs) then false
  else bool_decide (f_type lhs = f_type rhs) && bool_decide (f_name lhs = f_name rhs).
End Fattr.

(** ** filesystem.cpp *)
Module Fs.
Section fs.
Context `{FsCalls W}.
Abbreviation X := (M cpp_exn W).

Definition fs_call {A} (f : W -> A * W) : X A := fun w => let '(a, w) := f w in (Ok a, w).

(** [get_home(buf, buflen)] of a buffer of [buflen + 1] bytes; [None] leaves it
    with what it had. *)
Definition get_home (buflen : nat) : X (Z * option bytes) :=
  let! home := gets sys_pw_dir in
  ret (match home with None => (E_syscall_failed, None) | Some dir => (E_ok, Some (take buflen dir)) end).

(** The methods return [*oserr] with their result. *)
Definition exists_ (path : bytes) (oserr : option Z) : X (bool * option Z) :=
  let oserr := Sock.store_error 0 oserr in
  match path with
  | [] => ret (false, oserr)
  | _ =>
      let! r := fs_call (sys_access path) in
      ret (match r with inl _ => (true, oserr) | inr e => (negb (ENOENT =? e), Sock.store_error e oserr) end)
  end.

Definition size (path : bytes) (oserr : option Z) : X (Z * option Z) :=
  let oserr := Sock.store_error 0 oserr in
  match path with
  | [] => ret (E_invalid_arg, oserr)
  | _ =>
      let! r := fs_call (sys_stat path) in
      ret (match r with inl st => (st_size st, oserr) | inr e => (E_stat_failed, Sock.store_error e oserr) end)
  end.

(** [is_abs_path(p)]: the number of separators at the front. *)
Fixpoint is_abs_path (p : bytes) : nat :=
  match p with c :: p => if c =? pathsep then Datatypes.S (is_abs_path p) else O | [] => O end.

(** The next part of a path with its separator, and what is behind it. *)
Fixpoint next_part (s : bytes) : bytes * bytes :=
  match s with
  | [] => ([], [])
  | c :: s => if c =? pathsep then ([c], s) else let '(p, rest) := next_part s in (c :: p, rest)
  end.

(** The loop of [mkdir]: [buf] holds what has been made, in an array of
    [MAXPATHLEN + 1] bytes. *)
Fixpoint mkdir_loop (fuel : nat) (buf ptr : bytes) (mode : Z) (oserr : option Z) : X (Z * option Z) :=
  match fuel with
  | O => diverge
  | Datatypes.S fuel =>
      match ptr with
      | [] => ret (E_ok, oserr)
      | _ =>
          let '(part, ptr) := next_part ptr in
          let buf := buf ++ part in
          if decide (MAXPATHLEN < length buf)%nat then lift Ub
          else
            let! (there, _) := exists_ buf None in
            if there then mkdir_loop fuel buf ptr mode oserr
            else
              let! r := fs_call (sys_mkdir buf mode) in
              match r with
              | inl _ => mkdir_loop fuel buf ptr mode oserr
              | inr e => ret (E_mkdir_failed, Sock.store_error e oserr)
              end
      end
  end.

Definition mkdir (dir : bytes) (mode : Z) (oserr : option Z) : X (Z * option Z) :=
  let oserr := Sock.store_error 0 oserr in
  match dir with
  | [] => ret (E_invalid_arg, oserr)
  | _ =>
      let i := is_abs_path dir in
      if decide (MAXPATHLEN < i)%nat then lift Ub
      else mkdir_loop (Datatypes.S (length dir)) (take i dir) (drop i dir) mode oserr
  end.

Definition rename (newName oldName : bytes) (oserr : option Z) : X (Z * option Z) :=
  let oserr := Sock.store_error 0 oserr in
  match newName, oldName with
  | [], _ | _, [] => ret (E_invalid_arg, oserr)
  | _, _ =>
      let! r := fs_call (sys_rename oldName newName) in
      ret (match r with inl _ => (E_ok, oserr) | inr e => (E_rename_failed, Sock.store_error e oserr) end)
  end.

(** [remove_file] looks at [*oserr], which is zero, and not at the pointer. *)
Definition remove_file (f : bytes) (oserr : option Z) : X (Z * option Z) :=
  let oserr := Sock.store_error 0 oserr in
  match f with
  | [] => ret (E_invalid_arg, oserr)
  | _ =>
      let! r := fs_call (sys_unlink f) in
      match r with
      | inl _ => ret (E_ok, oserr)
      | inr e =>
          match oserr with
          | None => lift Ub
          | Some old => ret (E_remove_failed, Some (if old =? 0 then old else e))
          end
      end
  end.

Definition remove_dir (d : bytes) (oserr : option Z) : X (Z * option Z) :=
  let oserr := Sock.store_error 0 oserr in
  match d with
  | [] => ret (E_invalid_arg, oserr)
  | _ =>
      let! r := fs_call (sys_rmdir d) in
      ret (match r with inl _ => (E_ok, oserr) | inr e => (E_remove_failed, Sock.store_error e oserr) end)
  end.
End fs.

(** [basename(buf, buflen, path, stripExt)] (common.cpp): [None] is the null
    pointer that it returns; the buffer has room for [buflen + 1] bytes. *)
Fixpoint after_last_sep (ptr path : bytes) : bytes :=
  match path with [] => ptr | c :: path => after_last_sep (if c =? pathsep then path else ptr) path end.
Fixpoint before_dot (s : bytes) : bytes := match s with c :: s => if c =? chr "." then [] else c :: before_dot s | [] => [] end.
Definition basename (buf : bool) (buflen : nat) (path : bytes) (stripExt : bool) : option bytes :=
  match path with
  | [] => None
  | _ =>
      if negb buf || (buflen =? 0)%nat then None
      else
        let ptr := after_last_sep path path in
        Some (take buflen (if stripExt then before_dot ptr else ptr))
  end.
End Fs.

(** ** dir.cpp

    The regular expressions are the ones that liblog makes: characters, the dot,
    digits [\d{n}] and groups around them.  Every part of such a pattern takes a
    fixed number of characters, so there is one way to match at a position. *)
Inductive pattern_item := is_char (c : Z) | is_any | is_digits (n : nat) | group_begins | group_ends.

(** The characters with a meaning of their own. *)
Definition regex_special (c : Z) : bool := bool_decide (c ∈ (94 :: 92 :: bytes_of "$.*+?()[]{}|")).

(** [std::regex{pat}]; [None]: a pattern outside of the model. *)
Fixpoint regex (pat : bytes) : option (list pattern_item) :=
  match pat with
  | [] => Some []
  | 92 :: 100 :: 123 :: d :: 125 :: rest => if isdigit d then (fun l => is_digits (Z.to_nat (d - 48)) :: l) <$> regex rest else None
  | c :: rest =>
      if c =? chr "." then cons is_any <$> regex rest
      else if c =? chr "(" then cons group_begins <$> regex rest
      else if c =? chr ")" then cons group_ends <$> regex rest
      else if regex_special c then None
      else cons (is_char c) <$> regex rest
  end.

(** A match at the front of a text: the groups and what follows.  [cur] is the
    group that is open. *)
Fixpoint match_at (items : list pattern_item) (cur : bytes) (s : bytes) : option (list bytes * bytes) :=
  match items with
  | [] => Some ([], s)
  | is_char c :: items =>
      match s with c' :: s => if c' =? c then match_at items (cur ++ [c]) s else None | [] => None end
  | is_any :: items =>
      match s with c :: s => if (c =? 10) || (c =? 13) then None else match_at items (cur ++ [c]) s | [] => None end
  | is_digits n :: items =>
      if decide (n <= length s)%nat then
        if forallb isdigit (take n s) then match_at items (cur ++ take n s) (drop n s) else None
      else None
  | group_begins :: items => match_at items [] s
  | group_ends :: items => match match_at items [] s with Some (gs, rest) => Some (cur :: gs, rest) | None => None end
  end.

(** [std::regex_match] and [std::regex_search], which looks at every position. *)
Definition regex_match (items : list pattern_item) (s : bytes) : bool :=
  match match_at items [] s with Some (_, []) => true | _ => false end.
Fixpoint regex_search (items : list pattern_item) (s : bytes) : option (list bytes) :=
  match match_at items [] s with
  | Some (gs, _) => Some gs
  | None => match s with [] => None | _ :: s => regex_search items s end
  end.

Module Dir.
Section dir.
Context `{FsCalls W}.
Abbreviation X := (M cpp_exn W).

(** [next]: the attributes of the next entry that matches; [None] at the end.
    When [readdir] fails the null pointer is read. *)
Fixpoint next_loop (fuel : nat) (path : bytes) (m_pattern : list pattern_item) (m_dir : Z) : X (option file_attr) :=
  match fuel with
  | O => diverge
  | Datatypes.S fuel =>
      let! pent := Fs.fs_call (sys_readdir m_dir) in
      match pent with
      | inr e => lift Ub
      | inl None => ret None
      | inl (Some name) =>
          if bool_decide (name = bytes_of ".") || bool_decide (name = bytes_of "..") then next_loop fuel path m_pattern m_dir
          else if negb (regex_match m_pattern name) then next_loop fuel path m_pattern m_dir
          else
            let! fa := Fattr.init (path ++ [pathsep] ++ name) true in
            ret (Some (Fattr.set_name name fa))
      end
  end.
Definition next (path : bytes) (m_pattern : list pattern_item) (m_dir : Z) : X (option file_attr) := fun w =>
  next_loop (Datatypes.S (entries m_dir w)) path m_pattern m_dir w.

(** [for (auto &fa : directory(path, pattern))]: the entries up to the one that
    equals a default-constructed one.  The constructor reads the first; when that
    throws the directory stays open. *)
Fixpoint each_loop (fuel : nat) (path : bytes) (m_pattern : list pattern_item) (m_dir : Z) (m_fa : option file_attr) : X (list file_attr) :=
  match m_fa with
  | None => ret []
  | Some fa =>
      if Fattr.equal fa Fattr.clear then ret []
      else match fuel with
           | O => diverge
           | Datatypes.S fuel =>
               let! m_fa := next path m_pattern m_dir in
               let! l := each_loop fuel path m_pattern m_dir m_fa in ret (fa :: l)
           end
  end.
Definition each (path pattern : bytes) : X (list file_attr) :=
  match regex pattern with
  | None => lift Ub
  | Some m_pattern =>
      let! dir := Fs.fs_call (sys_opendir path) in
      match dir with
      | inr e => throw (system_error e)
      | inl d =>
          let! first := next path m_pattern d in
          fun w => let '(r, w) := each_loop (Datatypes.S (entries d w)) path m_pattern d first w in (r, sys_closedir d w)
      end
  end.
End dir.
End Dir.

(** ** Facts (libcom: what the file system functions promise) *)

(** The names in a path, and whether it is absolute. *)
Definition name_of_part (cur : bytes) : list bytes := match cur with [] => [] | _ => [cur] end.
Fixpoint parts (cur s : bytes) : list bytes :=
  match s with
  | [] => name_of_part cur
  | c :: s => if c =? pathsep then name_of_part cur ++ parts [] s else parts (cur ++ [c]) s
  end.
Abbreviation names_in := (parts []).
Definition is_absolute (p : bytes) : bool := match p with c :: _ => c =? pathsep | [] => false end.

(** What a path leads to, from the root or from the working directory, when no
    name is special. *)
Abbreviation place := (bool * list bytes)%type.
Definition place_of (p : bytes) : place := (is_absolute p, names_in p).
Definition parent (q : place) : place := (q.1, removelast q.2).
Definition plain_name (n : bytes) : Prop := n <> bytes_of "." /\ n <> bytes_of ".." /\ (length n <= 255)%nat.
Definition plain_path (p : bytes) : Prop := p <> [] /\ Forall plain_name (names_in p).

(** What POSIX says of [access] and [mkdir], for a user who may search and write
    everywhere while there is room ([permits]): a directory is made when its
    parent is one, and a path whose parent is not there leads nowhere.  [nodes]:
    what is there, and whether it is a directory. *)
Class DirTree (W : Type) `{FsCalls W} := {
  nodes : W -> gmap place bool;
  permits : W -> Prop;
  access_law p w : plain_path p -> permits w ->
    match nodes w !! place_of p with
    | Some true => sys_access p w = (inl tt, w)
    | Some false => True
    | None => nodes w !! parent (place_of p) = Some true -> sys_access p w = (inr ENOENT, w)
    end;
  mkdir_law p mode w : plain_path p -> permits w -> nodes w !! place_of p = None -> nodes w !! parent (place_of p) = Some true ->
    exists w', sys_mkdir p mode w = (inl tt, w') /\ nodes w' = <[place_of p := true]> (nodes w) /\ permits w';
  mkdir_orphan p mode w : plain_path p -> nodes w !! place_of p = None -> nodes w !! parent (place_of p) = None ->
    sys_mkdir p mode w = (inr ENOENT, w) }.

(** ** Names of a path that is taken apart *)
Lemma parts_app t s : forall cur, last s = Some pathsep -> parts cur (s ++ t) = parts cur s ++ names_in t.
Proof.
  induction s as [|c s IH]; intros cur Hl; [done|]. cbn [app parts]. destruct s as [|d s].
  - injection Hl as ->. cbn. by rewrite app_nil_r.
  - rewrite last_cons_cons in Hl. destruct (c =? pathsep); rewrite IH by done; [by rewrite <- app_assoc|done].
Qed.

Lemma names_app s t : s = [] \/ last s = Some pathsep -> names_in (s ++ t) = names_in s ++ names_in t.
Proof. intros [->|Hl]; [done|by apply parts_app]. Qed.

Lemma next_part_spec ptr part rest : Fs.next_part ptr = (part, rest) ->
  ptr = part ++ rest /\ (ptr <> [] -> part <> []) /\ (rest = [] \/ last part = Some pathsep) /\
  forall cur, exists x, parts cur part = name_of_part x.
Proof.
  revert part rest. induction ptr as [|c ptr IH]; intros part rest; cbn [Fs.next_part].
  { intros [= <- <-]. split_and!; [done|done|by left|]. intros cur. by exists cur. }
  destruct (Z.eqb_spec c pathsep) as [->|Hc].
  - intros [= <- <-]. split_and!; [done|done|by right|]. intros cur. exists cur. cbn. by rewrite app_nil_r.
  - destruct (Fs.next_part ptr) as [p r] eqn:E. intros [= <- <-]. destruct (IH p r eq_refl) as (-> & _ & Hb & Hx). split_and!; [done|done| |].
    + destruct Hb as [->|Hb]; [by left|right]. destruct p; [done|]. by rewrite last_cons_cons.
    + intros cur. cbn [parts]. destruct (Z.eqb_spec c pathsep); [done|]. apply Hx.
Qed.

Lemma is_absolute_app s t : s <> [] -> is_absolute (s ++ t) = is_absolute s.
Proof. by destruct s. Qed.

Lemma prefix_of_part (c l : list bytes) x : c `prefix_of` l ++ name_of_part x -> c `prefix_of` l \/ c = l ++ name_of_part x.
Proof.
  destruct x as [|b x]; cbn [name_of_part]; [rewrite app_nil_r; by left|]. intros [k Hk]. destruct k as [|y k _] using rev_ind.
  - right. by rewrite app_nil_r in Hk.
  - left. rewrite app_assoc in Hk. apply app_inj_tail in Hk as [-> _]. by exists k.
Qed.

Section tree.
Context {W : Type} `{!FsCalls W} `{!DirTree W}.

(** [w'] is [w] with the directories on the way to a place. *)
Definition made (a : bool) (l : list bytes) (w w' : W) : Prop :=
  forall q, nodes w' !! q = if decide (q.1 = a /\ q.2 `prefix_of` l) then Some true else nodes w !! q.

(** One part of the path [buf ++ part]: the directory is there or is made. *)
Lemma ensure_run fuel buf part ptr mode e w : let p := buf ++ part in
  plain_path p -> permits w -> (buf = [] \/ last buf = Some pathsep) -> (exists x, names_in part = name_of_part x) ->
  (forall c, c `prefix_of` names_in buf -> nodes w !! (is_absolute p, c) = Some true) ->
  nodes w !! place_of p <> Some false ->
  exists w', permits w' /\ made (is_absolute p) (names_in p) w w' /\
  (let! (there, _) := Fs.exists_ p None in
   if there then Fs.mkdir_loop fuel p ptr mode (Some e)
   else
     let! r := Fs.fs_call (sys_mkdir p mode) in
     match r with
     | inl _ => Fs.mkdir_loop fuel p ptr mode (Some e)
     | inr err => ret (E_mkdir_failed, Sock.Sock.store_error err (Some e))
     end) w = Fs.mkdir_loop fuel p ptr mode (Some e) w'.
Proof.
  intros p Hp Hperm Hbuf [x Hx] Hdone Hfile. assert (names_in p = names_in buf ++ name_of_part x) as Hnames by (rewrite <- Hx; by apply names_app).
  assert (forall w', nodes w' = <[place_of p := true]> (nodes w) -> made (is_absolute p) (names_in p) w w') as Hmade.
  { intros w' E [a c]. rewrite E. cbn [fst snd]. destruct (decide (a = is_absolute p /\ c `prefix_of` names_in p)) as [[-> Hc]|Hno].
    - rewrite Hnames in Hc. apply prefix_of_part in Hc as [Hc| ->].
      + destruct (decide (place_of p = (is_absolute p, c))) as [->|Hne]; [by rewrite lookup_insert_eq|].
        rewrite lookup_insert_ne by done. by apply Hdone.
      + rewrite <- Hnames. apply lookup_insert_eq.
    - rewrite lookup_insert_ne; [done|]. intros [= <- <-]. by apply Hno. }
  assert (nodes w !! place_of p = None -> nodes w !! parent (place_of p) = Some true) as Hpar.
  { intros Hn. unfold parent, place_of in *. cbn [fst snd]. rewrite Hnames in *. destruct x as [|b x]; cbn [name_of_part] in *.
    - rewrite app_nil_r in Hn. specialize (Hdone (names_in buf) ltac:(done)). congruence.
    - rewrite removelast_last. by apply Hdone. }
  pose proof (access_law p w Hp Hperm) as Ha. unfold bind at 1, Fs.exists_. destruct p as [|b p'] eqn:Ep; [by destruct Hp|]. rewrite <- Ep in *.
  unfold bind, Fs.fs_call. destruct (nodes w !! place_of p) as [[]|] eqn:En; [| done |].
  - rewrite Ha. exists w. split; [done|]. split; [|done]. apply Hmade. by rewrite insert_id.
  - rewrite (Ha (Hpar eq_refl)). change (negb (ENOENT =? ENOENT)) with false. cbn [ret].
    destruct (mkdir_law p mode w Hp Hperm En (Hpar eq_refl)) as (w' & -> & E & Hw'). exists w'. split; [done|]. split; [by apply Hmade|done].
Qed.

Lemma made_trans a l l' w w1 w2 : l `prefix_of` l' -> made a l w w1 -> made a l' w1 w2 -> made a l' w w2.
Proof.
  intros Hl H1 H2 q. rewrite H2. destruct (decide (q.1 = a /\ q.2 `prefix_of` l')) as [|Hno]; [done|]. rewrite H1, decide_False; [done|].
  intros [? Hq]. apply Hno. split; [done|]. by etrans.
Qed.

Lemma plain_prefix s t : s = [] \/ last s = Some pathsep \/ t = [] -> s <> [] -> plain_path (s ++ t) -> plain_path s.
Proof.
  intros Hs Hne [_ H]. split; [done|]. destruct Hs as [?|[Hs| ->]]; [done| |by rewrite app_nil_r in H].
  rewrite names_app in H by (by right). by apply Forall_app in H as [? _].
Qed.

(** The loop, from the point where [buf] has been made. *)
Lemma mkdir_loop_run mode e a : forall fuel buf ptr w, (length ptr < fuel)%nat -> (length buf + length ptr <= MAXPATHLEN)%nat ->
  plain_path (buf ++ ptr) -> is_absolute (buf ++ ptr) = a -> permits w -> ptr = [] \/ buf = [] \/ last buf = Some pathsep ->
  (forall c, c `prefix_of` names_in buf -> nodes w !! (a, c) = Some true) ->
  (forall c, c `prefix_of` names_in (buf ++ ptr) -> nodes w !! (a, c) <> Some false) ->
  exists w', Fs.mkdir_loop fuel buf ptr mode (Some e) w = (Ok (E_ok, Some e), w') /\ permits w' /\ made a (names_in (buf ++ ptr)) w w'.
Proof.
  induction fuel as [|fuel IH]; intros buf ptr w Hf Hl Hp Ha Hperm Hb Hdone Hfile; [lia|]. cbn [Fs.mkdir_loop]. destruct ptr as [|c0 ptr].
  { exists w. split; [done|]. split; [done|]. rewrite app_nil_r. intros [b c]. cbn [fst snd]. destruct (decide _) as [[-> Hc]|]; [by apply Hdone|done]. }
  destruct Hb as [?|Hb]; [done|]. destruct (Fs.next_part (c0 :: ptr)) as [part rest] eqn:E.
  destruct (next_part_spec (c0 :: ptr) part rest E) as (Heq & Hn & Hend & Hx). specialize (Hn ltac:(discriminate)).
  assert (length (c0 :: ptr) = length part + length rest)%nat as Hlen by (by rewrite Heq, length_app).
  assert (0 < length part)%nat by (destruct part; [done|cbn; lia]). rewrite Heq in *. rewrite app_assoc in Hp, Ha, Hfile |- *.
  assert (buf ++ part <> []) as Hne by (by destruct buf, part).
  assert (rest = [] \/ last (buf ++ part) = Some pathsep) as Hend'.
  { destruct Hend as [?|Hend]; [by left|right]. rewrite last_app. by rewrite Hend. }
  assert (names_in (buf ++ part) `prefix_of` names_in ((buf ++ part) ++ rest)) as Hpre.
  { destruct Hend' as [->|Hend']; [by rewrite app_nil_r|]. rewrite (names_app (buf ++ part)) by (by right). by eexists. }
  rewrite is_absolute_app in Ha by done. rewrite decide_False by (rewrite length_app; lia).
  destruct (ensure_run fuel buf part rest mode e w) as (w1 & Hperm1 & Hmade1 & ->).
  - apply (plain_prefix _ rest); [tauto|done|done].
  - done.
  - done.
  - apply Hx.
  - by rewrite Ha.
  - unfold place_of. rewrite Ha. by apply Hfile.
  - rewrite Ha in Hmade1. destruct (IH (buf ++ part) rest w1) as (w2 & -> & Hperm2 & Hmade2).
    + lia.
    + rewrite length_app. lia.
    + done.
    + by rewrite is_absolute_app.
    + done.
    + tauto.
    + intros c Hc. rewrite Hmade1. by rewrite decide_True.
    + intros c Hc. rewrite Hmade1. destruct (decide _); [done|by apply Hfile].
    + exists w2. split; [done|]. split; [done|]. by eapply made_trans.
Qed.

Lemma is_abs_path_length p : (Fs.is_abs_path p <= length p)%nat.
Proof. induction p as [|c p IH]; cbn; [done|]. destruct (c =? pathsep); lia. Qed.

(** The separators at the front hold no name. *)
Lemma abs_front p : names_in (take (Fs.is_abs_path p) p) = [] /\ (take (Fs.is_abs_path p) p = [] \/ last (take (Fs.is_abs_path p) p) = Some pathsep).
Proof.
  induction p as [|c p [IH1 IH2]]; cbn [Fs.is_abs_path]; [split; [done|by left]|]. destruct (Z.eqb_spec c pathsep) as [->|Hc]; [|split; [done|by left]].
  cbn [take]. split; [cbn [parts]; by rewrite Z.eqb_refl|]. right. destruct IH2 as [->|IH2]; [done|]. destruct (take _ p); [done|]. by rewrite last_cons_cons.
Qed.

End tree.

(** ** Witness: the tree of the directories alone *)
#[export] Instance tree_fs : FsCalls (gmap place bool) := {|
  sys_access p w := (match w !! place_of p, w !! parent (place_of p) with
                     | Some _, _ => inl tt
                     | None, Some false => inr 20
                     | None, _ => inr ENOENT
                     end, w);
  sys_stat _ w := (inr ENOENT, w);
  sys_lstat _ w := (inr ENOENT, w);
  sys_mkdir p _ w :=
    match w !! place_of p, w !! parent (place_of p) with
    | Some _, _ => (inr 17, w)
    | None, None => (inr ENOENT, w)
    | None, Some false => (inr 20, w)
    | None, Some true => (inl tt, <[place_of p := true]> w)
    end;
  sys_rename _ _ w := (inl tt, w);
  sys_unlink _ w := (inr ENOENT, w);
  sys_rmdir _ w := (inl tt, w);
  sys_opendir _ w := (inr ENOENT, w);
  sys_readdir _ w := (inl None, w);
  sys_closedir _ w := w;
  sys_pw_dir _ := None;
  entries _ _ := O |}.
#[export] Instance plain_tree : DirTree (gmap place bool).
Proof.
  refine {| nodes w := w; permits _ := True |}.
  - intros p w _ _. cbn. destruct (w !! place_of p) as [[]|]; [done..|]. intros Hpar. by rewrite Hpar.
  - intros p mode w _ _ Hn Hpar. cbn. rewrite Hn, Hpar. by eexists.
  - intros p mode w _ Hn Hpar. cbn. by rewrite Hn, Hpar.
Defined.

(** "/var" is there. *)
Definition var_tree : gmap place bool := {[ (true, []) := true; (true, [bytes_of "var"]) := true ]}.

(** A child is not made before its parent. *)
Example mkdir_child_first : (sys_mkdir (bytes_of "/var/log/snf") 493 var_tree).1 = inr ENOENT.
Proof. vm_compute. reflexivity. Qed.

(** Under a file nothing can be made: [exists] takes the error for a directory
    that is there, and [mkdir] returns [E_ok]. *)
Example mkdir_under_file : let w := <[(true, [bytes_of "var"; bytes_of "f"]) := false]> var_tree in
  Fs.mkdir (bytes_of "/var/f/x") 493 (Some 7) w = (Ok (E_ok, Some 0), w).
Proof. vm_compute. reflexivity. Qed.

(** A path that is longer than the buffer of [mkdir] is written over its end. *)
Example mkdir_overflow : (Fs.mkdir (replicate 1024 (chr "a")) 493 None var_tree).1 = Ub.
Proof. vm_compute. reflexivity. Qed.

(** A file that cannot be removed, with the default [oserr]. *)
Example remove_file_null_pointer : (Fs.remove_file (bytes_of "x") None var_tree).1 = Ub /\
  (Fs.remove_file (bytes_of "x") (Some 5) var_tree).1 = Ok (E_remove_failed, Some 0).
Proof. split; reflexivity. Qed.
