(* ===== verification/LogRec.v ===== *)
(** * liblog: severities, records and the console
    (liblog/include/logsev.h, logrec.h, logger.h, liblog/src/logrec.cpp, logger.cpp)

    The text of an error of the system is a parameter.  The exceptions of libjson
    are mapped to the ones of the same name. *)
From S2P Require Import Prelude Effects Numbers UriText Text Timeutil Headers Addr.
From S2P Require JsonStream JsonValue.
From Stdlib Require Import Sorting.Sorted.
From S2P Require JsonParser JsonRoundTrip JsonTokens.

Import DateTime.

(** ** logsev.h *)
Inductive severity := all | trace | debug | info | warning | error.
#[export] Instance severity_eq_dec : EqDecision severity.
Proof. solve_decision. Defined.
(** [static_cast<int>(sev)] *)
Definition level (s : severity) : Z :=
  match s with all => 0 | trace => 1 | debug => 2 | info => 3 | warning => 4 | error => 5 end.

Definition severity_string (sev : severity) : bytes :=
  bytes_of (match sev with trace => "TRC" | debug => "DBG" | info => "INF" | warning => "WRN" | error => "ERR" | all => "UNK" end).

(** [strcasecmp(s, t) == 0] of C strings. *)
Definition strcaseeq (s : bytes) (t : string) : bool := bool_decide ((tolower <$> s) = (tolower <$> bytes_of t)).
Definition string_to_severity (s : option bytes) : severity :=
  match s with
  | None | Some [] => all
  | Some s =>
      if strcaseeq s "trc" || strcaseeq s "trace" then trace
      else if strcaseeq s "dbg" || strcaseeq s "debug" then debug
      else if strcaseeq s "inf" || strcaseeq s "info" then info
      else if strcaseeq s "wrn" || strcaseeq s "warning" then warning
      else if strcaseeq s "err" || strcaseeq s "error" then error
      else all
  end.

(** ** logrec.h *)
Record record := {
  m_class : bytes; m_file : bytes; m_function : bytes; m_lineno : Z; m_error : Z; m_timestamp : datetime;
  m_pid : Z; m_tid : Z; m_severity : severity; m_text : bytes }.

Definition should_log (rec : record) (sev : severity) : bool := level sev <=? level (m_severity rec).

(** [init(cls, file, fcn, line, error, sev)] at a time, in a process and a
    thread. *)
Definition given (s : option bytes) (dflt : string) : bytes := match s with Some ((_ :: _) as s) => s | _ => bytes_of dflt end.
Definition init (cls file fcn : option bytes) (line err : Z) (sev : severity) (now : datetime) (pid tid : Z) : record :=
  {| m_class := given cls "no-class"; m_file := given file "no-file"; m_function := given fcn "no-function"; m_lineno := line;
     m_error := err; m_timestamp := now; m_pid := pid; m_tid := tid; m_severity := sev; m_text := [] |}.

(** [rec << text] *)
Definition append (t : bytes) (rec : record) : record :=
  {| m_class := m_class rec; m_file := m_file rec; m_function := m_function rec; m_lineno := m_lineno rec; m_error := m_error rec;
     m_timestamp := m_timestamp rec; m_pid := m_pid rec; m_tid := m_tid rec; m_severity := m_severity rec; m_text := m_text rec ++ t |}.

(** ** logrec.cpp *)

(** The loop over a format: [spec] is what stands for the character behind a
    percent sign, NUL at the end of the format. *)
Fixpoint expand (spec : Z -> bytes) (fmt : bytes) : bytes :=
  match fmt with
  | [] => []
  | c :: fmt =>
      if c =? chr "%" then match fmt with [] => spec 0 | d :: fmt => spec d ++ expand spec fmt end
      else c :: expand spec fmt
  end.

Definition get_day (t : datetime) : Z := tm_mday (m_tm t).

Section format.
(** [syserr(errstr, ERRSTRLEN, err)] *)
Context (syserr : Z -> bytes).

Definition date_text (t : datetime) : bytes :=
  padded 4 (get_year t) ++ bytes_of "/" ++ padded 2 (get_month t) ++ bytes_of "/" ++ padded 2 (get_day t).
Definition time_text (t : datetime) : bytes :=
  padded 2 (tm_hour (m_tm t)) ++ bytes_of ":" ++ padded 2 (tm_min (m_tm t)) ++ bytes_of ":" ++ padded 2 (tm_sec (m_tm t)) ++
  bytes_of "." ++ padded 3 (m_msec t).

Definition specifier (rec : record) (c : Z) : bytes :=
  if c =? chr "%" then bytes_of "%"
  else if c =? chr "D" then date_text (m_timestamp rec)
  else if c =? chr "T" then time_text (m_timestamp rec)
  else if c =? chr "p" then print_int (m_pid rec)
  else if c =? chr "t" then print_int (m_tid rec)
  else if c =? chr "s" then severity_string (m_severity rec)
  else if c =? chr "c" then m_class rec
  else if c =? chr "F" then m_file rec
  else if c =? chr "f" then m_function rec
  else if c =? chr "l" then print_int (m_lineno rec)
  else if c =? chr "m" then
    m_text rec ++
    (if m_error rec =? 0 then [] else bytes_of ": " ++ syserr (m_error rec) ++ bytes_of " (" ++ print_int (m_error rec) ++ bytes_of ")")
  else [chr "%"; c].

(** [str(pretty)] *)
Definition of_json {A} (r : res JsonStream.exn A) : res cpp_exn A :=
  match r with
  | Ok a => Ok a
  | Throw (JsonStream.invalid_argument _) => Throw invalid_argument
  | Throw (JsonStream.out_of_range _) => Throw out_of_range
  | Throw _ => Throw runtime_error
  | Ub => Ub
  | Diverge => Diverge
  end.

Import JsonValue.Json.
(** The object: a [std::map], whatever the order of the pairs; every string goes
    through a constructor of [value], which un-escapes it. *)
Definition record_object (rec : record) : res JsonStream.exn object :=
  let? cls := value_of_string (m_class rec) in
  let? file := value_of_string (m_file rec) in
  let? fcn := value_of_string (m_function rec) in
  let? sev := value_of_cstring (Some (severity_string (m_severity rec))) in
  let? text := value_of_string (m_text rec) in
  Ok (foldl (fun o kv => object_add_pair kv o) []
    [(bytes_of "class", cls); (bytes_of "file", file); (bytes_of "function", fcn);
     (bytes_of "lineno", value_of_integral (m_lineno rec)); (bytes_of "error", value_of_integral (m_error rec));
     (bytes_of "timestamp", value_of_integral (epoch millisecond (m_timestamp rec)));
     (bytes_of "pid", value_of_integral (m_pid rec)); (bytes_of "tid", value_of_integral (m_tid rec));
     (bytes_of "severity", sev); (bytes_of "text", text)]).
Definition str (pretty : bool) (rec : record) : res JsonStream.exn bytes :=
  let? o := record_object rec in value_str pretty 0%nat (V_OBJECT o).

Definition format (fmt : bytes) (rec : record) : res cpp_exn bytes :=
  if streq fmt (bytes_of "json-pretty") then of_json (str true rec)
  else if streq fmt (bytes_of "json") then of_json (str false rec)
  else Ok (expand (specifier rec) fmt).
End format.

(** ** logger.h, logger.cpp *)
Inductive destination := out | err | var.
Record console_logger := { cl_sev : severity; cl_fmt : bytes; cl_dest : destination }.
Definition console_default_format : bytes := bytes_of "[%s] [%f] %m".
Definition console_default : console_logger := {| cl_sev := all; cl_fmt := console_default_format; cl_dest := var |}.

(** [log(rec)]: the line, and whether it goes to the standard error. *)
Definition console_log (syserr : Z -> bytes) (rec : record) (l : console_logger) : res cpp_exn (option (bool * bytes)) :=
  if should_log rec (cl_sev l) then
    let? line := format syserr (cl_fmt l) rec in
    Ok (Some (match cl_dest l with out => false | err => true | var => level info <? level (m_severity rec) end, line ++ [10]))
  else Ok None.

(** ** Facts (liblog: what the formats promise) *)

Import DateTime.
Import JsonValue.Json.

(** The name of a severity is read as that severity; what is not one, as [all]. *)
Theorem severity_roundtrip s : string_to_severity (Some (severity_string s)) = s.
Proof. by destruct s. Qed.

(** ** Records as JSON *)
Definition nonzero64 (z : Z) : Prop := z <> 0 /\ - 2 ^ 63 <= z < 2 ^ 63.

(** The object of a record, by the names of its members in order. *)
Definition record_members (rec : record) : object :=
  [(bytes_of "class", V_STRING (m_class rec)); (bytes_of "error", V_INTEGER (m_error rec)); (bytes_of "file", V_STRING (m_file rec));
   (bytes_of "function", V_STRING (m_function rec)); (bytes_of "lineno", V_INTEGER (m_lineno rec)); (bytes_of "pid", V_INTEGER (m_pid rec));
   (bytes_of "severity", V_STRING (severity_string (m_severity rec))); (bytes_of "text", V_STRING (m_text rec));
   (bytes_of "tid", V_INTEGER (m_tid rec)); (bytes_of "timestamp", V_INTEGER (epoch millisecond (m_timestamp rec)))].

Record printable (rec : record) : Prop := {
  p_class : JsonTokens.Tokens.rt_string (m_class rec); p_file : JsonTokens.Tokens.rt_string (m_file rec);
  p_function : JsonTokens.Tokens.rt_string (m_function rec); p_text : JsonTokens.Tokens.rt_string (m_text rec);
  p_lineno : nonzero64 (m_lineno rec); p_error : nonzero64 (m_error rec); p_pid : nonzero64 (m_pid rec); p_tid : nonzero64 (m_tid rec);
  p_time : nonzero64 (epoch millisecond (m_timestamp rec)) }.

Lemma int64_id z : nonzero64 z -> int64 z = z.
Proof. intros [_ Hz]. by apply wrapS_id. Qed.

Lemma severity_plain s : JsonTokens.Tokens.rt_string (severity_string s).
Proof. destruct s; by apply JsonRoundTrip.rt_ascii. Qed.

Lemma record_object_members rec : printable rec -> record_object rec = Ok (record_members rec).
Proof.
  intros [Hc Hf Hn Ht Hl He Hp Hi Hm]. unfold record_object, record_members, value_of_cstring.
  rewrite !JsonTokens.Tokens.value_of_string_plain by (apply JsonTokens.Tokens.rt_string_plain; first [assumption|apply severity_plain]).
  unfold value_of_integral. rewrite !int64_id by done. reflexivity.
Qed.

Lemma record_members_rt rec : printable rec -> JsonRoundTrip.rt (V_OBJECT (record_members rec)).
Proof.
  intros [Hc Hf Hn Ht [] [] [] [] []]. apply JsonRoundTrip.rt_object. split; [done|]. split; [repeat constructor|].
  unfold record_members. rewrite !Forall_cons. cbn [fst snd]. split_and!; try done; first [by apply JsonRoundTrip.rt_ascii|apply severity_plain].
Qed.

(** C38. A record logged as JSON, pretty or not, is read back by [from_string] as the
    object with its ten members, when the texts are UTF-8 without backslashes and
    no number is zero. *)
Theorem json_record_reads_back syserr rec fmt : printable rec -> fmt = "json"%string \/ fmt = "json-pretty"%string ->
  exists line, format syserr (bytes_of fmt) rec = Ok line /\ JsonParser.Parser.from_string line = Ok (V_OBJECT (record_members rec)).
Proof.
  intros Hp Hfmt. assert (exists pretty, format syserr (bytes_of fmt) rec = of_json (LogRec.str pretty rec)) as [pretty ->].
  { destruct Hfmt as [-> | ->]; by eexists. }
  destruct (JsonRoundTrip.object_reads_back pretty (record_members rec)) as (line & E & Hr); [by apply record_members_rt|].
  exists line. split; [|done]. unfold LogRec.str. rewrite record_object_members by done. unfold rbind. by rewrite E.
Qed.

(** A record of line 12 of main.cpp. *)
Definition demo_time : datetime :=
  {| m_tm := {| tm_year := 118; tm_mon := 6; tm_mday := 27; tm_hour := 15; tm_min := 5; tm_sec := 2; tm_wday := 5 |};
     m_msec := 876; m_epoch := 1532703902; m_utc := false; m_recalc := false |}.
Definition demo_record (err : Z) (text : string) : record :=
  append (bytes_of text) (init None (Some (bytes_of "main.cpp")) (Some (bytes_of "main")) 12 err warning demo_time 192 193).

Lemma json_record_reads_back_witness : exists line, format (fun _ => []) (bytes_of "json") (demo_record 2 "no such file") = Ok line /\
  JsonParser.Parser.from_string line = Ok (V_OBJECT (record_members (demo_record 2 "no such file"))).
Proof.
  apply json_record_reads_back; [|by left].
  split; first [apply JsonRoundTrip.rt_ascii; vm_compute; reflexivity|unfold nonzero64; vm_compute; split; [discriminate|split; [discriminate|reflexivity]]].
Defined.

(** The sample of the README: a record without an error of the system is not read
    back, since the parser refuses zero. *)
Example record_without_error_refused :
  (let? line := LogRec.str false (demo_record 0 "a sample") in JsonParser.Parser.from_string line) =
  Throw (JsonStream.parsing_error (bytes_of "expected decimal point not found") 1 36).
Proof. vm_compute. reflexivity. Qed.

(** A text with a backslash is changed before it is printed, or not logged. *)
Example record_text_changed : record_object (demo_record 2 "C:\temp") =
  Ok (<[7%nat := (bytes_of "text", V_STRING (bytes_of "C:" ++ [9] ++ bytes_of "emp"))]> (record_members (demo_record 2 ""))).
Proof. vm_compute. reflexivity. Qed.
Example record_text_throws : format (fun _ => []) (bytes_of "json") (demo_record 2 "C:\windows") = Throw invalid_argument.
Proof. vm_compute. reflexivity. Qed.

Example record_formatted : format (fun _ => bytes_of "No such file or directory") (bytes_of "%D %T %p.%t [%s] [%F:%c.%f.%l] %m") (demo_record 2 "open") =
  Ok (bytes_of "2018/07/27 15:05:02.876 192.193 [WRN] [main.cpp:no-class.main.12] open: No such file or directory (2)").
Proof. vm_compute. reflexivity. Qed.
