(* ===== verification/Flogger.v ===== *)
(** * liblog: log files (liblog/include/flogger.h, liblog/src/flogger.cpp)

    A file logger writes to the newest file of a directory whose names have a
    date and a sequence number, goes on to the next by day or by size, and
    removes old files before it opens one.  The mutex of a logger is not
    modelled: a method runs under it from start to end.  [std::sort] is a
    parameter, since the order of files of the same time is not specified; the
    time of the system is one too. *)
From stdpp Require Import sorting.
From S2P Require Import Prelude Effects Numbers UriText Text Timeutil File Addr FileSys LogRec.

Import DateTime.

(** ** flogger.h *)
Record rotation := { r_scheme : Z; r_size : Z }.
Definition scheme_none : Z := 0.
Definition scheme_daily : Z := 1.
Definition scheme_by_size : Z := 2.
Definition rotation_default_size : Z := 104857600.
Definition rotation_init (s : Z) : rotation := {| r_scheme := s; r_size := rotation_default_size |}.
Definition daily (r : rotation) : bool := Z.land (r_scheme r) scheme_daily =? scheme_daily.
Definition by_size (r : rotation) : bool := Z.land (r_scheme r) scheme_by_size =? scheme_by_size.

Inductive retention_scheme := retain_all | last_n_days | last_n_files.
#[export] Instance retention_scheme_eq_dec : EqDecision retention_scheme.
Proof. solve_decision. Defined.
Record retention := { t_scheme : retention_scheme; t_argument : Z; t_path : bytes; t_pattern : bytes }.
Definition retention_default_argument : Z := 10.
Definition retention_init (s : retention_scheme) (arg : Z) : retention := {| t_scheme := s; t_argument := arg; t_path := []; t_pattern := [] |}.
Definition retain_by_days (t : retention) : bool := bool_decide (t_scheme t = last_n_days).
Definition retain_by_file_count (t : retention) : bool := bool_decide (t_scheme t = last_n_files).

Record file_logger := {
  l_sev : severity; l_fmt : bytes; l_path : bytes; l_make_path : bool; l_sync : bool; l_name_fmt : bytes; l_name : bytes;
  l_size : Z; l_seqno : Z; l_last_day : Z; l_rotation : option rotation; l_retention : option retention; l_file : option file }.
Definition file_default_format : bytes := bytes_of "%D %T %p.%t [%s] [%F:%c.%f.%l] %m".
Definition default_name_format : bytes := bytes_of "%D_%N.log".
Definition file_logger_init (path : bytes) (sev : severity) (fmt : bytes) : file_logger :=
  {| l_sev := sev; l_fmt := fmt; l_path := path; l_make_path := false; l_sync := false; l_name_fmt := []; l_name := [];
     l_size := 0; l_seqno := 0; l_last_day := 0; l_rotation := None; l_retention := None; l_file := None |}.

Definition with_name (n : bytes) (l : file_logger) : file_logger :=
  {| l_sev := l_sev l; l_fmt := l_fmt l; l_path := l_path l; l_make_path := l_make_path l; l_sync := l_sync l; l_name_fmt := l_name_fmt l;
     l_name := n; l_size := l_size l; l_seqno := l_seqno l; l_last_day := l_last_day l; l_rotation := l_rotation l;
     l_retention := l_retention l; l_file := l_file l |}.
Definition with_name_fmt (f : bytes) (l : file_logger) : file_logger :=
  {| l_sev := l_sev l; l_fmt := l_fmt l; l_path := l_path l; l_make_path := l_make_path l; l_sync := l_sync l; l_name_fmt := f;
     l_name := l_name l; l_size := l_size l; l_seqno := l_seqno l; l_last_day := l_last_day l; l_rotation := l_rotation l;
     l_retention := l_retention l; l_file := l_file l |}.
Definition with_size (n : Z) (l : file_logger) : file_logger :=
  {| l_sev := l_sev l; l_fmt := l_fmt l; l_path := l_path l; l_make_path := l_make_path l; l_sync := l_sync l; l_name_fmt := l_name_fmt l;
     l_name := l_name l; l_size := n; l_seqno := l_seqno l; l_last_day := l_last_day l; l_rotation := l_rotation l;
     l_retention := l_retention l; l_file := l_file l |}.
Definition with_seqno (n : Z) (l : file_logger) : file_logger :=
  {| l_sev := l_sev l; l_fmt := l_fmt l; l_path := l_path l; l_make_path := l_make_path l; l_sync := l_sync l; l_name_fmt := l_name_fmt l;
     l_name := l_name l; l_size := l_size l; l_seqno := n; l_last_day := l_last_day l; l_rotation := l_rotation l;
     l_retention := l_retention l; l_file := l_file l |}.
Definition with_last_day (d : Z) (l : file_logger) : file_logger :=
  {| l_sev := l_sev l; l_fmt := l_fmt l; l_path := l_path l; l_make_path := l_make_path l; l_sync := l_sync l; l_name_fmt := l_name_fmt l;
     l_name := l_name l; l_size := l_size l; l_seqno := l_seqno l; l_last_day := d; l_rotation := l_rotation l;
     l_retention := l_retention l; l_file := l_file l |}.
Definition with_retention (t : option retention) (l : file_logger) : file_logger :=
  {| l_sev := l_sev l; l_fmt := l_fmt l; l_path := l_path l; l_make_path := l_make_path l; l_sync := l_sync l; l_name_fmt := l_name_fmt l;
     l_name := l_name l; l_size := l_size l; l_seqno := l_seqno l; l_last_day := l_last_day l; l_rotation := l_rotation l;
     l_retention := t; l_file := l_file l |}.
Definition with_file (f : option file) (l : file_logger) : file_logger :=
  {| l_sev := l_sev l; l_fmt := l_fmt l; l_path := l_path l; l_make_path := l_make_path l; l_sync := l_sync l; l_name_fmt := l_name_fmt l;
     l_name := l_name l; l_size := l_size l; l_seqno := l_seqno l; l_last_day := l_last_day l; l_rotation := l_rotation l;
     l_retention := l_retention l; l_file := f |}.

Definition rotate_daily (day : Z) (l : file_logger) : bool :=
  match l_rotation l with Some r => daily r && negb (day =? l_last_day l) | None => false end.
Definition rotate_by_size (fsize : Z) (l : file_logger) : bool :=
  match l_rotation l with Some r => by_size r && (r_size r <? fsize) | None => false end.

(** ** flogger.cpp: schemes *)

(** The pieces that [std::getline(ss, substr, '|')] gives. *)
Fixpoint split_bars (cur s : bytes) : list bytes :=
  match s with [] => [cur] | c :: s => if c =? chr "|" then cur :: split_bars [] s else split_bars (cur ++ [c]) s end.
Definition rotation_scheme_of (s : bytes) : Z :=
  foldl (fun v p =>
    let t := trim p in
    if bool_decide (t = bytes_of "daily") then Z.lor v scheme_daily
    else if bool_decide (t = bytes_of "by_size") then Z.lor v scheme_by_size else v)
    scheme_none (match s with [] => [] | _ => split_bars [] s end).
Definition retention_scheme_of (s : bytes) : retention_scheme :=
  if bool_decide (s = bytes_of "last_n_files") then last_n_files
  else if bool_decide (s = bytes_of "last_n_days") then last_n_days else retain_all.

(** ** The names of log files *)
Definition pattern_spec (c : Z) : bytes :=
  if c =? chr "%" then bytes_of "%" else if c =? chr "D" then bytes_of "\d{8}" else if c =? chr "N" then bytes_of "\d{6}" else [chr "%"; c].
Definition name_format (l : file_logger) : bytes := match l_name_fmt l with [] => default_name_format | f => f end.
Definition init_name_format (l : file_logger) : file_logger := with_name_fmt (name_format l) l.

(** [regex_pattern()] and [regex_pattern(true, &date_index, &seq_index)]: the
    pattern with groups, and which of them are the date and the number. *)
Definition regex_pattern (fmt : bytes) : bytes := expand pattern_spec fmt.
Definition capture_spec (c : Z) : bytes :=
  if c =? chr "D" then bytes_of "(\d{8})" else if c =? chr "N" then bytes_of "(\d{6})" else pattern_spec c.
Fixpoint capture_indices (fmt : bytes) (index : nat) (date seq : option nat) : option nat * option nat :=
  match fmt with
  | [] => (date, seq)
  | c :: fmt =>
      if c =? chr "%" then
        match fmt with
        | [] => (date, seq)
        | d :: fmt =>
            if d =? chr "D" then capture_indices fmt (Datatypes.S index) (Some index) seq
            else if d =? chr "N" then capture_indices fmt (Datatypes.S index) date (Some index)
            else capture_indices fmt index date seq
        end
      else capture_indices fmt index date seq
  end.

(** [parse_name(file_name, date, seq)] *)
Definition group (gs : list bytes) (i : option nat) : bytes := match i with Some i => default [] (gs !! i) | None => [] end.
Definition parse_name (fmt file_name : bytes) : res cpp_exn (bytes * bytes) :=
  let '(date, seq) := capture_indices fmt 0 None None in
  match date, seq with
  | None, None => Ok ([], [])
  | _, _ =>
      match regex (expand capture_spec fmt) with
      | None => Ub
      | Some items =>
          Ok (match regex_search items file_name with Some gs => (group gs date, group gs seq) | None => ([], []) end)
      end
  end.

Definition name_spec (lt : datetime) (seqno : Z) (c : Z) : bytes :=
  if c =? chr "%" then bytes_of "%"
  else if c =? chr "D" then padded 4 (get_year lt) ++ padded 2 (get_month lt) ++ padded 2 (get_day lt)
  else if c =? chr "N" then padded 6 seqno
  else [chr "%"; c].
Definition name_of (fmt : bytes) (lt : datetime) (seqno : Z) : bytes := expand (name_spec lt seqno) fmt.

(** [name(lt)] and [name(fa, lt)] *)
Definition name (lt : datetime) : M cpp_exn file_logger bytes :=
  modify init_name_format ;; gets (fun l => name_of (l_name_fmt l) lt (l_seqno l)).

(** A date that is not the one of [lt]. *)
Definition other_day (date_str : bytes) (lt : datetime) : res cpp_exn bool :=
  let? y := substr date_str 0 4 in let? year := stoi y in
  let? m := substr date_str 4 2 in let? mon := stoi m in
  let? d := substr date_str 6 2 in let? day := stoi d in
  Ok (negb (day =? get_day lt) || negb (mon =? get_month lt) || negb (year =? get_year lt)).

(** The file is used again. *)
Definition reuse (fa : file_attr) : M cpp_exn file_logger bytes := modify (with_size (f_size fa)) ;; ret (f_name fa).

Definition name_after (fa : file_attr) (lt : datetime) : M cpp_exn file_logger bytes :=
  match f_name fa with
  | [] => name lt
  | _ =>
      modify init_name_format ;;
      let! fmt := gets l_name_fmt in
      let! (date_str, seq_str) := lift (parse_name fmt (f_name fa)) in
      let! other := (match date_str with [] => ret false | _ => lift (other_day date_str lt) end) in
      if other then modify (with_seqno 0) ;; name lt
      else
        match seq_str with
        | [] => reuse fa
        | _ =>
            let! seqno := lift (stoi seq_str) in
            modify (with_seqno seqno) ;;
            let! full := gets (rotate_by_size (f_size fa)) in
            if full then modify (fun l => with_seqno (l_seqno l + 1) l) ;; name lt else reuse fa
        end
  end.

Section world.
Context {W : Type} `{!FsCalls W} (sys : syscalls W) (epoch : W -> Z) (sort : list file_attr -> list file_attr) (syserr : Z -> bytes).

(** ** Retention *)
Definition remove_log (path fname : bytes) : M cpp_exn W unit :=
  let! _ := Fs.remove_file (path ++ [pathsep] ++ fname) None in ret tt.

Fixpoint remove_after (files_to_keep : Z) (path : bytes) (fa_vec : list file_attr) : M cpp_exn W unit :=
  match fa_vec with
  | [] => ret tt
  | fa :: fa_vec =>
      if files_to_keep =? 0 then remove_log path (f_name fa) ;; remove_after files_to_keep path fa_vec
      else remove_after (files_to_keep - 1) path fa_vec
  end.
Fixpoint remove_older (older_time : Z) (path : bytes) (fa_vec : list file_attr) : M cpp_exn W unit :=
  match fa_vec with
  | [] => ret tt
  | fa :: fa_vec => (if f_mtime fa <? older_time then remove_log path (f_name fa) else ret tt) ;; remove_older older_time path fa_vec
  end.

(** [purge] *)
Definition purge (t : retention) : M cpp_exn W unit :=
  let! fa_vec := Dir.each (t_path t) (t_pattern t) in
  let fa_vec := sort fa_vec in
  if retain_by_file_count t then remove_after (t_argument t) (t_path t) fa_vec
  else if retain_by_days t then
    let! now := gets epoch in
    let! hours := lift (int_mul (t_argument t) 24) in
    let! minutes := lift (int_mul hours 60) in
    let! seconds := lift (int_mul minutes 60) in
    remove_older (now - seconds) (t_path t) fa_vec
  else ret tt.

(** ** The logger *)
Abbreviation LX := (M cpp_exn (file_logger * W)).
Definition self {A} (m : M cpp_exn file_logger A) : LX A := focus fst (fun l st => (l, st.2)) m.
Definition world {A} (m : M cpp_exn W A) : LX A := focus snd (fun w st => (st.1, w)) m.

(** [open()] *)
Definition open_file : LX Z := fun '(l, w) =>
  let f := file_init (l_path l ++ [pathsep] ++ l_name l) 18 in
  let flags := {| o_read := false; o_write := false; o_append := true; o_create := true; o_truncate := false; o_excl := false; o_sync := l_sync l |} in
  let '(retval, _, f, w) := File.open sys f flags 384 w in
  if negb (E_ok =? retval) then
    let '(_, _, _, w) := File.close sys f w in (Ok retval, (with_file None l, w))
  else (Ok retval, (with_file (Some f) l, w)).

(** [close()]; the destructor closes a file that is still open. *)
Definition close_file : LX unit := fun '(l, w) =>
  match l_file l with
  | None => (Ok tt, (l, w))
  | Some f =>
      let '(_, _, f, w) := File.close sys f w in
      let '(_, _, _, w) := File.close sys f w in
      (Ok tt, (with_size 0 (with_file None l), w))
  end.

Definition purge_retained : LX unit :=
  let! t := gets (fun st => l_retention st.1) in
  match t with None => ret tt | Some t => world (purge t) end.
Definition opened (lt : datetime) : LX unit :=
  let! r := open_file in
  if E_ok =? r then self (modify (with_last_day (get_day lt))) else ret tt.

(** The newest of the files: the first with the greatest time above -1. *)
Definition newest (l : list file_attr) : file_attr :=
  (foldl (fun '(fa, mtime) ent => if mtime <? f_mtime ent then (ent, f_mtime ent) else (fa, mtime)) (Fattr.clear, -1) l).1.

(** [open(lt)] *)
Definition open (lt : datetime) : LX unit :=
  self (modify init_name_format) ;;
  let! pattern := gets (fun st => regex_pattern (l_name_fmt st.1)) in
  let! path := gets (fun st => l_path st.1) in
  let! ents := world (Dir.each path pattern) in
  let! n := self (name_after (newest ents) lt) in
  self (modify (with_name n)) ;;
  self (modify (fun l => with_retention ((fun t => {| t_scheme := t_scheme t; t_argument := t_argument t; t_path := l_path l; t_pattern := pattern |}) <$> l_retention l) l)) ;;
  purge_retained ;;
  opened lt.

(** [rotate(lt)] *)
Definition rotate (lt : datetime) : LX unit :=
  let! l := gets fst in
  if rotate_daily (get_day lt) l || rotate_by_size (l_size l) l then
    self (modify (fun l => with_seqno (if rotate_daily (get_day lt) l then 0 else l_seqno l + 1) l)) ;;
    close_file ;;
    let! n := self (name lt) in
    self (modify (with_name n)) ;;
    purge_retained ;;
    opened lt
  else ret tt.

(** Does the directory exist, or can it be made? *)
Definition make_directory : LX bool :=
  let! l := gets fst in
  let! (there, _) := world (Fs.exists_ (l_path l) None) in
  if there then ret true
  else if l_make_path l then
    let! (r, _) := world (Fs.mkdir (l_path l) 493 None) in ret (E_ok =? r)
  else ret false.

(** The line that is written. *)
Definition write_line (rec : record) : LX unit :=
  let! l := gets fst in
  match l_file l with
  | None => ret tt
  | Some f =>
      let! line := lift (format syserr (l_fmt l) rec) in
      let line := line ++ [10] in
      fun '(l, w) =>
        let '(r, _, _, w) := File.write sys f line w in
        (Ok tt, (if E_ok =? r then with_size (l_size l + zlen line) l else l, w))
  end.

(** [log(rec)] *)
Definition log (rec : record) : LX unit :=
  let! l := gets fst in
  if negb (should_log rec (l_sev l)) then ret tt
  else
    match l_file l with
    | None =>
        let! there := make_directory in
        if there then open (m_timestamp rec) ;; write_line rec else ret tt
    | Some _ => rotate (m_timestamp rec) ;; write_line rec
    end.

(** [reset()] *)
Definition reset : LX unit := close_file.
End world.

(** ** Facts (liblog: log files)

    The names of log files are read as they were written; a log file stays within
    its size and a line; and a purge keeps the newest files. *)

Import DateTime.

(** ** Names

    Formats whose text means itself in a pattern: besides the specifiers, no
    character that is special but the dot. *)
Fixpoint plain_format (fmt : bytes) : bool :=
  match fmt with
  | [] => true
  | c :: fmt =>
      if c =? chr "%" then
        match fmt with
        | [] => false
        | d :: fmt => ((d =? chr "%") || (d =? chr "D") || (d =? chr "N")) && plain_format fmt
        end
      else (negb (regex_special c) || (c =? chr ".")) && plain_format fmt
  end.

Lemma plain_format_ind (P : bytes -> Prop) : P [] ->
  (forall fmt, plain_format fmt = true -> P fmt -> P (chr "%" :: chr "%" :: fmt)) ->
  (forall fmt, plain_format fmt = true -> P fmt -> P (chr "%" :: chr "D" :: fmt)) ->
  (forall fmt, plain_format fmt = true -> P fmt -> P (chr "%" :: chr "N" :: fmt)) ->
  (forall c fmt, c <> chr "%" -> regex_special c = false \/ c = chr "." -> plain_format fmt = true -> P fmt -> P (c :: fmt)) ->
  forall fmt, plain_format fmt = true -> P fmt.
Proof.
  intros H0 Hp Hd Hn Hc. fix IH 1. intros [|c fmt] H; [done|]. cbn [plain_format] in H. destruct (Z.eqb_spec c (chr "%")) as [->|Hne].
  - destruct fmt as [|d fmt]; [done|]. apply andb_prop in H as [Hs Hf].
    destruct (Z.eqb_spec d (chr "%")) as [->|]; [by apply Hp; [|apply IH]|].
    destruct (Z.eqb_spec d (chr "D")) as [->|]; [by apply Hd; [|apply IH]|].
    destruct (Z.eqb_spec d (chr "N")) as [->|]; [by apply Hn; [|apply IH]|]. done.
  - apply andb_prop in H as [Hs Hf]. apply Hc; [done| |done|by apply IH]. apply orb_prop in Hs as [Hs|Hs].
    + left. by apply negb_true_iff.
    + right. by apply Z.eqb_eq.
Qed.

Lemma expand_other spec c fmt : c <> chr "%" -> expand spec (c :: fmt) = c :: expand spec fmt.
Proof. intros Hc. cbn. by destruct (Z.eqb_spec c (chr "%")). Qed.

Lemma expand_spec spec d fmt : expand spec (chr "%" :: d :: fmt) = spec d ++ expand spec fmt.
Proof. done. Qed.

(** The parts of a pattern. *)
Definition item_of (c : Z) : pattern_item := if c =? chr "." then is_any else is_char c.
Definition spec_items (capture : bool) (d : Z) : list pattern_item :=
  if d =? chr "%" then [is_char (chr "%")]
  else (if capture then [group_begins] else []) ++ [is_digits (if d =? chr "D" then 8 else 6)] ++ (if capture then [group_ends] else []).
Fixpoint items_of (capture : bool) (fmt : bytes) : list pattern_item :=
  match fmt with
  | [] => []
  | c :: fmt =>
      if c =? chr "%" then match fmt with [] => [] | d :: fmt => spec_items capture d ++ items_of capture fmt end
      else item_of c :: items_of capture fmt
  end.
Lemma items_spec capture d fmt : items_of capture (chr "%" :: d :: fmt) = spec_items capture d ++ items_of capture fmt.
Proof. done. Qed.
Lemma items_other capture c fmt : c <> chr "%" -> items_of capture (c :: fmt) = item_of c :: items_of capture fmt.
Proof. intros Hc. cbn. by destruct (Z.eqb_spec c (chr "%")). Qed.

Lemma regex_other c fmt : c <> chr "%" -> regex_special c = false \/ c = chr "." -> regex (c :: fmt) = cons (item_of c) <$> regex fmt.
Proof.
  intros Hc Hs. unfold item_of. destruct (decide (c = 92)) as [->|H92]; [destruct Hs; done|].
  assert (regex (c :: fmt) = if c =? chr "." then cons is_any <$> regex fmt else if c =? chr "(" then cons group_begins <$> regex fmt
    else if c =? chr ")" then cons group_ends <$> regex fmt else if regex_special c then None else cons (is_char c) <$> regex fmt) as ->.
  { cbn [regex]. destruct c as [|p|p]; [done| |done]. do 7 (try (destruct p as [p|p|]; try done)). }
  destruct (Z.eqb_spec c (chr ".")); [done|]. destruct Hs as [Hs|]; [|done]. rewrite Hs.
  destruct (Z.eqb_spec c (chr "(")) as [->|]; [done|]. by destruct (Z.eqb_spec c (chr ")")) as [->|].
Qed.

Definition text_of (capture : bool) : Z -> bytes := if capture then capture_spec else pattern_spec.
Lemma regex_digits d rest : isdigit d = true -> regex (92 :: 100 :: 123 :: d :: 125 :: rest) = cons (is_digits (Z.to_nat (d - 48))) <$> regex rest.
Proof.
  intros Hd. transitivity (if isdigit d then cons (is_digits (Z.to_nat (d - 48))) <$> regex rest else None); [reflexivity|by rewrite Hd].
Qed.
Lemma regex_spec capture d X : d = chr "%" \/ d = chr "D" \/ d = chr "N" ->
  regex (text_of capture d ++ X) = app (spec_items capture d) <$> regex X.
Proof.
  assert (forall X, regex (40 :: X) = cons group_begins <$> regex X) as Ho by reflexivity.
  assert (forall X, regex (41 :: X) = cons group_ends <$> regex X) as Hc by reflexivity.
  assert (forall X, regex (37 :: X) = cons (is_char 37) <$> regex X) as Hp by reflexivity.
  intros [-> | [-> | ->]]; destruct capture.
  1-2: change (regex (37 :: X) = app [is_char 37] <$> regex X); rewrite Hp.
  3: change (regex (40 :: 92 :: 100 :: 123 :: 56 :: 125 :: 41 :: X) = app [group_begins; is_digits 8; group_ends] <$> regex X).
  4: change (regex (92 :: 100 :: 123 :: 56 :: 125 :: X) = app [is_digits 8] <$> regex X).
  5: change (regex (40 :: 92 :: 100 :: 123 :: 54 :: 125 :: 41 :: X) = app [group_begins; is_digits 6; group_ends] <$> regex X).
  6: change (regex (92 :: 100 :: 123 :: 54 :: 125 :: X) = app [is_digits 6] <$> regex X).
  all: rewrite ?Ho, ?regex_digits, ?Hc by done; by destruct (regex X).
Qed.

Lemma regex_items capture fmt : plain_format fmt = true -> regex (expand (text_of capture) fmt) = Some (items_of capture fmt).
Proof.
  revert fmt. apply plain_format_ind; [done|intros fmt _ IH..|intros c fmt Hne Hs _ IH].
  4: by rewrite expand_other, regex_other, IH, items_other.
  all: by rewrite expand_spec, items_spec, regex_spec, IH by auto.
Qed.

(** ** Reading a name *)
Definition written_time (lt : datetime) : Prop := 0 <= get_year lt < 10000 /\ 0 <= get_month lt < 100 /\ 0 <= get_day lt < 100.
Definition date_of (lt : datetime) : bytes := padded 4 (get_year lt) ++ padded 2 (get_month lt) ++ padded 2 (get_day lt).

(** The specifier [x] occurs. *)
Fixpoint has_spec (x : Z) (fmt : bytes) : bool :=
  match fmt with
  | [] => false
  | c :: fmt => if c =? chr "%" then match fmt with [] => false | d :: fmt => (d =? x) || has_spec x fmt end else has_spec x fmt
  end.
Lemma has_other x c fmt : c <> chr "%" -> has_spec x (c :: fmt) = has_spec x fmt.
Proof. intros Hc. cbn. by destruct (Z.eqb_spec c (chr "%")). Qed.

Lemma padded_isdigit w v : 0 <= v < 10 ^ Z.of_nat w -> (1 <= w)%nat -> length (padded w v) = w /\ forallb isdigit (padded w v) = true.
Proof.
  intros Hv Hw. destruct (padded_digits w v Hv Hw) as (Hl & Hd & _). split; [done|]. apply forallb_forall. intros c Hc.
  rewrite Forall_forall in Hd. apply Hd. by apply list_elem_of_In.
Qed.

Section names.
Context (lt : datetime) (seqno : Z) (Hlt : written_time lt) (Hseq : 0 <= seqno < 1000000).

Lemma date_digits : length (date_of lt) = 8%nat /\ forallb isdigit (date_of lt) = true.
Proof.
  destruct Hlt as (Hy & Hm & Hd). destruct (padded_isdigit 4 _ Hy ltac:(lia)) as [L1 D1].
  destruct (padded_isdigit 2 _ Hm ltac:(lia)) as [L2 D2]. destruct (padded_isdigit 2 _ Hd ltac:(lia)) as [L3 D3].
  unfold date_of. rewrite !length_app, !forallb_app, L1, L2, L3, D1, D2, D3. done.
Qed.

(** What the groups of a format are for this name. *)
Fixpoint groups (fmt : bytes) : list bytes :=
  match fmt with
  | [] => []
  | c :: fmt =>
      if c =? chr "%" then
        match fmt with
        | [] => []
        | d :: fmt => (if d =? chr "D" then [date_of lt] else if d =? chr "N" then [padded 6 seqno] else []) ++ groups fmt
        end
      else groups fmt
  end.
Lemma groups_other c fmt : c <> chr "%" -> groups (c :: fmt) = groups fmt.
Proof. intros Hc. cbn. by destruct (Z.eqb_spec c (chr "%")). Qed.

Lemma match_digits n ds items cur s : length ds = n -> forallb isdigit ds = true -> match_at (is_digits n :: items) cur (ds ++ s) = match_at items (cur ++ ds) s.
Proof.
  intros <- Hd. cbn [match_at]. rewrite decide_True by (rewrite length_app; lia). by rewrite take_app_length, drop_app_length, Hd.
Qed.

Lemma match_name capture fmt : plain_format fmt = true -> forall cur,
  match_at (items_of capture fmt) cur (name_of fmt lt seqno) = Some (if capture then groups fmt else [], []).
Proof.
  destruct date_digits as [Ld Dd]. destruct (padded_isdigit 6 seqno) as [Ls Ds]; [done|lia|].
  revert fmt. unfold name_of. refine (plain_format_ind _ _ _ _ _ _); [by destruct capture|intros fmt _ IH cur..|intros c fmt Hne Hs _ IH cur].
  4: { rewrite expand_other, items_other, groups_other by done. unfold item_of. destruct (Z.eqb_spec c (chr ".")) as [->|].
       - cbn [match_at]. apply IH.
       - cbn [match_at]. rewrite Z.eqb_refl. apply IH. }
  all: rewrite expand_spec, items_spec.
  - change (match_at (is_char 37 :: items_of capture fmt) cur (37 :: expand (name_spec lt seqno) fmt) = Some (if capture then groups fmt else [], [])).
    cbn [match_at]. apply IH.
  - change (name_spec lt seqno (chr "D")) with (date_of lt). change (groups (chr "%" :: chr "D" :: fmt)) with (date_of lt :: groups fmt).
    destruct capture.
    + change (match_at (is_digits 8 :: group_ends :: items_of true fmt) [] (date_of lt ++ expand (name_spec lt seqno) fmt) = Some (date_of lt :: groups fmt, [])).
      rewrite match_digits by done. cbn [match_at app]. by rewrite IH.
    + change (match_at (is_digits 8 :: items_of false fmt) cur (date_of lt ++ expand (name_spec lt seqno) fmt) = Some ([], [])).
      rewrite match_digits by done. apply IH.
  - change (name_spec lt seqno (chr "N")) with (padded 6 seqno). change (groups (chr "%" :: chr "N" :: fmt)) with (padded 6 seqno :: groups fmt).
    destruct capture.
    + change (match_at (is_digits 6 :: group_ends :: items_of true fmt) [] (padded 6 seqno ++ expand (name_spec lt seqno) fmt) = Some (padded 6 seqno :: groups fmt, [])).
      rewrite match_digits by done. cbn [match_at app]. by rewrite IH.
    + change (match_at (is_digits 6 :: items_of false fmt) cur (padded 6 seqno ++ expand (name_spec lt seqno) fmt) = Some ([], [])).
      rewrite match_digits by done. apply IH.
Qed.

(** The groups that the code looks at. *)
Definition points (i : nat) (gs : list bytes) (x : bytes) (o : option nat) : Prop := exists j, o = Some (i + j)%nat /\ gs !! j = Some x.
Lemma points_further i gs x y o : points (Datatypes.S i) gs x o -> points i (y :: gs) x o.
Proof. intros (j & -> & Hj). exists (Datatypes.S j). split; [f_equal; lia|done]. Qed.

Lemma capture_points fmt : plain_format fmt = true -> forall i d s,
  let '(d', s') := capture_indices fmt i d s in
  (if has_spec (chr "D") fmt then points i (groups fmt) (date_of lt) d' else d' = d) /\
  (if has_spec (chr "N") fmt then points i (groups fmt) (padded 6 seqno) s' else s' = s).
Proof.
  revert fmt. refine (plain_format_ind _ _ _ _ _ _); [done|intros fmt _ IH i d s..|intros c fmt Hne Hs _ IH i d s].
  4: { rewrite !has_other, groups_other by done. cbn [capture_indices]. destruct (Z.eqb_spec c (chr "%")); [done|]. apply IH. }
  - change (let '(d', s') := capture_indices fmt i d s in
      (if has_spec (chr "D") fmt then points i (groups fmt) (date_of lt) d' else d' = d) /\
      (if has_spec (chr "N") fmt then points i (groups fmt) (padded 6 seqno) s' else s' = s)). apply IH.
  - specialize (IH (Datatypes.S i) (Some i) s).
    change (let '(d', s') := capture_indices fmt (Datatypes.S i) (Some i) s in
      (points i (date_of lt :: groups fmt) (date_of lt) d') /\
      (if has_spec (chr "N") fmt then points i (date_of lt :: groups fmt) (padded 6 seqno) s' else s' = s)).
    destruct (capture_indices fmt (Datatypes.S i) (Some i) s) as [d' s']. destruct IH as [Hd Hs]. split.
    + destruct (has_spec (chr "D") fmt); [by apply points_further|]. exists 0%nat. split; [by rewrite Hd, Nat.add_0_r|done].
    + destruct (has_spec (chr "N") fmt); [by apply points_further|done].
  - specialize (IH (Datatypes.S i) d (Some i)).
    change (let '(d', s') := capture_indices fmt (Datatypes.S i) d (Some i) in
      (if has_spec (chr "D") fmt then points i (padded 6 seqno :: groups fmt) (date_of lt) d' else d' = d) /\
      (points i (padded 6 seqno :: groups fmt) (padded 6 seqno) s')).
    destruct (capture_indices fmt (Datatypes.S i) d (Some i)) as [d' s']. destruct IH as [Hd Hs]. split.
    + destruct (has_spec (chr "D") fmt); [by apply points_further|done].
    + destruct (has_spec (chr "N") fmt); [by apply points_further|]. exists 0%nat. split; [by rewrite Hs, Nat.add_0_r|done].
Qed.

Lemma points_group gs x o : points 0 gs x o -> group gs o = x.
Proof. intros (j & -> & Hj). cbn. by rewrite Hj. Qed.

Lemma parse_name_of fmt : plain_format fmt = true ->
  parse_name fmt (name_of fmt lt seqno) =
    Ok (if has_spec (chr "D") fmt then date_of lt else [], if has_spec (chr "N") fmt then padded 6 seqno else []).
Proof.
  intros Hf. unfold parse_name. pose proof (capture_points fmt Hf 0%nat None None) as Hp.
  destruct (capture_indices fmt 0 None None) as [d s]. destruct Hp as [Hd Hs].
  assert (forall gs, gs = groups fmt -> group gs d = (if has_spec (chr "D") fmt then date_of lt else []) /\
      group gs s = (if has_spec (chr "N") fmt then padded 6 seqno else [])) as Hg.
  { intros gs ->. split.
    - destruct (has_spec (chr "D") fmt); [by apply points_group|by rewrite Hd].
    - destruct (has_spec (chr "N") fmt); [by apply points_group|by rewrite Hs]. }
  destruct (Hg _ eq_refl) as [Gd Gs]. rewrite <- Gd, <- Gs. change capture_spec with (text_of true). rewrite regex_items by done.
  assert (regex_search (items_of true fmt) (name_of fmt lt seqno) = Some (groups fmt)) as ->.
  { pose proof (match_name true fmt Hf []) as Hm. destruct (name_of fmt lt seqno); cbn [regex_search]; by rewrite Hm. }
  by destruct d, s.
Qed.

Lemma date_parts lt' : other_day (date_of lt) lt' =
  Ok (negb (get_day lt =? get_day lt') || negb (get_month lt =? get_month lt') || negb (get_year lt =? get_year lt')).
Proof.
  destruct Hlt as (Hy & Hm & Hd). unfold date_of. destruct (padded4 _ Hy) as (y1 & y2 & y3 & y4 & -> & Sy).
  destruct (padded2 _ Hm) as (m1 & m2 & -> & Sm). destruct (padded2 _ Hd) as (d1 & d2 & -> & Sd).
  unfold other_day, substr. cbn [app length drop take]. repeat (rewrite decide_False by lia). cbn [rbind]. rewrite Sy. cbn [rbind]. rewrite Sm. cbn [rbind].
  by rewrite Sd.
Qed.
Lemma name_nonempty fmt : plain_format fmt = true -> fmt <> [] -> name_of fmt lt seqno <> [].
Proof.
  destruct date_digits as [Ld _]. destruct (padded_isdigit 6 seqno) as [Ls _]; [done|lia|].
  revert fmt. unfold name_of. refine (plain_format_ind _ _ _ _ _ _); [done|intros fmt _ _ _ H..|intros c fmt Hne _ _ _ _ H].
  4: by rewrite expand_other in H.
  all: rewrite expand_spec in H; apply app_eq_nil in H as [H _].
  - done.
  - change (date_of lt = []) in H. by rewrite H in Ld.
  - change (padded 6 seqno = []) in H. by rewrite H in Ls.
Qed.
End names.

(** The name that follows the name of a file. *)
Lemma name_after_goes_on l fa lt lt' seqno : plain_format (name_format l) = true ->
  has_spec (chr "D") (name_format l) = true -> has_spec (chr "N") (name_format l) = true ->
  written_time lt -> 0 <= seqno < 1000000 -> f_name fa = name_of (name_format l) lt seqno ->
  regex_match (items_of false (name_format l)) (f_name fa) = true /\ regex (regex_pattern (name_format l)) = Some (items_of false (name_format l)) /\
  exists n l', name_after fa lt' l = (Ok n, l') /\
    (if decide (get_day lt = get_day lt' /\ get_month lt = get_month lt' /\ get_year lt = get_year lt') then
       if rotate_by_size (f_size fa) l then n = name_of (name_format l) lt' (seqno + 1) /\ l_seqno l' = seqno + 1
       else n = f_name fa /\ l_seqno l' = seqno /\ l_size l' = f_size fa
     else n = name_of (name_format l) lt' 0 /\ l_seqno l' = 0).
Proof.
  intros Hf HD HN Hlt Hs Hn. split; [|split].
  - unfold regex_match. rewrite Hn. by rewrite (match_name lt seqno Hlt Hs false _ Hf []).
  - by apply (regex_items false).
  - set (fmt := name_format l) in *. pose proof (parse_name_of lt seqno Hlt Hs fmt Hf) as Hp. rewrite HD, HN, <- Hn in Hp.
    assert (exists c t, f_name fa = c :: t) as (c & t & Ec).
    { destruct (f_name fa) as [|c t] eqn:E; [|eauto]. exfalso. apply (name_nonempty lt seqno Hlt Hs fmt Hf); [|done]. by intros E'; rewrite E' in HD. }
    destruct (padded_text 6 seqno) as (ds & Eds & Lds & Sds); [done|lia|lia|]. rewrite Eds in Hp.
    unfold name_after. rewrite Ec. rewrite <- Ec. destruct (date_digits lt Hlt) as [Ld _].
    destruct (date_of lt) as [|d0 dt] eqn:Ed; [done|]. destruct ds as [|s0 dt']; [done|].
    unfold bind at 1, modify at 1. unfold bind at 1, gets at 1. change (l_name_fmt (init_name_format l)) with fmt.
    unfold bind at 1, lift at 1. rewrite Hp. unfold bind at 1, lift at 1. rewrite <- Ed, (date_parts lt Hlt).
    assert (negb (get_day lt =? get_day lt') || negb (get_month lt =? get_month lt') || negb (get_year lt =? get_year lt') =
      negb (bool_decide (get_day lt = get_day lt' /\ get_month lt = get_month lt' /\ get_year lt = get_year lt'))) as ->.
    { case_bool_decide as Hd; [destruct Hd as (-> & -> & ->); by rewrite !Z.eqb_refl|].
      destruct (Z.eqb_spec (get_day lt) (get_day lt')), (Z.eqb_spec (get_month lt) (get_month lt')), (Z.eqb_spec (get_year lt) (get_year lt')); try done. tauto. }
    case_bool_decide as Hd; cbn [negb].
    + unfold bind at 1, lift at 1. rewrite Sds. unfold bind at 1, modify at 1. unfold bind at 1, gets at 1.
      change (rotate_by_size (f_size fa) (with_seqno seqno (init_name_format l))) with (rotate_by_size (f_size fa) l).
      assert (forall x, l_name_fmt (init_name_format (with_seqno x (with_seqno seqno (init_name_format l)))) = fmt) as Hfmt.
      { intros x. unfold fmt, init_name_format, name_format. cbn. by destruct (l_name_fmt l). }
      destruct (rotate_by_size (f_size fa) l); do 2 eexists; (split; [reflexivity|]); rewrite decide_True by done; [|done].
      split; [|done]. f_equal. exact (Hfmt _).
    + do 2 eexists. split; [reflexivity|]. rewrite decide_False by done. split; [|done]. f_equal.
      unfold fmt, init_name_format, name_format. cbn. by destruct (l_name_fmt l).
Qed.

(** ** The size of a log file *)
Section logger.
Context {W : Type} `{!FsCalls W} (sys : syscalls W) (epoch : W -> Z) (sort : list file_attr -> list file_attr) (syserr : Z -> bytes).

Lemma world_run {A} (m : M cpp_exn W A) l w : world m (l, w) = ((m w).1, (l, (m w).2)).
Proof. unfold world, focus. cbn. by destruct (m w). Qed.
Lemma self_run {A} (m : M cpp_exn file_logger A) l (w : W) : self m (l, w) = ((m l).1, ((m l).2, w)).
Proof. unfold self, focus. cbn. by destruct (m l). Qed.

(** What a method leaves of the settings and, of the file that is open, the
    size. *)
Definition settled (l l' : file_logger) : Prop := l_rotation l' = l_rotation l /\ l_fmt l' = l_fmt l.

Lemma open_file_size l w r l' w' : open_file sys (l, w) = (r, (l', w')) -> settled l l' /\ l_size l' = l_size l.
Proof.
  unfold open_file. destruct (File.open sys _ _ _ w) as [[[c ?] f] w1]. destruct (negb (E_ok =? c)).
  - destruct (File.close sys f w1) as [[[] ?] ?]. by intros [= <- <- <-].
  - by intros [= <- <- <-].
Qed.

Lemma purge_retained_size l w r l' w' : purge_retained epoch sort (l, w) = (r, (l', w')) -> l' = l.
Proof.
  unfold purge_retained, bind, gets. cbn. destruct (l_retention l) as [t|]; [|by intros [= <- <- <-]].
  rewrite world_run. by intros [= <- <- <-].
Qed.

Lemma opened_size lt l w r l' w' : opened sys lt (l, w) = (r, (l', w')) -> settled l l' /\ l_size l' = l_size l.
Proof.
  unfold opened, bind. destruct (open_file sys (l, w)) as [r1 [l1 w1]] eqn:E. apply open_file_size in E as [Hs Hz].
  destruct r1 as [c| | |]; try (by intros [= <- <- <-]). destruct (E_ok =? c); [|by intros [= <- <- <-]].
  rewrite self_run. by intros [= <- <- <-].
Qed.

(** After a rotation, or without one, the file that is open is not over the
    limit. *)
Lemma rotate_size lt l w r l' w' rot : l_rotation l = Some rot -> by_size rot = true -> 0 <= r_size rot ->
  rotate sys epoch sort lt (l, w) = (r, (l', w')) -> is_Some (l_file l) -> settled l l' /\ l_size l' <= r_size rot.
Proof.
  intros Hrot Hby Hsz. unfold rotate, bind at 1, gets. cbn [fst].
  destruct (rotate_daily (get_day lt) l || rotate_by_size (l_size l) l) eqn:Er.
  2: { intros [= <- <- <-] _. split; [done|]. apply orb_false_iff in Er as [_ Er]. unfold rotate_by_size in Er. rewrite Hrot, Hby in Er. cbn in Er.
       by apply Z.ltb_ge in Er. }
  unfold bind at 1. rewrite self_run. cbn [fst snd modify]. set (l1 := with_seqno _ l). unfold bind at 1, close_file.
  change (l_file l1) with (l_file l). intros Hrun [f Hf]. rewrite Hf in Hrun. destruct (File.close sys f w) as [[[? ?] f1] w1].
  destruct (File.close sys f1 w1) as [[[? ?] ?] w2]. unfold bind at 1 in Hrun. rewrite self_run in Hrun. cbn [name bind modify gets fst snd] in Hrun.
  unfold bind at 1 in Hrun. rewrite self_run in Hrun. cbn [modify fst snd] in Hrun. set (l2 := with_name _ _) in Hrun. unfold bind at 1 in Hrun.
  assert (settled l l2 /\ l_size l2 = 0) as [Hset Hz] by done. clearbody l2.
  destruct (purge_retained epoch sort (l2, w2)) as [r3 [l3 w3]] eqn:Ep. apply purge_retained_size in Ep as ->.
  destruct r3; try (injection Hrun as <- <- <-; split; [done|lia]). apply opened_size in Hrun as [[H1 H2] H3]. split; [|lia].
  destruct Hset. split; congruence.
Qed.

Lemma write_line_size rec l w r l' w' : write_line sys syserr rec (l, w) = (r, (l', w')) ->
  l' = l \/ exists line, format syserr (l_fmt l) rec = Ok line /\ l' = with_size (l_size l + zlen (line ++ [10])) l.
Proof.
  unfold write_line, bind at 1, gets. cbn [fst]. destruct (l_file l) as [f|]; [|intros [= <- <- <-]; by left].
  unfold bind, lift. destruct (format syserr (l_fmt l) rec) as [line| | |]; try (intros [= <- <- <-]; by left).
  destruct (File.write sys f (line ++ [10]) w) as [[[c ?] ?] w1]. destruct (E_ok =? c); intros [= <- <- <-]; [right; eauto|by left].
Qed.

(** The name and the number of the file are not touched when it is opened. *)
Lemma opened_name lt l w r l' w' : opened sys lt (l, w) = (r, (l', w')) ->
  l_name l' = l_name l /\ l_seqno l' = l_seqno l /\ l_size l' = l_size l.
Proof.
  unfold opened, bind, open_file. destruct (File.open sys _ _ _ w) as [[[c ?] f] w1]. destruct (negb (E_ok =? c)) eqn:E.
  - destruct (File.close sys f w1) as [[[] ?] ?]. apply negb_true_iff in E. rewrite E. by intros [= <- <- <-].
  - apply negb_false_iff in E. rewrite E, self_run. by intros [= <- <- <-].
Qed.

(** What [open] does once the files are listed and the name is chosen. *)
Lemma open_name lt l w ents w1 n l1 r l' w' : Dir.each (l_path l) (regex_pattern (name_format l)) w = (Ok ents, w1) ->
  name_after (newest ents) lt (init_name_format l) = (Ok n, l1) -> open sys epoch sort lt (l, w) = (r, (l', w')) ->
  l_name l' = n /\ l_seqno l' = l_seqno l1 /\ l_size l' = l_size l1.
Proof.
  intros Hents Hn. unfold open, bind at 1. rewrite self_run. cbn [modify fst snd].
  do 2 (unfold bind at 1, gets at 1; cbn [fst]). unfold bind at 1. rewrite world_run. cbn [l_path l_name_fmt init_name_format with_name_fmt].
  rewrite Hents. cbn [fst snd]. unfold bind at 1. rewrite self_run, Hn. cbn [fst snd]. unfold bind at 1. rewrite self_run. cbn [modify fst snd].
  unfold bind at 1. rewrite self_run. cbn [modify fst snd]. set (l2 := with_retention _ _). unfold bind at 1.
  destruct (purge_retained epoch sort (l2, w1)) as [r3 [l3 w3]] eqn:Ep. apply purge_retained_size in Ep as ->.
  destruct r3; try (by intros [= <- <- <-]). intros Hrun. by apply opened_name in Hrun as (-> & -> & ->).
Qed.

(** The newest of the files, the first of those of the same time. *)
Definition first_newest (fa : file_attr) (ents : list file_attr) : Prop :=
  exists l1 l2, ents = l1 ++ fa :: l2 /\ Forall (fun x => f_mtime x < f_mtime fa) l1 /\ Forall (fun x => f_mtime x <= f_mtime fa) l2.

Lemma newest_first fa ents : first_newest fa ents -> 0 <= f_mtime fa -> newest ents = fa.
Proof.
  intros (l1 & l2 & -> & H1 & H2) H0. unfold newest. rewrite foldl_app. cbn [foldl].
  assert (forall st, st.2 < f_mtime fa ->
    (foldl (fun '(fa, mtime) ent => if mtime <? f_mtime ent then (ent, f_mtime ent) else (fa, mtime)) st l1).2 < f_mtime fa) as Hl1.
  { induction H1 as [|x l1 Hx _ IH]; intros [y t] Hst; [done|]. cbn [foldl]. destruct (t <? f_mtime x); by apply IH. }
  specialize (Hl1 (Fattr.clear, -1) ltac:(cbn; lia)). destruct (foldl _ (Fattr.clear, -1) l1) as [y t]. cbn [snd] in Hl1.
  rewrite (proj2 (Z.ltb_lt _ _) Hl1). clear H1. induction H2 as [|x l2 Hx _ IH]; [done|]. cbn [foldl].
  rewrite (proj2 (Z.ltb_ge _ _)) by lia. exact IH.
Qed.

(** C19. A logger that opens its directory goes on from the newest of the files
    that match its pattern, when the logger itself wrote that one's name: by
    another day with number zero; on the same day with the next number when the
    file is full, and otherwise with the same file and its size.  This is for
    formats with a date and a number and without special characters but the dot,
    and for numbers of six digits, for which a name that is written matches the
    pattern. *)
Theorem restart_goes_on l lt lt' seqno w ents fa w1 r l' w' : plain_format (name_format l) = true ->
  has_spec (chr "D") (name_format l) = true -> has_spec (chr "N") (name_format l) = true ->
  written_time lt -> 0 <= seqno < 1000000 ->
  Dir.each (l_path l) (regex_pattern (name_format l)) w = (Ok ents, w1) ->
  first_newest fa ents -> 0 <= f_mtime fa -> f_name fa = name_of (name_format l) lt seqno ->
  open sys epoch sort lt' (l, w) = (r, (l', w')) ->
  regex_match (items_of false (name_format l)) (f_name fa) = true /\ regex (regex_pattern (name_format l)) = Some (items_of false (name_format l)) /\
  if decide (get_day lt = get_day lt' /\ get_month lt = get_month lt' /\ get_year lt = get_year lt') then
    if rotate_by_size (f_size fa) l then l_name l' = name_of (name_format l) lt' (seqno + 1) /\ l_seqno l' = seqno + 1
    else l_name l' = f_name fa /\ l_seqno l' = seqno /\ l_size l' = f_size fa
  else l_name l' = name_of (name_format l) lt' 0 /\ l_seqno l' = 0.
Proof.
  intros Hf HD HN Hlt Hs Hents Hnew H0 Hn Hopen.
  assert (name_format (init_name_format l) = name_format l) as Hfmt by (unfold init_name_format, name_format; cbn; by destruct (l_name_fmt l)).
  assert (forall x, rotate_by_size x (init_name_format l) = rotate_by_size x l) as Hrot by done.
  pose proof (name_after_goes_on (init_name_format l) fa lt lt' seqno) as H. rewrite Hfmt in H.
  destruct (H Hf HD HN Hlt Hs Hn) as (Hm & Hr & n & l1 & E & Hres). split; [done|]. split; [done|].
  rewrite <- (newest_first fa ents Hnew H0) in E. destruct (open_name _ _ _ _ _ _ _ _ _ _ Hents E Hopen) as (-> & -> & ->).
  rewrite Hrot in Hres. done.
Qed.

(** C39. With rotation by size, a logger whose file is open leaves, by its count, no
    file that is longer than the limit and the line that it writes. *)
Theorem log_size_bounded rec l w r l' w' rot line : is_Some (l_file l) -> l_rotation l = Some rot -> by_size rot = true -> 0 <= r_size rot ->
  should_log rec (l_sev l) = true -> format syserr (l_fmt l) rec = Ok line ->
  log sys epoch sort syserr rec (l, w) = (r, (l', w')) -> l_size l' <= r_size rot + zlen (line ++ [10]).
Proof.
  intros Hf Hrot Hby Hsz Hlog Hline. unfold log, bind at 1, gets. cbn [fst]. rewrite Hlog. cbn [negb]. destruct (l_file l) as [f|] eqn:Ef; [|by destruct Hf].
  unfold bind. destruct (rotate sys epoch sort (m_timestamp rec) (l, w)) as [r1 [l1 w1]] eqn:Er.
  destruct (rotate_size _ _ _ _ _ _ _ Hrot Hby Hsz Er) as [[H1 H2] Hle]; [by rewrite Ef|]. pose proof (zlen_nonneg (line ++ [10])).
  destruct r1; try (intros [= <- <- <-]; lia). intros Hw. apply write_line_size in Hw as [->|(line' & El & ->)]; [lia|].
  rewrite H2, Hline in El. injection El as <-. cbn. lia.
Qed.
End logger.

(** ** What a purge keeps

    A directory that can be read and whose files can be removed. *)
Class LogDir (W : Type) `{FsCalls W} (path : bytes) := {
  dir_names : W -> list bytes;
  dir_stat : bytes -> stat_buf;
  dir_stream : W -> list bytes;
  names_law w : [] ∉ dir_names w;
  opendir_law w : exists d w', sys_opendir path w = (inl d, w') /\ dir_names w' = dir_names w /\ dir_stream w' = dir_names w;
  readdir_law d w : match dir_stream w with
    | [] => exists w', sys_readdir d w = (inl None, w') /\ dir_names w' = dir_names w
    | n :: rest => exists w', sys_readdir d w = (inl (Some n), w') /\ dir_names w' = dir_names w /\ dir_stream w' = rest
    end;
  entries_law d w : (length (dir_stream w) <= entries d w)%nat;
  lstat_law n w : sys_lstat (path ++ [pathsep] ++ n) w = (inl (dir_stat n), w);
  closedir_law d w : dir_names (sys_closedir d w) = dir_names w;
  unlink_law n w : n ∈ dir_names w ->
    exists w', sys_unlink (path ++ [pathsep] ++ n) w = (inl tt, w') /\ dir_names w' = filter (fun m => m <> n) (dir_names w) }.

Section purge.
Context {W : Type} `{!FsCalls W} {path : bytes} `{!LogDir W path}.
Abbreviation files_in := (dir_names (path:=path)).
Abbreviation stream := (dir_stream (path:=path)).

Definition attr_of (n : bytes) : file_attr := Fattr.set_name n (Fattr.of_stat (dir_stat (path:=path) n)).
Definition is_dot (n : bytes) : bool := bool_decide (n = bytes_of ".") || bool_decide (n = bytes_of "..").
Definition listed (items : list pattern_item) (n : bytes) : bool := negb (is_dot n) && regex_match items n.

(** The entries that [next] passes over. *)
Lemma next_loop_run items d : forall fuel w, (length (stream w) < fuel)%nat ->
  exists w', files_in w' = files_in w /\
    match List.filter (listed items) (stream w) with
    | [] => Dir.next_loop fuel path items d w = (Ok None, w')
    | n :: rest => Dir.next_loop fuel path items d w = (Ok (Some (attr_of n)), w') /\ List.filter (listed items) (stream w') = rest /\
        (length (stream w') < length (stream w))%nat
    end.
Proof.
  induction fuel as [|fuel IH]; intros w Hf; [lia|]. pose proof (readdir_law d w) as Hr. destruct (stream w) as [|n rest] eqn:Es.
  { destruct Hr as (w' & E & Hn). exists w'. split; [done|]. cbn [List.filter Dir.next_loop]. unfold bind, Fs.fs_call. by rewrite E. }
  destruct Hr as (w1 & E & Hn & Hs).
  assert (Dir.next_loop (Datatypes.S fuel) path items d w =
    if listed items n then (Ok (Some (attr_of n)), w1) else Dir.next_loop fuel path items d w1) as ->.
  { cbn [Dir.next_loop]. unfold bind at 1, Fs.fs_call at 1. rewrite E. cbv iota beta. unfold listed.
    change (bool_decide (n = bytes_of ".") || bool_decide (n = bytes_of "..")) with (is_dot n).
    destruct (is_dot n), (regex_match items n); try done. cbn [negb andb]. unfold bind, Fattr.init. by rewrite lstat_law. }
  cbn [List.filter]. destruct (listed items n).
  - exists w1. split; [done|]. split; [done|]. rewrite Hs. cbn. split; [done|lia].
  - destruct (IH w1) as (w' & Hn' & Hrun); [rewrite Hs; cbn in Hf; lia|]. rewrite Hs in Hrun. exists w'. split; [congruence|].
    destruct (List.filter (listed items) rest); [done|]. destruct Hrun as (? & ? & ?). cbn [length]. split_and!; [done..|lia].
Qed.

Lemma attr_not_clear n : n <> [] -> Fattr.equal (attr_of n) Fattr.clear = false.
Proof.
  intros Hn. unfold Fattr.equal. cbn [f_inode f_dev Fattr.clear Z.eqb negb]. rewrite !andb_false_r. cbn. unfold attr_of, Fattr.set_name. cbn.
  rewrite (bool_decide_false (n = [])) by done. apply andb_false_r.
Qed.

Lemma each_loop_run items d : forall fuel w first rest, (length (stream w) < fuel)%nat ->
  [] ∉ first :: rest -> List.filter (listed items) (stream w) = rest ->
  exists w', Dir.each_loop fuel path items d (Some (attr_of first)) w = (Ok (attr_of <$> first :: rest), w') /\ files_in w' = files_in w.
Proof.
  induction fuel as [|fuel IH]; intros w first rest Hf Hne Hs; [lia|]. apply not_elem_of_cons in Hne as [H1 Hne]. cbn [Dir.each_loop].
  rewrite attr_not_clear by done. unfold bind at 1, Dir.next. pose proof (entries_law d w) as He.
  destruct (next_loop_run items d (Datatypes.S (entries d w)) w) as (w1 & Hn & Hrun); [unfold stream in *; lia|]. rewrite Hs in Hrun.
  destruct rest as [|n rest].
  - rewrite Hrun. exists w1. split; [|done]. by destruct fuel.
  - destruct Hrun as (-> & Hrest & Hlt). destruct (IH w1 n rest) as (w2 & E & Hn2); [lia|done|done|]. exists w2. unfold bind. rewrite E.
    split; [done|congruence].
Qed.

Lemma each_run pat items w : regex pat = Some items ->
  exists w', Dir.each path pat w = (Ok (attr_of <$> List.filter (listed items) (files_in w)), w') /\ files_in w' = files_in w.
Proof.
  intros Hpat. unfold Dir.each. rewrite Hpat. unfold bind at 1, Fs.fs_call. destruct (opendir_law (path:=path) w) as (d & w1 & -> & Hn1 & Hs1).
  unfold bind, Dir.next. pose proof (entries_law d w1) as He. destruct (next_loop_run items d (Datatypes.S (entries d w1)) w1) as (w2 & Hn2 & Hrun); [lia|].
  rewrite Hs1 in Hrun. destruct (List.filter (listed items) (files_in w)) as [|n rest] eqn:El.
  - rewrite Hrun. exists (sys_closedir d w2). split; [by destruct (entries d w2)|]. rewrite closedir_law. congruence.
  - destruct Hrun as (-> & Hrest & Hlt). destruct (each_loop_run items d (Datatypes.S (entries d w2)) w2 n rest) as (w3 & E & Hn3).
    + pose proof (entries_law d w2). lia.
    + intros Hin. rewrite <- El in Hin. apply list_elem_of_In, filter_In in Hin as [Hin _]. apply (names_law (path:=path) w). by apply list_elem_of_In.
    + done.
    + rewrite E. exists (sys_closedir d w3). split; [done|]. rewrite closedir_law. congruence.
Qed.
(** Removing. *)
Lemma remove_log_run n w : n ∈ files_in w ->
  exists w', remove_log path n w = (Ok tt, w') /\ files_in w' = filter (fun m => m <> n) (files_in w).
Proof.
  intros Hn. destruct (unlink_law n w Hn) as (w' & E & Hf). exists w'. split; [|done].
  unfold remove_log, Fs.remove_file, bind. destruct (path ++ [pathsep] ++ n) as [|c p] eqn:Ep; [by destruct path|].
  unfold Fs.fs_call. by rewrite E.
Qed.

Lemma filter_outside_nil (l : list bytes) : filter (fun m => m ∉ []) l = l.
Proof. induction l as [|x l IH]; [done|]. rewrite filter_cons_True by apply not_elem_of_nil. by rewrite IH. Qed.

Lemma remove_after_run : forall ns k w, 0 <= k -> NoDup ns -> ns ⊆ files_in w ->
  exists w', remove_after k path (attr_of <$> ns) w = (Ok tt, w') /\
    files_in w' = filter (fun m => m ∉ drop (Z.to_nat k) ns) (files_in w).
Proof.
  induction ns as [|n ns IH]; intros k w Hk Hnd Hin.
  { exists w. split; [done|]. rewrite drop_nil. symmetry. apply filter_outside_nil. }
  apply NoDup_cons in Hnd as [Hn Hnd]. cbn [fmap list_fmap remove_after]. destruct (Z.eqb_spec k 0) as [->|Hk0].
  - destruct (remove_log_run n w) as (w1 & E1 & Hf1); [apply Hin; left|].
    destruct (IH 0 w1) as (w2 & E2 & Hf2); [lia|done| |].
    { intros m Hm. rewrite Hf1. apply list_elem_of_filter. split; [by intros ->|]. apply Hin. by right. }
    exists w2. unfold bind. cbn [f_name attr_of Fattr.set_name]. rewrite E1, E2. split; [done|]. rewrite Hf2, Hf1, list_filter_filter.
    apply list_filter_iff. intros m. change (drop (Z.to_nat 0) (n :: ns)) with (n :: ns). rewrite not_elem_of_cons. cbn. tauto.
  - destruct (IH (k - 1) w) as (w2 & E2 & Hf2); [lia|done|intros m Hm; apply Hin; by right|].
    exists w2. split; [done|]. rewrite Hf2. replace (Z.to_nat k) with (Datatypes.S (Z.to_nat (k - 1))) by lia. done.
Qed.

Definition newer_first (sort : list file_attr -> list file_attr) : Prop :=
  forall l, sort l ≡ₚ l /\ StronglySorted (fun a b => f_mtime b <= f_mtime a) (sort l).

(** C22. A purge that keeps the last [n] files removes the other files that the
    pattern matches, and nothing else; no file that it removes is newer than one
    that it keeps. *)
Theorem purge_keeps_newest epoch sort t items w : newer_first sort -> NoDup (files_in w) ->
  t_scheme t = last_n_files -> 0 <= t_argument t -> t_path t = path -> regex (t_pattern t) = Some items ->
  exists kept removed w', purge epoch sort t w = (Ok tt, w') /\
    kept ++ removed ≡ₚ List.filter (listed items) (files_in w) /\ length kept = Nat.min (Z.to_nat (t_argument t)) (length (kept ++ removed)) /\
    (forall a b, a ∈ kept -> b ∈ removed -> st_mtime (dir_stat (path:=path) b) <= st_mtime (dir_stat (path:=path) a)) /\
    files_in w' = filter (fun n => n ∉ removed) (files_in w).
Proof.
  intros Hsort Hnd Hs Hn Hp Hr. destruct (each_run (t_pattern t) items w Hr) as (w1 & E1 & Hf1).
  set (l := List.filter (listed items) (files_in w)) in *. destruct (Hsort (attr_of <$> l)) as [Hperm Hord].
  destruct (Permutation_map_inv _ _ Hperm) as (ns & Ens & Hns). change (map attr_of ns) with (attr_of <$> ns) in Ens.
  assert (NoDup l) as Hndl by (apply NoDup_ListNoDup, List.NoDup_filter, NoDup_ListNoDup, Hnd).
  destruct (remove_after_run ns (t_argument t) w1) as (w2 & E2 & Hf2); [done|by rewrite <- Hns| |].
  { intros m Hm. rewrite Hf1. rewrite <- Hns in Hm. apply list_elem_of_In, filter_In in Hm as [Hm _]. by apply list_elem_of_In. }
  exists (take (Z.to_nat (t_argument t)) ns), (drop (Z.to_nat (t_argument t)) ns), w2. rewrite take_drop. split_and!.
  - unfold purge, bind. rewrite Hp, E1. cbv beta zeta iota. unfold retain_by_file_count. rewrite Ens, Hs. exact E2.
  - by symmetry.
  - by rewrite length_take.
  - intros a b Ha Hb. rewrite Ens in Hord. rewrite <- (take_drop (Z.to_nat (t_argument t)) ns), fmap_app in Hord.
    apply (StronglySorted_app_1_elem_of _ _ _ (attr_of a) (attr_of b) Hord); by apply list_elem_of_fmap_2.
  - by rewrite Hf2, Hf1.
Qed.
End purge.

(** ** A directory for examples

    One directory, logs, of files with their sizes and times in order of the
    time, and what is written to the console. *)
Record demo_world := { d_files : list (bytes * (Z * Z)); d_stream : list bytes; d_locked : list bytes }.
Definition demo_stat (size mtime : Z) : stat_buf :=
  {| st_mode := 33152; st_ctime := mtime; st_atime := mtime; st_mtime := mtime; st_size := size; st_blksize := 4096; st_blocks := 8;
     st_ino := 7; st_nlink := 1; st_dev := 1; st_rdev := 0; st_uid := 0; st_gid := 0 |}.
(** The name behind the last separator. *)
Definition last_part (p : bytes) : bytes := Fs.after_last_sep p p.
Definition demo_find (n : bytes) (w : demo_world) : option (Z * Z) := snd <$> List.find (fun f => bool_decide (f.1 = n)) (d_files w).
Definition demo_without (n : bytes) (w : demo_world) : demo_world :=
  {| d_files := List.filter (fun f => negb (bool_decide (f.1 = n))) (d_files w); d_stream := d_stream w; d_locked := d_locked w |}.
Definition EACCES : Z := 13.

#[export] Instance demo_fs : FsCalls demo_world := {|
  sys_access p w := (inl tt, w);
  sys_stat p w := (match demo_find (last_part p) w with Some (s, t) => inl (demo_stat s t) | None => inr ENOENT end, w);
  sys_lstat p w := (match demo_find (last_part p) w with Some (s, t) => inl (demo_stat s t) | None => inr ENOENT end, w);
  sys_mkdir _ _ w := (inl tt, w);
  sys_rename _ _ w := (inl tt, w);
  sys_unlink p w := if bool_decide (last_part p ∈ d_locked w) then (inr EACCES, w) else (inl tt, demo_without (last_part p) w);
  sys_rmdir _ w := (inr EACCES, w);
  sys_opendir _ w := (inl 3, {| d_files := d_files w; d_stream := (d_files w).*1; d_locked := d_locked w |});
  sys_readdir _ w :=
    match d_stream w with
    | [] => (inl None, w)
    | n :: l => (inl (Some n), {| d_files := d_files w; d_stream := l; d_locked := d_locked w |})
    end;
  sys_closedir _ w := w;
  sys_pw_dir _ := None;
  entries _ w := length (d_stream w) |}.

(** Files are opened and written without an error; a new one is the newest. *)
Definition demo_calls : syscalls demo_world := {|
  sys_umask _ w := (0, w);
  File.sys_open p _ _ w :=
    (5, match demo_find (last_part p) w with
        | Some _ => w
        | None => {| d_files := d_files w ++ [(last_part p, (0, 1000 + Z.of_nat (length (d_files w))))]; d_stream := d_stream w; d_locked := d_locked w |}
        end);
  sys_read _ _ w := (0, [], w);
  sys_write _ b w := (zlen b, w);
  sys_lseek _ _ _ w := (0, w);
  sys_fsync _ w := (0, w);
  sys_fstat _ w := (0, 0, w);
  sys_ftruncate _ _ w := (0, w);
  sys_fcntl _ _ _ _ _ w := (0, w);
  File.sys_close _ w := (0, w);
  sys_errno _ := 0;
  File.EINTR := 4; File.EACCES := 13; File.EAGAIN := 11 |}.

(** Insertion sort. *)
Fixpoint insert_newer (x : file_attr) (l : list file_attr) : list file_attr :=
  match l with [] => [x] | y :: l' => if f_mtime y <=? f_mtime x then x :: l else y :: insert_newer x l' end.
Definition demo_sort (l : list file_attr) : list file_attr := foldr insert_newer [] l.

Definition demo_logger (r : option rotation) (t : option retention) : file_logger :=
  {| l_sev := info; l_fmt := bytes_of "%m"; l_path := bytes_of "logs"; l_make_path := false; l_sync := false; l_name_fmt := default_name_format;
     l_name := []; l_size := 0; l_seqno := 0; l_last_day := 0; l_rotation := r; l_retention := t; l_file := None |}.
Definition demo_dir (locked : list bytes) : demo_world :=
  {| d_files := [(bytes_of "20180727_000000.log", (120, 100)); (bytes_of "notes.txt", (5, 101)); (bytes_of "20180727_000001.log", (120, 102))];
     d_stream := []; d_locked := locked |}.
Definition demo_by_size : rotation := {| r_scheme := scheme_by_size; r_size := 100 |}.

(** A directory of which only the names matter: the last character of a name is
    its time. *)
Record name_world := { n_names : list bytes; n_stream : list bytes }.
Definition with_stream (l : list bytes) (w : name_world) : name_world := {| n_names := n_names w; n_stream := l |}.
Definition name_stat (n : bytes) : stat_buf := demo_stat 0 (default 0 (last n)).
Definition no_empty (l : list bytes) : list bytes := filter (fun n => n <> []) l.
#[export] Instance name_fs : FsCalls name_world := {|
  sys_access _ w := (inl tt, w);
  sys_stat p w := (inl (name_stat (drop 5 p)), w);
  sys_lstat p w := (inl (name_stat (drop 5 p)), w);
  sys_mkdir _ _ w := (inl tt, w);
  sys_rename _ _ w := (inl tt, w);
  sys_unlink p w := (inl tt, {| n_names := filter (fun m => m <> drop 5 p) (n_names w); n_stream := n_stream w |});
  sys_rmdir _ w := (inr EACCES, w);
  sys_opendir _ w := (inl 3, with_stream (no_empty (n_names w)) w);
  sys_readdir _ w := match n_stream w with [] => (inl None, w) | n :: l => (inl (Some n), with_stream l w) end;
  sys_closedir _ w := w;
  sys_pw_dir _ := None;
  entries _ w := length (n_stream w) |}.

#[export] Instance name_dir : LogDir name_world (bytes_of "logs").
Proof.
  refine {| dir_names w := no_empty (n_names w); dir_stat := name_stat; dir_stream := n_stream |}.
  - intros w [H _]%list_elem_of_filter. done.
  - intros w. do 2 eexists. split; [reflexivity|]. done.
  - intros d w. cbn. destruct (n_stream w) as [|n l]; eexists; by split.
  - done.
  - done.
  - done.
  - intros n w Hn. eexists. split; [reflexivity|]. cbn [n_names no_empty]. unfold no_empty. rewrite !list_filter_filter.
    change (drop 5 (bytes_of "logs" ++ [pathsep] ++ n)) with n. apply list_filter_iff. intros m. tauto.
Defined.

Lemma demo_sort_newer : newer_first demo_sort.
Proof.
  assert (forall x l, insert_newer x l ≡ₚ x :: l) as Hi.
  { intros x l. induction l as [|y l IH]; [done|]. cbn. destruct (f_mtime y <=? f_mtime x); [done|]. by rewrite IH, Permutation_swap. }
  assert (forall x l, StronglySorted (fun a b => f_mtime b <= f_mtime a) l -> StronglySorted (fun a b => f_mtime b <= f_mtime a) (insert_newer x l)) as Hs.
  { intros x l. induction 1 as [|y l Hl IH Hy]; [repeat constructor|]. cbn. destruct (Z.leb_spec (f_mtime y) (f_mtime x)).
    - constructor; [by constructor|]. constructor; [done|]. eapply Forall_impl; [exact Hy|]. cbn. lia.
    - constructor; [done|]. rewrite Hi. constructor; [lia|done]. }
  intros l. unfold demo_sort. induction l as [|x l [IHp IHs]]; [by repeat constructor|]. cbn. split; [by rewrite Hi, IHp|by apply Hs].
Qed.

Definition demo_retention (pattern : string) : retention :=
  {| t_scheme := last_n_files; t_argument := 2; t_path := bytes_of "logs"; t_pattern := bytes_of pattern |}.
Lemma purge_keeps_newest_witness :
  let w := {| n_names := bytes_of <$> ["log1"; "log7"; "other"; "log3"; "log5"]%string; n_stream := [] |} in
  purge (fun _ => 0) demo_sort (demo_retention "log.") w =
    (Ok tt, {| n_names := bytes_of <$> ["log7"; "other"; "log5"]%string; n_stream := [] |}) /\
  exists kept removed w', purge (fun _ => 0) demo_sort (demo_retention "log.") w = (Ok tt, w') /\
    kept ++ removed ≡ₚ List.filter (listed [is_char 108; is_char 111; is_char 103; is_any]) (dir_names (path:=bytes_of "logs") w) /\
    length kept = Nat.min (Z.to_nat 2) (length (kept ++ removed)) /\
    (forall a b, a ∈ kept -> b ∈ removed -> st_mtime (dir_stat (path:=bytes_of "logs") b) <= st_mtime (dir_stat (path:=bytes_of "logs") a)) /\
    dir_names (path:=bytes_of "logs") w' = filter (fun n => n ∉ removed) (dir_names (path:=bytes_of "logs") w).
Proof.
  cbv zeta. split; [vm_compute; reflexivity|].
  apply (purge_keeps_newest (path:=bytes_of "logs") (fun _ => 0) demo_sort (demo_retention "log.")); [exact demo_sort_newer| |reflexivity|discriminate|reflexivity|reflexivity].
  apply (bool_decide_unpack _). vm_compute. exact I.
Defined.

(** The first line of a logger that finds a full file goes to the next one. *)
Definition demo_line : record := LogRec.append (bytes_of "started") (init None None None 1 0 error
  {| m_tm := {| tm_year := 118; tm_mon := 6; tm_mday := 27; tm_hour := 15; tm_min := 5; tm_sec := 2; tm_wday := 5 |};
     m_msec := 876; m_epoch := 1532703902; m_utc := false; m_recalc := false |} 1 1).
Definition demo_log := Flogger.log demo_calls (fun _ => 0) demo_sort (fun _ => []).
Example log_starts_next : exists l w, demo_log demo_line (demo_logger (Some demo_by_size) None, demo_dir []) = (Ok tt, (l, w)) /\
  l_name l = bytes_of "20180727_000002.log" /\ l_seqno l = 2 /\ l_size l = 8 /\ (d_files w).*1 = (d_files (demo_dir [])).*1 ++ [bytes_of "20180727_000002.log"].
Proof. do 2 eexists. split; [vm_compute; reflexivity|]. vm_compute. done. Qed.

(** A file that cannot be removed: [remove_file] reads through a null pointer. *)
Example purge_null_pointer : (demo_log demo_line (demo_logger (Some demo_by_size) (Some (retention_init last_n_files 1)),
    demo_dir [bytes_of "20180727_000000.log"])).1 = Ub.
Proof. vm_compute. reflexivity. Qed.

Definition open_logger (size : Z) : file_logger :=
  with_file (Some {| fname := bytes_of "logs/20180727_000001.log"; fmask := 18; fd := 5 |})
    (with_size size (with_last_day 27 (demo_logger (Some demo_by_size) None))).
Lemma log_size_bounded_witness :
  exists l w, demo_log demo_line (open_logger 120, demo_dir []) = (Ok tt, (l, w)) /\ l_size l <= 100 + 8.
Proof.
  eexists (fst (snd (demo_log demo_line (open_logger 120, demo_dir [])))), (snd (snd (demo_log demo_line (open_logger 120, demo_dir [])))).
  split; [vm_compute; reflexivity|].
  refine (log_size_bounded demo_calls (fun _ => 0) demo_sort (fun _ => []) demo_line (open_logger 120) (demo_dir []) (Ok tt) _ _ demo_by_size (bytes_of "started")
    _ eq_refl eq_refl _ eq_refl eq_refl _); [by eexists|discriminate|]. vm_compute. reflexivity.
Defined.

(** The directory has the files 000000 and 000001 of the day; the second is newer
    and full. *)
Lemma restart_goes_on_witness :
  let l := demo_logger (Some demo_by_size) None in
  let st := open demo_calls (fun _ => 0) demo_sort (m_timestamp demo_line) (l, demo_dir []) in
  regex_match (items_of false (name_format l)) (bytes_of "20180727_000001.log") = true /\
  l_name st.2.1 = bytes_of "20180727_000002.log" /\ l_seqno st.2.1 = 2.
Proof.
  cbv zeta. set (l := demo_logger (Some demo_by_size) None).
  set (fa := Fattr.set_name (bytes_of "20180727_000001.log") (Fattr.of_stat (demo_stat 120 102))).
  destruct (open demo_calls (fun _ => 0) demo_sort (m_timestamp demo_line) (l, demo_dir [])) as [r [l' w']] eqn:E.
  destruct (restart_goes_on demo_calls (fun _ => 0) demo_sort l (m_timestamp demo_line) (m_timestamp demo_line) 1 (demo_dir [])
    [Fattr.set_name (bytes_of "20180727_000000.log") (Fattr.of_stat (demo_stat 120 100)); fa] fa
    (Dir.each (bytes_of "logs") (regex_pattern (name_format l)) (demo_dir [])).2 r l' w') as (H1 & _ & H2).
  - reflexivity.
  - reflexivity.
  - reflexivity.
  - split_and!; vm_compute; congruence.
  - vm_compute. split; congruence.
  - vm_compute. reflexivity.
  - eexists [_], []. split; [reflexivity|]. split; [repeat constructor|constructor].
  - vm_compute. congruence.
  - reflexivity.
  - exact E.
  - split; [exact H1|]. exact H2.
Defined.
