(* ===== verification/LogMgr.v ===== *)
(** * liblog: the manager of loggers (liblog/include/logmgr.h, liblog/src/logmgr.cpp)

    The loggers by number, the default logger on the console, and the loading of
    loggers from a JSON file.  The lock of the manager is not modelled: its
    methods run one after the other.  What [vsnprintf] makes of the arguments is
    a parameter. *)
From S2P Require Import Prelude Effects Numbers UriText Text Timeutil File Config Addr FileSys LogRec Flogger.
From S2P Require JsonStream JsonValue JsonParser.

Import JsonValue.Json.

Inductive logger := console (l : console_logger) | log_file (l : file_logger).
Record manager := { m_next_id : Z; m_def_logger : option console_logger; m_loggers : list (Z * logger) }.
Definition manager_init : manager := {| m_next_id := 0; m_def_logger := None; m_loggers := [] |}.
Definition BUFLEN : Z := 8191.

(** [add_logger]: the numbers grow, so the logger is the last of the map. *)
Definition add_logger (l : logger) (m : manager) : res cpp_exn (Z * manager) :=
  let id := m_next_id m in
  if decide (id + 1 < 2 ^ 31) then
    Ok (id, {| m_next_id := id + 1; m_def_logger := m_def_logger m;
               m_loggers := if bool_decide (id ∈ (m_loggers m).*1) then m_loggers m else m_loggers m ++ [(id, l)] |})
  else Ub.

(** [remove_logger] *)
Definition remove_logger (id : Z) (m : manager) : manager :=
  {| m_next_id := m_next_id m; m_def_logger := m_def_logger m; m_loggers := List.filter (fun kv => negb (kv.1 =? id)) (m_loggers m) |}.

(** ** Loading *)
Definition get_text (o : object) (key dflt : string) : res cpp_exn bytes :=
  of_json (object_get_string (bytes_of key) (bytes_of dflt) o).
Definition get_severity (o : object) : res cpp_exn severity :=
  let? s := get_text o "severity" "all" in Ok (string_to_severity (Some (Config.c_str s))).
Definition get_destination (o : object) : res cpp_exn destination :=
  let? s := get_text o "destination" "var" in
  Ok (if bool_decide (s = bytes_of "stdout") then out else if bool_decide (s = bytes_of "stderr") then err else var).

(** The object under a key, if it is one. *)
Definition member_object (key : string) (o : object) : res cpp_exn (option object) :=
  let? there := of_json (object_contains (bytes_of key) o) in
  if there then
    let? v := of_json (object_get (bytes_of key) o) in
    if is_object v then let? o := of_json (get_object v) in Ok (Some o) else Ok None
  else Ok None.

Definition get_rotation (obj : object) : res cpp_exn (option rotation) :=
  let? m := member_object "rotation" obj in
  match m with
  | None => Ok None
  | Some o =>
      let? s := get_text o "scheme" "none" in
      let? size := of_json (object_get_integer (bytes_of "size") rotation_default_size o) in
      Ok (Some {| r_scheme := rotation_scheme_of s; r_size := size |})
  end.
Definition get_retention (obj : object) : res cpp_exn (option retention) :=
  let? m := member_object "retention" obj in
  match m with
  | None => Ok None
  | Some o =>
      let? s := get_text o "scheme" "all" in
      let? argument := of_json (object_get_integer (bytes_of "argument") retention_default_argument o) in
      if decide (- 2 ^ 31 <= argument < 2 ^ 31) then Ok (Some (retention_init (retention_scheme_of s) argument)) else Throw runtime_error
  end.

(** [load(obj)]: [None] for a null pointer. *)
Definition load_console (obj : object) : res cpp_exn console_logger :=
  let? sev := get_severity obj in
  let? fmt := of_json (object_get_string (bytes_of "format") console_default_format obj) in
  let? dest := get_destination obj in
  Ok {| cl_sev := sev; cl_fmt := fmt; cl_dest := dest |}.
Definition load_file (obj : object) : res cpp_exn file_logger :=
  let? sev := get_severity obj in
  let? fmt := of_json (object_get_string (bytes_of "format") file_default_format obj) in
  let? path := get_text obj "path" "." in
  let? make_path := of_json (object_get_boolean (bytes_of "make_path") false obj) in
  let? sync := of_json (object_get_boolean (bytes_of "sync") false obj) in
  let? name_fmt := of_json (object_get_string (bytes_of "name_format") default_name_format obj) in
  let? rot := get_rotation obj in
  let? ret := get_retention obj in
  Ok {| l_sev := sev; l_fmt := fmt; l_path := path; l_make_path := make_path; l_sync := sync; l_name_fmt := name_fmt; l_name := [];
        l_size := 0; l_seqno := 0; l_last_day := 0; l_rotation := rot; l_retention := ret; l_file := None |}.
Definition load_logger (obj : object) : res cpp_exn (option logger) :=
  let? there := of_json (object_contains (bytes_of "type") obj) in
  if negb there then Ok None
  else
    let? vtype := of_json (object_get (bytes_of "type") obj) in
    if negb (is_string vtype) then Ok None
    else
      let? type := of_json (get_string vtype) in
      if bool_decide (type = bytes_of "console") then let? l := load_console obj in Ok (Some (console l))
      else if bool_decide (type = bytes_of "file") then let? l := load_file obj in Ok (Some (log_file l))
      else Ok None.

(** [load(logconf, module)] of a file with these bytes; loggers that are added
    stay when a later one throws. *)
Fixpoint load_array (arr : list value) : M cpp_exn manager unit :=
  match arr with
  | [] => ret tt
  | v :: arr =>
      (if is_object v then
         let! l := lift (let? o := of_json (get_object v) in load_logger o) in
         match l with
         | Some l => fun m => match add_logger l m with Ok (_, m) => (Ok tt, m) | Throw e => (Throw e, m) | Ub => (Ub, m) | Diverge => (Diverge, m) end
         | None => ret tt
         end
       else ret tt) ;;
      load_array arr
  end.
Definition load (logconf module : bytes) : M cpp_exn manager unit :=
  let! vobj := lift (of_json (JsonParser.Parser.from_string logconf)) in
  if negb (is_object vobj) then ret tt
  else
    let! obj := lift (of_json (get_object vobj)) in
    let! there := lift (of_json (object_contains module obj)) in
    if negb there then ret tt
    else
      let! varr := lift (of_json (object_get module obj)) in
      if negb (is_array varr) then ret tt
      else let! arr := lift (of_json (get_array varr)) in load_array arr.

(** ** Logging *)
Section world.
Context {W : Type} `{!FsCalls W} (sys : syscalls W) (epoch : W -> Z) (sort : list file_attr -> list file_attr) (syserr : Z -> bytes).
(** [std::cout] and [std::cerr] *)
Context (print : bool -> bytes -> W -> W).

Definition console_out (rec : record) (l : console_logger) : M cpp_exn W unit :=
  let! o := lift (console_log syserr rec l) in
  match o with Some (to_err, line) => modify (print to_err line) | None => ret tt end.

(** One logger, which may change. *)
Definition log_one (rec : record) : M cpp_exn (logger * W) unit := fun '(l, w) =>
  match l with
  | console c => let '(r, w) := console_out rec c w in (r, (l, w))
  | log_file f => let '(r, (f, w)) := Flogger.log sys epoch sort syserr rec (f, w) in (r, (log_file f, w))
  end.
Fixpoint log_each (rec : record) (ls : list (Z * logger)) (w : W) : res cpp_exn unit * (list (Z * logger) * W) :=
  match ls with
  | [] => (Ok tt, ([], w))
  | (id, l) :: ls =>
      match log_one rec (l, w) with
      | (Ok _, (l, w)) => let '(r, (ls, w)) := log_each rec ls w in (r, ((id, l) :: ls, w))
      | (r, (l, w)) => (r, ((id, l) :: ls, w))
      end
  end.

(** [log(rec)]: the default logger is made when it is needed and deleted when it
    is not. *)
Definition log (rec : record) : M cpp_exn (manager * W) unit := fun '(m, w) =>
  match log_each rec (m_loggers m) w with
  | (Ok _, (ls, w)) =>
      match ls with
      | [] =>
          let c := default console_default (m_def_logger m) in
          let '(r, w) := console_out rec c w in
          (r, ({| m_next_id := m_next_id m; m_def_logger := Some c; m_loggers := ls |}, w))
      | _ => (Ok tt, ({| m_next_id := m_next_id m; m_def_logger := None; m_loggers := ls |}, w))
      end
  | (r, (ls, w)) => (r, ({| m_next_id := m_next_id m; m_def_logger := m_def_logger m; m_loggers := ls |}, w))
  end.

(** [log(sev, cls, file, fcn, line, error, fmt, ...)]: [vsnprintf] writes at most
    [BUFLEN - 1] characters, returns the length of the whole text, and [buf] has
    [BUFLEN + 1] bytes. *)
Definition log_printf (vsnprintf : bytes -> option bytes) (fmt : option bytes) (rec : record) : M cpp_exn (manager * W) unit :=
  match fmt with
  | Some ((_ :: _) as fmt) =>
      match vsnprintf fmt with
      | None => lift Ub
      | Some text =>
          if BUFLEN <? zlen text then lift Ub
          else log (append (Config.c_str (take (Z.to_nat (BUFLEN - 1)) text)) rec)
      end
  | _ => log rec
  end.

(** [reset()] *)
Fixpoint reset_each (ls : list (Z * logger)) (w : W) : list (Z * logger) * W :=
  match ls with
  | [] => ([], w)
  | (id, l) :: ls =>
      let '(l, w) := match l with
        | console c => (l, w)
        | log_file f => let '(_, (f, w)) := Flogger.reset sys (f, w) in (log_file f, w) end in
      let '(ls, w) := reset_each ls w in ((id, l) :: ls, w)
  end.
Definition reset (st : manager * W) : manager * W :=
  let '(m, w) := st in
  let '(ls, w) := reset_each (m_loggers m) w in ({| m_next_id := m_next_id m; m_def_logger := m_def_logger m; m_loggers := ls |}, w).
End world.

(** ** Facts (liblog: the manager of loggers) *)

Import DateTime.

Section manager.
Context {W : Type} `{!FsCalls W} (sys : syscalls W) (epoch : W -> Z) (sort : list file_attr -> list file_attr) (syserr : Z -> bytes).
Context (print : bool -> bytes -> W -> W).

(** The numbers of the loggers are all different and below the next one. *)
Definition manager_ok (m : manager) : Prop := NoDup (m_loggers m).*1 /\ Forall (fun id => 0 <= id < m_next_id m) (m_loggers m).*1 /\ 0 <= m_next_id m.

Lemma log_each_ids rec ls : forall w r ls' w', log_each sys epoch sort syserr print rec ls w = (r, (ls', w')) -> ls'.*1 = ls.*1.
Proof.
  induction ls as [|[id l] ls IH]; intros w r ls' w'; cbn [log_each]; [by intros [= <- <- <-]|].
  destruct (log_one sys epoch sort syserr print rec (l, w)) as [r1 [l1 w1]]. destruct r1 as [[]| | |]; try (by intros [= <- <- <-]).
  destruct (log_each sys epoch sort syserr print rec ls w1) as [r2 [ls2 w2]] eqn:E. intros [= <- <- <-]. cbn. by rewrite (IH _ _ _ _ E).
Qed.

(** The numbers that [add_logger] gives are never given twice, removing and
    logging keep them apart, and the logger that is added is found under its
    number. *)
Theorem manager_numbers m : manager_ok m ->
  (forall l id m', add_logger l m = Ok (id, m') -> manager_ok m' /\ (id ∉ (m_loggers m).*1) /\ (id, l) ∈ m_loggers m' /\ ((m_loggers m).*1 ⊆ (m_loggers m').*1)) /\
  (forall id, manager_ok (remove_logger id m) /\ (id ∉ (m_loggers (remove_logger id m)).*1) /\
     forall kv, kv ∈ m_loggers m -> kv.1 <> id -> kv ∈ m_loggers (remove_logger id m)) /\
  (forall rec w r m' w', log sys epoch sort syserr print rec (m, w) = (r, (m', w')) -> manager_ok m' /\ ((m_loggers m').*1 = (m_loggers m).*1)).
Proof.
  intros (Hnd & Hlt & Hpos). split; [|split].
  - intros l id m' Ha. unfold add_logger in Ha. case_decide; [|done]. injection Ha as <- <-.
    assert (m_next_id m ∉ (m_loggers m).*1) as Hin. { intros Hin. rewrite Forall_forall in Hlt. specialize (Hlt _ Hin). lia. }
    rewrite bool_decide_false by done. unfold manager_ok. cbn. rewrite fmap_app. cbn. split_and!; [| |lia|done|apply elem_of_app; right; left|set_solver].
    + apply NoDup_app. split; [done|]. split; [|apply NoDup_singleton]. intros x Hx ->%list_elem_of_singleton. done.
    + apply Forall_app. split; [|by repeat constructor; lia]. eapply Forall_impl; [exact Hlt|]. cbn. lia.
  - intros id. unfold remove_logger, manager_ok. cbn [m_loggers m_next_id].
    assert (forall x, x ∈ (List.filter (fun kv : Z * logger => negb (kv.1 =? id)) (m_loggers m)).*1 -> x ∈ (m_loggers m).*1 /\ x <> id) as Hsub.
    { intros x (kv & -> & Hkv)%list_elem_of_fmap. apply list_elem_of_In, filter_In in Hkv as [Hkv Hne]. apply negb_true_iff, Z.eqb_neq in Hne.
      split; [|done]. apply list_elem_of_fmap_2. by apply list_elem_of_In. }
    split_and!.
    + clear -Hnd. induction (m_loggers m) as [|[k l] ls IH]; [constructor|]. cbn in *. apply NoDup_cons in Hnd as [Hk Hnd].
      destruct (Z.eqb_spec k id); cbn; [by apply IH|]. apply NoDup_cons. split; [|by apply IH]. intros (kv & -> & Hkv)%list_elem_of_fmap.
      apply list_elem_of_In, filter_In in Hkv as [Hkv _]. apply Hk. apply list_elem_of_fmap_2. by apply list_elem_of_In.
    + apply Forall_forall. intros x [Hx _]%Hsub. rewrite Forall_forall in Hlt. auto.
    + done.
    + intros [_ Hx]%Hsub. done.
    + intros kv Hkv Hne. apply list_elem_of_In, filter_In. split; [by apply list_elem_of_In|]. by apply negb_true_iff, Z.eqb_neq.
  - intros rec w r m' w'. unfold log. destruct (log_each sys epoch sort syserr print rec (m_loggers m) w) as [r1 [ls w1]] eqn:E.
    pose proof (log_each_ids _ _ _ _ _ _ E) as Hids. intros Hm. assert (m_next_id m' = m_next_id m /\ m_loggers m' = ls) as [H1 H2].
    { destruct r1; [destruct ls|..]; try (by injection Hm as <- <- <-). destruct (console_out syserr print rec _ w1) as [r2 w2]. by injection Hm as <- <- <-. }
    unfold manager_ok. rewrite H1, H2, Hids. done.
Qed.

(** Without loggers a record goes to the console, to the standard error from
    [warning] on. *)
Theorem default_logger rec w m line : m_loggers m = [] -> m_def_logger m = None -> m_severity rec <> all ->
  format syserr console_default_format rec = Ok line ->
  log sys epoch sort syserr print rec (m, w) =
    (Ok tt, ({| m_next_id := m_next_id m; m_def_logger := Some console_default; m_loggers := [] |},
             print (bool_decide (m_severity rec = warning \/ m_severity rec = error)) (line ++ [10]) w)).
Proof.
  intros Hl Hd Hs Hf. unfold log. rewrite Hl, Hd. cbn [log_each default from_option]. unfold console_out, bind, lift, console_log, should_log.
  cbn [cl_sev console_default cl_fmt cl_dest]. rewrite Hf. by destruct (m_severity rec).
Qed.

(** What [vsnprintf] has no room for is written over the end of the buffer. *)
Theorem long_message_overflows vsnprintf fmt text rec st : fmt <> [] -> vsnprintf fmt = Some text -> BUFLEN < zlen text ->
  (log_printf sys epoch sort syserr print vsnprintf (Some fmt) rec st).1 = Ub.
Proof.
  intros Hne Hv Hlen. unfold log_printf. destruct fmt; [done|]. rewrite Hv. by destruct (Z.ltb_spec BUFLEN (zlen text)); [|lia].
Qed.
End manager.

(** ** Instances *)
Definition print_demo (to_err : bool) (line : bytes) (w : demo_world) : demo_world :=
  {| d_files := d_files w; d_stream := d_stream w; d_locked := line :: d_locked w |}.
Definition demo_manager : manager :=
  {| m_next_id := 3; m_def_logger := None; m_loggers := [(0, console console_default); (2, log_file (open_logger 0))] |}.
Lemma manager_numbers_witness : manager_ok demo_manager /\
  (forall l id m', add_logger l demo_manager = Ok (id, m') -> manager_ok m' /\ (id ∉ (m_loggers demo_manager).*1) /\ (id, l) ∈ m_loggers m' /\
     ((m_loggers demo_manager).*1 ⊆ (m_loggers m').*1)).
Proof.
  assert (manager_ok demo_manager) as Hok.
  { split; [|split; [|done]].
    - apply (bool_decide_unpack _). vm_compute. exact I.
    - repeat constructor; vm_compute; congruence. }
  split; [exact Hok|]. exact (proj1 (manager_numbers demo_calls (fun _ => 0) demo_sort (fun _ => []) print_demo demo_manager Hok)).
Defined.

Lemma default_logger_witness :
  log demo_calls (fun _ => 0) demo_sort (fun _ => []) print_demo (demo_record 0 "started") (manager_init, demo_dir []) =
    (Ok tt, ({| m_next_id := 0; m_def_logger := Some console_default; m_loggers := [] |},
             print_demo true (bytes_of "[WRN] [main] started" ++ [10]) (demo_dir []))).
Proof. by apply (default_logger demo_calls (fun _ => 0) demo_sort (fun _ => []) print_demo (demo_record 0 "started")). Defined.

Lemma long_message_overflows_witness :
  (log_printf demo_calls (fun _ => 0) demo_sort (fun _ => []) print_demo (fun _ => Some (replicate 8192 (chr "x"))) (Some (bytes_of "%s"))
     (demo_record 0 "") (manager_init, demo_dir [])).1 = Ub.
Proof.
  apply (long_message_overflows demo_calls (fun _ => 0) demo_sort (fun _ => []) print_demo _ (bytes_of "%s") (replicate 8192 (chr "x")));
    [discriminate|reflexivity|vm_compute; reflexivity].
Defined.

(** The configuration of the README, with quotation marks for apostrophes. *)
Definition quoted (s : string) : bytes := (fun c => if c =? 39 then 34 else c) <$> bytes_of s.
Example load_sample :
  exists m, load (quoted "{ 'scheduler' : [ { 'type' : 'console', 'severity' : 'INFO', 'format' : 'json-pretty', 'destination' : 'stdout' },
    { 'type' : 'file', 'severity' : 'TRACE', 'format' : 'json', 'name_format' : 'scheduler_%D_%N.log', 'path' : '.', 'make_path' : false, 'sync' : true,
      'rotation' : { 'scheme' : 'daily | by_size', 'size' : 500000 }, 'retention' : { 'scheme' : 'last_n_files', 'argument' : 5 } } ] }")
      (bytes_of "scheduler") manager_init = (Ok tt, m) /\
    m_loggers m = [(0, console {| cl_sev := info; cl_fmt := bytes_of "json-pretty"; cl_dest := out |});
      (1, log_file {| l_sev := trace; l_fmt := bytes_of "json"; l_path := bytes_of "."; l_make_path := false; l_sync := true;
            l_name_fmt := bytes_of "scheduler_%D_%N.log"; l_name := []; l_size := 0; l_seqno := 0; l_last_day := 0;
            l_rotation := Some {| r_scheme := 3; r_size := 500000 |}; l_retention := Some (retention_init last_n_files 5); l_file := None |})].
Proof. eexists. split; vm_compute; reflexivity. Qed.
