(* ===== verification/Ssl.v ===== *)
(** * libsslwrapper: secrets, ticket keys and certificate names
    (libsslwrapper/include/safestr.h, keymgr.h, libsslwrapper/src/safestr.cpp,
    keymgr.cpp, the callback of ctx.cpp, [equal] and [matches] of crt.cpp)

    The parts of the wrapper with code of their own.  The random numbers, the
    clock and what OpenSSL reads from a certificate are arguments. *)
From stdpp Require Import sorting.
From S2P Require Import Prelude Effects Numbers Text Addr.
From S2P Require Import Sock Cnxn.

(** ** Secret strings

    [m_data] points to the bytes of the object or to a block of the heap.  The
    state of the heap are its blocks; [freed] lists what was in the blocks when
    they were given back. *)
Inductive data_ptr := no_data | own_bytes | heap_block (b : Z).
Record safestr := { m_bytes : bytes; m_data : data_ptr; m_len : Z }.
Record heap := { blocks : gmap Z bytes; next_block : Z; freed : list bytes }.

Module Safestr.
Abbreviation H := (M cpp_exn heap).
Definition STACK_BYTES : Z := 64.
Definition use_stack_data (s : safestr) : bool := m_len s <=? STACK_BYTES.
Definition zeros (n : Z) : bytes := replicate (Z.to_nat n) 0.

(** [new uint8_t[n]] filled with these bytes. *)
Definition alloc (content : bytes) : H Z := fun h =>
  (Ok (next_block h), {| blocks := <[next_block h := content]> (blocks h); next_block := next_block h + 1; freed := freed h |}).

(** [memcpy(m_bytes, src, len)]; the rest of the array is zero. *)
Definition copy_bytes (src : bytes) (len : Z) : bytes := take (Z.to_nat len) src ++ zeros (STACK_BYTES - len).
Definition read_block (d : data_ptr) : H bytes := fun h =>
  match d with heap_block b => match blocks h !! b with Some c => (Ok c, h) | None => (Ub, h) end | _ => (Ub, h) end.

(** [safestr(len)] *)
Definition init (len : Z) : H safestr :=
  if len <=? STACK_BYTES then ret {| m_bytes := zeros STACK_BYTES; m_data := own_bytes; m_len := len |}
  else let! b := alloc (zeros len) in ret {| m_bytes := zeros STACK_BYTES; m_data := heap_block b; m_len := len |}.

(** [safestr(const safestr &)] and [safestr(safestr &&)]: the new object, and what
    the second leaves. *)
Definition copy (ss : safestr) : H safestr :=
  if use_stack_data ss then ret {| m_bytes := copy_bytes (m_bytes ss) (m_len ss); m_data := own_bytes; m_len := m_len ss |}
  else
    let! c := read_block (m_data ss) in
    let! b := alloc c in
    ret {| m_bytes := zeros STACK_BYTES; m_data := heap_block b; m_len := m_len ss |}.
Definition moved_from (ss : safestr) : safestr := {| m_bytes := zeros STACK_BYTES; m_data := no_data; m_len := m_len ss |}.
Definition move (ss : safestr) : safestr * safestr :=
  (if use_stack_data ss then {| m_bytes := copy_bytes (m_bytes ss) (m_len ss); m_data := own_bytes; m_len := m_len ss |}
   else {| m_bytes := zeros STACK_BYTES; m_data := m_data ss; m_len := m_len ss |}, moved_from ss).

(** [cleanup]: [memset(m_data, 0, m_len)] through a null pointer is undefined. *)
Definition cleanup (s : safestr) : H safestr :=
  if use_stack_data s then ret {| m_bytes := zeros STACK_BYTES; m_data := no_data; m_len := m_len s |}
  else
    match m_data s with
    | heap_block b => fun h =>
        match blocks h !! b with
        | None => (Ub, h)
        | Some c => (Ok {| m_bytes := m_bytes s; m_data := no_data; m_len := m_len s |},
                     {| blocks := delete b (blocks h); next_block := next_block h; freed := zeros (zlen c) :: freed h |})
        end
    | _ => lift Ub
    end.
(** The destructor. *)
Definition destroy (s : safestr) : H safestr := cleanup s.

(** The assignments from another object; the bytes of the array behind the
    length keep what they had. *)
Definition assign_bytes (this : safestr) (src : bytes) (len : Z) : bytes :=
  take (Z.to_nat len) src ++ drop (Z.to_nat len) (m_bytes this).
Definition assign (this ss : safestr) : H safestr :=
  let! this := cleanup this in
  if use_stack_data ss then ret {| m_bytes := assign_bytes this (m_bytes ss) (m_len ss); m_data := own_bytes; m_len := m_len ss |}
  else
    let! c := read_block (m_data ss) in
    let! b := alloc c in
    ret {| m_bytes := m_bytes this; m_data := heap_block b; m_len := m_len ss |}.
Definition assign_move (this ss : safestr) : H (safestr * safestr) :=
  let! this := cleanup this in
  ret (if use_stack_data ss then {| m_bytes := assign_bytes this (m_bytes ss) (m_len ss); m_data := own_bytes; m_len := m_len ss |}
       else {| m_bytes := m_bytes this; m_data := m_data ss; m_len := m_len ss |}, moved_from ss).

(** [length()], and the bytes at [data()]. *)
Definition length (s : safestr) : Z := m_len s.
Definition content (s : safestr) (h : heap) : option bytes :=
  match m_data s with no_data => None | own_bytes => Some (take (Z.to_nat (m_len s)) (m_bytes s)) | heap_block b => blocks h !! b end.
(** What is written there. *)
Definition fill (c : bytes) (s : safestr) : H safestr := fun h =>
  match m_data s with
  | no_data => (Ub, h)
  | own_bytes => (Ok {| m_bytes := c ++ drop (List.length c) (m_bytes s); m_data := own_bytes; m_len := m_len s |}, h)
  | heap_block b => (Ok s, {| blocks := <[b := c]> (blocks h); next_block := next_block h; freed := freed h |})
  end.
End Safestr.

(** ** Ticket keys *)
Definition KEY_SIZE : nat := 16.
Definition AES_SIZE : nat := 32.
Definition HMAC_SIZE : nat := 16.
Record keyrec := { key_name : bytes; aes_key : bytes; hmac_key : bytes; expire : Z }.
Record basic_keymgr := { m_life : Z; m_cur : option keyrec; m_old : option keyrec }.

Module Keymgr.
Definition init (n : Z) : basic_keymgr := {| m_life := n; m_cur := None; m_old := None |}.

(** [static_cast<time_t>(m_life * 0.8)] *)
Definition old_life (life : Z) : Z := Z.quot (4 * life) 5.
Definition with_expire (e : Z) (k : keyrec) : keyrec := {| key_name := key_name k; aes_key := aes_key k; hmac_key := hmac_key k; expire := e |}.

(** [get()] at a time, with what the random number generator gives, if it does:
    an exception leaves the manager without a current key. *)
Definition retire (now : Z) (km : basic_keymgr) : basic_keymgr :=
  match m_cur km with
  | Some cur =>
      if expire cur <? now then {| m_life := m_life km; m_cur := None; m_old := Some (with_expire (now + old_life (m_life km)) cur) |} else km
  | None => km
  end.
Definition new_key (now life : Z) (r : bytes) : keyrec :=
  {| key_name := take KEY_SIZE r; aes_key := take AES_SIZE (drop KEY_SIZE r); hmac_key := take HMAC_SIZE (drop (KEY_SIZE + AES_SIZE) r);
     expire := now + life |}.
Definition get (now : Z) (rand : option bytes) : M cpp_exn basic_keymgr keyrec := fun km =>
  let km := retire now km in
  match m_cur km with
  | Some cur => (Ok cur, km)
  | None =>
      match rand with
      | None => (Throw runtime_error, km)
      | Some r => let k := new_key now (m_life km) r in (Ok k, {| m_life := m_life km; m_cur := Some k; m_old := m_old km |})
      end
  end.

(** [find(name, len)] *)
Definition named (name : bytes) (k : option keyrec) : option keyrec :=
  match k with Some k => if decide (key_name k = name) then Some k else None | None => None end.
Definition find (name : bytes) (km : basic_keymgr) : option keyrec :=
  if decide (List.length name = KEY_SIZE) then
    match named name (m_cur km) with Some k => Some k | None => named name (m_old km) end
  else None.

(** [ssl_session_ticket_key_cb] (ctx.cpp): the return value, and the key that is
    used; the ciphers are set from it. *)
Definition ticket_key_cb (new_session : bool) (name : bytes) (now now' : Z) (rand : option bytes) (iv : bool) :
    M cpp_exn basic_keymgr (Z * option keyrec) :=
  if new_session then
    let! k := get now rand in
    ret (if iv then (1, Some k) else (-1, None))
  else
    let! k := gets (find name) in
    ret (match k with None => (0, None) | Some k => (if expire k <? now' then 2 else 1, Some k) end).
End Keymgr.

(** ** Certificate names *)
Inductive altname_type := DNS | URI | IP.
Record certificate := { cert_common_name : res cpp_exn bytes; cert_alternate_names : res cpp_exn (list (altname_type * bytes)) }.

Module Cert.
(** [equal(name1, name2)]: an expression that begins with a star has nothing to
    repeat, which [std::regex] refuses. *)
Definition equal (name1 name2 : bytes) : res cpp_exn bool :=
  match name2 with
  | [] => Throw out_of_range
  | c :: _ => if c =? chr "*" then Throw regex_error else Ok (streq name1 name2)
  end.

Fixpoint any_altname (servername : bytes) (l : list (altname_type * bytes)) : res cpp_exn bool :=
  match l with
  | [] => Ok false
  | (URI, _) :: l => any_altname servername l
  | (_, n) :: l => let? same := equal servername n in if same then Ok true else any_altname servername l
  end.

(** [matches(servername)] *)
Definition matches (crt : certificate) (servername : bytes) : res cpp_exn bool :=
  let? name := cert_common_name crt in
  let? same := (match name with [] => Ok false | _ => equal servername name end) in
  if same then Ok true else let? l := cert_alternate_names crt in any_altname servername l.
End Cert.

(** ** Facts (libsslwrapper: secrets, ticket keys and certificate names) *)

(** ** Secret strings *)

(** An object whose secret is where [m_data] says. *)
Definition holds (s : safestr) (h : heap) (c : bytes) : Prop :=
  0 <= m_len s /\ zlen c = m_len s /\ zlen (m_bytes s) = Safestr.STACK_BYTES /\
  (forall b, next_block h <= b -> blocks h !! b = None) /\
  if Safestr.use_stack_data s then m_data s = own_bytes /\ take (Z.to_nat (m_len s)) (m_bytes s) = c
  else exists b, m_data s = heap_block b /\ blocks h !! b = Some c /\ m_bytes s = Safestr.zeros Safestr.STACK_BYTES.
Definition all_zero (l : bytes) : Prop := Forall (fun c => c = 0) l.
Definition erased (h : heap) : Prop := Forall all_zero (freed h).

Lemma zeros_zero n : all_zero (Safestr.zeros n).
Proof. by apply Forall_replicate. Qed.
Lemma zlen_zeros n : 0 <= n -> zlen (Safestr.zeros n) = n.
Proof. intros Hn. unfold zlen, Safestr.zeros. rewrite length_replicate. lia. Qed.

Lemma copy_bytes_holds c src len : 0 <= len <= 64 -> zlen src = 64 -> take (Z.to_nat len) src = c ->
  zlen (Safestr.copy_bytes src len) = 64 /\ take (Z.to_nat len) (Safestr.copy_bytes src len) = c.
Proof.
  intros Hl Hs Hc. unfold Safestr.copy_bytes. rewrite zlen_app, zlen_zeros by (unfold Safestr.STACK_BYTES; lia). unfold zlen in *.
  rewrite length_take. split; [unfold Safestr.STACK_BYTES; lia|]. rewrite take_app_le by (rewrite length_take; lia).
  rewrite take_take. rewrite Nat.min_id. done.
Qed.

(** A copy of a secret has the secret in a place of its own: what is written
    into the copy does not change the original. *)
Theorem copy_has_its_own s h c : holds s h c ->
  exists s' h', Safestr.copy s h = (Ok s', h') /\ holds s' h' c /\ holds s h' c /\
    forall d, zlen d = zlen c -> exists s2 h2, Safestr.fill d s' h' = (Ok s2, h2) /\ holds s2 h2 d /\ holds s h2 c.
Proof.
  intros (Hl & Hc & Hb & Hf & Hp). unfold Safestr.copy. destruct (Safestr.use_stack_data s) eqn:Eu.
  - destruct Hp as [Hd Ht]. unfold Safestr.use_stack_data in Eu. apply Z.leb_le in Eu. unfold Safestr.STACK_BYTES in *.
    destruct (copy_bytes_holds c (m_bytes s) (m_len s)) as [Hz Hk]; [lia|done|done|].
    revert Hz Hk. generalize (Safestr.copy_bytes (m_bytes s) (m_len s)). intros cb Hz Hk.
    assert (holds s h c) as Hs.
    { split_and!; try done. unfold Safestr.use_stack_data, Safestr.STACK_BYTES. by rewrite (proj2 (Z.leb_le _ _)) by lia. }
    do 2 eexists. split; [reflexivity|]. split; [|split; [done|]].
    + split_and!; cbn; try done. unfold Safestr.use_stack_data, Safestr.STACK_BYTES. cbn. by rewrite (proj2 (Z.leb_le _ _)) by lia.
    + intros d Hdl. do 2 eexists. split; [reflexivity|]. split; [|done]. cbn [Safestr.fill]. unfold holds, zlen in *.
      split_and!; cbn; [lia|lia|rewrite length_app, length_drop; unfold Safestr.STACK_BYTES; lia|done|].
      unfold Safestr.use_stack_data, Safestr.STACK_BYTES. cbn. rewrite (proj2 (Z.leb_le _ _)) by lia. split; [done|].
      rewrite take_app_le by lia. apply take_ge. lia.
  - destruct Hp as (b & Hd & Hblk & Hz). unfold bind. rewrite Hd. cbn [Safestr.read_block]. rewrite Hblk.
    assert (b <> next_block h) as Hne by (intros ->; by rewrite Hf in Hblk).
    assert (forall x, holds s {| blocks := <[next_block h := x]> (blocks h); next_block := next_block h + 1; freed := freed h |} c) as Hs.
    { intros x. split_and!; try done.
      - cbn. intros b' Hb'. rewrite lookup_insert_ne by lia. apply Hf. lia.
      - rewrite Eu. exists b. cbn. by rewrite lookup_insert_ne. }
    do 2 eexists. split; [reflexivity|]. split; [|split; [by apply Hs|]].
    + split_and!; cbn; try done.
      * intros b' Hb'. rewrite lookup_insert_ne by lia. apply Hf. lia.
      * unfold Safestr.use_stack_data in *. cbn. rewrite Eu. exists (next_block h). by rewrite lookup_insert_eq.
    + intros d Hdl. do 2 eexists. split; [reflexivity|]. cbn. rewrite insert_insert_eq. split; [|by apply Hs]. split_and!; cbn; try done; [lia|..].
      * intros b' Hb'. rewrite lookup_insert_ne by lia. apply Hf. lia.
      * unfold Safestr.use_stack_data in *. cbn. rewrite Eu. exists (next_block h). by rewrite lookup_insert_eq.
Qed.

Definition empty_heap : heap := {| blocks := ∅; next_block := 1; freed := [] |}.
Definition some_secret (n : Z) : safestr := {| m_bytes := replicate 64 7; m_data := own_bytes; m_len := n |}.
Lemma copy_has_its_own_witness : exists s' h', Safestr.copy (some_secret 3) empty_heap = (Ok s', h') /\ holds s' h' [7; 7; 7] /\
  holds (some_secret 3) h' [7; 7; 7] /\
  forall d, zlen d = 3 -> exists s2 h2, Safestr.fill d s' h' = (Ok s2, h2) /\ holds s2 h2 d /\ holds (some_secret 3) h2 [7; 7; 7].
Proof. apply (copy_has_its_own (some_secret 3) empty_heap [7; 7; 7]). split_and!; try done; apply lookup_empty. Defined.

(** The destructor erases the secret before its memory is given back.  After a
    move the new object holds the secret, and the destructor of the old one is
    defined only for a secret of at most 64 bytes: with a longer one it writes
    through a null pointer. *)
Theorem destroy_erases s h c : holds s h c -> erased h ->
  (exists s' h', Safestr.destroy s h = (Ok s', h') /\ erased h' /\ all_zero (m_bytes s') /\
     (forall b, m_data s = heap_block b -> blocks h' !! b = None)) /\
  holds (Safestr.move s).1 h c /\
  ((Safestr.destroy (Safestr.move s).2 h).1 <> Ub <-> m_len s <= 64).
Proof.
  intros (Hl & Hc & Hb & Hf & Hp) He. unfold Safestr.destroy, Safestr.cleanup, Safestr.move. split; [|split].
  - destruct (Safestr.use_stack_data s).
    + do 2 eexists. split; [reflexivity|]. split; [done|]. split; [apply zeros_zero|]. destruct Hp as [-> _]. done.
    + destruct Hp as (b & -> & Hblk & Hz). rewrite Hblk. do 2 eexists. split; [reflexivity|]. split; [|split].
      * constructor; [apply zeros_zero|done].
      * cbn. rewrite Hz. apply zeros_zero.
      * intros b' [= <-]. cbn. apply lookup_delete_eq.
  - cbn [fst]. destruct (Safestr.use_stack_data s) eqn:Eu.
    + destruct Hp as [Hd Ht]. unfold Safestr.use_stack_data in Eu. apply Z.leb_le in Eu. unfold Safestr.STACK_BYTES in *.
      destruct (copy_bytes_holds c (m_bytes s) (m_len s)) as [Hz Hk]; [lia|done|done|].
      split_and!; cbn; try done. unfold Safestr.use_stack_data, Safestr.STACK_BYTES. cbn. by rewrite (proj2 (Z.leb_le _ _)) by lia.
    + destruct Hp as (b & Hd & Hblk & Hz). split_and!; cbn; try done. unfold Safestr.use_stack_data in *. cbn. rewrite Eu. by exists b.
  - cbn [snd]. unfold Safestr.moved_from, Safestr.use_stack_data, Safestr.STACK_BYTES. cbn. destruct (Z.leb_spec (m_len s) 64); cbn; split; done || lia.
Qed.

Definition long_secret : safestr := {| m_bytes := Safestr.zeros 64; m_data := heap_block 0; m_len := 65 |}.
Definition long_heap : heap := {| blocks := {[ 0 := replicate 65 7 ]}; next_block := 1; freed := [] |}.
Lemma destroy_erases_witness :
  (exists s' h', Safestr.destroy long_secret long_heap = (Ok s', h') /\ erased h' /\ all_zero (m_bytes s') /\
     (forall b, m_data long_secret = heap_block b -> blocks h' !! b = None)) /\
  holds (Safestr.move long_secret).1 long_heap (replicate 65 7) /\
  ((Safestr.destroy (Safestr.move long_secret).2 long_heap).1 <> Ub <-> 65 <= 64).
Proof.
  apply (destroy_erases long_secret long_heap (replicate 65 7)); [|constructor]. split_and!; try done.
  - intros b Hb. apply lookup_singleton_ne. cbn in Hb. lia.
  - by exists 0.
Defined.

(** ** Ticket keys *)
Fixpoint later_gets (l : list (Z * option bytes)) (km : basic_keymgr) : basic_keymgr :=
  match l with [] => km | (now, r) :: l => later_gets l (Keymgr.get now r km).2 end.

(** The key, whatever its time. *)
Definition same_key (k k' : keyrec) : Prop := key_name k' = key_name k /\ aes_key k' = aes_key k /\ hmac_key k' = hmac_key k.

(** Until [t] the key can be found; [last] is the time of the last call. *)
Definition in_use (k : keyrec) (t last : Z) (km : basic_keymgr) : Prop :=
  (m_cur km = Some k) \/
  ((exists k', m_old km = Some k' /\ same_key k k') /\
   match m_cur km with Some k2 => key_name k2 <> key_name k /\ t <= expire k2 | None => expire k < last end).

(** A call of [get] before [t]; a key that it makes has another name. *)
Definition other_get (k : keyrec) (t : Z) (g : Z * option bytes) : Prop :=
  g.1 <= t /\ forall bs, g.2 = Some bs -> take KEY_SIZE bs <> key_name k.

Lemma get_in_use k t last now r km : 0 <= m_life km -> t <= expire k + m_life km -> last <= now -> other_get k t (now, r) ->
  in_use k t last km -> in_use k t now (Keymgr.get now r km).2 /\ m_life (Keymgr.get now r km).2 = m_life km.
Proof.
  intros Hlife Ht Hlast [Hnow Hr] Hin. cbn in Hnow, Hr. unfold Keymgr.get, Keymgr.retire. destruct Hin as [Hcur|[(k' & Hold & Hsame) Hcur]].
  - rewrite Hcur. destruct (Z.ltb_spec (expire k) now).
    + cbn. destruct r as [bs|]; (split; [|done]); right; cbn; (split; [by eexists|]); [|done]. split; [by apply Hr|]. cbn. lia.
    + rewrite Hcur. split; [by left|done].
  - destruct (m_cur km) as [k2|] eqn:Ec.
    + destruct Hcur as [Hne Hexp]. destruct (Z.ltb_spec (expire k2) now); [lia|]. rewrite Ec. split; [|done]. right. cbn. rewrite Ec. eauto.
    + rewrite Ec. destruct r as [bs|]; (split; [|done]); right; cbn; (split; [by eexists|]); [|rewrite Ec; lia].
      split; [by apply Hr|]. cbn. lia.
Qed.

Lemma find_in_use k t last km : length (key_name k) = KEY_SIZE -> in_use k t last km ->
  exists k', Keymgr.find (key_name k) km = Some k' /\ same_key k k'.
Proof.
  intros Hlen Hin. unfold Keymgr.find. rewrite decide_True by done. destruct Hin as [->|[(k' & Hold & Hsame) Hcur]].
  - cbn. rewrite decide_True by done. by exists k.
  - rewrite Hold. destruct (m_cur km) as [k2|]; cbn; [rewrite decide_False by naive_solver|]; (rewrite decide_True by apply Hsame; by exists k').
Qed.

Lemma get_current t0 r km k km1 : 0 <= m_life km -> Keymgr.get t0 r km = (Ok k, km1) ->
  m_cur km1 = Some k /\ m_life km1 = m_life km /\ t0 <= expire k.
Proof.
  intros Hlife Hget. unfold Keymgr.get in Hget. destruct (m_cur (Keymgr.retire t0 km)) as [cur|] eqn:E.
  - injection Hget as <- <-. split; [done|]. unfold Keymgr.retire in *. destruct (m_cur km) as [c|] eqn:Ec; [|congruence].
    destruct (Z.ltb_spec (expire c) t0); [done|]. split; [done|]. congruence.
  - destruct r as [bs|]; [|done]. injection Hget as <- <-. split; [done|]. cbn. split.
    + unfold Keymgr.retire. destruct (m_cur km) as [c|]; [|done]. by destruct (expire c <? t0).
    + unfold Keymgr.retire. destruct (m_cur km) as [c|]; [|cbn; lia]. destruct (expire c <? t0); cbn; lia.
Qed.

Lemma get_replaces now bs km k : m_cur km = Some k -> expire k < now ->
  (Keymgr.get now (Some bs) km).2 = {| m_life := m_life km; m_cur := Some (Keymgr.new_key now (m_life km) bs);
    m_old := Some (Keymgr.with_expire (now + Keymgr.old_life (m_life km)) k) |}.
Proof. intros Hc Hn%Z.ltb_lt. unfold Keymgr.get, Keymgr.retire. by rewrite Hc, Hn. Qed.

(** C24. A ticket key that [get] gives is not expired.  For the 80% of the lifetime
    after it expires that the documentation promises, [find] still gives it with
    the same secrets, whatever calls of [get] are made meanwhile, in the order of
    their times, as long as the random names of the keys differ.  It is found no
    more when the key after it has been replaced too. *)
Theorem ticket_key_found km t0 r k km1 : 0 <= m_life km -> Keymgr.get t0 r km = (Ok k, km1) -> length (key_name k) = KEY_SIZE ->
  t0 <= expire k /\
  (forall l t, t <= expire k + Keymgr.old_life (m_life km) -> StronglySorted Z.le (t0 :: l.*1) -> Forall (other_get k t) l ->
     exists k', Keymgr.find (key_name k) (later_gets l km1) = Some k' /\ same_key k k') /\
  (forall t1 bs1 t2 bs2, expire k < t1 -> t1 + m_life km < t2 -> take KEY_SIZE bs1 <> key_name k -> take KEY_SIZE bs2 <> key_name k ->
     Keymgr.find (key_name k) (later_gets [(t1, Some bs1); (t2, Some bs2)] km1) = None).
Proof.
  intros Hlife Hget Hlen. destruct (get_current _ _ _ _ _ Hlife Hget) as (Hcur & Hlife1 & He). split; [done|]. split.
  - intros l t Ht Hsort Hl. assert (Keymgr.old_life (m_life km) <= m_life km) as Hold by (unfold Keymgr.old_life; Z.to_euclidean_division_equations; lia).
    assert (in_use k t t0 km1) as Hin by by left. clear Hget Hcur He. rewrite <- Hlife1 in *. assert (t <= expire k + m_life km1) as Ht1 by lia. clear Ht Hold Hlife1.
    revert t0 km1 Hlife Ht1 Hin Hsort. induction l as [|[now r'] l IH]; intros t0 km1 Hlife Ht Hin Hsort; cbn [later_gets]; [by eapply find_in_use|].
    inversion Hl as [|? ? Hg Hl']; subst. cbn in Hsort. apply StronglySorted_inv in Hsort as [Hsort [Hle _]%Forall_cons].
    destruct (get_in_use k t t0 now r' km1 Hlife Ht Hle Hg Hin) as [Hin' Hl1]. apply (IH Hl' now); [by rewrite Hl1..|done|done].
  - intros t1 bs1 t2 bs2 H1 H2 N1 N2. cbn [later_gets]. rewrite (get_replaces t1 bs1 km1 k) by done. rewrite Hlife1. cbn [snd].
    rewrite (get_replaces t2 bs2 _ (Keymgr.new_key t1 (m_life km) bs1)) by done.
    unfold Keymgr.find. rewrite decide_True by done. cbn. by rewrite !decide_False.
Qed.

(** A key that was made at 0 and is used at 1000; it is replaced at 3700. *)
Definition random_bytes (n : Z) : bytes := replicate 64 n.
Definition first_key : keyrec := Keymgr.new_key 0 3600 (random_bytes 1).
Definition used_keymgr : basic_keymgr := (Keymgr.get 0 (Some (random_bytes 1)) (Keymgr.init 3600)).2.
Definition later_calls : list (Z * option bytes) := [(2000, None); (3700, Some (random_bytes 2)); (4000, None)].
Lemma ticket_key_found_witness :
  1000 <= expire first_key /\
  (exists k', Keymgr.find (key_name first_key) (later_gets later_calls used_keymgr) = Some k' /\ same_key first_key k') /\
  Keymgr.find (key_name first_key) (later_gets [(3700, Some (random_bytes 2)); (7400, Some (random_bytes 3))] used_keymgr) = None.
Proof.
  destruct (ticket_key_found used_keymgr 1000 None first_key used_keymgr) as (H1 & H2 & H3); try reflexivity; [vm_compute; discriminate|].
  split; [exact H1|]. split.
  - apply (H2 later_calls 6480); [vm_compute; discriminate| |].
    + repeat (constructor; [|repeat constructor; discriminate]). constructor.
    + repeat constructor; cbn; try discriminate; intros bs Hbs; try discriminate; injection Hbs as <-; vm_compute; discriminate.
  - apply H3; vm_compute; try reflexivity; discriminate.
Defined.
Example key_was_replaced : m_cur (later_gets later_calls used_keymgr) = Some (Keymgr.new_key 3700 3600 (random_bytes 2)).
Proof. reflexivity. Qed.

(** [find] does not look at the time: long after the time of a replaced key
    (here 6880) the callback takes a ticket with it, and only asks for a new
    ticket. *)
Example old_key_never_expires :
  let km := later_gets [(4000, Some (random_bytes 2))] (Keymgr.get 0 (Some (random_bytes 1)) (Keymgr.init 3600)).2 in
  expire <$> m_old km = Some 6880 /\
  (Keymgr.ticket_key_cb false (replicate 16 1) 0 1000000 None true km).1 = Ok (2, m_old km).
Proof. vm_compute. split; reflexivity. Qed.

(** ** Certificate names *)
Definition plain_name (n : bytes) : Prop := match n with [] => False | c :: _ => c <> chr "*" end.
Lemma equal_plain s n : plain_name n -> Cert.equal s n = Ok (streq s n).
Proof. destruct n as [|c n]; [done|]. cbn. intros Hc. by destruct (Z.eqb_spec c (chr "*")). Qed.

Definition to_check (a : altname_type * bytes) : bool := match a.1 with URI => false | _ => true end.

(** A certificate without wildcards matches a server when the common name or an
    alternate name of a host or an address is the name of the server, whatever
    the case. *)
Theorem certificate_matches servername cn alts : (cn = [] \/ plain_name cn) -> Forall (fun a => to_check a = true -> plain_name a.2) alts ->
  Cert.matches {| cert_common_name := Ok cn; cert_alternate_names := Ok alts |} servername =
    Ok (bool_decide (cn <> [] /\ streq servername cn = true) || existsb (fun a => to_check a && streq servername a.2) alts).
Proof.
  intros Hcn Halts. unfold Cert.matches. cbn [cert_common_name cert_alternate_names rbind].
  assert (Cert.any_altname servername alts = Ok (existsb (fun a => to_check a && streq servername a.2) alts)) as Ha.
  { induction Halts as [|[t n] alts Hn _ IH]; [done|]. cbn. destruct t; [| |]; cbn in *; try (rewrite equal_plain by auto; cbn; destruct (streq servername n); [done|exact IH]). exact IH. }
  destruct cn as [|c cn]; [by rewrite Ha|]. destruct Hcn as [|Hcn]; [done|]. rewrite equal_plain by done. cbn [rbind].
  destruct (streq servername (c :: cn)) eqn:E; [by rewrite bool_decide_true|]. rewrite bool_decide_false by (intros [_ ?]; congruence). by rewrite Ha.
Qed.
Lemma certificate_matches_witness :
  Cert.matches {| cert_common_name := Ok (bytes_of "a.org"); cert_alternate_names := Ok [(URI, bytes_of "b.org"); (DNS, bytes_of "c.org")] |}
    (bytes_of "C.ORG") = Ok true.
Proof.
  apply (certificate_matches (bytes_of "C.ORG") (bytes_of "a.org") [(URI, bytes_of "b.org"); (DNS, bytes_of "c.org")]).
  - right. vm_compute. discriminate.
  - repeat constructor; vm_compute; discriminate.
Defined.

(** A wildcard never matches: its expression is refused, and the exception goes
    through the callback of OpenSSL, which catches another. *)
Theorem wildcard_escapes {K C} `{!SslCalls K C} (c : connection C) (k : K) ctx rest n servername : Cnxn.is_server c = true ->
  SSL_get_servername k = Some servername -> servername <> [] ->
  m_contexts c = (true, ctx) :: rest -> (forall s, cert_matches (K:=K) ctx s =
    Cert.matches {| cert_common_name := Ok (chr "*" :: n); cert_alternate_names := Ok [] |} s) ->
  Cnxn.sni_cb (c, k) = (Throw regex_error, (c, k)).
Proof.
  intros Hs Hn Hne Hc Hm. unfold Cnxn.sni_cb, catch. unfold bind at 1, gets at 1. cbn [fst]. rewrite Hs.
  unfold bind, focus, Tls.get_sni. cbn [negb fst snd]. unfold bind, gets. rewrite Hn. destruct servername as [|x s]; [done|]. cbn [ret].
  unfold Cnxn.switch_context. rewrite Hc. cbn [Cnxn.find_context]. rewrite Hm. done.
Qed.

(** A connection whose certificate is for a wildcard. *)
#[export] Instance wildcard_ssl : SslCalls unit certificate := {|
  SSL_set_fd _ k := (1, k); SSL_get_fd _ := 7; SSL_connect k := (1, k); SSL_accept k := (1, k);
  SSL_read _ k := (inr 0, k); SSL_write _ k := (0, k); SSL_get_error _ _ := SSL_ERROR_ZERO_RETURN;
  SSL_shutdown k := (1, k); SSL_clear k := (1, k); SSL_set_SSL_CTX _ k := (true, k);
  SSL_get_servername _ := Some (bytes_of "www.a.org"); ERR_peek_error _ := 0; ssl_errno _ := 0;
  cert_matches := Cert.matches |}.
Definition wildcard_certificate : certificate :=
  {| cert_common_name := Ok (bytes_of "*.a.org"); cert_alternate_names := Ok [] |}.
Definition wildcard_connection : connection certificate := Cnxn.init server wildcard_certificate.

Lemma wildcard_escapes_witness : Cnxn.sni_cb (wildcard_connection, tt) = (Throw regex_error, (wildcard_connection, tt)).
Proof.
  by apply (wildcard_escapes wildcard_connection tt wildcard_certificate [] (bytes_of ".a.org") (bytes_of "www.a.org")).
Defined.
