(* ===== verification/RdbRebuild.v ===== *)
(** * librdb: rebuilding the database (librdb/src/rdb.cpp)

    [rebuild] moves the four files of a closed database aside, makes a new
    database, and copies the pairs of the old value file into it.  Files are
    renamed through [snf::fs] ([FileSys]), on the system that the descriptors are
    of. *)
From S2P Require Import Prelude Bytes DbStruct File FileLaws Disk FdpMgr DbFiles Rdb RdbOpen.
From S2P Require Import Effects Text Addr Sock FileSys.

Definition bkup : bytes := [46; 98; 107; 117; 112].

Module Rebuild.
Section rebuild.
Context {OS : Type} (sys : syscalls OS) `{!FsCalls OS} (m : machine).

(** A function of [snf::fs] without [oserr]. *)
Definition fs_run {A} (m : M cpp_exn OS (Z * A)) (os : OS) : outcome (Z * OS) :=
  match m os with
  | (Ok (r, _), os) => Val (r, os)
  | (Diverge, _) => OutOfFuel
  | _ => Undef
  end.

(** [strncpy] and [strncat] with the size of the array as the limit of what is
    added: a name that does not fit is written past the array. *)
Definition backup_name (name : bytes) : outcome bytes :=
  if zlen name + zlen bkup <=? m_maxpathlen m then Val (name ++ bkup) else Undef.

Definition backupFile (oldName : bytes) (os : OS) : outcome (Z * OS) :=
  let* newName := backup_name oldName in fs_run (Fs.rename newName oldName None) os.
Definition restoreFile (oldName : bytes) (os : OS) : outcome (Z * OS) :=
  let* newName := backup_name oldName in fs_run (Fs.rename oldName newName None) os.
Definition removeBackupFile (oldName : bytes) (os : OS) : outcome (Z * OS) :=
  let* newName := backup_name oldName in fs_run (Fs.remove_file newName None) os.

(** The calls in a row whose codes are dropped. *)
Fixpoint each (f : bytes -> OS -> outcome (Z * OS)) (names : list bytes) (os : OS) : outcome OS :=
  match names with [] => Val os | n :: names => let* (_, os) := f n os in each f names os end.
Definition restore := each restoreFile.

(** The four backups: after a failure the files that were moved are moved back,
    the last one first. *)
Fixpoint backup_all (names moved : list bytes) (os : OS) : outcome (Z * OS) :=
  match names with
  | [] => Val (E_ok, os)
  | n :: names =>
      let* (retval, os) := backupFile n os in
      if retval =? E_ok then backup_all names (n :: moved) os
      else let* os := restore moved os in Val (retval, os)
  end.

(** The loop over the pages of the old value file. *)
Fixpoint copy_loop (fuel : nat) (vf : ValueFile) (offset : Z) (d : db OS) : outcome (Z * db OS) :=
  match fuel with
  | O => OutOfFuel
  | S fuel' =>
      let* (retval, b, os) := ValueFile.read sys fuel vf offset (d_os d) in
      let d := Rdb.with_os d os in
      if negb (retval =? E_ok) then Val (retval, d)
      else
        let vp := dec_value_page b in
        let* (retval, d) :=
          if negb (IsValuePageDeleted (Some vp)) then Rdb.set sys fuel d (Some (vp_key vp)) (vp_klen vp) (Some (vp_value vp)) (vp_vlen vp) None
          else Val (E_ok, d) in
        if retval =? E_ok then copy_loop fuel' vf (offset + sizeof_value_page_t) d else Val (retval, d)
  end.

Definition paths (r : rdb) : outcome (list bytes) :=
  let* idxPath := RdbOpen.file_path (m_maxpathlen m) r [46; 105; 100; 120] in
  let* dbPath := RdbOpen.file_path (m_maxpathlen m) r [46; 100; 98] in
  let* attrPath := RdbOpen.file_path (m_maxpathlen m) r [46; 97; 116; 116; 114] in
  let* fdpPath := RdbOpen.file_path (m_maxpathlen m) r [46; 102; 100; 112] in
  Val [idxPath; dbPath; attrPath; fdpPath].

(** The database is given when it is open at the end. *)
Definition rebuild (fuel : nat) (r : rdb) (os : OS) : outcome (Z * rdb * option (db OS) * OS) :=
  if r_opened r then Val (E_invalid_state, r, None, os)
  else
    let* names := paths r in
    let* (retval, os) := backup_all names [] os in
    if negb (retval =? E_ok) then Val (retval, r, None, os)
    else
      let* (retval, r, d, os) := RdbOpen.open sys fuel m r os in
      match d with
      | None => let* os := restore (rev names) os in Val (retval, r, None, os)
      | Some d =>
          let* dbPath := deref (names !! 1%nat) in
          let* dbPathBkup := backup_name dbPath in
          let '(retval, vf, os) := ValueFile.open sys {| vf_file := file_init dbPathBkup 18; vf_mgr := None |} false os in
          if negb (retval =? E_ok) then
            let* os := restore (rev names) os in
            let os := RdbOpen.destroy_value sys vf os in
            Val (retval, r, Some (Rdb.with_os d os), os)
          else
            let* (retval, d) := copy_loop fuel vf 0 (Rdb.with_os d os) in
            let retval := if retval =? E_eof_detected then E_ok else retval in
            let '(_, _, f, os) := File.close sys (vf_file vf) (d_os d) in
            let '(_, r, d, os) := RdbOpen.close sys r (Rdb.with_os d os) in
            let* os := each (if retval =? E_ok then removeBackupFile else restoreFile) (rev names) os in
            Val (retval, r, (fun d => Rdb.with_os d os) <$> d, RdbOpen.destroy sys f os)
      end.
End rebuild.
End Rebuild.

Import Rebuild.

(** ** The names of files

    What POSIX says of [rename]: the entry of the old name becomes that of the
    new one, or nothing changes. *)
Class NameSystem (OS : Type) `{!FsCalls OS} (V : Type) := {
  names : OS -> gmap bytes V;
  rename_law old new os :
    match sys_rename old new os with
    | (inl _, os') => exists v, names os !! old = Some v /\ names os' = <[new := v]> (delete old (names os))
    | (inr _, os') => names os' = names os
    end;
  (** states in which a file can be moved back *)
  undisturbed : OS -> Prop;
  undisturbed_law old new os : undisturbed os -> undisturbed (sys_rename old new os).2;
  back_law n v os : undisturbed os -> names os !! (n ++ bkup) = Some v -> exists os', sys_rename (n ++ bkup) n os = (inl tt, os') }.

Section facts.
Context {OS V : Type} (sys : syscalls OS) `{!FsCalls OS} `{!NameSystem OS V} (m : machine).

(** Names that have been moved to their backups, one after the other. *)
Inductive moved_away (f : gmap bytes V) : list bytes -> gmap bytes V -> Prop :=
  | none_moved : moved_away f [] f
  | one_moved ns g n v : moved_away f ns g -> g !! n = Some v -> g !! (n ++ bkup) = None -> n <> [] ->
      zlen n + zlen bkup <= m_maxpathlen m -> moved_away f (n :: ns) (<[n ++ bkup := v]> (delete n g)).

Lemma backup_name_app n : n <> [] -> n ++ bkup <> n.
Proof. intros _ H. apply (f_equal length) in H. rewrite length_app in H. cbn in H. lia. Qed.

Lemma restore_one n os : n <> [] -> zlen n + zlen bkup <= m_maxpathlen m ->
  restoreFile m n os = (let '(r, os) := sys_rename (n ++ bkup) n os in Val (match r with inl _ => E_ok | inr _ => E_rename_failed end, os)).
Proof.
  intros Hn Hl. unfold restoreFile, backup_name. rewrite (proj2 (Z.leb_le _ _)) by done. cbn [obind]. unfold fs_run, Fs.rename.
  destruct n as [|c n]; [done|]. cbn [app]. unfold bind, Fs.fs_call. by destruct (sys_rename _ _ os) as [[] ?].
Qed.
Lemma backup_one n os : n <> [] -> zlen n + zlen bkup <= m_maxpathlen m ->
  backupFile m n os = (let '(r, os) := sys_rename n (n ++ bkup) os in Val (match r with inl _ => E_ok | inr _ => E_rename_failed end, os)).
Proof.
  intros Hn Hl. unfold backupFile, backup_name. rewrite (proj2 (Z.leb_le _ _)) by done. cbn [obind]. unfold fs_run, Fs.rename.
  destruct n as [|c n]; [done|]. cbn [app]. unfold bind, Fs.fs_call. by destruct (sys_rename _ _ os) as [[] ?].
Qed.

Lemma restore_undoes f ns : forall os, undisturbed os -> moved_away f ns (names os) -> exists os', restore m ns os = Val os' /\ names os' = f.
Proof.
  induction ns as [|n ns IH]; intros os Hu Ha; inversion Ha as [E|? g ? v Hg Hv Hb Hne Hl E1 E2]; subst.
  - by exists os.
  - unfold restore. cbn [each]. rewrite restore_one by done.
    assert (names os !! (n ++ bkup) = Some v) as Hn by (rewrite <- E2; apply lookup_insert_eq).
    destruct (back_law n v os Hu Hn) as (os1 & Er). pose proof (undisturbed_law (n ++ bkup) n os Hu) as Hu1.
    pose proof (rename_law (n ++ bkup) n os) as L. rewrite Er in L, Hu1 |- *. cbn [obind].
    destruct L as (w & Hw & En). rewrite Hn in Hw. injection Hw as <-. apply IH; [done|].
    assert (names os1 = g) as ->; [|done]. rewrite En, <- E2. rewrite delete_insert_eq. rewrite (delete_id (delete n g)).
    + by apply insert_delete_id.
    + rewrite lookup_delete_ne by (intros H; by apply (backup_name_app n)). done.
Qed.

(** A name for which there is room and no backup. *)
Definition can_move (f : gmap bytes V) (n : bytes) : Prop := n <> [] /\ zlen n + zlen bkup <= m_maxpathlen m /\ f !! (n ++ bkup) = None.

Lemma moved_none f ns g x : moved_away f ns g -> f !! x = None -> (forall n, n ∈ ns -> x <> n ++ bkup) -> g !! x = None.
Proof.
  induction 1 as [|ns g n v _ IH Hg Hb Hne Hl]; intros Hx Hns; [done|].
  rewrite lookup_insert_ne by (intros E; apply (Hns n); [left|done]). destruct (decide (n = x)) as [->|Hnx].
  - rewrite IH in Hg; [done|done|]. intros k Hk. apply Hns. by right.
  - rewrite lookup_delete_ne by done. apply IH; [done|]. intros k Hk. apply Hns. by right.
Qed.

Lemma backup_all_spec f : forall ns moved os, undisturbed os -> Forall (can_move f) ns -> NoDup (rev moved ++ ns) ->
  moved_away f moved (names os) ->
  exists r os', backup_all m ns moved os = Val (r, os') /\
    if r =? E_ok then moved_away f (rev ns ++ moved) (names os') else names os' = f.
Proof.
  induction ns as [|n ns IH]; intros moved os Hu Hcan Hdup Ha; cbn [backup_all].
  - do 2 eexists. split; [reflexivity|]. done.
  - inversion Hcan as [|? ? (Hne & Hl & Hf) Hcan']; subst. rewrite backup_one by done.
    pose proof (rename_law n (n ++ bkup) os) as L. pose proof (undisturbed_law n (n ++ bkup) os Hu) as Hu1. destruct (sys_rename n (n ++ bkup) os) as [[[]|e] os1]; cbn [obind].
    + rewrite Z.eqb_refl. destruct L as (v & Hv & En).
      assert (names os !! (n ++ bkup) = None) as Hnone.
      { eapply moved_none; [exact Ha|done|]. intros k Hk E. apply (app_inv_tail bkup) in E. subst k.
        apply NoDup_app in Hdup as (_ & Hd & _). apply (Hd n); [|left]. by rewrite list_elem_of_In, <- in_rev, <- list_elem_of_In. }
      destruct (IH (n :: moved) os1) as (r & os' & E & Hr); [done|done| |rewrite En; by apply one_moved|].
      { cbn [rev]. by rewrite <- app_assoc. }
      exists r, os'. split; [done|]. cbn [rev]. by rewrite <- app_assoc.
    + change (E_rename_failed =? E_ok) with false. cbn [obind]. rewrite <- L in Ha.
      destruct (restore_undoes f moved os1 Hu1 Ha) as (os2 & -> & En). do 2 eexists. split; [reflexivity|]. done.
Qed.

(** [rebuild] that cannot move the four files aside returns the code, and has
    moved back those that it had moved. *)
Theorem rebuild_backs_out fuel r os ns : r_opened r = false -> paths m r = Val ns -> Forall (can_move (names os)) ns -> NoDup ns ->
  undisturbed os -> (forall os', backup_all m ns [] os <> Val (E_ok, os')) ->
  exists c os', rebuild sys m fuel r os = Val (c, r, None, os') /\ c <> E_ok /\ names os' = names os.
Proof.
  intros Ho Hp Hcan Hdup Hu Hfail. unfold rebuild. rewrite Ho, Hp. cbn [obind].
  destruct (backup_all_spec (names os) ns [] os Hu Hcan Hdup (none_moved _)) as (c & os' & E & Hr).
  rewrite E. cbn [obind]. destruct (Z.eqb_spec c E_ok) as [->|Hc]; [by destruct (Hfail os')|]. cbn [negb]. eauto.
Qed.
End facts.

(** ** A file system in memory

    [ram] of [Disk], with the calls on names. *)
#[export] Instance ram_fs : FsCalls ram := {|
  sys_access n s := (match r_files s !! n with Some _ => inl tt | None => inr 2 end, s);
  sys_stat _ s := (inr 2, s); sys_lstat _ s := (inr 2, s); sys_mkdir _ _ s := (inr 2, s);
  sys_rename old new s := r_call (inr (r_errno s)) s (fun _ s =>
    match r_files s !! old with
    | Some b => (inl tt, r_with (<[new := b]> (delete old (r_files s))) (r_fds s) s)
    | None => (inr 2, r_fail 2 s)
    end);
  sys_unlink n s := r_call (inr (r_errno s)) s (fun _ s =>
    match r_files s !! n with Some _ => (inl tt, r_with (delete n (r_files s)) (r_fds s) s) | None => (inr 2, r_fail 2 s) end);
  sys_rmdir _ s := (inr 2, s); sys_opendir _ s := (inr 2, s); sys_readdir _ s := (inr 2, s); sys_closedir _ s := s;
  sys_pw_dir _ := None; entries _ _ := 0%nat |}.

#[export] Instance ram_names : NameSystem ram bytes.
Proof.
  refine {| names := r_files; undisturbed s := r_faults s = [] |}.
  - intros old new s. unfold sys_rename, ram_fs, r_call. destruct (r_faults s) as [|[] ?]; cbn; try done;
      destruct (r_files s !! old) eqn:E; cbn; eauto.
  - intros old new s Hs. unfold sys_rename, ram_fs, r_call. rewrite Hs. destruct (r_files s !! old); done.
  - intros n v s Hs Hv. unfold sys_rename, ram_fs, r_call. rewrite Hs, Hv. eauto.
Defined.

(** ** Two rebuilds *)
Definition demo_machine : machine := {| m_memory := 32 * 1024; m_malloc := fun _ => true; m_maxpathlen := 4096 |}.
Definition demo_rdb : rdb :=
  {| r_path := bytes_of "/t"; r_name := bytes_of "db"; r_kpSize := 1024; r_htSize := 3;
     r_options := {| o_syncdata := false; o_syncidx := false; o_memusage := 75 |}; r_opened := false |}.
Definition demo_paths : list bytes := bytes_of <$> ["/t/db.idx"; "/t/db.db"; "/t/db.attr"; "/t/db.fdp"]%string.

(** A database without the file of its attributes: the two files that were moved
    are there again. *)
Definition demo_broken : ram := r_with {[ bytes_of "/t/db.idx" := [1]; bytes_of "/t/db.db" := [2] ]} ∅ (ram_init []).
Lemma rebuild_backs_out_witness :
  exists c os', rebuild ram_sys demo_machine 50 demo_rdb demo_broken = Val (c, demo_rdb, None, os') /\ c <> E_ok /\ names os' = names demo_broken.
Proof.
  apply (rebuild_backs_out ram_sys demo_machine 50 demo_rdb demo_broken demo_paths).
  - reflexivity.
  - vm_compute. reflexivity.
  - apply (bool_decide_unpack _). vm_compute. reflexivity.
  - apply (bool_decide_unpack _). vm_compute. reflexivity.
  - reflexivity.
  - intros os' H. apply (f_equal (fun o => match o with Val (c, _) => c =? E_ok | _ => false end)) in H. vm_compute in H. discriminate.
Defined.

(** Pairs that were set and not removed are there after a rebuild; the files
    that were moved aside are gone. *)
Definition demo_story : outcome (Z * Z * bytes * Z * list bytes) :=
  let key s := Some (bytes_of s) in
  let* (_, r, d, _) := RdbOpen.open ram_sys 50 demo_machine demo_rdb (ram_init []) in
  let* d := deref d in
  let* (_, d) := Rdb.set ram_sys 50 d (key "apple") 5 (key "red") 3 None in
  let* (_, d) := Rdb.set ram_sys 50 d (key "plum") 4 (key "blue") 4 None in
  let* (_, d) := Rdb.remove ram_sys 50 d (key "apple") 5 in
  let '(_, r, _, os) := RdbOpen.close ram_sys r d in
  let* (c, r, _, os) := rebuild ram_sys demo_machine 50 r os in
  let* (_, _, d, _) := RdbOpen.open ram_sys 50 demo_machine r os in
  let* d := deref d in
  let* (c1, v, n, d) := Rdb.get ram_sys 50 d (key "plum") 4 (Some (replicate 8 0)) (Some 8) in
  let* (c2, _, _, d) := Rdb.get ram_sys 50 d (key "apple") 5 (Some (replicate 8 0)) (Some 8) in
  Val (c, c1, default [] v, c2, (map_to_list (r_files (d_os d))).*1).
Example rebuild_keeps_pairs : exists v names, demo_story = Val (E_ok, E_ok, v, E_not_found, names) /\ take 4 v = bytes_of "blue" /\
  Forall (fun n => drop (length n - 5) n <> bkup) names.
Proof. eexists _, _. split; [vm_compute; reflexivity|]. split; [reflexivity|]. apply (bool_decide_unpack _). vm_compute. reflexivity. Qed.
